(* ===== verification/_CoqProject ===== *)
-Q . S2P
Prelude.v
Errno.v
Bytes.v
CommonList.v
SeqVerify.v
Bitmap.v
Utils.v
LnnMap.v
Queue.v
Looper.v
StateMachine.v
Permission.v
FileList.v
DFileFrame.v
FileHeaders.v
Adapter.v
PendingPkt.v
TcpDirect.v
BleTrans.v
SendQueue.v
BrTrans.v
DiscManager.v
ConnManager.v
BrConnection.v
BrSafety.v
NodeInfo.v
Ledger.v
ProxyCommon.v
ProxyFile.v
ProxySend.v
ProxyTransfer.v
ProxyDeliver.v
ProxyDefects.v
