(* ===== verification/Prelude.v ===== *)
(** * Verification of the DSoftBus core

    DSoftBus connects devices: it discovers them ([core/discovery]), connects
    over Bluetooth, Wi-Fi or TCP ([core/connection]), authenticates
    ([core/authentication]), keeps a ledger of the nodes it knows
    ([core/bus_center]) and carries messages, bytes, files and streams between
    applications ([core/transmission]); files travel over the DFile protocol
    of [components/nstackx].  All of these stand on a few shared mechanisms
    of [core/common] and [core/bus_center/utils]: intrusive lists, a message
    looper and a lock-free queue for threads, a hash map, state machines, an
    anti-replay window, the permission table, and conversions.  This library
    models these mechanisms, the frames of the file transfer, the direct TCP
    channels of the SDK, the connection manager, Bluetooth connections and
    what they do with messages, the discovery manager, the ledger of the
    network and the transfer of files over proxy channels, and proves what
    their clients rely on.

    ** Files

    - [Prelude] (this file): machine integers, bit tests, lists, tactics and
      hints shared by all files.
    - [Errno]: the error codes of [interfaces/kits/common].
    - [Bytes]: byte buffers, big-endian numbers, C strings, checked copies.
    - [CommonList]: [core/common/include/common_list.h], at the level of
      prev/next pointers in a memory.  Each operation implements a sequence
      operation and touches no other memory; the iteration macros terminate.
      The other files keep such lists as sequences on this ground.
    - [SeqVerify]: the anti-replay window of
      [softbus_sequence_verification.c]: the window its header describes, over
      unbounded packet numbers, and the duplicates the code lets through.
    - [Bitmap]: [softbus_bitmap.c], bit by bit.
    - [Utils]: [softbus_utils.c]: hexadecimal and MAC round trips, masking,
      comparison, random strings, the timer table.
    - [LnnMap]: [lnn_map.c]: the hash map refines a finite map, through
      resizing, removal and iteration.
    - [Queue]: [softbus_queue.c] and [.h]: the single-threaded operations
      refine a bounded FIFO; under every interleaving of any number of
      producers and consumers the lock-free ones are linearizable.
    - [Looper]: [message_handler.c]: every interleaving of clients, loop
      thread and destruction keeps the messages ordered and accounted for
      exactly once; posted messages are delivered in order; destruction, by
      another thread or by the thread itself when it ends, is safe once the
      thread has started, and neither before nor by both at once.
    - [StateMachine]: [lnn_state_machine.c], over the interface of a looper
      (class [MessageLoop] with its laws, discharged by [Looper]): a machine
      runs exactly when it has a registered state, whatever its callbacks do.
    - [Permission]: [permission_entry.c] and the checks of
      [small/softbus_permission.c]: what is granted by the configuration and
      at run time, what is loaded, and the set of the latter permissions.
    - [FileList]: [nstackx_file_list.c]: the list of files of a transfer on
      both ends, with its invariant.
    - [DFileFrame]: [nstackx_dfile_frame.c]: every encoder and decoder on the
      bytes of the frame; no decoder leaves the frame or the list, whatever
      arrives; settings of every protocol version are understood.
    - [FileHeaders]: the exchange of header, confirm and done frames: the
      receiver ends up with what the sender offers, the sender with what the
      receiver confirms.
    - [Adapter]: of [adapter/common], the limits of allocations, the
      conversions of byte order, and encryption over mbedtls, whose cipher is
      the class [Gcm] with its laws; the state monad of [TcpDirect].
    - [PendingPkt]: [core/transmission/common/src/trans_pending_pkt.c]: senders
      that wait for an acknowledgement, under every schedule.
    - [TcpDirect]: [sdk/transmission/trans_channel/tcp_direct]: channels,
      receive buffers and encrypted packets.  The incremental receiver equals
      the decoder of a whole stream, what is sent is received, and the tables
      stay well formed whatever arrives.
    - [BleTrans]: [core/connection/ble/src/softbus_ble_trans_manager.c]:
      fragments over Low Energy.  The receiver refines a specification of
      reassembly; sent messages arrive; bounds of the caches.
    - [SendQueue]: [br_connection_queue.c] and [softbus_ble_queue.c]: the send
      queues of processes and priorities over the interface of a queue (class
      [Fifo] with its laws, discharged by [Queue]): order of what is stored,
      what the answers to callers mean, and fairness, under every schedule.
    - [BrTrans]: [core/connection/br/src/br_trans_manager.c]: frames over
      classic Bluetooth: what is written whole is read, frame by frame; bounds
      of the parser.
    - [DiscManager]: [core/discovery/manager]: what modules and clients
      publish and look for.  Items, their registrations and the lists of the
      capabilities are objects of a heap; over the interface of the media
      (record [DiscoveryFuncInterface]) every call refines an operation on
      finite maps, with the errors of its own locks and allocations and no
      others, a found device is reported to exactly the registrations it
      matches, and the death of a client removes what is its own.
    - [ConnManager]: [core/connection/manager]: the modules that listen to
      connections, over the interface of the media (record
      [ConnectFuncInterface]).  The table refines a finite map whatever the
      listeners do when they are called; what is posted is handed to the
      medium as a frame, and the frames that are sent over [BrTrans] reach the
      same modules of the other device.
    - [BrConnection]: [br_connection.c], [br_connection_manager.c] and
      [br_pending_packet.c] of [core/connection/br]: connections over classic
      Bluetooth, as programs of threads over one memory.
    - [BrSafety]: a logic for these threads, with what each of them owns, and
      what it shows of them: where memory is used after its release and
      nowhere else, requests answered at most once, bounds of the window.
    - [NodeInfo]: [core/bus_center/lnn/net_ledger/common/src]: the fields of a
      node, ways of discovery, and names of device types, which give the type
      back.
    - [Ledger]: [lnn_distributed_net_ledger.c] over [LnnMap] and [NodeInfo]:
      the nodes of the network refine a finite map under every call; the
      reports say which nodes are online; ids are converted and back.
    - [ProxyCommon]: [client_trans_proxy_file_common.c] of
      [sdk/transmission/trans_channel/proxy]: paths, locks of files, the
      checksum, which equals its definition bit by bit and notices a changed
      byte, and the list of names, which is read as it was written.
    - [ProxyFile]: the state of [client_trans_proxy_file_manager.c], the
      system calls, and the receiver of files: unpacking of frames,
      recipients with their references, windows of 32 frames.
    - [ProxySend]: the sender of files, the packets it waits for
      ([client_trans_pending.c]), the timer, start and stop.
    - [ProxyTransfer]: whatever frames of a stream in order are lost, whatever
      frames of answered windows, which are the ones the sender repeats, come
      again, and whatever the system refuses, a receiver that accepts the final
      sum has the file, unless a frame has the checksum 0.
    - [ProxyDeliver]: the sender and the receiver composed, over a channel and
      a system that work: a file of any size up to 5 MB is delivered, and the
      list of files at the end refused.
    - [ProxyDefects]: runs in which the transfer does what it should not.

    ** Conventions

    A w-bit integer is a [Z] with its wrap-around written out ([wrapU],
    [wrapS]).  State is passed and returned; what the system decides (memory,
    locks, clock, random numbers, [stat], cJSON, regular expressions, the
    permission service) is an argument.  An outer [option] is undefined
    behaviour: an access outside a buffer, through NULL, or to released
    memory, a shift by the width or more.  Error codes are values.  Where
    threads meet, the code is a step function over its program points, or a
    program of actions ([BrConnection]), and a list of actions is a schedule.
    The addresses of C objects are kept where the code depends on them
    ([CommonList], [SendQueue], [DiscManager], [BrConnection]); elsewhere an
    object is its value.

    ** Fuel

    - Loops over an array or list run on its length, and the bit scans of
      [Bitmap] on 33 rounds, one more than a word has bits.
    - [LIST_FOR_EACH] of [CommonList] takes the fuel its theorem states: more
      than the number of nodes.
    - The decoding loops of [DFileFrame] have one round per byte of payload
      and one more; each round consumes at least 12 bytes.  The encoding
      loops have one round per file left and one more.  [decoders_in_bounds]
      and the theorems of [FileHeaders] show that this is enough.
    - [SendFileHeader] takes the outcomes of [SendFrame], one per round;
      [header_frames_deliver] gives the number of rounds that is enough.
    - [StateMachine] bounds the nesting of state changes inside callbacks.
    - The receive loop of [TcpDirect] has one round per byte received and one
      more; each packet has at least a head of 16 bytes.  The send loops of
      [BleTrans] and [BrTrans] have one round per byte, the read loop of
      [BrTrans] one per byte of the stream and one more; the theorems show
      that this is enough, and lemmas show the inputs for which no fuel is.
    - Loops over a map of [LnnMap] run as often as it has nodes, and [%d] of
      [Ledger] has ten digits, as an [int] has.
    - The search for a free number of [BrConnection] has one round per number
      of 16 bits and one more; its send loop has one round per byte.  A
      thread without fuel waits, like the loop it stands for.
    - The scan of a list of names in [ProxyCommon] has one round per byte and
      one more; an item has at least a head of 8 bytes.  The other loops of
      the proxy files run over the frames, windows and files they are for.

    ** Not modelled

    Releasing memory where nothing depends on it, logging and dumps, sockets,
    threads of the system, Bluetooth drivers, IPC stubs, and the libraries
    cJSON, mbedtls, hichain and coap.  Of the larger parts, authentication, the
    net builder, the tables of Low Energy and TCP connections, the channels of
    the server, the session tables of the SDK, the data path of DFile and the
    FILLP transport are not modelled yet.

    ** Plan

    Next are the tables of Low Energy and TCP connections, the transfer
    state machines of [nstackx_dfile_transfer.c] on top of
    [FileHeaders], the connection state machine of [core/bus_center] on top of
    [StateMachine] and [Ledger], and the session tables of
    [core/transmission]. *)

From stdpp Require Export base tactics option list gmap sets.
From Stdlib Require Export ZArith Lia.

#[global] Open Scope Z_scope.

(** ** Machine integers

    A C integer of width [w] is a [Z].  [wrapU w] is the conversion to the
    unsigned type, [wrapS w] the two's-complement conversion to the signed
    type. *)

Definition wrapU (w x : Z) : Z := x mod 2 ^ w.

Definition wrapS (w x : Z) : Z := (x + 2 ^ (w - 1)) mod 2 ^ w - 2 ^ (w - 1).

Declare Scope cint_scope.
Delimit Scope cint_scope with cint.
Abbreviation u8 := (wrapU 8).
Abbreviation u16 := (wrapU 16).
Abbreviation u32 := (wrapU 32).
Abbreviation u64 := (wrapU 64).
Abbreviation s16 := (wrapS 16).
Abbreviation s32 := (wrapS 32).
Abbreviation s64 := (wrapS 64).

Definition is_u (w x : Z) : Prop := 0 <= x < 2 ^ w.
Definition is_s (w x : Z) : Prop := - 2 ^ (w - 1) <= x < 2 ^ (w - 1).

#[global] Instance is_u_dec w x : Decision (is_u w x).
Proof. unfold is_u. apply _. Defined.
#[global] Instance is_s_dec w x : Decision (is_s w x).
Proof. unfold is_s. apply _. Defined.

(** Turn the wrap functions of the usual widths into [mod] by literals, so
    that [lia] can eliminate them with [Z.div_mod_to_equations]. *)
Ltac widths :=
  repeat match goal with
  | H : context [2 ^ (?w - 1)] |- _ =>
      let v := eval vm_compute in (2 ^ (w - 1)) in
      change (2 ^ (w - 1)) with v in H
  | |- context [2 ^ (?w - 1)] =>
      let v := eval vm_compute in (2 ^ (w - 1)) in
      change (2 ^ (w - 1)) with v
  | H : context [2 ^ (Zpos ?p)] |- _ =>
      let v := eval vm_compute in (2 ^ (Zpos p)) in
      change (2 ^ (Zpos p)) with v in H
  | |- context [2 ^ (Zpos ?p)] =>
      let v := eval vm_compute in (2 ^ (Zpos p)) in
      change (2 ^ (Zpos p)) with v
  end.

(** Solve [is_u]/[is_s] side conditions with literal widths. *)
Ltac range := unfold is_u, is_s in *; widths; lia.

Ltac cint :=
  unfold wrapU, wrapS, is_u, is_s in *; widths;
  Z.div_mod_to_equations; lia.


Lemma wrapU_range w x : 0 <= w -> is_u w (wrapU w x).
Proof. intros. unfold is_u, wrapU. apply Z.mod_pos_bound. lia. Qed.

Lemma wrapU_id w x : is_u w x -> wrapU w x = x.
Proof. intros. unfold wrapU. apply Z.mod_small. done. Qed.

Lemma pow2_half w : 1 <= w -> 2 ^ w = 2 * 2 ^ (w - 1).
Proof. intros. rewrite <- Z.pow_succ_r by lia. f_equal. lia. Qed.

Lemma wrapS_range w x : 1 <= w -> is_s w (wrapS w x).
Proof.
  intros. unfold is_s, wrapS. rewrite (pow2_half w) by done.
  pose proof (Z.mod_pos_bound (x + 2 ^ (w - 1)) (2 * 2 ^ (w - 1))). lia.
Qed.

Lemma wrapS_id w x : 1 <= w -> is_s w x -> wrapS w x = x.
Proof.
  intros ? Hx. unfold is_s, wrapS in *. rewrite (pow2_half w) by done.
  rewrite Z.mod_small; lia.
Qed.

(** The hints that discharge range conditions on wrapped numbers. *)
Create HintDb cint discriminated.
#[export] Hint Extern 1 (is_u _ (wrapU _ _)) => apply wrapU_range; lia : cint.
#[export] Hint Extern 1 (is_s _ (wrapS _ _)) => apply wrapS_range; lia : cint.
#[export] Hint Extern 3 (is_u _ _) => range : cint.
#[export] Hint Extern 3 (is_s _ _) => range : cint.

(** Wrapping changes a number by a multiple of [2 ^ w] and ignores such
    multiples, so an operand of [+], [-] or [*] may be wrapped or not. *)
Lemma wrapS_witness w x : exists k, wrapS w x = x + k * 2 ^ w.
Proof.
  exists (- ((x + 2 ^ (w - 1)) / 2 ^ w)). unfold wrapS.
  pose proof (Z.div_mod (x + 2 ^ (w - 1)) (2 ^ w)).
  destruct (decide (2 ^ w = 0)) as [E|]; [rewrite E, Z.mod_0_r; lia | lia].
Qed.

Lemma wrapU_witness w x : exists k, wrapU w x = x + k * 2 ^ w.
Proof.
  exists (- (x / 2 ^ w)). unfold wrapU.
  pose proof (Z.div_mod x (2 ^ w)).
  destruct (decide (2 ^ w = 0)) as [E|]; [rewrite E, Z.mod_0_r; lia | lia].
Qed.

Lemma wrapS_shift w x k : wrapS w (x + k * 2 ^ w) = wrapS w x.
Proof.
  unfold wrapS. f_equal.
  replace (x + k * 2 ^ w + 2 ^ (w - 1)) with (x + 2 ^ (w - 1) + k * 2 ^ w) by lia.
  apply Z_mod_plus_full.
Qed.

Lemma wrapU_shift w x k : wrapU w (x + k * 2 ^ w) = wrapU w x.
Proof. apply Z_mod_plus_full. Qed.

Lemma wrapS_sub w x y : wrapS w (wrapS w x - wrapS w y) = wrapS w (x - y).
Proof.
  destruct (wrapS_witness w x) as [i ->], (wrapS_witness w y) as [j ->].
  rewrite <- (wrapS_shift w (x - y) (i - j)). f_equal. lia.
Qed.

Lemma wrapS_add_l w x y : wrapS w (wrapS w x + y) = wrapS w (x + y).
Proof.
  destruct (wrapS_witness w x) as [i ->].
  rewrite <- (wrapS_shift w (x + y) i). f_equal. lia.
Qed.

Lemma wrapU_wrapS w x : wrapU w (wrapS w x) = wrapU w x.
Proof.
  destruct (wrapS_witness w x) as [i ->]. apply wrapU_shift.
Qed.

Lemma wrapU_add_l w x y : wrapU w (wrapU w x + y) = wrapU w (x + y).
Proof.
  destruct (wrapU_witness w x) as [i ->].
  rewrite <- (wrapU_shift w (x + y) i). f_equal. lia.
Qed.

Lemma wrapU_add_r w x y : wrapU w (x + wrapU w y) = wrapU w (x + y).
Proof. rewrite Z.add_comm, wrapU_add_l. f_equal. lia. Qed.

Lemma wrapU_sub w x y : wrapU w (wrapU w x - wrapU w y) = wrapU w (x - y).
Proof.
  destruct (wrapU_witness w x) as [i ->], (wrapU_witness w y) as [j ->].
  rewrite <- (wrapU_shift w (x - y) (i - j)). f_equal. lia.
Qed.

(** ** Bit tests *)

Lemma testbit_wrapU w x i :
  0 <= w -> Z.testbit (wrapU w x) i = (i <? w) && Z.testbit x i.
Proof.
  intros. unfold wrapU. rewrite <- Z.land_ones by done.
  rewrite Z.land_spec, Z.testbit_ones by done.
  destruct (Z.ltb_spec i w), (Z.leb_spec 0 i); simpl;
    rewrite ?andb_true_r, ?andb_false_r; try done.
  by rewrite Z.testbit_neg_r by lia.
Qed.

Lemma testbit_bit o i : 0 <= o -> Z.testbit (Z.shiftl 1 o) i = bool_decide (i = o).
Proof.
  intros. rewrite Z.shiftl_1_l.
  case_bool_decide; subst.
  - by apply Z.pow2_bits_true.
  - by apply Z.pow2_bits_false.
Qed.

(** [x & (1 << o)] is non-zero exactly when bit [o] is set. *)
Lemma land_bit x o : 0 <= o ->
  Z.land x (Z.shiftl 1 o) = if Z.testbit x o then Z.shiftl 1 o else 0.
Proof.
  intros. apply Z.bits_inj'. intros i Hi.
  rewrite Z.land_spec, testbit_bit by done.
  case_bool_decide; subst.
  - destruct (Z.testbit x o) eqn:E.
    + by rewrite testbit_bit, bool_decide_true.
    + by rewrite Z.bits_0.
  - destruct (Z.testbit x o);
      rewrite ?testbit_bit, ?bool_decide_false, ?Z.bits_0, ?andb_false_r by done; done.
Qed.

Lemma is_u_bits w x : 0 <= w ->
  (forall i, w <= i -> Z.testbit x i = false) -> is_u w x.
Proof.
  intros Hw Hi. assert (wrapU w x = x) as <-; [|by apply wrapU_range].
  apply Z.bits_inj'. intros i _. rewrite testbit_wrapU by done.
  destruct (Z.ltb_spec i w); [done|]. by rewrite Hi.
Qed.

(** A boolean property of bytes is checked by evaluating it 256 times. *)
Lemma all_bytes (P : Z -> bool) :
  forallb P (seqZ 0 256) = true -> forall b, is_u 8 b -> P b = true.
Proof.
  intros H b Hb. rewrite forallb_forall in H. apply H.
  apply list_elem_of_In, elem_of_seqZ. range.
Qed.

(** Split every boolean comparison of the goal, innermost condition first,
    and drop the branches that arithmetic excludes. *)
Ltac split_cmp :=
  repeat (match goal with
  | |- context [?x =? ?y] => destruct (Z.eqb_spec x y)
  | |- context [?x <? ?y] => destruct (Z.ltb_spec x y)
  | |- context [?x <=? ?y] => destruct (Z.leb_spec x y)
  end; try lia; cbn [andb orb negb]).

(** ** Lists *)

Lemma list_filter_all {A} (P : A -> Prop) `{!forall x, Decision (P x)} l :
  Forall P l -> filter P l = l.
Proof. induction 1; [done|]. rewrite filter_cons_True by done. by f_equal. Qed.

Lemma list_filter_none {A} (P : A -> Prop) `{!forall x, Decision (P x)} l :
  Forall (fun x => ~ P x) l -> filter P l = [].
Proof. induction 1; [done|]. by rewrite filter_cons_False by done. Qed.
