(* ===== verification/Errno.v ===== *)
(** * Error codes

    Models the codes of [interfaces/kits/common/softbus_error_code.h] the
    other files return.  [SOFTBUS_ERRNO] is computed as the macro computes
    it, in [int]. *)

From S2P Require Import Prelude.

Module Errno.

Definition SOFTBUS_ERRNO (module : Z) : Z :=
  s32 (Z.lor (Z.shiftl 15 28) (Z.shiftl (Z.shiftl 1 module) 16)).

Definition SOFTBUS_MOD_COMMON : Z := 0.
Definition SOFTBUS_MOD_TRANS : Z := 2.
Definition SOFTBUS_MOD_LNN : Z := 4.
Definition SOFTBUS_MOD_CONNECT : Z := 5.
Definition SOFTBUS_MOD_DISCOVERY : Z := 6.

Definition SOFTBUS_OK : Z := 0.
Definition SOFTBUS_ERR : Z := -1.

Definition SOFTBUS_TIMOUT : Z := SOFTBUS_ERRNO SOFTBUS_MOD_COMMON + 1.
Definition SOFTBUS_INVALID_PARAM : Z := SOFTBUS_ERRNO SOFTBUS_MOD_COMMON + 2.
Definition SOFTBUS_MEM_ERR : Z := SOFTBUS_ERRNO SOFTBUS_MOD_COMMON + 3.
Definition SOFTBUS_NO_INIT : Z := SOFTBUS_ERRNO SOFTBUS_MOD_COMMON + 6.
Definition SOFTBUS_PARSE_JSON_ERR : Z := SOFTBUS_ERRNO SOFTBUS_MOD_COMMON + 7.
Definition SOFTBUS_PERMISSION_DENIED : Z := SOFTBUS_ERRNO SOFTBUS_MOD_COMMON + 8.
Definition SOFTBUS_MALLOC_ERR : Z := SOFTBUS_ERRNO SOFTBUS_MOD_COMMON + 10.
Definition SOFTBUS_ENCRYPT_ERR : Z := SOFTBUS_ERRNO SOFTBUS_MOD_COMMON + 11.
Definition SOFTBUS_DECRYPT_ERR : Z := SOFTBUS_ERRNO SOFTBUS_MOD_COMMON + 12.
Definition SOFTBUS_TCP_SOCKET_ERR : Z := SOFTBUS_ERRNO SOFTBUS_MOD_COMMON + 16.
Definition SOFTBUS_LOCK_ERR : Z := SOFTBUS_ERRNO SOFTBUS_MOD_COMMON + 17.
Definition SOFTBUS_NO_ENOUGH_DATA : Z := SOFTBUS_ERRNO SOFTBUS_MOD_COMMON + 19.
Definition SOFTBUS_INVALID_DATA_HEAD : Z := SOFTBUS_ERRNO SOFTBUS_MOD_COMMON + 20.
Definition SOFTBUS_FILE_ERR : Z := SOFTBUS_ERRNO SOFTBUS_MOD_COMMON + 22.
Definition SOFTBUS_DATA_NOT_ENOUGH : Z := SOFTBUS_ERRNO SOFTBUS_MOD_COMMON + 23.
Definition SOFTBUS_ALREADY_EXISTED : Z := SOFTBUS_ERRNO SOFTBUS_MOD_COMMON + 25.
Definition SOFTBUS_NOT_FIND : Z := SOFTBUS_ERRNO SOFTBUS_MOD_COMMON + 28.
Definition SOFTBUS_ALREADY_TRIGGERED : Z := SOFTBUS_ERRNO SOFTBUS_MOD_COMMON + 29.
Definition SOFTBUS_FILE_BUSY : Z := SOFTBUS_ERRNO SOFTBUS_MOD_COMMON + 30.

Definition SOFTBUS_TRANS_INVALID_DATA_LENGTH : Z := SOFTBUS_ERRNO SOFTBUS_MOD_TRANS + 11.
Definition SOFTBUS_TRANS_PROXY_SENDMSG_ERR : Z := SOFTBUS_ERRNO SOFTBUS_MOD_TRANS + 17.
Definition SOFTBUS_TRANS_TDC_CHANNEL_NOT_FOUND : Z := SOFTBUS_ERRNO SOFTBUS_MOD_TRANS + 59.
Definition SOFTBUS_TRANS_TDC_CHANNEL_ALREADY_PENDING : Z := SOFTBUS_ERRNO SOFTBUS_MOD_TRANS + 60.
Definition SOFTBUS_TRANS_TDC_PENDINGLIST_NOT_FOUND : Z := SOFTBUS_ERRNO SOFTBUS_MOD_TRANS + 61.

Definition SOFTBUS_CONN_MANAGER_TYPE_NOT_SUPPORT : Z := SOFTBUS_ERRNO SOFTBUS_MOD_CONNECT + 2.
Definition SOFTBUS_CONN_MANAGER_OP_NOT_SUPPORT : Z := SOFTBUS_ERRNO SOFTBUS_MOD_CONNECT + 3.
Definition SOFTBUS_CONN_MANAGER_PKT_LEN_INVALID : Z := SOFTBUS_ERRNO SOFTBUS_MOD_CONNECT + 4.
Definition SOFTBUS_CONN_INVALID_CONN_TYPE : Z := SOFTBUS_ERRNO SOFTBUS_MOD_CONNECT + 6.
Definition SOFTBUS_CONNECTION_ERR_SENDQUEUE_FULL : Z := SOFTBUS_ERRNO SOFTBUS_MOD_CONNECT + 12.
Definition SOFTBUS_BRCONNECTION_POSTBYTES_ERROR : Z := SOFTBUS_ERRNO SOFTBUS_MOD_CONNECT + 13.
Definition SOFTBUS_BRCONNECTION_GETCONNINFO_ERROR : Z := SOFTBUS_ERRNO SOFTBUS_MOD_CONNECT + 14.
Definition SOFTBUS_BRCONNECTION_STRNCPY_ERROR : Z := SOFTBUS_ERRNO SOFTBUS_MOD_CONNECT + 15.
Definition SOFTBUS_BRCONNECTION_CONNECTDEVICE_GETSOCKETIDFAIL : Z := SOFTBUS_ERRNO SOFTBUS_MOD_CONNECT + 18.
Definition SOFTBUS_BRCONNECTION_DISCONNECT_NOTFIND : Z := SOFTBUS_ERRNO SOFTBUS_MOD_CONNECT + 19.

Definition SOFTBUS_DISCOVER_MANAGER_NOT_INIT : Z := SOFTBUS_ERRNO SOFTBUS_MOD_DISCOVERY + 4.
Definition SOFTBUS_DISCOVER_MANAGER_ITEM_NOT_CREATE : Z := SOFTBUS_ERRNO SOFTBUS_MOD_DISCOVERY + 5.
Definition SOFTBUS_DISCOVER_MANAGER_INFO_NOT_CREATE : Z := SOFTBUS_ERRNO SOFTBUS_MOD_DISCOVERY + 6.
Definition SOFTBUS_DISCOVER_MANAGER_INFO_NOT_DELETE : Z := SOFTBUS_ERRNO SOFTBUS_MOD_DISCOVERY + 7.
Definition SOFTBUS_DISCOVER_MANAGER_INNERFUNCTION_FAIL : Z := SOFTBUS_ERRNO SOFTBUS_MOD_DISCOVERY + 8.
Definition SOFTBUS_DISCOVER_MANAGER_CAPABILITY_INVALID : Z := SOFTBUS_ERRNO SOFTBUS_MOD_DISCOVERY + 9.
Definition SOFTBUS_DISCOVER_MANAGER_DUPLICATE_PARAM : Z := SOFTBUS_ERRNO SOFTBUS_MOD_DISCOVERY + 10.
Definition SOFTBUS_DISCOVER_MANAGER_INVALID_MEDIUM : Z := SOFTBUS_ERRNO SOFTBUS_MOD_DISCOVERY + 12.
Definition SOFTBUS_DISCOVER_MANAGER_INVALID_PKGNAME : Z := SOFTBUS_ERRNO SOFTBUS_MOD_DISCOVERY + 13.
Definition SOFTBUS_DISCOVER_MANAGER_INVALID_MODULE : Z := SOFTBUS_ERRNO SOFTBUS_MOD_DISCOVERY + 14.

End Errno.
