(* ===== verification/Bytes.v ===== *)
(** * Byte buffers and C strings

    The memory the file-transfer code works on: a buffer is the list of its
    bytes.  An access outside the buffer has no result ([None]), so a theorem
    that an operation answers [Some] says that it stays inside.

    - [get] and [put] read and write a range;
    - [be_bytes] and [be_val] are the big-endian encodings that [htons],
      [htonl], [htobe64] and their inverses stand for;
    - [cstr] reads a C string out of an array, up to its terminator;
    - [memcpy_s] and [strcpy_s] follow Annex K of the C standard: a copy that
      does not fit is refused and the destination is reset. *)

From S2P Require Import Prelude.

Module Bytes.

Abbreviation bytes := (list Z).

Definition len (b : bytes) : Z := Z.of_nat (length b).

Definition is_bytes (b : bytes) : Prop := Forall (is_u 8) b.

#[global] Instance is_bytes_dec b : Decision (is_bytes b).
Proof. unfold is_bytes. apply _. Defined.

Definition get (b : bytes) (off n : Z) : option bytes :=
  if (0 <=? off) && (0 <=? n) && (off + n <=? len b)
  then Some (take (Z.to_nat n) (drop (Z.to_nat off) b)) else None.

Definition put (b : bytes) (off : Z) (bs : bytes) : option bytes :=
  if (0 <=? off) && (off + len bs <=? len b)
  then Some (list_inserts (Z.to_nat off) bs b) else None.

(** ** Big-endian numbers *)

Fixpoint be_bytes (n : nat) (x : Z) : bytes :=
  match n with
  | O => []
  | S n' => be_bytes n' (Z.shiftr x 8) ++ [Z.land x 255]
  end.

Definition be_val (bs : bytes) : Z := foldl (fun a b => a * 256 + b) 0 bs.

Definition get8 (b : bytes) (off : Z) : option Z := be_val <$> get b off 1.
Definition get16 (b : bytes) (off : Z) : option Z := be_val <$> get b off 2.
Definition get32 (b : bytes) (off : Z) : option Z := be_val <$> get b off 4.
Definition get64 (b : bytes) (off : Z) : option Z := be_val <$> get b off 8.

Definition put8 (b : bytes) (off x : Z) : option bytes := put b off (be_bytes 1 x).
Definition put16 (b : bytes) (off x : Z) : option bytes := put b off (be_bytes 2 x).
Definition put32 (b : bytes) (off x : Z) : option bytes := put b off (be_bytes 4 x).
Definition put64 (b : bytes) (off x : Z) : option bytes := put b off (be_bytes 8 x).

(** ** C strings and bounds-checked copies *)

Fixpoint cstr (a : bytes) : option bytes :=
  match a with
  | [] => None
  | b :: a' => if b =? 0 then Some [] else cons b <$> cstr a'
  end.

(** [memcpy_s(&b[off], destMax, src, count)]: whether it succeeded, and the
    buffer after it. *)
Definition memcpy_s (b : bytes) (off destMax : Z) (src : bytes) (count : Z)
  : option (bool * bytes) :=
  if destMax <? count then
    b' ← put b off (replicate (Z.to_nat destMax) 0); Some (false, b')
  else
    s ← get src 0 count;
    b' ← put b off s; Some (true, b').

(** [strcpy_s(dest, sizeof(dest), src)] *)
Definition strcpy_s (dest src : bytes) : option (bool * bytes) :=
  s ← cstr src;
  if len dest <=? len s then
    b' ← put dest 0 [0]; Some (false, b')
  else
    b' ← put dest 0 (s ++ [0]); Some (true, b').

(** ** Lemmas *)

Lemma len_nil : len [] = 0.
Proof. done. Qed.

Lemma len_cons b l : len (b :: l) = 1 + len l.
Proof. unfold len. simpl. lia. Qed.

Lemma len_app (a b : bytes) : len (a ++ b) = len a + len b.
Proof. unfold len. rewrite length_app. lia. Qed.

Lemma len_nonneg b : 0 <= len b.
Proof. unfold len. lia. Qed.

Lemma len_replicate n x : len (replicate n x) = Z.of_nat n.
Proof. unfold len. by rewrite length_replicate. Qed.

Lemma length_be_bytes n x : length (be_bytes n x) = n.
Proof. revert x. induction n; intros; simpl; [done|]. rewrite length_app, IHn. simpl. lia. Qed.

Lemma len_be_bytes n x : len (be_bytes n x) = Z.of_nat n.
Proof. unfold len. by rewrite length_be_bytes. Qed.

(** Lengths of concatenations: normalise and leave the rest to [lia]. *)
Create HintDb lens discriminated.
#[export] Hint Rewrite len_nil len_cons len_app len_replicate len_be_bytes : lens.
Ltac lens := autorewrite with lens; lia.

Lemma be_val_app a b : be_val (a ++ [b]) = be_val a * 256 + b.
Proof. unfold be_val. by rewrite foldl_app. Qed.

(** Decoding what was encoded gives the number modulo its width. *)
Lemma be_val_bytes n x : be_val (be_bytes n x) = wrapU (8 * Z.of_nat n) x.
Proof.
  revert x. induction n as [|n IH]; intros x.
  - unfold wrapU. cbn. by rewrite Z.mod_1_r.
  - cbn [be_bytes]. rewrite be_val_app, IH.
    rewrite Z.shiftr_div_pow2 by lia.
    change 255 with (Z.ones 8). rewrite Z.land_ones by lia.
    unfold wrapU. replace (8 * Z.of_nat (S n)) with (8 + 8 * Z.of_nat n) by lia.
    rewrite Z.pow_add_r by lia.
    rewrite (Z.rem_mul_r x (2 ^ 8) (2 ^ (8 * Z.of_nat n))) by lia. lia.
Qed.

Lemma be_val_bytes_id n x : is_u (8 * Z.of_nat n) x -> be_val (be_bytes n x) = x.
Proof. intros. rewrite be_val_bytes. by apply wrapU_id. Qed.

Lemma be_bytes_is_bytes n x : is_bytes (be_bytes n x).
Proof.
  revert x. induction n as [|n IH]; intros x; [constructor|].
  cbn [be_bytes]. apply Forall_app. split; [apply IH|].
  constructor; [|done]. change 255 with (Z.ones 8). rewrite Z.land_ones by lia.
  apply Z.mod_pos_bound. lia.
Qed.

Lemma be_val_range bs : is_bytes bs -> is_u (8 * len bs) (be_val bs).
Proof.
  induction bs as [|b bs IH] using rev_ind; intros H; [by unfold is_u|].
  apply Forall_app in H as [H1 H2]. apply Forall_cons in H2 as [H2 _].
  specialize (IH H1). rewrite be_val_app, len_app.
  change (len [b]) with 1.
  replace (8 * (len bs + 1)) with (8 * len bs + 8) by lia.
  unfold is_u in *. pose proof (len_nonneg bs).
  rewrite Z.pow_add_r by lia. change (2 ^ 8) with 256 in *. nia.
Qed.

(** A range of a buffer given as three pieces. *)
Lemma get_app p bs s off n :
  off = len p -> n = len bs -> get (p ++ bs ++ s) off n = Some bs.
Proof.
  intros -> ->. unfold get. rewrite !len_app.
  pose proof (len_nonneg p); pose proof (len_nonneg bs); pose proof (len_nonneg s).
  rewrite !(proj2 (Z.leb_le _ _)) by lia. cbn [andb].
  unfold len. by rewrite !Nat2Z.id, drop_app_length, take_app_length.
Qed.

Lemma put_at p bs bs' s off :
  off = len p -> len bs' = len bs -> put (p ++ bs ++ s) off bs' = Some (p ++ bs' ++ s).
Proof.
  intros -> Hl. unfold put. rewrite !len_app.
  pose proof (len_nonneg p); pose proof (len_nonneg bs); pose proof (len_nonneg s).
  rewrite !(proj2 (Z.leb_le _ _)) by lia. cbn [andb]. f_equal.
  unfold len in *. rewrite Nat2Z.id, <- (Nat.add_0_r (length p)), list_inserts_app_r.
  by rewrite list_inserts_0_r by lia.
Qed.

Lemma get_Some b off n bs : get b off n = Some bs ->
  0 <= off /\ 0 <= n /\ off + n <= len b /\ len bs = n /\
  bs = take (Z.to_nat n) (drop (Z.to_nat off) b).
Proof.
  unfold get. split_cmp; intros [= <-]. repeat split; try lia.
  unfold len in *. rewrite length_take, length_drop. lia.
Qed.

Lemma get_inside b off n : 0 <= off -> 0 <= n -> off + n <= len b ->
  exists bs, get b off n = Some bs /\ len bs = n /\ (is_bytes b -> is_bytes bs).
Proof.
  intros. unfold get. split_cmp. eexists. split; [done|]. split.
  - unfold len in *. rewrite length_take, length_drop. lia.
  - intros. by apply Forall_take, Forall_drop.
Qed.

(** A number read inside a buffer of bytes is in the range of its width. *)
Lemma getN_inside b off k : is_bytes b -> 0 <= k -> 0 <= off -> off + k <= len b ->
  exists x, be_val <$> get b off k = Some x /\ is_u (8 * k) x.
Proof.
  intros Hb ? ? ?. destruct (get_inside b off k) as (bs & E & El & Hbs); try lia.
  rewrite E. eexists. split; [done|]. rewrite <- El. by apply be_val_range, Hbs.
Qed.

Lemma get8_inside b off : is_bytes b -> 0 <= off -> off + 1 <= len b ->
  exists x, get8 b off = Some x /\ is_u 8 x.
Proof. intros. apply (getN_inside b off 1); lia || done. Qed.

Lemma get16_inside b off : is_bytes b -> 0 <= off -> off + 2 <= len b ->
  exists x, get16 b off = Some x /\ is_u 16 x.
Proof. intros. apply (getN_inside b off 2); lia || done. Qed.

Lemma get32_inside b off : is_bytes b -> 0 <= off -> off + 4 <= len b ->
  exists x, get32 b off = Some x /\ is_u 32 x.
Proof. intros. apply (getN_inside b off 4); lia || done. Qed.

Lemma get64_inside b off : is_bytes b -> 0 <= off -> off + 8 <= len b ->
  exists x, get64 b off = Some x /\ is_u 64 x.
Proof. intros. apply (getN_inside b off 8); lia || done. Qed.

(** Reading what was written at the same place. *)
Lemma get16_app p x s off : off = len p -> is_u 16 x -> get16 (p ++ be_bytes 2 x ++ s) off = Some x.
Proof.
  intros -> Hx. unfold get16. rewrite (get_app p (be_bytes 2 x) s) by (done || by rewrite len_be_bytes).
  cbn [fmap option_fmap option_map]. by rewrite be_val_bytes_id.
Qed.

Lemma get64_app p x s off : off = len p -> is_u 64 x -> get64 (p ++ be_bytes 8 x ++ s) off = Some x.
Proof.
  intros -> Hx. unfold get64. rewrite (get_app p (be_bytes 8 x) s) by (done || by rewrite len_be_bytes).
  cbn [fmap option_fmap option_map]. by rewrite be_val_bytes_id.
Qed.

(** The bytes of a number, named. *)
Lemma be_bytes2_named x : is_u 16 x -> exists a b, be_bytes 2 x = [a; b] /\ be_val [a; b] = x.
Proof.
  intros H. eexists _, _. split; [done|].
  change (be_val (be_bytes 2 x) = x). by apply be_val_bytes_id.
Qed.

Lemma be_bytes4_named x : is_u 32 x ->
  exists a b c d, be_bytes 4 x = [a; b; c; d] /\ be_val [a; b; c; d] = x.
Proof.
  intros H. eexists _, _, _, _. split; [done|].
  change (be_val (be_bytes 4 x) = x). by apply be_val_bytes_id.
Qed.

Lemma cstr_terminated s z : Forall (fun b => b <> 0) s -> cstr (s ++ 0 :: z) = Some s.
Proof.
  induction 1 as [|b s Hb _ IH]; [done|].
  cbn [app cstr]. rewrite (proj2 (Z.eqb_neq _ _)) by done. by rewrite IH.
Qed.

Lemma cstr_Some a s : cstr a = Some s ->
  Forall (fun b => b <> 0) s /\ exists z, a = s ++ 0 :: z.
Proof.
  revert s. induction a as [|b a IH]; intros s; [done|]. cbn [cstr].
  destruct (Z.eqb_spec b 0) as [->|].
  - intros [= <-]. split; [done|]. by exists a.
  - intros (t & Ht & ->)%fmap_Some. destruct (IH t Ht) as (Hn & z & ->).
    split; [by constructor|]. by exists z.
Qed.

Lemma cstr_total a : (exists i, a !! i = Some 0) -> exists s, cstr a = Some s.
Proof.
  intros [i Hi]. revert i Hi. induction a as [|b a IH]; intros [|i] Hi; try done; cbn [cstr].
  - injection Hi as ->. simpl. eauto.
  - destruct (IH i Hi) as [s E]. rewrite E. destruct (b =? 0); simpl; eauto.
Qed.

(** A write inside the first part of a buffer. *)
Lemma put_prefix l r off bs : off + len bs <= len l ->
  put (l ++ r) off bs = (fun l' => l' ++ r) <$> put l off bs.
Proof.
  intros H. unfold put. rewrite len_app. pose proof (len_nonneg r).
  destruct (Z.leb_spec 0 off); [|done]. cbn [andb].
  rewrite !(proj2 (Z.leb_le _ _)) by lia. cbn [fmap option_fmap option_map]. f_equal.
  assert (Z.to_nat off + length bs <= length l)%nat as Hb by (unfold len in *; lia).
  clear H H0 H1. revert Hb. generalize (Z.to_nat off) as k. induction bs as [|x bs IH]; intros k Hb; [done|].
  cbn [list_inserts]. simpl in Hb. rewrite IH by lia.
  apply insert_app_l. rewrite length_inserts. lia.
Qed.

Lemma get_prefix l r n : n = len l -> get (l ++ r) 0 n = Some l.
Proof. intros ->. rewrite <- (app_nil_l (l ++ r)). by apply get_app. Qed.

Lemma get_all s : get s 0 (len s) = Some s.
Proof. rewrite <- (app_nil_r s) at 1. by apply get_prefix. Qed.

Lemma get_whole s n : n = len s -> get s 0 n = Some s.
Proof. intros ->. apply get_all. Qed.

(** Reading the first part of a buffer. *)
Lemma get_app_l a b off n : off + n <= len a -> get (a ++ b) off n = get a off n.
Proof.
  intros Hn. unfold get. rewrite len_app. pose proof (len_nonneg b).
  destruct (Z.leb_spec 0 off), (Z.leb_spec 0 n); try done. cbn [andb].
  rewrite !(proj2 (Z.leb_le _ _)) by lia. f_equal.
  unfold len in *. rewrite drop_app_le by lia. by rewrite take_app_le by (rewrite length_drop; lia).
Qed.

(** A buffer around a range that was read. *)
Lemma get_split b off n bs : get b off n = Some bs ->
  exists p s, b = p ++ bs ++ s /\ len p = off.
Proof.
  intros (H1 & H2 & H3 & H4 & ->)%get_Some.
  exists (take (Z.to_nat off) b), (drop (Z.to_nat n) (drop (Z.to_nat off) b)).
  rewrite take_drop, take_drop. split; [done|]. unfold len in *. rewrite length_take. lia.
Qed.

(** Writing back what was read. *)
Lemma put_get b off n bs : get b off n = Some bs -> put b off bs = Some b.
Proof. intros (p & s & -> & <-)%get_split. by apply put_at. Qed.

Lemma put_front b bs s : len bs = len b -> put (b ++ s) 0 bs = Some (bs ++ s).
Proof. intros. by apply (put_at [] b bs s 0). Qed.

Lemma put_whole b bs : len bs = len b -> put b 0 bs = Some bs.
Proof. intros. pose proof (put_front b bs []) as E. rewrite !app_nil_r in E. by apply E. Qed.

Lemma put_zero b bs : len bs <= len b -> put b 0 bs = Some (bs ++ drop (length bs) b).
Proof.
  intros H. rewrite <- (take_drop (length bs) b) at 1. apply put_front.
  unfold len in *. rewrite length_take. lia.
Qed.

(** A copy that fits. *)
Lemma memcpy_s_fits b off destMax src count b' :
  count <= destMax -> count = len src -> put b off src = Some b' ->
  memcpy_s b off destMax src count = Some (true, b').
Proof.
  intros ? ? Hp. unfold memcpy_s. rewrite (proj2 (Z.ltb_ge _ _)) by done.
  rewrite get_whole by done. cbn [mbind option_bind]. by rewrite Hp.
Qed.

Lemma split_len b n : 0 <= n <= len b -> exists x y, b = x ++ y /\ len x = n.
Proof.
  intros. exists (take (Z.to_nat n) b), (drop (Z.to_nat n) b).
  rewrite take_drop. split; [done|]. unfold len in *. rewrite length_take. lia.
Qed.

End Bytes.
