(* ===== verification/CommonList.v ===== *)
(** * Intrusive circular lists

    Models [core/common/include/common_list.h], the list every manager of the
    system keeps its records in.  Memory is a finite map from addresses to
    [ListNode]s; address 0 is NULL.  Each field read or write of the source
    is one step in the option monad, and [None] is an access to an address
    that holds no node.

    [dll m h xs] says that the ring headed by [h] holds exactly the nodes
    [xs], in order.  The theorems say that each operation maps that sequence
    as its comment promises and touches nothing else, which is what lets the
    other files keep such lists as sequences. *)

From S2P Require Import Prelude.

Module CommonList.

Record ListNode := MkNode { prev : Z; next : Z }.

Abbreviation mem := (gmap Z ListNode).

Definition get_next (m : mem) (a : Z) : option Z := next <$> m !! a.
Definition get_prev (m : mem) (a : Z) : option Z := prev <$> m !! a.

Definition set_next (m : mem) (a v : Z) : option mem :=
  n ← m !! a; Some (<[a := MkNode (prev n) v]> m).
Definition set_prev (m : mem) (a v : Z) : option mem :=
  n ← m !! a; Some (<[a := MkNode v (next n)]> m).

Definition ListInit (m : mem) (list : Z) : option mem :=
  m ← set_next m list list;
  set_prev m list list.

Definition ListAdd (m : mem) (list node : Z) : option mem :=
  ln ← get_next m list;
  m ← set_next m node ln;
  m ← set_prev m node list;
  ln ← get_next m list;
  m ← set_prev m ln node;
  set_next m list node.

Definition ListTailInsert (m : mem) (list node : Z) : option mem :=
  lp ← get_prev m list;
  ListAdd m lp node.

Definition ListNodeInsert (m : mem) (list node : Z) : option mem :=
  ListAdd m list node.

Definition ListDelete (m : mem) (node : Z) : option mem :=
  nn ← get_next m node;
  np ← get_prev m node;
  m ← (if negb (nn =? 0) && negb (np =? 0) then (
         m ← set_prev m nn np;
         np ← get_prev m node;
         nn ← get_next m node;
         set_next m np nn)
       else Some m);
  m ← set_next m node node;
  set_prev m node node.

Definition IsListEmpty (m : mem) (node : Z) : option bool :=
  nn ← get_next m node; Some (nn =? node).

Definition ListDel (m : mem) (prevNode nextNode : Z) : option mem :=
  m ← set_prev m nextNode prevNode;
  set_next m prevNode nextNode.

Definition ListDelInit (m : mem) (list : Z) : option mem :=
  lp ← get_prev m list;
  ln ← get_next m list;
  m ← ListDel m lp ln;
  ListInit m list.

(** [LIST_FOR_EACH(item, list)]: the body threads a state of type [S] and
    does not touch the list; fuel bounds the number of tests of the loop
    condition. *)
Fixpoint for_each {S} (body : S -> Z -> S) (fuel : nat) (m : mem) (list item : Z) (s : S)
  : option S :=
  match fuel with
  | O => None
  | Datatypes.S fuel' =>
    if item =? list then Some s
    else (nx ← get_next m item; for_each body fuel' m list nx (body s item))
  end.

Definition LIST_FOR_EACH {S} (body : S -> Z -> S) (fuel : nat) (m : mem) (list : Z) (s : S)
  : option S :=
  it ← get_next m list; for_each body fuel m list it s.

(** [LIST_FOR_EACH_SAFE(item, nextItem, list)]: the successor is read before
    the body runs, so the body may unlink [item]. *)
Fixpoint for_each_safe (body : mem -> Z -> option mem) (fuel : nat) (m : mem)
    (list item nextItem : Z) : option mem :=
  match fuel with
  | O => None
  | S fuel' =>
    if item =? list then Some m
    else (
      m ← body m item;
      nx ← get_next m nextItem;
      for_each_safe body fuel' m list nextItem nx)
  end.

Definition LIST_FOR_EACH_SAFE (body : mem -> Z -> option mem) (fuel : nat) (m : mem) (list : Z)
  : option mem :=
  it ← get_next m list;
  nx ← get_next m it;
  for_each_safe body fuel m list it nx.

(** ** Representation *)

Definition link (m : mem) (a b : Z) : Prop := get_next m a = Some b /\ get_prev m b = Some a.

Fixpoint chain (m : mem) (a : Z) (xs : list Z) (z : Z) : Prop :=
  match xs with
  | [] => link m a z
  | x :: xs' => link m a x /\ chain m x xs' z
  end.

Definition dll (m : mem) (h : Z) (xs : list Z) : Prop :=
  NoDup (h :: xs) /\ (0 ∉ h :: xs) /\ chain m h xs h.

(** An allocated node that is in no list. *)
Definition detached (m : mem) (h : Z) (xs : list Z) (node : Z) : Prop :=
  is_Some (m !! node) /\ (node ∉ h :: xs) /\ node <> 0.

(** ** Field access lemmas *)

Lemma set_next_Some m a v m' : set_next m a v = Some m' ->
  (forall b, get_next m' b = if decide (a = b) then Some v else get_next m b) /\
  (forall b, get_prev m' b = get_prev m b) /\
  (forall b, a <> b -> m' !! b = m !! b) /\
  (forall b, is_Some (m' !! b) <-> is_Some (m !! b)).
Proof.
  unfold set_next, get_next, get_prev. intros H. simplify_option_eq.
  split_and!; intros b; rewrite lookup_insert; case_decide; subst; try done;
    match goal with H : m !! _ = _ |- _ => rewrite H end; naive_solver.
Qed.

Lemma set_prev_Some m a v m' : set_prev m a v = Some m' ->
  (forall b, get_prev m' b = if decide (a = b) then Some v else get_prev m b) /\
  (forall b, get_next m' b = get_next m b) /\
  (forall b, a <> b -> m' !! b = m !! b) /\
  (forall b, is_Some (m' !! b) <-> is_Some (m !! b)).
Proof.
  unfold set_prev, get_next, get_prev. intros H. simplify_option_eq.
  split_and!; intros b; rewrite lookup_insert; case_decide; subst; try done;
    match goal with H : m !! _ = _ |- _ => rewrite H end; naive_solver.
Qed.

Lemma get_next_Some m a b : get_next m a = Some b -> is_Some (m !! a).
Proof. unfold get_next. destruct (m !! a); [eauto|done]. Qed.
Lemma get_prev_Some m a b : get_prev m a = Some b -> is_Some (m !! a).
Proof. unfold get_prev. destruct (m !! a); [eauto|done]. Qed.

Lemma set_next_total m a v : is_Some (m !! a) -> is_Some (set_next m a v).
Proof. intros [n Hn]. unfold set_next. rewrite Hn. simpl. eauto. Qed.
Lemma set_prev_total m a v : is_Some (m !! a) -> is_Some (set_prev m a v).
Proof. intros [n Hn]. unfold set_prev. rewrite Hn. simpl. eauto. Qed.

Lemma alloc_iff_next m a : is_Some (m !! a) <-> is_Some (get_next m a).
Proof. unfold get_next. by rewrite fmap_is_Some. Qed.
Lemma alloc_iff_prev m a : is_Some (m !! a) <-> is_Some (get_prev m a).
Proof. unfold get_prev. by rewrite fmap_is_Some. Qed.

(** ** Chains *)

Lemma chain_app m a xs x ys z :
  chain m a (xs ++ x :: ys) z <-> chain m a xs x /\ chain m x ys z.
Proof. revert a. induction xs as [|y xs IH]; intros a; simpl; [done|]. rewrite IH. tauto. Qed.

Lemma chain_frame m m' a xs z :
  (forall b, b ∈ a :: xs -> get_next m' b = get_next m b) ->
  (forall b, b ∈ xs ++ [z] -> get_prev m' b = get_prev m b) ->
  chain m a xs z -> chain m' a xs z.
Proof.
  revert a. induction xs as [|x xs IH]; intros a Hn Hp; simpl; unfold link.
  - rewrite Hn, Hp by set_solver. done.
  - intros [[H1 H2] Hc]. rewrite Hn, Hp by set_solver. split; [done|].
    apply IH; [set_solver..|done].
Qed.

Lemma chain_alloc m a xs z : chain m a xs z -> forall b, b ∈ a :: xs ++ [z] -> is_Some (m !! b).
Proof.
  revert a. induction xs as [|x xs IH]; intros a; simpl.
  - intros [H1%get_next_Some H2%get_prev_Some] b Hb. set_solver.
  - intros [[H1%get_next_Some _] Hc] b [->|Hb]%elem_of_cons; [done|]. by apply (IH x).
Qed.

(** A ring may be cut at any of its nodes. *)
Lemma dll_rotate m h l1 x l2 : dll m h (l1 ++ x :: l2) <-> dll m x (l2 ++ h :: l1).
Proof.
  unfold dll. rewrite !chain_app.
  assert (h :: l1 ++ x :: l2 ≡ₚ x :: l2 ++ h :: l1) as Hp.
  { rewrite <- !Permutation_middle. rewrite Permutation_swap.
    do 2 f_equiv. by rewrite Permutation_app_comm. }
  rewrite Hp. tauto.
Qed.

Lemma dll_alloc m h xs b : dll m h xs -> b ∈ h :: xs -> is_Some (m !! b).
Proof. intros (_ & _ & Hc) Hb. apply (chain_alloc _ _ _ _ Hc). set_solver. Qed.

(** ** What each operation does to the fields

    [step] runs the next field write of the goal and records what it
    changed; [fields] evaluates a field of the current memory. *)
Ltac step :=
  match goal with
  | |- context [set_next ?m ?a ?v] =>
      let m' := fresh "m" in let E := fresh "E" in
      destruct (set_next_total m a v) as [m' E];
      [| rewrite E; apply set_next_Some in E as (?Hn & ?Hp & ?Hf & ?Ha); cbn [mbind option_bind]]
  | |- context [set_prev ?m ?a ?v] =>
      let m' := fresh "m" in let E := fresh "E" in
      destruct (set_prev_total m a v) as [m' E];
      [| rewrite E; apply set_prev_Some in E as (?Hp & ?Hn & ?Hf & ?Ha); cbn [mbind option_bind]]
  end.

Ltac fields :=
  repeat first
    [ match goal with
      | H : forall b, get_next ?m b = _ |- context [get_next ?m _] => rewrite H
      | H : forall b, get_prev ?m b = _ |- context [get_prev ?m _] => rewrite H
      | H : forall b, is_Some (?m !! b) <-> _ |- is_Some (?m !! _) => rewrite H
      | H : get_next ?m ?a = Some _ |- context [get_next ?m ?a] => rewrite H
      | H : get_prev ?m ?a = Some _ |- context [get_prev ?m ?a] => rewrite H
      end
    | case_decide; try congruence ].

Lemma ListInit_fields m a : is_Some (m !! a) ->
  exists m', ListInit m a = Some m' /\ get_next m' a = Some a /\ get_prev m' a = Some a /\
    (forall b, a <> b -> m' !! b = m !! b).
Proof.
  intros Ha. unfold ListInit. step; [done|]. step; [by fields|].
  eexists. split; [done|]. split_and!; [by fields..|].
  intros b Hb. rewrite Hf0, Hf; done.
Qed.

Lemma ListAdd_fields m h n node :
  get_next m h = Some n -> is_Some (m !! node) -> is_Some (m !! n) -> node <> h -> node <> n ->
  exists m', ListAdd m h node = Some m' /\
    (forall b, get_next m' b = if decide (h = b) then Some node
                              else if decide (node = b) then Some n else get_next m b) /\
    (forall b, get_prev m' b = if decide (n = b) then Some node
                              else if decide (node = b) then Some h else get_prev m b) /\
    (forall b, b <> h -> b <> n -> b <> node -> m' !! b = m !! b).
Proof.
  intros Hh Hnode Hn Hne1 Hne2. unfold ListAdd. rewrite Hh. cbn [mbind option_bind].
  step; [done|]. step; [by fields|]. fields. cbn [mbind option_bind].
  step; [by fields|]. step; [by fields; eapply get_next_Some|].
  eexists. split; [done|]. split_and!; intros b; [fields; try done..|].
  intros. rewrite Hf2, Hf1, Hf0, Hf by done. done.
Qed.

Lemma ListDelete_fields m p x n :
  get_next m x = Some n -> get_prev m x = Some p ->
  is_Some (m !! n) -> is_Some (m !! p) -> n <> 0 -> p <> 0 -> x <> n -> x <> p ->
  exists m', ListDelete m x = Some m' /\
    (forall b, get_next m' b = if decide (x = b) then Some x
                              else if decide (p = b) then Some n else get_next m b) /\
    (forall b, get_prev m' b = if decide (x = b) then Some x
                              else if decide (n = b) then Some p else get_prev m b) /\
    (forall b, b <> x -> b <> n -> b <> p -> m' !! b = m !! b).
Proof.
  intros Hxn Hxp Hn Hp Hn0 Hp0 Hne1 Hne2. unfold ListDelete. rewrite Hxn, Hxp. cbn [mbind option_bind].
  destruct (Z.eqb_spec n 0), (Z.eqb_spec p 0); try lia. cbn [negb andb].
  step; [done|]. fields. cbn [mbind option_bind]. fields. cbn [mbind option_bind].
  step; [by fields|]. step; [by fields; eapply get_next_Some|].
  step; [by fields; eapply get_next_Some|].
  eexists. split; [done|]. split_and!; intros b; [fields; try done..|].
  intros. rewrite Hf2, Hf1, Hf0, Hf by done. done.
Qed.

(** ** What each operation does to the sequence *)

Lemma ListAdd_dll m h xs node :
  dll m h xs -> detached m h xs node ->
  exists m', ListAdd m h node = Some m' /\ dll m' h (node :: xs) /\
    (forall b, b ∉ node :: h :: xs -> m' !! b = m !! b).
Proof.
  intros Hd (Ha & Hni & H0).
  assert (exists n l, xs ++ [h] = n :: l) as (n & l & Hnl) by (destruct xs; eauto).
  assert (get_next m h = Some n) as Hh.
  { destruct Hd as (_ & _ & Hc). destruct xs; simpl in *; simplify_eq; apply Hc. }
  assert (n ∈ h :: xs) as Hin.
  { assert (n ∈ xs ++ [h]) by (rewrite Hnl; set_solver). set_solver. }
  assert (node <> h /\ node <> n) as [Hne1 Hne2] by set_solver.
  destruct (ListAdd_fields m h n node) as (m' & E & Hn & Hp & Hf); [done|done|
    by apply (dll_alloc m h xs)|done|done|].
  exists m'. split; [done|]. split; [|intros b Hb; apply Hf; set_solver].
  destruct Hd as (Hnd & Hz & Hc). apply NoDup_cons in Hnd as [Hh' Hnd].
  split; [rewrite !NoDup_cons; set_solver|]. split; [set_solver|].
  destruct xs as [|x xs]; simpl in *; simplify_eq.
  - unfold link. split_and!; fields; done.
  - destruct Hc as [_ Hc]. apply NoDup_cons in Hnd as [Hx Hnd].
    split_and!; [split; fields; set_solver..|].
    apply (chain_frame m); [..|done]; intros b Hb; fields; set_solver.
Qed.

(** Removing the node right after the head. *)
Lemma ListDelete_first m h x xs :
  dll m h (x :: xs) ->
  exists m', ListDelete m x = Some m' /\ dll m' h xs /\ dll m' x [] /\
    (forall b, b ∉ h :: x :: xs -> m' !! b = m !! b).
Proof.
  intros Hd. pose proof (fun b => dll_alloc _ _ _ b Hd) as Hal.
  destruct Hd as (Hnd & Hz & Hc).
  apply NoDup_cons in Hnd as [Hh Hnd]. apply NoDup_cons in Hnd as [Hx Hnd].
  assert (exists n l, xs ++ [h] = n :: l) as (n & l & Hnl) by (destruct xs; eauto).
  assert (get_next m x = Some n /\ get_prev m x = Some h) as [Hxn Hxp].
  { destruct Hc as [[] Hc]. destruct xs; simpl in *; simplify_eq; destruct Hc; firstorder. }
  assert (n ∈ h :: xs) as Hin.
  { assert (n ∈ xs ++ [h]) by (rewrite Hnl; set_solver). set_solver. }
  assert (x <> n /\ x <> h /\ n <> 0 /\ h <> 0 /\ x <> 0) as (? & ? & ? & ? & ?) by set_solver.
  destruct (ListDelete_fields m h x n) as (m' & E & Hn & Hp & Hf);
    [done|done|apply Hal; set_solver..|done|done|done|done|].
  exists m'. split; [done|]. split_and!; [| |intros b Hb; apply Hf; set_solver].
  2: { split_and!; [apply NoDup_singleton|set_solver|]. split; fields; done. }
  split; [by apply NoDup_cons; set_solver|]. split; [set_solver|].
  destruct Hc as [_ Hc]. destruct xs as [|y xs]; simpl in *; simplify_eq.
  - split; fields; done.
  - apply NoDup_cons in Hnd as [Hy Hnd]. split; [split; fields; set_solver|].
    apply (chain_frame m); [..|apply Hc]; intros b Hb; fields; set_solver.
Qed.

Lemma ListDelete_dll m h l1 x l2 :
  dll m h (l1 ++ x :: l2) ->
  exists m', ListDelete m x = Some m' /\ dll m' h (l1 ++ l2) /\ dll m' x [] /\
    (forall b, b ∉ h :: l1 ++ x :: l2 -> m' !! b = m !! b).
Proof.
  destruct (decide (l1 = [])) as [->|Hl1]; [apply ListDelete_first|].
  apply exists_last in Hl1 as (l & y & ->). intros Hd.
  rewrite <- app_assoc in Hd. simpl in Hd. rewrite dll_rotate in Hd.
  destruct (ListDelete_first m y x (l2 ++ h :: l)) as (m' & E & Hd' & Hx & Hf).
  { exact Hd. }
  exists m'. split_and!; [done| |done|intros b Hb; apply Hf; set_solver].
  rewrite <- app_assoc. simpl. by rewrite dll_rotate.
Qed.

Lemma dll_prev_first m h x xs : dll m h (x :: xs) -> get_prev m x = Some h.
Proof. by intros (_ & _ & [_ ?] & _). Qed.

Lemma detached_perm m h xs h' xs' node :
  h :: xs ≡ₚ h' :: xs' -> detached m h xs node -> detached m h' xs' node.
Proof. unfold detached. by intros ->. Qed.

(** Inserting before a node of the ring. *)
Lemma ListTailInsert_dll m h l1 x l2 node :
  dll m h (l1 ++ x :: l2) -> detached m h (l1 ++ x :: l2) node ->
  exists m', ListTailInsert m x node = Some m' /\ dll m' h (l1 ++ node :: x :: l2) /\
    (forall b, b ∉ node :: h :: l1 ++ x :: l2 -> m' !! b = m !! b).
Proof.
  intros Hd Hn. unfold ListTailInsert.
  destruct (decide (l1 = [])) as [->|(l & y & ->)%exists_last].
  { rewrite (dll_prev_first m h x l2 Hd). by apply ListAdd_dll. }
  rewrite <- app_assoc in *. cbn [app] in *. rewrite dll_rotate in Hd.
  rewrite (dll_prev_first m y x _ Hd). cbn [mbind option_bind].
  destruct (ListAdd_dll m y (x :: l2 ++ h :: l) node) as (m' & E & Hd' & Hf); [done| |].
  { eapply detached_perm, Hn. solve_Permutation. }
  exists m'. split_and!; [done| |intros b Hb; apply Hf; set_solver].
  rewrite dll_rotate. done.
Qed.

(** Inserting at the tail. *)
Lemma ListTailInsert_head m h xs node :
  dll m h xs -> detached m h xs node ->
  exists m', ListTailInsert m h node = Some m' /\ dll m' h (xs ++ [node]) /\
    (forall b, b ∉ node :: h :: xs -> m' !! b = m !! b).
Proof.
  intros Hd Hn. unfold ListTailInsert.
  destruct (decide (xs = [])) as [->|(l & y & ->)%exists_last].
  { destruct Hd as (Hnd & Hz & Hc). rewrite (proj2 Hc). by apply ListAdd_dll. }
  rewrite <- app_assoc in *. rewrite dll_rotate in Hd. cbn [app] in *.
  rewrite (dll_prev_first m y h _ Hd). cbn [mbind option_bind].
  destruct (ListAdd_dll m y (h :: l) node) as (m' & E & Hd' & Hf); [done| |].
  { eapply detached_perm, Hn. solve_Permutation. }
  exists m'. split_and!; [done| |intros b Hb; apply Hf; set_solver].
  rewrite dll_rotate. done.
Qed.

Lemma IsListEmpty_dll m h xs : dll m h xs -> IsListEmpty m h = Some (bool_decide (xs = [])).
Proof.
  intros (Hnd & _ & Hc). unfold IsListEmpty. destruct xs as [|x xs]; simpl in Hc.
  - rewrite (proj1 Hc). simpl. by rewrite Z.eqb_refl.
  - rewrite (proj1 (proj1 Hc)). simpl. apply NoDup_cons in Hnd as [Hx _].
    destruct (Z.eqb_spec x h); [set_solver|done].
Qed.

(** ** Iteration *)

Lemma for_each_chain {S} (body : S -> Z -> S) m h xs : forall a fuel s,
  chain m a xs h -> h ∉ xs -> (length xs < fuel)%nat ->
  (it ← get_next m a; for_each body fuel m h it s) = Some (foldl body s xs).
Proof.
  induction xs as [|x xs IH]; intros a fuel s Hc Hni Hf; (destruct fuel; [simpl in *; lia|]).
  - simpl in Hc. rewrite (proj1 Hc). simpl. by rewrite Z.eqb_refl.
  - destruct Hc as [[-> _] Hc]. cbn [mbind option_bind for_each].
    destruct (Z.eqb_spec x h); [set_solver|]. simpl. apply IH; [done|set_solver|simpl in *; lia].
Qed.

(** Deleting in a safe iteration: the nodes that satisfy [p] leave the ring. *)
Definition delete_if (p : Z -> bool) (m : mem) (item : Z) : option mem :=
  if p item then ListDelete m item else Some m.

Lemma for_each_safe_delete p h xs : forall fuel m kept,
  dll m h (kept ++ xs) -> (length xs < fuel)%nat ->
  exists m', (let it := default h (head xs) in
              nx ← get_next m it; for_each_safe (delete_if p) fuel m h it nx) = Some m' /\
    dll m' h (kept ++ filter (fun x => p x = false) xs) /\
    (forall b, b ∉ h :: kept ++ xs -> m' !! b = m !! b).
Proof.
  induction xs as [|x xs IH]; intros fuel m kept Hd Hfuel; (destruct fuel; [simpl in *; lia|]).
  { simpl. rewrite app_nil_r in *.
    destruct (dll_alloc m h kept h Hd) as [n Hn]; [set_solver|].
    unfold get_next. rewrite Hn. simpl. rewrite Z.eqb_refl. eauto. }
  assert (x <> h) by (destruct Hd as (Hnd & _); apply NoDup_cons in Hnd; set_solver).
  assert (get_next m x = Some (default h (head xs))) as Hx.
  { destruct Hd as (_ & _ & Hc). apply chain_app in Hc as [_ Hc].
    destruct xs; simpl in *; apply Hc. }
  cbn [head default from_option id]. rewrite Hx. cbn [mbind option_bind for_each_safe].
  destruct (Z.eqb_spec x h); [done|]. rewrite filter_cons.
  change (delete_if p m x) with (if p x then ListDelete m x else Some m).
  destruct (p x) eqn:Hp; cbn [mbind option_bind].
  - destruct (ListDelete_dll m h kept x xs Hd) as (m1 & -> & Hd1 & _ & Hf1).
    destruct (IH fuel m1 kept Hd1) as (m' & E & Hd' & Hf'); [simpl in *; lia|].
    exists m'. split_and!; [done|done|]. intros b Hb. rewrite Hf', Hf1 by set_solver. done.
  - destruct (IH fuel m (kept ++ [x])) as (m' & E & Hd' & Hf').
    { by rewrite <- app_assoc. } { simpl in *; lia. }
    exists m'. rewrite <- app_assoc in Hd'. split_and!; [done|done|].
    intros b Hb. apply Hf'. set_solver.
Qed.

(** [ListDelInit] unlinks as [ListDelete] does. *)
Lemma ListDelInit_delete m x p n : get_prev m x = Some p -> get_next m x = Some n -> p <> 0 -> n <> 0 ->
  ListDelInit m x = ListDelete m x.
Proof.
  intros Hp Hn Hp0 Hn0. unfold ListDelInit, ListDelete, ListDel, ListInit. rewrite Hp, Hn. cbn [mbind option_bind].
  destruct (Z.eqb_spec n 0), (Z.eqb_spec p 0); try done. cbn [negb andb].
  destruct (set_prev m n p) as [m1|] eqn:E; [|done]. apply set_prev_Some in E as (Hp1 & Hn1 & _).
  cbn [mbind option_bind]. rewrite Hp1, Hn1, Hp, Hn. by case_decide.
Qed.

(** The neighbours of a node of a ring. *)
Lemma dll_neighbours m h l1 x l2 : dll m h (l1 ++ x :: l2) ->
  exists p n, get_prev m x = Some p /\ get_next m x = Some n /\ p ∈ h :: l1 ++ l2 /\ n ∈ h :: l1 ++ l2 /\ p <> 0 /\ n <> 0.
Proof.
  intros Hd. pose proof Hd as (_ & Hz & Hc). apply chain_app in Hc as [Hc1 Hc2].
  assert (exists p, get_prev m x = Some p /\ p ∈ h :: l1) as (p & Hp & Hpin).
  { destruct (decide (l1 = [])) as [->|(l & y & ->)%exists_last]; [exists h; split; [apply Hc1|set_solver]|].
    exists y. apply chain_app in Hc1 as [_ []]. split; [done|set_solver]. }
  assert (exists n, get_next m x = Some n /\ n ∈ h :: l2) as (n & Hn & Hnin).
  { destruct l2 as [|y l2]; [exists h; split; [apply Hc2|set_solver]|]. exists y. split; [apply Hc2|set_solver]. }
  exists p, n. split_and!; try done; set_solver.
Qed.

Lemma ListDelInit_node m h l1 x l2 : dll m h (l1 ++ x :: l2) ->
  exists m', ListDelInit m x = Some m' /\ dll m' h (l1 ++ l2) /\ dll m' x [] /\
    (forall b, b ∉ h :: l1 ++ x :: l2 -> m' !! b = m !! b).
Proof.
  intros Hd. destruct (dll_neighbours _ _ _ _ _ Hd) as (p & n & Hp & Hn & _ & _ & ? & ?).
  rewrite (ListDelInit_delete m x p n) by done. by apply ListDelete_dll.
Qed.

(** At the head it leaves the rest as a ring without head. *)
Lemma ListDelInit_dll m h xs : dll m h xs ->
  exists m', ListDelInit m h = Some m' /\ dll m' h [] /\
    match xs with [] => True | y :: ys => dll m' y ys end /\
    (forall b, b ∉ h :: xs -> m' !! b = m !! b).
Proof.
  intros Hd. destruct xs as [|y ys].
  - destruct Hd as (Hnd & Hz & Hl & Hl'). assert (is_Some (m !! h)) by (by eapply get_next_Some).
    unfold ListDelInit, ListDel. rewrite Hl, Hl'. cbn [mbind option_bind].
    step; [done|]. step; [by fields|]. destruct (ListInit_fields m1 h) as (m' & -> & ? & ? & Hf'); [by fields|].
    exists m'. split_and!; try done. intros b Hb. rewrite Hf', Hf0, Hf by set_solver. done.
  - apply (dll_rotate m h [] y ys) in Hd. cbn [app] in Hd.
    destruct (ListDelInit_node m y ys h [] Hd) as (m' & E & Hd' & ? & Hf). rewrite app_nil_r in Hd'.
    exists m'. split_and!; try done. intros b Hb. apply Hf. set_solver.
Qed.

Lemma ListDel_dll m h l1 x l2 p n : dll m h (l1 ++ x :: l2) -> get_prev m x = Some p -> get_next m x = Some n ->
  exists m', ListDel m p n = Some m' /\ dll m' h (l1 ++ l2) /\ m' !! x = m !! x /\
    (forall b, b ∉ h :: l1 ++ l2 -> m' !! b = m !! b).
Proof.
  intros Hd Hp Hn. destruct (ListDelInit_node _ _ _ _ _ Hd) as (m' & E & Hd' & _ & _).
  destruct (dll_neighbours _ _ _ _ _ Hd) as (p' & n' & Hp' & Hn' & Hpin & Hnin & _). simplify_eq.
  assert (x ∉ h :: l1 ++ l2) as Hx.
  { destruct Hd as (Hnd & _). rewrite <- (Permutation_middle l1 l2 x), Permutation_swap in Hnd. by apply NoDup_cons in Hnd as [? _]. }
  unfold ListDelInit in E. rewrite Hp, Hn in E. cbn [mbind option_bind] in E.
  destruct (ListDel m p n) as [m1|] eqn:E1; [|done]. exists m1. cbn [mbind option_bind] in E.
  assert (forall b, b ∉ h :: l1 ++ l2 -> m1 !! b = m !! b) as Hf.
  { unfold ListDel in E1. destruct (set_prev m n p) as [m0|] eqn:E0; [|done]. cbn [mbind option_bind] in E1.
    apply set_prev_Some in E0 as (_ & _ & Hf0 & _). apply set_next_Some in E1 as (_ & _ & Hf1 & _).
    intros b Hb. rewrite Hf1, Hf0 by set_solver. done. }
  split_and!; [done| |by apply Hf|done].
  destruct (ListInit_fields m1 x) as (m2 & E2 & _ & _ & Hf2); [rewrite Hf by done; by eapply get_next_Some|].
  simplify_eq. destruct Hd' as (Hnd & Hz & Hc). split_and!; [done..|].
  apply (chain_frame m'); [..|done]; intros b Hb; unfold get_next, get_prev; rewrite Hf2; set_solver.
Qed.

(** Initialising a node leaves the rings it is not in alone. *)
Lemma ListInit_dll m h xs node : dll m h xs -> detached m h xs node ->
  exists m', ListInit m node = Some m' /\ dll m' node [] /\ dll m' h xs /\ (forall b, b <> node -> m' !! b = m !! b).
Proof.
  intros (Hnd & Hz & Hc) (Ha & Hni & H0). destruct (ListInit_fields m node Ha) as (m' & E & ? & ? & Hf).
  exists m'. split_and!; try done.
  - split_and!; [apply NoDup_singleton|set_solver|done].
  - split_and!; try done. apply (chain_frame m); [..|done]; intros b Hb; unfold get_next, get_prev; rewrite Hf; set_solver.
  - intros b Hb. by rewrite Hf.
Qed.

(** Inserting after a node of the ring. *)
Lemma ListAdd_node m h l1 x l2 node : dll m h (l1 ++ x :: l2) -> detached m h (l1 ++ x :: l2) node ->
  exists m', ListAdd m x node = Some m' /\ dll m' h (l1 ++ x :: node :: l2) /\
    (forall b, b ∉ node :: h :: l1 ++ x :: l2 -> m' !! b = m !! b).
Proof.
  intros Hd Hn. apply dll_rotate in Hd. destruct (ListAdd_dll m x (l2 ++ h :: l1) node) as (m' & E & Hd' & Hf); [done| |].
  { eapply detached_perm, Hn. solve_Permutation. }
  exists m'. split_and!; [done| |intros b Hb; apply Hf; set_solver]. by rewrite dll_rotate.
Qed.

(** ** Properties *)

(** C22: Every inline operation of the header implements an operation on
    sequences and touches no other memory.  On a ring that holds [xs] and an
    allocated node outside it: ListInit makes the node a ring of its own and
    leaves the ring alone; ListNodeInsert (and ListAdd) puts it first,
    ListTailInsert last; IsListEmpty says whether [xs] is empty; ListDelInit of
    the head makes the head an empty ring and leaves the others linked to each
    other.  At a node [x] of the ring, ListAdd inserts right after [x] and
    ListTailInsert right before it; ListDelete and ListDelInit take [x] out of
    the ring and link it to itself, and ListDel of its neighbours takes it out
    and leaves its fields alone.  All of them succeed, and memory outside the
    ring and the node is as it was. *)
Theorem list_ops_refine m h xs node :
  dll m h xs -> detached m h xs node ->
  (exists m', ListInit m node = Some m' /\ dll m' node [] /\ dll m' h xs /\ forall b, b <> node -> m' !! b = m !! b) /\
  (exists m', ListNodeInsert m h node = Some m' /\ dll m' h (node :: xs) /\
     forall b, b ∉ node :: h :: xs -> m' !! b = m !! b) /\
  (exists m', ListTailInsert m h node = Some m' /\ dll m' h (xs ++ [node]) /\
     forall b, b ∉ node :: h :: xs -> m' !! b = m !! b) /\
  IsListEmpty m h = Some (bool_decide (xs = [])) /\
  (exists m', ListDelInit m h = Some m' /\ dll m' h [] /\ match xs with [] => True | y :: ys => dll m' y ys end /\
     forall b, b ∉ h :: xs -> m' !! b = m !! b) /\
  (forall l1 x l2, xs = l1 ++ x :: l2 ->
    (exists m', ListAdd m x node = Some m' /\ dll m' h (l1 ++ x :: node :: l2) /\
       forall b, b ∉ node :: h :: xs -> m' !! b = m !! b) /\
    (exists m', ListTailInsert m x node = Some m' /\ dll m' h (l1 ++ node :: x :: l2) /\
       forall b, b ∉ node :: h :: xs -> m' !! b = m !! b) /\
    (exists m', ListDelete m x = Some m' /\ dll m' h (l1 ++ l2) /\ dll m' x [] /\
       forall b, b ∉ h :: xs -> m' !! b = m !! b) /\
    (exists m', ListDelInit m x = Some m' /\ dll m' h (l1 ++ l2) /\ dll m' x [] /\
       forall b, b ∉ h :: xs -> m' !! b = m !! b) /\
    (exists p n m', get_prev m x = Some p /\ get_next m x = Some n /\ ListDel m p n = Some m' /\
       dll m' h (l1 ++ l2) /\ m' !! x = m !! x /\ forall b, b ∉ h :: l1 ++ l2 -> m' !! b = m !! b)).
Proof.
  intros Hd Hn. split_and!.
  - by apply ListInit_dll.
  - by apply ListAdd_dll.
  - by apply ListTailInsert_head.
  - by apply IsListEmpty_dll.
  - by apply ListDelInit_dll.
  - intros l1 x l2 ->. destruct (dll_neighbours _ _ _ _ _ Hd) as (p & n & Hp & Hnx & _).
    destruct (ListDel_dll _ _ _ _ _ _ _ Hd Hp Hnx) as (m' & ?). split_and!.
    + by apply ListAdd_node.
    + by apply ListTailInsert_dll.
    + by apply ListDelete_dll.
    + by apply ListDelInit_node.
    + by exists p, n, m'.
Qed.

(** The ring 1 -> 2 -> 3 with a detached node 4. *)
Definition example_mem : mem :=
  list_to_map [(1, MkNode 3 2); (2, MkNode 1 3); (3, MkNode 2 1); (4, MkNode 4 4)].

Lemma example_dll : dll example_mem 1 [2; 3].
Proof.
  split_and!; [apply (bool_decide_unpack _); vm_compute; done..|].
  unfold chain, link. split_and!; reflexivity.
Qed.

Lemma list_ops_refine_witness :
  IsListEmpty example_mem 1 = Some false.
Proof.
  apply (list_ops_refine example_mem 1 [2; 3] 4); [apply example_dll|].
  split_and!; [eexists; reflexivity|apply (bool_decide_unpack _); vm_compute; done|lia].
Defined.

(** C39: Iteration: with more fuel than nodes, LIST_FOR_EACH visits exactly
    the nodes of the ring in order, and LIST_FOR_EACH_SAFE with a body that
    deletes the current node when [p] holds terminates with the ring of the
    nodes where [p] fails, in order. *)
Theorem list_iteration_refines m h xs p fuel :
  dll m h xs -> (length xs < fuel)%nat ->
  LIST_FOR_EACH (fun acc item => acc ++ [item]) fuel m h [] = Some xs /\
  exists m', LIST_FOR_EACH_SAFE (delete_if p) fuel m h = Some m' /\
    dll m' h (filter (fun x => p x = false) xs) /\
    forall b, b ∉ h :: xs -> m' !! b = m !! b.
Proof.
  intros Hd Hf. assert (h ∉ xs) by (destruct Hd as ([? _]%NoDup_cons & _); done).
  split.
  - unfold LIST_FOR_EACH. rewrite (for_each_chain _ m h xs); try done; [|apply Hd].
    f_equal. assert (forall ys acc, foldl (fun acc item => acc ++ [item]) acc ys = acc ++ ys) as ->; [|done].
    induction ys as [|y ys IH]; intros acc; simpl; [by rewrite app_nil_r|].
    by rewrite IH, <- app_assoc.
  - destruct (for_each_safe_delete p h xs fuel m [] Hd Hf) as (m' & E & ? & ?).
    exists m'. split; [|by split]. rewrite <- E. unfold LIST_FOR_EACH_SAFE.
    destruct Hd as (_ & _ & Hc). destruct xs; simpl in *; destruct Hc as [Hn ?];
      [|destruct Hn as [Hn ?]]; rewrite Hn; simpl; rewrite ?Hn; done.
Qed.

Lemma list_iteration_refines_witness :
  LIST_FOR_EACH (fun acc item => acc ++ [item]) 3 example_mem 1 [] = Some [2; 3].
Proof.
  apply (list_iteration_refines example_mem 1 [2; 3] (fun x => x =? 2) 3);
    [apply example_dll|simpl; lia].
Defined.

End CommonList.
