(* ===== verification/SeqVerify.v ===== *)
(** * Sequence verification (anti-replay window)

    Models [core/common/security/sequence_verification/softbus_sequence_verification.c].
    Every [static bool IsPass...] helper is one definition, with the state
    [SeqVerifyInfo] passed and returned.  [int32_t] arithmetic is two's
    complement (the code relies on the flip at [INT32_MAX]); [0x1UL] is the
    64-bit literal of an LP64 target.  A result [None] is a left shift by
    64 or more, which C leaves undefined.

    The specification is the window [Window] over unbounded packet indices with
    the rule the header of the file states ([headerRule]).
    [IsPassSeqCheck_refines] says that for packets within half of the sequence
    space the 32-bit code follows it, and names the duplicates it misses. *)

From S2P Require Import Prelude.

Module SeqVerify.

Record SeqVerifyInfo := MkSeq { maxSeq : Z; minSeq : Z; recvBitmap : Z }.

Definition MAX_SEQ_BIAS : Z := 60.

(** [x << n] on a 64-bit operand. *)
Definition shl64 (x n : Z) : option Z :=
  if n <? 64 then Some (u64 (Z.shiftl x n)) else None.

Definition IsDifferentSign (seqA seqB : Z) : bool :=
  if ((0 <=? seqA) && (0 <=? seqB)) || ((seqA <? 0) && (seqB <? 0)) then false else true.

Definition IsPassDuplicateCheck (s : SeqVerifyInfo) (recvSeq : Z)
  : option (bool * SeqVerifyInfo) :=
  let offset := u32 (s32 (maxSeq s - recvSeq)) in
  bit ← shl64 1 offset;
  let isRepeat := s32 (Z.land (recvBitmap s) bit) in
  if negb (isRepeat =? 0) then Some (false, s)
  else Some (true, MkSeq (maxSeq s) (minSeq s) (Z.lor (recvBitmap s) bit)).

Definition IsPassOverMaxCheck (s : SeqVerifyInfo) (recvSeq : Z)
  : option (bool * SeqVerifyInfo) :=
  if s32 (recvSeq - maxSeq s) <? 0 then Some (false, s)
  else if MAX_SEQ_BIAS <=? s32 (recvSeq - minSeq s) then Some (false, s)
  else
    let seqOffset := u32 (s32 (s32 (recvSeq - maxSeq s) + 1)) in
    bm ← shl64 (recvBitmap s) seqOffset;
    Some (true, MkSeq (s32 (recvSeq + 1)) (minSeq s) (Z.lor bm (Z.shiftl 1 1))).

Definition IsPassAllRangeCheck (s : SeqVerifyInfo) (recvSeq : Z)
  : option (bool * SeqVerifyInfo) :=
  if recvSeq =? minSeq s then
    Some (true, MkSeq (maxSeq s) (s32 (recvSeq + 1)) (recvBitmap s))
  else if minSeq s <? recvSeq then
    if recvSeq <? maxSeq s then IsPassDuplicateCheck s recvSeq
    else IsPassOverMaxCheck s recvSeq
  else Some (false, s).

Definition IsPassNormalCheck (s : SeqVerifyInfo) (recvSeq : Z)
  : option (bool * SeqVerifyInfo) :=
  if recvSeq =? minSeq s then
    Some (true, MkSeq (s32 (recvSeq + 1)) (s32 (recvSeq + 1)) (recvBitmap s))
  else if negb (IsDifferentSign recvSeq (minSeq s)) then
    if maxSeq s <? recvSeq then IsPassOverMaxCheck s recvSeq else Some (false, s)
  else IsPassOverMaxCheck s recvSeq.

Definition IsPassNoflipDisorderCheck (s : SeqVerifyInfo) (recvSeq : Z)
  : option (bool * SeqVerifyInfo) :=
  if 0 <=? minSeq s then
    if 0 <=? recvSeq then IsPassAllRangeCheck s recvSeq else IsPassOverMaxCheck s recvSeq
  else if maxSeq s <? 0 then
    if recvSeq <? 0 then IsPassAllRangeCheck s recvSeq else IsPassOverMaxCheck s recvSeq
  else Some (false, s).

Definition IsPassFlipPositiveCheck (s : SeqVerifyInfo) (recvSeq : Z)
  : option (bool * SeqVerifyInfo) :=
  if 0 <=? recvSeq then
    if recvSeq <? maxSeq s then IsPassDuplicateCheck s recvSeq
    else IsPassOverMaxCheck s recvSeq
  else if recvSeq <? 0 then
    if recvSeq =? minSeq s then
      Some (true, MkSeq (maxSeq s) (s32 (recvSeq + 1)) (recvBitmap s))
    else if minSeq s <? recvSeq then IsPassDuplicateCheck s recvSeq
    else Some (false, s)
  else Some (false, s).

Definition IsPassFlipNegativeCheck (s : SeqVerifyInfo) (recvSeq : Z)
  : option (bool * SeqVerifyInfo) :=
  if 0 <=? recvSeq then
    if recvSeq =? minSeq s then
      Some (true, MkSeq (maxSeq s) (s32 (recvSeq + 1)) (recvBitmap s))
    else if minSeq s <? recvSeq then IsPassDuplicateCheck s recvSeq
    else Some (false, s)
  else if recvSeq <? 0 then
    if recvSeq <? maxSeq s then IsPassDuplicateCheck s recvSeq
    else IsPassOverMaxCheck s recvSeq
  else Some (false, s).

(** [os = None] is the NULL pointer. *)
Definition IsPassSeqCheck (os : option SeqVerifyInfo) (recvSeq : Z)
  : option (bool * option SeqVerifyInfo) :=
  match os with
  | None => Some (false, None)
  | Some s =>
    let isDifferentSign := IsDifferentSign (minSeq s) (maxSeq s) in
    let r :=
      if minSeq s =? maxSeq s then IsPassNormalCheck s recvSeq
      else if (minSeq s <? maxSeq s) && negb isDifferentSign then
        IsPassNoflipDisorderCheck s recvSeq
      else if (maxSeq s <? minSeq s) && isDifferentSign then
        IsPassFlipNegativeCheck s recvSeq
      else if (minSeq s <? maxSeq s) && isDifferentSign then
        IsPassFlipPositiveCheck s recvSeq
      else Some (false, s) in
    '(b, s') ← r; Some (b, Some s')
  end.

#[global] Arguments IsPassSeqCheck : simpl never.

(** ** Specification: a sliding window over unbounded indices *)

Record Window := MkWin { lo : Z; hi : Z; seen : gset Z }.

(** The first 32 positions below [hi] are the ones whose bit survives the
    conversion of the bitmap test to [int32_t]. *)
Definition VISIBLE : Z := 32.

Definition accept (w : Window) (p : Z) : bool * Window :=
  if p =? lo w then
    (true, MkWin (lo w + 1) (if lo w =? hi w then hi w + 1 else hi w) (seen w))
  else if p <? lo w then (false, w)
  else if p <? hi w then
    if bool_decide (p ∈ seen w) && (hi w - p <? VISIBLE) then (false, w)
    else (true, MkWin (lo w) (hi w) ({[p]} ∪ seen w))
  else if p <? lo w + MAX_SEQ_BIAS then (true, MkWin (lo w) (p + 1) ({[p]} ∪ seen w))
  else (false, w).

(** What the header asks for, with the bound on how far ahead a packet may be:
    a packet below the window or recorded in it is a duplicate, and only a
    duplicate or a packet too far ahead is refused.  The lowest packet moves
    the low edge, the others are recorded. *)
Definition headerRule (w : Window) (p : Z) : bool * Window :=
  if p <? lo w then (false, w)
  else if lo w + MAX_SEQ_BIAS <=? p then (false, w)
  else
    (negb (bool_decide (p ∈ seen w)),
     if p =? lo w then MkWin (lo w + 1) (Z.max (hi w) (lo w + 1)) (seen w)
     else MkWin (lo w) (Z.max (hi w) (p + 1)) ({[p]} ∪ seen w)).

(** The duplicates the code does not notice: the lowest packet of the window,
    and those whose bit is lost in the conversion to [int32_t]. *)
Definition missed (w : Window) (p : Z) : bool :=
  bool_decide (p ∈ seen w) && ((p =? lo w) || ((lo w <? p) && (VISIBLE <=? hi w - p))).

(** [w] abstracts the concrete state [s]. *)
Record represents (w : Window) (s : SeqVerifyInfo) : Prop := {
  rep_lo : minSeq s = s32 (lo w);
  rep_hi : maxSeq s = s32 (hi w);
  rep_width : 0 <= hi w - lo w <= MAX_SEQ_BIAS;
  rep_bm : is_u 64 (recvBitmap s);
  rep_seen : forall p, p ∈ seen w -> p < hi w;
  rep_bit0 : Z.testbit (recvBitmap s) 0 = false;
  rep_bits : forall o, 0 < o < hi w - lo w ->
    Z.testbit (recvBitmap s) o = bool_decide (hi w - o ∈ seen w)
}.

(** ** Histories *)

(** A freshly keyed channel: [SeqVerifyInfo] with equal bounds and no bits. *)
Definition fresh_state (n : Z) : SeqVerifyInfo := MkSeq (s32 n) (s32 n) 0.
Definition fresh_window (n : Z) : Window := MkWin n n ∅.

(** Packets [ps] arriving in order at the code ... *)
Fixpoint run (s : SeqVerifyInfo) (ps : list Z) : option (list bool * SeqVerifyInfo) :=
  match ps with
  | [] => Some ([], s)
  | p :: ps' =>
    match IsPassSeqCheck (Some s) (s32 p) with
    | Some (b, Some s') => '(bs, s'') ← run s' ps'; Some (b :: bs, s'')
    | _ => None
    end
  end.

(** ... and at the window. *)
Fixpoint run_window (w : Window) (ps : list Z) : list bool * Window :=
  match ps with
  | [] => ([], w)
  | p :: ps' =>
    let '(b, w') := accept w p in
    let '(bs, w'') := run_window w' ps' in (b :: bs, w'')
  end.

(** Each packet is within half of the sequence space of the window. *)
Definition near (w : Window) (p : Z) : bool :=
  (lo w - 2 ^ 31 + MAX_SEQ_BIAS <=? p) && (p <? lo w + 2 ^ 31).

Fixpoint all_near (w : Window) (ps : list Z) : bool :=
  match ps with
  | [] => true
  | p :: ps' => near w p && all_near (snd (accept w p)) ps'
  end.

(** The packets of a history that were accepted. *)
Fixpoint accepted (w : Window) (ps : list Z) : list Z :=
  match ps with
  | [] => []
  | p :: ps' =>
    let '(b, w') := accept w p in
    if b : bool then p :: accepted w' ps' else accepted w' ps'
  end.

(** ** Refinement *)

Lemma s32_sub_near x y : is_s 32 (x - y) -> s32 (s32 x - s32 y) = x - y.
Proof. intros. rewrite wrapS_sub. by apply wrapS_id. Qed.

Lemma shl64_bit o : 0 <= o < 64 -> shl64 1 o = Some (Z.shiftl 1 o).
Proof.
  intros. unfold shl64. destruct (Z.ltb_spec o 64); [|lia]. f_equal.
  apply wrapU_id. unfold is_u. rewrite Z.shiftl_1_l. split; [lia|].
  apply Z.pow_lt_mono_r; lia.
Qed.

(** The repeat test sees bit [o] exactly when [o < 32]. *)
Lemma isRepeat_visible bm o : 0 <= o < 64 ->
  negb (s32 (Z.land bm (Z.shiftl 1 o)) =? 0) = Z.testbit bm o && (o <? VISIBLE).
Proof.
  intros. rewrite land_bit by lia. destruct (Z.testbit bm o); simpl; [|done].
  unfold VISIBLE. destruct (Z.ltb_spec o 32).
  - assert (o = 31 \/ o < 31) as [->|] by lia; [done|].
    rewrite wrapS_id; [| lia |].
    + rewrite Z.shiftl_1_l. assert (0 < 2 ^ o) by (apply Z.pow_pos_nonneg; lia).
      by rewrite (proj2 (Z.eqb_neq _ _)) by lia.
    + unfold is_s. rewrite Z.shiftl_1_l.
      assert (0 < 2 ^ o) by (apply Z.pow_pos_nonneg; lia).
      assert (2 ^ o < 2 ^ (32 - 1)) by (apply Z.pow_lt_mono_r; lia). widths. lia.
  - replace (Z.shiftl 1 o) with (0 + 2 ^ (o - 32) * 2 ^ 32).
    + by rewrite wrapS_shift.
    + rewrite Z.shiftl_1_l, <- Z.pow_add_r, Z.add_0_l by lia. f_equal. lia.
Qed.

Lemma lor_is_u w x y : is_u w x -> is_u w y -> 0 <= w -> is_u w (Z.lor x y).
Proof.
  intros Hx Hy Hw.
  assert (wrapU w (Z.lor x y) = Z.lor x y) as <-; [|by auto with cint].
  apply Z.bits_inj'. intros i Hi. rewrite testbit_wrapU, Z.lor_spec by done.
  rewrite <- (wrapU_id w x), <- (wrapU_id w y), !testbit_wrapU by done.
  by destruct (i <? w).
Qed.

Section with_state.
Context (w : Window) (s : SeqVerifyInfo) (R : represents w s).

Lemma represents_record p : lo w < p < hi w ->
  represents (MkWin (lo w) (hi w) ({[p]} ∪ seen w))
    (MkSeq (maxSeq s) (minSeq s) (Z.lor (recvBitmap s) (Z.shiftl 1 (hi w - p)))).
Proof.
  destruct R as [Hlo Hhi Hw Hbm Hseen Hb0 Hbits]. unfold MAX_SEQ_BIAS in *. intros Hp.
  split; cbn [lo hi seen maxSeq minSeq recvBitmap]; try done.
  - apply lor_is_u; [done | | lia]. unfold is_u. rewrite Z.shiftl_1_l.
    split; [lia | apply Z.pow_lt_mono_r; lia].
  - intros q [->%elem_of_singleton|]%elem_of_union; [lia|auto].
  - rewrite Z.lor_spec, testbit_bit, Hb0, bool_decide_false by lia. done.
  - intros o Ho. rewrite Z.lor_spec, testbit_bit, Hbits by lia.
    rewrite <- bool_decide_or. apply bool_decide_ext.
    rewrite elem_of_union, elem_of_singleton. intuition lia.
Qed.

Lemma IsPassDuplicateCheck_inside p : lo w < p < hi w ->
  exists b w' s', accept w p = (b, w') /\ represents w' s' /\
    IsPassDuplicateCheck s (s32 p) = Some (b, s').
Proof.
  intros Hp. pose proof (represents_record p Hp) as Hrec.
  destruct R as [Hlo Hhi Hw Hbm Hseen Hb0 Hbits]. unfold MAX_SEQ_BIAS in *.
  unfold accept, IsPassDuplicateCheck. rewrite Hhi in Hrec |- *. rewrite s32_sub_near by range.
  rewrite wrapU_id by range. rewrite shl64_bit by lia. simpl.
  rewrite isRepeat_visible, Hbits by lia.
  replace (hi w - (hi w - p)) with p by lia.
  destruct (Z.eqb_spec p (lo w)); [lia|]. destruct (Z.ltb_spec p (lo w)); [lia|].
  destruct (Z.ltb_spec p (hi w)); [|lia].
  case_bool_decide as Hin; [destruct (hi w - p <? VISIBLE)|]; simpl; eauto 10.
Qed.

Lemma IsPassOverMaxCheck_above p : hi w <= p -> p <> lo w -> p < lo w + 2 ^ 31 ->
  exists b w' s', accept w p = (b, w') /\ represents w' s' /\
    IsPassOverMaxCheck s (s32 p) = Some (b, s').
Proof.
  destruct R as [Hlo Hhi Hw Hbm Hseen Hb0 Hbits]. unfold MAX_SEQ_BIAS in *. intros Hp Hne Hfar.
  unfold accept, IsPassOverMaxCheck.
  rewrite Hhi, Hlo, !s32_sub_near by range.
  destruct (Z.eqb_spec p (lo w)); [lia|]. destruct (Z.ltb_spec p (lo w)); [lia|].
  destruct (Z.ltb_spec p (hi w)); [lia|]. destruct (Z.ltb_spec (p - hi w) 0); [lia|].
  unfold MAX_SEQ_BIAS.
  destruct (Z.leb_spec 60 (p - lo w)), (Z.ltb_spec p (lo w + 60)); try lia.
  - do 3 eexists. done.
  - rewrite (wrapS_id 32 (p - hi w + 1)), (wrapU_id 32 (p - hi w + 1)) by range.
    unfold shl64. destruct (Z.ltb_spec (p - hi w + 1) 64); [|lia]. simpl.
    do 3 eexists. split; [reflexivity|]. split; [|reflexivity].
    split; cbn [lo hi seen maxSeq minSeq recvBitmap]; unfold MAX_SEQ_BIAS; try done; try lia.
    + by rewrite wrapS_add_l.
    + apply lor_is_u; [by auto with cint | done | lia].
    + intros q [->%elem_of_singleton|Hq%Hseen]%elem_of_union; lia.
    + rewrite Z.lor_spec, testbit_wrapU, Z.shiftl_spec_low by lia. done.
    + intros o Ho. rewrite Z.lor_spec, testbit_wrapU, testbit_bit by lia.
      destruct (Z.ltb_spec o 64); [|lia].
      rewrite Z.shiftl_spec by lia. simpl.
      destruct (decide (o = 1)) as [->|].
      { rewrite orb_true_r. symmetry. apply bool_decide_true.
        rewrite elem_of_union, elem_of_singleton. lia. }
      rewrite (bool_decide_false (o = 1)), orb_false_r by done.
      destruct (decide (o < p - hi w + 1)).
      { rewrite Z.testbit_neg_r by lia. symmetry. apply bool_decide_false.
        intros [?%elem_of_singleton|Hq%Hseen]%elem_of_union; lia. }
      destruct (decide (o = p - hi w + 1)) as [->|].
      { replace (p - hi w + 1 - (p - hi w + 1)) with 0 by lia. rewrite Hb0.
        symmetry. apply bool_decide_false.
        intros [?%elem_of_singleton|Hq%Hseen]%elem_of_union; lia. }
      rewrite Hbits by lia. replace (hi w - (o - (p - hi w + 1))) with (p + 1 - o) by lia.
      apply bool_decide_ext. rewrite elem_of_union, elem_of_singleton. intuition lia.
Qed.

Lemma IsPassOverMaxCheck_below p : p < lo w -> lo w - 2 ^ 31 + MAX_SEQ_BIAS <= p ->
  IsPassOverMaxCheck s (s32 p) = Some (false, s).
Proof.
  destruct R as [Hlo Hhi Hw _ _ _ _]. unfold MAX_SEQ_BIAS in *. intros.
  unfold IsPassOverMaxCheck. rewrite Hhi, s32_sub_near by range.
  destruct (Z.ltb_spec (p - hi w) 0); [done|lia].
Qed.

Lemma represents_min :
  represents (snd (accept w (lo w)))
    (MkSeq (if lo w =? hi w then s32 (lo w + 1) else maxSeq s) (s32 (lo w + 1)) (recvBitmap s)).
Proof.
  destruct R as [Hlo Hhi Hw Hbm Hseen Hb0 Hbits]. unfold MAX_SEQ_BIAS in *.
  unfold accept. rewrite Z.eqb_refl.
  split; cbn [lo hi seen maxSeq minSeq recvBitmap snd]; unfold MAX_SEQ_BIAS; try done;
    destruct (Z.eqb_spec (lo w) (hi w)) as [E|]; try lia; auto.
  - by rewrite <- E.
  - intros q Hq%Hseen. lia.
  - intros o Ho. apply Hbits. lia.
Qed.

(** The signs decide which helper runs; the position of the packet
    relative to the window decides what it answers. *)
Lemma IsPassSeqCheck_dispatch p : lo w - 2 ^ 31 + MAX_SEQ_BIAS <= p < lo w + 2 ^ 31 ->
  IsPassSeqCheck (Some s) (s32 p) =
    '(b, s') ← (if p =? lo w then
                  Some (true, MkSeq (if lo w =? hi w then s32 (lo w + 1) else maxSeq s)
                                (s32 (lo w + 1)) (recvBitmap s))
                else if p <? lo w then Some (false, s)
                else if p <? hi w then IsPassDuplicateCheck s (s32 p)
                else IsPassOverMaxCheck s (s32 p));
    Some (b, Some s').
Proof.
  intros Hp. unfold IsPassSeqCheck. f_equal.
  pose proof (IsPassOverMaxCheck_below p) as Hbelow.
  destruct R as [Hlo Hhi Hw _ _ _ _]. unfold MAX_SEQ_BIAS in *.
  assert (s32 (s32 p + 1) = s32 (p + 1)) as Hp1 by apply wrapS_add_l.
  pose proof (wrapS_range 32 (lo w)). pose proof (wrapS_range 32 (hi w)).
  pose proof (wrapS_range 32 p). unfold is_s in *. widths.
  unfold IsPassNormalCheck, IsPassNoflipDisorderCheck, IsPassFlipNegativeCheck,
    IsPassFlipPositiveCheck, IsPassAllRangeCheck, IsDifferentSign.
  rewrite Hlo, Hhi, Hp1.
  destruct (wrapS_witness 32 (lo w)) as [i Hi], (wrapS_witness 32 (hi w)) as [j Hj],
    (wrapS_witness 32 p) as [k Hk]. widths.
  destruct (Z.eqb_spec p (lo w)) as [->|]; [|destruct (Z.ltb_spec p (lo w));
    [|destruct (Z.ltb_spec p (hi w))]];
  split_cmp; try reflexivity; try (apply Hbelow; lia).
Qed.
End with_state.

Lemma represents_fresh n : represents (fresh_window n) (fresh_state n).
Proof.
  split; cbn; try done; unfold MAX_SEQ_BIAS; try lia; intros; set_solver.
Qed.

Lemma IsPassSeqCheck_step w s p : represents w s -> near w p = true ->
  exists s', IsPassSeqCheck (Some s) (s32 p) = Some (fst (accept w p), Some s') /\
    represents (snd (accept w p)) s'.
Proof.
  intros R [H1%Z.leb_le H2%Z.ltb_lt]%andb_true_iff.
  rewrite (IsPassSeqCheck_dispatch w s R) by lia.
  destruct (Z.eqb_spec p (lo w)) as [->|Hne].
  { pose proof (represents_min w s R). eexists. split; [|done].
    unfold accept. by rewrite Z.eqb_refl. }
  destruct (Z.ltb_spec p (lo w)).
  { exists s. unfold accept. by split_cmp. }
  destruct (Z.ltb_spec p (hi w)).
  - destruct (IsPassDuplicateCheck_inside w s R p) as (b & w' & s' & -> & ? & ->); [lia|].
    simpl. eauto.
  - destruct (IsPassOverMaxCheck_above w s R p) as (b & w' & s' & -> & ? & ->); try lia.
    simpl. eauto.
Qed.

Lemma run_represents ps : forall w s, represents w s -> all_near w ps = true ->
  exists s', run s ps = Some (fst (run_window w ps), s') /\
    represents (snd (run_window w ps)) s'.
Proof.
  induction ps as [|p ps IH]; intros w s R Hn; simpl in *; [eauto|].
  apply andb_true_iff in Hn as [Hp Hps].
  destruct (IsPassSeqCheck_step w s p R Hp) as (s1 & -> & R1).
  destruct (accept w p) as [b w1]. simpl in *.
  destruct (IH w1 s1 R1 Hps) as (s2 & -> & R2).
  destruct (run_window w1 ps) as [bs w2]. simpl in *. eauto.
Qed.

(** A rejected packet leaves the state as it was. *)
Lemma IsPassSeqCheck_reject s x os :
  IsPassSeqCheck (Some s) x = Some (false, os) -> os = Some s.
Proof.
  unfold IsPassSeqCheck, IsPassNormalCheck, IsPassNoflipDisorderCheck, IsPassFlipNegativeCheck,
    IsPassFlipPositiveCheck, IsPassAllRangeCheck, IsPassDuplicateCheck, IsPassOverMaxCheck.
  repeat case_match; simpl; intros; simplify_option_eq; try done;
    repeat (case_match; simplify_option_eq; try done).
Qed.

(** A packet once accepted stays below the window or recorded in it. *)
Lemma accept_settled w p b w' : lo w <= hi w -> accept w p = (b, w') ->
  lo w' <= hi w' /\ (b = true -> p < lo w' \/ p ∈ seen w') /\
  (forall q, q < lo w \/ q ∈ seen w -> q < lo w' \/ q ∈ seen w').
Proof.
  unfold accept. intros Hw H.
  destruct (Z.eqb_spec p (lo w)), (Z.ltb_spec p (lo w)), (Z.ltb_spec p (hi w)),
    (Z.ltb_spec p (lo w + MAX_SEQ_BIAS)), (Z.eqb_spec (lo w) (hi w)); try lia;
    try case_match; simplify_eq; cbn [lo hi seen];
    try setoid_rewrite elem_of_union; try setoid_rewrite elem_of_singleton;
    intuition (try lia; auto).
Qed.

Lemma accepted_settled ps : forall w p, lo w <= hi w -> p ∈ accepted w ps ->
  p < lo (snd (run_window w ps)) \/ p ∈ seen (snd (run_window w ps)).
Proof.
  assert (forall ps w q, lo w <= hi w -> q < lo w \/ q ∈ seen w ->
    q < lo (snd (run_window w ps)) \/ q ∈ seen (snd (run_window w ps))) as Hkeep.
  { clear ps. induction ps as [|p ps IH]; intros w q Hw Hq; simpl; [done|].
    destruct (accept w p) as [b w'] eqn:E. destruct (accept_settled _ _ _ _ Hw E) as (? & _ & Hq').
    specialize (IH w' q). destruct (run_window w' ps). simpl in *. auto. }
  induction ps as [|p ps IH]; intros w q Hw Hq; simpl in *; [set_solver|].
  destruct (accept w p) as [b w'] eqn:E. destruct (accept_settled _ _ _ _ Hw E) as (? & Hb & _).
  specialize (IH w' q). specialize (Hkeep ps w' q).
  destruct (run_window w' ps). simpl in *.
  destruct b; [apply elem_of_cons in Hq as [->|]|]; auto.
Qed.

(** The window of the code is the one of the header but for [missed]. *)
Lemma accept_header w p : 0 <= hi w - lo w <= MAX_SEQ_BIAS -> (forall q, q ∈ seen w -> q < hi w) ->
  accept w p = (fst (headerRule w p) || missed w p, snd (headerRule w p)).
Proof.
  intros Hw Hs. specialize (Hs p). unfold accept, headerRule, missed, VISIBLE, MAX_SEQ_BIAS in *.
  case_bool_decide as Hp; split_cmp; simpl; rewrite ?Z.max_l, ?Z.max_r by lia; subst; try done; try lia;
    try (by repeat f_equal); try (specialize (Hs Hp); lia).
  destruct w; cbn in *. do 2 f_equal. set_solver.
Qed.

(** ** Properties *)

(** C20: The window the header asks for, and where the code departs from it.
    For every state that represents a window and every packet within half of
    the sequence space of it, the 32-bit check with its sign and flip cases
    never shifts out of range and its new state represents the window
    [headerRule] gives.  It refuses what [headerRule] refuses, and nothing
    else, apart from two kinds of duplicates, which it accepts: a recorded
    packet that has become the lowest of the window, and a recorded packet 32
    or more below the upper edge ([missed]). *)
Theorem IsPassSeqCheck_refines w s p :
  represents w s -> near w p = true ->
  exists s', IsPassSeqCheck (Some s) (s32 p) = Some (fst (headerRule w p) || missed w p, Some s') /\
    represents (snd (headerRule w p)) s'.
Proof.
  intros R Hn. destruct (IsPassSeqCheck_step w s p R Hn) as (s' & -> & R').
  rewrite (accept_header w p) in * by (by destruct R). eauto.
Qed.

Lemma IsPassSeqCheck_refines_witness :
  exists s', IsPassSeqCheck (Some (fresh_state 2147483647)) (s32 2147483650)
    = Some (true, Some s') /\ represents (MkWin 2147483647 2147483651 {[2147483650]}) s'.
Proof.
  exact (IsPassSeqCheck_refines (fresh_window 2147483647) (fresh_state 2147483647) 2147483650
    (represents_fresh _) eq_refl).
Defined.

(** Anti-replay. After any history of packets from a fresh channel, a
    packet that was accepted before is rejected and leaves the state
    unchanged, unless it is the packet the window waits for next or it is 32
    or more behind the newest packet. *)
Theorem replay_rejected n ps p s' bs :
  all_near (fresh_window n) ps = true ->
  run (fresh_state n) ps = Some (bs, s') ->
  p ∈ accepted (fresh_window n) ps ->
  let w := snd (run_window (fresh_window n) ps) in
  near w p = true -> p <> lo w -> hi w - p < VISIBLE ->
  IsPassSeqCheck (Some s') (s32 p) = Some (false, Some s').
Proof.
  intros Hn Hrun Hacc w Hp Hlo Hvis.
  destruct (run_represents ps _ _ (represents_fresh n) Hn) as (s1 & E & R).
  assert (s1 = s') as -> by congruence. fold w in R.
  assert (accept w p = (false, w)) as Ew.
  { unfold accept. pose proof (accepted_settled ps (fresh_window n) p) as Hs.
    specialize (Hs ltac:(done) Hacc). fold w in Hs. pose proof (rep_seen _ _ R p).
    destruct Hs as [|Hin]; [by split_cmp|]. rewrite (bool_decide_true _ Hin).
    assert (p < hi w) by auto. by split_cmp. }
  destruct (IsPassSeqCheck_step w s' p R Hp) as (s2 & E2 & _).
  rewrite Ew in E2. by rewrite E2, (IsPassSeqCheck_reject _ _ _ E2).
Qed.

Lemma replay_rejected_witness :
  IsPassSeqCheck (Some (MkSeq 11 1 514)) (s32 10) = Some (false, Some (MkSeq 11 1 514)).
Proof.
  refine (replay_rejected 0 [2; 10; 0] 10 (MkSeq 11 1 514) [true; true; true] _ _ _ _ _ _);
    try (vm_compute; congruence).
  apply list_elem_of_In. vm_compute. auto.
Defined.

(** Three histories of a fresh channel on which the check departs from
    its header comment: packet 1 is accepted again once it is the window's
    low edge; packet 2, 39 behind the newest, is accepted twice because the
    repeat test is truncated to 32 bits; and a packet half of the sequence
    space ahead of an open window reaches a shift by 2^31 - 1. *)
Theorem replay_gaps :
  fst <$> run (fresh_state 0) [1; 0; 1] = Some [true; true; true] /\
  fst <$> run (fresh_state 0) [40; 2; 2] = Some [true; true; true] /\
  run (fresh_state 0) [1; -2147483648] = None.
Proof. vm_compute. auto. Qed.

End SeqVerify.
