(* ===== verification/Bitmap.v ===== *)
(** * 32-bit bitmaps

    Models [core/common/bitmap/softbus_bitmap.c].  A [uint32_t *bitmap]
    argument is [option Z] ([None] is NULL); an update returns the new value
    of the pointed-to word.  The range operations shift by [start - 1U],
    which is out of range when [start] is 0: C leaves that undefined, and the
    model answers [None] there. *)

From S2P Require Import Prelude.

Module Bitmap.

Definition UINT32_BITNUM : Z := 32.
Definition UINT32_MAX : Z := 4294967295.

(** [1U << n] *)
Definition shl32 (n : Z) : option Z :=
  if n <? 32 then Some (u32 (Z.shiftl 1 n)) else None.

(** [~x] on [uint32_t] *)
Definition not32 (x : Z) : Z := u32 (Z.lnot x).

Definition SoftbusBitmapSet (bitmap : option Z) (pos : Z) : option Z :=
  match bitmap with
  | None => None
  | Some b =>
    if UINT32_BITNUM <=? pos then Some b else Some (Z.lor b (u32 (Z.shiftl 1 pos)))
  end.

Definition SoftbusBitmapClr (bitmap : option Z) (pos : Z) : option Z :=
  match bitmap with
  | None => None
  | Some b =>
    if UINT32_BITNUM <=? pos then Some b else Some (Z.land b (not32 (u32 (Z.shiftl 1 pos))))
  end.

(** The mask both range operations build:
    [((1U << (start + nums - 1U)) - 1U) & ~((1U << (start - 1U)) - 1U)]. *)
Definition rangeMask (start nums : Z) : option Z :=
  top ← shl32 (u32 (start + nums - 1));
  low ← shl32 (u32 (start - 1));
  Some (Z.land (u32 (top - 1)) (not32 (u32 (low - 1)))).

Definition rangeRejected (start nums : Z) : bool :=
  (UINT32_BITNUM <? start) || (UINT32_BITNUM <? start + nums) || (nums =? 0).

(** Outer [None]: undefined shift.  Inner [None]: the NULL pointer. *)
Definition SoftbusBitmapSetBits (bitmap : option Z) (start nums : Z) : option (option Z) :=
  match bitmap with
  | None => Some None
  | Some b =>
    if rangeRejected start nums then Some (Some b)
    else m ← rangeMask start nums; Some (Some (Z.lor b (u32 (UINT32_MAX - m))))
  end.

Definition SoftbusBitmapClrBits (bitmap : option Z) (start nums : Z) : option (option Z) :=
  match bitmap with
  | None => Some None
  | Some b =>
    if rangeRejected start nums then Some (Some b)
    else m ← rangeMask start nums; Some (Some (Z.land b m))
  end.

(** The loops halve [bitmap] until it is 0; 32 rounds are enough for a
    [uint32_t] (the fuel is one more, for the final test). *)
Fixpoint lowBitLoop (fuel : nat) (bitmap pos : Z) : option Z :=
  match fuel with
  | O => None
  | S fuel' =>
    if 0 <? bitmap then
      let pos' := u8 (pos + 1) in
      if negb (Z.land bitmap 1 =? 0) then Some pos'
      else lowBitLoop fuel' (Z.shiftr bitmap 1) pos'
    else Some 0
  end.

Definition SoftbusLowBitGet (bitmap : Z) : option Z := lowBitLoop 33 bitmap 0.

Fixpoint highBitLoop (fuel : nat) (bitmap pos : Z) : option Z :=
  match fuel with
  | O => None
  | S fuel' =>
    if 0 <? bitmap then highBitLoop fuel' (Z.shiftr bitmap 1) (u8 (pos + 1))
    else Some pos
  end.

Definition SoftbusHighBitGet (bitmap : Z) : option Z := highBitLoop 33 bitmap 0.

Definition SoftbusIsBitmapSet (bitmap : option Z) (pos : Z) : bool :=
  match bitmap with
  | None => false
  | Some b => if UINT32_BITNUM <=? pos then false else negb (Z.land (u32 (Z.shiftl 1 pos)) b =? 0)
  end.

(** ** Bit-level lemmas *)

Lemma testbit_not32 x i : 0 <= i -> Z.testbit (not32 x) i = (i <? 32) && negb (Z.testbit x i).
Proof. intros. unfold not32. rewrite testbit_wrapU, Z.lnot_spec by lia. done. Qed.

Lemma testbit_u32_bit n i : 0 <= n < 32 -> Z.testbit (u32 (Z.shiftl 1 n)) i = bool_decide (i = n).
Proof.
  intros. rewrite testbit_wrapU, testbit_bit by lia.
  case_bool_decide; destruct (Z.ltb_spec i 32); simpl; try done; lia.
Qed.

Lemma IsBitmapSet_testbit b pos : 0 <= pos < 32 ->
  SoftbusIsBitmapSet (Some b) pos = Z.testbit b pos.
Proof.
  intros. unfold SoftbusIsBitmapSet, UINT32_BITNUM. destruct (Z.leb_spec 32 pos); [lia|].
  rewrite wrapU_id by (unfold is_u; rewrite Z.shiftl_1_l; split;
    [apply Z.pow_nonneg | apply Z.pow_lt_mono_r]; lia).
  rewrite Z.land_comm, land_bit by lia.
  destruct (Z.testbit b pos); [|done].
  rewrite Z.shiftl_1_l. assert (0 < 2 ^ pos) by (apply Z.pow_pos_nonneg; lia).
  by rewrite (proj2 (Z.eqb_neq _ _)) by lia.
Qed.

Lemma testbit_pow2_pred n i : 0 <= n <= 32 -> 0 <= i ->
  Z.testbit (u32 (2 ^ n - 1)) i = (i <? n).
Proof.
  intros. replace (2 ^ n - 1) with (Z.ones n) by (rewrite Z.ones_equiv; lia).
  rewrite testbit_wrapU, Z.testbit_ones by lia.
  destruct (Z.ltb_spec i 32), (Z.leb_spec 0 i), (Z.ltb_spec i n); simpl; try done; lia.
Qed.

Lemma rangeMask_bits start nums : 1 <= start -> 1 <= nums -> start + nums <= 32 ->
  exists m, rangeMask start nums = Some m /\ is_u 32 m /\
    forall i, 0 <= i -> Z.testbit m i = (start - 1 <=? i) && (i <? start + nums - 1).
Proof.
  intros. unfold rangeMask, shl32.
  rewrite (wrapU_id 32 (start + nums - 1)), (wrapU_id 32 (start - 1)) by range.
  destruct (Z.ltb_spec (start + nums - 1) 32); [|lia].
  destruct (Z.ltb_spec (start - 1) 32); [|lia]. simpl.
  eexists. split; [reflexivity|].
  assert (forall n, 0 <= n < 32 -> u32 (Z.shiftl 1 n) = 2 ^ n) as Hp.
  { intros n Hn. rewrite Z.shiftl_1_l. apply wrapU_id. split.
    - apply Z.pow_nonneg; lia.
    - apply Z.pow_lt_mono_r; lia. }
  split.
  { apply is_u_bits; [lia|]. intros i Hi.
    rewrite Z.land_spec, testbit_not32 by lia. destruct (Z.ltb_spec i 32); [lia|].
    apply andb_false_r. }
  intros i Hi. rewrite Z.land_spec, testbit_not32, !Hp, !testbit_pow2_pred by lia.
  split_cmp; done.
Qed.

Lemma testbit_complement32 m i : is_u 32 m -> 0 <= i ->
  Z.testbit (u32 (UINT32_MAX - m)) i = (i <? 32) && negb (Z.testbit m i).
Proof.
  intros. replace (UINT32_MAX - m) with (Z.lnot m + 1 * 2 ^ 32) by (unfold Z.lnot, UINT32_MAX; lia).
  rewrite wrapU_shift. by apply testbit_not32.
Qed.

Lemma low_bits_step b i : 0 <= i -> Z.testbit b (i + 1) = Z.testbit (Z.shiftr b 1) i.
Proof. intros. by rewrite Z.shiftr_spec. Qed.

Lemma shiftr1_bound b k : 0 <= b < 2 ^ (k + 1) -> 0 <= k -> 0 <= Z.shiftr b 1 < 2 ^ k.
Proof.
  intros. rewrite Z.shiftr_div_pow2 by lia. change (2 ^ 1) with 2.
  rewrite Z.pow_add_r in H by lia. split; [apply Z.div_pos; lia|].
  apply Z.div_lt_upper_bound; lia.
Qed.

Lemma lowBitLoop_spec fuel : forall b pos,
  0 < b < 2 ^ Z.of_nat fuel -> 0 <= pos -> pos + Z.of_nat fuel < 256 ->
  exists k, 0 <= k < Z.of_nat fuel /\ lowBitLoop fuel b pos = Some (pos + k + 1) /\
    Z.testbit b k = true /\ forall i, 0 <= i < k -> Z.testbit b i = false.
Proof.
  induction fuel as [|fuel IH]; intros b pos Hb Hpos Hlim; [simpl in Hb; lia|].
  rewrite Nat2Z.inj_succ in *. cbn [lowBitLoop]. rewrite <- Z.add_1_r in *.
  destruct (Z.ltb_spec 0 b); [|lia]. rewrite (wrapU_id 8 (pos + 1)) by range.
  assert (Z.land b 1 = Z.b2z (Z.testbit b 0)) as ->.
  { replace 1 with (Z.shiftl 1 0) at 1 by done. rewrite land_bit by lia.
    by destruct (Z.testbit b 0). }
  destruct (Z.testbit b 0) eqn:E0; cbn [Z.b2z negb Z.eqb].
  - exists 0. split; [lia|]. split; [f_equal; lia|]. split; [done|]. intros; lia.
  - assert (0 < Z.shiftr b 1).
    { destruct (decide (Z.shiftr b 1 = 0)) as [Z0|]; [|pose proof (shiftr1_bound b (Z.of_nat fuel)); lia].
      rewrite Z.shiftr_div_pow2 in Z0 by lia. change (2 ^ 1) with 2 in Z0.
      rewrite Z.bit0_odd in E0. pose proof (Z.div_mod b 2). rewrite Zmod_odd, E0 in *. lia. }
    destruct (IH (Z.shiftr b 1) (pos + 1)) as (k & Hk & -> & Hbit & Hlow); try lia.
    { split; [done|]. apply shiftr1_bound; lia. }
    exists (k + 1). split; [lia|]. split; [f_equal; lia|]. split.
    + by rewrite low_bits_step by lia.
    + intros i Hi. destruct (decide (i = 0)) as [->|]; [done|].
      replace i with (i - 1 + 1) by lia. rewrite low_bits_step by lia. apply Hlow. lia.
Qed.

Lemma highBitLoop_spec fuel : forall b pos,
  0 <= b < 2 ^ Z.of_nat fuel -> 0 <= pos -> pos + Z.of_nat fuel < 256 ->
  highBitLoop (S fuel) b pos = Some (pos + (if b =? 0 then 0 else Z.log2 b + 1)).
Proof.
  induction fuel as [|fuel IH]; intros b pos Hb Hpos Hlim.
  { simpl in Hb. assert (b = 0) as -> by lia. simpl. f_equal. lia. }
  rewrite Nat2Z.inj_succ, <- Z.add_1_r in *. remember (S fuel) as n. cbn [highBitLoop]. subst n.
  destruct (Z.ltb_spec 0 b), (Z.eqb_spec b 0); try lia; [|f_equal; lia].
  rewrite (wrapU_id 8 (pos + 1)) by range.
  rewrite IH; try lia; [|apply shiftr1_bound; lia]. f_equal.
  rewrite Z.log2_shiftr by lia.
  destruct (Z.eqb_spec (Z.shiftr b 1) 0) as [Hz|Hz].
  - rewrite Z.shiftr_div_pow2 in Hz by lia. change (2 ^ 1) with 2 in Hz.
    assert (b = 1) as -> by (pose proof (Z.div_mod b 2); pose proof (Z.mod_pos_bound b 2); lia).
    change (Z.log2 1) with 0. lia.
  - assert (1 <= Z.log2 b); [|lia].
    apply Z.log2_le_pow2; [lia|]. change (2 ^ 1) with 2.
    destruct (decide (b = 1)) as [->|]; [done|lia].
Qed.

(** ** Properties *)

(** Setting, clearing and testing one bit agree with the bits of the
    word: for every position, [SoftbusIsBitmapSet] reads true right after
    [SoftbusBitmapSet] and false right after [SoftbusBitmapClr], every other
    bit keeps its value, and positions from 32 on change nothing. *)
Theorem bitmap_set_clr_spec b pos i : 0 <= pos -> 0 <= i < 32 ->
  SoftbusIsBitmapSet (SoftbusBitmapSet (Some b) pos) i =
    (if (i =? pos) then true else SoftbusIsBitmapSet (Some b) i) /\
  SoftbusIsBitmapSet (SoftbusBitmapClr (Some b) pos) i =
    (if (i =? pos) then false else SoftbusIsBitmapSet (Some b) i).
Proof.
  intros. unfold SoftbusBitmapSet, SoftbusBitmapClr, UINT32_BITNUM.
  destruct (Z.leb_spec 32 pos); [by destruct (Z.eqb_spec i pos); [lia|]|].
  rewrite !IsBitmapSet_testbit, Z.lor_spec, Z.land_spec, testbit_not32, testbit_u32_bit by lia.
  destruct (Z.eqb_spec i pos), (Z.ltb_spec i 32); try lia;
    rewrite ?bool_decide_true, ?bool_decide_false by done; simpl;
    by rewrite ?orb_true_r, ?orb_false_r, ?andb_false_r, ?andb_true_r.
Qed.

Lemma bitmap_set_clr_spec_witness :
  SoftbusIsBitmapSet (SoftbusBitmapSet (Some 9) 4) 4 = true /\
  SoftbusIsBitmapSet (SoftbusBitmapClr (Some 9) 4) 4 = false.
Proof. apply (bitmap_set_clr_spec 9 4 4); lia. Defined.

(** For every non-zero 32-bit word the two scans terminate, and
    [SoftbusLowBitGet] is one more than the index of the lowest set bit,
    [SoftbusHighBitGet] one more than the index of the highest. *)
Theorem bit_scan_spec b : 0 < b < 2 ^ 32 ->
  exists lowest, SoftbusLowBitGet b = Some (lowest + 1) /\
    Z.testbit b lowest = true /\ (forall i, 0 <= i < lowest -> Z.testbit b i = false) /\
    SoftbusHighBitGet b = Some (Z.log2 b + 1).
Proof.
  intros Hb. unfold SoftbusLowBitGet, SoftbusHighBitGet.
  assert (2 ^ Z.of_nat 32 < 2 ^ Z.of_nat 33) by (apply Z.pow_lt_mono_r; lia).
  change (2 ^ 32) with (2 ^ Z.of_nat 32) in Hb.
  destruct (lowBitLoop_spec 33 b 0) as (k & Hk & -> & ? & ?); [lia..|].
  exists k. split; [done|]. split; [done|]. split; [done|].
  rewrite (highBitLoop_spec 32) by lia. destruct (Z.eqb_spec b 0); [lia|]. done.
Qed.

Lemma bit_scan_spec_witness :
  exists lowest, SoftbusLowBitGet 40 = Some (lowest + 1) /\
    Z.testbit 40 lowest = true /\ (forall i, 0 <= i < lowest -> Z.testbit 40 i = false) /\
    SoftbusHighBitGet 40 = Some 6.
Proof. apply (bit_scan_spec 40). lia. Defined.

(** What the range operations do for a valid 1-based range: ClrBits keeps
    exactly the bits of the range, and SetBits sets exactly the bits outside
    it; a range that starts at 0 reaches an undefined shift. *)
Theorem bitmap_range_spec b start nums : is_u 32 b ->
  1 <= start -> 1 <= nums -> start + nums <= 32 ->
  (exists b1 b2, SoftbusBitmapSetBits (Some b) start nums = Some (Some b1) /\
    SoftbusBitmapClrBits (Some b) start nums = Some (Some b2) /\
    forall i, 0 <= i < 32 ->
      let inside := (start - 1 <=? i) && (i <? start + nums - 1) in
      Z.testbit b1 i = Z.testbit b i || negb inside /\
      Z.testbit b2 i = Z.testbit b i && inside) /\
  SoftbusBitmapSetBits (Some b) 0 nums = None.
Proof.
  intros Hb Hs Hn Hsn. unfold SoftbusBitmapSetBits, SoftbusBitmapClrBits.
  assert (forall st, 0 <= st <= start -> rangeRejected st nums = false) as Hr
    by (intros; unfold rangeRejected, UINT32_BITNUM; split_cmp; done).
  rewrite !Hr by lia.
  destruct (rangeMask_bits start nums) as (m & -> & Hu & Hm); try lia.
  split.
  - do 2 eexists. split; [reflexivity|]. split; [reflexivity|]. intros i Hi.
    rewrite Z.lor_spec, Z.land_spec, testbit_complement32, Hm by (done || lia).
    by destruct (Z.ltb_spec i 32); [|lia].
  - unfold rangeMask, shl32. change (u32 (0 - 1)) with 4294967295.
    by destruct (u32 (0 + nums - 1) <? 32).
Qed.

Lemma bitmap_range_spec_witness :
  SoftbusBitmapSetBits (Some 0) 0 3 = None.
Proof. apply (bitmap_range_spec 0 5 3); range. Defined.

End Bitmap.
