(* ===== verification/Utils.v ===== *)
(** * Common utilities

    Models [core/common/utils/softbus_utils.c]: hexadecimal conversion,
    Bluetooth MAC conversion, case-insensitive comparison, masking of
    sensitive strings, the periodic timer table.

    A buffer is the list of its bytes ([char] values where the code compares
    characters); a C string is such a list that contains a 0.  [None] as an
    outer result is an access outside a buffer.  What the adapters answer
    (memory, random numbers, the timer) is an argument. *)

From S2P Require Import Prelude Errno.
Import Errno.

Module Utils.

Definition HEXIFY_UNIT_LEN : Z := 2.
Definition UN_HEXIFY_LEN (len : Z) : Z := len / HEXIFY_UNIT_LEN.
Definition HEXIFY_LEN (len : Z) : Z := u32 (u32 (len * HEXIFY_UNIT_LEN) + 1).
Definition HEX_MAX_NUM : Z := 16.
Definition DEC_MAX_NUM : Z := 10.
Definition HEX_MAX_BIT_NUM : Z := 4.

(** ** Hexadecimal conversion *)

(** The digit test both halves of the loop body of [ConvertHexStringToBytes]
    make on the [unsigned char] they read. *)
Definition unhex (c : Z) : option Z :=
  if (48 <=? c) && (c <=? 57) then Some (c - 48)
  else if (97 <=? c) && (c <=? 102) then Some (c - (97 - DEC_MAX_NUM))
  else if (65 <=? c) && (c <=? 70) then Some (c - (65 - DEC_MAX_NUM))
  else None.

(** Write one byte at index [i] of a buffer. *)
Definition put (buf : list Z) (i : nat) (v : Z) : option (list Z) :=
  if decide (i < length buf)%nat then Some (<[i := v]> buf) else None.

(** [n] rounds of the loop, from round [i]. *)
Fixpoint hexToBytesLoop (n i : nat) (out inb : list Z) : option (Z * list Z) :=
  match n with
  | O => Some (SOFTBUS_OK, out)
  | S n' =>
    c ← inb !! (2 * i)%nat;
    match unhex (u8 c) with
    | None => Some (SOFTBUS_ERR, out)
    | Some h =>
      c2 ← inb !! (2 * i + 1)%nat;
      match unhex (u8 c2) with
      | None => Some (SOFTBUS_ERR, out)
      | Some l =>
        out' ← put out i (u8 (Z.lor (Z.shiftl h HEX_MAX_BIT_NUM) l));
        hexToBytesLoop n' (S i) out' inb
      end
    end
  end.

Definition ConvertHexStringToBytes (outBuf : option (list Z)) (outBufLen : Z)
    (inBuf : option (list Z)) (inLen : Z) : option (Z * option (list Z)) :=
  match outBuf, inBuf with
  | Some out, Some inb =>
    if negb (inLen mod HEXIFY_UNIT_LEN =? 0) then Some (SOFTBUS_ERR, outBuf)
    else '(r, out') ← hexToBytesLoop (Z.to_nat (UN_HEXIFY_LEN inLen)) 0 out inb;
         Some (r, Some out')
  | _, _ => Some (SOFTBUS_ERR, outBuf)
  end.

Definition hexDigit (h : Z) : Z :=
  if h <? DEC_MAX_NUM then 48 + h else 97 + h - DEC_MAX_NUM.

Fixpoint bytesToHexLoop (n i : nat) (out inb : list Z) : option (list Z) :=
  match n with
  | O => Some out
  | S n' =>
    b ← inb !! i;
    out1 ← put out (2 * i)%nat (hexDigit (b / HEX_MAX_NUM));
    out2 ← put out1 (2 * i + 1)%nat (hexDigit (b mod HEX_MAX_NUM));
    bytesToHexLoop n' (S i) out2 inb
  end.

Definition ConvertBytesToHexString (outBuf : option (list Z)) (outBufLen : Z)
    (inBuf : option (list Z)) (inLen : Z) : option (Z * option (list Z)) :=
  match outBuf, inBuf with
  | Some out, Some inb =>
    if outBufLen <? HEXIFY_LEN inLen then Some (SOFTBUS_ERR, outBuf)
    else out' ← bytesToHexLoop (Z.to_nat inLen) 0 out inb; Some (SOFTBUS_OK, Some out')
  | _, _ => Some (SOFTBUS_ERR, outBuf)
  end.

(** [malloc]: whether [SoftBusMalloc] returns memory; [random n]: the bytes
    [SoftBusGenerateRandomArray] fills the buffer with, [None] on failure. *)
Definition GenerateRandomStr (malloc : bool) (random : Z -> option (list Z))
    (str : option (list Z)) (len : Z) : option (Z * option (list Z)) :=
  if bool_decide (str = None) || (len <? HEXIFY_UNIT_LEN) then Some (SOFTBUS_INVALID_PARAM, str)
  else
    let hexLen := len / HEXIFY_UNIT_LEN in
    if negb malloc then Some (SOFTBUS_MEM_ERR, str)
    else match random hexLen with
    | None => Some (SOFTBUS_ERR, str)
    | Some hexAuthId =>
      '(r, str') ← ConvertBytesToHexString str len (Some hexAuthId) hexLen;
      if negb (r =? SOFTBUS_OK) then Some (SOFTBUS_ERR, str') else Some (SOFTBUS_OK, str')
    end.

(** ** C strings *)

(** [strlen]: the index of the first 0; [None] when there is none. *)
Fixpoint strlen (s : list Z) : option Z :=
  match s with
  | [] => None
  | c :: s' => if c =? 0 then Some 0 else n ← strlen s'; Some (n + 1)
  end.

Definition IsValidString (input : option (list Z)) (maxLen : Z) : option bool :=
  match input with
  | None => Some false
  | Some s => len ← strlen s; Some (negb (maxLen <=? u32 len))
  end.

(** [toupper] of the C locale. *)
Definition toupper (c : Z) : Z := if (97 <=? c) && (c <=? 122) then c - 32 else c.

(** The do-while loop: [i] is the counter before the decrement. *)
Fixpoint strnicmpLoop (s1 s2 : list Z) (i : Z) : option Z :=
  match s1, s2 with
  | c1 :: s1', c2 :: s2' =>
    let ca := toupper c1 in
    let cb := toupper c2 in
    let i' := u32 (i - 1) in
    if (ca =? cb) && (0 <? i') then strnicmpLoop s1' s2' i' else Some (ca - cb)
  | _, _ => None
  end.

Definition Strnicmp (src1 src2 : option (list Z)) (len : Z) : option Z :=
  match src1, src2 with
  | Some s1, Some s2 =>
    n1 ← strlen s1;
    if n1 + 1 <? len then Some SOFTBUS_ERR
    else (n2 ← strlen s2;
          if n2 + 1 <? len then Some SOFTBUS_ERR else strnicmpLoop s1 s2 len)
  | _, _ => Some SOFTBUS_ERR
  end.

(** The characters before the terminating 0. *)
Fixpoint cstr (s : list Z) : option (list Z) :=
  match s with
  | [] => None
  | c :: s' => if c =? 0 then Some [] else t ← cstr s'; Some (c :: t)
  end.

(** ** Bluetooth MAC addresses *)

Definition BT_MAC_LEN : Z := 18.
Definition BT_ADDR_LEN : Z := 6.
Definition BT_ADDR_DELIMITER : Z := 58.

Fixpoint dropDelim (d : Z) (s : list Z) : list Z :=
  match s with
  | c :: s' => if c =? d then dropDelim d s' else s
  | [] => []
  end.

Fixpoint spanDelim (d : Z) (s : list Z) : list Z * list Z :=
  match s with
  | [] => ([], [])
  | c :: s' => if c =? d then ([], s') else let '(t, r) := spanDelim d s' in (c :: t, r)
  end.

(** [strtok_r] with a one-character delimiter set: the next token and the
    text left in [nextTokenPtr]. *)
Definition strtok_r (d : Z) (s : list Z) : option (list Z) * list Z :=
  match dropDelim d s with
  | [] => (None, [])
  | s' => let '(t, r) := spanDelim d s' in (Some t, r)
  end.

Definition isspace (c : Z) : bool := (c =? 32) || ((9 <=? c) && (c <=? 13)).

Fixpoint dropSpace (s : list Z) : list Z :=
  match s with
  | c :: s' => if isspace c then dropSpace s' else s
  | [] => []
  end.

Definition ULONG_MAX : Z := 2 ^ 64 - 1.

(** The digits of a base-16 number, saturating as [strtoul] does. *)
Fixpoint hexValue (acc : Z) (s : list Z) : Z :=
  match s with
  | c :: s' =>
    match unhex c with
    | Some d => hexValue (Z.min ULONG_MAX (acc * 16 + d)) s'
    | None => acc
    end
  | [] => acc
  end.

Definition hexPrefix (s : list Z) : list Z :=
  match s with
  | 48 :: x :: c :: s' =>
    if ((x =? 120) || (x =? 88)) && bool_decide (is_Some (unhex c)) then c :: s' else s
  | _ => s
  end.

(** [strtoul(token, &endptr, 16)] *)
Definition strtoul16 (token : list Z) : Z :=
  match dropSpace token with
  | 45 :: s => u64 (- hexValue 0 (hexPrefix s))
  | 43 :: s => hexValue 0 (hexPrefix s)
  | s => hexValue 0 (hexPrefix s)
  end.

(** [n] rounds of the loop from index [i], with the current token. *)
Fixpoint macLoop (n i : nat) (token : option (list Z)) (rest : list Z) (bin : list Z)
  : option (Z * list Z) :=
  match n with
  | O => Some (SOFTBUS_OK, bin)
  | S n' =>
    match token with
    | None => Some (SOFTBUS_ERR, bin)
    | Some t =>
      bin' ← put bin i (u8 (strtoul16 t));
      let '(token', rest') := strtok_r BT_ADDR_DELIMITER rest in
      macLoop n' (S i) token' rest' bin'
    end
  end.

Definition ConvertBtMacToBinary (malloc : bool) (strMac : option (list Z)) (strMacLen : Z)
    (binMac : option (list Z)) (binMacLen : Z) : option (Z * option (list Z)) :=
  match strMac, binMac with
  | Some str, Some bin =>
    if (strMacLen <? BT_MAC_LEN) || (binMacLen <? BT_ADDR_LEN) then
      Some (SOFTBUS_INVALID_PARAM, binMac)
    else if negb malloc then Some (SOFTBUS_MALLOC_ERR, binMac)
    else if Z.of_nat (length str) <? strMacLen then None
    else (
      tmpMac ← cstr (take (Z.to_nat strMacLen) str);
      let '(token, rest) := strtok_r BT_ADDR_DELIMITER tmpMac in
      '(r, bin') ← macLoop (Z.to_nat BT_ADDR_LEN) 0 token rest bin;
      Some (r, Some bin'))
  | _, _ => Some (SOFTBUS_INVALID_PARAM, binMac)
  end.

(** ["%02x"] of a byte *)
Definition hex02 (b : Z) : list Z := [hexDigit (b / 16); hexDigit (b mod 16)].

Fixpoint joinColon (l : list (list Z)) : list Z :=
  match l with
  | [] => []
  | [x] => x
  | x :: l' => x ++ BT_ADDR_DELIMITER :: joinColon l'
  end.

(** [snprintf_s] of the six bytes writes 17 characters and the 0, and fails
    when the limit [strMacLen - 1] is smaller. *)
Definition ConvertBtMacToStr (strMac : option (list Z)) (strMacLen : Z)
    (binMac : option (list Z)) (binMacLen : Z) : option (Z * option (list Z)) :=
  match strMac, binMac with
  | Some str, Some bin =>
    if (strMacLen <? BT_MAC_LEN) || (binMacLen <? BT_ADDR_LEN) then
      Some (SOFTBUS_INVALID_PARAM, strMac)
    else if (length bin <? 6)%nat || (length str <? 18)%nat then None
    else
      let text := joinColon (hex02 <$> take 6 bin) in
      if strMacLen - 1 <? Z.of_nat (length text) then Some (SOFTBUS_ERR, strMac)
      else Some (SOFTBUS_OK, Some (text ++ 0 :: drop 18 str))
  | _, _ => Some (SOFTBUS_INVALID_PARAM, strMac)
  end.

(** ** Signaling switch *)

Definition BUF_BYTE_LEN : Z := 64.
Definition BUF_HEX_LEN : Z := 128.
Definition OFFSET : Z := 1.

Definition SetSignalingMsgSwitchOn (g_signalingMsgSwitch : bool) : bool := true.
Definition SetSignalingMsgSwitchOff (g_signalingMsgSwitch : bool) : bool := false.
Definition GetSignalingMsgSwitch (g_signalingMsgSwitch : bool) : bool := g_signalingMsgSwitch.

(** The buffer handed to the log as a ["%s"] argument; [Some None] when
    nothing is printed. *)
Definition SignalingMsgPrint (g_signalingMsgSwitch : bool) (data : list Z) (dataLen : Z)
  : option (option (list Z)) :=
  if negb (GetSignalingMsgSwitch g_signalingMsgSwitch) then Some None
  else (
    let signalingMsgBuf := replicate (Z.to_nat BUF_HEX_LEN) 0 in
    '(ret, buf) ←
      (if BUF_BYTE_LEN <=? dataLen then
         ConvertBytesToHexString (Some signalingMsgBuf) (BUF_HEX_LEN + OFFSET) (Some data) BUF_BYTE_LEN
       else
         ConvertBytesToHexString (Some signalingMsgBuf) (BUF_HEX_LEN + OFFSET) (Some data) dataLen);
    if negb (ret =? SOFTBUS_OK) then Some None else Some buf).

(** ** Masking *)

Definition STAR : Z := 42.
Definition MAC_DELIMITER : Z := 58.
Definition IP_DELIMITER : Z := 46.
Definition ID_DELIMITER : Z := 32.
Definition MAC_DELIMITER_SECOND : Z := 2.
Definition MAC_DELIMITER_FOURTH : Z := 4.
Definition IP_DELIMITER_FIRST : Z := 1.
Definition IP_DELIMITER_THIRD : Z := 3.

(** The loop [MacInstead] and [IpInstead] share: [first] and [last] are the
    delimiter counts at which masking starts and the loop breaks. *)
Fixpoint insteadLoop (first last : Z) (n : nat) (delimiterCnt : Z) (data : list Z) (delimiter : Z)
  : option (list Z) :=
  match n with
  | O => Some data
  | S n' =>
    if delimiterCnt =? last then Some data
    else match data with
    | [] => None
    | c :: data' =>
      let delimiterCnt' := if c =? delimiter then delimiterCnt + 1 else delimiterCnt in
      let c' := if (first <=? delimiterCnt') && negb (c =? delimiter) then STAR else c in
      rest ← insteadLoop first last n' delimiterCnt' data' delimiter;
      Some (c' :: rest)
    end
  end.

Definition MacInstead (data : list Z) (length : Z) (delimiter : Z) : option (list Z) :=
  insteadLoop MAC_DELIMITER_SECOND MAC_DELIMITER_FOURTH (Z.to_nat length) 0 data delimiter.

Definition IpInstead (data : list Z) (length : Z) (delimiter : Z) : option (list Z) :=
  insteadLoop IP_DELIMITER_FIRST IP_DELIMITER_THIRD (Z.to_nat length) 0 data delimiter.

Fixpoint idLoop (halfLen : Z) (n : nat) (i : Z) (data : list Z) : option (list Z) :=
  match n with
  | O => Some data
  | S n' =>
    match data with
    | [] => None
    | c :: data' =>
      let c' := if halfLen <? i then STAR else c in
      rest ← idLoop halfLen n' (i + 1) data';
      Some (c' :: rest)
    end
  end.

Definition IdInstead (data : list Z) (length : Z) : option (list Z) :=
  idLoop (length / 2) (Z.to_nat length) 0 data.

(** [data] holds at least [length] characters, which the copy reads; the
    result is the new string of [length + 1] bytes, [Some None] when memory
    runs out. *)
Definition DataMasking (malloc : bool) (data : list Z) (length : Z) (delimiter : Z)
  : option (option (list Z)) :=
  if negb malloc then Some None
  else if Z.of_nat (List.length data) <? length then None
  else
    let dataStr := take (Z.to_nat length) data ++ [0] in
    if delimiter =? MAC_DELIMITER then r ← MacInstead dataStr length delimiter; Some (Some r)
    else if delimiter =? IP_DELIMITER then r ← IpInstead dataStr length delimiter; Some (Some r)
    else if delimiter =? ID_DELIMITER then r ← IdInstead dataStr length; Some (Some r)
    else Some (Some dataStr).

(** ** Lists under a lock *)

Record SoftBusList (A : Type) := MkSoftBusList { cnt : Z; list : list A }.
#[global] Arguments MkSoftBusList {A}.
#[global] Arguments cnt {A}.
#[global] Arguments list {A}.

Definition CreateSoftBusList {A} (malloc mutexInit : bool) : option (SoftBusList A) :=
  if negb malloc then None
  else if negb mutexInit then None
  else Some (MkSoftBusList 0 []).

(** ** The periodic timer *)

Definition SOFTBUS_CONN_TIMER_FUN : Z := 0.
Definition SOFTBUS_MAX_TIMER_FUN_NUM : Z := 9.

Section timer.
Context {callback : Type}.

Record Timer := MkTimer { g_timerId : option Z; g_timerFunList : Datatypes.list (option callback) }.

Definition timer0 : Timer :=
  MkTimer None (replicate (Z.to_nat SOFTBUS_MAX_TIMER_FUN_NUM) None).

Definition RegisterTimeoutCallback (t : Timer) (timerFunId : Z) (cb : option callback)
  : option (Z * Timer) :=
  match cb with
  | None => Some (SOFTBUS_ERR, t)
  | Some _ =>
    if (SOFTBUS_MAX_TIMER_FUN_NUM <=? timerFunId) || (timerFunId <? SOFTBUS_CONN_TIMER_FUN) then
      Some (SOFTBUS_ERR, t)
    else
      slot ← g_timerFunList t !! Z.to_nat timerFunId;
      if bool_decide (slot <> None) then Some (SOFTBUS_OK, t)
      else Some (SOFTBUS_OK, MkTimer (g_timerId t) (<[Z.to_nat timerFunId := cb]> (g_timerFunList t)))
  end.

(** The callbacks one tick runs, in order. *)
Definition HandleTimeoutFun (t : Timer) : Datatypes.list callback :=
  omap id (g_timerFunList t).

(** [createTimer]: what [SoftBusCreateTimer] returns; [startTimer]: whether
    [SoftBusStartTimer] returns [SOFTBUS_OK]. *)
Definition SoftBusTimerInit (createTimer : option Z) (startTimer : option Z -> bool) (t : Timer)
  : Z * Timer :=
  match g_timerId t with
  | Some _ => (SOFTBUS_OK, t)
  | None =>
    if startTimer createTimer then (SOFTBUS_OK, MkTimer createTimer (g_timerFunList t))
    else (SOFTBUS_ERR, MkTimer None (g_timerFunList t))
  end.

Definition SoftBusTimerDeInit (t : Timer) : Timer :=
  match g_timerId t with
  | Some _ => MkTimer None (g_timerFunList t)
  | None => t
  end.
End timer.
#[global] Arguments Timer : clear implicits.

(** ** Hexadecimal lemmas *)

Lemma put_app pre x post v : put (pre ++ x :: post) (length pre) v = Some (pre ++ v :: post).
Proof.
  unfold put. rewrite decide_True by (rewrite length_app; simpl; lia).
  f_equal. rewrite insert_app_r_alt by lia. by rewrite Nat.sub_diag.
Qed.

Lemma hexDigit_unhex h : 0 <= h < 16 -> unhex (u8 (hexDigit h)) = Some h.
Proof.
  intros. assert (from_option (Z.eqb (h mod 16)) false (unhex (u8 (hexDigit (h mod 16)))) = true) as Hd.
  { apply (all_bytes (fun h => from_option (Z.eqb (h mod 16)) false (unhex (u8 (hexDigit (h mod 16))))));
      [vm_compute; done|range]. }
  rewrite Z.mod_small in Hd by lia. destruct (unhex _); simpl in Hd; [|done].
  apply Z.eqb_eq in Hd. by subst.
Qed.

Lemma byte_join b : is_u 8 b ->
  u8 (Z.lor (Z.shiftl (b / HEX_MAX_NUM) HEX_MAX_BIT_NUM) (b mod HEX_MAX_NUM)) = b.
Proof.
  intros Hb. apply Z.eqb_eq. revert b Hb.
  apply (all_bytes (fun b => u8 (Z.lor (Z.shiftl (b / HEX_MAX_NUM) HEX_MAX_BIT_NUM) (b mod HEX_MAX_NUM)) =? b)).
  vm_compute. done.
Qed.

Lemma byte_digits b : is_u 8 b -> 0 <= b / 16 < 16 /\ 0 <= b mod 16 < 16.
Proof. intros. cint. Qed.

(** The text of a byte sequence. *)
Definition hexText (bs : Datatypes.list Z) : Datatypes.list Z := mjoin (hex02 <$> bs).

Lemma length_hexText bs : length (hexText bs) = (2 * length bs)%nat.
Proof.
  induction bs as [|b bs IH]; [done|]. change (hexText (b :: bs)) with (hex02 b ++ hexText bs).
  rewrite length_app, IH. simpl. lia.
Qed.

Lemma bytesToHexLoop_text bs : forall pre mid post ipre ipost,
  length pre = (2 * length ipre)%nat -> length mid = (2 * length bs)%nat ->
  bytesToHexLoop (length bs) (length ipre) (pre ++ mid ++ post) (ipre ++ bs ++ ipost) =
    Some (pre ++ hexText bs ++ post).
Proof.
  induction bs as [|b bs IH]; intros pre mid post ipre ipost Hpre Hmid.
  { apply length_zero_iff_nil in Hmid. by subst. }
  destruct mid as [|x [|y mid]]; [simpl in *; lia..|].
  cbn [length bytesToHexLoop]. rewrite lookup_app_r, Nat.sub_diag by lia.
  cbn [app lookup list_lookup mbind option_bind]. rewrite <- Hpre, put_app. cbn [mbind option_bind].
  replace (length pre + 1)%nat with (length (pre ++ [hexDigit (b / HEX_MAX_NUM)]))
    by (rewrite length_app; simpl; lia).
  rewrite (cons_middle (hexDigit (b / HEX_MAX_NUM))), app_assoc, put_app. cbn [mbind option_bind].
  specialize (IH (pre ++ [hexDigit (b / HEX_MAX_NUM); hexDigit (b mod HEX_MAX_NUM)]) mid post
    (ipre ++ [b]) ipost).
  rewrite !length_app in IH. cbn [length] in IH. rewrite Nat.add_1_r in IH.
  rewrite <- !app_assoc in *. cbn [app] in *. rewrite IH; [done|simpl in *; lia..].
Qed.

Lemma hexToBytesLoop_text bs : forall pre mid post ipre ipost,
  Forall (is_u 8) bs ->
  length ipre = (2 * length pre)%nat -> length mid = length bs ->
  hexToBytesLoop (length bs) (length pre) (pre ++ mid ++ post) (ipre ++ hexText bs ++ ipost) =
    Some (SOFTBUS_OK, pre ++ bs ++ post).
Proof.
  induction bs as [|b bs IH]; intros pre mid post ipre ipost Hbs Hpre Hmid.
  { apply length_zero_iff_nil in Hmid. by subst. }
  destruct mid as [|x mid]; [simpl in *; lia|]. apply Forall_cons in Hbs as [Hb Hbs].
  destruct (byte_digits b Hb) as [Hh Hl]. cbn [length hexToBytesLoop hexText fmap list_fmap mjoin list_join app hex02].
  rewrite <- Hpre, !lookup_app_r by lia. rewrite Nat.sub_diag.
  replace (length ipre + 1 - length ipre)%nat with 1%nat by lia.
  cbn [app lookup list_lookup mbind option_bind].
  rewrite !hexDigit_unhex by done. cbn [mbind option_bind].
  rewrite put_app. cbn [mbind option_bind]. rewrite byte_join by done.
  specialize (IH (pre ++ [b]) mid post (ipre ++ hex02 b) ipost Hbs).
  rewrite !length_app in IH. cbn [length hex02] in IH. rewrite Nat.add_1_r in IH.
  rewrite <- !app_assoc in *. cbn [app] in *. apply IH; simpl in *; lia.
Qed.

(** ** MAC lemmas *)

Definition plain (c : Z) : bool := negb (c =? 0) && negb (c =? BT_ADDR_DELIMITER) && negb (isspace c).

Lemma hexDigit_plain h : 0 <= h < 16 -> plain (hexDigit h) = true.
Proof.
  intros. unfold plain, isspace, hexDigit, DEC_MAX_NUM, BT_ADDR_DELIMITER.
  destruct (Z.ltb_spec h 10); split_cmp; done.
Qed.

(** A text of digits holds no terminator. *)
Lemma hexText_unterminated bs : Forall (is_u 8) bs -> strlen (hexText bs) = None.
Proof.
  induction 1 as [|b bs Hb Hbs IH]; [done|].
  change (hexText (b :: bs)) with (hex02 b ++ hexText bs).
  apply byte_digits in Hb as [Hh Hl]. apply hexDigit_plain in Hh, Hl. unfold plain in *.
  cbn [hex02 app strlen]. destruct (hexDigit (b / 16) =? 0), (hexDigit (b mod 16) =? 0); try done.
  by rewrite IH.
Qed.

Lemma strtoul16_hex02 b : is_u 8 b -> u8 (strtoul16 (hex02 b)) = b.
Proof.
  intros Hb. apply Z.eqb_eq. revert b Hb.
  apply (all_bytes (fun b => u8 (strtoul16 (hex02 b)) =? b)). vm_compute. done.
Qed.

Lemma strtok_hex02 b rest : is_u 8 b ->
  strtok_r BT_ADDR_DELIMITER (hex02 b ++ BT_ADDR_DELIMITER :: rest) = (Some (hex02 b), rest) /\
  strtok_r BT_ADDR_DELIMITER (hex02 b) = (Some (hex02 b), []).
Proof.
  intros [Hh Hl]%byte_digits. apply hexDigit_plain in Hh, Hl. unfold hex02, strtok_r, plain in *.
  cbn [app dropDelim].
  destruct (Z.eqb_spec (hexDigit (b / 16)) BT_ADDR_DELIMITER) as [E|E];
    [rewrite E in Hh; done|].
  cbn [spanDelim]. destruct (Z.eqb_spec (hexDigit (b / 16)) BT_ADDR_DELIMITER); [done|].
  destruct (Z.eqb_spec (hexDigit (b mod 16)) BT_ADDR_DELIMITER) as [E'|E'];
    [rewrite E' in Hl; done|]. done.
Qed.

Lemma cstr_app t s : Forall (fun c => c <> 0) t -> cstr (t ++ 0 :: s) = Some t.
Proof.
  induction 1 as [|c t Hc Ht IH]; simpl; [done|]. rewrite IH.
  by destruct (Z.eqb_spec c 0).
Qed.

Lemma macText_nonzero bs : Forall (is_u 8) bs -> Forall (fun c => c <> 0) (joinColon (hex02 <$> bs)).
Proof.
  assert (forall b, is_u 8 b -> Forall (fun c => c <> 0) (hex02 b)) as Hb.
  { intros b [Hh Hl]%byte_digits. apply hexDigit_plain in Hh, Hl.
    repeat constructor; unfold plain in *; intros E; rewrite E in *; done. }
  induction 1 as [|b bs H0 Hbs IH]; [constructor|].
  destruct bs as [|b' bs]; [by apply Hb|]. cbn [fmap list_fmap joinColon] in *.
  apply Forall_app. split; [by apply Hb|]. constructor; [done|]. apply IH.
Qed.

(** One round of the loop per byte of the text. *)
Lemma macLoop_text bs : forall pre mid post,
  Forall (is_u 8) bs -> bs <> [] -> length mid = length bs ->
  (let '(token, rest) := strtok_r BT_ADDR_DELIMITER (joinColon (hex02 <$> bs)) in
   macLoop (length bs) (length pre) token rest (pre ++ mid ++ post)) =
  Some (SOFTBUS_OK, pre ++ bs ++ post).
Proof.
  induction bs as [|b bs IH]; intros pre mid post Hbs Hne Hmid; [done|].
  apply Forall_cons in Hbs as [Hb Hbs]. destruct mid as [|x mid]; [done|]. simpl in Hmid.
  destruct bs as [|b' bs].
  - cbn [fmap list_fmap joinColon]. rewrite (proj2 (strtok_hex02 b [] Hb)).
    cbn [length macLoop app]. rewrite put_app. cbn [mbind option_bind].
    rewrite strtoul16_hex02 by done. destruct mid; [|done]. done.
  - cbn [fmap list_fmap joinColon]. rewrite (proj1 (strtok_hex02 b _ Hb)).
    cbn [length macLoop app]. rewrite put_app. cbn [mbind option_bind].
    rewrite strtoul16_hex02 by done.
    specialize (IH (pre ++ [b]) mid post Hbs). rewrite length_app, Nat.add_1_r in IH.
    rewrite <- !app_assoc in IH. cbn [app length fmap list_fmap] in IH.
    apply IH; [done|]. simpl in Hmid. lia.
Qed.

Lemma length_macText bs : length bs = 6%nat -> length (joinColon (hex02 <$> bs)) = 17%nat.
Proof. intros. destruct bs as [|? [|? [|? [|? [|? [|? [|]]]]]]]; done. Qed.

(** ** Masking lemmas *)

(** How many delimiters precede position [k]. *)
Definition delimsBefore (d : Z) (data : Datatypes.list Z) (k : nat) : Z :=
  Z.of_nat (length (filter (fun c => c = d) (take k data))).

Lemma delimsBefore_S d c data k :
  delimsBefore d (c :: data) (S k) = (if c =? d then 1 else 0) + delimsBefore d data k.
Proof.
  unfold delimsBefore. cbn [take]. rewrite filter_cons.
  destruct (Z.eqb_spec c d); [rewrite decide_True by done|rewrite decide_False by done]; simpl; lia.
Qed.

Lemma insteadLoop_spec first last d n : forall cnt data,
  (n <= length data)%nat -> cnt <= last ->
  exists r, insteadLoop first last n cnt data d = Some r /\ length r = length data /\
    forall k c, data !! k = Some c ->
      r !! k = Some (if decide ((k < n)%nat /\ c <> d /\
                       first <= cnt + delimsBefore d data k < last) then STAR else c).
Proof.
  induction n as [|n IH]; intros cnt data Hn Hc.
  { exists data. split_and!; [done|done|]. intros k c Hk. by rewrite decide_False by lia. }
  cbn [insteadLoop]. destruct (Z.eqb_spec cnt last) as [->|].
  { exists data. split_and!; [done|done|]. intros k c Hk.
    rewrite decide_False; [done|]. intros (_ & _ & _ & H). unfold delimsBefore in H. lia. }
  destruct data as [|c data]; [simpl in Hn; lia|].
  destruct (IH (if c =? d then cnt + 1 else cnt) data) as (r & -> & Hl & Hr);
    [simpl in Hn; lia|destruct (c =? d); lia|].
  cbn [mbind option_bind]. eexists. split; [done|]. split; [simpl; lia|].
  intros [|k] c' Hk; [simpl in *|change (data !! k = Some c') in Hk;
    match goal with |- context [(?x :: r) !! S k] => change ((x :: r) !! S k) with (r !! k) end].
  - simplify_eq. f_equal. unfold delimsBefore. cbn [take filter list_filter length].
    destruct (Z.eqb_spec c' d); cbn [negb andb]; rewrite ?andb_false_r.
    + by rewrite decide_False by naive_solver.
    + rewrite andb_true_r. destruct (Z.leb_spec first cnt);
        [rewrite decide_True by lia|rewrite decide_False by lia]; done.
  - rewrite (Hr k c' Hk), delimsBefore_S. f_equal. apply decide_ext.
    destruct (Z.eqb_spec c d); split; intros (? & ? & ?); split_and!; try done; lia.
Qed.

Lemma idLoop_spec halfLen n : forall i data,
  (n <= length data)%nat ->
  exists r, idLoop halfLen n i data = Some r /\ length r = length data /\
    forall k c, data !! k = Some c ->
      r !! k = Some (if decide ((k < n)%nat /\ halfLen < i + Z.of_nat k) then STAR else c).
Proof.
  induction n as [|n IH]; intros i data Hn.
  { exists data. split_and!; [done|done|]. intros k c Hk. by rewrite decide_False by lia. }
  destruct data as [|c data]; [simpl in Hn; lia|]. cbn [idLoop].
  destruct (IH (i + 1) data) as (r & -> & Hl & Hr); [simpl in Hn; lia|].
  cbn [mbind option_bind]. eexists. split; [done|]. split; [simpl; lia|].
  intros [|k] c' Hk; [simpl in *|change (data !! k = Some c') in Hk;
    match goal with |- context [(?x :: r) !! S k] => change ((x :: r) !! S k) with (r !! k) end].
  - simplify_eq. f_equal. destruct (Z.ltb_spec halfLen i);
      [rewrite decide_True by lia|rewrite decide_False by lia]; done.
  - rewrite (Hr k c' Hk). f_equal. apply decide_ext. lia.
Qed.

(** ** Comparison lemma *)

Lemma strnicmpLoop_spec : forall s1 s2 i,
  0 < i < 2 ^ 32 -> (Z.to_nat i <= length s1)%nat -> (Z.to_nat i <= length s2)%nat ->
  exists r, strnicmpLoop s1 s2 i = Some r /\
    (r = 0 <-> toupper <$> take (Z.to_nat i) s1 = toupper <$> take (Z.to_nat i) s2).
Proof.
  induction s1 as [|c1 s1 IH]; intros [|c2 s2] i Hi H1 H2; try (simpl in *; lia).
  cbn [strnicmpLoop]. rewrite wrapU_id by range.
  replace (Z.to_nat i) with (S (Z.to_nat (i - 1))) in * by lia. cbn [take fmap list_fmap length] in *.
  destruct (Z.eqb_spec (toupper c1) (toupper c2)) as [E|E]; cbn [andb].
  - destruct (Z.ltb_spec 0 (i - 1)).
    + destruct (IH s2 (i - 1)) as (r & -> & Hr); try lia.
      exists r. split; [done|]. rewrite Hr, E. split; [by intros ->|by intros [= ->]].
    + eexists. split; [done|]. replace (Z.to_nat (i - 1)) with O by lia.
      rewrite E. split; [done|lia].
  - eexists. split; [done|]. split; [lia|]. intros [= ? ?]. lia.
Qed.

Lemma strlen_length s n : strlen s = Some n -> 0 <= n /\ (Z.to_nat (n + 1) <= length s)%nat.
Proof.
  revert n. induction s as [|c s IH]; intros n; simpl; [done|].
  destruct (c =? 0); [intros; simplify_eq; lia|].
  destruct (strlen s) as [k|]; [|done]. simpl. intros; simplify_eq.
  destruct (IH k eq_refl). lia.
Qed.

(** ** Timer lemmas *)

Section timer_facts.
Context {callback : Type}.

(** Registrations in order, ignoring the return codes as the callers do. *)
Fixpoint registerAll (t : Timer callback) (regs : Datatypes.list (Z * callback))
  : option (Timer callback) :=
  match regs with
  | [] => Some t
  | (i, cb) :: regs' =>
    '(_, t') ← RegisterTimeoutCallback t i (Some cb);
    registerAll t' regs'
  end.

(** The first registration for an id. *)
Fixpoint firstFor (i : Z) (regs : Datatypes.list (Z * callback)) : option callback :=
  match regs with
  | [] => None
  | (j, cb) :: regs' => if j =? i then Some cb else firstFor i regs'
  end.

Lemma registerAll_table regs : forall t,
  length (g_timerFunList t) = 9%nat ->
  exists t', registerAll t regs = Some t' /\ length (g_timerFunList t') = 9%nat /\
    forall i o, (i < 9)%nat -> g_timerFunList t !! i = Some o ->
      g_timerFunList t' !! i = Some (match o with Some cb => Some cb
                                     | None => firstFor (Z.of_nat i) regs end).
Proof.
  induction regs as [|[j cb] regs IH]; intros t Ht.
  { exists t. split_and!; [done|done|]. intros i o _ ->. by destruct o. }
  cbn [registerAll RegisterTimeoutCallback firstFor]. unfold SOFTBUS_MAX_TIMER_FUN_NUM, SOFTBUS_CONN_TIMER_FUN.
  destruct (Z.leb_spec 9 j), (Z.ltb_spec j 0); try lia; cbn [orb].
  1, 2: cbn [mbind option_bind]; destruct (IH t Ht) as (t' & -> & Hl & Hr);
    exists t'; split_and!; [done|done|]; intros i o Hi Ho; rewrite (Hr i o Hi Ho);
    by destruct (Z.eqb_spec j (Z.of_nat i)); [lia|].
  destruct (lookup_lt_is_Some_2 (g_timerFunList t) (Z.to_nat j)) as [slot Hs]; [lia|].
  rewrite Hs. cbn [mbind option_bind]. case_bool_decide as Hslot; cbn [mbind option_bind].
  - destruct (IH t Ht) as (t' & -> & Hl & Hr). exists t'. split_and!; [done|done|].
    intros i o Hi Ho. rewrite (Hr i o Hi Ho). destruct o; [done|].
    destruct (Z.eqb_spec j (Z.of_nat i)) as [->|]; [|done].
    rewrite Nat2Z.id in Hs. naive_solver.
  - destruct slot; [naive_solver|].
    destruct (IH (MkTimer (g_timerId t) (<[Z.to_nat j:=Some cb]> (g_timerFunList t)))) as (t' & -> & Hl & Hr);
      [simpl; by rewrite length_insert|].
    exists t'. split_and!; [done|done|]. intros i o Hi Ho. cbn [g_timerFunList] in Hr.
    destruct (Z.eqb_spec j (Z.of_nat i)) as [->|Hne].
    + rewrite Nat2Z.id in *. simplify_eq.
      by rewrite (Hr i (Some cb)) by (rewrite ?list_lookup_insert_eq by lia; done).
    + rewrite (Hr i o); [done|done|]. rewrite list_lookup_insert_ne by lia. done.
Qed.
End timer_facts.

(** ** Properties *)

(** Hexadecimal round trip: for every byte sequence and every output
    buffers of sufficient size, ConvertBytesToHexString succeeds, and
    ConvertHexStringToBytes of the text it wrote restores the bytes; both
    leave the rest of their buffer unchanged. *)
Theorem hex_roundtrip bs out out2 outLen outLen2 :
  Forall (is_u 8) bs -> Z.of_nat (length bs) < 2 ^ 31 ->
  2 * Z.of_nat (length bs) + 1 <= outLen -> outLen = Z.of_nat (length out) ->
  (length bs <= length out2)%nat ->
  ConvertBytesToHexString (Some out) outLen (Some bs) (Z.of_nat (length bs)) =
    Some (SOFTBUS_OK, Some (hexText bs ++ drop (2 * length bs) out)) /\
  ConvertHexStringToBytes (Some out2) outLen2
      (Some (hexText bs ++ drop (2 * length bs) out)) (2 * Z.of_nat (length bs)) =
    Some (SOFTBUS_OK, Some (bs ++ drop (length bs) out2)).
Proof.
  intros Hbs Hlen Hout -> Hout2. split.
  - unfold ConvertBytesToHexString, HEXIFY_LEN, HEXIFY_UNIT_LEN.
    rewrite (wrapU_id 32 (_ * 2)), wrapU_id by range.
    destruct (Z.ltb_spec (Z.of_nat (length out)) (Z.of_nat (length bs) * 2 + 1)); [lia|].
    rewrite Nat2Z.id.
    pose proof (bytesToHexLoop_text bs [] (take (2 * length bs) out) (drop (2 * length bs) out) [] []) as Hl.
    cbn [app length] in Hl. rewrite take_drop, app_nil_r in Hl.
    rewrite Hl; [done|done|]. rewrite length_take. lia.
  - unfold ConvertHexStringToBytes, UN_HEXIFY_LEN, HEXIFY_UNIT_LEN.
    rewrite (Z.mul_comm 2), Z.mod_mul, Z.div_mul, Nat2Z.id by lia. cbn [Z.eqb negb].
    pose proof (hexToBytesLoop_text bs [] (take (length bs) out2) (drop (length bs) out2) []
      (drop (2 * length bs) out) Hbs) as Hl.
    cbn [app length] in Hl. rewrite take_drop in Hl. rewrite Hl; [done|done|].
    rewrite length_take. lia.
Qed.

Lemma hex_roundtrip_witness :
  ConvertBytesToHexString (Some [0; 0; 0; 0; 0]) 5 (Some [202; 14]) 2 =
    Some (SOFTBUS_OK, Some [99; 97; 48; 101; 0]).
Proof.
  apply (hex_roundtrip [202; 14] [0; 0; 0; 0; 0] [0; 0] 5 2);
    [repeat constructor; range|simpl; lia|simpl; lia|done|simpl; lia].
Defined.

(** MAC round trip: for every six bytes, ConvertBtMacToStr writes a
    terminated text of 17 characters that ConvertBtMacToBinary, given enough
    memory, reads back to the same six bytes. *)
Theorem mac_roundtrip mac str bin :
  Forall (is_u 8) mac -> length mac = 6%nat -> length str = 18%nat -> length bin = 6%nat ->
  exists text, ConvertBtMacToStr (Some str) 18 (Some mac) 6 = Some (SOFTBUS_OK, Some text) /\
    strlen text = Some 17 /\
    ConvertBtMacToBinary true (Some text) 18 (Some bin) 6 = Some (SOFTBUS_OK, Some mac).
Proof.
  intros Hmac Hm Hs Hb. unfold ConvertBtMacToStr, ConvertBtMacToBinary, BT_MAC_LEN, BT_ADDR_LEN.
  pose proof (length_macText mac Hm) as Ht. pose proof (macText_nonzero mac Hmac) as Hnz.
  rewrite Hm, Hs, (take_ge mac) by lia. cbn [Nat.ltb Nat.leb orb Z.ltb Z.compare].
  rewrite Ht. cbn [Z.of_nat]. eexists. split; [done|].
  rewrite drop_ge by lia.
  assert (length (joinColon (hex02 <$> mac) ++ [0]) = 18%nat) as Hl by (rewrite length_app, Ht; done).
  split.
  - revert Ht Hnz. generalize (joinColon (hex02 <$> mac)). clear. intros t Ht Hnz.
    replace 17 with (Z.of_nat (length t)) by lia. clear Ht.
    induction Hnz as [|c t Hc _ IH]; [done|]. cbn [app strlen].
    destruct (Z.eqb_spec c 0); [done|]. rewrite IH. cbn [mbind option_bind length]. f_equal. lia.
  - cbn [negb]. rewrite Hl. cbn [Z.of_nat]. change (18 <? 18) with false. cbn iota.
    rewrite take_ge by (rewrite Hl; done). rewrite cstr_app by done. cbn [mbind option_bind].
    pose proof (macLoop_text mac [] bin [] Hmac) as Hloop.
    rewrite Hm in Hloop. cbn [app length] in Hloop. rewrite !app_nil_r in Hloop.
    destruct (strtok_r _ _) as [token rest]. change (Z.to_nat 6) with 6%nat. rewrite Hloop; [done|by destruct mac|done].
Qed.

Lemma mac_roundtrip_witness :
  exists text, ConvertBtMacToStr (Some (replicate 18 0)) 18 (Some [1; 2; 171; 205; 0; 255]) 6 =
      Some (SOFTBUS_OK, Some text) /\ strlen text = Some 17 /\
    ConvertBtMacToBinary true (Some text) 18 (Some (replicate 6 0)) 6 =
      Some (SOFTBUS_OK, Some [1; 2; 171; 205; 0; 255]).
Proof. apply mac_roundtrip; [repeat constructor; range|done..]. Defined.

(** Masking: for a string of [len] characters, DataMasking returns a
    terminated copy of the same length in which exactly the following
    characters are starred: for a MAC the non-delimiters with two or three
    delimiters before them, for an IP address those with one or two, for an
    identifier every character after the middle. *)
Theorem masking_spec data len d :
  len = Z.of_nat (length data) ->
  d = MAC_DELIMITER \/ d = IP_DELIMITER \/ d = ID_DELIMITER ->
  exists r, DataMasking true data len d = Some (Some r) /\ length r = S (length data) /\
    r !! length data = Some 0 /\
    forall k c, data !! k = Some c -> r !! k = Some (
      if d =? MAC_DELIMITER then
        if decide (c <> d /\ 2 <= delimsBefore d data k < 4) then STAR else c
      else if d =? IP_DELIMITER then
        if decide (c <> d /\ 1 <= delimsBefore d data k < 3) then STAR else c
      else if decide (len / 2 < Z.of_nat k) then STAR else c).
Proof.
  intros -> Hd. unfold DataMasking. rewrite Z.ltb_irrefl, Nat2Z.id, take_ge by lia. cbn [negb].
  assert (forall k, (k <= length data)%nat ->
    delimsBefore d (data ++ [0]) k = delimsBefore d data k) as Hcount.
  { intros k Hk. unfold delimsBefore. by rewrite take_app_le. }
  assert (length (data ++ [0]) = S (length data)) as Hlen by (rewrite length_app; simpl; lia).
  unfold MacInstead, IpInstead, IdInstead. rewrite Nat2Z.id.
  assert ((IP_DELIMITER =? MAC_DELIMITER) = false) as E1 by done.
  assert ((ID_DELIMITER =? MAC_DELIMITER) = false) as E2 by done.
  assert ((ID_DELIMITER =? IP_DELIMITER) = false) as E3 by done.
  destruct Hd as [-> | [-> | ->] ]; rewrite ?Z.eqb_refl, ?E1, ?E2, ?E3.
  1: destruct (insteadLoop_spec MAC_DELIMITER_SECOND MAC_DELIMITER_FOURTH MAC_DELIMITER
       (length data) 0 (data ++ [0])) as (r & E & Hl & Hr); [lia|done|].
  2: destruct (insteadLoop_spec IP_DELIMITER_FIRST IP_DELIMITER_THIRD IP_DELIMITER
       (length data) 0 (data ++ [0])) as (r & E & Hl & Hr); [lia|done|].
  3: destruct (idLoop_spec (Z.of_nat (length data) / 2) (length data) 0 (data ++ [0]))
       as (r & E & Hl & Hr); [lia|].
  all: rewrite E; cbn [mbind option_bind].
  all: exists r; split; [done|]; split; [lia|]; split.
  1, 3, 5: rewrite (Hr (length data) 0);
    [by rewrite decide_False by lia|by rewrite lookup_app_r, Nat.sub_diag by lia].
  all: intros k c Hk; pose proof (lookup_lt_Some _ _ _ Hk);
    rewrite (Hr k c) by (by rewrite lookup_app_l by done); f_equal; apply decide_ext;
    rewrite ?Hcount by lia; unfold MAC_DELIMITER_SECOND, MAC_DELIMITER_FOURTH,
      IP_DELIMITER_FIRST, IP_DELIMITER_THIRD; lia.
Qed.

Lemma masking_spec_witness :
  exists r, DataMasking true [49; 46; 50; 46; 51] 5 46 = Some (Some r) /\ length r = 6%nat /\
    r !! 5%nat = Some 0 /\ forall k c, [49; 46; 50; 46; 51] !! k = Some c -> r !! k = Some (
      if decide (c <> 46 /\ 1 <= delimsBefore 46 [49; 46; 50; 46; 51] k < 3) then STAR else c).
Proof. apply (masking_spec [49; 46; 50; 46; 51] 5 46); [done|by right; left]. Defined.

(** Strnicmp: for two terminated strings and a length of at least 1, the
    comparison never reads past a terminator; a length beyond a string's
    terminator is SOFTBUS_ERR, and otherwise the result is 0 exactly when
    the first [len] characters agree up to case. *)
Theorem strnicmp_spec s1 s2 n1 n2 len :
  strlen s1 = Some n1 -> strlen s2 = Some n2 -> 1 <= len < 2 ^ 32 ->
  exists r, Strnicmp (Some s1) (Some s2) len = Some r /\
    (if (n1 + 1 <? len) || (n2 + 1 <? len) then r = SOFTBUS_ERR
     else (r = 0 <-> toupper <$> take (Z.to_nat len) s1 = toupper <$> take (Z.to_nat len) s2)).
Proof.
  intros H1 H2 Hlen. unfold Strnicmp. rewrite H1, H2. cbn [mbind option_bind].
  apply strlen_length in H1 as [], H2 as [].
  destruct (Z.ltb_spec (n1 + 1) len); [by eexists|].
  destruct (Z.ltb_spec (n2 + 1) len); [by eexists|].
  apply strnicmpLoop_spec; lia.
Qed.

Lemma strnicmp_spec_witness :
  exists r, Strnicmp (Some [97; 66; 0]) (Some [65; 98; 0]) 3 = Some r /\
    (r = 0 <-> [65; 66; 0] = [65; 66; 0]).
Proof. apply (strnicmp_spec [97; 66; 0] [65; 98; 0] 2 2 3); done || lia. Defined.

(** Random strings and the signaling log: GenerateRandomStr fills an
    odd-sized buffer with the text of the random bytes and fails with
    SOFTBUS_ERR on every even size; SignalingMsgPrint of 64 bytes or more
    passes a buffer of 128 digits without a terminating 0 to the log. *)
Theorem random_and_signaling_text random str bs data dataLen :
  random (Z.of_nat (length bs)) = Some bs -> Forall (is_u 8) bs -> 1 <= Z.of_nat (length bs) < 2 ^ 30 ->
  length str = (2 * length bs + 1)%nat ->
  Forall (is_u 8) data -> (64 <= length data)%nat -> 64 <= dataLen ->
  GenerateRandomStr true random (Some str) (2 * Z.of_nat (length bs) + 1) =
    Some (SOFTBUS_OK, Some (hexText bs ++ drop (2 * length bs) str)) /\
  GenerateRandomStr true random (Some str) (2 * Z.of_nat (length bs)) =
    Some (SOFTBUS_ERR, Some str) /\
  exists buf, SignalingMsgPrint true data dataLen = Some (Some buf) /\ strlen buf = None.
Proof.
  intros Hr Hbs Hn Hs Hd Hdl Hdl2.
  assert (forall r, 0 <= r < 2 -> GenerateRandomStr true random (Some str) (2 * Z.of_nat (length bs) + r) =
    ('(c, str') ← ConvertBytesToHexString (Some str) (2 * Z.of_nat (length bs) + r) (Some bs) (Z.of_nat (length bs));
     if negb (c =? SOFTBUS_OK) then Some (SOFTBUS_ERR, str') else Some (SOFTBUS_OK, str'))) as Hg.
  { intros r Hr2. unfold GenerateRandomStr, HEXIFY_UNIT_LEN. cbn [negb].
    rewrite bool_decide_false by done. destruct (Z.ltb_spec (2 * Z.of_nat (length bs) + r) 2); [lia|].
    cbn [orb]. replace ((2 * Z.of_nat (length bs) + r) / 2) with (Z.of_nat (length bs)) by cint.
    by rewrite Hr. }
  assert (HEXIFY_LEN (Z.of_nat (length bs)) = 2 * Z.of_nat (length bs) + 1) as Hh.
  { unfold HEXIFY_LEN, HEXIFY_UNIT_LEN. rewrite (wrapU_id 32 (_ * 2)), wrapU_id by range. lia. }
  split_and!.
  - rewrite Hg by lia. unfold ConvertBytesToHexString. rewrite Hh, Z.ltb_irrefl, Nat2Z.id.
    pose proof (bytesToHexLoop_text bs [] (take (2 * length bs) str) (drop (2 * length bs) str) [] []) as Hl.
    cbn [app length] in Hl. rewrite take_drop, app_nil_r in Hl.
    rewrite Hl; [done|done|]. rewrite length_take. lia.
  - rewrite <- (Z.add_0_r (2 * _)), Hg, Z.add_0_r by lia. unfold ConvertBytesToHexString. rewrite Hh.
    destruct (Z.ltb_spec (2 * Z.of_nat (length bs)) (2 * Z.of_nat (length bs) + 1)); [done|lia].
  - unfold SignalingMsgPrint, GetSignalingMsgSwitch, BUF_BYTE_LEN. cbn [negb].
    destruct (Z.leb_spec 64 dataLen); [|lia]. unfold ConvertBytesToHexString.
    change (BUF_HEX_LEN + OFFSET <? HEXIFY_LEN 64) with false. cbn iota.
    pose proof (bytesToHexLoop_text (take 64 data) [] (replicate 128 0) [] [] (drop 64 data)) as Hl.
    rewrite length_take, Nat.min_l in Hl by lia. cbn [app length] in Hl.
    rewrite !app_nil_r, take_drop in Hl. change (Z.to_nat 64) with 64%nat.
    change (Z.to_nat BUF_HEX_LEN) with 128%nat. rewrite Hl by done. cbn [mbind option_bind].
    change (SOFTBUS_OK =? SOFTBUS_OK) with true. cbn [negb]. eexists. split; [done|].
    apply hexText_unterminated. by apply Forall_take.
Qed.

Lemma random_and_signaling_text_witness :
  GenerateRandomStr true (fun _ => Some [7]) (Some [0; 0; 0]) 2 = Some (SOFTBUS_ERR, Some [0; 0; 0]).
Proof.
  apply (random_and_signaling_text (fun _ => Some [7]) [0; 0; 0] [7] (replicate 64 0) 64);
    try done; try (simpl; lia).
  - repeat constructor; range.
  - apply Forall_replicate. range.
Defined.

(** The timer table: after any sequence of registrations from the empty
    table, a tick runs, in the order of the ids 0 to 8, exactly the first
    callback registered for each id; registrations with another id change
    nothing. *)
Theorem timer_runs_first_registrations {callback} (regs : Datatypes.list (Z * callback)) :
  exists t, registerAll timer0 regs = Some t /\
    HandleTimeoutFun t = omap (fun i => firstFor (Z.of_nat i) regs) (seq 0 9).
Proof.
  destruct (registerAll_table regs timer0 eq_refl) as (t & E & Hl & Hr).
  exists t. split; [done|]. unfold HandleTimeoutFun.
  assert (g_timerFunList t = (fun i => firstFor (Z.of_nat i) regs) <$> seq 0 9) as ->.
  { apply list_eq_same_length with 9%nat; [by rewrite length_fmap, length_seq|done|].
    intros i x y Hi Hx Hy. rewrite list_lookup_fmap, lookup_seq_lt in Hy by done. simpl in Hy.
    rewrite (Hr i None) in Hx by (done || by apply lookup_replicate_2). by simplify_eq. }
  done.
Qed.

End Utils.
