(* ===== verification/LnnMap.v ===== *)
(** * The string-keyed hash map

    Models [core/bus_center/utils/src/lnn_map.c].  A [MapNode] carries its
    key (the characters of the C string, as the [int] values the hash adds)
    and its value, of a type [V] with the size [sizeOf] in memory; a bucket is the chain of nodes reached from
    [map->nodes[i]] through [next].  Whether [SoftBusCalloc] finds memory is
    an argument of the operations that allocate.  [None] as an outer result
    is an access through a NULL pointer or outside the bucket array.

    [wf] is the representation invariant; [view] the finite map a
    well-formed [Map] stands for. *)

From S2P Require Import Prelude Errno.
Import Errno.

Module LnnMap.

Definition HDF_MIN_MAP_SIZE : Z := 8.
Definition HDF_ENLARGE_FACTOR : Z := 2.
Definition HDF_MAP_KEY_MAX_SIZE : Z := 1000.
Definition HDF_MAP_VALUE_MAX_SIZE : Z := 1000.

(** Keys are sequences of characters. *)
Abbreviation bytes := (list Z).

Section Map.

(** What the values are. *)
Context {V : Type}.

Record MapNode := MkNode { hash : Z; valueSize : Z; key : bytes; value : V }.

Record Map := MkMap { nodes : option (list (list MapNode)); nodeSize : Z; bucketSize : Z }.

(** The sizes of a pointer and of a [MapNode] on a 64-bit target. *)
Definition POINTER_SIZE : Z := 8.
Definition NODE_HEADER_SIZE : Z := 32.
Definition SHIFT_ALIGN_BYTE : Z := 4.
Definition MAX_MALLOC_SIZE : Z := 512 * 1024 * 1024.

(** [SoftBusCalloc]: the size is converted to [unsigned int] and sizes over
    the limit are refused; [avail] is what [malloc] answers. *)
Definition SoftBusCalloc (avail : bool) (size : Z) : bool :=
  negb (MAX_MALLOC_SIZE <? u32 size) && avail.

Definition MapHash (key : option bytes) : Z :=
  match key with
  | None => 0
  | Some k => Z.land (foldl (fun hash c => u32 (u32 (hash * 131) + c)) 0 k) 2147483647
  end.

Definition MapHashIdx (m : Map) (hash : Z) : Z := Z.land hash (u32 (bucketSize m - 1)).

Definition MapAddNode (m : Map) (node : MapNode) : option Map :=
  let idx := Z.to_nat (MapHashIdx m (hash node)) in
  bs ← nodes m;
  b ← bs !! idx;
  Some (MkMap (Some (<[idx := node :: b]> bs)) (nodeSize m) (bucketSize m)).

(** The while loop of [MapResize] over one old chain, in order. *)
Fixpoint addChain (m : Map) (chain : list MapNode) : option Map :=
  match chain with
  | [] => Some m
  | node :: next => m' ← MapAddNode m node; addChain m' next
  end.

(** The for loop of [MapResize]: [n] buckets of the old array from [i]. *)
Fixpoint remap (n i : nat) (tmp : list (list MapNode)) (m : Map) : option Map :=
  match n with
  | O => Some m
  | S n' => chain ← tmp !! i; m' ← addChain m chain; remap n' (S i) tmp m'
  end.

Definition MapResize (avail : bool) (m : Map) (size : Z) : option (Z * Map) :=
  if negb (SoftBusCalloc avail (size * POINTER_SIZE)) then Some (SOFTBUS_MEM_ERR, m)
  else
    let m1 := MkMap (Some (replicate (Z.to_nat size) [])) (nodeSize m) size in
    match nodes m with
    | None => Some (SOFTBUS_OK, m1)
    | Some tmp => m2 ← remap (Z.to_nat (bucketSize m)) 0 tmp m1; Some (SOFTBUS_OK, m2)
    end.

Definition MapCreateNode (avail : bool) (k : bytes) (hash : Z) (v : V) (vsize : Z)
  : option MapNode :=
  let keySize := Z.of_nat (length k) + 1 in
  let keySize := keySize + (SHIFT_ALIGN_BYTE - keySize mod SHIFT_ALIGN_BYTE) in
  if negb (SoftBusCalloc avail (NODE_HEADER_SIZE + keySize + vsize)) then None
  else Some (MkNode hash vsize k v).

(** The search loop of [LnnMapSet], [LnnMapGet] and [LnnMapErase]. *)
Definition matches (h : Z) (k : bytes) (n : MapNode) : bool :=
  (hash n =? h) && bool_decide (key n = k).

Fixpoint chainFind (h : Z) (k : bytes) (chain : list MapNode) : option MapNode :=
  match chain with
  | [] => None
  | n :: next => if matches h k n then Some n else chainFind h k next
  end.

(** [memcpy_s(node->value, ...)] on the node the search stopped at. *)
Fixpoint chainUpdate (h : Z) (k : bytes) (v : V) (chain : list MapNode) : list MapNode :=
  match chain with
  | [] => []
  | n :: next =>
    if matches h k n then MkNode (hash n) (valueSize n) (key n) v :: next
    else n :: chainUpdate h k v next
  end.

(** Unlinking the node the search stopped at. *)
Fixpoint chainRemove (h : Z) (k : bytes) (chain : list MapNode) : list MapNode :=
  match chain with
  | [] => []
  | n :: next => if matches h k n then next else n :: chainRemove h k next
  end.

(** [LnnMapSet] enlarges the bucket array when the load reaches the bucket
    count, and ignores the result of [MapResize]. *)
Definition enlarge (avail : bool) (m : Map) : option Map :=
  if bucketSize m <=? nodeSize m then
    let size := if bucketSize m <? HDF_MIN_MAP_SIZE then HDF_MIN_MAP_SIZE
                else u32 (Z.shiftl (bucketSize m) HDF_ENLARGE_FACTOR) in
    snd <$> MapResize avail m size
  else Some m.

(** The part of [LnnMapSet] after the key was not found: enlarge, create the
    node and link it in. *)
Definition setNew (availBuckets availNode : bool) (m : Map) (k : bytes) (v : V) (vsize h : Z)
  : option (Z * Map) :=
  m1 ← enlarge availBuckets m;
  match MapCreateNode availNode k h v vsize with
  | None => Some (SOFTBUS_INVALID_PARAM, m1)
  | Some node =>
    m2 ← MapAddNode m1 node;
    Some (SOFTBUS_OK, MkMap (nodes m2) (u32 (nodeSize m2 + 1)) (bucketSize m2))
  end.

(** [v] is what the [vsize] bytes [value] points to hold. *)
Definition LnnMapSet (availBuckets availNode : bool) (om : option Map) (ok : option bytes)
    (ov : option V) (vsize : Z) : option (Z * option Map) :=
  match om, ok, ov with
  | Some m, Some k, Some v =>
    if vsize =? 0 then Some (SOFTBUS_INVALID_PARAM, om)
    else if (HDF_MAP_KEY_MAX_SIZE <? vsize) || (HDF_MAP_VALUE_MAX_SIZE <? Z.of_nat (length k)) then
      Some (SOFTBUS_INVALID_PARAM, om)
    else
      let h := MapHash (Some k) in
      let new := '(r, m') ← setNew availBuckets availNode m k v vsize h; Some (r, Some m') in
      match nodes m with
      | Some bs =>
        if 0 <? nodeSize m then (
          let idx := Z.to_nat (MapHashIdx m h) in
          chain ← bs !! idx;
          match chainFind h k chain with
          | Some n =>
            if negb (valueSize n =? vsize) then Some (SOFTBUS_INVALID_PARAM, om)
            else Some (SOFTBUS_OK,
              Some (MkMap (Some (<[idx := chainUpdate h k v chain]> bs)) (nodeSize m) (bucketSize m)))
          | None => new
          end)
        else new
      | None => new
      end
  | _, _, _ => Some (SOFTBUS_INVALID_PARAM, om)
  end.

(** What [node->value] points to; [Some None] is NULL. *)
Definition LnnMapGet (om : option Map) (ok : option bytes) : option (option V) :=
  match om, ok with
  | Some m, Some k =>
    match nodes m with
    | None => Some None
    | Some bs =>
      if nodeSize m =? 0 then Some None
      else (
        let h := MapHash (Some k) in
        chain ← bs !! Z.to_nat (MapHashIdx m h);
        Some (value <$> chainFind h k chain))
    end
  | _, _ => Some None
  end.

Definition LnnMapErase (om : option Map) (ok : option bytes) : option (Z * option Map) :=
  match om, ok with
  | Some m, Some k =>
    match nodes m with
    | None => Some (SOFTBUS_INVALID_PARAM, om)
    | Some bs =>
      if nodeSize m =? 0 then Some (SOFTBUS_INVALID_PARAM, om)
      else (
        let h := MapHash (Some k) in
        let idx := Z.to_nat (MapHashIdx m h) in
        chain ← bs !! idx;
        match chainFind h k chain with
        | Some _ => Some (SOFTBUS_OK,
            Some (MkMap (Some (<[idx := chainRemove h k chain]> bs)) (u32 (nodeSize m - 1)) (bucketSize m)))
        | None => Some (SOFTBUS_ERR, om)
        end)
    end
  | _, _ => Some (SOFTBUS_INVALID_PARAM, om)
  end.

Definition MapGetSize (om : option Map) : Z :=
  match om with None => 0 | Some m => nodeSize m end.

Definition LnnMapInit (om : option Map) : option Map :=
  match om with None => None | Some _ => Some (MkMap None 0 0) end.

Definition LnnMapDelete (om : option Map) : option Map :=
  match om with
  | None => None
  | Some m => match nodes m with None => Some m | Some _ => Some (MkMap None 0 0) end
  end.

(** ** Iterator

    [it->node] is the rest of the chain that starts at the node ([[]] is
    NULL); [it->map] is passed along. *)
Record MapIterator := MkIter { node : list MapNode; nodeNum : Z; bucketNum : Z }.

Definition LnnMapInitIterator (avail : bool) (om : option Map) : option MapIterator :=
  match om with
  | None => None
  | Some _ => if SoftBusCalloc avail 32 then Some (MkIter [] 0 0) else None
  end.

Definition LnnMapHasNext (m : Map) (it : MapIterator) : bool := nodeNum it <? nodeSize m.

(** The while loop over the remaining buckets; [n] bounds the rounds. *)
Fixpoint seekBucket (n : nat) (m : Map) (it : MapIterator) : option MapIterator :=
  match n with
  | O => Some it
  | S n' =>
    if bucketNum it <? bucketSize m then (
      bs ← nodes m;
      b ← bs !! Z.to_nat (bucketNum it);
      match b with
      | [] => seekBucket n' m (MkIter (node it) (nodeNum it) (bucketNum it + 1))
      | _ => Some (MkIter b (nodeNum it + 1) (bucketNum it + 1))
      end)
    else Some it
  end.

Definition LnnMapNext (m : Map) (it : MapIterator) : option MapIterator :=
  if LnnMapHasNext m it then
    match node it with
    | _ :: ((_ :: _) as next) => Some (MkIter next (nodeNum it + 1) (bucketNum it))
    | _ => seekBucket (S (Z.to_nat (bucketSize m - bucketNum it))) m it
    end
  else Some it.

(** The loop of the clients, [while (LnnMapHasNext(it)) { it =
    LnnMapNext(it); use it->node; }]: the nodes used, in order, and the
    iterator at the end; [n] bounds the rounds. *)
Fixpoint iterate (n : nat) (m : Map) (it : MapIterator) : option (list MapNode * MapIterator) :=
  if LnnMapHasNext m it then
    match n with
    | O => None
    | S n' =>
      it' ← LnnMapNext m it;
      x ← head (node it');
      '(xs, it'') ← iterate n' m it';
      Some (x :: xs, it'')
    end
  else Some ([], it).

(** The same loop with a result and an exit: [while (LnnMapHasNext(it) &&
    !stop) { it = LnnMapNext(it); acc = f(acc, it->node); }]. *)
Fixpoint mapLoop {A} (n : nat) (stop : A -> bool) (f : A -> MapNode -> A) (m : Map) (it : MapIterator) (acc : A)
  : option A :=
  if LnnMapHasNext m it && negb (stop acc) then
    match n with
    | O => None
    | S n' =>
      it' ← LnnMapNext m it;
      x ← head (node it');
      mapLoop n' stop f m it' (f acc x)
    end
  else Some acc.

(** A client writes through the pointer [LnnMapGet] or an iterator gave it:
    the value in the node of the key. *)
Definition writeValue (m : Map) (k : bytes) (v : V) : option Map :=
  bs ← nodes m;
  let h := MapHash (Some k) in
  let idx := Z.to_nat (MapHashIdx m h) in
  chain ← bs !! idx;
  Some (MkMap (Some (<[idx := chainUpdate h k v chain]> bs)) (nodeSize m) (bucketSize m)).

(** ** Invariant and abstraction *)

Context (sizeOf : V -> Z).

Definition allNodes (m : Map) : list MapNode := concat (default [] (nodes m)).

(** A node that carries the hash of its key and a non-empty value. *)
Definition goodNode (n : MapNode) : Prop :=
  hash n = MapHash (Some (key n)) /\ valueSize n = sizeOf (value n) /\ 0 < valueSize n.

(** The bucket array is absent, or a power of two of chains, each node in
    the bucket of its hash, and no key occurs twice. *)
Record wfBuckets (m : Map) : Prop := {
  wf_array : match nodes m with
    | None => bucketSize m = 0
    | Some bs => Z.of_nat (length bs) = bucketSize m /\
        exists k, bucketSize m = 2 ^ k /\ 3 <= k <= 26
    end;
  wf_place : forall i b n, default [] (nodes m) !! i = Some b -> n ∈ b ->
    goodNode n /\ Z.to_nat (MapHashIdx m (hash n)) = i;
  wf_keys : NoDup (key <$> allNodes m)
}.

Definition wf (m : Map) : Prop :=
  wfBuckets m /\ nodeSize m = Z.of_nat (length (allNodes m)) /\ is_u 32 (nodeSize m).

Definition entry (n : MapNode) : bytes * V := (key n, value n).

Definition view (m : Map) : gmap bytes V := list_to_map (entry <$> allNodes m).

(** ** Hashing *)

Lemma MapHash_range k : is_u 31 (MapHash k).
Proof.
  apply is_u_bits; [lia|]. intros i Hi. destruct k as [k|]; simpl; [|apply Z.testbit_0_l].
  rewrite Z.land_spec. change 2147483647 with (Z.ones 31). rewrite Z.testbit_ones by lia.
  destruct (Z.ltb_spec i 31); [lia|]. by rewrite !andb_false_r.
Qed.

Lemma MapHashIdx_range m k h : bucketSize m = 2 ^ k -> 0 <= k <= 32 ->
  0 <= MapHashIdx m h < bucketSize m.
Proof.
  intros Hb Hk. unfold MapHashIdx. rewrite Hb.
  rewrite wrapU_id; [|split; [assert (0 < 2 ^ k) by (apply Z.pow_pos_nonneg; lia); lia|
    assert (2 ^ k <= 2 ^ 32) by (apply Z.pow_le_mono_r; lia); lia]].
  replace (2 ^ k - 1) with (Z.ones k) by (rewrite Z.ones_equiv; lia).
  rewrite Z.land_ones by lia. apply Z.mod_pos_bound. apply Z.pow_pos_nonneg; lia.
Qed.

(** The bucket of a key exists. *)
Lemma bucket_exists m bs h : wfBuckets m -> nodes m = Some bs ->
  exists b, bs !! Z.to_nat (MapHashIdx m h) = Some b.
Proof.
  intros Hwf Hn. pose proof (wf_array m Hwf) as Hb. rewrite Hn in Hb. destruct Hb as [Hl (e & He & Hr)].
  apply lookup_lt_is_Some_2. pose proof (MapHashIdx_range m e h He). lia.
Qed.

(** ** Chains *)

Lemma chainFind_Some h k c n : chainFind h k c = Some n -> n ∈ c /\ hash n = h /\ key n = k.
Proof.
  induction c as [|x c IH]; simpl; [done|]. unfold matches.
  destruct (Z.eqb_spec (hash x) h), (decide (key x = k)); simpl;
    rewrite ?bool_decide_true, ?bool_decide_false by done; intros; simplify_eq;
    try (split_and!; [by left|done|done]); destruct IH as (? & ? & ?); try done;
    split_and!; try done; by right.
Qed.

Lemma chainFind_None h k c : chainFind h k c = None -> forall n, n ∈ c -> hash n = h -> key n <> k.
Proof.
  induction c as [|x c IH]; simpl; [set_solver|]. unfold matches.
  destruct (Z.eqb_spec (hash x) h), (decide (key x = k)); simpl;
    rewrite ?bool_decide_true, ?bool_decide_false by done; intros E nd [->|]%elem_of_cons;
    naive_solver.
Qed.

(** A chain around the node the search finds. *)
Lemma chain_split h k c n : chainFind h k c = Some n ->
  exists l1 l2, c = l1 ++ n :: l2 /\ chainRemove h k c = l1 ++ l2 /\
    forall v, chainUpdate h k v c = l1 ++ MkNode (hash n) (valueSize n) (key n) v :: l2.
Proof.
  induction c as [|x c IH]; simpl; [done|].
  destruct (matches h k x) eqn:E; intros; simplify_eq.
  - by exists [], c.
  - destruct IH as (l1 & l2 & -> & Hr & Hu); [done|].
    exists (x :: l1), l2. split_and!; [done|by rewrite Hr|]. intros v. by rewrite Hu.
Qed.

(** Replacing one bucket replaces its part of the node list. *)
Lemma concat_insert (bs : list (list MapNode)) i b : bs !! i = Some b ->
  exists rest, concat bs ≡ₚ b ++ rest /\
    (forall b', concat (<[i := b']> bs) ≡ₚ b' ++ rest) /\
    forall b' j c, <[i := b']> bs !! j = Some c -> (i = j /\ c = b') \/ (i <> j /\ bs !! j = Some c).
Proof.
  intros Hb. exists (concat (take i bs) ++ concat (drop (S i) bs)). split_and!.
  - rewrite <- (take_drop_middle bs i b Hb) at 1. rewrite concat_app. simpl. solve_Permutation.
  - intros b'. rewrite insert_take_drop by (by eapply lookup_lt_Some).
    rewrite concat_app. simpl. solve_Permutation.
  - intros b' j c Hc. destruct (decide (i = j)) as [->|].
    + rewrite list_lookup_insert_eq in Hc by (by eapply lookup_lt_Some). left. by simplify_eq.
    + rewrite list_lookup_insert_ne in Hc by done. by right.
Qed.

(** Replacing bucket [i] by chain [b'] of nodes that belong there. *)
Lemma wf_replace m bs i b b' rest ns :
  wfBuckets m -> nodes m = Some bs -> bs !! i = Some b ->
  allNodes m ≡ₚ b ++ rest ->
  (forall n, n ∈ b' -> goodNode n /\ Z.to_nat (MapHashIdx m (hash n)) = i) ->
  NoDup (key <$> b' ++ rest) ->
  let m' := MkMap (Some (<[i := b']> bs)) ns (bucketSize m) in
  wfBuckets m' /\ allNodes m' ≡ₚ b' ++ rest.
Proof.
  intros Hwf Hn Hb Hperm Hgood Hnd m'.
  destruct (concat_insert bs i b Hb) as (rest' & Hc & Hi & Hl).
  assert (rest' ≡ₚ rest) as Hrest.
  { unfold allNodes in Hperm. rewrite Hn in Hperm. simpl in Hperm. rewrite Hc in Hperm.
    by apply Permutation_app_inv_l in Hperm. }
  assert (allNodes m' ≡ₚ b' ++ rest) as Hall.
  { unfold allNodes. simpl. by rewrite Hi, Hrest. }
  split; [|done]. pose proof (wf_array m Hwf) as Ha. rewrite Hn in Ha. split.
  - simpl. by rewrite length_insert.
  - simpl. intros j c n Hc' Hnc. apply Hl in Hc' as [[-> ->]|[Hij Hj]]; [by apply Hgood|].
    apply (wf_place m Hwf j c); [by rewrite Hn|done].
  - by rewrite Hall.
Qed.

Lemma allNodes_bucket m bs i b : nodes m = Some bs -> bs !! i = Some b ->
  exists rest, allNodes m ≡ₚ b ++ rest.
Proof.
  intros Hn Hb. destruct (concat_insert bs i b Hb) as (rest & ? & _).
  exists rest. unfold allNodes. by rewrite Hn.
Qed.

Lemma elem_of_allNodes m n : n ∈ allNodes m <->
  exists i b, default [] (nodes m) !! i = Some b /\ n ∈ b.
Proof.
  unfold allNodes. rewrite list_elem_of_In, in_concat. split.
  - intros (b & Hb & Hn). apply list_elem_of_In, list_elem_of_lookup in Hb as [i Hi].
    exists i, b. by rewrite <- list_elem_of_In in Hn.
  - intros (i & b & Hb & Hn). exists b. split; [|by apply list_elem_of_In].
    apply list_elem_of_In, list_elem_of_lookup. eauto.
Qed.

(** Adding a node with a fresh key. *)
Lemma MapAddNode_wf m bs n :
  wfBuckets m -> nodes m = Some bs -> goodNode n -> key n ∉ key <$> allNodes m ->
  exists m', MapAddNode m n = Some m' /\ wfBuckets m' /\ allNodes m' ≡ₚ n :: allNodes m /\
    nodeSize m' = nodeSize m /\ bucketSize m' = bucketSize m /\ is_Some (nodes m').
Proof.
  intros Hwf Hn Hg Hk. unfold MapAddNode. rewrite Hn. cbn [mbind option_bind].
  destruct (bucket_exists m bs (hash n) Hwf Hn) as [b Hb]. rewrite Hb. cbn [mbind option_bind].
  destruct (allNodes_bucket m bs _ b Hn Hb) as [rest Hr].
  destruct (wf_replace m bs _ b (n :: b) rest (nodeSize m) Hwf Hn Hb Hr) as [Hwf' Hall].
  - intros x [->|Hx]%elem_of_cons; [done|]. apply (wf_place m Hwf _ b); [by rewrite Hn|done].
  - cbn [app fmap list_fmap]. apply NoDup_cons. rewrite Hr in Hk.
    split; [done|]. pose proof (wf_keys m Hwf) as Hnd. by rewrite Hr in Hnd.
  - eexists. split; [done|]. split; [done|]. split; [by rewrite Hall, Hr|].
    split_and!; [done|done|]. simpl. eauto.
Qed.

Lemma addChain_wf c : forall m bs,
  wfBuckets m -> nodes m = Some bs -> (forall n, n ∈ c -> goodNode n) ->
  NoDup (key <$> c ++ allNodes m) ->
  exists m', addChain m c = Some m' /\ wfBuckets m' /\ allNodes m' ≡ₚ c ++ allNodes m /\
    nodeSize m' = nodeSize m /\ bucketSize m' = bucketSize m /\ is_Some (nodes m').
Proof.
  induction c as [|n c IH]; intros m bs Hwf Hn Hg Hnd; cbn [addChain].
  { exists m. by split_and!. }
  cbn [app fmap list_fmap] in Hnd. apply NoDup_cons in Hnd as [Hk Hnd].
  destruct (MapAddNode_wf m bs n Hwf Hn) as (m1 & -> & Hwf1 & Hall1 & Hs1 & Hb1 & [bs1 Hn1]).
  { apply Hg. by left. } { rewrite fmap_app in Hk. set_solver. }
  cbn [mbind option_bind].
  destruct (IH m1 bs1 Hwf1 Hn1) as (m2 & -> & Hwf2 & Hall2 & Hs2 & Hb2 & Hn2).
  { intros x Hx. apply Hg. by right. }
  { rewrite Hall1, <- Permutation_middle. cbn [fmap list_fmap]. by apply NoDup_cons. }
  exists m2. split_and!; try done; try congruence. rewrite Hall2, Hall1. simpl. solve_Permutation.
Qed.

Lemma remap_wf n : forall i tmp m bs,
  wfBuckets m -> nodes m = Some bs -> (i + n = length tmp)%nat ->
  (forall x, x ∈ concat (drop i tmp) -> goodNode x) ->
  NoDup (key <$> concat (drop i tmp) ++ allNodes m) ->
  exists m', remap n i tmp m = Some m' /\ wfBuckets m' /\
    allNodes m' ≡ₚ concat (drop i tmp) ++ allNodes m /\
    nodeSize m' = nodeSize m /\ bucketSize m' = bucketSize m /\ is_Some (nodes m').
Proof.
  induction n as [|n IH]; intros i tmp m bs Hwf Hn Hi Hg Hnd; cbn [remap].
  { exists m. rewrite drop_ge by lia. by split_and!. }
  destruct (lookup_lt_is_Some_2 tmp i) as [c Hc]; [lia|]. rewrite Hc. cbn [mbind option_bind].
  rewrite (drop_S tmp c i Hc) in *. cbn [concat] in *. rewrite <- app_assoc in Hnd.
  destruct (addChain_wf c m bs Hwf Hn) as (m1 & -> & Hwf1 & Hall1 & Hs1 & Hb1 & [bs1 Hn1]).
  { intros x Hx. apply Hg. set_solver. }
  { revert Hnd. rewrite (Permutation_app_comm (concat _)), app_assoc, fmap_app.
    intros Hnd%NoDup_app. apply Hnd. }
  cbn [mbind option_bind].
  destruct (IH (S i) tmp m1 bs1 Hwf1 Hn1) as (m2 & -> & Hwf2 & Hall2 & Hs2 & Hb2 & Hn2).
  { lia. } { intros x Hx. apply Hg. set_solver. }
  { rewrite Hall1. revert Hnd. apply NoDup_Permutation_proper, fmap_Permutation. solve_Permutation. }
  exists m2. split_and!; try done; try congruence. rewrite Hall2, Hall1. solve_Permutation.
Qed.

Lemma MapResize_wf avail m k :
  wfBuckets m -> 3 <= k <= 26 ->
  exists r m', MapResize avail m (2 ^ k) = Some (r, m') /\
    ((r = SOFTBUS_MEM_ERR /\ m' = m) \/
     (r = SOFTBUS_OK /\ wfBuckets m' /\ allNodes m' ≡ₚ allNodes m /\ nodeSize m' = nodeSize m /\
      bucketSize m' = 2 ^ k /\ is_Some (nodes m'))).
Proof.
  intros Hwf Hk. unfold MapResize. destruct (SoftBusCalloc _ _); cbn [negb]; [|by eauto 10].
  set (m1 := MkMap _ _ _).
  assert (allNodes m1 = []) as Hall.
  { unfold allNodes, m1. simpl. generalize (Z.to_nat (2 ^ k)). induction n; simpl; auto. }
  assert (wfBuckets m1) as Hwf1.
  { split; simpl.
    - rewrite length_replicate, Z2Nat.id by (apply Z.pow_nonneg; lia). split; [done|]. eauto.
    - intros i b n [-> _]%lookup_replicate. set_solver.
    - rewrite Hall. constructor. }
  pose proof (wf_array m Hwf) as Ha. destruct (nodes m) as [tmp|] eqn:Hn.
  - destruct Ha as [Hl _].
    assert (allNodes m = concat tmp) as Htmp by (unfold allNodes; by rewrite Hn).
    destruct (remap_wf (Z.to_nat (bucketSize m)) 0 tmp m1 _ Hwf1 eq_refl) as
      (m2 & -> & Hwf2 & Hall2 & Hs2 & Hb2 & Hn2).
    + lia.
    + intros x Hx. rewrite drop_0, <- Htmp in Hx. apply elem_of_allNodes in Hx as (i & b & Hb & Hx).
      by apply (wf_place m Hwf i b).
    + rewrite drop_0, Hall, app_nil_r, <- Htmp. apply (wf_keys m Hwf).
    + cbn [mbind option_bind]. eexists _, m2. split; [done|]. right.
      rewrite drop_0, Hall, app_nil_r, <- Htmp in Hall2. split_and!; try done.
  - eexists _, m1. split; [done|]. right. split_and!; try done.
    rewrite Hall. unfold allNodes. by rewrite Hn.
Qed.

(** ** The abstraction *)

Lemma view_lookup m k v : wfBuckets m ->
  view m !! k = Some v <-> exists n, n ∈ allNodes m /\ key n = k /\ value n = v.
Proof.
  intros Hwf. unfold view. rewrite <- elem_of_list_to_map.
  - rewrite list_elem_of_fmap. unfold entry. naive_solver.
  - rewrite <- list_fmap_compose. apply (wf_keys m Hwf).
Qed.

(** Searching the bucket of a key searches the whole map. *)
Lemma chainFind_view m bs b k : wfBuckets m -> nodes m = Some bs ->
  bs !! Z.to_nat (MapHashIdx m (MapHash (Some k))) = Some b ->
  value <$> chainFind (MapHash (Some k)) k b = view m !! k.
Proof.
  intros Hwf Hn Hb. destruct (chainFind _ k b) as [n|] eqn:E; simpl; symmetry.
  - apply chainFind_Some in E as (Hin & _ & <-). apply view_lookup; [done|].
    exists n. split_and!; try done. apply elem_of_allNodes. rewrite Hn. eauto.
  - apply eq_None_not_Some. intros [v Hv]. apply view_lookup in Hv as (n & Hin & <- & <-); [|done].
    apply elem_of_allNodes in Hin as (i & b' & Hb' & Hin).
    destruct (wf_place m Hwf i b' n Hb' Hin) as [(Hh & _) Hi]. rewrite Hh in Hi.
    rewrite Hn in Hb'. simpl in Hb'. subst i. rewrite Hb in Hb'. simplify_eq.
    by apply (chainFind_None _ _ _ E n).
Qed.

Lemma view_perm m m' : wfBuckets m -> allNodes m ≡ₚ allNodes m' -> view m = view m'.
Proof.
  intros Hwf Hp. unfold view. apply list_to_map_proper; [|by apply fmap_Permutation].
  rewrite <- list_fmap_compose. apply (wf_keys m Hwf).
Qed.

Lemma view_cons m n l : allNodes m ≡ₚ n :: l -> wfBuckets m ->
  view m = <[key n := value n]> (list_to_map (entry <$> l)).
Proof.
  intros Hp Hwf. unfold view. rewrite (list_to_map_proper _ (entry <$> (n :: l))); [done| |].
  - rewrite <- list_fmap_compose. apply (wf_keys m Hwf).
  - by apply fmap_Permutation.
Qed.

Lemma view_empty m : wf m -> nodeSize m = 0 \/ nodes m = None -> view m = ∅.
Proof.
  intros (Hwf & Hs & _) [H0|H0]; unfold view.
  - rewrite (nil_length_inv (allNodes m)) by lia. done.
  - unfold allNodes. by rewrite H0.
Qed.

(** The node a search finds, taken out of the node list, and its bucket. *)
Lemma found_node m bs b k n : wfBuckets m -> nodes m = Some bs ->
  bs !! Z.to_nat (MapHashIdx m (MapHash (Some k))) = Some b ->
  chainFind (MapHash (Some k)) k b = Some n ->
  exists l1 l2 rest, b = l1 ++ n :: l2 /\ allNodes m ≡ₚ b ++ rest /\
    chainRemove (MapHash (Some k)) k b = l1 ++ l2 /\
    (forall v, chainUpdate (MapHash (Some k)) k v b =
       l1 ++ MkNode (hash n) (valueSize n) (key n) v :: l2) /\
    key n = k /\ goodNode n /\ key n ∉ key <$> (l1 ++ l2 ++ rest) /\
    NoDup (key <$> (l1 ++ l2 ++ rest)) /\
    forall x, x ∈ b -> goodNode x /\
      Z.to_nat (MapHashIdx m (hash x)) = Z.to_nat (MapHashIdx m (MapHash (Some k))).
Proof.
  intros Hwf Hn Hb Hf. destruct (chain_split _ _ _ _ Hf) as (l1 & l2 & -> & Hr & Hu).
  destruct (allNodes_bucket m bs _ _ Hn Hb) as [rest Hrest].
  exists l1, l2, rest. pose proof (wf_keys m Hwf) as Hnd.
  rewrite Hrest, <- app_assoc, <- app_comm_cons, <- Permutation_middle in Hnd.
  cbn [fmap list_fmap] in Hnd. apply NoDup_cons in Hnd as [Hk Hnd].
  assert (forall x, x ∈ l1 ++ n :: l2 -> goodNode x /\
    Z.to_nat (MapHashIdx m (hash x)) = Z.to_nat (MapHashIdx m (MapHash (Some k)))) as Hall.
  { intros x Hx. apply (wf_place m Hwf _ (l1 ++ n :: l2)); [by rewrite Hn|done]. }
  apply chainFind_Some in Hf as (Hin & _ & Hkey). split_and!; try done. by apply Hall.
Qed.

(** Writing the value of a key that is present. *)
Lemma update_refines m bs b k n v : wf m -> nodes m = Some bs ->
  bs !! Z.to_nat (MapHashIdx m (MapHash (Some k))) = Some b ->
  chainFind (MapHash (Some k)) k b = Some n -> sizeOf v = valueSize n ->
  let m' := MkMap (Some (<[Z.to_nat (MapHashIdx m (MapHash (Some k))) :=
      chainUpdate (MapHash (Some k)) k v b]> bs)) (nodeSize m) (bucketSize m) in
  wf m' /\ view m' = <[k := v]> (view m).
Proof.
  intros (Hwf & Hs & Hu) Hn Hb Hf Hv.
  destruct (found_node m bs b k n Hwf Hn Hb Hf) as
    (l1 & l2 & rest & -> & Hrest & _ & Hupd & <- & Hg & Hk & Hnd & Hin).
  rewrite Hupd. set (n' := MkNode (hash n) (valueSize n) (key n) v).
  destruct (wf_replace m bs _ _ (l1 ++ n' :: l2) rest (nodeSize m) Hwf Hn Hb Hrest) as [Hwf' Hall].
  - intros x [Hx|[->|Hx]%elem_of_cons]%elem_of_app; [apply Hin; set_solver| |apply Hin; set_solver].
    destruct (Hin n) as [(? & ? & ?) ?]; [set_solver|]. split; [|done].
    unfold goodNode, n'. simpl. split_and!; [done|lia|done].
  - rewrite <- app_assoc, <- app_comm_cons, <- Permutation_middle. cbn [fmap list_fmap].
    by apply NoDup_cons.
  - split_and!; [split_and!; [done| |done]|].
    + rewrite Hall. simpl. rewrite Hs, Hrest, !length_app. done.
    + rewrite (view_cons _ n' (l1 ++ l2 ++ rest)); [| |done].
      * rewrite (view_cons m n (l1 ++ l2 ++ rest)); [|by rewrite Hrest, <- app_assoc, <- app_comm_cons,
          <- Permutation_middle|done]. by rewrite insert_insert_eq.
      * by rewrite Hall, <- app_assoc, <- app_comm_cons, <- Permutation_middle.
Qed.

(** Unlinking the node of a key that is present. *)
Lemma remove_refines m bs b k n : wf m -> nodes m = Some bs ->
  bs !! Z.to_nat (MapHashIdx m (MapHash (Some k))) = Some b ->
  chainFind (MapHash (Some k)) k b = Some n ->
  let m' := MkMap (Some (<[Z.to_nat (MapHashIdx m (MapHash (Some k))) :=
      chainRemove (MapHash (Some k)) k b]> bs)) (u32 (nodeSize m - 1)) (bucketSize m) in
  wf m' /\ view m' = delete k (view m) /\ nodeSize m' = nodeSize m - 1.
Proof.
  intros (Hwf & Hs & Hu) Hn Hb Hf.
  destruct (found_node m bs b k n Hwf Hn Hb Hf) as
    (l1 & l2 & rest & -> & Hrest & Hrem & _ & <- & Hg & Hk & Hnd & Hin).
  rewrite Hrem.
  destruct (wf_replace m bs _ _ (l1 ++ l2) rest (u32 (nodeSize m - 1)) Hwf Hn Hb Hrest) as [Hwf' Hall].
  - intros x Hx. apply Hin. set_solver.
  - by rewrite <- app_assoc.
  - assert (nodeSize m = 1 + Z.of_nat (length (l1 ++ l2 ++ rest))) as Hlen.
    { rewrite Hs, Hrest, !length_app. simpl. lia. }
    assert (u32 (nodeSize m - 1) = nodeSize m - 1) as Hw by (apply wrapU_id; range).
    split_and!; [split_and!; [done| |]| |].
    + cbn [nodeSize]. rewrite Hw, Hall, <- app_assoc. lia.
    + cbn [nodeSize]. rewrite Hw. range.
    + rewrite (view_cons m n (l1 ++ l2 ++ rest)); [|by rewrite Hrest, <- app_assoc, <- app_comm_cons,
          <- Permutation_middle|done].
      rewrite delete_insert_id.
      * unfold view. apply list_to_map_proper.
        -- rewrite <- list_fmap_compose. apply (wf_keys _ Hwf').
        -- apply fmap_Permutation. by rewrite Hall, <- app_assoc.
      * apply not_elem_of_list_to_map. rewrite <- list_fmap_compose. done.
    + done.
Qed.

Lemma wf_size m ns : wfBuckets m -> wfBuckets (MkMap (nodes m) ns (bucketSize m)).
Proof. intros [H1 H2 H3]. by split. Qed.

(** The enlargement step of [LnnMapSet] keeps the nodes, whatever memory
    there is, and leaves a bucket array unless the first one is refused. *)
Lemma enlarge_wf ab m : wf m -> (ab = true \/ is_Some (nodes m)) ->
  exists m1, enlarge ab m = Some m1 /\ wfBuckets m1 /\
    allNodes m1 ≡ₚ allNodes m /\ nodeSize m1 = nodeSize m /\ is_Some (nodes m1).
Proof.
  intros (Hwf & Hs & Hu) Hab. unfold enlarge. pose proof (wf_array m Hwf) as Ha.
  destruct (nodes m) as [bs|] eqn:Hn.
  - destruct Ha as [Hl (e & He & Hr)].
    assert (2 ^ 3 <= bucketSize m) by (rewrite He; apply Z.pow_le_mono_r; lia).
    destruct (Z.leb_spec (bucketSize m) (nodeSize m)) as [Hle|]; [|by eauto 10].
    destruct (Z.ltb_spec (bucketSize m) HDF_MIN_MAP_SIZE); [unfold HDF_MIN_MAP_SIZE in *; lia|].
    cbn zeta. rewrite He, Z.shiftl_mul_pow2, <- Z.pow_add_r by (unfold HDF_ENLARGE_FACTOR; lia).
    unfold HDF_ENLARGE_FACTOR.
    destruct (decide (e + 2 <= 26)).
    + rewrite wrapU_id; [|split; [lia|apply Z.pow_lt_mono_r; lia]].
      destruct (MapResize_wf ab m (e + 2) Hwf) as (r & m' & -> & [[-> ->]|(_ & ?)]); [lia| |].
      * cbn [fmap option_fmap option_map snd]. eauto 10.
      * cbn [fmap option_fmap option_map snd]. destruct_and!. eauto 10.
    + assert (e = 25 \/ e = 26) as [-> | ->] by lia; unfold MapResize, SoftBusCalloc;
        match goal with |- context [MAX_MALLOC_SIZE <? ?y] =>
          change (MAX_MALLOC_SIZE <? y) with true end;
        cbn [negb andb fmap option_fmap option_map snd]; eauto 10.
  - destruct Hab as [-> |[? [=] ] ]. rewrite Ha. unfold HDF_MIN_MAP_SIZE.
    destruct (Z.leb_spec 0 (nodeSize m)) as [_|]; [|range].
    cbn zeta. rewrite (proj2 (Z.ltb_lt 0 8)) by lia.
    destruct (MapResize_wf true m 3 Hwf ltac:(lia)) as (r & m' & Hm & Hc).
    change 8 with (2 ^ 3). rewrite Hm. cbn [fmap option_fmap option_map snd]. exists m'. split; [done|].
    destruct Hc as [[-> ->]|(_ & ?)]; [|by destruct_and!].
    unfold MapResize in Hm. rewrite Hn in Hm.
    change (SoftBusCalloc true (2 ^ 3 * POINTER_SIZE)) with true in Hm. by simplify_eq/=.
Qed.

(** Inserting a key that is absent. *)
Lemma setNew_refines ab an m k v vsize : wf m -> (ab = true \/ is_Some (nodes m)) ->
  0 < vsize <= 1000 -> sizeOf v = vsize -> Z.of_nat (length k) <= 1000 ->
  nodeSize m < 2 ^ 32 - 1 -> view m !! k = None ->
  exists m', setNew ab an m k v vsize (MapHash (Some k)) =
      Some (if an then SOFTBUS_OK else SOFTBUS_INVALID_PARAM, m') /\ wf m' /\
    view m' = (if an then <[k := v]> (view m) else view m) /\
    nodeSize m' = (if an then nodeSize m + 1 else nodeSize m).
Proof.
  intros (Hwf & Hs & Hu) Hab Hvs Hv Hkl Hroom Hview. unfold setNew.
  destruct (enlarge_wf ab m) as (m1 & -> & Hwf1 & Hall1 & Hs1 & [bs1 Hn1]); [done|done|].
  cbn [mbind option_bind]. unfold MapCreateNode, SoftBusCalloc.
  rewrite (proj2 (Z.ltb_ge _ _)) by (unfold MAX_MALLOC_SIZE, NODE_HEADER_SIZE, SHIFT_ALIGN_BYTE; cint).
  destruct an; cbn [negb andb].
  - destruct (MapAddNode_wf m1 bs1 (MkNode (MapHash (Some k)) vsize k v) Hwf1 Hn1) as
      (m2 & -> & Hwf2 & Hall2 & Hs2 & Hb2 & Hn2).
    + unfold goodNode. simpl. split_and!; [done|lia|lia].
    + cbn [key]. rewrite Hall1. intros (x & Hkx & Hx)%list_elem_of_fmap.
      eapply eq_None_not_Some; [done|]. exists (value x). apply view_lookup; naive_solver.
    + cbn [mbind option_bind]. eexists. split; [done|].
      assert (u32 (nodeSize m2 + 1) = nodeSize m + 1) as Hw by (rewrite Hs2, Hs1; apply wrapU_id; range).
      rewrite Hw. split_and!.
      * split_and!; [by apply wf_size|unfold allNodes at 1; cbn [nodes nodeSize]; fold (allNodes m2)|cbn [nodeSize]; range].
        rewrite Hall2, Hall1. simpl. lia.
      * match goal with |- view ?x = _ => change (view x) with (view m2) end.
        rewrite (view_cons m2 _ _ Hall2 Hwf2). cbn [key value].
        f_equal. by apply (view_perm m1).
      * done.
  - exists m1. split; [done|]. split; [|by split; [apply view_perm|]].
    split_and!; [done|by rewrite Hall1, Hs1|by rewrite Hs1].
Qed.

Lemma wf_init : wf (MkMap None 0 0).
Proof.
  split_and!; try done.
  - split; [done| |constructor]. intros i b n Hb. simpl in Hb. by rewrite lookup_nil in Hb.
Qed.

(** ** The operations against finite maps *)

(** A map whose node count is zero or whose array is absent is empty. *)
Lemma view_guard m k : wf m -> nodeSize m <= 0 \/ nodes m = None -> view m !! k = None.
Proof.
  intros Hwf H. rewrite view_empty; [apply lookup_empty|done|].
  destruct Hwf as (_ & ? & ?), H; [left; lia|by right].
Qed.

(** [LnnMapSet] as an operation on finite maps. *)
Lemma mapSet_spec ab an m k v :
  wf m -> (ab = true \/ is_Some (nodes m)) ->
  0 < sizeOf v <= 1000 -> Z.of_nat (length k) <= 1000 -> nodeSize m < 2 ^ 32 - 1 ->
  exists r m', LnnMapSet ab an (Some m) (Some k) (Some v) (sizeOf v) = Some (r, Some m') /\
    wf m' /\
    match view m !! k with
    | Some old =>
      if bool_decide (sizeOf old = sizeOf v) then r = SOFTBUS_OK /\ view m' = <[k := v]> (view m)
      else r = SOFTBUS_INVALID_PARAM /\ m' = m
    | None =>
      if an then r = SOFTBUS_OK /\ view m' = <[k := v]> (view m) /\ nodeSize m' = nodeSize m + 1
      else r = SOFTBUS_INVALID_PARAM /\ view m' = view m
    end.
Proof.
  intros Hwf Hab Hv Hk Hroom. unfold LnnMapSet.
  assert (view m !! k = None -> exists r m',
    ('(r, m') ← setNew ab an m k v (sizeOf v) (MapHash (Some k)); Some (r, Some m')) =
      Some (r, Some m') /\ wf m' /\
    if an then r = SOFTBUS_OK /\ view m' = <[k := v]> (view m) /\ nodeSize m' = nodeSize m + 1
    else r = SOFTBUS_INVALID_PARAM /\ view m' = view m) as Hnew.
  { intros Hnone. destruct (setNew_refines ab an m k v (sizeOf v)) as (m' & -> & Hwf' & Hview & Hs);
      try done. eexists _, m'. split; [done|]. split; [done|]. by destruct an. }
  rewrite (proj2 (Z.eqb_neq _ _)), (proj2 (Z.ltb_ge _ _)), (proj2 (Z.ltb_ge _ _))
    by (unfold HDF_MAP_KEY_MAX_SIZE, HDF_MAP_VALUE_MAX_SIZE; lia). cbn [orb].
  destruct (nodes m) as [bs|] eqn:Hn.
  2:{ assert (view m !! k = None) as Hnone by (apply view_guard; auto). rewrite Hnone. by apply Hnew. }
  destruct (Z.ltb_spec 0 (nodeSize m)) as [Hpos|Hz].
  2:{ assert (view m !! k = None) as Hnone by (apply view_guard; auto). rewrite Hnone. by apply Hnew. }
  destruct Hwf as (Hwf & Hs & Hu).
  destruct (bucket_exists m bs (MapHash (Some k)) Hwf Hn) as [b Hb]. rewrite Hb. cbn [mbind option_bind].
  pose proof (chainFind_view m bs b k Hwf Hn Hb) as Hview.
  destruct (chainFind (MapHash (Some k)) k b) as [n|] eqn:Hf; cbn in Hview; rewrite <- Hview; [|by apply Hnew].
  assert (valueSize n = sizeOf (value n)) as Hvs.
  { destruct (found_node m bs b k n Hwf Hn Hb Hf) as (? & ? & ? & ? & ? & ? & ? & ? & (? & ? & ?) & ?). done. }
  rewrite Hvs. destruct (Z.eqb_spec (sizeOf (value n)) (sizeOf v)) as [He|He]; cbn [negb].
  - rewrite bool_decide_true by lia.
    destruct (update_refines m bs b k n v) as [Hwf' Hv']; try done; [lia|]. eauto 10.
  - rewrite bool_decide_false by lia. eexists _, m. by split_and!.
Qed.

(** C23: on a well-formed map, [LnnMapSet] of a key and value within the size
    limits overwrites the value of a present key of the same size, refuses a
    present key of another size, inserts an absent key, and changes nothing
    visible when the node cannot be allocated; in every case the map stays
    well-formed.  Memory for the bucket array is needed only when there is
    none yet. *)
Theorem LnnMapSet_refines ab an m k v :
  wf m -> (ab = true \/ is_Some (nodes m)) ->
  0 < sizeOf v <= 1000 -> Z.of_nat (length k) <= 1000 -> nodeSize m < 2 ^ 32 - 1 ->
  exists r m', LnnMapSet ab an (Some m) (Some k) (Some v) (sizeOf v) = Some (r, Some m') /\
    wf m' /\
    match view m !! k with
    | Some old =>
      if bool_decide (sizeOf old = sizeOf v) then r = SOFTBUS_OK /\ view m' = <[k := v]> (view m)
      else r = SOFTBUS_INVALID_PARAM /\ m' = m
    | None =>
      if an then r = SOFTBUS_OK /\ view m' = <[k := v]> (view m) /\ nodeSize m' = nodeSize m + 1
      else r = SOFTBUS_INVALID_PARAM /\ view m' = view m
    end.
Proof. apply mapSet_spec. Qed.

(** [LnnMapGet] and [LnnMapErase]. *)
Lemma mapGetErase_spec m k : wf m ->
  LnnMapGet (Some m) (Some k) = Some (view m !! k) /\
  exists r m', LnnMapErase (Some m) (Some k) = Some (r, Some m') /\ wf m' /\
    view m' = delete k (view m) /\
    match view m !! k with
    | Some _ => r = SOFTBUS_OK /\ nodeSize m' = nodeSize m - 1
    | None => r <> SOFTBUS_OK /\ m' = m
    end.
Proof.
  intros Hwf. pose proof Hwf as (Hwb & Hs & Hu). unfold LnnMapGet, LnnMapErase.
  assert (nodeSize m <= 0 \/ nodes m = None ->
    Some (@None V) = Some (view m !! k) /\
    exists r m', Some (SOFTBUS_INVALID_PARAM, Some m) = Some (r, Some m') /\ wf m' /\
      view m' = delete k (view m) /\
      match view m !! k with
      | Some _ => r = SOFTBUS_OK /\ nodeSize m' = nodeSize m - 1 | None => r <> SOFTBUS_OK /\ m' = m end)
    as Hguard.
  { intros H. pose proof (view_guard m k Hwf H) as Hnone. rewrite Hnone. split; [done|].
    eexists _, m. split_and!; try done. by rewrite delete_id. }
  destruct (nodes m) as [bs|] eqn:Hn; [|by apply Hguard; right].
  destruct (Z.eqb_spec (nodeSize m) 0) as [Hz|Hpos]; [apply Hguard; left; lia|].
  destruct (bucket_exists m bs (MapHash (Some k)) Hwb Hn) as [b Hb]. rewrite Hb. cbn [mbind option_bind].
  pose proof (chainFind_view m bs b k Hwb Hn Hb) as Hview. rewrite Hview. split; [done|].
  destruct (chainFind (MapHash (Some k)) k b) as [n|] eqn:Hf; cbn in Hview; rewrite <- Hview.
  - destruct (remove_refines m bs b k n) as (Hwf' & Hv' & Hs'); try done.
    eexists _, _. split; [done|]. by split_and!.
  - eexists _, m. split_and!; try done. by rewrite delete_id.
Qed.

(** On a well-formed map, [LnnMapGet] returns the value the finite map has
    for the key, or NULL; [LnnMapErase] deletes a present key and reports
    success, and otherwise leaves the map alone and reports an error; the map
    stays well-formed. *)
Theorem LnnMapGet_Erase_refines m k : wf m ->
  LnnMapGet (Some m) (Some k) = Some (view m !! k) /\
  exists r m', LnnMapErase (Some m) (Some k) = Some (r, Some m') /\ wf m' /\
    view m' = delete k (view m) /\
    match view m !! k with
    | Some _ => r = SOFTBUS_OK /\ nodeSize m' = nodeSize m - 1
    | None => r <> SOFTBUS_OK /\ m' = m
    end.
Proof. apply mapGetErase_spec. Qed.

(** ** Iteration *)

(** The nodes the iterator has still to visit. *)
Definition pending (bs : list (list MapNode)) (it : MapIterator) : list MapNode :=
  tail (node it) ++ concat (drop (Z.to_nat (bucketNum it)) bs).

Lemma seekBucket_step m bs : nodes m = Some bs -> Z.of_nat (length bs) = bucketSize m ->
  forall n it, 0 <= bucketNum it -> (Z.to_nat (bucketSize m - bucketNum it) < n)%nat ->
  concat (drop (Z.to_nat (bucketNum it)) bs) <> [] ->
  exists x c bn, seekBucket n m it = Some (MkIter (x :: c) (nodeNum it + 1) bn) /\ 0 <= bn /\
    concat (drop (Z.to_nat (bucketNum it)) bs) = (x :: c) ++ concat (drop (Z.to_nat bn) bs).
Proof.
  intros Hn Hl. induction n as [|n IH]; intros it Hb Hf Hne; [lia|]. cbn [seekBucket].
  destruct (Z.ltb_spec (bucketNum it) (bucketSize m)) as [Hlt|].
  2:{ exfalso. apply Hne. rewrite drop_ge by lia. done. }
  rewrite Hn. cbn [mbind option_bind].
  destruct (lookup_lt_is_Some_2 bs (Z.to_nat (bucketNum it))) as [b Hbk]; [lia|].
  rewrite Hbk. cbn [mbind option_bind]. rewrite (drop_S _ _ _ Hbk) in Hne |- *. cbn [concat] in Hne |- *.
  assert (Z.to_nat (bucketNum it + 1) = S (Z.to_nat (bucketNum it))) as HS by lia.
  destruct b as [|x c].
  - destruct (IH (MkIter (node it) (nodeNum it) (bucketNum it + 1))) as (x & c & bn & Hs & Hbn & Hc);
      cbn [bucketNum nodeNum node] in *; [lia|lia|by rewrite HS|].
    exists x, c, bn. rewrite <- HS. by split_and!.
  - exists x, c, (bucketNum it + 1). rewrite HS. split_and!; [done|lia|done].
Qed.

(** One step goes to the first pending node. *)
Lemma LnnMapNext_step m bs it x xs : nodes m = Some bs -> Z.of_nat (length bs) = bucketSize m ->
  0 <= bucketNum it -> LnnMapHasNext m it = true -> pending bs it = x :: xs ->
  exists c bn, LnnMapNext m it = Some (MkIter (x :: c) (nodeNum it + 1) bn) /\ 0 <= bn /\
    pending bs (MkIter (x :: c) (nodeNum it + 1) bn) = xs.
Proof.
  intros Hn Hl Hb Hhas Hp. unfold LnnMapNext. rewrite Hhas. unfold pending in *. cbn [node bucketNum].
  assert (tail (node it) = [] -> exists c bn,
    seekBucket (S (Z.to_nat (bucketSize m - bucketNum it))) m it =
      Some (MkIter (x :: c) (nodeNum it + 1) bn) /\ 0 <= bn /\
    c ++ concat (drop (Z.to_nat bn) bs) = xs) as Hseek.
  { intros Ht. rewrite Ht in Hp. cbn [app] in Hp.
    destruct (seekBucket_step m bs Hn Hl (S (Z.to_nat (bucketSize m - bucketNum it))) it)
      as (y & c & bn & Hs & Hbn & Hc); [lia|lia|by rewrite Hp|].
    rewrite Hp in Hc. simplify_eq/=. eauto. }
  destruct (node it) as [|y [|z c]]; cbn [tail] in *; [by apply Hseek|by apply Hseek|].
  cbn [app] in Hp. simplify_eq. exists c, (bucketNum it). by split_and!.
Qed.

Lemma iterate_pending m bs : nodes m = Some bs -> Z.of_nat (length bs) = bucketSize m ->
  forall n it, 0 <= bucketNum it -> length (pending bs it) = n ->
  nodeNum it + Z.of_nat n = nodeSize m ->
  exists it', iterate n m it = Some (pending bs it, it') /\ LnnMapHasNext m it' = false.
Proof.
  intros Hn Hl. induction n as [|n IH]; intros it Hb Hlen Hsz; cbn [iterate].
  - unfold LnnMapHasNext. destruct (Z.ltb_spec (nodeNum it) (nodeSize m)) as [|Hge]; [lia|].
    apply nil_length_inv in Hlen. rewrite Hlen. exists it. split; [done|]. by apply Z.ltb_ge.
  - destruct (pending bs it) as [|x xs] eqn:Hp; [done|].
    assert (LnnMapHasNext m it = true) as Hhas by (apply Z.ltb_lt; lia). rewrite Hhas.
    destruct (LnnMapNext_step m bs it x xs Hn Hl Hb Hhas Hp) as (c & bn & -> & Hbn & Hp').
    cbn [mbind option_bind node head].
    destruct (IH (MkIter (x :: c) (nodeNum it + 1) bn)) as (it' & Hit & Hend);
      cbn [bucketNum nodeNum] in *; [done|rewrite Hp'; cbn [length] in Hlen; lia|lia|].
    rewrite Hit, Hp'. cbn [mbind option_bind]. eauto.
Qed.

(** The iteration of the clients over a well-formed map, started by
    [LnnMapInitIterator], terminates after as many steps as the map has
    nodes, without a NULL access, visits every entry exactly once, and ends
    with [LnnMapHasNext] false. *)
Theorem LnnMap_iteration m it : wf m -> LnnMapInitIterator true (Some m) = Some it ->
  exists xs it', iterate (Z.to_nat (nodeSize m)) m it = Some (xs, it') /\
    LnnMapHasNext m it' = false /\ NoDup (key <$> xs) /\
    list_to_map (entry <$> xs) = view m /\ Z.of_nat (length xs) = MapGetSize (Some m).
Proof.
  intros (Hwf & Hs & Hu) Hi. unfold LnnMapInitIterator in Hi.
  change (SoftBusCalloc true 32) with true in Hi. simplify_eq/=.
  pose proof (wf_array m Hwf) as Ha. pose proof (wf_keys m Hwf) as Hnd.
  exists (allNodes m). cbn [MapGetSize]. destruct (nodes m) as [bs|] eqn:Hn.
  - destruct Ha as [Hl _].
    assert (pending bs (MkIter [] 0 0) = allNodes m) as Hp by (unfold pending, allNodes; by rewrite Hn).
    destruct (iterate_pending m bs Hn Hl (Z.to_nat (nodeSize m)) (MkIter [] 0 0)) as (it' & Hit & Hend);
      [done|rewrite Hp; lia|simpl; range|].
    exists it'. rewrite <- Hp at 1. by split_and!.
  - assert (allNodes m = []) as H0 by (unfold allNodes; by rewrite Hn).
    rewrite H0 in *. simpl in Hs. rewrite Hs. exists (MkIter [] 0 0). simpl.
    unfold LnnMapHasNext. rewrite Hs. split_and!; try done. unfold view. by rewrite H0.
Qed.

(** The loop with an exit, over a list. *)
Fixpoint listLoop {A} (stop : A -> bool) (f : A -> MapNode -> A) (l : list MapNode) (acc : A) : A :=
  match l with
  | [] => acc
  | x :: l' => if stop acc then acc else listLoop stop f l' (f acc x)
  end.

Lemma mapLoop_pending {A} (stop : A -> bool) f m bs : nodes m = Some bs -> Z.of_nat (length bs) = bucketSize m ->
  forall n it acc, 0 <= bucketNum it -> length (pending bs it) = n -> nodeNum it + Z.of_nat n = nodeSize m ->
  mapLoop n stop f m it acc = Some (listLoop stop f (pending bs it) acc).
Proof.
  intros Hn Hl. induction n as [|n IH]; intros it acc Hb Hlen Hsz; cbn [mapLoop].
  - apply nil_length_inv in Hlen. rewrite Hlen. unfold LnnMapHasNext. rewrite (proj2 (Z.ltb_ge _ _)) by lia. done.
  - destruct (pending bs it) as [|x xs] eqn:Hp; [done|]. cbn [listLoop].
    assert (LnnMapHasNext m it = true) as Hhas by (apply Z.ltb_lt; lia). rewrite Hhas. cbn [andb].
    destruct (stop acc); [done|]. cbn [negb].
    destruct (LnnMapNext_step m bs it x xs Hn Hl Hb Hhas Hp) as (c & bn & -> & Hbn & Hp').
    cbn [mbind option_bind node head].
    rewrite IH; cbn [bucketNum nodeNum] in *; [by rewrite Hp'|done|rewrite Hp'; cbn [length] in Hlen; lia|lia].
Qed.

(** A client's loop goes through the entries, each once. *)
Lemma mapLoop_spec {A} (stop : A -> bool) f m acc : wf m ->
  mapLoop (Z.to_nat (nodeSize m)) stop f m (MkIter [] 0 0) acc = Some (listLoop stop f (allNodes m) acc).
Proof.
  intros (Hwf & Hs & Hu). pose proof (wf_array m Hwf) as Ha. destruct (nodes m) as [bs|] eqn:Hn.
  - destruct Ha as [Hl _].
    assert (pending bs (MkIter [] 0 0) = allNodes m) as Hp by (unfold pending, allNodes; by rewrite Hn).
    rewrite <- Hp. apply mapLoop_pending; [done|done|done|rewrite Hp; lia|cbn [nodeNum]; range].
  - assert (allNodes m = []) as H0 by (unfold allNodes; by rewrite Hn). rewrite H0 in *. cbn [length] in Hs. rewrite Hs.
    change (Z.to_nat (Z.of_nat 0)) with O. cbn [mapLoop listLoop]. unfold LnnMapHasNext. by rewrite (proj2 (Z.ltb_ge _ _)) by (cbn [nodeNum]; lia).
Qed.

(** The entries of the finite map are those of the nodes. *)
Lemma view_entries m : wf m -> map_to_list (view m) ≡ₚ entry <$> allNodes m.
Proof.
  intros (Hwf & _ & _). unfold view. apply map_to_list_to_map. rewrite <- list_fmap_compose. apply (wf_keys m Hwf).
Qed.

Lemma nodeSize_view m : wf m -> nodeSize m = Z.of_nat (size (view m)).
Proof.
  intros Hwf. pose proof (view_entries m Hwf) as Hp. destruct Hwf as (_ & -> & _).
  rewrite <- length_map_to_list, Hp, length_fmap. done.
Qed.

Lemma writeValue_spec m k v old : wf m -> view m !! k = Some old -> sizeOf v = sizeOf old ->
  exists m', writeValue m k v = Some m' /\ wf m' /\ view m' = <[k := v]> (view m) /\ nodeSize m' = nodeSize m.
Proof.
  intros Hwf Hv Hsz. pose proof Hwf as (Hwb & Hs & Hu). unfold writeValue. destruct (nodes m) as [bs|] eqn:Hn.
  2:{ rewrite view_guard in Hv by auto. done. }
  cbn [mbind option_bind]. destruct (bucket_exists m bs (MapHash (Some k)) Hwb Hn) as [b Hb]. rewrite Hb. cbn [mbind option_bind].
  pose proof (chainFind_view m bs b k Hwb Hn Hb) as Hview. rewrite Hv in Hview.
  destruct (chainFind (MapHash (Some k)) k b) as [n|] eqn:Hf; [|done]. cbn in Hview. injection Hview as <-.
  destruct (found_node m bs b k n Hwb Hn Hb Hf) as (? & ? & ? & ? & ? & ? & ? & ? & (? & Hg & ?) & ?).
  destruct (update_refines m bs b k n v Hwf Hn Hb Hf) as [Hwf' Hv']; [lia|]. eexists. split; [done|]. by split_and!.
Qed.

(** The first insertion into a map needs memory for the bucket array:
    when that allocation fails, [LnnMapSet], which ignores the result of
    [MapResize], writes through the NULL array. *)
Theorem LnnMapSet_first_insert_oom k v :
  0 < sizeOf v <= 1000 -> Z.of_nat (length k) <= 1000 ->
  LnnMapSet false true (LnnMapInit (Some (MkMap None 0 0))) (Some k) (Some v)
    (sizeOf v) = None.
Proof.
  intros Hv Hk. unfold LnnMapSet, LnnMapInit.
  rewrite (proj2 (Z.eqb_neq _ _)), (proj2 (Z.ltb_ge _ _)), (proj2 (Z.ltb_ge _ _))
    by (unfold HDF_MAP_KEY_MAX_SIZE, HDF_MAP_VALUE_MAX_SIZE; lia).
  cbn [orb nodes]. unfold setNew. change (enlarge false _) with (Some (MkMap None 0 0)).
  cbn [mbind option_bind]. unfold MapCreateNode, SoftBusCalloc.
  rewrite (proj2 (Z.ltb_ge _ _)) by (unfold MAX_MALLOC_SIZE, NODE_HEADER_SIZE, SHIFT_ALIGN_BYTE; cint).
  done.
Qed.

End Map.

#[global] Arguments MapNode : clear implicits.
#[global] Arguments Map : clear implicits.
#[global] Arguments MapIterator : clear implicits.

(** ** Witnesses: values that are bytes *)

Definition lenOf (v : bytes) : Z := Z.of_nat (length v).

Definition emptyMap : Map bytes := MkMap None 0 0.

Lemma LnnMapSet_refines_witness :
  exists r m', LnnMapSet true true (Some emptyMap) (Some [97; 98]) (Some [7])
      (lenOf [7]) = Some (r, Some m') /\
    wf lenOf m' /\
    match view emptyMap !! [97; 98] with
    | Some old =>
      if bool_decide (lenOf old = lenOf [7]) then
        r = SOFTBUS_OK /\ view m' = <[[97; 98] := [7]]> (view emptyMap)
      else r = SOFTBUS_INVALID_PARAM /\ m' = emptyMap
    | None => r = SOFTBUS_OK /\ view m' = <[[97; 98] := [7]]> (view emptyMap) /\
        nodeSize m' = nodeSize emptyMap + 1
    end.
Proof.
  apply (LnnMapSet_refines lenOf true true emptyMap [97; 98] [7]).
  - apply wf_init.
  - by left.
  - unfold lenOf; simpl; lia.
  - unfold lenOf; simpl; lia.
  - unfold lenOf; simpl; lia.
Defined.

(** The map that holds the value [[7]] under the key ["a"]. *)
Definition oneEntry : Map bytes :=
  MkMap (Some ([] :: [MkNode 97 1 [97] [7]] :: replicate 6 [])) 1 8.

Lemma wf_oneEntry : wf lenOf oneEntry.
Proof.
  destruct (setNew_refines lenOf true true emptyMap [97] [7] 1) as (m' & E & Hwf & _);
    [apply wf_init|by left|unfold lenOf; simpl; lia..|done|].
  vm_compute in E. simplify_eq. done.
Qed.

Lemma LnnMapGet_Erase_refines_witness :
  LnnMapGet (Some oneEntry) (Some [97]) = Some (view oneEntry !! [97]) /\
  view oneEntry !! [97] = Some [7].
Proof. split; [apply (LnnMapGet_Erase_refines lenOf oneEntry [97]); apply wf_oneEntry|reflexivity]. Defined.

Lemma LnnMap_iteration_witness :
  exists xs it', iterate (Z.to_nat (nodeSize oneEntry)) oneEntry (MkIter [] 0 0) = Some (xs, it') /\
    LnnMapHasNext oneEntry it' = false /\ NoDup (key <$> xs) /\
    list_to_map (entry <$> xs) = view oneEntry /\
    Z.of_nat (length xs) = MapGetSize (Some oneEntry).
Proof. apply (LnnMap_iteration lenOf oneEntry (MkIter [] 0 0)); [apply wf_oneEntry|reflexivity]. Defined.

Lemma LnnMapSet_first_insert_oom_witness :
  LnnMapSet false true (LnnMapInit (Some emptyMap)) (Some [97]) (Some [7])
    (lenOf [7]) = None.
Proof. apply (LnnMapSet_first_insert_oom lenOf [97] [7]); unfold lenOf; simpl; lia. Defined.

End LnnMap.
