(* ===== verification/Queue.v ===== *)
(** * The lock-free ring queue

    Models [core/common/queue/softbus_queue.c] and the inline operations of
    [core/common/include/softbus_queue.h].  Head and tail counters run freely
    in [uint32_t]; a slot index is a counter masked by [unitNum - 1].

    The thread-unsafe operations are functions on the queue.  The
    thread-safe ones are programs of one shared access per [step], and a
    schedule interleaves any number of them; the memory barriers of the code
    are what makes the accesses of a thread take effect in program order.
    [None] is an access outside the slots. *)

From S2P Require Import Prelude.

Module Queue.

Definition QUEUE_INVAL : Z := -10.
Definition QUEUE_FULL : Z := -9.
Definition QUEUE_EMPTY : Z := -8.

Record LockFreeQueue := MkQueue {
  magic : Z; unitNum : Z;
  producer_size : Z; producer_mask : Z; producer_head : Z; producer_tail : Z;
  consumer_size : Z; consumer_mask : Z; consumer_head : Z; consumer_tail : Z;
  slots : list Z
}.

Definition set_producer_head (q : LockFreeQueue) (x : Z) : LockFreeQueue :=
  MkQueue (magic q) (unitNum q) (producer_size q) (producer_mask q) x (producer_tail q)
    (consumer_size q) (consumer_mask q) (consumer_head q) (consumer_tail q) (slots q).
Definition set_producer_tail (q : LockFreeQueue) (x : Z) : LockFreeQueue :=
  MkQueue (magic q) (unitNum q) (producer_size q) (producer_mask q) (producer_head q) x
    (consumer_size q) (consumer_mask q) (consumer_head q) (consumer_tail q) (slots q).
Definition set_consumer_head (q : LockFreeQueue) (x : Z) : LockFreeQueue :=
  MkQueue (magic q) (unitNum q) (producer_size q) (producer_mask q) (producer_head q)
    (producer_tail q) (consumer_size q) (consumer_mask q) x (consumer_tail q) (slots q).
Definition set_consumer_tail (q : LockFreeQueue) (x : Z) : LockFreeQueue :=
  MkQueue (magic q) (unitNum q) (producer_size q) (producer_mask q) (producer_head q)
    (producer_tail q) (consumer_size q) (consumer_mask q) (consumer_head q) x (slots q).
Definition set_slots (q : LockFreeQueue) (s : list Z) : LockFreeQueue :=
  MkQueue (magic q) (unitNum q) (producer_size q) (producer_mask q) (producer_head q)
    (producer_tail q) (consumer_size q) (consumer_mask q) (consumer_head q) (consumer_tail q) s.

(** [queue->nodes[i]] as an lvalue and as a value. *)
Definition store (q : LockFreeQueue) (i : Z) (node : Z) : option LockFreeQueue :=
  _ ← slots q !! Z.to_nat i; Some (set_slots q (<[Z.to_nat i := node]> (slots q))).
Definition load (q : LockFreeQueue) (i : Z) : option Z := slots q !! Z.to_nat i.

Definition IS_POWER_OF_2 (x : Z) : bool := Z.land (u32 (x - 1)) x =? 0.
Definition QUEUE_HEADER_MAGIC : Z := 3437092300.
Definition QUEUE_SIZE_MAX : Z := 8192.
Definition CACHE_LINE_SIZE : Z := 64.
(** [sizeof(LockFreeQueue)] and [sizeof(uintptr_t)] on a 64-bit target. *)
Definition QUEUE_HEADER_SIZE : Z := 192.
Definition UINTPTR_SIZE : Z := 8.

Definition QueueInit (oq : option LockFreeQueue) (num : Z) : Z * option LockFreeQueue :=
  match oq with
  | None => (QUEUE_INVAL, None)
  | Some q =>
    if negb (IS_POWER_OF_2 num) then (QUEUE_INVAL, oq)
    else (0, Some (MkQueue QUEUE_HEADER_MAGIC num num (u32 (num - 1)) 0 0
                     num (u32 (num - 1)) 0 0 (slots q)))
  end.

(** The flag says that [queueSize] is NULL; [inl] is what is stored there,
    [inr] an error. *)
Definition QueueSizeCalc (num : Z) (queueSizeNull : bool) : Z + Z :=
  if queueSizeNull then inr QUEUE_INVAL
  else if QUEUE_SIZE_MAX <? num then inr QUEUE_INVAL
  else
    let size := u32 (UINTPTR_SIZE * num + QUEUE_HEADER_SIZE) in
    inl (Z.land (u32 (size + CACHE_LINE_SIZE - 1)) (u32 (Z.lnot (CACHE_LINE_SIZE - 1)))).

Definition QueueCountGet (oq : option LockFreeQueue) (countNull : bool) : Z + Z :=
  match oq with
  | None => inr QUEUE_INVAL
  | Some q =>
    if countNull then inr QUEUE_INVAL
    else inl (Z.land (u32 (producer_tail q - consumer_tail q)) (producer_mask q))
  end.

(** [SoftBusCalloc] gives zeroed memory; the slots are what the block holds
    after the header. *)
Definition CreateQueue (avail : bool) (num : Z) : option LockFreeQueue :=
  if negb (IS_POWER_OF_2 num) then None
  else match QueueSizeCalc num false with
  | inr _ => None
  | inl queueSize =>
    if negb avail then None
    else
      let block := MkQueue 0 0 0 0 0 0 0 0 0 0
        (replicate (Z.to_nat ((queueSize - QUEUE_HEADER_SIZE) / UINTPTR_SIZE)) 0) in
      let '(ret, q) := QueueInit (Some block) num in
      if negb (ret =? 0) then None else q
  end.

Definition QueueIsEmpty (oq : option LockFreeQueue) : Z :=
  match oq with
  | None => QUEUE_INVAL
  | Some q =>
    if Z.land (u32 (producer_tail q - consumer_tail q)) (producer_mask q) =? 0 then 0 else -1
  end.

(** ** Thread-unsafe operations *)

(** [None] for the queue and [0] for the node are NULL. *)
Definition QueueSingleProducerEnqueue (oq : option LockFreeQueue) (node : Z)
  : option (Z * option LockFreeQueue) :=
  match oq with
  | None => Some (QUEUE_INVAL, oq)
  | Some q =>
    if node =? 0 then Some (QUEUE_INVAL, oq)
    else
      let mask := producer_mask q in
      let producerHead := producer_head q in
      let consumerTail := consumer_tail q in
      let availableCount := u32 (u32 (mask + consumerTail) - producerHead) in
      if availableCount <? 1 then Some (QUEUE_FULL, oq)
      else (
        let producerNext := u32 (producerHead + 1) in
        let q1 := set_producer_head q producerNext in
        q2 ← store q1 (Z.land producerHead mask) node;
        Some (0, Some (set_producer_tail q2 producerNext)))
  end.

(** The result carries what [*node] holds afterwards. *)
Definition QueueSingleConsumerDequeue (oq : option LockFreeQueue) (nodeNull : bool) (node : Z)
  : option (Z * Z * option LockFreeQueue) :=
  match oq with
  | None => Some (QUEUE_INVAL, node, oq)
  | Some q =>
    if nodeNull then Some (QUEUE_INVAL, node, oq)
    else
      let mask := producer_mask q in
      let consumerHead := consumer_head q in
      let producerTail := producer_tail q in
      let availableCount := u32 (producerTail - consumerHead) in
      if availableCount <? 1 then Some (QUEUE_EMPTY, node, oq)
      else (
        let consumerNext := u32 (consumerHead + 1) in
        let q1 := set_consumer_head q consumerNext in
        v ← load q1 (Z.land consumerHead mask);
        Some (0, v, Some (set_consumer_tail q1 consumerNext)))
  end.

(** ** Thread-safe operations

    The program counter of a thread in [QueueMultiProducerEnqueue] (the [P]
    constructors) or [QueueMultiConsumerDequeue] (the [C] constructors),
    named after the shared access that comes next, with the values of the
    locals that are still used. *)
Inductive PC :=
| PReadHead (node : Z)                  (* producerHead = queue->producer.head *)
| PReadConsumerTail (node head : Z)     (* consumerTail = queue->consumer.tail *)
| PCompareAndSwap (node head : Z)       (* SoftBusAtomicCmpAndSwap32 *)
| PStoreNode (node head : Z)            (* queue->nodes[...] = node *)
| PWaitTurn (head : Z)                  (* while (queue->producer.tail != producerHead) *)
| PReadTail (head : Z)                  (* the read of queue->producer.tail += 1 *)
| PWriteTail (tail : Z)                 (* and its write *)
| PDone (ret : Z)
| CReadHead
| CReadProducerTail (head : Z)
| CCompareAndSwap (head : Z)
| CLoadNode (head : Z)
| CWaitTurn (head v : Z)
| CReadTail (head v : Z)
| CWriteTail (tail v : Z)
| CDone (ret v : Z).

(** A successful compare-and-swap, the point where an operation takes effect. *)
Inductive Event := EvEnqueue (node : Z) | EvDequeue.

(** The state of the call before its first shared access. *)
Definition QueueMultiProducerEnqueue (node : Z) : PC :=
  if node =? 0 then PDone QUEUE_INVAL else PReadHead node.
Definition QueueMultiConsumerDequeue : PC := CReadHead.

Definition SoftBusAtomicCmpAndSwap32 (cur old new : Z) : bool * Z :=
  if cur =? old then (true, new) else (false, cur).

Definition step (q : LockFreeQueue) (pc : PC) : option (LockFreeQueue * PC * option Event) :=
  let mask := producer_mask q in
  match pc with
  | PReadHead node => Some (q, PReadConsumerTail node (producer_head q), None)
  | PReadConsumerTail node head =>
    let availableCount := u32 (u32 (mask + consumer_tail q) - head) in
    if availableCount <? 1 then Some (q, PDone QUEUE_FULL, None)
    else Some (q, PCompareAndSwap node head, None)
  | PCompareAndSwap node head =>
    let '(success, h) := SoftBusAtomicCmpAndSwap32 (producer_head q) head (u32 (head + 1)) in
    let q' := set_producer_head q h in
    if success then Some (q', PStoreNode node head, Some (EvEnqueue node))
    else Some (q', PReadHead node, None)
  | PStoreNode node head =>
    q' ← store q (Z.land head mask) node; Some (q', PWaitTurn head, None)
  | PWaitTurn head =>
    if negb (producer_tail q =? head) then Some (q, PWaitTurn head, None)
    else Some (q, PReadTail head, None)
  | PReadTail head => Some (q, PWriteTail (producer_tail q), None)
  | PWriteTail tail => Some (set_producer_tail q (u32 (tail + 1)), PDone 0, None)
  | PDone ret => Some (q, PDone ret, None)
  | CReadHead => Some (q, CReadProducerTail (consumer_head q), None)
  | CReadProducerTail head =>
    let availableCount := u32 (producer_tail q - head) in
    if availableCount <? 1 then Some (q, CDone QUEUE_EMPTY 0, None)
    else Some (q, CCompareAndSwap head, None)
  | CCompareAndSwap head =>
    let '(success, h) := SoftBusAtomicCmpAndSwap32 (consumer_head q) head (u32 (head + 1)) in
    let q' := set_consumer_head q h in
    if success then Some (q', CLoadNode head, Some EvDequeue)
    else Some (q', CReadHead, None)
  | CLoadNode head => v ← load q (Z.land head mask); Some (q, CWaitTurn head v, None)
  | CWaitTurn head v =>
    if negb (consumer_tail q =? head) then Some (q, CWaitTurn head v, None)
    else Some (q, CReadTail head v, None)
  | CReadTail head v => Some (q, CWriteTail (consumer_tail q) v, None)
  | CWriteTail tail v => Some (set_consumer_tail q (u32 (tail + 1)), CDone 0 v, None)
  | CDone ret v => Some (q, CDone ret v, None)
  end.

(** Any number of calls in progress, and the events so far with the thread
    each belongs to. *)
Record Config := MkConfig { queue : LockFreeQueue; threads : list PC; events : list (nat * Event) }.

Definition configStep (c : Config) (i : nat) : option Config :=
  match threads c !! i with
  | None => Some c
  | Some pc =>
    '(q', pc', ev) ← step (queue c) pc;
    Some (MkConfig q' (<[i := pc']> (threads c))
            (events c ++ match ev with None => [] | Some e => [(i, e)] end))
  end.

Fixpoint run (sched : list nat) (c : Config) : option Config :=
  match sched with
  | [] => Some c
  | i :: rest => c' ← configStep c i; run rest c'
  end.

(** ** The specification: a bounded FIFO queue

    [replay] performs the operations of an event list, one after the other,
    on a sequence of at most [cap] elements; the result is the final sequence
    and what each dequeue returned, with the thread it belongs to. *)
Fixpoint replay (cap : Z) (evs : list (nat * Event)) (st : list Z * list (nat * Z))
  : option (list Z * list (nat * Z)) :=
  match evs with
  | [] => Some st
  | (i, EvEnqueue node) :: rest =>
    if Z.of_nat (length (fst st)) <? cap then replay cap rest (fst st ++ [node], snd st) else None
  | (i, EvDequeue) :: rest =>
    match fst st with
    | [] => None
    | v :: tl => replay cap rest (tl, snd st ++ [(i, v)])
    end
  end.

Ltac qfields := cbn [magic unitNum producer_size producer_mask producer_head producer_tail
  consumer_size consumer_mask consumer_head consumer_tail slots set_producer_head
  set_producer_tail set_consumer_head set_consumer_tail set_slots] in *.

(** ** Counters and slot indices *)

Definition idx (k x : Z) : nat := Z.to_nat (x mod 2 ^ k).

Lemma land_idx k x : 0 <= k <= 32 -> Z.to_nat (Z.land (u32 x) (2 ^ k - 1)) = idx k x.
Proof.
  intros Hk. unfold idx. f_equal.
  replace (2 ^ k - 1) with (Z.ones k) by (rewrite Z.ones_equiv; lia).
  rewrite Z.land_ones by lia. unfold wrapU. symmetry. apply Znumtheory.Zmod_div_mod; try lia.
  exists (2 ^ (32 - k)). rewrite <- Z.pow_add_r by lia. f_equal. lia.
Qed.

Lemma idx_lt k x n : 0 <= k -> 2 ^ k <= Z.of_nat n -> (idx k x < n)%nat.
Proof. intros. unfold idx. pose proof (Z.mod_pos_bound x (2 ^ k)). lia. Qed.

(** Counters less than the size apart are at different slots. *)
Lemma idx_ne k x y : 0 <= k -> x <> y -> - 2 ^ k < y - x < 2 ^ k -> idx k x <> idx k y.
Proof.
  intros Hk Hne Hd E. unfold idx in E.
  assert (x mod 2 ^ k = y mod 2 ^ k) as Hm.
  { pose proof (Z.mod_pos_bound x (2 ^ k)). pose proof (Z.mod_pos_bound y (2 ^ k)). lia. }
  assert ((y - x) mod 2 ^ k = 0) as H0.
  { rewrite Zminus_mod, Hm, Z.sub_diag. apply Z.mod_0_l. lia. }
  apply Z.mod_divide in H0 as [d Hd']; [|lia]. assert (d = 0) by nia. nia.
Qed.

(** The 32-bit counters of nearby positions differ. *)
Lemma counter_inj c x y : - 2 ^ 32 < y - x < 2 ^ 32 -> u32 (c + x) = u32 (c + y) -> x = y.
Proof. cint. Qed.

Lemma counter_succ c x : u32 (u32 (c + x) + 1) = u32 (c + (x + 1)).
Proof. rewrite wrapU_add_l. f_equal. lia. Qed.

(** The producer's test, and the consumer's, on counters in range. *)
Lemma producer_room c mask h t : 0 <= mask + t - h < 2 ^ 32 ->
  u32 (u32 (mask + u32 (c + t)) - u32 (c + h)) = mask + t - h.
Proof. intros. cint. Qed.

Lemma consumer_avail c h t : 0 <= t - h < 2 ^ 32 -> u32 (u32 (c + t) - u32 (c + h)) = t - h.
Proof. intros. cint. Qed.

(** ** One thread *)

(** A queue of size [2 ^ k] at rest holding [l], whose consumer counters
    stand at [c]. *)
Record holds (k c : Z) (q : LockFreeQueue) (l : list Z) : Prop := {
  h_size : 0 <= k <= 13;
  h_mask : producer_mask q = 2 ^ k - 1;
  h_phead : producer_head q = u32 (c + Z.of_nat (length l));
  h_ptail : producer_tail q = u32 (c + Z.of_nat (length l));
  h_chead : consumer_head q = u32 (c + 0);
  h_ctail : consumer_tail q = u32 (c + 0);
  h_len : Z.of_nat (length l) <= 2 ^ k - 1;
  h_slots : 2 ^ k <= Z.of_nat (length (slots q));
  h_nodes : forall i x, l !! i = Some x -> slots q !! idx k (c + Z.of_nat i) = Some x
}.

Lemma size_bound k : 0 <= k <= 13 -> 1 <= 2 ^ k <= 8192.
Proof.
  intros. split; [pose proof (Z.pow_pos_nonneg 2 k); lia|].
  change 8192 with (2 ^ 13). apply Z.pow_le_mono_r; lia.
Qed.

Lemma store_idx q k x n : 0 <= k <= 32 -> 2 ^ k <= Z.of_nat (length (slots q)) ->
  store q (Z.land (u32 x) (2 ^ k - 1)) n = Some (set_slots q (<[idx k x := n]> (slots q))).
Proof.
  intros Hk Hl. unfold store. rewrite land_idx by done.
  destruct (lookup_lt_is_Some_2 (slots q) (idx k x)) as [y Hy]; [by apply idx_lt; [lia|]|].
  rewrite Hy. done.
Qed.

Lemma enqueue_holds k c q l n : holds k c q l -> n <> 0 ->
  QueueSingleProducerEnqueue (Some q) n =
    (if Z.of_nat (length l) <? 2 ^ k - 1 then
      Some (0, Some (set_producer_tail (set_slots (set_producer_head q
        (u32 (c + (Z.of_nat (length l) + 1)))) (<[idx k (c + Z.of_nat (length l)) := n]> (slots q)))
        (u32 (c + (Z.of_nat (length l) + 1)))))
     else Some (QUEUE_FULL, Some q)).
Proof.
  intros H Hn. destruct H as [Hk Hm Hph Hpt Hch Hct Hl Hs Hno]. pose proof (size_bound k Hk).
  unfold QueueSingleProducerEnqueue. rewrite (proj2 (Z.eqb_neq n 0)) by done. cbn zeta.
  rewrite Hm, Hct, Hph, producer_room by lia.
  destruct (Z.ltb_spec (2 ^ k - 1 + 0 - Z.of_nat (length l)) 1), (Z.ltb_spec (Z.of_nat (length l)) (2 ^ k - 1));
    try lia; [done|].
  rewrite store_idx by (simpl; lia). cbn [mbind option_bind]. rewrite counter_succ. done.
Qed.

(** The thread-unsafe operations and the queries on a queue at rest. *)
Lemma fifo_holds k c q l n old :
  holds k c q l -> n <> 0 ->
  (exists q' r, QueueSingleProducerEnqueue (Some q) n = Some (r, Some q') /\
    if Z.of_nat (length l) <? 2 ^ k - 1 then r = 0 /\ holds k c q' (l ++ [n])
    else r = QUEUE_FULL /\ q' = q) /\
  (exists q' r v, QueueSingleConsumerDequeue (Some q) false old = Some (r, v, Some q') /\
    match l with
    | [] => r = QUEUE_EMPTY /\ v = old /\ q' = q
    | x :: tl => r = 0 /\ v = x /\ holds k (c + 1) q' tl
    end) /\
  QueueCountGet (Some q) false = inl (Z.of_nat (length l)) /\
  (QueueIsEmpty (Some q) = 0 <-> l = []).
Proof.
  intros H Hn. pose proof (size_bound k (h_size _ _ _ _ H)) as Hsz.
  assert (Z.land (u32 (producer_tail q - consumer_tail q)) (producer_mask q) = Z.of_nat (length l)) as Hcount.
  { destruct H as [Hk Hm Hph Hpt Hch Hct Hl Hs Hno]. rewrite Hpt, Hct, Hm, consumer_avail by lia.
    replace (2 ^ k - 1) with (Z.ones k) by (rewrite Z.ones_equiv; lia).
    rewrite Z.land_ones, Z.sub_0_r by lia. apply Z.mod_small. lia. }
  split_and!.
  - rewrite (enqueue_holds k c q l n H Hn).
    destruct (Z.ltb_spec (Z.of_nat (length l)) (2 ^ k - 1)); [|by eauto].
    eexists _, _. split; [done|]. split; [done|].
    destruct H as [Hk Hm Hph Hpt Hch Hct Hl Hs Hno].
    split; qfields; rewrite ?length_app, ?length_insert; cbn [length]; try done; try lia; try (f_equal; lia).
    intros i x Hi. apply lookup_snoc_Some in Hi as [[Hlt Hi]|[-> ->]].
    + rewrite list_lookup_insert_ne; [by apply Hno|]. apply idx_ne; lia.
    + apply list_lookup_insert_eq. apply idx_lt; lia.
  - destruct H as [Hk Hm Hph Hpt Hch Hct Hl Hs Hno]. unfold QueueSingleConsumerDequeue. cbn zeta.
    rewrite Hpt, Hch, consumer_avail by lia. destruct l as [|x tl]; [by eauto 10|].
    destruct (Z.ltb_spec (Z.of_nat (length (x :: tl)) - 0) 1) as [Hb|]; [cbn [length] in Hb; lia|].
    unfold load. rewrite Hm, land_idx by lia.
    change (slots (set_consumer_head _ _)) with (slots q). 
    rewrite (Hno 0%nat x eq_refl : slots q !! idx k (c + 0) = Some x).
    cbn [mbind option_bind]. eexists _, _, _. split; [done|]. split; [done|]. split; [done|].
    cbn [length] in *.
    split; qfields; try done; rewrite ?counter_succ; try lia; rewrite ?Hph, ?Hpt; try (f_equal; lia).
    intros i y Hi. replace (c + 1 + Z.of_nat i) with (c + Z.of_nat (S i)) by lia. by apply Hno.
  - unfold QueueCountGet. by rewrite Hcount.
  - unfold QueueIsEmpty. rewrite Hcount. destruct l; simpl; split; done.
Qed.

(** On a queue at rest, the thread-unsafe operations and the queries
    implement a FIFO queue of capacity [unitNum - 1] wherever the 32-bit
    counters stand: enqueue appends or reports full, dequeue takes the oldest
    element or reports empty, the count is the number of elements, and no
    access leaves the slots. *)
Theorem queue_sequential_refines k c q l n old :
  holds k c q l -> n <> 0 ->
  (exists q' r, QueueSingleProducerEnqueue (Some q) n = Some (r, Some q') /\
    if Z.of_nat (length l) <? 2 ^ k - 1 then r = 0 /\ holds k c q' (l ++ [n])
    else r = QUEUE_FULL /\ q' = q) /\
  (exists q' r v, QueueSingleConsumerDequeue (Some q) false old = Some (r, v, Some q') /\
    match l with
    | [] => r = QUEUE_EMPTY /\ v = old /\ q' = q
    | x :: tl => r = 0 /\ v = x /\ holds k (c + 1) q' tl
    end) /\
  QueueCountGet (Some q) false = inl (Z.of_nat (length l)) /\
  (QueueIsEmpty (Some q) = 0 <-> l = []).
Proof. apply fifo_holds. Qed.

(** A full queue of two slots whose producer counters have wrapped around. *)
Definition wrapped : LockFreeQueue :=
  MkQueue QUEUE_HEADER_MAGIC 2 2 1 0 0 2 1 4294967295 4294967295 [0; 5].

Lemma wrapped_holds : holds 1 4294967295 wrapped [5].
Proof.
  split; try done. intros i x. destruct i as [|i]; simpl; [|done]. intros [= <-]. done.
Qed.

Lemma queue_sequential_refines_witness :
  QueueCountGet (Some wrapped) false = inl 1 /\
  QueueSingleProducerEnqueue (Some wrapped) 7 = Some (QUEUE_FULL, Some wrapped).
Proof.
  destruct (queue_sequential_refines 1 4294967295 wrapped [5] 7 0 wrapped_holds ltac:(lia))
    as ((q' & r & E & H) & _ & Hc & _).
  split; [exact Hc|]. simpl in H. destruct H as [-> ->]. exact E.
Defined.

Lemma replay_app cap a b st : replay cap (a ++ b) st = replay cap a st ≫= replay cap b.
Proof.
  revert st. induction a as [|[i [n|]] a IH]; intros [l o]; cbn [app replay fst snd]; [done| |].
  - destruct (_ <? _); [apply IH|done].
  - destruct l; [done|apply IH].
Qed.

(** ** Any number of threads

    The counters of an execution that starts with an empty queue at counter
    [c] are [c] plus the following positions; [log] holds the nodes in the
    order of the producers' compare-and-swaps, [outs] the dequeues in the
    order of the consumers'. *)
Record Ghost := MkGhost {
  PH : Z; PT : Z; CH : Z; CT : Z; log : list Z; outs : list (nat * Z); sl : list Z
}.

Section Concurrent.
Context (k c : Z) (Hk : 0 <= k <= 13).

Abbreviation at_ x := (u32 (c + x)).

(** The slot of position [h] holds the node enqueued there. *)
Definition stored (g : Ghost) (h : Z) : Prop :=
  exists n, log g !! Z.to_nat h = Some n /\ sl g !! idx k (c + h) = Some n.

(** The dequeue of thread [i] took position [h], with result [v]. *)
Definition took (g : Ghost) (i : nat) (h v : Z) : Prop := outs g !! Z.to_nat h = Some (i, v).

(** What a thread knows at each program point. *)
Definition threadOK (g : Ghost) (i : nat) (pc : PC) : Prop :=
  match pc with
  | PReadHead _ => True
  | PReadConsumerTail _ h => exists H, 0 <= H <= PH g /\ h = at_ H
  | PCompareAndSwap _ h => exists H, 0 <= H <= PH g /\ h = at_ H /\ H + 1 <= CT g + (2 ^ k - 1)
  | PStoreNode n h =>
    exists H, PT g <= H < PH g /\ h = at_ H /\ log g !! Z.to_nat H = Some n
  | PWaitTurn h => exists H, PT g <= H < PH g /\ h = at_ H /\ stored g H
  | PReadTail _ => PT g < PH g /\ stored g (PT g)
  | PWriteTail t => PT g < PH g /\ t = at_ (PT g) /\ stored g (PT g)
  | PDone _ => True
  | CReadHead => True
  | CReadProducerTail h => exists H, 0 <= H <= CH g /\ h = at_ H
  | CCompareAndSwap h => exists H, 0 <= H <= CH g /\ h = at_ H /\ H < PT g
  | CLoadNode h => exists H v, CT g <= H < CH g /\ h = at_ H /\ took g i H v
  | CWaitTurn h v => exists H, CT g <= H < CH g /\ h = at_ H /\ took g i H v
  | CReadTail _ v => CT g < CH g /\ took g i (CT g) v
  | CWriteTail t v => CT g < CH g /\ t = at_ (CT g) /\ took g i (CT g) v
  | CDone r v => r = 0 -> exists H, 0 <= H < CT g /\ took g i H v
  end.

(** The position a producer, or a consumer, has claimed and not released. *)
Definition ownsP (g : Ghost) (pc : PC) (H : Z) : Prop :=
  PT g <= H < PH g /\
  match pc with
  | PStoreNode _ h | PWaitTurn h => h = at_ H
  | PReadTail _ | PWriteTail _ => H = PT g
  | _ => False
  end.

Definition ownsC (g : Ghost) (pc : PC) (H : Z) : Prop :=
  CT g <= H < CH g /\
  match pc with
  | CLoadNode h | CWaitTurn h _ => h = at_ H
  | CReadTail _ _ | CWriteTail _ _ => H = CT g
  | _ => False
  end.

(** No two threads own the same position. *)
Definition oneOwner (owns : PC -> Z -> Prop) (ths : list PC) : Prop :=
  forall i j pc pc' H, ths !! i = Some pc -> ths !! j = Some pc' ->
    owns pc H -> owns pc' H -> i = j.

(** Positions are ordered and the log, the slots and the outputs agree. *)
Record ghostOK (g : Ghost) : Prop := {
  g_order : 0 <= CT g <= CH g /\ CH g <= PT g <= PH g /\ PH g <= CT g + (2 ^ k - 1);
  g_log : Z.of_nat (length (log g)) = PH g;
  g_outs : (outs g).*2 = take (Z.to_nat (CH g)) (log g);
  g_slots : 2 ^ k <= Z.of_nat (length (sl g));
  g_stored : forall H, CT g <= H < PT g -> stored g H
}.

Record inv (g : Ghost) (cf : Config) : Prop := {
  i_ghost : ghostOK g;
  i_mask : producer_mask (queue cf) = 2 ^ k - 1;
  i_ph : producer_head (queue cf) = at_ (PH g);
  i_pt : producer_tail (queue cf) = at_ (PT g);
  i_ch : consumer_head (queue cf) = at_ (CH g);
  i_ct : consumer_tail (queue cf) = at_ (CT g);
  i_sl : slots (queue cf) = sl g;
  i_events : replay (2 ^ k - 1) (events cf) ([], []) = Some (drop (Z.to_nat (CH g)) (log g), outs g);
  i_threads : forall i pc, threads cf !! i = Some pc -> threadOK g i pc;
  i_ownsP : oneOwner (ownsP g) (threads cf);
  i_ownsC : oneOwner (ownsC g) (threads cf)
}.

Lemma owners_insert (o o' : PC -> Z -> Prop) ths i pc' :
  (i < length ths)%nat -> oneOwner o ths ->
  (forall j pcj, j <> i -> ths !! j = Some pcj -> forall H, o' pcj H -> o pcj H /\ ~ o' pc' H) ->
  oneOwner o' (<[i := pc']> ths).
Proof.
  intros Hlt Ho Hoth j j' pcj pcj' H Hj Hj' Hp Hp'.
  apply list_lookup_insert_Some in Hj as [(<- & <- & _)|[Hne Hj]],
    Hj' as [(<- & <- & _)|[Hne' Hj']]; [done| | |].
  - exfalso. by destruct (Hoth j' pcj' ltac:(congruence) Hj' H Hp') as [_ []].
  - exfalso. by destruct (Hoth j pcj ltac:(congruence) Hj H Hp) as [_ []].
  - apply (Ho j j' pcj pcj' H); try done.
    + by apply (Hoth j pcj ltac:(congruence) Hj).
    + by apply (Hoth j' pcj' ltac:(congruence) Hj').
Qed.

(** Replacing the state of thread [i], when the other threads' knowledge
    survives and nobody else owns what it owns. *)
Lemma inv_update g g' cf i pc pc' q' evs :
  inv g cf -> threads cf !! i = Some pc -> ghostOK g' ->
  producer_mask q' = 2 ^ k - 1 -> producer_head q' = at_ (PH g') ->
  producer_tail q' = at_ (PT g') -> consumer_head q' = at_ (CH g') ->
  consumer_tail q' = at_ (CT g') -> slots q' = sl g' ->
  replay (2 ^ k - 1) evs ([], []) = Some (drop (Z.to_nat (CH g')) (log g'), outs g') ->
  threadOK g' i pc' ->
  (forall j pcj, j <> i -> threads cf !! j = Some pcj -> threadOK g' j pcj /\
     (forall H, ownsP g' pcj H -> ownsP g pcj H /\ ~ ownsP g' pc' H) /\
     (forall H, ownsC g' pcj H -> ownsC g pcj H /\ ~ ownsC g' pc' H)) ->
  inv g' (MkConfig q' (<[i := pc']> (threads cf)) evs).
Proof.
  intros Hi Hpc Hg Hm H1 H2 H3 H4 H5 Hev Hok Hoth. split; cbn [queue threads events]; try done.
  - intros j pcj Hj. destruct (decide (j = i)) as [-> |Hne].
    + rewrite list_lookup_insert_eq in Hj by (by eapply lookup_lt_Some). by simplify_eq.
    + rewrite list_lookup_insert_ne in Hj by done. by apply (Hoth j pcj).
  - apply (owners_insert (ownsP g)); [by eapply lookup_lt_Some|apply Hi|].
    intros j pcj Hne Hj. apply (Hoth j pcj Hne Hj).
  - apply (owners_insert (ownsC g)); [by eapply lookup_lt_Some|apply Hi|].
    intros j pcj Hne Hj. apply (Hoth j pcj Hne Hj).
Qed.

(** A step that reads only. *)
Lemma inv_local g cf i pc pc' :
  inv g cf -> threads cf !! i = Some pc -> threadOK g i pc' ->
  (forall H, ownsP g pc' H -> ownsP g pc H) -> (forall H, ownsC g pc' H -> ownsC g pc H) ->
  inv g (MkConfig (queue cf) (<[i := pc']> (threads cf)) (events cf ++ [])).
Proof.
  intros Hi Hpc Hok HP HC. rewrite app_nil_r.
  apply (inv_update g g cf i pc pc'); try done; try apply Hi.
  intros j pcj Hne Hj. split_and!; [by apply (i_threads _ _ Hi)| |]; intros H Ho; split; try done; intros Ho'.
  - apply Hne. by apply (i_ownsP _ _ Hi j i pcj pc H); auto.
  - apply Hne. by apply (i_ownsC _ _ Hi j i pcj pc H); auto.
Qed.

(** ** The writing steps on the ghost state *)

Definition claimP (g : Ghost) (n : Z) : Ghost :=
  MkGhost (PH g + 1) (PT g) (CH g) (CT g) (log g ++ [n]) (outs g) (sl g).
Definition write (g : Ghost) (H n : Z) : Ghost :=
  MkGhost (PH g) (PT g) (CH g) (CT g) (log g) (outs g) (<[idx k (c + H) := n]> (sl g)).
Definition releaseP (g : Ghost) : Ghost :=
  MkGhost (PH g) (PT g + 1) (CH g) (CT g) (log g) (outs g) (sl g).
Definition claimC (g : Ghost) (i : nat) (v : Z) : Ghost :=
  MkGhost (PH g) (PT g) (CH g + 1) (CT g) (log g) (outs g ++ [(i, v)]) (sl g).
Definition releaseC (g : Ghost) : Ghost :=
  MkGhost (PH g) (PT g) (CH g) (CT g + 1) (log g) (outs g) (sl g).

(** Appending to the log or the outputs keeps what is there. *)
Lemma took_claimC g i j v h w : took g i h w -> took (claimC g j v) i h w.
Proof. intros Ht. unfold took. cbn. by apply lookup_app_l_Some. Qed.

Lemma stored_claimP g n h : stored g h -> stored (claimP g n) h.
Proof. intros (x & Hl & Hs). exists x. split; [by apply lookup_app_l_Some|done]. Qed.

Lemma stored_write g h n h' : 0 <= k -> stored g h' -> h <> h' -> - 2 ^ k < h' - h < 2 ^ k ->
  stored (write g h n) h'.
Proof.
  intros H0 (x & Hl & Hs) Hne Hd. exists x. split; [done|]. cbn.
  rewrite list_lookup_insert_ne; [done|]. apply idx_ne; lia.
Qed.

Ltac ghosts := cbn [threadOK PH PT CH CT log outs sl claimP write releaseP claimC releaseC] in *.

(** Carry a thread's knowledge over to a new ghost state: the position stays
    the same. *)
Ltac carry Hok :=
  try exact Hok; ghosts; intros; try exact I;
  let rec open H :=
    lazymatch type of H with
    | exists _, _ => destruct H as [? H]; open H
    | _ /\ _ => let H1 := fresh in destruct H as [H1 H]; open H
    | _ => idtac
    end in
  open Hok;
  try match goal with E : ?h = u32 (?c + ?x) |- exists _ : Z, _ => is_var x; exists x end;
  try match goal with T : took _ _ _ ?v |- exists _ : Z, _ => is_var v; exists v end;
  split_and?; try assumption; try lia.

(** The knowledge of the other threads survives each writing step, and they
    own nothing new. *)
Lemma others_claimP g n j pc : ghostOK g -> PH g < 2 ^ 32 - 1 -> threadOK g j pc ->
  threadOK (claimP g n) j pc /\
  (forall H, ownsP (claimP g n) pc H -> ownsP g pc H) /\
  (forall H, ownsC (claimP g n) pc H -> ownsC g pc H).
Proof.
  intros [(HA & HB & HC) Hlog _ _ _] Hw Hok. split_and!.
  - destruct pc; carry Hok; (by apply stored_claimP) || (by apply lookup_app_l_Some).
  - intros H (Hr & Ho). destruct pc; ghosts; try (by destruct Ho); split; ghosts; try assumption; try lia;
      destruct Hok as (H0 & ? & -> & _); apply counter_inj in Ho; lia.
  - done.
Qed.

Lemma others_claimC g i v j pc : ghostOK g -> CH g < 2 ^ 32 - 1 -> threadOK g j pc ->
  threadOK (claimC g i v) j pc /\
  (forall H, ownsP (claimC g i v) pc H -> ownsP g pc H) /\
  (forall H, ownsC (claimC g i v) pc H -> ownsC g pc H).
Proof.
  intros [(HA & HB & HC) Hlog _ _ _] Hw Hok. split_and!.
  - destruct pc; try (carry Hok; by apply took_claimC).
    intros E. destruct (Hok E) as (H & ? & ?). exists H. split; [done|]. by apply took_claimC.
  - done.
  - intros H (Hr & Ho). destruct pc; ghosts; try (by destruct Ho); split; ghosts; try assumption; try lia;
      repeat destruct Hok as [? Hok]; subst; apply counter_inj in Ho; lia.
Qed.

Lemma others_write g h n j pc : ghostOK g -> PT g <= h < PH g -> ~ ownsP g pc h -> threadOK g j pc ->
  threadOK (write g h n) j pc /\
  (forall H, ownsP (write g h n) pc H -> ownsP g pc H) /\
  (forall H, ownsC (write g h n) pc H -> ownsC g pc H).
Proof.
  intros [(HA & HB & HC) Hlog _ _ _] Hh Hno Hok. split_and!; [|done|done].
  destruct pc; carry Hok; apply stored_write; try done; try lia; intros ->; apply Hno; done.
Qed.

Lemma others_releaseP g j pc : ghostOK g -> PT g < PH g -> ~ ownsP g pc (PT g) -> threadOK g j pc ->
  threadOK (releaseP g) j pc /\
  (forall H, ownsP (releaseP g) pc H -> ownsP g pc H) /\
  (forall H, ownsC (releaseP g) pc H -> ownsC g pc H).
Proof.
  intros [(HA & HB & HC) Hlog _ _ _] Hh Hno Hok. split_and!; [| |done].
  - destruct pc; carry Hok; try (exfalso; apply Hno; split; [lia|done]);
      destruct (decide (x = PT g)) as [->|]; try lia; (exfalso; apply Hno; split; [lia|done]).
  - intros H (Hr & Ho). destruct pc; ghosts; try (by destruct Ho); split; ghosts; try assumption; try lia;
      (exfalso; apply Hno; split; [lia|done]).
Qed.

Lemma others_releaseC g j pc : ghostOK g -> CT g < CH g -> ~ ownsC g pc (CT g) -> threadOK g j pc ->
  threadOK (releaseC g) j pc /\
  (forall H, ownsP (releaseC g) pc H -> ownsP g pc H) /\
  (forall H, ownsC (releaseC g) pc H -> ownsC g pc H).
Proof.
  intros [(HA & HB & HC) Hlog _ _ _] Hh Hno Hok. split_and!; [|done|].
  - destruct pc; try (intros E; destruct (Hok E) as (H & ? & ?); exists H; split; [ghosts; lia|done]);
      carry Hok; try (exfalso; apply Hno; split; [lia|done]);
      destruct (decide (x = CT g)) as [->|]; try lia; (exfalso; apply Hno; split; [lia|done]).
  - intros H (Hr & Ho). destruct pc; ghosts; try (by destruct Ho); split; ghosts; try assumption; try lia;
      (exfalso; apply Hno; split; [lia|done]).
Qed.

(** The ghost invariant after each writing step. *)
Lemma ghostOK_claimP g n : ghostOK g -> PH g + 1 <= CT g + (2 ^ k - 1) -> ghostOK (claimP g n).
Proof.
  intros [(HA & HB & HC) Hlog Ho Hs Hst] Hr. split; ghosts; try lia.
  - rewrite length_app. cbn [length]. lia.
  - rewrite Ho, take_app_le by lia. done.
  - intros H HH. apply stored_claimP. apply Hst. lia.
Qed.

Lemma ghostOK_write g h n : ghostOK g -> PT g <= h < PH g -> ghostOK (write g h n).
Proof.
  intros [(HA & HB & HC) Hlog Ho Hs Hst] Hr. split; ghosts; try lia.
  - done.
  - by rewrite length_insert.
  - intros H HH. apply stored_write; [lia|apply Hst; lia|lia|lia].
Qed.

Lemma ghostOK_releaseP g : ghostOK g -> PT g < PH g -> stored g (PT g) -> ghostOK (releaseP g).
Proof.
  intros [(HA & HB & HC) Hlog Ho Hs Hst] Hr Hnew. split; ghosts; try lia; [done|].
  intros H HH. destruct (decide (H = PT g)) as [->|]; [done|]. apply Hst. lia.
Qed.

Lemma ghostOK_claimC g i v : ghostOK g -> CH g < PT g -> log g !! Z.to_nat (CH g) = Some v ->
  ghostOK (claimC g i v).
Proof.
  intros [(HA & HB & HC) Hlog Ho Hs Hst] Hr Hv. split; ghosts; try lia; [|done].
  rewrite fmap_app, Ho. replace (Z.to_nat (CH g + 1)) with (S (Z.to_nat (CH g))) by lia.
  by rewrite (take_S_r _ _ _ Hv).
Qed.

Lemma ghostOK_releaseC g : ghostOK g -> CT g < CH g -> ghostOK (releaseC g).
Proof.
  intros [(HA & HB & HC) Hlog Ho Hs Hst] Hr. split; ghosts; try lia; [done|].
  intros H HH. apply Hst. lia.
Qed.

(** The events of a claim. *)
Lemma replay_claimP g i n evs : ghostOK g -> PH g + 1 <= CT g + (2 ^ k - 1) ->
  replay (2 ^ k - 1) evs ([], []) = Some (drop (Z.to_nat (CH g)) (log g), outs g) ->
  replay (2 ^ k - 1) (evs ++ [(i, EvEnqueue n)]) ([], []) =
    Some (drop (Z.to_nat (CH g)) (log g ++ [n]), outs g).
Proof.
  intros [(HA & HB & HC) Hlog _ _ _] Hr Hev. rewrite replay_app, Hev. cbn [mbind option_bind replay fst snd].
  rewrite length_drop, drop_app_le by lia.
  destruct (Z.ltb_spec (Z.of_nat (length (log g) - Z.to_nat (CH g))) (2 ^ k - 1)); [done|lia].
Qed.

Lemma replay_claimC g i v evs : ghostOK g -> log g !! Z.to_nat (CH g) = Some v ->
  replay (2 ^ k - 1) evs ([], []) = Some (drop (Z.to_nat (CH g)) (log g), outs g) ->
  replay (2 ^ k - 1) (evs ++ [(i, EvDequeue)]) ([], []) =
    Some (drop (Z.to_nat (CH g + 1)) (log g), outs g ++ [(i, v)]).
Proof.
  intros [(HA & HB & HC) Hlog _ _ _] Hv Hev. rewrite replay_app, Hev. cbn [mbind option_bind].
  rewrite (drop_S _ _ _ Hv). cbn [replay fst snd].
  by replace (Z.to_nat (CH g + 1)) with (S (Z.to_nat (CH g))) by lia.
Qed.

(** The slot of a claimed dequeue holds what it took. *)
Lemma took_stored g i H v : ghostOK g -> CT g <= H < CH g -> took g i H v ->
  sl g !! idx k (c + H) = Some v.
Proof.
  intros [(HA & HB & HC) Hlog Ho Hs Hst] HH Ht. destruct (Hst H) as (n & Hn & Hsl); [lia|].
  assert ((outs g).*2 !! Z.to_nat H = Some v) as Hv by (rewrite list_lookup_fmap, Ht; done).
  rewrite Ho, lookup_take_lt in Hv by lia. congruence.
Qed.

(** The writing steps keep the invariant. *)
Lemma inv_claimP g cf i n h : inv g cf -> PH g < 2 ^ 32 - 1 ->
  threads cf !! i = Some (PCompareAndSwap n h) -> h = at_ (PH g) ->
  PH g + 1 <= CT g + (2 ^ k - 1) ->
  inv (claimP g n) (MkConfig (set_producer_head (queue cf) (at_ (PH g + 1)))
    (<[i := PStoreNode n h]> (threads cf)) (events cf ++ [(i, EvEnqueue n)])).
Proof.
  intros Hi Hw Hpc -> Hr. pose proof (i_ghost _ _ Hi) as Hg.
  apply (inv_update g _ cf i (PCompareAndSwap n (at_ (PH g)))); try (by apply Hi); try done.
  - by apply ghostOK_claimP.
  - apply (replay_claimP g); [done|done|apply Hi].
  - exists (PH g). ghosts. pose proof (g_order _ Hg). pose proof (g_log _ Hg). split_and!; try lia.
    rewrite lookup_app_r, (proj2 (Nat.sub_0_le _ _)) by lia. done.
  - intros j pcj Hne Hj.
    destruct (others_claimP g n j pcj Hg Hw (i_threads _ _ Hi j pcj Hj)) as (H1 & H2 & H3).
    split_and!; [done| |]; intros H Ho; (split; [by auto|]).
    + intros [_ Heq]. apply H2 in Ho as [Ho _]. apply counter_inj in Heq; [|pose proof (g_order _ Hg)]; lia.
    + by intros [_ []].
Qed.

Lemma inv_claimC g cf i v h : inv g cf -> PH g < 2 ^ 32 - 1 ->
  threads cf !! i = Some (CCompareAndSwap h) -> h = at_ (CH g) ->
  CH g < PT g -> log g !! Z.to_nat (CH g) = Some v ->
  inv (claimC g i v) (MkConfig (set_consumer_head (queue cf) (at_ (CH g + 1)))
    (<[i := CLoadNode h]> (threads cf)) (events cf ++ [(i, EvDequeue)])).
Proof.
  intros Hi Hw Hpc -> Hr Hv. pose proof (i_ghost _ _ Hi) as Hg. pose proof (g_order _ Hg) as Hor.
  apply (inv_update g _ cf i (CCompareAndSwap (at_ (CH g)))); try (by apply Hi); try done.
  - by apply ghostOK_claimC.
  - apply (replay_claimC g); [done|done|apply Hi].
  - exists (CH g), v. ghosts. split_and!; try lia. unfold took. ghosts.
    assert (length (outs g) = Z.to_nat (CH g)) as Hlen.
    { rewrite <- (length_fmap snd), (g_outs _ Hg), length_take. pose proof (g_log _ Hg). lia. }
    rewrite lookup_app_r, Hlen, Nat.sub_diag by lia. done.
  - intros j pcj Hne Hj.
    destruct (others_claimC g i v j pcj Hg ltac:(lia) (i_threads _ _ Hi j pcj Hj)) as (H1 & H2 & H3).
    split_and!; [done| |]; intros H Ho; (split; [by auto|]).
    + by intros [_ []].
    + intros [_ Heq]. apply H3 in Ho as [Ho _]. apply counter_inj in Heq; lia.
Qed.

Lemma inv_write g cf i n h H : inv g cf -> threads cf !! i = Some (PStoreNode n h) ->
  PT g <= H < PH g -> h = at_ H -> log g !! Z.to_nat H = Some n ->
  inv (write g H n) (MkConfig (set_slots (queue cf) (<[idx k (c + H) := n]> (slots (queue cf))))
    (<[i := PWaitTurn h]> (threads cf)) (events cf ++ [])).
Proof.
  intros Hi Hpc HH -> Hn. pose proof (i_ghost _ _ Hi) as Hg. rewrite app_nil_r.
  apply (inv_update g _ cf i (PStoreNode n (at_ H))); try (by apply Hi); try done.
  - by apply ghostOK_write.
  - qfields. by rewrite (i_sl _ _ Hi).
  - exists H. ghosts. split_and!; try lia. exists n. split; [done|]. ghosts.
    apply list_lookup_insert_eq, idx_lt; [lia|apply Hg].
  - intros j pcj Hne Hj.
    assert (forall H', ownsP g pcj H' -> ~ ownsP g (PStoreNode n (at_ H)) H') as Hno.
    { intros H' Ho Ho'. apply Hne. by apply (i_ownsP _ _ Hi j i pcj (PStoreNode n (at_ H)) H'). }
    destruct (others_write g H n j pcj Hg HH) as (H1 & H2 & H3).
    { intros Ho. by apply (Hno H). } { by apply (i_threads _ _ Hi). }
    split_and!; [done| |]; intros H' Ho; (split; [by auto|]).
    + intros Ho'. by apply (Hno H').
    + by intros [_ []].
Qed.

Lemma inv_releaseP g cf i t : inv g cf -> threads cf !! i = Some (PWriteTail t) ->
  PT g < PH g -> stored g (PT g) ->
  inv (releaseP g) (MkConfig (set_producer_tail (queue cf) (at_ (PT g + 1)))
    (<[i := PDone 0]> (threads cf)) (events cf ++ [])).
Proof.
  intros Hi Hpc HH Hst. pose proof (i_ghost _ _ Hi) as Hg. rewrite app_nil_r.
  apply (inv_update g _ cf i (PWriteTail t)); try (by apply Hi); try done.
  - by apply ghostOK_releaseP.
  - intros j pcj Hne Hj. destruct (others_releaseP g j pcj Hg HH) as (H1 & H2 & H3).
    { intros Ho. apply Hne. apply (i_ownsP _ _ Hi j i pcj _ (PT g) Hj Hpc Ho). split; [lia|done]. }
    { by apply (i_threads _ _ Hi). }
    split_and!; [done| |]; intros H' Ho; (split; [by auto|by intros [_ []]]).
Qed.

Lemma inv_releaseC g cf i t v : inv g cf -> threads cf !! i = Some (CWriteTail t v) ->
  CT g < CH g -> took g i (CT g) v ->
  inv (releaseC g) (MkConfig (set_consumer_tail (queue cf) (at_ (CT g + 1)))
    (<[i := CDone 0 v]> (threads cf)) (events cf ++ [])).
Proof.
  intros Hi Hpc HH Ht. pose proof (i_ghost _ _ Hi) as Hg. rewrite app_nil_r.
  apply (inv_update g _ cf i (CWriteTail t v)); try (by apply Hi); try done.
  - by apply ghostOK_releaseC.
  - intros _. exists (CT g). pose proof (g_order _ Hg). ghosts. split; [lia|done].
  - intros j pcj Hne Hj. destruct (others_releaseC g j pcj Hg HH) as (H1 & H2 & H3).
    { intros Ho. apply Hne. apply (i_ownsC _ _ Hi j i pcj _ (CT g) Hj Hpc Ho). split; [lia|done]. }
    { by apply (i_threads _ _ Hi). }
    split_and!; [done| |]; intros H' Ho; (split; [by auto|by intros [_ []]]).
Qed.

(** The producer's test read a head of at most [H], and a tail. *)
Lemma room_left H T mask : 0 <= H <= T + mask -> 1 <= u32 (u32 (mask + at_ T) - at_ H) ->
  H + 1 <= T + mask.
Proof.
  intros HH Hav. destruct (decide (H = T + mask)) as [->|]; [|lia]. exfalso.
  rewrite producer_room in Hav; lia.
Qed.

Ltac local_step Hi Hpc :=
  cbn [mbind option_bind];
  match type of Hi with inv ?g _ => eexists _, g end;
  split; [reflexivity|split; [|lia]];
  eapply (inv_local _ _ _ _ _ Hi Hpc);
    [first [exact I|assumption|idtac] | intros ? [? Ho]; first [by destruct Ho|done|idtac] ..].

(** One step of any thread is defined and keeps the invariant. *)
Lemma step_inv g cf i : inv g cf -> PH g < 2 ^ 32 - 1 ->
  exists cf' g', configStep cf i = Some cf' /\ inv g' cf' /\ PH g' <= PH g + 1.
Proof.
  intros Hi Hw. unfold configStep. destruct (threads cf !! i) as [pc|] eqn:Hpc.
  2:{ exists cf, g. split_and!; [done|done|lia]. }
  pose proof (i_threads _ _ Hi i pc Hpc) as Hok. pose proof (i_ghost _ _ Hi) as Hg.
  pose proof (g_order _ Hg) as Hor. pose proof (size_bound k Hk) as Hsz.
  destruct pc as [n|n h|n h|n h|h|h|t|r| |h|h|h|h v|h v|t v|r v]; cbn [step].
  - (* PReadHead *) rewrite (i_ph _ _ Hi). local_step Hi Hpc. exists (PH g). split; [lia|done].
  - (* PReadConsumerTail *) destruct Hok as (H & HH & ->).
    rewrite (i_mask _ _ Hi), (i_ct _ _ Hi).
    destruct (Z.ltb_spec (u32 (u32 (2 ^ k - 1 + at_ (CT g)) - at_ H)) 1) as [|Hav]; local_step Hi Hpc.
    exists H. split_and!; [lia|lia|done|]. apply room_left; [lia|done].
  - (* PCompareAndSwap *) destruct Hok as (H & HH & -> & Hr). unfold SoftBusAtomicCmpAndSwap32.
    rewrite (i_ph _ _ Hi). destruct (Z.eqb_spec (at_ (PH g)) (at_ H)) as [E|E].
    + apply counter_inj in E; [|lia]. subst H. rewrite counter_succ. cbn [mbind option_bind].
      eexists _, (claimP g n). split; [done|]. split; [by apply inv_claimP|ghosts; lia].
    + rewrite <- (i_ph _ _ Hi). replace (set_producer_head _ _) with (queue cf) by (by destruct (queue cf)).
      local_step Hi Hpc.
  - (* PStoreNode *) destruct Hok as (H & HH & -> & Hn).
    rewrite (i_mask _ _ Hi), store_idx by (rewrite ?(i_sl _ _ Hi); lia || apply Hg).
    cbn [mbind option_bind]. eexists _, (write g H n). split; [done|].
    split; [by eapply inv_write|ghosts; lia].
  - (* PWaitTurn *) destruct Hok as (H & HH & -> & Hst). rewrite (i_pt _ _ Hi).
    destruct (Z.eqb_spec (at_ (PT g)) (at_ H)) as [E|E]; cbn [negb].
    + apply counter_inj in E; [|lia]. subst H. local_step Hi Hpc.
      * split; [lia|done].
      * split; [done|]. cbn [ownsP ownsC] in Ho |- *. by rewrite Ho.
    + local_step Hi Hpc. by exists H.
  - (* PReadTail *) rewrite (i_pt _ _ Hi). local_step Hi Hpc. by destruct Hok.
  - (* PWriteTail *) destruct Hok as (HH & -> & Hst). rewrite counter_succ. cbn [mbind option_bind].
    eexists _, (releaseP g). split; [done|]. split; [by eapply inv_releaseP|ghosts; lia].
  - (* PDone *) local_step Hi Hpc.
  - (* CReadHead *) rewrite (i_ch _ _ Hi). local_step Hi Hpc. exists (CH g). split; [lia|done].
  - (* CReadProducerTail *) destruct Hok as (H & HH & ->). rewrite (i_pt _ _ Hi).
    rewrite consumer_avail by lia.
    destruct (Z.ltb_spec (PT g - H) 1); local_step Hi Hpc; [by intros [=]|].
    exists H. split_and!; [lia|lia|done|lia].
  - (* CCompareAndSwap *) destruct Hok as (H & HH & -> & Hr). unfold SoftBusAtomicCmpAndSwap32.
    rewrite (i_ch _ _ Hi). destruct (Z.eqb_spec (at_ (CH g)) (at_ H)) as [E|E].
    + apply counter_inj in E; [|lia]. subst H. rewrite counter_succ. cbn [mbind option_bind].
      destruct (lookup_lt_is_Some_2 (log g) (Z.to_nat (CH g))) as [v Hv]; [pose proof (g_log _ Hg); lia|].
      eexists _, (claimC g i v). split; [done|]. split; [by apply inv_claimC|ghosts; lia].
    + rewrite <- (i_ch _ _ Hi). replace (set_consumer_head _ _) with (queue cf) by (by destruct (queue cf)).
      local_step Hi Hpc.
  - (* CLoadNode *) destruct Hok as (H & v & HH & -> & Ht). unfold load.
    rewrite (i_mask _ _ Hi), land_idx, (i_sl _ _ Hi), (took_stored g i H v Hg HH Ht) by lia.
    cbn [mbind option_bind]. local_step Hi Hpc. by exists H.
  - (* CWaitTurn *) destruct Hok as (H & HH & -> & Ht). rewrite (i_ct _ _ Hi).
    destruct (Z.eqb_spec (at_ (CT g)) (at_ H)) as [E|E]; cbn [negb].
    + apply counter_inj in E; [|lia]. subst H. local_step Hi Hpc.
      * split; [lia|done].
      * split; [done|]. cbn [ownsP ownsC] in Ho |- *. by rewrite Ho.
    + local_step Hi Hpc. by exists H.
  - (* CReadTail *) rewrite (i_ct _ _ Hi). local_step Hi Hpc. by destruct Hok.
  - (* CWriteTail *) destruct Hok as (HH & -> & Ht). rewrite counter_succ. cbn [mbind option_bind].
    eexists _, (releaseC g). split; [done|]. split; [by eapply inv_releaseC|ghosts; lia].
  - (* CDone *) local_step Hi Hpc.
Qed.

Lemma run_inv sched : forall g cf, inv g cf -> PH g + Z.of_nat (length sched) < 2 ^ 32 ->
  exists cf' g', run sched cf = Some cf' /\ inv g' cf'.
Proof.
  induction sched as [|i sched IH]; intros g cf Hi Hw; cbn [run].
  { by exists cf, g. }
  cbn [length] in Hw. destruct (step_inv g cf i Hi) as (cf1 & g1 & -> & Hi1 & Hb); [lia|].
  cbn [mbind option_bind]. apply (IH g1 cf1 Hi1). lia.
Qed.

(** The calls at their start, on an empty queue. *)
Lemma inv_start q calls : holds k c q [] ->
  Forall (fun pc => (exists n, pc = QueueMultiProducerEnqueue n) \/ pc = QueueMultiConsumerDequeue) calls ->
  inv (MkGhost 0 0 0 0 [] [] (slots q)) (MkConfig q calls []).
Proof.
  intros [Hk' Hm Hph Hpt Hch Hct Hl Hs Hno] Hc. rewrite Forall_lookup in Hc.
  pose proof (size_bound k Hk) as Hsz.
  assert (forall j pc, calls !! j = Some pc -> forall g,
    threadOK g j pc /\ (forall H, ~ ownsP g pc H) /\ (forall H, ~ ownsC g pc H)) as Hcall.
  { intros j pc Hj g. destruct (Hc j pc Hj) as [[n ->]| ->]; unfold QueueMultiProducerEnqueue,
      QueueMultiConsumerDequeue; [destruct (n =? 0)|]; split_and!; try done; by intros H [_ []]. }
  split; cbn [queue threads events PH PT CH CT log outs sl]; try done.
  - split; ghosts; try lia; done.
  - intros j pc Hj. by apply (Hcall j pc).
  - intros i j pc pc' H Hj _ Ho. by apply (Hcall i pc Hj) in Ho.
  - intros i j pc pc' H Hj _ Ho. by apply (Hcall i pc Hj) in Ho.
Qed.

End Concurrent.

(** ** Each call takes effect at most once *)

Definition eventsOf (i : nat) (evs : list (nat * Event)) : list Event :=
  (filter (fun e => e.1 = i) evs).*2.

(** Whether the call has passed its compare-and-swap. *)
Definition claimed (pc : PC) : bool :=
  match pc with
  | PStoreNode _ _ | PWaitTurn _ | PReadTail _ | PWriteTail _ => true
  | CLoadNode _ | CWaitTurn _ _ | CReadTail _ _ | CWriteTail _ _ => true
  | PDone r | CDone r _ => r =? 0
  | _ => false
  end.

(** [Some n] for an enqueue of [n], [None] for a dequeue; [pc] belongs to it. *)
Definition belongs (op : option Z) (pc : PC) : Prop :=
  match pc with
  | PReadHead n | PReadConsumerTail n _ | PCompareAndSwap n _ | PStoreNode n _ => op = Some n
  | PWaitTurn _ | PReadTail _ | PWriteTail _ | PDone _ => is_Some op
  | _ => op = None
  end.

Definition opEvent (op : option Z) : Event :=
  match op with Some n => EvEnqueue n | None => EvDequeue end.

Definition callOf (op : option Z) : PC :=
  match op with
  | Some n => QueueMultiProducerEnqueue n
  | None => QueueMultiConsumerDequeue
  end.

Definition onceInv (ops : list (option Z)) (cf : Config) : Prop :=
  length ops = length (threads cf) /\
  forall i op pc, ops !! i = Some op -> threads cf !! i = Some pc ->
    belongs op pc /\ eventsOf i (events cf) = if claimed pc then [opEvent op] else [].

Lemma step_once q pc q' pc' ev op : step q pc = Some (q', pc', ev) -> belongs op pc ->
  belongs op pc' /\
  (if claimed pc then [opEvent op] else []) ++ option_list ev =
    if claimed pc' then [opEvent op] else [].
Proof.
  intros Hs Hb. destruct pc; unfold step, SoftBusAtomicCmpAndSwap32 in Hs;
    repeat match type of Hs with context [if ?b then _ else _] => destruct b eqn:? end;
    try (apply bind_Some in Hs as (? & _ & Hs)); simplify_eq; cbn in *; subst; eauto;
    repeat case_match; by eauto.
Qed.

Lemma run_once ops sched : forall cf cf', onceInv ops cf -> run sched cf = Some cf' -> onceInv ops cf'.
Proof.
  induction sched as [|i sched IH]; intros cf cf' Hi Hr; cbn [run] in Hr; [by simplify_eq|].
  apply bind_Some in Hr as (cf1 & Hc & Hr). apply (IH cf1 cf'); [|done]. clear IH Hr.
  unfold configStep in Hc. destruct (threads cf !! i) as [pc|] eqn:Hpc; [|by simplify_eq].
  apply bind_Some in Hc as ([[q' pc'] ev] & Hs & Hc). simplify_eq. destruct Hi as [Hlen Hi].
  split; cbn [threads events]; [by rewrite length_insert|].
  intros j op pcj Hop Hj. unfold eventsOf. rewrite filter_app, fmap_app.
  apply list_lookup_insert_Some in Hj as [(<- & <- & _)|[Hne Hj]].
  - destruct (Hi i op pc Hop Hpc) as [Hb He]. destruct (step_once _ _ _ _ _ op Hs Hb) as [Hb' He'].
    split; [done|]. unfold eventsOf in He. rewrite He, <- He'. f_equal.
    destruct ev; [|done]. by rewrite filter_cons_True.
  - destruct (Hi j op pcj Hop Hj) as [Hb He]. split; [done|]. unfold eventsOf in He. rewrite He.
    destruct ev; [|by rewrite app_nil_r]. rewrite filter_cons_False by (simpl; congruence).
    by rewrite app_nil_r.
Qed.

Lemma once_start q ops : onceInv ops (MkConfig q (callOf <$> ops) []).
Proof.
  split; cbn [threads events]; [by rewrite length_fmap|].
  intros i op pc Hop Hpc. rewrite list_lookup_fmap, Hop in Hpc. simplify_eq/=.
  destruct op as [n|]; cbn; [|done]. unfold QueueMultiProducerEnqueue.
  destruct (n =? 0); cbn; eauto.
Qed.

(** C1: any number of concurrent [QueueMultiProducerEnqueue] and
    [QueueMultiConsumerDequeue] calls on an empty queue, at any counter
    value, interleaved in any order for fewer than 2^32 steps, behave like
    calls on a bounded FIFO queue performed one after the other in the order
    of their compare-and-swaps: no access leaves the slots; that sequential
    execution is possible; every dequeue that returned 0 returned what the
    sequential one returns; a call has one effect if it has passed its
    compare-and-swap, and none otherwise. *)
Theorem queue_linearizable k c q ops sched :
  holds k c q [] -> Z.of_nat (length sched) < 2 ^ 32 ->
  exists cf content outs, run sched (MkConfig q (callOf <$> ops) []) = Some cf /\
    replay (2 ^ k - 1) (events cf) ([], []) = Some (content, outs) /\
    (forall i v, threads cf !! i = Some (CDone 0 v) -> (i, v) ∈ outs) /\
    (forall i op pc, ops !! i = Some op -> threads cf !! i = Some pc ->
       eventsOf i (events cf) = if claimed pc then [opEvent op] else []).
Proof.
  intros Hq Hw. pose proof (h_size _ _ _ _ Hq) as Hk.
  destruct (run_inv k c Hk sched (MkGhost 0 0 0 0 [] [] (slots q)) (MkConfig q (callOf <$> ops) []))
    as (cf & g & Hr & Hi); [|simpl; lia|].
  { apply inv_start; [done|done|]. apply Forall_fmap, Forall_true. intros [n|]; simpl; eauto. }
  exists cf. eexists _, _. split; [done|]. split; [apply Hi|]. split.
  - intros i v Hd. destruct (i_threads _ _ _ _ Hi i _ Hd eq_refl) as (H & _ & Ht).
    by eapply list_elem_of_lookup_2.
  - intros i op pc Hop Hpc.
    destruct (run_once ops sched _ cf (once_start q ops) Hr) as [_ Ho]. by apply (Ho i op pc).
Qed.

(** Two enqueues and a dequeue on a queue of four slots whose counters are
    about to wrap around; the producers interleave. *)
Lemma queue_linearizable_witness :
  exists cf content outs,
    run [0; 1; 0; 1; 1; 0; 1; 2; 1; 1; 1; 2; 2; 2; 2; 2; 2; 2; 2]%nat
      (MkConfig (MkQueue QUEUE_HEADER_MAGIC 4 4 3 4294967295 4294967295 4 3 4294967295 4294967295
        [0; 0; 0; 0]) (callOf <$> [Some 5; Some 6; None]) []) = Some cf /\
    replay (2 ^ 2 - 1) (events cf) ([], []) = Some (content, outs) /\
    (forall i v, threads cf !! i = Some (CDone 0 v) -> (i, v) ∈ outs) /\
    (forall i op pc, [Some 5; Some 6; None] !! i = Some op -> threads cf !! i = Some pc ->
       eventsOf i (events cf) = if claimed pc then [opEvent op] else []).
Proof.
  apply (queue_linearizable 2 4294967295); [|simpl; lia].
  split; try done; simpl; lia.
Defined.

(** ** Creation *)

(** The sizes [CreateQueue] computes, checked for each power of two. *)
Lemma create_sizes k : 0 <= k <= 13 -> IS_POWER_OF_2 (2 ^ k) = true /\
  exists size, QueueSizeCalc (2 ^ k) false = inl size /\
    2 ^ k <= (size - QUEUE_HEADER_SIZE) / UINTPTR_SIZE.
Proof.
  intros Hk.
  pose (check := fun k => IS_POWER_OF_2 (2 ^ k) && match QueueSizeCalc (2 ^ k) false with
    | inl size => 2 ^ k <=? (size - QUEUE_HEADER_SIZE) / UINTPTR_SIZE | inr _ => false end).
  assert (forallb check (seqZ 0 14) = true) as Hall by (vm_compute; reflexivity).
  rewrite forallb_forall in Hall. specialize (Hall k). unfold check in Hall.
  rewrite andb_true_iff in Hall. destruct Hall as [Hp Hs]; [apply list_elem_of_In, elem_of_seqZ; lia|].
  split; [done|]. destruct (QueueSizeCalc (2 ^ k) false) as [size|]; [|done].
  exists size. split; [done|]. by apply Z.leb_le.
Qed.

(** A power of two up to 8192 gives an empty queue. *)
Lemma create_holds k : 0 <= k <= 13 -> exists q, CreateQueue true (2 ^ k) = Some q /\ holds k 0 q [].
Proof.
  intros Hk. pose proof (size_bound k Hk) as Hsz.
  destruct (create_sizes k Hk) as (Hp & size & Hsize & Hfit).
  unfold CreateQueue. rewrite Hp, Hsize. cbn [negb]. unfold QueueInit. rewrite Hp. cbn [negb].
  eexists. split; [done|].
  split; qfields; try done; rewrite ?length_replicate; simpl; try lia. apply wrapU_id. range.
Qed.

(** [CreateQueue] of a power of two up to 8192 gives an empty queue at
    rest with enough slots for its mask; of 0 it gives a queue with no slot at
    all, whose first enqueue writes after the block. *)
Theorem CreateQueue_spec :
  (forall k, 0 <= k <= 13 -> exists q, CreateQueue true (2 ^ k) = Some q /\ holds k 0 q []) /\
  (forall n, n <> 0 -> exists q, CreateQueue true 0 = Some q /\
     QueueSingleProducerEnqueue (Some q) n = None).
Proof.
  split.
  - apply create_holds.
  - intros n Hn. eexists. split; [vm_compute; reflexivity|].
    unfold QueueSingleProducerEnqueue. rewrite (proj2 (Z.eqb_neq n 0)) by done. done.
Qed.

Lemma CreateQueue_spec_witness :
  (exists q, CreateQueue true (2 ^ 3) = Some q /\ holds 3 0 q []) /\
  exists q, CreateQueue true 0 = Some q /\ QueueSingleProducerEnqueue (Some q) 5 = None.
Proof. split; [apply CreateQueue_spec; lia|apply CreateQueue_spec; lia]. Defined.

End Queue.
