(* ===== verification/Looper.v ===== *)
(** * The message looper

    Models [core/common/message_handler/message_handler.c]: a looper owns a
    list of messages ordered by due time, a thread that delivers them, and a
    context shared by that thread and its clients under a mutex.

    Each critical section is one atomic operation on the state of the looper;
    [LoopTask], [DestroyLooper] and [LooperDeinit] are step functions over
    their program points, and a list of actions interleaves them with the
    calls of the clients.  A condition wait is a step that changes nothing:
    the code tests its condition again afterwards.  The thread that leaves its
    loop with [g_isNeedDestroy] set goes through [LooperDeinit] itself
    ([loopStep]).  Whether memory is found,
    whether the mutex can be locked and what the clock shows are arguments.
    [None] is an access to memory already released.

    A message carries the payload type [A] its clients use; a handler is
    known by its address.  [posted], [freed] and [delivered] record the
    messages passed to the post operations, released by [FreeSoftBusMsg], and
    passed to [HandleMessage] with the time the loop read on the clock. *)

From S2P Require Import Prelude.
From Stdlib Require Import Sorting.Sorted.

Module Looper.

Record SoftBusMessage (A : Type) := MkMsg {
  what : Z; arg1 : Z; arg2 : Z; time : Z; obj : A; handler : option Z
}.
Arguments MkMsg {A} _ _ _ _ _ _.
Arguments what {A} _.
Arguments arg1 {A} _.
Arguments arg2 {A} _.
Arguments time {A} _.
Arguments obj {A} _.
Arguments handler {A} _.

Definition with_time {A} (m : SoftBusMessage A) (t : Z) : SoftBusMessage A :=
  MkMsg (what m) (arg1 m) (arg2 m) t (obj m) (handler m).

Record SoftBusLooperContext (A : Type) := MkContext {
  msgHead : list (SoftBusMessage A); stop : bool; running : bool;
  currentMsg : option (SoftBusMessage A); msgSize : Z
}.
Arguments MkContext {A} _ _ _ _ _.
Arguments msgHead {A} _.
Arguments stop {A} _.
Arguments running {A} _.
Arguments currentMsg {A} _.
Arguments msgSize {A} _.

(** Where [DestroyLooper] stands: before the first lock, in the wait loop,
    before releasing, returned. *)
Inductive DestroyPC := DStart | DWait | DRelease | DDone.

(** Where [LooperDeinit] stands: before entry [i] of the table, or
    destroying the looper found there. *)
Inductive DeinitPC := DeinitAt (i : nat) | DeinitDestroy (i : nat) (l : Z) (d : DestroyPC).

(** Where [LoopTask] stands. *)
Inductive LoopPC (A : Type) :=
| LEntry                               (* before the first lock *)
| LLoop                                (* at the head of the loop *)
| LHandle (msg : SoftBusMessage A) (now : Z)   (* before HandleMessage *)
| LAfter (msg : SoftBusMessage A)      (* before freeing the message *)
| LExit                                (* after the loop *)
| LCheck                               (* before the test of g_isNeedDestroy *)
| LDeinit (d : DeinitPC)               (* in LooperDeinit *)
| LEnd.
Arguments LEntry {A}.
Arguments LLoop {A}.
Arguments LHandle {A} _ _.
Arguments LAfter {A} _.
Arguments LExit {A}.
Arguments LCheck {A}.
Arguments LDeinit {A} _.
Arguments LEnd {A}.

(** A looper with its thread; [alive] until [SoftBusFree(looper)]. *)
Record LooperState (A : Type) := MkLooper {
  alive : bool; dumpable : bool; context : option (SoftBusLooperContext A); pc : LoopPC A;
  posted : list (SoftBusMessage A); freed : list (SoftBusMessage A);
  delivered : list (SoftBusMessage A * Z)
}.
Arguments MkLooper {A} _ _ _ _ _ _ _.
Arguments alive {A} _.
Arguments dumpable {A} _.
Arguments context {A} _.
Arguments pc {A} _.
Arguments posted {A} _.
Arguments freed {A} _.
Arguments delivered {A} _.

Record Globals := MkGlobals {
  g_isNeedDestroy : bool; g_isThreadStarted : bool; g_loopConfig : list (Z * option Z)
}.

Section Looper.
Context {A : Type}.
Abbreviation Msg := (SoftBusMessage A).
Abbreviation State := (LooperState A).

Definition set_context (s : State) (c : SoftBusLooperContext A) : State :=
  MkLooper (alive s) (dumpable s) (Some c) (pc s) (posted s) (freed s) (delivered s).
Definition set_pc (s : State) (p : LoopPC A) : State :=
  MkLooper (alive s) (dumpable s) (context s) p (posted s) (freed s) (delivered s).
Definition add_posted (s : State) (m : Msg) : State :=
  MkLooper (alive s) (dumpable s) (context s) (pc s) (posted s ++ [m]) (freed s) (delivered s).
Definition add_delivered (s : State) (m : Msg) (now : Z) : State :=
  MkLooper (alive s) (dumpable s) (context s) (pc s) (posted s) (freed s) (delivered s ++ [(m, now)]).

Definition FreeSoftBusMsg (s : State) (msg : Msg) : State :=
  MkLooper (alive s) (dumpable s) (context s) (pc s) (posted s) (freed s ++ [msg]) (delivered s).

(** [MallocMessage]: a zeroed message; [null] is the zero of the payload. *)
Definition MallocMessage (avail : bool) (null : A) : option Msg :=
  if avail then Some (MkMsg 0 0 0 0 null None) else None.

Definition FreeMessage (s : State) (msg : option Msg) : State :=
  match msg with Some m => FreeSoftBusMsg s m | None => s end.

(** The context as the code reaches it, through a looper not yet freed. *)
Definition getContext (s : State) : option (SoftBusLooperContext A) :=
  if alive s then context s else None.

(** [UptimeMicros]: seconds and microseconds of the clock. *)
Definition UptimeMicros (sec usec : Z) : Z := s64 (s64 (s64 (sec * 1000) * 1000) + usec).

(** ** Posting *)

(** The loop that looks for the first message due later than the new one,
    and inserts before it, or at the tail. *)
Fixpoint insertMsg (msgPost : Msg) (l : list Msg) : list Msg :=
  match l with
  | [] => [msgPost]
  | msg :: next => if time msgPost <? time msg then msgPost :: l else msg :: insertMsg msgPost next
  end.

Definition PostMessageAtTime (avail lockOk : bool) (s : State) (msgPost : Msg) : option State :=
  if negb (alive s) then None
  else
    let s := add_posted s msgPost in
    match handler msgPost with
    | None => Some (FreeSoftBusMsg s msgPost)
    | Some _ =>
      if negb avail then Some (FreeSoftBusMsg s msgPost)
      else (
        c ← getContext s;
        if negb lockOk then Some (FreeSoftBusMsg s msgPost)
        else if stop c then Some (FreeSoftBusMsg s msgPost)
        else Some (set_context s (MkContext (insertMsg msgPost (msgHead c)) (stop c) (running c)
                     (currentMsg c) (u32 (msgSize c + 1)))))
    end.

Definition LooperPostMessage (avail lockOk : bool) (now : Z) (s : State) (msg : Msg) : option State :=
  PostMessageAtTime avail lockOk s (with_time msg now).

Definition LooperPostMessageDelay (avail lockOk : bool) (now : Z) (s : State) (msg : Msg)
    (delayMillis : Z) : option State :=
  PostMessageAtTime avail lockOk s (with_time msg (s64 (now + s64 (s64 delayMillis * 1000)))).

(** ** Removing *)

Definition WhatRemoveFunc (what_ : Z) (msg : Msg) : Z := if what msg =? what_ then 0 else 1.

(** The loop over the messages: what stays, and what is freed. *)
Fixpoint removeLoop (h : option Z) (customFunc : Msg -> Z) (l : list Msg) (c : SoftBusLooperContext A)
    (s : State) : list Msg * Z * State :=
  match l with
  | [] => ([], msgSize c, s)
  | msg :: next =>
    if bool_decide (handler msg = h) && (customFunc msg =? 0) then
      let c' := MkContext (msgHead c) (stop c) (running c) (currentMsg c) (u32 (msgSize c - 1)) in
      removeLoop h customFunc next c' (FreeSoftBusMsg s msg)
    else
      let '(rest, n, s') := removeLoop h customFunc next c s in (msg :: rest, n, s')
  end.

Definition LoopRemoveMessageCustom (lockOk : bool) (s : State) (h : option Z)
    (customFunc : Msg -> Z) : option State :=
  c ← getContext s;
  if negb lockOk then Some s
  else if negb (running c) || stop c then Some s
  else
    let '(rest, n, s') := removeLoop h customFunc (msgHead c) c s in
    Some (set_context s' (MkContext rest (stop c) (running c) (currentMsg c) n)).

Definition LooperRemoveMessage (lockOk : bool) (s : State) (h : option Z) (w : Z) : option State :=
  LoopRemoveMessageCustom lockOk s h (WhatRemoveFunc w).

Definition SetLooperDumpable (s : State) (d : bool) : State :=
  MkLooper (alive s) d (context s) (pc s) (posted s) (freed s) (delivered s).

(** ** The loop thread

    [hasHandle h] says whether the handler at [h] has a [HandleMessage].  The
    call of [LooperDeinit] at the end goes on in [loopStep] below. *)
Definition LoopTask (hasHandle : Z -> bool) (now : Z) (lockOk : bool) (g : Globals) (s : State)
  : option (Globals * State) :=
  match pc s with
  | LEntry =>
    if negb (alive s) then None
    else match context s with
    | None => Some (g, set_pc s LEnd)
    | Some c =>
      if negb lockOk then Some (g, set_pc s LEnd)
      else Some (MkGlobals (g_isNeedDestroy g) true (g_loopConfig g),
                 set_pc (set_context s (MkContext (msgHead c) (stop c) true (currentMsg c) (msgSize c))) LLoop)
    end
  | LLoop =>
    c ← getContext s;
    if negb lockOk then Some (g, set_pc s LEnd)
    else if stop c then Some (g, set_pc s LExit)
    else if g_isNeedDestroy g then Some (g, set_pc s LExit)
    else match msgHead c with
    | [] => Some (g, s)
    | msg :: rest =>
      if time msg <=? now then
        Some (g, set_pc (set_context s (MkContext rest (stop c) (running c) (Some msg)
                           (u32 (msgSize c - 1)))) (LHandle msg now))
      else Some (g, s)
    end
  | LHandle msg due =>
    h ← handler msg;
    Some (g, set_pc (if hasHandle h then add_delivered s msg due else s) (LAfter msg))
  | LAfter msg =>
    c ← getContext s;
    let s' := FreeSoftBusMsg s msg in
    Some (g, set_pc (set_context s' (MkContext (msgHead c) (stop c) (running c) None (msgSize c))) LLoop)
  | LExit =>
    c ← getContext s;
    Some (g, set_pc (set_context s (MkContext (msgHead c) (stop c) false (currentMsg c) (msgSize c))) LCheck)
  | LCheck => Some (g, set_pc s (if g_isNeedDestroy g then LDeinit (DeinitAt 0) else LEnd))
  | LDeinit _ | LEnd => Some (g, s)
  end.

(** [CreateNewLooper] with the memory it finds, the length of the name and
    what creating the thread answers; the state is the new looper's. *)
Definition LOOP_NAME_LEN : Z := 16.

Definition StartNewLooperThread (ret : Z) : Z := if negb (ret =? 0) then -1 else 0.

Definition CreateNewLooper (availLooper availContext : bool) (nameLen : Z) (threadRet : Z) : option State :=
  if negb availLooper then None
  else if negb availContext then None
  else if LOOP_NAME_LEN <? nameLen then None
  else
    let s := MkLooper true true (Some (MkContext [] false false None 0)) LEntry [] [] [] in
    if negb (StartNewLooperThread threadRet =? 0) then None else Some s.

(** ** The table of loopers *)

Definition LOOP_TYPE_DEFAULT : Z := 1.
Definition LOOP_TYPE_BR_SEND : Z := 2.
Definition LOOP_TYPE_BR_RECV : Z := 3.
Definition LOOP_TYPE_P2P : Z := 4.
Definition LOOP_TYPE_LANE : Z := 5.

Definition initialConfig : list (Z * option Z) :=
  [(LOOP_TYPE_DEFAULT, None); (LOOP_TYPE_BR_SEND, None); (LOOP_TYPE_BR_RECV, None);
   (LOOP_TYPE_P2P, None); (LOOP_TYPE_LANE, None)].

Fixpoint GetLooper (config : list (Z * option Z)) (type : Z) : option Z :=
  match config with
  | [] => None
  | (t, l) :: rest => if t =? type then l else GetLooper rest type
  end.

Fixpoint SetLooper (config : list (Z * option Z)) (type : Z) (looper : option Z)
  : list (Z * option Z) :=
  match config with
  | [] => []
  | (t, l) :: rest => (t, if t =? type then looper else l) :: SetLooper rest type looper
  end.

Fixpoint ReleaseLooper (config : list (Z * option Z)) (looper : Z) : list (Z * option Z) :=
  match config with
  | [] => []
  | (t, l) :: rest =>
    if bool_decide (l = Some looper) then (t, None) :: rest else (t, l) :: ReleaseLooper rest looper
  end.

(** ** Destruction *)

Definition DestroyLooper (l : Z) (g : Globals) (s : State) (d : DestroyPC)
  : option (Globals * State * DestroyPC) :=
  match d with
  | DStart =>
    if negb (alive s) then None
    else match context s with
    | None => Some (g, s, DRelease)
    | Some c => Some (g, set_context s (MkContext (msgHead c) true (running c) (currentMsg c) (msgSize c)), DWait)
    end
  | DWait => c ← getContext s; Some (g, s, if running c then DWait else DRelease)
  | DRelease =>
    if negb (alive s) then None
    else
      let msgs := match context s with Some c => msgHead c | None => [] end in
      let s' := foldl FreeSoftBusMsg s msgs in
      Some (MkGlobals (g_isNeedDestroy g) (g_isThreadStarted g) (ReleaseLooper (g_loopConfig g) l),
            MkLooper false (dumpable s') None (pc s') (posted s') (freed s') (delivered s'), DDone)
  | DDone => Some (g, s, DDone)
  end.

(** [LooperInit]: the looper created, at address [l], becomes the default. *)
Definition LooperInit (created : option State) (l : Z) (g : Globals) (ls : gmap Z State)
  : Z * Globals * gmap Z State :=
  match created with
  | None => (-1, g, ls)
  | Some s =>
    (0, MkGlobals (g_isNeedDestroy g) (g_isThreadStarted g)
          (SetLooper (g_loopConfig g) LOOP_TYPE_DEFAULT (Some l)), <[l := s]> ls)
  end.

(** One step of [LooperDeinit] over the loopers at their addresses; the last
    component is [None] when it returns. *)
Definition LooperDeinit (g : Globals) (ls : gmap Z State) (p : DeinitPC)
  : option (Globals * gmap Z State * option DeinitPC) :=
  match p with
  | DeinitAt i =>
    match g_loopConfig g !! i with
    | None => Some (g, ls, None)
    | Some (_, None) => Some (g, ls, Some (DeinitAt (S i)))
    | Some (_, Some l) =>
      s ← ls !! l;
      _ ← getContext s;
      if negb (g_isThreadStarted g) then
        Some (MkGlobals true (g_isThreadStarted g) (g_loopConfig g), ls, None)
      else Some (g, ls, Some (DeinitDestroy i l DStart))
    end
  | DeinitDestroy i l d =>
    s ← ls !! l;
    '(g', s', d') ← DestroyLooper l g s d;
    Some (g', <[l := s']> ls,
          Some (match d' with DDone => DeinitAt (S i) | _ => DeinitDestroy i l d' end))
  end.

(** ** One looper, its thread, its clients and a destroyer *)

(** A step of the thread of the looper at address [l]: of [LoopTask] itself or
    of the [LooperDeinit] it calls last.  The table holds no other looper. *)
Definition loopStep (hasHandle : Z -> bool) (l : Z) (now : Z) (lockOk : bool) (g : Globals) (s : State)
  : option (Globals * State) :=
  match pc s with
  | LDeinit p =>
    '(g', ls, p') ← LooperDeinit g {[l := s]} p;
    s' ← ls !! l;
    Some (g', set_pc s' (match p' with Some q => LDeinit q | None => LEnd end))
  | _ => LoopTask hasHandle now lockOk g s
  end.

Inductive Action :=
| APost (avail lockOk : bool) (now : Z) (msg : Msg)
| APostDelay (avail lockOk : bool) (now : Z) (msg : Msg) (delayMillis : Z)
| ARemove (lockOk : bool) (h : option Z) (customFunc : Msg -> Z)
| ALoop (now : Z) (lockOk : bool)
| ACallDestroy
| ADestroy.

Record Sys := MkSys { globals : Globals; looper : State; destroyer : option DestroyPC }.

Definition sysStep (hasHandle : Z -> bool) (l : Z) (w : Sys) (a : Action) : option Sys :=
  match a with
  | APost avail lockOk now msg =>
    s ← LooperPostMessage avail lockOk now (looper w) msg; Some (MkSys (globals w) s (destroyer w))
  | APostDelay avail lockOk now msg delay =>
    s ← LooperPostMessageDelay avail lockOk now (looper w) msg delay;
    Some (MkSys (globals w) s (destroyer w))
  | ARemove lockOk h f =>
    s ← LoopRemoveMessageCustom lockOk (looper w) h f; Some (MkSys (globals w) s (destroyer w))
  | ALoop now lockOk =>
    '(g, s) ← loopStep hasHandle l now lockOk (globals w) (looper w); Some (MkSys g s (destroyer w))
  | ACallDestroy =>
    Some (MkSys (globals w) (looper w) (Some (default DStart (destroyer w))))
  | ADestroy =>
    match destroyer w with
    | None => Some w
    | Some d => '(g, s, d') ← DestroyLooper l (globals w) (looper w) d; Some (MkSys g s (Some d'))
    end
  end.

Fixpoint sysRun (hasHandle : Z -> bool) (l : Z) (acts : list Action) (w : Sys) : option Sys :=
  match acts with
  | [] => Some w
  | a :: rest => w' ← sysStep hasHandle l w a; sysRun hasHandle l rest w'
  end.

(** ** Posting keeps the list ordered, and stable *)

Definition dueBefore (m1 m2 : Msg) : Prop := time m1 <= time m2.

Lemma insertMsg_perm m l : insertMsg m l ≡ₚ m :: l.
Proof.
  induction l as [|x l IH]; cbn [insertMsg]; [done|].
  destruct (time m <? time x); [done|]. rewrite IH. apply Permutation_swap.
Qed.

(** On an ordered list: after every message due no later, before the rest. *)
Lemma insertMsg_spec m l : StronglySorted dueBefore l ->
  insertMsg m l = filter (fun x => time x <= time m) l ++ m :: filter (fun x => time m < time x) l.
Proof.
  induction 1 as [|x l Hs IH Hx]; cbn [insertMsg]; [done|].
  destruct (Z.ltb_spec (time m) (time x)) as [Hlt|Hge].
  - rewrite filter_cons_False, filter_cons_True by lia.
    rewrite list_filter_none, list_filter_all; [done| |];
      (eapply Forall_impl; [exact Hx|]); unfold dueBefore; intros y Hy; simpl in *; lia.
  - rewrite filter_cons_True, filter_cons_False by lia. cbn [app]. by rewrite IH.
Qed.

Lemma insertMsg_sorted m l : StronglySorted dueBefore l -> StronglySorted dueBefore (insertMsg m l).
Proof.
  induction 1 as [|x l Hs IH Hx]; cbn [insertMsg]; [repeat constructor|].
  destruct (Z.ltb_spec (time m) (time x)) as [Hlt|Hge].
  - constructor; [by constructor|]. constructor; [unfold dueBefore; lia|].
    eapply Forall_impl; [exact Hx|]. unfold dueBefore. intros. simpl in *. lia.
  - constructor; [done|]. rewrite insertMsg_perm. constructor; [done|done].
Qed.

(** ** The invariant of a looper *)

(** The message the loop thread holds outside the list. *)
Definition inHand (p : LoopPC A) : list Msg :=
  match p with LHandle m _ | LAfter m => [m] | _ => [] end.

(** The thread is between setting [running] and clearing it. *)
Definition busy (p : LoopPC A) : bool :=
  match p with LLoop | LHandle _ _ | LAfter _ | LExit => true | _ => false end.

Definition queued (s : State) : list Msg :=
  match context s with Some c => msgHead c | None => [] end.

Record wfContext (p : LoopPC A) (c : SoftBusLooperContext A) : Prop := {
  c_sorted : StronglySorted dueBefore (msgHead c);
  c_size : msgSize c = u32 (Z.of_nat (length (msgHead c)));
  c_handler : Forall (fun m => is_Some (handler m)) (msgHead c);
  c_current : currentMsg c = head (inHand p);
  c_running : busy p = true -> running c = true
}.

(** The list is ordered and counted, every message has a handler, and each
    message ever posted is in the list, in the hands of the thread, or freed,
    exactly once; nothing was delivered before it was due. *)
Record wfLooper (s : State) : Prop := {
  w_context : forall c, context s = Some c -> wfContext (pc s) c;
  w_hand : Forall (fun m => is_Some (handler m)) (inHand (pc s));
  w_due : match pc s with LHandle m now => time m <= now | _ => True end;
  w_account : posted s ≡ₚ freed s ++ inHand (pc s) ++ queued s;
  w_delivered : Forall (fun mt => time mt.1 <= mt.2) (delivered s)
}.

Lemma wf_create a b n r s : CreateNewLooper a b n r = Some s -> wfLooper s.
Proof.
  unfold CreateNewLooper. destruct a, b; cbn [negb]; try done. destruct (_ <? _); [done|].
  destruct (_ =? _); [|done]. intros [= <-]. split; cbn; try done.
  intros c [= <-]. split; cbn; try done. constructor.
Qed.

(** A posted message that is freed at once. *)
Lemma wf_post_free s m : wfLooper s -> wfLooper (FreeSoftBusMsg (add_posted s m) m).
Proof.
  intros [H1 H2 H3 H4 H5]. split; cbn; try done. etrans; [apply Permutation_app_tail, H4|].
  unfold queued. cbn. solve_Permutation.
Qed.

Lemma PostMessageAtTime_wf avail lockOk s m s' : wfLooper s ->
  PostMessageAtTime avail lockOk s m = Some s' -> wfLooper s'.
Proof.
  intros Hwf. unfold PostMessageAtTime. destruct (alive s) eqn:Ha; cbn [negb]; [|done].
  destruct (handler m) eqn:Hh; [|intros [= <-]; by apply wf_post_free].
  destruct avail; cbn [negb]; [|intros [= <-]; by apply wf_post_free].
  unfold getContext. cbn [add_posted alive context]. rewrite Ha.
  destruct (context s) as [c|] eqn:Hc; [|done]. cbn [mbind option_bind].
  destruct lockOk; cbn [negb]; [|intros [= <-]; by apply wf_post_free].
  destruct (stop c); [intros [= <-]; by apply wf_post_free|]. intros [= <-].
  destruct Hwf as [H1 H2 H3 H4 H5]. destruct (H1 c Hc) as [G1 G2 G3 G4 G5].
  split; cbn [set_context add_posted context pc posted freed delivered]; try done.
  - intros c' [= <-]. split; cbn [msgHead msgSize currentMsg running]; try done.
    + by apply insertMsg_sorted.
    + rewrite G2, wrapU_add_l, insertMsg_perm. cbn [length]. f_equal. lia.
    + rewrite insertMsg_perm. constructor; [by rewrite Hh|done].
  - etrans; [apply Permutation_app_tail, H4|].
    unfold queued. cbn [set_context context msgHead]. rewrite Hc, insertMsg_perm.
    solve_Permutation.
Qed.

(** The removal loop filters the list and frees what it drops. *)
Definition removed (h : option Z) (f : Msg -> Z) (m : Msg) : Prop := handler m = h /\ f m = 0.

#[export] Instance removed_dec h f m : Decision (removed h f m).
Proof. unfold removed. apply _. Defined.

Lemma removeLoop_spec h f l : forall c s, is_u 32 (msgSize c) ->
  removeLoop h f l c s =
    (filter (fun m => ~ removed h f m) l,
     u32 (msgSize c - Z.of_nat (length (filter (removed h f) l))),
     foldl FreeSoftBusMsg s (filter (removed h f) l)).
Proof.
  induction l as [|m l IH]; intros c s Hu; cbn [removeLoop].
  { cbn. by rewrite Z.sub_0_r, wrapU_id. }
  destruct (decide (removed h f m)) as [[Hh Hf]|Hn].
  - rewrite bool_decide_true, Hf by done. cbn [andb Z.eqb]. rewrite IH by (by apply wrapU_range).
    rewrite (filter_cons_True (removed h f)), (filter_cons_False (fun m => ~ removed h f m))
      by (try (intros Hx; apply Hx); by split). cbn [length foldl msgSize]. f_equal. f_equal. cint.
  - rewrite (filter_cons_False (removed h f)), (filter_cons_True (fun m => ~ removed h f m)) by done.
    assert (bool_decide (handler m = h) && (f m =? 0) = false) as ->.
    { apply andb_false_iff. destruct (decide (handler m = h)); [right|left; by apply bool_decide_false].
      apply Z.eqb_neq. intros ?. by apply Hn. }
    by rewrite IH.
Qed.

Lemma foldl_free l : forall s, foldl FreeSoftBusMsg s l =
  MkLooper (alive s) (dumpable s) (context s) (pc s) (posted s) (freed s ++ l) (delivered s).
Proof.
  induction l as [|m l IH]; intros s; cbn [foldl].
  - rewrite app_nil_r. by destruct s.
  - rewrite IH. cbn. by rewrite <- app_assoc.
Qed.

(** A filter and its complement split a list. *)
Lemma filter_split (P : Msg -> Prop) `{!forall m, Decision (P m)} l :
  l ≡ₚ filter P l ++ filter (fun m => ~ P m) l.
Proof.
  induction l as [|m l IH]; [done|]. destruct (decide (P m)).
  - rewrite filter_cons_True, filter_cons_False by auto. cbn. by rewrite <- IH.
  - rewrite filter_cons_False, filter_cons_True by auto. by rewrite <- Permutation_middle, <- IH.
Qed.

Lemma StronglySorted_filter (P : Msg -> Prop) `{!forall m, Decision (P m)} l :
  StronglySorted dueBefore l -> StronglySorted dueBefore (filter P l).
Proof.
  induction 1 as [|x l Hs IH Hx]; [constructor|]. destruct (decide (P x)).
  - rewrite filter_cons_True by done. constructor; [done|].
    apply Forall_forall. intros y Hy. rewrite Forall_forall in Hx. apply Hx.
    by apply list_elem_of_filter in Hy as [_ Hy].
  - by rewrite filter_cons_False.
Qed.

(** What [LoopRemoveMessageCustom] does to a looper that is running. *)
Lemma LoopRemoveMessageCustom_running s c h f : getContext s = Some c -> is_u 32 (msgSize c) ->
  running c = true -> stop c = false ->
  LoopRemoveMessageCustom true s h f =
    Some (MkLooper (alive s) (dumpable s)
      (Some (MkContext (filter (fun m => ~ removed h f m) (msgHead c)) false true (currentMsg c)
         (u32 (msgSize c - Z.of_nat (length (filter (removed h f) (msgHead c)))))))
      (pc s) (posted s) (freed s ++ filter (removed h f) (msgHead c)) (delivered s)).
Proof.
  intros Hc Hu Hr Hs. unfold LoopRemoveMessageCustom. rewrite Hc. cbn [mbind option_bind negb].
  rewrite Hr, Hs. cbn [negb orb]. rewrite removeLoop_spec by done. by rewrite foldl_free.
Qed.

Lemma LoopRemoveMessageCustom_wf lockOk s h f s' : wfLooper s ->
  LoopRemoveMessageCustom lockOk s h f = Some s' -> wfLooper s'.
Proof.
  intros Hwf Hs. destruct (getContext s) as [c|] eqn:Hc.
  2:{ unfold LoopRemoveMessageCustom in Hs. by rewrite Hc in Hs. }
  assert (context s = Some c) as Hc' by (unfold getContext in Hc; by destruct (alive s)).
  destruct Hwf as [H1 H2 H3 H4 H5]. pose proof (H1 c Hc') as [G1 G2 G3 G4 G5].
  destruct (lockOk && running c && negb (stop c)) eqn:E.
  - apply andb_true_iff in E as [[-> Hr]%andb_true_iff Hst%negb_true_iff].
    rewrite (LoopRemoveMessageCustom_running s c) in Hs; try done.
    2:{ rewrite G2. by auto with cint. }
    simplify_eq. split; cbn [context pc posted freed delivered]; try done.
    + intros c' [= <-]. split; cbn [msgHead msgSize currentMsg running]; try done.
      * by apply StronglySorted_filter.
      * rewrite G2, (filter_split (removed h f) (msgHead c)) at 1. rewrite length_app. cint.
      * apply Forall_forall. intros m [_ Hm]%list_elem_of_filter. rewrite Forall_forall in G3. by apply G3.
    + etrans; [exact H4|]. unfold queued. cbn [context msgHead]. rewrite Hc'.
      rewrite (filter_split (removed h f) (msgHead c)) at 1. solve_Permutation.
  - unfold LoopRemoveMessageCustom in Hs. rewrite Hc in Hs. cbn [mbind option_bind] in Hs.
    assert (s' = s) as ->; [|by split].
    destruct lockOk, (running c), (stop c); cbn in Hs, E; by simplify_eq.
Qed.

Lemma getContext_Some s c : getContext s = Some c -> context s = Some c /\ alive s = true.
Proof. unfold getContext. destruct (alive s); intros; by simplify_eq. Qed.

(** The thread moves on, holding the same message. *)
Lemma wf_move s p : wfLooper s -> inHand p = inHand (pc s) ->
  (busy p = true -> busy (pc s) = true) ->
  match p with LHandle m now => time m <= now | _ => True end -> wfLooper (set_pc s p).
Proof.
  intros [H1 H2 H3 H4 H5] Hh Hb Hd.
  split; cbn [set_pc context pc posted freed delivered]; rewrite ?Hh; try done.
  intros c Hc. destruct (H1 c Hc) as [G1 G2 G3 G4 G5]. split; rewrite ?Hh; auto.
Qed.

(** The thread moves on and updates its context, the list unchanged. *)
Lemma wf_move_context s c p r : wfLooper s -> context s = Some c -> inHand p = [] ->
  (busy p = true -> r = true) ->
  wfLooper (set_pc (set_context (foldl FreeSoftBusMsg s (inHand (pc s)))
    (MkContext (msgHead c) (stop c) r None (msgSize c))) p).
Proof.
  intros [H1 H2 H3 H4 H5] Hc Hh Hb. destruct (H1 c Hc) as [G1 G2 G3 G4 G5]. rewrite foldl_free.
  split; cbn [set_pc set_context context pc posted freed delivered]; rewrite ?Hh; try done.
  - intros c' [= <-]. split; cbn [msgHead msgSize currentMsg running]; by rewrite ?Hh.
  - by destruct p.
  - etrans; [exact H4|]. unfold queued. cbn. rewrite Hc. by rewrite app_assoc.
Qed.

Lemma LoopTask_wf hasHandle now lockOk g s g' s' : wfLooper s ->
  LoopTask hasHandle now lockOk g s = Some (g', s') -> wfLooper s'.
Proof.
  intros Hwf Hs. pose proof Hwf as [H1 H2 H3 H4 H5]. unfold LoopTask in Hs.
  destruct (pc s) as [| |m due|m| | |p|] eqn:Hpc.
  - destruct (alive s); [|done]. cbn [negb] in Hs. destruct (context s) as [c|] eqn:Hc.
    2:{ simplify_eq. apply wf_move; rewrite ?Hpc; done. }
    destruct lockOk; cbn [negb] in Hs; simplify_eq; [|apply wf_move; rewrite ?Hpc; done].
    pose proof (wf_move_context s c LLoop true Hwf Hc eq_refl ltac:(done)) as Hm. rewrite Hpc in Hm.
    destruct (H1 c eq_refl) as [_ _ _ G4 _]. cbn in G4, Hm. by rewrite G4.
  - apply bind_Some in Hs as (c & [Hc Ha]%getContext_Some & Hs).
    assert (forall p : LoopPC A, inHand p = [] -> match p with LHandle m now => time m <= now | _ => True end ->
      wfLooper (set_pc s p)) as Hstay by (intros; apply wf_move; rewrite ?Hpc; done).
    destruct (negb lockOk); [simplify_eq; by apply Hstay|].
    destruct (stop c); [simplify_eq; by apply Hstay|].
    destruct (g_isNeedDestroy g); [simplify_eq; by apply Hstay|].
    destruct (msgHead c) as [|m rest] eqn:Hm; [by simplify_eq|].
    destruct (Z.leb_spec (time m) now); [|by simplify_eq]. simplify_eq.
    destruct (H1 c Hc) as [G1 G2 G3 G4 G5]. rewrite Hm in G1, G2, G3.
    apply StronglySorted_inv in G1 as [G1 _]. apply Forall_cons in G3 as [G3h G3].
    split; cbn; try done; [|by constructor|].
    + intros c' [= <-]. split; cbn [msgHead msgSize]; try done. rewrite G2. cbn [length]. cint.
    + etrans; [exact H4|]. unfold queued. cbn. by rewrite Hc, Hm.
  - apply bind_Some in Hs as (h & Hh & Hs). simplify_eq.
    apply wf_move; [|by destruct (hasHandle h); cbn; rewrite Hpc..|done].
    destruct (hasHandle h); [|done]. split; cbn; rewrite ?Hpc; try done.
    apply Forall_app. split; [done|]. by constructor.
  - apply bind_Some in Hs as (c & [Hc Ha]%getContext_Some & Hs). simplify_eq.
    pose proof (wf_move_context s c LLoop (running c) Hwf Hc eq_refl) as Hm. rewrite Hpc in Hm.
    apply Hm. intros _. by apply (c_running _ _ (H1 c Hc)).
  - apply bind_Some in Hs as (c & [Hc Ha]%getContext_Some & Hs). simplify_eq.
    pose proof (wf_move_context s c LCheck false Hwf Hc eq_refl ltac:(done)) as Hm. rewrite Hpc in Hm.
    destruct (H1 c Hc) as [_ _ _ G4 _]. cbn in G4, Hm. by rewrite G4.
  - simplify_eq. apply wf_move; rewrite ?Hpc; [done| | |]; by destruct (g_isNeedDestroy g').
  - by simplify_eq.
  - by simplify_eq.
Qed.

Lemma DestroyLooper_wf l g s d g' s' d' : wfLooper s ->
  DestroyLooper l g s d = Some (g', s', d') -> wfLooper s'.
Proof.
  intros Hwf Hs. pose proof Hwf as [H1 H2 H3 H4 H5]. destruct d; cbn in Hs.
  - destruct (alive s); [|done]. cbn in Hs. destruct (context s) as [c|] eqn:Hc; [|by simplify_eq].
    destruct (H1 c eq_refl) as [G1 G2 G3 G4 G5]. simplify_eq. split; cbn; try done.
    + intros c' [= <-]. by split.
    + etrans; [exact H4|]. unfold queued. cbn. by rewrite Hc.
  - apply bind_Some in Hs as (c & _ & Hs). by simplify_eq.
  - destruct (alive s); [|done]. cbn in Hs. rewrite foldl_free in Hs. simplify_eq.
    split; cbn; try done. etrans; [exact H4|]. unfold queued. cbn. solve_Permutation.
  - by simplify_eq.
Qed.

Definition deiniting (p : LoopPC A) : bool := match p with LDeinit _ => true | _ => false end.

Lemma loopStep_task hasHandle l now lockOk g s : deiniting (pc s) = false ->
  loopStep hasHandle l now lockOk g s = LoopTask hasHandle now lockOk g s.
Proof. unfold loopStep. by destruct (pc s). Qed.

(** In [LooperDeinit] the thread takes the steps of [DestroyLooper] on its own
    looper, or goes through the table. *)
Lemma loopStep_deinit hasHandle l now lockOk g s p g' s' : pc s = LDeinit p ->
  loopStep hasHandle l now lockOk g s = Some (g', s') ->
  exists s1 q, s' = set_pc s1 q /\ inHand q = [] /\ busy q = false /\ q <> LEntry /\
    (s1 = s \/ exists d d', DestroyLooper l g s d = Some (g', s1, d')).
Proof.
  intros Hpc Hs. unfold loopStep in Hs. rewrite Hpc in Hs.
  apply bind_Some in Hs as ([[g1 ls] p'] & Hd & Hs). apply bind_Some in Hs as (s1 & Hl & Hs). simplify_eq.
  exists s1, (match p' with Some q => LDeinit q | None => LEnd end). split_and!; try by destruct p'.
  unfold LooperDeinit in Hd. destruct p as [i|i l' d].
  - left. destruct (g_loopConfig g !! i) as [[ty [l'|]]|]; simplify_eq; try by rewrite lookup_singleton_eq in Hl; simplify_eq.
    apply bind_Some in Hd as (? & Hl' & Hd). apply bind_Some in Hd as (? & _ & Hd).
    destruct (negb _); simplify_eq; rewrite lookup_singleton_eq in Hl; by simplify_eq.
  - right. apply bind_Some in Hd as (s0 & [<- <-]%lookup_singleton_Some & Hd).
    apply bind_Some in Hd as ([[g1 s2] d'] & Hd & E). simplify_eq. rewrite lookup_insert_eq in Hl. simplify_eq. eauto.
Qed.

Lemma loopStep_wf hasHandle l now lockOk g s g' s' : wfLooper s ->
  loopStep hasHandle l now lockOk g s = Some (g', s') -> wfLooper s'.
Proof.
  intros Hwf Hs. destruct (deiniting (pc s)) eqn:Ed; [|rewrite loopStep_task in Hs by done; by eapply LoopTask_wf].
  destruct (pc s) as [| | | | | |p|] eqn:Hpc; try done.
  destruct (loopStep_deinit _ _ _ _ _ _ _ _ _ Hpc Hs) as (s1 & q & -> & Hq & Hb & _ & Hs1).
  assert (wfLooper s1 /\ pc s1 = pc s) as [Hwf1 Hp1].
  { destruct Hs1 as [->|(d & d' & Hd)]; [done|]. split; [by eapply DestroyLooper_wf|].
    unfold DestroyLooper in Hd. destruct d; repeat case_match; simplify_eq; try done.
    - apply bind_Some in Hd as (? & _ & Hd). by simplify_eq.
    - by rewrite foldl_free. }
  apply wf_move; [done|by rewrite Hq, Hp1, Hpc|by rewrite Hb|by destruct q].
Qed.

Lemma sysStep_wf hasHandle l w a w' : wfLooper (looper w) ->
  sysStep hasHandle l w a = Some w' -> wfLooper (looper w').
Proof.
  intros Hwf Hs. destruct a; cbn [sysStep] in Hs.
  - apply bind_Some in Hs as (s' & Hp & Hs). simplify_eq. by eapply PostMessageAtTime_wf.
  - apply bind_Some in Hs as (s' & Hp & Hs). simplify_eq. by eapply PostMessageAtTime_wf.
  - apply bind_Some in Hs as (s' & Hp & Hs). simplify_eq. by eapply LoopRemoveMessageCustom_wf.
  - apply bind_Some in Hs as ([g' s'] & Hp & Hs). simplify_eq. by eapply loopStep_wf.
  - by simplify_eq.
  - destruct (destroyer w); [|by simplify_eq].
    apply bind_Some in Hs as ([[g' s'] d'] & Hp & Hs). simplify_eq. by eapply DestroyLooper_wf.
Qed.

(** C10: in every execution of a looper, with any interleaving of its thread,
    its clients and a destroyer, and any failures of memory and locks, the
    message list is ordered by due time and counted by [msgSize], each
    message that was posted is in the list, in the hands of the thread, or
    freed, exactly once, and no message is delivered before it is due. *)
Theorem looper_invariant hasHandle l acts g a b n r s w :
  CreateNewLooper a b n r = Some s ->
  sysRun hasHandle l acts (MkSys g s None) = Some w -> wfLooper (looper w).
Proof.
  intros Hc%wf_create. change (wfLooper (looper (MkSys g s None))) in Hc. revert Hc.
  generalize (MkSys g s None). induction acts as [|act acts IH]; intros w0 Hwf Hr; cbn [sysRun] in Hr.
  - by simplify_eq.
  - apply bind_Some in Hr as (w1 & Hs & Hr). by eapply IH, Hr; eapply sysStep_wf.
Qed.

(** ** Posting and removing *)

(** Posting to a looper that is not stopped puts the message after all
    messages due no later and before all others; removing drops exactly the
    messages of the handler the function selects, keeps the order of the
    rest, and frees what it drops; a stopped looper refuses and frees what is
    posted and removes nothing. *)
Theorem post_remove_spec s c m hd h f : wfLooper s -> getContext s = Some c -> handler m = Some hd ->
  (stop c = false -> exists s', PostMessageAtTime true true s m = Some s' /\
     queued s' = filter (fun x => time x <= time m) (queued s) ++
                 m :: filter (fun x => time m < time x) (queued s) /\ freed s' = freed s) /\
  (stop c = false -> running c = true -> exists s', LoopRemoveMessageCustom true s h f = Some s' /\
     queued s' = filter (fun x => ~ removed h f x) (queued s) /\
     freed s' = freed s ++ filter (removed h f) (queued s)) /\
  (stop c = true -> exists s', PostMessageAtTime true true s m = Some s' /\
     queued s' = queued s /\ freed s' = freed s ++ [m] /\
     LoopRemoveMessageCustom true s h f = Some s).
Proof.
  intros Hwf Hg Hh. pose proof (getContext_Some s c Hg) as [Hc Ha].
  destruct (w_context s Hwf c Hc) as [G1 G2 G3 G4 G5].
  assert (queued s = msgHead c) as Hq by (unfold queued; by rewrite Hc).
  unfold PostMessageAtTime. rewrite Ha, Hh. cbn [negb].
  assert (getContext (add_posted s m) = Some c) as -> by (unfold getContext; cbn; by rewrite Ha).
  cbn [mbind option_bind]. split_and!.
  - intros Hs. rewrite Hs. eexists. split; [done|]. rewrite Hq. split; [|done]. by apply insertMsg_spec.
  - intros Hs Hr. eexists. rewrite (LoopRemoveMessageCustom_running s c); try done.
    + split; [done|]. cbn. by rewrite Hq.
    + rewrite G2. by auto with cint.
  - intros Hs. rewrite Hs. eexists. split; [done|]. split_and!; [done|done|].
    unfold LoopRemoveMessageCustom. rewrite Hg. cbn [mbind option_bind negb]. rewrite Hs, orb_true_r. done.
Qed.

(** ** Order of delivery *)

(** The list after posting [ms] to an empty looper. *)
Definition postAll (ms : list Msg) (q : list Msg) : list Msg := foldl (fun q m => insertMsg m q) q ms.

Lemma postAll_spec ms : forall q, StronglySorted dueBefore q ->
  StronglySorted dueBefore (postAll ms q) /\ postAll ms q ≡ₚ q ++ ms /\
  forall t, filter (fun m => time m = t) (postAll ms q) =
    filter (fun m => time m = t) q ++ filter (fun m => time m = t) ms.
Proof.
  induction ms as [|m ms IH]; intros q Hq; cbn [postAll foldl].
  { split_and!; [done|by rewrite app_nil_r|]. intros t. by rewrite app_nil_r. }
  destruct (IH (insertMsg m q)) as (H1 & H2 & H3); [by apply insertMsg_sorted|].
  split_and!; [done| |].
  - etrans; [exact H2|]. rewrite insertMsg_perm. solve_Permutation.
  - intros t. etrans; [apply H3|]. rewrite insertMsg_spec by done.
    rewrite (filter_cons _ m ms), filter_app, filter_cons, !list_filter_filter.
    assert (forall P : Msg -> Prop, forall (HP : forall x, Decision (P x)),
      (forall x, P x <-> False) -> filter P q = []) as Hnone.
    { intros P HP HF. apply list_filter_none, Forall_forall. intros x _ Hx. by apply (HF x). }
    destruct (decide (time m = t)) as [<-|Hne].
    + rewrite (list_filter_iff (fun x => time x = time m /\ time x <= time m) (fun x => time x = time m)) by lia.
      rewrite (Hnone (fun x => time x = time m /\ time m < time x)) by lia. by rewrite <- app_assoc.
    + assert (filter (fun x => time x = t /\ time x <= time m) q ++
        filter (fun x => time x = t /\ time m < time x) q = filter (fun x => time x = t) q) as ->; [|done].
      destruct (decide (t <= time m)).
      * rewrite (list_filter_iff (fun x => time x = t /\ time x <= time m) (fun x => time x = t)) by lia.
        rewrite (Hnone (fun x => time x = t /\ time m < time x)) by lia. apply app_nil_r.
      * rewrite (Hnone (fun x => time x = t /\ time x <= time m)) by lia.
        by rewrite (list_filter_iff (fun x => time x = t /\ time m < time x) (fun x => time x = t)) by lia.
Qed.

(** Three steps of the thread deliver and free the first message, when due. *)
Lemma deliver_one hasHandle l g s c m rest now d h :
  pc s = LLoop -> getContext s = Some c -> stop c = false -> g_isNeedDestroy g = false ->
  msgHead c = m :: rest -> time m <= now -> handler m = Some h -> hasHandle h = true ->
  exists s', sysRun hasHandle l (replicate 3 (ALoop now true)) (MkSys g s d) = Some (MkSys g s' d) /\
    pc s' = LLoop /\ delivered s' = delivered s ++ [(m, now)] /\ freed s' = freed s ++ [m] /\
    getContext s' = Some (MkContext rest false (running c) None (u32 (msgSize c - 1))).
Proof.
  intros Hpc Hg Hs Hn Hm Ht Hh Hhas. pose proof (getContext_Some s c Hg) as [Hc Ha].
  set (s1 := set_pc (set_context s (MkContext rest false (running c) (Some m) (u32 (msgSize c - 1))))
    (LHandle m now)).
  assert (LoopTask hasHandle now true g s = Some (g, s1)) as H1.
  { unfold LoopTask. rewrite Hpc, Hg. cbn [mbind option_bind negb].
    by rewrite Hs, Hn, Hm, (proj2 (Z.leb_le _ _)). }
  set (s2 := set_pc (add_delivered s1 m now) (LAfter m)).
  assert (LoopTask hasHandle now true g s1 = Some (g, s2)) as H2.
  { unfold LoopTask. cbn [s1 set_pc pc]. rewrite Hh. cbn [mbind option_bind]. by rewrite Hhas. }
  cbn [replicate sysRun sysStep globals looper]. rewrite (loopStep_task _ _ _ _ _ s) by (by rewrite Hpc).
  rewrite H1. cbn [mbind option_bind globals looper destroyer].
  rewrite loopStep_task by done. rewrite H2. cbn [mbind option_bind globals looper destroyer].
  rewrite loopStep_task by done. unfold LoopTask, getContext. cbn.
  rewrite Ha. cbn. eexists. split; [reflexivity|]. cbn. by rewrite Ha.
Qed.

Lemma sysRun_app hasHandle l a b w :
  sysRun hasHandle l (a ++ b) w = sysRun hasHandle l a w ≫= sysRun hasHandle l b.
Proof.
  revert w. induction a as [|x a IH]; intros w; cbn [app sysRun]; [done|].
  destruct (sysStep hasHandle l w x); cbn; [apply IH|done].
Qed.

Lemma deliver_all hasHandle l g now d q : forall s c,
  pc s = LLoop -> getContext s = Some c -> stop c = false -> g_isNeedDestroy g = false ->
  msgHead c = q -> Forall (fun m => time m <= now /\ exists h, handler m = Some h /\ hasHandle h = true) q ->
  exists s', sysRun hasHandle l (replicate (3 * length q) (ALoop now true)) (MkSys g s d) =
      Some (MkSys g s' d) /\
    delivered s' = delivered s ++ ((fun m => (m, now)) <$> q) /\ freed s' = freed s ++ q /\ queued s' = [].
Proof.
  induction q as [|m q IH]; intros s c Hpc Hg Hs Hn Hm Hall.
  - exists s. pose proof (getContext_Some s c Hg) as [Hc _]. cbn. rewrite !app_nil_r.
    unfold queued. by rewrite Hc.
  - apply Forall_cons in Hall as [(Ht & h & Hh & Hhas) Hall].
    replace (3 * length (m :: q))%nat with (3 + 3 * length q)%nat by (cbn [length]; lia).
    rewrite replicate_add, sysRun_app.
    destruct (deliver_one hasHandle l g s c m q now d h) as (s1 & -> & Hpc1 & Hd1 & Hf1 & Hg1); try done.
    cbn [mbind option_bind].
    destruct (IH s1 _ Hpc1 Hg1 eq_refl Hn eq_refl Hall) as (s2 & -> & Hd2 & Hf2 & Hq2).
    exists s2. split; [done|]. rewrite Hd2, Hd1, Hf2, Hf1, <- !app_assoc. by split_and!.
Qed.


(** ** Destruction *)

(** The thread has started, and it is not to destroy the looper itself. *)
Definition started (g : Globals) (p : LoopPC A) : Prop :=
  p <> LEntry /\ deiniting p = false /\ g_isNeedDestroy g = false.

(** The destroyer has not overtaken the thread. *)
Definition destroyOK (w : Sys) : Prop :=
  wfLooper (looper w) /\ started (globals w) (pc (looper w)) /\
  (alive (looper w) = true -> is_Some (context (looper w))) /\
  match destroyer w with
  | None | Some DStart => alive (looper w) = true
  | Some DWait => alive (looper w) = true /\ forall c, context (looper w) = Some c -> stop c = true
  | Some DRelease => alive (looper w) = true /\ busy (pc (looper w)) = false
  | Some DDone => context (looper w) = None /\ busy (pc (looper w)) = false
  end.

(** Neither the thread nor the destroyer touches released memory. *)
Lemma destroyOK_live w hasHandle now lockOk l : destroyOK w ->
  is_Some (loopStep hasHandle l now lockOk (globals w) (looper w)) /\
  forall d, destroyer w = Some d -> is_Some (DestroyLooper l (globals w) (looper w) d).
Proof.
  intros (Hwf & (He & Hni & _) & Hal & Hd). split.
  - rewrite loopStep_task by done. assert (busy (pc (looper w)) = true -> is_Some (getContext (looper w))) as Hget.
    { intros Hb. unfold getContext. destruct (destroyer w) as [[]|]; destruct_and?; try congruence;
        match goal with H : alive _ = true |- _ => rewrite H end; by apply Hal. }
    pose proof (w_hand _ Hwf) as Hh. unfold LoopTask.
    destruct (pc (looper w)) as [| |m due|m| | |p|] eqn:Hpc; try done;
      try (destruct (Hget eq_refl) as [c ->]; cbn; repeat case_match; eauto; done).
    apply Forall_cons in Hh as [[h ->] _]. cbn. eauto.
  - intros d Hdd. rewrite Hdd in Hd. unfold DestroyLooper, getContext. destruct d; destruct_and?; eauto;
      match goal with H : alive _ = true |- _ => rewrite H; destruct (Hal H) as [c ->] end; cbn; eauto.
Qed.

(** The thread stays off [LEntry], and once out of the loop it stays out. *)
Lemma LoopTask_pc hasHandle now lockOk g s g' s' : pc s <> LEntry ->
  LoopTask hasHandle now lockOk g s = Some (g', s') ->
  (started g (pc s) -> started g' (pc s')) /\ (busy (pc s) = false -> busy (pc s') = false) /\ alive s' = alive s /\
  (context s' = None <-> context s = None) /\
  (forall c c', context s = Some c -> context s' = Some c' -> stop c' = stop c).
Proof.
  intros He Hs. unfold LoopTask, started in *. destruct (pc s) as [| |m due|m| | |p|] eqn:Hpc; try done;
    repeat match type of Hs with
    | mbind _ _ = Some _ => apply bind_Some in Hs as (? & ? & Hs)
    | context [if ?b then _ else _] => destruct b eqn:?
    | context [match ?b with [] => _ | _ :: _ => _ end] => destruct b eqn:?
    end; simplify_eq; cbn; rewrite ?Hpc; cbn; try (split_and!; try done; naive_solver);
    match goal with H : getContext s = Some _ |- _ => apply getContext_Some in H as [Hc Ha] end;
    rewrite Hc; split_and!; try done; naive_solver.
Qed.

Lemma PostMessageAtTime_frame avail lockOk s m s' : PostMessageAtTime avail lockOk s m = Some s' ->
  pc s' = pc s /\ alive s' = alive s /\ (context s' = None <-> context s = None) /\
  (forall c c', context s = Some c -> context s' = Some c' -> stop c' = stop c /\ running c' = running c).
Proof.
  unfold PostMessageAtTime. intros Hs. destruct (alive s) eqn:Ha; [|done]. cbn [negb] in Hs.
  assert (getContext (add_posted s m) = context s) as Hg by (unfold getContext; cbn; by rewrite Ha).
  destruct (handler m), avail, lockOk; cbn [negb] in Hs; rewrite ?Hg in Hs;
    try (simplify_eq; cbn; rewrite ?Ha; split_and!; try done; naive_solver);
    destruct (context s) as [c|] eqn:Hc; cbn in Hs; try done;
    try (simplify_eq; cbn; rewrite ?Ha, ?Hc; split_and!; try done; naive_solver);
    destruct (stop c) eqn:Hst; simplify_eq; cbn; rewrite ?Ha, ?Hc; split_and!; try done; naive_solver.
Qed.

Lemma LoopRemoveMessageCustom_frame lockOk s h f s' :
  LoopRemoveMessageCustom lockOk s h f = Some s' -> wfLooper s ->
  pc s' = pc s /\ alive s' = alive s /\ (context s' = None <-> context s = None) /\
  (forall c c', context s = Some c -> context s' = Some c' -> stop c' = stop c /\ running c' = running c).
Proof.
  intros Hs Hwf. unfold LoopRemoveMessageCustom in Hs. apply bind_Some in Hs as (c & Hc & Hs).
  pose proof (getContext_Some s c Hc) as [Hc' Ha]. destruct (w_context s Hwf c Hc') as [_ G2 _ _ _].
  destruct lockOk; cbn [negb] in Hs; [|simplify_eq; split_and!; try done; naive_solver].
  destruct (negb (running c) || stop c); [simplify_eq; split_and!; try done; naive_solver|].
  rewrite removeLoop_spec in Hs by (rewrite G2; by auto with cint).
  rewrite foldl_free in Hs. simplify_eq. cbn. rewrite Hc'. split_and!; try done. naive_solver.
Qed.

Lemma destroyOK_frame w s' : destroyOK w -> wfLooper s' ->
  pc s' = pc (looper w) /\ alive s' = alive (looper w) /\
  (context s' = None <-> context (looper w) = None) /\
  (forall c c', context (looper w) = Some c -> context s' = Some c' -> stop c' = stop c /\ running c' = running c) ->
  destroyOK (MkSys (globals w) s' (destroyer w)).
Proof.
  intros (Hwf & He & Hal & Hd) Hwf' (Hp & Ha & Hn & Hst).
  unfold destroyOK. cbn [looper destroyer]. rewrite Hp, Ha. split_and!; try done.
  - intros Hl. apply not_eq_None_Some. rewrite Hn. apply not_eq_None_Some. auto.
  - destruct (destroyer w) as [[]|]; destruct_and?; split_and?; try done; [|by apply Hn].
    intros c' Hc'. destruct (context (looper w)) as [c|] eqn:Hc.
    + destruct (Hst c c') as [-> _]; auto.
    + by rewrite (proj2 Hn eq_refl) in Hc'.
Qed.

Lemma sysStep_destroyOK hasHandle l w a w' : destroyOK w ->
  sysStep hasHandle l w a = Some w' -> destroyOK w'.
Proof.
  intros Hok Hs. pose proof Hok as (Hwf & He & Hal & Hd).
  pose proof (sysStep_wf _ _ _ _ _ Hwf Hs) as Hwf'. destruct a; cbn [sysStep] in Hs.
  - apply bind_Some in Hs as (s' & Hp & Hs). simplify_eq. apply destroyOK_frame; try done.
    by apply PostMessageAtTime_frame in Hp.
  - apply bind_Some in Hs as (s' & Hp & Hs). simplify_eq. apply destroyOK_frame; try done.
    by apply PostMessageAtTime_frame in Hp.
  - apply bind_Some in Hs as (s' & Hp & Hs). simplify_eq. apply destroyOK_frame; try done.
    by apply LoopRemoveMessageCustom_frame in Hp.
  - apply bind_Some in Hs as ([g' s'] & Hp & Hs). simplify_eq.
    pose proof He as (He1 & Hni & Hnd). rewrite loopStep_task in Hp by done.
    apply LoopTask_pc in Hp as (He' & Hb & Ha & Hn & Hst); [|done]. specialize (He' He).
    unfold destroyOK. cbn [looper destroyer globals] in *. rewrite Ha. split_and!; try apply He'; try done.
    + intros Hl. apply not_eq_None_Some. rewrite Hn. apply not_eq_None_Some. auto.
    + destruct (destroyer w) as [[]|]; destruct_and?; split_and?; auto; [|by apply Hn].
      intros c' Hc'. destruct (context (looper w)) as [c|] eqn:Hc; [rewrite (Hst c c'); auto|].
      by rewrite (proj2 Hn eq_refl) in Hc'.
  - simplify_eq. unfold destroyOK. cbn [looper destroyer]. by destruct (destroyer w).
  - destruct (destroyer w) as [d|] eqn:Hdd; [|by simplify_eq].
    apply bind_Some in Hs as ([[g' s'] d'] & Hp & Hs). simplify_eq.
    unfold destroyOK. cbn [looper destroyer globals] in *. destruct d; cbn [DestroyLooper] in Hp.
    + rewrite Hd in Hp. cbn in Hp. destruct (Hal Hd) as [c Hc]. rewrite Hc in Hp. simplify_eq. cbn.
      rewrite Hd. split_and!; try done; naive_solver.
    + destruct Hd as [Hd Hst]. apply bind_Some in Hp as (c & [Hc _]%getContext_Some & Hp). simplify_eq.
      split_and!; try done. destruct (running c) eqn:Hr; split; try done.
      destruct (busy (pc (looper w))) eqn:Hb; [|done].
      pose proof (c_running _ _ (w_context _ Hwf c Hc) Hb). congruence.
    + destruct Hd as [Hd Hb]. rewrite Hd in Hp. cbn in Hp. rewrite foldl_free in Hp. simplify_eq.
      split; [exact Hwf'|]. split; [exact He|]. split; [done|]. split; [done|exact Hb].
    + simplify_eq. done.
Qed.

Lemma sysRun_destroyOK hasHandle l acts : forall w w', destroyOK w ->
  sysRun hasHandle l acts w = Some w' -> destroyOK w'.
Proof.
  induction acts as [|a acts IH]; intros w w' Hok Hr; cbn [sysRun] in Hr; [by simplify_eq|].
  apply bind_Some in Hr as (w1 & Hs & Hr). eapply IH, Hr. by eapply sysStep_destroyOK.
Qed.

(** Unless locking fails, [running] says exactly whether the thread is in
    its loop. *)
Definition runningOK (w : Sys) : Prop :=
  forall c, context (looper w) = Some c -> running c = busy (pc (looper w)).

Definition lockable (a : Action) : Prop := match a with ALoop _ lockOk => lockOk = true | _ => True end.

Lemma runningOK_frame w s' : runningOK w ->
  pc s' = pc (looper w) /\ alive s' = alive (looper w) /\
  (context s' = None <-> context (looper w) = None) /\
  (forall c c', context (looper w) = Some c -> context s' = Some c' -> stop c' = stop c /\ running c' = running c) ->
  runningOK (MkSys (globals w) s' (destroyer w)).
Proof.
  intros Hr (Hp & Ha & Hn & Hst) c' Hc'. cbn [looper] in *. rewrite Hp.
  destruct (context (looper w)) as [c|] eqn:Hc; [|by rewrite (proj2 Hn eq_refl) in Hc'].
  destruct (Hst c c') as [_ ->]; auto.
Qed.

Lemma DestroyLooper_running l g s d g' s' d' c' : DestroyLooper l g s d = Some (g', s', d') ->
  context s' = Some c' -> exists c, context s = Some c /\ running c' = running c.
Proof.
  intros Hs Hc'. destruct d; cbn [DestroyLooper] in Hs; repeat case_match; simplify_eq; eauto.
  - cbn in Hc'. simplify_eq. eauto.
  - apply bind_Some in Hs as (? & _ & Hs). simplify_eq. eauto.
Qed.

Lemma sysStep_runningOK hasHandle l w a w' : wfLooper (looper w) -> runningOK w -> lockable a ->
  sysStep hasHandle l w a = Some w' -> runningOK w'.
Proof.
  intros Hwf Hok Hl Hs. destruct a; cbn [sysStep] in Hs.
  - apply bind_Some in Hs as (s' & Hp & Hs). simplify_eq. apply runningOK_frame; try done.
    by apply PostMessageAtTime_frame in Hp.
  - apply bind_Some in Hs as (s' & Hp & Hs). simplify_eq. apply runningOK_frame; try done.
    by apply PostMessageAtTime_frame in Hp.
  - apply bind_Some in Hs as (s' & Hp & Hs). simplify_eq. apply runningOK_frame; try done.
    by apply LoopRemoveMessageCustom_frame in Hp.
  - apply bind_Some in Hs as ([g' s'] & Hp & Hs). simplify_eq. cbn in Hl. subst lockOk.
    destruct (deiniting (pc (looper w))) eqn:Edi; [|rewrite loopStep_task in Hp by done].
    { destruct (pc (looper w)) as [| | | | | |p|] eqn:Hpc; try done.
      destruct (loopStep_deinit _ _ _ _ _ _ _ _ _ Hpc Hp) as (s1 & q & -> & _ & Hb & _ & Hs1).
      intros c' Hc'. cbn in *. rewrite Hb. unfold runningOK in Hok. rewrite Hpc in Hok.
      destruct Hs1 as [->|(d & d' & Hd)]; [by apply Hok|].
      destruct (DestroyLooper_running _ _ _ _ _ _ _ _ Hd Hc') as (c & Hc & ->). by apply Hok. }
    unfold runningOK in *. cbn [looper]. unfold LoopTask in Hp. cbn [negb] in Hp.
    destruct (pc (looper w)) as [| |m due|m| | |p|] eqn:Hpc;
    repeat match type of Hp with
    | mbind _ _ = Some _ => apply bind_Some in Hp as (? & ? & Hp)
    | context [if ?b then _ else _] => destruct b eqn:?
    | context [match ?b with [] => _ | _ :: _ => _ end] => destruct b eqn:?
    | context [match ?b with Some _ => _ | None => _ end] => destruct b eqn:?
    end; simplify_eq; cbn; rewrite ?Hpc; try done; try (intros ? [= <-]; cbn; try done);
    try (apply Hok; by apply getContext_Some); congruence.
  - by simplify_eq.
  - destruct (destroyer w) as [d|] eqn:Hdd; [|by simplify_eq].
    apply bind_Some in Hs as ([[g' s'] d'] & Hp & Hs). simplify_eq. unfold runningOK in *. cbn [looper].
    destruct d; cbn [DestroyLooper] in Hp.
    + destruct (alive (looper w)); [|done]. cbn [negb] in Hp.
      destruct (context (looper w)) as [c|] eqn:Hc; simplify_eq; [|by rewrite Hc].
      intros c' [= <-]. cbn. by apply Hok.
    + apply bind_Some in Hp as (c & _ & Hp). by simplify_eq.
    + destruct (alive (looper w)); [|done]. cbn [negb] in Hp. by simplify_eq.
    + by simplify_eq.
Qed.

Lemma sysRun_runningOK hasHandle l acts : forall w w', wfLooper (looper w) -> runningOK w ->
  Forall lockable acts -> sysRun hasHandle l acts w = Some w' -> runningOK w'.
Proof.
  induction acts as [|a acts IH]; intros w w' Hwf Hok Hl Hr; cbn [sysRun] in Hr; [by simplify_eq|].
  apply Forall_cons in Hl as [Hl1 Hl]. apply bind_Some in Hr as (w1 & Hs & Hr).
  eapply IH, Hr; [by eapply sysStep_wf|by eapply sysStep_runningOK|done].
Qed.

Lemma destroyOK_started hasHandle l now g a b n r s w : g_isNeedDestroy g = false ->
  CreateNewLooper a b n r = Some s ->
  sysRun hasHandle l [ALoop now true] (MkSys g s None) = Some w -> destroyOK w.
Proof.
  intros Hg Hc Hr. pose proof (wf_create _ _ _ _ _ Hc) as Hwf.
  assert (wfLooper (looper w)) as Hwf'.
  { cbn [sysRun] in Hr. apply bind_Some in Hr as (w1 & Hs & Hr). simplify_eq. by eapply sysStep_wf, Hs. }
  unfold CreateNewLooper in Hc. repeat case_match; simplify_eq. cbn in Hr. simplify_eq.
  by split_and!.
Qed.

(** Four steps bring the thread of a stopped looper out of its loop. *)
Lemma stopped_thread_exits hasHandle l now w : destroyOK w -> destroyer w = Some DWait ->
  exists w', sysRun hasHandle l (replicate 4 (ALoop now true)) w = Some w' /\
    destroyer w' = Some DWait /\ busy (pc (looper w')) = false.
Proof.
  intros Hok Hd.
  pose (rank := fun p : LoopPC A => match p with
    | LHandle _ _ => 4%nat | LAfter _ => 3%nat | LLoop => 2%nat | LExit => 1%nat | _ => 0%nat end).
  assert (forall n w, destroyOK w -> destroyer w = Some DWait -> (rank (pc (looper w)) <= n)%nat ->
    exists w', sysRun hasHandle l (replicate n (ALoop now true)) w = Some w' /\
      destroyer w' = Some DWait /\ busy (pc (looper w')) = false) as Hgen.
  { clear w Hok Hd. induction n as [|n IH]; intros w Hok Hd Hr; cbn [replicate sysRun].
    { exists w. split_and!; try done. by destruct (pc (looper w)); cbn in Hr |- *; try lia. }
    destruct (destroyOK_live w hasHandle now true l Hok) as [[[g' s'] HL] _].
    cbn [sysStep]. rewrite HL. cbn [mbind option_bind].
    assert (destroyOK (MkSys g' s' (destroyer w))) as Hok'.
    { apply (sysStep_destroyOK hasHandle l w (ALoop now true)); [done|]. cbn. by rewrite HL. }
    apply IH; [done|done|]. cbn [looper].
    destruct Hok as (Hwf & He & Hal & Hdd). rewrite Hd in Hdd. destruct Hdd as [Ha Hst].
    destruct (Hal Ha) as [c Hc]. specialize (Hst c Hc). rewrite loopStep_task in HL by apply He. unfold LoopTask, getContext in HL.
    rewrite Ha, Hc in HL.
    destruct (pc (looper w)) as [| |m due|m| | |p|] eqn:Hpc; cbn in HL, Hr; try done;
      rewrite ?Hst in HL; simplify_eq; cbn; rewrite ?Hpc; cbn; try lia.
    - by destruct He.
    - apply bind_Some in HL as (h & _ & HL). simplify_eq. cbn. lia.
    - rewrite (proj2 (proj2 He)). cbn. lia. }
  apply (Hgen 4%nat w Hok Hd). destruct (pc (looper w)); cbn; lia.
Qed.

(** After the stop flag is set destruction ends. *)
Lemma destroy_ends hasHandle l now w : destroyOK w -> runningOK w -> destroyer w = Some DWait -> exists w',
  sysRun hasHandle l (replicate 4 (ALoop now true) ++ [ADestroy; ADestroy]) w = Some w' /\
  destroyer w' = Some DDone /\ alive (looper w') = false /\ posted (looper w') ≡ₚ freed (looper w').
Proof.
  intros Hok Hrun Hd. destruct (stopped_thread_exits hasHandle l now w Hok Hd) as (w2 & Hr2 & Hd2 & Hb2).
  pose proof (sysRun_destroyOK hasHandle l _ w w2 Hok Hr2) as Hok2.
  rewrite sysRun_app, Hr2. cbn [mbind option_bind sysRun sysStep]. rewrite Hd2.
  destruct Hok2 as (Hwf2 & He2 & Hal2 & Hdd2). rewrite Hd2 in Hdd2. destruct Hdd2 as [Ha2 _].
  destruct (Hal2 Ha2) as [c Hctx]. cbn [DestroyLooper]. unfold getContext. rewrite Ha2, Hctx.
  cbn [mbind option_bind].
  assert (running c = false) as ->.
  { assert (runningOK w2) as Hrun2; [|by rewrite <- Hb2; apply Hrun2].
    eapply (sysRun_runningOK hasHandle l (replicate 4 (ALoop now true))), Hr2; [apply Hok|done|by repeat constructor]. }
  cbn [sysStep globals looper destroyer DestroyLooper]. rewrite Ha2, Hctx. cbn [negb].
  rewrite foldl_free. cbn [mbind option_bind sysRun]. eexists. split; [reflexivity|].
  cbn [destroyer looper alive posted freed]. split_and!; try done.
  rewrite (w_account _ Hwf2). unfold queued. rewrite Hctx. destruct (pc (looper w2)); done.
Qed.

(** *** A looper that its own thread destroys

    [LooperDeinit] before the thread has started only sets [g_isNeedDestroy];
    the thread then leaves its loop and calls [LooperDeinit] itself. *)

(** The looper at [l] has one entry of the table, and is alone in it. *)
Definition table (before : list (Z * option Z)) (ty : Z) (entry : option Z) (after : list (Z * option Z)) :=
  before ++ (ty, entry) :: after.

Definition registered (l : Z) (t : list (Z * option Z)) (before : list (Z * option Z)) (ty : Z) (after : list (Z * option Z)) : Prop :=
  t = table before ty (Some l) after /\ Forall (fun e => e.2 = None) before /\ Forall (fun e => e.2 = None) after.

(** The looper is released exactly while the thread goes past its entry. *)
Definition selfOK (l : Z) (before : list (Z * option Z)) (ty : Z) (after : list (Z * option Z)) (w : Sys) : Prop :=
  wfLooper (looper w) /\ destroyer w = None /\ g_isNeedDestroy (globals w) = true /\ g_isThreadStarted (globals w) = true /\
  (if alive (looper w) then is_Some (context (looper w)) /\ g_loopConfig (globals w) = table before ty (Some l) after
   else context (looper w) = None /\ g_loopConfig (globals w) = table before ty None after) /\
  match pc (looper w) with
  | LEntry => False
  | LDeinit (DeinitAt i) => alive (looper w) = bool_decide (i <= length before)%nat
  | LDeinit (DeinitDestroy i l' d) => i = length before /\ l' = l /\ d <> DDone /\ alive (looper w) = true
  | LEnd => alive (looper w) = false
  | _ => alive (looper w) = true
  end.

(** How many steps the thread still takes. *)
Definition selfRank (before after : list (Z * option Z)) (p : LoopPC A) : nat :=
  let n := S (length before + length after) in
  match p with
  | LEntry => 0 | LHandle _ _ => n + 10 | LAfter _ => n + 9 | LLoop => n + 8 | LExit => n + 7 | LCheck => n + 6
  | LDeinit (DeinitAt i) => (n - i) + 1 + (if decide (i <= length before)%nat then 4 else 0)
  | LDeinit (DeinitDestroy i _ d) => (n - i) + 1 + (match d with DStart => 3 | DWait => 2 | DRelease => 1 | DDone => 0 end)
  | LEnd => 0
  end.

Lemma config_lookup before ty entry after i : Forall (fun e => e.2 = None) before -> Forall (fun e => e.2 = None) after ->
  (i = length before -> table before ty entry after !! i = Some (ty, entry)) /\
  (i <> length before -> (i < S (length before + length after))%nat -> exists t, table before ty entry after !! i = Some (t, None)) /\
  (S (length before + length after) <= i -> table before ty entry after !! i = None)%nat.
Proof.
  intros H1 H2. unfold table. rewrite Forall_lookup in H1, H2. split_and!.
  - intros ->. by apply list_lookup_middle.
  - intros Hne Hlt. destruct (decide (i < length before)%nat) as [Hb|Hb].
    + rewrite lookup_app_l by done. destruct (lookup_lt_is_Some_2 before i Hb) as [[t e] E]. rewrite E.
      pose proof (H1 _ _ E) as He. cbn in He. subst. eauto.
    + rewrite lookup_app_r by lia. destruct (i - length before)%nat as [|j] eqn:Ej; [lia|]. change (((ty, entry) :: after) !! S j) with (after !! j).
      destruct (lookup_lt_is_Some_2 after j) as [[t e] E]; [lia|]. rewrite E.
      pose proof (H2 _ _ E) as He. cbn in He. subst. eauto.
  - intros Hge. apply lookup_ge_None_2. rewrite length_app. cbn. lia.
Qed.

Lemma ReleaseLooper_table l before ty after : Forall (fun e => e.2 = None) before ->
  ReleaseLooper (table before ty (Some l) after) l = table before ty None after.
Proof.
  induction 1 as [|[t e] before He Hb IH]; cbn [table app ReleaseLooper].
  - by rewrite bool_decide_true.
  - cbn in He. rewrite bool_decide_false by congruence. f_equal. exact IH.
Qed.

(** A step of the thread succeeds and brings it nearer to its end. *)
Lemma self_step hasHandle l now before ty after w :
  Forall (fun e => e.2 = None) before -> Forall (fun e => e.2 = None) after ->
  selfOK l before ty after w -> runningOK w ->
  exists w', sysStep hasHandle l w (ALoop now true) = Some w' /\ selfOK l before ty after w' /\
    (selfRank before after (pc (looper w')) <= pred (selfRank before after (pc (looper w))))%nat.
Proof.
  intros Hbe Haf (Hwf & Hd & Hnd & Hst & Hal & Hpc) Hrun.
  assert (forall g' s', loopStep hasHandle l now true (globals w) (looper w) = Some (g', s') ->
    g_isNeedDestroy g' = true -> g_isThreadStarted g' = true ->
    (wfLooper s' -> selfOK l before ty after (MkSys g' s' None)) ->
    (selfRank before after (pc s') <= pred (selfRank before after (pc (looper w))))%nat ->
    exists w', sysStep hasHandle l w (ALoop now true) = Some w' /\ selfOK l before ty after w' /\
      (selfRank before after (pc (looper w')) <= pred (selfRank before after (pc (looper w))))%nat) as Hgo.
  { intros g' s' Hs ? ? Hok Hr. exists (MkSys g' s' None). cbn [sysStep]. rewrite Hs, Hd. cbn [mbind option_bind].
    split_and!; try done. apply Hok. by eapply loopStep_wf. }
  unfold runningOK in Hrun. destruct w as [[nd ts cfg] s dd]. cbn [globals looper destroyer g_isNeedDestroy g_isThreadStarted g_loopConfig] in *. subst nd ts dd.
  pose proof (w_hand _ Hwf) as Hh. unfold selfOK in Hgo. cbn [globals looper destroyer] in Hgo.
  unfold loopStep, LoopTask, getContext in Hgo.
  destruct (pc s) as [| |m due|m| | |[i|i l' d]|] eqn:Ep; [done|..].
  1-5: rewrite Hpc in *; destruct Hal as [[c Hc] Htab]; rewrite ?Hc in *; cbn [mbind option_bind negb g_isNeedDestroy] in *.
  - assert (forall b : bool, (if b then Some (MkGlobals true true cfg, set_pc s LExit) else Some (MkGlobals true true cfg, set_pc s LExit)) =
      Some (MkGlobals true true cfg, set_pc s LExit)) as E by (by intros []).
    refine (Hgo _ _ (E (stop c)) eq_refl eq_refl _ _); [|cbn; lia]. intros ?. cbn. rewrite Hpc, Hc. split_and!; eauto.
  - apply Forall_cons in Hh as [[h Hh] _]. rewrite Hh in *. cbn [mbind option_bind] in *.
    refine (Hgo _ _ eq_refl eq_refl eq_refl _ _); [|cbn; lia]. intros ?. destruct (hasHandle h); cbn; rewrite Hpc, Hc; split_and!; eauto.
  - refine (Hgo _ _ eq_refl eq_refl eq_refl _ _); [|cbn; lia]. intros ?. cbn. rewrite Hpc. split_and!; eauto.
  - refine (Hgo _ _ eq_refl eq_refl eq_refl _ _); [|cbn; lia]. intros ?. cbn. rewrite Hpc. split_and!; eauto.
  - refine (Hgo _ _ eq_refl eq_refl eq_refl _ _); [|cbn [set_pc pc selfRank]; destruct (decide _); lia].
    intros ?. cbn. rewrite Hpc, Hc. split_and!; eauto.
  - cbn [LooperDeinit g_loopConfig] in Hgo. rewrite Hpc in Hal.
    destruct (decide (i <= length before)%nat) as [Hi|Hi].
    + rewrite bool_decide_true in Hal, Hpc by done. destruct Hal as [[c Hc] Htab].
      destruct (config_lookup before ty (Some l) after i Hbe Haf) as (T1 & T2 & _). rewrite <- Htab in T1, T2.
      destruct (decide (i = length before)) as [Hie|Hie].
      * rewrite (T1 Hie), lookup_singleton_eq in Hgo. cbn [mbind option_bind] in Hgo. unfold getContext in Hgo. rewrite Hpc, Hc in Hgo. cbn in Hgo. rewrite lookup_singleton_eq in Hgo. cbn in Hgo.
        refine (Hgo _ _ eq_refl eq_refl eq_refl _ _); [|cbn [set_pc pc selfRank]; destruct (decide _); lia].
        intros ?. cbn. rewrite Hpc, Hc. split_and!; eauto.
      * destruct (T2 Hie ltac:(lia)) as [t Et]. rewrite Et in Hgo. cbn in Hgo. rewrite lookup_singleton_eq in Hgo. cbn in Hgo.
        refine (Hgo _ _ eq_refl eq_refl eq_refl _ _); [|cbn [set_pc pc selfRank]; repeat destruct (decide _); lia].
        intros ?. cbn. rewrite Hpc, Hc. rewrite bool_decide_true by lia. split_and!; eauto.
    + rewrite bool_decide_false in Hal, Hpc by done. destruct Hal as [Hc Htab].
      destruct (config_lookup before ty None after i Hbe Haf) as (_ & T2 & T3). rewrite <- Htab in T2, T3.
      destruct (decide (i < S (length before + length after))%nat) as [Hlt|Hge].
      * destruct (T2 ltac:(lia) Hlt) as [t Et]. rewrite Et in Hgo. cbn in Hgo. rewrite lookup_singleton_eq in Hgo. cbn in Hgo.
        refine (Hgo _ _ eq_refl eq_refl eq_refl _ _); [|cbn [set_pc pc selfRank]; repeat destruct (decide _); lia].
        intros ?. cbn. rewrite Hpc, Hc. rewrite bool_decide_false by lia. split_and!; eauto.
      * rewrite T3 in Hgo by lia. cbn in Hgo. rewrite lookup_singleton_eq in Hgo. cbn in Hgo.
        refine (Hgo _ _ eq_refl eq_refl eq_refl _ _); [|cbn; lia].
        intros ?. cbn. rewrite Hpc, Hc. split_and!; eauto.
  - destruct Hpc as (-> & -> & Hdd & Ha). rewrite Ha in *. destruct Hal as [[c Hc] Htab].
    cbn [LooperDeinit] in Hgo. rewrite lookup_singleton_eq in Hgo. cbn [mbind option_bind] in Hgo.
    destruct d; [..|done]; cbn [DestroyLooper] in Hgo; unfold getContext in Hgo; rewrite Ha, Hc in Hgo; cbn [negb mbind option_bind] in Hgo.
    + rewrite lookup_insert_eq in Hgo. cbn [mbind option_bind] in Hgo.
      refine (Hgo _ _ eq_refl eq_refl eq_refl _ _); [|cbn; lia]. intros ?. cbn. rewrite Ha. split_and!; eauto.
    + rewrite (Hrun c Hc) in Hgo. cbn [busy] in Hgo. rewrite lookup_insert_eq in Hgo. cbn [mbind option_bind] in Hgo.
      refine (Hgo _ _ eq_refl eq_refl eq_refl _ _); [|cbn; lia]. intros ?. cbn. rewrite Ha, Hc. split_and!; eauto.
    + rewrite lookup_insert_eq, foldl_free in Hgo. cbn [mbind option_bind] in Hgo.
      refine (Hgo _ _ eq_refl eq_refl eq_refl _ _); [|cbn [set_pc pc selfRank]; destruct (decide _); lia].
      intros ?. cbn. rewrite bool_decide_false by lia. split_and!; eauto. rewrite Htab. by apply ReleaseLooper_table.
  - refine (Hgo _ _ eq_refl eq_refl eq_refl _ _); [|rewrite Ep; cbn; lia]. intros ?. rewrite Ep, Hpc in *. destruct Hal. split_and!; eauto.
Qed.

(** Clients that still reach the looper do not disturb it. *)
Lemma self_frame l before ty after w s' : selfOK l before ty after w -> wfLooper s' ->
  pc s' = pc (looper w) /\ alive s' = alive (looper w) /\ (context s' = None <-> context (looper w) = None) /\
  (forall c c', context (looper w) = Some c -> context s' = Some c' -> stop c' = stop c /\ running c' = running c) ->
  selfOK l before ty after (MkSys (globals w) s' (destroyer w)).
Proof.
  intros (_ & Hd & Hnd & Hst & Hal & Hpc) Hwf (Hp & Ha & Hn & _). unfold selfOK. cbn [globals looper destroyer]. rewrite Hp, Ha.
  split_and!; try done. destruct (alive (looper w)); destruct Hal as [Hc ?]; split; try done; [|by apply Hn].
  apply not_eq_None_Some. rewrite Hn. by apply not_eq_None_Some.
Qed.

Lemma sysStep_selfOK hasHandle l before ty after w a w' :
  Forall (fun e => e.2 = None) before -> Forall (fun e => e.2 = None) after ->
  selfOK l before ty after w -> runningOK w -> lockable a -> a <> ACallDestroy ->
  sysStep hasHandle l w a = Some w' -> selfOK l before ty after w'.
Proof.
  intros Hb Ha Hok Hrun Hl Hne Hs. pose proof Hok as (Hwf & Hd & _). pose proof (sysStep_wf _ _ _ _ _ Hwf Hs) as Hwf'.
  destruct a as [| | |now lockOk| |]; [..|done|]; try (cbn [sysStep] in Hs; apply bind_Some in Hs as (s' & Hp & Hs); simplify_eq).
  - eapply self_frame; [done..|]. by eapply PostMessageAtTime_frame.
  - eapply self_frame; [done..|]. by eapply PostMessageAtTime_frame.
  - eapply self_frame; [done..|]. by eapply LoopRemoveMessageCustom_frame.
  - cbn in Hl. subst lockOk. destruct (self_step hasHandle l now before ty after w Hb Ha Hok Hrun) as (w1 & E & ? & _).
    cbn [sysStep] in E. rewrite Hp in E. cbn in E. by destruct s'; simplify_eq.
  - cbn [sysStep] in Hs. rewrite Hd in Hs. by simplify_eq.
Qed.

Lemma sysRun_selfOK hasHandle l before ty after acts : forall w w',
  Forall (fun e => e.2 = None) before -> Forall (fun e => e.2 = None) after ->
  selfOK l before ty after w -> runningOK w -> Forall lockable acts -> ACallDestroy ∉ acts ->
  sysRun hasHandle l acts w = Some w' -> selfOK l before ty after w' /\ runningOK w'.
Proof.
  induction acts as [|a acts IH]; intros w w' Hb Ha Hok Hrun Hl Hne Hr; cbn [sysRun] in Hr; [by simplify_eq|].
  apply Forall_cons in Hl as [Hl1 Hl]. apply not_elem_of_cons in Hne as [Hne1 Hne]. apply bind_Some in Hr as (w1 & Hs & Hr).
  eapply IH, Hr; try done; [by eapply sysStep_selfOK|]. eapply sysStep_runningOK; [apply Hok|done..].
Qed.

(** Left alone, the thread comes to its end. *)
Lemma self_ends hasHandle l now before ty after n : forall w,
  Forall (fun e => e.2 = None) before -> Forall (fun e => e.2 = None) after ->
  selfOK l before ty after w -> runningOK w -> (selfRank before after (pc (looper w)) <= n)%nat ->
  exists w', sysRun hasHandle l (replicate n (ALoop now true)) w = Some w' /\ selfOK l before ty after w' /\ pc (looper w') = LEnd.
Proof.
  induction n as [|n IH]; intros w Hb Ha Hok Hrun Hn; cbn [replicate sysRun].
  - exists w. split_and!; try done. destruct Hok as (_ & _ & _ & _ & _ & Hpc).
    destruct (pc (looper w)) as [| | | | | |[]|]; cbn [selfRank] in Hn; try done; lia.
  - destruct (self_step hasHandle l now before ty after w Hb Ha Hok Hrun) as (w1 & E & Hok1 & Hr1).
    rewrite E. cbn [mbind option_bind]. apply IH; try done; [|lia]. eapply sysStep_runningOK, E; [apply Hok|done|done].
Qed.

Lemma runningOK_created hasHandle l now g a b n r s w :
  CreateNewLooper a b n r = Some s -> sysRun hasHandle l [ALoop now true] (MkSys g s None) = Some w ->
  runningOK w /\ looper w = set_pc (set_context s (MkContext [] false true None 0)) LLoop /\
  globals w = MkGlobals (g_isNeedDestroy g) true (g_loopConfig g) /\ destroyer w = None.
Proof.
  intros Hc Hr. split.
  - eapply (sysRun_runningOK hasHandle l [ALoop now true]), Hr; [by eapply wf_create| |by constructor].
    unfold CreateNewLooper in Hc. repeat case_match; simplify_eq. by intros c [= <-].
  - unfold CreateNewLooper in Hc. repeat case_match; simplify_eq. cbn in Hr. by simplify_eq.
Qed.

Lemma selfOK_started hasHandle l now g a b n r s w before ty after : g_isNeedDestroy g = true ->
  registered l (g_loopConfig g) before ty after -> CreateNewLooper a b n r = Some s ->
  sysRun hasHandle l [ALoop now true] (MkSys g s None) = Some w -> selfOK l before ty after w.
Proof.
  intros Hg (Ht & _) Hc Hr. destruct (runningOK_created _ _ _ _ _ _ _ _ _ _ Hc Hr) as (_ & E1 & E2 & E3).
  assert (wfLooper (looper w)) as Hwf.
  { pose proof (wf_create _ _ _ _ _ Hc) as Hwf. cbn [sysRun] in Hr. apply bind_Some in Hr as (w1 & Hs & Hr). simplify_eq. by eapply sysStep_wf, Hs. }
  assert (alive s = true) as Ha by (unfold CreateNewLooper in Hc; repeat case_match; by simplify_eq).
  split; [done|]. rewrite E1, E2, E3. cbn. rewrite Ha. split_and!; eauto.
Qed.

(** The thread never touches released memory, whatever its lock answers. *)
Lemma self_live hasHandle l now lockOk before ty after w :
  Forall (fun e => e.2 = None) before -> Forall (fun e => e.2 = None) after ->
  selfOK l before ty after w -> runningOK w -> is_Some (sysStep hasHandle l w (ALoop now lockOk)).
Proof.
  intros Hb Ha Hok Hrun. destruct lockOk; [destruct (self_step hasHandle l now before ty after w Hb Ha Hok Hrun) as (w' & E & _); eauto|].
  destruct (self_step hasHandle l now before ty after w Hb Ha Hok Hrun) as (w' & E & _).
  destruct Hok as (_ & _ & _ & _ & Hal & Hpc). cbn [sysStep] in *. unfold loopStep, LoopTask in *.
  destruct (pc (looper w)); try done; try (by eexists).
  rewrite Hpc in Hal. destruct Hal as [[c Hc] _]. unfold getContext. rewrite Hpc, Hc. by eexists.
Qed.


(** When the thread is about to destroy the looper itself and another thread
    does so as well, memory is used after its release. *)
Lemma destroy_race hasHandle l now rest ty n : n <= LOOP_NAME_LEN ->
  exists s w, CreateNewLooper true true n 0 = Some s /\
    sysRun hasHandle l (replicate 5 (ALoop now true) ++ [ACallDestroy; ADestroy; ADestroy; ADestroy])
      (MkSys (MkGlobals true false ((ty, Some l) :: rest)) s None) = Some w /\
    destroyer w = Some DDone /\ sysStep hasHandle l w (ALoop now true) = None.
Proof.
  intros Hn. unfold CreateNewLooper. cbn [negb]. rewrite (proj2 (Z.ltb_ge _ _)) by done.
  eexists (MkLooper true true _ _ _ _ _), (MkSys (MkGlobals true true (ReleaseLooper ((ty, Some l) :: rest) l))
    (MkLooper false true None (LDeinit (DeinitDestroy 0 l DStart)) [] [] []) (Some DDone)).
  split; [reflexivity|]. assert (forall s : State, ({[l := s]} : gmap Z State) !! l = Some s) as El by (intros; apply lookup_singleton_eq).
  assert (((ty, Some l) :: rest) !! 0%nat = Some (ty, Some l)) as E0 by done.
  cbn -[lookup singletonM insert ReleaseLooper]. rewrite !E0. cbn -[lookup singletonM insert ReleaseLooper].
  repeat (rewrite !El; cbn -[lookup singletonM insert ReleaseLooper]). done.
Qed.

(** [CreateNewLooper] does not wait for its thread, and before the thread
    has run [running] is still 0: a [DestroyLooper] that comes first finds
    nothing to wait for and releases the looper, which the thread then
    reads. *)
Lemma destroy_before_start hasHandle l g n now lockOk : n <= LOOP_NAME_LEN ->
  exists s w, CreateNewLooper true true n 0 = Some s /\
    sysRun hasHandle l [ACallDestroy; ADestroy; ADestroy; ADestroy] (MkSys g s None) = Some w /\
    destroyer w = Some DDone /\ sysStep hasHandle l w (ALoop now lockOk) = None.
Proof.
  intros Hn. unfold CreateNewLooper. cbn [negb]. rewrite (proj2 (Z.ltb_ge _ _)) by done.
  eexists _, _. split; [reflexivity|]. split; [reflexivity|]. done.
Qed.

(** ** The table *)

(** In a table with distinct types, [SetLooper] changes what [GetLooper]
    answers for its type, if the table has it, and for no other;
    [ReleaseLooper] clears the entry of a looper registered once and changes
    no other. *)
Theorem looper_table_spec config t t' l x : NoDup config.*1 -> NoDup (omap id config.*2) ->
  GetLooper (SetLooper config t x) t' =
    (if bool_decide (t' = t /\ t ∈ config.*1) then x else GetLooper config t') /\
  GetLooper (ReleaseLooper config l) t' =
    (if bool_decide (GetLooper config t' = Some l) then None else GetLooper config t') /\
  (SetLooper config t x).*1 = config.*1 /\ (ReleaseLooper config l).*1 = config.*1.
Proof.
  intros Hnd Hl. induction config as [|[ty lp] config IH]; cbn [SetLooper GetLooper ReleaseLooper fmap list_fmap fst].
  { split_and!; try done. rewrite bool_decide_false; [done|]. set_solver. }
  cbn [fmap list_fmap fst snd] in Hnd, Hl. apply NoDup_cons in Hnd as [Hty Hnd].
  assert (NoDup (omap id config.*2)) as Hl'.
  { destruct lp; [|done]. cbn in Hl. by apply NoDup_cons in Hl as [_ Hl]. }
  destruct (IH Hnd Hl') as (IH1 & IH2 & IH3 & IH4). split_and!.
  - destruct (Z.eqb_spec ty t'), (Z.eqb_spec ty t); subst.
    + rewrite bool_decide_true; [done|]. split; [done|]. by left.
    + rewrite bool_decide_false; [done|]. intros [-> _]. done.
    + rewrite IH1, !bool_decide_false; [done| |]; intros [-> _]; done.
    + rewrite IH1. apply (f_equal (fun b : bool => if b then x else GetLooper config t')).
      apply bool_decide_ext. set_solver.
  - destruct (decide (lp = Some l)) as [-> |Hlp];
      [rewrite (bool_decide_true (Some l = Some l)) by done|rewrite (bool_decide_false (lp = Some l)) by done];
      cbn [GetLooper].
    + destruct (Z.eqb_spec ty t').
      * by rewrite bool_decide_true.
      * rewrite bool_decide_false; [done|]. intros Hg. cbn in Hl. apply NoDup_cons in Hl as [Hl _].
        apply Hl, list_elem_of_omap. exists (Some l). split; [|done].
        apply list_elem_of_fmap. clear -Hg. induction config as [|[a b] config IH]; [done|].
        cbn [GetLooper] in Hg. destruct (a =? t'); [exists (a, b); subst; split; [done|by left]|].
        destruct (IH Hg) as (y & ? & ?). exists y. split; [done|by right].
    + destruct (Z.eqb_spec ty t'); [by rewrite bool_decide_false|exact IH2].
  - by f_equal.
  - destruct (decide (lp = Some l));
      [rewrite (bool_decide_true (lp = Some l)) by done|rewrite (bool_decide_false (lp = Some l)) by done];
      csimpl; [done|]. by rewrite IH4.
Qed.

End Looper.

(** The messages [1] and [2] for handler [7], due at 10 and at 20. *)
Definition exampleMsg (w t : Z) : SoftBusMessage unit := MkMsg w 0 0 t tt (Some 7).
Definition exampleState : LooperState unit :=
  MkLooper true true (Some (MkContext [exampleMsg 1 10; exampleMsg 2 20] false true None 2))
    LLoop [exampleMsg 1 10; exampleMsg 2 20] [] [].

Lemma exampleState_wf : wfLooper exampleState.
Proof.
  split; [|by constructor|done|done|by constructor]. intros c [= <-]. split; try done.
  - repeat constructor; unfold dueBefore; cbn; lia.
  - repeat constructor; cbn; eauto.
Qed.

Lemma looper_invariant_witness :
  exists s w, CreateNewLooper true true 12 0 = Some s /\
    sysRun (fun _ => true) 1
      [ALoop 0 true; APost true true 5 (exampleMsg 1 0); APost true true 5 (exampleMsg 2 0);
       ARemove true (Some 7) (WhatRemoveFunc 1); ALoop 5 true; ALoop 5 true]
      (MkSys (MkGlobals false false initialConfig) s None) = Some w /\ wfLooper (looper w).
Proof.
  eexists _, _. split; [reflexivity|]. split; [vm_compute; reflexivity|].
  eapply (looper_invariant (fun _ => true) 1
      [ALoop 0 true; APost true true 5 (exampleMsg 1 0); APost true true 5 (exampleMsg 2 0);
       ARemove true (Some 7) (WhatRemoveFunc 1); ALoop 5 true; ALoop 5 true]
      (MkGlobals false false initialConfig) true true 12 0); [reflexivity|vm_compute; reflexivity].
Defined.

Lemma post_remove_spec_witness :
  exists s', PostMessageAtTime true true exampleState (exampleMsg 3 10) = Some s' /\
    queued s' = [exampleMsg 1 10; exampleMsg 3 10; exampleMsg 2 20].
Proof.
  destruct (post_remove_spec exampleState (MkContext [exampleMsg 1 10; exampleMsg 2 20] false true None 2)
    (exampleMsg 3 10) 7 None (fun _ => 1) exampleState_wf eq_refl eq_refl) as [H _].
  destruct (H eq_refl) as (s' & Hs & Hq & _). exists s'. split; [exact Hs|exact Hq].
Defined.



Lemma looper_table_spec_witness :
  GetLooper (SetLooper initialConfig LOOP_TYPE_P2P (Some 9)) LOOP_TYPE_P2P = Some 9.
Proof.
  destruct (looper_table_spec initialConfig LOOP_TYPE_P2P LOOP_TYPE_P2P 1 (Some 9)) as (H & _).
  - vm_compute. repeat constructor; set_solver.
  - vm_compute. constructor.
  - rewrite H. reflexivity.
Defined.

End Looper.
