(* ===== verification/StateMachine.v ===== *)
(** * The state machine of the bus centre

    Models [core/bus_center/utils/src/lnn_state_machine.c].  A machine posts
    control messages to a looper and handles them on the looper's thread.
    [MessageLoop] is the table of function pointers a [SoftBusLooper]
    carries; the machine is defined over it, [MessageLoopLaws] states what
    the theorems need of it, and the instance at the end discharges that from
    the looper of [Looper.v].

    States are known by their address; [ops] gives the functions behind it.
    Those functions, and the deinit callback, belong to the clients: a
    callback is a [Prog], any sequence of calls of this file's interface in
    which the next call may depend on the results of the earlier ones.
    Callbacks may change the state from inside a state change; [fuel] bounds
    the depth of that nesting, and [None] is running out of it, or a failure
    of the looper to take the message because it was released. *)

From S2P Require Import Prelude Errno Looper.
Import Errno Looper.

Module StateMachine.

Definition FSM_FLAG_RUNNING : Z := 1.
Definition FSM_CTRL_MSG_START : Z := 0.
Definition FSM_CTRL_MSG_DATA : Z := 1.
Definition FSM_CTRL_MSG_STOP : Z := 2.
Definition FSM_CTRL_MSG_DEINIT : Z := 3.

(** [fsm] is whether the field is set (there is one machine); [data] is the
    pointer the clients pass, [None] for NULL. *)
Record FsmCtrlMsgObj := MkObj { fsm : bool; data : option Z }.

(** [msg->obj], NULL when [None]. *)
Abbreviation Msg := (SoftBusMessage (option FsmCtrlMsgObj)).

(** What memory and the clock answer during one call. *)
Record Env := MkEnv { now : Z; availMsg : bool; availObj : bool; availNode : bool; lockOk : bool }.

(** The function pointers of [struct SoftBusLooper] a machine uses, and the
    messages the looper holds.  [RemoveMessageCustom] also says which messages
    the function was called on and selected, since [RemoveMessageFunc] has an
    effect on those. *)
Class MessageLoop (L : Type) := {
  PostMessage : Env -> L -> Msg -> option L;
  PostMessageDelay : Env -> L -> Msg -> Z -> option L;
  RemoveMessageCustom : Env -> L -> option Z -> (Msg -> Z) -> option (L * list Msg);
  pending : L -> list Msg
}.

(** What a machine relies on: as long as the looper is in service it takes
    every message that has a handler, in the order of the due times and of
    posting, and removes exactly the messages selected. *)
Class MessageLoopLaws (L : Type) `{MessageLoop L} := {
  ml_ok : L -> Prop;
  ml_post : forall env l m, ml_ok l -> is_Some (handler m) ->
    exists l', PostMessage env l m = Some l' /\ ml_ok l' /\
      (availNode env = true -> lockOk env = true ->
       pending l' = filter (fun x => time x <= now env) (pending l) ++
         with_time m (now env) :: filter (fun x => now env < time x) (pending l));
  ml_post_delay : forall env l m d, ml_ok l -> is_Some (handler m) ->
    exists l', PostMessageDelay env l m d = Some l' /\ ml_ok l';
  ml_remove : forall env l h f, ml_ok l ->
    exists l' sel, RemoveMessageCustom env l h f = Some (l', sel) /\ ml_ok l' /\
      (lockOk env = true -> pending l' = filter (fun m => ~ removed h f m) (pending l) /\
         sel = filter (removed h f) (pending l))
}.

Record FsmStateMachine (L : Type) := MkFsm {
  curState : option Z; flag : Z; stateList : list Z; looper : option L;
  handlerAddr : Z; deinitCallback : option Z
}.
Arguments MkFsm {L} _ _ _ _ _ _.
Arguments curState {L} _.
Arguments flag {L} _.
Arguments stateList {L} _.
Arguments looper {L} _.
Arguments handlerAddr {L} _.
Arguments deinitCallback {L} _.

(** What the callbacks are told, in order. *)
Inductive FsmEvent :=
| EvEnter (state : Z) | EvExit (state : Z) | EvProcess (state msgType : Z) (para : option Z)
| EvDeinit (cb : Z).

(** The machine, what its callbacks were told, and the data pointers
    released by this file. *)
Record World (L : Type) := MkWorld {
  machine : FsmStateMachine L; trace : list FsmEvent; freedData : list Z
}.
Arguments MkWorld {L} _ _ _.
Arguments machine {L} _.
Arguments trace {L} _.
Arguments freedData {L} _.

(** The calls a client makes, and the programs made of them. *)
Inductive Cmd :=
| CAddState (state : option Z)
| CStart (initialState : option Z)
| CStop
| CDeinit
| CPostMessage (msgType : Z) (para : option Z)
| CPostMessageDelay (msgType : Z) (para : option Z) (delayMillis : Z)
| CRemoveMessage (msgType : Z)
| CTransactState (state : option Z).

Inductive Prog := Ret | Call (c : Cmd) (k : Z -> Prog).

Section Machine.
Context {L : Type} `{ML : MessageLoop L}.

(** The functions of a state; [None] for a NULL pointer. *)
Record FsmState := MkState {
  enter : option (World L -> Prog);
  process : option (World L -> Z -> option Z -> Prog);
  exit : option (World L -> Prog)
}.

Context (ops : Z -> FsmState) (deinitOf : Z -> World L -> Prog).

Definition set_machine (w : World L) (m : FsmStateMachine L) : World L :=
  MkWorld m (trace w) (freedData w).
Definition set_curState (w : World L) (s : option Z) : World L :=
  let m := machine w in
  set_machine w (MkFsm s (flag m) (stateList m) (looper m) (handlerAddr m) (deinitCallback m)).
Definition set_flag (w : World L) (f : Z) : World L :=
  let m := machine w in
  set_machine w (MkFsm (curState m) f (stateList m) (looper m) (handlerAddr m) (deinitCallback m)).
Definition set_looper (w : World L) (l : L) : World L :=
  let m := machine w in
  set_machine w (MkFsm (curState m) (flag m) (stateList m) (Some l) (handlerAddr m) (deinitCallback m)).
Definition log (w : World L) (e : FsmEvent) : World L :=
  MkWorld (machine w) (trace w ++ [e]) (freedData w).

(** The loop over [stateList]. *)
Definition IsDuplicateState (m : FsmStateMachine L) (state : Z) : bool :=
  existsb (fun item => item =? state) (stateList m).

(** [FreeFsmHandleMsg] and [FreeFsmHandleMsgObj]: only the latter releases
    the data pointer. *)
Definition FreeFsmHandleMsgObj (w : World L) (ctrlMsgObj : option FsmCtrlMsgObj) : World L :=
  match ctrlMsgObj with
  | Some o => match data o with
              | Some p => MkWorld (machine w) (trace w) (freedData w ++ [p])
              | None => w
              end
  | None => w
  end.

Definition CreateFsmHandleMsg (env : Env) (m : FsmStateMachine L) (what_ arg1_ arg2_ : Z)
    (para : option Z) : option Msg :=
  if negb (availMsg env) then None
  else if negb (availObj env) then None
  else Some (MkMsg what_ arg1_ arg2_ 0 (Some (MkObj true para)) (Some (handlerAddr m))).

(** A call that posts: the result code, and the machine with its looper. *)
Definition PostMessageToFsm (env : Env) (w : World L) (l : L) (what_ arg1_ arg2_ : Z)
    (para : option Z) : option (Z * World L) :=
  match CreateFsmHandleMsg env (machine w) what_ arg1_ arg2_ para with
  | None => Some (SOFTBUS_ERR, w)
  | Some msg => l' ← PostMessage env l msg; Some (SOFTBUS_OK, set_looper w l')
  end.

(** [(int32_t)(intptr_t)para] for the pointer made of [msgType]. *)
Definition RemoveMessageFunc (para : Z) (msg : Msg) : Z :=
  if para =? 0 then 1
  else if (what msg =? FSM_CTRL_MSG_DATA) && (s32 (arg1 msg) =? s32 para) then 0 else 1.

(** ** The interface without state changes *)

Definition LnnFsmInit (looper_ : option L) (default_ : option L) (nameNull : bool) (h : Z)
    (cb : option Z) : Z * option (FsmStateMachine L) :=
  if nameNull then (SOFTBUS_INVALID_PARAM, None)
  else match (match looper_ with None => default_ | Some l => Some l end) with
  | None => (SOFTBUS_ERR, Some (MkFsm None 0 [] None 0 None))
  | Some l => (SOFTBUS_OK, Some (MkFsm None 0 [] (Some l) h cb))
  end.

Definition LnnFsmDeinit (env : Env) (w : World L) : option (Z * World L) :=
  match looper (machine w) with
  | None => Some (SOFTBUS_INVALID_PARAM, w)
  | Some l => PostMessageToFsm env w l FSM_CTRL_MSG_DEINIT 0 0 None
  end.

Definition LnnFsmAddState (w : World L) (state : option Z) : Z * World L :=
  match looper (machine w), state with
  | Some _, Some s =>
    let m := machine w in
    if IsDuplicateState m s then (SOFTBUS_ERR, w)
    else (SOFTBUS_OK, set_machine w (MkFsm (curState m) (flag m) (s :: stateList m) (looper m)
                                      (handlerAddr m) (deinitCallback m)))
  | _, _ => (SOFTBUS_INVALID_PARAM, w)
  end.

Definition LnnFsmStart (env : Env) (w : World L) (initialState : option Z) : option (Z * World L) :=
  match looper (machine w), initialState with
  | Some l, Some _ => PostMessageToFsm env w l FSM_CTRL_MSG_START 0 0 initialState
  | _, _ => Some (SOFTBUS_INVALID_PARAM, w)
  end.

Definition LnnFsmStop (env : Env) (w : World L) : option (Z * World L) :=
  match looper (machine w) with
  | None => Some (SOFTBUS_INVALID_PARAM, w)
  | Some l => PostMessageToFsm env w l FSM_CTRL_MSG_STOP 0 0 None
  end.

Definition LnnFsmPostMessage (env : Env) (w : World L) (msgType : Z) (para : option Z)
  : option (Z * World L) :=
  match looper (machine w) with
  | None => Some (SOFTBUS_INVALID_PARAM, w)
  | Some l => PostMessageToFsm env w l FSM_CTRL_MSG_DATA msgType 0 para
  end.

Definition LnnFsmPostMessageDelay (env : Env) (w : World L) (msgType : Z) (para : option Z)
    (delayMillis : Z) : option (Z * World L) :=
  match looper (machine w) with
  | None => Some (SOFTBUS_INVALID_PARAM, w)
  | Some l =>
    match CreateFsmHandleMsg env (machine w) FSM_CTRL_MSG_DATA msgType 0 para with
    | None => Some (SOFTBUS_ERR, w)
    | Some msg => l' ← PostMessageDelay env l msg delayMillis; Some (SOFTBUS_OK, set_looper w l')
    end
  end.

Definition LnnFsmRemoveMessage (env : Env) (w : World L) (msgType : Z) : option (Z * World L) :=
  match looper (machine w) with
  | None => Some (SOFTBUS_INVALID_PARAM, w)
  | Some l =>
    let h := handlerAddr (machine w) in
    '(l', selected) ← RemoveMessageCustom env l (Some h) (RemoveMessageFunc msgType);
    Some (SOFTBUS_OK, foldl FreeFsmHandleMsgObj (set_looper w l') (obj <$> selected))
  end.

Definition LnnFsmRemoveMessageSpecific (env : Env) (w : World L) (customFunc : option (Msg -> Z))
    (args : Z) : option (Z * World L) :=
  match looper (machine w) with
  | None => Some (SOFTBUS_INVALID_PARAM, w)
  | Some l =>
    let h := handlerAddr (machine w) in
    match customFunc with
    | None => LnnFsmRemoveMessage env w args
    | Some f => '(l', _) ← RemoveMessageCustom env l (Some h) f; Some (SOFTBUS_OK, set_looper w l')
    end
  end.

(** ** State changes and callbacks *)

Definition isRunning (m : FsmStateMachine L) : bool :=
  negb (Z.land (flag m) FSM_FLAG_RUNNING =? 0).

(** One call of a callback, [transact] being [LnnFsmTransactState]. *)
Definition runCmd (env : Env) (transact : World L -> option Z -> option (Z * World L))
    (c : Cmd) (w : World L) : option (Z * World L) :=
  match c with
  | CAddState s => Some (LnnFsmAddState w s)
  | CStart s => LnnFsmStart env w s
  | CStop => LnnFsmStop env w
  | CDeinit => LnnFsmDeinit env w
  | CPostMessage t p => LnnFsmPostMessage env w t p
  | CPostMessageDelay t p d => LnnFsmPostMessageDelay env w t p d
  | CRemoveMessage t => LnnFsmRemoveMessage env w t
  | CTransactState s => transact w s
  end.

Fixpoint runProg (env : Env) (transact : World L -> option Z -> option (Z * World L))
    (p : Prog) (w : World L) : option (World L) :=
  match p with
  | Ret => Some w
  | Call c k => '(r, w') ← runCmd env transact c w; runProg env transact (k r) w'
  end.

Fixpoint LnnFsmTransactState (fuel : nat) (env : Env) (w : World L) (state : option Z)
  : option (Z * World L) :=
  match fuel with
  | O => None
  | S fuel' =>
    match state with
    | None => Some (SOFTBUS_INVALID_PARAM, w)
    | Some s =>
      match curState (machine w) with
      | None => Some (SOFTBUS_ERR, w)
      | Some cur =>
        if negb (isRunning (machine w)) then Some (SOFTBUS_ERR, w)
        else if IsDuplicateState (machine w) s then (
          w1 ← match exit (ops cur) with
               | Some f => runProg env (LnnFsmTransactState fuel' env) (f w) (log w (EvExit cur))
               | None => Some w
               end;
          let w2 := set_curState w1 (Some s) in
          w3 ← match enter (ops s) with
               | Some f => runProg env (LnnFsmTransactState fuel' env) (f w2) (log w2 (EvEnter s))
               | None => Some w2
               end;
          Some (SOFTBUS_OK, w3))
        else Some (SOFTBUS_OK, w)
      end
    end
  end.

Definition runCallback (fuel : nat) (env : Env) (p : Prog) (w : World L) : option (World L) :=
  runProg env (LnnFsmTransactState fuel env) p w.

(** ** The message handler *)

Definition ProcessStartMessage (fuel : nat) (env : Env) (w : World L) (msg : Msg) : option (World L) :=
  match obj msg with
  | None => Some w
  | Some o =>
    match fsm o, data o with
    | true, Some state =>
      if bool_decide (curState (machine w) <> None) || isRunning (machine w) then Some w
      else if IsDuplicateState (machine w) state then (
        let w1 := set_curState w (Some state) in
        w2 ← match enter (ops state) with
             | Some f => runCallback fuel env (f w1) (log w1 (EvEnter state))
             | None => Some w1
             end;
        Some (set_flag w2 (Z.lor (flag (machine w2)) FSM_FLAG_RUNNING)))
      else Some w
    | _, _ => Some w
    end
  end.

Definition ProcessDataMessage (fuel : nat) (env : Env) (w : World L) (msg : Msg) : option (World L) :=
  match obj msg with
  | None => Some w
  | Some o =>
    if negb (fsm o) then Some w
    else match curState (machine w) with
    | None => Some w
    | Some cur =>
      if negb (isRunning (machine w)) then Some w
      else match process (ops cur) with
      | Some f =>
        runCallback fuel env (f w (s32 (arg1 msg)) (data o)) (log w (EvProcess cur (s32 (arg1 msg)) (data o)))
      | None => Some w
      end
    end
  end.

Definition ProcessStopMessage (w : World L) (msg : Msg) : World L :=
  match obj msg with
  | None => w
  | Some o =>
    if negb (fsm o) then w
    else if bool_decide (curState (machine w) = None) || negb (isRunning (machine w)) then w
    else
      let w1 := set_curState w None in
      set_flag w1 (Z.land (flag (machine w1)) (u32 (Z.lnot FSM_FLAG_RUNNING)))
  end.

Definition ProcessDeinitMessage (fuel : nat) (env : Env) (w : World L) (msg : Msg) : option (World L) :=
  match obj msg with
  | None => Some w
  | Some o =>
    if negb (fsm o) then Some w
    else match deinitCallback (machine w) with
    | Some cb => runCallback fuel env (deinitOf cb w) (log w (EvDeinit cb))
    | None => Some w
    end
  end.

Definition FsmStateMsgHandler (fuel : nat) (env : Env) (w : World L) (msg : Msg) : option (World L) :=
  if what msg =? FSM_CTRL_MSG_START then ProcessStartMessage fuel env w msg
  else if what msg =? FSM_CTRL_MSG_DATA then ProcessDataMessage fuel env w msg
  else if what msg =? FSM_CTRL_MSG_STOP then Some (ProcessStopMessage w msg)
  else if what msg =? FSM_CTRL_MSG_DEINIT then ProcessDeinitMessage fuel env w msg
  else Some w.

(** ** Executions: messages handled on the looper's thread, and calls *)

Inductive Step := Handle (msg : Msg) | Api (c : Cmd).

Definition fsmStep (fuel : nat) (env : Env) (w : World L) (st : Step) : option (World L) :=
  match st with
  | Handle msg => FsmStateMsgHandler fuel env w msg
  | Api c => snd <$> runCmd env (LnnFsmTransactState fuel env) c w
  end.

Fixpoint fsmRun (fuel : nat) (steps : list (Env * Step)) (w : World L) : option (World L) :=
  match steps with
  | [] => Some w
  | (env, st) :: rest => w' ← fsmStep fuel env w st; fsmRun fuel rest w'
  end.

(** ** The invariant *)

(** The current state is registered. *)
Definition registered (w : World L) : Prop :=
  forall s, curState (machine w) = Some s -> s ∈ stateList (machine w).

(** What a call, or a callback, does to the machine: it keeps the flag,
    forgets no state, neither starts nor stops the machine, and changes the
    state only to a registered one. *)
Record bounded (w w' : World L) : Prop := {
  b_flag : flag (machine w') = flag (machine w);
  b_list : stateList (machine w) ⊆ stateList (machine w');
  b_cur : curState (machine w) = None <-> curState (machine w') = None;
  b_reg : registered w -> registered w'
}.

#[local] Instance bounded_refl : Reflexive bounded.
Proof. intros w. by split. Qed.

#[local] Instance bounded_trans : Transitive bounded.
Proof. intros w1 w2 w3 [A1 A2 A3 A4] [B1 B2 B3 B4]. split; [congruence|set_solver|tauto|tauto]. Qed.

Lemma IsDuplicateState_spec m s : IsDuplicateState m s = true <-> s ∈ stateList m.
Proof.
  unfold IsDuplicateState. rewrite existsb_exists. setoid_rewrite Z.eqb_eq.
  rewrite list_elem_of_In. naive_solver.
Qed.

Lemma bounded_looper w l : bounded w (set_looper w l).
Proof. by split. Qed.

Lemma bounded_log w e : bounded w (log w e).
Proof. by split. Qed.

Lemma bounded_post env w l a b c p r w' : PostMessageToFsm env w l a b c p = Some (r, w') -> bounded w w'.
Proof.
  unfold PostMessageToFsm. destruct (CreateFsmHandleMsg _ _ _ _ _ _); [|by intros [= _ <-]].
  intros (l' & _ & [= _ <-])%bind_Some. apply bounded_looper.
Qed.

Lemma bounded_free w objs : bounded w (foldl FreeFsmHandleMsgObj w objs).
Proof.
  revert w. induction objs as [|o objs IH]; intros w; cbn [foldl]; [done|]. etrans; [|apply IH].
  destruct o as [[? [p|]]|]; by split.
Qed.

(** A call is bounded, if changing the state is. *)
Lemma runCmd_bounded env transact c w r w' :
  (forall w s r w', transact w s = Some (r, w') -> bounded w w') ->
  runCmd env transact c w = Some (r, w') -> bounded w w'.
Proof.
  intros Ht. destruct c; cbn [runCmd].
  - unfold LnnFsmAddState. destruct (looper (machine w)); [|by intros [= _ <-]].
    destruct state as [s|]; [|by intros [= _ <-]].
    destruct (IsDuplicateState (machine w) s) eqn:E; intros [= _ <-]; [done|].
    split; cbn; try done; [set_solver|]. intros H x Hx. cbn in *. specialize (H x Hx). set_solver.
  - unfold LnnFsmStart. destruct (looper (machine w)), initialState; try (by intros [= _ <-]).
    apply bounded_post.
  - unfold LnnFsmStop. destruct (looper (machine w)); [apply bounded_post|by intros [= _ <-]].
  - unfold LnnFsmDeinit. destruct (looper (machine w)); [apply bounded_post|by intros [= _ <-]].
  - unfold LnnFsmPostMessage. destruct (looper (machine w)); [apply bounded_post|by intros [= _ <-]].
  - unfold LnnFsmPostMessageDelay. destruct (looper (machine w)); [|by intros [= _ <-]].
    destruct (CreateFsmHandleMsg _ _ _ _ _ _); [|by intros [= _ <-]].
    intros (l' & _ & [= _ <-])%bind_Some. apply bounded_looper.
  - unfold LnnFsmRemoveMessage. destruct (looper (machine w)); [|by intros [= _ <-]].
    intros ([l' sel] & _ & [= _ <-])%bind_Some. etrans; [apply bounded_looper|apply bounded_free].
  - apply Ht.
Qed.

Lemma runProg_bounded env transact p : forall w w',
  (forall w s r w', transact w s = Some (r, w') -> bounded w w') ->
  runProg env transact p w = Some w' -> bounded w w'.
Proof.
  induction p as [|c k IH]; intros w w' Ht Hr; cbn [runProg] in Hr; [by simplify_eq|].
  apply bind_Some in Hr as ([r w1] & Hc & Hr). etrans; [by eapply runCmd_bounded|by eapply IH].
Qed.

Lemma LnnFsmTransactState_bounded fuel env : forall w s r w',
  LnnFsmTransactState fuel env w s = Some (r, w') -> bounded w w'.
Proof.
  induction fuel as [|fuel IH]; intros w s r w' Hs; cbn [LnnFsmTransactState] in Hs; [done|].
  destruct s as [s|]; [|by simplify_eq]. destruct (curState (machine w)) as [cur|] eqn:Hcur; [|by simplify_eq].
  destruct (isRunning (machine w)); cbn [negb] in Hs; [|by simplify_eq].
  destruct (IsDuplicateState (machine w) s) eqn:Hdup; [|by simplify_eq].
  apply IsDuplicateState_spec in Hdup.
  apply bind_Some in Hs as (w1 & H1 & Hs). apply bind_Some in Hs as (w3 & H3 & Hs). simplify_eq.
  assert (bounded w w1) as B1.
  { destruct (exit (ops cur)); [|by simplify_eq]. etrans; [apply bounded_log|by eapply runProg_bounded]. }
  assert (bounded w (set_curState w1 (Some s))) as B2.
  { destruct B1 as [A1 A2 A3 A4]. split; cbn; try done; [by rewrite Hcur|].
    intros _ x [= <-]. cbn. by apply A2. }
  etrans; [exact B2|]. destruct (enter (ops s)); [|by simplify_eq].
  etrans; [apply bounded_log|by eapply runProg_bounded].
Qed.

Lemma runCallback_bounded fuel env p w w' : runCallback fuel env p w = Some w' -> bounded w w'.
Proof. apply runProg_bounded. intros. by eapply LnnFsmTransactState_bounded. Qed.

(** The machine runs exactly when it has a state, which is registered. *)
Record fsmInv (w : World L) : Prop := {
  f_reg : registered w;
  f_run : isRunning (machine w) = true <-> curState (machine w) <> None
}.

Lemma bounded_inv w w' : fsmInv w -> bounded w w' -> fsmInv w'.
Proof.
  intros [H1 H2] [B1 B2 B3 B4]. split; [by apply B4|]. unfold isRunning in *. rewrite B1, H2, B3. done.
Qed.

Lemma isRunning_set m : isRunning (MkFsm (curState m) (Z.lor (flag m) FSM_FLAG_RUNNING) (stateList m)
  (looper m) (handlerAddr m) (deinitCallback m)) = true.
Proof.
  unfold isRunning. cbn [flag]. apply negb_true_iff, Z.eqb_neq. intros H.
  apply (f_equal (fun x => Z.testbit x 0)) in H.
  rewrite Z.land_spec, Z.lor_spec, orb_true_r in H. done.
Qed.

Lemma isRunning_clear f : Z.land (Z.land f (u32 (Z.lnot FSM_FLAG_RUNNING))) FSM_FLAG_RUNNING = 0.
Proof. rewrite <- Z.land_assoc. change (Z.land (u32 (Z.lnot FSM_FLAG_RUNNING)) FSM_FLAG_RUNNING) with 0. apply Z.land_0_r. Qed.

Lemma handler_inv fuel env w msg w' : fsmInv w -> FsmStateMsgHandler fuel env w msg = Some w' -> fsmInv w'.
Proof.
  intros Hi. unfold FsmStateMsgHandler. destruct (what msg =? FSM_CTRL_MSG_START).
  { unfold ProcessStartMessage. destruct (obj msg) as [o|]; [|by intros [= <-]].
    destruct (fsm o), (data o) as [st|]; try (by intros [= <-]).
    destruct (bool_decide _ || _) eqn:E; [by intros [= <-]|].
    apply orb_false_iff in E as [Hn%bool_decide_eq_false Hr].
    destruct (IsDuplicateState (machine w) st) eqn:Hd; [|by intros [= <-]].
    apply IsDuplicateState_spec in Hd.
    intros (w2 & H2 & [= <-])%bind_Some.
    assert (bounded (set_curState w (Some st)) w2) as [B1 B2 B3 B4].
    { destruct (enter (ops st)); [|by simplify_eq]. etrans; [apply bounded_log|by eapply runCallback_bounded]. }
    split.
    - assert (registered w2) as Hreg; [|exact Hreg]. apply B4. intros x [= <-]. done.
    - split; [|intros _; apply isRunning_set]. intros _. cbn. intros Hc. by apply B3 in Hc. }
  destruct (what msg =? FSM_CTRL_MSG_DATA).
  { unfold ProcessDataMessage. destruct (obj msg) as [o|]; [|by intros [= <-]].
    destruct (fsm o); cbn [negb]; [|by intros [= <-]].
    destruct (curState (machine w)) as [cur|]; [|by intros [= <-]].
    destruct (isRunning (machine w)); cbn [negb]; [|by intros [= <-]].
    destruct (process (ops cur)); [|by intros [= <-]].
    intros H%runCallback_bounded. eapply bounded_inv; [done|]. etrans; [apply bounded_log|done]. }
  destruct (what msg =? FSM_CTRL_MSG_STOP).
  { intros [= <-]. unfold ProcessStopMessage. destruct (obj msg) as [o|]; [|done].
    destruct (fsm o); cbn [negb]; [|done]. destruct (_ || _); [done|].
    split; [by intros s [=]|]. unfold isRunning. cbn. by rewrite isRunning_clear. }
  destruct (what msg =? FSM_CTRL_MSG_DEINIT); [|by intros [= <-]].
  unfold ProcessDeinitMessage. destruct (obj msg) as [o|]; [|by intros [= <-]].
  destruct (fsm o); cbn [negb]; [|by intros [= <-]].
  destruct (deinitCallback (machine w)); [|by intros [= <-]].
  intros H%runCallback_bounded. eapply bounded_inv; [done|]. etrans; [apply bounded_log|done].
Qed.

Lemma fsmRun_inv fuel steps : forall w w', fsmInv w -> fsmRun fuel steps w = Some w' -> fsmInv w'.
Proof.
  induction steps as [|[env st] steps IH]; intros w w' Hi Hr; cbn [fsmRun] in Hr; [by simplify_eq|].
  apply bind_Some in Hr as (w1 & Hs & Hr). eapply IH, Hr. destruct st as [msg|c]; cbn [fsmStep] in Hs.
  - by eapply handler_inv.
  - apply fmap_Some in Hs as ([r w2] & Hc & ->). eapply bounded_inv; [done|].
    eapply runCmd_bounded, Hc. intros. by eapply LnnFsmTransactState_bounded.
Qed.

(** C26: whatever its callbacks do, and however handled messages and calls
    follow each other, a machine that [LnnFsmInit] prepared runs exactly when
    it has a current state, and that state was registered with
    [LnnFsmAddState]. *)
Theorem fsm_invariant fuel steps l d n h cb m w :
  LnnFsmInit l d n h cb = (SOFTBUS_OK, Some m) ->
  fsmRun fuel steps (MkWorld m [] []) = Some w ->
  (isRunning (machine w) = true <-> curState (machine w) <> None) /\
  forall s, curState (machine w) = Some s -> s ∈ stateList (machine w).
Proof.
  intros Hinit Hr. destruct (fsmRun_inv fuel steps (MkWorld m [] []) w) as [Hreg Hrun]; [|done|done].
  unfold LnnFsmInit in Hinit. destruct n; [done|]. destruct l, d; simplify_eq; by split.
Qed.

(** ** What the handler does *)

Context `{!MessageLoopLaws L}.

(** The machine has a looper in service. *)
Definition live (w : World L) : Prop := exists l, looper (machine w) = Some l /\ ml_ok l.

(** A program that does not change the state. *)
Fixpoint quiet (p : Prog) : Prop :=
  match p with
  | Ret => True
  | Call c k => (forall s, c <> CTransactState s) /\ forall r, quiet (k r)
  end.

(** The part of the machine such a program leaves alone. *)
Record calm (w w' : World L) : Prop := {
  k_cur : curState (machine w') = curState (machine w);
  k_flag : flag (machine w') = flag (machine w);
  k_trace : trace w' = trace w;
  k_live : live w'
}.

Lemma post_total env w l a b c p : looper (machine w) = Some l -> ml_ok l ->
  exists r w', PostMessageToFsm env w l a b c p = Some (r, w') /\ calm w w'.
Proof.
  intros Hl Hok. unfold PostMessageToFsm, CreateFsmHandleMsg.
  assert (exists r w', Some (SOFTBUS_ERR, w) = Some (r, w') /\ calm w w') as Herr.
  { eexists _, w. split; [done|]. split; try done. by exists l. }
  destruct (availMsg env); cbn [negb]; [|done]. destruct (availObj env); cbn [negb]; [|done].
  edestruct (ml_post env l) as (l' & -> & Hok' & _); [done| |].
  2:{ cbn. eexists _, _. split; [done|]. split; try done. by exists l'. }
  cbn. eauto.
Qed.

Lemma foldl_free_obj objs : forall w, exists fd,
  foldl FreeFsmHandleMsgObj w objs = MkWorld (machine w) (trace w) fd.
Proof.
  induction objs as [|o objs IH]; intros w; cbn [foldl]; [destruct w; eauto|].
  destruct (IH (FreeFsmHandleMsgObj w o)) as [fd ->]. exists fd.
  destruct o as [[? [p|]]|]; done.
Qed.

Lemma runCmd_calm fuel env c w : live w ->
  isRunning (machine w) = false \/ (forall s, c <> CTransactState s) ->
  exists r w', runCmd env (LnnFsmTransactState (S fuel) env) c w = Some (r, w') /\ calm w w'.
Proof.
  intros [l [Hl Hok]] Hq.
  assert (forall r : Z, exists r' w', Some (r, w) = Some (r', w') /\ calm w w') as Hid.
  { intros r. eexists _, w. split; [done|]. split; try done. by exists l. }
  destruct c; cbn [runCmd].
  - unfold LnnFsmAddState. rewrite Hl. destruct state; [|apply Hid]. destruct (IsDuplicateState _ _); [apply Hid|].
    eexists _, _. split; [done|]. split; try done. by exists l.
  - unfold LnnFsmStart. rewrite Hl. destruct initialState; [by apply post_total|apply Hid].
  - unfold LnnFsmStop. rewrite Hl. by apply post_total.
  - unfold LnnFsmDeinit. rewrite Hl. by apply post_total.
  - unfold LnnFsmPostMessage. rewrite Hl. by apply post_total.
  - unfold LnnFsmPostMessageDelay, CreateFsmHandleMsg. rewrite Hl.
    destruct (availMsg env); cbn [negb]; [|apply Hid]. destruct (availObj env); cbn [negb]; [|apply Hid].
    edestruct (ml_post_delay env l) as (l' & -> & Hok'); [done| |].
    2:{ cbn. eexists _, _. split; [done|]. split; try done. by exists l'. }
    cbn. eauto.
  - unfold LnnFsmRemoveMessage. rewrite Hl.
    destruct (ml_remove env l (Some (handlerAddr (machine w))) (RemoveMessageFunc msgType) Hok)
      as (l' & sel & -> & Hok' & _). cbn [mbind option_bind].
    destruct (foldl_free_obj (obj <$> sel) (set_looper w l')) as [fd ->].
    eexists _, _. split; [done|]. split; try done. by exists l'.
  - destruct Hq as [Hr|Hq]; [|by destruct (Hq state)]. cbn [LnnFsmTransactState].
    destruct state; [|apply Hid]. destruct (curState (machine w)); [|apply Hid]. rewrite Hr. apply Hid.
Qed.

Lemma runProg_calm fuel env p : forall w, live w ->
  isRunning (machine w) = false \/ quiet p ->
  exists w', runCallback (S fuel) env p w = Some w' /\ calm w w'.
Proof.
  unfold runCallback. induction p as [|c k IH]; intros w Hl Hq; cbn [runProg].
  { exists w. split; [done|]. by split. }
  destruct (runCmd_calm fuel env c w Hl) as (r & w1 & -> & [K1 K2 K3 K4]).
  { destruct Hq as [|[? _]]; auto. }
  cbn [mbind option_bind]. destruct (IH r w1 K4) as (w2 & -> & [J1 J2 J3 J4]).
  { destruct Hq as [Hr|[_ ?]]; [|by right]. left. unfold isRunning in *. by rewrite K2. }
  exists w2. split; [done|]. split; congruence.
Qed.

(** A control message of this machine. *)
Definition ctrlMsg (m : FsmStateMachine L) (what_ ty : Z) (p : option Z) : Msg :=
  MkMsg what_ ty 0 0 (Some (MkObj true p)) (Some (handlerAddr m)).

(** A state change with its two callbacks. *)
Lemma LnnFsmTransactState_S fuel env w s : LnnFsmTransactState (S fuel) env w (Some s) =
  match curState (machine w) with
  | None => Some (SOFTBUS_ERR, w)
  | Some cur =>
    if negb (isRunning (machine w)) then Some (SOFTBUS_ERR, w)
    else if IsDuplicateState (machine w) s then (
      w1 ← match exit (ops cur) with
           | Some f => runCallback fuel env (f w) (log w (EvExit cur))
           | None => Some w
           end;
      let w2 := set_curState w1 (Some s) in
      w3 ← match enter (ops s) with
           | Some f => runCallback fuel env (f w2) (log w2 (EvEnter s))
           | None => Some w2
           end;
      Some (SOFTBUS_OK, w3))
    else Some (SOFTBUS_OK, w)
  end.
Proof. done. Qed.

Lemma transact_calls fuel env w cur s fe fx : live w -> isRunning (machine w) = true ->
  curState (machine w) = Some cur -> s ∈ stateList (machine w) ->
  exit (ops cur) = Some fx -> enter (ops s) = Some fe -> (forall w, quiet (fx w)) -> (forall w, quiet (fe w)) ->
  exists w', LnnFsmTransactState (S (S fuel)) env w (Some s) = Some (SOFTBUS_OK, w') /\
    curState (machine w') = Some s /\ trace w' = trace w ++ [EvExit cur; EvEnter s].
Proof.
  intros [l [Hlp Hok]] Hrun Hc Hs Hx He Hqx Hqe. rewrite LnnFsmTransactState_S.
  rewrite Hc, Hrun, (proj2 (IsDuplicateState_spec (machine w) s) Hs), Hx, He. cbn [negb].
  destruct (runProg_calm fuel env (fx w) (log w (EvExit cur))) as (w1 & E1 & [K1 K2 K3 K4]); [by exists l|by right|].
  rewrite E1. cbn [mbind option_bind].
  destruct (runProg_calm fuel env (fe (set_curState w1 (Some s))) (log (set_curState w1 (Some s)) (EvEnter s)))
    as (w2 & E2 & [J1 J2 J3 J4]); [destruct K4 as (l1 & ? & ?); by exists l1|by right|].
  cbn zeta. rewrite E2.
  cbn [mbind option_bind]. exists w2. split; [done|]. split; [by rewrite J1|].
  rewrite J3. cbn. rewrite K3. cbn. by rewrite <- app_assoc.
Qed.

(** The handler on each control message.  A start message takes a stopped
    machine to the given state if that is registered: its [enter] is called
    once, cannot change the state, whatever it tries, and the machine runs
    afterwards; it is ignored by a machine that has a state.  A data message
    reaches [process] of the current state once, with the type as a signed
    integer, if the machine runs, and is ignored otherwise.  A stop message
    takes the machine out of its state without calling [exit].  A state
    change calls [exit] of the old state, then [enter] of the new one. *)
Theorem fsm_handler_spec fuel env w : live w -> fsmInv w ->
  (forall s, curState (machine w) = None -> s ∈ stateList (machine w) ->
     exists w', FsmStateMsgHandler (S fuel) env w (ctrlMsg (machine w) FSM_CTRL_MSG_START 0 (Some s)) = Some w' /\
       curState (machine w') = Some s /\ isRunning (machine w') = true /\
       trace w' = trace w ++ match enter (ops s) with Some _ => [EvEnter s] | None => [] end) /\
  (forall s, curState (machine w) <> None \/ (s ∉ stateList (machine w)) ->
     FsmStateMsgHandler (S fuel) env w (ctrlMsg (machine w) FSM_CTRL_MSG_START 0 (Some s)) = Some w) /\
  (forall ty p, curState (machine w) = None ->
     FsmStateMsgHandler (S fuel) env w (ctrlMsg (machine w) FSM_CTRL_MSG_DATA ty p) = Some w) /\
  (forall ty p cur f, curState (machine w) = Some cur -> process (ops cur) = Some f ->
     quiet (f w (s32 ty) p) ->
     exists w', FsmStateMsgHandler (S fuel) env w (ctrlMsg (machine w) FSM_CTRL_MSG_DATA ty p) = Some w' /\
       curState (machine w') = Some cur /\ trace w' = trace w ++ [EvProcess cur (s32 ty) p]) /\
  (exists w', FsmStateMsgHandler (S fuel) env w (ctrlMsg (machine w) FSM_CTRL_MSG_STOP 0 None) = Some w' /\
     curState (machine w') = None /\ isRunning (machine w') = false /\ trace w' = trace w) /\
  (forall cur s fe fx, curState (machine w) = Some cur -> s ∈ stateList (machine w) ->
     exit (ops cur) = Some fx -> enter (ops s) = Some fe -> (forall w, quiet (fx w)) -> (forall w, quiet (fe w)) ->
     exists w', LnnFsmTransactState (S (S fuel)) env w (Some s) = Some (SOFTBUS_OK, w') /\
       curState (machine w') = Some s /\ trace w' = trace w ++ [EvExit cur; EvEnter s]).
Proof.
  intros Hl [Hreg Hrun]. pose proof Hl as [l [Hlp Hok]].
  assert (forall s, curState (machine w) = Some s -> isRunning (machine w) = true) as Hrun'.
  { intros s Hs. apply Hrun. by rewrite Hs. }
  assert (curState (machine w) = None -> isRunning (machine w) = false) as Hstopped.
  { intros Hn. apply not_true_iff_false. intros H. by apply Hrun in H. }
  unfold FsmStateMsgHandler, ctrlMsg. cbn [what]. split_and!.
  - intros s Hn Hs. cbn. unfold ProcessStartMessage. cbn [obj fsm data].
    rewrite (bool_decide_false (curState (machine w) <> None)), (Hstopped Hn) by auto. cbn [orb].
    rewrite (proj2 (IsDuplicateState_spec (machine w) s) Hs).
    destruct (enter (ops s)) as [f|].
    + destruct (runProg_calm fuel env (f (set_curState w (Some s))) (log (set_curState w (Some s)) (EvEnter s)))
        as (w2 & -> & [K1 K2 K3 K4]); [by exists l|left; by apply Hstopped|].
      cbn [mbind option_bind]. eexists. split; [done|]. split_and!; [done|apply isRunning_set|exact K3].
    + cbn [mbind option_bind]. eexists. split; [done|]. split_and!; [done|apply isRunning_set|].
      by rewrite app_nil_r.
  - intros s Hs. cbn. unfold ProcessStartMessage. cbn [obj fsm data].
    destruct (bool_decide (curState (machine w) <> None) || _) eqn:E; [done|].
    apply orb_false_iff in E as [Hn%bool_decide_eq_false _].
    destruct (IsDuplicateState (machine w) s) eqn:Hd; [|done]. apply IsDuplicateState_spec in Hd. tauto.
  - intros ty p Hn. cbn. unfold ProcessDataMessage. cbn. by rewrite Hn.
  - intros ty p cur f Hc Hf Hq. cbn. unfold ProcessDataMessage. cbn [obj fsm data negb arg1].
    rewrite Hc, (Hrun' cur Hc), Hf. cbn [negb].
    destruct (runProg_calm fuel env (f w (s32 ty) p) (log w (EvProcess cur (s32 ty) p)))
      as (w2 & -> & [K1 K2 K3 K4]); [by exists l|by right|].
    exists w2. split; [done|]. split; [by rewrite K1|done].
  - cbn. unfold ProcessStopMessage. cbn [obj fsm negb].
    destruct (curState (machine w)) as [cur|] eqn:Hc.
    + rewrite bool_decide_false, (Hrun' cur eq_refl) by done. cbn [negb orb].
      eexists. split; [done|]. split_and!; try done. unfold isRunning. cbn. by rewrite isRunning_clear.
    + rewrite bool_decide_true by done. cbn [orb]. exists w. split_and!; auto.
  - intros cur s fe fx Hc Hs Hx He Hqx Hqe. by apply transact_calls with fe fx; eauto.
Qed.

(** ** Messages of a machine *)

Lemma freed_objs sel : forall w, freedData (foldl FreeFsmHandleMsgObj w (obj <$> sel)) =
  freedData w ++ omap (fun m : Msg => obj m ≫= data) sel.
Proof.
  induction sel as [|m sel IH]; intros w; cbn [fmap list_fmap foldl omap list_omap]; [by rewrite app_nil_r|].
  rewrite IH. destruct (obj m) as [[b [p|]]|]; cbn; [|done|done]. by rewrite <- app_assoc.
Qed.

(** With memory and locks available, posting to a machine adds one message
    of its handler after all those due no later; [LnnFsmRemoveMessage] of a
    type other than 0 drops exactly the waiting data messages of this machine
    of that type and releases their data, once each; of type 0 it drops
    nothing. *)
Theorem fsm_messages_spec env w l : looper (machine w) = Some l -> ml_ok l ->
  availMsg env = true -> availObj env = true -> availNode env = true -> lockOk env = true ->
  (forall ty p, exists l' w', LnnFsmPostMessage env w ty p = Some (SOFTBUS_OK, w') /\
     looper (machine w') = Some l' /\ ml_ok l' /\
     pending l' = filter (fun x => time x <= now env) (pending l) ++
       with_time (ctrlMsg (machine w) FSM_CTRL_MSG_DATA ty p) (now env) ::
       filter (fun x => now env < time x) (pending l)) /\
  (forall ty, is_s 32 ty -> exists l' w', LnnFsmRemoveMessage env w ty = Some (SOFTBUS_OK, w') /\
     looper (machine w') = Some l' /\ ml_ok l' /\
     let mine m := ty <> 0 /\ handler m = Some (handlerAddr (machine w)) /\
       what m = FSM_CTRL_MSG_DATA /\ s32 (arg1 m) = ty in
     pending l' = filter (fun m => ~ mine m) (pending l) /\
     freedData w' = freedData w ++ omap (fun m => obj m ≫= data) (filter mine (pending l))).
Proof.
  clear ops deinitOf. intros Hl Hok H1 H2 H3 H4. split.
  - intros ty p. unfold LnnFsmPostMessage, PostMessageToFsm, CreateFsmHandleMsg. rewrite Hl, H1, H2. cbn [negb].
    edestruct (ml_post env l) as (l' & -> & Hok' & Hp); [done| |].
    2:{ cbn [mbind option_bind]. exists l'. eexists. split; [done|]. split_and!; [done|done|].
        rewrite Hp by done. done. }
    cbn. eauto.
  - intros ty Hty. unfold LnnFsmRemoveMessage. rewrite Hl.
    destruct (ml_remove env l (Some (handlerAddr (machine w))) (RemoveMessageFunc ty) Hok)
      as (l' & sel & -> & Hok' & Hsel). destruct (Hsel H4) as [Hp ->]. cbn [mbind option_bind].
    exists l'. eexists. split; [done|].
    destruct (foldl_free_obj (obj <$> filter (removed (Some (handlerAddr (machine w))) (RemoveMessageFunc ty)) (pending l))
      (set_looper w l')) as [fd Hfd].
    split; [by rewrite Hfd|]. split; [done|]. cbn zeta.
    assert (forall m, removed (Some (handlerAddr (machine w))) (RemoveMessageFunc ty) m <->
      ty <> 0 /\ handler m = Some (handlerAddr (machine w)) /\ what m = FSM_CTRL_MSG_DATA /\ s32 (arg1 m) = ty) as Hiff.
    { intros m. unfold removed, RemoveMessageFunc. rewrite (wrapS_id 32 ty) by (lia || done).
      destruct (Z.eqb_spec ty 0); [naive_solver|].
      destruct (Z.eqb_spec (what m) FSM_CTRL_MSG_DATA), (Z.eqb_spec (s32 (arg1 m)) ty); cbn; naive_solver. }
    split.
    + rewrite Hp. apply list_filter_iff. intros m. by rewrite Hiff.
    + rewrite freed_objs. cbn. f_equal. f_equal. apply list_filter_iff. exact Hiff.
Qed.

End Machine.
Arguments FsmState : clear implicits.

(** ** The looper of [Looper.v] as the message loop of a machine *)

Abbreviation FsmLooper := (LooperState (option FsmCtrlMsgObj)).

#[export] Instance looper_loop : MessageLoop FsmLooper := {
  PostMessage env s m := LooperPostMessage (availNode env) (lockOk env) (now env) s m;
  PostMessageDelay env s m d := LooperPostMessageDelay (availNode env) (lockOk env) (now env) s m d;
  RemoveMessageCustom env s h f :=
    s' ← LoopRemoveMessageCustom (lockOk env) s h f; Some (s', drop (length (freed s)) (freed s'));
  pending := queued
}.

(** In service: alive, started and not stopped. *)
Definition inService (s : FsmLooper) : Prop :=
  wfLooper s /\ exists c, getContext s = Some c /\ stop c = false /\ running c = true.

Lemma inService_frame s s' : inService s -> wfLooper s' ->
  pc s' = pc s /\ alive s' = alive s /\ (context s' = None <-> context s = None) /\
  (forall c c', context s = Some c -> context s' = Some c' -> stop c' = stop c /\ running c' = running c) ->
  inService s'.
Proof.
  intros (_ & c & Hc & Hs & Hr) Hwf (Hp & Ha & Hn & Hst). split; [done|].
  apply getContext_Some in Hc as [Hc Hal]. unfold getContext. rewrite Ha, Hal.
  destruct (context s') as [c'|] eqn:Hc'; [|by rewrite (proj1 Hn eq_refl) in Hc].
  destruct (Hst c c' Hc eq_refl) as [E1 E2]. exists c'. split_and!; congruence.
Qed.

Lemma PostMessageAtTime_inService a b s m : inService s -> is_Some (handler m) ->
  exists s', PostMessageAtTime a b s m = Some s' /\ inService s' /\
    (a = true -> b = true -> queued s' = filter (fun x => time x <= time m) (queued s) ++
       m :: filter (fun x => time m < time x) (queued s)).
Proof.
  intros Hin [h Hh]. pose proof Hin as (Hwf & c & Hc & Hs & Hr).
  assert (is_Some (PostMessageAtTime a b s m)) as [s' Hp].
  { pose proof (getContext_Some s c Hc) as [Hc' Ha]. unfold PostMessageAtTime. rewrite Ha, Hh. cbn [negb].
    assert (getContext (add_posted s m) = Some c) as Hc1 by (unfold getContext; cbn; by rewrite Ha).
    destruct a; cbn [negb]; [|eauto]. rewrite Hc1. cbn. destruct b, (stop c); cbn; eauto. }
  exists s'. split; [done|]. split.
  - eapply inService_frame; [done|by eapply PostMessageAtTime_wf|by eapply PostMessageAtTime_frame].
  - intros -> ->. pose proof (getContext_Some s c Hc) as [Hc' Ha].
    unfold PostMessageAtTime in Hp. rewrite Ha, Hh in Hp. cbn [negb] in Hp.
    assert (getContext (add_posted s m) = Some c) as Hc1 by (unfold getContext; cbn; by rewrite Ha).
    rewrite Hc1 in Hp. cbn in Hp. rewrite Hs in Hp. simplify_eq. cbn. unfold queued. rewrite Hc'.
    apply insertMsg_spec. apply (w_context s Hwf c Hc').
Qed.

#[export] Program Instance looper_laws : MessageLoopLaws FsmLooper := { ml_ok := inService }.
Next Obligation.
  intros env s m Hin Hh.
  destruct (PostMessageAtTime_inService (availNode env) (lockOk env) s (with_time m (now env)) Hin)
    as (s' & Hp & Hin' & Hq); [done|]. exists s'. split_and!; [done|done|exact Hq].
Qed.
Next Obligation.
  intros env s m d Hin Hh.
  destruct (PostMessageAtTime_inService (availNode env) (lockOk env) s
    (with_time m (s64 (now env + s64 (s64 d * 1000)))) Hin) as (s' & Hp & Hin' & _); [done|].
  by exists s'.
Qed.
Next Obligation.
  intros env s h f Hin. pose proof Hin as (Hwf & c & Hc & Hs & Hr).
  pose proof (getContext_Some s c Hc) as [Hc' Ha]. cbn.
  destruct (lockOk env).
  - rewrite (LoopRemoveMessageCustom_running s c) by
      (done || (rewrite (c_size _ _ (w_context s Hwf c Hc')); by auto with cint)).
    cbn [mbind option_bind]. eexists _, _. split; [done|]. split.
    + eapply inService_frame; [done|eapply (LoopRemoveMessageCustom_wf true s h f); [done|]|];
        [rewrite (LoopRemoveMessageCustom_running s c); try done;
         rewrite (c_size _ _ (w_context s Hwf c Hc')); by auto with cint|].
      cbn. rewrite Hc'. split_and!; try done. intros c1 c2 [= <-] [= <-]. done.
    + intros _. cbn. unfold queued. rewrite Hc'. cbn. by rewrite drop_app_length.
  - unfold LoopRemoveMessageCustom. rewrite Hc. cbn. eexists _, _. split; [done|]. split; [done|done].
Qed.

(** ** A machine with two states

    Entering state 1 tries to change to state 2, which the start refuses. *)

Definition idleLooper : FsmLooper :=
  MkLooper true true (Some (MkContext [] false true None 0)) LLoop [] [] [].

Lemma idleLooper_inService : inService idleLooper.
Proof.
  split; [|by eexists]. split; [|by constructor|done|done|by constructor].
  intros c [= <-]. split; try done; constructor.
Qed.

Definition exampleOps (s : Z) : FsmState FsmLooper :=
  MkState (Some (fun _ => if s =? 1 then Call (CTransactState (Some 2)) (fun _ => Ret) else Ret))
    (Some (fun _ t _ => if t =? 5 then Call (CTransactState (Some 2)) (fun _ => Ret) else Ret))
    (Some (fun _ => Ret)).

Definition exampleDeinit (cb : Z) (w : World FsmLooper) : Prog := Ret.
Definition exampleEnv : Env := MkEnv 10 true true true true.
Definition exampleMachine : FsmStateMachine FsmLooper := MkFsm None 0 [] (Some idleLooper) 7 None.

Lemma fsm_invariant_witness :
  exists w, fsmRun exampleOps exampleDeinit 3
      [(exampleEnv, Api (CAddState (Some 1))); (exampleEnv, Api (CAddState (Some 2)));
       (exampleEnv, Handle (ctrlMsg exampleMachine FSM_CTRL_MSG_START 0 (Some 1)));
       (exampleEnv, Handle (ctrlMsg exampleMachine FSM_CTRL_MSG_DATA 5 None))]
      (MkWorld exampleMachine [] []) = Some w /\
    curState (machine w) = Some 2 /\ isRunning (machine w) = true.
Proof.
  eexists. split; [vm_compute; reflexivity|]. split; [reflexivity|].
  eapply (fsm_invariant exampleOps exampleDeinit 3
      [(exampleEnv, Api (CAddState (Some 1))); (exampleEnv, Api (CAddState (Some 2)));
       (exampleEnv, Handle (ctrlMsg exampleMachine FSM_CTRL_MSG_START 0 (Some 1)));
       (exampleEnv, Handle (ctrlMsg exampleMachine FSM_CTRL_MSG_DATA 5 None))]
      (Some idleLooper) None false 7 None exampleMachine); [reflexivity|vm_compute; reflexivity|done].
Defined.

Lemma fsm_handler_spec_witness :
  exists w', FsmStateMsgHandler exampleOps exampleDeinit 3 exampleEnv
      (MkWorld (MkFsm None 0 [2; 1] (Some idleLooper) 7 None) [] [])
      (ctrlMsg exampleMachine FSM_CTRL_MSG_START 0 (Some 1)) = Some w' /\
    curState (machine w') = Some 1 /\ trace w' = [EvEnter 1].
Proof.
  destruct (fsm_handler_spec exampleOps exampleDeinit 2 exampleEnv
    (MkWorld (MkFsm None 0 [2; 1] (Some idleLooper) 7 None) [] [])) as (H & _).
  - exists idleLooper. split; [reflexivity|apply idleLooper_inService].
  - split; [by intros s [=]|]. split; [done|]. by intros [].
  - destruct (H 1 eq_refl ltac:(cbn; set_solver)) as (w' & Hw & Hc & _ & Ht). by exists w'.
Defined.

Lemma fsm_messages_spec_witness :
  exists l' w', LnnFsmPostMessage exampleEnv (MkWorld exampleMachine [] []) 5 (Some 99) =
      Some (SOFTBUS_OK, w') /\ looper (machine w') = Some l' /\
    pending l' = [with_time (ctrlMsg exampleMachine FSM_CTRL_MSG_DATA 5 (Some 99)) 10].
Proof.
  destruct (fsm_messages_spec exampleEnv (MkWorld exampleMachine [] []) idleLooper) as [H _];
    try reflexivity; [apply idleLooper_inService|].
  destruct (H 5 (Some 99)) as (l' & w' & Hp & Hl & _ & Hq). exists l', w'. by split_and!.
Defined.

End StateMachine.
