(* ===== verification/Permission.v ===== *)
(** * Transmission permissions

    Models [core/common/security/permission/common/permission_entry.c], the
    table of permission entries read from a configuration file and the list
    of permissions granted at run time, and
    [core/common/security/permission/small/softbus_permission.c], the checks
    the transmission layer makes against them.

    A C string is a [string], and [None] where the code tests for NULL.  A
    global list is [Null], [Live] with its contents, or [Dangling] after the
    memory was released.  The cJSON library, the regular expressions of the
    C library, the permission service and what memory answers are parameters;
    an outer [None] is an access through a NULL or dangling pointer. *)

From S2P Require Import Prelude Errno Utils.
From stdpp Require Import strings.
From Stdlib Require Import Ascii.
Import Errno.
#[local] Open Scope Z_scope.

Module Permission.

Definition UNKNOWN_VALUE : Z := -1.
Definition SYSTEM_APP : Z := 0.
Definition NATIVE_APP : Z := 1.
Definition SELF_APP : Z := 2.
Definition NORMAL_APP : Z := 3.
Definition GRANTED_APP : Z := 4.
Definition UDID : Z := 0.
Definition UUID : Z := 1.
Definition NETWORKID : Z := 2.
Definition LEVEL_PRIVATE : Z := 0.
Definition LEVEL_PUBLIC : Z := 1.
Definition ACTION_CREATE : Z := 1.
Definition ACTION_OPEN : Z := 2.
Definition PKG_NAME_SIZE_MAX : Z := 65.
Definition SESSION_NAME_SIZE_MAX : Z := 256.
Definition TEMP_STR_MAX_LEN : Z := 128.
Definition DYNAMIC_PERMISSION_MAX_SIZE : Z := 100.

Record SoftBusPermissionItem := MkItem {
  permType : Z; item_uid : Z; item_pid : Z; item_pkgName : option string; item_actions : Z
}.

Record SoftBusAppInfo := MkAppInfo {
  type : Z; pkgName : string; actions : Z; uid : Z; pid : Z
}.

Record SoftBusPermissionEntry := MkEntry {
  sessionName : string; devId : Z; regexp : bool; secLevel : Z; appInfo : list SoftBusAppInfo
}.

Inductive ListPtr := Null | Live (l : Utils.SoftBusList SoftBusPermissionEntry) | Dangling.

Record State := MkState { g_permissionEntryList : ListPtr; g_dynamicPermissionList : ListPtr }.

(** ** Names and values *)

Definition g_peMap : list (string * Z) :=
  [("system_app"%string, SYSTEM_APP); ("native_app"%string, NATIVE_APP);
   ("self_app"%string, SELF_APP); ("normal_app"%string, NORMAL_APP);
   ("granted_app"%string, GRANTED_APP); ("UDID"%string, UDID); ("UUID"%string, UUID);
   ("NETWORKID"%string, NETWORKID); ("private"%string, LEVEL_PRIVATE);
   ("public"%string, LEVEL_PUBLIC); ("true"%string, 1); ("false"%string, 0)].

Fixpoint peMapLoop (l : list (string * Z)) (s : string) : Z :=
  match l with
  | [] => UNKNOWN_VALUE
  | (k, v) :: rest => if bool_decide (s = k) then v else peMapLoop rest s
  end.

Definition GetPeMapValue (s : string) : Z := peMapLoop g_peMap s.

Definition strlen (s : string) : Z := Z.of_nat (String.length s).

Definition StrIsEmpty (s : option string) : bool :=
  match s with None => true | Some s => strlen s =? 0 end.

(** The for loop of [StrStartWith]. *)
Fixpoint prefixLoop (target s : string) : bool :=
  match target, s with
  | EmptyString, _ => true
  | String a target', String b s' => bool_decide (b = a) && prefixLoop target' s'
  | String _ _, EmptyString => false
  end.

Definition StrStartWith (s target : option string) : bool :=
  match s, target with
  | Some s, Some t =>
    if (strlen s =? 0) || (strlen t =? 0) || (strlen s <? strlen t) then false
    else prefixLoop t s
  | _, _ => false
  end.

Definition DBINDER_SERVICE_NAME : string := "DBinderService".
Definition DBINDER_BUS_NAME_PREFIX : string := "DBinder".
Definition DBINDER_PACKAGE_NAME : string := "DBinderBus".

Definition CheckDBinder (s : option string) : bool :=
  if StrIsEmpty s then false
  else if bool_decide (s = Some DBINDER_SERVICE_NAME) then true
  else StrStartWith s (Some DBINDER_BUS_NAME_PREFIX).

(** [atoi]: white space, a sign, digits; the value of [strtol], which
    saturates in 64 bits, converted to [int]. *)
Fixpoint skipSpace (s : string) : string :=
  match s with
  | String c s' => if Utils.isspace (Z.of_nat (Ascii.nat_of_ascii c)) then skipSpace s' else s
  | EmptyString => s
  end.

Fixpoint decimal (acc : Z) (s : string) : Z :=
  match s with
  | String c s' =>
    let d := Z.of_nat (Ascii.nat_of_ascii c) - 48 in
    if (0 <=? d) && (d <=? 9) then decimal (acc * 10 + d) s' else acc
  | EmptyString => acc
  end.

Definition saturate64 (x : Z) : Z := Z.max (- 2 ^ 63) (Z.min (2 ^ 63 - 1) x).

Definition atoi (s : string) : Z :=
  match skipSpace s with
  | String "-"%char s' => s32 (saturate64 (- decimal 0 s'))
  | String "+"%char s' => s32 (saturate64 (decimal 0 s'))
  | s' => s32 (saturate64 (decimal 0 s'))
  end.

(** The tokens [strtok_s] finds between commas, empty ones skipped. *)
Fixpoint tokens (cur : string) (s : string) : list string :=
  match s with
  | EmptyString => if bool_decide (cur = EmptyString) then [] else [cur]
  | String c s' =>
    if bool_decide (c = ","%char) then
      if bool_decide (cur = EmptyString) then tokens EmptyString s' else cur :: tokens EmptyString s'
    else tokens (String.append cur (String c EmptyString)) s'
  end.

(** ** Reading the configuration *)

(** The functions of cJSON the code calls. *)
Class CJSON (json : Type) := {
  cJSON_Parse : string -> option json;
  cJSON_GetArraySize : json -> Z;
  cJSON_GetArrayItem : json -> Z -> option json;
  cJSON_GetObjectItem : json -> string -> option json;
  cJSON_GetObjectItemCaseSensitive : json -> string -> option json;
  cJSON_IsString : json -> bool;
  valuestring : json -> string
}.

Section Config.
Context {json : Type} `{CJSON json}.

(** The string copied to [target] when the result is [true]. *)
Definition GetJsonObjectStringItem (object : option json) (key : string) (targetLen : Z) : option string :=
  match object with
  | None => None
  | Some j =>
    match cJSON_GetObjectItemCaseSensitive j key with
    | None => None
    | Some item =>
      if negb (cJSON_IsString item) then None
      else if targetLen <=? u32 (strlen (valuestring item)) then None
      else Some (valuestring item)
    end
  end.

(** The while loop over the tokens of ["ACTIONS"]. *)
Fixpoint actionsOf (acts : Z) (ts : list string) : Z :=
  match ts with
  | [] => acts
  | t :: rest =>
    let acts' := if bool_decide (t = "open"%string) then Z.lor acts ACTION_OPEN
                 else if bool_decide (t = "create"%string) then Z.lor acts ACTION_CREATE
                 else acts in
    actionsOf acts' rest
  end.

Definition ProcessAppInfo (avail : bool) (object : option json) : option SoftBusAppInfo :=
  match object with
  | None => None
  | Some _ =>
    if negb avail then None
    else
      let pkg := default EmptyString (GetJsonObjectStringItem object "PKG_NAME" PKG_NAME_SIZE_MAX) in
      match GetJsonObjectStringItem object "TYPE" TEMP_STR_MAX_LEN with
      | None => None
      | Some mapKey =>
        let t := GetPeMapValue mapKey in
        if t =? UNKNOWN_VALUE then None
        else
          let u := match GetJsonObjectStringItem object "UID" TEMP_STR_MAX_LEN with
                   | Some s => atoi s | None => UNKNOWN_VALUE end in
          let a := match GetJsonObjectStringItem object "ACTIONS" TEMP_STR_MAX_LEN with
                   | Some s => actionsOf 0 (tokens EmptyString s) | None => 0 end in
          if a =? 0 then None else Some (MkAppInfo t pkg a u UNKNOWN_VALUE)
      end
  end.

(** The for loop over the application infos: each is linked at the head. *)
Fixpoint appInfoLoop (avail : Z -> bool) (arr : json) (n : nat) (i : Z) (acc : list SoftBusAppInfo)
  : list SoftBusAppInfo :=
  match n with
  | O => acc
  | S n' =>
    let acc' := match ProcessAppInfo (avail i) (cJSON_GetArrayItem arr i) with
                | Some a => a :: acc | None => acc end in
    appInfoLoop avail arr n' (i + 1) acc'
  end.

Definition ProcessPermissionEntry (availEntry : bool) (availInfo : Z -> bool) (object : option json)
  : option SoftBusPermissionEntry :=
  match object with
  | None => None
  | Some j =>
    if negb availEntry then None
    else match GetJsonObjectStringItem object "SESSION_NAME" SESSION_NAME_SIZE_MAX with
    | None => None
    | Some name =>
      let r := match GetJsonObjectStringItem object "REGEXP" TEMP_STR_MAX_LEN with
               | Some s => negb (GetPeMapValue s =? 0) | None => false end in
      let d := match GetJsonObjectStringItem object "DEVID" TEMP_STR_MAX_LEN with
               | Some s => GetPeMapValue s | None => UNKNOWN_VALUE end in
      let l := match GetJsonObjectStringItem object "SEC_LEVEL" TEMP_STR_MAX_LEN with
               | Some s => GetPeMapValue s | None => UNKNOWN_VALUE end in
      let infos := match cJSON_GetObjectItem j "APP_INFO" with
                   | Some arr => appInfoLoop availInfo arr (Z.to_nat (cJSON_GetArraySize arr)) 0 []
                   | None => [] end in
      Some (MkEntry name d r l infos)
    end
  end.

(** The for loop over the entries of the file. *)
Fixpoint entryLoop (availEntry : Z -> bool) (availInfo : Z -> Z -> bool) (arr : json) (n : nat) (i : Z)
    (l : Utils.SoftBusList SoftBusPermissionEntry) : Utils.SoftBusList SoftBusPermissionEntry :=
  match n with
  | O => l
  | S n' =>
    let l' := match ProcessPermissionEntry (availEntry i) (availInfo i) (cJSON_GetArrayItem arr i) with
              | Some pe => Utils.MkSoftBusList (u32 (Utils.cnt l + 1)) (pe :: Utils.list l)
              | None => l end in
    entryLoop availEntry availInfo arr n' (i + 1) l'
  end.

(** [file] is what [SoftBusReadFullFile] reads, [None] on failure. *)
Definition LoadPermissionJson (availList mutexInit : bool) (availEntry : Z -> bool)
    (availInfo : Z -> Z -> bool) (file : option string) (s : State) : option (Z * State) :=
  match file with
  | None => Some (SOFTBUS_FILE_ERR, s)
  | Some text =>
    match (match g_permissionEntryList s with
           | Null => match Utils.CreateSoftBusList availList mutexInit with
                     | Some l => Some (Live l) | None => None end
           | p => Some p end) with
    | None => Some (SOFTBUS_MALLOC_ERR, s)
    | Some p =>
      let s1 := MkState p (g_dynamicPermissionList s) in
      match cJSON_Parse text with
      | None => Some (SOFTBUS_PARSE_JSON_ERR, s1)
      | Some arr =>
        if cJSON_GetArraySize arr <=? 0 then Some (SOFTBUS_PARSE_JSON_ERR, s1)
        else match p with
        | Live l =>
          Some (SOFTBUS_OK, MkState (Live (entryLoop availEntry availInfo arr
                  (Z.to_nat (cJSON_GetArraySize arr)) 0 l)) (g_dynamicPermissionList s))
        | _ => None
        end
      end
    end
  end.

End Config.

(** [DestroySoftBusList] releases the list; the global keeps its address. *)
Definition DeinitPermissionJson (s : State) : option State :=
  match g_permissionEntryList s with
  | Null => Some s
  | Live _ => Some (MkState Dangling (g_dynamicPermissionList s))
  | Dangling => None
  end.

(** ** Checking *)

Section Check.

(** [regexMatch pattern text]: [None] when the pattern does not compile. *)
Context (regexMatch : string -> string -> option bool).

Definition CompareString (src dest : option string) (re : bool) : Z :=
  match src, dest with
  | Some s, Some d =>
    if re then
      match regexMatch s d with
      | None => SOFTBUS_PERMISSION_DENIED
      | Some true => SOFTBUS_OK
      | Some false => SOFTBUS_PERMISSION_DENIED
      end
    else if bool_decide (s = d) then SOFTBUS_OK else SOFTBUS_PERMISSION_DENIED
  | _, _ => SOFTBUS_PERMISSION_DENIED
  end.

Definition GetPermType (info : SoftBusAppInfo) (p : SoftBusPermissionItem) : Z :=
  if (type info =? NATIVE_APP) || (type info =? SYSTEM_APP) then
    if (permType p =? SYSTEM_APP) || (permType p =? NATIVE_APP) then permType p
    else SOFTBUS_PERMISSION_DENIED
  else if type info =? GRANTED_APP then
    if item_actions p =? ACTION_CREATE then
      if (permType p =? SYSTEM_APP) || (permType p =? NATIVE_APP) || (permType p =? NORMAL_APP)
      then permType p else SOFTBUS_PERMISSION_DENIED
    else if item_actions p =? ACTION_OPEN then
      if permType p =? GRANTED_APP then type info else SOFTBUS_PERMISSION_DENIED
    else SOFTBUS_PERMISSION_DENIED
  else if type info =? NORMAL_APP then
    if (permType p =? SYSTEM_APP) || (permType p =? NATIVE_APP) || (permType p =? NORMAL_APP)
    then permType p else SOFTBUS_PERMISSION_DENIED
  else if type info =? SELF_APP then
    if permType p =? SELF_APP then SELF_APP else SOFTBUS_PERMISSION_DENIED
  else SOFTBUS_PERMISSION_DENIED.

(** The loop over the application infos. *)
Fixpoint appInfoCheck (l : list SoftBusAppInfo) (p : SoftBusPermissionItem) : Z :=
  match l with
  | [] => SOFTBUS_PERMISSION_DENIED
  | a :: rest =>
    if negb (Z.land (actions a) (item_actions p) =? item_actions p) then appInfoCheck rest p
    else
      let t := GetPermType a p in
      if t <? 0 then appInfoCheck rest p
      else if (0 <=? uid a) && negb (uid a =? item_uid p) then appInfoCheck rest p
      else if (0 <=? pid a) && negb (pid a =? item_pid p) then appInfoCheck rest p
      else if negb (StrIsEmpty (Some (pkgName a))) &&
              negb (CompareString (Some (pkgName a)) (item_pkgName p) false =? SOFTBUS_OK) &&
              negb (StrIsEmpty (item_pkgName p)) then appInfoCheck rest p
      else t
  end.

Definition CheckPermissionAppInfo (pe : SoftBusPermissionEntry) (p : SoftBusPermissionItem) : Z :=
  if item_actions p =? 0 then SOFTBUS_PERMISSION_DENIED else appInfoCheck (appInfo pe) p.

(** The first entry whose name matches the session. *)
Fixpoint findEntry (l : list SoftBusPermissionEntry) (name : option string) : option SoftBusPermissionEntry :=
  match l with
  | [] => None
  | pe :: rest =>
    if CompareString (Some (sessionName pe)) name (regexp pe) =? SOFTBUS_OK then Some pe
    else findEntry rest name
  end.

Definition HaveGrantedPermission (s : State) (name : option string) : option bool :=
  match name, g_dynamicPermissionList s with
  | None, _ | _, Null => Some false
  | Some _, Live l => Some (bool_decide (is_Some (findEntry (Utils.list l) name)))
  | _, Dangling => None
  end.

Definition CreatePermissionItem (avail : bool) (t u p : Z) (pkg : option string) (acts : Z)
  : option SoftBusPermissionItem :=
  if avail then Some (MkItem t u p pkg acts) else None.

(** [isValidPkgName uid pkgName] is [IsValidPkgName] of the build.  The part
    after the loop: whatever its tests find, the answer is a denial. *)
Definition CheckPermissionEntry (isValidPkgName : Z -> option string -> Z) (s : State)
    (name : option string) (item : option SoftBusPermissionItem) : option Z :=
  match name, item with
  | Some _, Some p =>
    match g_permissionEntryList s with
    | Null => Some SOFTBUS_INVALID_PARAM
    | _ =>
      let isDynamicPermission := CheckDBinder name in
      match (if isDynamicPermission then g_dynamicPermissionList s else g_permissionEntryList s) with
      | Live l =>
        match findEntry (Utils.list l) name with
        | Some pe =>
          if isDynamicPermission then Some GRANTED_APP
          else
            let t := CheckPermissionAppInfo pe p in
            if t <? 0 then Some SOFTBUS_PERMISSION_DENIED else Some t
        | None =>
          if negb (permType p =? NORMAL_APP) then Some SOFTBUS_PERMISSION_DENIED
          else if item_actions p =? ACTION_CREATE then
            if negb (isValidPkgName (item_uid p) (item_pkgName p) =? SOFTBUS_OK) then
              Some SOFTBUS_PERMISSION_DENIED
            else if negb (StrStartWith name (item_pkgName p)) then Some SOFTBUS_PERMISSION_DENIED
            else Some SOFTBUS_PERMISSION_DENIED
          else Some SOFTBUS_PERMISSION_DENIED
        end
      | _ => None
      end
    end
  | _, _ => Some SOFTBUS_INVALID_PARAM
  end.

Definition PermIsSecLevelPublic (lockOk : bool) (s : State) (name : option string) : option bool :=
  match name with
  | None => Some false
  | Some _ =>
    if CheckDBinder name then Some true
    else match g_permissionEntryList s with
    | Live l =>
      if negb lockOk then Some false
      else Some (match findEntry (Utils.list l) name with
                 | Some pe => secLevel pe =? LEVEL_PUBLIC | None => false end)
    | _ => None
    end
  end.

(** ** Permissions granted at run time *)

Definition InitDynamicPermission (malloc mutexInit : bool) (s : State) : Z * State :=
  match g_dynamicPermissionList s with
  | Null =>
    match Utils.CreateSoftBusList malloc mutexInit with
    | Some l => (SOFTBUS_OK, MkState (g_permissionEntryList s) (Live l))
    | None => (SOFTBUS_MALLOC_ERR, s)
    end
  | _ => (SOFTBUS_OK, s)
  end.

(** The entry on success; [entryAvail] says whether the caller has one. *)
Definition NewDynamicPermissionEntry (entryAvail infoAvail : bool) (name : option string)
    (callingUid callingPid : Z) : Z * option SoftBusPermissionEntry :=
  if negb entryAvail then (SOFTBUS_INVALID_PARAM, None)
  else match name with
  | None => (SOFTBUS_INVALID_PARAM, None)
  | Some n =>
    if SESSION_NAME_SIZE_MAX <=? strlen n then (SOFTBUS_INVALID_PARAM, None)
    else if negb infoAvail then (SOFTBUS_MALLOC_ERR, None)
    else (SOFTBUS_OK, Some (MkEntry n UNKNOWN_VALUE false LEVEL_PUBLIC
      [MkAppInfo GRANTED_APP DBINDER_PACKAGE_NAME (Z.lor ACTION_CREATE ACTION_OPEN) callingUid callingPid]))
  end.

Definition AddDynamicPermission (entryAvail infoAvail : bool) (s : State) (callingUid callingPid : Z)
    (name : option string) : option (Z * State) :=
  match g_dynamicPermissionList s with
  | Live l =>
    if DYNAMIC_PERMISSION_MAX_SIZE <=? Utils.cnt l then Some (SOFTBUS_NO_ENOUGH_DATA, s)
    else (
      granted ← HaveGrantedPermission s name;
      if (granted : bool) then Some (SOFTBUS_OK, s)
      else match NewDynamicPermissionEntry entryAvail infoAvail name callingUid callingPid with
      | (ret, None) => Some (ret, s)
      | (ret, Some pe) =>
        Some (SOFTBUS_OK, MkState (g_permissionEntryList s)
                (Live (Utils.MkSoftBusList (u32 (Utils.cnt l + 1)) (pe :: Utils.list l))))
      end)
  | _ => None
  end.

(** The first entry that matches is unlinked. *)
Fixpoint deleteEntry (l : list SoftBusPermissionEntry) (name : option string) : list SoftBusPermissionEntry :=
  match l with
  | [] => []
  | pe :: rest =>
    if CompareString (Some (sessionName pe)) name (regexp pe) =? SOFTBUS_OK then rest
    else pe :: deleteEntry rest name
  end.

Definition DeleteDynamicPermission (s : State) (name : option string) : option (Z * State) :=
  match g_dynamicPermissionList s with
  | Live l =>
    match findEntry (Utils.list l) name with
    | Some _ => Some (SOFTBUS_OK, MkState (g_permissionEntryList s)
        (Live (Utils.MkSoftBusList (u32 (Utils.cnt l - 1)) (deleteEntry (Utils.list l) name))))
    | None => Some (SOFTBUS_NOT_FIND, s)
    end
  | _ => None
  end.

(** ** The checks of the transmission layer (small system)

    [granted uid] is whether the permission service answers [GRANTED]. *)
Context (granted : Z -> bool).

Definition SHELL_UID : Z := 2.
Definition INVALID_UID : Z := -1.
Definition FIRST_APPLICATION_UID : Z := 10000.

Definition CheckSoftBusSysPermission (callingUid : Z) : Z :=
  if negb (granted callingUid) then SOFTBUS_PERMISSION_DENIED else SOFTBUS_OK.

(** [GetPermType] of [small/softbus_permission.c]; [getuid] and [getpid] are
    those of the service itself. *)
Definition GetPermType_small (getuid getpid callingUid callingPid : Z) : Z :=
  if (callingUid =? getuid) && (callingPid =? getpid) then SELF_APP
  else if CheckSoftBusSysPermission callingUid =? SOFTBUS_OK then SYSTEM_APP
  else if (INVALID_UID <? callingUid) && (callingUid <? FIRST_APPLICATION_UID) && negb (callingUid =? SHELL_UID)
  then NATIVE_APP
  else SOFTBUS_PERMISSION_DENIED.

Definition IsValidPkgName (uid_ : Z) (pkg : option string) : Z := SOFTBUS_OK.

Definition CheckTransPermission (avail : bool) (s : State) (getuid getpid callingUid callingPid : Z)
    (pkg name : option string) (acts : Z) : option Z :=
  let t := GetPermType_small getuid getpid callingUid callingPid in
  if t <? 0 then Some t
  else match CreatePermissionItem avail t callingUid callingPid pkg acts with
  | None => Some SOFTBUS_MALLOC_ERR
  | Some item =>
    ret ← CheckPermissionEntry IsValidPkgName s name (Some item);
    if SYSTEM_APP <=? ret then Some SOFTBUS_OK else Some SOFTBUS_PERMISSION_DENIED
  end.

Definition CheckTransSecLevel (lockOk : bool) (s : State) (mine peer : option string) : option Z :=
  match mine, peer with
  | Some a, Some b =>
    if bool_decide (a = b) then Some SOFTBUS_OK
    else (
      p1 ← PermIsSecLevelPublic lockOk s mine;
      if negb p1 then Some SOFTBUS_PERMISSION_DENIED
      else (
        p2 ← PermIsSecLevelPublic lockOk s peer;
        if negb p2 then Some SOFTBUS_PERMISSION_DENIED else Some SOFTBUS_OK))
  | _, _ => Some SOFTBUS_INVALID_PARAM
  end.

Definition CheckDiscPermission (callingUid : Z) : bool := CheckSoftBusSysPermission callingUid =? SOFTBUS_OK.
Definition CheckBusCenterPermission (callingUid : Z) : bool := CheckSoftBusSysPermission callingUid =? SOFTBUS_OK.

(** ** Who is let through *)

Definition sessionMatch (e : SoftBusPermissionEntry) (n : string) : Prop :=
  if regexp e then regexMatch (sessionName e) n = Some true else sessionName e = n.

Lemma CompareString_ok e n :
  CompareString (Some (sessionName e)) (Some n) (regexp e) = SOFTBUS_OK <-> sessionMatch e n.
Proof.
  unfold CompareString, sessionMatch. destruct (regexp e).
  - destruct (regexMatch _ _) as [[]|]; split; intros H; try done; by vm_compute in H.
  - case_bool_decide; split; intros E; try done; by vm_compute in E.
Qed.

(** The search stops at the first entry that matches. *)
Lemma findEntry_spec l n :
  match findEntry l (Some n) with
  | Some e => exists l1 l2, l = l1 ++ e :: l2 /\ Forall (fun x => ~ sessionMatch x n) l1 /\ sessionMatch e n
  | None => Forall (fun x => ~ sessionMatch x n) l
  end.
Proof.
  induction l as [|x l IH]; cbn [findEntry]; [constructor|].
  destruct (Z.eqb_spec (CompareString (Some (sessionName x)) (Some n) (regexp x)) SOFTBUS_OK) as [E|E];
    rewrite CompareString_ok in E.
  - by exists [], l.
  - destruct (findEntry l (Some n)) as [e|]; [|by constructor].
    destruct IH as (l1 & l2 & -> & H1 & H2). exists (x :: l1), l2. split_and!; [done|by constructor|done].
Qed.

(** The first match is determined by the list. *)
Lemma first_unique n l1 e l2 m1 e' m2 : l1 ++ e :: l2 = m1 ++ e' :: m2 ->
  Forall (fun x => ~ sessionMatch x n) l1 -> sessionMatch e n ->
  Forall (fun x => ~ sessionMatch x n) m1 -> sessionMatch e' n -> e' = e.
Proof.
  revert m1. induction l1 as [|x l1 IH]; intros [|y m1] E H1 H2 H3 H4; cbn in E; simplify_eq; try done.
  - by apply Forall_cons in H3 as [? _].
  - by apply Forall_cons in H1 as [? _].
  - apply Forall_cons in H1 as [_ H1]. apply Forall_cons in H3 as [_ H3]. by eapply IH.
Qed.

(** Which kind of caller an application info admits. *)
Definition roleAllows (a : SoftBusAppInfo) (p : SoftBusPermissionItem) : Prop :=
  ((type a = SYSTEM_APP \/ type a = NATIVE_APP) /\ (permType p = SYSTEM_APP \/ permType p = NATIVE_APP)) \/
  ((type a = NORMAL_APP \/ type a = GRANTED_APP /\ item_actions p = ACTION_CREATE) /\
     (permType p = SYSTEM_APP \/ permType p = NATIVE_APP \/ permType p = NORMAL_APP)) \/
  (type a = GRANTED_APP /\ item_actions p = ACTION_OPEN /\ permType p = GRANTED_APP) \/
  (type a = SELF_APP /\ permType p = SELF_APP).

(** An application info that grants the request. *)
Definition grants (a : SoftBusAppInfo) (p : SoftBusPermissionItem) : Prop :=
  Z.land (actions a) (item_actions p) = item_actions p /\ roleAllows a p /\
  (uid a < 0 \/ uid a = item_uid p) /\ (pid a < 0 \/ pid a = item_pid p) /\
  (pkgName a = EmptyString \/ StrIsEmpty (item_pkgName p) = true \/ item_pkgName p = Some (pkgName a)).

Lemma denied_negative : SOFTBUS_PERMISSION_DENIED < 0.
Proof. done. Qed.

Lemma GetPermType_spec a p :
  (roleAllows a p -> GetPermType a p = permType p /\ 0 <= permType p) /\
  (~ roleAllows a p -> GetPermType a p < 0).
Proof.
  pose proof denied_negative as Hneg. unfold GetPermType, roleAllows, SYSTEM_APP, NATIVE_APP, SELF_APP, NORMAL_APP,
    GRANTED_APP, ACTION_CREATE, ACTION_OPEN in *.
  split; intros Hr; split_cmp; cbn [orb]; try lia; try (split; lia);
    exfalso; apply Hr; lia.
Qed.

Lemma StrIsEmpty_Some s : StrIsEmpty (Some s) = true <-> s = EmptyString.
Proof. unfold StrIsEmpty, strlen. destruct s; simpl; split; intros; try done; lia. Qed.

Lemma pkg_test a p :
  negb (StrIsEmpty (Some (pkgName a))) &&
  negb (CompareString (Some (pkgName a)) (item_pkgName p) false =? SOFTBUS_OK) &&
  negb (StrIsEmpty (item_pkgName p)) = false <->
  (pkgName a = EmptyString \/ StrIsEmpty (item_pkgName p) = true \/ item_pkgName p = Some (pkgName a)).
Proof.
  rewrite !andb_false_iff, !negb_false_iff, StrIsEmpty_Some, Z.eqb_eq.
  assert (CompareString (Some (pkgName a)) (item_pkgName p) false = SOFTBUS_OK <->
    item_pkgName p = Some (pkgName a)) as ->; [|tauto].
  unfold CompareString. destruct (item_pkgName p) as [d|].
  - case_bool_decide; subst; split; intros E; try done; solve [by vm_compute in E|by simplify_eq].
  - split; intros E; [by vm_compute in E|done].
Qed.

(** The loop over the infos succeeds, with the caller's own type, exactly
    when one of them grants the request. *)
Lemma appInfoCheck_spec l p :
  (Exists (fun a => grants a p) l -> appInfoCheck l p = permType p /\ 0 <= permType p) /\
  (~ Exists (fun a => grants a p) l -> appInfoCheck l p < 0).
Proof.
  induction l as [|a l [IH1 IH2]]; cbn [appInfoCheck]; [by rewrite Exists_nil|].
  rewrite Exists_cons. destruct (GetPermType_spec a p) as [G1 G2].
  assert (~ grants a p -> (grants a p \/ Exists (fun a => grants a p) l -> appInfoCheck l p = permType p /\ 0 <= permType p) /\
    (~ (grants a p \/ Exists (fun a => grants a p) l) -> appInfoCheck l p < 0)) as Hskip by tauto.
  destruct (Z.eqb_spec (Z.land (actions a) (item_actions p)) (item_actions p)) as [Ha|Ha]; cbn [negb].
  2:{ apply Hskip. by intros (? & _). }
  destruct (Z.ltb_spec (GetPermType a p) 0) as [Ht|Ht].
  { apply Hskip. intros (_ & Hr & _). destruct (G1 Hr). lia. }
  assert (roleAllows a p) as Hr.
  { destruct (decide (roleAllows a p)) as [|Hn]; [done|]. specialize (G2 Hn). lia. }
  destruct (G1 Hr) as [-> Hp].
  destruct ((0 <=? uid a) && negb (uid a =? item_uid p)) eqn:Eu.
  { apply Hskip. intros (_ & _ & ? & _). apply andb_true_iff in Eu as [?%Z.leb_le ?%negb_true_iff%Z.eqb_neq]. lia. }
  destruct ((0 <=? pid a) && negb (pid a =? item_pid p)) eqn:Ep.
  { apply Hskip. intros (_ & _ & _ & ? & _). apply andb_true_iff in Ep as [?%Z.leb_le ?%negb_true_iff%Z.eqb_neq]. lia. }
  destruct (negb (StrIsEmpty (Some (pkgName a))) && _ && _) eqn:En.
  { apply Hskip. intros (_ & _ & _ & _ & Hk). apply pkg_test in Hk. congruence. }
  apply pkg_test in En. apply andb_false_iff in Eu, Ep.
  split; [done|]. intros Hn. exfalso. apply Hn. left.
  split_and!; try done.
  - destruct Eu as [?%Z.leb_gt|?%negb_false_iff%Z.eqb_eq]; lia.
  - destruct Ep as [?%Z.leb_gt|?%negb_false_iff%Z.eqb_eq]; lia.
Qed.

(** Sessions that are not of DBinder are looked up in the configured table. *)
Lemma CheckTransPermission_configured s l me mypid u pd pkg n acts :
  g_permissionEntryList s = Live l -> CheckDBinder (Some n) = false ->
  let t := GetPermType_small me mypid u pd in
  let item := MkItem t u pd pkg acts in
  exists r, CheckTransPermission true s me mypid u pd pkg (Some n) acts = Some r /\
    (r = SOFTBUS_OK <->
       0 <= t /\ acts <> 0 /\ exists l1 e l2, Utils.list l = l1 ++ e :: l2 /\
         Forall (fun x => ~ sessionMatch x n) l1 /\ sessionMatch e n /\
         Exists (fun a => grants a item) (appInfo e)) /\
    (r <> SOFTBUS_OK -> r < 0).
Proof.
  intros Hl Hd t item. unfold CheckTransPermission. fold t.
  destruct (Z.ltb_spec t 0) as [Ht|Ht].
  { exists t. split; [done|]. split; [|lia]. unfold SOFTBUS_OK. lia. }
  cbn [CreatePermissionItem]. fold item. unfold CheckPermissionEntry. rewrite Hl, Hd.
  pose proof (findEntry_spec (Utils.list l) n) as Hf. pose proof denied_negative as Hneg.
  assert (exists r, Some SOFTBUS_PERMISSION_DENIED = Some r /\ (r = SOFTBUS_OK <-> False) /\
    (r <> SOFTBUS_OK -> r < 0)) as Hden.
  { eexists. split; [done|]. unfold SOFTBUS_OK. lia. }
  destruct (findEntry (Utils.list l) (Some n)) as [e|].
  - destruct Hf as (l1 & l2 & Hll & Hl1 & Hm). destruct (appInfoCheck_spec (appInfo e) item) as [A1 A2].
    assert (forall e', (exists l1 l2, Utils.list l = l1 ++ e' :: l2 /\ Forall (fun x => ~ sessionMatch x n) l1 /\
      sessionMatch e' n) -> e' = e) as Huniq.
    { intros e' (m1 & m2 & E & Hm1 & Hm'). rewrite Hll in E. by eapply first_unique. }
    unfold CheckPermissionAppInfo. change (item_actions item) with acts.
    destruct (Z.eqb_spec acts 0) as [->|Hacts].
    { change (SOFTBUS_PERMISSION_DENIED <? 0) with true. cbn [mbind option_bind].
      change (SYSTEM_APP <=? SOFTBUS_PERMISSION_DENIED) with false.
      destruct Hden as (r & Hr & Hf & Hn). exists r. split; [done|]. split; [|done]. tauto. }
    destruct (decide (Exists (fun a => grants a item) (appInfo e))) as [Hex|Hnex].
    + destruct (A1 Hex) as [-> Hp]. destruct (Z.ltb_spec (permType item) 0); [lia|]. cbn [mbind option_bind].
      destruct (Z.leb_spec SYSTEM_APP (permType item)) as [_|]; [|unfold SYSTEM_APP in *; lia].
      eexists. split; [done|]. split; [|done]. split; [|done]. intros _. split_and!; try done.
      by exists l1, e, l2.
    + destruct (Z.ltb_spec (appInfoCheck (appInfo e) item) 0) as [_|]; [|specialize (A2 Hnex); lia].
      cbn [mbind option_bind]. change (SYSTEM_APP <=? SOFTBUS_PERMISSION_DENIED) with false.
      destruct Hden as (r & Hr & Hf & Hn). exists r. split; [done|]. split; [|done]. rewrite Hf.
      split; [done|]. intros (_ & _ & m1 & e' & m2 & E & Hm1 & Hm' & Hex).
      rewrite (Huniq e') in Hex; [done|]. by exists m1, m2.
  - assert (~ exists l1 e l2, Utils.list l = l1 ++ e :: l2 /\
      Forall (fun x => ~ sessionMatch x n) l1 /\ sessionMatch e n /\
      Exists (fun a => grants a item) (appInfo e)) as Hno.
    { intros (l1 & e & l2 & E & _ & Hm & _). rewrite E in Hf. apply Forall_app in Hf as [_ Hf].
      by apply Forall_cons in Hf as [Hf _]. }
    exists SOFTBUS_PERMISSION_DENIED. split; [|split; [|done]].
    + repeat case_match; reflexivity.
    + split; [intros H; by vm_compute in H|]. intros (_ & _ & H). by apply Hno in H.
Qed.

(** Sessions of DBinder are looked up among the names granted at run time. *)
Lemma CheckTransPermission_granted s l d me mypid u pd pkg n acts :
  g_permissionEntryList s = Live l -> g_dynamicPermissionList s = Live d -> CheckDBinder (Some n) = true ->
  let t := GetPermType_small me mypid u pd in
  exists r, CheckTransPermission true s me mypid u pd pkg (Some n) acts = Some r /\
    (r = SOFTBUS_OK <-> 0 <= t /\ Exists (fun e => sessionMatch e n) (Utils.list d)) /\
    (r <> SOFTBUS_OK -> r < 0).
Proof.
  intros Hl Hdyn Hd t. unfold CheckTransPermission. fold t.
  destruct (Z.ltb_spec t 0) as [Ht|Ht].
  { exists t. split; [done|]. split; [|lia]. unfold SOFTBUS_OK. lia. }
  cbn [CreatePermissionItem]. unfold CheckPermissionEntry. rewrite Hl, Hd, Hdyn.
  pose proof (findEntry_spec (Utils.list d) n) as Hf. destruct (findEntry (Utils.list d) (Some n)) as [e|].
  - destruct Hf as (l1 & l2 & -> & _ & Hm). exists SOFTBUS_OK. split; [done|]. split; [|done].
    split; [|done]. intros _. split; [done|]. apply Exists_app. right. by constructor.
  - exists SOFTBUS_PERMISSION_DENIED. split; [repeat case_match; reflexivity|]. pose proof denied_negative.
    split; [|done]. split; [intros E; by vm_compute in E|]. intros [_ Hex].
    by apply Forall_Exists_neg in Hf.
Qed.

(** C21: once both tables are there, [CheckTransPermission] dereferences no
    NULL, refuses with an error every request it does not let through, and
    lets a request through exactly when memory for its item is available, the
    caller is the service itself, a holder of the system permission or a
    native process, and the session is granted.  A session of DBinder is
    granted when its name was granted at run time, whatever the request is
    for.  Any other session is granted when the request names an action and
    the first configured entry whose name (or pattern) matches has an
    application info that covers the actions, admits this kind of caller, and
    agrees on user, process and package name where it states them. *)
Theorem CheckTransPermission_spec avail s l d me mypid u pd pkg n acts :
  g_permissionEntryList s = Live l -> g_dynamicPermissionList s = Live d ->
  let t := GetPermType_small me mypid u pd in
  let item := MkItem t u pd pkg acts in
  exists r, CheckTransPermission avail s me mypid u pd pkg (Some n) acts = Some r /\
    (r = SOFTBUS_OK <-> avail = true /\ 0 <= t /\
       if CheckDBinder (Some n) then Exists (fun e => sessionMatch e n) (Utils.list d)
       else acts <> 0 /\ exists l1 e l2, Utils.list l = l1 ++ e :: l2 /\
         Forall (fun x => ~ sessionMatch x n) l1 /\ sessionMatch e n /\
         Exists (fun a => grants a item) (appInfo e)) /\
    (r <> SOFTBUS_OK -> r < 0).
Proof.
  intros Hl Hd t item. destruct avail; cycle 1.
  { assert (exists r, CheckTransPermission false s me mypid u pd pkg (Some n) acts = Some r /\ r < 0) as (r & E & Hr).
    { unfold CheckTransPermission. fold t. destruct (Z.ltb_spec t 0); [by exists t|]. by eexists. }
    exists r. split; [done|]. split; [|done]. unfold SOFTBUS_OK. split; [lia|by intros [? _]]. }
  destruct (CheckDBinder (Some n)) eqn:E.
  - destruct (CheckTransPermission_granted s l d me mypid u pd pkg n acts) as (r & ? & ? & ?); [done..|].
    exists r. split_and!; [done|tauto|done].
  - destruct (CheckTransPermission_configured s l me mypid u pd pkg n acts) as (r & ? & ? & ?); [done..|].
    exists r. split_and!; [done|tauto|done].
Qed.

(** ** Permissions granted at run time *)

(** The list holds distinct plain names and its count is right. *)
Definition dynOK (s : State) (names : gset string) : Prop :=
  exists l, g_dynamicPermissionList s = Live l /\
    Utils.cnt l = Z.of_nat (length (Utils.list l)) /\ Utils.cnt l <= DYNAMIC_PERMISSION_MAX_SIZE /\
    Forall (fun e => regexp e = false) (Utils.list l) /\
    NoDup (sessionName <$> Utils.list l) /\ names = list_to_set (sessionName <$> Utils.list l).

Lemma findEntry_plain l n : Forall (fun e => regexp e = false) l ->
  bool_decide (is_Some (findEntry l (Some n))) = bool_decide (n ∈ sessionName <$> l).
Proof.
  intros Hp. apply bool_decide_ext. pose proof (findEntry_spec l n) as Hf.
  destruct (findEntry l (Some n)) as [e|].
  - destruct Hf as (l1 & l2 & -> & _ & Hm). split; [intros _|done].
    apply Forall_app in Hp as [_ Hp]. apply Forall_cons in Hp as [Hp _].
    unfold sessionMatch in Hm. rewrite Hp in Hm. subst n.
    apply list_elem_of_fmap. exists e. split; [done|]. set_solver.
  - split; [by intros []|]. intros (e & -> & He)%list_elem_of_fmap. exfalso.
    rewrite Forall_forall in Hf, Hp. apply (Hf e He). unfold sessionMatch. by rewrite (Hp e He).
Qed.

Lemma deleteEntry_spec l n : Forall (fun e => regexp e = false) l -> NoDup (sessionName <$> l) ->
  n ∈ sessionName <$> l ->
  S (length (deleteEntry l (Some n))) = length l /\
  Forall (fun e => regexp e = false) (deleteEntry l (Some n)) /\
  NoDup (sessionName <$> deleteEntry l (Some n)) /\
  forall x, x ∈ sessionName <$> deleteEntry l (Some n) <-> x ∈ sessionName <$> l /\ x <> n.
Proof.
  induction l as [|e l IH]; intros Hp Hnd Hin; [set_solver|].
  apply Forall_cons in Hp as [Hpe Hp]. cbn [fmap list_fmap] in Hnd, Hin |- *.
  apply NoDup_cons in Hnd as [Hne Hnd]. cbn [deleteEntry].
  destruct (Z.eqb_spec (CompareString (Some (sessionName e)) (Some n) (regexp e)) SOFTBUS_OK) as [E|E];
    rewrite CompareString_ok in E; unfold sessionMatch in E; rewrite Hpe in E.
  - subst n. split_and!; try done. intros x. set_solver.
  - destruct IH as (H1 & H2 & H3 & H4); [done|done|set_solver|]. cbn [length fmap list_fmap].
    split_and!; [lia|by constructor| |].
    + apply NoDup_cons. split; [|done]. rewrite H4. tauto.
    + intros x. rewrite !elem_of_cons, H4. naive_solver.
Qed.

(** C38: the permissions granted at run time are a set of at most 100 session
    names.  With memory available, granting adds a name shorter than 256
    characters, reports success again for a name already granted, and fails
    when 100 names are granted (also for a name among them); revoking removes
    a granted name and reports the others as not found; a DBinder session
    passes [CheckPermissionEntry] exactly when its name is granted. *)
Theorem dynamic_permissions_refine s names n u pd : dynOK s names -> strlen n < SESSION_NAME_SIZE_MAX ->
  (exists r s', AddDynamicPermission true true s u pd (Some n) = Some (r, s') /\
     if bool_decide (100 <= size names)%nat then r = SOFTBUS_NO_ENOUGH_DATA /\ s' = s
     else r = SOFTBUS_OK /\ dynOK s' (names ∪ {[n]})) /\
  (exists r s', DeleteDynamicPermission s (Some n) = Some (r, s') /\
     if bool_decide (n ∈ names) then r = SOFTBUS_OK /\ dynOK s' (names ∖ {[n]})
     else r = SOFTBUS_NOT_FIND /\ s' = s) /\
  (forall valid p, CheckDBinder (Some n) = true -> g_permissionEntryList s <> Null ->
     CheckPermissionEntry valid s (Some n) (Some p) =
       Some (if bool_decide (n ∈ names) then GRANTED_APP else SOFTBUS_PERMISSION_DENIED)).
Proof.
  clear granted. intros (l & Hl & Hc & Hmax & Hp & Hnd & ->) Hlen.
  assert (n ∈ (list_to_set (sessionName <$> Utils.list l) : gset string) <-> n ∈ sessionName <$> Utils.list l) as Hin
    by apply elem_of_list_to_set.
  pose proof (findEntry_plain (Utils.list l) n Hp) as Hfp.
  split_and!.
  - unfold AddDynamicPermission. rewrite Hl. rewrite size_list_to_set, length_fmap by done.
    destruct (Z.leb_spec DYNAMIC_PERMISSION_MAX_SIZE (Utils.cnt l)) as [Hge|Hlt]; unfold DYNAMIC_PERMISSION_MAX_SIZE in *.
    { rewrite bool_decide_true by lia. eauto. }
    rewrite bool_decide_false by lia. unfold HaveGrantedPermission. rewrite Hl, Hfp. cbn [mbind option_bind].
    destruct (decide (n ∈ sessionName <$> Utils.list l)) as [Hx|Hx];
      [rewrite bool_decide_true by done|rewrite bool_decide_false by done].
    + eexists _, s. split; [done|]. split; [done|]. exists l. split_and!; try done. set_solver.
    + unfold NewDynamicPermissionEntry. cbn [negb].
      destruct (Z.leb_spec SESSION_NAME_SIZE_MAX (strlen n)); [lia|].
      eexists _, _. split; [done|]. split; [done|]. eexists. split; [done|]. cbn [Utils.cnt Utils.list].
      assert (u32 (Utils.cnt l + 1) = Utils.cnt l + 1) as -> by (apply wrapU_id; range).
      cbn [length fmap list_fmap sessionName list_to_set].
      split_and!; [lia|unfold DYNAMIC_PERMISSION_MAX_SIZE; lia|by constructor|by apply NoDup_cons|set_solver].
  - unfold DeleteDynamicPermission. rewrite Hl. rewrite (bool_decide_ext _ _ Hin), <- Hfp.
    destruct (findEntry (Utils.list l) (Some n)) as [e|] eqn:Hf.
    + rewrite bool_decide_true by eauto. eexists _, _. split; [done|]. split; [done|].
      rewrite bool_decide_true in Hfp by eauto. symmetry in Hfp. apply bool_decide_eq_true in Hfp.
      destruct (deleteEntry_spec (Utils.list l) n Hp Hnd Hfp) as (H1 & H2 & H3 & H4).
      eexists. split; [done|]. cbn [Utils.cnt Utils.list].
      assert (u32 (Utils.cnt l - 1) = Utils.cnt l - 1) as ->.
      { apply wrapU_id. unfold DYNAMIC_PERMISSION_MAX_SIZE in *. range. }
      split_and!; try done; [lia|lia|]. apply set_eq. intros x.
      rewrite elem_of_difference, elem_of_singleton, !elem_of_list_to_set, H4. done.
    + rewrite bool_decide_false by (by intros []). eauto.
  - intros valid p Hd Hnn. unfold CheckPermissionEntry. rewrite Hd, Hl.
    rewrite (bool_decide_ext _ _ Hin), <- Hfp.
    destruct (g_permissionEntryList s); [done| |];
      (destruct (findEntry (Utils.list l) (Some n)); [by rewrite bool_decide_true by eauto|]);
      rewrite bool_decide_false by (by intros []); repeat case_match; done.
Qed.

(** [DeinitPermissionJson] releases the table but leaves its address in
    the global: the next check of an ordinary session, and a second
    [DeinitPermissionJson], access released memory. *)
Theorem deinit_leaves_dangling s l valid n p : g_permissionEntryList s = Live l ->
  CheckDBinder (Some n) = false ->
  exists s', DeinitPermissionJson s = Some s' /\
    CheckPermissionEntry valid s' (Some n) (Some p) = None /\ DeinitPermissionJson s' = None.
Proof.
  intros Hl Hd. unfold DeinitPermissionJson. rewrite Hl. eexists. split; [done|].
  unfold CheckPermissionEntry. cbn [g_permissionEntryList]. by rewrite Hd.
Qed.

End Check.

(** ** The configuration *)

Definition goodInfo (a : SoftBusAppInfo) : Prop :=
  SYSTEM_APP <= type a <= GRANTED_APP /\ 1 <= actions a <= 3 /\ strlen (pkgName a) < PKG_NAME_SIZE_MAX.

Definition goodEntry (e : SoftBusPermissionEntry) : Prop :=
  strlen (sessionName e) < SESSION_NAME_SIZE_MAX /\ Forall goodInfo (appInfo e).

Section ConfigFacts.
Context {json : Type} `{CJSON json}.

Lemma GetJsonObjectStringItem_short (o : option json) key len s : is_u 32 len -> len <= 256 ->
  (forall j, strlen (valuestring j) < 2 ^ 32) ->
  GetJsonObjectStringItem o key len = Some s -> strlen s < len.
Proof.
  intros Hu Hl Hs. unfold GetJsonObjectStringItem. destruct o as [j|]; [|done].
  destruct (cJSON_GetObjectItemCaseSensitive j key) as [item|]; [|done].
  destruct (negb _); [done|]. specialize (Hs item).
  rewrite wrapU_id by (unfold is_u, strlen in *; lia).
  destruct (Z.leb_spec len (strlen (valuestring item))); [done|]. by intros [= <-].
Qed.

Lemma actionsOf_range ts : forall a, 0 <= a <= 3 -> 0 <= actionsOf a ts <= 3.
Proof.
  induction ts as [|t ts IH]; intros a Ha; cbn [actionsOf]; [done|]. apply IH.
  assert (a = 0 \/ a = 1 \/ a = 2 \/ a = 3) as [-> |[-> |[-> | ->]]] by lia;
    repeat case_bool_decide; vm_compute; split; congruence.
Qed.

Lemma GetPeMapValue_range s : GetPeMapValue s <> UNKNOWN_VALUE -> SYSTEM_APP <= GetPeMapValue s <= GRANTED_APP.
Proof.
  unfold GetPeMapValue, g_peMap. cbn [peMapLoop]. repeat case_bool_decide;
    unfold SYSTEM_APP, NATIVE_APP, SELF_APP, NORMAL_APP, GRANTED_APP, UDID, UUID, NETWORKID, LEVEL_PRIVATE, LEVEL_PUBLIC;
    lia || done.
Qed.

Lemma ProcessAppInfo_good avail (o : option json) a : (forall j, strlen (valuestring j) < 2 ^ 32) ->
  ProcessAppInfo avail o = Some a -> goodInfo a.
Proof.
  intros Hs. unfold ProcessAppInfo. destruct o as [j|] eqn:Ho; [|done]. rewrite <- Ho.
  destruct avail; [|done]. cbn [negb].
  destruct (GetJsonObjectStringItem o "TYPE" TEMP_STR_MAX_LEN) as [ty|]; [|done].
  destruct (Z.eqb_spec (GetPeMapValue ty) UNKNOWN_VALUE) as [|Hty]; [done|].
  set (acts := match GetJsonObjectStringItem o "ACTIONS" TEMP_STR_MAX_LEN with
    | Some s => _ | None => _ end).
  assert (0 <= acts <= 3) as Hacts.
  { unfold acts. destruct (GetJsonObjectStringItem o "ACTIONS" TEMP_STR_MAX_LEN); [|lia].
    apply actionsOf_range. lia. }
  destruct (Z.eqb_spec acts 0); [done|]. intros [= <-].
  unfold goodInfo. cbn [type actions pkgName]. split_and!; try lia; try apply (GetPeMapValue_range ty Hty).
  destruct (GetJsonObjectStringItem o "PKG_NAME" PKG_NAME_SIZE_MAX) as [s|] eqn:E; [|done]. cbn.
  apply GetJsonObjectStringItem_short in E; try done; unfold PKG_NAME_SIZE_MAX; range.
Qed.

Lemma appInfoLoop_good avail (arr : json) n : forall i acc, (forall j, strlen (valuestring j) < 2 ^ 32) ->
  Forall goodInfo acc -> Forall goodInfo (appInfoLoop avail arr n i acc).
Proof.
  induction n as [|n IH]; intros i acc Hs Hacc; cbn [appInfoLoop]; [done|]. apply IH; [done|].
  destruct (ProcessAppInfo _ _) as [a|] eqn:E; [|done]. constructor; [|done]. by eapply ProcessAppInfo_good.
Qed.

Lemma ProcessPermissionEntry_good ae ai (o : option json) e : (forall j, strlen (valuestring j) < 2 ^ 32) ->
  ProcessPermissionEntry ae ai o = Some e -> goodEntry e.
Proof.
  intros Hs. unfold ProcessPermissionEntry. destruct o as [j|] eqn:Ho; [|done]. rewrite <- Ho.
  destruct (negb ae); [done|].
  destruct (GetJsonObjectStringItem o "SESSION_NAME" SESSION_NAME_SIZE_MAX) as [nm|] eqn:E; [|done].
  intros [= <-]. split; cbn [sessionName appInfo].
  - apply GetJsonObjectStringItem_short in E; try done; unfold SESSION_NAME_SIZE_MAX; range.
  - destruct (cJSON_GetObjectItem j "APP_INFO"); [|constructor]. by apply appInfoLoop_good.
Qed.

(** Whatever the configuration file holds, loading it only adds entries
    with a session name that fits its buffer and whose application infos have
    a known type, at least one action and a package name that fits; the count
    of the list stays right, and the permissions granted at run time are left
    alone. *)
Theorem LoadPermissionJson_wellformed la mi ae ai file s r s' :
  (forall j : json, strlen (valuestring j) < 2 ^ 32) ->
  match g_permissionEntryList s with
  | Live l => Utils.cnt l = u32 (Z.of_nat (length (Utils.list l))) /\ Forall goodEntry (Utils.list l)
  | _ => True end ->
  LoadPermissionJson la mi ae ai file s = Some (r, s') ->
  g_dynamicPermissionList s' = g_dynamicPermissionList s /\
  match g_permissionEntryList s' with
  | Live l' => Utils.cnt l' = u32 (Z.of_nat (length (Utils.list l'))) /\ Forall goodEntry (Utils.list l') /\
      forall l, g_permissionEntryList s = Live l -> exists new, Utils.list l' = new ++ Utils.list l
  | _ => True end.
Proof.
  intros Hs Hwf. unfold LoadPermissionJson.
  destruct file as [text|]; [|intros [= _ <-]; split; [done|]; destruct (g_permissionEntryList s); try done;
    destruct Hwf; split_and!; try done; intros l0 [= <-]; by exists []].
  assert (forall (arr : json) n i l, Utils.cnt l = u32 (Z.of_nat (length (Utils.list l))) -> Forall goodEntry (Utils.list l) ->
    let l' := entryLoop ae ai arr n i l in
    Utils.cnt l' = u32 (Z.of_nat (length (Utils.list l'))) /\ Forall goodEntry (Utils.list l') /\
    exists new, Utils.list l' = new ++ Utils.list l) as Hloop.
  { intros arr. induction n as [|n IH]; intros i l Hc Hl; cbn [entryLoop]; [split_and!; try done; by exists []|].
    destruct (ProcessPermissionEntry _ _ _) as [e|] eqn:E; [|by apply IH].
    destruct (IH (i + 1) (Utils.MkSoftBusList (u32 (Utils.cnt l + 1)) (e :: Utils.list l))) as (H1 & H2 & new & H3).
    - cbn [Utils.cnt Utils.list length]. rewrite Hc, wrapU_add_l. f_equal. lia.
    - constructor; [by eapply ProcessPermissionEntry_good|done].
    - split_and!; try done. exists (new ++ [e]). rewrite H3. cbn. by rewrite <- app_assoc. }
  destruct (g_permissionEntryList s) as [|l|] eqn:Hp.
  - destruct (Utils.CreateSoftBusList la mi) as [l|] eqn:Hcr; [|intros [= _ <-]; rewrite Hp; done].
    assert (Utils.cnt l = 0 /\ Utils.list l = []) as [Hc0 Hl0].
    { unfold Utils.CreateSoftBusList in Hcr. repeat case_match; by simplify_eq. }
    assert (Utils.cnt l = u32 (Z.of_nat (length (Utils.list l)))) as Hc1 by (by rewrite Hc0, Hl0).
    assert (Forall goodEntry (Utils.list l)) as Hg by (rewrite Hl0; constructor).
    destruct (cJSON_Parse text) as [arr|]; [|intros [= _ <-]; by split_and!].
    destruct (cJSON_GetArraySize arr <=? 0); intros [= _ <-]; [by split_and!|].
    destruct (Hloop arr (Z.to_nat (cJSON_GetArraySize arr)) 0 l Hc1 Hg) as (H1 & H2 & _). by split_and!.
  - destruct Hwf as [Hc Hg].
    destruct (cJSON_Parse text) as [arr|];
      [|intros [= _ <-]; cbn; split_and!; try done; intros l0 [= <-]; by exists []].
    destruct (cJSON_GetArraySize arr <=? 0); intros [= _ <-]; cbn;
      [split_and!; try done; intros l0 [= <-]; by exists []|].
    destruct (Hloop arr (Z.to_nat (cJSON_GetArraySize arr)) 0 l Hc Hg) as (H1 & H2 & H3).
    split_and!; try done. by intros l0 [= <-].
  - destruct (cJSON_Parse text) as [arr|]; [|by intros [= _ <-]].
    destruct (cJSON_GetArraySize arr <=? 0); [by intros [= _ <-]|done].
Qed.

End ConfigFacts.

(** A ["TYPE"] that is one of the other keywords of the file is accepted as
    the application type of the same number, and an unknown ["REGEXP"] value
    turns pattern matching on. *)
Lemma keyword_confusion :
  GetPeMapValue "UDID" = SYSTEM_APP /\ GetPeMapValue "public" = NATIVE_APP /\
  negb (GetPeMapValue "yes" =? 0) = true /\ negb (GetPeMapValue "no" =? 0) = true.
Proof. by vm_compute. Qed.

(** ** Examples *)

Definition exampleTable : Utils.SoftBusList SoftBusPermissionEntry :=
  Utils.MkSoftBusList 1 [MkEntry "com.example.sync" UNKNOWN_VALUE false LEVEL_PUBLIC
    [MkAppInfo SYSTEM_APP EmptyString 3 UNKNOWN_VALUE UNKNOWN_VALUE]].

Definition noRegex (p t : string) : option bool := Some false.

Lemma CheckTransPermission_spec_witness :
  exists r, CheckTransPermission noRegex (fun _ => true) true
      (MkState (Live exampleTable) (Live (Utils.MkSoftBusList 0 []))) 0 1 500 600 None (Some "com.example.sync"%string) ACTION_OPEN = Some r /\
    r = SOFTBUS_OK.
Proof.
  destruct (CheckTransPermission_spec noRegex (fun _ => true) true (MkState (Live exampleTable) (Live (Utils.MkSoftBusList 0 []))) exampleTable
    (Utils.MkSoftBusList 0 []) 0 1 500 600 None "com.example.sync" ACTION_OPEN eq_refl eq_refl) as (r & Hr & Hiff & _).
  exists r. split; [exact Hr|]. apply Hiff. split; [done|]. split; [vm_compute; congruence|]. split; [done|].
  eexists [], _, []. split; [reflexivity|]. split; [constructor|]. split; [reflexivity|].
  constructor. unfold grants, roleAllows. cbn. split_and!; try done; left; try done. split; [by left|].
  vm_compute. by left.
Defined.

Lemma dynamic_permissions_refine_witness :
  exists r s', AddDynamicPermission noRegex true true (MkState Null (Live (Utils.MkSoftBusList 0 [])))
      7 8 (Some "DBinder1_2"%string) = Some (r, s') /\ r = SOFTBUS_OK /\
    dynOK s' (∅ ∪ {["DBinder1_2"%string]}).
Proof.
  destruct (dynamic_permissions_refine noRegex (MkState Null (Live (Utils.MkSoftBusList 0 []))) ∅
    "DBinder1_2" 7 8) as ((r & s' & Hr & H) & _).
  - eexists. split; [reflexivity|]. split_and!; try done; constructor.
  - done.
  - exists r, s'. by split.
Defined.

Lemma deinit_leaves_dangling_witness :
  exists s', DeinitPermissionJson (MkState (Live exampleTable) Null) = Some s' /\
    CheckPermissionEntry noRegex IsValidPkgName s' (Some "com.example.sync"%string)
      (Some (MkItem SYSTEM_APP 500 600 None ACTION_OPEN)) = None /\ DeinitPermissionJson s' = None.
Proof.
  apply (deinit_leaves_dangling noRegex (MkState (Live exampleTable) Null) exampleTable IsValidPkgName); reflexivity.
Defined.

(** A stand-in for the parsed file: an array of one object. *)
Inductive tinyJson := TArr | TObj | TInfos | TInfo | TStr (s : string).

#[local] Instance tinyCJSON : CJSON tinyJson := {
  cJSON_Parse _ := Some TArr;
  cJSON_GetArraySize j := match j with TArr | TInfos => 1 | _ => 0 end;
  cJSON_GetArrayItem j i := match j with TArr => Some TObj | TInfos => Some TInfo | _ => None end;
  cJSON_GetObjectItem j k := match j with TObj => Some TInfos | _ => None end;
  cJSON_GetObjectItemCaseSensitive j k :=
    match j with
    | TObj => if bool_decide (k = "SESSION_NAME"%string) then Some (TStr "a") else None
    | TInfo => if bool_decide (k = "TYPE"%string) then Some (TStr "system_app")
               else if bool_decide (k = "ACTIONS"%string) then Some (TStr "create,open") else None
    | _ => None
    end;
  cJSON_IsString j := match j with TStr _ => true | _ => false end;
  valuestring j := match j with TStr "a" => "a"%string | TStr "system_app" => "system_app"%string
                   | TStr "create,open" => "create,open"%string | _ => EmptyString end
}.

Lemma LoadPermissionJson_wellformed_witness :
  exists s', LoadPermissionJson true true (fun _ => true) (fun _ _ => true) (Some EmptyString)
      (MkState Null Null) = Some (SOFTBUS_OK, s') /\
    match g_permissionEntryList s' with
    | Live l' => Utils.cnt l' = u32 (Z.of_nat (length (Utils.list l'))) /\ length (Utils.list l') = 1%nat
    | _ => False end.
Proof.
  eexists. split; [vm_compute; reflexivity|].
  destruct (LoadPermissionJson_wellformed true true (fun _ => true) (fun _ _ => true) (Some EmptyString)
    (MkState Null Null) SOFTBUS_OK (MkState (Live (Utils.MkSoftBusList 1
      [MkEntry "a" UNKNOWN_VALUE false UNKNOWN_VALUE [MkAppInfo SYSTEM_APP EmptyString 3 UNKNOWN_VALUE UNKNOWN_VALUE]])) Null))
    as [_ Hg].
  - intros j. unfold strlen. cbn. repeat case_match; cbn; lia.
  - done.
  - vm_compute. reflexivity.
  - destruct Hg as (Hc & _). split; [exact Hc|reflexivity].
Defined.

End Permission.
