(* ===== verification/FileList.v ===== *)
(** * The list of files of a transfer

    Models [nstackx_core/dfile/core/nstackx_file_list.c] with the inline
    accessors of [include/nstackx_file_list.h], and the path helpers
    [GetFileNameLen], [GetFileName] and [GetTargetFileSize] of
    [nstackx_util/core/nstackx_util.c].

    Both ends of a transfer keep a [FileList].  The sender fills it from the
    files it was asked to send ([FileListSetSendFileList],
    [FileListAddExtraInfo]); the receiver learns it from header frames
    ([FileListSetNum], [FileListAddFile], [FileListAddUserData]).  The flags of
    an entry record which steps of the transfer it has passed.

    A [char *] is [None] for NULL, or the bytes of the object it points to,
    terminator included.  An operation answers [None] when it would touch
    memory outside the object it accesses (an index past the array, a string
    without terminator, NULL).  [calloc] may fail: an operation that allocates
    takes the answer of [calloc] as a [bool].  [stat] is a parameter. *)

From S2P Require Import Prelude Bytes.

Module FileList.
Import Bytes.

Definition NSTACKX_EOK : Z := 0.
Definition NSTACKX_EFAILED : Z := -1.
Definition NSTACKX_EINVAL : Z := -2.
Definition NSTACKX_ENOMEM : Z := -5.
Definition NSTACKX_EAGAIN : Z := -7.

Definition NSTACKX_DFILE_MAX_FILE_NUM : Z := 500.
Definition NSTACKX_MAX_REMOTE_PATH_LEN : Z := 1024.
Definition NSTACKX_MAX_FILE_SIZE : Z := 0x7FFFFFFFFF.

Definition NSTACKX_FLAGS_FILE_NAME_ACK : Z := 0x01.
Definition NSTACKX_FLAGS_FILE_NAME_RECEIVED : Z := 0x02.
Definition NSTACKX_FLAGS_FILE_RECEIVE_SUCCESS : Z := 0x04.
Definition NSTACKX_FLAGS_FILE_RECEIVE_FAIL : Z := 0x08.
Definition NSTACKX_FLAGS_FILE_SEND_SUCCESS : Z := 0x10.
Definition NSTACKX_FLAGS_LAST_BLOCK_RECEIVED : Z := 0x20.
Definition NSTACKX_FLAGS_USER_DATA_ACK : Z := 0x4.

Definition NSTACKX_DFILE_HEADER_FRAME_USER_DATA_FLAG : Z := 0x1.
Definition NSTACKX_DFILE_HEADER_FRAME_PATH_TYPE_FLAG : Z := 0x2.
Definition NSTACKX_DFILE_HEADER_FRAME_NO_SYNC_FLAG : Z := 0x4.

Definition NOTICE_FILE_NAME_TYPE : Z := 0.
Definition NOTICE_FULL_FILE_NAME_TYPE : Z := 1.

Definition PATH_SEPARATOR : Z := 47.

(** [flags & f] as a condition *)
Definition has (flags f : Z) : bool := negb (Z.land flags f =? 0).

(** ** Data *)

Record FileListEntry := mkEntry {
  fileId : Z;
  fileName : bytes;                (* char[NSTACKX_MAX_REMOTE_PATH_LEN] *)
  fullFileName : option bytes;
  remotePath : option bytes;
  fileSize : Z;
  flags : Z;
  startOffset : Z
}.

(** The fields no operation of this file reads or writes. *)
Record FileListRest := mkRest {
  smallFlag : Z; vtransFlag : Z; isFirstVtransOfFile : Z; vtransRealTransId : Z;
  vtransTotalNum : Z; vtransRealFileId : Z; vtransTotalFileNum : Z; vtransTotalFileSize : Z
}.

Record FileList := mkFileList {
  fl_list : option (list FileListEntry);
  num : Z;
  userData : option bytes;
  userDataFlag : Z;
  noticeFileNameType : Z;
  pathType : Z;
  packedUserData : option bytes;
  packedUserDataLen : Z;
  tarFlag : bool;
  noSyncFlag : bool;
  tarFile : option bytes;
  rest : FileListRest
}.

(** What [calloc] leaves in an entry. *)
Definition zeroEntry : FileListEntry :=
  mkEntry 0 (replicate (Z.to_nat NSTACKX_MAX_REMOTE_PATH_LEN) 0) None None 0 0 0.

Definition set_flags (e : FileListEntry) (f : Z) : FileListEntry :=
  mkEntry (fileId e) (fileName e) (fullFileName e) (remotePath e) (fileSize e) f (startOffset e).

Definition or_flags (f : Z) (e : FileListEntry) : FileListEntry :=
  set_flags e (Z.lor (flags e) f).

Definition set_name (e : FileListEntry) (n : bytes) : FileListEntry :=
  mkEntry (fileId e) n (fullFileName e) (remotePath e) (fileSize e) (flags e) (startOffset e).

Definition set_list (l : list FileListEntry) (n : Z) (fl : FileList) : FileList :=
  mkFileList (Some l) n (userData fl) (userDataFlag fl) (noticeFileNameType fl) (pathType fl)
    (packedUserData fl) (packedUserDataLen fl) (tarFlag fl) (noSyncFlag fl) (tarFile fl) (rest fl).

Definition set_userDataFlag (f : Z) (fl : FileList) : FileList :=
  mkFileList (fl_list fl) (num fl) (userData fl) f (noticeFileNameType fl) (pathType fl)
    (packedUserData fl) (packedUserDataLen fl) (tarFlag fl) (noSyncFlag fl) (tarFile fl) (rest fl).

Definition set_userData (u : option bytes) (p : Z) (fl : FileList) : FileList :=
  mkFileList (fl_list fl) (num fl) u (userDataFlag fl) (noticeFileNameType fl) p
    (packedUserData fl) (packedUserDataLen fl) (tarFlag fl) (noSyncFlag fl) (tarFile fl) (rest fl).

Definition set_notice (t : Z) (fl : FileList) : FileList :=
  mkFileList (fl_list fl) (num fl) (userData fl) (userDataFlag fl) t (pathType fl)
    (packedUserData fl) (packedUserDataLen fl) (tarFlag fl) (noSyncFlag fl) (tarFile fl) (rest fl).

Definition set_packed (p : option bytes) (n : Z) (fl : FileList) : FileList :=
  mkFileList (fl_list fl) (num fl) (userData fl) (userDataFlag fl) (noticeFileNameType fl)
    (pathType fl) p n (tarFlag fl) (noSyncFlag fl) (tarFile fl) (rest fl).

Definition set_noSync (b : bool) (fl : FileList) : FileList :=
  mkFileList (fl_list fl) (num fl) (userData fl) (userDataFlag fl) (noticeFileNameType fl)
    (pathType fl) (packedUserData fl) (packedUserDataLen fl) (tarFlag fl) b (tarFile fl) (rest fl).

(** [fileList->list[fileId - 1]] *)
Definition entryAt (fl : FileList) (id : Z) : option FileListEntry :=
  l ← fl_list fl;
  if id <=? 0 then None else l !! Z.to_nat (id - 1).

Definition updEntry (fl : FileList) (id : Z) (f : FileListEntry -> FileListEntry) : option FileList :=
  l ← fl_list fl;
  e ← entryAt fl id;
  Some (set_list (<[Z.to_nat (id - 1) := f e]> l) (num fl) fl).

(** ** Accessors *)

Definition FileListGetNum (fl : FileList) : Z := u16 (num fl).

Definition FileListGetRemotePath (fl : FileList) (id : Z) : option (option bytes) :=
  remotePath <$> entryAt fl id.

Definition FileListGetFileName (fl : FileList) (id : Z) : option bytes :=
  fileName <$> entryAt fl id.

Definition FileListGetFileSize (fl : FileList) (id : Z) : option Z :=
  fileSize <$> entryAt fl id.

Definition FileListGetFileNameReceived (fl : FileList) (id : Z) : option bool :=
  e ← entryAt fl id; Some (has (flags e) NSTACKX_FLAGS_FILE_NAME_RECEIVED).

Definition FileListSetLastBlockReceived (fl : FileList) (id : Z) : option FileList :=
  updEntry fl id (or_flags NSTACKX_FLAGS_LAST_BLOCK_RECEIVED).

Definition FileListGetLastBlockReceived (fl : FileList) (id : Z) : option bool :=
  e ← entryAt fl id; Some (has (flags e) NSTACKX_FLAGS_LAST_BLOCK_RECEIVED).

Definition FileListSetFileReceiveSuccess (fl : FileList) (id : Z) : option FileList :=
  updEntry fl id (or_flags NSTACKX_FLAGS_FILE_RECEIVE_SUCCESS).

Definition FileListSetFileReceiveFail (fl : FileList) (id : Z) : option FileList :=
  updEntry fl id (or_flags NSTACKX_FLAGS_FILE_RECEIVE_FAIL).

Definition FileListSetFileSendSuccess (fl : FileList) (id : Z) : option FileList :=
  updEntry fl id (or_flags NSTACKX_FLAGS_FILE_SEND_SUCCESS).

Definition FileListSetFileNameAcked (fl : FileList) (id : Z) : option FileList :=
  if id =? 0 then
    Some (set_userDataFlag (Z.lor (userDataFlag fl) NSTACKX_FLAGS_USER_DATA_ACK) fl)
  else updEntry fl id (or_flags NSTACKX_FLAGS_FILE_NAME_ACK).

Definition FileListGetFileNameAcked (fl : FileList) (id : Z) : option bool :=
  if id =? 0 then Some (has (userDataFlag fl) NSTACKX_FLAGS_USER_DATA_ACK)
  else e ← entryAt fl id; Some (has (flags e) NSTACKX_FLAGS_FILE_NAME_ACK).

(** The loop [for (i = 0; i < fileList->num; i++)] that answers FALSE at the
    first entry without the flag. *)
Fixpoint allWithFlag (n : nat) (i : Z) (fl : FileList) (f : Z) : option bool :=
  match n with
  | O => Some true
  | S n' =>
    e ← entryAt fl (i + 1);
    if has (flags e) f then allWithFlag n' (i + 1) fl f else Some false
  end.

Definition allFlag (fl : FileList) (f : Z) : option bool :=
  if tarFlag fl then e ← entryAt fl 1; Some (has (flags e) f)
  else allWithFlag (Z.to_nat (num fl)) 0 fl f.

Definition FileListAllFileNameAcked (fl : FileList) : option bool :=
  if has (userDataFlag fl) NSTACKX_DFILE_HEADER_FRAME_USER_DATA_FLAG &&
     negb (has (userDataFlag fl) NSTACKX_FLAGS_USER_DATA_ACK)
  then Some false
  else allFlag fl NSTACKX_FLAGS_FILE_NAME_ACK.

Definition FileListAllFileNameReceived (fl : FileList) : option bool :=
  if num fl =? 0 then Some false
  else if has (userDataFlag fl) NSTACKX_DFILE_HEADER_FRAME_USER_DATA_FLAG &&
          negb (has (userDataFlag fl) NSTACKX_FLAGS_FILE_NAME_RECEIVED)
  then Some false
  else allFlag fl NSTACKX_FLAGS_FILE_NAME_RECEIVED.

Definition FileListAllFileReceived (fl : FileList) : option bool :=
  allFlag fl NSTACKX_FLAGS_FILE_RECEIVE_SUCCESS.

(** ** The receiver's list *)

(** [fileList->num] entries of zeros, when [calloc] succeeds. *)
Definition FileListSetNum (calloc : bool) (fl : FileList) (fileNum : Z) : Z * FileList :=
  if (fileNum =? 0) || (NSTACKX_DFILE_MAX_FILE_NUM <? fileNum) then (NSTACKX_EINVAL, fl)
  else match fl_list fl with
  | Some _ => (NSTACKX_EOK, fl)
  | None =>
    if calloc then (NSTACKX_EOK, set_list (replicate (Z.to_nat fileNum) zeroEntry) fileNum fl)
    else (NSTACKX_ENOMEM, fl)
  end.

(** The entry written by [FileListAddFile], once its name has been copied. *)
Definition addedEntry (e : FileListEntry) (id : Z) (name : bytes) (size : Z) : FileListEntry :=
  let f := Z.lor (flags e) NSTACKX_FLAGS_FILE_NAME_RECEIVED in
  mkEntry id name (fullFileName e) (remotePath e) size
    (if size =? 0 then Z.lor f NSTACKX_FLAGS_LAST_BLOCK_RECEIVED else f) (startOffset e).

(** [src] is the memory [fileName] points to. *)
Definition FileListAddFile (fl : FileList) (id : Z) (src : bytes) (fileNameLength fileSize : Z)
  : option (Z * FileList) :=
  if (match fl_list fl with None => true | Some _ => false end) || (num fl =? 0)
  then Some (NSTACKX_EINVAL, fl)
  else if (id =? 0) || (num fl <? id) then Some (NSTACKX_EINVAL, fl)
  else if NSTACKX_MAX_REMOTE_PATH_LEN <? fileNameLength + 1 then Some (NSTACKX_EINVAL, fl)
  else if NSTACKX_MAX_FILE_SIZE <? fileSize then Some (NSTACKX_EINVAL, fl)
  else
    e ← entryAt fl id;
    if has (flags e) NSTACKX_FLAGS_FILE_NAME_RECEIVED then Some (NSTACKX_EOK, fl)
    else
      '(ok, name) ← memcpy_s (fileName e) 0 (len (fileName e) - 1) src fileNameLength;
      if (ok : bool) then
        fl' ← updEntry fl id (fun e => addedEntry e id name fileSize);
        Some (NSTACKX_EOK, fl')
      else
        fl' ← updEntry fl id (fun e => set_name e name);
        Some (NSTACKX_EFAILED, fl').

(** A [uint16_t] field that is not converted to network order; [big] says
    whether the host is big-endian. *)
Definition native_bytes (big : bool) (x : Z) : bytes :=
  if big then be_bytes 2 x else rev (be_bytes 2 x).

Definition native_val (big : bool) (bs : bytes) : Z :=
  if big then be_val bs else be_val (rev bs).

(** [calloc(n + 1, 1)] with [n] bytes copied into it. *)
Definition callocCopy (src : bytes) (n : Z) : option (bool * bytes) :=
  memcpy_s (replicate (Z.to_nat (n + 1)) 0) 0 (n + 1) src n.

(** The return value, [*pathType] and [*userData] after the call. *)
Definition ParsePackedDFileUserData (big calloc : bool) (buf : bytes) (userDataLength flag : Z)
  (pathType : Z) (userData : option bytes) : option (Z * Z * option bytes) :=
  if userDataLength <? 2 then Some (NSTACKX_EFAILED, pathType, userData)
  else
    p ← get buf 0 2;
    let pathType := native_val big p in
    if pathType =? 0 then Some (NSTACKX_EFAILED, pathType, userData)
    else if negb (has flag NSTACKX_DFILE_HEADER_FRAME_USER_DATA_FLAG)
    then Some (NSTACKX_EOK, pathType, userData)
    else
      let userDataStrLen := u16 (userDataLength - 2) in
      if negb calloc then Some (NSTACKX_EFAILED, pathType, userData)
      else if 0 <? userDataStrLen then
        '(ok, valid) ← callocCopy (drop 2 buf) userDataStrLen;
        if (ok : bool) then Some (NSTACKX_EOK, pathType, Some valid)
        else Some (NSTACKX_EFAILED, pathType, userData)
      else Some (NSTACKX_EOK, pathType, Some [0]).

Definition FileListAddUserData (big calloc : bool) (fl : FileList) (data : bytes)
  (userDataLength flag : Z) : option (Z * FileList) :=
  let received fl :=
    set_userDataFlag (Z.lor (userDataFlag fl) NSTACKX_FLAGS_FILE_NAME_RECEIVED) fl in
  if has (userDataFlag fl) NSTACKX_FLAGS_FILE_NAME_RECEIVED then Some (NSTACKX_EOK, fl)
  else if has flag NSTACKX_DFILE_HEADER_FRAME_PATH_TYPE_FLAG then
    '(_, p, u) ← ParsePackedDFileUserData big calloc data userDataLength flag
                   (pathType fl) (userData fl);
    Some (NSTACKX_EOK, received (set_userData u p fl))
  else if has flag NSTACKX_DFILE_HEADER_FRAME_USER_DATA_FLAG then
    if negb calloc then Some (NSTACKX_ENOMEM, set_userData None (pathType fl) fl)
    else if negb (userDataLength =? 0) then
      '(ok, u) ← callocCopy data userDataLength;
      if (ok : bool)
      then Some (NSTACKX_EOK, received (set_userData (Some u) (pathType fl) fl))
      else Some (NSTACKX_EFAILED, set_userData None (pathType fl) fl)
    else Some (NSTACKX_EOK, received (set_userData (Some [0]) (pathType fl) fl))
  else Some (NSTACKX_EFAILED, fl).

Definition FileListRenameFile (fl : option FileList) (id : Z) (newFileName : option bytes)
  : option (Z * option FileList) :=
  match fl, newFileName with
  | Some l, Some n =>
    if (id =? 0) || (num l <? id) then Some (NSTACKX_EINVAL, fl)
    else
      s ← cstr n;
      if (len s =? 0) || (NSTACKX_MAX_REMOTE_PATH_LEN <=? len s) then Some (NSTACKX_EINVAL, fl)
      else
        e ← entryAt l id;
        '(ok, name) ← strcpy_s (fileName e) n;
        l' ← updEntry l id (fun e => set_name e name);
        Some (if (ok : bool) then NSTACKX_EOK else NSTACKX_EFAILED, Some l')
  | _, _ => Some (NSTACKX_EINVAL, fl)
  end.

(** ** The sender's list *)

Section Sender.
(** [stat(path)]: the size of the file, or a failure.  [big]: byte order. *)
Context (stat : bytes -> option Z) (big : bool).

(** The loop of [GetFileNameLen], from the last character downwards. *)
Fixpoint baseIndex (dir : bytes) (i : nat) : nat :=
  if decide (dir !! i = Some PATH_SEPARATOR) then S i
  else match i with O => O | S i' => baseIndex dir i' end.

Definition GetFileNameLen (dir : option bytes) : option Z :=
  match dir with
  | None => Some 0
  | Some d =>
    s ← cstr d;
    if (len s <? 1) || bool_decide (last s = Some PATH_SEPARATOR) then Some 0
    else
      let dirLen := s32 (len s) in
      let i := if 0 <=? dirLen - 1 then Z.of_nat (baseIndex s (Z.to_nat (dirLen - 1)))
               else dirLen - 1 in
      Some (u32 (dirLen + 1 - i))
  end.

(** The return value and the array [name] after the call. *)
Definition GetFileName (dir : option bytes) (name : bytes) : option (Z * bytes) :=
  match dir with
  | None => Some (NSTACKX_EINVAL, name)
  | Some d =>
    fileNameLen ← GetFileNameLen dir;
    if (fileNameLen =? 0) || (len name <? fileNameLen) then Some (NSTACKX_EINVAL, name)
    else
      s ← cstr d;
      let startIdx := u32 (len s + 1 - fileNameLen) in
      '(ok, name') ← strcpy_s name (drop (Z.to_nat startIdx) d);
      Some (if (ok : bool) then NSTACKX_EOK else NSTACKX_EFAILED, name')
  end.

(** The return value and [*size]. *)
Definition GetTargetFileSize (dir : option bytes) (size : Z) : option (Z * Z) :=
  match dir with
  | None => Some (NSTACKX_EINVAL, size)
  | Some d =>
    s ← cstr d;
    match stat s with
    | None => Some (NSTACKX_EFAILED, size)
    | Some st_size =>
      if st_size <? 0 then Some (NSTACKX_EFAILED, size) else Some (NSTACKX_EOK, u64 st_size)
    end
  end.

(** The fields of [FileListInfo] that are read here. *)
Record FileListInfo := mkInfo {
  fi_files : option (list (option bytes));
  fi_remotePath : option (list (option bytes));
  fi_startOffset : list Z;
  fi_fileSize : list Z;
  fi_fileNum : Z;
  fi_vtransFlag : bool
}.

(** One round of the loop: the value of [ret] and whether to go to [L_FIN],
    or the entry. *)
Definition sendEntry (info : FileListInfo) (i : nat) : option (Z + FileListEntry) :=
  files ← fi_files info;
  full ← files !! i;
  remote ← match fi_remotePath info with None => Some None | Some r => r !! i end;
  '(ret, name) ← GetFileName full (fileName zeroEntry);
  if negb (ret =? NSTACKX_EOK) then Some (inl ret)
  else
    '(ret, size) ← GetTargetFileSize full 0;
    if negb (ret =? NSTACKX_EOK) || (NSTACKX_MAX_FILE_SIZE <? size) then Some (inl ret)
    else if fi_vtransFlag info then
      off ← fi_startOffset info !! i;
      size' ← fi_fileSize info !! i;
      Some (inr (mkEntry (Z.of_nat i + 1) name full remote size' 0 off))
    else Some (inr (mkEntry (Z.of_nat i + 1) name full remote size 0 0)).

Fixpoint sendEntries (info : FileListInfo) (i n : nat) : option (Z + list FileListEntry) :=
  match n with
  | O => Some (inr [])
  | S n' =>
    r ← sendEntry info i;
    match r with
    | inl ret => Some (inl ret)
    | inr e =>
      r' ← sendEntries info (S i) n';
      Some (match r' with inl ret => inl ret | inr es => inr (e :: es) end)
    end
  end.

Definition FileListSetSendFileList (calloc : bool) (fl : FileList) (info : FileListInfo)
  : option (Z * FileList) :=
  if (match fi_files info with None => true | Some _ => false end) ||
     (fi_fileNum info =? 0) || (NSTACKX_DFILE_MAX_FILE_NUM <? fi_fileNum info)
  then Some (NSTACKX_EINVAL, fl)
  else match fl_list fl with
  | Some _ => Some (NSTACKX_EFAILED, fl)
  | None =>
    if negb calloc then Some (NSTACKX_ENOMEM, fl)
    else
      r ← sendEntries info 0 (Z.to_nat (fi_fileNum info));
      Some (match r with
            | inl ret => (ret, fl)
            | inr es => (NSTACKX_EOK, set_list es (fi_fileNum info) fl)
            end)
  end.

(** The packed bytes and their length; NULL when [calloc] fails. *)
Definition PreparePackedDFileUserData (calloc : bool) (pathType : Z) (userData : option bytes)
  : option (option (bytes * Z)) :=
  s ← match userData with None => Some [] | Some u => cstr u end;
  let userDataLen := u32 (len s) in
  let packeUserDataLen := u16 (2 + userDataLen) in
  if negb calloc then Some None
  else
    b ← put (replicate (Z.to_nat packeUserDataLen) 0) 0 (native_bytes big pathType);
    if 0 <? userDataLen then
      '(ok, b') ← memcpy_s b 2 userDataLen s userDataLen;
      Some (if (ok : bool) then Some (b', packeUserDataLen) else None)
    else Some (Some (b, packeUserDataLen)).

Definition FileListAddExtraInfo (calloc : bool) (fl : FileList) (pathType noticeType : Z)
  (data : option bytes) : option (Z * FileList) :=
  if negb (noticeType =? NOTICE_FILE_NAME_TYPE) && negb (noticeType =? NOTICE_FULL_FILE_NAME_TYPE)
  then Some (NSTACKX_EFAILED, fl)
  else
    let fl := set_notice noticeType fl in
    if (pathType =? 0) && (match data with None => true | Some _ => false end)
    then Some (NSTACKX_EOK, fl)
    else
      let fl := set_userDataFlag NSTACKX_DFILE_HEADER_FRAME_USER_DATA_FLAG fl in
      let fl := set_userData data pathType fl in
      if 0 <? pathType then
        r ← PreparePackedDFileUserData calloc pathType data;
        Some (match r with
              | None => (NSTACKX_EFAILED, set_packed None (packedUserDataLen fl) fl)
              | Some (p, n) => (NSTACKX_EOK, set_packed (Some p) n fl)
              end)
      else Some (NSTACKX_EOK, fl).

End Sender.

(** ** Reporting *)

(** A name written to [files]: a pointer to a string, or the array itself. *)
Definition nameOf (fl : FileList) (e : FileListEntry) (type : Z) : option (option bytes) :=
  if type =? NOTICE_FULL_FILE_NAME_TYPE then Some (fullFileName e)
  else if type =? NOTICE_FILE_NAME_TYPE then Some (Some (fileName e))
  else None.

(** The loops of [FileListGetNames] and [FileListGetFilesByFlag]: [n] rounds
    are left, [i] is the index.  The answer is what was written to [files];
    its length is the final [*fileNum]. *)
Fixpoint namesLoop (fl : FileList) (type : Z) (n : nat) (i : Z) : option (list (option bytes)) :=
  match n with
  | O => Some []
  | S n' =>
    if tarFlag fl then Some [tarFile fl]
    else
      e ← entryAt fl (i + 1);
      match nameOf fl e type with
      | None => Some []
      | Some f => r ← namesLoop fl type n' (i + 1); Some (f :: r)
      end
  end.

Definition FileListGetNames (fl : FileList) (fileNum type : Z) : option (list (option bytes)) :=
  namesLoop fl type (Z.to_nat (num fl `min` fileNum)) 0.

Fixpoint byFlagLoop (fl : FileList) (f type : Z) (n : nat) (i : Z) : option (list (option bytes)) :=
  match n with
  | O => Some []
  | S n' =>
    e ← entryAt fl (i + 1);
    if has (flags e) f then
      if tarFlag fl then Some [tarFile fl]
      else match nameOf fl e type with
      | None => Some []
      | Some x => r ← byFlagLoop fl f type n' (i + 1); Some (x :: r)
      end
    else byFlagLoop fl f type n' (i + 1)
  end.

Definition FileListGetFilesByFlag (fl : FileList) (f fileNum type : Z) : option (list (option bytes)) :=
  byFlagLoop fl f type (Z.to_nat (num fl `min` fileNum)) 0.

Definition FileListGetReceivedFiles (fl : FileList) (fileNum : Z) : option (list (option bytes)) :=
  FileListGetFilesByFlag fl NSTACKX_FLAGS_FILE_RECEIVE_SUCCESS fileNum NOTICE_FILE_NAME_TYPE.

Definition FileListGetSentFiles (fl : FileList) (fileNum : Z) : option (list (option bytes)) :=
  FileListGetFilesByFlag fl NSTACKX_FLAGS_FILE_SEND_SUCCESS fileNum (noticeFileNameType fl).

Fixpoint receivedIds (fl : FileList) (n : nat) (i : Z) : option (list Z) :=
  match n with
  | O => Some []
  | S n' =>
    e ← entryAt fl (i + 1);
    r ← receivedIds fl n' (i + 1);
    Some (if has (flags e) NSTACKX_FLAGS_FILE_RECEIVE_SUCCESS then fileId e :: r else r)
  end.

Definition FileListGetReceivedFileIdList (fl : FileList) (fileNum : Z) : option (list Z) :=
  receivedIds fl (Z.to_nat (num fl `min` fileNum)) 0.

(** [malloc] and [memset_s] *)
Definition FileListCreate (malloc : bool) : option FileList :=
  if malloc then
    Some (mkFileList None 0 None 0 0 0 None 0 false false None (mkRest 0 0 0 0 0 0 0 0))
  else None.

Fixpoint totalLoop (fl : FileList) (n : nat) (i ret : Z) : option Z :=
  match n with
  | O => Some ret
  | S n' => e ← entryAt fl (i + 1); totalLoop fl n' (i + 1) (u64 (ret + fileSize e))
  end.

Definition GetFilesTotalBytes (fl : option FileList) : option Z :=
  match fl with
  | None => Some 0
  | Some l => totalLoop l (Z.to_nat (num l)) 0 0
  end.

(** ** Lemmas *)

Lemma has_lor_l x y f : has x f = true -> has (Z.lor x y) f = true.
Proof.
  unfold has. rewrite !negb_true_iff, !Z.eqb_neq. intros H E. apply H.
  apply Z.bits_inj'. intros i Hi. rewrite Z.land_spec, Z.bits_0.
  apply (f_equal (fun z => Z.testbit z i)) in E.
  rewrite Z.land_spec, Z.lor_spec, Z.bits_0 in E.
  destruct (Z.testbit x i), (Z.testbit f i); simpl in *; try done.
Qed.

Lemma has_lor_r x f : f <> 0 -> has (Z.lor x f) f = true.
Proof.
  intros Hf. unfold has. rewrite negb_true_iff, Z.eqb_neq. intros E. apply Hf.
  apply Z.bits_inj'. intros i Hi. rewrite Z.bits_0.
  apply (f_equal (fun z => Z.testbit z i)) in E.
  rewrite Z.land_spec, Z.lor_spec, Z.bits_0 in E.
  destruct (Z.testbit x i), (Z.testbit f i); simpl in *; try done.
Qed.

(** Setting one flag does not set another. *)
Lemma has_lor_other x y f : Z.land y f = 0 -> has (Z.lor x y) f = has x f.
Proof.
  intros H. unfold has. do 2 f_equal. apply Z.bits_inj'. intros i Hi.
  apply (f_equal (fun z => Z.testbit z i)) in H.
  rewrite !Z.land_spec, Z.bits_0 in *. rewrite Z.lor_spec.
  destruct (Z.testbit x i), (Z.testbit y i), (Z.testbit f i); simpl in *; done.
Qed.

Lemma entryAt_list fl l id : fl_list fl = Some l -> 1 <= id ->
  entryAt fl id = l !! Z.to_nat (id - 1).
Proof. intros E ?. unfold entryAt. rewrite E. cbn [mbind option_bind]. split_cmp. done. Qed.

Lemma updEntry_list fl l id f e : fl_list fl = Some l -> 1 <= id ->
  l !! Z.to_nat (id - 1) = Some e ->
  updEntry fl id f = Some (set_list (<[Z.to_nat (id - 1) := f e]> l) (num fl) fl).
Proof.
  intros E ? He. unfold updEntry. rewrite (entryAt_list _ l) by done.
  rewrite E, He. done.
Qed.

(** ** Invariant

    The array has [num] entries, at most [NSTACKX_DFILE_MAX_FILE_NUM], and
    every name in it is terminated. *)

Definition wf_entry (e : FileListEntry) : Prop :=
  len (fileName e) = NSTACKX_MAX_REMOTE_PATH_LEN /\ last (fileName e) = Some 0.

Definition wf (fl : FileList) : Prop :=
  match fl_list fl with
  | None => num fl = 0
  | Some l => Z.of_nat (length l) = num fl /\ 1 <= num fl <= NSTACKX_DFILE_MAX_FILE_NUM /\
              Forall wf_entry l
  end.

#[global] Instance wf_dec fl : Decision (wf fl).
Proof. unfold wf, wf_entry. destruct (fl_list fl); apply _. Defined.

Lemma wf_entry_at fl id : wf fl -> 1 <= id <= num fl ->
  exists l e, fl_list fl = Some l /\ l !! Z.to_nat (id - 1) = Some e /\ wf_entry e.
Proof.
  unfold wf. destruct (fl_list fl) as [l|]; [|lia]. intros (Hl & Hn & Hw) Hid.
  destruct (lookup_lt_is_Some_2 l (Z.to_nat (id - 1))) as [e He]; [lia|].
  exists l, e. repeat split; try done; by eapply Forall_lookup_1 in Hw as [? ?].
Qed.

Lemma wf_upd fl l id e' : wf fl -> fl_list fl = Some l -> wf_entry e' ->
  wf (set_list (<[Z.to_nat (id - 1) := e']> l) (num fl) fl).
Proof.
  unfold wf. intros H E He. rewrite E in H. destruct H as (H1 & H2 & H3). cbn.
  rewrite length_insert. split; [done|]. split; [done|]. by apply Forall_insert.
Qed.

Lemma wf_FileListGetNum fl : wf fl -> FileListGetNum fl = num fl.
Proof.
  intros H. apply wrapU_id. unfold wf, NSTACKX_DFILE_MAX_FILE_NUM in H.
  destruct (fl_list fl); [|rewrite H]; range.
Qed.

Lemma wf_or_flags e f : wf_entry e -> wf_entry (or_flags f e).
Proof. done. Qed.

Lemma zeroEntry_wf : wf_entry zeroEntry.
Proof. by vm_compute. Qed.

Lemma wf_terminated e : wf_entry e -> exists s, cstr (fileName e) = Some s.
Proof.
  intros [_ H]. apply cstr_total. apply last_Some in H as [l ->].
  exists (length l). by apply list_lookup_middle.
Qed.

(** ** Names *)

(** The part of a path after its last separator. *)
Fixpoint basename (s : bytes) : bytes :=
  match s with
  | [] => []
  | _ :: s' => if decide (PATH_SEPARATOR ∈ s) then basename s' else s
  end.

Lemma basename_base b : (PATH_SEPARATOR ∉ b) -> basename b = b.
Proof. destruct b; intros; cbn [basename]; [done|]. by rewrite decide_False. Qed.

Lemma basename_app d b : (PATH_SEPARATOR ∉ b) -> last d = None \/ last d = Some PATH_SEPARATOR ->
  basename (d ++ b) = b.
Proof.
  induction d as [|x d IH]; intros Hb Hd; [by apply basename_base|].
  cbn [app basename]. rewrite decide_True.
  - apply IH; [done|]. destruct d; [by left | by rewrite last_cons_cons in Hd].
  - destruct Hd as [Hd|Hd]; [by apply last_None in Hd|].
    apply last_Some in Hd as [d' Hd']. rewrite app_comm_cons, Hd'. set_solver.
Qed.

Lemma basename_nonempty s x : last s = Some x -> x <> PATH_SEPARATOR -> basename s <> [].
Proof.
  induction s as [|y s IH]; intros Hl Hx; [done|]. cbn [basename].
  case_decide as H; [|done].
  destruct s as [|z s]; [injection Hl as ->; set_solver|].
  apply IH; [by rewrite last_cons_cons in Hl | done].
Qed.

(** The scan stops behind the last separator up to [i]. *)
Lemma baseIndex_spec s i : (i < length s)%nat ->
  (baseIndex s i <= S i)%nat /\
  (forall k, (baseIndex s i <= k <= i)%nat -> s !! k <> Some PATH_SEPARATOR) /\
  (baseIndex s i = 0%nat \/ s !! (baseIndex s i - 1)%nat = Some PATH_SEPARATOR).
Proof.
  induction i as [|i IH]; intros Hi; cbn [baseIndex]; case_decide as Hs.
  - repeat split; [lia | intros; lia | right; by rewrite Nat.sub_diag || done].
  - repeat split; [lia | intros k Hk; by replace k with 0%nat by lia | by left].
  - repeat split; [lia | intros; lia |]. right. by replace (S (S i) - 1)%nat with (S i) by lia.
  - destruct IH as (H1 & H2 & H3); [lia|]. repeat split; [lia | | done].
    intros k Hk. destruct (decide (k = S i)) as [->|]; [done|]. apply H2. lia.
Qed.

Lemma drop_baseIndex s : s <> [] -> drop (baseIndex s (length s - 1)) s = basename s.
Proof.
  intros Hs. assert (0 < length s)%nat by (destruct s; simpl; [done | lia]).
  destruct (baseIndex_spec s (length s - 1)) as (H1 & H2 & H3); [lia|].
  set (j := baseIndex _ _) in *. rewrite <- (take_drop j s) at 2.
  symmetry. apply basename_app.
  - intros [k Hk]%list_elem_of_lookup. rewrite lookup_drop in Hk.
    apply (H2 (j + k)%nat); [|done]. apply lookup_lt_Some in Hk. lia.
  - destruct H3 as [->|H3]; [by left|right].
    assert (0 < j)%nat. { destruct (decide (j = 0%nat)) as [E|]; [|lia].
      rewrite E in H3. by destruct (H2 0%nat); [lia|]. }
    rewrite last_lookup, length_take, lookup_take. replace (pred (j `min` length s)) with (j - 1)%nat by lia.
    rewrite decide_True by lia. done.
Qed.

(** ** Filling the sender's list *)

(** Writing [s] and its terminator into an array of zeros. *)
Lemma strcpy_zero n d s : cstr d = Some s -> len s < Z.of_nat n ->
  strcpy_s (replicate n 0) d = Some (true, s ++ replicate (n - length s) 0).
Proof.
  intros E Hl. unfold strcpy_s. rewrite E. cbn [mbind option_bind].
  rewrite len_replicate. split_cmp.
  assert (replicate n 0 = [] ++ replicate (S (length s)) 0 ++ replicate (n - S (length s)) 0) as ->.
  { cbn [app]. rewrite <- replicate_add. f_equal. unfold len in *. lia. }
  rewrite put_at; [| done | rewrite len_app, len_replicate; unfold len; simpl; lia].
  cbn [mbind option_bind app]. do 2 f_equal. rewrite <- app_assoc. f_equal. cbn [app].
  replace (n - length s)%nat with (S (n - S (length s))) by (unfold len in *; lia). done.
Qed.

Section SenderSpec.
Context (stat : bytes -> option Z).

(** Why a path is refused, with the value then returned. *)
Definition fileError (s : bytes) : option Z :=
  if (len s <? 1) || bool_decide (last s = Some PATH_SEPARATOR) ||
     (NSTACKX_MAX_REMOTE_PATH_LEN <=? len (basename s)) then Some NSTACKX_EINVAL
  else match stat s with
  | None => Some NSTACKX_EFAILED
  | Some n => if n <? 0 then Some NSTACKX_EFAILED
              else if NSTACKX_MAX_FILE_SIZE <? n then Some NSTACKX_EOK else None
  end.

(** [name]: the array after a successful copy of the name of [s]. *)
Definition nameArray (s : bytes) : bytes :=
  basename s ++ replicate (1024 - length (basename s)) 0.

Lemma GetFileNameLen_spec d s : cstr d = Some s -> len s < 2 ^ 31 ->
  GetFileNameLen (Some d) =
    Some (if (len s <? 1) || bool_decide (last s = Some PATH_SEPARATOR) then 0
          else len (basename s) + 1) /\
  (0 < len s -> Z.of_nat (baseIndex s (length s - 1)) = len s - len (basename s)).
Proof.
  intros E Hl. unfold GetFileNameLen. rewrite E. cbn [mbind option_bind].
  pose proof (len_nonneg s).
  assert (0 < len s -> Z.of_nat (baseIndex s (length s - 1)) = len s - len (basename s)) as Hb.
  { intros. assert (s <> []) by (intros ->; done).
    destruct (baseIndex_spec s (length s - 1)) as (Hj & _); [unfold len in *; lia|].
    rewrite <- drop_baseIndex by done. unfold len in *. rewrite length_drop. lia. }
  split; [|done]. destruct (Z.ltb_spec (len s) 1); [done|]. cbn [orb].
  case_bool_decide; [done|]. rewrite (wrapS_id 32) by range. split_cmp.
  replace (Z.to_nat (len s - 1)) with (length s - 1)%nat by (unfold len; lia).
  rewrite Hb by lia. f_equal. pose proof (len_nonneg (basename s)).
  assert (len (basename s) <= len s) by lia.
  rewrite wrapU_id by range. lia.
Qed.

Lemma GetFileName_spec d s : cstr d = Some s -> len s < 2 ^ 31 ->
  GetFileName (Some d) (fileName zeroEntry) =
    Some (if (len s <? 1) || bool_decide (last s = Some PATH_SEPARATOR) ||
             (NSTACKX_MAX_REMOTE_PATH_LEN <=? len (basename s))
          then (NSTACKX_EINVAL, fileName zeroEntry) else (NSTACKX_EOK, nameArray s)).
Proof.
  intros E Hl. destruct (GetFileNameLen_spec d s E Hl) as [H1 H2].
  unfold GetFileName. rewrite H1. cbn [mbind option_bind].
  destruct (_ || bool_decide _) eqn:Hbad; [done|].
  apply orb_false_iff in Hbad as [Hne Hsep]. apply Z.ltb_ge in Hne.
  change (len (fileName zeroEntry)) with 1024. unfold NSTACKX_MAX_REMOTE_PATH_LEN.
  pose proof (len_nonneg (basename s)). cbn [orb].
  split_cmp; [done|]. rewrite E. cbn [mbind option_bind].
  replace (u32 (len s + 1 - (len (basename s) + 1)))
    with (Z.of_nat (baseIndex s (length s - 1)))
    by (rewrite H2, wrapU_id; range).
  rewrite Nat2Z.id. destruct (cstr_Some _ _ E) as (Hnz & z & ->).
  assert (s <> []) by (intros ->; done).
  destruct (baseIndex_spec s (length s - 1)) as (Hj & _); [unfold len in *; lia|].
  rewrite drop_app_le by (unfold len in *; lia). rewrite drop_baseIndex by done.
  unfold fileName, zeroEntry. change (Z.to_nat NSTACKX_MAX_REMOTE_PATH_LEN) with 1024%nat.
  rewrite (strcpy_zero _ _ (basename s)); [done | | lia].
  apply cstr_terminated. rewrite <- drop_baseIndex by done. by apply Forall_drop.
Qed.

Definition remoteOf (info : FileListInfo) (i : nat) : option bytes :=
  match fi_remotePath info with None => None | Some r => default None (r !! i) end.

(** What the caller of [FileListSetSendFileList] provides: the paths [ss] as
    C strings and arrays of the right sizes. *)
Record info_ok (info : FileListInfo) (ss : list bytes) : Prop := {
  io_files : exists fs, fi_files info = Some fs /\
    Forall2 (fun f s => exists d, f = Some d /\ cstr d = Some s) fs ss;
  io_num : Z.of_nat (length ss) = fi_fileNum info;
  io_len : Forall (fun s => len s < 2 ^ 31) ss;
  io_remote : forall r, fi_remotePath info = Some r -> length r = length ss;
  io_offsets : (length ss <= length (fi_startOffset info))%nat;
  io_sizes : (length ss <= length (fi_fileSize info))%nat
}.

(** The entry of file [i], whose path is [s]. *)
Record entry_of (info : FileListInfo) (i : nat) (s : bytes) (e : FileListEntry) : Prop := {
  eo_id : fileId e = Z.of_nat i + 1;
  eo_name : fileName e = nameArray s;
  eo_full : exists d, fullFileName e = Some d /\ cstr d = Some s;
  eo_remote : remotePath e = remoteOf info i;
  eo_size : if fi_vtransFlag info then fi_fileSize info !! i = Some (fileSize e)
            else stat s = Some (fileSize e) /\ 0 <= fileSize e <= NSTACKX_MAX_FILE_SIZE;
  eo_flags : flags e = 0
}.

Hypothesis stat_range : forall p z, stat p = Some z -> is_s 64 z.

Lemma sendEntry_spec info ss i s : info_ok info ss -> ss !! i = Some s ->
  match fileError s with
  | Some r => sendEntry stat info i = Some (inl r)
  | None => exists e, sendEntry stat info i = Some (inr e) /\ entry_of info i s e
  end.
Proof.
  intros [(fs & Ef & HF) Hn Hlen Hrem Hoff Hsz] Hs.
  destruct (Forall2_lookup_r _ _ _ _ _ HF Hs) as (f & Hfi & d & -> & Ed).
  pose proof (Forall_lookup_1 _ _ _ _ Hlen Hs) as Hl. cbn beta in Hl.
  pose proof (lookup_lt_Some _ _ _ Hs) as Hi.
  unfold sendEntry. rewrite Ef. cbn [mbind option_bind]. rewrite Hfi. cbn [mbind option_bind].
  assert (match fi_remotePath info with None => Some None | Some r => r !! i end
          = Some (remoteOf info i)) as ->.
  { unfold remoteOf. destruct (fi_remotePath info) as [r|]; [|done].
    specialize (Hrem r eq_refl).
    destruct (lookup_lt_is_Some_2 r i) as [x Hx]; [lia|]. by rewrite Hx. }
  cbn [mbind option_bind]. rewrite (GetFileName_spec d s Ed Hl). unfold fileError.
  destruct (_ || _ || _); [done|]. cbn [mbind option_bind]. cbn [negb Z.eqb NSTACKX_EOK].
  cbn [GetTargetFileSize]. rewrite Ed. cbn [mbind option_bind].
  destruct (stat s) as [z|] eqn:Ez; [|done]. specialize (stat_range _ _ Ez).
  destruct (Z.ltb_spec z 0); [done|]. cbn [mbind option_bind]. rewrite wrapU_id by range.
  cbn [negb Z.eqb NSTACKX_EOK orb].
  destruct (Z.ltb_spec NSTACKX_MAX_FILE_SIZE z); [done|].
  destruct (fi_vtransFlag info) eqn:Ev.
  - destruct (lookup_lt_is_Some_2 (fi_startOffset info) i) as [o Ho]; [lia|].
    destruct (lookup_lt_is_Some_2 (fi_fileSize info) i) as [q Hq]; [lia|].
    rewrite Ho. cbn [mbind option_bind]. rewrite Hq. cbn [mbind option_bind].
    eexists. split; [done|]. split; cbn; eauto. by rewrite Ev.
  - eexists. split; [done|]. split; cbn; eauto. rewrite Ev. split; [done | lia].
Qed.

Lemma sendEntries_spec info ss i n : info_ok info ss -> (i + n = length ss)%nat ->
  match head (omap fileError (drop i ss)) with
  | Some r => sendEntries stat info i n = Some (inl r)
  | None => exists es, sendEntries stat info i n = Some (inr es) /\ length es = n /\
      forall k s e, drop i ss !! k = Some s -> es !! k = Some e -> entry_of info (i + k) s e
  end.
Proof.
  intros Hok. revert i. induction n as [|n IH]; intros i Hin.
  - rewrite drop_ge by lia. exists []. repeat split; [done..|]. intros. done.
  - destruct (lookup_lt_is_Some_2 ss i) as [s Hs]; [lia|].
    rewrite (drop_S _ _ _ Hs). pose proof (sendEntry_spec info ss i s Hok Hs) as H1.
    specialize (IH (S i)). cbn [omap list_omap sendEntries].
    destruct (fileError s) as [r|] eqn:Er; [by rewrite H1|].
    destruct H1 as (e & -> & He). cbn [mbind option_bind].
    specialize (IH ltac:(lia)). destruct (head (omap fileError (drop (S i) ss))) as [r|].
    + by rewrite IH.
    + destruct IH as (es & -> & Hl & Hes). exists (e :: es).
      split; [done|]. split; [simpl; lia|].
      intros [|k] s' e' Hk He'; simpl in Hk, He'; simplify_eq.
      * by rewrite Nat.add_0_r.
      * replace (i + S k)%nat with (S i + k)%nat by lia. eauto.
Qed.

End SenderSpec.

Lemma nameArray_wf s : len (basename s) < 1024 ->
  len (nameArray s) = 1024 /\ last (nameArray s) = Some 0.
Proof.
  intros H. unfold nameArray. split; [rewrite len_app, len_replicate; unfold len in *; lia|].
  replace (1024 - length (basename s))%nat with (S (1023 - length (basename s)))
    by (unfold len in *; lia).
  rewrite replicate_S_end, app_assoc. by rewrite last_snoc.
Qed.

Lemma fileError_None stat s : fileError stat s = None -> len (basename s) < 1024.
Proof.
  unfold fileError, NSTACKX_MAX_REMOTE_PATH_LEN.
  destruct (len s <? 1), (bool_decide _); cbn [orb]; try done. split_cmp. done.
Qed.

(** A path that is accepted has a last component that fits. *)
Lemma fileError_basename stat s : fileError stat s = None ->
  1 <= len (basename s) < NSTACKX_MAX_REMOTE_PATH_LEN.
Proof.
  intros Hf. split; [|exact (fileError_None _ _ Hf)].
  assert (basename s <> []) as Hne.
  { unfold fileError in Hf. destruct (last s) as [x|] eqn:Hl.
    - apply (basename_nonempty s x); [done|]. intros ->.
      rewrite (bool_decide_true (Some PATH_SEPARATOR = Some PATH_SEPARATOR)), orb_true_r in Hf; done.
    - by apply last_None in Hl as ->. }
  destruct (basename s) as [|c t]; [done|]. rewrite len_cons. pose proof (len_nonneg t). lia.
Qed.

Lemma cstr_nameArray s : Forall (fun b => b <> 0) s -> len (basename s) < 1024 ->
  cstr (nameArray s) = Some (basename s).
Proof.
  intros Hs Hl. unfold nameArray.
  replace (1024 - length (basename s))%nat with (S (1023 - length (basename s)))
    by (unfold len in *; lia).
  cbn [replicate]. apply cstr_terminated. destruct s as [|x s]; [done|].
  rewrite <- drop_baseIndex by done. by apply Forall_drop.
Qed.

Lemma omap_head_None {A B} (f : A -> option B) l :
  head (omap f l) = None <-> Forall (fun x => f x = None) l.
Proof.
  induction l as [|x l IH]; [done|]. cbn [omap list_omap]. rewrite Forall_cons.
  destruct (f x); cbn [head]; naive_solver.
Qed.

Lemma FileListSetSendFileList_filled stat fl info ss :
  (forall p z, stat p = Some z -> is_s 64 z) ->
  fl_list fl = None -> info_ok info ss -> 1 <= fi_fileNum info <= NSTACKX_DFILE_MAX_FILE_NUM ->
  match head (omap (fileError stat) ss) with
  | Some r => FileListSetSendFileList stat true fl info = Some (r, fl)
  | None => exists es,
      FileListSetSendFileList stat true fl info =
        Some (NSTACKX_EOK, set_list es (fi_fileNum info) fl) /\
      wf (set_list es (fi_fileNum info) fl) /\
      (forall k s, ss !! k = Some s ->
        exists e, es !! k = Some e /\ entry_of stat info k s e /\
                  cstr (fileName e) = Some (basename s))
  end.
Proof.
  intros Hstat Hfl Hok Hn. pose proof (io_num _ _ Hok) as Hnum.
  destruct (io_files _ _ Hok) as (fs & Ef & HF).
  assert (FileListSetSendFileList stat true fl info =
    r ← sendEntries stat info 0 (length ss);
    Some (match r with
          | inl ret => (ret, fl)
          | inr es => (NSTACKX_EOK, set_list es (fi_fileNum info) fl) end)) as ->.
  { unfold FileListSetSendFileList. rewrite Ef, Hfl, <- Hnum, Nat2Z.id. split_cmp; done. }
  pose proof (sendEntries_spec stat Hstat info ss 0 (length ss) Hok eq_refl) as H.
  rewrite drop_0 in H. destruct (head (omap (fileError stat) ss)) eqn:Eh.
  - by rewrite H.
  - apply omap_head_None in Eh. destruct H as (es & -> & Hl & Hes). exists es.
    split; [done|].
    assert (forall k s, ss !! k = Some s -> exists e, es !! k = Some e /\
      entry_of stat info k s e /\ cstr (fileName e) = Some (basename s)) as Hall.
    { intros k s Hk. destruct (lookup_lt_is_Some_2 es k) as [e He];
        [apply lookup_lt_Some in Hk; lia|].
      exists e. pose proof (Hes k s e Hk He) as Heo. split; [done|]. split; [done|].
      rewrite (eo_name _ _ _ _ _ Heo). destruct (eo_full _ _ _ _ _ Heo) as (d & _ & Hd).
      apply cstr_nameArray; [by apply (cstr_Some d)|].
      by eapply fileError_None, (Forall_lookup_1 _ _ _ _ Eh). }
    split; [|done]. unfold wf. cbn [fl_list set_list num]. split; [lia|]. split; [done|].
    apply Forall_lookup_2. intros k e He.
    destruct (lookup_lt_is_Some_2 ss k) as [s Hs]; [apply lookup_lt_Some in He; lia|].
    unfold wf_entry. rewrite (eo_name _ _ _ _ _ (Hes k s e Hs He)).
    apply nameArray_wf. by eapply fileError_None, (Forall_lookup_1 _ _ _ _ Eh).
Qed.

(** Filling the sender's list.  Given the paths as C strings, either the
    list is filled, with one well-formed entry per file in order (its number,
    the last component of its path as name, its size, no flag), or the first
    path that is refused decides the return value and the list is left as it
    was.  A path is refused when it has no last component or one of 1024
    characters or more ([NSTACKX_EINVAL]), or when the file has no size
    ([NSTACKX_EFAILED]) or one above 512 GB; the value returned for the last is
    [NSTACKX_EOK]. *)
Theorem FileListSetSendFileList_spec stat fl info ss :
  (forall p z, stat p = Some z -> is_s 64 z) ->
  fl_list fl = None -> info_ok info ss -> 1 <= fi_fileNum info <= NSTACKX_DFILE_MAX_FILE_NUM ->
  match head (omap (fileError stat) ss) with
  | Some r => FileListSetSendFileList stat true fl info = Some (r, fl)
  | None => exists es,
      FileListSetSendFileList stat true fl info =
        Some (NSTACKX_EOK, set_list es (fi_fileNum info) fl) /\
      wf (set_list es (fi_fileNum info) fl) /\
      (forall k s, ss !! k = Some s ->
        exists e, es !! k = Some e /\ entry_of stat info k s e /\
                  cstr (fileName e) = Some (basename s))
  end.
Proof. by apply FileListSetSendFileList_filled. Qed.

(** Two files are listed with their names and sizes; with a file of 1 TB the
    call answers [NSTACKX_EOK] and the list stays empty. *)
Definition wInfo : FileListInfo :=
  mkInfo (Some [Some [47; 97; 47; 98; 0]; Some [99; 0]]) None [0; 0] [0; 0] 2 false.

Definition wList : FileList :=
  mkFileList None 0 None 0 0 0 None 0 false false None (mkRest 0 0 0 0 0 0 0 0).

Lemma wInfo_ok : info_ok wInfo [[47; 97; 47; 98]; [99]].
Proof.
  split; cbn; [| done | | done | lia | lia].
  - eexists. split; [done|]. repeat constructor; eexists; split; done.
  - repeat constructor; unfold len; simpl; lia.
Qed.

Definition wStat (z : Z) (p : bytes) : option Z := Some z.

Lemma FileListSetSendFileList_spec_witness :
  (exists es,
    FileListSetSendFileList (wStat 5) true wList wInfo =
      Some (NSTACKX_EOK, set_list es 2 wList) /\
    wf (set_list es 2 wList) /\
    (forall k s, [[47; 97; 47; 98]; [99]] !! k = Some s ->
      exists e, es !! k = Some e /\ entry_of (wStat 5) wInfo k s e /\
                cstr (fileName e) = Some (basename s))) /\
  FileListSetSendFileList (wStat 0x10000000000) true wList wInfo = Some (NSTACKX_EOK, wList).
Proof.
  split.
  - refine (FileListSetSendFileList_spec (wStat 5) wList wInfo [[47; 97; 47; 98]; [99]]
      _ eq_refl wInfo_ok _); [intros ? ? [= <-]; by vm_compute | by vm_compute].
  - refine (FileListSetSendFileList_spec (wStat 0x10000000000) wList wInfo
      [[47; 97; 47; 98]; [99]] _ eq_refl wInfo_ok _);
      [intros ? ? [= <-]; by vm_compute | by vm_compute].
Defined.

(** ** Filling the receiver's list *)

(** What every operation of the receiver keeps: the number of entries, and
    the entries whose name was received. *)
Definition keeps (fl fl' : FileList) : Prop :=
  forall l, fl_list fl = Some l ->
    num fl' = num fl /\
    exists l', fl_list fl' = Some l' /\ length l' = length l /\
      forall i e, l !! i = Some e -> has (flags e) NSTACKX_FLAGS_FILE_NAME_RECEIVED = true ->
        l' !! i = Some e.

#[global] Instance keeps_preorder : PreOrder keeps.
Proof.
  split.
  - intros fl l E. split; [done|]. exists l. done.
  - intros a b c H1 H2 l E. destruct (H1 l E) as (N1 & l1 & E1 & L1 & K1).
    destruct (H2 l1 E1) as (N2 & l2 & E2 & L2 & K2).
    split; [congruence|]. exists l2. repeat split; [done | congruence | eauto].
Qed.

Lemma keeps_same_list fl fl' : fl_list fl' = fl_list fl -> num fl' = num fl -> keeps fl fl'.
Proof. intros E1 E2 l E. rewrite E1, E2. split; [done|]. exists l. done. Qed.

(** Entries of the receiver's list are consistent. *)
Definition recv_entry (i : nat) (e : FileListEntry) : Prop :=
  has (flags e) NSTACKX_FLAGS_FILE_NAME_RECEIVED = true ->
  fileId e = Z.of_nat i + 1 /\ 0 <= fileSize e <= NSTACKX_MAX_FILE_SIZE /\
  (fileSize e = 0 -> has (flags e) NSTACKX_FLAGS_LAST_BLOCK_RECEIVED = true).

Definition recv_wf (fl : FileList) : Prop :=
  wf fl /\ forall l i e, fl_list fl = Some l -> l !! i = Some e -> recv_entry i e.

Lemma recv_wf_same_list fl fl' :
  fl_list fl' = fl_list fl -> num fl' = num fl -> recv_wf fl -> recv_wf fl'.
Proof. intros E1 E2 [H1 H2]. unfold recv_wf, wf in *. by rewrite E1, E2. Qed.

(** The operation left the list as it was. *)
Ltac unchanged := eexists _, _; split_and!; first [done | reflexivity | by eauto].

Lemma FileListSetNum_spec calloc fl n : recv_wf fl -> 0 <= n ->
  exists r fl', FileListSetNum calloc fl n = (r, fl') /\ recv_wf fl' /\ keeps fl fl' /\
    userData fl' = userData fl /\ userDataFlag fl' = userDataFlag fl /\
    (r = NSTACKX_EOK -> exists l, fl_list fl' = Some l).
Proof.
  intros Hw Hn. unfold FileListSetNum.
  destruct (_ || _) eqn:E; [unchanged|].
  apply orb_false_iff in E as [E1%Z.eqb_neq E2%Z.ltb_ge].
  destruct (fl_list fl) as [l|] eqn:El; [unchanged|].
  destruct calloc; [|by eexists _, _].
  eexists _, _. split; [done|]. split.
  - split.
    + unfold wf. cbn [fl_list set_list num]. rewrite length_replicate.
      split; [lia|]. split; [lia|]. apply Forall_replicate, zeroEntry_wf.
    + intros l i e [= <-] [-> _]%lookup_replicate_1 H. done.
  - split_and!; try done; [|by eauto]. intros l' E'. congruence.
Qed.

(** The name array after [memcpy_s] of [n] bytes. *)
Definition copied (name src : bytes) (n : Z) : bytes :=
  take (Z.to_nat n) src ++ drop (Z.to_nat n) name.

Lemma memcpy_start name src n destMax : 0 <= n -> n <= destMax -> n <= len src -> n <= len name ->
  memcpy_s name 0 destMax src n = Some (true, copied name src n).
Proof.
  intros. unfold memcpy_s. split_cmp.
  destruct (get_inside src 0 n) as (bs & Eb & Hl & _); [lia..|].
  rewrite Eb. cbn [mbind option_bind]. apply get_Some in Eb as (_ & _ & _ & _ & ->).
  rewrite drop_0 in *. rewrite <- (take_drop (Z.to_nat n) name) at 1.
  rewrite <- (app_nil_l (take _ name ++ _)).
  rewrite put_at; [done | done |]. rewrite Hl. unfold len. rewrite length_take.
  unfold len in *. lia.
Qed.

Lemma copied_wf e src n : wf_entry e -> 0 <= n < 1024 -> n <= len src ->
  len (copied (fileName e) src n) = 1024 /\ last (copied (fileName e) src n) = Some 0.
Proof.
  intros [H1 H2] Hn Hs. unfold copied, NSTACKX_MAX_REMOTE_PATH_LEN, len in *. split.
  - rewrite length_app, length_take, length_drop. lia.
  - rewrite last_app. rewrite last_lookup in *. rewrite length_drop, lookup_drop.
    replace (Z.to_nat n + pred (length (fileName e) - Z.to_nat n))%nat
      with (pred (length (fileName e))) by lia. by rewrite H2.
Qed.

(** A call that passes the guards. *)
Lemma FileListAddFile_exact fl l id e src n size : wf fl -> fl_list fl = Some l ->
  1 <= id <= num fl -> l !! Z.to_nat (id - 1) = Some e ->
  0 <= n < NSTACKX_MAX_REMOTE_PATH_LEN -> n <= len src -> size <= NSTACKX_MAX_FILE_SIZE ->
  FileListAddFile fl id src n size =
    Some (NSTACKX_EOK,
          if has (flags e) NSTACKX_FLAGS_FILE_NAME_RECEIVED then fl
          else set_list (<[Z.to_nat (id - 1) := addedEntry e id (copied (fileName e) src n) size]> l)
                 (num fl) fl).
Proof.
  intros Hw El Hid He Hn Hs Hsz. unfold FileListAddFile. rewrite El.
  rewrite (proj2 (Z.eqb_neq (num fl) 0)), (proj2 (Z.eqb_neq id 0)) by lia.
  rewrite (proj2 (Z.ltb_ge (num fl) id)), (proj2 (Z.ltb_ge NSTACKX_MAX_REMOTE_PATH_LEN _)),
    (proj2 (Z.ltb_ge NSTACKX_MAX_FILE_SIZE size)) by lia. cbn [orb].
  rewrite (entryAt_list _ l) by (done || lia). rewrite He. cbn [mbind option_bind].
  destruct (has (flags e) _) eqn:Hf; [done|].
  assert (len (fileName e) = NSTACKX_MAX_REMOTE_PATH_LEN) as Hwl.
  { unfold wf in Hw. rewrite El in Hw. destruct Hw as (_ & _ & Hw).
    by eapply Forall_lookup_1 in Hw as [? ?]. }
  rewrite memcpy_start by lia.
  cbn [mbind option_bind]. by rewrite (updEntry_list _ l _ _ e) by (done || lia).
Qed.

(** Every call of [FileListAddFile] with a name that lies in memory. *)
Lemma FileListAddFile_spec fl id src n size : recv_wf fl -> 0 <= id -> 0 <= size ->
  0 <= n <= len src ->
  exists r fl', FileListAddFile fl id src n size = Some (r, fl') /\ recv_wf fl' /\ keeps fl fl' /\
    userDataFlag fl' = userDataFlag fl.
Proof.
  intros Hrw Hid Hsz Hn. pose proof Hrw as [Hw Hr].
  destruct (fl_list fl) as [l|] eqn:El; [|unfold FileListAddFile; rewrite El; unchanged].
  destruct (decide (1 <= id <= num fl)) as [Hi|Hi].
  2: { unfold FileListAddFile. rewrite El. split_cmp; cbn [orb]; unchanged. }
  destruct (decide (n < NSTACKX_MAX_REMOTE_PATH_LEN)).
  2: { unfold FileListAddFile. rewrite El. split_cmp; cbn [orb]; unchanged. }
  destruct (decide (size <= NSTACKX_MAX_FILE_SIZE)).
  2: { unfold FileListAddFile. rewrite El. split_cmp; cbn [orb]; unchanged. }
  destruct (wf_entry_at fl id Hw Hi) as (l' & e & El' & He & Hwe). simplify_eq.
  rewrite (FileListAddFile_exact fl l id e) by (done || lia).
  destruct (has (flags e) _) eqn:Hf; [unchanged|].
  eexists _, _. split; [done|]. split_and!; [split| |done].
  - apply wf_upd; [done..|]. by apply copied_wf; [| unfold NSTACKX_MAX_REMOTE_PATH_LEN in *; lia | lia].
  - intros l' i e' [= <-] Hi'. cbn in Hi'.
    destruct (decide (i = Z.to_nat (id - 1))) as [->|].
    + rewrite list_lookup_insert_eq in Hi' by (by eapply lookup_lt_Some). injection Hi' as <-.
      intros _. cbn. split_and!; [lia..|]. intros ->. cbn [Z.eqb].
      by apply has_lor_r.
    + rewrite list_lookup_insert_ne in Hi' by done. by apply (Hr l).
  - intros l' E. simplify_eq. split; [done|]. eexists. split; [done|].
    rewrite length_insert. split; [done|]. intros i e' Hi' Hrec.
    destruct (decide (i = Z.to_nat (id - 1))) as [->|]; [congruence|].
    by rewrite list_lookup_insert_ne by done.
Qed.

Lemma callocCopy_spec src n : 0 <= n <= len src ->
  callocCopy src n = Some (true, take (Z.to_nat n) src ++ [0]).
Proof.
  intros. unfold callocCopy. rewrite memcpy_start by (lens).
  unfold copied. rewrite drop_replicate.
  by replace (Z.to_nat (n + 1) - Z.to_nat n)%nat with 1%nat by lia.
Qed.

(** Every call of [FileListAddUserData] on data that lies in memory. *)
Lemma FileListAddUserData_spec big calloc fl data n flag : 0 <= n <= len data ->
  exists r fl', FileListAddUserData big calloc fl data n flag = Some (r, fl') /\
    fl_list fl' = fl_list fl /\ num fl' = num fl.
Proof.
  intros Hn. unfold FileListAddUserData.
  destruct (has (userDataFlag fl) _); [unchanged|].
  destruct (has flag NSTACKX_DFILE_HEADER_FRAME_PATH_TYPE_FLAG).
  - unfold ParsePackedDFileUserData.
    destruct (Z.ltb_spec n 2); cbn [mbind option_bind]; [unchanged|].
    destruct (get_inside data 0 2) as (p & -> & _); [lia..|]. cbn [mbind option_bind].
    destruct (_ =? 0); cbn [mbind option_bind]; [unchanged|].
    destruct (has flag _); cbn [negb mbind option_bind]; [|unchanged].
    destruct calloc; cbn [negb mbind option_bind]; [|unchanged].
    assert (0 <= u16 (n - 2) <= n - 2).
    { unfold wrapU. split; [by apply Z.mod_pos_bound | apply Z.mod_le; lia]. }
    destruct (0 <? _); [|unchanged].
    rewrite callocCopy_spec; [unchanged|]. unfold len in *. rewrite length_drop. lia.
  - destruct (has flag _); [|unchanged]. destruct calloc; cbn [negb]; [|unchanged].
    destruct (Z.eqb_spec n 0); cbn [negb]; [unchanged|].
    rewrite callocCopy_spec by lia. unchanged.
Qed.

End FileList.
