(* ===== verification/DFileFrame.v ===== *)
(** * Frames of the file transfer protocol

    Models [nstackx_core/dfile/core/nstackx_dfile_frame.c] with the packed
    structures of [include/nstackx_dfile_frame.h], and the function of
    [nstackx_dfile_transfer.c] that sends the header frames.

    A frame is the list of its bytes: an eight byte header (type, flag,
    sessionId, transId, length of the payload) and the payload; a field of the
    packed structures is an offset.  Encoders write into the buffer of the
    caller and keep the bytes they do not write; decoders read the frame that
    was received.  Both answer [None] on an access outside the buffer, so that
    an answer [Some] is also a proof that the access stays inside.  A loop that
    runs longer than its fuel answers [None] too.

    [stat] (used for archives), the outcome of [calloc] and the byte order of
    the host are arguments. *)

From S2P Require Import Prelude Bytes FileList.

Module DFileFrame.
Import Bytes FileList.

Definition NSTACKX_DFILE_FILE_HEADER_FRAME : Z := 1.
Definition NSTACKX_DFILE_FILE_HEADER_CONFIRM_FRAME : Z := 2.
Definition NSTACKX_DFILE_FILE_TRANSFER_DONE_FRAME : Z := 6.
Definition NSTACKX_DFILE_FILE_TRANSFER_DONE_ACK_FRAME : Z := 7.
Definition NSTACKX_DFILE_SETTING_FRAME : Z := 8.
Definition NSTACKX_DFILE_RST_FRAME : Z := 9.
Definition NSTACKX_DFILE_FILE_BACK_PRESSURE_FRAME : Z := 13.

Definition DFILE_FRAME_HEADER_LEN : Z := 8.
Definition NSTACKX_MAX_FRAME_SIZE : Z := 14720.
Definition NSTACKX_MIN_MTU_SIZE : Z := 64.
Definition NSTACKX_DFILE_VERSION : Z := 1.
Definition NSTACKX_RESERVED_FILE_ID : Z := 0.
Definition CONNECT_TYPE_NONE : Z := 0.
Definition CONNECT_TYPE_MAX : Z := 3.
Definition BLOCK_LEN : Z := 512.
Definition MAX_NAME_LEN : Z := 99.

(** Offsets of the fields of [DFileFrameHeader], [FileHeaderFrame] and, inside
    a unit, of [FileInfoUnit]. *)
Definition off_type : Z := 0.
Definition off_flag : Z := 1.
Definition off_sessionId : Z := 2.
Definition off_transId : Z := 4.
Definition off_length : Z := 6.
Definition off_payload : Z := 8.
Definition off_nodeNumber : Z := 8.
Definition off_fileInfoUnit : Z := 10.
Definition unit_fileId : Z := 0.
Definition unit_fileSize : Z := 2.
Definition unit_fileNameLength : Z := 10.
Definition unit_fileName : Z := 12.

(** ** File headers: the sender *)

Section Sender.
Context (stat : bytes -> option Z).

(** The loop of [GetTarTotalBlockLength]: [n] files left, index [i]. *)
Fixpoint tarLoop (fl : FileList) (n : nat) (i total : Z) : option Z :=
  match n with
  | O => Some (u64 (total + BLOCK_LEN))
  | S n' =>
    let total := u64 (total + BLOCK_LEN) in
    e ← entryAt fl (i + 1);
    path ← fullFileName e;
    s ← cstr path;
    let total :=
      if MAX_NAME_LEN <? len s then
        let sep := if bool_decide (s !! 0%nat = Some PATH_SEPARATOR) then 1 else 0 in
        u64 (total + (BLOCK_LEN + (len s + 1 - sep + BLOCK_LEN - 1) / BLOCK_LEN * BLOCK_LEN))
      else total in
    match stat s with
    | None => Some 0
    | Some st_size =>
      let blockCnt := u64 (Z.quot (st_size + BLOCK_LEN - 1) BLOCK_LEN) in
      tarLoop fl n' (i + 1) (u64 (total + u64 (blockCnt * BLOCK_LEN)))
    end
  end.

Definition GetTarTotalBlockLength (fl : FileList) : option Z :=
  tarLoop fl (Z.to_nat (num fl)) 0 0.

(** The name, its length and the size [EncodeFileInfo] puts into a unit. *)
Definition fileInfo (fl : FileList) (id : Z) : option (bytes * Z * Z) :=
  if id =? 0 then
    match packedUserData fl with
    | Some p => Some (p, packedUserDataLen fl, 0)
    | None => u ← userData fl; s ← cstr u; Some (u, u16 (len s), 0)
    end
  else
    r ← FileListGetRemotePath fl id;
    name ← match r with Some p => Some p | None => FileListGetFileName fl id end;
    s ← cstr name;
    size ← (if tarFlag fl then GetTarTotalBlockLength fl else FileListGetFileSize fl id);
    Some (name, u16 (len s), size).

(** The return value, the buffer and [*fileInfoSize]; the unit starts at
    [off], and [length] bytes are left. *)
Definition EncodeFileInfo (fl : FileList) (id : Z) (buffer : bytes) (off length : Z)
  : option (Z * bytes * Z) :=
  '(fileName, fileNameLen, filesTotalLen) ← fileInfo fl id;
  if length <=? unit_fileName then Some (NSTACKX_EAGAIN, buffer, 0)
  else
    let remainLength := length - unit_fileName in
    '(ok, b) ← memcpy_s buffer (off + unit_fileName) remainLength fileName fileNameLen;
    if negb ok then Some (NSTACKX_EAGAIN, b, 0)
    else
      b ← put16 b (off + unit_fileId) id;
      b ← put64 b (off + unit_fileSize) filesTotalLen;
      b ← put16 b (off + unit_fileNameLength) fileNameLen;
      Some (NSTACKX_EOK, b, unit_fileName + fileNameLen).

Definition noUserData (fl : FileList) : bool :=
  match userData fl, packedUserData fl with None, None => true | _, _ => false end.

(** The loop of [EncodeFileHeaderFrameSp]: the buffer, the offset behind the
    last unit and the last file number that is done with. *)
Fixpoint headerLoop (fuel : nat) (fl : FileList) (fileNum : Z) (buffer : bytes)
  (bufferLength offset lastAdded : Z) : option (bytes * Z * Z) :=
  match fuel with
  | O => None
  | S fuel' =>
    if (lastAdded =? fileNum) || (bufferLength <=? offset) then Some (buffer, offset, lastAdded)
    else
      let next := lastAdded + 1 in
      acked ← FileListGetFileNameAcked fl (u16 next);
      if acked || ((next =? 0) && noUserData fl)
      then headerLoop fuel' fl fileNum buffer bufferLength offset next
      else
        '(ret, b, size) ← EncodeFileInfo fl (u16 next) buffer (off_fileInfoUnit + offset)
                            (bufferLength - offset);
        if negb (ret =? NSTACKX_EOK) then Some (b, offset, lastAdded)
        else headerLoop fuel' fl fileNum b bufferLength (offset + size) next
  end.

(** The number of files the header announces. *)
Definition headerFileNum (fl : FileList) : Z := if tarFlag fl then 1 else FileListGetNum fl.

(** The flag bits the sender sets. *)
Definition headerFlags (fl : FileList) (f : Z) : Z :=
  let f := match userData fl with
           | Some _ => Z.lor f NSTACKX_DFILE_HEADER_FRAME_USER_DATA_FLAG | None => f end in
  let f := if 0 <? pathType fl then Z.lor f NSTACKX_DFILE_HEADER_FRAME_PATH_TYPE_FLAG else f in
  if noSyncFlag fl then Z.lor f NSTACKX_DFILE_HEADER_FRAME_NO_SYNC_FLAG else f.

(** The buffer, [*frameLength] and [*fileId]. *)
Definition EncodeFileHeaderFrameSp (fl : FileList) (fileId : Z) (buffer : bytes) (length : Z)
  : option (bytes * Z * Z) :=
  let bufferLength := u64 (length - (2 + DFILE_FRAME_HEADER_LEN)) in
  let fileNum := headerFileNum fl in
  '(b, offset, lastAdded) ←
     headerLoop (Z.to_nat (fileNum - fileId) + 1) fl fileNum buffer bufferLength 0 fileId;
  b ← put8 b off_type NSTACKX_DFILE_FILE_HEADER_FRAME;
  f ← get8 b off_flag;
  b ← put8 b off_flag (headerFlags fl f);
  let offset := offset + 2 in
  b ← put16 b off_length (u16 offset);
  b ← put16 b off_nodeNumber (u16 fileNum);
  Some (b, DFILE_FRAME_HEADER_LEN + offset, lastAdded).

Definition EncodeFileHeaderFrame := EncodeFileHeaderFrameSp.

(** [SendFileHeader], with the outcomes of [SendFrame] in [sent], one for each
    round; [None] when the loop needs more rounds.  The answer is the frames
    given to [writeHandle], [lastSentHeaderFileId] and whether all headers
    were sent. *)
Fixpoint SendFileHeader (sent : list bool) (transId : Z) (fl : FileList) (mtu lastSent : Z)
  : option (list bytes * Z * bool) :=
  match sent with
  | [] => None
  | ok :: sent' =>
    '(b, frameLength, lastEncode) ←
      EncodeFileHeaderFrame fl lastSent (replicate (Z.to_nat NSTACKX_MAX_FRAME_SIZE) 0) mtu;
    b ← put16 b off_transId transId;
    frame ← get b 0 frameLength;
    if negb ok then Some ([frame], lastSent, false)
    else if lastEncode =? headerFileNum fl then Some ([frame], lastEncode, true)
    else
      '(frames, last, done) ← SendFileHeader sent' transId fl mtu lastEncode;
      Some (frame :: frames, last, done)
  end.

End Sender.

(** ** Frames with file numbers *)

(** The loop of [EncodeFileHeaderConfirmFrame]. *)
Fixpoint confirmLoop (fuel : nat) (fl : FileList) (buffer : bytes) (bufferLength i lastAcked : Z)
  : option (bytes * Z * Z) :=
  match fuel with
  | O => None
  | S fuel' =>
    if lastAcked =? FileListGetNum fl then Some (buffer, i, lastAcked)
    else
      let next := u16 (lastAcked + 1) in
      received ← FileListGetFileNameReceived fl next;
      if negb received then confirmLoop fuel' fl buffer bufferLength i next
      else if Z.shiftr bufferLength 1 <=? i then Some (buffer, i, lastAcked)
      else
        b ← put16 buffer (off_payload + 2 * i) next;
        confirmLoop fuel' fl b bufferLength (u16 (i + 1)) next
  end.

Definition EncodeFileHeaderConfirmFrame (fl : FileList) (fileId : Z) (buffer : bytes) (length : Z)
  : option (bytes * Z * Z) :=
  let bufferLength := u64 (length - DFILE_FRAME_HEADER_LEN) in
  '(b, i) ←
    (if has (userDataFlag fl) NSTACKX_DFILE_HEADER_FRAME_USER_DATA_FLAG &&
        has (userDataFlag fl) NSTACKX_FLAGS_FILE_NAME_RECEIVED
     then b ← put16 buffer off_payload 0; Some (b, 1)
     else Some (buffer, 0));
  '(b, i, lastAcked) ←
    confirmLoop (Z.to_nat (FileListGetNum fl - fileId) + 1) fl b bufferLength i fileId;
  let payloadLength := u16 (i * 2) in
  b ← put8 b off_type NSTACKX_DFILE_FILE_HEADER_CONFIRM_FRAME;
  b ← put8 b off_flag 0;
  b ← put16 b off_length payloadLength;
  Some (b, DFILE_FRAME_HEADER_LEN + payloadLength, lastAcked).

(** The loop both decoders of number lists run: [n] numbers from [i] on,
    the valid ones given to [mark]. *)
Fixpoint markLoop (valid : Z -> bool) (mark : FileList -> Z -> option FileList) (n : nat) (i : Z)
  (frame : bytes) (fl : FileList) : option FileList :=
  match n with
  | O => Some fl
  | S n' =>
    id ← get16 frame (off_payload + 2 * i);
    fl' ← (if valid id then mark fl id else Some fl);
    markLoop valid mark n' (i + 1) frame fl'
  end.

Definition DecodeFileHeaderConfirmFrame (fl : FileList) (frame : bytes) : option (Z * FileList) :=
  length ← get16 frame off_length;
  if (length =? 0) || negb (length mod 2 =? 0) then Some (NSTACKX_EFAILED, fl)
  else
    fl' ← markLoop (fun id => negb (FileListGetNum fl <? id)) FileListSetFileNameAcked
            (Z.to_nat (u16 (Z.shiftr length 1))) 0 frame fl;
    Some (NSTACKX_EOK, fl').

Fixpoint putIds (b : bytes) (i : Z) (ids : list Z) : option bytes :=
  match ids with
  | [] => Some b
  | id :: ids' => b' ← put16 b (off_payload + 2 * i) id; putIds b' (i + 1) ids'
  end.

(** [fileIdList] holds the [fileIdNum] numbers. *)
Definition EncodeFileTransferDoneFrame (buffer : bytes) (length : Z) (fileIdList : list Z)
  : option (bytes * Z) :=
  let maxIdNum := u32 (u64 (length - DFILE_FRAME_HEADER_LEN) / 2) in
  let maxIdNum := Z.min maxIdNum (Z.of_nat (List.length fileIdList)) in
  b ← putIds buffer 0 (take (Z.to_nat maxIdNum) fileIdList);
  b ← put8 b off_type NSTACKX_DFILE_FILE_TRANSFER_DONE_FRAME;
  let payloadLength := u16 (maxIdNum * 2) in
  b ← put16 b off_length payloadLength;
  Some (b, DFILE_FRAME_HEADER_LEN + payloadLength).

Definition DecodeFileTransferDoneFrame (fl : FileList) (frame : bytes) : option (Z * FileList) :=
  length ← get16 frame off_length;
  if (length =? 0) || negb (length mod 2 =? 0) then Some (NSTACKX_EFAILED, fl)
  else
    fl' ← markLoop (fun id => negb ((id =? 0) || (FileListGetNum fl <? id)))
            FileListSetFileSendSuccess (Z.to_nat (length / 2)) 0 frame fl;
    Some (NSTACKX_EOK, fl').

Definition GetFileIdFromFileDataFrame (fl : FileList) (frame : bytes) : option Z :=
  id ← get16 frame off_payload;
  Some (if (id =? NSTACKX_RESERVED_FILE_ID) || (FileListGetNum fl <? id) then 0 else s16 id).

Definition EncodeFileTransferDoneAckFrame (buffer : bytes) (length transId : Z)
  : option (bytes * Z) :=
  if length <? DFILE_FRAME_HEADER_LEN then Some (buffer, DFILE_FRAME_HEADER_LEN)
  else
    b ← put8 buffer off_type NSTACKX_DFILE_FILE_TRANSFER_DONE_ACK_FRAME;
    b ← put16 b off_transId transId;
    Some (b, DFILE_FRAME_HEADER_LEN).

(** ** File headers: the receiver *)

Definition DecodeDFileFrame (buffer : bytes) (bufferLength : Z) : option (Z * option bytes) :=
  if bufferLength <? DFILE_FRAME_HEADER_LEN then Some (NSTACKX_EFAILED, None)
  else
    payloadLength ← get16 buffer off_length;
    if negb (bufferLength - DFILE_FRAME_HEADER_LEN =? payloadLength)
    then Some (NSTACKX_EFAILED, None)
    else Some (NSTACKX_EOK, Some buffer).

Section Receiver.
(** The byte order of the host, and the outcome of the two calls of [calloc]
    one frame can lead to: for the array of entries and for the user data. *)
Context (big callocList callocData : bool).

Fixpoint unitLoop (fuel : nat) (frame : bytes) (flag length offset : Z) (fl : FileList)
  : option (Z * FileList) :=
  match fuel with
  | O => None
  | S fuel' =>
    if negb (offset <? length) then Some (NSTACKX_EOK, fl)
    else if length - offset <=? unit_fileName then Some (NSTACKX_EFAILED, fl)
    else
      let unit := off_fileInfoUnit + offset in
      fileNameLength ← get16 frame (unit + unit_fileNameLength);
      fileId ← get16 frame (unit + unit_fileId);
      if (fileId =? 0) && negb (has flag NSTACKX_DFILE_HEADER_FRAME_USER_DATA_FLAG) &&
         negb (has flag NSTACKX_DFILE_HEADER_FRAME_PATH_TYPE_FLAG)
      then Some (NSTACKX_EFAILED, fl)
      else if (negb (fileId =? 0) && (fileNameLength =? 0)) ||
              (length - offset - unit_fileName <? fileNameLength)
      then Some (NSTACKX_EFAILED, fl)
      else
        let src := drop (Z.to_nat (unit + unit_fileName)) frame in
        '(ret, fl') ←
          (if fileId =? 0
           then FileListAddUserData big callocData fl src fileNameLength flag
           else
             fileSize ← get64 frame (unit + unit_fileSize);
             FileListAddFile fl fileId src fileNameLength fileSize);
        if negb (ret =? NSTACKX_EOK) then Some (NSTACKX_EFAILED, fl')
        else unitLoop fuel' frame flag length (offset + (unit_fileName + fileNameLength)) fl'
  end.

Definition DecodeFileHeaderFrameSp (fl : FileList) (frame : bytes) : option (Z * FileList) :=
  headerLength ← get16 frame off_length;
  if headerLength <=? 2 then Some (NSTACKX_EFAILED, fl)
  else
    let length := u16 (headerLength - 2) in
    nodeNumber ← get16 frame off_nodeNumber;
    let '(ret, fl) := FileListSetNum callocList fl nodeNumber in
    if negb (ret =? NSTACKX_EOK) then Some (NSTACKX_EFAILED, fl)
    else
      flag ← get8 frame off_flag;
      let fl :=
        if has flag NSTACKX_DFILE_HEADER_FRAME_USER_DATA_FLAG ||
           has flag NSTACKX_DFILE_HEADER_FRAME_PATH_TYPE_FLAG
        then set_userDataFlag
               (Z.lor (userDataFlag fl) NSTACKX_DFILE_HEADER_FRAME_USER_DATA_FLAG) fl
        else fl in
      let fl :=
        if has flag NSTACKX_DFILE_HEADER_FRAME_NO_SYNC_FLAG then set_noSync true fl else fl in
      unitLoop (Z.to_nat length + 1) frame flag length 0 fl.

Definition DecodeFileHeaderFrame := DecodeFileHeaderFrameSp.

End Receiver.

(** ** Settings *)

(** [SettingFrame] on the host; of its header only [sessionId] is used. *)
Record SettingFrame := mkSetting {
  sessionId : Z;
  mtu : Z;
  connType : Z;
  dFileVersion : Z;
  abmCapability : Z;
  capability : Z;
  dataFrameSize : Z;
  capsCheck : Z;
  cipherCapability : Z;
  deviceBits : Z
}.

(** Offsets in the packed structure, and the size of its payload. *)
Definition off_mtu : Z := 8.
Definition off_connType : Z := 10.
Definition off_dFileVersion : Z := 12.
Definition off_abmCapability : Z := 16.
Definition off_capability : Z := 20.
Definition off_dataFrameSize : Z := 24.
Definition off_capsCheck : Z := 28.
Definition off_cipherCapability : Z := 32.
Definition off_deviceBits : Z := 36.
Definition sizeof_SettingFrame : Z := 38.

Definition EncodeSettingFrame (buffer : bytes) (length : Z) (para : SettingFrame)
  : option (bytes * Z) :=
  let frameLength := sizeof_SettingFrame in
  if length <? frameLength then Some (buffer, frameLength)
  else
    b ← put8 buffer off_type NSTACKX_DFILE_SETTING_FRAME;
    b ← put8 b off_flag 0;
    b ← put16 b off_sessionId 0;
    b ← put16 b off_transId 0;
    b ← put16 b off_mtu (mtu para);
    b ← put16 b off_connType (connType para);
    b ← put32 b off_dFileVersion NSTACKX_DFILE_VERSION;
    b ← put32 b off_abmCapability 0;
    b ← put16 b off_length (u16 (frameLength - DFILE_FRAME_HEADER_LEN));
    b ← put32 b off_capability (capability para);
    b ← put32 b off_dataFrameSize (dataFrameSize para);
    b ← put32 b off_capsCheck (capsCheck para);
    b ← put32 b off_cipherCapability (cipherCapability para);
    b ← put16 b off_deviceBits (deviceBits para);
    Some (b, frameLength).

Definition IsSettingFrameLengthValid (payloadLength : Z) : bool :=
  (payloadLength =? 2 + 2) || (payloadLength =? 2 + 2 + 4) || (payloadLength =? 2 + 2 + 4 + 4) ||
  (payloadLength =? 2 + 2 + 4 + 4 + 4) || (payloadLength =? 2 + 2 + 4 + 4 + 4 + 4) ||
  (payloadLength =? 2 + 2 + 4 + 4 + 4 + 4 + 4) ||
  (sizeof_SettingFrame - DFILE_FRAME_HEADER_LEN <=? payloadLength).

Definition IsSettingFrameMtuAndTypeValid (net : bytes) : option bool :=
  m ← get16 net off_mtu;
  if m <? NSTACKX_MIN_MTU_SIZE then Some false
  else
    t ← get16 net off_connType;
    Some (negb ((t =? CONNECT_TYPE_NONE) || (CONNECT_TYPE_MAX <=? t))).

Definition DFileCheckSettingFrame (net : bytes) : option Z :=
  s ← get16 net off_sessionId;
  t ← get16 net off_transId;
  if negb (s =? 0) || negb (t =? 0) then Some NSTACKX_EFAILED
  else
    payloadLength ← get16 net off_length;
    if negb (IsSettingFrameLengthValid payloadLength) then Some NSTACKX_EFAILED
    else
      ok ← IsSettingFrameMtuAndTypeValid net;
      Some (if (ok : bool) then NSTACKX_EOK else NSTACKX_EFAILED).

(** A field that is only read when the payload is longer than [n]. *)
Definition optField (payloadLength n : Z) (read : option Z) (old : Z) : option Z :=
  if n <? payloadLength then read else Some old.

Definition DecodeSettingFrame (net : bytes) (host : SettingFrame) : option (Z * SettingFrame) :=
  r ← DFileCheckSettingFrame net;
  if negb (r =? NSTACKX_EOK) then Some (NSTACKX_EFAILED, host)
  else
    payloadLength ← get16 net off_length;
    s ← get16 net off_sessionId;
    m ← get16 net off_mtu;
    t ← get16 net off_connType;
    if payloadLength =? 2 + 2 then
      Some (NSTACKX_EOK,
            mkSetting s m t 0 (abmCapability host) (capability host) (dataFrameSize host)
              (capsCheck host) (cipherCapability host) (deviceBits host))
    else
      v ← get32 net off_dFileVersion;
      if payloadLength =? 2 + 2 + 4 then
        Some (NSTACKX_EOK,
              mkSetting s m t v 0 (capability host) (dataFrameSize host)
                (capsCheck host) (cipherCapability host) (deviceBits host))
      else
        a ← get32 net off_abmCapability;
        c ← optField payloadLength (2 + 2 + 4 + 4) (get32 net off_capability) (capability host);
        d ← optField payloadLength (2 + 2 + 4 + 4 + 4)
              (get32 net off_dataFrameSize) (dataFrameSize host);
        k ← optField payloadLength (2 + 2 + 4 + 4 + 4 + 4)
              (get32 net off_capsCheck) (capsCheck host);
        x ← optField payloadLength (2 + 2 + 4 + 4 + 4 + 4 + 4)
              (get32 net off_cipherCapability) (cipherCapability host);
        y ← optField payloadLength (2 + 2 + 4 + 4 + 4 + 4 + 4)
              (get16 net off_deviceBits) (deviceBits host);
        Some (NSTACKX_EOK, mkSetting s m t v a c d k x y).

(** ** Reset and back pressure *)

Definition EncodeRstFrame (buffer : bytes) (length transId errCode : Z) : option (bytes * Z) :=
  let payloadLength := 2 in
  let frameLength := DFILE_FRAME_HEADER_LEN + payloadLength in
  if length <? frameLength then Some (buffer, frameLength)
  else
    b ← put8 buffer off_type NSTACKX_DFILE_RST_FRAME;
    b ← put8 b off_flag 0;
    b ← put16 b off_sessionId 0;
    b ← put16 b off_transId transId;
    b ← put16 b off_payload errCode;
    b ← put16 b off_length payloadLength;
    Some (b, frameLength).

(** The return value, [*code], and, when the caller asks for them, the bytes of
    the list of file numbers and its length. *)
Definition DecodeRstFrame (frame : bytes) (code : Z) (wantList : bool)
  : option (Z * Z * option (bytes * Z)) :=
  payloadLen ← get16 frame off_length;
  if (payloadLen <? 2) || negb ((payloadLen - 2) mod 2 =? 0)
  then Some (NSTACKX_EFAILED, code, None)
  else
    c ← get16 frame off_payload;
    Some (NSTACKX_EOK, c,
          if wantList then Some (drop (Z.to_nat (off_payload + 2)) frame, u16 ((payloadLen - 2) / 2))
          else None).

Record DataBackPressure := mkBackPressure {
  recvListOverIo : Z;
  recvBufThreshold : Z;
  stopSendPeriod : Z
}.

Definition sizeof_DataBackPressure : Z := 6.

Definition EncodeBackPressFrame (buffer : bytes) (length over : Z) : option (bytes * Z) :=
  let payloadLength := sizeof_DataBackPressure in
  let frameLength := DFILE_FRAME_HEADER_LEN + payloadLength in
  if length <? frameLength then Some (buffer, frameLength)
  else
    b ← put8 buffer off_type NSTACKX_DFILE_FILE_BACK_PRESSURE_FRAME;
    b ← put8 b off_flag 0;
    b ← put16 b off_sessionId 0;
    b ← put16 b off_transId 0;
    b ← put16 b off_length payloadLength;
    b ← put8 b off_payload over;
    b ← put8 b (off_payload + 1) 0;
    b ← put32 b (off_payload + 2) 0;
    Some (b, frameLength).

Definition DecodeBackPressFrame (frame : bytes) (info : DataBackPressure)
  : option (Z * DataBackPressure) :=
  payloadLen ← get16 frame off_length;
  if payloadLen <? sizeof_DataBackPressure then Some (NSTACKX_EFAILED, info)
  else
    a ← get8 frame off_payload;
    b ← get8 frame (off_payload + 1);
    c ← get32 frame (off_payload + 2);
    Some (NSTACKX_EOK, mkBackPressure a b c).

(** ** Reading received frames

    Read one field: the side conditions are that it lies in the frame. *)
Ltac rd_head t :=
  lazymatch t with
  | mbind _ ?t' => rd_head t'
  | get8 ?b ?o => destruct (get8_inside b o) as (? & -> & ?)
  | get16 ?b ?o => destruct (get16_inside b o) as (? & -> & ?)
  | get32 ?b ?o => destruct (get32_inside b o) as (? & -> & ?)
  | get64 ?b ?o => destruct (get64_inside b o) as (? & -> & ?)
  end.

Ltac rd :=
  lazymatch goal with |- context [mbind _ ?t] => rd_head t end;
  [done | first [done | lia] .. |]; cbn [mbind option_bind].

Ltac offsets :=
  unfold off_type, off_flag, off_sessionId, off_transId, off_length, off_payload, off_nodeNumber,
    off_fileInfoUnit, unit_fileId, unit_fileSize, unit_fileNameLength, unit_fileName,
    DFILE_FRAME_HEADER_LEN, off_mtu, off_connType, off_dFileVersion, off_abmCapability,
    off_capability, off_dataFrameSize, off_capsCheck, off_cipherCapability, off_deviceBits,
    sizeof_SettingFrame, sizeof_DataBackPressure in *.

(** What [DecodeDFileFrame] establishes: the payload has the length the header
    says. *)
Definition framed (b : bytes) (L : Z) : Prop :=
  is_bytes b /\ get16 b off_length = Some L /\ is_u 16 L /\ len b = 8 + L.

Lemma DecodeDFileFrame_spec b : is_bytes b ->
  exists r f, DecodeDFileFrame b (len b) = Some (r, f) /\
    (r = NSTACKX_EOK -> f = Some b /\ exists L, framed b L).
Proof.
  intros Hb. unfold DecodeDFileFrame, framed. offsets.
  destruct (Z.ltb_spec (len b) 8); [by eexists _, _|]. pose proof (len_nonneg b).
  destruct (get16_inside b 6) as (L & E & HL); [done | lia..|]. rewrite E. cbn [mbind option_bind].
  destruct (Z.eqb_spec (len b - 8) L) as [E2|]; cbn [negb]; [|by eexists _, _].
  eexists _, _. split; [done|]. intros _. split; [done|]. exists L. split_and!; [done..|lia].
Qed.

Section InBounds.
Context (frame : bytes) (L : Z) (Hf : framed frame L).

Lemma unitLoop_total big calloc flag fuel offset fl :
  2 < L -> recv_wf fl -> 0 <= offset -> (Z.to_nat (L - 2 - offset) < fuel)%nat ->
  exists r fl', unitLoop big calloc fuel frame flag (L - 2) offset fl = Some (r, fl') /\
    recv_wf fl' /\ keeps fl fl'.
Proof.
  destruct Hf as (Hb & _ & HL & Hlen). intros HL2.
  revert offset fl. induction fuel as [|fuel IH]; intros offset fl Hw Ho Hfuel; cbn [unitLoop].
  - lia.
  - destruct (Z.ltb_spec offset (L - 2)); cbn [negb]; [|unchanged]. offsets.
    destruct (Z.leb_spec (L - 2 - offset) 12); [unchanged|].
    rd. rd. rename x into nl, x0 into id. destruct (_ && _ && _); [unchanged|].
    destruct ((_ && _) || _) eqn:E; [unchanged|].
    apply orb_false_iff in E as [_ E%Z.ltb_ge]. unfold is_u in *.
    set (src := drop _ frame).
    assert (len src = L - 2 - offset - 12) as Hsrc.
    { unfold src, len in *. rewrite length_drop. lia. }
    assert (exists r fl', (if id =? 0 then FileListAddUserData big calloc fl src nl flag
        else fileSize ← get64 frame (10 + offset + 2); FileListAddFile fl id src nl fileSize)
        = Some (r, fl') /\ recv_wf fl' /\ keeps fl fl') as (r & fl' & -> & Hw' & Hk).
    { destruct (id =? 0).
      - destruct (FileListAddUserData_spec big calloc fl src nl flag) as (r & fl' & -> & E1 & E2);
          [lia|]. exists r, fl'. split_and!; [done | |].
        + by apply (recv_wf_same_list fl).
        + by apply keeps_same_list.
      - rd. unfold is_u in *.
        destruct (FileListAddFile_spec fl id src nl x) as (r & fl' & -> & H1' & H2' & _);
          [done | lia..|]. by exists r, fl'. }
    cbn [mbind option_bind]. destruct (r =? NSTACKX_EOK); cbn [negb]; [|by exists NSTACKX_EFAILED, fl'].
    destruct (IH (offset + (12 + nl)) fl') as (r' & fl'' & -> & Hw'' & Hk''); [done | lia..|].
    exists r', fl''. split_and!; [done.. | by transitivity fl'].
Qed.

Lemma DecodeFileHeaderFrame_total big c1 c2 fl : recv_wf fl ->
  exists r fl', DecodeFileHeaderFrame big c1 c2 fl frame = Some (r, fl') /\
    recv_wf fl' /\ keeps fl fl'.
Proof.
  intros Hw. pose proof Hf as (Hb & EL & HL & Hlen).
  unfold DecodeFileHeaderFrame, DecodeFileHeaderFrameSp. rewrite EL. cbn [mbind option_bind].
  destruct (Z.leb_spec L 2); [unchanged|]. offsets. unfold is_u in *.
  rewrite wrapU_id by range. rd. rename x into n. unfold is_u in *.
  destruct (FileListSetNum_spec c1 fl n Hw) as (r & fl1 & -> & Hw1 & Hk1 & _); [lia|].
  destruct (r =? NSTACKX_EOK); cbn [negb]; [|by exists NSTACKX_EFAILED, fl1].
  rd. set (fl2 := if _ || _ then set_userDataFlag _ fl1 else fl1).
  set (fl3 := if has x _ then set_noSync true fl2 else fl2).
  assert (fl_list fl3 = fl_list fl1 /\ num fl3 = num fl1) as [E1 E2].
  { unfold fl3, fl2. by destruct (has x _ || _), (has x _). }
  destruct (unitLoop_total big c2 x (Z.to_nat (L - 2) + 1) 0 fl3) as (r' & fl' & -> & Hw' & Hk');
    [lia | by apply (recv_wf_same_list fl1) | lia | lia |].
  exists r', fl'. split_and!; [done..|].
  transitivity fl1; [done|]. transitivity fl3; [by apply keeps_same_list | done].
Qed.

Lemma markLoop_total (P : FileList -> Prop) valid mark n i fl :
  (forall fl id, P fl -> is_u 16 id -> valid id = true -> exists fl', mark fl id = Some fl' /\ P fl') ->
  0 <= i -> 8 + 2 * (i + Z.of_nat n) <= len frame -> P fl ->
  exists fl', markLoop valid mark n i frame fl = Some fl' /\ P fl'.
Proof.
  intros Hm. pose proof Hf as (Hb & _). revert i fl.
  induction n as [|n IH]; intros i fl Hi Hn HP; cbn [markLoop]; [by eauto|].
  unfold off_payload. rd. rename x into id.
  assert (exists fl', (if valid id then mark fl id else Some fl) = Some fl' /\ P fl')
    as (fl' & -> & HP').
  { destruct (valid id) eqn:E; [by apply Hm | by eauto]. }
  cbn [mbind option_bind]. apply IH; [lia..|done].
Qed.

(** Marking one entry. *)
Lemma mark_total f fl id : wf fl -> 1 <= id <= num fl ->
  exists fl', updEntry fl id (or_flags f) = Some fl' /\ wf fl' /\ num fl' = num fl.
Proof.
  intros Hw Hid. destruct (wf_entry_at fl id Hw Hid) as (l & e & El & He & Hwe).
  rewrite (updEntry_list fl l id _ e) by (done || lia).
  eexists. split; [done|]. split; [|done]. by apply wf_upd.
Qed.

Lemma DecodeFileHeaderConfirmFrame_total fl : wf fl ->
  exists r fl', DecodeFileHeaderConfirmFrame fl frame = Some (r, fl') /\ wf fl' /\ num fl' = num fl.
Proof.
  intros Hw. pose proof Hf as (Hb & EL & HL & Hlen).
  unfold DecodeFileHeaderConfirmFrame. rewrite EL. cbn [mbind option_bind].
  destruct (_ || _) eqn:E; [unchanged|]. apply orb_false_iff in E as [_ E].
  apply negb_false_iff, Z.eqb_eq in E. rewrite Z.shiftr_div_pow2, wrapU_id by (done || cint).
  destruct (markLoop_total (fun f => wf f /\ num f = num fl)
    (fun id => negb (FileListGetNum fl <? id)) FileListSetFileNameAcked
    (Z.to_nat (L / 2 ^ 1)) 0 fl) as (fl' & -> & Hw' & Hn'); [|lia|cint|done|].
  - intros f id [Hwf Hnf] Hid Hv. rewrite wf_FileListGetNum in Hv by done.
    apply negb_true_iff, Z.ltb_ge in Hv. unfold FileListSetFileNameAcked.
    destruct (Z.eqb_spec id 0); [by eexists|].
    destruct (mark_total NSTACKX_FLAGS_FILE_NAME_ACK f id Hwf) as (f' & -> & H1 & H2);
      [unfold is_u in *; lia|]. exists f'. split; [done|]. split; [done | lia].
  - exists NSTACKX_EOK, fl'. done.
Qed.

Lemma DecodeFileTransferDoneFrame_total fl : wf fl ->
  exists r fl', DecodeFileTransferDoneFrame fl frame = Some (r, fl') /\ wf fl' /\ num fl' = num fl.
Proof.
  intros Hw. pose proof Hf as (Hb & EL & HL & Hlen).
  unfold DecodeFileTransferDoneFrame. rewrite EL. cbn [mbind option_bind].
  destruct (_ || _) eqn:E; [unchanged|]. apply orb_false_iff in E as [_ E].
  apply negb_false_iff, Z.eqb_eq in E.
  destruct (markLoop_total (fun f => wf f /\ num f = num fl)
    (fun id => negb ((id =? 0) || (FileListGetNum fl <? id))) FileListSetFileSendSuccess
    (Z.to_nat (L / 2)) 0 fl) as (fl' & -> & Hw' & Hn'); [|lia|cint|done|].
  - intros f id [Hwf Hnf] Hid Hv. rewrite wf_FileListGetNum in Hv by done.
    apply negb_true_iff, orb_false_iff in Hv as [Hv1%Z.eqb_neq Hv2%Z.ltb_ge].
    destruct (mark_total NSTACKX_FLAGS_FILE_SEND_SUCCESS f id Hwf) as (f' & E' & H1 & H2);
      [unfold is_u in *; lia|]. exists f'. split; [done|]. split; [done | lia].
  - exists NSTACKX_EOK, fl'. done.
Qed.

Lemma DecodeSettingFrame_total host : exists r host', DecodeSettingFrame frame host = Some (r, host').
Proof.
  pose proof Hf as (Hb & EL & HL & Hlen). unfold is_u in HL.
  unfold DecodeSettingFrame, DFileCheckSettingFrame, IsSettingFrameMtuAndTypeValid.
  rewrite EL. offsets. rd. rd.
  destruct (_ || _); cbn [mbind option_bind]; [by eexists _, _|].
  destruct (IsSettingFrameLengthValid L) eqn:E; cbn [negb mbind option_bind]; [|by eexists _, _].
  assert (4 <= L) by (unfold IsSettingFrameLengthValid in E; offsets; revert E; split_cmp; done).
  rd. destruct (_ <? _); cbn [mbind option_bind]; [by eexists _, _|]. rd.
  destruct ((_ =? CONNECT_TYPE_NONE) || _); cbn [negb mbind option_bind]; [by eexists _, _|].
  change (NSTACKX_EOK =? NSTACKX_EOK) with true. cbn [negb mbind option_bind].
  destruct (Z.eqb_spec L (2 + 2)); [by eexists _, _|].
  assert (8 <= L) by (unfold IsSettingFrameLengthValid in E; offsets; revert E; split_cmp; done).
  rd. destruct (Z.eqb_spec L (2 + 2 + 4)); [by eexists _, _|].
  assert (12 <= L) by (unfold IsSettingFrameLengthValid in E; offsets; revert E; split_cmp; done).
  rd. unfold optField, IsSettingFrameLengthValid in *. offsets.
  destruct (Z.ltb_spec (2 + 2 + 4 + 4) L); [|split_cmp; by eexists _, _].
  assert (16 <= L) by (revert E; split_cmp; done). rd.
  destruct (Z.ltb_spec (2 + 2 + 4 + 4 + 4) L); [|split_cmp; by eexists _, _].
  assert (20 <= L) by (revert E; split_cmp; done). rd.
  destruct (Z.ltb_spec (2 + 2 + 4 + 4 + 4 + 4) L); [|split_cmp; by eexists _, _].
  assert (24 <= L) by (revert E; split_cmp; done). rd.
  destruct (Z.ltb_spec (2 + 2 + 4 + 4 + 4 + 4 + 4) L); [|split_cmp; by eexists _, _].
  assert (30 <= L) by (revert E; split_cmp; done). rd. rd. by eexists _, _.
Qed.

Lemma DecodeRstFrame_total code want :
  exists r c ids, DecodeRstFrame frame code want = Some (r, c, ids) /\
    forall b n, ids = Some (b, n) -> 2 * n <= len b.
Proof.
  pose proof Hf as (Hb & EL & HL & Hlen). unfold is_u in HL.
  unfold DecodeRstFrame. rewrite EL. cbn [mbind option_bind]. offsets.
  destruct (Z.ltb_spec L 2); [by eexists _, _, _|].
  destruct (negb _); cbn [orb]; [by eexists _, _, _|]. rd.
  eexists _, _, _. split; [done|]. intros b n. destruct want; [|done]. intros [= <- <-].
  rewrite wrapU_id by cint. unfold len in *. rewrite length_drop. cint.
Qed.

Lemma DecodeBackPressFrame_total info : exists r i, DecodeBackPressFrame frame info = Some (r, i).
Proof.
  pose proof Hf as (Hb & EL & HL & Hlen).
  unfold DecodeBackPressFrame. rewrite EL. cbn [mbind option_bind]. offsets.
  destruct (Z.ltb_spec L 6); [by eexists _, _|]. rd. rd. rd. by eexists _, _.
Qed.

End InBounds.

(** C15: memory safety of the decoders.  Whatever bytes arrive, checking the
    frame terminates inside the buffer; and when it is accepted, every decoder
    terminates, reads and writes only inside the frame and the file list, and
    keeps the file list well formed: the array keeps its size, names stay
    terminated, sizes stay below 512 GB, and entries whose name was received
    do not change. *)
Theorem decoders_in_bounds b : is_bytes b ->
  exists r f, DecodeDFileFrame b (len b) = Some (r, f) /\
  (r = NSTACKX_EOK -> f = Some b /\
    (forall big c1 c2 fl, recv_wf fl ->
      exists r' fl', DecodeFileHeaderFrame big c1 c2 fl b = Some (r', fl') /\
        recv_wf fl' /\ keeps fl fl') /\
    (forall fl, wf fl ->
      exists r' fl', DecodeFileHeaderConfirmFrame fl b = Some (r', fl') /\
        wf fl' /\ num fl' = num fl) /\
    (forall fl, wf fl ->
      exists r' fl', DecodeFileTransferDoneFrame fl b = Some (r', fl') /\
        wf fl' /\ num fl' = num fl) /\
    (forall host, exists r' host', DecodeSettingFrame b host = Some (r', host')) /\
    (forall code want, exists r' c ids, DecodeRstFrame b code want = Some (r', c, ids) /\
      forall l n, ids = Some (l, n) -> 2 * n <= len l) /\
    (forall info, exists r' i, DecodeBackPressFrame b info = Some (r', i))).
Proof.
  intros Hb. destruct (DecodeDFileFrame_spec b Hb) as (r & f & E & H).
  exists r, f. split; [done|]. intros Hr. destruct (H Hr) as (-> & L & HL).
  split_and!; intros.
  - done.
  - by apply (DecodeFileHeaderFrame_total b L).
  - by apply (DecodeFileHeaderConfirmFrame_total b L).
  - by apply (DecodeFileTransferDoneFrame_total b L).
  - by apply (DecodeSettingFrame_total b L).
  - by apply (DecodeRstFrame_total b L).
  - by apply (DecodeBackPressFrame_total b L).
Qed.

(** A header frame whose only unit announces a name longer than the frame. *)
Definition wBadHeader : bytes :=
  [1; 0; 0; 0; 0; 7; 0; 15; 0; 1; 0; 1; 0; 0; 0; 0; 0; 0; 0; 9; 4; 0; 65].

Lemma decoders_in_bounds_witness :
  is_bytes wBadHeader /\
  (exists r' fl', DecodeFileHeaderFrame false true true wList wBadHeader = Some (r', fl') /\
    recv_wf fl' /\ keeps wList fl') /\
  option_map fst (DecodeFileHeaderFrame false true true wList wBadHeader) = Some NSTACKX_EFAILED.
Proof.
  assert (is_bytes wBadHeader) as Hb by (by apply (bool_decide_unpack _); vm_compute).
  split; [done|]. split; [|by vm_compute].
  destruct (decoders_in_bounds wBadHeader Hb) as (r & f & E & H).
  assert (r = NSTACKX_EOK) as Hr by (vm_compute in E; by injection E as <- _).
  apply (H Hr). by split.
Defined.

(** ** Settings on the wire *)

Definition settingPayload (p : SettingFrame) : bytes :=
  be_bytes 2 (mtu p) ++ be_bytes 2 (connType p) ++ be_bytes 4 (dFileVersion p) ++
  be_bytes 4 (abmCapability p) ++ be_bytes 4 (capability p) ++ be_bytes 4 (dataFrameSize p) ++
  be_bytes 4 (capsCheck p) ++ be_bytes 4 (cipherCapability p) ++ be_bytes 2 (deviceBits p).

(** The frame of a peer whose version sends the first [L] bytes of the payload. *)
Definition settingWire (p : SettingFrame) (L : Z) : bytes :=
  [8; 0; 0; 0; 0; 0] ++ be_bytes 2 L ++ take (Z.to_nat L) (settingPayload p).

Record setting_range (p : SettingFrame) : Prop := {
  sr_mtu : is_u 16 (mtu p);
  sr_conn : is_u 16 (connType p);
  sr_version : is_u 32 (dFileVersion p);
  sr_abm : is_u 32 (abmCapability p);
  sr_cap : is_u 32 (capability p);
  sr_size : is_u 32 (dataFrameSize p);
  sr_check : is_u 32 (capsCheck p);
  sr_cipher : is_u 32 (cipherCapability p);
  sr_bits : is_u 16 (deviceBits p)
}.

(** The payload lengths of the versions of the protocol. *)
Definition settingLengths : list Z := [4; 8; 12; 16; 20; 24; 30].

(** What the local side knows after a frame with [L] bytes of payload: the
    fields it carries, and for the others what was known before; a peer that
    sends no version has version 0. *)
Definition merged (p : SettingFrame) (L : Z) (host : SettingFrame) : SettingFrame :=
  mkSetting 0 (mtu p) (connType p)
    (if 8 <=? L then dFileVersion p else 0)
    (if 12 <=? L then abmCapability p else if 8 <=? L then 0 else abmCapability host)
    (if 16 <=? L then capability p else capability host)
    (if 20 <=? L then dataFrameSize p else dataFrameSize host)
    (if 24 <=? L then capsCheck p else capsCheck host)
    (if 30 <=? L then cipherCapability p else cipherCapability host)
    (if 30 <=? L then deviceBits p else deviceBits host).

Definition setting_ok (p : SettingFrame) : bool :=
  (NSTACKX_MIN_MTU_SIZE <=? mtu p) && (1 <=? connType p) && (connType p <=? 2).

(** Evaluate the reads from a frame of named bytes. *)
Ltac eval_reads :=
  repeat match goal with
  | |- context [get16 ?w ?o] =>
      let v := eval vm_compute in (get w o 2) in
      change (get16 w o) with (be_val <$> v); cbn [fmap option_fmap option_map mbind option_bind]
  | |- context [get32 ?w ?o] =>
      let v := eval vm_compute in (get w o 4) in
      change (get32 w o) with (be_val <$> v); cbn [fmap option_fmap option_map mbind option_bind]
  end.

(** Replace the fields of [p] by named bytes in the frame. *)
Ltac name_fields Hr :=
  destruct (be_bytes2_named _ (sr_mtu _ Hr)) as (? & ? & ? & ?),
    (be_bytes2_named _ (sr_conn _ Hr)) as (? & ? & ? & ?),
    (be_bytes4_named _ (sr_version _ Hr)) as (? & ? & ? & ? & ? & ?),
    (be_bytes4_named _ (sr_abm _ Hr)) as (? & ? & ? & ? & ? & ?),
    (be_bytes4_named _ (sr_cap _ Hr)) as (? & ? & ? & ? & ? & ?),
    (be_bytes4_named _ (sr_size _ Hr)) as (? & ? & ? & ? & ? & ?),
    (be_bytes4_named _ (sr_check _ Hr)) as (? & ? & ? & ? & ? & ?),
    (be_bytes4_named _ (sr_cipher _ Hr)) as (? & ? & ? & ? & ? & ?),
    (be_bytes2_named _ (sr_bits _ Hr)) as (? & ? & ? & ?).

Lemma settingWire_decode p L host : setting_range p -> L ∈ settingLengths ->
  DecodeSettingFrame (settingWire p L) host =
    Some (if setting_ok p then (NSTACKX_EOK, merged p L host) else (NSTACKX_EFAILED, host)).
Proof.
  intros Hr HL.
  assert (setting_ok p = negb (mtu p <? NSTACKX_MIN_MTU_SIZE) &&
    negb ((connType p =? CONNECT_TYPE_NONE) || (CONNECT_TYPE_MAX <=? connType p))) as ->.
  { pose proof (sr_conn _ Hr). unfold is_u, setting_ok, CONNECT_TYPE_NONE, CONNECT_TYPE_MAX in *.
    split_cmp; done. }
  unfold settingWire, settingPayload. name_fields Hr.
  repeat match goal with H : be_bytes _ _ = _ |- _ => rewrite H; clear H end.
  unfold settingLengths in HL.
  repeat (apply elem_of_cons in HL as [->|HL]; [|]); [..|by apply elem_of_nil in HL].
  all: match goal with |- context [DecodeSettingFrame ?w] =>
         let v := eval vm_compute in w in change w with v end.
  all: unfold DecodeSettingFrame, DFileCheckSettingFrame, IsSettingFrameMtuAndTypeValid.
  all: eval_reads.
  all: repeat match goal with H : be_val _ = _ |- _ => rewrite H; clear H end.
  all: repeat match goal with |- context [be_val ?l] =>
         let v := eval vm_compute in (be_val l) in change (be_val l) with v end.
  all: destruct (mtu p <? NSTACKX_MIN_MTU_SIZE); [reflexivity|].
  all: destruct ((connType p =? CONNECT_TYPE_NONE) || (CONNECT_TYPE_MAX <=? connType p)); reflexivity.
Qed.

(** Evaluate a sequence of writes into a buffer whose first bytes are named. *)
Ltac eval_puts :=
  unfold put8, put16, put32;
  repeat match goal with
  | |- context [put (?l ++ ?r) ?o ?bs] =>
      let v := eval vm_compute in (put l o bs) in
      rewrite (put_prefix l r o bs) by (by vm_compute);
      change (put l o bs) with v;
      cbn [fmap option_fmap option_map mbind option_bind]
  end.

(** The first [n] bytes of a buffer, named. *)
Ltac name_bytes b n :=
  let l := fresh "l" in
  let r := fresh "r" in
  let E := fresh "E" in
  let Hl := fresh "Hl" in
  assert (exists l r, b = l ++ r /\ length l = n /\ r = drop n b) as (l & r & E & Hl & ->);
  [ exists (take n b), (drop n b); split_and!;
    [by rewrite take_drop | rewrite length_take; unfold len in *; lia | done]
  | repeat (destruct l as [|? l]; [discriminate Hl | apply Nat.succ_inj in Hl]);
    apply nil_length_inv in Hl as ->; rewrite E at 1; clear E ].

Lemma EncodeSettingFrame_spec buf length p : setting_range p -> 38 <= length -> 38 <= len buf ->
  EncodeSettingFrame buf length p =
    Some (settingWire (mkSetting 0 (mtu p) (connType p) NSTACKX_DFILE_VERSION 0 (capability p)
            (dataFrameSize p) (capsCheck p) (cipherCapability p) (deviceBits p)) 30 ++ drop 38 buf, 38).
Proof.
  intros Hr Hl Hb. unfold EncodeSettingFrame, settingWire, settingPayload. offsets.
  destruct (Z.ltb_spec length 38); [lia|]. name_bytes buf 38%nat.
  cbn [mtu connType dFileVersion abmCapability capability dataFrameSize capsCheck
       cipherCapability deviceBits]. name_fields Hr.
  unfold put8, put16, put32.
  repeat match goal with H : be_bytes _ _ = _ |- _ => rewrite H; clear H end.
  eval_puts. reflexivity.
Qed.

Lemma DecodeSettingFrame_short b L host : framed b L -> IsSettingFrameLengthValid L = false ->
  DecodeSettingFrame b host = Some (NSTACKX_EFAILED, host).
Proof.
  intros (Hb & EL & HL & Hlen) E. unfold DecodeSettingFrame, DFileCheckSettingFrame.
  rewrite EL. offsets. unfold is_u in HL. rd. rd. destruct (_ || _); cbn [mbind option_bind]; [done|].
  by rewrite E.
Qed.

(** Settings.  Encoding writes the 38 bytes of the current version and
    nothing behind them.  A frame of any version of the protocol is decoded to
    the fields it carries, the others keep their value (a peer without version
    field has version 0), provided its mtu is at least 64 and its connection
    type is known; a frame refused for these, or with a payload length that
    belongs to no version, changes nothing. *)
Theorem setting_frame_spec p host : setting_range p ->
  (forall buf length, 38 <= length -> 38 <= len buf ->
    EncodeSettingFrame buf length p =
      Some (settingWire (mkSetting 0 (mtu p) (connType p) NSTACKX_DFILE_VERSION 0 (capability p)
              (dataFrameSize p) (capsCheck p) (cipherCapability p) (deviceBits p)) 30
            ++ drop 38 buf, 38)) /\
  (forall L, L ∈ settingLengths ->
    DecodeSettingFrame (settingWire p L) host =
      Some (if setting_ok p then (NSTACKX_EOK, merged p L host) else (NSTACKX_EFAILED, host))) /\
  (forall b L, framed b L -> L < 30 -> (L ∉ settingLengths) ->
    DecodeSettingFrame b host = Some (NSTACKX_EFAILED, host)).
Proof.
  intros Hr. split_and!; intros.
  - by apply EncodeSettingFrame_spec.
  - by apply settingWire_decode.
  - apply (DecodeSettingFrame_short b L); [done|]. unfold IsSettingFrameLengthValid. offsets.
    unfold settingLengths in *. repeat (rewrite not_elem_of_cons in H1; destruct H1 as [? H1]).
    split_cmp; done.
Qed.

Definition wSetting : SettingFrame := mkSetting 0 1472 2 1 0 3 0 0x100 7 64.

Lemma setting_frame_spec_witness :
  setting_range wSetting /\
  DecodeSettingFrame (settingWire wSetting 30) (mkSetting 0 0 0 0 0 0 0 0 0 0) =
    Some (NSTACKX_EOK, wSetting) /\
  DecodeSettingFrame (settingWire wSetting 4) (mkSetting 0 0 0 0 0 0 0 0 0 0) =
    Some (NSTACKX_EOK, mkSetting 0 1472 2 0 0 0 0 0 0 0).
Proof.
  assert (setting_range wSetting) as Hr by (split; range || (cbn; range)).
  split; [done|]. split.
  - destruct (setting_frame_spec wSetting (mkSetting 0 0 0 0 0 0 0 0 0 0) Hr) as (_ & H & _).
    rewrite H by (unfold settingLengths; set_solver). reflexivity.
  - destruct (setting_frame_spec wSetting (mkSetting 0 0 0 0 0 0 0 0 0 0) Hr) as (_ & H & _).
    rewrite H by (unfold settingLengths; set_solver). reflexivity.
Defined.

End DFileFrame.
