(* ===== verification/FileHeaders.v ===== *)
(** * The exchange of file headers

    The frames of [DFileFrame] as the two ends use them.  The sender announces
    its files in header frames ([SendFileHeader] of
    [nstackx_dfile_transfer.c]), the receiver fills its list from them and
    answers with confirm frames (the sending loop of
    [SendFileHeaderConfirm]), from which the sender learns what need not be
    sent again; when the data has arrived, done frames list the files.

    - [offers]: what a sender's list offers to the receiver;
    - [learned]: what a receiver has is what the sender offers;
    - [header_frames_deliver], [confirm_frames_acknowledge],
      [control_frames_roundtrip]: the exchange, in both directions;
    - [SendFileHeader_stuck]: the loop of the sender makes no progress when a
      name does not fit into a frame. *)

From S2P Require Import Prelude Bytes FileList DFileFrame.

Module FileHeaders.
Import Bytes FileList DFileFrame.

(** ** File headers on the wire

    What a sender's list offers: the number of files, and for each its name
    and size; the path type and the user data travel as file 0. *)

Record offer := mkOffer {
  of_num : Z;
  of_name : Z -> bytes;
  of_size : Z -> Z;
  of_path : Z;
  of_user : option bytes
}.

Section Wire.
Context (stat : bytes -> option Z) (big : bool) (o : offer).

(** The name and the size in the unit of file [id]. *)
Definition unitName (id : Z) : bytes :=
  if id =? 0 then
    (if 0 <? of_path o then native_bytes big (of_path o) else []) ++ default [] (of_user o)
  else of_name o id.

Definition unitSize (id : Z) : Z := if id =? 0 then 0 else of_size o id.

Definition unitBytes (id : Z) : bytes :=
  be_bytes 2 id ++ be_bytes 8 (unitSize id) ++ be_bytes 2 (len (unitName id)) ++ unitName id.

(** The sender's list is ready to be sent. *)
Record offers (fl : FileList) : Prop := {
  os_num : headerFileNum fl = of_num o;
  os_range : 1 <= of_num o <= NSTACKX_DFILE_MAX_FILE_NUM;
  os_entry : forall id, 1 <= id <= of_num o -> is_Some (entryAt fl id);
  os_file : forall id, 1 <= id <= of_num o ->
    exists p, fileInfo stat fl id = Some (p, len (of_name o id), of_size o id) /\
      get p 0 (len (of_name o id)) = Some (of_name o id);
  os_name : forall id, 1 <= id <= of_num o ->
    1 <= len (of_name o id) < NSTACKX_MAX_REMOTE_PATH_LEN /\
    Forall (fun b => b <> 0) (of_name o id);
  os_size : forall id, 1 <= id <= of_num o -> 0 <= of_size o id <= NSTACKX_MAX_FILE_SIZE;
  os_user : cstr <$> userData fl = Some <$> of_user o;
  os_userlen : len (default [] (of_user o)) < 2 ^ 16 - 2;
  os_path : pathType fl = of_path o /\ is_u 16 (of_path o);
  os_packed : if 0 <? of_path o
    then packedUserData fl = Some (unitName 0) /\ packedUserDataLen fl = len (unitName 0)
    else packedUserData fl = None;
  os_nonempty : of_user o <> Some []
}.

Lemma native_bytes_len x : len (native_bytes big x) = 2.
Proof. unfold native_bytes, len. by destruct big. Qed.

Lemma unitName_0_len : len (unitName 0) = (if 0 <? of_path o then 2 else 0) + len (default [] (of_user o)).
Proof.
  unfold unitName. cbn [Z.eqb]. rewrite len_app.
  destruct (0 <? _); [by rewrite native_bytes_len | done].
Qed.

Lemma noUserData_false fl : offers fl -> noUserData fl = false ->
  0 < of_path o \/ exists s, of_user o = Some s /\ s <> [].
Proof.
  intros Ho H. unfold noUserData in H. pose proof (os_user _ Ho) as Hu.
  pose proof (os_packed _ Ho) as Hp. pose proof (os_nonempty _ Ho) as Hne.
  destruct (Z.ltb_spec 0 (of_path o)); [by left|]. right. rewrite Hp in H.
  destruct (userData fl), (of_user o) as [s|]; try done. exists s. split; [done|]. by intros ->.
Qed.

(** Every unit that is sent has its name in memory. *)
Lemma offers_info fl id : offers fl -> 0 <= id <= of_num o -> (id = 0 -> noUserData fl = false) ->
  exists p, fileInfo stat fl id = Some (p, len (unitName id), unitSize id) /\
    get p 0 (len (unitName id)) = Some (unitName id) /\
    1 <= len (unitName id) < 2 ^ 16 /\ is_u 64 (unitSize id).
Proof.
  intros Ho Hid Hnd. destruct (Z.eqb_spec id 0) as [->|Hne].
  - specialize (Hnd eq_refl). pose proof (noUserData_false fl Ho Hnd) as Hsome.
    pose proof (os_user _ Ho) as Hu. pose proof (os_userlen _ Ho) as Hl.
    pose proof (os_packed _ Ho) as Hp. pose proof (unitName_0_len) as Hlen.
    pose proof (len_nonneg (default [] (of_user o))).
    unfold fileInfo. cbn [Z.eqb]. change (unitSize 0) with 0.
    destruct (Z.ltb_spec 0 (of_path o)).
    + destruct Hp as [-> ->]. eexists. split; [done|]. split; [|split; [lia|range]].
      rewrite <- (app_nil_r (unitName 0)) at 1. by apply get_prefix.
    + rewrite Hp. destruct Hsome as [?|(s & Es & Hs)]; [lia|]. rewrite Es in *.
      destruct (userData fl) as [u|]; [|done]. cbn in Hu. injection Hu as Hu.
      cbn [mbind option_bind]. rewrite Hu. cbn [mbind option_bind].
      assert (unitName 0 = s) as Eu.
      { unfold unitName. cbn [Z.eqb]. rewrite Es. split_cmp. done. }
      rewrite Eu. unfold default, from_option, Datatypes.id in *. destruct s as [|c s]; [done|].
      rewrite len_cons in *. pose proof (len_nonneg s).
      rewrite wrapU_id by range. eexists. split; [done|].
      split; [|split; [lia | range]].
      destruct (cstr_Some _ _ Hu) as (_ & z & ->). apply get_prefix. by rewrite len_cons.
  - destruct (os_file _ Ho id) as (p & E & G); [lia|]. destruct (os_name _ Ho id) as [Hn _]; [lia|].
    pose proof (os_size _ Ho id). unfold unitName, unitSize. rewrite (proj2 (Z.eqb_neq id 0)) by done.
    unfold NSTACKX_MAX_REMOTE_PATH_LEN, NSTACKX_MAX_FILE_SIZE in *.
    exists p. split; [done|]. split; [done|]. split; [lia | range].
Qed.

Lemma len_unitBytes id : len (unitBytes id) = 12 + len (unitName id).
Proof. unfold unitBytes. lens. Qed.

(** A unit that fits is written behind the ones before it. *)
Lemma EncodeFileInfo_fits fl id pre old post length :
  offers fl -> 0 <= id <= of_num o -> (id = 0 -> noUserData fl = false) ->
  len old = 12 + len (unitName id) -> 12 + len (unitName id) <= length ->
  EncodeFileInfo stat fl id (pre ++ old ++ post) (len pre) length =
    Some (NSTACKX_EOK, pre ++ unitBytes id ++ post, 12 + len (unitName id)).
Proof.
  intros Ho Hid Hnd Hold Hl. destruct (offers_info fl id Ho Hid Hnd) as (p & E & G & Hlen & Hsz).
  unfold EncodeFileInfo. rewrite E. cbn [mbind option_bind]. offsets. split_cmp.
  destruct (split_len old 2) as (o1 & old1 & -> & L1); [lia|]. rewrite len_app in Hold.
  destruct (split_len old1 8) as (o2 & old2 & -> & L2); [lia|]. rewrite len_app in Hold.
  destruct (split_len old2 2) as (o3 & o4 & -> & L3); [lia|]. rewrite len_app in Hold.
  set (nm := unitName id) in *.
  assert (memcpy_s (pre ++ (o1 ++ o2 ++ o3 ++ o4) ++ post) (len pre + 12) (length - 12) p (len nm)
    = Some (true, pre ++ o1 ++ o2 ++ o3 ++ nm ++ post)) as ->.
  { unfold memcpy_s. split_cmp. rewrite G. cbn [mbind option_bind].
    replace (pre ++ (o1 ++ o2 ++ o3 ++ o4) ++ post)
      with ((pre ++ o1 ++ o2 ++ o3) ++ o4 ++ post) by (by rewrite <- !app_assoc).
    rewrite put_at; [|lens | lia]. by rewrite <- !app_assoc. }
  cbn [mbind option_bind negb]. unfold put16, put64.
  rewrite (put_at pre o1) by (lens). cbn [mbind option_bind].
  rewrite (app_assoc pre (be_bytes 2 id)).
  rewrite (put_at _ o2) by (lens). cbn [mbind option_bind].
  rewrite (app_assoc _ (be_bytes 8 (unitSize id))).
  rewrite (put_at _ o3) by (lens). cbn [mbind option_bind].
  unfold unitBytes. by rewrite <- !app_assoc.
Qed.

(** A unit that does not fit leaves the ones before it. *)
Lemma EncodeFileInfo_full fl id pre post length :
  offers fl -> 0 <= id <= of_num o -> (id = 0 -> noUserData fl = false) ->
  length < 12 + len (unitName id) -> length <= len post ->
  exists post', len post' = len post /\
    EncodeFileInfo stat fl id (pre ++ post) (len pre) length =
      Some (NSTACKX_EAGAIN, pre ++ post', 0).
Proof.
  intros Ho Hid Hnd Hl Hp. destruct (offers_info fl id Ho Hid Hnd) as (p & E & G & Hlen & Hsz).
  unfold EncodeFileInfo. rewrite E. cbn [mbind option_bind]. offsets.
  destruct (Z.leb_spec length 12); [by exists post|].
  destruct (split_len post 12) as (p1 & p2 & -> & L1); [lia|]. rewrite len_app in Hp.
  destruct (split_len p2 (length - 12)) as (p3 & p4 & -> & L3); [lia|].
  exists (p1 ++ replicate (Z.to_nat (length - 12)) 0 ++ p4).
  split; [lens|].
  unfold memcpy_s. split_cmp. rewrite app_assoc.
  rewrite (put_at (pre ++ p1) p3) by (lens).
  cbn [mbind option_bind negb]. by rewrite <- !app_assoc.
Qed.

(** The files the sender still has to announce. *)
Definition pending (fl : FileList) (id : Z) : bool :=
  match FileListGetFileNameAcked fl id with
  | Some a => negb (a || ((id =? 0) && noUserData fl))
  | None => false
  end.

Lemma offers_acked fl id : offers fl -> 0 <= id <= of_num o ->
  exists a, FileListGetFileNameAcked fl id = Some a.
Proof.
  intros Ho Hid. unfold FileListGetFileNameAcked.
  destruct (Z.eqb_spec id 0); [by eexists|].
  destruct (os_entry _ Ho id) as [e ->]; [lia|]. by eexists.
Qed.

(** The units of the pending files in an interval of numbers. *)
Definition unitIds (fl : FileList) (from to : Z) : list Z :=
  filter (fun id => pending fl id = true) (seqZ (from + 1) (to - from)).

Definition units (ids : list Z) : bytes := concat (unitBytes <$> ids).

Lemma units_cons id ids : units (id :: ids) = unitBytes id ++ units ids.
Proof. done. Qed.

Lemma unitIds_step fl from to : from < to ->
  unitIds fl from to =
    (if pending fl (from + 1) then [from + 1] else []) ++ unitIds fl (from + 1) to.
Proof.
  intros. unfold unitIds. rewrite (seqZ_cons (from + 1)) by lia.
  replace (Z.pred (to - from)) with (to - (from + 1)) by lia.
  replace (Z.succ (from + 1)) with (from + 1 + 1) by lia.
  destruct (pending fl (from + 1)) eqn:E.
  - by rewrite filter_cons_True.
  - rewrite filter_cons_False; [done | congruence].
Qed.

Lemma unitIds_refl fl from : unitIds fl from from = [].
Proof. unfold unitIds. by rewrite Z.sub_diag. Qed.

(** The outcome of the loop started behind file [last] with [dn] written: the
    units of the pending files up to some [last'], which is the last file or
    one whose successor does not fit any more. *)
Definition loop_post (fl : FileList) (pre dn rest : bytes) (bufferLength last : Z)
  (res : option (bytes * Z * Z)) : Prop :=
  exists last' rest' us, us = units (unitIds fl last last') /\
    res = Some (pre ++ (dn ++ us) ++ rest', len (dn ++ us), last') /\
    last <= last' <= of_num o /\ len us + len rest' = len rest /\ len (dn ++ us) <= bufferLength /\
    (last' < of_num o -> bufferLength <= len (dn ++ us) \/
       (pending fl (last' + 1) = true /\
        bufferLength < len (dn ++ us) + 12 + len (unitName (last' + 1)))).

Lemma loop_post_stop fl pre dn rest rest' bufferLength last :
  last <= of_num o -> len rest' = len rest -> len dn <= bufferLength ->
  (last < of_num o -> bufferLength <= len dn \/
     (pending fl (last + 1) = true /\ bufferLength < len dn + 12 + len (unitName (last + 1)))) ->
  loop_post fl pre dn rest bufferLength last (Some (pre ++ dn ++ rest', len dn, last)).
Proof.
  intros. exists last, rest', []. rewrite unitIds_refl, app_nil_r.
  split_and!; try done; cbn; lia.
Qed.

Lemma loop_post_skip fl pre dn rest bufferLength last res :
  last < of_num o -> pending fl (last + 1) = false ->
  loop_post fl pre dn rest bufferLength (last + 1) res ->
  loop_post fl pre dn rest bufferLength last res.
Proof.
  intros Hl Hp (last' & rest' & us & Eus & H1 & H2 & H3). exists last', rest', us.
  rewrite (unitIds_step fl last last'), Hp by lia. split_and!; try done; try lia; tauto.
Qed.

Lemma loop_post_unit fl pre dn rest rest1 bufferLength last res :
  last < of_num o -> pending fl (last + 1) = true ->
  len (unitBytes (last + 1)) + len rest1 = len rest ->
  loop_post fl pre (dn ++ unitBytes (last + 1)) rest1 bufferLength (last + 1) res ->
  loop_post fl pre dn rest bufferLength last res.
Proof.
  intros Hl Hp Hr (last' & rest' & us & Eus & H1 & H2 & H3 & H4 & H5).
  exists last', rest', (unitBytes (last + 1) ++ us).
  rewrite (unitIds_step fl last last'), Hp by lia.
  unfold units in *. cbn [app fmap list_fmap concat]. rewrite <- Eus.
  rewrite (app_assoc dn). split_and!; try done; try lia. lens.
Qed.

Lemma headerLoop_spec fl fuel pre dn rest bufferLength last :
  offers fl -> len pre = 10 -> len dn <= bufferLength -> bufferLength - len dn <= len rest ->
  -1 <= last <= of_num o -> (Z.to_nat (of_num o - last) < fuel)%nat ->
  loop_post fl pre dn rest bufferLength last
    (headerLoop stat fuel fl (of_num o) (pre ++ dn ++ rest) bufferLength (len dn) last).
Proof.
  intros Ho Hpre. pose proof (os_range _ Ho) as Hn. unfold NSTACKX_DFILE_MAX_FILE_NUM in Hn.
  revert dn rest last. induction fuel as [|fuel IH]; intros dn rest last Hb1 Hb2 Hlast Hfuel; [lia|].
  cbn [headerLoop].
  destruct (Z.eqb_spec last (of_num o)); [apply loop_post_stop; lia || done|]. cbn [orb].
  pose proof (len_nonneg (unitName (last + 1))).
  destruct (Z.leb_spec bufferLength (len dn)); [apply loop_post_stop; lia || done|].
  rewrite wrapU_id by range.
  destruct (offers_acked fl (last + 1) Ho) as [a Ea]; [lia|].
  assert (pending fl (last + 1) = negb (a || (last + 1 =? 0) && noUserData fl)) as Hp
    by (unfold pending; by rewrite Ea).
  rewrite Ea. cbn [mbind option_bind].
  destruct (a || _) eqn:Es; cbn [negb] in Hp.
  - apply loop_post_skip; [lia | done |]. apply IH; lia.
  - assert (last + 1 = 0 -> noUserData fl = false) as Hnd.
    { intros E. apply orb_false_iff in Es as [_ Es]. rewrite E in Es. exact Es. }
    replace (off_fileInfoUnit + len dn) with (len (pre ++ dn))
      by (rewrite len_app; unfold off_fileInfoUnit; lia).
    destruct (decide (12 + len (unitName (last + 1)) <= bufferLength - len dn)).
    + destruct (split_len rest (12 + len (unitName (last + 1)))) as (old & post & -> & Lo); [lia|].
      rewrite len_app in Hb2.
      rewrite (app_assoc pre). rewrite (EncodeFileInfo_fits fl) by (done || lia).
      cbn [mbind option_bind]. change (NSTACKX_EOK =? NSTACKX_EOK) with true. cbn [negb].
      apply (loop_post_unit _ _ _ _ post); [lia | done | rewrite len_unitBytes, len_app; lia |].
      replace (len dn + (12 + len (unitName (last + 1)))) with (len (dn ++ unitBytes (last + 1)))
        by (rewrite len_app, len_unitBytes; lia).
      rewrite <- (app_assoc pre), (app_assoc dn).
      apply IH; rewrite ?len_app, ?len_unitBytes; lia.
    + rewrite (app_assoc pre).
      destruct (EncodeFileInfo_full fl (last + 1) (pre ++ dn) rest (bufferLength - len dn))
        as (post' & Hl' & ->); [done || lia..|].
      cbn [mbind option_bind]. change (NSTACKX_EAGAIN =? NSTACKX_EOK) with false. cbn [negb].
      rewrite <- app_assoc. apply loop_post_stop; try done; try lia. intros _. right. split; [done | lia].
Qed.

(** A header frame with the units [us]; [ids] is sessionId and transId. *)
Definition headerWire (fl : FileList) (ids us : bytes) : bytes :=
  [NSTACKX_DFILE_FILE_HEADER_FRAME; headerFlags fl 0] ++ ids ++ be_bytes 2 (2 + len us) ++
  be_bytes 2 (of_num o) ++ us.

Lemma len_headerWire fl ids us : len ids = 4 -> len (headerWire fl ids us) = 10 + len us.
Proof. intros H. unfold headerWire. rewrite !len_app, !len_be_bytes, H, !len_cons, len_nil. lia. Qed.

Lemma headerFlags_byte fl : be_bytes 1 (headerFlags fl 0) = [headerFlags fl 0].
Proof.
  unfold headerFlags. destruct (userData fl), (0 <? pathType fl), (noSyncFlag fl); reflexivity.
Qed.

Lemma EncodeFileHeaderFrame_spec fl last t s1 s2 i1 i2 l1 l2 n1 n2 rest length :
  offers fl -> 10 <= length <= 10 + len rest -> length < 2 ^ 16 -> -1 <= last <= of_num o ->
  exists last' rest' us, us = units (unitIds fl last last') /\
    EncodeFileHeaderFrame stat fl last ([t; 0; s1; s2; i1; i2; l1; l2; n1; n2] ++ rest) length =
      Some (headerWire fl [s1; s2; i1; i2] us ++ rest', 10 + len us, last') /\
    last <= last' <= of_num o /\ 10 + len us <= length /\
    (last' < of_num o -> length <= 10 + len us \/
       (pending fl (last' + 1) = true /\ length < 10 + len us + 12 + len (unitName (last' + 1)))).
Proof.
  intros Ho Hl Hl16 Hlast. pose proof (os_range _ Ho) as Hn. unfold NSTACKX_DFILE_MAX_FILE_NUM in Hn.
  unfold EncodeFileHeaderFrame, EncodeFileHeaderFrameSp. offsets.
  rewrite (os_num _ Ho), (wrapU_id 64 (length - _)), (wrapU_id 16 (of_num o)) by range.
  destruct (headerLoop_spec fl (Z.to_nat (of_num o - last) + 1)
    [t; 0; s1; s2; i1; i2; l1; l2; n1; n2] [] rest (length - (2 + 8)) last)
    as (last' & rest' & us & Eus & E & H1 & H2 & H3 & H4); [first [done | lia | lens] ..|].
  cbn [app] in E, H3, H4. change (len []) with 0 in E. cbn [app].
  rewrite E. cbn [mbind option_bind]. pose proof (len_nonneg us).
  exists last', rest', us. split; [done|]. split.
  2: { split_and!; [lia..|]. intros Hlt. destruct (H4 Hlt) as [?|[? ?]]; [left; lia|right].
       split; [done | lia]. }
  change (t :: 0 :: s1 :: s2 :: i1 :: i2 :: l1 :: l2 :: n1 :: n2 :: us ++ rest')
    with ([t; 0; s1; s2; i1; i2; l1; l2; n1; n2] ++ us ++ rest').
  unfold put8, put16, headerWire. rewrite (wrapU_id 16 (len us + 2)) by range.
  change (be_bytes 1 NSTACKX_DFILE_FILE_HEADER_FRAME) with [1].
  eval_puts. unfold get8.
  assert (get ([1; 0; s1; s2; i1; i2; l1; l2; n1; n2] ++ us ++ rest') 1 1 = Some [0]) as ->
    by (by apply (get_app [1] [0])).
  cbn [fmap option_fmap option_map mbind option_bind].
  change (be_val [0]) with 0. rewrite headerFlags_byte.
  destruct (be_bytes2_named (len us + 2)) as (u1 & u2 & Eu & _); [range|].
  destruct (be_bytes2_named (of_num o)) as (m1 & m2 & Em & _); [range|].
  rewrite (Z.add_comm 2 (len us)), Eu, Em. set (hf := headerFlags fl 0). clearbody hf.
  eval_puts. cbn [app].
  replace (8 + (len us + 2)) with (10 + len us) by lia. reflexivity.
Qed.

(** ** What the receiver learns *)

Definition offersUser : bool :=
  (0 <? of_path o) || match of_user o with Some _ => true | None => false end.

Definition received (rf : FileList) (id : Z) : bool :=
  if id =? 0 then has (userDataFlag rf) NSTACKX_FLAGS_FILE_NAME_RECEIVED
  else match entryAt rf id with
       | Some e => has (flags e) NSTACKX_FLAGS_FILE_NAME_RECEIVED
       | None => false
       end.

(** Everything the receiver has is what the sender offers. *)
Record learned (rf : FileList) : Prop := {
  le_wf : recv_wf rf;
  le_num : forall l, fl_list rf = Some l -> num rf = of_num o;
  le_known : forall id e, entryAt rf id = Some e ->
    has (flags e) NSTACKX_FLAGS_FILE_NAME_RECEIVED = true ->
    cstr (fileName e) = Some (of_name o id) /\ fileSize e = of_size o id;
  le_fresh : forall id e, entryAt rf id = Some e ->
    has (flags e) NSTACKX_FLAGS_FILE_NAME_RECEIVED = false -> fileName e = fileName zeroEntry;
  le_user : if received rf 0
    then userData rf = (fun s => s ++ [0]) <$> of_user o /\ pathType rf = of_path o
    else userData rf = None /\ pathType rf = 0;
  le_flag : has (userDataFlag rf) NSTACKX_DFILE_HEADER_FRAME_USER_DATA_FLAG = true ->
    offersUser = true;
  le_tar : tarFlag rf = false
}.

(** [rf'] is what [rf] becomes when exactly the files [ids] arrive. *)
Record learns (ids : list Z) (rf rf' : FileList) : Prop := {
  ls_learned : learned rf';
  ls_list : is_Some (fl_list rf) -> is_Some (fl_list rf');
  ls_received : forall id, received rf' id = received rf id || bool_decide (id ∈ ids);
  ls_flag : has (userDataFlag rf') NSTACKX_DFILE_HEADER_FRAME_USER_DATA_FLAG =
            has (userDataFlag rf) NSTACKX_DFILE_HEADER_FRAME_USER_DATA_FLAG
}.

Lemma learns_nil rf : learned rf -> learns [] rf rf.
Proof. intros. split; try done. intros. by rewrite orb_false_r. Qed.

Lemma learns_app ids1 ids2 a b c : learns ids1 a b -> learns ids2 b c -> learns (ids1 ++ ids2) a c.
Proof.
  intros [A1 A2 A3 A4] [B1 B2 B3 B4]. split; [done | by eauto | | by rewrite B4].
  intros id. rewrite B3, A3, <- orb_assoc. f_equal.
  rewrite <- bool_decide_or. apply bool_decide_ext. by rewrite elem_of_app.
Qed.

(** A unit that had arrived before changes nothing. *)
Lemma learns_known id rf : learned rf -> received rf id = true -> learns [id] rf rf.
Proof.
  intros H Hr. split; try done. intros id'.
  destruct (decide (id' = id)) as [->|]; [by rewrite Hr|].
  rewrite bool_decide_false by set_solver. by rewrite orb_false_r.
Qed.

Lemma native_val_bytes x : is_u 16 x -> native_val big (native_bytes big x) = x.
Proof.
  intros. unfold native_val, native_bytes.
  destruct big; rewrite ?rev_involutive; by apply be_val_bytes_id.
Qed.

Lemma copied_zero nm z n : n = len nm -> n < 1024 -> Forall (fun b => b <> 0) nm ->
  cstr (copied (fileName zeroEntry) (nm ++ z) n) = Some nm.
Proof.
  intros -> Hl Hnz. unfold copied. unfold len in *. rewrite Nat2Z.id, take_app_length.
  cbn [fileName zeroEntry]. rewrite drop_replicate.
  change (Z.to_nat NSTACKX_MAX_REMOTE_PATH_LEN) with 1024%nat.
  replace (1024 - length nm)%nat with (S (1023 - length nm)) by lia. by apply cstr_terminated.
Qed.

Lemma received_entry rf l id e : 1 <= id -> fl_list rf = Some l -> l !! Z.to_nat (id - 1) = Some e ->
  received rf id = has (flags e) NSTACKX_FLAGS_FILE_NAME_RECEIVED.
Proof.
  intros Hid El He. unfold received. rewrite (proj2 (Z.eqb_neq id 0)) by lia.
  by rewrite (entryAt_list _ l), He.
Qed.

(** The unit of a file arrives. *)
Lemma addFile_learns rf id z : learned rf -> is_Some (fl_list rf) -> 1 <= id <= of_num o ->
  1 <= len (of_name o id) < NSTACKX_MAX_REMOTE_PATH_LEN ->
  Forall (fun b => b <> 0) (of_name o id) -> 0 <= of_size o id <= NSTACKX_MAX_FILE_SIZE ->
  exists rf', FileListAddFile rf id (of_name o id ++ z) (len (of_name o id)) (of_size o id) =
    Some (NSTACKX_EOK, rf') /\ learns [id] rf rf'.
Proof.
  intros Hle [l El] Hid Hnm Hnz Hsz. pose proof (le_wf _ Hle) as [Hw Hr].
  pose proof (le_num _ Hle l El) as Hn.
  destruct (wf_entry_at rf id Hw) as (l' & e & El' & He & Hwe); [lia|]. simplify_eq.
  rewrite (FileListAddFile_exact rf l id e);
    [| done | done | lia | done | lia | rewrite len_app; pose proof (len_nonneg z); lia | lia].
  destruct (has (flags e) _) eqn:Hf.
  { exists rf. split; [done|]. apply learns_known; [done|]. by rewrite (received_entry rf l id e) by (done || lia). }
  eexists. split; [done|].
  destruct (FileListAddFile_spec rf id (of_name o id ++ z) (len (of_name o id)) (of_size o id))
    as (r & rf' & E & Hrw' & _); [done | lia | lia | rewrite len_app; pose proof (len_nonneg z); lia |].
  rewrite (FileListAddFile_exact rf l id e) in E;
    [| done | done | lia | done | lia | rewrite len_app; pose proof (len_nonneg z); lia | lia].
  rewrite Hf in E. injection E as _ <-.
  set (e' := addedEntry _ _ _ _) in *.
  assert (has (flags e') NSTACKX_FLAGS_FILE_NAME_RECEIVED = true) as Hf'.
  { unfold e', addedEntry. cbn. destruct (_ =? 0); [apply has_lor_l|]; by apply has_lor_r. }
  assert (forall j x, entryAt (set_list (<[Z.to_nat (id - 1):=e']> l) (num rf) rf) j = Some x ->
    (j = id /\ x = e') \/ (j <> id /\ entryAt rf j = Some x)) as Hat.
  { intros j x Hj. unfold entryAt in *. cbn [fl_list set_list] in Hj. rewrite El.
    cbn [mbind option_bind] in *. destruct (Z.leb_spec j 0); [done|].
    destruct (decide (j = id)) as [->|].
    - rewrite list_lookup_insert_eq in Hj by (by eapply lookup_lt_Some). left. by simplify_eq.
    - rewrite list_lookup_insert_ne in Hj by lia. by right. }
  split; [split|..].
  - done.
  - cbn. intros. done.
  - intros j x Hj Hx. destruct (Hat j x Hj) as [[-> ->]|[_ Hj']].
    + split; [|done]. unfold e', addedEntry. cbn [fileName].
      rewrite (le_fresh _ Hle id e) by (done || (rewrite (entryAt_list _ l) by (done || lia); done)).
      by apply copied_zero; [| unfold NSTACKX_MAX_REMOTE_PATH_LEN in *; lia |].
    + by apply (le_known _ Hle).
  - intros j x Hj Hx. destruct (Hat j x Hj) as [[-> ->]|[_ Hj']]; [congruence|].
    by apply (le_fresh _ Hle j).
  - apply (le_user _ Hle).
  - apply (le_flag _ Hle).
  - apply (le_tar _ Hle).
  - cbn. intros. by eexists.
  - intros j. unfold received. destruct (Z.eqb_spec j 0) as [->|].
    { rewrite (bool_decide_false (0 ∈ [id])) by (rewrite list_elem_of_singleton; lia).
      by rewrite orb_false_r. }
    destruct (decide (j = id)) as [->|Hne].
    + rewrite (bool_decide_true (id ∈ [id])) by set_solver. rewrite orb_true_r.
      rewrite (entryAt_list _ (<[Z.to_nat (id - 1):=e']> l)) by (done || lia).
      by rewrite list_lookup_insert_eq by (by eapply lookup_lt_Some).
    + rewrite (bool_decide_false (j ∈ [id])) by set_solver. rewrite orb_false_r.
      unfold entryAt. cbn [fl_list set_list]. rewrite El. cbn [mbind option_bind].
      destruct (Z.leb_spec j 0); [done|]. by rewrite list_lookup_insert_ne by lia.
  - done.
Qed.

(** The list after the user data [u] and the path type [p] were stored. *)
Lemma storeUser_learns rf :
  learned rf -> received rf 0 = false ->
  learns [0] rf
    (set_userDataFlag (Z.lor (userDataFlag rf) NSTACKX_FLAGS_FILE_NAME_RECEIVED)
      (set_userData ((fun s => s ++ [0]) <$> of_user o) (of_path o) rf)).
Proof.
  intros Hle Hr. set (rf' := set_userDataFlag _ _).
  assert (received rf' 0 = true) as Hr' by (by apply has_lor_r).
  assert (has (userDataFlag rf') NSTACKX_DFILE_HEADER_FRAME_USER_DATA_FLAG =
          has (userDataFlag rf) NSTACKX_DFILE_HEADER_FRAME_USER_DATA_FLAG) as Hf
    by (by apply has_lor_other).
  split; [split| | |done].
  - by apply (recv_wf_same_list rf), Hle.
  - apply (le_num _ Hle).
  - apply (le_known _ Hle).
  - apply (le_fresh _ Hle).
  - rewrite Hr'. done.
  - rewrite Hf. apply (le_flag _ Hle).
  - apply (le_tar _ Hle).
  - done.
  - intros j. destruct (Z.eqb_spec j 0) as [->|Hj].
    + rewrite Hr', bool_decide_true by set_solver. by rewrite orb_true_r.
    + rewrite bool_decide_false by (rewrite list_elem_of_singleton; lia). rewrite orb_false_r.
      unfold received. by rewrite (proj2 (Z.eqb_neq j 0)) by lia.
Qed.

Lemma headerFlags_bits fl : offers fl ->
  has (headerFlags fl 0) NSTACKX_DFILE_HEADER_FRAME_USER_DATA_FLAG =
    (match of_user o with Some _ => true | None => false end) /\
  has (headerFlags fl 0) NSTACKX_DFILE_HEADER_FRAME_PATH_TYPE_FLAG = (0 <? of_path o).
Proof.
  intros Ho. pose proof (os_user _ Ho) as Hu. destruct (os_path _ Ho) as [Hp _].
  unfold headerFlags. rewrite Hp.
  destruct (userData fl), (of_user o); try done; destruct (0 <? of_path o), (noSyncFlag fl); done.
Qed.

(** The unit of the user data arrives. *)
Lemma addUser_learns fl rf z : offers fl -> learned rf -> offersUser = true ->
  exists rf', FileListAddUserData big true rf (unitName 0 ++ z) (len (unitName 0)) (headerFlags fl 0) =
    Some (NSTACKX_EOK, rf') /\ learns [0] rf rf'.
Proof.
  intros Ho Hle Hou. unfold FileListAddUserData.
  destruct (has (userDataFlag rf) _) eqn:Hr; [exists rf; split; [done | by apply learns_known]|].
  pose proof (storeUser_learns rf Hle Hr) as Hst. pose proof (le_user _ Hle) as Hu.
  change (received rf 0) with (has (userDataFlag rf) NSTACKX_FLAGS_FILE_NAME_RECEIVED) in Hu.
  rewrite Hr in Hu. destruct Hu as [Hu0 Hp0]. eexists. split; [|exact Hst].
  destruct (headerFlags_bits fl Ho) as [-> ->]. pose proof (os_userlen _ Ho) as Hul.
  destruct (os_path _ Ho) as [_ Hp16]. pose proof (os_nonempty _ Ho) as Hne.
  pose proof unitName_0_len as Hlen. unfold offersUser, unitName in *. cbn [Z.eqb] in *.
  destruct (Z.ltb_spec 0 (of_path o)) as [Hpos|Hpos].
  - unfold ParsePackedDFileUserData. pose proof (len_nonneg (default [] (of_user o))).
    rewrite Hlen, (proj2 (Z.ltb_ge _ 2)) by lia.
    rewrite <- app_assoc, get_prefix by (by rewrite native_bytes_len). cbn [mbind option_bind].
    rewrite native_val_bytes, (proj2 (Z.eqb_neq (of_path o) 0)) by (done || lia).
    destruct (headerFlags_bits fl Ho) as [-> _].
    destruct (of_user o) as [s|] eqn:Es; cbn [negb mbind option_bind]; [|by rewrite Hu0].
    unfold default, from_option, Datatypes.id in *.
    assert (0 < len s) by (destruct s; [done|]; rewrite len_cons; pose proof (len_nonneg s); lia).
    replace (2 + len s - 2) with (len s) by lia. rewrite wrapU_id, (proj2 (Z.ltb_lt 0 (len s))) by range.
    assert (drop 2 (native_bytes big (of_path o) ++ s ++ z) = s ++ z) as ->.
    { pose proof (native_bytes_len (of_path o)) as E2.
      assert (2%nat = length (native_bytes big (of_path o))) as -> by (unfold len in E2; lia).
      apply drop_app_length. }
    rewrite callocCopy_spec by (rewrite len_app; pose proof (len_nonneg z); lia).
    cbn [mbind option_bind fmap option_fmap option_map]. unfold len.
    by rewrite Nat2Z.id, take_app_length.
  - destruct (of_user o) as [s|] eqn:Es; [|done]. cbn [negb app] in *.
    unfold default, from_option, Datatypes.id in *.
    assert (0 < len s) by (destruct s; [done|]; rewrite len_cons; pose proof (len_nonneg s); lia).
    rewrite (proj2 (Z.eqb_neq (len s) 0)) by lia. cbn [negb].
    rewrite callocCopy_spec by (rewrite len_app; pose proof (len_nonneg z); lia).
    cbn [mbind option_bind fmap option_fmap option_map]. unfold len.
    rewrite Nat2Z.id, take_app_length. unfold is_u in Hp16. replace (of_path o) with 0 by lia.
    by rewrite Hp0.
Qed.

Lemma offersUser_spec fl : offers fl -> noUserData fl = negb offersUser.
Proof.
  intros Ho. unfold noUserData, offersUser. pose proof (os_user _ Ho) as Hu.
  pose proof (os_packed _ Ho) as Hp. destruct (0 <? of_path o); cbn [orb negb].
  - destruct Hp as [-> _]. by destruct (userData fl).
  - rewrite Hp. by destruct (userData fl), (of_user o).
Qed.

Definition sendable_id (id : Z) : Prop := 0 <= id <= of_num o /\ (id = 0 -> offersUser = true).

(** One unit arrives. *)
Lemma addUnit_learns fl rf id z : offers fl -> learned rf -> is_Some (fl_list rf) -> sendable_id id ->
  exists rf',
    (if id =? 0
     then FileListAddUserData big true rf (unitName id ++ z) (len (unitName id)) (headerFlags fl 0)
     else FileListAddFile rf id (unitName id ++ z) (len (unitName id)) (unitSize id)) =
    Some (NSTACKX_EOK, rf') /\ learns [id] rf rf'.
Proof.
  intros Ho Hle Hl [Hid Hu]. destruct (Z.eqb_spec id 0) as [->|Hne].
  - apply (addUser_learns fl); [done..|]. by apply Hu.
  - unfold unitName, unitSize. rewrite (proj2 (Z.eqb_neq id 0)) by done.
    destruct (os_name _ Ho id) as [Hn Hnz]; [lia|].
    apply addFile_learns; try done; [lia | apply (os_size _ Ho); lia].
Qed.

(** The fields of a unit in a frame. *)
Lemma unit_fields pre dn id z : len pre = 10 -> is_u 16 id -> is_u 64 (unitSize id) ->
  is_u 16 (len (unitName id)) ->
  let frame := pre ++ dn ++ unitBytes id ++ z in
  get16 frame (10 + len dn + 10) = Some (len (unitName id)) /\
  get16 frame (10 + len dn + 0) = Some id /\
  get64 frame (10 + len dn + 2) = Some (unitSize id) /\
  drop (Z.to_nat (10 + len dn + 12)) frame = unitName id ++ z.
Proof.
  intros Hpre Hid Hsz Hnm frame. pose proof (len_nonneg dn). unfold frame, unitBytes. split_and!.
  - replace (pre ++ dn ++ _) with ((pre ++ dn ++ be_bytes 2 id ++ be_bytes 8 (unitSize id)) ++
      be_bytes 2 (len (unitName id)) ++ unitName id ++ z) by (by rewrite <- !app_assoc).
    apply get16_app; [lens | done].
  - replace (pre ++ dn ++ _) with ((pre ++ dn) ++ be_bytes 2 id ++ be_bytes 8 (unitSize id) ++
      be_bytes 2 (len (unitName id)) ++ unitName id ++ z) by (by rewrite <- !app_assoc).
    apply get16_app; [lens | done].
  - replace (pre ++ dn ++ _) with ((pre ++ dn ++ be_bytes 2 id) ++ be_bytes 8 (unitSize id) ++
      be_bytes 2 (len (unitName id)) ++ unitName id ++ z) by (by rewrite <- !app_assoc).
    apply get64_app; [lens | done].
  - replace (pre ++ dn ++ _) with ((pre ++ dn ++ be_bytes 2 id ++ be_bytes 8 (unitSize id) ++
      be_bytes 2 (len (unitName id))) ++ unitName id ++ z) by (by rewrite <- !app_assoc).
    apply drop_app_length'. apply Nat2Z.inj. rewrite Z2Nat.id by lia.
    fold (len (pre ++ dn ++ be_bytes 2 id ++ be_bytes 8 (unitSize id) ++ be_bytes 2 (len (unitName id)))).
    lens.
Qed.

Lemma unitLoop_learns fl fuel ids pre dn rf : offers fl -> learned rf -> is_Some (fl_list rf) ->
  Forall sendable_id ids -> len pre = 10 -> (length ids < fuel)%nat ->
  exists rf', unitLoop big true fuel (pre ++ dn ++ units ids) (headerFlags fl 0)
      (len (dn ++ units ids)) (len dn) rf = Some (NSTACKX_EOK, rf') /\ learns ids rf rf'.
Proof.
  intros Ho. revert ids dn rf. induction fuel as [|fuel IH]; intros ids dn rf Hle Hl Hids Hpre Hf; [lia|].
  cbn [unitLoop]. destruct ids as [|id ids].
  { exists rf. split; [|by apply learns_nil]. rewrite app_nil_r, Z.ltb_irrefl. done. }
  apply Forall_cons in Hids as [Hid Hids]. pose proof (os_range _ Ho) as Hn.
  destruct (offers_info fl id Ho) as (p & _ & _ & Hnm & Hsz); [apply Hid | |].
  { intros ->. rewrite (offersUser_spec fl Ho). destruct Hid as [_ Hid]. by rewrite Hid. }
  rewrite units_cons. pose proof (len_nonneg (units ids)).
  rewrite !len_app, len_unitBytes. rewrite (proj2 (Z.ltb_lt _ _)) by lia. cbn [negb]. offsets.
  rewrite (proj2 (Z.leb_gt _ _)) by lia.
  destruct (unit_fields pre dn id (units ids)) as (-> & -> & -> & ->);
    [done | destruct Hid; unfold NSTACKX_DFILE_MAX_FILE_NUM in *; range | done | range |].
  cbn [mbind option_bind]. destruct (headerFlags_bits fl Ho) as [Hb1 Hb2].
  assert ((id =? 0) && negb (has (headerFlags fl 0) NSTACKX_DFILE_HEADER_FRAME_USER_DATA_FLAG) &&
    negb (has (headerFlags fl 0) NSTACKX_DFILE_HEADER_FRAME_PATH_TYPE_FLAG) = false) as ->.
  { rewrite Hb1, Hb2. destruct (Z.eqb_spec id 0) as [->|]; [|done]. destruct Hid as [_ Hid].
    specialize (Hid eq_refl). unfold offersUser in Hid.
    by destruct (of_user o), (0 <? of_path o). }
  rewrite (proj2 (Z.eqb_neq (len (unitName id)) 0)), andb_false_r, (proj2 (Z.ltb_ge _ _)) by lia.
  cbn [orb]. destruct (addUnit_learns fl rf id (units ids) Ho Hle Hl Hid) as (rf1 & -> & L1).
  cbn [mbind option_bind]. change (NSTACKX_EOK =? NSTACKX_EOK) with true. cbn [negb].
  destruct (IH ids (dn ++ unitBytes id) rf1) as (rf2 & E2 & L2);
    [by apply L1 | by apply L1 | done | done | simpl in Hf; lia |].
  exists rf2. split; [|by apply (learns_app [id] ids rf rf1)].
  rewrite <- E2. rewrite !len_app, len_unitBytes, <- !app_assoc. f_equal; lia.
Qed.

(** The receiver allocates its entries at the first header frame. *)
Lemma setNum_learns rf : learned rf -> 1 <= of_num o <= NSTACKX_DFILE_MAX_FILE_NUM ->
  exists rf1, FileListSetNum true rf (of_num o) = (NSTACKX_EOK, rf1) /\ learns [] rf rf1 /\
    is_Some (fl_list rf1).
Proof.
  intros Hle Hn. destruct (FileListSetNum_spec true rf (of_num o) (le_wf _ Hle)) as (r & rf1 & E & Hw1 & _);
    [lia|]. unfold FileListSetNum in *.
  rewrite (proj2 (Z.eqb_neq _ _)), (proj2 (Z.ltb_ge _ _)) in * by lia. cbn [orb] in *.
  destruct (fl_list rf) as [l|] eqn:El.
  { exists rf. split_and!; [done | by apply learns_nil | by eexists]. }
  injection E as <- <-. eexists. split_and!; [done | | by eexists].
  set (rf1 := set_list _ _ rf) in *.
  assert (forall id e, entryAt rf1 id = Some e -> e = zeroEntry) as Hz.
  { intros id e He. unfold entryAt in He. cbn [fl_list rf1 set_list mbind option_bind] in He.
    destruct (id <=? 0); [done|]. by apply lookup_replicate_1 in He as [-> _]. }
  split; [split| | |done].
  - done.
  - done.
  - intros id e He Hr. by apply Hz in He as ->.
  - intros id e He Hr. by apply Hz in He as ->.
  - apply (le_user _ Hle).
  - apply (le_flag _ Hle).
  - apply (le_tar _ Hle).
  - intros []. congruence.
  - intros id. rewrite (bool_decide_false (id ∈ [])), orb_false_r by set_solver.
    unfold received. destruct (id =? 0); [done|].
    assert (entryAt rf id = None) as -> by (unfold entryAt; by rewrite El).
    destruct (entryAt rf1 id) as [e|] eqn:He; [|done]. by apply Hz in He as ->.
Qed.

(** The flags of the header. *)
Lemma setFlags_learned rf (b ns : bool) : learned rf -> (b = true -> offersUser = true) ->
  let rf1 := if b then set_userDataFlag
    (Z.lor (userDataFlag rf) NSTACKX_DFILE_HEADER_FRAME_USER_DATA_FLAG) rf else rf in
  let rf2 := if ns then set_noSync true rf1 else rf1 in
  learned rf2 /\ fl_list rf2 = fl_list rf /\ (forall id, received rf2 id = received rf id) /\
  has (userDataFlag rf2) NSTACKX_DFILE_HEADER_FRAME_USER_DATA_FLAG =
    has (userDataFlag rf) NSTACKX_DFILE_HEADER_FRAME_USER_DATA_FLAG || b.
Proof.
  intros Hle Hb rf1 rf2.
  assert (fl_list rf2 = fl_list rf /\ num rf2 = num rf /\ userData rf2 = userData rf /\
    pathType rf2 = pathType rf /\ tarFlag rf2 = tarFlag rf /\
    userDataFlag rf2 = (if b then Z.lor (userDataFlag rf) NSTACKX_DFILE_HEADER_FRAME_USER_DATA_FLAG
                        else userDataFlag rf)) as (E1 & E2 & E3 & E4 & E5 & E6)
    by (unfold rf2, rf1; by destruct b, ns).
  assert (forall id, entryAt rf2 id = entryAt rf id) as Ee by (intros; unfold entryAt; by rewrite E1).
  assert (forall id, received rf2 id = received rf id) as Er.
  { intros id. unfold received. rewrite Ee, E6. destruct (id =? 0); [|done].
    destruct b; [by apply has_lor_other | done]. }
  assert (has (userDataFlag rf2) NSTACKX_DFILE_HEADER_FRAME_USER_DATA_FLAG =
    has (userDataFlag rf) NSTACKX_DFILE_HEADER_FRAME_USER_DATA_FLAG || b) as Ef.
  { rewrite E6. destruct b; [by rewrite orb_true_r; apply has_lor_r | by rewrite orb_false_r]. }
  split_and!; [split | done..].
  - by apply (recv_wf_same_list rf), Hle.
  - intros l. rewrite E1, E2. apply (le_num _ Hle).
  - intros id e. rewrite Ee. apply (le_known _ Hle).
  - intros id e. rewrite Ee. apply (le_fresh _ Hle).
  - rewrite Er, E3, E4. apply (le_user _ Hle).
  - rewrite Ef. intros [H|H]%orb_true_iff; [by apply (le_flag _ Hle) | by apply Hb].
  - rewrite E5. apply (le_tar _ Hle).
Qed.

(** The state of the receiver after a header frame with the files [ids]. *)
Record header_learned (ids : list Z) (rf rf' : FileList) : Prop := {
  hl_learned : learned rf';
  hl_list : is_Some (fl_list rf');
  hl_received : forall id, received rf' id = received rf id || bool_decide (id ∈ ids);
  hl_flag : has (userDataFlag rf') NSTACKX_DFILE_HEADER_FRAME_USER_DATA_FLAG =
    has (userDataFlag rf) NSTACKX_DFILE_HEADER_FRAME_USER_DATA_FLAG || offersUser
}.

Lemma length_units ids : (length ids <= length (units ids))%nat.
Proof.
  induction ids as [|id ids IH]; [done|]. rewrite units_cons, length_app. cbn [length].
  pose proof (len_unitBytes id). pose proof (len_nonneg (unitName id)). unfold len in *. lia.
Qed.

Lemma header_decode fl rf mid ids : offers fl -> learned rf -> len mid = 4 -> ids <> [] ->
  Forall sendable_id ids -> 2 + len (units ids) < 2 ^ 16 ->
  exists rf', DecodeFileHeaderFrame big true true rf (headerWire fl mid (units ids)) =
    Some (NSTACKX_EOK, rf') /\ header_learned ids rf rf'.
Proof.
  intros Ho Hle Hmid Hne Hids Hlen. pose proof (os_range _ Ho) as Hn.
  set (us := units ids) in *. pose proof (length_units ids) as Hlu. fold us in Hlu.
  assert (0 < len us) as Hpos.
  { assert (length ids <> 0%nat) by (by destruct ids). unfold len. lia. }
  unfold DecodeFileHeaderFrame, DecodeFileHeaderFrameSp. offsets.
  set (frame := headerWire fl mid us).
  assert (get16 frame 6 = Some (2 + len us)) as ->.
  { unfold frame, headerWire. rewrite app_assoc. apply get16_app; [rewrite len_app, Hmid; done | range]. }
  assert (get16 frame 8 = Some (of_num o)) as ->.
  { unfold frame, headerWire. rewrite !app_assoc, <- (app_assoc _ (be_bytes 2 (of_num o)) us).
    apply get16_app; [rewrite !len_app, Hmid, len_be_bytes; done | unfold NSTACKX_DFILE_MAX_FILE_NUM in *; range]. }
  assert (get8 frame 1 = Some (headerFlags fl 0)) as ->.
  { unfold get8. assert (get frame 1 1 = Some [headerFlags fl 0]) as ->; [|done].
    by apply (get_app [NSTACKX_DFILE_FILE_HEADER_FRAME] [headerFlags fl 0]). }
  cbn [mbind option_bind]. rewrite (proj2 (Z.leb_gt _ _)) by lia.
  replace (u16 (2 + len us - 2)) with (len us) by (rewrite wrapU_id; range).
  destruct (setNum_learns rf Hle Hn) as (rf1 & -> & [L1 _ R1 F1] & S1).
  change (NSTACKX_EOK =? NSTACKX_EOK) with true. cbn [negb mbind option_bind].
  destruct (headerFlags_bits fl Ho) as [-> ->].
  set (b := _ || _). assert (b = offersUser) as Eb by (unfold b, offersUser; apply orb_comm).
  destruct (setFlags_learned rf1 b (has (headerFlags fl 0) NSTACKX_DFILE_HEADER_FRAME_NO_SYNC_FLAG) L1)
    as (L2 & E2 & R2 & F2); [congruence|].
  set (rf2 := if has _ _ then _ else _) in *.
  destruct (unitLoop_learns fl (Z.to_nat (len us) + 1) ids
    ([NSTACKX_DFILE_FILE_HEADER_FRAME; headerFlags fl 0] ++ mid ++ be_bytes 2 (2 + len us) ++
     be_bytes 2 (of_num o)) [] rf2) as (rf3 & E3 & [L3 S3 R3 F3]);
    [done | done | by rewrite E2 | done | rewrite !len_app, Hmid, !len_be_bytes; done
    | unfold len; lia |].
  cbn [app] in E3. fold us in E3. exists rf3. split.
  { rewrite <- E3. unfold frame, headerWire. cbn [app]. by rewrite <- !app_assoc. }
  split; [done | apply S3; by rewrite E2 | | by rewrite F3, F2, F1, Eb].
  intros id. by rewrite R3, R2, R1, (bool_decide_false (id ∈ [])), orb_false_r by set_solver.
Qed.

(** ** Sending all headers *)

(** The receiver handles frames one after the other. *)
Fixpoint deliver (rf : FileList) (frames : list bytes) : option FileList :=
  match frames with
  | [] => Some rf
  | f :: fs => '(_, rf') ← DecodeFileHeaderFrame big true true rf f; deliver rf' fs
  end.

(** The frame one round of [SendFileHeader] sends. *)
Definition headerFrame (fl : FileList) (transId last last' : Z) : bytes :=
  headerWire fl ([0; 0] ++ be_bytes 2 transId) (units (unitIds fl last last')).

Lemma unitIds_sendable fl last last' : offers fl -> -1 <= last -> last' <= of_num o ->
  Forall sendable_id (unitIds fl last last').
Proof.
  intros Ho H1 H2. apply Forall_forall. intros id Hid. unfold unitIds in Hid.
  apply list_elem_of_filter in Hid as [Hp Hid]. apply elem_of_seqZ in Hid.
  split; [lia|]. intros ->. unfold pending in Hp.
  destruct (FileListGetFileNameAcked fl 0) as [a|]; [|done].
  rewrite (offersUser_spec fl Ho) in Hp. cbn [Z.eqb andb] in Hp.
  by destruct a, offersUser.
Qed.

(** A frame from the sender is understood whenever it arrives, whatever the
    receiver has seen before. *)
Lemma headerFrame_decode fl rf transId last last' :
  offers fl -> learned rf -> -1 <= last -> last' <= of_num o ->
  2 + len (units (unitIds fl last last')) < 2 ^ 16 ->
  exists r rf', DecodeFileHeaderFrame big true true rf (headerFrame fl transId last last') = Some (r, rf') /\
    learned rf' /\
    (forall id, received rf' id = received rf id || bool_decide (id ∈ unitIds fl last last')) /\
    has (userDataFlag rf') NSTACKX_DFILE_HEADER_FRAME_USER_DATA_FLAG =
      (has (userDataFlag rf) NSTACKX_DFILE_HEADER_FRAME_USER_DATA_FLAG
       || (offersUser && bool_decide (unitIds fl last last' <> []))) /\
    (is_Some (fl_list rf) \/ unitIds fl last last' <> [] -> is_Some (fl_list rf')).
Proof.
  intros Ho Hle H1 H2 Hlen. unfold headerFrame.
  pose proof (unitIds_sendable fl last last' Ho H1 H2) as Hs.
  destruct (unitIds fl last last') as [|i ids] eqn:Ei.
  - exists NSTACKX_EFAILED, rf. split.
    { unfold DecodeFileHeaderFrame, DecodeFileHeaderFrameSp. offsets.
      assert (get16 (headerWire fl ([0; 0] ++ be_bytes 2 transId) (units [])) 6 = Some 2) as ->; [|done].
      unfold headerWire. rewrite app_assoc. by apply get16_app. }
    split_and!; [done | | | by intros [?|?]].
    + intros id. by rewrite (bool_decide_false (id ∈ [])), orb_false_r by set_solver.
    + by rewrite bool_decide_false, andb_false_r, orb_false_r by (by intros []).
  - destruct (header_decode fl rf ([0; 0] ++ be_bytes 2 transId) (i :: ids))
      as (rf' & E & [L S R F]); [done..|].
    exists NSTACKX_EOK, rf'. split_and!; try done.
    by rewrite bool_decide_true, andb_true_r by done.
Qed.

(** Every unit fits into one frame of [mtu] bytes. *)
Definition units_fit (fl : FileList) (mtu : Z) : Prop :=
  22 <= mtu <= NSTACKX_MAX_FRAME_SIZE /\
  forall id, 0 <= id <= of_num o -> pending fl id = true -> 22 + len (unitName id) <= mtu.

Lemma sendRound fl transId mtu last : offers fl -> units_fit fl mtu -> -1 <= last <= of_num o ->
  exists last' b,
    (last' = of_num o \/ last < last' < of_num o) /\ last <= last' /\
    2 + len (units (unitIds fl last last')) < 2 ^ 16 /\
    EncodeFileHeaderFrame stat fl last (replicate (Z.to_nat NSTACKX_MAX_FRAME_SIZE) 0) mtu =
      Some (b, 10 + len (units (unitIds fl last last')), last') /\
    (b' ← put16 b off_transId transId; get b' 0 (10 + len (units (unitIds fl last last')))) =
      Some (headerFrame fl transId last last').
Proof.
  intros Ho [Hm Hfit] Hlast. unfold NSTACKX_MAX_FRAME_SIZE in *.
  change (Z.to_nat 14720) with (10 + Z.to_nat 14710)%nat.
  rewrite replicate_add. cbn [replicate].
  destruct (EncodeFileHeaderFrame_spec fl last 0 0 0 0 0 0 0 0 0 (replicate (Z.to_nat 14710) 0) mtu)
    as (last' & rest' & us & -> & E & H1 & H2 & H3); [done | lens | lia | lia |].
  rewrite E. set (us := units (unitIds fl last last')) in *.
  exists last', (headerWire fl [0; 0; 0; 0] us ++ rest'). split_and!; try lia.
  - destruct (decide (last' = of_num o)); [by left|right]. split; [|lia].
    destruct (decide (last' = last)) as [->|]; [|lia]. exfalso. specialize (H3 ltac:(lia)).
    unfold us in H3. rewrite unitIds_refl in H3. change (len (units [])) with 0 in H3.
    destruct H3 as [?|[Hp ?]]; [lia|]. specialize (Hfit (last + 1) ltac:(lia) Hp). lia.
  - fold us. lia.
  - done.
  - unfold put16, off_transId, headerWire, headerFrame. fold us.
    destruct (be_bytes2_named (2 + len us)) as (u1 & u2 & Eu & _); [pose proof (len_nonneg us); range|].
    pose proof (os_range _ Ho) as Hn. unfold NSTACKX_DFILE_MAX_FILE_NUM in Hn.
    unfold headerWire. rewrite Eu. set (hf := headerFlags fl 0). clearbody hf.
    replace (([NSTACKX_DFILE_FILE_HEADER_FRAME; hf] ++ [0; 0; 0; 0] ++ [u1; u2] ++
      be_bytes 2 (of_num o) ++ us) ++ rest')
      with ([1; hf; 0; 0] ++ [0; 0] ++ [u1; u2] ++ be_bytes 2 (of_num o) ++ us ++ rest')
      by (cbn [app]; by rewrite <- !app_assoc).
    rewrite put_at by done. cbn [mbind option_bind].
    replace ([1; hf; 0; 0] ++ be_bytes 2 transId ++ [u1; u2] ++ be_bytes 2 (of_num o) ++ us ++ rest')
      with (([NSTACKX_DFILE_FILE_HEADER_FRAME; hf] ++ ([0; 0] ++ be_bytes 2 transId) ++ [u1; u2] ++
             be_bytes 2 (of_num o) ++ us) ++ rest') by (cbn [app]; by rewrite <- !app_assoc).
    apply get_prefix. lens.
Qed.

Lemma unitIds_split fl a b c : a <= b <= c -> unitIds fl a c = unitIds fl a b ++ unitIds fl b c.
Proof.
  intros. unfold unitIds. rewrite <- filter_app. f_equal.
  replace (c - a) with ((b - a) + (c - b)) by lia. rewrite seqZ_app by lia.
  do 2 f_equal. lia.
Qed.

(** A frame that [SendFileHeader] may send. *)
Definition isHeaderFrame (fl : FileList) (transId : Z) (f : bytes) : Prop :=
  exists a b, f = headerFrame fl transId a b /\ -1 <= a /\ b <= of_num o /\
    2 + len (units (unitIds fl a b)) < 2 ^ 16.

Lemma SendFileHeader_spec fl transId mtu k last rf : offers fl -> units_fit fl mtu ->
  -1 <= last <= of_num o -> (Z.to_nat (of_num o - last) < k)%nat -> learned rf ->
  exists frames rf',
    SendFileHeader stat (replicate k true) transId fl mtu last = Some (frames, of_num o, true) /\
    Forall (isHeaderFrame fl transId) frames /\
    deliver rf frames = Some rf' /\ learned rf' /\
    (forall id, received rf' id = received rf id || bool_decide (id ∈ unitIds fl last (of_num o))) /\
    (is_Some (fl_list rf) \/ unitIds fl last (of_num o) <> [] -> is_Some (fl_list rf')).
Proof.
  intros Ho Hfit. revert last rf. induction k as [|k IH]; intros last rf Hlast Hk Hle; [lia|].
  cbn [replicate SendFileHeader].
  destruct (sendRound fl transId mtu last Ho Hfit Hlast) as (last' & b & Hl' & Hge & Hlen & -> & E).
  cbn [mbind option_bind]. apply bind_Some in E as (b' & -> & E). cbn [mbind option_bind].
  rewrite E. cbn [mbind option_bind negb]. rewrite (os_num _ Ho).
  destruct (headerFrame_decode fl rf transId last last' Ho Hle) as (r & rf1 & D & L1 & R1 & _ & S1);
    [lia..|]. assert (isHeaderFrame fl transId (headerFrame fl transId last last')) as Hh
    by (exists last, last'; split_and!; [done | lia | lia | done]).
  destruct (Z.eqb_spec last' (of_num o)) as [->|Hne].
  - exists [headerFrame fl transId last (of_num o)], rf1. cbn [deliver]. rewrite D.
    split_and!; try done. by constructor.
  - destruct (IH last' rf1) as (frames & rf2 & -> & HF & D2 & L2 & R2 & S2); [lia | lia | done |].
    exists (headerFrame fl transId last last' :: frames), rf2. cbn [deliver]. rewrite D.
    cbn [mbind option_bind]. rewrite (unitIds_split fl last last') by lia.
    split_and!; [done | by constructor | done | done | |].
    + intros id. rewrite R2, R1, <- orb_assoc. f_equal. rewrite <- bool_decide_or.
      apply bool_decide_ext. by rewrite elem_of_app.
    + intros H. apply S2. destruct (unitIds fl last last'); [|left; apply S1; right; done].
      cbn [app] in H. destruct H as [H|H]; [left; apply S1; by left | by right].
Qed.

(** What every receiver that has learned nothing wrong makes of a frame. *)
Definition understood (f : bytes) (ids : list Z) : Prop := forall rf, learned rf ->
  exists r rf', DecodeFileHeaderFrame big true true rf f = Some (r, rf') /\ learned rf' /\
    forall id, received rf' id = received rf id || bool_decide (id ∈ ids).

(** The frames carry the units behind [last], and nothing else. *)
Lemma SendFileHeader_cover fl transId mtu k last frames : offers fl -> units_fit fl mtu ->
  -1 <= last <= of_num o -> (Z.to_nat (of_num o - last) < k)%nat ->
  SendFileHeader stat (replicate k true) transId fl mtu last = Some (frames, of_num o, true) ->
  Forall (fun f => exists ids, understood f ids /\ ids ⊆ unitIds fl last (of_num o)) frames /\
  forall id, id ∈ unitIds fl last (of_num o) -> exists f ids, f ∈ frames /\ understood f ids /\ id ∈ ids.
Proof.
  intros Ho Hfit. revert last frames. induction k as [|k IH]; intros last frames Hlast Hk; [lia|].
  cbn [replicate SendFileHeader].
  destruct (sendRound fl transId mtu last Ho Hfit Hlast) as (last' & b & Hl' & Hge & Hlen & -> & E).
  cbn [mbind option_bind]. apply bind_Some in E as (b' & -> & E). cbn [mbind option_bind].
  rewrite E. cbn [mbind option_bind negb]. rewrite (os_num _ Ho).
  assert (understood (headerFrame fl transId last last') (unitIds fl last last')) as Hu.
  { intros rf Hle. destruct (headerFrame_decode fl rf transId last last' Ho Hle) as (r & rf1 & D & L1 & R1 & _); [lia..|]. by exists r, rf1. }
  destruct (Z.eqb_spec last' (of_num o)) as [->|Hne].
  - intros [= <-]. split; [by repeat constructor; eauto|]. intros id Hid. eexists _, _. split; [by left|done].
  - destruct (SendFileHeader stat (replicate k true) transId fl mtu last') as [[[frames' n] ok]|] eqn:E'; [|done].
    cbn [mbind option_bind]. intros [= <- -> ->]. destruct (IH last' frames') as [H1 H2]; [lia|lia|done|].
    rewrite (unitIds_split fl last last') by lia. split.
    + constructor; [exists (unitIds fl last last'); split; [done|set_solver]|].
      eapply Forall_impl; [exact H1|]. intros f (ids & ? & ?). exists ids. split; [done|set_solver].
    + intros id [Hid|Hid]%elem_of_app.
      * eexists _, _. split; [by left|done].
      * destruct (H2 id Hid) as (f & ids & ? & ? & ?). exists f, ids. split; [by right|done].
Qed.

(** Frames that arrive in any order, some of them again and again. *)
Lemma deliver_any all fs : forall rf, learned rf -> (forall f, f ∈ fs -> exists ids, understood f ids /\ ids ⊆ all) ->
  exists rf', deliver rf fs = Some rf' /\ learned rf' /\ (forall id, received rf id = true -> received rf' id = true) /\
    (forall id, received rf' id = true -> received rf id = true \/ id ∈ all) /\
    (forall f ids id, f ∈ fs -> understood f ids -> id ∈ ids -> received rf' id = true).
Proof.
  induction fs as [|f fs IH]; intros rf Hle Hfs; [exists rf; split_and!; try done; [by left|set_solver]|].
  destruct (Hfs f ltac:(by left)) as (ids & Hu & Hsub). destruct (Hu rf Hle) as (r & rf1 & D & L1 & R1).
  destruct (IH rf1 L1) as (rf2 & D2 & L2 & M2 & O2 & A2); [intros; apply Hfs; by right|].
  exists rf2. cbn [deliver]. rewrite D. cbn [mbind option_bind]. split_and!; [done|done| | |].
  - intros id Hid. apply M2. by rewrite R1, Hid.
  - intros id Hid. destruct (O2 id Hid) as [Hid'|]; [|by right]. rewrite R1 in Hid'. apply orb_true_iff in Hid' as [?|?%bool_decide_eq_true]; [by left|right; set_solver].
  - intros g ids' id Hg Hu' Hid. apply elem_of_cons in Hg as [->|Hg]; [|by apply (A2 g ids')].
    apply M2. destruct (Hu' rf Hle) as (r' & rf1' & D' & _ & R1'). rewrite D in D'. injection D' as _ <-.
    rewrite R1', (bool_decide_true (id ∈ ids')) by done. by rewrite orb_true_r.
Qed.

(** A sender none of whose files was confirmed yet. *)
Definition unconfirmed (fl : FileList) : Prop :=
  forall id, 0 <= id <= of_num o -> FileListGetFileNameAcked fl id = Some false.

Lemma unconfirmed_ids fl id : offers fl -> unconfirmed fl ->
  id ∈ unitIds fl (-1) (of_num o) <-> sendable_id id.
Proof.
  intros Ho Hu. unfold unitIds, sendable_id. rewrite list_elem_of_filter, elem_of_seqZ.
  assert (0 <= id <= of_num o -> pending fl id = negb ((id =? 0) && negb offersUser)) as Hp.
  { intros Hid. unfold pending. by rewrite (Hu id Hid), (offersUser_spec fl Ho). }
  split.
  - intros [H1 H2]. rewrite Hp in H1 by lia. split; [lia|]. intros ->. by destruct offersUser.
  - intros [H1 H2]. rewrite Hp by lia. split; [|lia].
    destruct (Z.eqb_spec id 0) as [->|]; [by rewrite H2 | done].
Qed.

(** The loops over all entries answer TRUE when every entry has the flag. *)
Lemma allFlag_true fl f :
  (forall id, 1 <= id <= (if tarFlag fl then 1 else num fl) ->
    exists e, entryAt fl id = Some e /\ has (flags e) f = true) -> allFlag fl f = Some true.
Proof.
  intros H. unfold allFlag. destruct (tarFlag fl).
  { destruct (H 1) as (e & -> & He); [lia|]. cbn [mbind option_bind]. by rewrite He. }
  assert (forall n i, 0 <= i -> (n = 0%nat \/ i + Z.of_nat n <= num fl) ->
    allWithFlag n i fl f = Some true) as Haux.
  { induction n as [|n IH]; intros i Hi Hn; [done|]. cbn [allWithFlag].
    destruct (H (i + 1)) as (e & -> & He); [lia|]. cbn [mbind option_bind]. rewrite He.
    apply IH; lia. }
  apply Haux; lia.
Qed.

(** Once everything arrived, the receiver knows it. *)
Lemma all_received rf : learned rf -> is_Some (fl_list rf) ->
  (forall id, sendable_id id -> received rf id = true) -> FileListAllFileNameReceived rf = Some true.
Proof.
  intros Hle [l El] Hall. pose proof (le_wf _ Hle) as [Hw _]. pose proof (le_num _ Hle l El) as Hn.
  unfold wf in Hw. rewrite El in Hw. destruct Hw as (Hlen & Hrange & _).
  unfold FileListAllFileNameReceived. rewrite (proj2 (Z.eqb_neq (num rf) 0)) by lia.
  assert (has (userDataFlag rf) NSTACKX_DFILE_HEADER_FRAME_USER_DATA_FLAG &&
    negb (has (userDataFlag rf) NSTACKX_FLAGS_FILE_NAME_RECEIVED) = false) as ->.
  { destruct (has (userDataFlag rf) NSTACKX_DFILE_HEADER_FRAME_USER_DATA_FLAG) eqn:E; [|done].
    pose proof (Hall 0) as H0. unfold received in H0. cbn [Z.eqb] in H0. rewrite H0; [done|].
    split; [lia|]. intros _. by apply (le_flag _ Hle). }
  apply allFlag_true. rewrite (le_tar _ Hle). intros id Hid. specialize (Hall id).
  unfold received in Hall. rewrite (proj2 (Z.eqb_neq id 0)) in Hall by lia.
  specialize (Hall ltac:(split; lia)). destruct (entryAt rf id) as [e|]; [by exists e | done].
Qed.

(** A pending file whose unit does not fit into a frame stops the sender: no
    round makes progress, and the loop goes on as long as frames can be sent. *)
Lemma SendFileHeader_stuck fl transId mtu last k : offers fl ->
  10 <= mtu <= NSTACKX_MAX_FRAME_SIZE -> -1 <= last < of_num o ->
  pending fl (last + 1) = true -> mtu < 22 + len (unitName (last + 1)) ->
  SendFileHeader stat (replicate k true) transId fl mtu last = None.
Proof.
  intros Ho Hm Hlast Hp Hbig. induction k as [|k IH]; [done|]. cbn [replicate SendFileHeader].
  unfold NSTACKX_MAX_FRAME_SIZE in *. change (Z.to_nat 14720) with (10 + Z.to_nat 14710)%nat.
  rewrite replicate_add. cbn [replicate].
  destruct (EncodeFileHeaderFrame_spec fl last 0 0 0 0 0 0 0 0 0 (replicate (Z.to_nat 14710) 0) mtu)
    as (last' & rest' & us & -> & E & H1 & H2 & _); [done | lens | lia | lia |].
  assert (last' = last) as ->.
  { destruct (decide (last' = last)); [done|]. exfalso.
    rewrite unitIds_step, Hp in H2 by lia. cbn [app] in H2.
    rewrite units_cons, len_app, len_unitBytes in H2.
    pose proof (len_nonneg (units (unitIds fl (last + 1) last'))). lia. }
  rewrite E. cbn [mbind option_bind]. rewrite (os_num _ Ho).
  destruct (put16 _ _ _); [|done]. cbn [mbind option_bind].
  destruct (get _ _ _); [|done]. cbn [mbind option_bind negb].
  rewrite (proj2 (Z.eqb_neq last (of_num o))) by lia. by rewrite IH.
Qed.

End Wire.

(** C14: file headers reach the receiver.  The user data is not empty, both
    ends have the same byte order, and every unit (a name with its head) fits
    into a frame; a unit that does not makes the sender loop for ever
    ([SendFileHeader_stuck]).  Then sending the headers terminates, as long as
    frames can be sent, with all of them sent, after at most one round for
    each file and one for the user data.  A receiver that gets the frames in
    order has exactly the files that were not confirmed before, in addition to
    what it had, with the names, the sizes, the path type and the user data
    the sender offers; on the first pass it has all of them and knows it.  When
    frames are lost, repeated or overtaken, whatever arrives is understood:
    what the receiver has is right, it never loses what it had and gets
    nothing that was not sent; and once each frame has arrived, in whatever
    order and however often, it has all of them. *)
Theorem header_frames_deliver stat big o fl rf transId mtu last :
  offers stat big o fl -> learned o rf -> units_fit big o fl mtu -> -1 <= last <= of_num o ->
  exists frames rf',
    SendFileHeader stat (replicate (Z.to_nat (of_num o - last) + 1) true) transId fl mtu last =
      Some (frames, of_num o, true) /\
    deliver big rf frames = Some rf' /\ learned o rf' /\
    (forall id, received rf' id = received rf id || bool_decide (id ∈ unitIds fl last (of_num o))) /\
    (last = -1 -> unconfirmed o fl -> FileListAllFileNameReceived rf' = Some true) /\
    (forall fs rf0, fs ⊆ frames -> learned o rf0 ->
      exists rf1, deliver big rf0 fs = Some rf1 /\ learned o rf1 /\
        (forall id, received rf0 id = true -> received rf1 id = true) /\
        (forall id, received rf1 id = true -> received rf0 id = true \/ id ∈ unitIds fl last (of_num o)) /\
        (frames ⊆ fs -> forall id, id ∈ unitIds fl last (of_num o) -> received rf1 id = true)).
Proof.
  intros Ho Hle Hfit Hlast.
  destruct (SendFileHeader_spec stat big o fl transId mtu (Z.to_nat (of_num o - last) + 1) last rf
    Ho Hfit Hlast ltac:(lia) Hle) as (frames & rf' & E & HF & D & L & R & S).
  destruct (SendFileHeader_cover stat big o fl transId mtu (Z.to_nat (of_num o - last) + 1) last frames Ho Hfit Hlast ltac:(lia) E) as [Hc1 Hc2].
  exists frames, rf'. split_and!; try done.
  - intros -> Hu. pose proof (os_range _ _ _ _ Ho) as Hn.
    assert (forall id, sendable_id o id -> id ∈ unitIds fl (-1) (of_num o)) as Hin
      by (intros; by apply (unconfirmed_ids stat big o)).
    apply (all_received o); [done | |].
    + apply S. right. intros Enil. specialize (Hin 1). rewrite Enil in Hin.
      apply elem_of_nil in Hin; [done|]. split; lia.
    + intros id Hid. rewrite R, (bool_decide_true (id ∈ _)) by (by apply Hin). by rewrite orb_true_r.
  - intros fs rf0 Hsub L0. rewrite Forall_forall in Hc1.
    destruct (deliver_any stat big o (unitIds fl last (of_num o)) fs rf0 L0) as (rf1 & D1 & L1 & M1 & O1 & A1).
    { intros f Hf. by apply Hc1, Hsub. }
    exists rf1. split_and!; try done. intros Hall id Hid. destruct (Hc2 id Hid) as (f & ids & Hf & Hu & Hin).
    by apply (A1 f ids); [apply Hall|..].
Qed.

(** ** Lists built by the sender's own operations offer their files *)

Lemma PreparePackedDFileUserData_spec big pt data : len (default [] (data ≫= cstr)) < 2 ^ 16 - 2 ->
  (forall u, data = Some u -> is_Some (cstr u)) ->
  PreparePackedDFileUserData big true pt data =
    Some (Some (native_bytes big pt ++ default [] (data ≫= cstr), 2 + len (default [] (data ≫= cstr)))).
Proof.
  intros Hl Hd. unfold PreparePackedDFileUserData.
  assert ((match data with None => Some [] | Some u => cstr u end) = Some (default [] (data ≫= cstr))) as ->.
  { destruct data as [u|]; [|done]. destruct (Hd u eq_refl) as [s Es]. cbn [mbind option_bind]. by rewrite Es. }
  cbn [mbind option_bind]. set (s := default [] _) in *. pose proof (len_nonneg s).
  rewrite (wrapU_id 32) by range. rewrite (wrapU_id 16) by range. cbn [negb].
  replace (replicate (Z.to_nat (2 + len s)) 0)
    with ([] ++ replicate 2 0 ++ replicate (length s) 0 ++ [] : bytes)
    by (rewrite app_nil_r; cbn [app]; rewrite <- replicate_add; f_equal; unfold len; lia).
  rewrite put_at by (done || by rewrite native_bytes_len). cbn [mbind option_bind app].
  destruct (Z.ltb_spec 0 (len s)).
  - unfold memcpy_s. rewrite (proj2 (Z.ltb_ge _ _)) by lia.
    rewrite get_all. cbn [mbind option_bind].
    rewrite put_at; [| by rewrite native_bytes_len | by rewrite len_replicate].
    cbn [mbind option_bind]. by rewrite app_nil_r.
  - assert (s = []) as -> by (destruct s as [|c s']; [done|]; rewrite len_cons in *;
      pose proof (len_nonneg s'); lia). cbn. by rewrite app_nil_r.
Qed.

(** The list after [FileListAddExtraInfo]. *)
Lemma FileListAddExtraInfo_spec big fl pt notice data :
  userData fl = None -> pathType fl = 0 -> packedUserData fl = None -> is_u 16 pt ->
  notice = NOTICE_FILE_NAME_TYPE \/ notice = NOTICE_FULL_FILE_NAME_TYPE ->
  len (default [] (data ≫= cstr)) < 2 ^ 16 - 2 -> (forall u, data = Some u -> is_Some (cstr u)) ->
  exists fl', FileListAddExtraInfo big true fl pt notice data = Some (NSTACKX_EOK, fl') /\
    fl_list fl' = fl_list fl /\ num fl' = num fl /\ tarFlag fl' = tarFlag fl /\
    userData fl' = data /\ pathType fl' = pt /\
    (if 0 <? pt
     then packedUserData fl' = Some (native_bytes big pt ++ default [] (data ≫= cstr)) /\
          packedUserDataLen fl' = 2 + len (default [] (data ≫= cstr))
     else packedUserData fl' = None).
Proof.
  intros Hu Hp Hk Hpt Hnt Hl Hd. unfold FileListAddExtraInfo.
  assert (negb (notice =? NOTICE_FILE_NAME_TYPE) && negb (notice =? NOTICE_FULL_FILE_NAME_TYPE) = false)
    as -> by (by destruct Hnt as [->| ->]).
  destruct ((pt =? 0) && _) eqn:E.
  { apply andb_true_iff in E as [->%Z.eqb_eq E]. destruct data; [done|].
    eexists. split_and!; done. }
  destruct (Z.ltb_spec 0 pt).
  - rewrite PreparePackedDFileUserData_spec by done. eexists. split_and!; done.
  - eexists. split_and!; done.
Qed.

(** What a prepared list offers: the last components of the paths [ss]. *)
Definition preparedOffer (stat : bytes -> option Z) (ss : list bytes) (pt : Z) (data : option bytes) : offer :=
  mkOffer (Z.of_nat (length ss))
    (fun id => basename (default [] (ss !! Z.to_nat (id - 1))))
    (fun id => default 0 (stat (default [] (ss !! Z.to_nat (id - 1))))) pt (data ≫= cstr).

(** A fresh list, filled with files that were all accepted and with the extra
    information of the transfer, offers exactly these. *)
Lemma prepared_offers stat big info ss pt notice data :
  (forall p z, stat p = Some z -> is_s 64 z) -> info_ok info ss ->
  1 <= fi_fileNum info <= NSTACKX_DFILE_MAX_FILE_NUM ->
  Forall (fun s => fileError stat s = None) ss ->
  fi_vtransFlag info = false -> fi_remotePath info = None ->
  is_u 16 pt -> notice = NOTICE_FILE_NAME_TYPE \/ notice = NOTICE_FULL_FILE_NAME_TYPE ->
  (forall u, data = Some u -> exists s, cstr u = Some s /\ s <> [] /\ len s < 2 ^ 16 - 2) ->
  exists fl fl', FileListSetSendFileList stat true wList info = Some (NSTACKX_EOK, fl) /\
    FileListAddExtraInfo big true fl pt notice data = Some (NSTACKX_EOK, fl') /\
    offers stat big (preparedOffer stat ss pt data) fl'.
Proof.
  intros Hstat Hok Hn Hacc Hv Hrem Hpt Hnt Hd.
  assert (forall u, data = Some u -> is_Some (cstr u)) as Hsome
    by (intros u E; destruct (Hd u E) as (s & -> & _); by eexists).
  assert (len (default [] (data ≫= cstr)) < 2 ^ 16 - 2) as Hlen.
  { destruct data as [u|]; [|done]. destruct (Hd u eq_refl) as (s & Es & _ & Hs).
    cbn [mbind option_bind]. by rewrite Es. }
  pose proof (FileListSetSendFileList_filled stat wList info ss Hstat eq_refl Hok Hn) as H.
  rewrite (proj2 (omap_head_None _ _) Hacc) in H. destruct H as (es & E1 & _ & Hes).
  pose proof (io_num _ _ Hok) as Hnum.
  destruct (FileListAddExtraInfo_spec big (set_list es (fi_fileNum info) wList) pt notice data)
    as (fl' & E2 & F1 & F2 & F3 & F4 & F5 & F6); [done..|].
  cbn [fl_list set_list num tarFlag wList] in F1, F2, F3.
  eexists _, fl'. split; [exact E1|]. split; [exact E2|].
  assert (forall id, 1 <= id <= Z.of_nat (length ss) -> exists s e,
    ss !! Z.to_nat (id - 1) = Some s /\ entryAt fl' id = Some e /\
    entry_of stat info (Z.to_nat (id - 1)) s e /\ cstr (fileName e) = Some (basename s) /\
    fileError stat s = None) as Hat.
  { intros id Hid. destruct (lookup_lt_is_Some_2 ss (Z.to_nat (id - 1))) as [s Hs]; [lia|].
    destruct (Hes _ _ Hs) as (e & He & Ho & Hc). exists s, e. split_and!; try done.
    - rewrite (entryAt_list _ es) by (done || lia). done.
    - by apply (Forall_lookup_1 _ _ _ _ Hacc Hs). }
  split; cbn [of_num of_name of_size of_path of_user preparedOffer]; unfold preparedOffer.
  - unfold headerFileNum, FileListGetNum. rewrite F2, F3, <- Hnum. apply wrapU_id.
    unfold NSTACKX_DFILE_MAX_FILE_NUM in Hn. cbn. range.
  - cbn. lia.
  - intros id Hid. destruct (Hat id Hid) as (s & e & _ & -> & _). by eexists.
  - cbn. intros id Hid. destruct (Hat id Hid) as (s & e & Hs & He & Ho & Hc & Hf). rewrite Hs. cbn.
    exists (fileName e). pose proof (fileError_None _ _ Hf) as Hb. pose proof (len_nonneg (basename s)).
    unfold fileInfo, FileListGetRemotePath, FileListGetFileName, FileListGetFileSize.
    rewrite (proj2 (Z.eqb_neq id 0)), He, F3 by lia. cbn [fmap option_fmap option_map mbind option_bind].
    rewrite (eo_remote _ _ _ _ _ Ho). unfold remoteOf. rewrite Hrem. cbn [mbind option_bind].
    rewrite Hc. cbn [mbind option_bind]. rewrite wrapU_id by range.
    pose proof (eo_size _ _ _ _ _ Ho) as Hsz. rewrite Hv in Hsz. destruct Hsz as [-> _].
    split; [done|]. destruct (cstr_Some _ _ Hc) as (_ & z & ->). by apply get_prefix.
  - cbn. intros id Hid. destruct (Hat id Hid) as (s & e & Hs & He & Ho & Hc & Hf). rewrite Hs. cbn.
    split; [by apply (fileError_basename stat) | by apply (cstr_Some _ _ Hc)].
  - cbn. intros id Hid. destruct (Hat id Hid) as (s & e & Hs & He & Ho & Hc & Hf). rewrite Hs. cbn.
    pose proof (eo_size _ _ _ _ _ Ho) as Hsz. rewrite Hv in Hsz. destruct Hsz as [-> Hr]. done.
  - rewrite F4. destruct data as [u|]; [|done]. destruct (Hsome u eq_refl) as [s Es]. cbn. by rewrite Es.
  - done.
  - by split.
  - cbn [of_path]. unfold unitName. cbn [Z.eqb of_path of_user]. destruct (0 <? pt); [|done].
    destruct F6 as [-> ->]. split; [done|]. by rewrite len_app, native_bytes_len.
  - cbn. destruct data as [u|]; [|done]. destruct (Hd u eq_refl) as (s & Es & Hne & _). cbn.
    rewrite Es. congruence.
Qed.

(** Two files, with user data and a path type, in frames of 64 bytes. *)
Definition wSent : FileList :=
  match FileListSetSendFileList (wStat 5) true wList wInfo with
  | Some (_, fl) =>
    match FileListAddExtraInfo false true fl 3 NOTICE_FILE_NAME_TYPE (Some [104; 105; 0]) with
    | Some (_, fl') => fl' | None => wList end
  | None => wList
  end.

Definition wOffer : offer :=
  mkOffer 2 (fun id => if id =? 1 then [98] else [99]) (fun _ => 5) 3 (Some [104; 105]).

Lemma wSent_offers : offers (wStat 5) false wOffer wSent.
Proof.
  assert (forall id, 1 <= id <= of_num wOffer -> id = 1 \/ id = 2) as Hid by (cbn; lia).
  split.
  - by vm_compute.
  - by vm_compute.
  - intros id [->| ->]%Hid; vm_compute; by eexists.
  - intros id [->| ->]%Hid; eexists; split; by vm_compute.
  - intros id [->| ->]%Hid; (split; [by vm_compute | by repeat constructor]).
  - intros id [->| ->]%Hid; by vm_compute.
  - by vm_compute.
  - by vm_compute.
  - split; by vm_compute.
  - split; by vm_compute.
  - done.
Qed.

Lemma wList_learned : learned wOffer wList.
Proof. split; try done. Qed.

Lemma header_frames_deliver_witness :
  exists frames rf',
    SendFileHeader (wStat 5) (replicate 4 true) 7 wSent 64 (-1) = Some (frames, 2, true) /\
    deliver false wList frames = Some rf' /\ FileListAllFileNameReceived rf' = Some true.
Proof.
  destruct (header_frames_deliver (wStat 5) false wOffer wSent wList 7 64 (-1))
    as (frames & rf' & E & D & _ & _ & A & _).
  - exact wSent_offers.
  - exact wList_learned.
  - split; [by vm_compute|]. intros id Hid _. assert (id = 0 \/ id = 1 \/ id = 2) as [->|[->| ->]]
      by (cbn in Hid; lia); by vm_compute.
  - cbn. lia.
  - exists frames, rf'. split; [exact E|]. split; [exact D|]. apply A; [done|].
    intros id Hid. assert (id = 0 \/ id = 1 \/ id = 2) as [->|[->| ->]]
      by (cbn in Hid; lia); by vm_compute.
Defined.

(** ** Confirming the headers *)

(** The sending loop of [SendFileHeaderConfirm], as [SendFileHeader]. *)
Fixpoint SendFileHeaderConfirm (sent : list bool) (transId : Z) (rf : FileList) (mtu lastAcked : Z)
  : option (list bytes * Z * bool) :=
  match sent with
  | [] => None
  | ok :: sent' =>
    '(b, frameLength, lastEnc) ←
      EncodeFileHeaderConfirmFrame rf lastAcked (replicate (Z.to_nat NSTACKX_MAX_FRAME_SIZE) 0) mtu;
    b ← put16 b off_transId transId;
    frame ← get b 0 frameLength;
    if negb ok then Some ([frame], lastAcked, false)
    else if lastEnc =? FileListGetNum rf then Some ([frame], lastEnc, true)
    else
      '(frames, last, done) ← SendFileHeaderConfirm sent' transId rf mtu lastEnc;
      Some (frame :: frames, last, done)
  end.

Definition idBytes (ids : list Z) : bytes := concat (be_bytes 2 <$> ids).

Lemma len_idBytes ids : len (idBytes ids) = 2 * Z.of_nat (length ids).
Proof.
  induction ids as [|id ids IH]; [done|]. unfold idBytes. cbn [fmap list_fmap concat].
  rewrite len_app, len_be_bytes. fold (idBytes ids). rewrite IH. cbn [length]. lia.
Qed.

Lemma idBytes_app a b : idBytes (a ++ b) = idBytes a ++ idBytes b.
Proof. unfold idBytes. by rewrite fmap_app, concat_app. Qed.

Lemma idBytes_snoc a id : idBytes (a ++ [id]) = idBytes a ++ be_bytes 2 id.
Proof. by rewrite idBytes_app. Qed.

(** The files in an interval whose name was received. *)
Definition recvIds (rf : FileList) (from to : Z) : list Z :=
  filter (fun id => received rf id = true) (seqZ (from + 1) (to - from)).

Lemma recvIds_step rf from to : from < to ->
  recvIds rf from to =
    (if received rf (from + 1) then [from + 1] else []) ++ recvIds rf (from + 1) to.
Proof.
  intros. unfold recvIds. rewrite (seqZ_cons (from + 1)) by lia.
  replace (Z.pred (to - from)) with (to - (from + 1)) by lia.
  replace (Z.succ (from + 1)) with (from + 1 + 1) by lia.
  destruct (received rf (from + 1)) eqn:E.
  - by rewrite filter_cons_True.
  - rewrite filter_cons_False; [done | congruence].
Qed.

Lemma recvIds_split rf a b c : a <= b <= c -> recvIds rf a c = recvIds rf a b ++ recvIds rf b c.
Proof.
  intros. unfold recvIds. rewrite <- filter_app. f_equal.
  replace (c - a) with ((b - a) + (c - b)) by lia. rewrite seqZ_app by lia.
  do 2 f_equal. lia.
Qed.

(** The loop writes the received files behind [ids0], up to the last file or
    until the frame is full. *)
Lemma confirmLoop_spec rf fuel pre ids0 rest bufferLength last :
  wf rf -> len pre = 8 -> 0 <= last <= num rf -> (Z.to_nat (num rf - last) < fuel)%nat ->
  bufferLength < 2 ^ 16 -> bufferLength <= len (idBytes ids0 ++ rest) ->
  Z.of_nat (length ids0) <= bufferLength / 2 ->
  exists last' rest', confirmLoop fuel rf (pre ++ idBytes ids0 ++ rest) bufferLength
      (Z.of_nat (length ids0)) last =
    Some (pre ++ idBytes (ids0 ++ recvIds rf last last') ++ rest',
          Z.of_nat (length (ids0 ++ recvIds rf last last')), last') /\
    last <= last' <= num rf /\ Z.of_nat (length (ids0 ++ recvIds rf last last')) <= bufferLength / 2 /\
    (last' < num rf -> bufferLength / 2 <= Z.of_nat (length (ids0 ++ recvIds rf last last'))).
Proof.
  intros Hw Hpre. assert (num rf <= 500) as Hn500.
  { unfold wf, NSTACKX_DFILE_MAX_FILE_NUM in Hw. destruct (fl_list rf); lia. }
  revert ids0 rest last. induction fuel as [|fuel IH]; intros ids0 rest last Hlast Hf Hb16 Hb Hslots; [lia|].
  assert (forall r, r = [] -> exists last' rest', Some (pre ++ idBytes ids0 ++ rest,
      Z.of_nat (length ids0), last) =
    Some (pre ++ idBytes (ids0 ++ recvIds rf last last') ++ rest',
          Z.of_nat (length (ids0 ++ recvIds rf last last')), last') /\ last' = last /\
    recvIds rf last last' = r) as Hstop.
  { intros r ->. exists last, rest. unfold recvIds. rewrite Z.sub_diag. cbn. by rewrite app_nil_r. }
  cbn [confirmLoop]. rewrite (wf_FileListGetNum rf Hw).
  destruct (Z.eqb_spec last (num rf)) as [->|Hne].
  { destruct (Hstop [] eq_refl) as (last' & rest' & E & -> & Er). exists (num rf), rest'.
    rewrite E, Er, app_nil_r. split_and!; done || lia. }
  rewrite wrapU_id by range. unfold FileListGetFileNameReceived.
  destruct (wf_entry_at rf (last + 1) Hw) as (l & e & El & He & _); [lia|].
  pose proof (received_entry rf l (last + 1) e ltac:(lia) El He) as Hr.
  rewrite (entryAt_list _ l), He by (done || lia). cbn [mbind option_bind]. rewrite <- Hr.
  destruct (received rf (last + 1)) eqn:Hrec; cbn [negb].
  - rewrite Z.shiftr_div_pow2 by lia. change (2 ^ 1) with 2.
    destruct (Z.leb_spec (bufferLength / 2) (Z.of_nat (length ids0))).
    { destruct (Hstop [] eq_refl) as (last' & rest' & E & -> & Er). exists last, rest'.
      rewrite E, Er, app_nil_r. split_and!; done || lia. }
    destruct (split_len rest 2) as (old & rest1 & -> & Lo).
    { rewrite len_app, len_idBytes in Hb. pose proof (len_nonneg rest). split; [lia|]. cint. }
    unfold put16, off_payload. rewrite (app_assoc pre).
    rewrite (put_at _ old); [| rewrite len_app, len_idBytes, Hpre; lia | lens].
    cbn [mbind option_bind]. rewrite wrapU_id by cint.
    rewrite <- (app_assoc pre), (app_assoc (idBytes ids0)), <- idBytes_snoc.
    destruct (IH (ids0 ++ [last + 1]) rest1 (last + 1)) as (last' & rest' & E & H1 & H2 & H3).
    + lia.
    + lia.
    + done.
    + rewrite idBytes_snoc. rewrite !len_app, ?len_be_bytes in *. lia.
    + rewrite length_app. cbn [length]. lia.
    + exists last', rest'. rewrite (recvIds_step rf last last'), Hrec, (app_assoc ids0) by lia.
      replace (Z.of_nat (length ids0) + 1) with (Z.of_nat (length (ids0 ++ [last + 1])))
        by (rewrite length_app; cbn [length]; lia).
      split_and!; try done; lia.
  - destruct (IH ids0 rest (last + 1)) as (last' & rest' & E & H1 & H2 & H3); [lia..|].
    exists last', rest'. rewrite (recvIds_step rf last last'), Hrec by lia. cbn [app].
    split_and!; try done; lia.
Qed.

(** [sf'] is [sf] with flag [f] set in the entries [ids], and [u] in the flags
    of the user data when file 0 is among them; nothing else changes. *)
Record marked (f u : Z) (ids : list Z) (sf sf' : FileList) : Prop := {
  mk_wf : wf sf -> wf sf';
  mk_num : num sf' = num sf;
  mk_tar : tarFlag sf' = tarFlag sf;
  mk_entry : forall id, entryAt sf' id =
    (fun e => if decide (id ∈ ids) then or_flags f e else e) <$> entryAt sf id;
  mk_user : userDataFlag sf' =
    (if decide (0 ∈ ids) then Z.lor (userDataFlag sf) u else userDataFlag sf)
}.

Lemma marked_nil f u sf : marked f u [] sf sf.
Proof.
  split; try done. intros id. destruct (entryAt sf id); [|done].
  cbn [fmap option_fmap option_map]. by rewrite decide_False by set_solver.
Qed.

Lemma lor_twice x f : Z.lor (Z.lor x f) f = Z.lor x f.
Proof. by rewrite <- Z.lor_assoc, Z.lor_diag. Qed.

Lemma marked_app f u a b x y z : marked f u a x y -> marked f u b y z -> marked f u (a ++ b) x z.
Proof.
  intros [A1 A2 A3 A4 A5] [B1 B2 B3 B4 B5]. split; [by eauto | congruence | congruence | |].
  - intros id. rewrite B4, A4, <- option_fmap_compose. apply option_fmap_ext. intros e.
    unfold compose. destruct (decide (id ∈ a)), (decide (id ∈ b)), (decide (id ∈ a ++ b));
      try done; try set_solver. unfold or_flags, set_flags. cbn. by rewrite lor_twice.
  - rewrite B5, A5. destruct (decide (0 ∈ a)), (decide (0 ∈ b)), (decide (0 ∈ a ++ b));
      try done; try set_solver. apply lor_twice.
Qed.

Lemma mark_entry f u sf id : wf sf -> 1 <= id <= num sf ->
  exists sf', updEntry sf id (or_flags f) = Some sf' /\ marked f u [id] sf sf'.
Proof.
  intros Hw Hid. destruct (wf_entry_at sf id Hw Hid) as (l & e & El & He & Hwe).
  rewrite (updEntry_list sf l id _ e) by (done || lia). eexists. split; [done|]. split; try done.
  - intros _. by apply wf_upd.
  - intros j. unfold entryAt. cbn [fl_list set_list]. rewrite El. cbn [mbind option_bind].
    destruct (Z.leb_spec j 0); [done|]. destruct (decide (j = id)) as [->|Hne].
    + rewrite list_lookup_insert_eq, He by (by eapply lookup_lt_Some).
      cbn [fmap option_fmap option_map]. by rewrite decide_True by set_solver.
    + rewrite list_lookup_insert_ne by lia. destruct (l !! Z.to_nat (j - 1)); [|done].
      cbn [fmap option_fmap option_map]. by rewrite decide_False by set_solver.
  - rewrite decide_False by (rewrite list_elem_of_singleton; lia). done.
Qed.

Lemma mark_ack sf id : wf sf -> 0 <= id <= num sf ->
  exists sf', FileListSetFileNameAcked sf id = Some sf' /\
    marked NSTACKX_FLAGS_FILE_NAME_ACK NSTACKX_FLAGS_USER_DATA_ACK [id] sf sf'.
Proof.
  intros Hw Hid. unfold FileListSetFileNameAcked. destruct (Z.eqb_spec id 0) as [->|].
  - eexists. split; [done|]. split; try done. intros j. unfold entryAt. cbn [fl_list set_userDataFlag].
    destruct (fl_list sf) as [l|]; [|done]. cbn [mbind option_bind].
    destruct (Z.leb_spec j 0); [done|]. destruct (l !! _); [|done].
    cbn [fmap option_fmap option_map].
    by rewrite decide_False by (rewrite list_elem_of_singleton; lia).
  - apply mark_entry; [done | lia].
Qed.

(** Decoding a list of numbers marks the valid ones. *)
Lemma markLoop_marks (f u : Z) valid mark N pre ids0 ids sf : len pre = 8 ->
  (forall sf id, wf sf -> num sf = N -> is_u 16 id -> valid id = true ->
    exists sf', mark sf id = Some sf' /\ marked f u [id] sf sf') ->
  Forall (is_u 16) ids -> wf sf -> num sf = N ->
  exists sf', markLoop valid mark (length ids) (Z.of_nat (length ids0))
      (pre ++ idBytes (ids0 ++ ids)) sf = Some sf' /\
    marked f u (filter (fun id => valid id = true) ids) sf sf'.
Proof.
  intros Hpre Hm. revert ids0 sf. induction ids as [|id ids IH]; intros ids0 sf Hids Hw HN.
  { exists sf. split; [done | apply marked_nil]. }
  apply Forall_cons in Hids as [Hid Hids]. cbn [length markLoop]. unfold off_payload.
  assert (get16 (pre ++ idBytes (ids0 ++ id :: ids)) (8 + 2 * Z.of_nat (length ids0)) = Some id) as ->.
  { rewrite idBytes_app, app_assoc. unfold idBytes at 2. cbn [fmap list_fmap concat].
    apply get16_app; [rewrite len_app, len_idBytes; lia | done]. }
  cbn [mbind option_bind].
  assert (exists sf1, (if valid id then mark sf id else Some sf) = Some sf1 /\
    marked f u (if valid id then [id] else []) sf sf1) as (sf1 & -> & M1).
  { destruct (valid id) eqn:E; [by apply Hm | exists sf; split; [done | apply marked_nil]]. }
  cbn [mbind option_bind].
  destruct (IH (ids0 ++ [id]) sf1) as (sf2 & E2 & M2);
    [done | by apply M1 | rewrite (mk_num _ _ _ _ _ M1); done |].
  exists sf2. split.
  - rewrite <- E2, <- app_assoc. cbn [app]. f_equal. rewrite length_app. cbn [length]. lia.
  - destruct (valid id) eqn:E.
    + rewrite filter_cons_True by done. by apply (marked_app _ _ [id] _ _ sf1).
    + rewrite filter_cons_False by congruence. by apply (marked_app _ _ [] _ _ sf1).
Qed.

(** A confirm frame with the numbers [ids]. *)
Definition confirmWire (transId : Z) (ids : list Z) : bytes :=
  [NSTACKX_DFILE_FILE_HEADER_CONFIRM_FRAME; 0; 0; 0] ++ be_bytes 2 transId ++
  be_bytes 2 (2 * Z.of_nat (length ids)) ++ idBytes ids.

(** The user data is confirmed in every frame once it was received. *)
Definition userIds (rf : FileList) : list Z :=
  if has (userDataFlag rf) NSTACKX_DFILE_HEADER_FRAME_USER_DATA_FLAG &&
     has (userDataFlag rf) NSTACKX_FLAGS_FILE_NAME_RECEIVED then [0] else [].

Lemma confirmRound rf transId mtu last : wf rf -> 12 <= mtu <= NSTACKX_MAX_FRAME_SIZE ->
  0 <= last <= num rf ->
  exists last' b ids, ids = userIds rf ++ recvIds rf last last' /\
    (last' = num rf \/ last < last' < num rf) /\ last <= last' /\
    2 * Z.of_nat (length ids) < 2 ^ 16 /\
    EncodeFileHeaderConfirmFrame rf last (replicate (Z.to_nat NSTACKX_MAX_FRAME_SIZE) 0) mtu =
      Some (b, 8 + 2 * Z.of_nat (length ids), last') /\
    (b' ← put16 b off_transId transId; get b' 0 (8 + 2 * Z.of_nat (length ids))) =
      Some (confirmWire transId ids).
Proof.
  intros Hw Hm Hlast. unfold NSTACKX_MAX_FRAME_SIZE in *.
  change (Z.to_nat 14720) with (8 + Z.to_nat 14712)%nat. rewrite replicate_add.
  set (pre := replicate 8 0). unfold EncodeFileHeaderConfirmFrame. offsets.
  rewrite (wrapU_id 64), (wf_FileListGetNum rf Hw) by range.
  assert (exists rest, len rest = 14712 - len (idBytes (userIds rf)) /\
    (if has (userDataFlag rf) NSTACKX_DFILE_HEADER_FRAME_USER_DATA_FLAG &&
        has (userDataFlag rf) NSTACKX_FLAGS_FILE_NAME_RECEIVED
     then b ← put16 (pre ++ replicate (Z.to_nat 14712) 0) 8 0; Some (b, 1)
     else Some (pre ++ replicate (Z.to_nat 14712) 0, 0)) =
    Some (pre ++ idBytes (userIds rf) ++ rest, Z.of_nat (length (userIds rf)))) as (rest & Hrest & ->).
  { unfold userIds. destruct (_ && _).
    - exists (replicate (Z.to_nat 14710) 0). split; [by rewrite len_replicate|].
      change (Z.to_nat 14712) with (2 + Z.to_nat 14710)%nat. rewrite replicate_add.
      unfold put16. rewrite (put_at pre (replicate 2 0)) by done. done.
    - exists (replicate (Z.to_nat 14712) 0). split; [by rewrite len_replicate | done]. }
  cbn [mbind option_bind].
  assert (0 <= Z.of_nat (length (userIds rf)) <= 1) as Hu
    by (unfold userIds; destruct (_ && _); cbn; lia).
  destruct (confirmLoop_spec rf (Z.to_nat (num rf - last) + 1) pre (userIds rf) rest (mtu - 8) last)
    as (last' & rest' & E & H1 & H2 & H3); [done | done | lia | lia | lia
    | lens | cint |].
  rewrite E. cbn [mbind option_bind]. set (ids := userIds rf ++ recvIds rf last last') in *.
  assert (2 * Z.of_nat (length ids) <= mtu - 8) by cint.
  rewrite (Z.mul_comm _ 2), (wrapU_id 16) by range.
  change pre with [0; 0; 0; 0; 0; 0; 0; 0]. unfold put8, put16.
  destruct (be_bytes2_named (2 * Z.of_nat (length ids))) as (u1 & u2 & Eu & _); [range|].
  rewrite Eu. eval_puts.
  exists last', ([2; 0; 0; 0; 0; 0; u1; u2] ++ idBytes ids ++ rest'), ids.
  split_and!; try done; try lia.
  - destruct (decide (last' = num rf)); [by left|right]. split; [|lia].
    destruct (decide (last' = last)) as [->|]; [|lia]. exfalso. specialize (H3 ltac:(lia)).
    unfold ids, recvIds in H3. rewrite Z.sub_diag in H3. cbn [seqZ fmap list_fmap filter] in H3.
    rewrite app_nil_r in H3. cint.
  - change ([2; 0; 0; 0; 0; 0; u1; u2] ++ idBytes ids ++ rest')
      with ([2; 0; 0; 0] ++ [0; 0] ++ [u1; u2] ++ idBytes ids ++ rest').
    rewrite (put_at [2; 0; 0; 0] [0; 0]) by done. cbn [mbind option_bind].
    unfold confirmWire. rewrite Eu.
    replace ([2; 0; 0; 0] ++ be_bytes 2 transId ++ [u1; u2] ++ idBytes ids ++ rest')
      with (([NSTACKX_DFILE_FILE_HEADER_CONFIRM_FRAME; 0; 0; 0] ++ be_bytes 2 transId ++ [u1; u2] ++
             idBytes ids) ++ rest') by (by rewrite <- !app_assoc).
    apply get_prefix. rewrite !len_app, len_be_bytes, len_idBytes, !len_cons, len_nil. lia.
Qed.

Lemma confirm_decode sf transId ids : wf sf -> Forall (fun id => 0 <= id <= num sf) ids ->
  2 * Z.of_nat (length ids) < 2 ^ 16 ->
  exists r sf', DecodeFileHeaderConfirmFrame sf (confirmWire transId ids) = Some (r, sf') /\
    marked NSTACKX_FLAGS_FILE_NAME_ACK NSTACKX_FLAGS_USER_DATA_ACK ids sf sf'.
Proof.
  intros Hw Hids Hlen. unfold DecodeFileHeaderConfirmFrame. offsets.
  assert (get16 (confirmWire transId ids) 6 = Some (2 * Z.of_nat (length ids))) as ->.
  { unfold confirmWire. rewrite app_assoc. apply get16_app; [done | range]. }
  cbn [mbind option_bind].
  destruct ids as [|i ids0] eqn:Ei; [by exists NSTACKX_EFAILED, sf; split; [|apply marked_nil]|].
  rewrite <- Ei in *. assert (length ids <> 0%nat) by (by subst).
  rewrite (proj2 (Z.eqb_neq _ 0)) by lia.
  replace (2 * Z.of_nat (length ids) mod 2) with 0 by (rewrite Z.mul_comm, Z.mod_mul; lia).
  cbn [orb negb Z.eqb]. rewrite Z.shiftr_div_pow2 by lia. change (2 ^ 1) with 2.
  replace (2 * Z.of_nat (length ids) / 2) with (Z.of_nat (length ids))
    by (rewrite Z.mul_comm, Z.div_mul; lia).
  rewrite wrapU_id, Nat2Z.id by range. clear Ei i ids0.
  assert (num sf < 2 ^ 16) as Hn.
  { unfold wf, NSTACKX_DFILE_MAX_FILE_NUM in Hw. destruct (fl_list sf); lia. }
  destruct (markLoop_marks NSTACKX_FLAGS_FILE_NAME_ACK NSTACKX_FLAGS_USER_DATA_ACK
    (fun id => negb (FileListGetNum sf <? id)) FileListSetFileNameAcked (num sf)
    ([NSTACKX_DFILE_FILE_HEADER_CONFIRM_FRAME; 0; 0; 0] ++ be_bytes 2 transId ++
     be_bytes 2 (2 * Z.of_nat (length ids))) [] ids sf) as (sf' & E & M); [done | | | done | done |].
  - intros x id Hwx Hnx Hid Hv. rewrite wf_FileListGetNum in Hv by done.
    apply negb_true_iff, Z.ltb_ge in Hv. apply mark_ack; [done | unfold is_u in Hid; lia].
  - eapply Forall_impl; [exact Hids|]. cbn beta. intros; range.
  - exists NSTACKX_EOK, sf'. rewrite list_filter_all in M.
    + split; [|done]. rewrite <- !app_assoc in E. cbn [app length] in E. unfold confirmWire.
      cbn [app]. change (Z.of_nat 0) with 0 in E. by rewrite E.
    + eapply Forall_impl; [exact Hids|]. cbn beta. intros id Hid.
      rewrite wf_FileListGetNum by done. apply negb_true_iff, Z.ltb_ge. lia.
Qed.

Fixpoint deliverAcks (sf : FileList) (frames : list bytes) : option FileList :=
  match frames with
  | [] => Some sf
  | f :: fs => '(_, sf') ← DecodeFileHeaderConfirmFrame sf f; deliverAcks sf' fs
  end.

Lemma marked_ext f u a b sf sf' : (forall id, id ∈ a <-> id ∈ b) -> marked f u a sf sf' -> marked f u b sf sf'.
Proof.
  intros H [M1 M2 M3 M4 M5]. split; try done.
  - intros id. rewrite M4. apply option_fmap_ext. intros e.
    destruct (decide (id ∈ a)), (decide (id ∈ b)); naive_solver.
  - rewrite M5. destruct (decide (0 ∈ a)), (decide (0 ∈ b)); naive_solver.
Qed.

Lemma confirm_ids rf last last' : 0 <= last <= last' -> last' <= num rf ->
  Forall (fun id => 0 <= id <= num rf) (userIds rf ++ recvIds rf last last').
Proof.
  intros H1 H2. apply Forall_forall. intros id. rewrite elem_of_app. intros [Hid|Hid].
  - unfold userIds in Hid. destruct (_ && _); [|by apply elem_of_nil in Hid].
    apply list_elem_of_singleton in Hid as ->. lia.
  - unfold recvIds in Hid. apply list_elem_of_filter in Hid as [_ Hid].
    apply elem_of_seqZ in Hid. lia.
Qed.

Lemma SendFileHeaderConfirm_spec rf sf transId mtu k last : wf rf -> wf sf -> num rf <= num sf ->
  12 <= mtu <= NSTACKX_MAX_FRAME_SIZE -> 0 <= last <= num rf -> (Z.to_nat (num rf - last) < k)%nat ->
  exists frames sf',
    SendFileHeaderConfirm (replicate k true) transId rf mtu last = Some (frames, num rf, true) /\
    deliverAcks sf frames = Some sf' /\
    marked NSTACKX_FLAGS_FILE_NAME_ACK NSTACKX_FLAGS_USER_DATA_ACK
      (userIds rf ++ recvIds rf last (num rf)) sf sf'.
Proof.
  intros Hw Hws Hns Hm. revert last sf Hws Hns.
  induction k as [|k IH]; intros last sf Hws Hns Hlast Hk; [lia|]. cbn [replicate SendFileHeaderConfirm].
  destruct (confirmRound rf transId mtu last Hw Hm Hlast)
    as (last' & b & ids & -> & Hl' & Hge & Hlen & -> & E).
  cbn [mbind option_bind]. apply bind_Some in E as (b' & -> & E). cbn [mbind option_bind].
  rewrite E. cbn [mbind option_bind negb]. rewrite (wf_FileListGetNum rf Hw).
  destruct (confirm_decode sf transId (userIds rf ++ recvIds rf last last') Hws)
    as (r & sf1 & D & M1); [|done|].
  { eapply Forall_impl; [apply confirm_ids; lia|]. cbn beta. intros; lia. }
  destruct (Z.eqb_spec last' (num rf)) as [->|Hne].
  - exists [confirmWire transId (userIds rf ++ recvIds rf last (num rf))], sf1. cbn [deliverAcks]. rewrite D. by split_and!.
  - destruct (IH last' sf1) as (frames & sf2 & -> & D2 & M2);
      [by apply M1 | rewrite (mk_num _ _ _ _ _ M1); lia | lia | lia |].
    exists (confirmWire transId (userIds rf ++ recvIds rf last last') :: frames), sf2.
    cbn [deliverAcks]. rewrite D.
    cbn [mbind option_bind]. split_and!; [done | done |].
    apply (marked_ext _ _ ((userIds rf ++ recvIds rf last last') ++
      (userIds rf ++ recvIds rf last' (num rf)))); [|by apply (marked_app _ _ _ _ _ sf1)].
    intros id. rewrite (recvIds_split rf last last' (num rf)) by lia. rewrite !elem_of_app. tauto.
Qed.

(** Confirmations reach the sender.  Sending the confirmations terminates,
    and a sender that gets the frames marks as confirmed exactly the files the
    receiver has (and the user data, when the receiver has it), and changes
    nothing else; when the receiver has everything, the sender then finds that
    all names were confirmed. *)
Theorem confirm_frames_acknowledge rf sf transId mtu : wf rf -> wf sf -> num rf <= num sf ->
  12 <= mtu <= NSTACKX_MAX_FRAME_SIZE ->
  exists frames sf',
    SendFileHeaderConfirm (replicate (Z.to_nat (num rf) + 1) true) transId rf mtu 0 =
      Some (frames, num rf, true) /\
    deliverAcks sf frames = Some sf' /\
    marked NSTACKX_FLAGS_FILE_NAME_ACK NSTACKX_FLAGS_USER_DATA_ACK
      (userIds rf ++ recvIds rf 0 (num rf)) sf sf' /\
    ((forall id, 1 <= id <= (if tarFlag sf then 1 else num sf) -> id <= num rf /\ received rf id = true) ->
     (has (userDataFlag sf) NSTACKX_DFILE_HEADER_FRAME_USER_DATA_FLAG = true -> userIds rf = [0]) ->
     1 <= num sf -> FileListAllFileNameAcked sf' = Some true).
Proof.
  intros Hw Hws Hn Hm. assert (0 <= num rf) as H0 by (unfold wf in Hw; destruct (fl_list rf); lia).
  destruct (SendFileHeaderConfirm_spec rf sf transId mtu (Z.to_nat (num rf) + 1) 0)
    as (frames & sf' & E & D & M); [done..| lia | lia |].
  exists frames, sf'. split_and!; try done. intros Hall Hu Hpos.
  assert (has (userDataFlag sf') NSTACKX_DFILE_HEADER_FRAME_USER_DATA_FLAG &&
    negb (has (userDataFlag sf') NSTACKX_FLAGS_USER_DATA_ACK) = false) as Hflag.
  { rewrite (mk_user _ _ _ _ _ M).
    destruct (has (userDataFlag sf) NSTACKX_DFILE_HEADER_FRAME_USER_DATA_FLAG) eqn:Ef.
    - rewrite (Hu eq_refl), decide_True by set_solver.
      by rewrite (has_lor_r _ NSTACKX_FLAGS_USER_DATA_ACK), andb_false_r by done.
    - destruct (decide _); [rewrite has_lor_other by done|]; by rewrite Ef. }
  unfold FileListAllFileNameAcked. rewrite Hflag. apply allFlag_true.
  rewrite (mk_tar _ _ _ _ _ M), (mk_num _ _ _ _ _ M). intros id Hid.
  destruct (Hall id Hid) as [Hle Hr].
  destruct (wf_entry_at sf id Hws) as (l & e & El & He & _); [destruct (tarFlag sf); lia|].
  exists (or_flags NSTACKX_FLAGS_FILE_NAME_ACK e). split; [|by apply has_lor_r].
  rewrite (mk_entry _ _ _ _ _ M), (entryAt_list sf l), He by (done || lia).
  cbn [fmap option_fmap option_map]. rewrite decide_True; [done|].
  apply elem_of_app. right. unfold recvIds. apply list_elem_of_filter.
  split; [done|]. apply elem_of_seqZ. lia.
Qed.

(** The receiver of the two files confirms them. *)
Definition wReceived : FileList :=
  match SendFileHeader (wStat 5) (replicate 4 true) 7 wSent 64 (-1) with
  | Some (frames, _, _) => default wList (deliver false wList frames)
  | None => wList
  end.

Lemma confirm_frames_acknowledge_witness :
  exists frames sf',
    SendFileHeaderConfirm (replicate 3 true) 7 wReceived 64 0 = Some (frames, 2, true) /\
    deliverAcks wSent frames = Some sf' /\ FileListAllFileNameAcked sf' = Some true.
Proof.
  destruct (confirm_frames_acknowledge wReceived wSent 7 64) as (frames & sf' & E & D & _ & A).
  - apply (bool_decide_unpack (wf wReceived)). by vm_compute.
  - apply (bool_decide_unpack (wf wSent)). by vm_compute.
  - by vm_compute.
  - by vm_compute.
  - exists frames, sf'. split; [exact E|]. split; [exact D|]. apply A.
    + assert ((if tarFlag wSent then 1 else num wSent) = 2) as -> by (by vm_compute).
      intros id Hid. assert (id = 1 \/ id = 2) as [->| ->] by lia; (split; by vm_compute).
    + intros _. by vm_compute.
    + by vm_compute.
Defined.

(** ** Done, reset and back pressure *)

Lemma putIds_spec pre ids0 old rest ids : len pre = 8 -> len old = 2 * Z.of_nat (length ids) ->
  putIds (pre ++ idBytes ids0 ++ old ++ rest) (Z.of_nat (length ids0)) ids =
    Some (pre ++ idBytes (ids0 ++ ids) ++ rest).
Proof.
  intros Hpre. revert ids0 old. induction ids as [|id ids IH]; intros ids0 old Hold; cbn [putIds].
  - assert (old = []) as -> by (destruct old; [done|]; rewrite len_cons in Hold;
      pose proof (len_nonneg old); cbn in Hold; lia). by rewrite app_nil_r.
  - cbn [length] in Hold. destruct (split_len old 2) as (x & y & -> & Lx); [lia|]. rewrite len_app in Hold.
    unfold put16, off_payload. rewrite <- (app_assoc x), (app_assoc pre).
    rewrite (put_at _ x) by (rewrite ?len_app, ?len_idBytes, ?len_be_bytes; lia).
    cbn [mbind option_bind]. rewrite <- (app_assoc pre), (app_assoc (idBytes ids0)), <- idBytes_snoc.
    replace (Z.of_nat (length ids0) + 1) with (Z.of_nat (length (ids0 ++ [id])))
      by (rewrite length_app; cbn [length]; lia).
    rewrite IH by lia. by rewrite <- app_assoc.
Qed.

(** A done frame with the numbers [ids]; [mid] is what the buffer held as
    flag, sessionId and transId. *)
Definition doneWire (mid : bytes) (ids : list Z) : bytes :=
  [NSTACKX_DFILE_FILE_TRANSFER_DONE_FRAME] ++ mid ++ be_bytes 2 (2 * Z.of_nat (length ids)) ++ idBytes ids.

Lemma EncodeFileTransferDoneFrame_spec t f s1 s2 i1 i2 l1 l2 rest L ids :
  8 <= L < 2 ^ 16 -> L <= 8 + len rest ->
  exists rest' k, k = Nat.min (Z.to_nat ((L - 8) / 2)) (length ids) /\
    EncodeFileTransferDoneFrame ([t; f; s1; s2; i1; i2; l1; l2] ++ rest) L ids =
      Some (doneWire [f; s1; s2; i1; i2] (take k ids) ++ rest', 8 + 2 * Z.of_nat k).
Proof.
  intros HL Hr. set (k := (Nat.min (Z.to_nat ((L - 8) / 2)) (length ids))).
  assert (2 * Z.of_nat k <= L - 8) as Hk by (unfold k; cint).
  destruct (split_len rest (2 * Z.of_nat k)) as (old & post & -> & Lo); [lia|].
  exists post, k. split; [done|]. unfold EncodeFileTransferDoneFrame. offsets.
  rewrite (wrapU_id 64) by range. rewrite (wrapU_id 32) by cint.
  replace (Z.min ((L - 8) / 2) (Z.of_nat (length ids))) with (Z.of_nat k) by (unfold k; cint).
  rewrite Nat2Z.id. assert (length (take k ids) = k) as Hlk by (rewrite length_take; unfold k; lia).
  change 0 with (Z.of_nat (length (@nil Z))) at 1.
  change ([t; f; s1; s2; i1; i2; l1; l2] ++ old ++ post)
    with ([t; f; s1; s2; i1; i2; l1; l2] ++ idBytes [] ++ old ++ post).
  rewrite putIds_spec by (done || (rewrite Hlk; lia)). cbn [mbind option_bind app].
  rewrite (Z.mul_comm _ 2), (wrapU_id 16) by range.
  unfold doneWire. rewrite Hlk.
  destruct (be_bytes2_named (2 * Z.of_nat k)) as (u1 & u2 & Eu & _); [range|].
  unfold put8, put16. rewrite Eu.
  change (t :: f :: s1 :: s2 :: i1 :: i2 :: l1 :: l2 :: idBytes (take k ids) ++ post)
    with ([t; f; s1; s2; i1; i2; l1; l2] ++ idBytes (take k ids) ++ post).
  eval_puts. done.
Qed.

Lemma doneWire_decode sf mid ids : wf sf -> len mid = 5 -> Forall (is_u 16) ids ->
  2 * Z.of_nat (length ids) < 2 ^ 16 ->
  exists r sf', DecodeFileTransferDoneFrame sf (doneWire mid ids) = Some (r, sf') /\
    marked NSTACKX_FLAGS_FILE_SEND_SUCCESS 0 (filter (fun id => 1 <= id <= num sf) ids) sf sf'.
Proof.
  intros Hw Hmid Hids Hlen. unfold DecodeFileTransferDoneFrame. offsets.
  assert (get16 (doneWire mid ids) 6 = Some (2 * Z.of_nat (length ids))) as ->.
  { unfold doneWire. rewrite app_assoc. apply get16_app; [rewrite len_app, Hmid; done | range]. }
  cbn [mbind option_bind].
  destruct (Z.eqb_spec (2 * Z.of_nat (length ids)) 0).
  { destruct ids; [|cbn [length] in *; lia]. exists NSTACKX_EFAILED, sf. split; [done | apply marked_nil]. }
  replace (2 * Z.of_nat (length ids) mod 2) with 0 by (rewrite Z.mul_comm, Z.mod_mul; lia).
  cbn [orb negb Z.eqb].
  replace (2 * Z.of_nat (length ids) / 2) with (Z.of_nat (length ids))
    by (rewrite Z.mul_comm, Z.div_mul; lia). rewrite Nat2Z.id.
  destruct (markLoop_marks NSTACKX_FLAGS_FILE_SEND_SUCCESS 0
    (fun id => negb ((id =? 0) || (FileListGetNum sf <? id))) FileListSetFileSendSuccess (num sf)
    ([NSTACKX_DFILE_FILE_TRANSFER_DONE_FRAME] ++ mid ++ be_bytes 2 (2 * Z.of_nat (length ids)))
    [] ids sf) as (sf' & E & M);
    [rewrite !len_app, Hmid, len_be_bytes; done | | done | done | done |].
  - intros x id Hwx Hnx Hid Hv. rewrite wf_FileListGetNum in Hv by done.
    apply negb_true_iff, orb_false_iff in Hv as [Hv1%Z.eqb_neq Hv2%Z.ltb_ge].
    unfold is_u in Hid. apply mark_entry; [done | lia].
  - exists NSTACKX_EOK, sf'. split.
    + rewrite <- !app_assoc in E. cbn [app length] in E. unfold doneWire. cbn [app].
      change (Z.of_nat 0) with 0 in E. by rewrite E.
    + eapply marked_ext; [|exact M]. intros id. rewrite !list_elem_of_filter.
      rewrite wf_FileListGetNum by done. rewrite Forall_forall in Hids.
      split; intros [H1 H2]; (split; [|done]); specialize (Hids id H2); unfold is_u in Hids.
      * apply negb_true_iff, orb_false_iff in H1 as [H3%Z.eqb_neq H4%Z.ltb_ge]. lia.
      * apply negb_true_iff, orb_false_iff. split; [apply Z.eqb_neq | apply Z.ltb_ge]; lia.
Qed.

Lemma EncodeRstFrame_spec b L transId code : 10 <= L -> 10 <= len b ->
  EncodeRstFrame b L transId code =
    Some (([9; 0; 0; 0] ++ be_bytes 2 transId ++ [0; 2] ++ be_bytes 2 code) ++ drop 10 b, 10).
Proof.
  intros HL Hb. unfold EncodeRstFrame. offsets. split_cmp. name_bytes b 10%nat.
  assert (exists c1 c2, be_bytes 2 code = [c1; c2]) as (c1 & c2 & Ec) by (by eexists _, _).
  assert (exists d1 d2, be_bytes 2 transId = [d1; d2]) as (d1 & d2 & Ed) by (by eexists _, _).
  unfold put8, put16. rewrite Ec, Ed. eval_puts. done.
Qed.

Lemma EncodeBackPressFrame_spec b L over : 14 <= L -> 14 <= len b -> is_u 8 over ->
  EncodeBackPressFrame b L over =
    Some ([13; 0; 0; 0; 0; 0; 0; 6; over; 0; 0; 0; 0; 0] ++ drop 14 b, 14).
Proof.
  intros HL Hb Ho. unfold EncodeBackPressFrame. offsets. split_cmp. name_bytes b 14%nat.
  assert (be_bytes 1 over = [over]) as Eo.
  { cbn. f_equal. change 255 with (Z.ones 8). rewrite Z.land_ones by lia. by apply Z.mod_small. }
  unfold put8, put16, put32. rewrite Eo. eval_puts. done.
Qed.

(** Done, reset and back pressure frames.  A done frame carries as many of
    the numbers as fit, and the sender that decodes it marks exactly the valid
    ones among these as sent; the error code of a reset frame and the value of
    a back pressure frame arrive as they were sent.  The encoders write only
    the frame and leave the rest of the buffer. *)
Theorem control_frames_roundtrip transId code over :
  is_u 16 code -> is_u 8 over ->
  (forall t f s1 s2 i1 i2 l1 l2 rest L ids sf, 8 <= L < 2 ^ 16 -> L <= 8 + len rest ->
    Forall (is_u 16) ids -> wf sf ->
    exists frame rest' r sf', let k := Nat.min (Z.to_nat ((L - 8) / 2)) (length ids) in
      EncodeFileTransferDoneFrame ([t; f; s1; s2; i1; i2; l1; l2] ++ rest) L ids =
        Some (frame ++ rest', len frame) /\ len frame = 8 + 2 * Z.of_nat k /\
      DecodeFileTransferDoneFrame sf frame = Some (r, sf') /\
      marked NSTACKX_FLAGS_FILE_SEND_SUCCESS 0
        (filter (fun id => 1 <= id <= num sf) (take k ids)) sf sf') /\
  (forall b L, 10 <= L -> 10 <= len b ->
    exists frame, EncodeRstFrame b L transId code = Some (frame ++ drop 10 b, 10) /\
      len frame = 10 /\
      forall old, DecodeRstFrame frame old true = Some (NSTACKX_EOK, code, Some ([], 0))) /\
  (forall b L, 14 <= L -> 14 <= len b ->
    exists frame, EncodeBackPressFrame b L over = Some (frame ++ drop 14 b, 14) /\
      len frame = 14 /\
      forall old, DecodeBackPressFrame frame old = Some (NSTACKX_EOK, mkBackPressure over 0 0)).
Proof.
  intros Hc Ho. split_and!.
  - intros t f s1 s2 i1 i2 l1 l2 rest L ids sf HL Hr Hids Hw.
    destruct (EncodeFileTransferDoneFrame_spec t f s1 s2 i1 i2 l1 l2 rest L ids HL Hr)
      as (rest' & k & -> & E). set (k := (Nat.min (Z.to_nat ((L - 8) / 2)) (length ids))) in *.
    assert (length (take k ids) = k) as Hlk by (rewrite length_take; unfold k; lia).
    destruct (doneWire_decode sf [f; s1; s2; i1; i2] (take k ids) Hw) as (r & sf' & D & M);
      [done | by apply Forall_take | rewrite Hlk; unfold k; cint |].
    exists (doneWire [f; s1; s2; i1; i2] (take k ids)), rest', r, sf'.
    assert (len (doneWire [f; s1; s2; i1; i2] (take k ids)) = 8 + 2 * Z.of_nat k) as El.
    { unfold doneWire. rewrite !len_app, len_be_bytes, len_idBytes, Hlk, !len_cons, len_nil. lia. }
    cbn zeta. fold k. rewrite El. by split_and!.
  - intros b L HL Hb. rewrite EncodeRstFrame_spec by done. eexists. split; [done|].
    split; [rewrite !len_app, !len_be_bytes; done|]. intros old. unfold DecodeRstFrame. offsets.
    assert (exists d1 d2, be_bytes 2 transId = [d1; d2]) as (d1 & d2 & ->) by (by eexists _, _).
    destruct (be_bytes2_named code Hc) as (c1 & c2 & -> & Vc). cbn [app]. eval_reads. by rewrite Vc.
  - intros b L HL Hb. rewrite EncodeBackPressFrame_spec by done. eexists. by split_and!.
Qed.

Lemma control_frames_roundtrip_witness :
  (exists frame rest' r sf',
    EncodeFileTransferDoneFrame (replicate 14 0) 12 [1; 9; 2] = Some (frame ++ rest', len frame) /\
    len frame = 12 /\ DecodeFileTransferDoneFrame wSent frame = Some (r, sf') /\
    marked NSTACKX_FLAGS_FILE_SEND_SUCCESS 0 [1] wSent sf') /\
  (exists frame, EncodeRstFrame (replicate 12 5) 12 3 210 = Some (frame ++ [5; 5], 10) /\
    forall old, DecodeRstFrame frame old true = Some (NSTACKX_EOK, 210, Some ([], 0))).
Proof.
  destruct (control_frames_roundtrip 3 210 1) as (H1 & H2 & _); [range..|]. split.
  - destruct (H1 0 0 0 0 0 0 0 0 (replicate 6 0) 12 [1; 9; 2] wSent)
      as (frame & rest' & r & sf' & E & El & D & M); [range | by vm_compute | repeat constructor; range | |].
    + apply (bool_decide_unpack (wf wSent)). by vm_compute.
    + exists frame, rest', r, sf'. split_and!; [exact E | exact El | exact D | exact M].
  - destruct (H2 (replicate 12 5) 12) as (frame & E & _ & D); [lia | by vm_compute |].
    exists frame. split; [exact E | exact D].
Defined.

(** The receiver refuses a header frame whose last unit is user data of length
    0, which is what the sender encodes when only the user data [""] is left
    to be confirmed. *)
Definition wEmptyUser : FileList :=
  mkFileList (Some [set_flags zeroEntry NSTACKX_FLAGS_FILE_NAME_ACK]) 1 (Some [0]) 1 0 0 None 0
    false false None (mkRest 0 0 0 0 0 0 0 0).

Definition wEmptyUserFrame : bytes :=
  [1; 1; 0; 0; 0; 0; 0; 14; 0; 1; 0; 0; 0; 0; 0; 0; 0; 0; 0; 0; 0; 0].

Lemma empty_user_data_refused :
  option_map (fun '(b, n, last) => (take (Z.to_nat n) b, last))
    (EncodeFileHeaderFrame (wStat 5) wEmptyUser (-1) (replicate 64 0) 64) =
      Some (wEmptyUserFrame, 1) /\
  option_map fst (DecodeFileHeaderFrame false true true wList wEmptyUserFrame) =
    Some NSTACKX_EFAILED.
Proof. split; vm_compute; reflexivity. Qed.

End FileHeaders.
