(* ===== verification/Adapter.v ===== *)
(** * The adapter layer: memory, byte order, encryption

    What the transmission code uses of [adapter/common]:

    - [Mem]: the size limit of [SoftBusMalloc] and [SoftBusCalloc];
    - [ByteOrder]: the conversions of [softbus_adapter_socket.c] between the
      order of the host and little-endian order.  The order of the host is an
      argument; [ShiftByte] swaps by exclusive or, as the code does;
    - [Crypto]: [softbus_adapter_crypto.c] over mbedtls.  The cipher itself is
      the class [Gcm]: AES-GCM preserves lengths, has a tag of 16 bytes, and
      decrypts what it encrypted.  [toyGcm] is a concrete instance for
      witnesses.

    Encrypting and decrypting is a round trip; the buffers are large enough
    for every length a caller may pass without wrapping. *)

From S2P Require Import Prelude Errno Bytes.
Import Errno Bytes.

(** ** A state monad with undefined behaviour

    [None] is an access outside memory.  The notations are those of
    [stdpp]. *)

Definition M (S A : Type) : Type := S -> option (A * S).

#[global] Instance M_ret S : MRet (M S) := fun A a s => Some (a, s).
#[global] Instance M_bind S : MBind (M S) :=
  fun A B k m s => match m s with Some (a, s') => k a s' | None => None end.

Definition gets {S A} (f : S -> A) : M S A := fun s => Some (f s, s).
Definition modify {S} (f : S -> S) : M S unit := fun s => Some (tt, f s).
Definition ub {S A} : M S A := fun _ => None.
Definition lift {S A} (o : option A) : M S A := fun s => (fun a => (a, s)) <$> o.

(** Run one step of a computation whose result is known. *)
Lemma bind_eq {S A B} (m : M S A) (k : A -> M S B) s a s' :
  m s = Some (a, s') -> (m ≫= k) s = k a s'.
Proof. unfold mbind, M_bind. by intros ->. Qed.

Lemma bind_Some {S A B} (m : M S A) (k : A -> M S B) s r :
  (m ≫= k) s = Some r -> exists a s', m s = Some (a, s') /\ k a s' = Some r.
Proof. unfold mbind, M_bind. destruct (m s) as [[a s']|]; [eauto|done]. Qed.

Module Mem.

Definition MAX_MALLOC_SIZE : Z := 512 * 1024 * 1024.

(** [SoftBusMalloc] and [SoftBusCalloc]: [ok] is whether the system has the
    memory (and [memset_s] clears it). *)
Definition SoftBusMalloc (ok : bool) (size : Z) : bool :=
  if MAX_MALLOC_SIZE <? size then false else ok.

Definition SoftBusCalloc (ok : bool) (size : Z) : bool :=
  if negb (SoftBusMalloc ok size) then false else true.

Lemma calloc_bound ok size : SoftBusCalloc ok size = true -> size <= MAX_MALLOC_SIZE.
Proof. unfold SoftBusCalloc, SoftBusMalloc. destruct (Z.ltb_spec MAX_MALLOC_SIZE size); [done|]. lia. Qed.

Lemma malloc_bound ok size : SoftBusMalloc ok size = true -> size <= MAX_MALLOC_SIZE.
Proof. unfold SoftBusMalloc. destruct (Z.ltb_spec MAX_MALLOC_SIZE size); [done|]. lia. Qed.

Lemma malloc_true size : size <= MAX_MALLOC_SIZE -> SoftBusMalloc true size = true.
Proof. intros. unfold SoftBusMalloc. by split_cmp. Qed.

Lemma calloc_true size : size <= MAX_MALLOC_SIZE -> SoftBusCalloc true size = true.
Proof. intros. unfold SoftBusCalloc. by rewrite malloc_true. Qed.

End Mem.

Module ByteOrder.

(** ** Little-endian numbers and the host's *)

Definition le_bytes (n : nat) (x : Z) : bytes := reverse (be_bytes n x).
Definition le_val (bs : bytes) : Z := be_val (reverse bs).

(** A number in the memory of a host that is little-endian or not. *)
Definition host_bytes (little : bool) (n : nat) (x : Z) : bytes :=
  if little then le_bytes n x else be_bytes n x.
Definition host_val (little : bool) (bs : bytes) : Z :=
  if little then le_val bs else be_val bs.

(** [ShiftByte]: the loop of exclusive ors over [left < right]. *)
Fixpoint shiftLoop (rounds : nat) (bs : bytes) (left right : Z) : option bytes :=
  match rounds with
  | O => Some bs
  | S r =>
      if left <? right then
        l ← bs !! Z.to_nat left;
        x ← bs !! Z.to_nat right;
        let l1 := Z.lxor l x in
        let r1 := Z.lxor x l1 in
        let l2 := Z.lxor l1 r1 in
        shiftLoop r (<[Z.to_nat right := r1]> (<[Z.to_nat left := l2]> bs)) (left + 1) (right - 1)
      else Some bs
  end.

Definition ShiftByte (bs : bytes) (inSize : Z) : option bytes :=
  shiftLoop (Z.to_nat inSize) bs 0 (inSize - 1).

Definition ProcByteOrder (little : bool) (bs : bytes) (size : Z) : option bytes :=
  if little then Some bs else ShiftByte bs size.

(** [SoftBusHtoLl] and its kin: the number whose bytes in memory are those of
    the argument in little-endian order, and back; the two directions are the
    same code. *)
Definition convert (little : bool) (n : nat) (value : Z) : option Z :=
  bs ← ProcByteOrder little (host_bytes little n value) (Z.of_nat n);
  Some (host_val little bs).

Definition SoftBusHtoLs (little : bool) (value : Z) : option Z := convert little 2 value.
Definition SoftBusHtoLl (little : bool) (value : Z) : option Z := convert little 4 value.
Definition SoftBusHtoLll (little : bool) (value : Z) : option Z := convert little 8 value.
Definition SoftBusLtoHs (little : bool) (value : Z) : option Z := convert little 2 value.
Definition SoftBusLtoHl (little : bool) (value : Z) : option Z := convert little 4 value.
Definition SoftBusLtoHll (little : bool) (value : Z) : option Z := convert little 8 value.

Lemma length_le_bytes n x : length (le_bytes n x) = n.
Proof. unfold le_bytes. by rewrite length_reverse, length_be_bytes. Qed.

Lemma len_le_bytes n x : len (le_bytes n x) = Z.of_nat n.
Proof. unfold le_bytes, len. by rewrite length_reverse, length_be_bytes. Qed.

Lemma len_host_bytes l n x : len (host_bytes l n x) = Z.of_nat n.
Proof. destruct l; simpl; [apply len_le_bytes | apply len_be_bytes]. Qed.

#[export] Hint Rewrite len_le_bytes len_host_bytes : lens.

Lemma le_val_bytes n x : is_u (8 * Z.of_nat n) x -> le_val (le_bytes n x) = x.
Proof. intros. unfold le_val, le_bytes. rewrite reverse_involutive. by apply be_val_bytes_id. Qed.

Lemma host_val_bytes l n x : is_u (8 * Z.of_nat n) x -> host_val l (host_bytes l n x) = x.
Proof. destruct l; simpl; [apply le_val_bytes | apply be_val_bytes_id]. Qed.

Lemma le_bytes_is_bytes n x : is_bytes (le_bytes n x).
Proof. unfold is_bytes, le_bytes. apply Forall_reverse, be_bytes_is_bytes. Qed.

Lemma host_bytes_is_bytes l n x : is_bytes (host_bytes l n x).
Proof. destruct l; [apply le_bytes_is_bytes | apply be_bytes_is_bytes]. Qed.

Lemma le_val_range bs : is_bytes bs -> is_u (8 * len bs) (le_val bs).
Proof.
  intros. unfold le_val.
  replace (len bs) with (len (reverse bs)) by (unfold len; by rewrite length_reverse).
  apply be_val_range. by apply Forall_reverse.
Qed.

(** Bytes are determined by their number. *)
Lemma be_bytes_val bs : is_bytes bs -> be_bytes (length bs) (be_val bs) = bs.
Proof.
  induction bs as [|b bs IH] using rev_ind; intros H; [done|].
  apply Forall_app in H as [H1 H2]. apply Forall_cons in H2 as [H2 _].
  rewrite length_app, be_val_app. simpl. rewrite Nat.add_1_r. cbn [be_bytes].
  rewrite Z.shiftr_div_pow2 by lia. change 255 with (Z.ones 8). rewrite Z.land_ones by lia.
  unfold is_u in H2. change (2 ^ 8) with 256 in *.
  rewrite Z.div_add_l, (Z.div_small b), Z.add_0_r, IH by (done || lia).
  rewrite (Z.add_comm (_ * _)), Z_mod_plus_full, Z.mod_small by lia. done.
Qed.

Lemma le_bytes_val bs : is_bytes bs -> le_bytes (length bs) (le_val bs) = bs.
Proof.
  intros. unfold le_bytes, le_val. rewrite <- (length_reverse bs).
  rewrite be_bytes_val by (by apply Forall_reverse). apply reverse_involutive.
Qed.

Lemma lxor_swap a b : Z.lxor (Z.lxor a b) (Z.lxor b (Z.lxor a b)) = b /\ Z.lxor b (Z.lxor a b) = a.
Proof.
  split; apply Z.bits_inj'; intros i _; rewrite !Z.lxor_spec;
    by destruct (Z.testbit a i), (Z.testbit b i).
Qed.

(** The loop reverses what lies between its two indices. *)
Lemma shiftLoop_spec n p m s left right :
  left = len p -> right = left + len m - 1 -> (length m <= n)%nat ->
  shiftLoop n (p ++ m ++ s) left right = Some (p ++ reverse m ++ s).
Proof.
  revert p m s left right. induction n as [|n IH]; intros p m s left right -> -> Hn.
  { destruct m; [done|simpl in Hn; lia]. }
  cbn [shiftLoop].
  destruct m as [|a m].
  { rewrite (proj2 (Z.ltb_ge _ _)) by lens. done. }
  destruct m as [|b m _] using rev_ind.
  { rewrite (proj2 (Z.ltb_ge _ _)) by lens. done. }
  autorewrite with lens. simpl in Hn. rewrite length_app in Hn. simpl in Hn.
  pose proof (len_nonneg m). pose proof (len_nonneg p).
  rewrite (proj2 (Z.ltb_lt _ _)) by lia.
  replace (p ++ (a :: m ++ [b]) ++ s) with (p ++ a :: m ++ b :: s) by (simpl; by rewrite <- app_assoc).
  assert (Z.to_nat (len p) = length p) as -> by (unfold len; lia).
  assert (Z.to_nat (len p + (1 + (len m + (1 + 0))) - 1) = length (p ++ a :: m)) as ->
    by (rewrite length_app; unfold len; simpl; lia).
  assert ((p ++ a :: m ++ b :: s) !! length p = Some a) as -> by (by apply list_lookup_middle).
  assert ((p ++ a :: m ++ b :: s) !! length (p ++ a :: m) = Some b) as E.
  { replace (p ++ a :: m ++ b :: s) with ((p ++ a :: m) ++ b :: s) by (by rewrite <- app_assoc).
    by apply list_lookup_middle. }
  cbn [mbind option_bind]. rewrite E. cbn [mbind option_bind]. clear E.
  destruct (lxor_swap a b) as [-> ->].
  rewrite insert_app_r_alt, Nat.sub_diag by lia. cbn [insert list_insert].
  replace (p ++ b :: m ++ b :: s) with ((p ++ b :: m) ++ b :: s) by (by rewrite <- app_assoc).
  assert (length (p ++ a :: m) = length (p ++ b :: m)) as -> by (rewrite !length_app; done).
  rewrite insert_app_r_alt, Nat.sub_diag by lia. cbn [insert list_insert].
  replace ((p ++ b :: m) ++ a :: s) with ((p ++ [b]) ++ m ++ (a :: s)) by (by rewrite <- !app_assoc).
  rewrite IH by (autorewrite with lens; lia || lia).
  rewrite reverse_cons, reverse_app. by rewrite <- !app_assoc.
Qed.

Lemma ShiftByte_spec bs : ShiftByte bs (len bs) = Some (reverse bs).
Proof.
  unfold ShiftByte. rewrite <- (app_nil_r bs) at 2.
  rewrite (shiftLoop_spec _ [] bs []) by (unfold len; simpl; lia || lia).
  simpl. by rewrite app_nil_r.
Qed.

(** On a little-endian host the conversions are the identity. *)
Lemma convert_little n x : is_u (8 * Z.of_nat n) x -> convert true n x = Some x.
Proof. intros. unfold convert, ProcByteOrder. cbn [mbind option_bind]. f_equal. by apply (host_val_bytes true). Qed.

(** On any host, the bytes of a converted number in memory are its
    little-endian bytes. *)
Lemma convert_bytes l n x v : (0 < n)%nat -> is_u (8 * Z.of_nat n) x -> convert l n x = Some v ->
  host_bytes l n v = le_bytes n x.
Proof.
  intros Hn Hx. destruct l.
  { rewrite convert_little by done. by intros [= <-]. }
  unfold convert, ProcByteOrder. cbn [host_bytes host_val].
  rewrite <- (len_be_bytes n x), ShiftByte_spec. cbn [mbind option_bind]. intros [= <-].
  unfold le_bytes. rewrite <- (length_be_bytes n x) at 1. rewrite <- length_reverse.
  apply be_bytes_val, Forall_reverse, be_bytes_is_bytes.
Qed.

End ByteOrder.

Module Crypto.
Import ByteOrder.

Definition GCM_IV_LEN : Z := 12.
Definition TAG_LEN : Z := 16.
Definition OVERHEAD_LEN : Z := GCM_IV_LEN + TAG_LEN.
Definition SESSION_KEY_LENGTH : Z := 32.

(** ** The cipher

    [mbedtls_gcm_setkey], [mbedtls_gcm_crypt_and_tag] (the cipher text and the
    tag, from key, iv and plain text) and [mbedtls_gcm_auth_decrypt] (the
    plain text, from key, iv, tag and cipher text; nothing when the tag does
    not match). *)
Class Gcm := {
  gcm_setkey : bytes -> bool;
  gcm_crypt_and_tag : bytes -> bytes -> bytes -> option (bytes * bytes);
  gcm_auth_decrypt : bytes -> bytes -> bytes -> bytes -> option bytes;
}.

(** What AES-GCM promises: lengths, bytes, and that it decrypts what it
    encrypted. *)
Class GcmLaws (G : Gcm) : Prop := {
  gcm_crypt_len : forall key iv p c t, gcm_crypt_and_tag key iv p = Some (c, t) ->
    len c = len p /\ len t = TAG_LEN /\ is_bytes c /\ is_bytes t;
  gcm_decrypt_len : forall key iv t c p, gcm_auth_decrypt key iv t c = Some p -> len p = len c;
  gcm_decrypt_crypt : forall key iv p c t, gcm_crypt_and_tag key iv p = Some (c, t) ->
    gcm_auth_decrypt key iv t c = Some p;
}.

Section Crypto.

Context `{G : Gcm}.

(** ** [softbus_adapter_crypto.c]

    A buffer argument is the memory from its pointer to the end of its
    allocation; an output buffer is returned. *)

Definition MbedAesGcmEncrypt (key iv plainText : bytes) (plainTextSize : Z)
    (cipherText : bytes) (cipherTextLen : Z) : option (Z * bytes) :=
  if (plainTextSize =? 0) || (cipherTextLen <? u32 (plainTextSize + OVERHEAD_LEN))
  then Some (SOFTBUS_INVALID_PARAM, cipherText)
  else if negb (gcm_setkey key) then Some (SOFTBUS_ENCRYPT_ERR, cipherText)
  else
    p ← get plainText 0 plainTextSize;
    match gcm_crypt_and_tag key iv p with
    | None => Some (SOFTBUS_ENCRYPT_ERR, cipherText)
    | Some (c, tagBuf) =>
        b1 ← put cipherText GCM_IV_LEN c;
        '(ok1, b2) ← memcpy_s b1 0 cipherTextLen iv GCM_IV_LEN;
        if negb ok1 then Some (SOFTBUS_ENCRYPT_ERR, b2)
        else
          '(ok2, b3) ← memcpy_s b2 (GCM_IV_LEN + plainTextSize)
                         (u32 (cipherTextLen - GCM_IV_LEN - plainTextSize)) tagBuf TAG_LEN;
          if negb ok2 then Some (SOFTBUS_ENCRYPT_ERR, b3)
          else Some (s32 (u32 (plainTextSize + OVERHEAD_LEN)), b3)
    end.

Definition MbedAesGcmDecrypt (key iv cipherText : bytes) (cipherTextSize : Z)
    (plain : bytes) (plainLen : Z) : option (Z * bytes) :=
  if (cipherTextSize <=? OVERHEAD_LEN) || (plainLen <? u32 (cipherTextSize - OVERHEAD_LEN))
  then Some (SOFTBUS_INVALID_PARAM, plain)
  else if negb (gcm_setkey key) then Some (SOFTBUS_DECRYPT_ERR, plain)
  else
    let actualPlainLen := s32 (u32 (cipherTextSize - OVERHEAD_LEN)) in
    tag ← get cipherText (actualPlainLen + GCM_IV_LEN) TAG_LEN;
    c ← get cipherText GCM_IV_LEN (u32 (cipherTextSize - OVERHEAD_LEN));
    match gcm_auth_decrypt key iv tag c with
    | None => Some (SOFTBUS_DECRYPT_ERR, plain)
    | Some p => b ← put plain 0 p; Some (actualPlainLen, b)
    end.

(** [random] is what [SoftBusGenerateRandomArray] put into the iv, if it
    could.  The results are the code, the output buffer, and the length
    written to [*encryptLen]. *)
Definition SoftBusEncryptData (random : option bytes) (key input : bytes) (inLen : Z)
    (encryptData : bytes) : option (Z * bytes * option Z) :=
  if inLen =? 0 then Some (SOFTBUS_INVALID_PARAM, encryptData, None)
  else match random with
  | None => Some (SOFTBUS_ENCRYPT_ERR, encryptData, None)
  | Some iv =>
      let outLen := u32 (inLen + OVERHEAD_LEN) in
      '(result, b) ← MbedAesGcmEncrypt key iv input inLen encryptData outLen;
      if result <=? 0 then Some (SOFTBUS_ENCRYPT_ERR, b, None)
      else Some (SOFTBUS_OK, b, Some (u32 result))
  end.

Definition SoftBusEncryptDataWithSeq (little : bool) (random : option bytes) (key input : bytes)
    (inLen : Z) (encryptData : bytes) (seqNum : Z) : option (Z * bytes * option Z) :=
  if inLen =? 0 then Some (SOFTBUS_INVALID_PARAM, encryptData, None)
  else match random with
  | None => Some (SOFTBUS_ENCRYPT_ERR, encryptData, None)
  | Some iv0 =>
      '(ok, iv) ← memcpy_s iv0 0 4 (host_bytes little 4 (u32 seqNum)) 4;
      if negb ok then Some (SOFTBUS_ENCRYPT_ERR, encryptData, None)
      else
        let outLen := u32 (inLen + OVERHEAD_LEN) in
        '(result, b) ← MbedAesGcmEncrypt key iv input inLen encryptData outLen;
        if result <=? 0 then Some (SOFTBUS_ENCRYPT_ERR, b, None)
        else Some (SOFTBUS_OK, b, Some (u32 result))
  end.

Definition SoftBusDecryptData (key input : bytes) (inLen : Z) (decryptData : bytes)
  : option (Z * bytes * option Z) :=
  if inLen <? GCM_IV_LEN then Some (SOFTBUS_INVALID_PARAM, decryptData, None)
  else
    iv ← get input 0 GCM_IV_LEN;
    let outLen := u32 (inLen - OVERHEAD_LEN) in
    '(result, b) ← MbedAesGcmDecrypt key iv input inLen decryptData outLen;
    if result <=? 0 then Some (SOFTBUS_ENCRYPT_ERR, b, None)
    else Some (SOFTBUS_OK, b, Some (u32 result)).

Definition SoftBusDecryptDataWithSeq (key input : bytes) (inLen : Z) (decryptData : bytes) (_seqNum : Z)
  : option (Z * bytes * option Z) := SoftBusDecryptData key input inLen decryptData.

Context {L : GcmLaws G}.

(** The iv of a message: its number, then random bytes. *)
Definition seq_iv (little : bool) (r : bytes) (seqNum : Z) : bytes :=
  host_bytes little 4 (u32 seqNum) ++ drop 4 r.

Lemma len_seq_iv little r s : len r = GCM_IV_LEN -> len (seq_iv little r s) = GCM_IV_LEN.
Proof.
  intros H. unfold seq_iv. rewrite len_app, len_host_bytes. unfold len in *.
  rewrite length_drop. unfold GCM_IV_LEN in *. lia.
Qed.

Lemma seq_iv_copy little r s : len r = GCM_IV_LEN ->
  memcpy_s r 0 4 (host_bytes little 4 (u32 s)) 4 = Some (true, seq_iv little r s).
Proof.
  intros Hr. unfold GCM_IV_LEN in Hr. destruct (split_len r 4) as (r0 & r1 & -> & Hr0); [lia|].
  apply memcpy_s_fits; [lia | by rewrite len_host_bytes |]. unfold seq_iv.
  rewrite drop_app_ge, (proj2 (Nat.sub_0_le 4 (length r0))), drop_0 by (unfold len in Hr0; lia).
  apply put_front. rewrite len_host_bytes. lia.
Qed.

(** What an encryption that the cipher accepts writes. *)
Lemma MbedAesGcmEncrypt_spec key iv p rest c t b :
  gcm_setkey key = true -> gcm_crypt_and_tag key iv p = Some (c, t) ->
  len iv = GCM_IV_LEN -> 0 < len p -> len p + OVERHEAD_LEN < 2 ^ 31 ->
  len b = len p + OVERHEAD_LEN ->
  MbedAesGcmEncrypt key iv (p ++ rest) (len p) b (len p + OVERHEAD_LEN) =
  Some (len p + OVERHEAD_LEN, iv ++ c ++ t).
Proof.
  intros Hk Hc Hiv Hp Hmax Hb. pose proof Hc as Hlen.
  destruct (gcm_crypt_len _ _ _ _ _ Hlen) as (Hlc & Hlt & _ & _).
  unfold OVERHEAD_LEN, GCM_IV_LEN, TAG_LEN in *.
  unfold MbedAesGcmEncrypt, OVERHEAD_LEN, GCM_IV_LEN, TAG_LEN.
  rewrite !(wrapU_id 32) by range. rewrite (wrapS_id 32) by (lia || range).
  rewrite (proj2 (Z.eqb_neq _ _)), (proj2 (Z.ltb_ge (len p + _) _)) by lia. cbn [orb].
  rewrite Hk. cbn [negb]. rewrite get_prefix by done. cbn [mbind option_bind]. rewrite Hc.
  destruct (split_len b 12) as (b0 & b' & -> & Hb0); [lia|].
  destruct (split_len b' (len p)) as (b1 & b2 & -> & Hb1); [rewrite !len_app in Hb; lia|].
  rewrite !len_app in Hb.
  rewrite (put_at b0 b1 c) by lia. cbn [mbind option_bind].
  rewrite (memcpy_s_fits _ _ _ _ _ (iv ++ c ++ b2));
    [|lia|lia|by apply (put_at [] b0 iv (c ++ b2)); lia || done].
  cbn [mbind option_bind negb].
  rewrite (memcpy_s_fits _ _ _ _ _ ((iv ++ c) ++ t ++ [])); [|lia|lia|].
  2:{ rewrite <- (app_nil_r b2), !(app_assoc iv c). apply put_at; rewrite ?len_app; lia. }
  cbn [mbind option_bind negb].
  by rewrite app_nil_r, <- app_assoc.
Qed.

Lemma encrypt_spec little r key p rest c t b s :
  gcm_setkey key = true -> len r = GCM_IV_LEN ->
  gcm_crypt_and_tag key (seq_iv little r s) p = Some (c, t) ->
  0 < len p -> len p + OVERHEAD_LEN < 2 ^ 31 -> len b = len p + OVERHEAD_LEN ->
  SoftBusEncryptDataWithSeq little (Some r) key (p ++ rest) (len p) b s =
  Some (SOFTBUS_OK, seq_iv little r s ++ c ++ t, Some (len p + OVERHEAD_LEN)).
Proof.
  intros Hk Hr Hc Hp Hmax Hb. unfold SoftBusEncryptDataWithSeq.
  rewrite (proj2 (Z.eqb_neq _ _)) by lia.
  rewrite seq_iv_copy by done.
  cbn [mbind option_bind negb].
  unfold OVERHEAD_LEN, GCM_IV_LEN, TAG_LEN in *.
  rewrite (wrapU_id 32) by range.
  rewrite (MbedAesGcmEncrypt_spec key _ p rest c t b) by (done || by apply len_seq_iv).
  cbn [mbind option_bind]. unfold OVERHEAD_LEN, GCM_IV_LEN, TAG_LEN.
  rewrite (proj2 (Z.leb_gt _ _)) by lia. by rewrite (wrapU_id 32) by range.
Qed.

Lemma MbedAesGcmDecrypt_spec key iv iv' c t rest b :
  gcm_setkey key = true -> len iv' = GCM_IV_LEN -> len t = TAG_LEN -> 0 < len c ->
  len c + OVERHEAD_LEN < 2 ^ 31 -> len b = len c ->
  MbedAesGcmDecrypt key iv (iv' ++ c ++ t ++ rest) (len c + OVERHEAD_LEN) b (len c) =
  Some (match gcm_auth_decrypt key iv t c with
        | Some p => (len c, p)
        | None => (SOFTBUS_DECRYPT_ERR, b)
        end).
Proof.
  intros Hk Hiv Ht Hc Hmax Hb. unfold OVERHEAD_LEN, GCM_IV_LEN, TAG_LEN in *.
  unfold MbedAesGcmDecrypt, OVERHEAD_LEN, GCM_IV_LEN, TAG_LEN.
  rewrite Z.add_simpl_r, !(wrapU_id 32), (wrapS_id 32) by (lia || range).
  rewrite (proj2 (Z.leb_gt _ _)), (proj2 (Z.ltb_ge _ _)) by lia. cbn [orb]. rewrite Hk. cbn [negb].
  rewrite (app_assoc iv' c (t ++ rest)).
  rewrite (get_app (iv' ++ c) t rest (len c + 12) 16) by (rewrite ?len_app; lia). cbn [mbind option_bind].
  rewrite <- (app_assoc iv' c (t ++ rest)).
  rewrite (get_app iv' c (t ++ rest) 12 (len c)) by lia. cbn [mbind option_bind].
  destruct (gcm_auth_decrypt key iv t c) as [p|] eqn:Hd; [|done].
  pose proof (gcm_decrypt_len _ _ _ _ _ Hd) as Hp.
  by rewrite put_whole by lia.
Qed.

(** What a decryption answers, on a message of iv, cipher text and tag. *)
Lemma decrypt_spec key iv c t rest b :
  gcm_setkey key = true -> len iv = GCM_IV_LEN -> len t = TAG_LEN -> 0 < len c ->
  len c + OVERHEAD_LEN < 2 ^ 31 -> len b = len c ->
  SoftBusDecryptData key (iv ++ c ++ t ++ rest) (len c + OVERHEAD_LEN) b =
  Some (match gcm_auth_decrypt key iv t c with
        | Some p => (SOFTBUS_OK, p, Some (len c))
        | None => (SOFTBUS_ENCRYPT_ERR, b, None)
        end).
Proof.
  intros Hk Hiv Ht Hc Hmax Hb. unfold SoftBusDecryptData.
  rewrite get_prefix by lia.
  rewrite (proj2 (Z.ltb_ge _ _)) by (unfold OVERHEAD_LEN, GCM_IV_LEN, TAG_LEN in *; lia).
  cbn [mbind option_bind]. rewrite Z.add_simpl_r.
  rewrite (wrapU_id 32) by (unfold OVERHEAD_LEN, GCM_IV_LEN, TAG_LEN in *; range).
  rewrite MbedAesGcmDecrypt_spec by done. cbn [mbind option_bind].
  destruct (gcm_auth_decrypt key iv t c); [|done].
  rewrite (proj2 (Z.leb_gt _ _)) by lia.
  by rewrite (wrapU_id 32) by (unfold OVERHEAD_LEN, GCM_IV_LEN, TAG_LEN in *; range).
Qed.

(** A message too short to hold iv, tag and one byte is refused, and nothing
    is read beyond its iv or written. *)
Lemma decrypt_short key input inLen b :
  0 <= inLen <= OVERHEAD_LEN -> inLen <= len input ->
  exists ret, SoftBusDecryptData key input inLen b = Some (ret, b, None) /\ ret <> SOFTBUS_OK.
Proof.
  intros Hl Hi. unfold SoftBusDecryptData. destruct (Z.ltb_spec inLen GCM_IV_LEN).
  { by eexists. }
  destruct (get_inside input 0 GCM_IV_LEN) as (iv & -> & _); [lia | unfold GCM_IV_LEN; lia | lia |].
  cbn [mbind option_bind]. unfold MbedAesGcmDecrypt. rewrite (proj2 (Z.leb_le _ _)) by lia.
  cbn [orb mbind option_bind]. by eexists.
Qed.

(** Decryption reads no more than the length it is given. *)
Lemma decrypt_prefix key input rest inLen b : 0 <= inLen < 2 ^ 31 -> inLen <= len input ->
  SoftBusDecryptData key (input ++ rest) inLen b = SoftBusDecryptData key input inLen b.
Proof.
  intros Hl Hi.
  unfold SoftBusDecryptData, MbedAesGcmDecrypt.
  destruct (Z.ltb_spec inLen GCM_IV_LEN); [done|]. rewrite (get_app_l input rest 0 GCM_IV_LEN) by lia.
  destruct (get input 0 GCM_IV_LEN); [|done]. cbn [mbind option_bind].
  destruct (Z.leb_spec inLen OVERHEAD_LEN); [done|]. cbn [orb].
  unfold OVERHEAD_LEN, GCM_IV_LEN, TAG_LEN in *.
  rewrite (wrapU_id 32), (wrapS_id 32) by (lia || range).
  by rewrite !get_app_l by lia.
Qed.

(** Whatever is to be sent, encryption stays inside its buffers. *)
Lemma encrypt_safe little r key input inLen b s :
  (forall iv, r = Some iv -> len iv = GCM_IV_LEN) ->
  0 <= inLen -> inLen + OVERHEAD_LEN < 2 ^ 31 -> inLen <= len input -> len b = inLen + OVERHEAD_LEN ->
  exists ret b' o, SoftBusEncryptDataWithSeq little r key input inLen b s = Some (ret, b', o) /\
    (ret = SOFTBUS_OK -> o = Some (inLen + OVERHEAD_LEN) /\ len b' = inLen + OVERHEAD_LEN).
Proof.
  intros Hr H0 Hmax Hi Hb.
  destruct (decide (inLen = 0)) as [->|Hz]; [by eexists _, _, _|].
  destruct r as [r|].
  2:{ unfold SoftBusEncryptDataWithSeq. rewrite (proj2 (Z.eqb_neq _ _)) by done. by eexists _, _, _. }
  specialize (Hr r eq_refl).
  destruct (split_len input inLen) as (p & rest & -> & Hp); [lia|].
  destruct (gcm_setkey key) eqn:Hk.
  - destruct (gcm_crypt_and_tag key (seq_iv little r s) p) as [[c t]|] eqn:Hc.
    + subst inLen. rewrite (encrypt_spec little r key p rest c t b s) by (done || lia).
      eexists _, _, _. split; [done|]. intros _. split; [done|].
      destruct (gcm_crypt_len _ _ _ _ _ Hc) as (Hlc & Hlt & _).
      rewrite !len_app, len_seq_iv by done. unfold OVERHEAD_LEN. lia.
    + pose proof (seq_iv_copy little r s Hr) as Ec. unfold SoftBusEncryptDataWithSeq.
      rewrite (proj2 (Z.eqb_neq _ _)) by done. rewrite Ec. cbn [mbind option_bind negb].
      unfold OVERHEAD_LEN, GCM_IV_LEN, TAG_LEN in *.
      unfold MbedAesGcmEncrypt, OVERHEAD_LEN, GCM_IV_LEN, TAG_LEN.
      rewrite (wrapU_id 32) by range.
      rewrite (proj2 (Z.eqb_neq _ _)), Z.ltb_irrefl by done. cbn [orb]. rewrite Hk. cbn [negb].
      rewrite get_prefix by done. cbn [mbind option_bind]. rewrite Hc. by eexists _, _, _.
  - pose proof (seq_iv_copy little r s Hr) as Ec. unfold SoftBusEncryptDataWithSeq.
    rewrite (proj2 (Z.eqb_neq _ _)) by done. rewrite Ec. cbn [mbind option_bind negb].
    unfold MbedAesGcmEncrypt. rewrite (proj2 (Z.eqb_neq _ _)), Z.ltb_irrefl by done.
    cbn [orb]. rewrite Hk. by eexists _, _, _.
Qed.

(** Whatever arrives, decryption stays inside its buffers. *)
Lemma decrypt_safe key input inLen b :
  0 <= inLen < 2 ^ 31 -> inLen <= len input -> (OVERHEAD_LEN < inLen -> len b = inLen - OVERHEAD_LEN) ->
  exists ret b' o, SoftBusDecryptData key input inLen b = Some (ret, b', o) /\
    (ret = SOFTBUS_OK -> OVERHEAD_LEN < inLen /\ o = Some (inLen - OVERHEAD_LEN) /\ len b' = inLen - OVERHEAD_LEN).
Proof.
  intros Hl Hi Hb. destruct (decide (inLen <= OVERHEAD_LEN)) as [Hs|Hs].
  { destruct (decrypt_short key input inLen b) as (ret & E & Hn); [lia..|]. rewrite E. by eexists _, _, _. }
  unfold OVERHEAD_LEN, GCM_IV_LEN, TAG_LEN in *. specialize (Hb ltac:(lia)).
  destruct (split_len input 12) as (iv & i1 & -> & Hiv); [lia|]. rewrite len_app in Hi.
  destruct (split_len i1 (inLen - 28)) as (c & i2 & -> & Hc); [lia|]. rewrite len_app in Hi.
  destruct (split_len i2 16) as (t & rest & -> & Ht); [lia|].
  destruct (gcm_setkey key) eqn:Hk.
  - pose proof (decrypt_spec key iv c t rest b Hk Hiv Ht) as E.
    unfold OVERHEAD_LEN, GCM_IV_LEN, TAG_LEN in E.
    replace (len c + (12 + 16)) with inLen in E by lia. rewrite E by lia.
    destruct (gcm_auth_decrypt key iv t c) as [p|] eqn:Hd; eexists _, _, _; split; [done| |done|done].
    intros _. rewrite (gcm_decrypt_len _ _ _ _ _ Hd). split_and!; [|f_equal|]; lia.
  - unfold SoftBusDecryptData, GCM_IV_LEN. rewrite get_prefix by lia.
    rewrite (proj2 (Z.ltb_ge _ _)) by lia. cbn [mbind option_bind].
    unfold MbedAesGcmDecrypt, OVERHEAD_LEN, GCM_IV_LEN, TAG_LEN.
    rewrite (proj2 (Z.leb_gt _ _)), Z.ltb_irrefl by lia. cbn [orb]. rewrite Hk.
    cbn [negb mbind option_bind]. by eexists _, _, _.
Qed.

End Crypto.

(** ** A concrete cipher

    Adds the first byte of the key to every byte; the tag is the sum of the
    plain text, repeated. *)
Definition toy_tag (p : bytes) : bytes := replicate 16 (u8 (foldr Z.add 0 p)).

#[export] Instance toyGcm : Gcm := {
  gcm_setkey key := bool_decide (len key = SESSION_KEY_LENGTH);
  gcm_crypt_and_tag key iv p :=
    if bool_decide (is_bytes p)
    then Some ((fun b => u8 (b + nth 0 key 0)) <$> p, toy_tag p) else None;
  gcm_auth_decrypt key iv t c :=
    let p := (fun b => u8 (b - nth 0 key 0)) <$> c in
    if bool_decide (t = toy_tag p) then Some p else None;
}.

#[export] Instance toyGcmLaws : GcmLaws toyGcm.
Proof.
  split; simpl.
  - intros key iv p c t. case_bool_decide as Hp; [|done]. intros [= <- <-]. unfold len, toy_tag.
    rewrite length_fmap, length_replicate. split_and!; try done.
    + apply Forall_fmap, Forall_true. intros b. simpl. apply wrapU_range. lia.
    + apply Forall_replicate, wrapU_range. lia.
  - intros key iv t c p. case_bool_decide; [|done]. intros [= <-]. unfold len. by rewrite length_fmap.
  - intros key iv p c t. case_bool_decide as Hp; [|done]. intros [= <- <-].
    assert ((fun b => u8 (b - nth 0 key 0)) <$> ((fun b => u8 (b + nth 0 key 0)) <$> p) = p) as ->.
    { rewrite <- list_fmap_compose. rewrite <- (list_fmap_id p) at 2.
      apply Forall_fmap_ext, (Forall_impl (is_u 8)); [done|]. intros b Hb. simpl. cint. }
    by rewrite bool_decide_true.
Qed.

End Crypto.
