(* ===== verification/PendingPkt.v ===== *)
(** * Packets that wait for an acknowledgement

    Models [core/transmission/common/src/trans_pending_pkt.c].  A sender
    registers its packet and sleeps on a condition variable; the receiving
    thread marks the packet as finished, closing the channel cancels it, and
    the sender gives up after two seconds.

    Between the moments at which [ProcPendingPacket] holds the lock of the
    list other threads run, so it is three operations: [ProcPendingBegin]
    (look up, create, insert), [ProcPendingDecide] (leave the wait and read
    the status) and [ProcPendingEnd] (unlink).  [SetPendingPacket] does not
    take the lock of the item, so its signal can be lost; the sender then
    wakes up at its time limit and still reads the status, which
    [ProcPendingDecide] allows.  A sequence of actions is a schedule.

    A sender is told that its packet arrived exactly when the last thread
    that touched its item was an acknowledgement with its channel and number
    ([pending_ack_spec]). *)

From S2P Require Import Prelude Errno.
Import Errno.

Module PendingPkt.

Inductive PackageStatus := PACKAGE_STATUS_PENDING | PACKAGE_STATUS_FINISHED | PACKAGE_STATUS_CANCELED.

#[export] Instance PackageStatus_dec : EqDecision PackageStatus.
Proof. solve_decision. Defined.

(** An item; [owner] is the thread that waits on it, which stands for its
    address. *)
Record PendingPktInfo := MkPkt {
  owner : nat;
  channelId : Z;
  seq : Z;
  status : PackageStatus;
}.

(** One list of [g_pendingList], NULL before [PendingInit]. *)
Record PendingList := MkPending { items : list PendingPktInfo; cnt : Z }.

Definition Pending : Type := option PendingList.

Definition PENDING_TYPE_PROXY : Z := 0.
Definition PENDING_TYPE_DIRECT : Z := 1.
Definition PENDING_TYPE_BUTT : Z := 2.

Definition bad_type (type : Z) : bool := (type <? PENDING_TYPE_PROXY) || (PENDING_TYPE_BUTT <=? type).

(** The array [g_pendingList]. *)
Definition Lists : Type := Z -> Pending.

Definition setList (g : Lists) (type : Z) (p : Pending) : Lists :=
  fun t => if t =? type then p else g t.

(** [created] is whether [CreateSoftBusList] succeeds. *)
Definition PendingInit (created : bool) (type : Z) (g : Lists) : Z * Lists :=
  if bad_type type then (SOFTBUS_ERR, g)
  else if created then (SOFTBUS_OK, setList g type (Some (MkPending [] 0)))
  else (SOFTBUS_ERR, setList g type None).

Definition PendingDeinit (type : Z) (g : Lists) : Lists :=
  if bad_type type then g
  else match g type with
  | Some _ => setList g type None
  | None => g
  end.

Definition CreatePendingItem (mem : bool) (t : nat) (ch sq : Z) : option PendingPktInfo :=
  if mem then Some (MkPkt t ch sq PACKAGE_STATUS_PENDING) else None.

Definition matches (ch sq : Z) (p : PendingPktInfo) : bool := (seq p =? sq) && (channelId p =? ch).

(** [inl] is the value [ProcPendingPacket] returns at once, [inr] the list in
    which the sender's item waits. *)
Definition ProcPendingBegin (mem : bool) (t : nat) (ch sq type : Z) (g : Lists) : Z + Lists :=
  if bad_type type then inl SOFTBUS_ERR
  else match g type with
  | None => inl SOFTBUS_TRANS_TDC_PENDINGLIST_NOT_FOUND
  | Some l =>
      if existsb (matches ch sq) (items l) then inl SOFTBUS_TRANS_TDC_CHANNEL_ALREADY_PENDING
      else match CreatePendingItem mem t ch sq with
      | None => inl SOFTBUS_MALLOC_ERR
      | Some item => inr (setList g type (Some (MkPending (item :: items l) (cnt l + 1))))
      end
  end.

(** The sender leaves its wait: possible once the status has changed or the
    time is over.  The result is the value [ProcPendingPacket] will return. *)
Definition ProcPendingDecide (timeout : bool) (p : PendingPktInfo) : option Z :=
  match status p with
  | PACKAGE_STATUS_PENDING => if timeout then Some SOFTBUS_TIMOUT else None
  | PACKAGE_STATUS_FINISHED => Some SOFTBUS_OK
  | PACKAGE_STATUS_CANCELED => Some SOFTBUS_TIMOUT
  end.

Definition ProcPendingEnd (t : nat) (l : PendingList) : PendingList :=
  MkPending (filter (fun p => owner p <> t) (items l)) (cnt l - 1).

(** Set the status of the first item that satisfies [f]. *)
Fixpoint setFirst (f : PendingPktInfo -> bool) (st : PackageStatus) (l : list PendingPktInfo)
  : option (list PendingPktInfo) :=
  match l with
  | [] => None
  | p :: l' =>
      if f p then Some (MkPkt (owner p) (channelId p) (seq p) st :: l')
      else cons p <$> setFirst f st l'
  end.

Definition SetPendingPacket (ch sq type : Z) (g : Lists) : Z * Lists :=
  if bad_type type then (SOFTBUS_ERR, g)
  else match g type with
  | None => (SOFTBUS_ERR, g)
  | Some l =>
      match setFirst (matches ch sq) PACKAGE_STATUS_FINISHED (items l) with
      | Some its => (SOFTBUS_OK, setList g type (Some (MkPending its (cnt l))))
      | None => (SOFTBUS_ERR, g)
      end
  end.

Definition DelPendingPacket (ch type : Z) (g : Lists) : Z * Lists :=
  if bad_type type then (SOFTBUS_ERR, g)
  else match g type with
  | None => (SOFTBUS_ERR, g)
  | Some l =>
      match setFirst (fun p => channelId p =? ch) PACKAGE_STATUS_CANCELED (items l) with
      | Some its => (SOFTBUS_OK, setList g type (Some (MkPending its (cnt l))))
      | None => (SOFTBUS_OK, g)
      end
  end.

(** ** Schedules

    The threads of one list: a sender is at [Waiting], at [Leaving ret], or
    elsewhere. *)
Inductive Sender := Waiting | Leaving (ret : Z).

Record State := MkState { list_of : PendingList; senders : gmap nat Sender }.

Inductive Action :=
| Send (t : nat) (mem : bool) (ch sq : Z)
| Ack (ch sq : Z)
| Cancel (ch : Z)
| Decide (t : nat) (timeout : bool)
| Finish (t : nat).

Definition itemOf (t : nat) (s : State) : option PendingPktInfo :=
  snd <$> list_find (fun p => owner p = t) (items (list_of s)).

Definition only (l : PendingList) : Lists := fun t => if t =? PENDING_TYPE_DIRECT then Some l else None.
Definition direct (g : Lists) (d : PendingList) : PendingList := default d (g PENDING_TYPE_DIRECT).

(** One action; the second component is what a call of a sender returned. *)
Definition step (s : State) (a : Action) : option (State * option Z) :=
  match a with
  | Send t mem ch sq =>
      match senders s !! t with
      | Some _ => None
      | None =>
          match ProcPendingBegin mem t ch sq PENDING_TYPE_DIRECT (only (list_of s)) with
          | inl ret => Some (s, Some ret)
          | inr g => Some (MkState (direct g (list_of s)) (<[t := Waiting]> (senders s)), None)
          end
      end
  | Ack ch sq =>
      let '(_, g) := SetPendingPacket ch sq PENDING_TYPE_DIRECT (only (list_of s)) in
      Some (MkState (direct g (list_of s)) (senders s), None)
  | Cancel ch =>
      let '(_, g) := DelPendingPacket ch PENDING_TYPE_DIRECT (only (list_of s)) in
      Some (MkState (direct g (list_of s)) (senders s), None)
  | Decide t timeout =>
      match senders s !! t, itemOf t s with
      | Some Waiting, Some p =>
          ret ← ProcPendingDecide timeout p;
          Some (MkState (list_of s) (<[t := Leaving ret]> (senders s)), None)
      | _, _ => None
      end
  | Finish t =>
      match senders s !! t with
      | Some (Leaving ret) =>
          Some (MkState (ProcPendingEnd t (list_of s)) (delete t (senders s)), Some ret)
      | _ => None
      end
  end.

Fixpoint run (s : State) (acts : list Action) : option State :=
  match acts with
  | [] => Some s
  | a :: acts' => '(s', _) ← step s a; run s' acts'
  end.

Definition init : State := MkState (MkPending [] 0) ∅.

(** ** Invariant

    Every sender inside the call has exactly one item, no two items have the
    same channel and number, and the counter counts. *)
Record wf (s : State) : Prop := {
  wf_owners : NoDup (owner <$> items (list_of s));
  wf_senders : forall t, t ∈ owner <$> items (list_of s) <-> is_Some (senders s !! t);
  wf_keys : NoDup ((fun p => (channelId p, seq p)) <$> items (list_of s));
  wf_cnt : cnt (list_of s) = Z.of_nat (length (items (list_of s)));
}.

(** ** Lemmas *)

Lemma setFirst_Some f st l l' : setFirst f st l = Some l' ->
  exists l1 p l2, l = l1 ++ p :: l2 /\ f p = true /\ Forall (fun q => f q = false) l1 /\
    l' = l1 ++ MkPkt (owner p) (channelId p) (seq p) st :: l2.
Proof.
  revert l'. induction l as [|q l IH]; intros l'; [done|]. cbn [setFirst].
  destruct (f q) eqn:E.
  - intros [= <-]. by exists [], q, l.
  - intros (l'' & Hl & ->)%fmap_Some. destruct (IH _ Hl) as (l1 & p & l2 & -> & ? & ? & ->).
    exists (q :: l1), p, l2. split_and!; try done. by constructor.
Qed.

Lemma setFirst_None f st l : setFirst f st l = None -> Forall (fun q => f q = false) l.
Proof.
  induction l as [|q l IH]; [done|]. cbn [setFirst]. destruct (f q) eqn:E; [done|].
  intros ?%fmap_None. constructor; auto.
Qed.

(** Changing a status keeps owners and keys. *)
Lemma setFirst_keeps f st l l' : setFirst f st l = Some l' ->
  owner <$> l' = owner <$> l /\
  (fun p => (channelId p, seq p)) <$> l' = (fun p => (channelId p, seq p)) <$> l /\
  length l' = length l.
Proof.
  intros (l1 & p & l2 & -> & _ & _ & ->)%setFirst_Some.
  rewrite !fmap_app, !length_app. done.
Qed.

Lemma direct_only l d : direct (only l) d = l.
Proof. done. Qed.

Lemma wf_set s f st its : wf s -> setFirst f st (items (list_of s)) = Some its ->
  wf (MkState (MkPending its (cnt (list_of s))) (senders s)).
Proof.
  intros [Ho Hs Hk Hc] (E1 & E2 & E3)%setFirst_keeps.
  split; cbn [list_of items cnt senders]; rewrite ?E1, ?E2, ?E3; done.
Qed.

Lemma Ack_step s ch sq : step s (Ack ch sq) =
  Some (match setFirst (matches ch sq) PACKAGE_STATUS_FINISHED (items (list_of s)) with
        | Some its => MkState (MkPending its (cnt (list_of s))) (senders s)
        | None => s
        end, None).
Proof.
  unfold step, SetPendingPacket.
  change (bad_type PENDING_TYPE_DIRECT) with false.
  change (only (list_of s) PENDING_TYPE_DIRECT) with (Some (list_of s)).
  cbn match. destruct (setFirst _ _ _); [reflexivity|]. by destruct s.
Qed.

Lemma Cancel_step s ch : step s (Cancel ch) =
  Some (match setFirst (fun p => channelId p =? ch) PACKAGE_STATUS_CANCELED (items (list_of s)) with
        | Some its => MkState (MkPending its (cnt (list_of s))) (senders s)
        | None => s
        end, None).
Proof.
  unfold step, DelPendingPacket.
  change (bad_type PENDING_TYPE_DIRECT) with false.
  change (only (list_of s) PENDING_TYPE_DIRECT) with (Some (list_of s)).
  cbn match. destruct (setFirst _ _ _); [reflexivity|]. by destruct s.
Qed.

Lemma matches_spec ch sq p : matches ch sq p = true <-> channelId p = ch /\ seq p = sq.
Proof. unfold matches. rewrite andb_true_iff, !Z.eqb_eq. tauto. Qed.

(** The item of a sender that registers. *)
Lemma Send_step s t mem ch sq s' : step s (Send t mem ch sq) = Some (s', None) ->
  senders s !! t = None /\ existsb (matches ch sq) (items (list_of s)) = false /\
  s' = MkState (MkPending (MkPkt t ch sq PACKAGE_STATUS_PENDING :: items (list_of s)) (cnt (list_of s) + 1))
         (<[t := Waiting]> (senders s)).
Proof.
  unfold step. destruct (senders s !! t) eqn:Et; [done|].
  unfold ProcPendingBegin. change (bad_type PENDING_TYPE_DIRECT) with false.
  change (only (list_of s) PENDING_TYPE_DIRECT) with (Some (list_of s)). cbn match.
  destruct (existsb _ _); [done|]. unfold CreatePendingItem. destruct mem; [|done]. by intros [= <-].
Qed.

Lemma Send_step_fail s t mem ch sq s' r : step s (Send t mem ch sq) = Some (s', Some r) -> s' = s.
Proof.
  unfold step. destruct (senders s !! t); [done|].
  destruct (ProcPendingBegin _ _ _ _ _ _); [|done]. by intros [= <- _].
Qed.

Lemma itemOf_spec s t p : NoDup (owner <$> items (list_of s)) ->
  itemOf t s = Some p <-> p ∈ items (list_of s) /\ owner p = t.
Proof.
  intros Hn. unfold itemOf. split.
  - intros ([i q] & Hf & ->)%fmap_Some. apply list_find_Some in Hf as (Hl & Ho & _).
    split; [|done]. by eapply list_elem_of_lookup_2.
  - intros [Hp <-]. destruct (list_find (fun q => owner q = owner p) (items (list_of s))) as [[i q]|] eqn:Hf.
    + apply list_find_Some in Hf as (Hl & Ho & _). cbn. f_equal.
      apply list_elem_of_lookup in Hp as [j Hj].
      assert (i = j) as ->; [|congruence].
      eapply (NoDup_lookup (owner <$> items (list_of s))); [done| |].
      * by rewrite list_lookup_fmap, Hl.
      * rewrite list_lookup_fmap, Hj. cbn. by rewrite Ho.
    + apply list_find_None in Hf. rewrite Forall_forall in Hf. by destruct (Hf p Hp).
Qed.

Lemma filter_owner_fresh t (l : list PendingPktInfo) : t ∉ owner <$> l -> filter (fun p => owner p <> t) l = l.
Proof.
  intros H. apply list_filter_all, Forall_forall. intros p Hp <-. apply H. by apply list_elem_of_fmap_2.
Qed.

Lemma wf_Send s t ch sq : wf s -> senders s !! t = None ->
  existsb (matches ch sq) (items (list_of s)) = false ->
  wf (MkState (MkPending (MkPkt t ch sq PACKAGE_STATUS_PENDING :: items (list_of s)) (cnt (list_of s) + 1))
        (<[t := Waiting]> (senders s))).
Proof.
  intros [Ho Hs Hk Hc] Et Hm. split; cbn [list_of items cnt senders fmap list_fmap owner channelId seq].
  - constructor; [|done]. rewrite Hs, Et. by intros [? ?].
  - intros t'. rewrite elem_of_cons, Hs. destruct (decide (t' = t)) as [->|].
    + rewrite lookup_insert_eq. split; [by eexists|by left].
    + rewrite lookup_insert_ne by done. naive_solver.
  - constructor; [|done]. intros (p & E & Hp)%list_elem_of_fmap. injection E as E1 E2.
    assert (existsb (matches ch sq) (items (list_of s)) = true); [|congruence].
    apply existsb_exists. exists p. split; [by apply list_elem_of_In|]. by apply matches_spec.
  - simpl length. lia.
Qed.

Lemma wf_Finish s t ret : wf s -> senders s !! t = Some (Leaving ret) ->
  wf (MkState (ProcPendingEnd t (list_of s)) (delete t (senders s))).
Proof.
  intros [Ho Hs Hk Hc] Et. unfold ProcPendingEnd.
  assert (t ∈ owner <$> items (list_of s)) as Ht by (rewrite Hs, Et; by eexists).
  apply list_elem_of_fmap in Ht as (p & -> & Hp).
  apply list_elem_of_split in Hp as (l1 & l2 & E). rewrite E in *.
  rewrite fmap_app, fmap_cons in Ho. rewrite fmap_app, fmap_cons in Hk. apply NoDup_app in Ho as (Ho1 & Ho2 & Ho3).
  apply NoDup_cons in Ho3 as [Ho4 Ho5].
  assert (filter (fun q => owner q <> owner p) (l1 ++ p :: l2) = l1 ++ l2) as Ef.
  { rewrite filter_app, filter_cons_False by auto. rewrite !filter_owner_fresh; [done|done|].
    intros Hin. apply (Ho2 _ Hin). by left. }
  split; cbn [list_of items cnt senders]; rewrite ?Ef.
  - rewrite fmap_app. apply NoDup_app. split_and!; [done| |done].
    intros x Hx Hx'. apply (Ho2 x Hx). by right.
  - intros t'. rewrite lookup_delete_is_Some, <- Hs, !fmap_app, fmap_cons, !elem_of_app, elem_of_cons.
    split; [|naive_solver]. intros Hin. split; [|tauto]. intros <-. destruct Hin as [Hin|Hin]; [|done].
    apply (Ho2 _ Hin). by left.
  - rewrite fmap_app. apply NoDup_app in Hk as (Hk1 & Hk2 & Hk3). apply NoDup_cons in Hk3 as [Hk4 Hk5].
    apply NoDup_app. split_and!; [done| |done]. intros x Hx Hx'. apply (Hk2 x Hx). by right.
  - rewrite Hc. rewrite !length_app. simpl length. lia.
Qed.

(** Every action keeps the invariant. *)
Lemma step_wf s a s' r : wf s -> step s a = Some (s', r) -> wf s'.
Proof.
  intros Hw. destruct a as [t mem ch sq|ch sq|ch|t timeout|t].
  - intros Hstep. destruct r as [r|].
    + by rewrite (Send_step_fail _ _ _ _ _ _ _ Hstep).
    + apply Send_step in Hstep as (? & ? & ->). by apply wf_Send.
  - rewrite Ack_step. intros [= <- _]. destruct (setFirst _ _ _) eqn:E; [by eapply wf_set|done].
  - rewrite Cancel_step. intros [= <- _]. destruct (setFirst _ _ _) eqn:E; [by eapply wf_set|done].
  - cbn [step]. destruct (senders s !! t) as [[|]|] eqn:Et; try done.
    destruct (itemOf t s) as [p|]; [|done]. destruct (ProcPendingDecide timeout p); [|done].
    intros [= <- _]. destruct Hw as [Ho Hs Hk Hc]. split; try done. intros t'. cbn [senders list_of].
    rewrite Hs. destruct (decide (t' = t)) as [->|].
    + rewrite lookup_insert_eq, Et. split; by eexists.
    + by rewrite lookup_insert_ne by done.
  - cbn [step]. destruct (senders s !! t) as [[|ret]|] eqn:Et; try done. intros [= <- _].
    by eapply wf_Finish.
Qed.

Lemma run_wf acts : forall s s', wf s -> run s acts = Some s' -> wf s'.
Proof.
  induction acts as [|a acts IH]; intros s s' Hw; [by intros [= <-]|]. cbn [run].
  destruct (step s a) as [[s1 r]|] eqn:E; [|done]. cbn [mbind option_bind].
  apply IH. by eapply step_wf.
Qed.

Lemma init_wf : wf init.
Proof. split; cbn; [constructor| |constructor|done]. intros t. rewrite lookup_empty, elem_of_nil.
  split; [done|]. by intros [? ?]. Qed.

(** The sender whose packet a cancellation of channel [ch] reaches: the one
    that registered last. *)
Definition newest (ch : Z) (l : list PendingPktInfo) : option nat :=
  owner <$> head (filter (fun p => channelId p = ch) l).

(** What one action makes of the status of the packet of sender [t]. *)
Definition touch (t : nat) (ch sq : Z) (s : State) (a : Action) (st : PackageStatus) : PackageStatus :=
  match a with
  | Ack c q => if (c =? ch) && (q =? sq) then PACKAGE_STATUS_FINISHED else st
  | Cancel c => if (c =? ch) && bool_decide (newest c (items (list_of s)) = Some t) then PACKAGE_STATUS_CANCELED else st
  | _ => st
  end.

(** The status the last action that reached the packet has given it. *)
Fixpoint verdict (t : nat) (ch sq : Z) (s : State) (acts : list Action) (st : PackageStatus) : PackageStatus :=
  match acts with
  | [] => st
  | a :: rest =>
      match step s a with
      | Some (s', _) => verdict t ch sq s' rest (touch t ch sq s a st)
      | None => st
      end
  end.

(** What a sender that waits sees of the others: its item stays, and its
    status follows the acknowledgements and cancellations. *)
Definition watches (t : nat) (ch sq : Z) (st : PackageStatus) (s : State) : Prop :=
  wf s /\ senders s !! t = Some Waiting /\ MkPkt t ch sq st ∈ items (list_of s).

Lemma list_keep_other {A} (l1 l2 : list A) p q r : p ∈ l1 ++ q :: l2 -> p <> q -> p ∈ l1 ++ r :: l2.
Proof. rewrite !elem_of_app, !elem_of_cons. tauto. Qed.

Lemma list_has_mid {A} (l1 l2 : list A) p : p ∈ l1 ++ p :: l2.
Proof. apply elem_of_app. right. by left. Qed.

Lemma item_unique s p q : wf s -> p ∈ items (list_of s) -> q ∈ items (list_of s) -> owner p = owner q -> p = q.
Proof.
  intros Hw Hp Hq E. assert (Some p = Some q) as [= ->]; [|done].
  rewrite <- (proj2 (itemOf_spec s (owner q) p (wf_owners _ Hw))) by done. by apply itemOf_spec; [apply Hw|].
Qed.

(** The only item with a key is set by an acknowledgement for it. *)
Lemma setFirst_hit ch sq st l l' p :
  NoDup ((fun p => (channelId p, seq p)) <$> l) -> p ∈ l -> matches ch sq p = true ->
  setFirst (matches ch sq) st l = Some l' -> MkPkt (owner p) (channelId p) (seq p) st ∈ l'.
Proof.
  intros Hn Hp Hm (l1 & q & l2 & -> & Hf & Hl1 & ->)%setFirst_Some.
  apply elem_of_app in Hp as [Hp|Hp].
  { rewrite Forall_forall in Hl1. specialize (Hl1 p Hp). congruence. }
  apply elem_of_cons in Hp as [->|Hp]; [set_solver|].
  rewrite fmap_app, fmap_cons in Hn. apply NoDup_app in Hn as (_ & _ & Hn).
  apply NoDup_cons in Hn as [Hn _]. destruct Hn. apply list_elem_of_fmap. exists p. split; [|done].
  apply matches_spec in Hm as [-> ->]. apply matches_spec in Hf as [-> ->]. done.
Qed.

Definition by_thread (t : nat) (a : Action) : bool :=
  match a with
  | Send t' _ _ _ | Decide t' _ | Finish t' => bool_decide (t' = t)
  | _ => false
  end.

Lemma step_watches t ch sq st s a s' r :
  watches t ch sq st s -> by_thread t a = false -> step s a = Some (s', r) -> watches t ch sq (touch t ch sq s a st) s'.
Proof.
  intros (Hw & Ht & Hp) Ha Hstep.
  split; [by eapply step_wf|]. destruct a as [t' mem ch' sq'|ch' sq'|ch'|t' timeout|t']; cbn [touch].
  - destruct r as [r|]; [by rewrite (Send_step_fail _ _ _ _ _ _ _ Hstep)|].
    apply Send_step in Hstep as (Et & _ & ->). apply bool_decide_eq_false in Ha.
    cbn [senders list_of items]. rewrite lookup_insert_ne by done. split; [done|by right].
  - rewrite Ack_step in Hstep. injection Hstep as <- <-.
    destruct (setFirst (matches ch' sq') _ _) as [its|] eqn:E; cbn [senders list_of items]; (split; [done|]).
    + assert (forall c q, (c =? ch) && (q =? sq) = matches c q (MkPkt t ch sq st)) as Hm
        by (intros c q; unfold matches; cbn; by rewrite (Z.eqb_sym ch), (Z.eqb_sym sq), andb_comm).
      rewrite Hm. destruct (matches ch' sq' _) eqn:Em; [by eapply (setFirst_hit ch' sq' _ _ _ _ (wf_keys _ Hw) Hp Em)|].
      apply setFirst_Some in E as (l1 & q & l2 & E & Hq & _ & ->). rewrite E in Hp.
      eapply list_keep_other; [done|]. by intros <-; rewrite Hq in Em.
    + destruct (Z.eqb_spec ch' ch) as [->|], (Z.eqb_spec sq' sq) as [->|]; cbn [andb]; try done.
      apply setFirst_None in E. rewrite Forall_forall in E. specialize (E _ Hp).
      by rewrite (proj2 (matches_spec ch sq _)) in E.
  - rewrite Cancel_step in Hstep. injection Hstep as <- <-.
    destruct (setFirst _ _ _) as [its|] eqn:E; cbn [senders list_of items]; (split; [done|]).
    + apply setFirst_Some in E as (l1 & q & l2 & E & Hq%Z.eqb_eq & Hl1 & ->).
      assert (newest ch' (items (list_of s)) = Some (owner q)) as Hn.
      { unfold newest. rewrite E. clear -Hl1 Hq. induction Hl1 as [|y l1 Hy _ IH]; cbn [app].
        - by rewrite filter_cons_True.
        - rewrite filter_cons_False; [done|]. by apply Z.eqb_neq. }
      rewrite Hn. case_bool_decide as Ho; rewrite ?andb_true_r, ?andb_false_r.
      * injection Ho as Ho. assert (q = MkPkt t ch sq st) as -> by (apply (item_unique s); [done|rewrite E; apply list_has_mid|done|done]).
        cbn in Hq |- *. subst ch'. rewrite Z.eqb_refl. apply list_has_mid.
      * rewrite E in Hp. eapply list_keep_other; [done|]. intros <-. by apply Ho.
    + assert ((ch' =? ch) = false) as ->; [|done]. apply setFirst_None in E. rewrite Forall_forall in E.
      specialize (E _ Hp). cbn in E. by rewrite Z.eqb_sym.
  - cbn [step] in Hstep. apply bool_decide_eq_false in Ha.
    destruct (senders s !! t') as [[|]|] eqn:Et; try done.
    destruct (itemOf t' s) as [q|]; [|done]. destruct (ProcPendingDecide timeout q); [|done].
    injection Hstep as <- _. cbn [senders list_of]. by rewrite lookup_insert_ne by done.
  - cbn [step] in Hstep. apply bool_decide_eq_false in Ha.
    destruct (senders s !! t') as [[|ret]|] eqn:Et; try done. injection Hstep as <- _.
    cbn [senders list_of ProcPendingEnd items]. rewrite lookup_delete_ne by done.
    split; [done|]. apply list_elem_of_filter. by split; [intros [= ->]|].
Qed.

Lemma run_watches t ch sq acts : forall st s s',
  watches t ch sq st s -> Forall (fun a => by_thread t a = false) acts -> run s acts = Some s' ->
  watches t ch sq (verdict t ch sq s acts st) s'.
Proof.
  induction acts as [|a acts IH]; intros st s s' Hw Hf Hrun; [by injection Hrun as <-|].
  cbn [run verdict] in *. destruct (step s a) as [[s1 r]|] eqn:E; [|done].
  apply Forall_cons in Hf as [Ha Hf]. eapply IH; [by eapply step_watches|done|done].
Qed.

(** Only an acknowledgement gives the status of one, and it stays unless the
    channel is closed. *)
Lemma verdict_acked t ch sq acts : forall st s,
  verdict t ch sq s acts st = PACKAGE_STATUS_FINISHED -> st = PACKAGE_STATUS_FINISHED \/ Ack ch sq ∈ acts.
Proof.
  induction acts as [|a acts IH]; intros st s; cbn [verdict]; [by left|].
  destruct (step s a) as [[s1 r]|]; [|by left]. intros [H|H]%IH; [|right; by right].
  destruct a as [| ch' sq' | ch' | |]; cbn [touch] in H; try by left.
  - destruct (Z.eqb_spec ch' ch) as [->|], (Z.eqb_spec sq' sq) as [->|]; cbn [andb] in H; try by left. right. by left.
  - destruct (_ && _); [done|by left].
Qed.

Lemma verdict_kept t ch sq acts : forall st s s', run s acts = Some s' -> Cancel ch ∉ acts ->
  st = PACKAGE_STATUS_FINISHED \/ Ack ch sq ∈ acts -> verdict t ch sq s acts st = PACKAGE_STATUS_FINISHED.
Proof.
  induction acts as [|a acts IH]; intros st s s' Hr Hc H; cbn [verdict run] in *; [set_solver|].
  destruct (step s a) as [[s1 r]|]; [|done]. apply not_elem_of_cons in Hc as [Hc Hcs].
  apply (IH _ _ s'); [done|done|]. rewrite elem_of_cons in H.
  destruct a as [| ch' sq' | ch' | |]; cbn [touch]; try (destruct H as [?|[?|?]]; [by left|done|by right]).
  - destruct (Z.eqb_spec ch' ch) as [->|], (Z.eqb_spec sq' sq) as [->|]; cbn [andb]; naive_solver.
  - destruct (Z.eqb_spec ch' ch) as [->|]; [done|]. naive_solver.
Qed.

(** ** Theorems *)

(** C25: For every schedule of senders, acknowledgements and cancellations, let
    [v] be the status the last action that reached the packet of a sender gave
    it while it waited: an acknowledgement reaches the packet with its channel
    and number, a cancellation the packet of its channel that was registered
    last.  The sender can leave its wait before its time is over exactly when
    some action reached it, and always when it is over; its call returns
    [SOFTBUS_OK] exactly when the last was an acknowledgement, and
    [SOFTBUS_TIMOUT] otherwise; its entry is removed.  So it returns
    [SOFTBUS_OK] only if it was acknowledged, and if it was and its channel
    was not cancelled.  Throughout, each sender has one item, the keys are
    unique and the counter is exact. *)
Theorem pending_ack_spec pre t mem ch sq s0 s1 mid s2 :
  run init pre = Some s0 -> step s0 (Send t mem ch sq) = Some (s1, None) ->
  run s1 mid = Some s2 -> Forall (fun a => by_thread t a = false) mid ->
  let v := verdict t ch sq s1 mid PACKAGE_STATUS_PENDING in
  wf s2 /\
  (is_Some (step s2 (Decide t false)) <-> v <> PACKAGE_STATUS_PENDING) /\
  is_Some (step s2 (Decide t true)) /\
  (forall timeout s3 r, step s2 (Decide t timeout) = Some (s3, r) ->
    step s3 (Finish t) = Some (MkState (ProcPendingEnd t (list_of s2)) (delete t (senders s2)),
      Some (if decide (v = PACKAGE_STATUS_FINISHED) then SOFTBUS_OK else SOFTBUS_TIMOUT))) /\
  (v = PACKAGE_STATUS_FINISHED -> Ack ch sq ∈ mid) /\
  (Ack ch sq ∈ mid -> Cancel ch ∉ mid -> v = PACKAGE_STATUS_FINISHED).
Proof.
  intros Hpre Hsend Hrun Hf v. pose proof (run_wf _ _ _ init_wf Hpre) as Hw0.
  pose proof (step_wf _ _ _ _ Hw0 Hsend) as Hw1.
  assert (watches t ch sq PACKAGE_STATUS_PENDING s1) as Hwat.
  { split; [exact Hw1|]. apply Send_step in Hsend as (Et & Hm & ->).
    cbn [senders list_of items]. rewrite lookup_insert_eq. split; [done|by left]. }
  destruct (run_watches _ _ _ _ _ _ _ Hwat Hf Hrun) as (Hw2 & Hs2 & Hp). fold v in Hp.
  assert (itemOf t s2 = Some (MkPkt t ch sq v)) as Ei by (apply itemOf_spec; [apply Hw2|done]).
  assert (forall b, step s2 (Decide t b) = ret ← ProcPendingDecide b (MkPkt t ch sq v);
    Some (MkState (list_of s2) (<[t := Leaving ret]> (senders s2)), None)) as Edec.
  { intros b. cbn [step]. by rewrite Hs2, Ei. }
  setoid_rewrite Edec. unfold ProcPendingDecide. cbn [status].
  split_and!; [done|destruct v; cbn; naive_solver|by destruct v; eexists| |by intros [|]%verdict_acked|].
  - intros timeout s3 r. destruct v; [destruct timeout|..]; cbn [mbind option_bind]; try done; intros [= <- <-];
      cbn [step senders list_of]; by rewrite lookup_insert_eq, delete_insert_eq.
  - intros ? ?. eapply verdict_kept; [done|done|by right].
Qed.

Definition demo_pre : list Action := [Send 7 true 3 100].
Definition demo_mid : list Action := [Ack 3 100; Cancel 4; Ack 3 101].

Lemma pending_ack_spec_witness :
  exists s0 s1 s2, run init demo_pre = Some s0 /\ step s0 (Send 1 true 3 101) = Some (s1, None) /\
    run s1 demo_mid = Some s2 /\ wf s2 /\ is_Some (step s2 (Decide 1 false)).
Proof.
  eexists _, _, _. split; [reflexivity|]. split; [reflexivity|]. split; [reflexivity|].
  pose proof (pending_ack_spec demo_pre 1 true 3 101 _ _ demo_mid _
    eq_refl eq_refl eq_refl ltac:(by repeat constructor)) as (H1 & H2 & _).
  split; [exact H1|]. apply H2. by vm_compute.
Defined.

(** Closing a channel wakes only the sender that registered last: with two
    senders on the channel the other one waits for its time limit. *)
Lemma cancel_wakes_one :
  exists s, run init [Send 1 true 3 10; Send 2 true 3 11; Cancel 3] = Some s /\
    step s (Decide 1 false) = None /\ is_Some (step s (Decide 2 false)).
Proof. eexists. split; [reflexivity|]. split; [reflexivity|]. by eexists. Qed.

End PendingPkt.
