(* ===== verification/TcpDirect.v ===== *)
(** * Direct TCP channels of the client library

    Models [sdk/transmission/trans_channel/tcp_direct/src]:
    [client_trans_tcp_direct_message.c] (packets, receive buffers),
    [client_trans_tcp_direct_manager.c] (the table of channels) and
    [client_trans_tcp_direct_listener.c] (what a readable socket triggers).

    A packet is a head of 16 bytes, then an encrypted payload.  TCP is a
    stream of bytes, so a read may return any part of it: received bytes
    collect in the buffer of the channel, which grows when a head announces a
    larger packet, and complete packets are taken from its front.

    The computations run in the monad [M World].  What the library calls
    outside (memory, sockets, session callbacks, IPC) is a [Call]; the answer
    to the n-th call is given by [answer], and calls and answers are recorded
    in the log, so that theorems can speak about what was delivered.  The host
    byte order is [little].  A lock is its depth, for the mutexes of
    [CreateSoftBusList] are recursive.

    [decodeStream] is the reference: packets taken from one complete stream.
    [recv_segmentation] says that reading the stream in any pieces is
    equivalent to it; [tdc_roundtrip] that the messages packed by one side are
    delivered by the other, in order and unchanged. *)

From S2P Require Import Prelude Errno Bytes SeqVerify Adapter PendingPkt.
Import Errno Bytes SeqVerify Adapter.Mem Adapter.ByteOrder Adapter.Crypto.

Module TcpDirect.

(** ** Data *)

Definition ACK_SIZE : Z := 4.
Definition DC_DATA_HEAD_SIZE : Z := 16.
Definition DATA_EXTEND_LEN : Z := DC_DATA_HEAD_SIZE + OVERHEAD_LEN.
Definition MIN_BUF_LEN : Z := 1024 + DATA_EXTEND_LEN.
Definition MAGIC_NUMBER : Z := 0xBABEFACE.
Definition BYTE_TOS : Z := 0x60.
Definition MESSAGE_TOS : Z := 0xC0.
Definition HEART_TIME : Z := 300.

Definition FLAG_BYTES : Z := 0.
Definition FLAG_ACK : Z := 1.
Definition FLAG_MESSAGE : Z := 2.

Definition TRANS_SESSION_BYTES : Z := 0.
Definition TRANS_SESSION_MESSAGE : Z := 1.

Record TcpDataPacketHead := MkHead { magicNumber : Z; hseq : Z; flags : Z; dataLen : Z }.

(** A receive buffer: [data] has [size] bytes, [w] is the offset of the write
    pointer. *)
Record ClientDataBuf := MkBuf { bchannelId : Z; bfd : Z; bsize : Z; data : bytes; w : Z }.

Record DataList := MkDataList { bufs : list ClientDataBuf; bcnt : Z; depth : Z }.

Record TcpDirectChannelInfo := MkChannel {
  channelId : Z;
  fd : Z;
  channelType : Z;
  sequence : Z;
  verifyInfo : SeqVerifyInfo;
  sessionKey : bytes;
}.

(** The calls that leave the library. *)
Inductive Call :=
| CMalloc (size : Z)
| CSetIpTos (fd tos : Z)
| CSend (fd : Z) (buf : bytes)
| CDataReceived (channelId : Z) (plain : bytes) (type : Z)
| CSessionOpened (channelId : Z)
| CSessionClosed (channelId : Z)
| CSessionOpenFailed (channelId : Z)
| CServerIpcClose (channelId : Z)
| CCreateListener (fd : Z)
| CSetKeepAlive (fd interval : Z)
| CDelTrigger (fd : Z)
| CShutdown (fd : Z)
| CGetConfig
| CCreateList.

Record World := MkWorld {
  tcpDataList : option DataList;
  dataBufferMaxLen : Z;
  channels : option (list TcpDirectChannelInfo);
  pendings : PendingPkt.Lists;
  log : list (Call * Z);
}.

Definition set_dataList (l : option DataList) (s : World) : World :=
  MkWorld l (dataBufferMaxLen s) (channels s) (pendings s) (log s).
Definition set_maxLen (n : Z) (s : World) : World :=
  MkWorld (tcpDataList s) n (channels s) (pendings s) (log s).
Definition set_channels (c : option (list TcpDirectChannelInfo)) (s : World) : World :=
  MkWorld (tcpDataList s) (dataBufferMaxLen s) c (pendings s) (log s).
Definition set_pendings (p : PendingPkt.Lists) (s : World) : World :=
  MkWorld (tcpDataList s) (dataBufferMaxLen s) (channels s) p (log s).
Definition set_log (l : list (Call * Z)) (s : World) : World :=
  MkWorld (tcpDataList s) (dataBufferMaxLen s) (channels s) (pendings s) l.

Section Channel.

Context (little : bool) `{G : Gcm}.

(** What the outside answers to a call, given how many were made before. *)
Context (answer : nat -> Call -> Z) (randomArray : nat -> option bytes).

Definition call (c : Call) : M World Z :=
  fun s => let r := answer (length (log s)) c in Some (r, set_log (log s ++ [(c, r)]) s).

Definition malloc (size : Z) : M World bool :=
  if MAX_MALLOC_SIZE <? size then mret false
  else r ← call (CMalloc size); mret (SoftBusMalloc (negb (r =? 0)) size).

Definition calloc (size : Z) : M World bool :=
  if MAX_MALLOC_SIZE <? size then mret false
  else r ← call (CMalloc size); mret (SoftBusCalloc (negb (r =? 0)) size).

Definition random : M World (option bytes) := gets (fun s => randomArray (length (log s))).

(** ** Packet heads *)

Definition PackTcpDataPacketHead (h : TcpDataPacketHead) : option TcpDataPacketHead :=
  m ← SoftBusHtoLl little (magicNumber h);
  q ← SoftBusHtoLl little (u32 (hseq h));
  f ← SoftBusHtoLl little (flags h);
  d ← SoftBusHtoLl little (dataLen h);
  Some (MkHead m (s32 q) f d).

(** The packed struct in memory. *)
Definition headBytes (h : TcpDataPacketHead) : bytes :=
  host_bytes little 4 (magicNumber h) ++ host_bytes little 4 (u32 (hseq h)) ++
  host_bytes little 4 (flags h) ++ host_bytes little 4 (dataLen h).

Definition load32 (b : bytes) (off : Z) : option Z := host_val little <$> get b off 4.

Definition unpack32 (b : bytes) (off : Z) : option bytes :=
  v ← load32 b off;
  v' ← SoftBusLtoHl little v;
  put b off (host_bytes little 4 v').

(** Converts the head in place, in the receive buffer. *)
Definition UnpackTcpDataPacketHead (b : bytes) : option bytes :=
  b1 ← unpack32 b 0; b2 ← unpack32 b1 4; b3 ← unpack32 b2 8; unpack32 b3 12.

(** The struct at the start of a buffer. *)
Definition headAt (b : bytes) : option TcpDataPacketHead :=
  m ← load32 b 0; q ← load32 b 4; f ← load32 b 8; d ← load32 b 12;
  Some (MkHead m (s32 q) f d).

(** ** Encryption *)

Definition TransTdcDecrypt (key inb : bytes) (inLen : Z) (out : bytes) : M World (Z * bytes * option Z) :=
  lift (SoftBusDecryptData key inb inLen out).

Definition TransTdcEncryptWithSeq (key : bytes) (seqNum : Z) (inb : bytes) (inLen : Z) (out : bytes)
  : M World (Z * bytes * option Z) :=
  rnd ← random;
  '(ret, out', outLen) ← lift (SoftBusEncryptDataWithSeq little rnd key inb inLen out seqNum);
  if negb (ret =? SOFTBUS_OK) then mret (SOFTBUS_ENCRYPT_ERR, out', outLen)
  else match outLen with
  | None => ub
  | Some n =>
      if negb (n =? u32 (inLen + OVERHEAD_LEN)) then mret (SOFTBUS_ENCRYPT_ERR, out', outLen)
      else mret (SOFTBUS_OK, out', outLen)
  end.

(** ** Sending *)

Definition TransTdcPackData (channel : TcpDirectChannelInfo) (d : bytes) (len flg : Z)
  : M World (option (bytes * Z)) :=
  let dataLen := u32 (len + OVERHEAD_LEN) in
  let total := u32 (dataLen + DC_DATA_HEAD_SIZE) in
  ok ← malloc total;
  if negb ok then mret None
  else
    let buf := replicate (Z.to_nat total) 0 (* every byte is written below *) in
    '(finalSeq, finalData) ←
      (if flg =? FLAG_ACK then
         v ← lift (load32 d 0);
         mret (s32 v, be_bytes 4 (u32 (s32 v)))
       else mret (sequence channel, d)) : M World (Z * bytes);
    h ← lift (PackTcpDataPacketHead (MkHead MAGIC_NUMBER finalSeq (u32 flg) dataLen));
    '(ok1, buf1) ← lift (memcpy_s buf 0 DC_DATA_HEAD_SIZE (headBytes h) 16);
    if negb ok1 then mret None
    else
      '(ret, out, outLen) ←
        TransTdcEncryptWithSeq (sessionKey channel) finalSeq finalData len
          (drop (Z.to_nat DC_DATA_HEAD_SIZE) buf1);
      if negb (ret =? SOFTBUS_OK) then mret None
      else match outLen with
      | None => ub
      | Some n => mret (Some (take (Z.to_nat DC_DATA_HEAD_SIZE) buf1 ++ out, n))
      end.

Definition TransTdcProcessPostData (channel : TcpDirectChannelInfo) (d : bytes) (len flg : Z) : M World Z :=
  r ← TransTdcPackData channel d len flg;
  match r with
  | None => mret SOFTBUS_ENCRYPT_ERR
  | Some (buf, outLen) =>
      if negb (outLen =? u32 (len + OVERHEAD_LEN)) then mret SOFTBUS_ENCRYPT_ERR
      else
        let tos := if flg =? FLAG_BYTES then BYTE_TOS else MESSAGE_TOS in
        r1 ← call (CSetIpTos (fd channel) tos);
        if negb (r1 =? SOFTBUS_OK) then mret SOFTBUS_TCP_SOCKET_ERR
        else
          sent ← lift (get buf 0 (u32 (outLen + DC_DATA_HEAD_SIZE)));
          ret ← call (CSend (fd channel) sent);
          if negb (ret =? outLen + DC_DATA_HEAD_SIZE) then mret SOFTBUS_ERR
          else mret SOFTBUS_OK
  end.

(** ** The table of channels *)

Definition channelsOf : M World (list TcpDirectChannelInfo) :=
  fun s => (fun l => (l, s)) <$> channels s.

Definition findChannel (id : Z) (l : list TcpDirectChannelInfo) : option (nat * TcpDirectChannelInfo) :=
  list_find (fun c => channelId c = id) l.
Arguments findChannel : simpl never.

Definition TransTdcGetInfoById (id : Z) : M World (option TcpDirectChannelInfo) :=
  l ← channelsOf; mret (snd <$> findChannel id l).

(** The copy is taken before the number is advanced. *)
Definition TransTdcGetInfoByIdWithIncSeq (id : Z) : M World (option TcpDirectChannelInfo) :=
  l ← channelsOf;
  match findChannel id l with
  | None => mret None
  | Some (i, c) =>
      _ ← modify (set_channels (Some (<[i := MkChannel (channelId c) (fd c) (channelType c)
             (s32 (sequence c + 1)) (verifyInfo c) (sessionKey c)]> l)));
      mret (Some c)
  end.

Definition TransTdcGetInfoByFd (f : Z) : M World (option TcpDirectChannelInfo) :=
  l ← channelsOf; mret (snd <$> list_find (fun c => fd c = f) l).

Definition TransTdcCheckSeq (f sq : Z) : M World Z :=
  l ← channelsOf;
  match list_find (fun c => fd c = f) l with
  | None => mret SOFTBUS_ERR
  | Some (i, c) =>
      '(ok, v) ← lift (IsPassSeqCheck (Some (verifyInfo c)) sq);
      _ ← modify (set_channels (Some (<[i := MkChannel (channelId c) (fd c) (channelType c)
             (sequence c) (default (verifyInfo c) v) (sessionKey c)]> l)));
      mret (if ok : bool then SOFTBUS_OK else SOFTBUS_ERR)
  end.

Definition TransTdcSendBytes (id : Z) (d : bytes) (len : Z) : M World Z :=
  c ← TransTdcGetInfoByIdWithIncSeq id;
  match c with
  | None => mret SOFTBUS_ERR
  | Some channel =>
      ret ← TransTdcProcessPostData channel d len FLAG_BYTES;
      if negb (ret =? SOFTBUS_OK) then mret ret else mret SOFTBUS_OK
  end.

(** [inl]: what [TransTdcSendMessage] returned; [inr seq]: it waits for the
    acknowledgement of that number ([PendingPkt]). *)
Definition TransTdcSendMessage (t : nat) (mem : bool) (id : Z) (d : bytes) (len : Z) : M World (Z + Z) :=
  c ← TransTdcGetInfoByIdWithIncSeq id;
  match c with
  | None => mret (inl SOFTBUS_TRANS_TDC_CHANNEL_NOT_FOUND)
  | Some channel =>
      ret ← TransTdcProcessPostData channel d len FLAG_MESSAGE;
      if negb (ret =? SOFTBUS_OK) then mret (inl ret)
      else
        p ← gets pendings;
        match PendingPkt.ProcPendingBegin mem t id (sequence channel) PendingPkt.PENDING_TYPE_DIRECT p with
        | inl r => mret (inl r)
        | inr p' => _ ← modify (set_pendings p'); mret (inr (sequence channel))
        end
  end.

Definition TransTdcSendAck (channel : TcpDirectChannelInfo) (sq : Z) : M World Z :=
  TransTdcProcessPostData channel (host_bytes little 4 (u32 sq)) ACK_SIZE FLAG_ACK.

(** ** The list of receive buffers

    [lock] and [unlock] are the mutex of [g_tcpDataList]; through NULL they
    are undefined. *)

Definition dataListOf : M World DataList := fun s => (fun l => (l, s)) <$> tcpDataList s.

Definition lock : M World unit :=
  l ← dataListOf; modify (set_dataList (Some (MkDataList (bufs l) (bcnt l) (depth l + 1)))).
Definition unlock : M World unit :=
  l ← dataListOf; modify (set_dataList (Some (MkDataList (bufs l) (bcnt l) (depth l - 1)))).
Definition setBufs (bs : list ClientDataBuf) (n : Z) : M World unit :=
  l ← dataListOf; modify (set_dataList (Some (MkDataList bs n (depth l)))).

(** Write through a pointer to the i-th buffer. *)
Definition setBuf (i : nat) (b : ClientDataBuf) : M World unit :=
  l ← dataListOf; setBufs (<[i := b]> (bufs l)) (bcnt l).

Definition TransGetDataBufSize : Z := MIN_BUF_LEN.

Definition SIZEOF_ClientDataBuf : Z := 48.

(** [cfg] is the configured maximum of bytes ([SOFTBUS_INT_MAX_BYTES_LENGTH]). *)
Definition TransGetDataBufMaxSize (cfg : Z) : M World Z :=
  r ← call CGetConfig;
  if negb (r =? SOFTBUS_OK) then mret SOFTBUS_ERR
  else _ ← modify (set_maxLen (u32 (cfg + DATA_EXTEND_LEN))); mret SOFTBUS_OK.

Definition TransAddDataBufNode (id f : Z) : M World Z :=
  l ← gets tcpDataList;
  match l with
  | None => mret SOFTBUS_ERR
  | Some _ =>
      ok1 ← calloc SIZEOF_ClientDataBuf;
      if negb ok1 then mret SOFTBUS_ERR
      else
        ok2 ← calloc TransGetDataBufSize;
        if negb ok2 then mret SOFTBUS_ERR
        else
          let node := MkBuf id f TransGetDataBufSize (replicate (Z.to_nat TransGetDataBufSize) 0) 0 in
          _ ← lock;
          dl ← dataListOf;
          _ ← setBufs (node :: bufs dl) (bcnt dl + 1);
          _ ← unlock;
          mret SOFTBUS_OK
  end.

Definition findBuf (id : Z) (l : list ClientDataBuf) : option (nat * ClientDataBuf) :=
  list_find (fun b => bchannelId b = id) l.
Arguments findBuf : simpl never.

Definition TransDelDataBufNode (id : Z) : M World Z :=
  l ← gets tcpDataList;
  match l with
  | None => mret SOFTBUS_ERR
  | Some _ =>
      _ ← lock;
      dl ← dataListOf;
      _ ← (match findBuf id (bufs dl) with
           | Some (i, _) => setBufs (delete i (bufs dl)) (bcnt dl - 1)
           | None => mret tt
           end);
      _ ← unlock;
      mret SOFTBUS_OK
  end.

Definition TransDestroyDataBuf : M World Z :=
  l ← gets tcpDataList;
  match l with
  | None => mret SOFTBUS_ERR
  | Some _ =>
      _ ← lock;
      dl ← dataListOf;
      _ ← setBufs [] (bcnt dl - Z.of_nat (length (bufs dl)));
      _ ← unlock;
      mret SOFTBUS_OK
  end.

Definition TransGetDataBufNodeById (id : Z) : M World (option (nat * ClientDataBuf)) :=
  l ← gets tcpDataList;
  mret (match l with None => None | Some dl => findBuf id (bufs dl) end).

(** ** Receiving *)

Definition TransTdcSetPendingPacket (id : Z) (d : bytes) (len : Z) : M World Z :=
  if negb (len =? ACK_SIZE) then mret SOFTBUS_ERR
  else
    bs ← lift (get d 0 4);
    p ← gets pendings;
    let '(ret, p') := PendingPkt.SetPendingPacket id (s32 (be_val bs)) PendingPkt.PENDING_TYPE_DIRECT p in
    _ ← modify (set_pendings p');
    if negb (ret =? SOFTBUS_OK) then mret SOFTBUS_ERR else mret SOFTBUS_OK.

Definition ClientTransTdcOnDataReceived (id : Z) (plain : bytes) (len type : Z) : M World Z :=
  d ← lift (get plain 0 len);
  call (CDataReceived id d type).

Definition TransTdcProcessDataByFlag (flag seqNum : Z) (channel : TcpDirectChannelInfo)
    (plain : bytes) (plainLen : Z) : M World Z :=
  if flag =? FLAG_BYTES then
    ClientTransTdcOnDataReceived (channelId channel) plain plainLen TRANS_SESSION_BYTES
  else if flag =? FLAG_ACK then
    _ ← TransTdcSetPendingPacket (channelId channel) plain plainLen;
    mret SOFTBUS_OK
  else if flag =? FLAG_MESSAGE then
    _ ← TransTdcSendAck channel seqNum;
    ClientTransTdcOnDataReceived (channelId channel) plain plainLen TRANS_SESSION_MESSAGE
  else mret SOFTBUS_ERR.

(** [memmove_s(node->data, node->size, node->data + off, count)] *)
Definition memmove_s (b : bytes) (destMax off count : Z) : option (bool * bytes) :=
  if destMax <? u64 count then
    b' ← put b 0 (replicate (Z.to_nat destMax) 0); Some (false, b')
  else
    s ← get b off (u64 count);
    b' ← put b 0 s; Some (true, b').

Definition TransTdcProcessData (id : Z) : M World Z :=
  c ← TransTdcGetInfoById id;
  match c with
  | None => mret SOFTBUS_ERR
  | Some channel =>
      _ ← lock;
      n ← TransGetDataBufNodeById id;
      match n with
      | None => mret SOFTBUS_ERR (* the lock stays taken *)
      | Some (i, node) =>
          h ← lift (headAt (data node));
          let seqNum := hseq h in
          let flag := flags h in
          let plainSize := u32 (dataLen h - OVERHEAD_LEN) in
          ok ← calloc plainSize;
          if negb ok then _ ← unlock; mret SOFTBUS_MALLOC_ERR
          else
            '(ret, plain, plainLen) ←
              TransTdcDecrypt (sessionKey channel) (drop (Z.to_nat DC_DATA_HEAD_SIZE) (data node))
                (dataLen h) (replicate (Z.to_nat plainSize) 0);
            if negb (ret =? SOFTBUS_OK) then _ ← unlock; mret SOFTBUS_DECRYPT_ERR
            else
              let endp := DC_DATA_HEAD_SIZE + dataLen h in
              '(okm, d') ← lift (memmove_s (data node) (bsize node) endp (w node - endp));
              if negb okm then
                _ ← setBuf i (MkBuf (bchannelId node) (bfd node) (bsize node) d' (w node));
                _ ← unlock; mret SOFTBUS_MEM_ERR
              else
                _ ← setBuf i (MkBuf (bchannelId node) (bfd node) (bsize node) d'
                                (w node - DC_DATA_HEAD_SIZE - dataLen h));
                _ ← unlock;
                match plainLen with
                | None => ub
                | Some pl => TransTdcProcessDataByFlag flag seqNum channel plain pl
                end
      end
  end.

Definition TransResizeDataBuffer (i : nat) (oldBuf : ClientDataBuf) (pkgLen : Z) : M World Z :=
  ok ← calloc pkgLen;
  if negb ok then mret SOFTBUS_MEM_ERR
  else
    let bufLen := u32 (w oldBuf) in
    '(okc, newBuf) ← lift (memcpy_s (replicate (Z.to_nat pkgLen) 0) 0 pkgLen (data oldBuf) bufLen);
    if negb okc then mret SOFTBUS_MEM_ERR
    else
      _ ← setBuf i (MkBuf (bchannelId oldBuf) (bfd oldBuf) pkgLen newBuf bufLen);
      mret SOFTBUS_OK.

(** One round of the loop of [TransTdcProcAllData]: [Some ret] leaves it. *)
Definition procRound (id : Z) : M World (option Z) :=
  _ ← lock;
  n ← TransGetDataBufNodeById id;
  match n with
  | None => _ ← unlock; mret (Some SOFTBUS_ERR)
  | Some (i, node) =>
      let bufLen := u32 (w node) in
      if bufLen <? DC_DATA_HEAD_SIZE then _ ← unlock; mret (Some SOFTBUS_DATA_NOT_ENOUGH)
      else
        d ← lift (UnpackTcpDataPacketHead (data node));
        let node' := MkBuf (bchannelId node) (bfd node) (bsize node) d (w node) in
        _ ← setBuf i node';
        h ← lift (headAt d);
        if negb (magicNumber h =? MAGIC_NUMBER) then _ ← unlock; mret (Some SOFTBUS_ERR)
        else
          let pkgLen := u32 (dataLen h + DC_DATA_HEAD_SIZE) in
          max ← gets dataBufferMaxLen;
          if max <? pkgLen then _ ← unlock; mret (Some SOFTBUS_ERR)
          else if (bsize node <? pkgLen) && (pkgLen <=? max) then
            ret ← TransResizeDataBuffer i node' pkgLen; _ ← unlock; mret (Some ret)
          else
            _ ← unlock;
            if bufLen <? pkgLen then mret (Some SOFTBUS_DATA_NOT_ENOUGH)
            else
              ret ← TransTdcProcessData id;
              if negb (ret =? SOFTBUS_OK) then mret (Some SOFTBUS_ERR) else mret None
  end.

Fixpoint procLoop (fuel : nat) (id : Z) : M World Z :=
  match fuel with
  | O => ub
  | S fuel' =>
      r ← procRound id;
      match r with Some ret => mret ret | None => procLoop fuel' id end
  end.

(** Every round but the last takes a packet off the buffer, so one round per
    byte and one more is enough. *)
Definition TransTdcProcAllData (id : Z) : M World Z :=
  fun s =>
    let fuel := match tcpDataList s with
                | Some dl => match findBuf id (bufs dl) with
                             | Some (_, b) => S (Z.to_nat (w b))
                             | None => 1%nat
                             end
                | None => 1%nat
                end in
    procLoop fuel id s.

(** What [ConnRecvSocketData] did: a code that is not positive, or bytes put
    into the space it was given. *)
Definition recvInto (recv : Z + bytes) (node : ClientDataBuf) : option (Z * bytes) :=
  match recv with
  | inl r => if r <=? 0 then Some (r, data node) else None
  | inr bs =>
      if (0 <? len bs) && (len bs <=? bsize node - w node) then
        d ← put (data node) (w node) bs; Some (len bs, d)
      else None
  end.

Definition TransTdcRecvData (recv : Z + bytes) (id : Z) : M World Z :=
  _ ← lock;
  n ← TransGetDataBufNodeById id;
  match n with
  | None => _ ← unlock; mret SOFTBUS_ERR
  | Some (i, node) =>
      '(ret, d) ← lift (recvInto recv node);
      if ret <=? 0 then _ ← unlock; mret SOFTBUS_ERR
      else
        _ ← setBuf i (MkBuf (bchannelId node) (bfd node) (bsize node) d (w node + ret));
        _ ← unlock;
        TransTdcProcAllData id
  end.

Definition TransDataListInit (cfg : Z) : M World Z :=
  l ← gets tcpDataList;
  match l with
  | Some _ => mret SOFTBUS_OK
  | None =>
      r ← TransGetDataBufMaxSize cfg;
      if negb (r =? SOFTBUS_OK) then mret SOFTBUS_ERR
      else
        c ← call CCreateList;
        if c =? 0 then mret SOFTBUS_ERR
        else _ ← modify (set_dataList (Some (MkDataList [] 0 0))); mret SOFTBUS_OK
  end.

Definition TransDataListDeinit : M World unit :=
  l ← gets tcpDataList;
  match l with
  | None => mret tt
  | Some _ => _ ← TransDestroyDataBuf; modify (set_dataList None)
  end.

(** ** Opening and closing channels *)

Definition TransTdcReleaseFd (f : Z) : M World unit :=
  if f <? 0 then mret tt
  else _ ← call (CDelTrigger f); _ ← call (CShutdown f); mret tt.

Definition TransTdcStopRead (f : Z) : M World Z :=
  if f <? 0 then mret SOFTBUS_OK else call (CDelTrigger f).

Definition TransTdcCloseChannel (id : Z) : M World unit :=
  _ ← call (CServerIpcClose id);
  l ← channelsOf;
  match findChannel id l with
  | None => mret tt
  | Some (i, c) =>
      _ ← TransTdcReleaseFd (fd c);
      _ ← modify (set_channels (Some (delete i l)));
      p ← gets pendings;
      modify (set_pendings (PendingPkt.DelPendingPacket id PendingPkt.PENDING_TYPE_DIRECT p).2)
  end.

Definition SIZEOF_TcpDirectChannelInfo : Z := 120.

Definition TransGetNewTcpChannel (id f type : Z) (key : bytes) : M World (option TcpDirectChannelInfo) :=
  ok ← calloc SIZEOF_TcpDirectChannelInfo;
  if negb ok then mret None
  else
    k ← lift (get key 0 SESSION_KEY_LENGTH);
    mret (Some (MkChannel id f type 0 (MkSeq 0 0 0) k)).

Definition ClientTransTdcOnChannelOpened (id f type : Z) (key : bytes) : M World Z :=
  l ← channelsOf;
  match findChannel id l with
  | Some _ => mret SOFTBUS_ERR
  | None =>
      item ← TransGetNewTcpChannel id f type key;
      match item with
      | None => mret SOFTBUS_ERR
      | Some it =>
          r1 ← TransAddDataBufNode id f;
          if negb (r1 =? SOFTBUS_OK) then mret SOFTBUS_ERR
          else
            r2 ← call (CCreateListener f);
            if negb (r2 =? SOFTBUS_OK) then _ ← TransDelDataBufNode id; mret SOFTBUS_ERR
            else
              r3 ← call (CSetKeepAlive f HEART_TIME);
              if negb (r3 =? SOFTBUS_OK) then _ ← TransDelDataBufNode id; mret SOFTBUS_ERR
              else
                _ ← modify (set_channels (Some (it :: l)));
                r4 ← call (CSessionOpened id);
                mret (if negb (r4 =? SOFTBUS_OK) then SOFTBUS_ERR else SOFTBUS_OK)
      end
  end.

Definition ClientTransTdcOnChannelOpenFailed (id : Z) : M World Z := call (CSessionOpenFailed id).

Definition TransTdcGetSessionKey (id keyLen : Z) : M World (Z * option bytes) :=
  c ← TransTdcGetInfoById id;
  match c with
  | None => mret (SOFTBUS_ERR, None)
  | Some channel =>
      if keyLen <? SESSION_KEY_LENGTH then mret (SOFTBUS_MEM_ERR, None)
      else mret (SOFTBUS_OK, Some (sessionKey channel))
  end.

Definition TransTdcGetHandle (id : Z) : M World (Z * option Z) :=
  c ← TransTdcGetInfoById id;
  mret (match c with None => (SOFTBUS_ERR, None) | Some channel => (SOFTBUS_OK, Some (fd channel)) end).

Definition TransDisableSessionListener (id : Z) : M World Z :=
  c ← TransTdcGetInfoById id;
  match c with
  | None => mret SOFTBUS_ERR
  | Some channel => if fd channel <? 0 then mret SOFTBUS_ERR else TransTdcStopRead (fd channel)
  end.

(** [hasCb]: whether a callback is given; [pend]: whether the list of
    pending packets can be created. *)
Definition TransTdcManagerInit (cfg : Z) (hasCb pend : bool) : M World Z :=
  c ← call CCreateList;
  _ ← modify (set_channels (if c =? 0 then None else Some []));
  if c =? 0 then mret SOFTBUS_ERR
  else
    r ← TransDataListInit cfg;
    if negb (r =? SOFTBUS_OK) then mret SOFTBUS_ERR
    else if negb hasCb then mret SOFTBUS_ERR
    else
      p ← gets pendings;
      let '(r2, p') := PendingPkt.PendingInit pend PendingPkt.PENDING_TYPE_DIRECT p in
      _ ← modify (set_pendings p');
      mret (if r2 =? SOFTBUS_ERR then SOFTBUS_ERR else SOFTBUS_OK).

Definition TransTdcManagerDeinit : M World unit :=
  c ← gets channels;
  match c with
  | None => mret tt
  | Some _ =>
      _ ← TransDataListDeinit;
      _ ← modify (set_channels None);
      modify (fun s => set_pendings (PendingPkt.PendingDeinit PendingPkt.PENDING_TYPE_DIRECT (pendings s)) s)
  end.

Definition SOFTBUS_SOCKET_IN : Z := 1.

(** A socket became readable. *)
Definition ClientTdcOnDataEvent (recv : Z + bytes) (events f : Z) : M World Z :=
  c ← TransTdcGetInfoByFd f;
  match c with
  | None => mret SOFTBUS_ERR
  | Some channel =>
      if events =? SOFTBUS_SOCKET_IN then
        let id := channelId channel in
        ret ← TransTdcRecvData recv id;
        if ret =? SOFTBUS_DATA_NOT_ENOUGH then mret SOFTBUS_OK
        else if negb (ret =? SOFTBUS_OK) then
          _ ← TransDelDataBufNode id;
          _ ← TransTdcCloseChannel id;
          _ ← call (CSessionClosed id);
          mret SOFTBUS_ERR
        else mret SOFTBUS_OK
      else mret SOFTBUS_OK
  end.

(** ** The reference: packets of a complete stream *)

(** The head in little-endian order, whatever the host. *)
Definition wireHead (b : bytes) : option TcpDataPacketHead :=
  m ← get b 0 4; q ← get b 4 4; f ← get b 8 4; d ← get b 12 4;
  Some (MkHead (le_val m) (s32 (le_val q)) (le_val f) (le_val d)).

(** Decrypt one payload and hand it on. *)
Definition deliver (id : Z) (h : TcpDataPacketHead) (payload : bytes) : M World Z :=
  c ← TransTdcGetInfoById id;
  match c with
  | None => mret SOFTBUS_ERR
  | Some channel =>
      let plainSize := u32 (dataLen h - OVERHEAD_LEN) in
      ok ← calloc plainSize;
      if negb ok then mret SOFTBUS_MALLOC_ERR
      else
        '(ret, plain, plainLen) ← lift (SoftBusDecryptData (sessionKey channel) payload (dataLen h)
                                          (replicate (Z.to_nat plainSize) 0));
        if negb (ret =? SOFTBUS_OK) then mret SOFTBUS_DECRYPT_ERR
        else match plainLen with
        | None => ub
        | Some pl => TransTdcProcessDataByFlag (flags h) (hseq h) channel plain pl
        end
  end.

(** The packets at the front of [buf], and what remains: [None] when one of
    them is refused.  [sz] is the largest buffer needed so far. *)
Fixpoint decodeLoop (fuel : nat) (id sz : Z) (buf : bytes) : M World (option (Z * bytes)) :=
  match fuel with
  | O => ub
  | S fuel' =>
      if len buf <? DC_DATA_HEAD_SIZE then mret (Some (sz, buf))
      else
        h ← lift (wireHead buf);
        max ← gets dataBufferMaxLen;
        let pkgLen := u32 (dataLen h + DC_DATA_HEAD_SIZE) in
        if negb (magicNumber h =? MAGIC_NUMBER) || (max <? pkgLen) then mret None
        else
          ok ← if sz <? pkgLen then calloc pkgLen else mret true;
          if negb ok then mret None
          else if len buf <? pkgLen then mret (Some (Z.max sz pkgLen, buf))
          else
            ret ← deliver id h (take (Z.to_nat (dataLen h)) (drop 16 buf));
            if negb (ret =? SOFTBUS_OK) then mret None
            else decodeLoop fuel' id (Z.max sz pkgLen) (drop (Z.to_nat pkgLen) buf)
  end.

Definition decodeStream (id sz : Z) (buf : bytes) : M World (option (Z * bytes)) :=
  decodeLoop (S (length buf)) id sz buf.

(** ** Computations that leave the receive buffers alone *)

Record local {A} (m : M World A) : Prop := {
  local_frame : forall s l, m (set_dataList l s) = prod_map id (set_dataList l) <$> m s;
  local_keeps : forall s a s', m s = Some (a, s') ->
    tcpDataList s' = tcpDataList s /\ dataBufferMaxLen s' = dataBufferMaxLen s /\ channels s' = channels s;
}.

Lemma local_ret {A} (a : A) : local (mret a).
Proof. split; [done|]. by intros s a' s' [= <- <-]. Qed.

Lemma local_ub {A} : local (@ub World A).
Proof. by split. Qed.

Lemma local_bind {A B} (m : M World A) (k : A -> M World B) :
  local m -> (forall a, local (k a)) -> local (m ≫= k).
Proof.
  intros [Hf Hk] Hl. split.
  - intros s l. unfold mbind, M_bind. rewrite Hf. destruct (m s) as [[a s']|]; [|done]. cbn. apply Hl.
  - intros s b s'' (a & s' & E & Ek)%bind_Some.
    destruct (Hk _ _ _ E) as (E1 & E2 & E3). apply Hl in Ek as (-> & -> & ->). done.
Qed.

Lemma local_lift {A} (o : option A) : local (lift o).
Proof. split; unfold lift; destruct o; try done. by intros s a' s' [= <- <-]. Qed.

Lemma local_call c : local (call c).
Proof. split; [done|]. by intros s a s' [= <- <-]. Qed.

Lemma local_random : local random.
Proof. split; [done|]. by intros s a s' [= <- <-]. Qed.

Lemma local_channelsOf : local channelsOf.
Proof. split; unfold channelsOf.
  - intros s l. cbn. by destruct (channels s).
  - intros s a s' (c & E & [= <- <-])%fmap_Some. done.
Qed.

Lemma local_pendings : local (gets pendings).
Proof. split; [done|]. by intros s a s' [= <- <-]. Qed.

Lemma local_maxLen : local (gets dataBufferMaxLen).
Proof. split; [done|]. by intros s a s' [= <- <-]. Qed.

Lemma local_set_pendings p : local (modify (set_pendings p)).
Proof. split; [done|]. by intros s a s' [= <- <-]. Qed.

Create HintDb local discriminated.
Hint Resolve local_ret local_ub local_lift local_call local_random local_channelsOf
  local_pendings local_maxLen local_set_pendings : local.
Hint Extern 1 (local (_ ≫= _)) => apply local_bind; [|intros] : local.
Hint Extern 2 (local (match ?x with _ => _ end)) => destruct x : local.
Hint Extern 3 (local (let '(_, _) := ?x in _)) => destruct x : local.

Ltac local := repeat (progress (eauto with local nocore) || match goal with
  | |- local (_ ≫= _) => apply local_bind; [|intros]
  | |- local (if ?x then _ else _) => destruct x
  | |- local (match ?x with _ => _ end) => destruct x
  end).

Lemma local_malloc n : local (malloc n).
Proof. unfold malloc. local. Qed.

Lemma local_calloc n : local (calloc n).
Proof. unfold calloc. local. Qed.

Hint Resolve local_malloc local_calloc : local.

Lemma local_post c d n f : local (TransTdcProcessPostData c d n f).
Proof.
  unfold TransTdcProcessPostData, TransTdcPackData, TransTdcEncryptWithSeq. local.
Qed.

Hint Resolve local_post : local.

Lemma local_flag f q c p n : local (TransTdcProcessDataByFlag f q c p n).
Proof.
  unfold TransTdcProcessDataByFlag, TransTdcSendAck, ClientTransTdcOnDataReceived, TransTdcSetPendingPacket.
  local.
Qed.

Hint Resolve local_flag : local.

Lemma local_deliver id h p : local (deliver id h p).
Proof. unfold deliver, TransTdcGetInfoById. local. Qed.

(** ** A little-endian host *)

Context (Hle : little = true).
Context (Hrandom : forall n r, randomArray n = Some r -> len r = GCM_IV_LEN).
Context {L : GcmLaws G}.

Lemma host_le n x : host_bytes little n x = le_bytes n x.
Proof. by rewrite Hle. Qed.

Lemma wire_id x : is_u 32 x -> SoftBusHtoLl little x = Some x.
Proof. intros. rewrite Hle. by apply (convert_little 4). Qed.

Lemma unpack32_id b off : is_bytes b -> 0 <= off -> off + 4 <= len b -> unpack32 b off = Some b.
Proof.
  intros Hb H1 H2. unfold unpack32, load32.
  destruct (get_inside b off 4) as (bs & E & El & Hbs); [lia..|]. specialize (Hbs Hb).
  rewrite E. cbn [fmap option_fmap option_map mbind option_bind].
  pose proof (le_val_range bs Hbs) as Hr. rewrite El in Hr.
  assert (host_val little bs = le_val bs) as -> by (by rewrite Hle).
  unfold SoftBusLtoHl. rewrite Hle, convert_little by done. cbn [mbind option_bind host_bytes].
  assert (length bs = 4%nat) as El' by (unfold len in El; lia).
  rewrite <- El', le_bytes_val by done. by eapply put_get.
Qed.

(** Converting the head in place changes nothing. *)
Lemma unpack_id b : is_bytes b -> 16 <= len b -> UnpackTcpDataPacketHead b = Some b.
Proof.
  intros. unfold UnpackTcpDataPacketHead.
  do 3 (rewrite unpack32_id by (done || lia); cbn [mbind option_bind]). by apply unpack32_id; try lia.
Qed.

Lemma headAt_wire b : headAt b = wireHead b.
Proof.
  unfold headAt, wireHead, load32, host_val. rewrite Hle.
  by destruct (get b 0 4), (get b 4 4), (get b 8 4), (get b 12 4).
Qed.

Lemma wireHead_app a b : 16 <= len a -> wireHead (a ++ b) = wireHead a.
Proof. intros. unfold wireHead. by rewrite !get_app_l by lia. Qed.

Lemma wireHead_Some b : is_bytes b -> 16 <= len b ->
  exists h, wireHead b = Some h /\ is_u 32 (magicNumber h) /\ is_s 32 (hseq h) /\
    is_u 32 (flags h) /\ is_u 32 (dataLen h).
Proof.
  intros Hb Hl. unfold wireHead.
  assert (forall off, 0 <= off -> off + 4 <= 16 -> exists bs, get b off 4 = Some bs /\ is_u 32 (le_val bs)) as H.
  { intros off ? ?. destruct (get_inside b off 4) as (bs & E & El & Hbs); [lia..|].
    exists bs. split; [done|]. pose proof (le_val_range bs (Hbs Hb)) as Hr. by rewrite El in Hr. }
  destruct (H 0) as (m & E0 & ?), (H 4) as (q & E4 & ?), (H 8) as (f & E8 & ?), (H 12) as (d & E12 & ?); try lia.
  rewrite E0. cbn [mbind option_bind]. rewrite E4. cbn [mbind option_bind].
  rewrite E8. cbn [mbind option_bind]. rewrite E12. eexists. split; [done|]. cbn. split_and!; try done. apply wrapS_range. lia.
Qed.

(** ** Sending stays inside its buffers *)

(** A computation that always has a result. *)
Definition total {A} (m : M World A) (P : A -> Prop) : Prop :=
  forall s, exists a s', m s = Some (a, s') /\ P a.

Lemma total_ret {A} (a : A) (P : A -> Prop) : P a -> total (mret a) P.
Proof. intros ? s. by exists a, s. Qed.

Lemma total_bind {A B} (m : M World A) (k : A -> M World B) P Q :
  total m P -> (forall a, P a -> total (k a) Q) -> total (m ≫= k) Q.
Proof.
  intros Hm Hk s. destruct (Hm s) as (a & s' & E & HP). rewrite (bind_eq _ _ _ _ _ E). by apply Hk.
Qed.

Lemma total_lift {A} (o : option A) (P : A -> Prop) a : o = Some a -> P a -> total (lift o) P.
Proof. intros -> ? s. by exists a, s. Qed.

Lemma total_call c : total (call c) (fun _ => True).
Proof. intros s. by eexists _, _. Qed.

Lemma total_malloc n : total (malloc n) (fun ok => ok = true -> n <= MAX_MALLOC_SIZE).
Proof.
  intros s. unfold malloc. destruct (Z.ltb_spec MAX_MALLOC_SIZE n); by eexists _, _.
Qed.

Lemma total_calloc n : total (calloc n) (fun ok => ok = true -> n <= MAX_MALLOC_SIZE).
Proof.
  intros s. unfold calloc. destruct (Z.ltb_spec MAX_MALLOC_SIZE n); by eexists _, _.
Qed.

Lemma total_mono {A} (m : M World A) (P Q : A -> Prop) :
  total m P -> (forall a, P a -> Q a) -> total m Q.
Proof. intros H HPQ s. destruct (H s) as (a & s' & E & HP). eauto. Qed.

Lemma pack_total c d n f :
  0 <= n -> n + DATA_EXTEND_LEN < 2 ^ 31 -> n <= len d -> is_u 32 f ->
  (f = FLAG_ACK -> 4 <= len d /\ n <= 4) ->
  total (TransTdcPackData c d n f)
    (fun o => forall buf outLen, o = Some (buf, outLen) -> outLen = n + OVERHEAD_LEN /\
       len buf = n + DATA_EXTEND_LEN).
Proof.
  intros H0 Hmax Hd Hf Hack. unfold TransTdcPackData.
  unfold DATA_EXTEND_LEN, DC_DATA_HEAD_SIZE, OVERHEAD_LEN, GCM_IV_LEN, TAG_LEN in *.
  rewrite !(wrapU_id 32 (n + (12 + 16))) by range. rewrite !(wrapU_id 32 (n + (12 + 16) + 16)) by range.
  eapply total_bind; [apply total_malloc|].
  intros [] _; [|by apply total_ret]. cbn [negb].
  eapply (total_bind _ _ (fun '(fs, fd) => n <= len fd)).
  { destruct (Z.eqb_spec f FLAG_ACK) as [E|]; [|by apply total_ret].
    destruct (Hack E) as [? ?]. unfold load32. destruct (get_inside d 0 4) as (bs & Eg & _); [lia..|].
    eapply total_bind; [eapply (total_lift _ (fun _ => True)); [by rewrite Eg|done]|].
    intros v _. apply total_ret. lens. }
  intros [fs fdata] Hfd.
  eapply (total_bind _ _ (fun _ => True)).
  { unfold PackTcpDataPacketHead. cbn [magicNumber hseq flags dataLen].
    eapply total_lift; [|done].
    rewrite (wire_id MAGIC_NUMBER) by (unfold MAGIC_NUMBER; range). cbn [mbind option_bind].
    rewrite (wire_id (u32 fs)) by (apply wrapU_range; lia). cbn [mbind option_bind].
    rewrite (wrapU_id 32 f) by done. rewrite (wire_id f) by done. cbn [mbind option_bind].
    rewrite (wire_id (n + (12 + 16))) by range. done. }
  intros h _.
  set (buf := replicate _ 0). assert (len buf = n + 28 + 16) as Hbuf by (unfold buf; lens).
  destruct (split_len buf 16) as (b0 & b1 & Eb & Hb0); [lia|]. rewrite Eb in *. rewrite len_app in Hbuf.
  assert (len (headBytes h) = 16) as Hh by (unfold headBytes; lens).
  assert (memcpy_s (b0 ++ b1) 0 16 (headBytes h) 16 = Some (true, headBytes h ++ b1)) as Em.
  { apply memcpy_s_fits; [lia|lia|]. apply put_front. lia. }
  eapply (total_bind _ _ (fun r => r = (true, headBytes h ++ b1))); [by eapply total_lift|].
  intros _ ->. cbn [negb].
  change (Z.to_nat 16) with 16%nat.
  assert (length (headBytes h) = 16%nat) as Hh' by (unfold len in Hh; lia).
  rewrite <- Hh', drop_app_length, take_app_length.
  eapply (total_bind _ _ (fun '(ret, out, o) => ret = SOFTBUS_OK -> o = Some (n + 28) /\ len out = n + 28)).
  { unfold TransTdcEncryptWithSeq. eapply (total_bind _ _ (fun r => forall iv, r = Some iv -> len iv = 12)).
    { intros s. eexists _, _. split; [done|]. intros iv. apply Hrandom. }
    intros r Hr.
    destruct (encrypt_safe little r (sessionKey c) fdata n b1 fs) as (ret & out & o & E & Hok);
      unfold OVERHEAD_LEN, GCM_IV_LEN, TAG_LEN in *; try (done || lia).
    eapply (total_bind _ _ (fun x => x = (ret, out, o))); [by eapply total_lift|].
    intros _ ->. destruct (Z.eqb_spec ret SOFTBUS_OK) as [Er|]; cbn [negb]; [|by apply total_ret].
    destruct (Hok Er) as [-> Hout]. rewrite (wrapU_id 32) by range.
    rewrite Z.eqb_refl. cbn [negb]. by apply total_ret. }
  intros [[ret out] o] Hout.
  destruct (Z.eqb_spec ret SOFTBUS_OK) as [Er|]; cbn [negb]; [|by apply total_ret].
  destruct (Hout Er) as [-> Ho]. apply total_ret. intros buf' outLen [= <- <-]. rewrite len_app. lia.
Qed.

Lemma postData_total c d n f :
  0 <= n -> n + DATA_EXTEND_LEN < 2 ^ 31 -> n <= len d -> is_u 32 f ->
  (f = FLAG_ACK -> 4 <= len d /\ n <= 4) ->
  total (TransTdcProcessPostData c d n f) (fun _ => True).
Proof.
  intros H0 Hmax Hd Hf Hack. unfold TransTdcProcessPostData.
  eapply total_bind; [by apply pack_total|]. intros [[buf outLen]|] Ho; [|by apply total_ret].
  destruct (Ho _ _ eq_refl) as [-> Hb].
  unfold DATA_EXTEND_LEN, DC_DATA_HEAD_SIZE, OVERHEAD_LEN, GCM_IV_LEN, TAG_LEN in *.
  rewrite !(wrapU_id 32) by range. rewrite Z.eqb_refl. cbn [negb].
  eapply total_bind; [apply total_call|]. intros r1 _.
  destruct (r1 =? SOFTBUS_OK); cbn [negb]; [|by apply total_ret].
  eapply total_bind; [eapply (total_lift _ (fun _ => True)); [apply get_whole; lia|done]|].
  intros sent _. eapply total_bind; [apply total_call|]. intros ret _.
  destruct (ret =? _); by apply total_ret.
Qed.

Lemma flag_total f q c p n : len p = n -> total (TransTdcProcessDataByFlag f q c p n) (fun _ => True).
Proof.
  intros Hp. unfold TransTdcProcessDataByFlag.
  assert (forall type, total (ClientTransTdcOnDataReceived (channelId c) p n type) (fun _ => True)) as Hdata.
  { intros type. eapply total_bind; [|intros; apply total_call].
    eapply (total_lift _ (fun _ => True)); [by apply get_whole|done]. }
  destruct (f =? FLAG_BYTES); [done|]. destruct (f =? FLAG_ACK).
  - eapply total_bind; [|intros ? _; by apply total_ret].
    unfold TransTdcSetPendingPacket. destruct (Z.eqb_spec n ACK_SIZE) as [E|]; cbn [negb];
      [|by apply (total_ret _ (fun _ => True))]. unfold ACK_SIZE in E.
    eapply total_bind; [eapply (total_lift _ (fun _ => True)); [apply get_whole; lia|done]|]. intros bs _.
    intros s. unfold mbind, M_bind, gets. destruct (PendingPkt.SetPendingPacket _ _ _ _) as [ret p'].
    cbn. destruct (ret =? SOFTBUS_OK); cbn [negb]; by eexists _, _.
  - destruct (f =? FLAG_MESSAGE); [|by apply total_ret].
    eapply total_bind; [|intros ? _; apply Hdata]. unfold TransTdcSendAck, ACK_SIZE.
    apply postData_total; rewrite ?len_host_bytes; try done; try lia; try range.
Qed.

Lemma deliver_total id h p s l : channels s = Some l -> is_u 32 (dataLen h) ->
  dataLen h <= len p \/ 2 ^ 32 <= dataLen h + DC_DATA_HEAD_SIZE ->
  exists ret s', deliver id h p s = Some (ret, s').
Proof.
  intros Hc Hd Hp. unfold deliver, TransTdcGetInfoById.
  assert (channelsOf s = Some (l, s)) as E by (unfold channelsOf; by rewrite Hc).
  unfold mbind, M_bind. rewrite E. cbn [mret M_ret].
  destruct (snd <$> findChannel id l) as [c|]; [|by eexists _, _].
  cut (total (ok ← calloc (u32 (dataLen h - OVERHEAD_LEN));
      if negb ok then mret SOFTBUS_MALLOC_ERR
      else
        '(ret, plain, plainLen) ← lift (SoftBusDecryptData (sessionKey c) p (dataLen h)
                                          (replicate (Z.to_nat (u32 (dataLen h - OVERHEAD_LEN))) 0));
        if negb (ret =? SOFTBUS_OK) then mret SOFTBUS_DECRYPT_ERR
        else match plainLen with
        | None => ub
        | Some pl => TransTdcProcessDataByFlag (flags h) (hseq h) c plain pl
        end) (fun _ => True)).
  { intros H. destruct (H s) as (a & s' & E' & _). exists a, s'. exact E'. }
  eapply total_bind; [apply total_calloc|]. intros [] Hok; [|by apply total_ret]. cbn [negb].
  specialize (Hok eq_refl). unfold MAX_MALLOC_SIZE in Hok.
  unfold DC_DATA_HEAD_SIZE in Hp.
  destruct (decrypt_safe (sessionKey c) p (dataLen h) (replicate (Z.to_nat (u32 (dataLen h - OVERHEAD_LEN))) 0))
    as (ret & plain & o & Ed & Hplain).
  1-3: unfold OVERHEAD_LEN, GCM_IV_LEN, TAG_LEN in *; rewrite ?len_replicate; cint.
  eapply (total_bind _ _ (fun x => x = (ret, plain, o))); [by eapply total_lift|]. intros _ ->.
  destruct (Z.eqb_spec ret SOFTBUS_OK) as [Er|]; cbn [negb]; [|by apply total_ret].
  destruct (Hplain Er) as (_ & -> & Hl). by apply flag_total.
Qed.

(** ** Receive buffers that hold the bytes [buf] *)

Definition buffer (id f sz : Z) (buf junk : bytes) : ClientDataBuf := MkBuf id f sz (buf ++ junk) (len buf).

Record holds (dl : DataList) (id sz : Z) (buf : bytes) (i : nat) (f : Z) (junk : bytes) : Prop := {
  holds_find : findBuf id (bufs dl) = Some (i, buffer id f sz buf junk);
  holds_bytes : is_bytes (buf ++ junk);
  holds_len : len buf + len junk = sz;
  holds_size : DC_DATA_HEAD_SIZE <= sz < 2 ^ 32;
}.

Lemma findBuf_insert id l i b b' : findBuf id l = Some (i, b) -> bchannelId b' = id ->
  findBuf id (<[i := b']> l) = Some (i, b').
Proof.
  intros (Hl & Hb & Hlt)%list_find_Some Hb'. apply list_find_Some. split_and!.
  - apply list_lookup_insert_eq. by eapply lookup_lt_Some.
  - done.
  - intros j y Hj Hji. rewrite list_lookup_insert_ne in Hj by lia. by eapply Hlt.
Qed.

(** The list with the buffer of the channel replaced. *)
Definition replaceBuf (dl : DataList) (i : nat) (b : ClientDataBuf) : DataList :=
  MkDataList (<[i := b]> (bufs dl)) (bcnt dl) (depth dl).

Lemma holds_replace dl id sz buf i f junk sz' buf' junk' :
  holds dl id sz buf i f junk -> is_bytes (buf' ++ junk') -> len buf' + len junk' = sz' ->
  DC_DATA_HEAD_SIZE <= sz' < 2 ^ 32 ->
  holds (replaceBuf dl i (buffer id f sz' buf' junk')) id sz' buf' i f junk'.
Proof. intros [Hf _ _ _] ? ? ?. split; try done. by eapply findBuf_insert. Qed.

Lemma replace_same dl id sz buf i f junk :
  holds dl id sz buf i f junk -> replaceBuf dl i (buffer id f sz buf junk) = dl.
Proof.
  intros [(Hl & _ & _)%list_find_Some _ _ _]. destruct dl as [bs n k]. unfold replaceBuf. cbn in *.
  by rewrite list_insert_id.
Qed.

(** The list changed at most in the buffer of the channel. *)
Definition touched (dl dl' : DataList) (id : Z) (i : nat) (f : Z) : Prop :=
  exists sz' buf' junk', holds dl' id sz' buf' i f junk' /\
    dl' = replaceBuf dl i (buffer id f sz' buf' junk').

Lemma touched_refl dl id sz buf i f junk : holds dl id sz buf i f junk -> touched dl dl id i f.
Proof. intros Hh. exists sz, buf, junk. split; [done|]. by rewrite (replace_same _ _ _ _ _ _ _ Hh). Qed.

Lemma touched_trans dl dl1 dl2 id i f : touched dl dl1 id i f -> touched dl1 dl2 id i f -> touched dl dl2 id i f.
Proof.
  intros (s1 & b1 & j1 & _ & ->) (s2 & b2 & j2 & H2 & E2). exists s2, b2, j2. split; [done|].
  rewrite E2 at 1. unfold replaceBuf. cbn [bufs bcnt depth]. by rewrite list_insert_insert_eq.
Qed.

Lemma touched_replace dl id sz buf i f junk : holds (replaceBuf dl i (buffer id f sz buf junk)) id sz buf i f junk ->
  touched dl (replaceBuf dl i (buffer id f sz buf junk)) id i f.
Proof. intros Hh. by exists sz, buf, junk. Qed.

Lemma touched_depth dl dl' id i f : touched dl dl' id i f -> depth dl' = depth dl.
Proof. by intros (? & ? & ? & _ & ->). Qed.

Lemma local_eq {A} (m : M World A) s l a s' : local m -> m s = Some (a, s') ->
  m (set_dataList l s) = Some (a, set_dataList l s').
Proof. intros [Hf _] E. by rewrite Hf, E. Qed.

Definition deeper (dl : DataList) : DataList := MkDataList (bufs dl) (bcnt dl) (depth dl + 1).

Lemma unlock_deeper dl s : unlock (set_dataList (Some (deeper dl)) s) = Some (tt, set_dataList (Some dl) s).
Proof.
  unfold unlock, deeper. unfold mbind, M_bind, dataListOf, modify. cbn.
  rewrite Z.add_simpl_r. by destruct dl.
Qed.

Lemma lock_eq dl s : lock (set_dataList (Some dl) s) = Some (tt, set_dataList (Some (deeper dl)) s).
Proof. done. Qed.

Lemma setBuf_eq dl i b s :
  setBuf i b (set_dataList (Some dl) s) = Some (tt, set_dataList (Some (replaceBuf dl i b)) s).
Proof. done. Qed.

Lemma find_eq dl id sz buf i f junk s : holds dl id sz buf i f junk ->
  TransGetDataBufNodeById id (set_dataList (Some (deeper dl)) s) =
  Some (Some (i, buffer id f sz buf junk), set_dataList (Some (deeper dl)) s).
Proof. intros [Hf _ _ _]. unfold TransGetDataBufNodeById, mbind, M_bind, gets. cbn. by rewrite Hf. Qed.

Lemma lift_Some {A} (o : option A) a (s : World) : o = Some a -> lift o s = Some (a, s).
Proof. by intros ->. Qed.

(** Steps of a computation whose results are known. *)
Ltac step lem := rewrite (bind_eq _ _ _ _ _ lem); cbn beta iota.

Lemma take_drop_bytes (b : bytes) n m : (n + m <= length b)%nat ->
  exists p q r, b = p ++ q ++ r /\ length p = n /\ q = take m (drop n b) /\ length q = m /\ r = drop (n + m) b.
Proof.
  intros. exists (take n b), (take m (drop n b)), (drop m (drop n b)).
  rewrite !take_drop, !length_take, length_drop, drop_drop. split_and!; try done; lia.
Qed.

(** Moving the rest of a buffer to its front. *)
Lemma memmove_spec p r junk sz : len (p ++ r ++ junk) = sz -> sz < 2 ^ 32 ->
  memmove_s (p ++ r ++ junk) sz (len p) (len r) =
  Some (true, r ++ drop (length r) (p ++ r ++ junk)).
Proof.
  intros Hl Hs. rewrite !len_app in Hl. pose proof (len_nonneg r). pose proof (len_nonneg p).
  pose proof (len_nonneg junk). unfold memmove_s. rewrite (wrapU_id 64) by range.
  rewrite (proj2 (Z.ltb_ge _ _)) by lia. rewrite get_app by done. cbn [mbind option_bind].
  by rewrite put_zero by lens.
Qed.

(** Taking a packet off the buffer. *)
Lemma processData_spec dl id sz buf i f junk s l h :
  holds dl id sz buf i f junk -> channels s = Some l -> DC_DATA_HEAD_SIZE <= len buf ->
  wireHead buf = Some h -> is_u 32 (dataLen h) -> u32 (dataLen h + DC_DATA_HEAD_SIZE) <= len buf ->
  exists ret s1 dl', deliver id h (take (Z.to_nat (dataLen h)) (drop 16 buf)) s = Some (ret, s1) /\
    TransTdcProcessData id (set_dataList (Some dl) s) = Some (ret, set_dataList (Some dl') s1) /\
    touched dl dl' id i f /\
    (ret = SOFTBUS_OK -> OVERHEAD_LEN < dataLen h /\
       dataLen h + DC_DATA_HEAD_SIZE = u32 (dataLen h + DC_DATA_HEAD_SIZE) /\
       exists junk', holds dl' id sz (drop (Z.to_nat (u32 (dataLen h + DC_DATA_HEAD_SIZE))) buf) i f junk').
Proof.
  intros Hh Hc Hl16 Hw Hd Hp. pose proof Hh as [Hfind Hbytes Hlen Hsz].
  unfold TransTdcProcessData, deliver.
  assert (TransTdcGetInfoById id s = Some (snd <$> findChannel id l, s)) as Eg.
  { unfold TransTdcGetInfoById, mbind, M_bind, channelsOf. by rewrite Hc. }
  assert (TransTdcGetInfoById id (set_dataList (Some dl) s) =
    Some (snd <$> findChannel id l, set_dataList (Some dl) s)) as Eg'.
  { unfold TransTdcGetInfoById, mbind, M_bind, channelsOf. cbn. by rewrite Hc. }
  step Eg. step Eg'.
  destruct (snd <$> findChannel id l) as [c|]; [|eexists _, _, _; split_and!; done || by eapply touched_refl].
  step (lock_eq dl s). step (find_eq dl id sz buf i f junk s Hh).
  cbn [data buffer bsize w bchannelId bfd].
  assert (lift (headAt (buf ++ junk)) (set_dataList (Some (deeper dl)) s) =
    Some (h, set_dataList (Some (deeper dl)) s)) as Eh.
  { unfold lift. rewrite headAt_wire, wireHead_app by (unfold DC_DATA_HEAD_SIZE in *; lia). by rewrite Hw. }
  step Eh. set (plainSize := u32 (dataLen h - OVERHEAD_LEN)).
  destruct (total_calloc plainSize s) as (ok & s1 & Ec & Hok).
  step Ec. step (local_eq _ _ (Some (deeper dl)) _ _ (local_calloc plainSize) Ec).
  destruct ok; cbn [negb].
  2:{ step (unlock_deeper dl s1). eexists _, _, _. split_and!; done || by eapply touched_refl. }
  specialize (Hok eq_refl).
  assert (OVERHEAD_LEN <= dataLen h /\ u32 (dataLen h + DC_DATA_HEAD_SIZE) = dataLen h + DC_DATA_HEAD_SIZE) as [Ho Hpk].
  { unfold plainSize, MAX_MALLOC_SIZE, OVERHEAD_LEN, GCM_IV_LEN, TAG_LEN, DC_DATA_HEAD_SIZE in *. cint. }
  rewrite Hpk in Hp.
  unfold DC_DATA_HEAD_SIZE in *. unfold OVERHEAD_LEN, GCM_IV_LEN, TAG_LEN in Ho.
  destruct (take_drop_bytes buf 16 (Z.to_nat (dataLen h))) as (p & q & r & Eb & Hpl & Hq & Hql & Hr);
    [unfold len in Hp; lia|].
  rewrite <- Hq.
  assert (len q = dataLen h) as Hlq by (unfold len; lia).
  unfold TransTdcDecrypt.
  assert (drop (Z.to_nat 16) (buf ++ junk) = q ++ (r ++ junk)) as ->.
  { rewrite Eb at 1. rewrite <- app_assoc. rewrite drop_app_ge by (rewrite Hpl; done).
    rewrite Hpl. change (Z.to_nat 16 - 16)%nat with 0%nat. by rewrite drop_0, <- app_assoc. }
  rewrite decrypt_prefix; [|unfold plainSize, MAX_MALLOC_SIZE, OVERHEAD_LEN, GCM_IV_LEN, TAG_LEN in *; cint|lia].
  destruct (decrypt_safe (sessionKey c) q (dataLen h) (replicate (Z.to_nat plainSize) 0))
    as (ret & plain & o & Ed & Hplain).
  1-3: unfold plainSize, MAX_MALLOC_SIZE, OVERHEAD_LEN, GCM_IV_LEN, TAG_LEN in *; rewrite ?len_replicate; cint.
  step (lift_Some _ _ s1 Ed). step (lift_Some _ _ (set_dataList (Some (deeper dl)) s1) Ed).
  destruct (Z.eqb_spec ret SOFTBUS_OK) as [Er|]; cbn [negb].
  2:{ step (unlock_deeper dl s1). eexists _, _, _. split_and!; done || by eapply touched_refl. }
  destruct (Hplain Er) as (Hstrict & -> & Hpl').
  assert (memmove_s (buf ++ junk) sz (16 + dataLen h) (len buf - (16 + dataLen h)) =
    Some (true, r ++ drop (length r) (buf ++ junk))) as Em.
  { assert (len (p ++ q) = 16 + dataLen h) as Epq by (rewrite len_app; unfold len at 1; lia).
    assert (len r = len buf - (16 + dataLen h)) as Er' by (rewrite Eb, app_assoc, len_app; lia).
    assert (buf ++ junk = (p ++ q) ++ r ++ junk) as Ej by (rewrite Eb at 1; by rewrite <- !app_assoc).
    rewrite Ej, <- Er', <- Epq. apply memmove_spec; [|lia]. rewrite <- Ej, len_app. lia. }
  step (lift_Some _ _ (set_dataList (Some (deeper dl)) s1) Em). cbn [negb].
  step (setBuf_eq (deeper dl) i (MkBuf id f sz (r ++ drop (length r) (buf ++ junk)) (len buf - 16 - dataLen h)) s1).
  set (b' := MkBuf _ _ _ _ _).
  assert (replaceBuf (deeper dl) i b' = deeper (replaceBuf dl i b')) as -> by done.
  step (unlock_deeper (replaceBuf dl i b') s1).
  destruct (flag_total (flags h) (hseq h) c plain (dataLen h - OVERHEAD_LEN) Hpl' s1) as (ret' & s2 & Ef & _).
  assert (len r = len buf - 16 - dataLen h) as Hlr.
  { rewrite Eb, app_assoc, len_app, len_app. unfold len at 2. lia. }
  assert (b' = buffer id f sz r (drop (length r) (buf ++ junk))) as Eb'.
  { unfold b', buffer. f_equal. lia. }
  assert (holds (replaceBuf dl i b') id sz r i f (drop (length r) (buf ++ junk))) as Hh'.
  { rewrite Eb'. eapply holds_replace; [done| | |done].
    - apply Forall_app. split; [|by apply Forall_drop]. rewrite Hr. apply Forall_drop.
      by apply Forall_app in Hbytes as [? _].
    - unfold len in *. rewrite length_drop, length_app. lia. }
  exists ret', s2, (replaceBuf dl i b'). split; [done|]. split; [by apply local_eq; [apply local_flag|]|].
  split; [rewrite Eb' in *; by apply touched_replace|]. intros _. split; [done|]. split; [done|].
  exists (drop (length r) (buf ++ junk)).
  assert (drop (Z.to_nat (u32 (dataLen h + 16))) buf = r) as ->; [|done].
  rewrite Hpk, Hr. f_equal. lia.
Qed.

Definition waits (ret : Z) : Prop := ret = SOFTBUS_OK \/ ret = SOFTBUS_DATA_NOT_ENOUGH.

#[local] Instance waits_dec ret : Decision (waits ret).
Proof. unfold waits. apply _. Defined.

(** How the state of the buffers corresponds to the reference. *)
Definition matched (dl' : DataList) (id : Z) (i : nat) (f ret : Z) (o : option (Z * bytes)) : Prop :=
  match o with
  | Some (sz', rest) => waits ret /\ len rest < sz' /\ exists junk', holds dl' id sz' rest i f junk'
  | None => ~ waits ret
  end.

Lemma resize_spec dl id sz buf i f junk s pkgLen ok s1 :
  holds dl id sz buf i f junk -> sz < pkgLen < 2 ^ 32 -> calloc pkgLen s = Some (ok, s1) ->
  TransResizeDataBuffer i (buffer id f sz buf junk) pkgLen (set_dataList (Some (deeper dl)) s) =
  Some (if ok then SOFTBUS_OK else SOFTBUS_MEM_ERR,
        set_dataList (Some (deeper (if ok then
          replaceBuf dl i (buffer id f pkgLen buf (drop (length buf) (replicate (Z.to_nat pkgLen) 0)))
          else dl))) s1).
Proof.
  intros [Hfind Hbytes Hlen Hsz] Hp Ec. unfold TransResizeDataBuffer.
  pose proof (len_nonneg buf). pose proof (len_nonneg junk).
  step (local_eq _ _ (Some (deeper dl)) _ _ (local_calloc pkgLen) Ec).
  destruct ok; cbn [negb]; [|done]. cbn [w data buffer bchannelId bfd].
  rewrite (wrapU_id 32) by range.
  assert (memcpy_s (replicate (Z.to_nat pkgLen) 0) 0 pkgLen (buf ++ junk) (len buf) =
    Some (true, buf ++ drop (length buf) (replicate (Z.to_nat pkgLen) 0))) as Em.
  { unfold memcpy_s. rewrite (proj2 (Z.ltb_ge _ _)) by lia. rewrite get_prefix by done.
    cbn [mbind option_bind]. by rewrite put_zero by lens. }
  step (lift_Some _ _ (set_dataList (Some (deeper dl)) s1) Em). cbn [negb].
  by step (setBuf_eq (deeper dl) i (buffer id f pkgLen buf (drop (length buf) (replicate (Z.to_nat pkgLen) 0))) s1).
Qed.

Lemma resize_holds dl id sz buf i f junk pkgLen :
  holds dl id sz buf i f junk -> sz < pkgLen < 2 ^ 32 ->
  holds (replaceBuf dl i (buffer id f pkgLen buf (drop (length buf) (replicate (Z.to_nat pkgLen) 0))))
    id pkgLen buf i f (drop (length buf) (replicate (Z.to_nat pkgLen) 0)).
Proof.
  intros Hh Hp. pose proof Hh as [Hfind Hbytes Hlen Hsz].
  pose proof (len_nonneg junk). eapply holds_replace; [done| | |lia].
  - apply Forall_app. split; [by apply Forall_app in Hbytes as [? _]|].
    apply Forall_drop, Forall_replicate. range.
  - unfold len in *. rewrite length_drop, length_replicate. lia.
Qed.

Lemma not_waits r : r <> SOFTBUS_OK -> r <> SOFTBUS_DATA_NOT_ENOUGH -> ~ waits r.
Proof. by intros ? ? [?|?]. Qed.

Lemma decode_short k id sz buf s : len buf < DC_DATA_HEAD_SIZE ->
  decodeLoop (S k) id sz buf s = Some (Some (sz, buf), s).
Proof. intros. cbn [decodeLoop]. by rewrite (proj2 (Z.ltb_lt _ _)) by done. Qed.

(** The reference on a buffer with a complete head. *)
Lemma decode_head k id sz buf s h : DC_DATA_HEAD_SIZE <= len buf -> wireHead buf = Some h ->
  let pkgLen := u32 (dataLen h + DC_DATA_HEAD_SIZE) in
  decodeLoop (S k) id sz buf s =
  if negb (magicNumber h =? MAGIC_NUMBER) || (dataBufferMaxLen s <? pkgLen) then Some (None, s)
  else match (if sz <? pkgLen then calloc pkgLen s else Some (true, s)) with
       | None => None
       | Some (false, s1) => Some (None, s1)
       | Some (true, s1) =>
           if len buf <? pkgLen then Some (Some (Z.max sz pkgLen, buf), s1)
           else match deliver id h (take (Z.to_nat (dataLen h)) (drop 16 buf)) s1 with
                | None => None
                | Some (ret, s2) =>
                    if negb (ret =? SOFTBUS_OK) then Some (None, s2)
                    else decodeLoop k id (Z.max sz pkgLen) (drop (Z.to_nat pkgLen) buf) s2
                end
       end.
Proof.
  intros Hl Hw pkgLen. cbn [decodeLoop]. rewrite (proj2 (Z.ltb_ge _ _)) by done.
  step (lift_Some _ _ s Hw). fold pkgLen.
  step (eq_refl : gets dataBufferMaxLen s = Some (dataBufferMaxLen s, s)).
  destruct (negb _ || _); [done|].
  destruct (sz <? pkgLen); unfold mbind, M_bind; [destruct (calloc pkgLen s) as [[[] s1]|]; [|done..]|];
    cbn [negb mret M_ret]; destruct (len buf <? pkgLen); try done;
    destruct (deliver _ _ _ _) as [[ret s2]|]; try done; by destruct (ret =? SOFTBUS_OK).
Qed.

(** A round that leaves the loop ends as the reference ends; one that goes on
    has taken one packet. *)
Lemma procRound_spec dl id sz buf i f junk s l :
  holds dl id sz buf i f junk -> channels s = Some l -> is_u 32 (dataBufferMaxLen s) ->
  exists r dl' s1,
    procRound id (set_dataList (Some dl) s) = Some (r, set_dataList (Some dl') s1) /\
    touched dl dl' id i f /\
    match r with
    | Some ret => exists o, (forall k, decodeLoop (S k) id sz buf s = Some (o, s1)) /\ matched dl' id i f ret o
    | None => exists n junk', (0 < n <= length buf)%nat /\
        (forall k, decodeLoop (S k) id sz buf s = decodeLoop k id sz (drop n buf) s1) /\
        holds dl' id sz (drop n buf) i f junk' /\
        channels s1 = channels s /\ dataBufferMaxLen s1 = dataBufferMaxLen s
    end.
Proof.
  intros Hh Hc Hmax.
  pose proof Hh as [Hfind Hbytes Hlen Hsz]. pose proof (len_nonneg buf). pose proof (len_nonneg junk).
  unfold procRound.
  step (lock_eq dl s). step (find_eq dl id sz buf i f junk s Hh). cbn [w buffer data bsize bchannelId bfd].
  rewrite (wrapU_id 32 (len buf)) by range.
  destruct (Z.ltb_spec (len buf) DC_DATA_HEAD_SIZE) as [Hshort|Hhead].
  { step (unlock_deeper dl s). eexists _, dl, s. split; [done|]. split; [by eapply touched_refl|]. eexists.
    split; [intros k; by apply decode_short|].
    split; [by right|]. split; [lia|]. by exists junk. }
  pose proof (unpack_id (buf ++ junk) Hbytes) as Eu. rewrite len_app in Eu.
  specialize (Eu ltac:(unfold DC_DATA_HEAD_SIZE in *; lia)).
  step (lift_Some _ _ (set_dataList (Some (deeper dl)) s) Eu).
  step (setBuf_eq (deeper dl) i (buffer id f sz buf junk) s).
  assert (replaceBuf (deeper dl) i (buffer id f sz buf junk) = deeper dl) as ->.
  { change (deeper (replaceBuf dl i (buffer id f sz buf junk)) = deeper dl). by rewrite (replace_same _ _ _ _ _ _ _ Hh). }
  destruct (wireHead_Some buf) as (h & Eh & Hm & Hq & Hfl & Hd).
  { by apply Forall_app in Hbytes as [? _]. } { done. }
  assert (headAt (buf ++ junk) = Some h) as Eh' by (rewrite headAt_wire, wireHead_app; done).
  step (lift_Some _ _ (set_dataList (Some (deeper dl)) s) Eh').
  generalize (fun k => decode_head k id sz buf s h Hhead Eh). cbv zeta.
  set (pkgLen := u32 (dataLen h + DC_DATA_HEAD_SIZE)).
  assert (is_u 32 pkgLen) as Hpk by (apply wrapU_range; lia).
  destruct (Z.eqb_spec (magicNumber h) MAGIC_NUMBER) as [Emag|]; cbn [negb orb].
  2:{ step (unlock_deeper dl s). intros Edec. eexists _, dl, s. split; [done|]. split; [by eapply touched_refl|].
      eexists. split; [exact Edec|]. by apply not_waits. }
  step (eq_refl : gets dataBufferMaxLen (set_dataList (Some (deeper dl)) s) =
    Some (dataBufferMaxLen s, set_dataList (Some (deeper dl)) s)).
  destruct (Z.ltb_spec (dataBufferMaxLen s) pkgLen) as [|Hle'].
  { step (unlock_deeper dl s). intros Edec. eexists _, dl, s. split; [done|]. split; [by eapply touched_refl|].
    eexists. split; [exact Edec|]. by apply not_waits. }
  rewrite (proj2 (Z.leb_le _ _)), andb_true_r by done.
  destruct (Z.ltb_spec sz pkgLen) as [Hgrow|Hfits].
  - destruct (total_calloc pkgLen s) as (ok & s1 & Ec & _). rewrite Ec.
    step (resize_spec dl id sz buf i f junk s pkgLen ok s1 Hh ltac:(unfold is_u in Hpk; lia) Ec).
    step (unlock_deeper (if ok then replaceBuf dl i (buffer id f pkgLen buf
      (drop (length buf) (replicate (Z.to_nat pkgLen) 0))) else dl) s1).
    intros Edec. eexists _, _, s1. split; [done|].
    split; [destruct ok; [by apply touched_replace, (resize_holds dl id sz buf i f junk); [|unfold is_u in Hpk; lia] |by eapply touched_refl]|].
    destruct ok.
    + rewrite (proj2 (Z.ltb_lt _ _)) in Edec by lia. eexists. split; [exact Edec|]. split; [by left|].
      rewrite Z.max_r by lia. split; [lia|]. eexists. apply (resize_holds dl id sz buf i f junk); [done|].
      unfold is_u in Hpk. lia.
    + eexists. split; [exact Edec|]. by apply not_waits.
  - step (unlock_deeper dl s). rewrite Z.max_l by lia.
    destruct (Z.ltb_spec (len buf) pkgLen) as [Hshort|Hfull].
    { intros Edec. eexists _, dl, s. split; [done|]. split; [by eapply touched_refl|]. eexists. split; [exact Edec|].
      split; [by right|]. split; [lia|]. by exists junk. }
    destruct (processData_spec dl id sz buf i f junk s l h) as (ret & s1 & dl' & Ed & Ep & Hdep & Hok); try done.
    step Ep. rewrite Ed. destruct (Z.eqb_spec ret SOFTBUS_OK) as [Er|]; cbn [negb]; intros Edec.
    2:{ eexists _, dl', s1. split; [done|]. split; [done|]. eexists. split; [exact Edec|]. by apply not_waits. }
    destruct (Hok Er) as (Ho & Hnw & junk' & Hh').
    eexists _, dl', s1. split; [done|]. split; [done|]. exists (Z.to_nat pkgLen), junk'.
    destruct (local_keeps _ (local_deliver id h _) _ _ _ Ed) as (_ & E2 & E3).
    split_and!; try done; unfold pkgLen, DC_DATA_HEAD_SIZE, OVERHEAD_LEN, GCM_IV_LEN, TAG_LEN, len in *; lia.
Qed.

(** The loop over the packets of a buffer follows the reference. *)
Lemma procLoop_spec id i f l fuel : forall fuel' dl sz buf junk s,
  holds dl id sz buf i f junk -> channels s = Some l -> is_u 32 (dataBufferMaxLen s) ->
  (length buf < fuel)%nat -> (length buf < fuel')%nat ->
  exists ret dl' o s1,
    procLoop fuel id (set_dataList (Some dl) s) = Some (ret, set_dataList (Some dl') s1) /\
    decodeLoop fuel' id sz buf s = Some (o, s1) /\
    touched dl dl' id i f /\ matched dl' id i f ret o.
Proof.
  induction fuel as [|fuel IH]; intros [|fuel'] dl sz buf junk s Hh Hc Hmax Hf Hf'; try lia.
  destruct (procRound_spec dl id sz buf i f junk s l Hh Hc Hmax) as (r & dl1 & s1 & Er & Hdep & Hr).
  cbn [procLoop]. step Er. destruct r as [ret|].
  - destruct Hr as (o & Ed & Hm). by exists ret, dl1, o, s1.
  - destruct Hr as (n & junk' & Hn & Ed & Hh' & Hc' & Hm').
    destruct (IH fuel' dl1 sz (drop n buf) junk' s1) as (ret & dl2 & o & s2 & E1 & E2 & E3 & E4); try done;
      [congruence|congruence|rewrite length_drop; lia..|].
    exists ret, dl2, o, s2. rewrite Ed. split_and!; try done. by eapply touched_trans.
Qed.

(** ** The reference on a stream that arrives in parts *)

(** A packet whose length wraps around is never decrypted: the allocation of
    its payload exceeds the limit. *)
Lemma calloc_huge n s : MAX_MALLOC_SIZE < n -> calloc n s = Some (false, s).
Proof. intros. unfold calloc. by rewrite (proj2 (Z.ltb_lt _ _)) by done. Qed.

Lemma deliver_wrap id h p p' s : is_u 32 (dataLen h) -> 2 ^ 32 <= dataLen h + DC_DATA_HEAD_SIZE ->
  deliver id h p s = deliver id h p' s /\ forall s1, deliver id h p s <> Some (SOFTBUS_OK, s1).
Proof.
  intros Hd Hw. unfold deliver, mbind, M_bind, TransTdcGetInfoById, mbind, M_bind.
  destruct (channelsOf s) as [[l s0]|]; [|done]. cbn [mret M_ret].
  destruct (snd <$> findChannel id l) as [c|]; [|done].
  rewrite calloc_huge; [done|].
  unfold MAX_MALLOC_SIZE, OVERHEAD_LEN, GCM_IV_LEN, TAG_LEN, DC_DATA_HEAD_SIZE in *. cint.
Qed.

(** A delivered packet has a payload. *)
Lemma deliver_ok id h p s s1 : is_u 32 (dataLen h) -> deliver id h p s = Some (SOFTBUS_OK, s1) ->
  dataLen h + DC_DATA_HEAD_SIZE < 2 ^ 32.
Proof.
  intros Hd E. destruct (decide (dataLen h + DC_DATA_HEAD_SIZE < 2 ^ 32)) as [|Hn]; [done|].
  destruct (deliver_wrap id h p p s Hd ltac:(lia)) as [_ Hne]. by destruct (Hne s1).
Qed.

(** More bytes behind a packet do not change how it is delivered. *)
Lemma deliver_app id h buf chunk s : is_u 32 (dataLen h) -> DC_DATA_HEAD_SIZE <= len buf ->
  u32 (dataLen h + DC_DATA_HEAD_SIZE) <= len buf ->
  deliver id h (take (Z.to_nat (dataLen h)) (drop 16 (buf ++ chunk))) s =
  deliver id h (take (Z.to_nat (dataLen h)) (drop 16 buf)) s.
Proof.
  intros Hd Hl Hp. destruct (decide (dataLen h + DC_DATA_HEAD_SIZE < 2 ^ 32)) as [Hs|Hs].
  - unfold DC_DATA_HEAD_SIZE, len in *. rewrite (wrapU_id 32) in Hp by (unfold is_u in *; lia).
    rewrite drop_app_le by lia. unfold is_u in Hd.
    by rewrite take_app_le by (rewrite length_drop; lia).
  - apply deliver_wrap; [done|lia].
Qed.

(** More rounds than bytes are as good as any. *)
Lemma decode_fuel id k : forall k' sz buf s, is_bytes buf -> (length buf < k)%nat -> (length buf < k')%nat ->
  decodeLoop k id sz buf s = decodeLoop k' id sz buf s.
Proof.
  induction k as [|k IH]; intros [|k'] sz buf s Hb Hk Hk'; try lia.
  destruct (Z.ltb_spec (len buf) DC_DATA_HEAD_SIZE) as [Hshort|Hhead]; [by rewrite !decode_short|].
  destruct (wireHead_Some buf Hb) as (h & Eh & _ & _ & _ & Hd); [done|].
  rewrite !(decode_head _ _ _ _ _ h) by done. cbv zeta.
  destruct (negb _ || _); [done|].
  set (grown := if sz <? u32 (dataLen h + DC_DATA_HEAD_SIZE) then _ else _).
  destruct grown as [[[] s2]|]; [|done..].
  destruct (Z.ltb_spec (len buf) (u32 (dataLen h + DC_DATA_HEAD_SIZE))); [done|].
  destruct (deliver id h _ s2) as [[ret s3]|] eqn:Edl; [|done].
  destruct (Z.eqb_spec ret SOFTBUS_OK) as [->|]; cbn [negb]; [|done].
  apply (deliver_ok _ _ _ _ _ Hd) in Edl.
  apply IH; [by apply Forall_drop|..]; rewrite length_drop;
    unfold DC_DATA_HEAD_SIZE, len in *; unfold is_u in Hd; rewrite (wrapU_id 32) in * by (unfold is_u; lia); lia.
Qed.

(** One step of the reference on a longer buffer: [k] rounds are enough for
    the shorter one. *)
Lemma decode_app id chunk k : forall k' sz buf s o s1,
  is_bytes buf -> (length buf < k)%nat -> (length (buf ++ chunk) < k')%nat ->
  decodeLoop k id sz buf s = Some (o, s1) ->
  match o with
  | None => decodeLoop k' id sz (buf ++ chunk) s = Some (None, s1)
  | Some (sz', rest) =>
      is_bytes rest /\ dataBufferMaxLen s1 = dataBufferMaxLen s /\ channels s1 = channels s /\
      exists k'', (length (rest ++ chunk) < k'')%nat /\
      decodeLoop k' id sz (buf ++ chunk) s = decodeLoop k'' id sz' (rest ++ chunk) s1
  end.
Proof.
  induction k as [|k IH]; intros [|k'] sz buf s o s1 Hb Hk Hk' E; try lia.
  destruct (Z.ltb_spec (len buf) DC_DATA_HEAD_SIZE) as [Hshort|Hhead].
  { rewrite decode_short in E by done. injection E as <- <-. split_and!; try done. by exists (S k'). }
  destruct (wireHead_Some buf Hb) as (h & Eh & _ & _ & _ & Hd); [done|].
  rewrite (decode_head _ _ _ _ _ h) in E by done. cbv zeta in E.
  assert (wireHead (buf ++ chunk) = Some h) as Eh' by (by rewrite wireHead_app).
  assert (DC_DATA_HEAD_SIZE <= len (buf ++ chunk)) as Hhead' by (rewrite len_app; pose proof (len_nonneg chunk); lia).
  set (pkgLen := u32 (dataLen h + DC_DATA_HEAD_SIZE)) in *.
  pose proof (fun n sz0 s0 => decode_head n id sz0 (buf ++ chunk) s0 h Hhead' Eh') as Edec.
  cbv zeta in Edec. fold pkgLen in Edec. rewrite Edec.
  destruct (negb _ || _) eqn:Echk; [by injection E as <- <-|].
  set (grown := if sz <? pkgLen then calloc pkgLen s else Some (true, s)) in *.
  destruct grown as [[[] s2]|] eqn:Eg; [|by injection E as <- <-|done].
  assert (dataBufferMaxLen s2 = dataBufferMaxLen s /\ channels s2 = channels s) as [Hmx Hch].
  { unfold grown in Eg. destruct (sz <? pkgLen); [|by injection Eg as <-].
    apply (local_keeps _ (local_calloc _)) in Eg. tauto. }
  destruct (Z.ltb_spec (len buf) pkgLen) as [Hwait|Hfull].
  { injection E as <- <-. split_and!; try done. exists (S k'). split; [done|].
    rewrite (Edec _ _ s2), Hmx, Echk. rewrite (proj2 (Z.ltb_ge (Z.max sz pkgLen) _)) by lia.
    by rewrite <- Z.max_assoc, Z.max_id. }
  rewrite len_app, (proj2 (Z.ltb_ge _ _)) by (pose proof (len_nonneg chunk); lia).
  rewrite deliver_app by done.
  destruct (deliver id h _ s2) as [[ret s3]|] eqn:Edl; [|done].
  destruct (Z.eqb_spec ret SOFTBUS_OK) as [->|]; cbn [negb] in *; [|by injection E as <- <-].
  pose proof (deliver_ok _ _ _ _ _ Hd Edl) as Hnw.
  assert (0 < pkgLen) as Hpos.
  { unfold pkgLen, DC_DATA_HEAD_SIZE in *. rewrite (wrapU_id 32) by (unfold is_u in *; lia). unfold is_u in Hd. lia. }
  assert (Z.to_nat pkgLen <= length buf)%nat by (unfold len in Hfull; lia).
  rewrite drop_app_le by lia.
  destruct (local_keeps _ (local_deliver id h _) _ _ _ Edl) as (_ & E2 & E3).
  specialize (IH k' (Z.max sz pkgLen) (drop (Z.to_nat pkgLen) buf) s3 o s1).
  rewrite length_app, length_drop in IH. rewrite length_app in Hk'.
  specialize (IH ltac:(by apply Forall_drop) ltac:(lia) ltac:(lia) E).
  destruct o as [[sz' rest]|]; [|done]. destruct IH as (? & ? & ? & ?). split_and!; congruence || done.
Qed.

(** ** Reading in pieces *)

Lemma recv_spec id i f l dl sz buf junk s chunk :
  holds dl id sz buf i f junk -> channels s = Some l -> is_u 32 (dataBufferMaxLen s) ->
  is_bytes chunk -> 0 < len chunk <= sz - len buf ->
  exists ret dl' o s1,
    TransTdcRecvData (inr chunk) id (set_dataList (Some dl) s) = Some (ret, set_dataList (Some dl') s1) /\
    decodeStream id sz (buf ++ chunk) s = Some (o, s1) /\
    touched dl dl' id i f /\ matched dl' id i f ret o.
Proof.
  intros Hh Hc Hmax Hcb Hcl. pose proof Hh as [Hfind Hbytes Hlen Hsz].
  pose proof (len_nonneg buf). unfold TransTdcRecvData.
  step (lock_eq dl s). step (find_eq dl id sz buf i f junk s Hh).
  assert (recvInto (inr chunk) (buffer id f sz buf junk) =
    Some (len chunk, (buf ++ chunk) ++ drop (length chunk) junk)) as Er.
  { unfold recvInto, buffer. cbn [bsize w data].
    rewrite (proj2 (Z.ltb_lt _ _)), (proj2 (Z.leb_le _ _)) by lia. cbn [andb].
    rewrite <- (take_drop (length chunk) junk) at 1.
    rewrite (put_at buf (take (length chunk) junk) chunk) by (done || unfold len in *; rewrite ?length_take; lia).
    cbn [mbind option_bind]. by rewrite <- app_assoc. }
  step (lift_Some _ _ (set_dataList (Some (deeper dl)) s) Er).
  rewrite (proj2 (Z.leb_gt _ _)) by lia. cbn [w buffer bchannelId bfd bsize].
  step (setBuf_eq (deeper dl) i (MkBuf id f sz ((buf ++ chunk) ++ drop (length chunk) junk) (len buf + len chunk)) s).
  set (b' := MkBuf _ _ _ _ _).
  assert (b' = buffer id f sz (buf ++ chunk) (drop (length chunk) junk)) as ->.
  { unfold b', buffer. by rewrite len_app. }
  assert (replaceBuf (deeper dl) i (buffer id f sz (buf ++ chunk) (drop (length chunk) junk)) =
    deeper (replaceBuf dl i (buffer id f sz (buf ++ chunk) (drop (length chunk) junk)))) as -> by done.
  step (unlock_deeper (replaceBuf dl i (buffer id f sz (buf ++ chunk) (drop (length chunk) junk))) s).
  assert (holds (replaceBuf dl i (buffer id f sz (buf ++ chunk) (drop (length chunk) junk))) id sz
    (buf ++ chunk) i f (drop (length chunk) junk)) as Hh'.
  { eapply holds_replace; [done| | |done].
    - apply Forall_app in Hbytes as [? ?]. repeat (apply Forall_app; split); try done. by apply Forall_drop.
    - rewrite len_app. unfold len in *. rewrite length_drop. lia. }
  unfold TransTdcProcAllData. cbn [tcpDataList set_dataList].
  rewrite (holds_find _ _ _ _ _ _ _ Hh'). cbn [w buffer].
  destruct (procLoop_spec id i f l (S (Z.to_nat (len (buf ++ chunk)))) (S (length (buf ++ chunk)))
    _ sz (buf ++ chunk) _ s Hh' Hc Hmax) as (ret & dl' & o & s1 & E1 & E2 & E3 & E4);
    [unfold len; lia..|].
  exists ret, dl', o, s1. split_and!; try done. eapply touched_trans; [|done]. by apply touched_replace.
Qed.

(** The space a read is offered. *)
Definition spaceOf (id : Z) : M World Z :=
  l ← dataListOf;
  mret (match findBuf id (bufs l) with Some (_, b) => bsize b - w b | None => 0 end).

(** The socket hands over a stream: the k-th read returns one byte and up to
    [k]-th of [reads] more, as far as the space and the stream go.  Reading
    stops at an error, as [ClientTdcOnDataEvent] closes the channel then.
    Returns whether the channel is alive, and what was not read. *)
Fixpoint pump (reads : list nat) (id : Z) (stream : bytes) : M World (bool * bytes) :=
  match reads, stream with
  | _, [] => mret (true, [])
  | [], _ => mret (true, stream)
  | r :: reads', _ =>
      space ← spaceOf id;
      let n := S (Nat.min r (Nat.min (Z.to_nat space - 1) (length stream - 1))) in
      ret ← TransTdcRecvData (inr (take n stream)) id;
      if (ret =? SOFTBUS_OK) || (ret =? SOFTBUS_DATA_NOT_ENOUGH)
      then pump reads' id (drop n stream)
      else mret (false, drop n stream)
  end.

(** What the reference leaves is the beginning of a packet: nothing more can
    be taken from it. *)
Definition settled (id sz : Z) (buf : bytes) (s : World) : Prop :=
  forall k, decodeLoop (S k) id sz buf s = Some (Some (sz, buf), s).

Lemma decode_settled id k : forall sz buf s sz' rest s1,
  is_bytes buf -> decodeLoop k id sz buf s = Some (Some (sz', rest), s1) -> settled id sz' rest s1.
Proof.
  induction k as [|k IH]; intros sz buf s sz' rest s1 Hb E; [done|].
  destruct (Z.ltb_spec (len buf) DC_DATA_HEAD_SIZE) as [Hshort|Hhead].
  { rewrite decode_short in E by done. injection E as <- <- <-. intros k'. by apply decode_short. }
  destruct (wireHead_Some buf Hb) as (h & Eh & _ & _ & _ & Hd); [done|].
  rewrite (decode_head _ _ _ _ _ h) in E by done. cbv zeta in E.
  set (pkgLen := u32 (dataLen h + DC_DATA_HEAD_SIZE)) in *.
  destruct (negb _ || _) eqn:Echk; [done|].
  set (grown := if sz <? pkgLen then calloc pkgLen s else Some (true, s)) in *.
  destruct grown as [[[] s2]|] eqn:Eg; [|done..].
  destruct (Z.ltb_spec (len buf) pkgLen) as [Hwait|Hfull].
  - injection E as <- <- <-. intros k'. rewrite (decode_head _ _ _ _ _ h) by done. cbv zeta. fold pkgLen.
    assert (dataBufferMaxLen s2 = dataBufferMaxLen s) as ->.
    { unfold grown in Eg. destruct (sz <? pkgLen); [|by injection Eg as <-].
      apply (local_keeps _ (local_calloc _)) in Eg. tauto. }
    rewrite Echk, (proj2 (Z.ltb_ge (Z.max sz pkgLen) _)), (proj2 (Z.ltb_lt _ _)) by lia.
    by rewrite <- Z.max_assoc, Z.max_id.
  - destruct (deliver id h _ s2) as [[ret s3]|]; [|done].
    destruct (ret =? SOFTBUS_OK); [|done]. cbn [negb] in E.
    eapply IH; [|done]. by apply Forall_drop.
Qed.

Lemma waits_bool ret : (ret =? SOFTBUS_OK) || (ret =? SOFTBUS_DATA_NOT_ENOUGH) = bool_decide (waits ret).
Proof.
  unfold waits. destruct (Z.eqb_spec ret SOFTBUS_OK); [by rewrite bool_decide_true by (by left)|].
  destruct (Z.eqb_spec ret SOFTBUS_DATA_NOT_ENOUGH); cbn [orb].
  - by rewrite bool_decide_true by (by right).
  - by rewrite bool_decide_false by (by intros [?|?]).
Qed.

(** A run of [pump] ends as the reference does on all the bytes. *)
Definition pumped (dl : DataList) (id sz : Z) (i : nat) (f : Z) (all : bytes) (s : World)
    (r : option ((bool * bytes) * World)) : Prop :=
  exists alive left dl' o s1 k,
    r = Some ((alive, left), set_dataList (Some dl') s1) /\
    (length all < k)%nat /\ decodeLoop k id sz all s = Some (o, s1) /\
    touched dl dl' id i f /\
    match o with
    | Some (sz', rest) => alive = true /\ left = [] /\ exists junk', holds dl' id sz' rest i f junk'
    | None => alive = false
    end.

Lemma pumped_nil dl id sz i f buf junk s : holds dl id sz buf i f junk -> settled id sz buf s ->
  pumped dl id sz i f (buf ++ []) s (Some ((true, []), set_dataList (Some dl) s)).
Proof.
  intros Hh Hst. exists true, [], dl, (Some (sz, buf)), s, (S (length buf)).
  rewrite app_nil_r. split_and!; try done; [lia|by eapply touched_refl|by exists junk].
Qed.

Lemma pump_spec id i f l reads : forall stream dl sz buf junk s,
  holds dl id sz buf i f junk -> len buf < sz -> channels s = Some l -> is_u 32 (dataBufferMaxLen s) ->
  settled id sz buf s -> is_bytes stream -> (length stream <= length reads)%nat ->
  pumped dl id sz i f (buf ++ stream) s (pump reads id stream (set_dataList (Some dl) s)).
Proof.
  induction reads as [|r reads IH]; intros stream dl sz buf junk s Hh Hlt Hc Hmax Hst Hb Hl.
  { destruct stream; [|simpl in Hl; lia]. by eapply pumped_nil. }
  destruct stream as [|b0 stream0]; [by eapply pumped_nil|]. cbn [pump]. set (stream := b0 :: stream0) in *.
  pose proof Hh as [Hfind Hbytes Hlen Hsz].
  assert (spaceOf id (set_dataList (Some dl) s) = Some (sz - len buf, set_dataList (Some dl) s)) as Esp.
  { unfold spaceOf, mbind, M_bind, dataListOf. cbn. by rewrite Hfind. }
  step Esp. set (n := S _).
  assert (1 <= n <= length stream)%nat as Hn1 by (unfold n, stream; simpl length; lia).
  assert (Z.of_nat n <= sz - len buf) as Hn2 by (unfold n; lia).
  assert (len (take n stream) = Z.of_nat n) as Hn3 by (unfold len; rewrite length_take; lia).
  destruct (recv_spec id i f l dl sz buf junk s (take n stream) Hh Hc Hmax) as (ret & dl1 & o & s1 & E1 & E2 & E3 & E4).
  { by apply Forall_take. } { rewrite Hn3. lia. }
  step E1. rewrite waits_bool.
  assert (is_bytes (buf ++ take n stream)) as Hb1.
  { apply Forall_app. split; [by apply Forall_app in Hbytes as [? _]|by apply Forall_take]. }
  assert (buf ++ stream = (buf ++ take n stream) ++ drop n stream) as Eall.
  { by rewrite <- app_assoc, take_drop. }
  pose proof (decode_app id (drop n stream) _ (S (length (buf ++ stream))) sz _ s o s1 Hb1 (Nat.lt_succ_diag_r _)) as Happ.
  rewrite <- Eall in Happ. specialize (Happ (Nat.lt_succ_diag_r _) E2).
  destruct o as [[sz' rest]|].
  - destruct E4 as (Hw & Hlt' & junk' & Hh'). rewrite bool_decide_true by done.
    destruct Happ as (Hrb & Hm1 & Hc1 & k'' & Hk'' & Ed).
    destruct (IH (drop n stream) dl1 sz' rest junk' s1) as (alive & left & dl2 & o2 & s2 & k2 & F1 & F2 & F3 & F4 & F5);
      try done; [by rewrite Hc1|by rewrite Hm1|eapply decode_settled; [exact Hb1|exact E2]|by apply Forall_drop| |].
    { rewrite length_drop. simpl in Hl. unfold stream. simpl length. lia. }
    exists alive, left, dl2, o2, s2, (S (length (buf ++ stream))). split_and!; try done.
    + lia.
    + rewrite Ed, <- F3. apply decode_fuel; [|done..]. apply Forall_app. split; [done|by apply Forall_drop].
    + by eapply touched_trans.
  - rewrite bool_decide_false by done.
    exists false, (drop n stream), dl1, None, s1, (S (length (buf ++ stream))). split_and!; try done. lia.
Qed.

(** ** The tables of an initialised library *)

Definition tables (s : World) : option DataList * option (list TcpDirectChannelInfo) * Z :=
  (tcpDataList s, channels s, dataBufferMaxLen s).

(** A buffer with room for at least one byte. *)
Definition wf_buf (b : ClientDataBuf) : Prop :=
  exists buf junk, b = buffer (bchannelId b) (bfd b) (bsize b) buf junk /\ is_bytes (buf ++ junk) /\
    len buf + len junk = bsize b /\ len buf < bsize b /\ DC_DATA_HEAD_SIZE <= bsize b < 2 ^ 32.

(** Every channel has one buffer, in the same place of its list; no lock is
    held; the counter counts. *)
Record wf_tables (dl : DataList) (l : list TcpDirectChannelInfo) (max : Z) : Prop := {
  wft_ids : bchannelId <$> bufs dl = channelId <$> l;
  wft_nodup : NoDup (channelId <$> l);
  wft_cnt : bcnt dl = Z.of_nat (length (bufs dl));
  wft_depth : depth dl = 0;
  wft_bufs : Forall wf_buf (bufs dl);
  wft_seq : Forall (fun c => is_s 32 (sequence c)) l;
  wft_max : is_u 32 max;
}.

Definition wf_world (s : World) : Prop :=
  exists dl l, tcpDataList s = Some dl /\ channels s = Some l /\ wf_tables dl l (dataBufferMaxLen s).

Lemma local_step {A} (m : M World A) P s : local m -> total m P ->
  exists a s', m s = Some (a, s') /\ P a /\ tables s' = tables s.
Proof.
  intros Hl Ht. destruct (Ht s) as (a & s' & E & HP). exists a, s'. split_and!; try done.
  destruct (local_keeps _ Hl _ _ _ E) as (E1 & E2 & E3). unfold tables. congruence.
Qed.

Lemma wf_world_tables s s' : tables s' = tables s -> wf_world s -> wf_world s'.
Proof.
  unfold tables. intros [= E1 E2 E3] (dl & l & H1 & H2 & H3). exists dl, l.
  rewrite E1, E2, E3. done.
Qed.

(** The buffer of a channel is found where the channel is. *)
Lemma find_ids (l : list TcpDirectChannelInfo) bs id : bchannelId <$> bs = channelId <$> l ->
  match findChannel id l with
  | Some (i, c) => exists b, findBuf id bs = Some (i, b)
  | None => findBuf id bs = None
  end.
Proof.
  unfold findBuf, findChannel. revert l. induction bs as [|b bs IH]; intros [|c l] E; try done.
  injection E as Eb El. cbn [list_find]. rewrite Eb. case_decide; [by eexists|].
  specialize (IH l El). destruct (list_find _ l) as [[i c']|]; cbn.
  - destruct IH as [b' ->]. by eexists.
  - by rewrite IH.
Qed.

Lemma find_buf_spec id bs i b : Forall wf_buf bs -> findBuf id bs = Some (i, b) ->
  exists f sz buf junk, bs !! i = Some b /\ b = buffer id f sz buf junk /\ len buf < sz /\
    forall n k, holds (MkDataList bs n k) id sz buf i f junk.
Proof.
  intros Hw Hf. pose proof Hf as (Hl & Hid & _)%list_find_Some.
  rewrite Forall_forall in Hw.
  destruct (Hw b) as (buf & junk & Eb & H1 & H2 & H3 & H4); [by eapply list_elem_of_lookup_2|].
  subst id. exists (bfd b), (bsize b), buf, junk. split_and!; try done.
  intros n k. split; try done. cbn [bufs]. by rewrite <- Eb.
Qed.

Lemma holds_wf dl id sz buf i f junk : holds dl id sz buf i f junk -> len buf < sz -> wf_buf (buffer id f sz buf junk).
Proof. intros [_ H1 H2 H3] Hlt. exists buf, junk. cbn. split_and!; done || lia. Qed.

(** *** Operations of the library *)

Inductive Op :=
| OpOpen (id f type : Z) (key : bytes)
| OpClose (id : Z)
| OpEvent (recv : Z + bytes) (events f : Z)
| OpSendBytes (id : Z) (d : bytes) (n : Z)
| OpSendMessage (t : nat) (mem : bool) (id : Z) (d : bytes) (n : Z).

(** [ClientTransCloseChannel] of [client_trans_channel_manager.c], for a
    direct channel. *)
Definition closeDirect (id : Z) : M World unit :=
  _ ← TransDelDataBufNode id; TransTdcCloseChannel id.

Definition runOp (o : Op) : M World unit :=
  match o with
  | OpOpen id f type key => _ ← ClientTransTdcOnChannelOpened id f type key; mret tt
  | OpClose id => closeDirect id
  | OpEvent recv events f => _ ← ClientTdcOnDataEvent recv events f; mret tt
  | OpSendBytes id d n => _ ← TransTdcSendBytes id d n; mret tt
  | OpSendMessage t mem id d n => _ ← TransTdcSendMessage t mem id d n; mret tt
  end.

(** What the callers guarantee: keys of full length, lengths within the data,
    and a socket that returns bytes that fit. *)
Definition legal (s : World) (o : Op) : Prop :=
  match o with
  | OpOpen _ _ _ key => SESSION_KEY_LENGTH <= len key
  | OpClose _ => True
  | OpEvent (inl r) _ _ => r <= 0
  | OpEvent (inr bs) _ f => is_bytes bs /\ 0 < len bs /\
      forall l c n, channels s = Some l -> list_find (fun c => fd c = f) l = Some (n, c) ->
      forall dl i b, tcpDataList s = Some dl -> findBuf (channelId c) (bufs dl) = Some (i, b) ->
      len bs <= bsize b - w b
  | OpSendBytes _ d n | OpSendMessage _ _ _ d n => 0 <= n /\ n <= len d /\ n + DATA_EXTEND_LEN < 2 ^ 31
  end.

(** An operation that answers and leaves the tables well-formed. *)
Definition safe {A} (m : M World A) (s : World) : Prop := exists a s', m s = Some (a, s') /\ wf_world s'.

Lemma safe_bind {A B} (m : M World A) (k : A -> M World B) s a s' :
  m s = Some (a, s') -> safe (k a) s' -> safe (m ≫= k) s.
Proof. intros E H. unfold safe. by rewrite (bind_eq _ _ _ _ _ E). Qed.

Lemma safe_ret {A} (a : A) s : wf_world s -> safe (mret a) s.
Proof. intros. by exists a, s. Qed.

(** Removing a channel and its buffer. *)
Lemma wf_delete dl l max i b : wf_tables dl l max -> bufs dl !! i = Some b ->
  wf_tables (MkDataList (delete i (bufs dl)) (bcnt dl - 1) (depth dl)) (delete i l) max.
Proof.
  intros [H1 H2 H3 H4 H5 H6 H7] Hi. split; cbn [bufs bcnt depth]; try done.
  - by rewrite !list_fmap_delete, H1.
  - rewrite list_fmap_delete. by eapply sublist_NoDup, sublist_delete.
  - rewrite length_delete by done. apply lookup_lt_Some in Hi. lia.
  - by apply Forall_delete.
  - by apply Forall_delete.
Qed.

(** Replacing a buffer by one of the same channel. *)
Lemma wf_replaceBuf dl l max i b b' : wf_tables dl l max -> bufs dl !! i = Some b ->
  bchannelId b' = bchannelId b -> wf_buf b' -> wf_tables (replaceBuf dl i b') l max.
Proof.
  intros [H1 H2 H3 H4 H5 H6 H7] Hi Hid Hb. split; cbn [bufs bcnt depth replaceBuf]; try done.
  - rewrite list_fmap_insert, Hid, H1. apply list_insert_id. by rewrite <- H1, list_lookup_fmap, Hi.
  - by rewrite length_insert.
  - by apply Forall_insert.
Qed.

Lemma world_eta s dl : tcpDataList s = Some dl -> set_dataList (Some dl) s = s.
Proof. destruct s. cbn. by intros ->. Qed.

Definition removeBuf (id : Z) (dl : DataList) : DataList :=
  match findBuf id (bufs dl) with
  | Some (i, _) => MkDataList (delete i (bufs dl)) (bcnt dl - 1) (depth dl)
  | None => dl
  end.

Lemma del_spec id dl s :
  TransDelDataBufNode id (set_dataList (Some dl) s) = Some (SOFTBUS_OK, set_dataList (Some (removeBuf id dl)) s).
Proof.
  unfold TransDelDataBufNode, removeBuf.
  step (eq_refl : gets tcpDataList (set_dataList (Some dl) s) = Some (Some dl, set_dataList (Some dl) s)).
  step (lock_eq dl s).
  step (eq_refl : dataListOf (set_dataList (Some (deeper dl)) s) = Some (deeper dl, set_dataList (Some (deeper dl)) s)).
  cbn [bufs deeper]. destruct (findBuf id (bufs dl)) as [[i b]|].
  - step (eq_refl : setBufs (delete i (bufs dl)) (bcnt dl - 1) (set_dataList (Some (deeper dl)) s) =
      Some (tt, set_dataList (Some (deeper (MkDataList (delete i (bufs dl)) (bcnt dl - 1) (depth dl)))) s)).
    by step (unlock_deeper (MkDataList (delete i (bufs dl)) (bcnt dl - 1) (depth dl)) s).
  - step (eq_refl : (mret tt : M World unit) (set_dataList (Some (deeper dl)) s) = Some (tt, set_dataList (Some (deeper dl)) s)).
    by step (unlock_deeper dl s).
Qed.

Lemma local_release f : local (TransTdcReleaseFd f).
Proof. unfold TransTdcReleaseFd. local. Qed.

Lemma total_release f : total (TransTdcReleaseFd f) (fun _ => True).
Proof.
  unfold TransTdcReleaseFd. destruct (f <? 0); [by apply total_ret|].
  eapply total_bind; [apply total_call|]. intros _ _. eapply total_bind; [apply total_call|].
  intros _ _. by apply total_ret.
Qed.

Lemma close_spec id l s : channels s = Some l ->
  exists s', TransTdcCloseChannel id s = Some (tt, s') /\
    tables s' = (tcpDataList s, Some (match findChannel id l with Some (i, _) => delete i l | None => l end),
      dataBufferMaxLen s).
Proof.
  intros Hc. unfold TransTdcCloseChannel.
  destruct (local_step (call (CServerIpcClose id)) _ s (local_call _) (total_call _)) as (r & s1 & E1 & _ & T1).
  step E1. unfold tables in T1. injection T1 as T1 T2 T3.
  assert (channelsOf s1 = Some (l, s1)) as Ec by (unfold channelsOf; by rewrite T2, Hc).
  step Ec. destruct (findChannel id l) as [[i c]|].
  - destruct (local_step (TransTdcReleaseFd (fd c)) _ s1 (local_release _) (total_release _)) as (u & s2 & E2 & _ & T4).
    step E2. unfold tables in T4. injection T4 as T4 T5 T6.
    step (eq_refl : modify (set_channels (Some (delete i l))) s2 = Some (tt, set_channels (Some (delete i l)) s2)).
    step (eq_refl : gets pendings (set_channels (Some (delete i l)) s2) =
      Some (pendings s2, set_channels (Some (delete i l)) s2)).
    eexists. split; [done|]. unfold tables. cbn. congruence.
  - eexists. split; [done|]. unfold tables. congruence.
Qed.

Lemma close_safe id s : wf_world s -> safe (closeDirect id) s.
Proof.
  intros (dl & l & Hd & Hc & Hw). unfold closeDirect.
  pose proof (del_spec id dl s) as Ed. rewrite (world_eta s dl Hd) in Ed.
  eapply safe_bind; [exact Ed|].
  destruct (close_spec id l (set_dataList (Some (removeBuf id dl)) s) Hc) as (s' & E & T).
  exists tt, s'. split; [done|]. unfold tables in T. injection T as T1 T2 T3.
  eexists _, _. split; [exact T1|]. split; [exact T2|]. rewrite T3. cbn [dataBufferMaxLen set_dataList].
  pose proof (find_ids l (bufs dl) id (wft_ids _ _ _ Hw)) as Hf. unfold removeBuf.
  destruct (findChannel id l) as [[i c]|]; [|by rewrite Hf].
  destruct Hf as [b Hb]. rewrite Hb. apply (wf_delete dl l _ i b); [done|].
  by apply list_find_Some in Hb as (? & _ & _).
Qed.

Lemma sendInc_spec id l s : channels s = Some l -> Forall (fun c => is_s 32 (sequence c)) l ->
  exists o s' l', TransTdcGetInfoByIdWithIncSeq id s = Some (o, s') /\
    tables s' = (tcpDataList s, Some l', dataBufferMaxLen s) /\
    channelId <$> l' = channelId <$> l /\ Forall (fun c => is_s 32 (sequence c)) l'.
Proof.
  intros Hc Hl. unfold TransTdcGetInfoByIdWithIncSeq.
  assert (channelsOf s = Some (l, s)) as Ec by (unfold channelsOf; by rewrite Hc).
  step Ec. destruct (findChannel id l) as [[i c]|] eqn:Ef.
  - eexists _, _, _. split; [done|]. split; [done|]. apply list_find_Some in Ef as (Hi & _ & _). split.
    + rewrite list_fmap_insert. cbn. apply list_insert_id. by rewrite list_lookup_fmap, Hi.
    + apply Forall_insert; [done|]. cbn. apply wrapS_range. lia.
  - exists None, s, l. unfold tables. by rewrite Hc.
Qed.

Lemma wf_channels dl l l' max : wf_tables dl l max -> channelId <$> l' = channelId <$> l ->
  Forall (fun c => is_s 32 (sequence c)) l' -> wf_tables dl l' max.
Proof. intros [H1 H2 H3 H4 H5 H6 H7] E Hl. split; try done; by rewrite E. Qed.

Lemma wf_after s s' dl l l' : wf_tables dl l (dataBufferMaxLen s) -> tcpDataList s = Some dl ->
  tables s' = (tcpDataList s, Some l', dataBufferMaxLen s) -> channelId <$> l' = channelId <$> l ->
  Forall (fun c => is_s 32 (sequence c)) l' -> wf_world s'.
Proof.
  intros Hw Hd [= T1 T2 T3] E Hl. exists dl, l'. rewrite T1, T2, T3. split_and!; try done.
  by eapply wf_channels.
Qed.

Lemma sendBytes_safe id d n s : wf_world s -> 0 <= n -> n <= len d -> n + DATA_EXTEND_LEN < 2 ^ 31 ->
  safe (TransTdcSendBytes id d n) s.
Proof.
  intros (dl & l & Hd & Hc & Hw) H0 H1 H2. unfold TransTdcSendBytes.
  destruct (sendInc_spec id l s Hc (wft_seq _ _ _ Hw)) as (o & s1 & l' & E1 & T1 & Hi & Hl).
  eapply safe_bind; [exact E1|]. pose proof (wf_after s s1 dl l l' Hw Hd T1 Hi Hl) as Hw1.
  destruct o as [c|]; [|by apply safe_ret].
  destruct (local_step (TransTdcProcessPostData c d n FLAG_BYTES) _ s1 (local_post _ _ _ _)
    (postData_total c d n FLAG_BYTES H0 H2 H1 ltac:(unfold FLAG_BYTES; range) ltac:(done))) as (r & s2 & E2 & _ & T2).
  eapply safe_bind; [exact E2|].
  destruct (negb _); apply safe_ret; by eapply wf_world_tables.
Qed.

Lemma sendMessage_safe t mem id d n s : wf_world s -> 0 <= n -> n <= len d -> n + DATA_EXTEND_LEN < 2 ^ 31 ->
  safe (TransTdcSendMessage t mem id d n) s.
Proof.
  intros (dl & l & Hd & Hc & Hw) H0 H1 H2. unfold TransTdcSendMessage.
  destruct (sendInc_spec id l s Hc (wft_seq _ _ _ Hw)) as (o & s1 & l' & E1 & T1 & Hi & Hl).
  eapply safe_bind; [exact E1|]. pose proof (wf_after s s1 dl l l' Hw Hd T1 Hi Hl) as Hw1.
  destruct o as [c|]; [|by apply safe_ret].
  destruct (local_step (TransTdcProcessPostData c d n FLAG_MESSAGE) _ s1 (local_post _ _ _ _)
    (postData_total c d n FLAG_MESSAGE H0 H2 H1 ltac:(unfold FLAG_MESSAGE; range) ltac:(done))) as (r & s2 & E2 & _ & T2).
  eapply safe_bind; [exact E2|].
  assert (wf_world s2) as Hw2 by (by eapply wf_world_tables).
  destruct (negb _); [by apply safe_ret|].
  eapply safe_bind; [reflexivity|].
  destruct (PendingPkt.ProcPendingBegin _ _ _ _ _ _); [by apply safe_ret|].
  eapply safe_bind; [reflexivity|]. apply safe_ret. by eapply wf_world_tables.
Qed.

Lemma local_decode id k : forall sz buf, local (decodeLoop k id sz buf).
Proof.
  induction k as [|k IH]; intros sz buf; cbn [decodeLoop]; [apply local_ub|].
  destruct (_ <? _); [apply local_ret|]. apply local_bind; [apply local_lift|]. intros h.
  apply local_bind; [apply local_maxLen|]. intros max. destruct (_ || _); [apply local_ret|].
  apply local_bind; [destruct (_ <? _); [apply local_calloc|apply local_ret]|]. intros ok.
  destruct (negb ok); [apply local_ret|]. destruct (_ <? _); [apply local_ret|].
  apply local_bind; [apply local_deliver|]. intros ret. destruct (negb _); [apply local_ret|]. apply IH.
Qed.

Lemma delete_insert_list {A} (l : list A) i x : delete i (<[i := x]> l) = delete i l.
Proof. revert i. induction l as [|y l IH]; intros [|i]; try done. cbn. f_equal. apply IH. Qed.

(** Closing a channel whose buffer was changed. *)
Lemma close_touched id i f b dl dl' l s :
  wf_tables dl l (dataBufferMaxLen s) -> findBuf id (bufs dl) = Some (i, b) -> touched dl dl' id i f ->
  channels s = Some l ->
  safe (_ ← TransDelDataBufNode id; _ ← TransTdcCloseChannel id; _ ← call (CSessionClosed id); mret SOFTBUS_ERR)
    (set_dataList (Some dl') s).
Proof.
  intros Hw Hf (sz' & buf' & junk' & Hh & Edl) Hc.
  eapply safe_bind; [apply del_spec|].
  destruct (close_spec id l (set_dataList (Some (removeBuf id dl')) s) Hc) as (s' & E & T).
  eapply safe_bind; [exact E|]. unfold tables in T. injection T as T1 T2 T3.
  eapply safe_bind; [reflexivity|]. apply safe_ret.
  exists (removeBuf id dl'), (match findChannel id l with Some (i, _) => delete i l | None => l end).
  split; [done|]. split; [done|]. cbn [dataBufferMaxLen set_log set_dataList] in *. rewrite T3.
  pose proof (find_ids l (bufs dl) id (wft_ids _ _ _ Hw)) as Hfi. unfold removeBuf.
  rewrite (holds_find _ _ _ _ _ _ _ Hh).
  destruct (findChannel id l) as [[j c]|]; [|congruence]. destruct Hfi as [b' Hb'].
  assert (j = i) as -> by congruence. rewrite Edl. cbn [bufs replaceBuf bcnt depth].
  rewrite delete_insert_list. apply (wf_delete dl l _ i b); [done|].
  by apply list_find_Some in Hf as (? & _ & _).
Qed.

Lemma recv_error_spec id i f dl sz buf junk s r : holds dl id sz buf i f junk -> r <= 0 ->
  TransTdcRecvData (inl r) id (set_dataList (Some dl) s) = Some (SOFTBUS_ERR, set_dataList (Some dl) s).
Proof.
  intros Hh Hr. unfold TransTdcRecvData.
  step (lock_eq dl s). step (find_eq dl id sz buf i f junk s Hh).
  assert (recvInto (inl r) (buffer id f sz buf junk) = Some (r, data (buffer id f sz buf junk))) as Er.
  { unfold recvInto. by rewrite (proj2 (Z.leb_le _ _)) by done. }
  step (lift_Some _ _ (set_dataList (Some (deeper dl)) s) Er).
  rewrite (proj2 (Z.leb_le _ _)) by done. by step (unlock_deeper dl s).
Qed.

Lemma event_safe recv events f s : wf_world s -> legal s (OpEvent recv events f) ->
  safe (ClientTdcOnDataEvent recv events f) s.
Proof.
  intros (dl & l & Hd & Hc & Hw) Hleg. unfold ClientTdcOnDataEvent.
  assert (TransTdcGetInfoByFd f s = Some (snd <$> list_find (fun c => fd c = f) l, s)) as Eg.
  { unfold TransTdcGetInfoByFd, mbind, M_bind, channelsOf. by rewrite Hc. }
  eapply safe_bind; [exact Eg|].
  assert (wf_world s) as Hws by (exists dl, l; done).
  destruct (list_find (fun c => fd c = f) l) as [[n c]|] eqn:Ec; cbn [fmap option_fmap option_map snd];
    [|by apply safe_ret].
  destruct (events =? SOFTBUS_SOCKET_IN); [|by apply safe_ret].
  set (id := channelId c).
  assert (exists i b, findBuf id (bufs dl) = Some (i, b)) as (i & b & Hf).
  { pose proof (find_ids l (bufs dl) id (wft_ids _ _ _ Hw)) as Hfi.
    destruct (findChannel id l) as [[j c']|] eqn:Efc; [destruct Hfi as [b ?]; by eexists _, _|].
    apply list_find_None in Efc. rewrite Forall_forall in Efc. destruct (Efc c); [|done].
    apply list_find_Some in Ec as (? & _ & _). by eapply list_elem_of_lookup_2. }
  destruct (find_buf_spec id (bufs dl) i b (wft_bufs _ _ _ Hw) Hf) as (bf & sz & buf & junk & Hi & -> & Hlt & Hh).
  specialize (Hh (bcnt dl) (depth dl)). assert (MkDataList (bufs dl) (bcnt dl) (depth dl) = dl) as Eta by (by destruct dl).
  rewrite Eta in Hh. destruct recv as [r|bs].
  - pose proof (recv_error_spec id i bf dl sz buf junk s r Hh Hleg) as Er. rewrite (world_eta s dl Hd) in Er.
    eapply safe_bind; [exact Er|]. change (SOFTBUS_ERR =? SOFTBUS_DATA_NOT_ENOUGH) with false.
    change (negb (SOFTBUS_ERR =? SOFTBUS_OK)) with true. cbn match. rewrite <- (world_eta s dl Hd).
    eapply close_touched; [done|done|by eapply touched_refl|done].
  - destruct Hleg as (Hbs & Hpos & Hfit). specialize (Hfit l c n Hc Ec dl i _ Hd Hf). cbn [bsize w buffer] in Hfit.
    destruct (recv_spec id i bf l dl sz buf junk s bs Hh Hc (wft_max _ _ _ Hw) Hbs ltac:(lia))
      as (ret & dl' & o & s1 & E1 & E2 & Ht & Hm).
    rewrite (world_eta s dl Hd) in E1. eapply safe_bind; [exact E1|].
    destruct (local_keeps _ (local_decode id _ _ _) _ _ _ E2) as (_ & M1 & C1).
    assert (safe (mret SOFTBUS_OK : M World Z) (set_dataList (Some dl') s1) \/ ~ waits ret) as Hok.
    { destruct o as [[sz' rest]|]; [left|by right]. destruct Hm as (Hwt & Hlt' & junk' & Hh').
      destruct Ht as (sz2 & buf2 & junk2 & Hh2 & ->). apply safe_ret.
      eexists _, l. split; [done|]. split; [cbn; congruence|]. cbn [dataBufferMaxLen set_dataList]. rewrite M1.
      eapply wf_replaceBuf; [done|exact Hi|done|].
      assert (buffer id bf sz2 buf2 junk2 = buffer id bf sz' rest junk') as ->.
      { pose proof (holds_find _ _ _ _ _ _ _ Hh') as F1. rewrite (holds_find _ _ _ _ _ _ _ Hh2) in F1. congruence. }
      by eapply holds_wf. }
    destruct (Z.eqb_spec ret SOFTBUS_DATA_NOT_ENOUGH) as [Er|Hn1].
    { destruct Hok as [Hok|Hok]; [done|]. destruct Hok. by right. }
    destruct (Z.eqb_spec ret SOFTBUS_OK) as [Er|Hn2]; cbn [negb].
    { destruct Hok as [Hok|Hok]; [done|]. destruct Hok. by left. }
    eapply close_touched; [by rewrite M1|done|done|congruence].
Qed.

(** Opening adds a channel and its buffer together, or neither. *)
Lemma wf_add dl l max id f c : wf_tables dl l max -> findChannel id l = None -> channelId c = id ->
  is_s 32 (sequence c) ->
  wf_tables (MkDataList (MkBuf id f TransGetDataBufSize (replicate (Z.to_nat TransGetDataBufSize) 0) 0 :: bufs dl)
    (bcnt dl + 1) (depth dl)) (c :: l) max.
Proof.
  intros [H1 H2 H3 H4 H5 H6 H7] Hn Hc Hs. split; cbn [bufs bcnt depth fmap list_fmap bchannelId]; try done.
  - by rewrite Hc; f_equal.
  - constructor; [|done]. rewrite Hc. intros (c' & -> & Hin)%list_elem_of_fmap.
    apply list_find_None in Hn. rewrite Forall_forall in Hn. by destruct (Hn c').
  - simpl length. lia.
  - constructor; [|done]. exists [], (replicate (Z.to_nat TransGetDataBufSize) 0). split_and!; try done.
    apply Forall_replicate. range.
  - by constructor.
Qed.

Lemma addBuf_spec id f dl s : exists ret s',
  TransAddDataBufNode id f (set_dataList (Some dl) s) = Some (ret, s') /\
  channels s' = channels s /\ dataBufferMaxLen s' = dataBufferMaxLen s /\
  tcpDataList s' = Some (if bool_decide (ret = SOFTBUS_OK)
    then MkDataList (MkBuf id f TransGetDataBufSize (replicate (Z.to_nat TransGetDataBufSize) 0) 0 :: bufs dl)
           (bcnt dl + 1) (depth dl) else dl).
Proof.
  unfold TransAddDataBufNode.
  step (eq_refl : gets tcpDataList (set_dataList (Some dl) s) = Some (Some dl, set_dataList (Some dl) s)).
  destruct (local_step (calloc SIZEOF_ClientDataBuf) _ s (local_calloc _) (total_calloc _)) as (ok1 & s1 & E1 & _ & T1).
  step (local_eq _ _ (Some dl) _ _ (local_calloc _) E1). unfold tables in T1. injection T1 as T1 T2 T3.
  destruct ok1; cbn [negb]; [|eexists _, _; split; [done|]; rewrite bool_decide_false by done; cbn; split_and!; congruence].
  destruct (local_step (calloc TransGetDataBufSize) _ s1 (local_calloc _) (total_calloc _)) as (ok2 & s2 & E2 & _ & T4).
  step (local_eq _ _ (Some dl) _ _ (local_calloc _) E2). unfold tables in T4. injection T4 as T4 T5 T6.
  destruct ok2; cbn [negb]; [|eexists _, _; split; [done|]; rewrite bool_decide_false by done; cbn; split_and!; congruence].
  step (lock_eq dl s2).
  step (eq_refl : dataListOf (set_dataList (Some (deeper dl)) s2) = Some (deeper dl, set_dataList (Some (deeper dl)) s2)).
  set (node := MkBuf _ _ _ _ _).
  step (eq_refl : setBufs (node :: bufs (deeper dl)) (bcnt (deeper dl) + 1) (set_dataList (Some (deeper dl)) s2) =
    Some (tt, set_dataList (Some (deeper (MkDataList (node :: bufs dl) (bcnt dl + 1) (depth dl)))) s2)).
  step (unlock_deeper (MkDataList (node :: bufs dl) (bcnt dl + 1) (depth dl)) s2).
  eexists _, _. split; [done|]. rewrite bool_decide_true by done. cbn. split_and!; congruence.
Qed.

Lemma removeBuf_head id f dl : removeBuf id (MkDataList
    (MkBuf id f TransGetDataBufSize (replicate (Z.to_nat TransGetDataBufSize) 0) 0 :: bufs dl) (bcnt dl + 1) (depth dl)) = dl.
Proof.
  unfold removeBuf, findBuf. cbn [bufs list_find bchannelId]. rewrite decide_True by done. cbn.
  destruct dl. cbn. f_equal. lia.
Qed.

Lemma open_safe id f type key s : wf_world s -> SESSION_KEY_LENGTH <= len key ->
  safe (ClientTransTdcOnChannelOpened id f type key) s.
Proof.
  intros (dl & l & Hd & Hc & Hw) Hk. assert (wf_world s) as Hws by (by exists dl, l).
  unfold ClientTransTdcOnChannelOpened.
  assert (channelsOf s = Some (l, s)) as Ec by (unfold channelsOf; by rewrite Hc).
  eapply safe_bind; [exact Ec|]. destruct (findChannel id l) as [?|] eqn:Ef; [by apply safe_ret|].
  destruct (get_inside key 0 SESSION_KEY_LENGTH) as (k & Ek & _); [unfold SESSION_KEY_LENGTH; lia..|lia|].
  assert (exists item s1, TransGetNewTcpChannel id f type key s = Some (item, s1) /\ tables s1 = tables s /\
    forall it, item = Some it -> channelId it = id /\ is_s 32 (sequence it)) as (item & s1 & E1 & T1 & Hit).
  { unfold TransGetNewTcpChannel.
    destruct (local_step (calloc SIZEOF_TcpDirectChannelInfo) _ s (local_calloc _) (total_calloc _)) as (ok & s1 & E1 & _ & T1).
    step E1. destruct ok; cbn [negb]; [|by exists None, s1].
    step (lift_Some _ _ s1 Ek). eexists _, s1. split; [done|]. split; [done|].
    intros it [= <-]. split; [done|]. cbn. range. }
  eapply safe_bind; [exact E1|]. destruct item as [it|]; [|apply safe_ret; by eapply wf_world_tables].
  destruct (Hit it eq_refl) as [Hid Hseq]. unfold tables in T1. injection T1 as T1 T2 T3.
  destruct (addBuf_spec id f dl s1) as (r1 & s2 & E2 & C2 & M2 & D2).
  rewrite (world_eta s1 dl) in E2 by congruence. eapply safe_bind; [exact E2|].
  destruct (Z.eqb_spec r1 SOFTBUS_OK) as [Er|Er]; cbn [negb].
  2:{ apply safe_ret. rewrite bool_decide_false in D2 by done.
      eapply (wf_world_tables s); [|done]. unfold tables. congruence. }
  rewrite bool_decide_true in D2 by done.
  set (dl2 := MkDataList _ _ _) in D2.
  assert (forall s3, tables s3 = tables s2 ->
    safe (_ ← TransDelDataBufNode id; mret SOFTBUS_ERR) s3) as Hundo.
  { intros s3 T. unfold tables in T. injection T as Ta Tb Tc.
    pose proof (del_spec id dl2 s3) as Ed. rewrite (world_eta s3 dl2) in Ed by congruence.
    eapply safe_bind; [exact Ed|]. apply safe_ret. unfold dl2. rewrite removeBuf_head.
    eapply (wf_world_tables s); [|done]. unfold tables. cbn. congruence. }
  destruct (local_step (call (CCreateListener f)) _ s2 (local_call _) (total_call _)) as (r2 & s3 & E3 & _ & T4).
  eapply safe_bind; [exact E3|]. destruct (negb (r2 =? SOFTBUS_OK)); [by apply Hundo|].
  destruct (local_step (call (CSetKeepAlive f HEART_TIME)) _ s3 (local_call _) (total_call _)) as (r3 & s4 & E4 & _ & T5).
  eapply safe_bind; [exact E4|]. destruct (negb (r3 =? SOFTBUS_OK)); [apply Hundo; congruence|].
  eapply safe_bind; [reflexivity|]. eapply safe_bind; [reflexivity|]. apply safe_ret.
  unfold tables in *. injection T4 as T4 T4' T4''. injection T5 as T5 T5' T5''.
  exists dl2, (it :: l). cbn. split_and!; [congruence|done|].
  replace (dataBufferMaxLen s4) with (dataBufferMaxLen s) by congruence. by apply wf_add.
Qed.

Lemma runOp_safe o s : wf_world s -> legal s o -> safe (runOp o) s.
Proof.
  assert (forall A (m : M World A), safe m s -> safe (_ ← m; mret tt) s) as Hret.
  { intros A m (a & s' & E & Hw). eapply safe_bind; [exact E|]. by apply safe_ret. }
  intros Hw Hl. destruct o; cbn [runOp legal] in *.
  - by apply Hret, open_safe.
  - by apply close_safe.
  - by apply Hret, event_safe.
  - apply Hret, sendBytes_safe; tauto.
  - apply Hret, sendMessage_safe; tauto.
Qed.

Fixpoint runOps (ops : list Op) (s : World) : option World :=
  match ops with
  | [] => Some s
  | o :: ops' => '(_, s') ← runOp o s; runOps ops' s'
  end.

Fixpoint legalOps (ops : list Op) (s : World) : Prop :=
  match ops with
  | [] => True
  | o :: ops' => legal s o /\ forall s', runOp o s = Some (tt, s') -> legalOps ops' s'
  end.

Lemma runOps_safe ops : forall s, wf_world s -> legalOps ops s ->
  exists s', runOps ops s = Some s' /\ wf_world s'.
Proof.
  induction ops as [|o ops IH]; intros s Hw Hl; [by exists s|]. cbn [runOps legalOps] in *.
  destruct Hl as [Ho Hrest]. destruct (runOp_safe o s Hw Ho) as ([] & s1 & E & Hw1).
  rewrite E. cbn [mbind option_bind]. apply IH; [done|]. by apply Hrest.
Qed.

(** Initialising the manager. *)
Lemma wf_initial cfg hasCb pend s s' : tcpDataList s = None ->
  TransTdcManagerInit cfg hasCb pend s = Some (SOFTBUS_OK, s') -> wf_world s'.
Proof.
  intros Hd. unfold TransTdcManagerInit. intros (c & s1 & E1 & E)%bind_Some.
  destruct (local_keeps _ (local_call _) _ _ _ E1) as (D1 & _ & _).
  apply bind_Some in E as (u & s2 & [= <- <-] & E). destruct (c =? 0); [done|].
  apply bind_Some in E as (r & s3 & E3 & E).
  destruct (Z.eqb_spec r SOFTBUS_OK) as [->|]; cbn [negb] in E; [|done].
  destruct hasCb; cbn [negb] in E; [|done].
  apply bind_Some in E as (p & s4 & [= <- <-] & E).
  destruct (PendingPkt.PendingInit _ _ _) as [r2 p'].
  apply bind_Some in E as (u2 & s5 & [= <- <-] & E). injection E as _ <-.
  unfold TransDataListInit in E3. apply bind_Some in E3 as (o & s6 & [= <- <-] & E3).
  cbn [set_channels tcpDataList] in E3. rewrite D1, Hd in E3.
  apply bind_Some in E3 as (r3 & s7 & E7 & E3). unfold TransGetDataBufMaxSize in E7.
  apply bind_Some in E7 as (r4 & s8 & E8 & E7).
  destruct (local_keeps _ (local_call _) _ _ _ E8) as (D8 & _ & C8).
  destruct (Z.eqb_spec r4 SOFTBUS_OK); cbn [negb] in E7; [|injection E7 as <- <-; done].
  apply bind_Some in E7 as (u3 & s9 & [= <- <-] & [= <- <-]). cbn in E3.
  apply bind_Some in E3 as (c2 & s10 & E10 & E3).
  destruct (local_keeps _ (local_call _) _ _ _ E10) as (D10 & M10 & C10).
  destruct (c2 =? 0); [done|]. apply bind_Some in E3 as (u4 & s11 & [= <- <-] & [= <-]).
  exists (MkDataList [] 0 0), []. cbn in *. split; [done|]. split; [congruence|].
  split; cbn; try done; try (by constructor). rewrite M10. apply wrapU_range. lia.
Qed.

(** ** The packet of a message *)

Definition frame (sq flg : Z) (iv c t : bytes) : bytes :=
  le_bytes 4 MAGIC_NUMBER ++ le_bytes 4 (u32 sq) ++ le_bytes 4 flg ++
  le_bytes 4 (len c + OVERHEAD_LEN) ++ iv ++ c ++ t.

Lemma len_frame sq flg iv c t : len iv = GCM_IV_LEN -> len t = TAG_LEN ->
  len (frame sq flg iv c t) = len c + DATA_EXTEND_LEN.
Proof.
  intros. unfold frame. autorewrite with lens.
  unfold DATA_EXTEND_LEN, DC_DATA_HEAD_SIZE, OVERHEAD_LEN. lia.
Qed.

Lemma frame_is_bytes sq flg iv c t : is_bytes iv -> is_bytes c -> is_bytes t -> is_bytes (frame sq flg iv c t).
Proof. intros. unfold frame. repeat (apply Forall_app; split); try done; apply le_bytes_is_bytes. Qed.

(** Its head, as the receiver reads it. *)
Lemma wireHead_frame sq flg iv c t rest : is_s 32 sq -> is_u 32 flg -> is_u 32 (len c + OVERHEAD_LEN) ->
  wireHead (frame sq flg iv c t ++ rest) = Some (MkHead MAGIC_NUMBER sq flg (len c + OVERHEAD_LEN)).
Proof.
  intros Hs Hf Hd. unfold wireHead, frame.
  set (m := le_bytes 4 MAGIC_NUMBER). set (q := le_bytes 4 (u32 sq)). set (fl := le_bytes 4 flg).
  set (dl := le_bytes 4 (len c + OVERHEAD_LEN)). set (tl := iv ++ c ++ t).
  assert (len m = 4 /\ len q = 4 /\ len fl = 4 /\ len dl = 4) as (Em & Eq & Ef & Ed).
  { unfold m, q, fl, dl. by rewrite !len_le_bytes. }
  replace ((m ++ q ++ fl ++ dl ++ tl) ++ rest) with ([] ++ m ++ (q ++ fl ++ dl ++ tl ++ rest)) at 1
    by (by rewrite <- !app_assoc).
  rewrite get_app by done. cbn [mbind option_bind].
  replace ((m ++ q ++ fl ++ dl ++ tl) ++ rest) with (m ++ q ++ (fl ++ dl ++ tl ++ rest)) at 1
    by (by rewrite <- !app_assoc).
  rewrite get_app by done. cbn [mbind option_bind].
  replace ((m ++ q ++ fl ++ dl ++ tl) ++ rest) with ((m ++ q) ++ fl ++ (dl ++ tl ++ rest)) at 1
    by (by rewrite <- !app_assoc).
  rewrite get_app by (done || rewrite len_app; lia). cbn [mbind option_bind].
  replace ((m ++ q ++ fl ++ dl ++ tl) ++ rest) with ((m ++ q ++ fl) ++ dl ++ (tl ++ rest)) at 1
    by (by rewrite <- !app_assoc).
  rewrite get_app by (done || rewrite !len_app; lia). cbn [mbind option_bind].
  unfold m, q, fl, dl. rewrite !le_val_bytes; [|done|done|apply wrapU_range; lia|unfold MAGIC_NUMBER; range].
  do 2 f_equal. revert Hs. clear. intros. cint.
Qed.

Lemma pack_spec ch p rest flg s s1 r c t :
  flg <> FLAG_ACK -> is_u 32 flg -> is_s 32 (sequence ch) ->
  0 < len p -> len p + DATA_EXTEND_LEN < 2 ^ 31 ->
  malloc (len p + DATA_EXTEND_LEN) s = Some (true, s1) ->
  gcm_setkey (sessionKey ch) = true -> randomArray (length (log s1)) = Some r ->
  gcm_crypt_and_tag (sessionKey ch) (seq_iv little r (sequence ch)) p = Some (c, t) ->
  TransTdcPackData ch (p ++ rest) (len p) flg s =
  Some (Some (frame (sequence ch) flg (seq_iv little r (sequence ch)) c t, len p + OVERHEAD_LEN), s1).
Proof.
  intros Hna Hf Hsq Hp Hmax Em Hk Er Ec. unfold TransTdcPackData.
  pose proof (Hrandom _ _ Er) as Hr. destruct (gcm_crypt_len _ _ _ _ _ Ec) as (Hlc & Hlt & _ & _).
  unfold DATA_EXTEND_LEN, DC_DATA_HEAD_SIZE, OVERHEAD_LEN, GCM_IV_LEN, TAG_LEN in *.
  rewrite !(wrapU_id 32 (len p + (12 + 16))) by range. rewrite !(wrapU_id 32 (len p + (12 + 16) + 16)) by range.
  replace (len p + (12 + 16) + 16) with (len p + (16 + (12 + 16))) by lia.
  step Em. cbn [negb]. rewrite (proj2 (Z.eqb_neq _ _)) by done.
  step (eq_refl : (mret (sequence ch, p ++ rest) : M World (Z * bytes)) s1 = Some ((sequence ch, p ++ rest), s1)).
  assert (PackTcpDataPacketHead (MkHead MAGIC_NUMBER (sequence ch) (u32 flg) (len p + (12 + 16))) =
    Some (MkHead MAGIC_NUMBER (sequence ch) flg (len p + (12 + 16)))) as Eh.
  { unfold PackTcpDataPacketHead. cbn [magicNumber hseq flags dataLen].
    rewrite (wire_id MAGIC_NUMBER) by (unfold MAGIC_NUMBER; range). cbn [mbind option_bind].
    rewrite (wire_id (u32 (sequence ch))) by (apply wrapU_range; lia). cbn [mbind option_bind].
    rewrite (wrapU_id 32 flg) by done. rewrite (wire_id flg) by done. cbn [mbind option_bind].
    rewrite (wire_id (len p + (12 + 16))) by range. cbn [mbind option_bind]. do 2 f_equal.
    revert Hsq. clear. intros. cint. }
  step (lift_Some _ _ s1 Eh).
  set (h := MkHead _ _ _ _). set (buf := replicate _ 0).
  assert (len buf = len p + 44) as Hbuf by (unfold buf; lens).
  destruct (split_len buf 16) as (b0 & b1 & Eb & Hb0); [lia|]. rewrite Eb in *. rewrite len_app in Hbuf.
  assert (len (headBytes h) = 16) as Hh by (unfold headBytes; lens).
  assert (memcpy_s (b0 ++ b1) 0 16 (headBytes h) 16 = Some (true, headBytes h ++ b1)) as Emc.
  { apply memcpy_s_fits; [lia|lia|]. apply put_front. lia. }
  step (lift_Some _ _ s1 Emc). cbn [negb].
  change (Z.to_nat 16) with 16%nat.
  assert (length (headBytes h) = 16%nat) as Hh' by (unfold len in Hh; lia).
  rewrite <- Hh', drop_app_length, take_app_length.
  assert (TransTdcEncryptWithSeq (sessionKey ch) (sequence ch) (p ++ rest) (len p) b1 s1 =
    Some ((SOFTBUS_OK, seq_iv little r (sequence ch) ++ c ++ t, Some (len p + OVERHEAD_LEN)), s1)) as Ee.
  { unfold TransTdcEncryptWithSeq.
    step (eq_refl : random s1 = Some (randomArray (length (log s1)), s1)). rewrite Er.
    pose proof (encrypt_spec little r (sessionKey ch) p rest c t b1 (sequence ch)) as Es.
    unfold OVERHEAD_LEN, GCM_IV_LEN, TAG_LEN in Es. specialize (Es Hk Hr Ec Hp ltac:(lia) ltac:(lia)).
    step (lift_Some _ _ s1 Es). change (SOFTBUS_OK =? SOFTBUS_OK) with true. cbn [negb].
    unfold OVERHEAD_LEN, GCM_IV_LEN, TAG_LEN. rewrite (wrapU_id 32) by range. by rewrite Z.eqb_refl. }
  step Ee. change (SOFTBUS_OK =? SOFTBUS_OK) with true. cbn [negb].
  unfold mret, M_ret. do 4 f_equal.
  unfold frame, headBytes, h. cbn [magicNumber hseq flags dataLen]. rewrite !host_le, Hlc.
  unfold OVERHEAD_LEN, GCM_IV_LEN, TAG_LEN. by rewrite <- !app_assoc.
Qed.

(** ** What the log shows *)

Definition delivered (lg : list (Call * Z)) : list (Z * bytes * Z) :=
  omap (fun '(c, _) => match c with CDataReceived id p type => Some (id, p, type) | _ => None end) lg.

Definition sentBytes (lg : list (Call * Z)) : bytes :=
  concat (omap (fun '(c, _) => match c with CSend _ b => Some b | _ => None end) lg).

(** Computations that deliver nothing. *)
Definition quiet {A} (m : M World A) : Prop :=
  forall s a s', m s = Some (a, s') -> delivered (log s') = delivered (log s).

Lemma quiet_ret {A} (a : A) : quiet (mret a).
Proof. by intros s a' s' [= <- <-]. Qed.

Lemma quiet_bind {A B} (m : M World A) (k : A -> M World B) :
  quiet m -> (forall a, quiet (k a)) -> quiet (m ≫= k).
Proof.
  intros Hm Hk s b s' (a & s1 & E1 & E2)%bind_Some. by rewrite (Hk _ _ _ _ E2), (Hm _ _ _ E1).
Qed.

Lemma quiet_lift {A} (o : option A) : quiet (lift o).
Proof. intros s a s' (x & -> & [= <- <-])%fmap_Some. done. Qed.

Lemma quiet_call c : match c with CDataReceived _ _ _ => False | _ => True end -> quiet (call c).
Proof.
  intros Hc s a s' [= <- <-]. cbn [log set_log]. unfold delivered. rewrite omap_app. cbn.
  destruct c; try done; by rewrite app_nil_r.
Qed.

Lemma quiet_malloc n : quiet (malloc n).
Proof.
  unfold malloc. destruct (_ <? n); [apply quiet_ret|]. apply quiet_bind; [by apply quiet_call|].
  intros. apply quiet_ret.
Qed.

Lemma quiet_calloc n : quiet (calloc n).
Proof.
  unfold calloc. destruct (_ <? n); [apply quiet_ret|]. apply quiet_bind; [by apply quiet_call|].
  intros. apply quiet_ret.
Qed.

Lemma quiet_random : quiet random.
Proof. by intros s a s' [= <- <-]. Qed.

Lemma quiet_ub {A} : quiet (@ub World A).
Proof. done. Qed.

Ltac quiet := repeat match goal with
  | |- quiet (mret _) => apply quiet_ret
  | |- quiet ub => apply quiet_ub
  | |- quiet (lift _) => apply quiet_lift
  | |- quiet (malloc _) => apply quiet_malloc
  | |- quiet random => apply quiet_random
  | |- quiet (call _) => by apply quiet_call
  | |- quiet (_ ≫= _) => apply quiet_bind; [|intros]
  | |- quiet (if ?x then _ else _) => destruct x
  | |- quiet (match ?x with _ => _ end) => destruct x
  end.

Lemma quiet_post c d n f : quiet (TransTdcProcessPostData c d n f).
Proof. unfold TransTdcProcessPostData, TransTdcPackData, TransTdcEncryptWithSeq. quiet. Qed.

Definition typeOf (flg : Z) : Z := if flg =? FLAG_BYTES then TRANS_SESSION_BYTES else TRANS_SESSION_MESSAGE.

(** Handing on bytes or a message delivers it once. *)
Lemma flag_delivers flg q c p n s ret s' : flg = FLAG_BYTES \/ flg = FLAG_MESSAGE -> len p = n ->
  TransTdcProcessDataByFlag flg q c p n s = Some (ret, s') ->
  delivered (log s') = delivered (log s) ++ [(channelId c, p, typeOf flg)].
Proof.
  intros Hf Hp.
  assert (forall s0 type, ClientTransTdcOnDataReceived (channelId c) p n type s0 = Some (ret, s') ->
    delivered (log s') = delivered (log s0) ++ [(channelId c, p, type)]) as Hdata.
  { intros s0 type. unfold ClientTransTdcOnDataReceived. step (lift_Some _ _ s0 (get_whole p n (eq_sym Hp))).
    intros [= _ <-]. cbn [log set_log]. unfold delivered. by rewrite omap_app. }
  destruct Hf as [-> | ->].
  - apply Hdata.
  - unfold TransTdcProcessDataByFlag. cbn [FLAG_MESSAGE FLAG_BYTES FLAG_ACK Z.eqb].
    change (FLAG_MESSAGE =? FLAG_BYTES) with false. change (FLAG_MESSAGE =? FLAG_ACK) with false.
    change (FLAG_MESSAGE =? FLAG_MESSAGE) with true. cbn match.
    intros (a & s1 & E1 & E2)%bind_Some. rewrite (Hdata _ _ E2). f_equal. by apply quiet_post in E1.
Qed.

End Channel.

(** ** An outside that cooperates: memory is there, the socket takes
    everything, callbacks succeed. *)
Definition obliging (_ : nat) (c : Call) : Z :=
  match c with
  | CMalloc _ => 1
  | CSend _ b => len b
  | _ => SOFTBUS_OK
  end.

Lemma obliging_malloc n s : n <= MAX_MALLOC_SIZE ->
  exists s', malloc obliging n s = Some (true, s') /\ s' = set_log (log s ++ [(CMalloc n, 1)]) s.
Proof.
  intros. unfold malloc. rewrite (proj2 (Z.ltb_ge _ _)) by done. unfold mbind, M_bind, call. cbn.
  rewrite malloc_true by done. by eexists.
Qed.

Lemma obliging_calloc n s : n <= MAX_MALLOC_SIZE ->
  exists s', calloc obliging n s = Some (true, s') /\ s' = set_log (log s ++ [(CMalloc n, 1)]) s.
Proof.
  intros. unfold calloc. rewrite (proj2 (Z.ltb_ge _ _)) by done. unfold mbind, M_bind, call. cbn.
  rewrite calloc_true by done. by eexists.
Qed.

Lemma sentBytes_app a b : sentBytes (a ++ b) = sentBytes a ++ sentBytes b.
Proof. unfold sentBytes. by rewrite omap_app, concat_app. Qed.

(** Messages that can be sent: not empty, within the memory limit. *)
Definition sendable (max : Z) (m : bytes) : Prop :=
  is_bytes m /\ 0 < len m /\ len m + DATA_EXTEND_LEN <= max /\ len m + DATA_EXTEND_LEN <= MAX_MALLOC_SIZE.

(** Send one message after the other; the codes. *)
Fixpoint sendAll `{Gcm} (rS : nat -> option bytes) (id : Z) (ms : list bytes) : M World (list Z) :=
  match ms with
  | [] => mret []
  | m :: ms' =>
      ret ← TransTdcSendBytes true obliging rS id m (len m);
      rets ← sendAll rS id ms';
      mret (ret :: rets)
  end.

Section Roundtrip.

Context `{G : Gcm} {L : GcmLaws G} (rS rR : nat -> option bytes).
Context (HS : forall n, exists r, rS n = Some r /\ len r = GCM_IV_LEN /\ is_bytes r).
Context (HR : forall n r, rR n = Some r -> len r = GCM_IV_LEN).
Context (key : bytes) (Hkey : gcm_setkey key = true).
Context (Hcrypt : forall iv p, is_bytes p -> is_Some (gcm_crypt_and_tag key iv p)).

(** A packet of the message [m] under the session key. *)
Definition frameOf (flg : Z) (m fr : bytes) : Prop :=
  exists sq iv c t, fr = frame sq flg iv c t /\ is_s 32 sq /\ is_bytes iv /\ len iv = GCM_IV_LEN /\
    gcm_crypt_and_tag key iv m = Some (c, t).

(** A world in which the channel has this key. *)
Definition open (id : Z) (s : World) : Prop :=
  exists l i c, channels s = Some l /\ findChannel id l = Some (i, c) /\ sessionKey c = key /\
    is_s 32 (sequence c).

Lemma seq_iv_bytes r sq : is_bytes r -> is_bytes (seq_iv true r sq).
Proof. intros. apply Forall_app. split; [apply host_bytes_is_bytes|by apply Forall_drop]. Qed.

Lemma findChannel_insert id l i c c' : findChannel id l = Some (i, c) -> channelId c' = id ->
  findChannel id (<[i := c']> l) = Some (i, c').
Proof.
  intros (Hl & Hb & Hlt)%list_find_Some Hb'. apply list_find_Some. split_and!.
  - apply list_lookup_insert_eq. by eapply lookup_lt_Some.
  - done.
  - intros j y Hj Hji. rewrite list_lookup_insert_ne in Hj by lia. by eapply Hlt.
Qed.

(** Posting data that the cipher accepts. *)
Lemma post_spec ch m rest flg s :
  flg <> FLAG_ACK -> is_u 32 flg -> is_s 32 (sequence ch) -> sessionKey ch = key ->
  sendable MAX_MALLOC_SIZE m ->
  exists fr s', frameOf flg m fr /\
    TransTdcProcessPostData true obliging rS ch (m ++ rest) (len m) flg s = Some (SOFTBUS_OK, s') /\
    channels s' = channels s /\ pendings s' = pendings s /\
    sentBytes (log s') = sentBytes (log s) ++ fr.
Proof.
  intros Hna Hf Hsq Hk (Hb & Hpos & _ & Hmax).
  destruct (obliging_malloc (len m + DATA_EXTEND_LEN) s) as (s1 & Em & ->); [done|].
  set (s1 := set_log _ _) in *.
  destruct (HS (length (log s1))) as (r & Er & Hr & Hrb).
  destruct (Hcrypt (seq_iv true r (sequence ch)) m Hb) as [[c t] Ec].
  destruct (gcm_crypt_len _ _ _ _ _ Ec) as (Hlc & Hlt & Hcb & Htb).
  assert (len (seq_iv true r (sequence ch)) = GCM_IV_LEN) as Hiv by (by apply len_seq_iv).
  assert (forall n x, rS n = Some x -> len x = GCM_IV_LEN) as HS'.
  { intros n x Ex. destruct (HS n) as (y & Ey & Hy & _). congruence. }
  pose proof (pack_spec true obliging rS eq_refl HS' ch m rest flg s s1 r c t Hna Hf Hsq Hpos) as Ep.
  rewrite Hk in Ep. unfold MAX_MALLOC_SIZE in Hmax.
  specialize (Ep ltac:(lia) Em Hkey Er Ec).
  unfold TransTdcProcessPostData. rewrite (bind_eq _ _ _ _ _ Ep). cbn beta iota.
  set (fr := frame _ _ _ _ _) in *.
  assert (len fr = len m + DATA_EXTEND_LEN) as Hfr by (unfold fr; rewrite len_frame by done; lia).
  unfold DATA_EXTEND_LEN, DC_DATA_HEAD_SIZE, OVERHEAD_LEN, GCM_IV_LEN, TAG_LEN in *.
  rewrite !(wrapU_id 32) by range. rewrite Z.eqb_refl. cbn [negb].
  set (tos := if flg =? FLAG_BYTES then _ else _).
  rewrite (bind_eq _ _ _ _ _ (eq_refl : call obliging (CSetIpTos (fd ch) tos) s1 =
    Some (0, set_log (log s1 ++ [(CSetIpTos (fd ch) tos, 0)]) s1))). cbn beta iota.
  change (negb (0 =? SOFTBUS_OK)) with false. cbn match.
  set (s2 := set_log _ s1).
  rewrite (bind_eq _ _ _ _ _ (lift_Some _ _ s2 (get_whole fr (len m + (12 + 16) + 16) ltac:(lia)))). cbn beta iota.
  rewrite (bind_eq _ _ _ _ _ (eq_refl : call obliging (CSend (fd ch) fr) s2 =
    Some (len fr, set_log (log s2 ++ [(CSend (fd ch) fr, len fr)]) s2))). cbn beta iota.
  rewrite (proj2 (Z.eqb_eq (len fr) _)) by lia. cbn [negb].
  exists fr. eexists. split_and!; [|done|done|done|].
  - by exists (sequence ch), (seq_iv true r (sequence ch)), c, t; split_and!; try done; apply seq_iv_bytes.
  - unfold s2, s1. cbn [log set_log]. rewrite !sentBytes_app. cbn. by rewrite !app_nil_r.
Qed.

Lemma send_spec id m s : open id s -> sendable MAX_MALLOC_SIZE m ->
  exists fr s', frameOf FLAG_BYTES m fr /\ TransTdcSendBytes true obliging rS id m (len m) s = Some (SOFTBUS_OK, s') /\
    open id s' /\ sentBytes (log s') = sentBytes (log s) ++ fr.
Proof.
  intros (l & i & c & Hc & Hf & Hk & Hsq) Hm. unfold TransTdcSendBytes.
  set (c' := MkChannel (channelId c) (fd c) (channelType c) (s32 (sequence c + 1)) (verifyInfo c) (sessionKey c)).
  assert (TransTdcGetInfoByIdWithIncSeq id s = Some (Some c, set_channels (Some (<[i := c']> l)) s)) as Eg.
  { unfold TransTdcGetInfoByIdWithIncSeq, mbind, M_bind, channelsOf. rewrite Hc. cbn. by rewrite Hf. }
  rewrite (bind_eq _ _ _ _ _ Eg). cbn beta iota.
  destruct (post_spec c m [] FLAG_BYTES (set_channels (Some (<[i := c']> l)) s))
    as (fr & s' & Hfr & Ep & Hc' & _ & Hsent); try done.
  rewrite app_nil_r in Ep. rewrite (bind_eq _ _ _ _ _ Ep). cbn beta iota.
  exists fr, s'. split_and!; try done.
  exists (<[i := c']> l), i, c'. split_and!; try done.
  - eapply findChannel_insert; [done|]. cbn. by apply list_find_Some in Hf as (_ & ? & _).
  - apply wrapS_range. lia.
Qed.

Lemma sendAll_spec id ms : forall s, open id s -> Forall (sendable MAX_MALLOC_SIZE) ms ->
  exists frs s', Forall2 (frameOf FLAG_BYTES) ms frs /\
    sendAll rS id ms s = Some (replicate (length ms) SOFTBUS_OK, s') /\
    sentBytes (log s') = sentBytes (log s) ++ concat frs.
Proof.
  induction ms as [|m ms IH]; intros s Ho Hm.
  { exists [], s. split_and!; [constructor|done|by rewrite app_nil_r]. }
  apply Forall_cons in Hm as [Hm Hms].
  destruct (send_spec id m s Ho Hm) as (fr & s1 & Hfr & E1 & Ho1 & Hs1).
  destruct (IH s1 Ho1 Hms) as (frs & s2 & Hfrs & E2 & Hs2).
  exists (fr :: frs), s2. split_and!; [by constructor| |].
  - cbn [sendAll]. rewrite (bind_eq _ _ _ _ _ E1). cbn beta. rewrite (bind_eq _ _ _ _ _ E2). done.
  - rewrite Hs2, Hs1. cbn [concat]. by rewrite <- app_assoc.
Qed.

(** ** The receiver *)

Notation decode := (decodeLoop true obliging rR).

(** A packet at the front of the stream is delivered. *)
Lemma decode_frame k id sz flg m fr rest s :
  open id s -> flg = FLAG_BYTES \/ flg = FLAG_MESSAGE -> frameOf flg m fr ->
  sendable (dataBufferMaxLen s) m ->
  exists sz' s', decode (S k) id sz (fr ++ rest) s = decode k id sz' rest s' /\
    open id s' /\ dataBufferMaxLen s' = dataBufferMaxLen s /\
    delivered (log s') = delivered (log s) ++ [(id, m, typeOf flg)].
Proof.
  intros (l & i & ch & Hc & Hf & Hk & Hsq) Hflg (sq & iv & c & t & -> & Hs & Hivb & Hiv & Ec) (Hb & Hpos & Hmx & Hmax).
  destruct (gcm_crypt_len _ _ _ _ _ Ec) as (Hlc & Hlt & Hcb & Htb).
  pose proof (len_frame sq flg iv c t Hiv Hlt) as Hlf.
  assert (DC_DATA_HEAD_SIZE <= len (frame sq flg iv c t ++ rest)) as Hhead.
  { rewrite len_app, Hlf. pose proof (len_nonneg rest). unfold DATA_EXTEND_LEN, OVERHEAD_LEN, GCM_IV_LEN, TAG_LEN. lia. }
  assert (is_u 32 (len c + OVERHEAD_LEN)) as Hd.
  { unfold DATA_EXTEND_LEN, MAX_MALLOC_SIZE, DC_DATA_HEAD_SIZE, OVERHEAD_LEN, GCM_IV_LEN, TAG_LEN in *. range. }
  assert (is_u 32 flg) as Hflg' by (destruct Hflg as [-> | ->]; unfold FLAG_BYTES, FLAG_MESSAGE; range).
  rewrite (decode_head true obliging rR k id sz _ s _ Hhead
    (wireHead_frame sq flg iv c t rest Hs Hflg' Hd)).
  cbn [magicNumber dataLen]. rewrite Z.eqb_refl. cbn [negb orb].
  assert (u32 (len c + OVERHEAD_LEN + DC_DATA_HEAD_SIZE) = len (frame sq flg iv c t)) as ->.
  { rewrite Hlf. unfold DATA_EXTEND_LEN, MAX_MALLOC_SIZE, DC_DATA_HEAD_SIZE, OVERHEAD_LEN, GCM_IV_LEN, TAG_LEN in *. cint. }
  rewrite (proj2 (Z.ltb_ge (dataBufferMaxLen s) _)) by lia.
  assert (exists s1, (if sz <? len (frame sq flg iv c t) then calloc obliging (len (frame sq flg iv c t)) s
      else Some (true, s)) = Some (true, s1) /\ channels s1 = channels s /\
    dataBufferMaxLen s1 = dataBufferMaxLen s /\ delivered (log s1) = delivered (log s)) as (s1 & -> & Hc1 & Hm1 & Hd1).
  { destruct (sz <? _); [|by exists s].
    destruct (obliging_calloc (len (frame sq flg iv c t)) s) as (s1 & E & ->); [lia|].
    eexists. split; [exact E|]. split_and!; try done. by eapply quiet_calloc. }
  rewrite len_app, (proj2 (Z.ltb_ge _ _)) by (pose proof (len_nonneg rest); lia).
  assert (take (Z.to_nat (len c + OVERHEAD_LEN)) (drop 16 (frame sq flg iv c t ++ rest)) = iv ++ c ++ t ++ []) as ->.
  { assert (frame sq flg iv c t ++ rest = (le_bytes 4 MAGIC_NUMBER ++ le_bytes 4 (u32 sq) ++ le_bytes 4 flg ++
      le_bytes 4 (len c + OVERHEAD_LEN)) ++ (iv ++ c ++ t) ++ rest) as ->.
    { unfold frame. by rewrite <- !app_assoc. }
    rewrite drop_app_length' by (rewrite !length_app, !length_le_bytes; done).
    rewrite take_app_length'; [by rewrite app_nil_r|].
    rewrite !length_app. unfold OVERHEAD_LEN, len in *. unfold GCM_IV_LEN, TAG_LEN in *. lia. }
  assert (exists s2, deliver true obliging rR id (MkHead MAGIC_NUMBER sq flg (len c + OVERHEAD_LEN)) (iv ++ c ++ t ++ []) s1
    = Some (SOFTBUS_OK, s2) /\ delivered (log s2) = delivered (log s1) ++ [(id, m, typeOf flg)]) as (s2 & Ed & Hd2).
  { unfold deliver.
    assert (TransTdcGetInfoById id s1 = Some (Some ch, s1)) as Eg.
    { unfold TransTdcGetInfoById, mbind, M_bind, channelsOf. rewrite Hc1, Hc. cbn. by rewrite Hf. }
    rewrite (bind_eq _ _ _ _ _ Eg). cbn beta iota. cbn [dataLen flags hseq].
    rewrite Z.add_simpl_r.
    rewrite (wrapU_id 32) by (unfold DATA_EXTEND_LEN, MAX_MALLOC_SIZE, DC_DATA_HEAD_SIZE, OVERHEAD_LEN, GCM_IV_LEN, TAG_LEN in *; range).
    destruct (obliging_calloc (len c) s1) as (s2 & E & ->).
    { unfold DATA_EXTEND_LEN, DC_DATA_HEAD_SIZE, OVERHEAD_LEN, GCM_IV_LEN, TAG_LEN in *. lia. }
    rewrite (bind_eq _ _ _ _ _ E). cbn beta iota. cbn [negb].
    pose proof (quiet_calloc _ _ _ _ _ E) as Hq. set (s2 := set_log _ _) in *.
    assert (SoftBusDecryptData (sessionKey ch) (iv ++ c ++ t ++ []) (len c + OVERHEAD_LEN) (replicate (Z.to_nat (len c)) 0)
      = Some (SOFTBUS_OK, m, Some (len c))) as Edec.
    { rewrite Hk, decrypt_spec; try done.
      - by rewrite (gcm_decrypt_crypt _ _ _ _ _ Ec).
      - lia.
      - unfold DATA_EXTEND_LEN, MAX_MALLOC_SIZE, DC_DATA_HEAD_SIZE, OVERHEAD_LEN, GCM_IV_LEN, TAG_LEN in *. lia.
      - rewrite len_replicate. lia. }
    rewrite (bind_eq _ _ _ _ _ (lift_Some _ _ s2 Edec)). cbn beta iota.
    change (SOFTBUS_OK =? SOFTBUS_OK) with true. cbn [negb].
    destruct (flag_total true obliging rR eq_refl HR flg sq ch m (len c) ltac:(lia) s2) as (ret & s3 & Ef & _).
    pose proof (flag_delivers true obliging rR flg sq ch m (len c) s2 ret s3 Hflg ltac:(lia) Ef) as Hdl.
    assert (ret = SOFTBUS_OK) as ->.
    { clear -Ef Hflg. destruct Hflg as [-> | ->].
      - apply bind_Some in Ef as (d & s4 & _ & [= <- _]). done.
      - apply bind_Some in Ef as (d & s4 & _ & Ef). apply bind_Some in Ef as (e & s5 & _ & [= <- _]). done. }
    exists s3. split; [exact Ef|]. rewrite Hdl, Hq. do 3 f_equal.
    by apply list_find_Some in Hf as (_ & -> & _). }
  rewrite Ed. change (SOFTBUS_OK =? SOFTBUS_OK) with true. cbn [negb].
  destruct (local_keeps _ (local_deliver true obliging rR _ _ _) _ _ _ Ed) as (_ & E2 & E3).
  eexists _, s2. split_and!.
  - unfold len. by rewrite Nat2Z.id, drop_app_length.
  - exists l, i, ch. split_and!; congruence || done.
  - congruence.
  - congruence.
Qed.

Lemma decode_frames id ms frs : Forall2 (frameOf FLAG_BYTES) ms frs -> forall k sz s,
  open id s -> Forall (sendable (dataBufferMaxLen s)) ms -> (length frs < k)%nat ->
  exists sz' s', decode k id sz (concat frs) s = Some (Some (sz', []), s') /\
    delivered (log s') = delivered (log s) ++ map (fun m => (id, m, TRANS_SESSION_BYTES)) ms.
Proof.
  induction 1 as [|m fr ms frs Hfr Hfrs IH]; intros k sz s Ho Hms Hk; (destruct k as [|k]; [simpl in Hk; lia|]).
  { exists sz, s. split; [done|]. by rewrite app_nil_r. }
  apply Forall_cons in Hms as [Hm Hms]. cbn [concat].
  destruct (decode_frame k id sz FLAG_BYTES m fr (concat frs) s) as (sz1 & s1 & E & Ho1 & Hm1 & Hd1); try done; [by left|].
  destruct (IH k sz1 s1 Ho1) as (sz2 & s2 & E2 & Hd2); [by rewrite Hm1|simpl in Hk; lia|].
  exists sz2, s2. rewrite E. split; [done|]. rewrite Hd2, Hd1, <- app_assoc. done.
Qed.

Lemma frame_pos m fr : 0 < len m -> frameOf FLAG_BYTES m fr -> (0 < length fr)%nat /\ is_bytes fr.
Proof.
  intros Hm (sq & iv & c & t & -> & _ & Hivb & Hiv & Ec).
  destruct (gcm_crypt_len _ _ _ _ _ Ec) as (Hlc & Hlt & Hcb & Htb).
  pose proof (len_frame sq FLAG_BYTES iv c t Hiv Hlt) as Hl. split; [|by apply frame_is_bytes].
  unfold len, DATA_EXTEND_LEN, DC_DATA_HEAD_SIZE, OVERHEAD_LEN, GCM_IV_LEN, TAG_LEN in *. lia.
Qed.

Lemma frames_len max ms frs : Forall2 (frameOf FLAG_BYTES) ms frs -> Forall (sendable max) ms ->
  (length frs <= length (concat frs))%nat /\ is_bytes (concat frs).
Proof.
  induction 1 as [|m fr ms frs Hfr _ IH]; intros Hms; [by split; constructor|].
  apply Forall_cons in Hms as [(_ & Hpos & _) Hms]. destruct (IH Hms) as [H1 H2].
  destruct (frame_pos m fr Hpos Hfr) as [H3 H4]. cbn [concat length]. rewrite length_app.
  split; [lia|]. by apply Forall_app.
Qed.

End Roundtrip.

(** ** Theorems *)

(** C7: On a little-endian host (see [big_endian_reread]) reading a stream in
    any pieces is equivalent to decoding it at once:
    whatever bytes arrive and however the socket cuts them up, the same calls
    are made (packets delivered, acknowledgements sent, memory asked for), the
    channel survives or fails alike, and if it survives the buffer holds what
    the reference leaves.  No read leaves the buffer, the locks are released,
    and a read is always offered space. *)
Theorem recv_segmentation `{G : Gcm} {L : GcmLaws G} answer randomArray id i f l dl sz buf junk s stream reads1 reads2 :
  (forall n r, randomArray n = Some r -> len r = GCM_IV_LEN) ->
  holds dl id sz buf i f junk -> len buf < sz -> channels s = Some l -> is_u 32 (dataBufferMaxLen s) ->
  settled true answer randomArray id sz buf s -> is_bytes stream ->
  (length stream <= length reads1)%nat -> (length stream <= length reads2)%nat ->
  exists alive left1 left2 dl1 dl2 o s1,
    pump true answer randomArray reads1 id stream (set_dataList (Some dl) s) = Some ((alive, left1), set_dataList (Some dl1) s1) /\
    pump true answer randomArray reads2 id stream (set_dataList (Some dl) s) = Some ((alive, left2), set_dataList (Some dl2) s1) /\
    decodeStream true answer randomArray id sz (buf ++ stream) s = Some (o, s1) /\
    touched dl dl1 id i f /\ touched dl dl2 id i f /\
    match o with
    | Some (sz', rest) => alive = true /\ left1 = [] /\ left2 = [] /\
        (exists junk', holds dl1 id sz' rest i f junk') /\ exists junk', holds dl2 id sz' rest i f junk'
    | None => alive = false
    end.
Proof.
  intros Hr Hh Hlt Hc Hmax Hst Hb H1 H2.
  destruct (pump_spec true answer randomArray eq_refl Hr id i f l reads1 stream dl sz buf junk s Hh Hlt Hc Hmax Hst Hb H1)
    as (al1 & lf1 & dl1 & o1 & s1 & k1 & E1 & K1 & D1 & P1 & M1).
  destruct (pump_spec true answer randomArray eq_refl Hr id i f l reads2 stream dl sz buf junk s Hh Hlt Hc Hmax Hst Hb H2)
    as (al2 & lf2 & dl2 & o2 & s2 & k2 & E2 & K2 & D2 & P2 & M2).
  assert (is_bytes (buf ++ stream)) as Hbs.
  { apply Forall_app. split; [|done]. pose proof (holds_bytes _ _ _ _ _ _ _ Hh) as Hx. by apply Forall_app in Hx as [? _]. }
  assert (Some (o1, s1) = Some (o2, s2)) as [= <- <-].
  { rewrite <- D1, <- D2. by apply decode_fuel. }
  assert (al1 = al2) as <- by (destruct o1 as [[? ?]|]; naive_solver).
  exists al1, lf1, lf2, dl1, dl2, o1, s1. split_and!; try done.
  - rewrite <- D1. unfold decodeStream. apply decode_fuel; [done|lia|done].
  - destruct o1 as [[? ?]|]; naive_solver.
Qed.

(** C5: What one side sends the other receives, both hosts being
    little-endian: a sequence of messages sent
    with [TransTdcSendBytes] over a channel with a common session key is
    delivered to the session of the receiver in order, once and unchanged,
    however TCP cuts the stream, and the receive buffer is empty afterwards. *)
Theorem tdc_roundtrip `{G : Gcm} {L : GcmLaws G} (rS rR : nat -> option bytes) key idS idR ms sS sR dl sz i f junk :
  (forall n, exists r, rS n = Some r /\ len r = GCM_IV_LEN /\ is_bytes r) ->
  (forall n r, rR n = Some r -> len r = GCM_IV_LEN) ->
  gcm_setkey key = true -> (forall iv p, is_bytes p -> is_Some (gcm_crypt_and_tag key iv p)) ->
  open key idS sS -> open key idR sR -> holds dl idR sz [] i f junk -> is_u 32 (dataBufferMaxLen sR) ->
  Forall (sendable (dataBufferMaxLen sR)) ms ->
  exists sS' stream, sendAll rS idS ms sS = Some (replicate (length ms) SOFTBUS_OK, sS') /\
    sentBytes (log sS') = sentBytes (log sS) ++ stream /\
    forall reads, (length stream <= length reads)%nat ->
    exists dl' sR' sz' junk',
      pump true obliging rR reads idR stream (set_dataList (Some dl) sR) = Some ((true, []), set_dataList (Some dl') sR') /\
      holds dl' idR sz' [] i f junk' /\ touched dl dl' idR i f /\
      delivered (log sR') = delivered (log sR) ++ map (fun m => (idR, m, TRANS_SESSION_BYTES)) ms.
Proof.
  intros HS HR Hk Hcr HoS HoR Hh Hmax Hms.
  assert (Forall (sendable MAX_MALLOC_SIZE) ms) as HmsS.
  { eapply Forall_impl; [done|]. by intros m (? & ? & ? & ?). }
  destruct (sendAll_spec rS HS key Hk Hcr idS ms sS HoS HmsS) as (frs & sS' & Hfrs & Es & Hsent).
  exists sS', (concat frs). split; [done|]. split; [done|]. intros reads Hreads.
  destruct (frames_len key _ ms frs Hfrs Hms) as [Hn Hfb].
  pose proof HoR as (l & ci & c & Hc & _).
  pose proof (holds_len _ _ _ _ _ _ _ Hh) as Hsz. pose proof (holds_size _ _ _ _ _ _ _ Hh) as Hsz'.
  destruct (pump_spec true obliging rR eq_refl HR idR i f l reads (concat frs) dl sz [] junk sR Hh)
    as (al & lf & dl' & o & s1 & k & E1 & K & D & P & M); try done.
  { unfold DC_DATA_HEAD_SIZE in *. change (len []) with 0 in *. lia. }
  simpl app in *.
  destruct (decode_frames rR HR key Hk idR ms frs Hfrs k sz sR HoR Hms) as (sz' & s2 & E2 & Hd); [lia|].
  rewrite D in E2. injection E2 as -> ->. destruct M as (-> & -> & junk' & Hh').
  by exists dl', s2, sz', junk'.
Qed.

(** C17: On a little-endian host every sequence of opening and closing channels, readable sockets (with
    any bytes or errors), bytes and messages sent, from an initialised library
    and whatever the outside answers, runs to its end without leaving a buffer
    or dereferencing NULL, and keeps the tables well-formed: each channel has
    exactly one buffer, in the same place of its list, with room for at least
    one byte; channel numbers are unique; the counter is exact; no lock stays
    taken; sequence numbers are 32-bit. *)
Theorem tdc_type_safety `{G : Gcm} {L : GcmLaws G} answer randomArray cfg hasCb pend s0 s ops :
  (forall n r, randomArray n = Some r -> len r = GCM_IV_LEN) ->
  tcpDataList s0 = None ->
  TransTdcManagerInit answer cfg hasCb pend s0 = Some (SOFTBUS_OK, s) ->
  legalOps true answer randomArray ops s ->
  exists s', runOps true answer randomArray ops s = Some s' /\ wf_world s'.
Proof.
  intros Hr Hd Hi Hl. apply runOps_safe; try done. by eapply wf_initial.
Qed.

(** *** Concrete worlds *)

Definition zero_random (_ : nat) : option bytes := Some (replicate 12 0).
Definition key0 : bytes := replicate 32 5.
Definition empty_world : World := MkWorld None 0 None (fun _ => None) [].

Definition started : World :=
  MkWorld (Some (MkDataList [] 0 0)) (4096 + DATA_EXTEND_LEN) (Some [])
    (PendingPkt.setList (fun _ => None) PendingPkt.PENDING_TYPE_DIRECT (Some (PendingPkt.MkPending [] 0)))
    [(CCreateList, 1); (CGetConfig, 0); (CCreateList, 1)].

Definition zeros : bytes := replicate (Z.to_nat MIN_BUF_LEN) 0.
Definition opened_list : DataList := MkDataList [MkBuf 7 3 MIN_BUF_LEN zeros 0] 1 0.

Definition opened : World :=
  MkWorld (Some opened_list) (4096 + DATA_EXTEND_LEN)
    (Some [MkChannel 7 3 0 0 (MkSeq 0 0 0) key0]) (pendings started) (log started).

Lemma zero_random_len n r : zero_random n = Some r -> len r = GCM_IV_LEN.
Proof. by intros [= <-]. Qed.

Lemma opened_holds : holds opened_list 7 MIN_BUF_LEN [] 0 3 zeros.
Proof. split; [done| |done|done]. apply Forall_replicate. range. Qed.

Lemma opened_key : open key0 7 opened.
Proof. eexists _, 0%nat, _. split; [done|]. split; [done|]. split; [done|]. cbn. range. Qed.

(** A packet of one byte, then the beginning of another. *)
Definition demo_stream : bytes := frame 0 FLAG_BYTES (replicate 12 0) [6] (replicate 16 1) ++ [1; 2; 3].

Lemma recv_segmentation_witness :
  exists alive left1 left2 dl1 dl2 s1,
    pump true obliging zero_random (replicate 48 0%nat) 7 demo_stream (set_dataList (tcpDataList opened) opened) =
      Some ((alive, left1), set_dataList (Some dl1) s1) /\
    pump true obliging zero_random (replicate 50 20%nat) 7 demo_stream (set_dataList (tcpDataList opened) opened) =
      Some ((alive, left2), set_dataList (Some dl2) s1).
Proof.
  destruct (recv_segmentation obliging zero_random 7 0 3 [MkChannel 7 3 0 0 (MkSeq 0 0 0) key0] opened_list MIN_BUF_LEN [] zeros opened
    demo_stream (replicate 48 0%nat) (replicate 50 20%nat)
    zero_random_len opened_holds) as (al & l1 & l2 & d1 & d2 & o & s1 & E1 & E2 & _).
  - done.
  - done.
  - vm_compute. split; congruence.
  - intros k. reflexivity.
  - apply (bool_decide_unpack _). vm_compute. exact I.
  - vm_compute. lia.
  - vm_compute. lia.
  - exists al, l1, l2, d1, d2, s1. split; [exact E1|exact E2].
Defined.

Lemma toy_crypt iv p : is_bytes p -> is_Some (gcm_crypt_and_tag key0 iv p).
Proof. intros Hp. cbn. rewrite bool_decide_true by done. by eexists. Qed.

Lemma tdc_roundtrip_witness :
  exists sS' stream, sendAll zero_random 7 [[1; 2; 3]; [255]] opened = Some ([0; 0], sS') /\
    sentBytes (log sS') = stream /\
    exists dl' sR', pump true obliging zero_random (replicate (length stream) 4%nat) 7 stream
        (set_dataList (tcpDataList opened) opened) = Some ((true, []), set_dataList (Some dl') sR') /\
      delivered (log sR') = [(7, [1; 2; 3], 0); (7, [255], 0)].
Proof.
  destruct (tdc_roundtrip zero_random zero_random key0 7 7 [[1; 2; 3]; [255]] opened opened opened_list MIN_BUF_LEN 0 3 zeros)
    as (sS' & stream & E1 & E2 & E3).
  - intros n. eexists. split; [done|]. split; [done|]. apply Forall_replicate. range.
  - exact zero_random_len.
  - reflexivity.
  - exact toy_crypt.
  - exact opened_key.
  - exact opened_key.
  - exact opened_holds.
  - vm_compute. split; congruence.
  - repeat constructor; vm_compute; congruence.
  - exists sS', stream. split; [exact E1|]. split; [exact E2|].
    destruct (E3 (replicate (length stream) 4%nat)) as (dl' & sR' & sz' & junk' & F1 & _ & _ & F4).
    { by rewrite length_replicate. }
    exists dl', sR'. split; [exact F1|exact F4].
Defined.

Definition demo_ops : list Op :=
  [OpOpen 7 3 0 key0; OpEvent (inr [1; 2; 3]) 1 3; OpSendBytes 7 [9; 8] 2; OpEvent (inl 0) 1 3; OpClose 7].

Definition answers (n : nat) (c : Call) : Z := match c with CCreateList => 1 | _ => obliging n c end.

Lemma tdc_type_safety_witness :
  exists s, TransTdcManagerInit answers 4096 true true empty_world = Some (SOFTBUS_OK, s) /\
    exists s', runOps true answers zero_random demo_ops s = Some s' /\ wf_world s'.
Proof.
  eexists. split; [reflexivity|].
  eapply (tdc_type_safety answers zero_random 4096 true true empty_world _ demo_ops zero_random_len); [done|reflexivity|].
  split; [vm_compute; congruence|]. intros s1 H1. vm_compute in H1. injection H1 as <-.
  split.
  { split; [apply (bool_decide_unpack _); vm_compute; exact I|]. split; [done|].
    intros l c n [= <-] [= _ <-] dl i b [= <-] [= _ <-]. vm_compute. congruence. }
  intros s2 H2. vm_compute in H2. injection H2 as <-.
  split; [vm_compute; split_and!; congruence|]. intros s3 H3. vm_compute in H3. injection H3 as <-.
  split; [vm_compute; congruence|]. intros s4 H4. vm_compute in H4. injection H4 as <-.
  split; [done|]. done.
Defined.

(** *** What goes wrong *)

(** [TransTdcProcessData] returns with the lock of the list taken when the
    buffer of the channel is gone, as after a concurrent close. *)
Lemma lock_leaked :
  exists s' dl', TransTdcProcessData true obliging zero_random 7 (set_dataList (Some (MkDataList [] 0 0)) opened) =
    Some (SOFTBUS_ERR, s') /\ tcpDataList s' = Some dl' /\ depth dl' = 1.
Proof. eexists _, _. split; [reflexivity|]. by split. Qed.

(** The head is converted in place each time a read finds the packet still
    incomplete.  On a big-endian host the second conversion undoes the first,
    and the packet is refused for its magic number. *)
Lemma big_endian_reread :
  (b1 ← UnpackTcpDataPacketHead false (take 16 demo_stream); h1 ← headAt false b1;
   b2 ← UnpackTcpDataPacketHead false b1; h2 ← headAt false b2;
   Some (magicNumber h1 =? MAGIC_NUMBER, magicNumber h2 =? MAGIC_NUMBER)) = Some (true, false).
Proof. vm_compute. reflexivity. Qed.

End TcpDirect.
