(* ===== verification/BleTrans.v ===== *)
(** * Fragments over Bluetooth Low Energy

    Models [core/connection/ble/src/softbus_ble_trans_manager.c] and the
    receiving part of [BleRequestWriteCallback] of
    [softbus_ble_gatt_server.c].  A message larger than the MTU is sent in
    fragments, each with a head of four big-endian numbers: the number of the
    message, the size and offset of the fragment, and the total size.  The
    receiver has three caches per connection in which it collects fragments.

    [ble_reassembly]: fragments of any number of messages, in any order and
    interleaving that keeps at most three messages incomplete, are put
    together to exactly the messages sent.  [BleTransSend_spec] gives the
    fragments; [ble_recv_bounds] says for which heads the receiver stays inside
    its cache, and [ble_forged_offset] that a head from the network can break
    this. *)

From S2P Require Import Prelude Errno Bytes Adapter.
Import Errno Bytes Adapter.Mem.

Module BleTrans.

Record BleTransHeader := MkHeader { seq : Z; size : Z; offset : Z; total : Z }.

Definition HEADER_SIZE : Z := 16.
Definition MTU_HEADER_SIZE : Z := 3.
Definition MAX_DATA_LEN : Z := 4096.
Definition MAX_CACHE_NUM_PER_CONN : Z := 3.

Record BleRecvCache := MkCache { isUsed : Z; cseq : Z; currentSize : Z; cache : option bytes }.

(** The part of [BleConnectionInfo] that this file works on. *)
Record BleConnectionInfo := MkConn { mtu : Z; recvCache : list BleRecvCache }.

(** ** Sending *)

Definition header_bytes (h : BleTransHeader) : bytes :=
  be_bytes 4 (seq h) ++ be_bytes 4 (size h) ++ be_bytes 4 (offset h) ++ be_bytes 4 (total h).

(** The loop of [BleTransSend].  [mem k] and [hal k] are the outcomes of the
    allocation and of [BleHalSend] for the k-th fragment; the fragments handed
    to [BleHalSend] are returned.  No code is returned while the loop runs. *)
Fixpoint sendLoop (fuel : nat) (mem : nat -> bool) (hal : nat -> Z) (data : bytes)
    (len dataLenMax sq : Z) (k : nat) (tempLen pos off : Z) (sent : list bytes)
  : option (option Z * list bytes) :=
  if negb (0 <? tempLen) then Some (Some SOFTBUS_OK, sent)
  else match fuel with
  | O => Some (None, sent)
  | S fuel' =>
      let sendLength := if dataLenMax <? tempLen then dataLenMax else tempLen in
      if negb (SoftBusCalloc (mem k) (u32 (sendLength + HEADER_SIZE))) then Some (Some SOFTBUS_MALLOC_ERR, sent)
      else
        part ← get data pos sendLength;
        let buff := header_bytes (MkHeader (u32 sq) sendLength off len) ++ part in
        let ret := hal k in
        if negb (ret =? SOFTBUS_OK) then Some (Some ret, sent ++ [buff])
        else sendLoop fuel' mem hal data len dataLenMax sq (S k)
               (u32 (tempLen - sendLength)) (pos + sendLength) (u32 (off + sendLength)) (sent ++ [buff])
  end.

Definition BleTransSend (fuel : nat) (mem : nat -> bool) (hal : nat -> Z) (conn : BleConnectionInfo)
    (data : bytes) (len sq : Z) : option (option Z * list bytes) :=
  let dataLenMax := u32 (mtu conn - MTU_HEADER_SIZE - HEADER_SIZE) in
  sendLoop fuel mem hal data len dataLenMax sq 0 len 0 0 [].

(** ** Receiving *)

(** [len] is the length the stack reports; the reads are of [value] itself. *)
Definition GetTransHeader (value : bytes) (len : Z) : option (Z * BleTransHeader) :=
  s ← get32 value 0; z ← get32 value 4; o ← get32 value 8; t ← get32 value 12;
  let h := MkHeader s z o t in
  if negb (z =? u64 (len - HEADER_SIZE)) || (t <? u32 (z + o)) || (o <? 0) || (MAX_DATA_LEN <? t)
  then Some (SOFTBUS_ERR, h) else Some (SOFTBUS_OK, h).

(** The loop of [FindAvailableCacheIndex]: where it stopped, and the first
    free entry before that. *)
Fixpoint scan (cs : list BleRecvCache) (sq i availableIndex : Z) : Z * Z :=
  match cs with
  | [] => (i, availableIndex)
  | c :: cs' =>
      if isUsed c =? 0 then scan cs' sq (i + 1) (if -1 <? availableIndex then availableIndex else i)
      else if cseq c =? sq then (i, availableIndex)
      else scan cs' sq (i + 1) availableIndex
  end.

Definition FindAvailableCacheIndex (mem : bool) (cs : list BleRecvCache) (h : BleTransHeader)
  : option (list BleRecvCache * (Z + Z)) :=
  let '(i, availableIndex) := scan cs (seq h) 0 (-1) in
  if (i =? MAX_CACHE_NUM_PER_CONN) && (availableIndex =? -1) then Some (cs, inr SOFTBUS_ERR)
  else if i =? MAX_CACHE_NUM_PER_CONN then
    c ← cs !! Z.to_nat availableIndex;
    match cache c with
    | Some b =>
        Some (<[Z.to_nat availableIndex := MkCache 1 (seq h) 0 (Some b)]> cs, inl availableIndex)
    | None =>
        if SoftBusCalloc mem MAX_DATA_LEN then
          Some (<[Z.to_nat availableIndex := MkCache 1 (seq h) 0 (Some (replicate (Z.to_nat MAX_DATA_LEN) 0))]> cs,
                inl availableIndex)
        else Some (<[Z.to_nat availableIndex := MkCache 0 (seq h) 0 None]> cs, inr SOFTBUS_ERR)
    end
  else Some (cs, inl i).

(** A complete message: its bytes, its length, and the index of the cache it
    is in, -1 for a message in one fragment. *)
Record Received := MkReceived { bytes_of : bytes; outLen : Z; index : Z }.

Definition BleTransRecv (mem : bool) (conn : BleConnectionInfo) (value : bytes) (len : Z)
  : option (BleConnectionInfo * option Received) :=
  '(ret, h) ← GetTransHeader value len;
  if negb (ret =? SOFTBUS_OK) then Some (conn, None)
  else if size h =? total h then
    b ← get value HEADER_SIZE (total h);
    Some (conn, Some (MkReceived b (total h) (-1)))
  else
    '(cs, r) ← FindAvailableCacheIndex mem (recvCache conn) h;
    let conn1 := MkConn (mtu conn) cs in
    match r with
    | inr _ => Some (conn1, None)
    | inl canIndex =>
        c ← cs !! Z.to_nat canIndex;
        b ← cache c;
        part ← get value HEADER_SIZE (size h);
        '(ok, b') ← memcpy_s b (offset h) (u32 (MAX_DATA_LEN - offset h)) part (size h);
        if negb ok then
          Some (MkConn (mtu conn) (<[Z.to_nat canIndex := MkCache 0 (cseq c) (currentSize c) (Some b')]> cs), None)
        else
          let cur := u32 (currentSize c + size h) in
          let conn2 := MkConn (mtu conn) (<[Z.to_nat canIndex := MkCache (isUsed c) (cseq c) cur (Some b')]> cs) in
          if cur =? total h then
            m ← get b' 0 (total h);
            Some (conn2, Some (MkReceived m (total h) canIndex))
          else Some (conn2, None)
    end.

Definition BleTransCacheFree (conn : BleConnectionInfo) (i : Z) : option BleConnectionInfo :=
  c ← recvCache conn !! Z.to_nat i;
  Some (MkConn (mtu conn) (<[Z.to_nat i := MkCache 0 (cseq c) (currentSize c) None]> (recvCache conn))).

(** The callback: a fragment arrives, a complete message is handed on and its
    cache released. *)
Definition onWrite (mem : bool) (conn : BleConnectionInfo) (value : bytes) (len : Z)
  : option (BleConnectionInfo * option bytes) :=
  '(conn1, r) ← BleTransRecv mem conn value len;
  match r with
  | None => Some (conn1, None)
  | Some m =>
      if negb (index m =? -1) then
        conn2 ← BleTransCacheFree conn1 (index m); Some (conn2, Some (bytes_of m))
      else Some (conn1, Some (bytes_of m))
  end.

(** ** Reading a head *)

Lemma get32_at b p x q off : b = p ++ be_bytes 4 x ++ q -> off = len p -> is_u 32 x -> get32 b off = Some x.
Proof.
  intros -> -> Hx. unfold get32. rewrite (get_app p _ q) by (done || by rewrite len_be_bytes).
  cbn [fmap option_fmap option_map]. f_equal. by apply (be_val_bytes_id 4).
Qed.

Lemma header_reads a b c d p : is_u 32 a -> is_u 32 b -> is_u 32 c -> is_u 32 d ->
  let v := header_bytes (MkHeader a b c d) ++ p in
  get32 v 0 = Some a /\ get32 v 4 = Some b /\ get32 v 8 = Some c /\ get32 v 12 = Some d.
Proof.
  intros Ha Hb Hc Hd v. unfold v, header_bytes. cbn [seq size offset total]. rewrite <- !app_assoc. split_and!.
  - by eapply (get32_at _ []).
  - by eapply (get32_at _ (be_bytes 4 a)).
  - eapply (get32_at _ (be_bytes 4 a ++ be_bytes 4 b)); [by rewrite <- !app_assoc|done|done].
  - eapply (get32_at _ (be_bytes 4 a ++ be_bytes 4 b ++ be_bytes 4 c)); [by rewrite <- !app_assoc|done|done].
Qed.

Lemma len_header h : len (header_bytes h) = HEADER_SIZE.
Proof. done. Qed.

(** ** Choosing a cache *)

Lemma find_known mem cs h i c : length cs = 3%nat -> cs !! i = Some c -> isUsed c = 1 -> cseq c = seq h ->
  (forall j c', cs !! j = Some c' -> isUsed c' <> 0 -> cseq c' = seq h -> j = i) ->
  FindAvailableCacheIndex mem cs h = Some (cs, inl (Z.of_nat i)).
Proof.
  destruct cs as [|c0 [|c1 [|c2 [|]]]]; try done. intros _ Hi Hu Hs Huniq.
  pose proof (Huniq 0%nat c0 eq_refl) as H0. pose proof (Huniq 1%nat c1 eq_refl) as H1.
  pose proof (Huniq 2%nat c2 eq_refl) as H2. unfold FindAvailableCacheIndex. cbn [scan].
  destruct (Z.eqb_spec (isUsed c0) 0), (Z.eqb_spec (isUsed c1) 0), (Z.eqb_spec (isUsed c2) 0),
    (Z.eqb_spec (cseq c0) (seq h)), (Z.eqb_spec (cseq c1) (seq h)), (Z.eqb_spec (cseq c2) (seq h));
    destruct i as [|[|[|i]]]; try done; injection Hi as <-; try congruence;
    try (specialize (H0 ltac:(done) ltac:(done)); done);
    try (specialize (H1 ltac:(done) ltac:(done)); done);
    try (specialize (H2 ltac:(done) ltac:(done)); done).
Qed.

Lemma take_slot (cs : list BleRecvCache) h i c : cs !! i = Some c -> (forall b, cache c = Some b -> len b = MAX_DATA_LEN) ->
  exists b, len b = MAX_DATA_LEN /\
    (c ← cs !! i;
     match cache c with
     | Some b => Some (<[i := MkCache 1 (seq h) 0 (Some b)]> cs, @inl Z Z (Z.of_nat i))
     | None => Some (<[i := MkCache 1 (seq h) 0 (Some (replicate (Z.to_nat MAX_DATA_LEN) 0))]> cs, inl (Z.of_nat i))
     end) = Some (<[i := MkCache 1 (seq h) 0 (Some b)]> cs, inl (Z.of_nat i)).
Proof.
  intros -> Hb. cbn [mbind option_bind]. destruct (cache c) as [b|]; [by exists b; auto|].
  exists (replicate (Z.to_nat MAX_DATA_LEN) 0). split; [|done]. by rewrite len_replicate.
Qed.

Lemma find_free cs h : length cs = 3%nat ->
  (forall c, c ∈ cs -> isUsed c <> 0 -> cseq c <> seq h) ->
  (exists c, c ∈ cs /\ isUsed c = 0) ->
  (forall c b, c ∈ cs -> isUsed c = 0 -> cache c = Some b -> len b = MAX_DATA_LEN) ->
  exists i c b, cs !! i = Some c /\ isUsed c = 0 /\ len b = MAX_DATA_LEN /\
    FindAvailableCacheIndex true cs h = Some (<[i := MkCache 1 (seq h) 0 (Some b)]> cs, inl (Z.of_nat i)).
Proof.
  intros Hl Hseq Hfree Hlen.
  assert (exists i c, cs !! i = Some c /\ isUsed c = 0 /\ scan cs (seq h) 0 (-1) = (3, Z.of_nat i)) as (i & c & Hi & Hu & Hs).
  { destruct cs as [|c0 [|c1 [|c2 [|]]]]; try done. cbn [scan].
    pose proof (Hseq c0 ltac:(set_solver)). pose proof (Hseq c1 ltac:(set_solver)). pose proof (Hseq c2 ltac:(set_solver)).
    destruct (Z.eqb_spec (isUsed c0) 0), (Z.eqb_spec (isUsed c1) 0), (Z.eqb_spec (isUsed c2) 0); cbn;
      rewrite ?(proj2 (Z.eqb_neq _ _)) by auto;
      first [by exists 0%nat, c0 | by exists 1%nat, c1 | by exists 2%nat, c2
            | exfalso; destruct Hfree as (c & Hc & E); set_solver]. }
  destruct (take_slot cs h i c Hi) as (b & Hb & E); [intros b E; apply (Hlen c b); try done; by apply list_elem_of_lookup_2 in Hi|].
  exists i, c, b. split_and!; try done. unfold FindAvailableCacheIndex. rewrite Hs.
  assert ((Z.of_nat i =? -1) = false) as -> by (apply Z.eqb_neq; lia). change (3 =? MAX_CACHE_NUM_PER_CONN) with true. cbn [andb].
  rewrite Nat2Z.id. rewrite <- E. done.
Qed.

(** ** Messages in pieces *)

(** A message: its number and contents, cut into pieces of at most [n] bytes. *)
Record Message := MkMessage { mseq : Z; mdata : bytes }.

#[global] Instance Message_eq_dec : EqDecision Message.
Proof. solve_decision. Defined.

Definition pieceLen (n : Z) (data : bytes) (off : Z) : Z := Z.min n (len data - off).

(** The fragment at an offset. *)
Definition fragment (n : Z) (m : Message) (off : Z) : bytes :=
  let z := pieceLen n (mdata m) off in
  header_bytes (MkHeader (mseq m) z off (len (mdata m))) ++
  take (Z.to_nat z) (drop (Z.to_nat off) (mdata m)).

(** The offsets of the pieces. *)
Definition offsets (n : Z) (data : bytes) : list Z :=
  (fun k => Z.of_nat k * n) <$> List.seq 0 (Z.to_nat ((len data + n - 1) / n)).

Section Messages.

Context (n : Z) (Hn : 0 < n).

Definition pieces (data : bytes) : nat := Z.to_nat ((len data + n - 1) / n).

Lemma pieces_spec data (k : nat) : (k < pieces data)%nat <-> Z.of_nat k * n < len data.
Proof.
  unfold pieces. pose proof (len_nonneg data).
  pose proof (Z.div_mod (len data + n - 1) n ltac:(lia)) as E.
  pose proof (Z.mod_pos_bound (len data + n - 1) n Hn) as B.
  set (q := (len data + n - 1) / n) in *.
  assert (0 <= q) by (unfold q; apply Z.div_pos; lia).
  split; intros; nia.
Qed.

Lemma elem_offsets data off : off ∈ offsets n data <-> exists k : nat, off = Z.of_nat k * n /\ off < len data.
Proof.
  unfold offsets. rewrite list_elem_of_fmap. split.
  - intros (k & -> & Hk). exists k. split; [done|]. apply pieces_spec.
    apply elem_of_seq in Hk. unfold pieces. lia.
  - intros (k & -> & Hk). exists k. split; [done|]. apply elem_of_seq.
    apply pieces_spec in Hk. unfold pieces in Hk. lia.
Qed.

Lemma NoDup_offsets data : NoDup (offsets n data).
Proof.
  unfold offsets. apply NoDup_fmap_2_strong; [|apply NoDup_seq]. intros x y _ _ E. nia.
Qed.

Lemma pieceLen_pos data off : off ∈ offsets n data -> 0 <= off /\ 0 < pieceLen n data off /\ off + pieceLen n data off <= len data.
Proof. intros (k & -> & Hk)%elem_offsets. unfold pieceLen. nia. Qed.

(** Two pieces do not overlap. *)
Lemma pieces_disjoint data o1 o2 x : o1 ∈ offsets n data -> o2 ∈ offsets n data ->
  o1 <= x < o1 + pieceLen n data o1 -> o2 <= x < o2 + pieceLen n data o2 -> o1 = o2.
Proof.
  intros (k1 & -> & H1)%elem_offsets (k2 & -> & H2)%elem_offsets. unfold pieceLen. intros A B.
  assert (k1 = k2) as ->; [nia|done].
Qed.

(** Every byte is in a piece. *)
Lemma pieces_cover data x : 0 <= x < len data -> exists o, o ∈ offsets n data /\ o <= x < o + pieceLen n data o.
Proof.
  intros Hx. pose proof (Z.div_mod x n ltac:(lia)). pose proof (Z.mod_pos_bound x n Hn).
  assert (0 <= x / n) by (apply Z.div_pos; lia).
  exists (x / n * n). split.
  - apply elem_offsets. exists (Z.to_nat (x / n)). rewrite Z2Nat.id by done. split; [done|nia].
  - unfold pieceLen. nia.
Qed.

Definition sum (l : list Z) : Z := foldr Z.add 0 l.

Lemma sum_cons x l : sum (x :: l) = x + sum l.
Proof. done. Qed.

Lemma sum_app a b : sum (a ++ b) = sum a + sum b.
Proof. unfold sum. induction a as [|x a IH]; [done|]. simpl. lia. Qed.

Lemma sum_perm a b : a ≡ₚ b -> sum a = sum b.
Proof. unfold sum. induction 1; simpl; lia. Qed.

Lemma sum_pieces data : sum (pieceLen n data <$> offsets n data) = len data.
Proof.
  unfold offsets.
  assert (forall k, sum (pieceLen n data <$> ((fun k => Z.of_nat k * n) <$> List.seq 0 k)) =
    Z.min (Z.of_nat k * n) (len data) \/ (pieces data < k)%nat) as H.
  { induction k as [|k IH]; [left; pose proof (len_nonneg data); simpl; lia|].
    destruct (decide (pieces data < S k)%nat) as [|Hk]; [by right|]. left.
    destruct IH as [IH|]; [|lia]. rewrite seq_S, !fmap_app, sum_app, IH. cbn.
    unfold pieceLen. assert (Z.of_nat k * n < len data) by (apply pieces_spec; lia). nia. }
  destruct (H (pieces data)) as [E|]; [|lia]. unfold pieces in E. rewrite E.
  pose proof (pieces_spec data (pieces data)) as Hp. unfold pieces in *. lia.
Qed.

Lemma sum_nonnegative data l : (forall o, o ∈ l -> o ∈ offsets n data) -> 0 <= sum (pieceLen n data <$> l).
Proof.
  induction l as [|y l IH]; intros Hl; [done|]. rewrite fmap_cons, sum_cons.
  destruct (pieceLen_pos data y) as (_ & ? & _); [apply Hl; by left|].
  assert (0 <= sum (pieceLen n data <$> l)) by (apply IH; intros; apply Hl; by right). lia.
Qed.

Lemma sum_positive data x l : (forall o, o ∈ x :: l -> o ∈ offsets n data) -> 0 < sum (pieceLen n data <$> x :: l).
Proof.
  intros Hl. rewrite fmap_cons, sum_cons. destruct (pieceLen_pos data x) as (_ & ? & _); [apply Hl; by left|].
  assert (0 <= sum (pieceLen n data <$> l)) by (apply sum_nonnegative; intros; apply Hl; by right). lia.
Qed.

(** A set of pieces has the size of the message only if it is all of them. *)
Lemma sum_complete data R : NoDup R -> R ⊆ offsets n data ->
  sum (pieceLen n data <$> R) = len data <-> offsets n data ⊆ R.
Proof.
  intros HR Hsub.
  destruct (submseteq_Permutation R (offsets n data)) as [R' Hp]; [by apply NoDup_submseteq|].
  pose proof (sum_pieces data) as Hs. rewrite (sum_perm _ _ (fmap_Permutation _ _ _ Hp)) in Hs.
  rewrite fmap_app, sum_app in Hs. split.
  - intros E. assert (R' = []) as ->; [|rewrite Hp; by rewrite app_nil_r].
    destruct R' as [|o R']; [done|]. exfalso.
    assert (0 < sum (pieceLen n data <$> o :: R')); [|lia].
    apply sum_positive. intros y Hy. rewrite Hp. set_solver.
  - intros Hall. assert (R' = []) as ->; [|cbn in Hs; lia].
    destruct R' as [|o R']; [done|]. exfalso.
    pose proof (NoDup_offsets data) as Hd. rewrite Hp in Hd. apply NoDup_app in Hd as (_ & Hd & _).
    apply (Hd o); [|by left]. apply Hall. rewrite Hp. set_solver.
Qed.

(** The pieces received are no longer than the message. *)
Lemma sum_bound data R : NoDup R -> R ⊆ offsets n data -> 0 <= sum (pieceLen n data <$> R) <= len data.
Proof.
  intros HR Hsub. split; [by apply sum_nonnegative|].
  destruct (submseteq_Permutation R (offsets n data)) as [R' Hp]; [by apply NoDup_submseteq|].
  pose proof (sum_pieces data) as Hs. rewrite (sum_perm _ _ (fmap_Permutation _ _ _ Hp)), fmap_app, sum_app in Hs.
  assert (0 <= sum (pieceLen n data <$> R')); [|lia].
  apply sum_nonnegative. intros o Ho. rewrite Hp. set_solver.
Qed.

(** ** Buffers that agree with a message *)

Definition agrees (b data : bytes) (off z : Z) : Prop :=
  forall x : nat, off <= Z.of_nat x < off + z -> b !! x = data !! x.

Lemma put_agrees b data off z b' : 0 <= off -> 0 <= z -> off + z <= len data ->
  put b off (take (Z.to_nat z) (drop (Z.to_nat off) data)) = Some b' ->
  agrees b' data off z /\ len b' = len b /\
  forall o' z', (forall x, o' <= x < o' + z' -> off <= x < off + z -> False) -> agrees b data o' z' -> agrees b' data o' z'.
Proof.
  intros H0 Hz Hd Hp. unfold put in Hp. destruct (_ && _) eqn:Eb; [|done]. injection Hp as <-.
  apply andb_true_iff in Eb as [_ Eb%Z.leb_le].
  assert (length (take (Z.to_nat z) (drop (Z.to_nat off) data)) = Z.to_nat z) as El.
  { rewrite length_take, length_drop. unfold len in Hd. lia. }
  unfold len in Eb. rewrite El in Eb. split_and!.
  - intros x Hx. rewrite list_lookup_inserts by (rewrite ?El; lia).
    rewrite lookup_take_lt by lia. rewrite lookup_drop. f_equal. lia.
  - unfold len. by rewrite length_inserts.
  - intros o' z' Hdis Ha x Hx. rewrite <- (Ha x Hx).
    destruct (decide (Z.of_nat x < off)).
    + apply list_lookup_inserts_lt. lia.
    + apply list_lookup_inserts_ge. rewrite El. destruct (decide (Z.of_nat x < off + z)); [|lia].
      exfalso. apply (Hdis (Z.of_nat x)); lia.
Qed.

(** A buffer that agrees on all pieces holds the message. *)
Lemma agrees_all b data : len data <= len b -> (forall o, o ∈ offsets n data -> agrees b data o (pieceLen n data o)) ->
  get b 0 (len data) = Some data.
Proof.
  intros Hl Ha. unfold get. pose proof (len_nonneg data).
  rewrite !(proj2 (Z.leb_le _ _)) by lia. cbn [andb]. f_equal. unfold len in *. rewrite Nat2Z.id. cbn [Z.to_nat drop].
  apply list_eq. intros x. destruct (decide (x < length data)%nat) as [Hx|Hx].
  - rewrite lookup_take_lt by done.
    destruct (pieces_cover data (Z.of_nat x)) as (o & Ho & Hr); [unfold len; lia|].
    apply (Ha o Ho x Hr).
  - rewrite lookup_take_ge by lia. symmetry. apply lookup_ge_None. lia.
Qed.

(** ** The receiver as a specification

    What the receiver promises: it keeps the pieces received of messages that
    are incomplete, and hands a message on when its last piece arrives. *)

Abbreviation Piece := (Message * Z)%type.

Definition offs (m : Message) (live : list Piece) : list Z := snd <$> filter (fun p => p.1 = m) live.

Definition complete (m : Message) (live : list Piece) : bool :=
  bool_decide (Forall (fun o => o ∈ offs m live) (offsets n (mdata m))).

Definition specStep (live : list Piece) (p : Piece) : list Piece * option bytes :=
  if complete p.1 (p :: live) then (filter (fun q => q.1 <> p.1) live, Some (mdata p.1))
  else (p :: live, None).

Fixpoint specRun (live : list Piece) (ps : list Piece) : list Piece * list (option bytes) :=
  match ps with
  | [] => (live, [])
  | p :: ps' => let '(live1, out) := specStep live p in
                let '(live2, outs) := specRun live1 ps' in (live2, out :: outs)
  end.

(** The messages that are under way. *)
Definition opened (live : list Piece) : list Message := remove_dups (fst <$> live).

(** What is asked of an arrival: a piece of a message the receiver accepts,
    not received yet; no other incomplete message has its number; with it, at
    most three messages are incomplete, unless it is a whole message. *)
Definition validMessage (m : Message) : Prop := is_u 32 (mseq m) /\ len (mdata m) <= MAX_DATA_LEN.

Definition admissible (live : list Piece) (p : Piece) : Prop :=
  validMessage p.1 /\ p.2 ∈ offsets n (mdata p.1) /\ p ∉ live /\
  Forall (fun q => mseq q.1 = mseq p.1 -> q.1 = p.1) live /\
  (pieceLen n (mdata p.1) p.2 = len (mdata p.1) \/
   Z.of_nat (length (opened (p :: live))) <= MAX_CACHE_NUM_PER_CONN).

Fixpoint admissibleRun (live : list Piece) (ps : list Piece) : Prop :=
  match ps with
  | [] => True
  | p :: ps' => admissible live p /\ admissibleRun (specStep live p).1 ps'
  end.

#[global] Instance admissible_dec live p : Decision (admissible live p).
Proof. unfold admissible, validMessage. apply _. Defined.

#[global] Instance admissibleRun_dec live ps : Decision (admissibleRun live ps).
Proof. revert live. induction ps; intros live; cbn [admissibleRun]; apply _. Defined.

(** The code on a sequence of arrivals. *)
Fixpoint receive (conn : BleConnectionInfo) (vs : list bytes) : option (BleConnectionInfo * list (option bytes)) :=
  match vs with
  | [] => Some (conn, [])
  | v :: vs' => '(conn1, out) ← onWrite true conn v (len v);
                '(conn2, outs) ← receive conn1 vs'; Some (conn2, out :: outs)
  end.

(** ** The invariant

    [gs] says which message each cache collects. *)

Definition slotOk (live : list Piece) (c : BleRecvCache) (g : option Message) : Prop :=
  match g with
  | None => isUsed c = 0 /\ forall b, cache c = Some b -> len b = MAX_DATA_LEN
  | Some m =>
      isUsed c = 1 /\ cseq c = mseq m /\ currentSize c = sum (pieceLen n (mdata m) <$> offs m live) /\
      exists b, cache c = Some b /\ len b = MAX_DATA_LEN /\
        forall o, o ∈ offs m live -> agrees b (mdata m) o (pieceLen n (mdata m) o)
  end.

Definition distinct (gs : list (option Message)) : Prop :=
  forall i j m m', gs !! i = Some (Some m) -> gs !! j = Some (Some m') -> mseq m = mseq m' -> i = j.

Record ready (cs : list BleRecvCache) (gs : list (option Message)) (live : list Piece) : Prop := {
  ready_slots : Forall2 (slotOk live) cs gs;
  ready_three : length cs = 3%nat;
  ready_distinct : distinct gs;
  ready_member : forall p, p ∈ live -> Some p.1 ∈ gs;
  ready_pieces : forall p, p ∈ live -> validMessage p.1 /\ p.2 ∈ offsets n (mdata p.1);
  ready_nodup : NoDup live;
}.

Definition Inv (cs : list BleRecvCache) (live : list Piece) : Prop :=
  exists gs, ready cs gs live /\ (forall m, Some m ∈ gs -> exists o, (m, o) ∈ live).

Lemma elem_offs m o live : o ∈ offs m live <-> (m, o) ∈ live.
Proof.
  unfold offs. rewrite list_elem_of_fmap. split.
  - intros ([m' o'] & -> & H). apply list_elem_of_filter in H as [E H]. cbn in *. by subst.
  - intros H. exists (m, o). split; [done|]. by apply list_elem_of_filter.
Qed.

Lemma offs_cons m p live : offs m (p :: live) = if decide (p.1 = m) then p.2 :: offs m live else offs m live.
Proof. unfold offs. rewrite filter_cons. by destruct (decide _). Qed.

Lemma offs_filter m m' live : m' <> m -> offs m' (filter (fun q => q.1 <> m) live) = offs m' live.
Proof.
  intros Hm. induction live as [|p live IH]; [done|]. rewrite filter_cons. destruct (decide (p.1 <> m)) as [E|E].
  - rewrite !offs_cons, IH. done.
  - rewrite offs_cons, IH. apply dec_stable in E. rewrite decide_False by congruence. done.
Qed.

Lemma NoDup_offs m live : NoDup live -> NoDup (offs m live).
Proof.
  intros H. unfold offs. apply NoDup_fmap_2_strong; [|by apply NoDup_filter].
  intros [a x] [b y] [E1 _]%list_elem_of_filter [E2 _]%list_elem_of_filter E. cbn in *. congruence.
Qed.

(** A message is complete when the sizes of its pieces add up. *)
Lemma complete_sum m live : NoDup live -> (forall p, p ∈ live -> p.2 ∈ offsets n (mdata p.1)) ->
  (sum (pieceLen n (mdata m) <$> offs m live) =? len (mdata m)) = complete m live.
Proof.
  intros Hnd Hp. unfold complete. apply eq_true_iff_eq. rewrite Z.eqb_eq, bool_decide_eq_true, Forall_forall.
  apply sum_complete; [by apply NoDup_offs|]. intros o Ho%elem_offs. apply (Hp _ Ho).
Qed.

(** ** The head of a fragment *)

Lemma fragment_head m o : validMessage m -> o ∈ offsets n (mdata m) ->
  let h := MkHeader (mseq m) (pieceLen n (mdata m) o) o (len (mdata m)) in
  GetTransHeader (fragment n m o) (len (fragment n m o)) = Some (SOFTBUS_OK, h) /\
  get (fragment n m o) HEADER_SIZE (pieceLen n (mdata m) o) =
    Some (take (Z.to_nat (pieceLen n (mdata m) o)) (drop (Z.to_nat o) (mdata m))).
Proof.
  intros [Hs Hl] Ho. destruct (pieceLen_pos _ _ Ho) as (H0 & Hz & Ht). unfold MAX_DATA_LEN in Hl. cbv zeta.
  unfold fragment.
  set (z := pieceLen n (mdata m) o) in *. set (part := take _ _).
  assert (len part = z) as Ep.
  { unfold part, len. rewrite length_take, length_drop. unfold len in Ht. lia. }
  destruct (header_reads (mseq m) z o (len (mdata m)) part) as (G0 & G1 & G2 & G3);
    [done|unfold is_u; lia..|].
  split.
  - unfold GetTransHeader. rewrite G0, G1, G2, G3. cbn [mbind option_bind].
    rewrite len_app, len_header, Ep.
    replace (HEADER_SIZE + z - HEADER_SIZE) with z by lia. rewrite !wrapU_id by (unfold is_u; lia).
    rewrite Z.eqb_refl, !(proj2 (Z.ltb_ge _ _)) by (unfold MAX_DATA_LEN; lia). done.
  - rewrite <- (app_nil_r part) at 1. apply get_app; [by rewrite len_header|by rewrite Ep].
Qed.

(** ** Finding the cache of a message *)

Lemma ready_slot cs gs live i m : ready cs gs live -> gs !! i = Some (Some m) ->
  exists c, cs !! i = Some c /\ slotOk live c (Some m).
Proof. intros H Hi. destruct (Forall2_lookup_r _ _ _ _ _ (ready_slots _ _ _ H) Hi) as (c & Hc & Hs). eauto. Qed.

Lemma ready_used cs gs live i c : ready cs gs live -> cs !! i = Some c -> isUsed c <> 0 ->
  exists m, gs !! i = Some (Some m) /\ slotOk live c (Some m).
Proof.
  intros H Hi Hu. destruct (Forall2_lookup_l _ _ _ _ _ (ready_slots _ _ _ H) Hi) as ([m|] & Hg & Hs); [by eauto|].
  by destruct Hs as [E _].
Qed.

Lemma ready_unused cs gs live i c : ready cs gs live -> cs !! i = Some c -> isUsed c = 0 ->
  gs !! i = Some None /\ slotOk live c None.
Proof.
  intros H Hi Hu. destruct (Forall2_lookup_l _ _ _ _ _ (ready_slots _ _ _ H) Hi) as ([m|] & Hg & Hs); [|done].
  destruct Hs as [E _]. congruence.
Qed.

(** Three caches in use hold three messages: with a fourth, too many are
    incomplete. *)
Lemma free_slot cs gs live p : ready cs gs live -> (forall m, Some m ∈ gs -> exists o, (m, o) ∈ live) ->
  Some p.1 ∉ gs -> Z.of_nat (length (opened (p :: live))) <= MAX_CACHE_NUM_PER_CONN ->
  exists c, c ∈ cs /\ isUsed c = 0.
Proof.
  intros H Hne Hp Hle. destruct (decide (Exists (fun c => isUsed c = 0) cs)) as [He|He]; [by apply Exists_exists|exfalso].
  apply not_Exists_Forall in He; [|apply _].
  assert (forall i, (i < 3)%nat -> exists m, gs !! i = Some (Some m)) as Hall.
  { intros i Hi. rewrite <- (ready_three _ _ _ H) in Hi. apply lookup_lt_is_Some_2 in Hi as [c Hc].
    destruct (ready_used _ _ _ _ _ H Hc) as (m & Hm & _); [by apply (Forall_lookup_1 _ _ _ _ He Hc)|eauto]. }
  destruct (Hall 0%nat) as [m0 E0], (Hall 1%nat) as [m1 E1], (Hall 2%nat) as [m2 E2]; [lia..|].
  assert (NoDup [p.1; m0; m1; m2]) as Hnd.
  { assert (forall i m, gs !! i = Some (Some m) -> p.1 <> m).
    { intros i m E <-. apply Hp. by apply list_elem_of_lookup_2 in E. }
    assert (forall i j m, gs !! i = Some (Some m) -> gs !! j = Some (Some m) -> i = j).
    { intros i j m Ei Ej. by apply (ready_distinct _ _ _ H i j m m Ei Ej). }
    assert (p.1 <> m0 /\ p.1 <> m1 /\ p.1 <> m2 /\ m0 <> m1 /\ m0 <> m2 /\ m1 <> m2) as Hd.
    { split_and!; [by eauto..| | |]; intros ->;
        [specialize (H1 0%nat 1%nat _ E0 E1)|specialize (H1 0%nat 2%nat _ E0 E2)|specialize (H1 1%nat 2%nat _ E1 E2)]; done. }
    repeat (apply NoDup_cons; split); [set_solver..|apply NoDup_nil_2]. }
  assert ([p.1; m0; m1; m2] ⊆+ opened (p :: live)) as Hsub.
  { apply NoDup_submseteq; [done|]. intros m Hm. unfold opened. apply elem_of_remove_dups. cbn.
    assert (m = p.1 \/ Some m ∈ gs) as [->|Hg].
    { apply list_elem_of_lookup_2 in E0, E1, E2. set_solver. }
    - by left.
    - right. destruct (Hne m Hg) as [o Ho]. apply list_elem_of_fmap. by exists (m, o). }
  apply submseteq_length in Hsub. cbn [length] in Hsub. unfold MAX_CACHE_NUM_PER_CONN in Hle. lia.
Qed.

Lemma find_slot cs gs live p h : ready cs gs live -> (forall m, Some m ∈ gs -> exists o, (m, o) ∈ live) ->
  seq h = mseq p.1 -> (forall q, q ∈ live -> mseq q.1 = mseq p.1 -> q.1 = p.1) ->
  Z.of_nat (length (opened (p :: live))) <= MAX_CACHE_NUM_PER_CONN ->
  exists cs1 gs1 i, FindAvailableCacheIndex true cs h = Some (cs1, inl (Z.of_nat i)) /\
    ready cs1 gs1 live /\ gs1 !! i = Some (Some p.1) /\
    (forall m, Some m ∈ gs1 -> m = p.1 \/ exists o, (m, o) ∈ live).
Proof.
  intros H Hne Hh Huniq Hle. destruct (decide (Some p.1 ∈ gs)) as [Hin|Hnin].
  - apply list_elem_of_lookup in Hin as [i Hi]. destruct (ready_slot _ _ _ _ _ H Hi) as (c & Hc & Hu & Hs & _).
    exists cs, gs, i. split_and!; try done; [|by eauto].
    apply find_known with c; [by apply H|done|done|congruence|].
    intros j c' Hc' Hu' Hs'. destruct (ready_used _ _ _ _ _ H Hc' Hu') as (m' & Hg & _ & Hs'' & _).
    apply (ready_distinct _ _ _ H j i m' p.1); congruence.
  - destruct (find_free cs h) as (i & c & b & Hc & Hu & Hb & Ef).
    + apply H.
    + intros c [j Hj]%list_elem_of_lookup Hu E. destruct (ready_used _ _ _ _ _ H Hj Hu) as (m' & Hg & _ & Hs & _).
      apply Hnin. apply list_elem_of_lookup_2 in Hg. destruct (Hne m' Hg) as [o Ho].
      pose proof (Huniq (m', o) Ho) as E'. cbn in E'. rewrite <- E' by congruence. done.
    + by apply (free_slot cs gs live p).
    + intros c b [j Hj]%list_elem_of_lookup Hu. by apply (ready_unused _ _ _ _ _ H Hj Hu).
    + destruct (ready_unused _ _ _ _ _ H Hc Hu) as [Hg _].
      assert (offs p.1 live = []) as E0.
      { destruct (offs p.1 live) as [|o l] eqn:E; [done|]. exfalso. apply Hnin.
        apply (ready_member _ _ _ H (p.1, o)). apply elem_offs. rewrite E. by left. }
      assert (i < length gs)%nat as Hlt by (apply lookup_lt_is_Some; eauto).
      exists (<[i := MkCache 1 (seq h) 0 (Some b)]> cs), (<[i := Some p.1]> gs), i.
      split_and!; [done| |by apply list_lookup_insert_eq|].
      * destruct H as [H1 H2 H3 H4 H5 H6]. split; try done.
        -- apply Forall2_insert; [done|]. cbn. rewrite E0. split_and!; try done. exists b. split_and!; try done. set_solver.
        -- by rewrite length_insert.
        -- intros j k m m' Hj Hk E. apply list_lookup_insert_Some in Hj, Hk.
           destruct Hj as [(<- & [= <-] & _)|[Hj1 Hj]], Hk as [(<- & [= <-] & _)|[Hk1 Hk]]; try done.
           ++ exfalso. apply Hnin. apply list_elem_of_lookup_2 in Hk. destruct (Hne _ Hk) as [o Ho].
              pose proof (Huniq _ Ho) as E'. cbn in E'. by rewrite <- E'.
           ++ exfalso. apply Hnin. apply list_elem_of_lookup_2 in Hj. destruct (Hne _ Hj) as [o Ho].
              pose proof (Huniq _ Ho) as E'. cbn in E'. by rewrite <- E'.
           ++ by apply (H3 j k m m').
        -- intros q Hq. apply H4 in Hq as [j Hj]%list_elem_of_lookup. apply list_elem_of_lookup. exists j.
           rewrite list_lookup_insert_ne; [done|]. intros <-. congruence.
      * intros m [j Hj]%list_elem_of_lookup. apply list_lookup_insert_Some in Hj.
        destruct Hj as [(_ & [= <-] & _)|[_ Hj]]; [by left|]. right. apply Hne. by apply list_elem_of_lookup_2 in Hj.
Qed.

(** ** One arrival *)

(** A slot depends on the pieces of its own message only. *)
Lemma slotOk_ext live live' c g : (forall m, g = Some m -> offs m live' = offs m live) ->
  slotOk live c g -> slotOk live' c g.
Proof. destruct g as [m|]; [|done]. intros E. cbn. by rewrite (E m eq_refl). Qed.

Lemma offs_none m live : offs m live = [] -> filter (fun q => q.1 <> m) live = live.
Proof.
  induction live as [|p live IH]; [done|]. rewrite offs_cons, filter_cons. destruct (decide (p.1 = m)) as [E|E]; [done|].
  intros H. rewrite decide_True by done. by rewrite IH.
Qed.

Lemma offs_bound m live : NoDup live -> (forall p, p ∈ live -> p.2 ∈ offsets n (mdata p.1)) ->
  0 <= sum (pieceLen n (mdata m) <$> offs m live) <= len (mdata m).
Proof.
  intros Hnd Hp. apply sum_bound; [by apply NoDup_offs|]. intros o Ho%elem_offs. apply (Hp _ Ho).
Qed.

Lemma ready_cons cs gs live p : ready cs gs live -> admissible live p ->
  NoDup (p :: live) /\ forall q, q ∈ p :: live -> validMessage q.1 /\ q.2 ∈ offsets n (mdata q.1).
Proof.
  intros H (Hv & Ho & Hn' & _). split; [apply NoDup_cons; split; [done|apply H]|].
  intros q [->|Hq]%elem_of_cons; [done|]. by apply (ready_pieces _ _ _ H).
Qed.

(** Storing a piece in the cache of its message. *)
Lemma store_piece cs gs live p i : ready cs gs live -> admissible live p -> gs !! i = Some (Some p.1) ->
  let z := pieceLen n (mdata p.1) p.2 in
  exists c b b', cs !! i = Some c /\ cache c = Some b /\
    memcpy_s b p.2 (u32 (MAX_DATA_LEN - p.2)) (take (Z.to_nat z) (drop (Z.to_nat p.2) (mdata p.1))) z = Some (true, b') /\
    slotOk (p :: live) (MkCache (isUsed c) (cseq c) (u32 (currentSize c + z)) (Some b')) (Some p.1).
Proof.
  intros H Ha Hi z. destruct (ready_slot _ _ _ _ _ H Hi) as (c & Hc & Hu & Hs & Hcur & b & Hb & Hl & Hag).
  destruct (ready_cons _ _ _ _ H Ha) as [Hnd Hall]. destruct Ha as ((_ & Hm) & Ho & Hn' & _).
  destruct (pieceLen_pos _ _ Ho) as (H0 & Hz & Ht). fold z in Hz, Ht.
  set (part := take (Z.to_nat z) (drop (Z.to_nat p.2) (mdata p.1))).
  assert (len part = z) as Ep. { unfold part, len. rewrite length_take, length_drop. unfold len in Ht. lia. }
  unfold MAX_DATA_LEN in *.
  assert (exists b', put b p.2 part = Some b') as [b' Hb'].
  { unfold put. rewrite !(proj2 (Z.leb_le _ _)) by lia. cbn. by eauto. }
  destruct (put_agrees b (mdata p.1) p.2 z b' H0 ltac:(lia) Ht Hb') as (A1 & A2 & A3).
  exists c, b, b'. split_and!; try done.
  - apply memcpy_s_fits; [|done|done]. rewrite wrapU_id by (unfold is_u; lia). lia.
  - pose proof (offs_bound p.1 (p :: live) Hnd (fun q Hq => proj2 (Hall q Hq))) as Hbd.
    cbn [slotOk isUsed cseq currentSize cache]. rewrite offs_cons, decide_True in * by done.
    rewrite fmap_cons, sum_cons in *. fold z in Hbd |- *.
    split_and!; [done|done|rewrite wrapU_id by (unfold is_u; lia); lia|].
    exists b'. split_and!; [done|by rewrite A2|]. intros o [->|Ho']%elem_of_cons; [done|].
    apply A3; [|by apply Hag]. intros x Hx1 Hx2. apply elem_offs in Ho' as Hlive.
    assert (o ∈ offsets n (mdata p.1)) as Hoo by apply (Hall (p.1, o) ltac:(by right)).
    assert (o = p.2) as -> by (by apply (pieces_disjoint (mdata p.1) o p.2 x)).
    apply Hn'. by destruct p.
Qed.

Lemma Forall2_update {A B} (P Q : A -> B -> Prop) cs gs i c g : Forall2 P cs gs -> Q c g ->
  (forall j c' g', j <> i -> gs !! j = Some g' -> P c' g' -> Q c' g') ->
  Forall2 Q (<[i := c]> cs) (<[i := g]> gs).
Proof.
  intros H Hc Ho. apply Forall2_same_length_lookup_2; [rewrite !length_insert; by apply Forall2_length in H|].
  intros j c' g' [(<- & <- & _)|[Hj Hc']]%list_lookup_insert_Some.
  - by intros [(_ & <- & _)|[? _]]%list_lookup_insert_Some.
  - intros [(-> & _)|[_ Hg']]%list_lookup_insert_Some; [done|].
    apply (Ho j); [done|done|]. by apply (Forall2_lookup_lr _ _ _ _ _ _ H Hc' Hg').
Qed.

(** Another slot is of another message. *)
Lemma other_slot gs i j m m' : distinct gs -> gs !! i = Some (Some m) -> gs !! j = Some (Some m') -> j <> i -> m' <> m.
Proof. intros Hd Hi Hj Hne ->. apply Hne. by apply (Hd j i m m). Qed.

(** Storing leaves a good state: with the piece, or without its message. *)
Lemma store_ready cs gs live p i c : ready cs gs live -> admissible live p -> gs !! i = Some (Some p.1) ->
  slotOk (p :: live) c (Some p.1) -> ready (<[i := c]> cs) gs (p :: live).
Proof.
  intros H Ha Hi Hc. destruct (ready_cons _ _ _ _ H Ha) as [Hnd Hall]. destruct H as [H1 H2 H3 H4 H5 H6].
  split; try done; [|by rewrite length_insert|].
  - rewrite <- (list_insert_id gs i (Some p.1)) by done. apply Forall2_update with (slotOk live); [done|done|].
    intros j c' g' Hj Hg. apply slotOk_ext. intros m ->. rewrite offs_cons. apply decide_False.
    intros E. by apply (other_slot gs i j p.1 m).
  - intros q [->|Hq]%elem_of_cons; [by apply list_elem_of_lookup_2 in Hi|by apply H4].
Qed.

Lemma free_ready cs gs live m i c : ready cs gs live -> gs !! i = Some (Some m) -> isUsed c = 0 -> cache c = None ->
  ready (<[i := c]> cs) (<[i := None]> gs) (filter (fun q => q.1 <> m) live).
Proof.
  intros [H1 H2 H3 H4 H5 H6] Hi Hu Hb. split.
  - apply Forall2_update with (slotOk live); [done|by split; [|rewrite Hb]|]. intros j c' g' Hj Hg.
    apply slotOk_ext. intros m' ->. apply offs_filter. by apply (other_slot gs i j m m').
  - by rewrite length_insert.
  - intros j k m1 m2 Hj Hk. apply list_lookup_insert_Some in Hj as [(_ & ? & _)|[_ Hj]]; [done|].
    apply list_lookup_insert_Some in Hk as [(_ & ? & _)|[_ Hk]]; [done|]. by apply H3.
  - intros q [Hq1 Hq]%list_elem_of_filter. apply H4 in Hq as [j Hj]%list_elem_of_lookup.
    apply list_elem_of_lookup. exists j. rewrite list_lookup_insert_ne; [done|]. intros <-. congruence.
  - intros q [_ Hq]%list_elem_of_filter. by apply H5.
  - by apply NoDup_filter.
Qed.

(** A message in one piece takes no cache. *)
Lemma onWrite_whole cs live p mt : Inv cs live -> admissible live p -> pieceLen n (mdata p.1) p.2 = len (mdata p.1) ->
  onWrite true (MkConn mt cs) (fragment n p.1 p.2) (len (fragment n p.1 p.2)) =
    Some (MkConn mt cs, (specStep live p).2) /\ Inv cs (specStep live p).1.
Proof.
  intros [gs [H Hne]] Ha Hz. destruct (ready_cons _ _ _ _ H Ha) as [Hnd Hall]. destruct Ha as (Hv & Ho & Hn' & _).
  destruct (pieceLen_pos _ _ Ho) as (H0 & Hpos & Ht). destruct (fragment_head p.1 p.2 Hv Ho) as [E1 E2].
  pose proof (offs_bound p.1 (p :: live) Hnd (fun q Hq => proj2 (Hall q Hq))) as Hb.
  pose proof (complete_sum p.1 (p :: live) Hnd (fun q Hq => proj2 (Hall q Hq))) as Hc.
  rewrite offs_cons, decide_True, fmap_cons, sum_cons in Hb, Hc by done.
  assert (offs p.1 live = []) as En.
  { destruct (offs p.1 live) as [|o l] eqn:E; [done|].
    assert (0 < sum (pieceLen n (mdata p.1) <$> o :: l)); [|lia]. apply sum_positive. rewrite <- E.
    intros q Hq%elem_offs. apply (Hall _ ltac:(by right)). }
  rewrite En in Hc. unfold specStep. rewrite <- Hc. cbn [fmap list_fmap sum foldr]. rewrite Z.add_0_r, Hz, Z.eqb_refl.
  cbn [fst snd]. rewrite offs_none by done. split; [|by exists gs].
  unfold onWrite, BleTransRecv. rewrite E1. cbn [mbind option_bind negb Z.eqb SOFTBUS_OK size total].
  rewrite Hz, Z.eqb_refl. rewrite Hz in E2. rewrite E2. cbn [mbind option_bind index bytes_of].
  replace p.2 with 0 by lia. cbn [Z.to_nat drop]. unfold len. rewrite Nat2Z.id, firstn_all. done.
Qed.

(** ** One arrival refines one step *)
Lemma onWrite_step cs live p mt : Inv cs live -> admissible live p ->
  exists cs', onWrite true (MkConn mt cs) (fragment n p.1 p.2) (len (fragment n p.1 p.2)) =
    Some (MkConn mt cs', (specStep live p).2) /\ Inv cs' (specStep live p).1.
Proof.
  intros HI Ha. destruct (decide (pieceLen n (mdata p.1) p.2 = len (mdata p.1))) as [Hz|Hz];
    [exists cs; by apply onWrite_whole|].
  destruct HI as [gs [H Hne]]. pose proof Ha as (Hv & Ho & Hn' & Huniq & [?|Hle]); [done|].
  rewrite Forall_forall in Huniq.
  destruct (fragment_head p.1 p.2 Hv Ho) as [E1 E2].
  set (h := MkHeader _ _ _ _) in E1.
  destruct (find_slot cs gs live p h H Hne eq_refl Huniq Hle) as (cs1 & gs1 & i & Ef & H1 & Hi & Hne1).
  destruct (store_piece cs1 gs1 live p i H1 Ha Hi) as (c & b & b' & Hc & Hb & Em & Hslot).
  set (c' := MkCache _ _ _ _) in Hslot. pose proof (store_ready cs1 gs1 live p i c' H1 Ha Hi Hslot) as H2.
  destruct (ready_cons _ _ _ _ H1 Ha) as [Hnd Hall].
  pose proof (complete_sum p.1 (p :: live) Hnd (fun q Hq => proj2 (Hall q Hq))) as Hcomp.
  assert (currentSize c' = sum (pieceLen n (mdata p.1) <$> offs p.1 (p :: live))) as Hcur by apply Hslot.
  rewrite <- Hcur in Hcomp. unfold specStep. rewrite <- Hcomp.
  unfold onWrite, BleTransRecv. rewrite E1. cbn [mbind option_bind negb Z.eqb SOFTBUS_OK size total h].
  rewrite (proj2 (Z.eqb_neq _ _) Hz). cbn [recvCache mtu]. fold h. rewrite Ef. cbn [mbind option_bind].
  rewrite Nat2Z.id, Hc. cbn [mbind option_bind]. rewrite Hb. cbn [mbind option_bind]. rewrite E2. cbn [mbind option_bind offset h].
  rewrite Em. cbn [mbind option_bind negb]. change (u32 (currentSize c + _)) with (currentSize c'). fold c'.
  assert (i < length cs1)%nat as Hlt by (apply lookup_lt_is_Some; eauto).
  destruct (currentSize c' =? len (mdata p.1)) eqn:Eq; cbn [fst snd].
  - assert (get b' 0 (len (mdata p.1)) = Some (mdata p.1)) as ->.
    { destruct Hslot as (_ & _ & _ & b2 & [= <-] & Hl & Hag). symmetry in Hcomp. unfold complete in Hcomp.
      rewrite bool_decide_eq_true, Forall_forall in Hcomp.
      apply agrees_all; [rewrite Hl; apply Hv|]. intros o Hoo. apply Hag, Hcomp, Hoo. }
    cbn [mbind option_bind index bytes_of]. rewrite (proj2 (Z.eqb_neq (Z.of_nat i) (-1))) by lia.
    unfold BleTransCacheFree. cbn [negb recvCache mtu]. rewrite Nat2Z.id, list_lookup_insert_eq by done.
    cbn [mbind option_bind]. eexists. split; [done|].
    pose proof (free_ready _ _ _ p.1 i (MkCache 0 (cseq c') (currentSize c') None) H2 Hi eq_refl eq_refl) as H3.
    rewrite filter_cons, decide_False in H3 by (intros ?; done).
    exists (<[i := None]> gs1). split; [done|].
    intros m [j Hj]%list_elem_of_lookup. apply list_lookup_insert_Some in Hj as [(_ & ? & _)|[Hij Hj]]; [done|].
    pose proof (other_slot gs1 i j p.1 m (ready_distinct _ _ _ H1) Hi Hj ltac:(done)) as Hm.
    apply list_elem_of_lookup_2 in Hj. destruct (Hne1 m Hj) as [?|[o Ho']]; [done|].
    exists o. by apply list_elem_of_filter.
  - eexists. split; [done|]. exists gs1. split; [done|]. intros m Hm. destruct (Hne1 m Hm) as [->|[o Ho']].
    + exists p.2. rewrite <- surjective_pairing. by left.
    + exists o. by right.
Qed.

Lemma receive_refines cs live ps mt : Inv cs live -> admissibleRun live ps ->
  exists cs', receive (MkConn mt cs) ((fun p => fragment n p.1 p.2) <$> ps) =
    Some (MkConn mt cs', (specRun live ps).2) /\ Inv cs' (specRun live ps).1.
Proof.
  revert cs live. induction ps as [|p ps IH]; intros cs live HI Ha; [by exists cs|].
  destruct Ha as [Ha1 Ha2]. destruct (onWrite_step cs live p mt HI Ha1) as (cs1 & E1 & H1).
  destruct (IH cs1 _ H1 Ha2) as (cs2 & E2 & H2). exists cs2. cbn [fmap list_fmap receive specRun].
  rewrite E1. cbn [mbind option_bind]. rewrite E2.
  destruct (specStep live p) as [live1 out]. cbn [fst snd] in *. by destruct (specRun live1 ps).
Qed.

(** ** Sending *)

(** Handing fragments to the stack one after the other, up to the first
    failure. *)
Fixpoint sendRef (mem : nat -> bool) (hal : nat -> Z) (k : nat) (frs : list bytes) : Z * list bytes :=
  match frs with
  | [] => (SOFTBUS_OK, [])
  | f :: frs' =>
      if negb (mem k) then (SOFTBUS_MALLOC_ERR, [])
      else if negb (hal k =? SOFTBUS_OK) then (hal k, [f])
      else let '(r, l) := sendRef mem hal (S k) frs' in (r, f :: l)
  end.

Definition fragmentsFrom (m : Message) (k : nat) : list bytes :=
  (fun i => fragment n m (Z.of_nat i * n)) <$> List.seq k (pieces (mdata m) - k).

Lemma sendLoop_spec mem hal data sq fuel k sent : is_u 32 n -> is_u 32 sq -> len data + HEADER_SIZE <= MAX_MALLOC_SIZE ->
  let pos := Z.min (Z.of_nat k * n) (len data) in
  len data - pos <= Z.of_nat fuel ->
  sendLoop fuel mem hal data (len data) n sq k (len data - pos) pos pos sent =
    Some (let '(r, l) := sendRef mem hal k (fragmentsFrom (MkMessage sq data) k) in (Some r, sent ++ l)).
Proof.
  intros Hu Hsq Hmax. revert k sent. unfold HEADER_SIZE, MAX_MALLOC_SIZE in Hmax. pose proof (len_nonneg data) as Hd.
  induction fuel as [|fuel IH]; intros k sent pos Hf.
  all: pose proof (pieces_spec data k) as Hk; unfold fragmentsFrom; cbn [mdata].
  - cbn [sendLoop]. rewrite (proj2 (Z.ltb_ge _ _)) by lia. assert (pieces data - k = 0)%nat as -> by lia.
    cbn. by rewrite app_nil_r.
  - cbn [sendLoop]. destruct (Z.ltb_spec 0 (len data - pos)) as [Hp|Hp]; cbn [negb]; cycle 1.
    { assert (pieces data - k = 0)%nat as -> by lia. cbn. by rewrite app_nil_r. }
    assert (pos = Z.of_nat k * n) as Epos by lia.
    assert (pieces data - k = S (pieces data - S k))%nat as -> by lia. cbn [List.seq fmap list_fmap].
    set (z := if n <? len data - pos then n else len data - pos).
    assert (z = pieceLen n data pos) as Ez. { unfold z, pieceLen. destruct (Z.ltb_spec n (len data - pos)); lia. }
    assert (0 < z <= len data - pos) as Hz by (unfold z; destruct (Z.ltb_spec n (len data - pos)); lia).
    assert (SoftBusCalloc (mem k) (u32 (z + HEADER_SIZE)) = mem k) as ->.
    { unfold SoftBusCalloc, SoftBusMalloc, HEADER_SIZE, MAX_MALLOC_SIZE. rewrite wrapU_id by (unfold is_u; lia).
      rewrite (proj2 (Z.ltb_ge _ _)) by lia. by destruct (mem k). }
    cbn [sendRef]. destruct (mem k); cbn [negb]; [|by rewrite app_nil_r].
    assert (get data pos z = Some (take (Z.to_nat z) (drop (Z.to_nat pos) data))) as ->.
    { unfold get. by rewrite !(proj2 (Z.leb_le _ _)) by lia. }
    cbn [mbind option_bind]. rewrite (wrapU_id 32 sq) by done.
    assert (header_bytes (MkHeader sq z pos (len data)) ++ take (Z.to_nat z) (drop (Z.to_nat pos) data) =
      fragment n (MkMessage sq data) (Z.of_nat k * n)) as ->.
    { unfold fragment. cbn [mdata mseq]. by rewrite <- Epos, <- Ez. }
    destruct (hal k =? SOFTBUS_OK); cbn [negb]; [|done].
    assert (pos + z = Z.min (Z.of_nat (S k) * n) (len data)) as Enext. { unfold pieceLen in Ez. lia. }
    rewrite !wrapU_id by (unfold is_u; lia).
    replace (len data - pos - z) with (len data - (pos + z)) by lia. rewrite Enext, IH by lia.
    unfold fragmentsFrom. cbn [mdata]. destruct (sendRef _ _ _ _) as [r l]. by rewrite <- app_assoc.
Qed.

(** ** Messages sent in order *)

Definition piecesOf (m : Message) : list Piece := (fun o => (m, o)) <$> offsets n (mdata m).

Lemma specRun_app live a b : specRun live (a ++ b) =
  let '(l1, o1) := specRun live a in let '(l2, o2) := specRun l1 b in (l2, o1 ++ o2).
Proof.
  revert live. induction a as [|p a IH]; intros live; cbn [app specRun]; [by destruct (specRun live b)|].
  destruct (specStep live p) as [l out]. rewrite IH. destruct (specRun l a) as [l1 o1]. by destruct (specRun l1 b).
Qed.

Lemma admissibleRun_app live a b : admissibleRun live a -> admissibleRun (specRun live a).1 b ->
  admissibleRun live (a ++ b).
Proof.
  revert live. induction a as [|p a IH]; intros live; [done|]. cbn [app admissibleRun specRun]. intros [H1 H2] Hb.
  split; [done|]. apply IH; [done|]. destruct (specStep live p) as [l out]. cbn [fst] in *. by destruct (specRun l a).
Qed.

Lemma offs_same m (L : list Z) : offs m ((fun o => (m, o)) <$> L) = L.
Proof. induction L as [|o L IH]; [done|]. rewrite fmap_cons, offs_cons, decide_True by done. by rewrite IH. Qed.

Lemma filter_same m (L : list Z) : filter (fun q : Piece => q.1 <> m) ((fun o => (m, o)) <$> L) = [].
Proof.
  induction L as [|x L IH]; [done|]. rewrite fmap_cons, filter_cons, IH. rewrite decide_False; [done|].
  intros H. by apply H.
Qed.

Lemma opened_same m (L : list Z) : (length (opened ((fun o => (m, o)) <$> L)) <= 1)%nat.
Proof.
  assert (opened ((fun o => (m, o)) <$> L) ⊆+ [m]) as H%submseteq_length; [|done].
  apply NoDup_submseteq; [apply NoDup_remove_dups|]. intros m' H. apply elem_of_remove_dups, list_elem_of_fmap in H as (q & -> & (o & -> & _)%list_elem_of_fmap). by left.
Qed.

(** The rest of a message whose first pieces have arrived. *)
Lemma in_order m front rest : validMessage m -> offsets n (mdata m) = front ++ rest -> rest <> [] ->
  let live := (fun o => (m, o)) <$> reverse front in
  let ps := (fun o => (m, o)) <$> rest in
  admissibleRun live ps /\ (specRun live ps).1 = [] /\ omap id (specRun live ps).2 = [mdata m].
Proof.
  intros Hv. revert front. induction rest as [|o rest IH]; intros front E Hne; [done|]. cbv zeta.
  set (live := _ <$> reverse front). rewrite fmap_cons. cbn [admissibleRun specRun].
  pose proof (NoDup_offsets (mdata m)) as Hnd. rewrite E in Hnd.
  assert ((m, o) ∉ live) as Hnew.
  { intros (x & [= <-] & Hx)%list_elem_of_fmap. rewrite elem_of_reverse in Hx.
    apply NoDup_app in Hnd as (_ & Hd & _). apply (Hd o Hx). by left. }
  assert ((m, o) :: live = (fun o => (m, o)) <$> reverse (front ++ [o])) as El.
  { rewrite reverse_app. done. }
  assert (admissible live (m, o)) as Ha.
  { split_and!; try done; cbn [fst snd].
    - rewrite E. apply elem_of_app. right. by left.
    - apply Forall_forall. by intros q (x & -> & _)%list_elem_of_fmap.
    - right. rewrite El. pose proof (opened_same m (reverse (front ++ [o]))). unfold MAX_CACHE_NUM_PER_CONN. lia. }
  unfold specStep. cbn [fst]. destruct (complete m ((m, o) :: live)) eqn:Ec.
  - unfold complete in Ec. rewrite El, offs_same, bool_decide_eq_true, Forall_forall in Ec.
    assert (rest = []) as ->.
    { destruct rest as [|y rest]; [done|]. exfalso. specialize (Ec y). rewrite elem_of_reverse in Ec.
      assert (y ∈ front ++ [o]) as Hy. { apply Ec. rewrite E. set_solver. }
      replace (front ++ o :: y :: rest) with ((front ++ [o]) ++ y :: rest) in Hnd by (by rewrite <- app_assoc).
      apply NoDup_app in Hnd as (_ & Hd & _). apply (Hd y Hy). by left. }
    assert (filter (fun q : Piece => q.1 <> m) live = []) as Ef by apply filter_same.
    cbn [fst snd]. rewrite Ef. done.
  - rewrite El in *. destruct rest as [|y rest].
    { exfalso. unfold complete in Ec. rewrite offs_same in Ec. apply bool_decide_eq_false in Ec. apply Ec.
      apply Forall_forall. intros x Hx. rewrite elem_of_reverse. by rewrite <- E. }
    destruct (IH (front ++ [o])) as (I1 & I2 & I3); [by rewrite <- app_assoc|done|]. cbn [fst snd].
    split_and!; [done|done| |]; destruct (specRun _ (fmap _ (y :: rest))) as [l2 o2] eqn:E2; cbn [fst snd omap list_omap id] in *; done.
Qed.

Lemma messages_in_order ms : Forall (fun m => validMessage m /\ mdata m <> []) ms ->
  let ps := ms ≫= piecesOf in
  admissibleRun [] ps /\ (specRun [] ps).1 = [] /\ omap id (specRun [] ps).2 = mdata <$> ms.
Proof.
  induction 1 as [|m ms [Hv Hd] _ IH]; [done|]. cbv zeta in *. rewrite bind_cons.
  assert (offsets n (mdata m) <> []) as Hne.
  { intros E. destruct (mdata m) as [|x d] eqn:Ed; [done|].
    assert (0 ∈ offsets n (x :: d)) as H0 by (apply elem_offsets; exists 0%nat; rewrite len_cons; pose proof (len_nonneg d); lia).
    rewrite E in H0. by apply elem_of_nil in H0. }
  destruct (in_order m [] (offsets n (mdata m)) Hv eq_refl Hne) as (A1 & A2 & A3).
  destruct IH as (I1 & I2 & I3). fold (piecesOf m) in A1, A2, A3.
  change (fmap _ (reverse [])) with (@nil Piece) in A1, A2, A3. split_and!.
  - apply admissibleRun_app; [done|]. by rewrite A2.
  - rewrite specRun_app. destruct (specRun [] (piecesOf m)) as [l1 o1]. cbn [fst] in A2. subst l1.
    by destruct (specRun [] (ms ≫= piecesOf)).
  - rewrite specRun_app. destruct (specRun [] (piecesOf m)) as [l1 o1]. cbn [fst snd] in *. subst l1.
    destruct (specRun [] (ms ≫= piecesOf)) as [l2 o2]. cbn [snd] in *. by rewrite omap_app, A3, I3.
Qed.

End Messages.

(** ** What holds for any bytes *)

Definition cacheOk (c : BleRecvCache) : Prop :=
  (forall b, cache c = Some b -> len b = MAX_DATA_LEN) /\ (isUsed c <> 0 -> cache c <> None).

Definition wfConn (conn : BleConnectionInfo) : Prop :=
  length (recvCache conn) = 3%nat /\ Forall cacheOk (recvCache conn).

Lemma scan_range cs sq : length cs = 3%nat -> exists (i : nat) av, scan cs sq 0 (-1) = (Z.of_nat i, av) /\
  (-1 <= av < 3) /\ ((i < 3)%nat -> exists c, cs !! i = Some c /\ isUsed c <> 0) /\ (i <= 3)%nat.
Proof.
  destruct cs as [|c0 [|c1 [|c2 [|]]]]; try done. intros _. cbn [scan].
  destruct (Z.eqb_spec (isUsed c0) 0), (Z.eqb_spec (isUsed c1) 0), (Z.eqb_spec (isUsed c2) 0),
    (Z.eqb_spec (cseq c0) sq), (Z.eqb_spec (cseq c1) sq), (Z.eqb_spec (cseq c2) sq);
    first [ by exists 0%nat, (-1); split_and!; eauto; lia | by exists 1%nat, (-1); split_and!; eauto; lia
          | by exists 2%nat, (-1); split_and!; eauto; lia | by exists 3%nat, (-1); split_and!; eauto; lia
          | by exists 1%nat, 0; split_and!; eauto; lia | by exists 2%nat, 0; split_and!; eauto; lia
          | by exists 2%nat, 1; split_and!; eauto; lia | by exists 3%nat, 0; split_and!; eauto; lia
          | by exists 3%nat, 1; split_and!; eauto; lia | by exists 3%nat, 2; split_and!; eauto; lia ].
Qed.

Lemma find_safe mem mt cs h : wfConn (MkConn mt cs) ->
  exists cs' r, FindAvailableCacheIndex mem cs h = Some (cs', r) /\ wfConn (MkConn mt cs') /\
    (forall i, r = inl i -> exists c b, cs' !! Z.to_nat i = Some c /\ cache c = Some b).
Proof.
  intros [Hl Hf]. cbn in Hl, Hf. unfold FindAvailableCacheIndex.
  destruct (scan_range cs (seq h) Hl) as (i & av & -> & Hav & Hi & Hi3). unfold MAX_CACHE_NUM_PER_CONN.
  destruct (Z.eqb_spec (Z.of_nat i) 3) as [E3|E3]; cbn [andb].
  - destruct (Z.eqb_spec av (-1)); [by exists cs, (inr SOFTBUS_ERR)|].
    destruct (lookup_lt_is_Some_2 cs (Z.to_nat av)) as [c Hc]; [lia|]. rewrite Hc. cbn [mbind option_bind].
    pose proof (Forall_lookup_1 _ _ _ _ Hf Hc) as [Hc1 Hc2].
    assert (forall c', cacheOk c' -> wfConn (MkConn mt (<[Z.to_nat av := c']> cs))) as Hw.
    { intros c' Hc'. split; cbn; [by rewrite length_insert|by apply Forall_insert]. }
    destruct (cache c) as [b|] eqn:Eb; [|destruct (SoftBusCalloc mem MAX_DATA_LEN)];
      eexists _, _; (split; [done|]); (split; [apply Hw; split; cbn; try done; naive_solver|]).
    + intros j [= <-]. rewrite list_lookup_insert_eq by lia. eauto.
    + intros j [= <-]. rewrite list_lookup_insert_eq by lia. eauto.
    + done.
  - exists cs, (inl (Z.of_nat i)). split_and!; [done|done|]. intros j [= <-]. rewrite Nat2Z.id.
    destruct (Hi ltac:(lia)) as (c & Hc & Hu). pose proof (Forall_lookup_1 _ _ _ _ Hf Hc) as [_ Hc2].
    destruct (cache c) as [b|] eqn:Eb; [by eauto|]. by destruct (Hc2 Hu).
Qed.

(** The head of a value of at least 16 bytes can be read. *)
Lemma head_safe value : is_bytes value -> HEADER_SIZE <= len value < 2 ^ 32 ->
  exists ret h, GetTransHeader value (len value) = Some (ret, h) /\
    (ret = SOFTBUS_OK -> size h = len value - HEADER_SIZE /\ u32 (size h + offset h) <= total h <= MAX_DATA_LEN /\
       is_u 32 (offset h)).
Proof.
  intros Hb Hl. unfold HEADER_SIZE in Hl.
  destruct (get32_inside value 0) as (s & E0 & _); [done|lia..|].
  destruct (get32_inside value 4) as (z & E1 & Hz); [done|lia..|].
  destruct (get32_inside value 8) as (o & E2 & Ho); [done|lia..|].
  destruct (get32_inside value 12) as (t & E3 & _); [done|lia..|].
  unfold GetTransHeader. rewrite E0, E1, E2, E3. cbn [mbind option_bind].
  destruct (_ || _) eqn:E; eexists _, _; (split; [done|]); [done|]. intros _. cbn.
  rewrite !orb_false_iff, negb_false_iff, Z.eqb_eq, !Z.ltb_ge in E. destruct E as [[[Ez Ht] _] Hm].
  split; [|done]. rewrite Ez. unfold HEADER_SIZE. apply wrapU_id. unfold is_u. lia.
Qed.

(** Receiving, given a head that does not wrap. *)
Lemma recv_safe mem conn value : wfConn conn -> is_bytes value -> HEADER_SIZE <= len value < 2 ^ 32 ->
  (forall h, GetTransHeader value (len value) = Some (SOFTBUS_OK, h) -> size h + offset h < 2 ^ 32) ->
  exists conn' r, BleTransRecv mem conn value (len value) = Some (conn', r) /\ wfConn conn' /\
    (forall m, r = Some m -> index m = -1 \/ (Z.to_nat (index m) < 3)%nat).
Proof.
  intros Hw Hb Hl Hh. destruct (head_safe value Hb Hl) as (ret & h & E & Hok). unfold BleTransRecv. rewrite E.
  cbn [mbind option_bind]. destruct (Z.eqb_spec ret SOFTBUS_OK) as [->|]; cbn [negb]; [|by exists conn, None].
  specialize (Hh h E). destruct (Hok eq_refl) as (Hz & [Ht Hm] & Ho). unfold is_u, HEADER_SIZE, MAX_DATA_LEN in *.
  rewrite wrapU_id in Ht by (unfold is_u; lia).
  destruct (get_inside value 16 (size h)) as (part & Ep & Elen & _); [lia..|].
  destruct (Z.eqb_spec (size h) (total h)) as [Es|Es].
  { rewrite <- Es. rewrite Ep. eexists _, _. split_and!; [done|done|]. intros m [= <-]. by left. }
  destruct conn as [mt cs]. destruct (find_safe mem mt cs h Hw) as (cs' & r & Ef & Hw' & Hr).
  cbn [recvCache mtu]. rewrite Ef. cbn [mbind option_bind]. destruct r as [i|e]; [|by eexists _, _].
  destruct (Hr i eq_refl) as (c & b & Hc & Hcb). rewrite Hc. cbn [mbind option_bind]. rewrite Hcb. cbn [mbind option_bind].
  rewrite Ep. cbn [mbind option_bind]. destruct Hw' as [Hl' Hf']. cbn in Hl', Hf'.
  pose proof (Forall_lookup_1 _ _ _ _ Hf' Hc) as [Hc1 _]. specialize (Hc1 b Hcb). unfold MAX_DATA_LEN in Hc1.
  assert (exists b', put b (offset h) part = Some b' /\ len b' = 4096) as (b' & Hb' & Hlb').
  { unfold put. rewrite !(proj2 (Z.leb_le _ _)) by lia. eexists. split; [done|]. unfold len. by rewrite length_inserts. }
  rewrite (memcpy_s_fits _ _ _ _ _ b'); [|rewrite wrapU_id by (unfold is_u; lia); lia|done|done].
  cbn [mbind option_bind negb].
  assert (forall u s z, wfConn (MkConn mt (<[Z.to_nat i := MkCache u s z (Some b')]> cs'))) as Hwi.
  { intros u s z. split; cbn; [by rewrite length_insert|]. apply Forall_insert; [done|]. split; cbn; [|done]. by intros ? [= <-]. }
  destruct (_ =? total h).
  - destruct (get_inside b' 0 (total h)) as (m & Em & _); [lia..|]. rewrite Em. cbn [mbind option_bind].
    eexists _, _. split_and!; [done|apply Hwi|]. intros m' [= <-]. right. cbn. rewrite <- Hl'. by apply lookup_lt_is_Some_1.
  - eexists _, _. split_and!; [done|apply Hwi|done].
Qed.

(** ** Properties *)

Definition freshConn (mt : Z) : BleConnectionInfo := MkConn mt (replicate 3 (MkCache 0 0 0 None)).

Lemma fresh_inv n mt : Inv n (recvCache (freshConn mt)) [].
Proof.
  exists (replicate 3 None). split.
  - split; try done.
    + by repeat constructor.
    + intros i j m m' H. apply lookup_replicate in H as [? _]. done.
    + intros p H. by apply elem_of_nil in H.
    + intros p H. by apply elem_of_nil in H.
    + apply NoDup_nil_2.
  - intros m H. apply elem_of_replicate in H as [? _]. done.
Qed.

(** C12: [BleTransRecv] and [BleTransCacheFree], as the write callback calls
    them, refine the specification of the receiver: for pieces of any number of
    messages in any order and interleaving, with at most three messages
    incomplete and no two of these under one number, a message is handed on
    with the piece that completes it, with exactly its bytes, and nothing else
    is handed on. *)
Theorem ble_reassembly n mt ps : 0 < n -> admissibleRun n [] ps ->
  exists conn', receive (freshConn mt) ((fun p => fragment n p.1 p.2) <$> ps) = Some (conn', (specRun n [] ps).2) /\
    Inv n (recvCache conn') (specRun n [] ps).1.
Proof.
  intros Hn Ha. destruct (receive_refines n Hn _ [] ps mt (fresh_inv n mt) Ha) as (cs' & E & HI).
  exists (MkConn mt cs'). by split.
Qed.

(** [BleTransSend] hands the fragments on, up to the first failure. *)
Lemma BleTransSend_spec mem hal conn data sq : MTU_HEADER_SIZE + HEADER_SIZE < mtu conn < 2 ^ 31 -> is_u 32 sq ->
  len data + HEADER_SIZE <= MAX_MALLOC_SIZE ->
  let n := mtu conn - MTU_HEADER_SIZE - HEADER_SIZE in
  BleTransSend (length data) mem hal conn data (len data) sq =
    Some (let '(r, l) := sendRef mem hal 0 (fragment n (MkMessage sq data) <$> offsets n data) in (Some r, l)).
Proof.
  intros Hm Hsq Hl n. unfold BleTransSend. fold n. unfold MTU_HEADER_SIZE, HEADER_SIZE in Hm, n.
  rewrite wrapU_id by (unfold is_u; lia). pose proof (len_nonneg data).
  pose proof (sendLoop_spec n ltac:(lia) mem hal data sq (length data) 0 [] ltac:(unfold is_u; lia) Hsq Hl) as E.
  cbv zeta in E. replace (Z.min (Z.of_nat 0 * n) (len data)) with 0 in E by lia.
  rewrite Z.sub_0_r in E. rewrite E by (unfold len; lia).
  unfold fragmentsFrom, offsets, pieces. rewrite <- list_fmap_compose, Nat.sub_0_r. cbn [mdata].
  by destruct (sendRef _ _ _ _).
Qed.

Lemma sendRef_all k frs : sendRef (fun _ => true) (fun _ => SOFTBUS_OK) k frs = (SOFTBUS_OK, frs).
Proof. revert k. induction frs as [|f frs IH]; intros k; [done|]. cbn [sendRef]. by rewrite IH. Qed.

Lemma fragment_len n m o : 0 < n -> o ∈ offsets n (mdata m) -> len (fragment n m o) <= n + HEADER_SIZE.
Proof.
  intros Hn Ho. destruct (pieceLen_pos n Hn _ _ Ho) as (_ & Hz & Ht). unfold fragment. rewrite len_app, len_header.
  unfold len at 1. rewrite length_take. unfold pieceLen in *. lia.
Qed.

Lemma concat_fragments n ms : concat ((fun m => fragment n m <$> offsets n (mdata m)) <$> ms) =
  (fun p => fragment n p.1 p.2) <$> (ms ≫= piecesOf n).
Proof.
  induction ms as [|m ms IH]; [done|]. rewrite fmap_cons, bind_cons, fmap_app. cbn [concat]. rewrite IH.
  unfold piecesOf. by rewrite <- list_fmap_compose.
Qed.

(** C27: Messages sent with [BleTransSend] over a connection arrive: with an
    MTU above 19, every message of at most 4096 bytes is cut into pieces that
    fit the MTU, and the other side's callback hands on exactly the messages
    in the order in which they were sent, whatever their numbers. *)
Theorem ble_roundtrip mt ms : MTU_HEADER_SIZE + HEADER_SIZE < mt < 2 ^ 31 ->
  Forall (fun m => validMessage m /\ mdata m <> []) ms ->
  exists frs : list (list bytes),
    Forall2 (fun m fr => BleTransSend (length (mdata m)) (fun _ => true) (fun _ => SOFTBUS_OK) (freshConn mt)
                           (mdata m) (len (mdata m)) (mseq m) = Some (Some SOFTBUS_OK, fr) /\
                         Forall (fun v => len v <= mt - MTU_HEADER_SIZE) fr) ms frs /\
    exists conn' outs, receive (freshConn mt) (concat frs) = Some (conn', outs) /\ omap id outs = mdata <$> ms.
Proof.
  intros Hm Hms. set (n := mt - MTU_HEADER_SIZE - HEADER_SIZE).
  assert (0 < n) as Hn by (unfold n; lia).
  exists ((fun m => fragment n m <$> offsets n (mdata m)) <$> ms). split.
  - apply Forall2_fmap_r, Forall_Forall2_diag. apply (Forall_impl _ _ _ Hms). intros m [[Hsq Hl] _]. split.
    + rewrite BleTransSend_spec; [|done|done|unfold MAX_DATA_LEN, HEADER_SIZE, MAX_MALLOC_SIZE in *; lia].
      rewrite sendRef_all. by destruct m.
    + apply Forall_fmap, Forall_forall. intros o Ho. pose proof (fragment_len n m o Hn Ho). unfold compose, n in *. lia.
  - rewrite concat_fragments. destruct (messages_in_order n Hn ms Hms) as (H1 & H2 & H3).
    destruct (receive_refines n Hn _ [] _ mt (fresh_inv n mt) H1) as (cs' & E & _). eauto.
Qed.

(** C28: The receiver stays inside its caches: for any value of at least 16
    bytes whose size and offset do not wrap around, whatever its head and
    whether memory is available, the callback returns, and the connection
    keeps its three caches of 4096 bytes. *)
Theorem ble_recv_bounds mem conn value : wfConn conn -> is_bytes value -> HEADER_SIZE <= len value < 2 ^ 32 ->
  (forall h, GetTransHeader value (len value) = Some (SOFTBUS_OK, h) -> size h + offset h < 2 ^ 32) ->
  exists conn' out, onWrite mem conn value (len value) = Some (conn', out) /\ wfConn conn'.
Proof.
  intros Hw Hb Hl Hh. destruct (recv_safe mem conn value Hw Hb Hl Hh) as (conn1 & r & E & Hw1 & Hi).
  unfold onWrite. rewrite E. cbn [mbind option_bind]. destruct r as [m|]; [|by eauto].
  destruct (Z.eqb_spec (index m) (-1)) as [|Hne]; cbn [negb]; [by eauto|].
  destruct (Hi m eq_refl) as [|Hlt]; [done|]. unfold BleTransCacheFree. destruct conn1 as [mt cs], Hw1 as [H3 Hf].
  cbn [recvCache mtu] in *. destruct (lookup_lt_is_Some_2 cs (Z.to_nat (index m))) as [c Hc]; [lia|]. rewrite Hc.
  cbn [mbind option_bind]. eexists _, _. split; [done|].
  split; cbn; [by rewrite length_insert|]. apply Forall_insert; [done|]. by split.
Qed.

(** Without the last hypothesis this fails: a head of size 2 and offset
    2^32 - 1 passes the check of [GetTransHeader], because their sum wraps
    around, and the copy is to an address far outside the cache. *)
Lemma ble_forged_offset :
  let v := header_bytes (MkHeader 1 2 (2 ^ 32 - 1) 3) ++ [7; 7] in
  (exists h, GetTransHeader v (len v) = Some (SOFTBUS_OK, h)) /\ onWrite true (freshConn 100) v (len v) = None.
Proof. split; [eexists; by vm_compute|by vm_compute]. Qed.

(** With an MTU of 19 no fragment carries data, and the loop of
    [BleTransSend] does not end. *)
Lemma ble_small_mtu fuel data sq : data <> [] -> len data < 2 ^ 32 ->
  exists sent, BleTransSend fuel (fun _ => true) (fun _ => SOFTBUS_OK) (freshConn 19) data (len data) sq = Some (None, sent).
Proof.
  intros Hd Hl. unfold BleTransSend. change (u32 (mtu (freshConn 19) - MTU_HEADER_SIZE - HEADER_SIZE)) with 0.
  assert (0 < len data) as Hp by (by destruct data).
  assert (forall k sent, exists sent', sendLoop fuel (fun _ => true) (fun _ => SOFTBUS_OK) data (len data) 0 sq k (len data) 0 0 sent
    = Some (None, sent')) as H; [|apply H].
  induction fuel as [|fuel IH]; intros k sent; cbn [sendLoop]; rewrite (proj2 (Z.ltb_lt _ _) Hp); cbn [negb]; [by eauto|].
  assert (get data 0 0 = Some []) as -> by (unfold get; by rewrite !(proj2 (Z.leb_le _ _)) by lia).
  cbn [mbind option_bind]. rewrite Z.sub_0_r, (wrapU_id 32 (len data)) by (unfold is_u; lia). apply IH.
Qed.

(** ** Witnesses *)

Definition twoMessages : list (Message * Z) :=
  let a := MkMessage 1 [10; 11; 12; 13; 14] in let b := MkMessage 2 [20; 21; 22] in
  [(a, 4); (b, 2); (a, 0); (b, 0); (a, 2)].

Lemma ble_reassembly_witness : exists conn',
  receive (freshConn 21) ((fun p => fragment 2 p.1 p.2) <$> twoMessages) =
    Some (conn', [None; None; None; Some [20; 21; 22]; Some [10; 11; 12; 13; 14]]).
Proof.
  destruct (ble_reassembly 2 21 twoMessages) as (conn' & E & _).
  - lia.
  - by apply (bool_decide_unpack (admissibleRun 2 [] twoMessages)); vm_compute.
  - exists conn'. rewrite E. by vm_compute.
Defined.

Lemma ble_roundtrip_witness : exists frs : list (list bytes),
  length <$> frs = [3; 2]%nat /\
  exists conn' outs, receive (freshConn 21) (concat frs) = Some (conn', outs) /\
    omap id outs = [[10; 11; 12; 13; 14]; [20; 21; 22]].
Proof.
  destruct (ble_roundtrip 21 [MkMessage 1 [10; 11; 12; 13; 14]; MkMessage 1 [20; 21; 22]]) as (frs & H & conn' & outs & E & Eo).
  - unfold MTU_HEADER_SIZE, HEADER_SIZE. lia.
  - repeat constructor; cbn; unfold is_u, MAX_DATA_LEN; try done; lia.
  - exists frs. split; [|by eauto].
    apply Forall2_cons_inv_l in H as (f1 & l1 & [E1 _] & H & ->).
    apply Forall2_cons_inv_l in H as (f2 & l2 & [E2 _] & H & ->).
    apply Forall2_nil_inv_l in H as ->. vm_compute in E1, E2. injection E1 as <-. injection E2 as <-. done.
Defined.

Lemma ble_recv_bounds_witness : exists conn' out,
  onWrite false (freshConn 100) (header_bytes (MkHeader 1 2 5 9) ++ [7; 7]) 18 = Some (conn', out) /\ wfConn conn'.
Proof.
  apply (ble_recv_bounds false (freshConn 100) (header_bytes (MkHeader 1 2 5 9) ++ [7; 7])).
  - split; [done|]. by repeat constructor.
  - by apply (bool_decide_unpack _).
  - by vm_compute.
  - intros h E. vm_compute in E. injection E as <-. by vm_compute.
Defined.

End BleTrans.
