(* ===== verification/SendQueue.v ===== *)
(** * The send queues of the Bluetooth connections

    Models [core/connection/br/src/br_connection_queue.c] and
    [core/connection/ble/src/softbus_ble_queue.c].  Every process that sends
    has a queue per priority, kept in a list the sending thread walks round
    robin; messages of the bus itself have queues of their own, which go
    first.

    - [Fifo]: what these files ask of [softbus_queue.c], as a class with laws;
      [lockFreeFifo] discharges it with the theorems of [Queue].
    - [PidQueues]: the list of queues and what it means.
    - [Br]: enqueue, which may wait for room and release the lock meanwhile,
      and dequeue.  [br_send_queue] is the order of what is stored and the
      meaning of the answers over every schedule, with the cases in which the
      code goes wrong.
    - [Ble]: the same without waiting.

    An object keeps its address, so that a thread can hold on to a queue that
    was destroyed in the meantime: using it has no result. *)

From S2P Require Import Prelude Errno Adapter Queue.
Import Errno Adapter.Mem.

Module SendQueue.

(** ** The interface of a queue *)

Class Fifo (Q : Type) := {
  fifo_create : bool -> Z -> option Q;
  fifo_enqueue : Z -> Q -> option (Z * Q);          (* QueueMultiProducerEnqueue *)
  fifo_dequeue : Q -> option (Z * Z * Q);           (* QueueSingleConsumerDequeue *)
  fifo_count : Q -> Z + Z;                          (* QueueCountGet *)
}.

(** [contents q l cap]: [q] holds [l] and has room for [cap] messages. *)
Class FifoLaws (Q : Type) `{Fifo Q} := {
  contents : Q -> list Z -> Z -> Prop;
  create_law (mem : bool) (k : Z) : 0 <= k <= 13 ->
    if mem then exists q, fifo_create true (2 ^ k) = Some q /\ contents q [] (2 ^ k - 1)
    else fifo_create false (2 ^ k) = None;
  enqueue_law (q : Q) (l : list Z) (cap n : Z) : contents q l cap -> n <> 0 ->
    exists q' r, fifo_enqueue n q = Some (r, q') /\
      if Z.of_nat (length l) <? cap then r = 0 /\ contents q' (l ++ [n]) cap
      else r <> 0 /\ contents q' l cap;
  dequeue_law (q : Q) (l : list Z) (cap : Z) : contents q l cap ->
    exists q' r v, fifo_dequeue q = Some (r, v, q') /\
      match l with
      | [] => r <> 0 /\ contents q' [] cap
      | x :: tl => r = 0 /\ v = x /\ contents q' tl cap
      end;
  count_law (q : Q) (l : list Z) (cap : Z) : contents q l cap -> fifo_count q = inl (Z.of_nat (length l)) /\ Z.of_nat (length l) <= cap;
}.

(** [softbus_queue.c].  One thread enqueues at a time, so the call runs
    through the program points of [Queue.step] without interference. *)
Fixpoint runAlone (fuel : nat) (q : Queue.LockFreeQueue) (pc : Queue.PC) : option (Z * Queue.LockFreeQueue) :=
  match pc, fuel with
  | Queue.PDone ret, _ => Some (ret, q)
  | _, O => None
  | _, S fuel' => '(q', pc', _) ← Queue.step q pc; runAlone fuel' q' pc'
  end.

#[export] Instance lockFreeFifo : Fifo Queue.LockFreeQueue := {
  fifo_create := Queue.CreateQueue;
  fifo_enqueue n q := runAlone 8 q (Queue.QueueMultiProducerEnqueue n);
  fifo_dequeue q := '(r, v, oq) ← Queue.QueueSingleConsumerDequeue (Some q) false 0; q' ← oq; Some (r, v, q');
  fifo_count q := Queue.QueueCountGet (Some q) false;
}.

Lemma runAlone_next f q pc q' pc' ev : Queue.step q pc = Some (q', pc', ev) -> (forall r, pc <> Queue.PDone r) ->
  runAlone (S f) q pc = runAlone f q' pc'.
Proof. intros E Hd. cbn [runAlone]. rewrite E. destruct pc; try done. by destruct (Hd ret). Qed.

(** Run alone, the thread-safe enqueue is the thread-unsafe one. *)
Lemma runAlone_single k c q l n : Queue.holds k c q l -> n <> 0 ->
  exists r q', runAlone 8 q (Queue.QueueMultiProducerEnqueue n) = Some (r, q') /\
    Queue.QueueSingleProducerEnqueue (Some q) n = Some (r, Some q').
Proof.
  intros H Hn. rewrite (Queue.enqueue_holds k c q l n H Hn).
  destruct H as [Hk Hm Hph Hpt Hch Hct Hl Hs Hno]. pose proof (Queue.size_bound k Hk).
  unfold Queue.QueueMultiProducerEnqueue. rewrite (proj2 (Z.eqb_neq n 0)) by done.
  erewrite runAlone_next by done. rewrite Hph.
  assert (u32 (u32 (Queue.producer_mask q + Queue.consumer_tail q) - u32 (c + Z.of_nat (length l))) =
    2 ^ k - 1 - Z.of_nat (length l)) as Er by (rewrite Hm, Hct, Queue.producer_room by lia; lia).
  destruct (Z.ltb_spec (Z.of_nat (length l)) (2 ^ k - 1)).
  - erewrite runAlone_next; [|cbn [Queue.step]; rewrite Er, (proj2 (Z.ltb_ge _ _)) by lia; done|done].
    erewrite runAlone_next; [|cbn [Queue.step]; unfold Queue.SoftBusAtomicCmpAndSwap32; rewrite Hph, Z.eqb_refl; done|done].
    erewrite runAlone_next; [|cbn [Queue.step]; Queue.qfields; rewrite Hm, Queue.store_idx by (Queue.qfields; lia); done|done].
    erewrite runAlone_next; [|cbn [Queue.step]; Queue.qfields; rewrite Hpt, Z.eqb_refl; done|done].
    erewrite runAlone_next by done. erewrite runAlone_next by done. Queue.qfields.
    cbn [runAlone]. rewrite Hpt, Queue.counter_succ. by eauto.
  - erewrite runAlone_next; [|cbn [Queue.step]; rewrite Er, (proj2 (Z.ltb_lt _ _)) by lia; done|done].
    cbn [runAlone]. by eauto.
Qed.

#[export] Instance lockFreeFifoLaws : FifoLaws Queue.LockFreeQueue.
Proof.
  refine {| contents q l cap := exists k c, Queue.holds k c q l /\ cap = 2 ^ k - 1 |}.
  - intros mem k Hk. destruct mem; cbn [fifo_create lockFreeFifo].
    + destruct (Queue.create_holds k Hk) as (q & E & H). eauto 10.
    + unfold Queue.CreateQueue. destruct (Queue.create_sizes k Hk) as (-> & size & -> & _). done.
  - intros q l cap n (k & c & H & ->) Hn. destruct (runAlone_single k c q l n H Hn) as (r & q' & E1 & E2).
    destruct (Queue.fifo_holds k c q l n 0 H Hn) as ((q1 & r1 & E3 & Hr) & _). rewrite E2 in E3. injection E3 as -> ->.
    exists q1, r1. split; [exact E1|]. destruct (_ <? _).
    + destruct Hr as [-> Hq]. eauto 10.
    + destruct Hr as [-> ->]. split; [done|eauto 10].
  - intros q l cap (k & c & H & ->). destruct (Queue.fifo_holds k c q l 1 0 H ltac:(lia)) as (_ & (q' & r & v & E & Hr) & _).
    exists q', r, v. cbn [fifo_dequeue lockFreeFifo]. rewrite E. split; [done|]. destruct l as [|x tl].
    + destruct Hr as (-> & -> & ->). split; [done|eauto 10].
    + destruct Hr as (-> & -> & Hq). eauto 10.
  - intros q l cap (k & c & H & ->). destruct (Queue.fifo_holds k c q l 1 0 H ltac:(lia)) as (_ & _ & E & _).
    split; [exact E|apply H].
Defined.

(** ** Messages and queues *)

(** What the files read of a message ([SendBrQueueNode], [SendQueueNode]);
    a message is its address. *)
Record SendNode := MkNode { npid : Z; nflag : Z; nisInner : bool }.

Definition CONN_MIDDLE : Z := 2.
Definition CONN_HIGH : Z := 3.

Definition HIGH_PRIORITY : nat := 0.
Definition MIDDLE_PRIORITY : nat := 1.
Definition LOW_PRIORITY : nat := 2.

Definition GetPriority (flag : Z) : nat :=
  if flag =? CONN_HIGH then HIGH_PRIORITY
  else if flag =? CONN_MIDDLE then MIDDLE_PRIORITY
  else LOW_PRIORITY.

(** [BrQueue] and [BleQueue], with their address. *)
Record PidQueue (Q : Type) := MkPidQueue { addr : nat; pid : Z; queue : list Q }.
Arguments MkPidQueue {Q}. Arguments addr {Q}. Arguments pid {Q}. Arguments queue {Q}.

(** [g_innerQueue], the list, and the next address the allocator gives. *)
Record Lists (Q : Type) := MkLists { inner : option (PidQueue Q); items : list (PidQueue Q); next : nat }.
Arguments MkLists {Q}. Arguments inner {Q}. Arguments items {Q}. Arguments next {Q}.

(** Where a thread has a queue from. *)
Inductive Owner := Inner | Item (a : nat).

(** An enqueue that waits: the message, the queue it holds on to, and [retry]. *)
Record Waiting := MkWaiting { wmsg : Z; wprio : nat; wowner : Owner; wretry : Z }.

Section Operations.

Context {Q : Type} `{Fifo Q} (attr : Z -> SendNode).

(** [sizeof(BrQueue)] and [sizeof(BleQueue)] on a 64-bit target. *)
Definition SIZEOF_PidQueue : Z := 48.

Fixpoint createLoop (mem : nat -> bool) (i : nat) (limits : list Z) : option (list Q) :=
  match limits with
  | [] => Some []
  | l :: limits' =>
      match fifo_create (mem i) l with
      | None => None
      | Some q => cons q <$> createLoop mem (S i) limits'
      end
  end.

Definition createQueue (limits : list Z) (mem : nat -> bool) (a : nat) (p : Z) : option (PidQueue Q) :=
  if negb (SoftBusCalloc (mem 0%nat) SIZEOF_PidQueue) then None
  else MkPidQueue a p <$> createLoop mem 1 limits.

(** The queue of a priority: none when the object is gone. *)
Definition ownerOf (st : Lists Q) (o : Owner) : option (PidQueue Q) :=
  match o with
  | Inner => inner st
  | Item a => snd <$> list_find (fun x => addr x = a) (items st)
  end.

Definition queueAt (st : Lists Q) (o : Owner) (prio : nat) : option Q :=
  x ← ownerOf st o; queue x !! prio.

Definition setQueue (prio : nat) (q : Q) (x : PidQueue Q) : PidQueue Q :=
  MkPidQueue (addr x) (pid x) (<[prio := q]> (queue x)).

Definition setAt (st : Lists Q) (o : Owner) (prio : nat) (q : Q) : Lists Q :=
  match o with
  | Inner => MkLists (setQueue prio q <$> inner st) (items st) (next st)
  | Item a => MkLists (inner st) ((fun x => if decide (addr x = a) then setQueue prio q x else x) <$> items st) (next st)
  end.

(** [QueueMultiProducerEnqueue] on a queue of the lists. *)
Definition enqueueAt (st : Lists Q) (o : Owner) (prio : nat) (msg : Z) : option (Z * Lists Q) :=
  q ← queueAt st o prio;
  '(r, q') ← fifo_enqueue msg q;
  Some (r, setAt st o prio q').

(** The entry of a process: the first in the list with its number. *)
Definition findPid (p : Z) (st : Lists Q) : option (PidQueue Q) :=
  snd <$> list_find (fun x => pid x = p) (items st).

(** [ListTailInsert] of a new object. *)
Definition append (x : PidQueue Q) (st : Lists Q) : Lists Q :=
  MkLists (inner st) (items st ++ [x]) (S (next st)).

(** ** [br_connection_queue.c] *)

Definition BR_QUEUE_LIMIT : list Z := [32; 32; 32].
Definition WAIT_QUEUE_BUFFER_PERIOD_LEN : Z := 2.
Definition WAIT_RETRY_NUM : Z := 2.

Definition CreateBrQueue (mem : nat -> bool) (a : nat) (p : Z) : option (PidQueue Q) :=
  createQueue BR_QUEUE_LIMIT mem a p.

(** One round of [WaitQueueLength]: its result, or that it waits on
    [g_sendWaitCond] with this [retry]. *)
Definition WaitQueueLength (q : Q) (maxLen diffLen retry : Z) : Z + Z :=
  match fifo_count q with
  | inr _ => inl SOFTBUS_OK
  | inl queueCount =>
      if queueCount <? u32 (maxLen - diffLen) then inl SOFTBUS_OK
      else
        let retry := retry + 1 in
        if WAIT_RETRY_NUM <? retry then
          if queueCount <? maxLen then inl SOFTBUS_OK else inl SOFTBUS_CONNECTION_ERR_SENDQUEUE_FULL
        else inr retry
  end.

(** How a call goes on: it returns a code, having stored the message or not,
    or it waits, with the lock released. *)
Inductive Outcome := Returned (ret : Z) (stored : bool) | Blocked (w : Waiting).

(** The call from the check of the length on. *)
Definition BrEnqueueWait (st : Lists Q) (w : Waiting) : option (Lists Q * Outcome) :=
  q ← queueAt st (wowner w) (wprio w);
  limit ← BR_QUEUE_LIMIT !! wprio w;
  match WaitQueueLength q limit WAIT_QUEUE_BUFFER_PERIOD_LEN (wretry w) with
  | inr retry => Some (st, Blocked (MkWaiting (wmsg w) (wprio w) (wowner w) retry))
  | inl ret =>
      if negb (ret =? SOFTBUS_OK) then Some (st, Returned ret false)
      else
        '(r, st') ← enqueueAt st (wowner w) (wprio w) (wmsg w);
        match wowner w with
        | Inner => Some (st', Returned r (r =? 0))
        | Item _ => if negb (r =? 0) then Some (st', Returned ret false) else Some (st', Returned SOFTBUS_OK true)
        end
  end.

Definition BrEnqueueNonBlock (lockOk : bool) (mem : nat -> bool) (st : Lists Q) (msg : Z)
  : option (Lists Q * Outcome) :=
  if msg =? 0 then Some (st, Returned SOFTBUS_ERR false)
  else
    let priority := GetPriority (nflag (attr msg)) in
    if negb lockOk then Some (st, Returned SOFTBUS_LOCK_ERR false)
    else if (npid (attr msg) =? 0) && nisInner (attr msg) then
      BrEnqueueWait st (MkWaiting msg priority Inner 0)
    else match findPid (npid (attr msg)) st with
    | Some x => BrEnqueueWait st (MkWaiting msg priority (Item (addr x)) 0)
    | None =>
        match CreateBrQueue mem (next st) (npid (attr msg)) with
        | None => Some (st, Returned SOFTBUS_ERR false)
        | Some x =>
            '(r, st') ← enqueueAt (append x st) (Item (addr x)) priority msg;
            if negb (r =? 0) then Some (st', Returned SOFTBUS_ERR false) else Some (st', Returned SOFTBUS_OK true)
        end
    end.

(** The call after its wait; [condOk] is whether [BrSoftBusCondWait]
    succeeded. *)
Definition BrEnqueueResume (condOk : bool) (st : Lists Q) (w : Waiting) : option (Lists Q * Outcome) :=
  if negb condOk then Some (st, Returned SOFTBUS_ERR false) else BrEnqueueWait st w.

(** The loop of [GetMsg]: the message, whether the queue was almost full, and
    the queues after it. *)
Fixpoint brGetLoop (qs : list Q) (limits : list Z) (isFull : bool) : option (option Z * bool * list Q) :=
  match qs, limits with
  | q :: qs', lim :: limits' =>
      match fifo_count q with
      | inr _ => '(m, f, rest) ← brGetLoop qs' limits' isFull; Some (m, f, q :: rest)
      | inl queueCount =>
          let isFull := u32 (lim - WAIT_QUEUE_BUFFER_PERIOD_LEN) <=? queueCount in
          '(r, v, q') ← fifo_dequeue q;
          if negb (r =? 0) then '(m, f, rest) ← brGetLoop qs' limits' isFull; Some (m, f, q' :: rest)
          else Some (Some v, isFull, q' :: qs')
      end
  | _, _ => Some (None, isFull, qs)
  end.

Definition BrGetMsg (x : PidQueue Q) (isFull : bool) : option (option Z * bool * PidQueue Q) :=
  '(m, f, qs) ← brGetLoop (queue x) BR_QUEUE_LIMIT isFull;
  Some (m, f, MkPidQueue (addr x) (pid x) qs).

(** The code and, when it is [SOFTBUS_OK], the message. *)
Definition BrDequeueNonBlock (lockOk condOk : bool) (st : Lists Q) : option (Z * option Z * Lists Q) :=
  if negb lockOk then Some (SOFTBUS_LOCK_ERR, None, st)
  else
    i ← inner st;
    '(m, isFull, i') ← BrGetMsg i false;
    let st1 := MkLists (Some i') (items st) (next st) in
    match m with
    | Some _ => Some (SOFTBUS_OK, m, st1)
    | None =>
        match items st with
        | [] => Some (if condOk then SOFTBUS_TIMOUT else SOFTBUS_ERR, None, st1)
        | x :: rest =>
            '(m, _, x') ← BrGetMsg x isFull;
            match m with
            | None => Some (SOFTBUS_ERR, None, MkLists (Some i') rest (next st))
            | Some _ => Some (SOFTBUS_OK, m, MkLists (Some i') (rest ++ [x']) (next st))
            end
        end
    end.

Definition BrInnerQueueInit (mutexOk cond1Ok cond2Ok : bool) (mem : nat -> bool) (st : Lists Q) : Z * Lists Q :=
  if negb mutexOk then (SOFTBUS_LOCK_ERR, st)
  else if negb cond1Ok || negb cond2Ok then (SOFTBUS_ERR, st)
  else
    let i := CreateBrQueue mem (next st) 0 in
    (match i with None => SOFTBUS_ERR | Some _ => SOFTBUS_OK end, MkLists i (items st) (S (next st))).

Definition BrInnerQueueDeinit (st : Lists Q) : Lists Q := MkLists None (items st) (next st).

Fixpoint allEmpty (qs : list Q) : bool :=
  match qs with
  | [] => true
  | q :: qs' =>
      match fifo_count q with
      | inr _ => allEmpty qs'
      | inl c => if 0 <? c then false else allEmpty qs'
      end
  end.

Definition IsBrQueueEmpty (st : Lists Q) : option bool :=
  i ← inner st;
  if allEmpty (queue i) then Some (match items st with [] => true | _ => false end) else Some false.

(** ** [softbus_ble_queue.c] *)

Definition BLE_QUEUE_LIMIT : list Z := [32; 32; 16].

Definition CreateBleQueue (mem : nat -> bool) (a : nat) (p : Z) : option (PidQueue Q) :=
  createQueue BLE_QUEUE_LIMIT mem a p.

(** The part under the lock: the code, or the queue the message goes to once
    the lock is released. *)
Definition BleEnqueueFind (lockOk : bool) (mem : nat -> bool) (st : Lists Q) (msg : Z)
  : Lists Q * (Z + Owner) :=
  if msg =? 0 then (st, inl SOFTBUS_ERR)
  else if npid (attr msg) =? 0 then (st, inr Inner)
  else if negb lockOk then (st, inl SOFTBUS_ERR)
  else match findPid (npid (attr msg)) st with
  | Some x => (st, inr (Item (addr x)))
  | None =>
      match CreateBleQueue mem (next st) (npid (attr msg)) with
      | None => (st, inl SOFTBUS_ERR)
      | Some x => (append x st, inr (Item (addr x)))
      end
  end.

Definition BleEnqueueStore (st : Lists Q) (o : Owner) (msg : Z) : option (Z * Lists Q) :=
  enqueueAt st o (GetPriority (nflag (attr msg))) msg.

Fixpoint bleGetLoop (qs : list Q) : option (option Z * list Q) :=
  match qs with
  | [] => Some (None, [])
  | q :: qs' =>
      '(r, v, q') ← fifo_dequeue q;
      if r =? 0 then Some (Some v, q' :: qs')
      else '(m, rest) ← bleGetLoop qs'; Some (m, q' :: rest)
  end.

Definition BleGetMsg (x : PidQueue Q) : option (option Z * PidQueue Q) :=
  '(m, qs) ← bleGetLoop (queue x); Some (m, MkPidQueue (addr x) (pid x) qs).

Definition BleDequeueNonBlock (lockOk : bool) (st : Lists Q) : option (Z * option Z * Lists Q) :=
  i ← inner st;
  '(m, i') ← BleGetMsg i;
  let st1 := MkLists (Some i') (items st) (next st) in
  match m with
  | Some _ => Some (SOFTBUS_OK, m, st1)
  | None =>
      if negb lockOk then Some (SOFTBUS_ERR, None, st1)
      else match items st with
      | [] => Some (SOFTBUS_ERR, None, st1)
      | x :: rest =>
          '(m, x') ← BleGetMsg x;
          match m with
          | Some _ => Some (SOFTBUS_OK, m, MkLists (Some i') (rest ++ [x']) (next st))
          | None => Some (SOFTBUS_ERR, None, MkLists (Some i') rest (next st))
          end
      end
  end.

Definition BleInnerQueueInit (mutexOk : bool) (mem : nat -> bool) (st : Lists Q) : Z * Lists Q :=
  if negb mutexOk then (SOFTBUS_ERR, st)
  else
    let i := CreateBleQueue mem (next st) 0 in
    (match i with None => SOFTBUS_ERR | Some _ => SOFTBUS_OK end, MkLists i (items st) (S (next st))).

Definition BleInnerQueueDeinit (st : Lists Q) : Lists Q := MkLists None (items st) (next st).

End Operations.

(** ** The specification

    The queues as sequences of messages. *)

Abbreviation Entry := (nat * Z * list (list Z))%type.

Record Spec := MkSpec { sinner : list (list Z); sitems : list Entry }.

(** The oldest message of the highest priority that has one. *)
Fixpoint specTake (ls : list (list Z)) : option Z * list (list Z) :=
  match ls with
  | [] => (None, [])
  | [] :: ls' => let '(m, rest) := specTake ls' in (m, [] :: rest)
  | (x :: l) :: ls' => (Some x, l :: ls')
  end.

(** The bus first, then the process whose turn it is; a process without
    messages leaves the round. *)
Definition specDequeue (sp : Spec) : option Z * Spec :=
  let '(m, i) := specTake (sinner sp) in
  match m with
  | Some _ => (m, MkSpec i (sitems sp))
  | None =>
      match sitems sp with
      | [] => (None, sp)
      | (ap, ls) :: rest =>
          let '(m, ls') := specTake ls in
          match m with
          | Some _ => (m, MkSpec (sinner sp) (rest ++ [(ap, ls')]))
          | None => (None, MkSpec (sinner sp) rest)
          end
      end
  end.

Definition specAt (sp : Spec) (o : Owner) : option (list (list Z)) :=
  match o with
  | Inner => Some (sinner sp)
  | Item a => snd <$> (snd <$> list_find (fun y : Entry => y.1.1 = a) (sitems sp))
  end.

Definition snoc (prio : nat) (msg : Z) (ls : list (list Z)) : list (list Z) := alter (fun l => l ++ [msg]) prio ls.

Definition specStore (sp : Spec) (o : Owner) (prio : nat) (msg : Z) : Spec :=
  match o with
  | Inner => MkSpec (snoc prio msg (sinner sp)) (sitems sp)
  | Item a => MkSpec (sinner sp)
      ((fun y : Entry => if decide (y.1.1 = a) then (y.1, snoc prio msg y.2) else y) <$> sitems sp)
  end.

(** Addresses and processes are unique. *)
Record wfSpec (bound : nat) (sp : Spec) : Prop := {
  wf_addr : NoDup ((fun y : Entry => y.1.1) <$> sitems sp);
  wf_pid : NoDup ((fun y : Entry => y.1.2) <$> sitems sp);
  wf_bound : forall y, y ∈ sitems sp -> (y.1.1 < bound)%nat;
}.

(** ** The lists implement the specification *)

Section Refinement.

Context {Q : Type} `{FifoLaws Q} (attr : Z -> SendNode) (limits : list Z).
Context (Hlimits : Forall (fun l => exists k, 0 <= k <= 13 /\ l = 2 ^ k) limits).

Definition implements (qs : list Q) (ls : list (list Z)) : Prop :=
  Forall3 (fun q l lim => contents q l (lim - 1)) qs ls limits.

Definition entryOk (x : PidQueue Q) (y : Entry) : Prop :=
  addr x = y.1.1 /\ pid x = y.1.2 /\ implements (queue x) y.2.

Record abs (st : Lists Q) (sp : Spec) : Prop := {
  abs_inner : exists i, inner st = Some i /\ implements (queue i) (sinner sp);
  abs_items : Forall2 entryOk (items st) (sitems sp);
}.

Lemma contents_le q l lim : contents q l (lim - 1) -> Z.of_nat (length l) < lim.
Proof. intros Hc. destruct (count_law q l (lim - 1) Hc). lia. Qed.

(** Creation gives empty queues. *)
Lemma createLoop_spec mem i lims : Forall (fun l => exists k, 0 <= k <= 13 /\ l = 2 ^ k) lims ->
  match createLoop mem i lims with
  | None => True
  | Some qs => Forall3 (fun q l lim => contents q l (lim - 1)) qs (replicate (length lims) []) lims
  end.
Proof.
  intros Hl. revert i. induction Hl as [|l lims (k & Hk & ->) _ IH]; intros i; cbn [createLoop]; [constructor|].
  pose proof (create_law (mem i) k Hk) as Hc. destruct (mem i); [|by rewrite Hc].
  destruct Hc as (q & -> & Hq). specialize (IH (S i)). destruct (createLoop mem (S i) lims) as [qs|]; [|done].
  cbn. by constructor.
Qed.

Lemma create_spec mem a p x : createQueue limits mem a p = Some x ->
  entryOk x (a, p, replicate (length limits) []).
Proof.
  unfold createQueue. destruct (SoftBusCalloc _ _); [|done]. cbn [negb].
  intros (qs & E & ->)%fmap_Some. pose proof (createLoop_spec mem 1 limits Hlimits) as Hc. rewrite E in Hc.
  by split_and!.
Qed.

(** Finding, changing and adding queues. *)
Lemma find_abs {P : PidQueue Q -> Prop} {P' : Entry -> Prop} `{!forall x, Decision (P x)} `{!forall y, Decision (P' y)} xs ys :
  Forall2 entryOk xs ys -> (forall x y, entryOk x y -> P x <-> P' y) ->
  match list_find P xs, list_find P' ys with
  | Some (i, x), Some (j, y) => i = j /\ entryOk x y
  | None, None => True
  | _, _ => False
  end.
Proof.
  intros Hf HP. induction Hf as [|x y xs ys Hxy Hf IH]; [done|]. cbn.
  destruct (decide (P x)) as [Hx|Hx], (decide (P' y)) as [Hy|Hy]; try done.
  - destruct Hy. by apply (HP x y Hxy).
  - destruct Hx. by apply (HP x y Hxy).
  - destruct (list_find P xs) as [[i x']|], (list_find P' ys) as [[j y']|]; try done. cbn. by destruct IH as [-> IH].
Qed.

Lemma ownerOf_spec st sp o : abs st sp ->
  match specAt sp o with
  | Some ls => exists x, ownerOf st o = Some x /\ implements (queue x) ls
  | None => ownerOf st o = None
  end.
Proof.
  intros [(i & Ei & Hi) Hf]. destruct o as [|a]; cbn [specAt ownerOf]; [by eauto|].
  pose proof (find_abs (P := fun x => addr x = a) (P' := fun y : Entry => y.1.1 = a) _ _ Hf) as Hl.
  destruct (list_find _ (items st)) as [[j x]|], (list_find _ (sitems sp)) as [[k y]|]; cbn [fmap option_fmap option_map];
    try (exfalso; apply Hl; intros ? ? (-> & _); done); [|done].
  destruct Hl as [-> (_ & _ & Hq)]; [by intros ? ? (-> & _)|]. by eauto.
Qed.

Lemma implements_lookup qs ls prio l : implements qs ls -> ls !! prio = Some l ->
  exists q lim, qs !! prio = Some q /\ limits !! prio = Some lim /\ contents q l (lim - 1).
Proof. intros Hf Hl. destruct (Forall3_lookup_m _ _ _ _ _ _ Hf Hl) as (q & lim & ? & ? & ?). by exists q, lim. Qed.

Lemma implements_insert qs ls prio q l lim : implements qs ls -> limits !! prio = Some lim -> contents q l (lim - 1) ->
  implements (<[prio := q]> qs) (<[prio := l]> ls).
Proof.
  intros Hf Hl Hc. unfold implements in *. clear Hlimits. revert prio Hl.
  induction Hf as [|q0 l0 lim0 qs ls lims Hc0 Hf IH]; intros [|prio] Hl; try done.
  - injection Hl as ->. by constructor.
  - constructor; [done|]. by apply IH.
Qed.

(** Changing one queue of an owner. *)
Lemma setAt_spec st sp o prio q ls l l' lim : abs st sp -> specAt sp o = Some ls -> ls !! prio = Some l ->
  NoDup ((fun y : Entry => y.1.1) <$> sitems sp) ->
  limits !! prio = Some lim -> contents q l' (lim - 1) ->
  abs (setAt st o prio q) (match o with
    | Inner => MkSpec (<[prio := l']> (sinner sp)) (sitems sp)
    | Item a => MkSpec (sinner sp) ((fun y : Entry => if decide (y.1.1 = a) then (y.1, <[prio := l']> y.2) else y) <$> sitems sp)
    end).
Proof.
  intros [(i & Ei & Hi) Hf] Hat Hl Hnd Hlim Hc. destruct o as [|a]; split; cbn [setAt inner items sinner sitems].
  - rewrite Ei. cbn. eexists. split; [done|]. cbn. by eapply implements_insert.
  - done.
  - by eauto.
  - apply Forall2_fmap. eapply Forall2_impl; [exact Hf|]. intros x y (E1 & E2 & E3). rewrite E1.
    destruct (decide (y.1.1 = a)); [|done]. split_and!; [done|done|]. cbn. by eapply implements_insert.
Qed.

Lemma specAt_entry sp a ls y : specAt sp (Item a) = Some ls -> NoDup ((fun y : Entry => y.1.1) <$> sitems sp) ->
  y ∈ sitems sp -> y.1.1 = a -> y.2 = ls.
Proof.
  cbn [specAt]. intros E Hnd Hy Ha. apply fmap_Some in E as (y' & E & ->). apply fmap_Some in E as ((j & y2) & E & ->).
  apply list_find_Some in E as (Hj & Ej & _). apply list_elem_of_lookup in Hy as [i Hi]. cbn in *.
  assert (i = j) as ->; [|congruence]. eapply (NoDup_lookup _ i j a Hnd); rewrite list_lookup_fmap.
  - rewrite Hi. cbn. by rewrite Ha.
  - rewrite Hj. cbn. by rewrite Ej.
Qed.

(** Storing, seen as a change of one queue. *)
Lemma specStore_eq sp o prio msg ls l : specAt sp o = Some ls -> ls !! prio = Some l ->
  NoDup ((fun y : Entry => y.1.1) <$> sitems sp) ->
  specStore sp o prio msg = match o with
    | Inner => MkSpec (<[prio := l ++ [msg]]> (sinner sp)) (sitems sp)
    | Item a => MkSpec (sinner sp)
        ((fun y : Entry => if decide (y.1.1 = a) then (y.1, <[prio := l ++ [msg]]> y.2) else y) <$> sitems sp)
    end.
Proof.
  intros Hat Hl Hnd. assert (snoc prio msg ls = <[prio := l ++ [msg]]> ls) as Es.
  { unfold snoc. apply list_eq. intros i. destruct (decide (i = prio)) as [->|].
    - rewrite list_lookup_alter_eq, Hl, list_lookup_insert_eq; [done|by apply lookup_lt_is_Some].
    - by rewrite list_lookup_alter_ne, list_lookup_insert_ne. }
  destruct o as [|a]; cbn [specStore].
  - injection Hat as <-. by rewrite Es.
  - f_equal. apply list_fmap_ext. intros i y Hy. destruct (decide (y.1.1 = a)) as [E|]; [|done].
    apply list_elem_of_lookup_2 in Hy. rewrite (specAt_entry sp a ls y Hat Hnd Hy E), Es. done.
Qed.

Lemma same_eq sp o prio ls l : specAt sp o = Some ls -> ls !! prio = Some l ->
  NoDup ((fun y : Entry => y.1.1) <$> sitems sp) ->
  sp = match o with
    | Inner => MkSpec (<[prio := l]> (sinner sp)) (sitems sp)
    | Item a => MkSpec (sinner sp) ((fun y : Entry => if decide (y.1.1 = a) then (y.1, <[prio := l]> y.2) else y) <$> sitems sp)
    end.
Proof.
  intros Hat Hl Hnd. destruct sp as [si ss]. destruct o as [|a].
  - cbn in *. injection Hat as ->. by rewrite list_insert_id.
  - cbn [sinner sitems]. f_equal. rewrite <- (list_fmap_id ss) at 1. apply list_fmap_ext. intros i y Hy.
    destruct (decide (y.1.1 = a)) as [E|]; [|done]. apply list_elem_of_lookup_2 in Hy.
    pose proof (specAt_entry _ a ls y Hat Hnd Hy E) as E2. rewrite E2, list_insert_id by done. rewrite <- E2. by destruct y.
Qed.

Lemma enqueueAt_spec st sp o prio msg ls l : abs st sp -> specAt sp o = Some ls -> ls !! prio = Some l ->
  NoDup ((fun y : Entry => y.1.1) <$> sitems sp) -> msg <> 0 ->
  exists r st' lim, enqueueAt st o prio msg = Some (r, st') /\ next st' = next st /\ limits !! prio = Some lim /\
    if Z.of_nat (length l) <? lim - 1 then r = 0 /\ abs st' (specStore sp o prio msg) else r <> 0 /\ abs st' sp.
Proof.
  intros Ha Hat Hl Hnd Hm. pose proof (ownerOf_spec st sp o Ha) as Ho. rewrite Hat in Ho. destruct Ho as (x & Ex & Hx).
  destruct (implements_lookup _ _ _ _ Hx Hl) as (q & lim & Eq & Elim & Hc).
  destruct (enqueue_law q l (lim - 1) msg Hc Hm) as (q' & r & E & Hr).
  unfold enqueueAt, queueAt. rewrite Ex. cbn [mbind option_bind]. rewrite Eq. cbn [mbind option_bind]. rewrite E.
  cbn [mbind option_bind]. eexists _, _, lim. split; [done|]. split; [by destruct o|]. split; [done|].
  destruct (_ <? _); destruct Hr as [-> Hq] || destruct Hr as [Hr Hq]; (split; [done|]).
  - rewrite (specStore_eq sp o prio msg ls l) by done. by eapply setAt_spec.
  - rewrite (same_eq sp o prio ls l) by done. by eapply setAt_spec.
Qed.

(** ** Taking a message *)

Lemma bleGetLoop_spec qs ls lims : Forall3 (fun q l lim => contents q l (lim - 1)) qs ls lims ->
  exists qs', bleGetLoop qs = Some ((specTake ls).1, qs') /\
    Forall3 (fun q l lim => contents q l (lim - 1)) qs' (specTake ls).2 lims.
Proof.
  induction 1 as [|q l lim qs ls lims Hc Hf (qs' & E & IH)]; [by eexists; split; [|constructor]|].
  cbn [bleGetLoop specTake]. destruct (dequeue_law q l (lim - 1) Hc) as (q' & r & v & Ed & Hr). rewrite Ed.
  cbn [mbind option_bind]. destruct l as [|x l].
  - destruct Hr as [Hr Hq]. rewrite (proj2 (Z.eqb_neq r 0)) by done. rewrite E. cbn [mbind option_bind].
    destruct (specTake ls) as [m rest]. cbn in *. eexists. split; [done|]. by constructor.
  - destruct Hr as (-> & -> & Hq). eexists. split; [done|]. by constructor.
Qed.

Lemma brGetLoop_spec qs ls lims b : Forall3 (fun q l lim => contents q l (lim - 1)) qs ls lims ->
  exists f qs', brGetLoop qs lims b = Some ((specTake ls).1, f, qs') /\
    Forall3 (fun q l lim => contents q l (lim - 1)) qs' (specTake ls).2 lims.
Proof.
  intros Hf. revert b. induction Hf as [|q l lim qs ls lims Hc Hf IH]; intros b; [by eexists _, _; split; [|constructor]|].
  cbn [brGetLoop specTake]. destruct (count_law q l (lim - 1) Hc) as [-> _].
  destruct (dequeue_law q l (lim - 1) Hc) as (q' & r & v & Ed & Hr). rewrite Ed.
  cbn [mbind option_bind]. destruct l as [|x l].
  - destruct Hr as [Hr Hq]. rewrite (proj2 (Z.eqb_neq r 0)) by done. cbn [negb].
    destruct (IH (u32 (lim - WAIT_QUEUE_BUFFER_PERIOD_LEN) <=? Z.of_nat (@length Z []))) as (f & qs' & E & IH').
    rewrite E. cbn [mbind option_bind].
    destruct (specTake ls) as [m rest]. cbn in *. eexists _, _. split; [done|]. by constructor.
  - destruct Hr as (-> & -> & Hq). eexists _, _. split; [done|]. by constructor.
Qed.

Lemma specTake_none ls : (specTake ls).1 = None -> (specTake ls).2 = ls.
Proof.
  induction ls as [|[|x l] ls IH]; cbn [specTake]; [done| |done].
  destruct (specTake ls) as [m rest]. cbn in *. intros ->. by rewrite IH.
Qed.

End Refinement.

(** ** Order and completeness

    [log] is the history of what was stored and what was taken; a message
    belongs to the queue [key] of a process, or of the bus, and a priority. *)

Inductive Event := Stored (msg : Z) | Taken (msg : Z).

Definition storedOf (log : list Event) : list Z := omap (fun e => match e with Stored m => Some m | Taken _ => None end) log.
Definition takenOf (log : list Event) : list Z := omap (fun e => match e with Taken m => Some m | Stored _ => None end) log.

Definition contentItems (p : Z) (prio : nat) (ys : list Entry) : list Z :=
  ys ≫= fun y => if decide (y.1.2 = p) then default [] (y.2 !! prio) else [].

Definition content (sp : Spec) (key : option Z * nat) : list Z :=
  match key.1 with
  | None => default [] (sinner sp !! key.2)
  | Some p => contentItems p key.2 (sitems sp)
  end.

Section History.

Context (keyOf : Z -> option Z * nat).

(** What was stored in a queue is what was taken from it and what it holds,
    in this order. *)
Definition histOk (log : list Event) (sp : Spec) : Prop := forall key,
  filter (fun m => keyOf m = key) (storedOf log) = filter (fun m => keyOf m = key) (takenOf log) ++ content sp key.

Definition ownerKey (sp : Spec) (o : Owner) : option (option Z) :=
  match o with
  | Inner => Some None
  | Item a => (fun y : Entry => Some y.1.2) <$> (snd <$> list_find (fun y : Entry => y.1.1 = a) (sitems sp))
  end.

Lemma storedOf_app a b : storedOf (a ++ b) = storedOf a ++ storedOf b.
Proof. apply omap_app. Qed.

Lemma takenOf_app a b : takenOf (a ++ b) = takenOf a ++ takenOf b.
Proof. apply omap_app. Qed.

Lemma contentItems_app p prio a b : contentItems p prio (a ++ b) = contentItems p prio a ++ contentItems p prio b.
Proof. apply bind_app. Qed.

Lemma contentItems_one p prio (y : Entry) : contentItems p prio [y] = if decide (y.1.2 = p) then default [] (y.2 !! prio) else [].
Proof. unfold contentItems. rewrite bind_cons. apply app_nil_r. Qed.

Lemma contentItems_absent p prio ys : p ∉ (fun y : Entry => y.1.2) <$> ys -> contentItems p prio ys = [].
Proof.
  unfold contentItems. induction ys as [|y ys IH]; [done|]. rewrite fmap_cons, bind_cons. intros Hp.
  rewrite decide_False, IH by set_solver. done.
Qed.

(** What a queue holds belongs to it. *)
Lemma histOk_tagged log sp key m : histOk log sp -> m ∈ content sp key -> keyOf m = key.
Proof.
  intros Hh Hm. assert (m ∈ filter (fun m => keyOf m = key) (storedOf log)) as Hf.
  { rewrite Hh. apply elem_of_app. by right. }
  by apply list_elem_of_filter in Hf as [? _].
Qed.

(** An owner's queue in the specification. *)
Lemma content_at sp o key prio ls l : NoDup ((fun y : Entry => y.1.2) <$> sitems sp) ->
  specAt sp o = Some ls -> ownerKey sp o = Some key -> ls !! prio = Some l -> content sp (key, prio) = l.
Proof.
  intros Hnd Hat Hk Hl. destruct o as [|a]; cbn in Hat, Hk.
  - injection Hat as <-. injection Hk as <-. unfold content. cbn. by rewrite Hl.
  - destruct (list_find _ _) as [[j y]|] eqn:E; [|done]. cbn in *. injection Hat as <-. injection Hk as <-.
    apply list_find_Some in E as (Hj & _). unfold content. cbn [fst snd].
    rewrite <- (take_drop_middle _ _ _ Hj), contentItems_app.
    assert (forall ys, y.1.2 ∉ (fun y : Entry => y.1.2) <$> ys -> contentItems y.1.2 prio ys = []) as Hab by (intros; by apply contentItems_absent).
    rewrite <- (take_drop_middle _ _ _ Hj), fmap_app, fmap_cons in Hnd. apply NoDup_app in Hnd as (_ & Hd & Hnd).
    apply NoDup_cons in Hnd as [Hn _]. rewrite Hab by (intros Hin; apply (Hd _ Hin); by left).
    unfold contentItems at 1. rewrite bind_cons, decide_True, Hl by done. fold (contentItems y.1.2 prio (drop (S j) (sitems sp))).
    rewrite Hab by done. by rewrite app_nil_r.
Qed.

Lemma snoc_lookup prio msg (ls : list (list Z)) pr l : ls !! prio = Some l ->
  default [] (snoc prio msg ls !! pr) = default [] (ls !! pr) ++ if decide (pr = prio) then [msg] else [].
Proof.
  intros Hl. unfold snoc. destruct (decide (pr = prio)) as [->|Hne].
  - by rewrite list_lookup_alter_eq, Hl.
  - rewrite list_lookup_alter_ne by congruence. by rewrite app_nil_r.
Qed.

(** Storing adds at the end of one queue and leaves the others. *)
Lemma content_store sp o key prio msg ls l k : NoDup ((fun y : Entry => y.1.1) <$> sitems sp) ->
  NoDup ((fun y : Entry => y.1.2) <$> sitems sp) ->
  specAt sp o = Some ls -> ownerKey sp o = Some key -> ls !! prio = Some l ->
  content (specStore sp o prio msg) k = content sp k ++ if decide (k = (key, prio)) then [msg] else [].
Proof.
  intros Hna Hnp Hat Hk Hl. destruct o as [|a]; cbn [specAt ownerKey specStore] in *.
  - injection Hat as <-. injection Hk as <-. destruct k as [[p|] pr]; unfold content; cbn [fst snd sinner sitems].
    + rewrite decide_False by done. by rewrite app_nil_r.
    + rewrite (snoc_lookup prio msg _ pr l Hl). f_equal. by apply decide_ext; naive_solver.
  - destruct (list_find _ _) as [[j y]|] eqn:E; [|done]. cbn in Hat, Hk. injection Hat as <-. injection Hk as <-.
    apply list_find_Some in E as (Hj & Ej & _). destruct k as [[p|] pr]; unfold content; cbn [fst snd sinner sitems];
      [|rewrite decide_False by done; by rewrite app_nil_r].
    rewrite <- (take_drop_middle _ _ _ Hj) in Hna, Hnp |- *. set (pre := take j _) in *. set (post := drop _ _) in *.
    rewrite !fmap_app, !fmap_cons in *. apply NoDup_app in Hna as (_ & Hda & [Hya _]%NoDup_cons).
    apply NoDup_app in Hnp as (_ & Hdp & [Hyp _]%NoDup_cons).
    assert (forall ys : list Entry, y.1.1 ∉ (fun y : Entry => y.1.1) <$> ys ->
      (fun y : Entry => if decide (y.1.1 = a) then (y.1, snoc prio msg y.2) else y) <$> ys = ys) as Hsame.
    { intros ys Hys. rewrite <- (list_fmap_id ys) at 2. apply list_fmap_ext. intros i z Hz. rewrite decide_False; [done|].
      intros Ez. apply Hys. apply list_elem_of_fmap. exists z. split; [congruence|by apply list_elem_of_lookup_2 in Hz]. }
    rewrite (Hsame pre), (Hsame post) by (try done; intros Hin; apply (Hda _ Hin); by left).
    rewrite decide_True by done. rewrite !contentItems_app. change (?y :: post) with ([y] ++ post) at 1.
    rewrite (contentItems_app _ _ [_] post). change (y :: post) with ([y] ++ post). rewrite (contentItems_app _ _ [y] post).
    rewrite !contentItems_one. cbn [fst snd].
    destruct (decide (y.1.2 = p)) as [<-|Hne].
    + rewrite (contentItems_absent y.1.2 pr pre) by (intros Hin; apply (Hdp _ Hin); by left).
      rewrite (contentItems_absent y.1.2 pr post) by done. rewrite !app_nil_r. cbn [app].
      rewrite (snoc_lookup prio msg y.2 pr l Hl). f_equal. apply decide_ext. naive_solver.
    + rewrite decide_False by congruence. by rewrite app_nil_r.
Qed.

Lemma specTake_empty ls p : (specTake ls).1 = None -> default [] (ls !! p) = [].
Proof.
  revert p. induction ls as [|[|x l] ls IH]; intros p; cbn [specTake]; [done| |done].
  destruct (specTake ls) as [m rest]. cbn in *. intros ->. destruct p; [done|]. by apply IH.
Qed.

Lemma specTake_content ls x : (specTake ls).1 = Some x -> exists p0, forall p,
  default [] (ls !! p) = (if decide (p = p0) then [x] else []) ++ default [] ((specTake ls).2 !! p).
Proof.
  induction ls as [|[|y l] ls IH]; cbn [specTake]; [done| |].
  - destruct (specTake ls) as [m rest]. cbn in *. intros ->. destruct (IH eq_refl) as [p0 Hp]. exists (S p0). intros [|p]; [done|].
    cbn. rewrite Hp. f_equal. apply decide_ext. lia.
  - intros [= ->]. exists 0%nat. by intros [|p].
Qed.

(** Taking removes the first message of one queue. *)
Lemma content_dequeue sp : NoDup ((fun y : Entry => y.1.2) <$> sitems sp) ->
  match (specDequeue sp).1 with
  | None => forall key, content (specDequeue sp).2 key = content sp key
  | Some x => exists key0, forall key,
      content sp key = (if decide (key = key0) then [x] else []) ++ content (specDequeue sp).2 key
  end.
Proof.
  intros Hnd. unfold specDequeue. pose proof (specTake_content (sinner sp)) as Hi.
  destruct (specTake (sinner sp)) as [[x|] i] eqn:Ei; cbn [fst snd] in *.
  - destruct (Hi x eq_refl) as [p0 Hp]. exists (None, p0). intros [[p|] pr]; unfold content; cbn [fst snd sinner sitems].
    + by rewrite decide_False.
    + rewrite Hp. f_equal. apply decide_ext. naive_solver.
  - destruct (sitems sp) as [|[[ad pd] ls] rest] eqn:Es; cbn [fst snd]; [done|].
    rewrite fmap_cons in Hnd. apply NoDup_cons in Hnd as [Hp Hnd]. cbn [fst snd] in Hp.
    pose proof (specTake_content ls) as Hl. pose proof (fun p => specTake_empty ls p) as He.
    destruct (specTake ls) as [[x|] ls'] eqn:El; cbn [fst snd] in *.
    + destruct (Hl x eq_refl) as [p0 Hp0]. exists (Some pd, p0). intros [[p|] pr]; unfold content; cbn [fst snd sinner sitems];
        [|by rewrite decide_False].
      rewrite Es. change (?y :: rest) with ([y] ++ rest). rewrite !contentItems_app, !contentItems_one. cbn [fst snd].
      destruct (decide (pd = p)) as [<-|Hne].
      * rewrite (contentItems_absent pd pr rest), app_nil_r, Hp0 by done. cbn [app]. f_equal. apply decide_ext. naive_solver.
      * rewrite decide_False by congruence. by rewrite app_nil_r.
    + intros [[p|] pr]; unfold content; cbn [fst snd sinner sitems]; [|done]. rewrite Es.
      change (?y :: rest) with ([y] ++ rest). rewrite !contentItems_app, !contentItems_one. cbn [fst snd].
      destruct (decide (pd = p)); [|done]. by rewrite He.
Qed.

(** ** The history goes on *)

Lemma hist_store log sp o key prio msg ls l : histOk log sp -> NoDup ((fun y : Entry => y.1.1) <$> sitems sp) ->
  NoDup ((fun y : Entry => y.1.2) <$> sitems sp) ->
  specAt sp o = Some ls -> ownerKey sp o = Some key -> ls !! prio = Some l -> keyOf msg = (key, prio) ->
  histOk (log ++ [Stored msg]) (specStore sp o prio msg).
Proof.
  intros Hh Hna Hnp Hat Hk Hl Hm k. rewrite storedOf_app, takenOf_app. cbn [storedOf takenOf omap list_omap].
  rewrite app_nil_r, filter_app, (Hh k), (content_store sp o key prio msg ls l k) by done. rewrite <- app_assoc. f_equal. f_equal.
  rewrite filter_cons, filter_nil, Hm. by destruct (decide ((key, prio) = k)), (decide (k = (key, prio))); naive_solver.
Qed.

Lemma hist_dequeue log sp : histOk log sp -> NoDup ((fun y : Entry => y.1.2) <$> sitems sp) ->
  histOk (log ++ match (specDequeue sp).1 with Some m => [Taken m] | None => [] end) (specDequeue sp).2.
Proof.
  intros Hh Hnd k. pose proof (content_dequeue sp Hnd) as Hc. destruct (specDequeue sp).1 as [m|] eqn:E.
  - destruct Hc as [k0 Hc]. rewrite storedOf_app, takenOf_app. cbn [storedOf takenOf omap list_omap].
    rewrite app_nil_r, filter_app, (Hh k), (Hc k), <- app_assoc. f_equal. f_equal. rewrite filter_cons, filter_nil.
    assert (keyOf m = k0) as <-.
    { apply (histOk_tagged log sp); [done|]. rewrite Hc, decide_True by done. by left. }
    by destruct (decide (k = keyOf m)), (decide (keyOf m = k)); naive_solver.
  - rewrite app_nil_r, (Hc k). apply Hh.
Qed.

Lemma hist_append log sp ap n : histOk log sp -> ap.2 ∉ (fun y : Entry => y.1.2) <$> sitems sp ->
  histOk log (MkSpec (sinner sp) (sitems sp ++ [(ap, replicate n [])])).
Proof.
  intros Hh Hp k. rewrite (Hh k). f_equal. destruct k as [[p|] pr]; unfold content; cbn [fst snd sinner sitems]; [|done].
  rewrite contentItems_app, contentItems_one. cbn [fst snd]. destruct (decide (ap.2 = p)); [|by rewrite app_nil_r].
  destruct (replicate n [] !! pr) as [l|] eqn:E; [|by rewrite app_nil_r]. apply lookup_replicate in E as [-> _]. by rewrite app_nil_r.
Qed.

End History.

(** ** Uniqueness is kept *)

Lemma wf_store b sp o prio msg : wfSpec b sp -> wfSpec b (specStore sp o prio msg).
Proof.
  intros [H1 H2 H3]. destruct o as [|a]; [done|].
  set (f := fun y : Entry => if decide (y.1.1 = a) then (y.1, snoc prio msg y.2) else y).
  assert (forall y, (f y).1 = y.1) as Hf by (intros y; unfold f; by destruct (decide _)).
  split; cbn [specStore sitems]; fold f.
  - rewrite <- list_fmap_compose. erewrite list_fmap_ext; [exact H1|]. intros i y _. unfold compose. by rewrite Hf.
  - rewrite <- list_fmap_compose. erewrite list_fmap_ext; [exact H2|]. intros i y _. unfold compose. by rewrite Hf.
  - intros y (z & -> & Hz)%list_elem_of_fmap. rewrite Hf. by apply H3.
Qed.

Lemma wf_dequeue b sp : wfSpec b sp -> wfSpec b (specDequeue sp).2.
Proof.
  intros [H1 H2 H3]. unfold specDequeue. destruct (specTake (sinner sp)) as [[x|] i]; [done|].
  destruct (sitems sp) as [|[ap ls] rest] eqn:Es; [by split; cbn [snd]; rewrite Es|].
  destruct (specTake ls) as [[x|] ls']; split; cbn [snd sitems].
  - rewrite fmap_app, Permutation_app_comm. exact H1.
  - rewrite fmap_app, Permutation_app_comm. exact H2.
  - intros y [Hy|Hy]%elem_of_app; [apply H3; by right|]. apply list_elem_of_singleton in Hy as ->. apply (H3 (ap, ls)). by left.
  - by apply NoDup_cons in H1 as [_ H1].
  - by apply NoDup_cons in H2 as [_ H2].
  - intros y Hy. apply H3. by right.
Qed.

Lemma wf_append b sp p ls : wfSpec b sp -> p ∉ (fun y : Entry => y.1.2) <$> sitems sp ->
  wfSpec (S b) (MkSpec (sinner sp) (sitems sp ++ [(b, p, ls)])).
Proof.
  intros [H1 H2 H3] Hp. split; cbn [sitems].
  - rewrite fmap_app, Permutation_app_comm. apply NoDup_cons. split; [|done].
    intros (y & E & Hy)%list_elem_of_fmap. apply H3 in Hy. cbn in E. lia.
  - rewrite fmap_app, Permutation_app_comm. apply NoDup_cons. by split.
  - intros y [Hy|Hy]%elem_of_app; [by apply H3 in Hy; lia|]. apply list_elem_of_singleton in Hy as ->. cbn. lia.
Qed.

(** ** Threads that hold on to a queue *)

Section Waiting.

Context {Q : Type} `{FifoLaws Q} (keyOf : Z -> option Z * nat) (limits : list Z).

(** What is known of a thread that waits: its queue, as long as it is there,
    is the one its message belongs to. *)
Definition waitOk (sp : Spec) (bound : nat) (w : Waiting) : Prop :=
  wmsg w <> 0 /\ wprio w = (keyOf (wmsg w)).2 /\
  match wowner w with
  | Inner => (keyOf (wmsg w)).1 = None
  | Item a => (a < bound)%nat /\ forall y, y ∈ sitems sp -> y.1.1 = a -> (keyOf (wmsg w)).1 = Some y.1.2
  end.

Lemma priority_lookup (ls : list (list Z)) (qs : list Q) flag : length limits = 3%nat -> implements limits qs ls ->
  exists l lim, ls !! GetPriority flag = Some l /\ limits !! GetPriority flag = Some lim.
Proof.
  intros H3 Hi. assert (length ls = 3%nat) as Hl by (rewrite <- H3; unfold implements in Hi; clear H3; induction Hi; cbn; congruence).
  assert (GetPriority flag < 3)%nat as Hp.
  { unfold GetPriority, HIGH_PRIORITY, MIDDLE_PRIORITY, LOW_PRIORITY. repeat case_match; lia. }
  destruct (lookup_lt_is_Some_2 ls (GetPriority flag)) as [l ->]; [lia|].
  destruct (lookup_lt_is_Some_2 limits (GetPriority flag)) as [lim ->]; [lia|]. by eauto.
Qed.

Lemma specAt_implements (st : Lists Q) sp o ls : abs limits st sp -> specAt sp o = Some ls -> exists qs : list Q, implements limits qs ls.
Proof. intros Ha Hat. pose proof (ownerOf_spec limits st sp o Ha) as Ho. rewrite Hat in Ho. destruct Ho as (x & _ & Hx). by eauto. Qed.

Lemma specAt_owner (st : Lists Q) sp a : abs limits st sp -> ownerOf st (Item a) = None <-> specAt sp (Item a) = None.
Proof.
  intros Ha. pose proof (ownerOf_spec limits st sp (Item a) Ha) as Ho. destruct (specAt sp (Item a)) as [ls|].
  - destruct Ho as (x & -> & _). done.
  - by rewrite Ho.
Qed.

Lemma specAt_some sp a : (exists ls, specAt sp (Item a) = Some ls) <-> exists y, y ∈ sitems sp /\ y.1.1 = a.
Proof.
  cbn [specAt]. destruct (list_find _ _) as [[j y]|] eqn:E; cbn; split; try done.
  - intros _. apply list_find_Some in E as (Hj & Ej & _). exists y. split; [by apply list_elem_of_lookup_2 in Hj|done].
  - by eauto.
  - by intros [].
  - intros (y & Hy & Ey). apply list_find_None in E. rewrite Forall_forall in E. by destruct (E y Hy).
Qed.

Lemma ownerKey_item sp a ls k : specAt sp (Item a) = Some ls ->
  (forall y, y ∈ sitems sp -> y.1.1 = a -> k = Some y.1.2) -> ownerKey sp (Item a) = Some k.
Proof.
  cbn [specAt ownerKey]. destruct (list_find _ _) as [[j y]|] eqn:E; cbn; [|done]. intros _ Hk.
  apply list_find_Some in E as (Hj & Ej & _). f_equal. symmetry. apply Hk; [by apply list_elem_of_lookup_2 in Hj|done].
Qed.

(** A change of the lists that brings no new entry under an old address. *)
Lemma waitOk_mono sp sp' b b' w : waitOk sp b w -> (b <= b')%nat ->
  (forall y', y' ∈ sitems sp' -> (exists y, y ∈ sitems sp /\ y.1 = y'.1) \/ (b <= y'.1.1)%nat) -> waitOk sp' b' w.
Proof.
  intros (H1 & H2 & H3) Hb Hy. split_and!; [done|done|]. destruct (wowner w) as [|a]; [done|].
  destruct H3 as [H3 H4]. split; [lia|]. intros y' Hy' Ea. destruct (Hy y' Hy') as [(y & Hin & E)|?]; [|lia].
  rewrite <- E. apply H4; [done|]. by rewrite E.
Qed.

Lemma entries_store sp o prio msg y' : y' ∈ sitems (specStore sp o prio msg) -> exists y, y ∈ sitems sp /\ y.1 = y'.1.
Proof.
  destruct o as [|a]; cbn [specStore sitems]; [by eauto|]. intros (y & -> & Hy)%list_elem_of_fmap. exists y.
  split; [done|]. by destruct (decide _).
Qed.

Lemma entries_dequeue sp y' : y' ∈ sitems (specDequeue sp).2 -> exists y, y ∈ sitems sp /\ y.1 = y'.1.
Proof.
  unfold specDequeue. destruct (specTake (sinner sp)) as [[x|] i]; cbn [snd sitems]; [by eauto|].
  destruct (sitems sp) as [|[ap ls] rest] eqn:Es; cbn [snd]; [rewrite Es; by eauto|].
  destruct (specTake ls) as [[x|] ls']; cbn [snd sitems]; intros Hy.
  - apply elem_of_app in Hy as [Hy|Hy]; [exists y'; split; [by right|done]|].
    apply list_elem_of_singleton in Hy as ->. exists (ap, ls). split; [by left|done].
  - exists y'. split; [by right|done].
Qed.

(** The process of a message has an entry. *)
Lemma findPid_found (st : Lists Q) sp p x : abs limits st sp -> findPid p st = Some x ->
  exists y, y ∈ sitems sp /\ y.1.1 = addr x /\ y.1.2 = p.
Proof.
  intros [_ Hf] E. unfold findPid in E.
  pose proof (find_abs limits (P := fun x => pid x = p) (P' := fun y : Entry => y.1.2 = p) _ _ Hf) as Hl.
  destruct (list_find _ (items st)) as [[j x']|]; [|done]. injection E as <-.
  destruct (list_find _ (sitems sp)) as [[k y]|] eqn:Ey; cbn [fmap option_fmap option_map] in *;
    [|exfalso; apply Hl; intros ? ? (_ & -> & _); done].
  destruct Hl as [_ (Ea & _ & _)]; [by intros ? ? (_ & -> & _)|]. apply list_find_Some in Ey as (Hk & Ep & _).
  exists y. split; [by apply list_elem_of_lookup_2 in Hk|done].
Qed.

Lemma findPid_absent (st : Lists Q) sp p : abs limits st sp -> findPid p st = None -> p ∉ (fun y : Entry => y.1.2) <$> sitems sp.
Proof.
  intros [_ Hf] E (y & -> & Hy)%list_elem_of_fmap. unfold findPid in E.
  pose proof (find_abs limits (P := fun x => pid x = y.1.2) (P' := fun y' : Entry => y'.1.2 = y.1.2) _ _ Hf) as Hl.
  destruct (list_find _ (items st)) as [[j x']|]; [done|].
  destruct (list_find _ (sitems sp)) as [[k y']|] eqn:Ey; [apply Hl; by intros ? ? (_ & -> & _)|].
  apply list_find_None in Ey. rewrite Forall_forall in Ey. by destruct (Ey y Hy).
Qed.

Lemma same_entry (ys : list Entry) y y' : NoDup ((fun y : Entry => y.1.1) <$> ys) -> y ∈ ys -> y' ∈ ys -> y.1.1 = y'.1.1 -> y = y'.
Proof.
  intros Hnd [i Hi]%list_elem_of_lookup [j Hj]%list_elem_of_lookup E.
  assert (i = j) as ->; [|congruence]. eapply (NoDup_lookup _ i j y.1.1 Hnd); rewrite list_lookup_fmap.
  - by rewrite Hi.
  - rewrite Hj. cbn. by rewrite E.
Qed.

End Waiting.

(** ** The classic Bluetooth queue under every schedule *)

Section BrSystem.

Context {Q : Type} `{FifoLaws Q} (attr : Z -> SendNode).

Record System := MkSystem { lists : Lists Q; waiting : gmap nat Waiting; log : list Event }.

(** What can happen next: a thread calls [BrEnqueueNonBlock], a waiting thread
    gets the lock again, or the sending thread calls [BrDequeueNonBlock].  The
    lock is held from here to the end of the call or to its next wait. *)
Inductive Action :=
| Start (t : nat) (lockOk : bool) (mem : nat -> bool) (msg : Z)
| Resume (t : nat) (condOk : bool)
| Dequeue (lockOk condOk : bool).

Definition settle (t : nat) (msg : Z) (sys : System) (r : Lists Q * Outcome) : System :=
  match r.2 with
  | Returned _ stored => MkSystem r.1 (delete t (waiting sys)) (log sys ++ if stored then [Stored msg] else [])
  | Blocked w => MkSystem r.1 (<[t := w]> (waiting sys)) (log sys)
  end.

Definition brStep (sys : System) (a : Action) : option System :=
  match a with
  | Start t lockOk mem msg =>
      match waiting sys !! t with
      | Some _ => Some sys
      | None => settle t msg sys <$> BrEnqueueNonBlock attr lockOk mem (lists sys) msg
      end
  | Resume t condOk =>
      match waiting sys !! t with
      | None => Some sys
      | Some w => settle t (wmsg w) sys <$> BrEnqueueResume condOk (lists sys) w
      end
  | Dequeue lockOk condOk =>
      '(_, m, st) ← BrDequeueNonBlock lockOk condOk (lists sys);
      Some (MkSystem st (waiting sys) (log sys ++ match m with Some x => [Taken x] | None => [] end))
  end.

Fixpoint brRun (acts : list Action) (sys : System) : option System :=
  match acts with
  | [] => Some sys
  | a :: acts' => sys' ← brStep sys a; brRun acts' sys'
  end.

(** The queue a message belongs to. *)
Definition brKey (m : Z) : option Z * nat :=
  (if (npid (attr m) =? 0) && nisInner (attr m) then None else Some (npid (attr m)), GetPriority (nflag (attr m))).

Record BrInv (sys : System) (sp : Spec) : Prop := {
  inv_abs : abs BR_QUEUE_LIMIT (lists sys) sp;
  inv_wf : wfSpec (next (lists sys)) sp;
  inv_hist : histOk brKey (log sys) sp;
  inv_wait : forall t w, waiting sys !! t = Some w -> waitOk brKey sp (next (lists sys)) w;
}.

Lemma br_limits : Forall (fun l => exists k, 0 <= k <= 13 /\ l = 2 ^ k) BR_QUEUE_LIMIT.
Proof. repeat constructor; exists 5; lia. Qed.

(** The end of an enqueue. *)
Lemma BrEnqueueWait_spec st sp w ls : abs BR_QUEUE_LIMIT st sp -> wfSpec (next st) sp -> wmsg w <> 0 ->
  wprio w = (brKey (wmsg w)).2 -> specAt sp (wowner w) = Some ls ->
  exists st' out, BrEnqueueWait st w = Some (st', out) /\ next st' = next st /\
    match out with
    | Returned ret stored =>
        abs BR_QUEUE_LIMIT st' (if stored then specStore sp (wowner w) (wprio w) (wmsg w) else sp) /\
        (ret = SOFTBUS_OK -> stored = false -> exists l, ls !! wprio w = Some l /\ length l = 31%nat)
    | Blocked w' => abs BR_QUEUE_LIMIT st' sp /\ wmsg w' = wmsg w /\ wprio w' = wprio w /\ wowner w' = wowner w
    end.
Proof.
  intros Ha Hwf Hm Hp Hat. destruct (specAt_implements _ _ _ _ _ Ha Hat) as [qs Hq].
  destruct (priority_lookup BR_QUEUE_LIMIT ls qs (nflag (attr (wmsg w))) eq_refl Hq) as (l & lim & Hl & Hlim).
  cbn [brKey snd] in Hp. rewrite <- Hp in Hl, Hlim.
  pose proof (ownerOf_spec _ _ _ (wowner w) Ha) as Ho. rewrite Hat in Ho. destruct Ho as (x & Ex & Hx).
  destruct (implements_lookup _ _ _ _ _ Hx Hl) as (q & lim' & Eq & Elim & Hc). rewrite Hlim in Elim. injection Elim as <-.
  unfold BrEnqueueWait, queueAt. rewrite Ex. cbn [mbind option_bind]. rewrite Eq. cbn [mbind option_bind]. rewrite Hlim. cbn [mbind option_bind].
  destruct (enqueueAt_spec _ st sp (wowner w) (wprio w) (wmsg w) ls l Ha Hat Hl (wf_addr _ _ Hwf) Hm)
    as (r & st' & lim' & Ee & En & Elim & Hr). rewrite Hlim in Elim. injection Elim as <-.
  assert (lim = 32) as ->.
  { apply list_elem_of_lookup_2 in Hlim. unfold BR_QUEUE_LIMIT in Hlim. set_solver. }
  destruct (WaitQueueLength q 32 WAIT_QUEUE_BUFFER_PERIOD_LEN (wretry w)) as [ret|retry] eqn:Ew.
  - destruct (Z.eqb_spec ret SOFTBUS_OK) as [->|Hne]; cbn [negb].
    + rewrite Ee. cbn [mbind option_bind]. pose proof (contents_le _ _ _ Hc) as Hle.
      destruct (Z.ltb_spec (Z.of_nat (length l)) (32 - 1)).
      * destruct Hr as [-> Ha']. destruct (wowner w); eexists _, _; (split; [done|]); (split; [done|]); by split.
      * destruct Hr as [Hr Ha']. rewrite (proj2 (Z.eqb_neq r 0) Hr).
        destruct (wowner w); eexists _, _; (split; [done|]); (split; [done|]); (split; [done|]); intros _ _; exists l; (split; [done|lia]).
    + eexists _, _. split; [done|]. split; [done|]. by split.
  - eexists _, _. split; [done|]. split; [done|]. done.
Qed.

Lemma BrGetMsg_spec (x : PidQueue Q) ls b : implements BR_QUEUE_LIMIT (queue x) ls ->
  exists f qs, BrGetMsg x b = Some ((specTake ls).1, f, MkPidQueue (addr x) (pid x) qs) /\
    implements BR_QUEUE_LIMIT qs (specTake ls).2.
Proof.
  intros Hi. destruct (brGetLoop_spec _ _ _ b Hi) as (f & qs & E & Hq). unfold BrGetMsg. rewrite E. by eauto.
Qed.

Lemma BrDequeue_spec condOk st sp : abs BR_QUEUE_LIMIT st sp ->
  exists ret st', BrDequeueNonBlock true condOk st = Some (ret, (specDequeue sp).1, st') /\
    abs BR_QUEUE_LIMIT st' (specDequeue sp).2 /\ next st' = next st.
Proof.
  intros [(i & Ei & Hi) Hf]. unfold BrDequeueNonBlock. cbn [negb]. rewrite Ei. cbn [mbind option_bind].
  destruct (BrGetMsg_spec i _ false Hi) as (f & qs' & E & Hi'). rewrite E. cbn [mbind option_bind].
  unfold specDequeue. pose proof (specTake_none (sinner sp)) as Hn. destruct (specTake (sinner sp)) as [[x|] ls]; cbn [fst snd] in *.
  { eexists _, _. split; [done|]. split; [|done]. split; [by eexists|done]. }
  rewrite (Hn eq_refl) in Hi'. clear Hn. destruct (items st) as [|x xs], (sitems sp) as [|[ap lx] ys] eqn:Ey; try by inversion Hf.
  { eexists _, _. split; [done|]. split; [|done]. split; [by eexists|]. cbn [snd items]. rewrite Ey. constructor. }
  apply Forall2_cons in Hf as [Hxy Hf'].
  destruct Hxy as (E1 & E2 & E3). cbn [fst snd] in E1, E2, E3.
  destruct (BrGetMsg_spec x _ f E3) as (f2 & qs2 & E4 & Hx'). rewrite E4. cbn [mbind option_bind].
  destruct (specTake lx) as [[v|] lx']; cbn [fst snd] in *; eexists _, _; (split; [done|]); (split; [|done]);
    (split; [by eexists|]); cbn [items sitems]; [|done].
  apply Forall2_app; [done|]. constructor; [|constructor]. by split_and!.
Qed.

(** ** The invariant *)

(** A call that returns or blocks from a good state leaves one. *)
Lemma settle_inv sys sp t w ls st' out : BrInv sys sp -> waitOk brKey sp (next (lists sys)) w ->
  specAt sp (wowner w) = Some ls ->
  BrEnqueueWait (lists sys) w = Some (st', out) -> exists sp', BrInv (settle t (wmsg w) sys (st', out)) sp'.
Proof.
  intros [Ha Hwf Hh Hw] Hok Hat E. pose proof Hok as (Hm & Hp & Ho).
  destruct (BrEnqueueWait_spec _ _ _ _ Ha Hwf Hm Hp Hat) as (st2 & out2 & E2 & En & Hout).
  rewrite E in E2. injection E2 as <- <-. unfold settle. cbn [fst snd]. destruct out as [ret [|]|w'].
  - destruct Hout as [Ha' _]. destruct (specAt_implements _ _ _ _ _ Ha Hat) as [qs Hq].
    destruct (priority_lookup BR_QUEUE_LIMIT ls qs (nflag (attr (wmsg w))) eq_refl Hq) as (l & lim & Hl & _).
    eexists. split; cbn [lists waiting log]; [exact Ha'|rewrite En; by apply wf_store| |].
    + eapply (hist_store brKey (log sys) sp (wowner w) (brKey (wmsg w)).1); try done.
      * apply Hwf.
      * apply Hwf.
      * destruct (wowner w) as [|a]; [by rewrite Ho|]. destruct Ho as [_ Ho]. by apply (ownerKey_item sp a ls).
      * rewrite Hp. exact Hl.
      * rewrite Hp. by destruct (brKey (wmsg w)).
    + intros t' w' Hw'. apply lookup_delete_Some in Hw' as [_ Hw']. rewrite En.
      eapply waitOk_mono; [by apply (Hw t')|done|]. intros y' Hy'. left. by apply entries_store in Hy'.
  - destruct Hout as [Ha' _]. exists sp. split; cbn [lists waiting log]; [done|by rewrite En|by rewrite app_nil_r|].
    intros t' w' Hw'. apply lookup_delete_Some in Hw' as [_ Hw']. rewrite En. by apply (Hw t').
  - destruct Hout as (Ha' & E1 & E2 & E3). exists sp. split; cbn [lists waiting log]; [done|by rewrite En|done|].
    intros t' w2 Hw'. rewrite En. apply lookup_insert_Some in Hw' as [[_ <-]|[_ Hw']]; [|by apply (Hw t')].
    unfold waitOk. by rewrite E1, E2, E3.
Qed.

Lemma settle_same sys sp t m r : BrInv sys sp -> BrInv (settle t m sys (lists sys, Returned r false)) sp.
Proof.
  intros [Ha Hwf Hh Hw]. split; cbn [settle fst snd lists waiting log]; [done|done|by rewrite app_nil_r|].
  intros t' w' [_ Hw']%lookup_delete_Some. by apply (Hw t').
Qed.

(** The first message of a process. *)
Lemma start_new sys sp t mem msg x : BrInv sys sp -> msg <> 0 -> (npid (attr msg) =? 0) && nisInner (attr msg) = false ->
  findPid (npid (attr msg)) (lists sys) = None -> CreateBrQueue mem (next (lists sys)) (npid (attr msg)) = Some x ->
  exists r st' sp', enqueueAt (append x (lists sys)) (Item (addr x)) (GetPriority (nflag (attr msg))) msg = Some (r, st') /\ r = 0 /\
    BrInv (settle t msg sys (st', Returned SOFTBUS_OK true)) sp'.
Proof.
  intros [Ha Hwf Hh Hw] Hm Hk Hfind Hcreate. pose proof (findPid_absent _ _ _ _ Ha Hfind) as Habs.
  apply (create_spec BR_QUEUE_LIMIT br_limits) in Hcreate as Hx. destruct Hx as (Ea & Ep & Hq). cbn [fst snd] in Ea, Ep.
  set (b := next (lists sys)) in *. set (sp1 := MkSpec (sinner sp) (sitems sp ++ [(b, npid (attr msg), replicate 3 [])])).
  assert (wfSpec (S b) sp1) as Hwf1 by (by apply wf_append).
  assert (abs BR_QUEUE_LIMIT (append x (lists sys)) sp1) as Ha1.
  { destruct Ha as [Hi Hf]. split; cbn; [done|]. apply Forall2_app; [done|]. constructor; [|constructor]. by split_and!. }
  assert (specAt sp1 (Item (addr x)) = Some (replicate 3 [])) as Hat.
  { destruct (proj2 (specAt_some sp1 (addr x))) as [ls Els].
    { exists (b, npid (attr msg), replicate 3 []). split; [apply elem_of_app; right; by left|done]. }
    rewrite Els. f_equal. symmetry. apply (specAt_entry sp1 (addr x) ls (b, npid (attr msg), replicate 3 []) Els (wf_addr _ _ Hwf1)); [|done].
    apply elem_of_app. right. by left. }
  assert (replicate 3 [] !! GetPriority (nflag (attr msg)) = Some (@nil Z)) as Hl.
  { unfold GetPriority. by repeat case_match. }
  destruct (enqueueAt_spec _ _ sp1 (Item (addr x)) _ msg _ [] Ha1 Hat Hl (wf_addr _ _ Hwf1) Hm)
    as (r & st' & lim & Ee & En & Elim & Hr).
  assert (lim = 32) as -> by (apply list_elem_of_lookup_2 in Elim; unfold BR_QUEUE_LIMIT in Elim; set_solver).
  destruct Hr as [-> Ha']. eexists _, _, _. split; [done|]. split; [done|].
  assert (Hkey : brKey msg = (Some (npid (attr msg)), GetPriority (nflag (attr msg)))) by (unfold brKey; by rewrite Hk).
  split; cbn [settle fst snd lists waiting log]; [exact Ha'|rewrite En; by apply (wf_store (S b))| |].
  - eapply (hist_store brKey (log sys) sp1); [by apply hist_append|apply Hwf1|apply Hwf1|done| |done|done].
    apply (ownerKey_item sp1 (addr x) _ _ Hat). intros y Hy Ey.
    rewrite (same_entry (sitems sp1) y (b, npid (attr msg), replicate 3 [])); [done|apply Hwf1|done| |by rewrite Ey].
    apply elem_of_app. right. by left.
  - intros t' w' [_ Hw']%lookup_delete_Some. rewrite En. cbn [append next]. eapply waitOk_mono; [by apply (Hw t')|fold b; lia|].
    intros y' Hy'. apply entries_store in Hy' as (y & Hy & <-). apply elem_of_app in Hy as [Hy|Hy]; [by left; eauto|].
    apply list_elem_of_singleton in Hy as ->. by right.
Qed.

Lemma start_inv sys sp t lockOk mem msg : BrInv sys sp ->
  exists r, BrEnqueueNonBlock attr lockOk mem (lists sys) msg = Some r /\ exists sp', BrInv (settle t msg sys r) sp'.
Proof.
  intros HI. unfold BrEnqueueNonBlock. destruct (Z.eqb_spec msg 0) as [|Hm]; [eexists; split; [done|]; exists sp; by apply settle_same|].
  destruct lockOk; cbn [negb]; [|eexists; split; [done|]; exists sp; by apply settle_same].
  destruct ((npid (attr msg) =? 0) && nisInner (attr msg)) eqn:Ek.
  { assert (waitOk brKey sp (next (lists sys)) (MkWaiting msg (GetPriority (nflag (attr msg))) Inner 0)) as Hok.
    { split_and!; [done|done|]. cbn. by rewrite Ek. }
    pose proof HI as [Ha Hwf _ _]. destruct (BrEnqueueWait_spec _ sp (MkWaiting msg (GetPriority (nflag (attr msg))) Inner 0) _ Ha Hwf Hm eq_refl eq_refl)
      as (st' & out & E & _). eexists. split; [exact E|]. by eapply (settle_inv sys sp t _ _ st' out HI Hok). }
  destruct (findPid (npid (attr msg)) (lists sys)) as [x|] eqn:Ef.
  { pose proof HI as [Ha Hwf _ _]. destruct (findPid_found _ _ _ _ _ Ha Ef) as (y & Hy & Ea & Ep).
    set (w := MkWaiting msg (GetPriority (nflag (attr msg))) (Item (addr x)) 0).
    assert (waitOk brKey sp (next (lists sys)) w) as Hok.
    { split_and!; [done|done|]. cbn. rewrite Ek. split; [rewrite <- Ea; by apply Hwf|]. intros y' Hy' Ey'.
      rewrite (same_entry _ y' y (wf_addr _ _ Hwf)); [by rewrite Ep|done|done|by rewrite Ey']. }
    destruct (proj2 (specAt_some sp (addr x))) as [ls Els]; [by eauto|].
    destruct (BrEnqueueWait_spec _ sp w ls Ha Hwf Hm eq_refl Els) as (st' & out & E & _).
    eexists. split; [exact E|]. by eapply (settle_inv sys sp t w ls st' out HI Hok). }
  destruct (CreateBrQueue mem _ _) as [x|] eqn:Ec; [|eexists; split; [done|]; exists sp; by apply settle_same].
  destruct (start_new sys sp t mem msg x HI Hm Ek Ef Ec) as (r & st' & sp' & -> & -> & H'). cbn. by eauto.
Qed.

(** A thread that waits for a queue that was destroyed. *)
Definition stale (sys : System) (a : Action) : Prop :=
  exists t w ad, a = Resume t true /\ waiting sys !! t = Some w /\ wowner w = Item ad /\ ownerOf (lists sys) (Item ad) = None.

Lemma brStep_inv sys sp a : BrInv sys sp ->
  match brStep sys a with
  | Some sys' => exists sp', BrInv sys' sp'
  | None => stale sys a
  end /\ (stale sys a -> brStep sys a = None).
Proof.
  intros HI. destruct a as [t lockOk mem msg|t condOk|lockOk condOk]; cbn [brStep].
  - split; [|by intros (? & ? & ? & ? & _)]. destruct (waiting sys !! t); [by eauto|].
    destruct (start_inv sys sp t lockOk mem msg HI) as (r & -> & Hr). done.
  - destruct (waiting sys !! t) as [w|] eqn:Ew; [|split; [by eauto|by intros (? & ? & ? & [= <- _] & E & _); congruence]].
    pose proof HI as [Ha Hwf Hh Hw]. unfold BrEnqueueResume. destruct condOk; cbn [negb];
      [|split; [exists sp; by apply settle_same|by intros (? & ? & ? & [= <- ?] & _)]].
    destruct (specAt sp (wowner w)) as [ls|] eqn:Els.
    + pose proof (Hw t w Ew) as Hok. pose proof Hok as (Hm & Hp & _).
      destruct (BrEnqueueWait_spec _ sp w ls Ha Hwf Hm Hp Els) as (st' & out & E & _). rewrite E. cbn [fmap option_fmap option_map].
      split; [by eapply settle_inv|]. intros (t' & w' & ad & [= <-] & E1 & E2 & E3). rewrite Ew in E1. injection E1 as <-.
      rewrite E2 in Els. apply (specAt_owner BR_QUEUE_LIMIT (lists sys) sp ad Ha) in E3. congruence.
    + destruct (wowner w) as [|ad] eqn:Eo; [done|]. apply (specAt_owner BR_QUEUE_LIMIT (lists sys) sp ad Ha) in Els.
      unfold BrEnqueueWait, queueAt. rewrite Eo, Els. cbn. split; [|done]. by exists t, w, ad.
  - split; [|by intros (? & ? & ? & ? & _)]. pose proof HI as [Ha Hwf Hh Hw]. destruct lockOk.
    + destruct (BrDequeue_spec condOk _ _ Ha) as (ret & st' & -> & Ha' & En). cbn [mbind option_bind]. exists (specDequeue sp).2.
      split; cbn [lists waiting log]; [done|rewrite En; by apply wf_dequeue|by apply hist_dequeue; [|apply Hwf]|].
      intros t w Ht. rewrite En. eapply waitOk_mono; [by apply (Hw t)|done|]. intros y' Hy'. left. by apply entries_dequeue in Hy'.
    + cbn [BrDequeueNonBlock negb mbind option_bind]. exists sp. split; cbn [lists waiting log]; try done. by rewrite app_nil_r.
Qed.

(** What a call of [BrEnqueueNonBlock] that ends with the action [a] answers:
    its message, its code, and whether the message was stored. *)
Definition brAnswer (sys : System) (a : Action) : option (Z * Z * bool) :=
  match a with
  | Start t lockOk mem msg =>
      match waiting sys !! t, BrEnqueueNonBlock attr lockOk mem (lists sys) msg with
      | None, Some (_, Returned ret stored) => Some (msg, ret, stored)
      | _, _ => None
      end
  | Resume t condOk =>
      match waiting sys !! t with
      | Some w => match BrEnqueueResume condOk (lists sys) w with Some (_, Returned ret stored) => Some (wmsg w, ret, stored) | _ => None end
      | None => None
      end
  | Dequeue _ _ => None
  end.

Lemma BrEnqueueWait_stored (st : Lists Q) w st' ret : BrEnqueueWait st w = Some (st', Returned ret true) -> ret = SOFTBUS_OK.
Proof.
  unfold BrEnqueueWait. intros E. apply option.bind_Some in E as (q & _ & E). apply option.bind_Some in E as (lim & _ & E).
  destruct (WaitQueueLength _ _ _ _) as [c|]; [|done]. destruct (negb _); [done|]. apply option.bind_Some in E as ([r st2] & _ & E).
  destruct (wowner w); [injection E as _ <- Er; by apply Z.eqb_eq in Er|]. destruct (negb _); [done|]. by injection E.
Qed.

(** A message reported as sent is stored, but for a full queue. *)
Lemma wait_answer sys sp w ls st' ret stored : BrInv sys sp -> waitOk brKey sp (next (lists sys)) w -> specAt sp (wowner w) = Some ls ->
  BrEnqueueWait (lists sys) w = Some (st', Returned ret stored) ->
  (stored = true -> ret = SOFTBUS_OK) /\ (ret = SOFTBUS_OK -> stored = true \/ length (content sp (brKey (wmsg w))) = 31%nat).
Proof.
  intros [Ha Hwf _ _] (Hm & Hp & Ho) Hat E. destruct (BrEnqueueWait_spec _ _ _ _ Ha Hwf Hm Hp Hat) as (st2 & out2 & E2 & _ & Hout).
  rewrite E in E2. injection E2 as <- <-. destruct Hout as [_ Hfull].
  split; [intros ->; by eapply BrEnqueueWait_stored|]. intros Hr. destruct stored; [by left|right].
  destruct (Hfull Hr eq_refl) as (l & Hl & <-). f_equal. replace (brKey (wmsg w)) with ((brKey (wmsg w)).1, wprio w) by (rewrite Hp; by destruct (brKey (wmsg w))).
  apply (content_at brKey sp (wowner w) _ _ ls); [apply Hwf|done| |done].
  destruct (wowner w) as [|a]; [by rewrite Ho|]. destruct Ho as [_ Ho]. by apply (ownerKey_item sp a ls).
Qed.

Lemma brAnswer_spec sys sp a m ret stored : BrInv sys sp -> brAnswer sys a = Some (m, ret, stored) ->
  (stored = true -> ret = SOFTBUS_OK) /\ (ret = SOFTBUS_OK -> stored = true \/ length (content sp (brKey m)) = 31%nat).
Proof.
  intros HI E. pose proof HI as [Ha Hwf Hh Hw]. destruct a as [t lockOk mem msg|t condOk|]; [..|done]; cbn [brAnswer] in E.
  - destruct (waiting sys !! t); [done|]. destruct (BrEnqueueNonBlock attr lockOk mem (lists sys) msg) as [[st' [ret' stored'|]]|] eqn:Ee; [|done..].
    injection E as <- <- <-. unfold BrEnqueueNonBlock in Ee. destruct (Z.eqb_spec msg 0) as [|Hm]; [by injection Ee as _ <- <-|].
    destruct lockOk; cbn [negb] in Ee; [|by injection Ee as _ <- <-].
    destruct ((npid (attr msg) =? 0) && nisInner (attr msg)) eqn:Ek.
    { eapply (wait_answer sys sp (MkWaiting msg (GetPriority (nflag (attr msg))) Inner 0) _ st' ret' stored' HI); [|reflexivity|exact Ee].
      split_and!; [done|done|]. cbn. by rewrite Ek. }
    destruct (findPid (npid (attr msg)) (lists sys)) as [x|] eqn:Ef.
    { destruct (findPid_found _ _ _ _ _ Ha Ef) as (y & Hy & Ea & Ep). destruct (proj2 (specAt_some sp (addr x))) as [ls Els]; [by eauto|].
      eapply (wait_answer sys sp (MkWaiting msg (GetPriority (nflag (attr msg))) (Item (addr x)) 0) ls st' ret' stored' HI); [|exact Els|exact Ee].
      split_and!; [done|done|]. cbn. rewrite Ek. split; [rewrite <- Ea; by apply Hwf|]. intros y' Hy' Ey'.
      rewrite (same_entry _ y' y (wf_addr _ _ Hwf)); [by rewrite Ep|done|done|by rewrite Ey']. }
    destruct (CreateBrQueue mem _ _) as [x|] eqn:Ec; [|by injection Ee as _ <- <-].
    destruct (start_new sys sp t mem msg x HI Hm Ek Ef Ec) as (r & st2 & sp' & E2 & -> & _). rewrite E2 in Ee. cbn in Ee.
    injection Ee as _ <- <-. by split; [|left].
  - destruct (waiting sys !! t) as [w|] eqn:Ew; [|done]. destruct (BrEnqueueResume condOk (lists sys) w) as [[st' [ret' stored'|]]|] eqn:Ee; [|done..].
    injection E as <- <- <-. unfold BrEnqueueResume in Ee. destruct condOk; cbn [negb] in Ee; [|by injection Ee as _ <- <-].
    destruct (specAt sp (wowner w)) as [ls|] eqn:Els; [by eapply wait_answer; [|by apply (Hw t)|..]|].
    destruct (wowner w) as [|ad] eqn:Eo; [done|]. apply (specAt_owner BR_QUEUE_LIMIT (lists sys) sp ad Ha) in Els.
    unfold BrEnqueueWait, queueAt in Ee. by rewrite Eo, Els in Ee.
Qed.

(** The log follows the answers. *)
Lemma brAnswer_log sys a sys' m ret stored : brAnswer sys a = Some (m, ret, stored) -> brStep sys a = Some sys' ->
  log sys' = log sys ++ if stored then [Stored m] else [].
Proof.
  destruct a as [t lockOk mem msg|t condOk|]; [..|done]; cbn [brAnswer brStep].
  - destruct (waiting sys !! t); [done|]. destruct (BrEnqueueNonBlock _ _ _ _ _) as [[st' [ret' stored'|]]|]; [|done..].
    by intros [= -> -> ->] [= <-].
  - destruct (waiting sys !! t) as [w|]; [|done]. destruct (BrEnqueueResume _ _ _) as [[st' [ret' stored'|]]|]; [|done..].
    by intros [= <- -> ->] [= <-].
Qed.

Lemma brRun_inv acts : forall sys sys' sp, BrInv sys sp -> brRun acts sys = Some sys' -> exists sp', BrInv sys' sp'.
Proof.
  induction acts as [|a acts IH]; intros sys sys' sp HI; cbn [brRun]; [intros [= <-]; by eauto|].
  pose proof (brStep_inv sys sp a HI) as [Hs _]. destruct (brStep sys a) as [sys1|]; [|done]. cbn [mbind option_bind].
  destruct Hs as [sp1 H1]. by apply (IH sys1 sys' sp1).
Qed.

End BrSystem.

(** ** The Low Energy queue under every schedule *)

Section BleSystem.

Context {Q : Type} `{FifoLaws Q} (attr : Z -> SendNode).

Record BleSystem := MkBleSystem { blists : Lists Q; pending : gmap nat Waiting; blog : list Event }.

(** A thread runs [BleEnqueueNonBlock] up to the unlock, stores its message,
    or the sending thread calls [BleDequeueNonBlock]. *)
Inductive BleAction :=
| Find (t : nat) (lockOk : bool) (mem : nat -> bool) (msg : Z)
| Store (t : nat)
| Take (lockOk : bool).

Definition bleStep (sys : BleSystem) (a : BleAction) : option BleSystem :=
  match a with
  | Find t lockOk mem msg =>
      match pending sys !! t with
      | Some _ => Some sys
      | None =>
          let '(st, r) := BleEnqueueFind attr lockOk mem (blists sys) msg in
          Some (MkBleSystem st match r with
            | inl _ => pending sys
            | inr o => <[t := MkWaiting msg (GetPriority (nflag (attr msg))) o 0]> (pending sys)
            end (blog sys))
      end
  | Store t =>
      match pending sys !! t with
      | None => Some sys
      | Some w =>
          '(r, st) ← BleEnqueueStore attr (blists sys) (wowner w) (wmsg w);
          Some (MkBleSystem st (delete t (pending sys)) (blog sys ++ if r =? 0 then [Stored (wmsg w)] else []))
      end
  | Take lockOk =>
      '(_, m, st) ← BleDequeueNonBlock lockOk (blists sys);
      Some (MkBleSystem st (pending sys) (blog sys ++ match m with Some x => [Taken x] | None => [] end))
  end.

Fixpoint bleRun (acts : list BleAction) (sys : BleSystem) : option BleSystem :=
  match acts with
  | [] => Some sys
  | a :: acts' => sys' ← bleStep sys a; bleRun acts' sys'
  end.

Definition bleKey (m : Z) : option Z * nat :=
  (if npid (attr m) =? 0 then None else Some (npid (attr m)), GetPriority (nflag (attr m))).

Record BleInv (sys : BleSystem) (sp : Spec) : Prop := {
  ble_abs : abs BLE_QUEUE_LIMIT (blists sys) sp;
  ble_wf : wfSpec (next (blists sys)) sp;
  ble_hist : histOk bleKey (blog sys) sp;
  ble_wait : forall t w, pending sys !! t = Some w -> waitOk bleKey sp (next (blists sys)) w;
}.

Definition bleStale (sys : BleSystem) (a : BleAction) : Prop :=
  exists t w ad, a = Store t /\ pending sys !! t = Some w /\ wowner w = Item ad /\ ownerOf (blists sys) (Item ad) = None.

Lemma ble_limits : Forall (fun l => exists k, 0 <= k <= 13 /\ l = 2 ^ k) BLE_QUEUE_LIMIT.
Proof. repeat constructor; [exists 5|exists 5|exists 4]; lia. Qed.

Lemma BleGetMsg_spec (x : PidQueue Q) ls : implements BLE_QUEUE_LIMIT (queue x) ls ->
  exists qs, BleGetMsg x = Some ((specTake ls).1, MkPidQueue (addr x) (pid x) qs) /\
    implements BLE_QUEUE_LIMIT qs (specTake ls).2.
Proof.
  intros Hi. destruct (bleGetLoop_spec _ _ _ Hi) as (qs & E & Hq). unfold BleGetMsg. rewrite E. by eauto.
Qed.

(** A failure to lock leaves the round as it is. *)
Lemma BleDequeue_spec lockOk st sp : abs BLE_QUEUE_LIMIT st sp ->
  exists ret m st' sp', BleDequeueNonBlock lockOk st = Some (ret, m, st') /\
    abs BLE_QUEUE_LIMIT st' sp' /\ next st' = next st /\
    ((m, sp') = specDequeue sp \/ lockOk = false /\ m = None /\ sp' = sp).
Proof.
  intros [(i & Ei & Hi) Hf]. unfold BleDequeueNonBlock. rewrite Ei. cbn [mbind option_bind].
  destruct (BleGetMsg_spec i _ Hi) as (qs' & E & Hi'). rewrite E. cbn [mbind option_bind].
  unfold specDequeue. pose proof (specTake_none (sinner sp)) as Hn. destruct (specTake (sinner sp)) as [[x|] ls]; cbn [fst snd] in *.
  { eexists _, _, _, _. split; [done|]. split; [|split; [done|by left]]. split; [by eexists|done]. }
  rewrite (Hn eq_refl) in Hi'. clear Hn. destruct lockOk; cbn [negb].
  2: { eexists _, _, _, sp. split; [done|]. split; [|split; [done|by right]]. split; [by eexists|done]. }
  destruct (items st) as [|x xs] eqn:Ex, (sitems sp) as [|[ap lx] ys] eqn:Ey; try by inversion Hf.
  { eexists _, _, _, sp. split; [done|]. split; [|split; [done|by left]]. split; [by eexists|]. cbn [snd items]. by rewrite Ey. }
  apply Forall2_cons in Hf as [Hxy Hf'].
  destruct Hxy as (E1 & E2 & E3). cbn [fst snd] in E1, E2, E3.
  destruct (BleGetMsg_spec x _ E3) as (qs2 & E4 & Hx'). rewrite E4. cbn [mbind option_bind].
  destruct (specTake lx) as [[v|] lx']; cbn [fst snd] in *; eexists _, _, _, _; (split; [done|]);
    (split; [|split; [done|by left]]); (split; [by eexists|]); cbn [items sitems]; [|done].
  apply Forall2_app; [done|]. constructor; [|constructor]. by split_and!.
Qed.

Lemma find_inv sys sp t lockOk mem msg : BleInv sys sp -> pending sys !! t = None ->
  exists sp', BleInv (default sys (bleStep sys (Find t lockOk mem msg))) sp'.
Proof.
  intros HI Ht. pose proof HI as [Ha Hwf Hh Hw]. cbn [bleStep]. rewrite Ht. unfold BleEnqueueFind.
  assert (BleInv (MkBleSystem (blists sys) (pending sys) (blog sys)) sp) as Hsame by (by destruct sys).
  destruct (Z.eqb_spec msg 0) as [|Hm]; [by eauto|].
  destruct (Z.eqb_spec (npid (attr msg)) 0) as [Hp|Hp].
  { exists sp. split; cbn [default id blists pending blog]; try done. intros t' w [[_ <-]|[_ Hw']]%lookup_insert_Some; [|by apply (Hw t')].
    split_and!; [done|done|]. cbn. by rewrite (proj2 (Z.eqb_eq _ _) Hp). }
  destruct lockOk; cbn [negb]; [|by eauto]. apply Z.eqb_neq in Hp as Hp'.
  destruct (findPid (npid (attr msg)) (blists sys)) as [x|] eqn:Ef.
  { destruct (findPid_found _ _ _ _ _ Ha Ef) as (y & Hy & Ea & Ep). exists sp. split; cbn [default id blists pending blog]; try done.
    intros t' w [[_ <-]|[_ Hw']]%lookup_insert_Some; [|by apply (Hw t')]. split_and!; [done|done|]. cbn. rewrite Hp'.
    split; [rewrite <- Ea; by apply Hwf|]. intros y' Hy' Ey'.
    rewrite (same_entry _ y' y (wf_addr _ _ Hwf)); [by rewrite Ep|done|done|by rewrite Ey']. }
  destruct (CreateBleQueue mem _ _) as [x|] eqn:Ec; [|by eauto].
  apply (create_spec BLE_QUEUE_LIMIT ble_limits) in Ec as (Ea & Ep & Hq). cbn [fst snd] in Ea, Ep.
  pose proof (findPid_absent _ _ _ _ Ha Ef) as Habs.
  exists (MkSpec (sinner sp) (sitems sp ++ [(next (blists sys), npid (attr msg), replicate 3 [])])).
  split; cbn [default id blists pending blog].
  - destruct Ha as [Hi Hf]. split; cbn; [done|]. apply Forall2_app; [done|]. constructor; [|constructor]. by split_and!.
  - by apply wf_append.
  - by apply hist_append.
  - intros t' w [[_ <-]|[_ Hw']]%lookup_insert_Some.
    + split_and!; [done|done|]. cbn. rewrite Hp', Ea. split; [lia|]. intros y Hy Ey.
      apply elem_of_app in Hy as [Hy|Hy]; [apply Hwf in Hy; lia|]. by apply list_elem_of_singleton in Hy as ->.
    + eapply waitOk_mono; [by apply (Hw t')|cbn; lia|]. intros y' [Hy|Hy]%elem_of_app; [left; by exists y'|].
      apply list_elem_of_singleton in Hy as ->. by right.
Qed.

Lemma bleStep_inv sys sp a : BleInv sys sp ->
  match bleStep sys a with
  | Some sys' => exists sp', BleInv sys' sp'
  | None => bleStale sys a
  end /\ (bleStale sys a -> bleStep sys a = None).
Proof.
  intros HI. pose proof HI as [Ha Hwf Hh Hw]. destruct a as [t lockOk mem msg|t|lockOk].
  - split; [|by intros (? & ? & ? & ? & _)]. cbn [bleStep]. destruct (pending sys !! t) eqn:Et; [by eauto|].
    pose proof (find_inv sys sp t lockOk mem msg HI Et) as Hf. cbn [bleStep] in Hf. rewrite Et in Hf.
    by destruct (BleEnqueueFind attr lockOk mem (blists sys) msg).
  - cbn [bleStep]. destruct (pending sys !! t) as [w|] eqn:Ew; [|split; [by eauto|by intros (? & ? & ? & [= <-] & E & _); congruence]].
    pose proof (Hw t w Ew) as (Hm & Hp & Ho). unfold BleEnqueueStore. destruct (specAt sp (wowner w)) as [ls|] eqn:Els.
    + destruct (specAt_implements _ _ _ _ _ Ha Els) as [qs Hq].
      destruct (priority_lookup BLE_QUEUE_LIMIT ls qs (nflag (attr (wmsg w))) eq_refl Hq) as (l & lim & Hl & _).
      destruct (enqueueAt_spec _ _ sp (wowner w) _ (wmsg w) ls l Ha Els Hl (wf_addr _ _ Hwf) Hm)
        as (r & st' & lim' & Ee & En & Elim & Hr). rewrite Ee. cbn [mbind option_bind]. split.
      * destruct (Z.of_nat (length l) <? lim' - 1); destruct Hr as [Hr Ha'].
        -- exists (specStore sp (wowner w) (GetPriority (nflag (attr (wmsg w)))) (wmsg w)).
           split; cbn [blists pending blog]; [done|rewrite En; by apply wf_store| |].
           ++ rewrite Hr. cbn [Z.eqb]. eapply (hist_store bleKey (blog sys) sp (wowner w) (bleKey (wmsg w)).1);
                [done|apply Hwf|apply Hwf|done| |done|done].
              destruct (wowner w) as [|a]; [by rewrite Ho|]. destruct Ho as [_ Ho]. by apply (ownerKey_item sp a ls).
           ++ intros t' w' [_ Hw']%lookup_delete_Some. rewrite En. eapply waitOk_mono; [by apply (Hw t')|done|].
              intros y' Hy'. left. by apply entries_store in Hy'.
        -- exists sp. split; cbn [blists pending blog]; [done|by rewrite En| |].
           ++ rewrite (proj2 (Z.eqb_neq r 0) Hr). by rewrite app_nil_r.
           ++ intros t' w' [_ Hw']%lookup_delete_Some. rewrite En. by apply (Hw t').
      * intros (t' & w' & ad & [= <-] & E1 & E2 & E3). rewrite Ew in E1. injection E1 as <-.
        rewrite E2 in Els. apply (specAt_owner BLE_QUEUE_LIMIT (blists sys) sp ad Ha) in E3. congruence.
    + destruct (wowner w) as [|ad] eqn:Eo; [done|]. apply (specAt_owner BLE_QUEUE_LIMIT (blists sys) sp ad Ha) in Els.
      unfold enqueueAt, queueAt. rewrite Els. cbn. split; [|done]. by exists t, w, ad.
  - split; [|by intros (? & ? & ? & ? & _)]. cbn [bleStep].
    destruct (BleDequeue_spec lockOk _ _ Ha) as (ret & m & st' & sp' & -> & Ha' & En & Hor). cbn [mbind option_bind].
    exists sp'. destruct Hor as [E|(_ & -> & ->)].
    + rewrite (surjective_pairing (specDequeue sp)) in E. injection E as -> ->.
      split; cbn [blists pending blog]; [done|rewrite En; by apply wf_dequeue|by apply hist_dequeue; [|apply Hwf]|].
      intros t w Ht. rewrite En. eapply waitOk_mono; [by apply (Hw t)|done|]. intros y' Hy'. left. by apply entries_dequeue in Hy'.
    + split; cbn [blists pending blog]; [done|by rewrite En|by rewrite app_nil_r|]. intros t w Ht. rewrite En. by apply (Hw t).
Qed.

Lemma bleRun_inv acts : forall sys sys' sp, BleInv sys sp -> bleRun acts sys = Some sys' -> exists sp', BleInv sys' sp'.
Proof.
  induction acts as [|a acts IH]; intros sys sys' sp HI; cbn [bleRun]; [intros [= <-]; by eauto|].
  pose proof (bleStep_inv sys sp a HI) as [Hs _]. destruct (bleStep sys a) as [sys1|]; [|done]. cbn [mbind option_bind].
  destruct Hs as [sp1 H1]. by apply (IH sys1 sys' sp1).
Qed.

End BleSystem.

(** ** Properties *)

Definition noLists {Q} : Lists Q := MkLists None [] 0.

Lemma emptySpec_hist keyOf n : histOk keyOf [] (MkSpec (replicate n []) []).
Proof.
  intros [[p|] pr]; unfold content; cbn; [done|]. destruct (replicate n [] !! pr) as [l|] eqn:E; [|done].
  by apply lookup_replicate in E as [-> _].
Qed.

Lemma emptySpec_wf b n : wfSpec b (MkSpec (replicate n []) []).
Proof. split; [apply NoDup_nil_2|apply NoDup_nil_2|]. intros y Hy. by apply elem_of_nil in Hy. Qed.

Lemma br_init_inv `{FifoLaws Q} attr mem (st : Lists Q) : BrInnerQueueInit true true true mem noLists = (SOFTBUS_OK, st) ->
  BrInv attr (MkSystem st ∅ []) (MkSpec (replicate 3 []) []).
Proof.
  unfold BrInnerQueueInit. cbn [negb orb next items noLists].
  destruct (CreateBrQueue mem 0 0) as [x|] eqn:E; [|done]. intros [= <-].
  apply (create_spec BR_QUEUE_LIMIT br_limits) in E as (_ & _ & Hq).
  split; cbn [lists waiting log]; [|apply emptySpec_wf|apply emptySpec_hist|by intros t w; rewrite lookup_empty].
  split; [by eexists|constructor].
Qed.

Lemma ble_init_inv `{FifoLaws Q} attr mem (st : Lists Q) : BleInnerQueueInit true mem noLists = (SOFTBUS_OK, st) ->
  BleInv attr (MkBleSystem st ∅ []) (MkSpec (replicate 3 []) []).
Proof.
  unfold BleInnerQueueInit. cbn [negb next items noLists].
  destruct (CreateBleQueue mem 0 0) as [x|] eqn:E; [|done]. intros [= <-].
  apply (create_spec BLE_QUEUE_LIMIT ble_limits) in E as (_ & _ & Hq).
  split; cbn [blists pending blog]; [|apply emptySpec_wf|apply emptySpec_hist|by intros t w; rewrite lookup_empty].
  split; [by eexists|constructor].
Qed.

(** C16: [br_connection_queue.c] under every schedule of any number of sending
    threads and the dequeuing thread, with every outcome of locks, waits and
    allocations.  The messages stored in the queue of a process and priority
    are exactly those taken from it followed by those it holds, in the order
    in which they were stored: a stored message is not lost, duplicated or
    reordered.  A call that stores its message returns [SOFTBUS_OK]; a call
    that returns [SOFTBUS_OK] has stored it, unless the queue of its process
    and priority holds 31 messages, which is full: then the message is lost
    though the caller is told it was sent ([br_message_lost]).  The next action
    has a result unless it is that of a thread that waited for room in a queue
    which was destroyed in the meantime. *)
Theorem br_send_queue `{FifoLaws Q} attr mem (st : Lists Q) acts sys :
  BrInnerQueueInit true true true mem noLists = (SOFTBUS_OK, st) ->
  brRun attr acts (MkSystem st ∅ []) = Some sys ->
  (exists sp, abs BR_QUEUE_LIMIT (lists sys) sp /\
    (forall key, filter (fun m => brKey attr m = key) (storedOf (log sys)) =
       filter (fun m => brKey attr m = key) (takenOf (log sys)) ++ content sp key) /\
    (forall a m ret stored, brAnswer attr sys a = Some (m, ret, stored) ->
       (stored = true -> ret = SOFTBUS_OK) /\
       (ret = SOFTBUS_OK -> stored = true \/ length (content sp (brKey attr m)) = 31%nat) /\
       forall sys', brStep attr sys a = Some sys' -> log sys' = log sys ++ if stored then [Stored m] else [])) /\
  forall a, brStep attr sys a = None <-> stale sys a.
Proof.
  intros Hi Hr. destruct (brRun_inv attr acts _ _ _ (br_init_inv attr mem st Hi) Hr) as [sp HI]. split.
  - exists sp. split_and!; [apply HI|apply HI|]. intros a m ret stored E. destruct (brAnswer_spec attr sys sp a m ret stored HI E).
    split_and!; [done|done|]. intros sys' Hs. by eapply brAnswer_log.
  - intros a. pose proof (brStep_inv attr sys sp a HI) as [H1 H2]. destruct (brStep attr sys a); split; auto; done.
Qed.

(** The same of [softbus_ble_queue.c], whose enqueue stores a message
    after it has released the lock: the next action has a result unless it
    stores into a queue that was destroyed since the lock was released. *)
Theorem ble_send_queue `{FifoLaws Q} attr mem (st : Lists Q) acts sys :
  BleInnerQueueInit true mem noLists = (SOFTBUS_OK, st) ->
  bleRun attr acts (MkBleSystem st ∅ []) = Some sys ->
  (exists sp, abs BLE_QUEUE_LIMIT (blists sys) sp /\ forall key,
     filter (fun m => bleKey attr m = key) (storedOf (blog sys)) =
     filter (fun m => bleKey attr m = key) (takenOf (blog sys)) ++ content sp key) /\
  forall a, bleStep attr sys a = None <-> bleStale sys a.
Proof.
  intros Hi Hr. destruct (bleRun_inv attr acts _ _ _ (ble_init_inv attr mem st Hi) Hr) as [sp HI].
  split; [exists sp; split; apply HI|]. intros a. pose proof (bleStep_inv attr sys sp a HI) as [H1 H2].
  destruct (bleStep attr sys a); split; auto; done.
Qed.

(** ** Fairness *)

Fixpoint specDrain (n : nat) (sp : Spec) : list (option Z) * Spec :=
  match n with
  | O => ([], sp)
  | S n' => let '(m, sp1) := specDequeue sp in let '(ms, sp2) := specDrain n' sp1 in (m :: ms, sp2)
  end.

(** [n] calls of [BrDequeueNonBlock] in a row. *)
Fixpoint brDrain `{Fifo Q} (n : nat) (st : Lists Q) : option (list (option Z) * Lists Q) :=
  match n with
  | O => Some ([], st)
  | S n' => '(_, m, st1) ← BrDequeueNonBlock true true st; '(ms, st2) ← brDrain n' st1; Some (m :: ms, st2)
  end.

Lemma brDrain_spec `{FifoLaws Q} n : forall (st : Lists Q) sp, abs BR_QUEUE_LIMIT st sp ->
  exists st', brDrain n st = Some ((specDrain n sp).1, st') /\ abs BR_QUEUE_LIMIT st' (specDrain n sp).2.
Proof.
  induction n as [|n IH]; intros st sp Ha; [by eauto|]. cbn [brDrain specDrain].
  destruct (BrDequeue_spec true st sp Ha) as (ret & st1 & -> & Ha1 & _). cbn [mbind option_bind].
  destruct (specDequeue sp) as [m sp1]. cbn [fst snd] in *. destruct (IH st1 sp1 Ha1) as (st2 & -> & Ha2).
  cbn [mbind option_bind]. destruct (specDrain n sp1). by eauto.
Qed.

Lemma specDrain_turn i : forall sp ap ls m, (specTake (sinner sp)).1 = None -> sitems sp !! i = Some (ap, ls) ->
  (specTake ls).1 = Some m -> (specDrain (S i) sp).1 !! i = Some (Some m).
Proof.
  induction i as [|i IH]; intros sp ap ls m Hi Hl Hm.
  - cbn [specDrain]. unfold specDequeue. destruct (specTake (sinner sp)) as [x i]. cbn in Hi. subst x.
    destruct (sitems sp) as [|y rest]; [done|]. injection Hl as ->. destruct (specTake ls) as [x ls']. cbn in Hm. by subst x.
  - change (specDrain (S (S i)) sp) with (let '(m, sp1) := specDequeue sp in let '(ms, sp2) := specDrain (S i) sp1 in (m :: ms, sp2)).
    assert (sinner (specDequeue sp).2 = sinner sp /\ sitems (specDequeue sp).2 !! i = Some (ap, ls)) as [E1 E2].
    { unfold specDequeue. destruct (specTake (sinner sp)) as [x j]. cbn in Hi. subst x.
      destruct (sitems sp) as [|[ap' ls'] rest]; [done|]. cbn in Hl. destruct (specTake ls') as [[v|] l2]; cbn [snd sinner sitems]; [|done].
      split; [done|]. by apply lookup_app_l_Some. }
    destruct (specDequeue sp) as [x sp1]. cbn [snd] in E1, E2. rewrite <- E1 in Hi.
    specialize (IH sp1 ap ls m Hi E2 Hm). by destruct (specDrain (S i) sp1).
Qed.

(** C29: The round robin of [BrDequeueNonBlock] is fair among processes: when
    the bus has no messages of its own, which are served before all others,
    and nothing is added meanwhile, a process with messages at position [i] of
    the round gets its turn with the [i+1]-th of the calls, if none of them is
    refused the lock; that call returns its oldest message of its highest
    priority. *)
Theorem br_round_robin `{FifoLaws Q} (st : Lists Q) sp i ap ls m : abs BR_QUEUE_LIMIT st sp ->
  (specTake (sinner sp)).1 = None -> sitems sp !! i = Some (ap, ls) -> (specTake ls).1 = Some m ->
  exists outs st', brDrain (S i) st = Some (outs, st') /\ outs !! i = Some (Some m).
Proof.
  intros Ha Hi Hl Hm. destruct (brDrain_spec (S i) st sp Ha) as (st' & E & _). eexists _, st'.
  split; [exact E|]. by apply (specDrain_turn i sp ap ls m).
Qed.

(** ** Where the code goes wrong *)

(** Messages 1 to 99 are of process 7, the others of process 8, all of low
    priority. *)
Definition demoAttr (m : Z) : SendNode := MkNode (if m <? 100 then 7 else 8) 1 false.
Definition allOk (_ : nat) : bool := true.

Definition brStart : System (Q := Queue.LockFreeQueue) :=
  MkSystem (BrInnerQueueInit true true true allOk noLists).2 ∅ [].

Definition sendMany (n : nat) : list Action :=
  (fun i => Start 0 true allOk (Z.of_nat (S i))) <$> List.seq 0 n.

(** With a queue that stays full, the thirty-second message is reported as
    sent, but it is not in the queue: [WaitQueueLength] compares with a limit
    of 32 where the queue has room for 31, and the failure of the enqueue is
    returned as the [SOFTBUS_OK] of the wait. *)
Lemma br_message_lost :
  let waits := [Resume 0 true; Resume 0 true] in
  match brRun demoAttr (sendMany 30 ++ [Start 0 true allOk 31] ++ waits ++ [Start 0 true allOk 32; Resume 0 true]) brStart with
  | Some sys =>
      match waiting sys !! 0%nat with
      | Some w => (fun r => r.2) <$> BrEnqueueResume true (lists sys) w = Some (Returned SOFTBUS_OK false)
      | None => False
      end
  | None => False
  end.
Proof. vm_compute. reflexivity. Qed.

(** A thread that waits for room holds on to its queue while the sending
    thread empties and destroys it. *)
Lemma br_use_after_free : exists sys,
  brRun demoAttr (sendMany 30 ++ [Start 0 true allOk 31] ++ replicate 31 (Dequeue true true)) brStart = Some sys /\
  brStep demoAttr sys (Resume 0 true) = None.
Proof. eexists. split; [vm_compute; reflexivity|vm_compute; reflexivity]. Qed.

(** The Low Energy queue needs no full queue for this: a queue just created
    is empty, and the sending thread destroys it before the message is in. *)
Lemma ble_use_after_free :
  bleRun demoAttr [Find 0 true allOk 1; Take true; Store 0]
    (MkBleSystem (Q := Queue.LockFreeQueue) (BleInnerQueueInit true allOk noLists).2 ∅ []) = None.
Proof. vm_compute. reflexivity. Qed.

(** ** Witnesses *)

Definition demoActs : list Action :=
  [Start 0 true allOk 1; Start 1 true allOk 100; Start 0 true allOk 2; Dequeue true true; Dequeue true true].

Lemma br_send_queue_witness : exists sys, brRun demoAttr demoActs brStart = Some sys /\ takenOf (log sys) = [1; 100] /\
  forall a, brStep demoAttr sys a = None <-> stale sys a.
Proof.
  eexists. split; [vm_compute; reflexivity|]. split; [done|].
  apply (br_send_queue demoAttr allOk (BrInnerQueueInit true true true allOk noLists).2 demoActs); by vm_compute.
Defined.

Definition bleStart : BleSystem (Q := Queue.LockFreeQueue) := MkBleSystem (BleInnerQueueInit true allOk noLists).2 ∅ [].

Lemma ble_send_queue_witness : exists sys,
  bleRun demoAttr [Find 0 true allOk 1; Find 1 true allOk 2; Store 1; Take true; Store 0] bleStart = Some sys /\
  storedOf (blog sys) = [2; 1] /\ takenOf (blog sys) = [2] /\
  forall a, bleStep demoAttr sys a = None <-> bleStale sys a.
Proof.
  eexists. split; [vm_compute; reflexivity|]. split; [done|]. split; [done|].
  apply (ble_send_queue demoAttr allOk (BleInnerQueueInit true allOk noLists).2
    [Find 0 true allOk 1; Find 1 true allOk 2; Store 1; Take true; Store 0]); by vm_compute.
Defined.

(** Two processes with one message each. *)
Definition demoLists : Lists Queue.LockFreeQueue :=
  default noLists (lists <$> brRun demoAttr [Start 0 true allOk 1; Start 1 true allOk 100] brStart).

Definition demoSpec : Spec := MkSpec [[]; []; []] [(1%nat, 7, [[]; []; [1]]); (2%nat, 8, [[]; []; [100]])].

Lemma demo_abs : abs BR_QUEUE_LIMIT demoLists demoSpec.
Proof.
  assert (forall q l, Queue.holds 5 0 q l -> contents q l (32 - 1)) as Hc by (intros q l Hq; by exists 5, 0).
  split.
  - eexists. split; [vm_compute; reflexivity|].
    repeat constructor; apply Hc; split; vm_compute; try done; by intros [].
  - vm_compute. repeat constructor; apply Hc; split; vm_compute; try done; intros [|i]; done || (by intros x [= <-]).
Qed.

Lemma br_round_robin_witness : exists outs st', brDrain 2 demoLists = Some (outs, st') /\ outs !! 1%nat = Some (Some 100).
Proof. by apply (br_round_robin demoLists demoSpec 1 (2%nat, 8) [[]; []; [100]] 100 demo_abs). Defined.

End SendQueue.
