(* ===== verification/BrTrans.v ===== *)
(** * Frames over classic Bluetooth

    Models [core/connection/br/src/br_trans_manager.c], the packet head of
    [core/connection/common/src/softbus_datahead_transform.c], and the start of
    [BrRecvDataHandle] of [br_connection.c].  A connection is a stream of
    frames, each a head of 24 little-endian bytes with the length of what
    follows; the receiver collects the stream in a buffer per connection and
    hands on one frame per call.

    Of each piece the driver takes what [write] says and the rest never gets
    on the wire.  [br_stream] says that frames whose pieces are taken whole are
    read with [BrTransReadOneFrame], one by one and in order, however the
    socket cuts the stream, and [br_short_write] that a short write breaks it;
    [br_parse_safe] says for which bytes the parser stays inside
    its buffer, and [br_short_frame] and [br_endless_read] what a head from
    the network can do when its length is negative. *)

From S2P Require Import Prelude Errno Bytes Adapter.
Import Errno Bytes Adapter.Mem Adapter.ByteOrder.

Module BrTrans.

Definition MAGIC_NUMBER : Z := 0xBABEFACE.
Definition MODULE_CONNECTION : Z := 11.
(** [sizeof(ConnPktHead)] *)
Definition HEAD_SIZE : Z := 24.
Definition BR_READ_SOCKET_CLOSED : Z := 0.
Definition BR_READ_FAILED : Z := -1.

Record ConnPktHead := MkHead { magic : Z; module : Z; hseq : Z; flag : Z; hlen : Z }.

(** The receive buffer of a [BrConnectionInfo]. *)
Record BrConnectionInfo := MkConn { recvBuf : bytes; recvSize : Z; recvPos : Z }.

Section Host.

(** Whether the host is little-endian. *)
Context (little : bool).

(** ** The head *)

Definition PackConnPktHead (h : ConnPktHead) : option ConnPktHead :=
  m ← SoftBusHtoLl little (u32 (magic h));
  f ← SoftBusHtoLl little (u32 (flag h));
  d ← SoftBusHtoLl little (u32 (module h));
  l ← SoftBusHtoLl little (hlen h);
  q ← SoftBusHtoLll little (u64 (hseq h));
  Some (MkHead (s32 m) (s32 d) (s64 q) (s32 f) l).

(** The packed struct in memory. *)
Definition headBytes (h : ConnPktHead) : bytes :=
  host_bytes little 4 (u32 (magic h)) ++ host_bytes little 4 (u32 (module h)) ++
  host_bytes little 8 (u64 (hseq h)) ++ host_bytes little 4 (u32 (flag h)) ++ host_bytes little 4 (hlen h).

Definition loadN (n : nat) (b : bytes) (off : Z) : option Z := host_val little <$> get b off (Z.of_nat n).

Definition unpackN (n : nat) (b : bytes) (off : Z) : option bytes :=
  v ← loadN n b off;
  v' ← convert little n v;
  put b off (host_bytes little n v').

(** In place, in the order of the code. *)
Definition UnpackConnPktHead (b : bytes) : option bytes :=
  b1 ← unpackN 4 b 0;
  b2 ← unpackN 4 b1 16;
  b3 ← unpackN 4 b2 4;
  b4 ← unpackN 4 b3 20;
  unpackN 8 b4 8.

(** ** Receiving *)

(** Signed addition: an overflow has no result. *)
Definition addInt (x y : Z) : option Z := if (x + y <? 2 ^ 31) && (- 2 ^ 31 <=? x + y) then Some (x + y) else None.

Definition ReceivedHeadCheck (conn : BrConnectionInfo) : option (Z * BrConnectionInfo) :=
  if recvPos conn <? HEAD_SIZE then Some (SOFTBUS_ERR, conn)
  else
    b ← UnpackConnPktHead (recvBuf conn);
    m ← loadN 4 b 0;
    l ← loadN 4 b 20;
    if negb (m =? MAGIC_NUMBER) then Some (SOFTBUS_ERR, MkConn b (recvSize conn) 0)
    else
      packLen ← addInt (s32 l) HEAD_SIZE;
      if recvSize conn <? packLen then Some (SOFTBUS_ERR, MkConn b (recvSize conn) 0)
      else Some (SOFTBUS_OK, MkConn b (recvSize conn) (recvPos conn)).

(** The copy of a complete frame, none for NULL. *)
Definition BrRecvDataParse (mem : bool) (conn : BrConnectionInfo) : option (option bytes * BrConnectionInfo) :=
  '(ret, conn1) ← ReceivedHeadCheck conn;
  if negb (ret =? SOFTBUS_OK) then Some (None, conn1)
  else
    let bufLen := recvPos conn1 in
    l ← loadN 4 (recvBuf conn1) 20;
    let packLen := s32 (u64 (s32 l + HEAD_SIZE)) in
    if bufLen <? packLen then Some (None, conn1)
    else if negb (SoftBusMalloc mem (u32 packLen)) then Some (None, conn1)
    else if packLen =? 0 then Some (None, conn1)                  (* memcpy_s with an empty destination *)
    else
      dataCopy ← get (recvBuf conn1) 0 packLen;
      if packLen <? bufLen then
        rest ← get (recvBuf conn1) packLen (bufLen - packLen);
        b ← put (recvBuf conn1) 0 rest;
        Some (Some dataCopy, MkConn b (recvSize conn1) (bufLen - packLen))
      else Some (Some dataCopy, MkConn (recvBuf conn1) (recvSize conn1) (bufLen - packLen)).

(** The socket: what [Read] finds, the peer having sent [stream].  A read
    returns at least one byte, [cut] decides how many more, as far as the space
    goes; with nothing to read it waits.  [inl] is a code of [Read]. *)
Definition sppRead (cut : nat -> nat) (stream : bytes) (space : Z) : bytes * bytes :=
  let n := S (Nat.min (cut (length stream)) (Z.to_nat space - 1)) in (take n stream, drop n stream).

Inductive ReadResult :=
| Frame (frame : bytes)        (* returned with its length *)
| Code (ret : Z)               (* returned without a frame *)
| Waiting                      (* in [Read] *)
| Looping.                     (* in the loop, having used up the fuel *)

(** [fault] says when [Read] fails: the code it returns for a given rest of
    the stream. *)
Fixpoint readLoop (fuel : nat) (mem : bool) (cut : nat -> nat) (fault : nat -> option Z)
    (conn : BrConnectionInfo) (stream : bytes) : option (ReadResult * BrConnectionInfo * bytes) :=
  match fuel with
  | O => Some (Looping, conn, stream)
  | S fuel' =>
      '(m, conn1) ← BrRecvDataParse mem conn;
      match m with
      | Some f => Some (Frame f, conn1, stream)
      | None =>
          let space := recvSize conn1 - recvPos conn1 in
          let second conn2 stream2 :=
            '(m, conn3) ← BrRecvDataParse mem conn2;
            match m with
            | Some f => Some (Frame f, conn3, stream2)
            | None => readLoop fuel' mem cut fault conn3 stream2
            end in
          if 0 <? space then
            match fault (length stream) with
            | Some code =>
                if (code =? BR_READ_SOCKET_CLOSED) || (code =? BR_READ_FAILED)
                then Some (Code BR_READ_SOCKET_CLOSED, conn1, stream)
                else second (MkConn (recvBuf conn1) (recvSize conn1) (s32 (recvPos conn1 + code))) stream
            | None =>
                match stream with
                | [] => Some (Waiting, conn1, stream)
                | _ =>
                    let '(got, rest) := sppRead cut stream space in
                    b ← put (recvBuf conn1) (recvPos conn1) got;
                    second (MkConn b (recvSize conn1) (recvPos conn1 + len got)) rest
                end
            end
          else second conn1 stream
      end
  end.

(** [GetConnectionRef] found the connection, or not. *)
Definition BrTransReadOneFrame (fuel : nat) (mem : bool) (cut : nat -> nat) (fault : nat -> option Z)
    (ref : option BrConnectionInfo) (stream : bytes) : option (ReadResult * option BrConnectionInfo * bytes) :=
  match ref with
  | None => Some (Code BR_READ_FAILED, None, stream)
  | Some conn =>
      '(r, conn1, stream1) ← readLoop fuel mem cut fault conn stream;
      Some (r, Some conn1, stream1)
  end.

(** What the handler of a received frame reads first: the module and the
    number of the packet. *)
Definition BrRecvDataHandle (buf : bytes) : option (Z * Z) :=
  d ← loadN 4 buf 4; q ← loadN 8 buf 8; Some (s32 d, s64 q).

(** ** Sending *)

(** [write k n] is what the k-th [Write], of [n] bytes, returns: -1, or how
    many bytes it has taken, which go to the peer. *)
Definition onWire (writeRet : Z) (chunk : bytes) : bytes := take (Z.to_nat writeRet) chunk.

(** The loop of [BrTransSend]: the code, none while it runs, and what went to
    the peer.  It goes on behind the piece it asked for, however much of it was
    taken.  Before each write the code waits while the link is congested,
    which changes nothing here. *)
Fixpoint sendLoop (fuel : nat) (write : nat -> Z -> Z) (data : bytes) (peerLen : Z) (k : nat) (pos tempLen : Z)
    (sent : list bytes) : option (option Z * list bytes) :=
  if negb (0 <? tempLen) then Some (Some SOFTBUS_OK, sent)
  else match fuel with
  | O => Some (None, sent)
  | S fuel' =>
      let sendLength := if peerLen <? tempLen then peerLen else tempLen in
      chunk ← get data pos sendLength;
      let writeRet := write k sendLength in
      if writeRet =? -1 then Some (Some SOFTBUS_ERR, sent)
      else sendLoop fuel' write data peerLen (S k) (pos + sendLength) (tempLen - sendLength) (sent ++ [onWire writeRet chunk])
  end.

Definition BrTransSend (fuel : nat) (write : nat -> Z -> Z) (brConnInfo : option Z) (peerLen : Z) (data : bytes) (n : Z)
  : option (option Z * list bytes) :=
  match brConnInfo with
  | None => Some (Some SOFTBUS_ERR, [])
  | Some socketFd =>
      if socketFd =? -1 then Some (Some SOFTBUS_ERR, [])
      else sendLoop fuel write data peerLen 0 0 (s32 n) []
  end.

(** The frame around the text of a request or response; the text is what
    [BrAddNumToJson] made, none when it failed. *)
Definition BrPackRequestOrResponse (mem : bool) (text : option bytes) : option (option (bytes * Z)) :=
  match text with
  | None => Some None
  | Some data =>
      let strlen := len data in
      let dataLen := u32 (strlen + 1 + HEAD_SIZE) in
      if negb (SoftBusCalloc mem dataLen) then Some None
      else
        h ← PackConnPktHead (MkHead (s32 MAGIC_NUMBER) MODULE_CONNECTION 1 0 (u32 (strlen + 1)));
        b1 ← put (replicate (Z.to_nat dataLen) 0) 0 (headBytes h);
        b2 ← put b1 HEAD_SIZE (data ++ [0]);
        Some (Some (b2, s32 dataLen))
  end.

End Host.

(** ** On a little-endian host *)

Lemma unpackN_little n b off : is_bytes b -> 0 <= off -> off + Z.of_nat n <= len b -> unpackN true n b off = Some b.
Proof.
  intros Hb H0 Hl. destruct (get_inside b off (Z.of_nat n)) as (bs & E & El & Hbs); [lia..|]. specialize (Hbs Hb).
  unfold unpackN, loadN. rewrite E. cbn [fmap option_fmap option_map mbind option_bind].
  assert (is_u (8 * Z.of_nat n) (host_val true bs)) as Hr by (rewrite <- El; by apply le_val_range).
  rewrite (convert_little n _ Hr). cbn [mbind option_bind]. apply (put_get b off (Z.of_nat n)). rewrite E. f_equal. symmetry.
  assert (length bs = n) as <- by (unfold len in El; lia). by apply le_bytes_val.
Qed.

Lemma Unpack_little b : is_bytes b -> HEAD_SIZE <= len b -> UnpackConnPktHead true b = Some b.
Proof.
  unfold HEAD_SIZE. intros Hb Hl. unfold UnpackConnPktHead.
  repeat (rewrite unpackN_little; [cbn [mbind option_bind]|done|lia|lia]). done.
Qed.

(** ** Frames *)

(** A frame the receiver accepts: the head has the magic number and the length
    of the rest. *)
Definition validFrame (size : Z) (f : bytes) : Prop :=
  is_bytes f /\ HEAD_SIZE <= len f <= size /\
  get f 0 4 = Some (le_bytes 4 MAGIC_NUMBER) /\ get f 20 4 = Some (le_bytes 4 (len f - HEAD_SIZE)).

#[global] Instance validFrame_dec size f : Decision (validFrame size f).
Proof. unfold validFrame. apply _. Defined.

(** A connection with a buffer, and what it has received. *)
Definition connOk (conn : BrConnectionInfo) : Prop :=
  is_bytes (recvBuf conn) /\ len (recvBuf conn) = recvSize conn /\
  HEAD_SIZE <= recvSize conn <= MAX_MALLOC_SIZE /\ 0 <= recvPos conn <= recvSize conn.

Definition content (conn : BrConnectionInfo) : bytes := take (Z.to_nat (recvPos conn)) (recvBuf conn).

Lemma len_content conn : connOk conn -> len (content conn) = recvPos conn.
Proof. intros (_ & Hl & _ & Hp). unfold content, len in *. rewrite length_take. lia. Qed.

Lemma get_take b k off n : off + n <= k -> 0 <= k <= len b -> get (take (Z.to_nat k) b) off n = get b off n.
Proof.
  intros Hk Hb. rewrite <- (take_drop (Z.to_nat k) b) at 2. symmetry. apply get_app_l.
  unfold len in *. rewrite length_take. lia.
Qed.

(** The head of a frame of which enough has arrived. *)
Lemma head_arrived size conn f rest stream : connOk conn -> validFrame size f -> content conn ++ stream = f ++ rest ->
  HEAD_SIZE <= recvPos conn -> size <= recvSize conn ->
  ReceivedHeadCheck true conn = Some (SOFTBUS_OK, conn) /\
  loadN true 4 (recvBuf conn) 20 = Some (len f - HEAD_SIZE).
Proof.
  intros Hc Hf E Hp Hsz. pose proof (len_content conn Hc) as Hlc.
  destruct Hc as (Hb & Hl & Hs & Hpos), Hf as (Hfb & Hfl & Hm & Hn). unfold HEAD_SIZE, MAX_MALLOC_SIZE in *.
  assert (forall off, off + 4 <= 24 -> get (recvBuf conn) off 4 = get f off 4) as Hg.
  { intros off Ho. rewrite <- (get_take _ (recvPos conn)) by lia. fold (content conn).
    rewrite <- (get_app_l (content conn) stream), <- (get_app_l f rest), E by lia. done. }
  assert (loadN true 4 (recvBuf conn) 0 = Some MAGIC_NUMBER) as L0.
  { unfold loadN. change (Z.of_nat 4) with 4. rewrite Hg, Hm by lia. reflexivity. }
  assert (loadN true 4 (recvBuf conn) 20 = Some (len f - 24)) as L20.
  { unfold loadN. change (Z.of_nat 4) with 4. rewrite Hg, Hn by lia. cbn [fmap option_fmap option_map]. f_equal.
    apply (le_val_bytes 4). range. }
  split; [|done]. unfold ReceivedHeadCheck, HEAD_SIZE. rewrite (proj2 (Z.ltb_ge _ _)) by lia.
  rewrite Unpack_little by (done || (unfold HEAD_SIZE; lia)). cbn [mbind option_bind]. rewrite L0, L20. cbn [mbind option_bind].
  change (MAGIC_NUMBER =? MAGIC_NUMBER) with true. cbn [negb].
  rewrite wrapS_id by (lia || range). unfold addInt.
  rewrite (proj2 (Z.ltb_lt _ _)), (proj2 (Z.leb_le _ _)) by lia. cbn [andb mbind option_bind].
  rewrite (proj2 (Z.ltb_ge _ _)) by lia. by destruct conn.
Qed.

Lemma parse_complete size conn f rest : connOk conn -> validFrame size f -> size <= recvSize conn ->
  content conn = f ++ rest ->
  exists conn', BrRecvDataParse true true conn = Some (Some f, conn') /\ connOk conn' /\
    content conn' = rest /\ recvSize conn' = recvSize conn.
Proof.
  intros Hc Hf Hsz E. pose proof (len_content conn Hc) as Hlc. rewrite E, len_app in Hlc. pose proof (len_nonneg rest) as Hr0.
  destruct (head_arrived size conn f rest [] Hc Hf) as [E1 E2]; [by rewrite app_nil_r|destruct Hf as (_ & ? & _); lia|done|].
  unfold BrRecvDataParse. rewrite E1. cbn [mbind option_bind negb Z.eqb SOFTBUS_OK]. rewrite E2. cbn [mbind option_bind].
  destruct Hc as (Hb & Hl & Hs & Hpos). pose proof Hf as (Hfb & Hfl & _). unfold HEAD_SIZE, MAX_MALLOC_SIZE in *.
  assert (s32 (u64 (s32 (len f - 24) + 24)) = len f) as ->.
  { rewrite (wrapS_id 32 (len f - 24)) by (lia || range). rewrite wrapU_id by range.
    rewrite wrapS_id by (lia || range). lia. }
  rewrite (proj2 (Z.ltb_ge _ _)) by lia. unfold SoftBusMalloc, MAX_MALLOC_SIZE.
  rewrite (wrapU_id 32 (len f)) by range. rewrite (proj2 (Z.ltb_ge _ _)) by lia. cbn [negb].
  rewrite (proj2 (Z.eqb_neq (len f) 0)) by lia.
  assert (recvBuf conn = f ++ rest ++ drop (Z.to_nat (recvPos conn)) (recvBuf conn)) as Eb.
  { rewrite app_assoc, <- E. unfold content. by rewrite take_drop. }
  set (junk := drop (Z.to_nat (recvPos conn)) (recvBuf conn)) in *.
  assert (get (recvBuf conn) 0 (len f) = Some f) as -> by (rewrite Eb; by apply get_prefix). cbn [mbind option_bind].
  destruct (Z.ltb_spec (len f) (recvPos conn)) as [Hlt|Hge].
  - assert (get (recvBuf conn) (len f) (recvPos conn - len f) = Some rest) as ->.
    { rewrite Eb. apply get_app; [done|lia]. }
    cbn [mbind option_bind]. rewrite put_zero by (rewrite Hl; lia). cbn [mbind option_bind].
    eexists. split; [done|]. split; [|split; [|done]].
    + split_and!; cbn [recvBuf recvSize recvPos]; unfold HEAD_SIZE, MAX_MALLOC_SIZE; try lia.
      * apply Forall_app. split; [|by apply Forall_drop]. rewrite Eb in Hb. apply Forall_app in Hb as [_ Hb]. by apply Forall_app in Hb as [? _].
      * rewrite len_app. unfold len in *. rewrite length_drop. lia.
    + unfold content. cbn [recvBuf recvPos]. rewrite take_app_le by (unfold len in *; lia).
      apply take_ge. unfold len in *. lia.
  - eexists. split; [done|]. split; [|split; [|done]].
    + split_and!; cbn [recvBuf recvSize recvPos]; unfold HEAD_SIZE, MAX_MALLOC_SIZE; try done; lia.
    + unfold content. cbn [recvBuf recvPos]. replace (recvPos conn - len f) with 0 by lia.
      assert (len rest = 0) as Hz by lia. by destruct rest.
Qed.

Lemma parse_partial size conn f rest stream : connOk conn -> validFrame size f -> size <= recvSize conn ->
  content conn ++ stream = f ++ rest -> recvPos conn < len f ->
  BrRecvDataParse true true conn = Some (None, conn).
Proof.
  intros Hc Hf Hsz E Hlt. unfold BrRecvDataParse. destruct (Z.ltb_spec (recvPos conn) HEAD_SIZE) as [Hs|Hs].
  - unfold ReceivedHeadCheck. rewrite (proj2 (Z.ltb_lt _ _)) by done. done.
  - destruct (head_arrived size conn f rest stream Hc Hf E Hs Hsz) as [E1 E2]. rewrite E1.
    cbn [mbind option_bind negb Z.eqb SOFTBUS_OK]. rewrite E2. cbn [mbind option_bind].
    destruct Hc as (_ & _ & Hsz' & Hpos), Hf as (_ & Hfl & _). unfold HEAD_SIZE, MAX_MALLOC_SIZE in *.
    rewrite (wrapS_id 32 (len f - 24)) by (lia || range). rewrite wrapU_id by range.
    rewrite wrapS_id by (lia || range). rewrite (proj2 (Z.ltb_lt _ _)) by lia. done.
Qed.

(** ** Reading a frame *)

Lemma sppRead_spec cut stream space : stream <> [] -> 0 < space ->
  let '(got, rest) := sppRead cut stream space in
  stream = got ++ rest /\ got <> [] /\ len got <= space /\ (length rest < length stream)%nat.
Proof.
  intros Hs Hsp. unfold sppRead. set (n := S _). split_and!.
  - by rewrite take_drop.
  - subst n. by destruct stream.
  - unfold len. rewrite length_take. subst n. lia.
  - rewrite length_drop. subst n. destruct stream; [done|]. cbn [length]. lia.
Qed.

(** Bytes that arrive are added to the content. *)
Lemma receive_bytes conn got : connOk conn -> is_bytes got -> recvPos conn + len got <= recvSize conn ->
  exists b, put (recvBuf conn) (recvPos conn) got = Some b /\
    connOk (MkConn b (recvSize conn) (recvPos conn + len got)) /\
    content (MkConn b (recvSize conn) (recvPos conn + len got)) = content conn ++ got.
Proof.
  intros (Hb & Hl & Hs & Hp) Hg Hle. pose proof (len_nonneg got) as H0.
  destruct (split_len (recvBuf conn) (recvPos conn)) as (pre & post & E & Epre); [lia|].
  destruct (split_len post (len got)) as (mid & junk & -> & Emid); [rewrite E, len_app in Hl; lia|].
  rewrite E, (put_at pre mid got junk) by done. eexists. split; [done|].
  assert (content conn = pre) as Ec.
  { unfold content. rewrite E. rewrite take_app_length'; [done|]. unfold len in *. lia. }
  split.
  - rewrite E in Hb, Hl. rewrite !len_app in Hl. apply Forall_app in Hb as [Hb1 [_ Hb2]%Forall_app].
    split_and!; cbn [recvBuf recvSize recvPos]; try lia.
    + apply Forall_app. split; [done|]. apply Forall_app. by split.
    + rewrite !len_app. lia.
  - rewrite Ec. unfold content. cbn [recvBuf recvPos]. rewrite app_assoc, take_app_length'; [done|].
    unfold len in *. rewrite length_app. lia.
Qed.

(** Two ways to cut the same bytes. *)
Lemma same_bytes (a s f r : bytes) : a ++ s = f ++ r -> len f <= len a -> exists k, a = f ++ k /\ k ++ s = r.
Proof.
  intros E Hl. apply app_eq_inv in E as [(k & -> & ->)|(k & -> & ->)]; [by eauto|].
  rewrite len_app in Hl. assert (k = []) as -> by (destruct k; [done|]; rewrite len_cons in Hl; pose proof (len_nonneg k); lia).
  exists []. by rewrite !app_nil_r.
Qed.

Lemma parse_done size c f rest s : connOk c -> validFrame size f -> size <= recvSize c ->
  content c ++ s = f ++ rest -> len f <= recvPos c ->
  exists c', BrRecvDataParse true true c = Some (Some f, c') /\ connOk c' /\ recvSize c' = recvSize c /\ content c' ++ s = rest.
Proof.
  intros Hc Hf Hsz E Hle. rewrite <- (len_content c Hc) in Hle. destruct (same_bytes _ _ _ _ E Hle) as (k & Ek & <-).
  destruct (parse_complete size c f k Hc Hf Hsz Ek) as (c' & Ep & H1 & <- & H3). by eauto.
Qed.

Lemma read_frame size cut f : forall fuel conn stream rest, connOk conn -> validFrame size f -> size <= recvSize conn ->
  is_bytes stream -> content conn ++ stream = f ++ rest -> (length stream < fuel)%nat ->
  exists conn' stream', readLoop true fuel true cut (fun _ => None) conn stream = Some (Frame f, conn', stream') /\
    connOk conn' /\ recvSize conn' = recvSize conn /\ is_bytes stream' /\ content conn' ++ stream' = rest.
Proof.
  induction fuel as [|fuel IH]; intros conn stream rest Hc Hf Hsz Hb E Hfuel; [lia|]. cbn [readLoop].
  destruct (Z.lt_ge_cases (recvPos conn) (len f)) as [Hlt|Hge].
  - rewrite (parse_partial size conn f rest stream) by done. cbn [mbind option_bind].
    pose proof (len_content conn Hc) as Hlc. pose proof Hf as (Hfb & Hfl & _).
    rewrite (proj2 (Z.ltb_lt 0 _)) by lia.
    assert (stream <> []) as Hne.
    { intros ->. apply (f_equal len) in E. rewrite app_nil_r, len_app in E. pose proof (len_nonneg rest). lia. }
    pose proof (sppRead_spec cut stream (recvSize conn - recvPos conn) Hne ltac:(lia)) as Hr.
    destruct stream as [|x0 stream0]; [done|]. set (stream := x0 :: stream0) in *.
    destruct (sppRead cut stream (recvSize conn - recvPos conn)) as [got rest']. destruct Hr as (Es & Hg & Hgl & Hrl).
    rewrite Es in Hb, E. apply Forall_app in Hb as [Hb1 Hb2].
    destruct (receive_bytes conn got Hc Hb1 ltac:(lia)) as (b & -> & Hc2 & Ec2). cbn [mbind option_bind].
    set (conn2 := MkConn b (recvSize conn) (recvPos conn + len got)) in *. rewrite app_assoc, <- Ec2 in E.
    destruct (Z.lt_ge_cases (recvPos conn2) (len f)) as [Hlt2|Hge2].
    + rewrite (parse_partial size conn2 f rest rest') by done. cbn [mbind option_bind]. apply (IH conn2 rest' rest); try done. lia.
    + destruct (parse_done size conn2 f rest rest' Hc2 Hf Hsz E Hge2) as (c' & -> & H1 & H2 & H3). cbn [mbind option_bind].
      exists c', rest'. by split_and!.
  - destruct (parse_done size conn f rest stream Hc Hf Hsz E Hge) as (c' & -> & H1 & H2 & H3). cbn [mbind option_bind].
    exists c', stream. by split_and!.
Qed.

(** Reading frame after frame, as the thread of a connection does. *)
Fixpoint readFrames (n : nat) (cut : nat -> nat) (conn : BrConnectionInfo) (stream : bytes)
  : option (list bytes * BrConnectionInfo * bytes) :=
  match n with
  | O => Some ([], conn, stream)
  | S n' =>
      '(r, ref, stream1) ← BrTransReadOneFrame true (S (length stream)) true cut (fun _ => None) (Some conn) stream;
      conn1 ← ref;
      match r with
      | Frame f => '(fs, conn2, stream2) ← readFrames n' cut conn1 stream1; Some (f :: fs, conn2, stream2)
      | _ => Some ([], conn1, stream1)
      end
  end.

Lemma readFrames_spec size cut fs : forall conn stream, connOk conn -> Forall (validFrame size) fs -> size <= recvSize conn ->
  is_bytes stream -> content conn ++ stream = concat fs ->
  exists conn', readFrames (length fs) cut conn stream = Some (fs, conn', []) /\ connOk conn' /\ content conn' = [].
Proof.
  induction fs as [|f fs IH]; intros conn stream Hc Hfs Hsz Hb E.
  - cbn in E. apply app_eq_nil in E as [E1 ->]. by exists conn.
  - apply Forall_cons in Hfs as [Hf Hfs]. cbn [length readFrames]. unfold BrTransReadOneFrame.
    destruct (read_frame size cut f (S (length stream)) conn stream (concat fs) Hc Hf Hsz Hb E ltac:(lia))
      as (c1 & s1 & -> & H1 & H2 & H3 & H4). cbn [mbind option_bind].
    destruct (IH c1 s1 H1 Hfs ltac:(lia) H3 H4) as (c2 & -> & H5 & H6). by eauto.
Qed.

(** ** Sending *)

Lemma brSendLoop_spec write data peerLen : 0 < peerLen -> (forall k n, 0 < n -> write k n = n) -> forall fuel k pos sent,
  0 <= pos <= len data -> len data - pos <= Z.of_nat fuel ->
  exists chunks, sendLoop fuel write data peerLen k pos (len data - pos) sent = Some (Some SOFTBUS_OK, sent ++ chunks) /\
    concat chunks = drop (Z.to_nat pos) data /\ Forall (fun c => len c <= peerLen) chunks.
Proof.
  intros Hp Hw. induction fuel as [|fuel IH]; intros k pos sent Hpos Hf; cbn [sendLoop].
  - rewrite (proj2 (Z.ltb_ge _ _)) by lia. exists []. rewrite app_nil_r. split_and!; [done| |constructor].
    rewrite drop_ge by (unfold len in *; lia). done.
  - destruct (Z.ltb_spec 0 (len data - pos)) as [Hl|Hl]; cbn [negb].
    2: { exists []. rewrite app_nil_r. split_and!; [done| |constructor]. rewrite drop_ge by (unfold len in *; lia). done. }
    set (n := if peerLen <? len data - pos then peerLen else len data - pos).
    assert (0 < n <= len data - pos /\ n <= peerLen) as [Hn Hn2] by (unfold n; destruct (Z.ltb_spec peerLen (len data - pos)); lia).
    destruct (get_inside data pos n) as (chunk & E & El & _); [lia..|]. rewrite E. cbn [mbind option_bind].
    rewrite (Hw k n), (proj2 (Z.eqb_neq n (-1))) by lia. unfold onWire. rewrite take_ge by (unfold len in *; lia).
    replace (len data - pos - n) with (len data - (pos + n)) by lia.
    destruct (IH (S k) (pos + n) (sent ++ [chunk])) as (chunks & -> & E2 & H3); [lia|lia|].
    exists (chunk :: chunks). rewrite <- app_assoc. split_and!; [done| |constructor; [lia|done]].
    cbn [concat]. rewrite E2. apply get_Some in E as (_ & _ & _ & _ & ->).
    rewrite Z2Nat.inj_add by lia. rewrite <- drop_drop. by rewrite take_drop.
Qed.

Lemma BrTransSend_spec write fd data peerLen : fd <> -1 -> 0 < peerLen -> (forall k n, 0 < n -> write k n = n) -> len data < 2 ^ 31 ->
  exists chunks, BrTransSend (length data) write (Some fd) peerLen data (len data) = Some (Some SOFTBUS_OK, chunks) /\
    concat chunks = data /\ Forall (fun c => len c <= peerLen) chunks.
Proof.
  intros Hfd Hp Hw Hl. unfold BrTransSend. rewrite (proj2 (Z.eqb_neq _ _) Hfd). pose proof (len_nonneg data).
  rewrite wrapS_id by (lia || range).
  destruct (brSendLoop_spec write data peerLen Hp Hw (length data) 0 0 []) as (chunks & E & E2 & H3); [lia|unfold len; lia|].
  rewrite Z.sub_0_r in E. exists chunks. by split_and!.
Qed.

Definition freshConn (size : Z) : BrConnectionInfo := MkConn (replicate (Z.to_nat size) 0) size 0.

Lemma fresh_ok size : HEAD_SIZE <= size <= MAX_MALLOC_SIZE -> connOk (freshConn size).
Proof.
  intros Hs. unfold connOk, freshConn. cbn [recvBuf recvSize recvPos]. unfold HEAD_SIZE in *. split_and!; try lia.
  - apply Forall_replicate. by unfold is_u.
  - rewrite len_replicate. lia.
Qed.

(** Writing and reading a list of frames. *)
Lemma stream_frames write fd peerLen cut size fs : fd <> -1 -> 0 < peerLen -> (forall k n, 0 < n -> write k n = n) ->
  HEAD_SIZE <= size <= MAX_MALLOC_SIZE -> Forall (validFrame size) fs ->
  exists writes : list (list bytes),
    Forall2 (fun f ws => BrTransSend (length f) write (Some fd) peerLen f (len f) = Some (Some SOFTBUS_OK, ws) /\
                         Forall (fun c => len c <= peerLen) ws) fs writes /\
    exists conn', readFrames (length fs) cut (freshConn size) (concat (concat writes)) = Some (fs, conn', []) /\
      connOk conn' /\ content conn' = [].
Proof.
  intros Hfd Hp Hw Hsz Hfs.
  assert (exists writes : list (list bytes), Forall2 (fun f ws =>
    (BrTransSend (length f) write (Some fd) peerLen f (len f) = Some (Some SOFTBUS_OK, ws) /\
    Forall (fun c => len c <= peerLen) ws) /\ concat ws = f) fs writes) as [writes H].
  { clear cut. induction Hfs as [|f fs Hf _ [writes IH]]; [by exists []; constructor|].
    destruct (BrTransSend_spec write fd f peerLen Hfd Hp Hw) as (ws & E1 & E2 & E3).
    - destruct Hf as (_ & ? & _). unfold MAX_MALLOC_SIZE in *. lia.
    - exists (ws :: writes). constructor; [done|]. exact IH. }
  exists writes. split; [by eapply Forall2_impl; [exact H|]; intros ? ? [? _]|].
  assert (concat (concat writes) = concat fs) as Ec.
  { clear Hfs. induction H as [|f ws fs writes [_ <-] _ IH]; [done|]. cbn [concat]. by rewrite concat_app, IH. }
  rewrite Ec. apply (readFrames_spec size cut fs); [by apply fresh_ok|done|done| |done].
  clear H Ec. induction Hfs as [|f fs Hf _ IH]; [constructor|]. cbn [concat]. apply Forall_app. split; [apply Hf|done].
Qed.


(** ** Any bytes *)

Lemma loadN_inside n b off : is_bytes b -> 0 <= off -> off + Z.of_nat n <= len b ->
  exists x, loadN true n b off = Some x /\ is_u (8 * Z.of_nat n) x.
Proof.
  intros Hb H0 Hl. destruct (get_inside b off (Z.of_nat n)) as (bs & E & El & Hbs); [lia..|].
  unfold loadN. rewrite E. eexists. split; [done|]. rewrite <- El. apply le_val_range. by apply Hbs.
Qed.

(** The head check of a head whose length fits a signed number. *)
Lemma brHead_safe conn l : connOk conn -> (HEAD_SIZE <= recvPos conn -> loadN true 4 (recvBuf conn) 20 = Some l /\ l < 2 ^ 31 - HEAD_SIZE) ->
  exists ret p, ReceivedHeadCheck true conn = Some (ret, MkConn (recvBuf conn) (recvSize conn) p) /\
    (p = recvPos conn \/ p = 0) /\
    (ret = SOFTBUS_OK -> p = recvPos conn /\ HEAD_SIZE <= p /\ 0 <= l /\ l + HEAD_SIZE <= recvSize conn).
Proof.
  intros (Hb & Hl & Hs & Hp) Hlen. unfold ReceivedHeadCheck.
  destruct (Z.ltb_spec (recvPos conn) HEAD_SIZE) as [Hlt|Hge].
  { exists SOFTBUS_ERR, (recvPos conn). split_and!; [by destruct conn|by left|done]. }
  destruct (Hlen Hge) as [E20 Hl20]. rewrite Unpack_little by (done || lia). cbn [mbind option_bind].
  destruct (loadN_inside 4 (recvBuf conn) 0 Hb) as (m & E0 & _); [lia|unfold HEAD_SIZE in *; lia|].
  destruct (loadN_inside 4 (recvBuf conn) 20 Hb) as (l' & E' & Hl'); [lia|unfold HEAD_SIZE in *; lia|].
  rewrite E20 in E'. injection E' as <-. rewrite E0, E20. cbn [mbind option_bind]. unfold HEAD_SIZE, MAX_MALLOC_SIZE in *.
  destruct (m =? MAGIC_NUMBER); cbn [negb]; [|by eexists _, 0; split_and!; [done|right|]].
  assert (s32 l = l) as -> by (apply wrapS_id; [lia|range]). unfold addInt.
  rewrite (proj2 (Z.ltb_lt _ _)), (proj2 (Z.leb_le _ _)) by range. cbn [andb mbind option_bind].
  destruct (Z.ltb_spec (recvSize conn) (l + 24)); [by eexists _, 0; split_and!; [done|right|]|].
  eexists _, (recvPos conn). split_and!; [done|by left|]. intros _. split_and!; [done|lia|range|lia].
Qed.

(** C30: The parser on any bytes: as long as the length in the head is below
    2^31 - 24, whatever else arrived, [BrRecvDataParse] returns, stays inside
    its buffer and keeps the connection well formed; a frame it hands on has a
    whole head, so that its handler can read it, and is the front of what had
    arrived. *)
Theorem br_parse_safe mem conn l : connOk conn ->
  (HEAD_SIZE <= recvPos conn -> loadN true 4 (recvBuf conn) 20 = Some l /\ l < 2 ^ 31 - HEAD_SIZE) ->
  exists m conn', BrRecvDataParse true mem conn = Some (m, conn') /\ connOk conn' /\
    forall f, m = Some f -> HEAD_SIZE <= len f /\ content conn = f ++ content conn' /\ is_Some (BrRecvDataHandle true f).
Proof.
  intros Hc Hlen. destruct (brHead_safe conn l Hc Hlen) as (ret & p & E & Hp & Hok).
  pose proof (len_content conn Hc) as Hlc. destruct Hc as (Hb & Hl & Hs & Hpos).
  assert (connOk (MkConn (recvBuf conn) (recvSize conn) p)) as Hc1 by (split_and!; cbn; try done; lia).
  unfold BrRecvDataParse. rewrite E. cbn [mbind option_bind].
  destruct (Z.eqb_spec ret SOFTBUS_OK) as [->|]; cbn [negb]; [|by eexists _, _].
  destruct (Hok eq_refl) as (-> & Hh & H0 & Hle). cbn [recvBuf recvSize recvPos]. destruct (Hlen Hh) as [-> _].
  cbn [mbind option_bind]. unfold HEAD_SIZE, MAX_MALLOC_SIZE in *.
  assert (s32 (u64 (s32 l + 24)) = l + 24) as ->.
  { rewrite (wrapS_id 32 l) by (lia || range). rewrite wrapU_id by range. apply wrapS_id; [lia|range]. }
  destruct (Z.ltb_spec (recvPos conn) (l + 24)); [by eexists _, _|].
  destruct (SoftBusMalloc mem (u32 (l + 24))); cbn [negb]; [|by eexists _, _].
  rewrite (proj2 (Z.eqb_neq (l + 24) 0)) by lia.
  destruct (split_len (content conn) (l + 24)) as (f & rest & Ec & Ef); [lia|].
  assert (recvBuf conn = f ++ rest ++ drop (Z.to_nat (recvPos conn)) (recvBuf conn)) as Eb.
  { rewrite app_assoc, <- Ec. unfold content. by rewrite take_drop. }
  set (junk := drop (Z.to_nat (recvPos conn)) (recvBuf conn)) in *. rewrite Ec, len_app in Hlc.
  assert (get (recvBuf conn) 0 (l + 24) = Some f) as -> by (rewrite Eb; apply get_prefix; lia). cbn [mbind option_bind].
  assert (is_bytes f /\ is_bytes rest) as [Hbf Hbr].
  { rewrite Eb in Hb. apply Forall_app in Hb as [? Hb]. by apply Forall_app in Hb as [? _]. }
  assert (is_Some (BrRecvDataHandle true f)) as Hh'.
  { unfold BrRecvDataHandle. destruct (loadN_inside 4 f 4 Hbf) as (x & -> & _); [lia|lia|].
    destruct (loadN_inside 8 f 8 Hbf) as (y & -> & _); [lia|lia|]. by eexists. }
  destruct (Z.ltb_spec (l + 24) (recvPos conn)) as [Hlt|Hge].
  - assert (get (recvBuf conn) (l + 24) (recvPos conn - (l + 24)) = Some rest) as -> by (rewrite Eb; apply get_app; lia).
    cbn [mbind option_bind]. rewrite put_zero by (rewrite Hl; lia). cbn [mbind option_bind].
    eexists _, _. split; [done|]. split.
    + split_and!; cbn [recvBuf recvSize recvPos]; unfold HEAD_SIZE, MAX_MALLOC_SIZE; try lia.
      * apply Forall_app. split; [done|]. by apply Forall_drop.
      * rewrite len_app. unfold len in *. rewrite length_drop. lia.
    + intros f' [= <-]. split_and!; [lia| |done]. rewrite Ec. f_equal. unfold content. cbn [recvBuf recvPos].
      rewrite take_app_le by (unfold len in *; lia). symmetry. apply take_ge. unfold len in *. lia.
  - eexists _, _. split; [done|]. split.
    + split_and!; cbn [recvBuf recvSize recvPos]; unfold HEAD_SIZE, MAX_MALLOC_SIZE; try done; lia.
    + intros f' [= <-]. split_and!; [lia| |done]. rewrite Ec. f_equal. unfold content. cbn [recvBuf recvPos].
      replace (recvPos conn - (l + 24)) with 0 by lia. assert (len rest = 0) by lia. by destruct rest.
Qed.

(** ** Requests and responses *)

(** The fields of a head are of their types. *)
Definition headOk (h : ConnPktHead) : Prop :=
  is_s 32 (magic h) /\ is_s 32 (module h) /\ is_s 64 (hseq h) /\ is_s 32 (flag h) /\ is_u 32 (hlen h).

Lemma convert_wrap n x : convert true n (wrapU (8 * Z.of_nat n) x) = Some (wrapU (8 * Z.of_nat n) x).
Proof. apply convert_little, wrapU_range. lia. Qed.

Lemma wrapS_wrapU w x : wrapS w (wrapU w x) = wrapS w x.
Proof. destruct (wrapU_witness w x) as [k ->]. apply wrapS_shift. Qed.

Lemma pack_little h : headOk h -> PackConnPktHead true h = Some h.
Proof.
  intros (H1 & H2 & H3 & H4 & H5). unfold PackConnPktHead, SoftBusHtoLl, SoftBusHtoLll.
  rewrite !(convert_wrap 4), (convert_wrap 8), (convert_little 4 (hlen h)) by done. cbn [mbind option_bind].
  rewrite !wrapS_wrapU, !wrapS_id by (lia || done). by destruct h.
Qed.

Lemma len_headBytes h : len (headBytes true h) = HEAD_SIZE.
Proof. unfold headBytes. rewrite !len_app. unfold host_bytes. by rewrite !len_le_bytes. Qed.

Lemma headBytes_is_bytes h : is_bytes (headBytes true h).
Proof. unfold headBytes, is_bytes. rewrite !Forall_app. split_and!; apply le_bytes_is_bytes. Qed.

(** A head with the magic number and the length of the body makes a frame. *)
Lemma frame_valid h body size : magic h = s32 MAGIC_NUMBER -> hlen h = len body -> is_bytes body ->
  HEAD_SIZE + len body <= size -> validFrame size (headBytes true h ++ body).
Proof.
  intros Hm Hl Hb Hs. pose proof (len_nonneg body). split_and!; rewrite ?len_app, ?len_headBytes; try lia.
  - apply Forall_app. split; [apply headBytes_is_bytes|done].
  - unfold headBytes. rewrite Hm, <- !app_assoc. by apply get_prefix.
  - replace (HEAD_SIZE + len body - HEAD_SIZE) with (hlen h) by lia. unfold headBytes. rewrite !app_assoc, <- (app_assoc _ _ body).
    by apply get_app.
Qed.

(** The receiver finds the module and the number where the sender put them. *)
Lemma frame_head h body : headOk h -> BrRecvDataHandle true (headBytes true h ++ body) = Some (module h, hseq h).
Proof.
  intros (H1 & H2 & H3 & H4 & H5). unfold BrRecvDataHandle, loadN.
  assert (get (headBytes true h ++ body) 4 (Z.of_nat 4) = Some (le_bytes 4 (u32 (module h)))) as ->.
  { unfold headBytes. rewrite <- !app_assoc. by apply get_app. }
  assert (get (headBytes true h ++ body) 8 (Z.of_nat 8) = Some (le_bytes 8 (u64 (hseq h)))) as ->.
  { unfold headBytes. rewrite <- !app_assoc. rewrite app_assoc. by apply get_app. }
  cbn [fmap option_fmap option_map mbind option_bind]. unfold host_val.
  rewrite (le_val_bytes 4), (le_val_bytes 8) by (apply wrapU_range; lia). by rewrite !wrapS_wrapU, !wrapS_id by (lia || done).
Qed.

(** [BrPackRequestOrResponse] builds a frame the other end accepts, with the
    text and its terminator behind the head. *)
Lemma pack_frame data size : is_bytes data -> len data + 1 + HEAD_SIZE <= size <= MAX_MALLOC_SIZE ->
  exists b, BrPackRequestOrResponse true true (Some data) = Some (Some (b, len b)) /\ validFrame size b /\
    drop 24 b = data ++ [0].
Proof.
  intros Hd Hl. unfold HEAD_SIZE, MAX_MALLOC_SIZE in Hl. pose proof (len_nonneg data) as H0.
  set (h := MkHead (s32 MAGIC_NUMBER) MODULE_CONNECTION 1 0 (len data + 1)). pose proof (len_headBytes h) as Hh. unfold HEAD_SIZE in Hh.
  assert (length (headBytes true h) = 24%nat) as Hh' by (unfold len in Hh; lia).
  exists (headBytes true h ++ data ++ [0]). unfold BrPackRequestOrResponse, HEAD_SIZE.
  rewrite !wrapU_id by range. rewrite calloc_true by (unfold MAX_MALLOC_SIZE; lia). cbn [negb].
  fold h. rewrite (pack_little h) by (split_and!; cbn [magic module hseq flag hlen h]; unfold MODULE_CONNECTION; [apply wrapS_range; lia|range..]).
  cbn [mbind option_bind]. rewrite put_zero by (rewrite len_replicate, Hh; lia). cbn [mbind option_bind]. rewrite Hh'.
  assert (drop 24 (replicate (Z.to_nat (len data + 1 + 24)) 0) = replicate (length data + 1) 0) as ->.
  { rewrite drop_replicate. f_equal. unfold len. lia. }
  rewrite <- (app_nil_r (replicate (length data + 1) 0)), (put_at (headBytes true h) _ (data ++ [0]) []);
    [|done|rewrite len_app, len_replicate; cbn; unfold len; cbn; lia].
  rewrite app_nil_r. cbn [mbind option_bind].
  split; [by rewrite !len_app, Hh, wrapS_id by (lia || range); do 3 f_equal; change (len [0]) with 1; lia|]. split.
  - apply frame_valid; [done|by rewrite len_app| |rewrite len_app; unfold HEAD_SIZE; change (len [0]) with 1; lia].
    apply Forall_app. split; [done|]. by repeat constructor.
  - rewrite drop_app_length'; [done|lia].
Qed.

(** ** Where the code goes wrong *)

(** A [Write] that takes 4 of 5 bytes: [BrTransSend] reports success, and the
    fifth byte never reaches the peer. *)
Lemma br_short_write : BrTransSend 7 (fun k n => if Nat.eqb k 0 then n - 1 else n) (Some 3) 5 [1; 2; 3; 4; 5; 6; 7] 7 =
  Some (Some SOFTBUS_OK, [[1; 2; 3; 4]; [6; 7]]).
Proof. reflexivity. Qed.

Definition wireHead (l : Z) : bytes := le_bytes 4 MAGIC_NUMBER ++ replicate 16 0 ++ le_bytes 4 (u32 l).

Definition withHead (size l : Z) : BrConnectionInfo := MkConn (wireHead l ++ replicate (Z.to_nat (size - 24)) 0) size 24.

(** A length of -20 makes a frame of four bytes, whose handler reads the
    module and the number behind its end. *)
Lemma br_short_frame : exists f conn', BrRecvDataParse true true (withHead 64 (-20)) = Some (Some f, conn') /\
  len f = 4 /\ BrRecvDataHandle true f = None.
Proof. eexists _, _. split; [vm_compute; reflexivity|]. by vm_compute. Qed.

(** A length of -100 is never a frame: the connection fills its buffer with
    whatever follows and then runs through the loop without reading. *)
Lemma br_endless_read : forall fuel,
  match BrTransReadOneFrame true fuel true (fun _ => 0%nat) (fun _ => None) (Some (MkConn (wireHead (-100)) 24 24)) [] with
  | Some (r, _, _) => r = Looping
  | None => False
  end.
Proof.
  unfold BrTransReadOneFrame.
  assert (BrRecvDataParse true true (MkConn (wireHead (-100)) 24 24) = Some (None, MkConn (wireHead (-100)) 24 24)) as E by (vm_compute; reflexivity).
  induction fuel as [|fuel IH]; [done|]. cbn [readLoop]. rewrite E. cbn [mbind option_bind recvSize recvPos].
  change (0 <? 24 - 24) with false. cbn [negb]. rewrite E. cbn [mbind option_bind]. exact IH.
Qed.

(** ** Witnesses *)

Definition demoFrame (body : bytes) : bytes := wireHead (len body) ++ body.


Lemma br_parse_safe_witness : exists m conn', BrRecvDataParse true false (withHead 64 5) = Some (m, conn') /\ connOk conn'.
Proof.
  destruct (br_parse_safe false (withHead 64 5) 5) as (m & conn' & E & H & _).
  - split_and!; [by apply (bool_decide_unpack _); vm_compute|by vm_compute..].
  - intros _. by vm_compute.
  - by exists m, conn'.
Defined.

End BrTrans.
