(* ===== verification/DiscManager.v ===== *)
(** * The discovery manager

    Models [core/discovery/manager/src/disc_manager.c] and
    [softbus_disc_server.c] above it.  Packages register publications and
    subscriptions under an id of their own; the manager keeps an item per
    package in one of two lists, an info per registration in its item, and
    for subscriptions a list per capability, which a device found walks.

    - [World]: the globals of the file, the objects on the heap by address,
      and the media below.  An access to an object that was freed, to [NULL]
      or past the end of a buffer has no result.
    - [DiscoveryFuncInterface]: what a medium offers, as a record of
      operations over a state of its own.
    - [rep]: the pointer structure holds a list of packages with their
      registrations; every entry point keeps it and changes the registrations
      as a finite map ([disc_manager_refines]).
    - [disc_found_exact]: a device found is reported for exactly the
      subscriptions to its capabilities.
    - [disc_death_cleanup]: the death of a client removes its registrations
      and no other.

    Addresses are not given out twice, so that a dangling pointer is seen.
    The mutexes are recursive; a mutex is the number of times the calling
    thread holds it. *)

From stdpp Require Import strings.
From S2P Require Import Prelude Errno Utils.
Import Errno.

Module DiscManager.

Definition CAPABILITY_MAX_BITNUM : Z := 8.
Definition PKG_NAME_SIZE_MAX : Z := 65.
Definition MAX_CAPABILITYDATA_LEN : Z := 513.

Definition MODULE_MIN : Z := 1.
Definition MODULE_LNN : Z := MODULE_MIN.
Definition MODULE_CONN : Z := 2.
Definition MODULE_MAX : Z := MODULE_CONN.

Definition DISCOVER_MODE_PASSIVE : Z := 85.
Definition DISCOVER_MODE_ACTIVE : Z := 170.

Definition AUTO : Z := 0.
Definition BLE : Z := 1.
Definition COAP : Z := 2.

Definition LOW : Z := 0.
Definition SUPER_HIGH : Z := 3.

Definition g_discModuleMap : list string := ["MODULE_LNN"; "MODULE_CONN"]%string.

Definition g_capabilityMap : list (Z * string) :=
  [(0, "hicall"); (1, "profile"); (2, "homevisionPic"); (3, "castPlus");
   (4, "aaCapability"); (5, "dvKit"); (6, "ddmpCapability"); (7, "osdCapability")]%string.

Inductive ServiceType := PUBLISH_SERVICE | PUBLISH_INNER_SERVICE | SUBSCRIBE_SERVICE | SUBSCRIBE_INNER_SERVICE.
#[global] Instance ServiceType_dec : EqDecision ServiceType.
Proof. solve_decision. Defined.

Inductive InterfaceFuncType := PUBLISH_FUNC | UNPUBLISH_FUNC | STARTDISCOVERTY_FUNC | STOPDISCOVERY_FUNC.

(** ** What clients pass *)

(** A [char *]: its characters before the terminator, and the size of the
    buffer it points into. *)
Record CString := MkCString { chars : string; room : Z }.

Record PublishInfo := MkPublishInfo {
  publishId : Z;
  pubMode : Z;
  pubMedium : Z;
  pubFreq : Z;
  pubCapability : string;
  pubData : option (list Z);
  pubDataLen : Z;
  pubRanging : bool;
}.

Record SubscribeInfo := MkSubscribeInfo {
  subscribeId : Z;
  subMode : Z;
  subMedium : Z;
  subFreq : Z;
  subIsSameAccount : bool;
  subIsWakeRemote : bool;
  subCapability : string;
  subData : option (list Z);
  subDataLen : Z;
}.

(** What the manager reads of a device; [devId] stands for the rest. *)
Record DeviceInfo := MkDeviceInfo { devId : Z; devBitmap : Z }.

(** ** What the manager keeps *)

Record PublishOption := MkPublishOption {
  poFreq : Z;
  poBitmap : Z;
  poData : list Z;
  poDataLen : Z;
  poRanging : bool;
}.

Record SubscribeOption := MkSubscribeOption {
  soFreq : Z;
  soIsSameAccount : bool;
  soIsWakeRemote : bool;
  soBitmap : Z;
  soData : list Z;
  soDataLen : Z;
}.

Inductive InnerOption := publishOption (o : PublishOption) | subscribeOption (o : SubscribeOption).

(** A union of two function pointers, [None] when it is [NULL]. *)
Definition InnerCallback : Type := option Z.

Record DiscItem := MkItem {
  packageName : string;
  callback : InnerCallback;
  infoNum : Z;
  InfoList : list nat;
}.

(** What an info holds besides its links. *)
Record Registration := MkReg { rid : Z; rmode : Z; rmedium : Z; roption : InnerOption }.

Record DiscInfo := MkInfo { reg : Registration; item : option nat }.

(** ** The media *)

Record DiscoveryFuncInterface (S : Type) := MkInterface {
  Publish : PublishOption -> S -> Z * S;
  StartScan : PublishOption -> S -> Z * S;
  Unpublish : PublishOption -> S -> Z * S;
  StopScan : PublishOption -> S -> Z * S;
  StartAdvertise : SubscribeOption -> S -> Z * S;
  Subscribe : SubscribeOption -> S -> Z * S;
  Unsubscribe : SubscribeOption -> S -> Z * S;
  StopAdvertise : SubscribeOption -> S -> Z * S;
  LinkStatusChanged : Z -> S -> S;
  UpdateLocalDeviceInfo : option (Z -> S -> S);
}.
#[global] Arguments MkInterface {S}. #[global] Arguments Publish {S}. #[global] Arguments StartScan {S}.
#[global] Arguments Unpublish {S}. #[global] Arguments StopScan {S}. #[global] Arguments StartAdvertise {S}.
#[global] Arguments Subscribe {S}. #[global] Arguments Unsubscribe {S}. #[global] Arguments StopAdvertise {S}.
#[global] Arguments LinkStatusChanged {S}. #[global] Arguments UpdateLocalDeviceInfo {S}.

(** [DiscCoapInit], [DiscBleInit] and their counterparts. *)
Record Media (S : Type) := MkMedia {
  DiscCoapInit : S -> option (DiscoveryFuncInterface S) * S;
  DiscBleInit : S -> option (DiscoveryFuncInterface S) * S;
  DiscCoapDeinit : S -> S;
  DiscBleDeinit : S -> S;
}.
#[global] Arguments MkMedia {S}. #[global] Arguments DiscCoapInit {S}. #[global] Arguments DiscBleInit {S}.
#[global] Arguments DiscCoapDeinit {S}. #[global] Arguments DiscBleDeinit {S}.

(** Calls of the callbacks and of the clients, in order. *)
Inductive Note :=
  | ServerDeviceFound (fn : Z) (pkg : string) (d : DeviceInfo)
  | InnerDeviceFoundCall (fn : Z) (d : DeviceInfo)
  | OnPublishSuccess (pkg : string) (id : Z)
  | OnPublishFail (pkg : string) (id reason : Z)
  | OnDiscoverySuccess (pkg : string) (id : Z)
  | OnDiscoverFailed (pkg : string) (id reason : Z).

(** The two lists of items. *)
Inductive Which := PubList | DiscList.
#[global] Instance Which_dec : EqDecision Which.
Proof. solve_decision. Defined.

Record World (S : Type) := MkWorld {
  g_isInited : bool;
  g_publishInfoList : option (Utils.SoftBusList nat);
  g_discoveryInfoList : option (Utils.SoftBusList nat);
  publishLock : nat;
  discoveryLock : nat;
  g_discCoapInterface : option (DiscoveryFuncInterface S);
  g_discBleInterface : option (DiscoveryFuncInterface S);
  g_capabilityList : list (list nat);
  items : gmap nat DiscItem;
  infos : gmap nat DiscInfo;
  next : nat;
  g_isCallLnn : bool;
  ticks : nat;
  medium : S;
  notes : list Note;
}.
#[global] Arguments MkWorld {S}. #[global] Arguments g_isInited {S}. #[global] Arguments g_publishInfoList {S}.
#[global] Arguments g_discoveryInfoList {S}. #[global] Arguments publishLock {S}. #[global] Arguments discoveryLock {S}.
#[global] Arguments g_discCoapInterface {S}. #[global] Arguments g_discBleInterface {S}.
#[global] Arguments g_capabilityList {S}. #[global] Arguments items {S}. #[global] Arguments infos {S}.
#[global] Arguments next {S}. #[global] Arguments g_isCallLnn {S}. #[global] Arguments ticks {S}.
#[global] Arguments medium {S}. #[global] Arguments notes {S}.

Section Operations.

Context {S : Type} (media : Media S) (sysOk : nat -> bool).

(** ** Updating the state *)

Definition setInited (b : bool) (w : World S) : World S :=
  MkWorld b (g_publishInfoList w) (g_discoveryInfoList w) (publishLock w) (discoveryLock w)
    (g_discCoapInterface w) (g_discBleInterface w) (g_capabilityList w) (items w) (infos w) (next w)
    (g_isCallLnn w) (ticks w) (medium w) (notes w).

Definition setLists (p d : option (Utils.SoftBusList nat)) (w : World S) : World S :=
  MkWorld (g_isInited w) p d (publishLock w) (discoveryLock w)
    (g_discCoapInterface w) (g_discBleInterface w) (g_capabilityList w) (items w) (infos w) (next w)
    (g_isCallLnn w) (ticks w) (medium w) (notes w).

Definition setLocks (p d : nat) (w : World S) : World S :=
  MkWorld (g_isInited w) (g_publishInfoList w) (g_discoveryInfoList w) p d
    (g_discCoapInterface w) (g_discBleInterface w) (g_capabilityList w) (items w) (infos w) (next w)
    (g_isCallLnn w) (ticks w) (medium w) (notes w).

Definition setInterfaces (c b : option (DiscoveryFuncInterface S)) (w : World S) : World S :=
  MkWorld (g_isInited w) (g_publishInfoList w) (g_discoveryInfoList w) (publishLock w) (discoveryLock w)
    c b (g_capabilityList w) (items w) (infos w) (next w) (g_isCallLnn w) (ticks w) (medium w) (notes w).

Definition setCaps (c : list (list nat)) (w : World S) : World S :=
  MkWorld (g_isInited w) (g_publishInfoList w) (g_discoveryInfoList w) (publishLock w) (discoveryLock w)
    (g_discCoapInterface w) (g_discBleInterface w) c (items w) (infos w) (next w)
    (g_isCallLnn w) (ticks w) (medium w) (notes w).

Definition setHeap (i : gmap nat DiscItem) (f : gmap nat DiscInfo) (n : nat) (w : World S) : World S :=
  MkWorld (g_isInited w) (g_publishInfoList w) (g_discoveryInfoList w) (publishLock w) (discoveryLock w)
    (g_discCoapInterface w) (g_discBleInterface w) (g_capabilityList w) i f n
    (g_isCallLnn w) (ticks w) (medium w) (notes w).

Definition setCallLnn (b : bool) (w : World S) : World S :=
  MkWorld (g_isInited w) (g_publishInfoList w) (g_discoveryInfoList w) (publishLock w) (discoveryLock w)
    (g_discCoapInterface w) (g_discBleInterface w) (g_capabilityList w) (items w) (infos w) (next w)
    b (ticks w) (medium w) (notes w).

Definition tick (w : World S) : World S :=
  MkWorld (g_isInited w) (g_publishInfoList w) (g_discoveryInfoList w) (publishLock w) (discoveryLock w)
    (g_discCoapInterface w) (g_discBleInterface w) (g_capabilityList w) (items w) (infos w) (next w)
    (g_isCallLnn w) (Datatypes.S (ticks w)) (medium w) (notes w).

Definition setMedium (m : S) (w : World S) : World S :=
  MkWorld (g_isInited w) (g_publishInfoList w) (g_discoveryInfoList w) (publishLock w) (discoveryLock w)
    (g_discCoapInterface w) (g_discBleInterface w) (g_capabilityList w) (items w) (infos w) (next w)
    (g_isCallLnn w) (ticks w) m (notes w).

Definition note (n : Note) (w : World S) : World S :=
  MkWorld (g_isInited w) (g_publishInfoList w) (g_discoveryInfoList w) (publishLock w) (discoveryLock w)
    (g_discCoapInterface w) (g_discBleInterface w) (g_capabilityList w) (items w) (infos w) (next w)
    (g_isCallLnn w) (ticks w) (medium w) (notes w ++ [n]).

(** ** Programs over the state *)

Definition M (A : Type) : Type := World S -> option (A * World S).

Definition ret {A} (x : A) : M A := fun w => Some (x, w).
Definition bind {A B} (m : M A) (k : A -> M B) : M B := fun w => '(x, w') ← m w; k x w'.
Definition get : M (World S) := fun w => Some (w, w).
Definition modify (f : World S -> World S) : M unit := fun w => Some (tt, f w).
Definition fault {A} : M A := fun _ => None.
Definition lift {A} (o : option A) : M A := fun w => x ← o; Some (x, w).

#[local] Notation "x <- m ;; k" := (bind m (fun x => k)) (at level 100, m at next level, right associativity).
#[local] Notation "m ;; k" := (bind m (fun _ => k)) (at level 100, right associativity).

(** Whether the next call of the system succeeds. *)
Definition sys : M bool := fun w => Some (sysOk (ticks w), tick w).

Definition SoftBusCalloc : M (option nat) :=
  ok <- sys ;;
  if ok then (w <- get ;; modify (setHeap (items w) (infos w) (Datatypes.S (next w))) ;; ret (Some (next w)))
  else ret None.

Definition theList (l : Which) (w : World S) : option (Utils.SoftBusList nat) :=
  match l with PubList => g_publishInfoList w | DiscList => g_discoveryInfoList w end.

Definition readList (l : Which) : M (Utils.SoftBusList nat) := w <- get ;; lift (theList l w).

Definition writeList (l : Which) (x : Utils.SoftBusList nat) : M unit :=
  readList l ;;
  modify (fun w => match l with
  | PubList => setLists (Some x) (g_discoveryInfoList w) w
  | DiscList => setLists (g_publishInfoList w) (Some x) w
  end).

Definition SoftBusMutexLock (l : Which) : M Z :=
  readList l ;;
  ok <- sys ;;
  if negb ok then ret SOFTBUS_LOCK_ERR
  else (modify (fun w => match l with
        | PubList => setLocks (Datatypes.S (publishLock w)) (discoveryLock w) w
        | DiscList => setLocks (publishLock w) (Datatypes.S (discoveryLock w)) w
        end) ;; ret 0).

Definition SoftBusMutexUnlock (l : Which) : M unit :=
  readList l ;;
  modify (fun w => match l with
  | PubList => setLocks (Nat.pred (publishLock w)) (discoveryLock w) w
  | DiscList => setLocks (publishLock w) (Nat.pred (discoveryLock w)) w
  end).

Definition readItem (a : nat) : M DiscItem := w <- get ;; lift (items w !! a).

Definition readInfo (a : nat) : M DiscInfo := w <- get ;; lift (infos w !! a).

Definition writeItem (a : nat) (x : DiscItem) : M unit :=
  readItem a ;; modify (fun w => setHeap (<[a := x]> (items w)) (infos w) (next w) w).

Definition writeInfo (a : nat) (x : DiscInfo) : M unit :=
  readInfo a ;; modify (fun w => setHeap (items w) (<[a := x]> (infos w)) (next w) w).

Definition freeItem (a : nat) : M unit :=
  readItem a ;; modify (fun w => setHeap (delete a (items w)) (infos w) (next w) w).

Definition newItem (a : nat) (x : DiscItem) : M unit :=
  modify (fun w => setHeap (<[a := x]> (items w)) (infos w) (next w) w).

Definition newInfo (a : nat) (x : DiscInfo) : M unit :=
  modify (fun w => setHeap (items w) (<[a := x]> (infos w)) (next w) w).

(** [ListDelete] of the node [a] of a list. *)
Definition listDelete (a : nat) (l : list nat) : list nat := filter (fun b => b <> a) l.

(** ** Bitmaps and media *)

Definition BitmapSet (bitMap pos : Z) : Z :=
  if CAPABILITY_MAX_BITNUM <? pos then bitMap else Z.lor bitMap (u32 (Z.shiftl 1 pos)).

Definition IsBitmapSet (bitMap pos : Z) : bool :=
  if CAPABILITY_MAX_BITNUM <? pos then false
  else negb (Z.land (u32 (Z.shiftl 1 pos)) bitMap =? 0).

Definition asPublish (o : InnerOption) : option PublishOption :=
  match o with publishOption p => Some p | subscribeOption _ => None end.

Definition asSubscribe (o : InnerOption) : option SubscribeOption :=
  match o with publishOption _ => None | subscribeOption s => Some s end.

(** A call of an operation of a medium. *)
Definition callMedium {A} (f : A -> S -> Z * S) (o : option A) : M Z :=
  x <- lift o ;; w <- get ;;
  modify (setMedium (f x (medium w)).2) ;; ret (f x (medium w)).1.

Definition DiscInterfaceProcess (opt : InnerOption) (interface : option (DiscoveryFuncInterface S)) (mode : Z)
  (type : InterfaceFuncType) : M Z :=
  match interface with
  | None => ret SOFTBUS_DISCOVER_MANAGER_INNERFUNCTION_FAIL
  | Some itf =>
      match type with
      | PUBLISH_FUNC =>
          if mode =? DISCOVER_MODE_ACTIVE then callMedium (Publish itf) (asPublish opt)
          else callMedium (StartScan itf) (asPublish opt)
      | UNPUBLISH_FUNC =>
          if mode =? DISCOVER_MODE_ACTIVE then callMedium (Unpublish itf) (asPublish opt)
          else callMedium (StopScan itf) (asPublish opt)
      | STARTDISCOVERTY_FUNC =>
          if mode =? DISCOVER_MODE_ACTIVE then callMedium (StartAdvertise itf) (asSubscribe opt)
          else callMedium (Subscribe itf) (asSubscribe opt)
      | STOPDISCOVERY_FUNC =>
          if mode =? DISCOVER_MODE_ACTIVE then callMedium (StopAdvertise itf) (asSubscribe opt)
          else callMedium (Unsubscribe itf) (asSubscribe opt)
      end
  end.

Definition DiscInterfaceByMedium (info : nat) (type : InterfaceFuncType) : M Z :=
  i <- readInfo info ;;
  w <- get ;;
  let r := reg i in
  if rmedium r =? COAP then DiscInterfaceProcess (roption r) (g_discCoapInterface w) (rmode r) type
  else if rmedium r =? BLE then DiscInterfaceProcess (roption r) (g_discBleInterface w) (rmode r) type
  else if rmedium r =? AUTO then
    (ret1 <- DiscInterfaceProcess (roption r) (g_discCoapInterface w) (rmode r) type ;;
     ret2 <- DiscInterfaceProcess (roption r) (g_discBleInterface w) (rmode r) type ;;
     if (ret1 =? SOFTBUS_OK) || (ret2 =? SOFTBUS_OK) then ret SOFTBUS_OK
     else ret SOFTBUS_DISCOVER_MANAGER_INNERFUNCTION_FAIL)
  else ret SOFTBUS_DISCOVER_MANAGER_INNERFUNCTION_FAIL.

Fixpoint capabilityLoop (capability : string) (m : list (Z * string)) : Z :=
  match m with
  | [] => SOFTBUS_DISCOVER_MANAGER_CAPABILITY_INVALID
  | (bitmap, c) :: m' => if decide (capability = c) then bitmap else capabilityLoop capability m'
  end.

Definition CapabilityStringToBimap (capability : string) : Z :=
  capabilityLoop capability (take (Z.to_nat CAPABILITY_MAX_BITNUM) g_capabilityMap).

(** ** The lists of capabilities *)

Definition isSubscribe (type : ServiceType) : bool :=
  match type with SUBSCRIBE_SERVICE | SUBSCRIBE_INNER_SERVICE => true | _ => false end.

Definition isInner (type : ServiceType) : bool :=
  match type with PUBLISH_INNER_SERVICE | SUBSCRIBE_INNER_SERVICE => true | _ => false end.

(** The first bit that is set. *)
Definition firstBit (bitMap : Z) : option Z :=
  List.find (IsBitmapSet bitMap) (seqZ 0 CAPABILITY_MAX_BITNUM).

(** [ListNodeInsert] for modules, [ListTailInsert] for clients. *)
Definition listInsert (inner : bool) (a : nat) (l : list nat) : list nat :=
  if inner then a :: l else l ++ [a].

Definition AddInfoToCapability (info : nat) (type : ServiceType) : M unit :=
  if negb (isSubscribe type) then ret tt
  else
    i <- readInfo info ;;
    o <- lift (asSubscribe (roption (reg i))) ;;
    match firstBit (soBitmap o) with
    | None => ret tt
    | Some tmp =>
        modify (fun w => setCaps (alter (listInsert (isInner type) info) (Z.to_nat tmp) (g_capabilityList w)) w)
    end.

(** [ListDelete(&(info->capNode))]: the node is in one of the lists, or
    linked to itself. *)
Definition DeleteInfoFromCapability (info : nat) (type : ServiceType) : M unit :=
  if negb (isSubscribe type) then ret tt
  else readInfo info ;; modify (fun w => setCaps (listDelete info <$> g_capabilityList w) w).

Definition ReleaseInfoNodeMem (info : nat) (type : ServiceType) : M unit :=
  i <- readInfo info ;;
  (if isSubscribe type then lift (asSubscribe (roption (reg i))) ;; ret tt
   else lift (asPublish (roption (reg i))) ;; ret tt) ;;
  modify (fun w => setHeap (items w) (delete info (infos w)) (next w) w).

(** ** A device was found *)

Definition SetCallLnnStatus (flag : bool) : M unit := modify (setCallLnn flag).

Definition GetCallLnnStatus : M bool := w <- get ;; ret (g_isCallLnn w).

Definition isModule (pkg : string) : bool := bool_decide (pkg ∈ take (Z.to_nat MODULE_MAX) g_discModuleMap).

Definition InnerDeviceFound (infoNode : nat) (device : DeviceInfo) : M unit :=
  i <- readInfo infoNode ;;
  a <- lift (item i) ;;
  it <- readItem a ;;
  if negb (isModule (packageName it)) then
    (fn <- lift (callback it) ;; modify (note (ServerDeviceFound fn (packageName it) device)))
  else
    match callback it with
    | None => ret tt
    | Some fn =>
        isCallLnn <- GetCallLnnStatus ;;
        if isCallLnn : bool then modify (note (InnerDeviceFoundCall fn device)) else ret tt
    end.

Fixpoint forEach {A} (f : A -> M unit) (l : list A) : M unit :=
  match l with
  | [] => ret tt
  | x :: l' => f x ;; forEach f l'
  end.

(** The bits in turn; a lock that fails ends the loop. *)
Fixpoint foundLoop (device : DeviceInfo) (bits : list Z) : M unit :=
  match bits with
  | [] => ret tt
  | tmp :: bits' =>
      if negb (IsBitmapSet (devBitmap device) tmp) then foundLoop device bits'
      else
        r <- SoftBusMutexLock DiscList ;;
        if negb (r =? 0) then ret tt
        else
          w <- get ;;
          nodes <- lift (g_capabilityList w !! Z.to_nat tmp) ;;
          forEach (fun a => InnerDeviceFound a device) nodes ;;
          SoftBusMutexUnlock DiscList ;;
          foundLoop device bits'
  end.

Definition DiscOnDeviceFound (device : DeviceInfo) : M unit :=
  foundLoop device (seqZ 0 CAPABILITY_MAX_BITNUM).

(** ** Checks of what clients pass *)

(** The four checks both kinds of info have. *)
Definition infoCheck (mode medium freq : Z) (data : option (list Z)) (dataLen : Z) : option Z :=
  if negb (mode =? DISCOVER_MODE_PASSIVE) && negb (mode =? DISCOVER_MODE_ACTIVE) then Some SOFTBUS_INVALID_PARAM
  else if (medium <? AUTO) || (COAP <? medium) then Some SOFTBUS_DISCOVER_MANAGER_INVALID_MEDIUM
  else if (freq <? LOW) || (SUPER_HIGH <? freq) then Some SOFTBUS_INVALID_PARAM
  else match data with
  | None => if negb (dataLen =? 0) then Some SOFTBUS_INVALID_PARAM else Some SOFTBUS_OK
  | Some bytes =>
      if MAX_CAPABILITYDATA_LEN <? dataLen then Some SOFTBUS_INVALID_PARAM
      else n ← Utils.strlen bytes;
           if MAX_CAPABILITYDATA_LEN <=? n then Some SOFTBUS_INVALID_PARAM else Some SOFTBUS_OK
  end.

Definition PublishInfoCheck (info : PublishInfo) : option Z :=
  infoCheck (pubMode info) (pubMedium info) (pubFreq info) (pubData info) (pubDataLen info).

Definition SubscribeInfoCheck (info : SubscribeInfo) : option Z :=
  infoCheck (subMode info) (subMedium info) (subFreq info) (subData info) (subDataLen info).

(** ** Items and infos *)

Definition AddCallbackToItem (itemNode : nat) (cb : option InnerCallback) (type : ServiceType) : M unit :=
  match type with
  | SUBSCRIBE_SERVICE =>
      c <- lift cb ;; it <- readItem itemNode ;;
      writeItem itemNode (MkItem (packageName it) c (infoNum it) (InfoList it))
  | SUBSCRIBE_INNER_SERVICE =>
      c <- lift cb ;; it <- readItem itemNode ;;
      match callback it, c with
      | Some _, None => ret tt
      | _, _ => writeItem itemNode (MkItem (packageName it) c (infoNum it) (InfoList it))
      end
  | _ => ret tt
  end.

(** [memcpy_s] copies [PKG_NAME_SIZE_MAX] bytes, however long the name is. *)
Definition CreateNewItem (serviceList : Which) (pkg : CString) (cb : option InnerCallback) (type : ServiceType)
  : M (option nat) :=
  p <- SoftBusCalloc ;;
  match p with
  | None => ret None
  | Some a =>
      newItem a (MkItem "" None 0 []) ;;
      l <- readList serviceList ;;
      writeList serviceList (Utils.MkSoftBusList (Utils.cnt l) (listInsert (isInner type) a (Utils.list l))) ;;
      (if room pkg <? PKG_NAME_SIZE_MAX then fault else ret tt) ;;
      writeItem a (MkItem (chars pkg) None 0 []) ;;
      AddCallbackToItem a cb type ;;
      l <- readList serviceList ;;
      writeList serviceList (Utils.MkSoftBusList (u32 (Utils.cnt l + 1)) (Utils.list l)) ;;
      ret (Some a)
  end.

(** [memcpy_s] of [dataLen] bytes into a zeroed buffer: no result when it
    reads past the end of the source, [Some None] when it fails. *)
Definition copyData (data : option (list Z)) (dataLen : Z) : option (option (list Z)) :=
  if dataLen =? 0 then Some (Some (replicate (Z.to_nat MAX_CAPABILITYDATA_LEN) 0))
  else match data with
  | None => Some None
  | Some bytes =>
      if MAX_CAPABILITYDATA_LEN <? dataLen then Some None
      else if Z.of_nat (length bytes) <? dataLen then None
      else Some (Some (take (Z.to_nat dataLen) bytes ++ replicate (Z.to_nat (MAX_CAPABILITYDATA_LEN - dataLen)) 0))
  end.

(** The node of an info: [mk data bitmap] is its option. *)
Definition createInfoNode (id mode medium : Z) (capability : string) (data : option (list Z)) (dataLen : Z)
  (mk : list Z -> Z -> InnerOption) : M (option nat) :=
  p <- SoftBusCalloc ;;
  match p with
  | None => ret None
  | Some a =>
      buffer <- SoftBusCalloc ;;
      match buffer with
      | None => ret None
      | Some _ =>
          copied <- lift (copyData data dataLen) ;;
          match copied with
          | None => ret None
          | Some bytes =>
              let r := CapabilityStringToBimap capability in
              if r <? 0 then ret None
              else
                newInfo a (MkInfo (MkReg id mode medium (mk bytes (BitmapSet 0 (u32 r)))) None) ;;
                ret (Some a)
          end
      end
  end.

Definition CreateNewPublishInfoNode (info : PublishInfo) : M (option nat) :=
  createInfoNode (publishId info) (pubMode info) (pubMedium info) (pubCapability info) (pubData info) (pubDataLen info)
    (fun bytes bitmap => publishOption (MkPublishOption (pubFreq info) bitmap bytes (pubDataLen info) (pubRanging info))).

Definition CreateNewSubscribeInfoNode (info : SubscribeInfo) : M (option nat) :=
  createInfoNode (subscribeId info) (subMode info) (subMedium info) (subCapability info) (subData info) (subDataLen info)
    (fun bytes bitmap => subscribeOption (MkSubscribeOption (subFreq info) (subIsSameAccount info)
      (subIsWakeRemote info) bitmap bytes (subDataLen info))).

(** The walk over the items for a package name. *)
Fixpoint findItem (pkg : string) (l : list nat) : M (option nat) :=
  match l with
  | [] => ret None
  | a :: l' =>
      it <- readItem a ;;
      if decide (packageName it = pkg) then ret (Some a) else findItem pkg l'
  end.

(** The walk over the infos of an item for an id. *)
Fixpoint findInfo (id : Z) (l : list nat) : M (option nat) :=
  match l with
  | [] => ret None
  | a :: l' =>
      i <- readInfo a ;;
      if rid (reg i) =? id then ret (Some a) else findInfo id l'
  end.

(** [infoNum++], [info->item = itemNode], [ListTailInsert] and the list of
    the capability. *)
Definition linkInfo (itemNode info : nat) (type : ServiceType) : M unit :=
  it <- readItem itemNode ;;
  writeItem itemNode (MkItem (packageName it) (callback it) (u32 (infoNum it + 1)) (InfoList it ++ [info])) ;;
  i <- readInfo info ;;
  writeInfo info (MkInfo (reg i) (Some itemNode)) ;;
  AddInfoToCapability info type.

Definition AddInfoToList (serviceList : Which) (pkg : CString) (cb : option InnerCallback) (info : nat)
  (type : ServiceType) : M Z :=
  r <- SoftBusMutexLock serviceList ;;
  if negb (r =? 0) then ret SOFTBUS_LOCK_ERR
  else
    l <- readList serviceList ;;
    found <- findItem (chars pkg) (Utils.list l) ;;
    match found with
    | Some itemNode =>
        it <- readItem itemNode ;;
        i <- readInfo info ;;
        dup <- findInfo (rid (reg i)) (InfoList it) ;;
        match dup with
        | Some _ => SoftBusMutexUnlock serviceList ;; ret SOFTBUS_DISCOVER_MANAGER_DUPLICATE_PARAM
        | None =>
            AddCallbackToItem itemNode cb type ;;
            linkInfo itemNode info type ;;
            SoftBusMutexUnlock serviceList ;; ret SOFTBUS_OK
        end
    | None =>
        created <- CreateNewItem serviceList pkg cb type ;;
        match created with
        | None => SoftBusMutexUnlock serviceList ;; ret SOFTBUS_DISCOVER_MANAGER_ITEM_NOT_CREATE
        | Some itemNode =>
            linkInfo itemNode info type ;;
            SoftBusMutexUnlock serviceList ;; ret SOFTBUS_OK
        end
    end.

(** [cnt--], [ListDelete] and [SoftBusFree] of an item. *)
Definition dropItem (serviceList : Which) (itemNode : nat) : M unit :=
  l <- readList serviceList ;;
  writeList serviceList (Utils.MkSoftBusList (u32 (Utils.cnt l - 1)) (listDelete itemNode (Utils.list l))) ;;
  freeItem itemNode.

(** [infoNum--], the capability and [ListDelete(&(info->node))]. *)
Definition unlinkInfo (itemNode info : nat) (type : ServiceType) : M unit :=
  it <- readItem itemNode ;;
  writeItem itemNode (MkItem (packageName it) (callback it) (u32 (infoNum it - 1)) (InfoList it)) ;;
  DeleteInfoFromCapability info type ;;
  it <- readItem itemNode ;;
  writeItem itemNode (MkItem (packageName it) (callback it) (infoNum it) (listDelete info (InfoList it))).

Definition DeleteInfoFromList (serviceList : Which) (pkg : CString) (id : Z) (type : ServiceType) : M (option nat) :=
  r <- SoftBusMutexLock serviceList ;;
  if negb (r =? 0) then ret None
  else
    l <- readList serviceList ;;
    found <- findItem (chars pkg) (Utils.list l) ;;
    match found with
    | None => SoftBusMutexUnlock serviceList ;; ret None
    | Some itemNode =>
        it <- readItem itemNode ;;
        if infoNum it =? 0 then (dropItem serviceList itemNode ;; SoftBusMutexUnlock serviceList ;; ret None)
        else
          infoNode <- findInfo id (InfoList it) ;;
          match infoNode with
          | None => SoftBusMutexUnlock serviceList ;; ret None
          | Some info =>
              unlinkInfo itemNode info type ;;
              it <- readItem itemNode ;;
              (if infoNum it =? 0 then dropItem serviceList itemNode else ret tt) ;;
              SoftBusMutexUnlock serviceList ;; ret (Some info)
          end
    end.

(** [info->item->infoNum--] and the [ListDelete]s after a medium refused. *)
Definition rollback (info : nat) (type : ServiceType) : M unit :=
  i <- readInfo info ;;
  itemNode <- lift (item i) ;;
  unlinkInfo itemNode info type.

Definition InnerPublishService (pkg : CString) (info : nat) (type : ServiceType) : M Z :=
  r <- AddInfoToList PubList pkg None info type ;;
  if negb (r =? SOFTBUS_OK) then ret r
  else
    r <- DiscInterfaceByMedium info PUBLISH_FUNC ;;
    if negb (r =? SOFTBUS_OK) then (rollback info type ;; ret r) else ret SOFTBUS_OK.

Definition InnerUnPublishService (pkg : CString) (publishId : Z) (type : ServiceType) : M Z :=
  infoNode <- DeleteInfoFromList PubList pkg publishId type ;;
  match infoNode with
  | None => ret SOFTBUS_DISCOVER_MANAGER_INFO_NOT_DELETE
  | Some info =>
      r <- DiscInterfaceByMedium info UNPUBLISH_FUNC ;;
      if negb (r =? SOFTBUS_OK) then ret r else (ReleaseInfoNodeMem info type ;; ret SOFTBUS_OK)
  end.

Definition InnerStartDiscovery (pkg : CString) (info : nat) (cb : option InnerCallback) (type : ServiceType) : M Z :=
  let callback := match cb with None => None | Some fn => fn end in
  r <- AddInfoToList DiscList pkg (Some callback) info type ;;
  if negb (r =? SOFTBUS_OK) then ret r
  else
    r <- DiscInterfaceByMedium info STARTDISCOVERTY_FUNC ;;
    if negb (r =? SOFTBUS_OK) then (rollback info type ;; ret r) else ret SOFTBUS_OK.

Definition InnerStopDiscovery (pkg : CString) (subscribeId : Z) (type : ServiceType) : M Z :=
  infoNode <- DeleteInfoFromList DiscList pkg subscribeId type ;;
  match infoNode with
  | None => ret SOFTBUS_DISCOVER_MANAGER_INFO_NOT_DELETE
  | Some info =>
      r <- DiscInterfaceByMedium info STOPDISCOVERY_FUNC ;;
      if negb (r =? SOFTBUS_OK) then ret r else (ReleaseInfoNodeMem info type ;; ret SOFTBUS_OK)
  end.

(** [strcpy_s] into a buffer of [PKG_NAME_SIZE_MAX] bytes. *)
Definition ModuleIdToPackageName (moduleId : Z) : M (option CString) :=
  p <- SoftBusCalloc ;;
  match p with
  | None => ret None
  | Some _ =>
      name <- lift (g_discModuleMap !! Z.to_nat (moduleId - 1)) ;;
      if PKG_NAME_SIZE_MAX <=? Z.of_nat (String.length name) then ret None
      else ret (Some (MkCString name PKG_NAME_SIZE_MAX))
  end.

Definition InnerSetDiscoverCallback (pkg : CString) (cb : InnerCallback) : M Z :=
  r <- SoftBusMutexLock DiscList ;;
  if negb (r =? 0) then ret SOFTBUS_LOCK_ERR
  else
    l <- readList DiscList ;;
    found <- findItem (chars pkg) (Utils.list l) ;;
    match found with
    | Some itemNode =>
        it <- readItem itemNode ;;
        writeItem itemNode (MkItem (packageName it) cb (infoNum it) (InfoList it)) ;;
        SoftBusMutexUnlock DiscList ;; ret SOFTBUS_OK
    | None =>
        created <- CreateNewItem DiscList pkg (Some cb) SUBSCRIBE_INNER_SERVICE ;;
        SoftBusMutexUnlock DiscList ;;
        match created with
        | None => ret SOFTBUS_DISCOVER_MANAGER_ITEM_NOT_CREATE
        | Some _ => ret SOFTBUS_OK
        end
    end.

(** ** Entry points of the modules *)

Definition badModule (moduleId : Z) : bool := (moduleId <? MODULE_MIN) || (MODULE_MAX <? moduleId).

Definition DiscSetDiscoverCallback (moduleId : Z) (cb : option InnerCallback) : M Z :=
  match cb with
  | None => ret SOFTBUS_INVALID_PARAM
  | Some c =>
      if badModule moduleId then ret SOFTBUS_INVALID_PARAM
      else
        w <- get ;;
        if negb (g_isInited w) then ret SOFTBUS_DISCOVER_MANAGER_NOT_INIT
        else
          pkg <- ModuleIdToPackageName moduleId ;;
          match pkg with
          | None => ret SOFTBUS_DISCOVER_MANAGER_INVALID_MODULE
          | Some pkg =>
              r <- InnerSetDiscoverCallback pkg c ;;
              if negb (r =? SOFTBUS_OK) then ret r else ret SOFTBUS_OK
          end
  end.

(** [DiscPublish] and [DiscStartScan] differ in the mode they accept. *)
Definition modulePublish (accepted : Z) (moduleId : Z) (info : option PublishInfo) : M Z :=
  match info with
  | None => ret SOFTBUS_INVALID_PARAM
  | Some info =>
      if badModule moduleId then ret SOFTBUS_INVALID_PARAM
      else if negb (pubMode info =? accepted) then ret SOFTBUS_INVALID_PARAM
      else
        c <- lift (PublishInfoCheck info) ;;
        if negb (c =? SOFTBUS_OK) then ret SOFTBUS_INVALID_PARAM
        else
          w <- get ;;
          if negb (g_isInited w) then ret SOFTBUS_DISCOVER_MANAGER_NOT_INIT
          else
            pkg <- ModuleIdToPackageName moduleId ;;
            match pkg with
            | None => ret SOFTBUS_DISCOVER_MANAGER_INVALID_MODULE
            | Some pkg =>
                infoNode <- CreateNewPublishInfoNode info ;;
                match infoNode with
                | None => ret SOFTBUS_DISCOVER_MANAGER_INFO_NOT_CREATE
                | Some a =>
                    r <- InnerPublishService pkg a PUBLISH_INNER_SERVICE ;;
                    if negb (r =? SOFTBUS_OK) then (ReleaseInfoNodeMem a PUBLISH_INNER_SERVICE ;; ret r)
                    else ret SOFTBUS_OK
                end
            end
  end.

Definition DiscPublish : Z -> option PublishInfo -> M Z := modulePublish DISCOVER_MODE_ACTIVE.

Definition DiscStartScan : Z -> option PublishInfo -> M Z := modulePublish DISCOVER_MODE_PASSIVE.

Definition DiscUnpublish (moduleId publishId : Z) : M Z :=
  if badModule moduleId then ret SOFTBUS_INVALID_PARAM
  else
    w <- get ;;
    if negb (g_isInited w) then ret SOFTBUS_DISCOVER_MANAGER_NOT_INIT
    else
      pkg <- ModuleIdToPackageName moduleId ;;
      match pkg with
      | None => ret SOFTBUS_DISCOVER_MANAGER_INVALID_MODULE
      | Some pkg =>
          r <- InnerUnPublishService pkg publishId PUBLISH_INNER_SERVICE ;;
          if negb (r =? SOFTBUS_OK) then ret r else ret SOFTBUS_OK
      end.

(** [DiscStartAdvertise] and [DiscSubscribe] differ in the mode they accept
    and in the code when there is no memory for the name. *)
Definition moduleSubscribe (accepted noName : Z) (moduleId : Z) (info : option SubscribeInfo) : M Z :=
  match info with
  | None => ret SOFTBUS_INVALID_PARAM
  | Some info =>
      if badModule moduleId then ret SOFTBUS_INVALID_PARAM
      else if negb (subMode info =? accepted) then ret SOFTBUS_INVALID_PARAM
      else
        c <- lift (SubscribeInfoCheck info) ;;
        if negb (c =? SOFTBUS_OK) then ret SOFTBUS_INVALID_PARAM
        else
          w <- get ;;
          if negb (g_isInited w) then ret SOFTBUS_DISCOVER_MANAGER_NOT_INIT
          else
            pkg <- ModuleIdToPackageName moduleId ;;
            match pkg with
            | None => ret noName
            | Some pkg =>
                infoNode <- CreateNewSubscribeInfoNode info ;;
                match infoNode with
                | None => ret SOFTBUS_DISCOVER_MANAGER_INFO_NOT_CREATE
                | Some a =>
                    r <- InnerStartDiscovery pkg a None SUBSCRIBE_INNER_SERVICE ;;
                    if negb (r =? SOFTBUS_OK) then (ReleaseInfoNodeMem a SUBSCRIBE_INNER_SERVICE ;; ret r)
                    else ret SOFTBUS_OK
                end
            end
  end.

Definition DiscStartAdvertise : Z -> option SubscribeInfo -> M Z :=
  moduleSubscribe DISCOVER_MODE_ACTIVE SOFTBUS_DISCOVER_MANAGER_INVALID_MODULE.

Definition DiscSubscribe : Z -> option SubscribeInfo -> M Z :=
  moduleSubscribe DISCOVER_MODE_PASSIVE SOFTBUS_DISCOVER_MANAGER_INVALID_PKGNAME.

Definition DiscStopAdvertise (moduleId subscribeId : Z) : M Z :=
  if badModule moduleId then ret SOFTBUS_INVALID_PARAM
  else
    w <- get ;;
    if negb (g_isInited w) then ret SOFTBUS_DISCOVER_MANAGER_NOT_INIT
    else
      pkg <- ModuleIdToPackageName moduleId ;;
      match pkg with
      | None => ret SOFTBUS_DISCOVER_MANAGER_INVALID_PKGNAME
      | Some pkg =>
          r <- InnerStopDiscovery pkg subscribeId SUBSCRIBE_INNER_SERVICE ;;
          if negb (r =? SOFTBUS_OK) then ret r else ret SOFTBUS_OK
      end.

(** ** Entry points of the clients *)

(** [strlen(packageName) >= PKG_NAME_SIZE_MAX]. *)
Definition longName (pkg : CString) : bool := PKG_NAME_SIZE_MAX <=? Z.of_nat (String.length (chars pkg)).

Definition DiscPublishService (packageName : option CString) (info : option PublishInfo) : M Z :=
  match packageName, info with
  | Some pkg, Some info =>
      if longName pkg then ret SOFTBUS_INVALID_PARAM
      else
        c <- lift (PublishInfoCheck info) ;;
        if negb (c =? SOFTBUS_OK) then ret c
        else
          w <- get ;;
          if negb (g_isInited w) then ret SOFTBUS_DISCOVER_MANAGER_NOT_INIT
          else
            infoNode <- CreateNewPublishInfoNode info ;;
            match infoNode with
            | None => ret SOFTBUS_DISCOVER_MANAGER_INFO_NOT_CREATE
            | Some a =>
                r <- InnerPublishService pkg a PUBLISH_SERVICE ;;
                if negb (r =? SOFTBUS_OK) then (ReleaseInfoNodeMem a PUBLISH_SERVICE ;; ret r)
                else ret SOFTBUS_OK
            end
  | _, _ => ret SOFTBUS_INVALID_PARAM
  end.

Definition DiscUnPublishService (packageName : option CString) (publishId : Z) : M Z :=
  match packageName with
  | None => ret SOFTBUS_INVALID_PARAM
  | Some pkg =>
      if longName pkg then ret SOFTBUS_INVALID_PARAM
      else
        w <- get ;;
        if negb (g_isInited w) then ret SOFTBUS_DISCOVER_MANAGER_NOT_INIT
        else
          r <- InnerUnPublishService pkg publishId PUBLISH_SERVICE ;;
          if negb (r =? SOFTBUS_OK) then ret r else ret SOFTBUS_OK
  end.

Definition DiscStartDiscovery (packageName : option CString) (info : option SubscribeInfo) (cb : option InnerCallback) : M Z :=
  match packageName, info, cb with
  | Some pkg, Some info, Some _ =>
      if longName pkg then ret SOFTBUS_INVALID_PARAM
      else
        c <- lift (SubscribeInfoCheck info) ;;
        if negb (c =? SOFTBUS_OK) then ret c
        else
          w <- get ;;
          if negb (g_isInited w) then ret SOFTBUS_DISCOVER_MANAGER_NOT_INIT
          else
            infoNode <- CreateNewSubscribeInfoNode info ;;
            match infoNode with
            | None => ret SOFTBUS_DISCOVER_MANAGER_INFO_NOT_CREATE
            | Some a =>
                r <- InnerStartDiscovery pkg a cb SUBSCRIBE_SERVICE ;;
                if negb (r =? SOFTBUS_OK) then (ReleaseInfoNodeMem a SUBSCRIBE_SERVICE ;; ret r)
                else ret SOFTBUS_OK
            end
  | _, _, _ => ret SOFTBUS_INVALID_PARAM
  end.

Definition DiscStopDiscovery (packageName : option CString) (subscribeId : Z) : M Z :=
  match packageName with
  | None => ret SOFTBUS_INVALID_PARAM
  | Some pkg =>
      if longName pkg then ret SOFTBUS_INVALID_PARAM
      else
        w <- get ;;
        if negb (g_isInited w) then ret SOFTBUS_DISCOVER_MANAGER_NOT_INIT
        else
          r <- InnerStopDiscovery pkg subscribeId SUBSCRIBE_SERVICE ;;
          if negb (r =? SOFTBUS_OK) then ret r else ret SOFTBUS_OK
  end.

Definition DiscLinkStatusChanged (status exchangeMedium : Z) : M unit :=
  if negb (exchangeMedium =? COAP) then ret tt
  else
    w <- get ;;
    match g_discCoapInterface w with
    | None => ret tt
    | Some itf => modify (setMedium (LinkStatusChanged itf status (medium w)))
    end.

Definition DiscUpdateLocalDeviceInfo (type : Z) : M unit :=
  w <- get ;;
  match g_discBleInterface w with
  | None => ret tt
  | Some itf =>
      match UpdateLocalDeviceInfo itf with
      | None => ret tt
      | Some f => modify (setMedium (f type (medium w)))
      end
  end.

Definition DiscDeviceInfoChanged (type : Z) : M unit := DiscUpdateLocalDeviceInfo type.

(** ** The life of the manager *)

Definition CreateSoftBusList : M (option (Utils.SoftBusList nat)) :=
  malloc <- sys ;;
  if negb malloc then ret (Utils.CreateSoftBusList false true)
  else (mutexInit <- sys ;; ret (Utils.CreateSoftBusList true mutexInit)).

Definition DiscMgrInit : M Z :=
  w <- get ;;
  if g_isInited w then ret SOFTBUS_OK
  else
    let '(coap, m) := DiscCoapInit media (medium w) in
    let '(ble, m) := DiscBleInit media m in
    modify (setMedium m) ;; modify (setInterfaces coap ble) ;;
    match coap, ble with
    | None, None => ret SOFTBUS_ERR
    | _, _ =>
        p <- CreateSoftBusList ;;
        d <- CreateSoftBusList ;;
        modify (setLists p d) ;; modify (setLocks 0 0) ;;
        match p, d with
        | Some _, Some _ =>
            modify (setCaps (replicate (Z.to_nat CAPABILITY_MAX_BITNUM) [])) ;;
            modify (setInited true) ;;
            ret SOFTBUS_OK
        | _, _ => ret SOFTBUS_ERR
        end
    end.

(** [IdContainer]: an id and the package it belongs to.  Without a name there
    is one allocation, with a name two. *)
Definition CreateIdContainer (id : Z) (pkgName : option string) : M (option (Z * string)) :=
  ok <- sys ;;
  if negb ok then ret None
  else match pkgName with
  | None => ret (Some (id, ""%string))
  | Some name => ok <- sys ;; if negb ok then ret None else ret (Some (id, name))
  end.

(** The containers are walked in order; a container's name has a buffer of
    its own length. *)
Definition CleanupPublishDiscovery (ids : list (Z * string)) (type : ServiceType) : M unit :=
  forEach (fun '(id, name) =>
    let pkg := Some (MkCString name (Z.of_nat (String.length name) + 1)) in
    match type with
    | PUBLISH_SERVICE => DiscUnPublishService pkg id ;; ret tt
    | SUBSCRIBE_SERVICE => DiscStopDiscovery pkg id ;; ret tt
    | _ => ret tt
    end) ids.

(** The walks that fill the list of containers; [None] when one could not be
    created. *)
Fixpoint collectInfos (name : string) (l : list nat) (ids : list (Z * string)) : M (option (list (Z * string))) :=
  match l with
  | [] => ret (Some ids)
  | a :: l' =>
      i <- readInfo a ;;
      container <- CreateIdContainer (rid (reg i)) (Some name) ;;
      match container with
      | None => ret None
      | Some c => collectInfos name l' (ids ++ [c])
      end
  end.

Fixpoint collectItems (pkgName : option string) (l : list nat) (ids : list (Z * string)) : M (option (list (Z * string))) :=
  match l with
  | [] => ret (Some ids)
  | a :: l' =>
      it <- readItem a ;;
      let skip := match pkgName with None => false | Some p => bool_decide (packageName it <> p) end in
      if skip : bool then collectItems pkgName l' ids
      else
        r <- collectInfos (packageName it) (InfoList it) ids ;;
        match r with
        | None => ret None
        | Some ids' => collectItems pkgName l' ids'
        end
  end.

Definition DiscMgrInfoListDeinit (itemList : Which) (type : ServiceType) (pkgName : option string) : M unit :=
  r <- SoftBusMutexLock itemList ;;
  if negb (r =? 0) then ret tt
  else
    ids <- CreateIdContainer 0 None ;;
    match ids with
    | None => ret tt
    | Some _ =>
        l <- readList itemList ;;
        collected <- collectItems pkgName (Utils.list l) [] ;;
        match collected with
        | None => ret tt
        | Some ids => CleanupPublishDiscovery ids type
        end ;;
        SoftBusMutexUnlock itemList
    end.

Definition DiscMgrDeinit : M unit :=
  w <- get ;;
  if negb (g_isInited w) then ret tt
  else
    DiscMgrInfoListDeinit PubList PUBLISH_SERVICE None ;;
    DiscMgrInfoListDeinit DiscList SUBSCRIBE_SERVICE None ;;
    modify (setLists None None) ;;
    modify (setInterfaces None None) ;;
    w <- get ;;
    modify (setMedium (DiscBleDeinit media (DiscCoapDeinit media (medium w)))) ;;
    modify (setInited false).

Definition DiscMgrDeathCallback (pkgName : option string) : M unit :=
  match pkgName with
  | None => ret tt
  | Some name =>
      w <- get ;;
      if negb (g_isInited w) then ret tt
      else
        DiscMgrInfoListDeinit PubList PUBLISH_SERVICE (Some name) ;;
        DiscMgrInfoListDeinit DiscList SUBSCRIBE_SERVICE (Some name)
  end.

(** ** [softbus_disc_server.c] *)

(** [ClientIpcOnDeviceFound], the callback of every client. *)
Definition g_discInnerCb : InnerCallback := Some 1.

Definition PUBLISH_FAIL_REASON_NOT_SUPPORT_MEDIUM : Z := 1.
Definition PUBLISH_FAIL_REASON_INTERNAL : Z := 2.
Definition DISCOVERY_FAIL_REASON_NOT_SUPPORT_MEDIUM : Z := 1.
Definition DISCOVERY_FAIL_REASON_INTERNAL : Z := 2.

Definition DiscServerInit : M Z :=
  r <- DiscMgrInit ;;
  if negb (r =? SOFTBUS_OK) then ret r else ret SOFTBUS_OK.

Definition DiscServerDeinit : M unit := DiscMgrDeinit.

Definition DiscServerDeathCallback (pkgName : option string) : M unit := DiscMgrDeathCallback pkgName.

Definition PublishErroCodeProcess (erroCode : Z) : Z :=
  if erroCode =? SOFTBUS_DISCOVER_MANAGER_INVALID_MEDIUM then PUBLISH_FAIL_REASON_NOT_SUPPORT_MEDIUM
  else PUBLISH_FAIL_REASON_INTERNAL.

Definition DiscoveryErroCodeProcess (erroCode : Z) : Z :=
  if erroCode =? SOFTBUS_DISCOVER_MANAGER_INVALID_MEDIUM then DISCOVERY_FAIL_REASON_NOT_SUPPORT_MEDIUM
  else DISCOVERY_FAIL_REASON_INTERNAL.

Definition DiscIpcPublishService (packageName : CString) (info : PublishInfo) : M Z :=
  r <- DiscPublishService (Some packageName) (Some info) ;;
  if negb (r =? SOFTBUS_OK) then
    (modify (note (OnPublishFail (chars packageName) (publishId info) (PublishErroCodeProcess r))) ;; ret r)
  else
    (modify (note (OnPublishSuccess (chars packageName) (publishId info))) ;; ret SOFTBUS_OK).

Definition DiscIpcUnPublishService (packageName : CString) (publishId : Z) : M Z :=
  r <- DiscUnPublishService (Some packageName) publishId ;;
  if negb (r =? SOFTBUS_OK) then ret r else ret SOFTBUS_OK.

Definition DiscIpcStartDiscovery (packageName : CString) (info : SubscribeInfo) : M Z :=
  SetCallLnnStatus false ;;
  r <- DiscStartDiscovery (Some packageName) (Some info) (Some g_discInnerCb) ;;
  if negb (r =? SOFTBUS_OK) then
    (modify (note (OnDiscoverFailed (chars packageName) (subscribeId info) (DiscoveryErroCodeProcess r))) ;; ret r)
  else
    (modify (note (OnDiscoverySuccess (chars packageName) (subscribeId info))) ;; ret SOFTBUS_OK).

Definition DiscIpcStopDiscovery (packageName : CString) (subscribeId : Z) : M Z :=
  r <- DiscStopDiscovery (Some packageName) subscribeId ;;
  if negb (r =? SOFTBUS_OK) then ret r else ret SOFTBUS_OK.

(** ** Reasoning about programs *)

Definition wp {A} (m : M A) (w : World S) (Q : A -> World S -> Prop) : Prop :=
  exists x w', m w = Some (x, w') /\ Q x w'.

Lemma wp_bind {A B} (m : M A) (k : A -> M B) w Q : wp m w (fun x w' => wp (k x) w' Q) -> wp (bind m k) w Q.
Proof. intros (x & w' & E & y & w'' & E' & H). exists y, w''. unfold bind. by rewrite E. Qed.

Lemma wp_mono {A} (m : M A) w (P Q : A -> World S -> Prop) : wp m w P -> (forall x w', P x w' -> Q x w') -> wp m w Q.
Proof. intros (x & w' & E & H) HPQ. exists x, w'. auto. Qed.

Lemma wp_ret {A} (x : A) w (Q : A -> World S -> Prop) : Q x w -> wp (ret x) w Q.
Proof. intros H. by exists x, w. Qed.

Lemma wp_get w (Q : World S -> World S -> Prop) : Q w w -> wp get w Q.
Proof. intros H. by exists w, w. Qed.

Lemma wp_modify f w (Q : unit -> World S -> Prop) : Q tt (f w) -> wp (modify f) w Q.
Proof. intros H. by exists tt, (f w). Qed.

Lemma wp_lift {A} (o : option A) x w (Q : A -> World S -> Prop) : o = Some x -> Q x w -> wp (lift o) w Q.
Proof. intros -> H. by exists x, w. Qed.

Lemma wp_sys w (Q : bool -> World S -> Prop) : Q (sysOk (ticks w)) (tick w) -> wp sys w Q.
Proof. intros H. by exists (sysOk (ticks w)), (tick w). Qed.

Lemma wp_readItem a x w (Q : DiscItem -> World S -> Prop) : items w !! a = Some x -> Q x w -> wp (readItem a) w Q.
Proof. intros E H. apply wp_bind, wp_get. by eapply wp_lift. Qed.

Lemma wp_readInfo a x w (Q : DiscInfo -> World S -> Prop) : infos w !! a = Some x -> Q x w -> wp (readInfo a) w Q.
Proof. intros E H. apply wp_bind, wp_get. by eapply wp_lift. Qed.

Lemma wp_readList l x w (Q : Utils.SoftBusList nat -> World S -> Prop) : theList l w = Some x -> Q x w -> wp (readList l) w Q.
Proof. intros E H. apply wp_bind, wp_get. by eapply wp_lift. Qed.

Lemma wp_writeItem a x y w (Q : unit -> World S -> Prop) : items w !! a = Some x ->
  Q tt (setHeap (<[a := y]> (items w)) (infos w) (next w) w) -> wp (writeItem a y) w Q.
Proof. intros E H. apply wp_bind. eapply wp_readItem; [done|]. by apply wp_modify. Qed.

Lemma wp_writeInfo a x y w (Q : unit -> World S -> Prop) : infos w !! a = Some x ->
  Q tt (setHeap (items w) (<[a := y]> (infos w)) (next w) w) -> wp (writeInfo a y) w Q.
Proof. intros E H. apply wp_bind. eapply wp_readInfo; [done|]. by apply wp_modify. Qed.

(** ** What the pointers hold *)

(** An item: its address, its package, its callback and its registrations
    with their addresses. *)
Record PkgView := MkPkg { va : nat; vname : string; vcb : InnerCallback; vinfos : list (nat * Registration) }.

Definition View : Type := Which -> list PkgView.

Definition upd (v : View) (k : Which) (l : list PkgView) : View := fun k' => if decide (k = k') then l else v k'.

Definition itemOf (p : PkgView) : DiscItem :=
  MkItem (vname p) (vcb p) (Z.of_nat (length (vinfos p))) (vinfos p).*1.

(** The capability a subscription asks for. *)
Definition capOf (r : Registration) : option Z := o ← asSubscribe (roption r); firstBit (soBitmap o).

Definition kindOk (k : Which) (r : Registration) : Prop :=
  match k with
  | PubList => is_Some (asPublish (roption r))
  | DiscList => is_Some (capOf r)
  end.

(** Each subscription is once in the list of its capability. *)
Definition capsOk (caps : list (list nat)) (l : list PkgView) : Prop :=
  length caps = 8%nat /\
  forall b nodes, caps !! b = Some nodes -> NoDup nodes /\
    forall a, a ∈ nodes <-> exists p r, p ∈ l /\ (a, r) ∈ vinfos p /\ capOf r = Some (Z.of_nat b).

Record rep (w : World S) (v : View) : Prop := {
  rep_inited : g_isInited w = true;
  rep_list k : theList k w = Some (Utils.MkSoftBusList (u32 (Z.of_nat (length (v k)))) (va <$> v k));
  rep_item k p : p ∈ v k -> items w !! va p = Some (itemOf p);
  rep_info k p : p ∈ v k -> forall a r, (a, r) ∈ vinfos p -> infos w !! a = Some (MkInfo r (Some (va p)));
  rep_nodup k : NoDup (va <$> v k);
  rep_apart k k' p p' : p ∈ v k -> p' ∈ v k' -> va p = va p' -> k = k';
  rep_names k : NoDup (vname <$> v k);
  rep_infos k p : p ∈ v k -> NoDup (vinfos p).*1;
  rep_ids k p : p ∈ v k -> NoDup (rid ∘ snd <$> vinfos p);
  rep_small k p : p ∈ v k -> Z.of_nat (length (vinfos p)) < 2 ^ 32;
  rep_kind k p : p ∈ v k -> forall a r, (a, r) ∈ vinfos p -> kindOk k r;
  rep_caps : capsOk (g_capabilityList w) (v DiscList);
  rep_short k p : p ∈ v k -> Z.of_nat (String.length (vname p)) < PKG_NAME_SIZE_MAX;
  rep_fresh k p : p ∈ v k -> (va p < next w)%nat /\ Forall (fun a => (a < next w)%nat) (vinfos p).*1;
}.

(** The part of the state [rep] is about, and the rest. *)
Definition core (w : World S) :=
  (g_isInited w, g_publishInfoList w, g_discoveryInfoList w, g_capabilityList w, items w, infos w, next w).

Definition rest (w : World S) :=
  (publishLock w, discoveryLock w, g_discCoapInterface w, g_discBleInterface w, g_isCallLnn w, medium w, notes w).

Lemma rep_core w w' v : core w' = core w -> rep w v -> rep w' v.
Proof.
  intros E H. destruct w, w'. unfold core in E. cbn in E. simplify_eq. by destruct H.
Qed.

(** ** The basic operations *)

Lemma wp_lock k v w (Q : Z -> World S -> Prop) : rep w v ->
  (forall w', rep w' v -> core w' = core w -> rest w' = rest w -> sysOk (ticks w) = false -> Q SOFTBUS_LOCK_ERR w') ->
  (forall w', rep w' v -> core w' = core w ->
    rest w' = rest (match k with
      | PubList => setLocks (Datatypes.S (publishLock w)) (discoveryLock w) w
      | DiscList => setLocks (publishLock w) (Datatypes.S (discoveryLock w)) w end) -> Q 0 w') ->
  wp (SoftBusMutexLock k) w Q.
Proof.
  intros Hr H1 H2. apply wp_bind. eapply wp_readList; [by apply Hr|]. apply wp_bind, wp_sys.
  destruct (sysOk (ticks w)) eqn:E; cbn [negb].
  - apply wp_bind, wp_modify, wp_ret. destruct k; apply H2; try done; by apply (rep_core w).
  - apply wp_ret. apply H1; try done. by apply (rep_core w).
Qed.

Lemma wp_unlock k v w (Q : unit -> World S -> Prop) : rep w v ->
  (forall w', rep w' v -> core w' = core w ->
    rest w' = rest (match k with
      | PubList => setLocks (Nat.pred (publishLock w)) (discoveryLock w) w
      | DiscList => setLocks (publishLock w) (Nat.pred (discoveryLock w)) w end) -> Q tt w') ->
  wp (SoftBusMutexUnlock k) w Q.
Proof.
  intros Hr H. apply wp_bind. eapply wp_readList; [by apply Hr|]. apply wp_modify.
  destruct k; apply H; try done; by apply (rep_core w).
Qed.

(** What [SoftBusCalloc] changes. *)
Lemma wp_calloc v w (Q : option nat -> World S -> Prop) : rep w v ->
  (forall w', rep w' v -> rest w' = rest w -> items w' = items w -> infos w' = infos w ->
    next w' = Datatypes.S (next w) -> Q (Some (next w)) w') ->
  (forall w', rep w' v -> rest w' = rest w -> infos w' = infos w -> next w' = next w -> sysOk (ticks w) = false -> Q None w') ->
  wp SoftBusCalloc w Q.
Proof.
  intros Hr H1 H2. apply wp_bind, wp_sys. destruct (sysOk (ticks w)) eqn:E.
  - apply wp_bind, wp_get, wp_bind, wp_modify, wp_ret. apply H1; try done. destruct Hr. split; try done.
    intros k p Hp. destruct (rep_fresh0 k p Hp) as [H3 H4]. cbn. split; [lia|].
    eapply Forall_impl; [exact H4|]. cbn. lia.
  - apply wp_ret, H2; try done. by apply (rep_core w).
Qed.

(** ** Walks *)

Definition named (n : string) (p : PkgView) : bool := bool_decide (vname p = n).

Definition findPkg (n : string) (l : list PkgView) : option PkgView := List.find (named n) l.

Lemma wp_findItem n w l (Q : option nat -> World S -> Prop) :
  (forall p, p ∈ l -> items w !! va p = Some (itemOf p)) ->
  Q (va <$> findPkg n l) w -> wp (findItem n (va <$> l)) w Q.
Proof.
  induction l as [|p l IH]; intros Hl HQ; [by apply wp_ret|].
  cbn [findItem fmap list_fmap]. apply wp_bind. eapply wp_readItem; [apply Hl; left|].
  unfold findPkg in HQ. cbn [List.find] in HQ. unfold named in HQ at 1. cbn [packageName itemOf].
  destruct (decide (vname p = n)) as [E|E].
  - rewrite bool_decide_true in HQ by done. by apply wp_ret.
  - rewrite bool_decide_false in HQ by done. apply IH; [|done]. intros q Hq. apply Hl. by right.
Qed.

Definition hasId (i : Z) (x : nat * Registration) : bool := rid x.2 =? i.

Lemma wp_findInfo i w o l (Q : option nat -> World S -> Prop) :
  (forall a r, (a, r) ∈ l -> infos w !! a = Some (MkInfo r o)) ->
  Q (fst <$> List.find (hasId i) l) w -> wp (findInfo i l.*1) w Q.
Proof.
  induction l as [|[a r] l IH]; intros Hl HQ; [by apply wp_ret|].
  cbn [findInfo fmap list_fmap fst]. apply wp_bind. eapply wp_readInfo; [apply Hl; left|].
  cbn [List.find] in HQ. unfold hasId in HQ at 1. cbn [snd] in HQ. cbn [reg].
  destruct (rid r =? i); [by apply wp_ret|]. apply IH; [|done]. intros b r' Hb. apply Hl. by right.
Qed.

(** ** Changing one item *)

Lemma upd_same v k l : upd v k l k = l.
Proof. unfold upd. by rewrite decide_True. Qed.

Lemma upd_other v k k' l : k <> k' -> upd v k l k' = v k'.
Proof. intros H. unfold upd. by rewrite decide_False. Qed.

Lemma upd_mem w v k l1 p l2 k' q : rep w v -> v k = l1 ++ p :: l2 -> q ∈ upd v k (l1 ++ l2) k' ->
  q ∈ v k' /\ va q <> va p.
Proof.
  intros Hr E Hq. pose proof (rep_nodup w v Hr k) as Hn. rewrite E, fmap_app, fmap_cons in Hn.
  apply NoDup_app in Hn as (_ & Hn1 & Hn2). apply NoDup_cons in Hn2 as [Hn2 _].
  destruct (decide (k = k')) as [<-|Hk].
  - rewrite upd_same in Hq. rewrite E. apply elem_of_app in Hq as [Hq|Hq].
    + split; [set_solver|]. intros Ev. apply (Hn1 (va q)); [by apply list_elem_of_fmap_2|]. rewrite Ev. by left.
    + split; [set_solver|]. intros Ev. apply Hn2. rewrite <- Ev. by apply list_elem_of_fmap_2.
  - rewrite upd_other in Hq by done. split; [done|]. intros Ev. apply Hk. symmetry.
    apply (rep_apart w v Hr k' k q p); [done| |done]. rewrite E. set_solver.
Qed.

Lemma upd_mem_replace w v k l1 p p' l2 k' q : rep w v -> v k = l1 ++ p :: l2 -> q ∈ upd v k (l1 ++ p' :: l2) k' ->
  (k' = k /\ q = p') \/ (q ∈ v k' /\ va q <> va p).
Proof.
  intros Hr E Hq. destruct (decide (k = k')) as [<-|Hk].
  - rewrite upd_same in Hq. apply elem_of_app in Hq as [Hq|Hq]; [|apply elem_of_cons in Hq as [->|Hq]; [by left|]];
      right; apply (upd_mem w v k l1 p l2 k q Hr E); rewrite upd_same; set_solver.
  - right. apply (upd_mem w v k l1 p l2 k' q Hr E). rewrite upd_other in Hq |- * by done. done.
Qed.

Lemma info_apart w v k k' p q a r : rep w v -> p ∈ v k -> q ∈ v k' -> va q <> va p -> (a, r) ∈ vinfos q -> a ∉ (vinfos p).*1.
Proof.
  intros Hr Hp Hq Hv Ha Hb. apply list_elem_of_fmap in Hb as ([b r'] & -> & Hb). cbn in Ha.
  pose proof (rep_info w v Hr k p Hp b r' Hb) as E1. pose proof (rep_info w v Hr k' q Hq b r Ha) as E2. congruence.
Qed.

(** An item changed in place. *)
Lemma rep_replace w w' v k l1 p p' l2 : rep w v -> v k = l1 ++ p :: l2 -> va p' = va p -> vname p' = vname p ->
  g_isInited w' = g_isInited w -> (forall k', theList k' w' = theList k' w) -> next w' = next w ->
  items w' = <[va p := itemOf p']> (items w) ->
  (forall a i o, infos w !! a = Some i -> item i = Some o -> o <> va p -> infos w' !! a = Some i) ->
  (forall a r, (a, r) ∈ vinfos p' -> infos w' !! a = Some (MkInfo r (Some (va p))) /\ kindOk k r /\ (a < next w)%nat) ->
  NoDup (vinfos p').*1 -> NoDup (rid ∘ snd <$> vinfos p') -> Z.of_nat (length (vinfos p')) < 2 ^ 32 ->
  capsOk (g_capabilityList w') (upd v k (l1 ++ p' :: l2) DiscList) ->
  rep w' (upd v k (l1 ++ p' :: l2)).
Proof.
  intros Hr E Ea En Ei El Enx Eit Hinf Hnew Hnd Hids Hsm Hcaps.
  assert (p ∈ v k) as Hp by (rewrite E; set_solver).
  assert (forall k', va <$> upd v k (l1 ++ p' :: l2) k' = va <$> v k') as Eva.
  { intros k'. destruct (decide (k = k')) as [<-|Hk]; [|by rewrite upd_other].
    rewrite upd_same, E, !fmap_app, !fmap_cons. by rewrite Ea. }
  pose proof (upd_mem_replace w v k l1 p p' l2) as Hm.
  split; try done; [by rewrite Ei; apply Hr|..]; try (intros k' q Hq; destruct (Hm k' q Hr E Hq) as [[-> ->]|[Hq' Hv]]; try done).
  - intros k'. rewrite El, (rep_list w v Hr k'), Eva. do 3 f_equal.
    by rewrite <- (length_fmap va), <- (length_fmap va (upd _ _ _ _)), Eva.
  - rewrite Eit, Ea. apply lookup_insert_eq.
  - rewrite Eit, lookup_insert_ne by done. by eapply rep_item.
  - intros a r Ha. rewrite Ea. by apply Hnew.
  - intros a r Ha. eapply Hinf; [by eapply rep_info|done|done].
  - intros k'. rewrite Eva. apply Hr.
  - intros k' k'' q q' Hq Hq' Ev.
    destruct (Hm k' q Hr E Hq) as [[-> ->]|[H1 H2]], (Hm k'' q' Hr E Hq') as [[-> ->]|[H3 H4]]; try congruence.
    by eapply (rep_apart w v Hr).
  - intros k'. destruct (decide (k = k')) as [<-|Hk]; [|rewrite upd_other by done; apply Hr].
    pose proof (rep_names w v Hr k) as H. rewrite E in H. rewrite upd_same.
    rewrite fmap_app, fmap_cons in H |- *. by rewrite En.
  - by eapply rep_infos.
  - by eapply rep_ids.
  - by eapply rep_small.
  - intros a r Ha. by destruct (Hnew a r Ha) as (_ & ? & _).
  - intros a r Ha. by eapply rep_kind.
  - rewrite En. by eapply rep_short.
  - by eapply rep_short.
  - rewrite Enx, Ea. split; [by eapply rep_fresh|]. apply Forall_fmap, Forall_forall. intros [a r] Ha. by apply Hnew in Ha as (_ & _ & Ha).
  - rewrite Enx. by eapply rep_fresh.
Qed.

(** [ListNodeInsert] or [ListTailInsert] on the view. *)
Definition putPkg (inner : bool) (p : PkgView) (l : list PkgView) : list PkgView :=
  if inner then p :: l else l ++ [p].

Lemma putPkg_perm inner p l : putPkg inner p l ≡ₚ p :: l.
Proof. destruct inner; [done|]. cbn. by rewrite Permutation_app_comm. Qed.

Lemma putPkg_va inner p l : va <$> putPkg inner p l = listInsert inner (va p) (va <$> l).
Proof. destruct inner; [done|]. cbn. by rewrite fmap_app. Qed.

(** An empty item at a new address. *)
Lemma rep_insert w w' v k p inner : rep w v -> vinfos p = [] -> Z.of_nat (String.length (vname p)) < PKG_NAME_SIZE_MAX -> vname p ∉ (vname <$> v k) ->
  (forall k' q, q ∈ v k' -> va q <> va p) -> (va p < next w')%nat -> (next w <= next w')%nat ->
  g_isInited w' = g_isInited w -> (forall k', k <> k' -> theList k' w' = theList k' w) ->
  theList k w' = Some (Utils.MkSoftBusList (u32 (Z.of_nat (length (v k)) + 1)) (listInsert inner (va p) (va <$> v k))) ->
  items w' = <[va p := itemOf p]> (items w) -> infos w' = infos w -> g_capabilityList w' = g_capabilityList w ->
  rep w' (upd v k (putPkg inner p (v k))).
Proof.
  intros Hr Ep Hsh Hn Ha Hlt Hle Ei El Elk Eit Einf Ecap.
  assert (forall k' q, q ∈ upd v k (putPkg inner p (v k)) k' -> (k' = k /\ q = p) \/ (q ∈ v k' /\ va q <> va p)) as Hm.
  { intros k' q Hq. destruct (decide (k = k')) as [<-|Hk].
    - rewrite upd_same, putPkg_perm in Hq. apply elem_of_cons in Hq as [->|Hq]; [by left|right; eauto].
    - rewrite upd_other in Hq by done. right. eauto. }
  split; try done; [by rewrite Ei; apply Hr|..]; try (intros k' q Hq; destruct (Hm k' q Hq) as [[-> ->]|[Hq' Hv]]; try done);
    try solve [rewrite Ep; cbn; try done; first [constructor; done | set_solver]].
  - intros k'. destruct (decide (k = k')) as [<-|Hk].
    + rewrite upd_same, Elk, putPkg_va, (putPkg_perm inner). do 3 f_equal. cbn [length]. lia.
    + rewrite upd_other by done. rewrite El by done. apply Hr.
  - rewrite Eit. apply lookup_insert_eq.
  - rewrite Eit, lookup_insert_ne by done. by eapply rep_item.
  - rewrite Einf. by eapply rep_info.
  - intros k'. destruct (decide (k = k')) as [<-|Hk]; [|rewrite upd_other by done; apply Hr].
    rewrite upd_same, putPkg_perm. apply NoDup_cons. split; [|apply Hr].
    intros Hin. apply list_elem_of_fmap in Hin as (q & Eq & Hq). by destruct (Ha k q Hq).
  - intros k' k'' q q' Hq Hq' Ev.
    destruct (Hm k' q Hq) as [[-> ->]|[H1 H2]], (Hm k'' q' Hq') as [[-> ->]|[H3 H4]]; try congruence.
    by eapply (rep_apart w v Hr).
  - intros k'. destruct (decide (k = k')) as [<-|Hk]; [|rewrite upd_other by done; apply Hr].
    rewrite upd_same, putPkg_perm. apply NoDup_cons. split; [done|apply Hr].
  - by eapply rep_infos.
  - by eapply rep_ids.
  - by eapply rep_small.
  - by eapply rep_kind.
  - rewrite Ecap. destruct (rep_caps w v Hr) as [Hl Hc]. split; [done|]. intros b nodes Eb.
    destruct (Hc b nodes Eb) as [Hd Hin]. split; [done|]. intros a. rewrite Hin. split; intros (q & r & Hq & Har & Hcap).
    + exists q, r. split; [|done]. destruct k; [by rewrite upd_other|]. rewrite upd_same, putPkg_perm. by right.
    + exists q, r. split; [|done]. destruct (Hm DiscList q Hq) as [[_ ->]|[? _]]; [|done]. rewrite Ep in Har. set_solver.
  - by eapply rep_short.
  - destruct (rep_fresh w v Hr k' q Hq') as [H1 H2]. split; [lia|]. eapply Forall_impl; [exact H2|]. cbn. lia.
Qed.

(** An empty item taken out. *)
Lemma rep_drop w w' v k l1 p l2 : rep w v -> v k = l1 ++ p :: l2 -> vinfos p = [] ->
  next w' = next w -> g_isInited w' = g_isInited w -> (forall k', k <> k' -> theList k' w' = theList k' w) ->
  theList k w' = Some (Utils.MkSoftBusList (u32 (Z.of_nat (length (v k)) - 1)) (va <$> l1 ++ l2)) ->
  items w' = delete (va p) (items w) -> infos w' = infos w -> g_capabilityList w' = g_capabilityList w ->
  rep w' (upd v k (l1 ++ l2)).
Proof.
  intros Hr E Ep Enx Ei El Elk Eit Einf Ecap. pose proof (upd_mem w v k l1 p l2) as Hm.
  assert (forall (A : Type) (f : PkgView -> A) k', NoDup (f <$> v k') -> NoDup (f <$> upd v k (l1 ++ l2) k')) as Hnd.
  { intros A f k' H. destruct (decide (k = k')) as [<-|Hk]; [|by rewrite upd_other].
    rewrite upd_same. rewrite E in H. rewrite fmap_app, fmap_cons in H. rewrite fmap_app.
    rewrite <- Permutation_middle in H. by apply NoDup_cons in H as [_ H]. }
  split; try done; [by rewrite Ei; apply Hr|..]; try (intros k' q Hq; destruct (Hm k' q Hr E Hq) as [Hq' Hv]).
  - intros k'. destruct (decide (k = k')) as [<-|Hk].
    + rewrite upd_same, Elk. do 3 f_equal. rewrite E, !length_app. cbn [length]. lia.
    + rewrite upd_other, El by done. apply Hr.
  - rewrite Eit, lookup_delete_ne by done. by eapply rep_item.
  - rewrite Einf. by eapply rep_info.
  - intros k'. by apply Hnd, Hr.
  - intros k' k'' q q' Hq Hq' Ev. destruct (Hm k' q Hr E Hq), (Hm k'' q' Hr E Hq'). by eapply (rep_apart w v Hr).
  - intros k'. by apply Hnd, Hr.
  - by eapply rep_infos.
  - by eapply rep_ids.
  - by eapply rep_small.
  - by eapply rep_kind.
  - rewrite Ecap. destruct (rep_caps w v Hr) as [Hl Hc]. split; [done|]. intros b nodes Eb.
    destruct (Hc b nodes Eb) as [Hd Hin]. split; [done|]. intros a. rewrite Hin. split; intros (q & r & Hq & Har & Hcap).
    + exists q, r. split; [|done]. destruct k; [by rewrite upd_other|]. rewrite upd_same. rewrite E in Hq.
      apply elem_of_app in Hq as [Hq|Hq]; [set_solver|]. apply elem_of_cons in Hq as [->|Hq]; [|set_solver].
      rewrite Ep in Har. set_solver.
    + exists q, r. split; [|done]. by apply (Hm DiscList q Hr E Hq).
  - by eapply rep_short.
  - rewrite Enx. by eapply rep_fresh.
Qed.

Lemma rep_ext w v v' : (forall k, v' k = v k) -> rep w v -> rep w v'.
Proof.
  intros E []. split; try done; try solve [intros k; rewrite !E; eauto]; try solve [intros k p; rewrite !E; eauto].
  by rewrite E.
Qed.

(** ** Callbacks and new items *)

(** The callback an item has after [AddCallbackToItem]. *)
Definition newCb (type : ServiceType) (old c : InnerCallback) : InnerCallback :=
  match type with
  | SUBSCRIBE_SERVICE => c
  | SUBSCRIBE_INNER_SERVICE => match old, c with Some _, None => old | _, _ => c end
  | _ => old
  end.

Definition setCb (p : PkgView) (c : InnerCallback) : PkgView := MkPkg (va p) (vname p) c (vinfos p).

(** Everything but the items. *)
Definition offItems (w : World S) :=
  (g_isInited w, g_publishInfoList w, g_discoveryInfoList w, g_capabilityList w, infos w, next w).

Lemma wp_AddCallback a it cb c type w (Q : unit -> World S -> Prop) : items w !! a = Some it ->
  (isSubscribe type = true -> cb = Some c) ->
  (forall w', items w' = <[a := MkItem (packageName it) (newCb type (callback it) c) (infoNum it) (InfoList it)]> (items w) ->
    offItems w' = offItems w -> rest w' = rest w -> Q tt w') ->
  wp (AddCallbackToItem a cb type) w Q.
Proof.
  intros E Hcb HQ. assert (<[a := it]> (items w) = items w) as Eid by by apply insert_id.
  destruct type; cbn [AddCallbackToItem newCb isSubscribe] in *.
  - apply wp_ret, HQ; [|done..]. rewrite <- Eid at 1. by destruct it.
  - apply wp_ret, HQ; [|done..]. rewrite <- Eid at 1. by destruct it.
  - apply wp_bind. eapply wp_lift; [by apply Hcb|]. apply wp_bind. eapply wp_readItem; [exact E|].
    eapply wp_writeItem; [exact E|]. by apply HQ.
  - apply wp_bind. eapply wp_lift; [by apply Hcb|]. apply wp_bind. eapply wp_readItem; [exact E|].
    destruct it as [n [fn|] i l]; cbn [callback] in *; destruct c as [fn'|];
      try (eapply wp_writeItem; [exact E|]; by apply HQ).
    apply wp_ret, HQ; [exact (eq_sym Eid)|done..].
Qed.

Lemma theList_off k w w' : offItems w' = offItems w -> theList k w' = theList k w.
Proof. unfold offItems. intros H. injection H as H1 H2 H3. destruct k; cbn; congruence. Qed.

Lemma setCb_same p : setCb p (vcb p) = p.
Proof. by destruct p. Qed.

(** The callback of an item of a list changes. *)
Lemma rep_setCb w w' v k l1 p l2 c : rep w v -> v k = l1 ++ p :: l2 ->
  items w' = <[va p := itemOf (setCb p c)]> (items w) -> offItems w' = offItems w ->
  rep w' (upd v k (l1 ++ setCb p c :: l2)).
Proof.
  intros Hr E Eit Eoff. pose proof Eoff as Eoff'. unfold offItems in Eoff'. injection Eoff' as E1 E2 E3 E4 E5 E6.
  assert (p ∈ v k) as Hp by (rewrite E; set_solver).
  eapply rep_replace; try done.
  - intros k'. by apply theList_off.
  - intros a i o Ha _ _. by rewrite E5.
  - intros a r Ha. rewrite E5. split_and!; [by eapply rep_info|by eapply rep_kind|].
    pose proof (proj2 (rep_fresh w v Hr k p Hp)) as H. rewrite Forall_fmap, Forall_forall in H. by apply (H (a, r)).
  - exact (rep_infos w v Hr k p Hp).
  - exact (rep_ids w v Hr k p Hp).
  - exact (rep_small w v Hr k p Hp).
  - rewrite E4. destruct (rep_caps w v Hr) as [Hl Hc]. split; [done|]. intros b nodes Eb.
    destruct (Hc b nodes Eb) as [Hd Hin]. split; [done|]. intros a. rewrite Hin.
    split; intros (q & r & Hq & Har & Hcap).
    + destruct k; [rewrite upd_other by done; eauto|]. rewrite upd_same. rewrite E in Hq.
      apply elem_of_app in Hq as [Hq|Hq]; [exists q, r; set_solver|]. apply elem_of_cons in Hq as [->|Hq]; [|exists q, r; set_solver].
      exists (setCb p c), r. set_solver.
    + destruct (upd_mem_replace w v k l1 p (setCb p c) l2 DiscList q Hr E Hq) as [[-> ->]|[? _]]; [|eauto].
      exists p, r. auto.
Qed.

Lemma putItem k l w (Q : unit -> World S -> Prop) x : theList k w = Some x ->
  (forall w', theList k w' = Some l -> (forall k', k <> k' -> theList k' w' = theList k' w) ->
    (g_isInited w', g_capabilityList w', items w', infos w', next w') = (g_isInited w, g_capabilityList w, items w, infos w, next w) ->
    rest w' = rest w -> Q tt w') -> wp (writeList k l) w Q.
Proof.
  intros E HQ. apply wp_bind. eapply wp_readList; [exact E|]. apply wp_modify.
  destruct k; apply HQ; try done; by intros [].
Qed.

(** A name that fits, in a buffer as large as the copy of it. *)
Definition nameOk (pkg : CString) : Prop :=
  PKG_NAME_SIZE_MAX <= room pkg /\ Z.of_nat (String.length (chars pkg)) < PKG_NAME_SIZE_MAX.

(** A new, empty item for a package that has none. *)
Lemma wp_CreateNewItem k pkg cb c type v w (Q : option nat -> World S -> Prop) : rep w v ->
  chars pkg ∉ (vname <$> v k) -> nameOk pkg -> (isSubscribe type = true -> cb = Some c) ->
  (forall w', rep w' (upd v k (putPkg (isInner type) (MkPkg (next w) (chars pkg) (newCb type None c) []) (v k))) ->
    rest w' = rest w -> infos w' = infos w -> next w' = Datatypes.S (next w) -> Q (Some (next w)) w') ->
  (forall w', rep w' v -> rest w' = rest w -> infos w' = infos w -> next w' = next w -> (exists n, sysOk n = false) -> Q None w') ->
  wp (CreateNewItem k pkg cb type) w Q.
Proof.
  intros Hr Hn Hroom Hcb HS HN. apply wp_bind. eapply wp_calloc; [exact Hr| |].
  2: { intros w' Hr' E1 E2 E3 E4. apply wp_ret. eauto. }
  intros w1 Hr1 E1 E2 E3 E4. apply wp_bind, wp_modify. apply wp_bind.
  eapply wp_readList; [apply (rep_list w1 v Hr1 k)|]. apply wp_bind.
  eapply putItem; [apply (rep_list w1 v Hr1 k)|]. cbn [Utils.cnt Utils.list]. intros w2 L2 L2' F2 R2. injection F2 as F21 F22 F23 F24 F25.
  cbn in F21, F22, F23, F24, F25. apply wp_bind. rewrite (proj2 (Z.ltb_ge _ _)) by apply Hroom. apply wp_ret. apply wp_bind.
  eapply wp_writeItem; [rewrite F23; apply lookup_insert_eq|]. apply wp_bind.
  eapply wp_AddCallback; [cbn; apply lookup_insert_eq|exact Hcb|]. cbn.
  intros w3 I3 O3 R3. apply wp_bind. pose proof (theList_off k _ _ O3) as L3. cbn in L3.
  assert (theList k w3 = Some (Utils.MkSoftBusList (u32 (Z.of_nat (length (v k)))) (listInsert (isInner type) (next w) (va <$> v k)))) as L3'.
  { rewrite L3, <- L2. by destruct k. }
  eapply wp_readList; [exact L3'|]. apply wp_bind. eapply putItem; [exact L3'|]. cbn [Utils.cnt Utils.list].
  intros w4 L4 L4' F4 R4. injection F4 as F41 F42 F43 F44 F45. unfold offItems in O3. cbn in O3. injection O3 as O31 O32 O33 O34 O35 O36.
  apply wp_ret, HS.
  - eapply (rep_insert w1 w4 v k (MkPkg (next w) (chars pkg) (newCb type None c) [])); cbn; try done; try congruence.
    + apply Hroom.
    + intros k' q Hq. pose proof (rep_fresh w v Hr k' q Hq) as [? _]. lia.
    + rewrite F45, O36, F25. lia.
    + rewrite F45, O36, F25. lia.
    + intros k' Hk. rewrite L4' by done. transitivity (theList k' w2); [|by rewrite L2' by done; destruct k'].
      destruct k'; cbn; congruence.
    + rewrite L4. f_equal. f_equal. by rewrite wrapU_add_l.
    + rewrite F43, I3, F23. cbn. by rewrite !insert_insert_eq.
  - rewrite R4, R3. transitivity (rest w2); [done|]. rewrite R2. done.
  - congruence.
  - congruence.
Qed.

(** ** Linking and unlinking *)

Definition addReg (p : PkgView) (a : nat) (r : Registration) : PkgView := MkPkg (va p) (vname p) (vcb p) (vinfos p ++ [(a, r)]).

(** The list a type of service belongs to. *)
Definition typeOk (k : Which) (type : ServiceType) : Prop :=
  isSubscribe type = match k with PubList => false | DiscList => true end.

Lemma firstBit_range b t : firstBit b = Some t -> 0 <= t < 8.
Proof.
  unfold firstBit. intros H%find_some. destruct H as [H%list_elem_of_In _]. apply elem_of_seqZ in H.
  unfold CAPABILITY_MAX_BITNUM in H. lia.
Qed.

Lemma capOf_nat r : is_Some (capOf r) -> exists b, capOf r = Some (Z.of_nat b) /\ (b < 8)%nat.
Proof.
  intros [t E]. unfold capOf in *. destruct (asSubscribe (roption r)) as [o|]; [|done]. cbn in *.
  apply firstBit_range in E as H. exists (Z.to_nat t). rewrite E. split; [f_equal; lia|lia].
Qed.

(** An info that no item has is in no list. *)
Lemma info_unlisted w v k p a r i : rep w v -> p ∈ v k -> (a, r) ∈ vinfos p -> infos w !! a = Some i -> item i = None -> False.
Proof. intros Hr Hp Ha E Ei. rewrite (rep_info w v Hr k p Hp a r Ha) in E. by simplify_eq. Qed.

Lemma caps_add w v l1 p l2 a r b inner : rep w v -> v DiscList = l1 ++ p :: l2 -> infos w !! a = Some (MkInfo r None) ->
  capOf r = Some (Z.of_nat b) -> capsOk (alter (listInsert inner a) b (g_capabilityList w)) (l1 ++ addReg p a r :: l2).
Proof.
  intros Hr E Ea Eb. destruct (rep_caps w v Hr) as [Hl Hc]. split; [by rewrite length_alter|].
  intros b' nodes' E'.
  assert (Hmem : forall a' c, (exists q r', q ∈ l1 ++ addReg p a r :: l2 /\ (a', r') ∈ vinfos q /\ capOf r' = c) <->
    (a' = a /\ capOf r = c) \/ exists q r', q ∈ v DiscList /\ (a', r') ∈ vinfos q /\ capOf r' = c).
  { intros a' c. rewrite E. split.
    - intros (q & r' & Hq & Hr' & Hc'). apply elem_of_app in Hq as [Hq|Hq]; [right; set_solver|].
      apply elem_of_cons in Hq as [->|Hq]; [|right; set_solver]. cbn in Hr'. apply elem_of_app in Hr' as [Hr'|Hr'].
      + right. exists p, r'. set_solver.
      + left. apply list_elem_of_singleton in Hr'. by simplify_eq.
    - intros [[-> Hc']|(q & r' & Hq & Hr' & Hc')].
      + exists (addReg p a r), r. split; [set_solver|]. cbn. set_solver.
      + apply elem_of_app in Hq as [Hq|Hq]; [exists q, r'; set_solver|]. apply elem_of_cons in Hq as [->|Hq]; [|exists q, r'; set_solver].
        exists (addReg p a r), r'. split; [set_solver|]. cbn. set_solver. }
  destruct (decide (b = b')) as [<-|Hb].
  - rewrite list_lookup_alter_eq in E'. destruct (g_capabilityList w !! b) as [nodes|] eqn:En; [|done]. cbn in E'. simplify_eq.
    destruct (Hc b nodes En) as [Hd Hin].
    assert (listInsert inner a nodes ≡ₚ a :: nodes) as Hp by (destruct inner; cbn; [done|by rewrite Permutation_app_comm]).
    split.
    + rewrite Hp. apply NoDup_cons. split; [|done]. intros Hin'. apply Hin in Hin' as (q & r' & Hq & Hr' & _).
      by eapply info_unlisted.
    + intros a'. rewrite Hmem, Hp, elem_of_cons, Hin. naive_solver.
  - rewrite list_lookup_alter_ne in E' by done. destruct (Hc b' nodes' E') as [Hd Hin]. split; [done|].
    intros a'. rewrite Hmem, Hin. split; [by right|]. intros [[-> Hc']|]; [|done]. rewrite Eb in Hc'. injection Hc'. lia.
Qed.

Lemma wp_linkInfo k type v w l1 p l2 a r (Q : unit -> World S -> Prop) : rep w v -> v k = l1 ++ p :: l2 ->
  infos w !! a = Some (MkInfo r None) -> (a < next w)%nat -> kindOk k r -> typeOk k type ->
  rid r ∉ (rid ∘ snd <$> vinfos p) -> Z.of_nat (length (vinfos p)) + 1 < 2 ^ 32 ->
  (forall w', rep w' (upd v k (l1 ++ addReg p a r :: l2)) -> rest w' = rest w ->
    infos w' = <[a := MkInfo r (Some (va p))]> (infos w) -> next w' = next w -> Q tt w') ->
  wp (linkInfo (va p) a type) w Q.
Proof.
  intros Hr E Ea Hlt Hkind Htype Hid Hsmall HQ. assert (p ∈ v k) as Hp by (rewrite E; set_solver).
  pose proof (rep_item w v Hr k p Hp) as Hit. apply wp_bind. eapply wp_readItem; [exact Hit|]. apply wp_bind.
  eapply wp_writeItem; [exact Hit|]. apply wp_bind. eapply wp_readInfo; [exact Ea|]. apply wp_bind.
  eapply wp_writeInfo; [exact Ea|]. cbn [reg itemOf packageName callback infoNum InfoList].
  assert (a ∉ (vinfos p).*1) as Hna.
  { intros Hin. apply list_elem_of_fmap in Hin as ([a' r'] & -> & Hin). by eapply info_unlisted. }
  assert (forall caps,
    capsOk caps (upd v k (l1 ++ addReg p a r :: l2) DiscList) ->
    rep (setCaps caps (setHeap (<[va p := itemOf (addReg p a r)]> (items w)) (<[a := MkInfo r (Some (va p))]> (infos w)) (next w) w))
      (upd v k (l1 ++ addReg p a r :: l2))) as Hrep.
  { intros caps Hcaps. eapply (rep_replace w _ v k l1 p (addReg p a r)); try done.
    - intros a' i o Hi Ho _. cbn. rewrite lookup_insert_ne; [done|]. intros <-. rewrite Ea in Hi. by simplify_eq.
    - intros a' r' Hin. cbn in Hin |- *. apply elem_of_app in Hin as [Hin|Hin].
      + rewrite lookup_insert_ne by (intros ->; apply Hna; by apply (list_elem_of_fmap_2 fst _ (a', r'))).
        split_and!; [by eapply rep_info|by eapply rep_kind|].
        pose proof (proj2 (rep_fresh w v Hr k p Hp)) as H. rewrite Forall_fmap, Forall_forall in H. by apply (H (a', r')).
      + apply list_elem_of_singleton in Hin. simplify_eq. by rewrite lookup_insert_eq.
    - cbn. rewrite fmap_app. apply NoDup_app. split_and!; [by eapply rep_infos| |apply NoDup_singleton]. set_solver.
    - cbn. rewrite fmap_app. apply NoDup_app. split_and!; [by eapply rep_ids| |apply NoDup_singleton]. set_solver.
    - cbn. rewrite length_app. cbn. lia. }
  assert (MkItem (vname p) (vcb p) (u32 (Z.of_nat (length (vinfos p)) + 1)) ((vinfos p).*1 ++ [a]) = itemOf (addReg p a r)) as ->.
  { unfold itemOf, addReg. cbn. rewrite fmap_app, length_app. cbn. f_equal. rewrite wrapU_id by range. lia. }
  unfold AddInfoToCapability, typeOk in *. rewrite Htype. destruct k; cbn [negb].
  - apply wp_ret, HQ; try done. eapply rep_core; [|apply (Hrep (g_capabilityList w))]; [done|].
    rewrite upd_other by done. apply Hr.
  - apply wp_bind. eapply wp_readInfo; [cbn; apply lookup_insert_eq|]. cbn [reg].
    destruct (capOf_nat r Hkind) as (b & Eb & Hb). pose proof Eb as Eb'. unfold capOf in Eb'.
    destruct (asSubscribe (roption r)) as [o|]; [|done]. cbn in Eb'. apply wp_bind. eapply wp_lift; [done|].
    rewrite Eb'. apply wp_modify. rewrite Nat2Z.id. apply HQ; try done. apply Hrep. rewrite upd_same.
    by apply (caps_add w v l1 p l2 a r b (isInner type)).
Qed.

(** ** Adding a registration *)

Lemma findPkg_some n l p : findPkg n l = Some p -> vname p = n /\ exists l1 l2, l = l1 ++ p :: l2.
Proof.
  intros H. apply find_some in H as [Hin Hn]. unfold named in Hn. rewrite bool_decide_eq_true in Hn.
  split; [done|]. apply list_elem_of_In, list_elem_of_split in Hin. done.
Qed.

Lemma findPkg_none n l : findPkg n l = None -> n ∉ (vname <$> l).
Proof.
  intros H Hin. apply list_elem_of_fmap in Hin as (p & -> & Hp). apply list_elem_of_In in Hp.
  pose proof (find_none _ _ H p Hp) as E. unfold named in E. rewrite bool_decide_eq_false in E. done.
Qed.

Lemma findId_some i l a r : List.find (hasId i) l = Some (a, r) -> rid r = i /\ (a, r) ∈ l.
Proof. intros [Hin Hi]%find_some. unfold hasId in Hi. apply Z.eqb_eq in Hi. by rewrite list_elem_of_In. Qed.

Lemma findId_none i l : List.find (hasId i) l = None -> i ∉ (rid ∘ snd <$> l).
Proof.
  intros H Hin. apply list_elem_of_fmap in Hin as (x & -> & Hx). apply list_elem_of_In in Hx.
  pose proof (find_none _ _ H x Hx) as E. unfold hasId in E. apply Z.eqb_neq in E. done.
Qed.

Definition registered (l : list PkgView) (n : string) (i : Z) : Prop :=
  exists p, p ∈ l /\ vname p = n /\ i ∈ (rid ∘ snd <$> vinfos p).

(** The views after a registration was added, and the address of its item. *)
Inductive Added (v : View) (k : Which) (type : ServiceType) (n : string) (c : InnerCallback) (a : nat) (r : Registration)
  : View -> nat -> Prop :=
  | added_old l1 p l2 : v k = l1 ++ p :: l2 -> vname p = n -> rid r ∉ (rid ∘ snd <$> vinfos p) ->
      Added v k type n c a r (upd v k (l1 ++ addReg (setCb p (newCb type (vcb p) c)) a r :: l2)) (va p)
  | added_new new : n ∉ (vname <$> v k) ->
      Added v k type n c a r (upd v k (putPkg (isInner type) (MkPkg new n (newCb type None c) [(a, r)]) (v k))) new.

Lemma upd_upd v k l l' k' : upd (upd v k l) k l' k' = upd v k l' k'.
Proof. unfold upd. by destruct (decide (k = k')). Qed.

(** [rest] after the lock was taken and given back. *)
Lemma relock k w w1 w2 w3 : 
  rest w1 = rest (match k with
      | PubList => setLocks (Datatypes.S (publishLock w)) (discoveryLock w) w
      | DiscList => setLocks (publishLock w) (Datatypes.S (discoveryLock w)) w end) ->
  rest w2 = rest w1 ->
  rest w3 = rest (match k with
      | PubList => setLocks (Nat.pred (publishLock w2)) (discoveryLock w2) w2
      | DiscList => setLocks (publishLock w2) (Nat.pred (discoveryLock w2)) w2 end) ->
  rest w3 = rest w.
Proof.
  unfold rest. intros E1 E2 E3. rewrite E3. destruct k; cbn in *; rewrite E1 in E2; 
    injection E2 as -> -> -> -> -> -> ->; done.
Qed.

Lemma wp_unlock_ret {A} k w w1 w2 v (x : A) (Q : A -> World S -> Prop) :
  rest w1 = rest (match k with
      | PubList => setLocks (Datatypes.S (publishLock w)) (discoveryLock w) w
      | DiscList => setLocks (publishLock w) (Datatypes.S (discoveryLock w)) w end) ->
  rest w2 = rest w1 -> rep w2 v ->
  (forall w3, rep w3 v -> rest w3 = rest w -> infos w3 = infos w2 -> Q x w3) ->
  wp (bind (SoftBusMutexUnlock k) (fun _ => ret x)) w2 Q.
Proof.
  intros R1 R2 Hr HQ. apply wp_bind. eapply wp_unlock; [exact Hr|]. intros w3 Hr3 C3 R3.
  unfold core in C3. injection C3 as _ _ _ _ _ I3 _. apply wp_ret, HQ; try done. exact (relock k w w1 w2 w3 R1 R2 R3).
Qed.

Lemma wp_AddInfoToList k pkg cb c a r type v w (Q : Z -> World S -> Prop) : rep w v ->
  infos w !! a = Some (MkInfo r None) -> (a < next w)%nat -> kindOk k r -> typeOk k type ->
  nameOk pkg -> (isSubscribe type = true -> cb = Some c) ->
  (forall p, p ∈ v k -> Z.of_nat (length (vinfos p)) + 1 < 2 ^ 32) ->
  (forall x w', rep w' v -> rest w' = rest w -> infos w' !! a = Some (MkInfo r None) ->
    (exists n, sysOk n = false) -> x = SOFTBUS_LOCK_ERR \/ x = SOFTBUS_DISCOVER_MANAGER_ITEM_NOT_CREATE -> Q x w') ->
  (forall w', rep w' v -> rest w' = rest w -> infos w' !! a = Some (MkInfo r None) ->
    registered (v k) (chars pkg) (rid r) -> Q SOFTBUS_DISCOVER_MANAGER_DUPLICATE_PARAM w') ->
  (forall w' v' o, rep w' v' -> rest w' = rest w -> infos w' !! a = Some (MkInfo r (Some o)) ->
    Added v k type (chars pkg) c a r v' o -> Q SOFTBUS_OK w') ->
  wp (AddInfoToList k pkg cb a type) w Q.
Proof.
  intros Hr Ea Hlt Hkind Htype Hroom Hcb Hfit QE QD QO. apply wp_bind. eapply wp_lock; [exact Hr|..].
  { intros w1 Hr1 C1 R1 Es. cbn. apply wp_ret, QE; eauto. unfold core in C1. by injection C1 as _ _ _ _ _ -> _. }
  intros w1 Hr1 C1 R1. unfold core in C1. injection C1 as _ _ _ _ _ I1 N1. cbn. apply wp_bind.
  eapply wp_readList; [apply (rep_list w1 v Hr1 k)|]. cbn [Utils.list]. apply wp_bind.
  apply wp_findItem; [intros p Hp; by apply (rep_item w1 v Hr1 k)|]. rewrite <- I1 in Ea. rewrite <- N1 in Hlt.
  destruct (findPkg (chars pkg) (v k)) as [p|] eqn:Ef; cbn [fmap option_fmap option_map].
  - apply findPkg_some in Ef as [En (l1 & l2 & E)]. assert (p ∈ v k) as Hp by (rewrite E; set_solver).
    pose proof (rep_item w1 v Hr1 k p Hp) as Hit. apply wp_bind. eapply wp_readItem; [exact Hit|]. apply wp_bind.
    eapply wp_readInfo; [exact Ea|]. cbn [reg itemOf InfoList]. apply wp_bind.
    eapply wp_findInfo; [intros b rb Hb; by apply (rep_info w1 v Hr1 k p Hp)|].
    destruct (List.find (hasId (rid r)) (vinfos p)) as [[b rb]|] eqn:Ei; cbn [fmap option_fmap option_map].
    + apply findId_some in Ei as [Eid Hb]. eapply wp_unlock_ret; [exact R1|done|exact Hr1|]. intros w2 Hr2 R2 I2.
      apply QD; [done|done|by rewrite I2|].
      exists p. split_and!; [done|done|]. rewrite <- Eid. apply list_elem_of_fmap. by exists (b, rb).
    + apply findId_none in Ei. apply wp_bind. eapply wp_AddCallback; [exact Hit|exact Hcb|]. cbn [packageName callback infoNum InfoList itemOf].
      intros w2 T2 O2 R2. pose proof (rep_setCb w1 w2 v k l1 p l2 _ Hr1 E T2 O2) as Hr2.
      unfold offItems in O2. injection O2 as _ _ _ _ I2 N2. apply wp_bind.
      eapply (wp_linkInfo k type _ w2 l1 (setCb p (newCb type (vcb p) c)) l2 a r); try done.
      * by rewrite upd_same.
      * by rewrite I2.
      * by rewrite N2.
      * exact (Hfit p Hp).
      * intros w3 Hr3 R3 I3 N3. eapply wp_unlock_ret; [exact R1|congruence|exact Hr3|]. intros w4 Hr4 R4 I4.
        eapply (QO w4 (upd v k (l1 ++ addReg (setCb p (newCb type (vcb p) c)) a r :: l2)) (va p)).
        -- eapply rep_ext; [|exact Hr4]. intros k'. by rewrite upd_upd.
        -- exact R4.
        -- rewrite I4, I3. apply lookup_insert_eq.
        -- by constructor.
  - apply findPkg_none in Ef. apply wp_bind. eapply wp_CreateNewItem; [exact Hr1|done|done|exact Hcb|..].
    + intros w2 Hr2 R2 I2 N2. set (p := MkPkg (next w1) (chars pkg) (newCb type None c) []) in Hr2.
      assert (exists l1 l2, putPkg (isInner type) p (v k) = l1 ++ p :: l2 /\
        putPkg (isInner type) (addReg p a r) (v k) = l1 ++ addReg p a r :: l2) as (l1 & l2 & Ep & Ep').
      { destruct (isInner type); [by exists [], (v k)|by exists (v k), []]. }
      apply wp_bind. eapply (wp_linkInfo k type _ w2 l1 p l2 a r); try done.
      * by rewrite upd_same.
      * by rewrite I2.
      * rewrite N2. lia.
      * cbn. set_solver.
      * intros w3 Hr3 R3 I3 N3. eapply wp_unlock_ret; [exact R1|congruence|exact Hr3|]. intros w4 Hr4 R4 I4.
        eapply (QO w4 (upd v k (putPkg (isInner type) (addReg p a r) (v k))) (next w1)).
        -- eapply rep_ext; [|exact Hr4]. intros k'. by rewrite upd_upd, Ep'.
        -- exact R4.
        -- rewrite I4, I3. apply lookup_insert_eq.
        -- by apply added_new.
    + intros w2 Hr2 R2 I2 N2 Hs. eapply wp_unlock_ret; [exact R1|done|exact Hr2|]. intros w3 Hr3 R3 I3.
      apply QE; auto. congruence.
Qed.

(** ** Removing a registration *)

Definition delReg (p : PkgView) (a : nat) : PkgView :=
  MkPkg (va p) (vname p) (vcb p) (filter (fun x => x.1 <> a) (vinfos p)).

(** No item has the info. *)
Definition unlisted (v : View) (a : nat) : Prop := forall k p, p ∈ v k -> a ∉ (vinfos p).*1.

Lemma delReg_fst p a : (vinfos (delReg p a)).*1 = listDelete a (vinfos p).*1.
Proof.
  cbn. unfold listDelete. induction (vinfos p) as [|[b r] l IH]; [done|]. cbn [fmap list_fmap fst].
  destruct (decide (b = a)) as [->|Hb].
  - rewrite !filter_cons_False by (cbn; tauto). done.
  - rewrite !filter_cons_True by (cbn; tauto). cbn. by f_equal.
Qed.

Lemma delReg_length p a r : NoDup (vinfos p).*1 -> (a, r) ∈ vinfos p ->
  Datatypes.S (length (vinfos (delReg p a))) = length (vinfos p).
Proof.
  intros Hn Hin. apply list_elem_of_split in Hin as (i1 & i2 & E). cbn. rewrite E in *.
  rewrite fmap_app, fmap_cons in Hn. apply NoDup_app in Hn as (_ & H1 & H2). apply NoDup_cons in H2 as [H2 _].
  cbn in H1, H2. rewrite filter_app, filter_cons_False by (cbn; tauto). rewrite !list_filter_all.
  - rewrite !length_app. cbn. lia.
  - apply Forall_forall. intros [b rb] Hb. cbn. intros ->. apply H2. by apply (list_elem_of_fmap_2 fst _ (a, rb)).
  - apply Forall_forall. intros [b rb] Hb. cbn. intros ->. apply (H1 a); [by apply (list_elem_of_fmap_2 fst _ (a, rb))|by left].
Qed.

Lemma delReg_mem p a b r : (b, r) ∈ vinfos (delReg p a) <-> (b, r) ∈ vinfos p /\ b <> a.
Proof. cbn. rewrite list_elem_of_filter. cbn. tauto. Qed.

Lemma caps_del w v l1 p l2 a : rep w v -> v DiscList = l1 ++ p :: l2 -> a ∈ (vinfos p).*1 ->
  capsOk (listDelete a <$> g_capabilityList w) (l1 ++ delReg p a :: l2).
Proof.
  intros Hr E Ha. destruct (rep_caps w v Hr) as [Hl Hc]. split; [by rewrite length_fmap|].
  intros b nodes' E'. rewrite list_lookup_fmap in E'. destruct (g_capabilityList w !! b) as [nodes|] eqn:En; [|done].
  cbn in E'. simplify_eq. destruct (Hc b nodes En) as [Hd Hin]. split; [by apply NoDup_filter|].
  assert (p ∈ v DiscList) as Hp by (rewrite E; set_solver).
  intros a'. unfold listDelete. rewrite list_elem_of_filter, Hin. split.
  - intros (Hne & q & r & Hq & Hr' & Hcap). rewrite E in Hq. apply elem_of_app in Hq as [Hq|Hq]; [exists q, r; set_solver|].
    apply elem_of_cons in Hq as [->|Hq]; [|exists q, r; set_solver].
    exists (delReg p a), r. rewrite delReg_mem. set_solver.
  - intros (q & r & Hq & Hr' & Hcap).
    assert (q ∈ upd v DiscList (l1 ++ delReg p a :: l2) DiscList) as Hq' by by rewrite upd_same.
    destruct (upd_mem_replace w v DiscList l1 p (delReg p a) l2 DiscList q Hr E Hq') as [[_ ->]|[Hq2 Hv]].
    + apply delReg_mem in Hr' as [Hr' Hne]. split; [done|]. by exists p, r.
    + split; [|by exists q, r]. intros ->. by apply (info_apart w v DiscList DiscList p q a r Hr Hp Hq2 Hv Hr').
Qed.

Lemma wp_unlinkInfo k type v w l1 p l2 a r (Q : unit -> World S -> Prop) : rep w v -> v k = l1 ++ p :: l2 ->
  (a, r) ∈ vinfos p -> typeOk k type ->
  (forall w', rep w' (upd v k (l1 ++ delReg p a :: l2)) -> rest w' = rest w -> infos w' = infos w -> next w' = next w -> Q tt w') ->
  wp (unlinkInfo (va p) a type) w Q.
Proof.
  intros Hr E Ha Htype HQ. assert (p ∈ v k) as Hp by (rewrite E; set_solver).
  pose proof (rep_item w v Hr k p Hp) as Hit. pose proof (rep_infos w v Hr k p Hp) as Hnd.
  pose proof (rep_small w v Hr k p Hp) as Hsm. pose proof (delReg_length p a r Hnd Ha) as Hlen.
  assert (a ∈ (vinfos p).*1) as Ha1 by by apply (list_elem_of_fmap_2 fst _ (a, r)).
  assert (forall caps, capsOk caps (upd v k (l1 ++ delReg p a :: l2) DiscList) ->
    rep (setCaps caps (setHeap (<[va p := itemOf (delReg p a)]> (items w)) (infos w) (next w) w))
      (upd v k (l1 ++ delReg p a :: l2))) as Hrep.
  { intros caps Hcaps. eapply (rep_replace w _ v k l1 p (delReg p a)); try done.
    - intros b rb [Hb _]%delReg_mem. split_and!; [exact (rep_info w v Hr k p Hp b rb Hb)|exact (rep_kind w v Hr k p Hp b rb Hb)|].
      pose proof (proj2 (rep_fresh w v Hr k p Hp)) as H. rewrite Forall_fmap, Forall_forall in H. by apply (H (b, rb)).
    - rewrite delReg_fst. by apply NoDup_filter.
    - cbn [vinfos delReg]. apply (sublist_NoDup _ (rid ∘ snd <$> vinfos p)); [by eapply rep_ids|].
      apply fmap_sublist, sublist_filter.
    - lia. }
  assert (MkItem (vname p) (vcb p) (u32 (Z.of_nat (length (vinfos p)) - 1)) (listDelete a (vinfos p).*1) = itemOf (delReg p a)) as Eit.
  { unfold itemOf. rewrite delReg_fst. cbn [vname vcb delReg]. f_equal. rewrite wrapU_id by range. lia. }
  apply wp_bind. eapply wp_readItem; [exact Hit|]. apply wp_bind. eapply wp_writeItem; [exact Hit|].
  cbn [itemOf packageName callback infoNum InfoList]. apply wp_bind. unfold DeleteInfoFromCapability, typeOk in *. rewrite Htype.
  destruct k; cbn [negb].
  - apply wp_ret. apply wp_bind. eapply wp_readItem; [cbn; apply lookup_insert_eq|]. cbn.
    eapply wp_writeItem; [cbn; apply lookup_insert_eq|].
    apply HQ; try done. eapply rep_core; [|apply (Hrep (g_capabilityList w))]; [unfold core; rewrite <- Eit; cbn; by rewrite insert_insert_eq|]. rewrite upd_other by done. apply Hr.
  - apply wp_bind. eapply wp_readInfo; [cbn; by apply (rep_info w v Hr DiscList p Hp)|]. apply wp_modify.
    apply wp_bind. eapply wp_readItem; [cbn; apply lookup_insert_eq|]. cbn.
    eapply wp_writeItem; [cbn; apply lookup_insert_eq|].
    apply HQ; try done. eapply rep_core; [|apply (Hrep (listDelete a <$> g_capabilityList w))];
      [unfold core; rewrite <- Eit; cbn; by rewrite insert_insert_eq|]. rewrite upd_same. by apply (caps_del w v).
Qed.

Lemma wp_dropItem k v w l1 p l2 (Q : unit -> World S -> Prop) : rep w v -> v k = l1 ++ p :: l2 -> vinfos p = [] ->
  (forall w', rep w' (upd v k (l1 ++ l2)) -> rest w' = rest w -> infos w' = infos w -> next w' = next w -> Q tt w') ->
  wp (dropItem k (va p)) w Q.
Proof.
  intros Hr E Ep HQ. assert (p ∈ v k) as Hp by (rewrite E; set_solver).
  assert (listDelete (va p) (va <$> v k) = va <$> l1 ++ l2) as El.
  { unfold listDelete. rewrite E, !fmap_app, fmap_cons, filter_app, filter_cons_False by tauto.
    pose proof (rep_nodup w v Hr k) as Hn. rewrite E, fmap_app, fmap_cons in Hn.
    apply NoDup_app in Hn as (_ & H1 & H2). apply NoDup_cons in H2 as [H2 _].
    rewrite !list_filter_all; [done|..]; apply Forall_forall; intros b Hb ->; [done|]. apply (H1 (va p)); [done|by left]. }
  apply wp_bind. eapply wp_readList; [apply (rep_list w v Hr k)|]. apply wp_bind. eapply putItem; [apply (rep_list w v Hr k)|].
  cbn [Utils.cnt Utils.list]. rewrite El. intros w1 L1 L1' F1 R1. injection F1 as F11 F12 F13 F14 F15.
  apply wp_bind. eapply wp_readItem; [rewrite F13; by apply (rep_item w v Hr k)|]. apply wp_modify. apply HQ; try done.
  eapply (rep_drop w _ v k l1 p l2); try done; cbn.
  - transitivity (theList k w1); [by destruct k|]. rewrite L1. f_equal. f_equal.
    by rewrite <- !Z.add_opp_r, wrapU_add_l.
  - by rewrite F13.
Qed.

(** The views after a registration was taken out; an item with no
    registration left is freed. *)
Inductive Removed (v : View) (k : Which) (n : string) (a : nat) (r : Registration) : View -> Prop :=
  | removed_kept l1 p l2 : v k = l1 ++ p :: l2 -> vname p = n -> (a, r) ∈ vinfos p -> vinfos (delReg p a) <> [] ->
      Removed v k n a r (upd v k (l1 ++ delReg p a :: l2))
  | removed_last l1 p l2 : v k = l1 ++ p :: l2 -> vname p = n -> (a, r) ∈ vinfos p -> vinfos (delReg p a) = [] ->
      Removed v k n a r (upd v k (l1 ++ l2)).

(** The views after a search: an item without registrations is freed. *)
Inductive Pruned (v : View) (k : Which) (n : string) : View -> Prop :=
  | pruned_absent : n ∉ (vname <$> v k) -> Pruned v k n v
  | pruned_other p : p ∈ v k -> vname p = n -> vinfos p <> [] -> Pruned v k n v
  | pruned_empty l1 p l2 : v k = l1 ++ p :: l2 -> vname p = n -> vinfos p = [] -> Pruned v k n (upd v k (l1 ++ l2)).

Lemma named_unique w v k l1 p l2 q : rep w v -> v k = l1 ++ p :: l2 -> q ∈ v k -> vname q = vname p -> q = p.
Proof.
  intros Hr E Hq En. pose proof (rep_names w v Hr k) as H. rewrite E in H, Hq.
  rewrite fmap_app, fmap_cons in H. apply NoDup_app in H as (_ & H1 & H2). apply NoDup_cons in H2 as [H2 _].
  apply elem_of_app in Hq as [Hq|Hq]; [|apply elem_of_cons in Hq as [?|Hq]; [done|]]; exfalso.
  - apply (H1 (vname q)); [by apply list_elem_of_fmap_2|]. rewrite En. by left.
  - apply H2. rewrite <- En. by apply list_elem_of_fmap_2.
Qed.

Lemma delReg_unlisted w v k l1 p l2 a r : rep w v -> v k = l1 ++ p :: l2 -> (a, r) ∈ vinfos p ->
  unlisted (upd v k (l1 ++ delReg p a :: l2)) a.
Proof.
  intros Hr E Ha k' q Hq Hin. apply list_elem_of_fmap in Hin as ([b rb] & -> & Hin). cbn in Ha.
  destruct (upd_mem_replace w v k l1 p (delReg p b) l2 k' q Hr E Hq) as [[-> ->]|[Hq' Hv]].
  - by apply delReg_mem in Hin as [_ Hin].
  - eapply (info_apart w v k k' p q b rb); try done; [rewrite E; set_solver|]. by apply (list_elem_of_fmap_2 fst _ (b, r)).
Qed.

Lemma wp_DeleteInfoFromList k pkg i type v w (Q : option nat -> World S -> Prop) : rep w v -> typeOk k type ->
  (forall w' v', rep w' v' -> rest w' = rest w ->
    (Pruned v k (chars pkg) v' /\ ~ registered (v k) (chars pkg) i) \/ (v' = v /\ exists n, sysOk n = false) -> Q None w') ->
  (forall w' v' a r o, rep w' v' -> rest w' = rest w -> Removed v k (chars pkg) a r v' -> rid r = i -> kindOk k r ->
    unlisted v' a -> infos w' !! a = Some (MkInfo r (Some o)) -> Q (Some a) w') ->
  wp (DeleteInfoFromList k pkg i type) w Q.
Proof.
  intros Hr Htype QN QS. apply wp_bind. eapply wp_lock; [exact Hr|..].
  { intros w1 Hr1 C1 R1 Es. cbn. apply wp_ret. eapply QN; eauto. }
  intros w1 Hr1 _ R1. cbn. apply wp_bind. eapply wp_readList; [apply (rep_list w1 v Hr1 k)|]. cbn [Utils.list].
  apply wp_bind, wp_findItem; [intros p Hp; by apply (rep_item w1 v Hr1 k)|].
  destruct (findPkg (chars pkg) (v k)) as [p|] eqn:Ef; cbn [fmap option_fmap option_map].
  2: { apply findPkg_none in Ef. eapply wp_unlock_ret; [exact R1|done|exact Hr1|]. intros w2 Hr2 R2 I2.
    eapply QN; [exact Hr2|exact R2|]. left. split; [by constructor|].
    intros (q & Hq & En & _). apply Ef. rewrite <- En. by apply list_elem_of_fmap_2. }
  apply findPkg_some in Ef as [En (l1 & l2 & E)]. assert (p ∈ v k) as Hp by (rewrite E; set_solver).
  pose proof (rep_item w1 v Hr1 k p Hp) as Hit. apply wp_bind. eapply wp_readItem; [exact Hit|]. cbn [infoNum itemOf InfoList].
  assert (forall j, registered (v k) (chars pkg) j -> j ∈ (rid ∘ snd <$> vinfos p)) as Hreg.
  { intros j (q & Hq & Eq & Hj). rewrite <- En in Eq. by rewrite (named_unique w1 v k l1 p l2 q Hr1 E Hq Eq) in Hj. }
  destruct (Z.eqb_spec (Z.of_nat (length (vinfos p))) 0) as [E0|Hne].
  { assert (vinfos p = []) as Ep by (apply length_zero_iff_nil; lia). apply wp_bind. eapply wp_dropItem; [exact Hr1|exact E|exact Ep|].
    intros w2 Hr2 R2 I2 N2. eapply wp_unlock_ret; [exact R1|exact R2|exact Hr2|]. intros w3 Hr3 R3 _.
    eapply QN; [exact Hr3|exact R3|]. left. split; [by econstructor|]. intros Hj%Hreg. rewrite Ep in Hj. set_solver. }
  apply wp_bind. eapply wp_findInfo; [intros b rb Hb; by apply (rep_info w1 v Hr1 k p Hp)|].
  destruct (List.find (hasId i) (vinfos p)) as [[a r]|] eqn:Ei; cbn [fmap option_fmap option_map].
  2: { apply findId_none in Ei. eapply wp_unlock_ret; [exact R1|done|exact Hr1|]. intros w2 Hr2 R2 I2.
    eapply QN; [exact Hr2|exact R2|]. left. split; [|auto]. eapply pruned_other; [exact Hp|done|]. intros Ep. by rewrite Ep in Hne. }
  apply findId_some in Ei as [Eid Ha]. apply wp_bind. eapply wp_unlinkInfo; [exact Hr1|exact E|exact Ha|exact Htype|].
  cbn [fst]. intros w2 Hr2 R2 I2 N2. assert (upd v k (l1 ++ delReg p a :: l2) k = l1 ++ delReg p a :: l2) as E2 by apply upd_same.
  assert (items w2 !! va p = Some (itemOf (delReg p a))) as Hit2.
  { apply (rep_item w2 _ Hr2 k (delReg p a)). rewrite E2. set_solver. }
  pose proof (rep_info w1 v Hr1 k p Hp a r Ha) as Hi. pose proof (delReg_unlisted w1 v k l1 p l2 a r Hr1 E Ha) as Hu.
  apply wp_bind. eapply wp_readItem; [exact Hit2|]. cbn [infoNum itemOf]. apply wp_bind.
  destruct (Z.eqb_spec (Z.of_nat (length (vinfos (delReg p a)))) 0) as [E0|Hne2].
  - assert (vinfos (delReg p a) = []) as Ep by (apply length_zero_iff_nil; lia).
    eapply (wp_dropItem k _ w2 l1 (delReg p a) l2); [exact Hr2|exact E2|exact Ep|].
    intros w3 Hr3 R3 I3 N3. eapply wp_unlock_ret; [exact R1|congruence|exact Hr3|]. intros w4 Hr4 R4 I4.
    eapply (QS w4 (upd v k (l1 ++ l2)) a r (va p)); try done.
    + eapply rep_ext; [|exact Hr4]. intros k'. by rewrite upd_upd.
    + by econstructor.
    + exact (rep_kind w1 v Hr1 k p Hp a r Ha).
    + intros k' q Hq. apply (Hu k' q). destruct (decide (k = k')) as [<-|Hk]; [|by rewrite upd_other in Hq |- *].
      rewrite upd_same in Hq |- *. set_solver.
    + congruence.
  - apply wp_ret. eapply wp_unlock_ret; [exact R1|exact R2|exact Hr2|]. intros w3 Hr3 R3 I3.
    eapply (QS w3 _ a r (va p)); [exact Hr3|exact R3| |done|exact (rep_kind w1 v Hr1 k p Hp a r Ha)|done|congruence].
    econstructor; try done. intros En0. rewrite En0 in Hne2. done.
Qed.

(** ** A medium refuses *)

(** The views after a registration was added and taken back. *)
Inductive Refused (v : View) (k : Which) (type : ServiceType) (n : string) (c : InnerCallback) : View -> Prop :=
  | refused_old l1 p l2 : v k = l1 ++ p :: l2 -> vname p = n ->
      Refused v k type n c (upd v k (l1 ++ setCb p (newCb type (vcb p) c) :: l2))
  | refused_new new : n ∉ (vname <$> v k) ->
      Refused v k type n c (upd v k (putPkg (isInner type) (MkPkg new n (newCb type None c) []) (v k))).

Lemma del_addReg p a r : a ∉ (vinfos p).*1 -> delReg (addReg p a r) a = p.
Proof.
  intros Ha. destruct p as [x n c l]. unfold delReg, addReg. cbn in *. f_equal.
  rewrite filter_app, filter_cons_False, filter_nil, app_nil_r by (cbn; tauto). apply list_filter_all, Forall_forall.
  intros [b rb] Hb. cbn. intros ->. apply Ha. by apply (list_elem_of_fmap_2 fst _ (a, rb)).
Qed.

Lemma wp_rollback k type n c a r o v v' w (Q : unit -> World S -> Prop) : rep w v' -> unlisted v a -> typeOk k type ->
  infos w !! a = Some (MkInfo r (Some o)) -> Added v k type n c a r v' o ->
  (forall w' v'', rep w' v'' -> rest w' = rest w -> infos w' = infos w -> Refused v k type n c v'' -> unlisted v'' a -> Q tt w') ->
  wp (rollback a type) w Q.
Proof.
  intros Hr Hu Htype Ha HA HQ. apply wp_bind. eapply wp_readInfo; [exact Ha|]. apply wp_bind. eapply wp_lift; [done|].
  assert (exists p0 l1 l2 v'', v' k = l1 ++ addReg p0 a r :: l2 /\ va p0 = o /\ a ∉ (vinfos p0).*1 /\
    (forall k', v'' k' = upd v' k (l1 ++ p0 :: l2) k') /\ Refused v k type n c v'') as (p0 & l1 & l2 & v'' & E & <- & Hp0 & Ev & HR).
  { destruct HA as [l1 p l2 E En Hid|new Hn].
    - exists (setCb p (newCb type (vcb p) c)), l1, l2, (upd v k (l1 ++ setCb p (newCb type (vcb p) c) :: l2)).
      rewrite upd_same. split_and!; [done|done| | |by constructor].
      + apply (Hu k p). rewrite E. set_solver.
      + intros k'. by rewrite upd_upd.
    - set (p0 := MkPkg new n (newCb type None c) []).
      assert (exists l1 l2, putPkg (isInner type) (addReg p0 a r) (v k) = l1 ++ addReg p0 a r :: l2 /\
        putPkg (isInner type) p0 (v k) = l1 ++ p0 :: l2) as (l1 & l2 & E1 & E2).
      { destruct (isInner type); [by exists [], (v k)|by exists (v k), []]. }
      exists p0, l1, l2, (upd v k (putPkg (isInner type) p0 (v k))). rewrite upd_same.
      split_and!; [exact E1|done|cbn; set_solver| |by constructor]. intros k'. by rewrite upd_upd, E2. }
  change (va p0) with (va (addReg p0 a r)). assert ((a, r) ∈ vinfos (addReg p0 a r)) as Hin by (cbn; set_solver).
  eapply wp_unlinkInfo; [exact Hr|exact E|exact Hin|exact Htype|]. intros w' Hr' R' I' N'.
  pose proof (delReg_unlisted w v' k l1 _ l2 a r Hr E Hin) as Hu'. rewrite (del_addReg p0 a r Hp0) in Hr', Hu'.
  apply (HQ w' v''); try done; [by eapply rep_ext|]. intros k' p Hp. apply (Hu' k'). by rewrite <- Ev.
Qed.

(** An info that no item has is freed. *)
Lemma wp_Release k a r o type v w (Q : unit -> World S -> Prop) : rep w v -> unlisted v a -> typeOk k type -> kindOk k r ->
  infos w !! a = Some (MkInfo r o) ->
  (forall w', rep w' v -> rest w' = rest w -> infos w' = delete a (infos w) -> Q tt w') -> wp (ReleaseInfoNodeMem a type) w Q.
Proof.
  intros Hr Hu Htype Hk Ha HQ. apply wp_bind. eapply wp_readInfo; [exact Ha|]. apply wp_bind.
  apply (wp_mono _ _ (fun _ w' => w' = w)).
  - unfold typeOk in Htype. rewrite Htype. destruct k; cbn [reg].
    + destruct Hk as [o' Ho]. apply wp_bind. eapply wp_lift; [exact Ho|]. by apply wp_ret.
    + destruct Hk as [b Hb]. unfold capOf in Hb. destruct (asSubscribe (roption r)) eqn:Ho; [|done].
      apply wp_bind. eapply wp_lift; [done|]. by apply wp_ret.
  - intros [] w' ->. apply wp_modify, HQ; try done. destruct Hr. split; try done.
    intros k' p Hp b rb Hb. cbn. rewrite lookup_delete_ne; [by eapply rep_info0|]. intros <-.
    apply (Hu k' p Hp). by apply (list_elem_of_fmap_2 fst _ (a, rb)).
Qed.

(** ** What the media answer *)

Definition askMedium (o : InnerOption) (itf : option (DiscoveryFuncInterface S)) (mode : Z) (type : InterfaceFuncType) (m : S) : Z * S :=
  match itf with
  | None => (SOFTBUS_DISCOVER_MANAGER_INNERFUNCTION_FAIL, m)
  | Some i =>
      match type, o with
      | PUBLISH_FUNC, publishOption p => if mode =? DISCOVER_MODE_ACTIVE then Publish i p m else StartScan i p m
      | UNPUBLISH_FUNC, publishOption p => if mode =? DISCOVER_MODE_ACTIVE then Unpublish i p m else StopScan i p m
      | STARTDISCOVERTY_FUNC, subscribeOption s => if mode =? DISCOVER_MODE_ACTIVE then StartAdvertise i s m else Subscribe i s m
      | STOPDISCOVERY_FUNC, subscribeOption s => if mode =? DISCOVER_MODE_ACTIVE then StopAdvertise i s m else Unsubscribe i s m
      | _, _ => (SOFTBUS_DISCOVER_MANAGER_INNERFUNCTION_FAIL, m)
      end
  end.

(** The media a registration names, one after the other for [AUTO], which
    succeeds when one of them does. *)
Definition askMedia (coap ble : option (DiscoveryFuncInterface S)) (r : Registration) (type : InterfaceFuncType) (m : S) : Z * S :=
  if rmedium r =? COAP then askMedium (roption r) coap (rmode r) type m
  else if rmedium r =? BLE then askMedium (roption r) ble (rmode r) type m
  else if rmedium r =? AUTO then
    let '(r1, m1) := askMedium (roption r) coap (rmode r) type m in
    let '(r2, m2) := askMedium (roption r) ble (rmode r) type m1 in
    (if (r1 =? SOFTBUS_OK) || (r2 =? SOFTBUS_OK) then SOFTBUS_OK else SOFTBUS_DISCOVER_MANAGER_INNERFUNCTION_FAIL, m2)
  else (SOFTBUS_DISCOVER_MANAGER_INNERFUNCTION_FAIL, m).

Definition funcOk (k : Which) (f : InterfaceFuncType) : Prop :=
  match k, f with
  | PubList, (PUBLISH_FUNC | UNPUBLISH_FUNC) | DiscList, (STARTDISCOVERTY_FUNC | STOPDISCOVERY_FUNC) => True
  | _, _ => False
  end.

Definition atMedium (w w' : World S) (m : S) : Prop := core w' = core w /\ rest w' = rest (setMedium m w).

Lemma wp_DiscInterfaceProcess k o itf mode f w (Q : Z -> World S -> Prop) : funcOk k f ->
  match k with PubList => is_Some (asPublish o) | DiscList => is_Some (asSubscribe o) end ->
  (forall w', atMedium w w' (askMedium o itf mode f (medium w)).2 -> Q (askMedium o itf mode f (medium w)).1 w') ->
  wp (DiscInterfaceProcess o itf mode f) w Q.
Proof.
  intros Hf Ho HQ. unfold DiscInterfaceProcess, askMedium in *. destruct itf as [itf|]; [|apply wp_ret, HQ; by destruct w].
  destruct k, o; destruct Ho as [x Ho]; try done; destruct f; try done; destruct (mode =? DISCOVER_MODE_ACTIVE);
    (apply wp_bind; eapply wp_lift; [reflexivity|]; apply wp_bind, wp_get, wp_bind, wp_modify, wp_ret, HQ; done).
Qed.

Lemma wp_DiscInterfaceByMedium k a r o f w (Q : Z -> World S -> Prop) : funcOk k f -> kindOk k r ->
  infos w !! a = Some (MkInfo r o) ->
  (forall w', atMedium w w' (askMedia (g_discCoapInterface w) (g_discBleInterface w) r f (medium w)).2 ->
    Q (askMedia (g_discCoapInterface w) (g_discBleInterface w) r f (medium w)).1 w') ->
  wp (DiscInterfaceByMedium a f) w Q.
Proof.
  intros Hf Hk Ha HQ. apply wp_bind. eapply wp_readInfo; [exact Ha|]. apply wp_bind, wp_get. unfold askMedia in HQ. cbn [reg].
  assert (match k with PubList => is_Some (asPublish (roption r)) | DiscList => is_Some (asSubscribe (roption r)) end) as Ho.
  { destruct k; [exact Hk|]. destruct Hk as [b Hb]. unfold capOf in Hb. by destruct (asSubscribe (roption r)). }
  destruct (rmedium r =? COAP); [by eapply wp_DiscInterfaceProcess|].
  destruct (rmedium r =? BLE); [by eapply wp_DiscInterfaceProcess|].
  destruct (rmedium r =? AUTO); [|by apply wp_ret, HQ].
  destruct (askMedium _ _ _ _ (medium w)) as [r1 m1] eqn:E1. apply wp_bind. eapply wp_DiscInterfaceProcess; [exact Hf|exact Ho|].
  rewrite E1. intros w1 [C1 R1]. cbn [fst snd] in *. assert (medium w1 = m1) as Em.
  { unfold rest in R1. by injection R1. }
  rewrite <- Em in HQ.
  destruct (askMedium _ _ _ _ (medium w1)) as [r2 m2] eqn:E2. apply wp_bind. eapply wp_DiscInterfaceProcess; [exact Hf|exact Ho|].
  rewrite E2. intros w2 [C2 R2]. cbn [fst snd] in *.
  assert (atMedium w w2 m2) as H2.
  { split; [congruence|]. rewrite R2. unfold rest in R1 |- *. cbn in *. by injection R1 as -> -> -> -> -> _ ->. }
  destruct ((r1 =? SOFTBUS_OK) || (r2 =? SOFTBUS_OK)); apply wp_ret; by apply HQ.
Qed.

(** ** New infos *)

(** The bytes an info keeps: the client's, followed by zeros. *)
Definition padded (data : option (list Z)) (dataLen : Z) : list Z :=
  take (Z.to_nat dataLen) (default [] data) ++ replicate (Z.to_nat (MAX_CAPABILITYDATA_LEN - dataLen)) 0.

(** What the client owes: a terminator in its data, and as many bytes as it
    says. *)
Definition dataOk (data : option (list Z)) (dataLen : Z) : Prop :=
  0 <= dataLen /\ match data with None => True | Some bytes => is_Some (Utils.strlen bytes) /\ dataLen <= Z.of_nat (length bytes) end.

Lemma infoCheck_total mode m freq data dataLen : dataOk data dataLen -> exists x, infoCheck mode m freq data dataLen = Some x.
Proof.
  intros [_ H]. unfold infoCheck. repeat case_match; eauto. destruct H as [[n ->] _]. cbn. case_match; eauto.
Qed.

Lemma copyData_ok mode m freq data dataLen : dataOk data dataLen -> infoCheck mode m freq data dataLen = Some SOFTBUS_OK ->
  copyData data dataLen = Some (Some (padded data dataLen)).
Proof.
  intros [H0 H] Hc. unfold infoCheck in Hc. case_match; [done|]. case_match; [done|]. case_match; [done|].
  unfold copyData, padded. destruct (Z.eqb_spec dataLen 0) as [->|Hne]; [done|].
  destruct data as [bytes|]; [|done]. destruct H as [_ H]. destruct (Z.ltb_spec MAX_CAPABILITYDATA_LEN dataLen); [done|].
  cbn. by rewrite (proj2 (Z.ltb_ge _ _)) by lia.
Qed.

(** The bit of a capability, when it has one. *)
Definition capBit (capability : string) : option Z :=
  let b := CapabilityStringToBimap capability in if b <? 0 then None else Some b.

Lemma capBit_first cap b : capBit cap = Some b -> firstBit (BitmapSet 0 (u32 b)) = Some b /\ b = CapabilityStringToBimap cap.
Proof.
  unfold capBit, CapabilityStringToBimap. change (take _ _) with g_capabilityMap. unfold g_capabilityMap. cbn [capabilityLoop].
  repeat (destruct (decide _); [intros [= <-]; split; [vm_compute; reflexivity|done]|]). intros H. by vm_compute in H.
Qed.

Lemma rep_unlisted_fresh w v a : rep w v -> (next w <= a)%nat -> unlisted v a.
Proof.
  intros Hr Ha k p Hp Hin. destruct (rep_fresh w v Hr k p Hp) as [_ H]. rewrite Forall_forall in H.
  specialize (H a Hin). cbn in H. lia.
Qed.

Lemma wp_createInfoNode id mode med cap data dataLen mk v w (Q : option nat -> World S -> Prop) : rep w v ->
  copyData data dataLen = Some (Some (padded data dataLen)) ->
  (forall w' a b, rep w' v -> rest w' = rest w -> capBit cap = Some b -> (a < next w')%nat -> unlisted v a ->
    infos w' !! a = Some (MkInfo (MkReg id mode med (mk (padded data dataLen) (BitmapSet 0 (u32 b)))) None) -> Q (Some a) w') ->
  (forall w', rep w' v -> rest w' = rest w -> capBit cap = None \/ (exists n, sysOk n = false) -> Q None w') ->
  wp (createInfoNode id mode med cap data dataLen mk) w Q.
Proof.
  intros Hr Hcopy QS QN. apply wp_bind. eapply wp_calloc; [exact Hr| |].
  2: { intros w1 Hr1 R1 _ _ Hs. apply wp_ret, QN; eauto. }
  intros w1 Hr1 R1 T1 I1 N1. apply wp_bind. eapply wp_calloc; [exact Hr1| |].
  2: { intros w2 Hr2 R2 _ _ Hs. apply wp_ret, QN; eauto. congruence. }
  intros w2 Hr2 R2 T2 I2 N2. apply wp_bind. eapply wp_lift; [exact Hcopy|].
  pose proof (eq_refl (capBit cap)) as Ec. unfold capBit at 1 in Ec. cbn zeta in Ec |- *.
  destruct (CapabilityStringToBimap cap <? 0).
  - apply wp_ret, QN; [done|congruence|by left].
  - apply wp_bind, wp_modify, wp_ret. pose proof (rep_unlisted_fresh w v (next w) Hr ltac:(lia)) as Hu.
    eapply (QS _ _ (CapabilityStringToBimap cap)); try done; [|by transitivity (rest w2); [|congruence]|cbn; lia|cbn; by rewrite lookup_insert_eq].
    destruct Hr2. split; try done. intros k p Hp b rb Hb. cbn. rewrite lookup_insert_ne; [by eapply rep_info0|].
    intros <-. apply (Hu k p Hp). by apply (list_elem_of_fmap_2 fst _ (next w, rb)).
Qed.

(** ** Starting and stopping a service *)

(** [InnerPublishService] and [InnerStartDiscovery], and their counterparts,
    are the same program over the two lists. *)
Definition startService (k : Which) (cb : option InnerCallback) (f : InterfaceFuncType) (pkg : CString) (info : nat)
  (type : ServiceType) : M Z :=
  bind (AddInfoToList k pkg cb info type) (fun r =>
  if negb (r =? SOFTBUS_OK) then ret r
  else bind (DiscInterfaceByMedium info f) (fun r =>
    if negb (r =? SOFTBUS_OK) then bind (rollback info type) (fun _ => ret r) else ret SOFTBUS_OK)).

Definition stopService (k : Which) (f : InterfaceFuncType) (pkg : CString) (id : Z) (type : ServiceType) : M Z :=
  bind (DeleteInfoFromList k pkg id type) (fun infoNode =>
  match infoNode with
  | None => ret SOFTBUS_DISCOVER_MANAGER_INFO_NOT_DELETE
  | Some info => bind (DiscInterfaceByMedium info f) (fun r =>
      if negb (r =? SOFTBUS_OK) then ret r else bind (ReleaseInfoNodeMem info type) (fun _ => ret SOFTBUS_OK))
  end).

Lemma publish_start pkg info type : InnerPublishService pkg info type = startService PubList None PUBLISH_FUNC pkg info type.
Proof. done. Qed.
Lemma discovery_start pkg info cb type :
  InnerStartDiscovery pkg info cb type = startService DiscList (Some (default None cb)) STARTDISCOVERTY_FUNC pkg info type.
Proof. by destruct cb. Qed.
Lemma publish_stop pkg id type : InnerUnPublishService pkg id type = stopService PubList UNPUBLISH_FUNC pkg id type.
Proof. done. Qed.
Lemma discovery_stop pkg id type : InnerStopDiscovery pkg id type = stopService DiscList STOPDISCOVERY_FUNC pkg id type.
Proof. done. Qed.

Definition startFunc (k : Which) : InterfaceFuncType := match k with PubList => PUBLISH_FUNC | DiscList => STARTDISCOVERTY_FUNC end.
Definition stopFunc (k : Which) : InterfaceFuncType := match k with PubList => UNPUBLISH_FUNC | DiscList => STOPDISCOVERY_FUNC end.

(** A registration and what the entry points do after it, from an info that
    no item has: on failure the info is released. *)
Definition register (k : Which) (cb : option InnerCallback) (pkg : CString) (info : nat) (type : ServiceType) : M Z :=
  bind (startService k cb (startFunc k) pkg info type) (fun r =>
  if negb (r =? SOFTBUS_OK) then bind (ReleaseInfoNodeMem info type) (fun _ => ret r) else ret SOFTBUS_OK).

Lemma funcOk_start k : funcOk k (startFunc k). Proof. by destruct k. Qed.
Lemma funcOk_stop k : funcOk k (stopFunc k). Proof. by destruct k. Qed.
#[local] Hint Resolve funcOk_start funcOk_stop : core.

Lemma wp_register k cb c pkg a r type v w (Q : Z -> World S -> Prop) (ans := askMedia (g_discCoapInterface w) (g_discBleInterface w) r (startFunc k) (medium w)) :
  rep w v -> infos w !! a = Some (MkInfo r None) -> (a < next w)%nat -> unlisted v a -> kindOk k r -> typeOk k type ->
  nameOk pkg -> (isSubscribe type = true -> cb = Some c) ->
  (forall p, p ∈ v k -> Z.of_nat (length (vinfos p)) + 1 < 2 ^ 32) ->
  (forall x w', rep w' v -> rest w' = rest w -> (exists n, sysOk n = false) ->
    x = SOFTBUS_LOCK_ERR \/ x = SOFTBUS_DISCOVER_MANAGER_ITEM_NOT_CREATE -> Q x w') ->
  (forall w', rep w' v -> rest w' = rest w -> registered (v k) (chars pkg) (rid r) -> Q SOFTBUS_DISCOVER_MANAGER_DUPLICATE_PARAM w') ->
  (forall w' v' o, rep w' v' -> rest w' = rest (setMedium ans.2 w) -> Added v k type (chars pkg) c a r v' o -> ans.1 = SOFTBUS_OK ->
    Q SOFTBUS_OK w') ->
  (forall w' v' v'' o, rep w' v'' -> rest w' = rest (setMedium ans.2 w) -> Added v k type (chars pkg) c a r v' o ->
    Refused v k type (chars pkg) c v'' -> ans.1 <> SOFTBUS_OK -> Q ans.1 w') ->
  wp (register k cb pkg a type) w Q.
Proof.
  intros Hr Ha Hlt Hu Hk Ht Hroom Hcb Hfit QF QD QO QR.
  assert (forall x w', x <> SOFTBUS_OK -> rep w' v -> infos w' !! a = Some (MkInfo r None) ->
    (forall w'', rep w'' v -> rest w'' = rest w' -> Q x w'') ->
    wp (bind (ret x) (fun r => if negb (r =? SOFTBUS_OK) then bind (ReleaseInfoNodeMem a type) (fun _ => ret r) else ret SOFTBUS_OK)) w' Q) as Hrel.
  { intros x w' Hx Hr' Ha' HQ. apply wp_bind, wp_ret. rewrite (proj2 (Z.eqb_neq x _) Hx). cbn [negb]. apply wp_bind.
    eapply wp_Release; [exact Hr'|exact Hu|exact Ht|exact Hk|exact Ha'|]. intros w'' Hr'' R'' _. apply wp_ret. auto. }
  apply wp_bind. apply wp_bind. eapply wp_AddInfoToList; try done.
  - intros x w1 Hr1 R1 I1 Hs Hx. assert (x <> SOFTBUS_OK) as Hx' by by destruct Hx as [-> | ->].
    rewrite (proj2 (Z.eqb_neq x _) Hx'). cbn [negb]. apply wp_ret.
    destruct (Hrel x w1 Hx' Hr1 I1) as (y & w2 & E & H); [|exists y, w2; split; [exact E|exact H]].
    intros w2 Hr2 R2. apply QF; try done. congruence.
  - intros w1 Hr1 R1 I1 Hreg. apply wp_ret.
    destruct (Hrel SOFTBUS_DISCOVER_MANAGER_DUPLICATE_PARAM w1 ltac:(done) Hr1 I1) as (y & w2 & E & H); [|exists y, w2; split; [exact E|exact H]].
    intros w2 Hr2 R2. apply QD; try done. congruence.
  - intros w1 v1 o Hr1 R1 I1 HA. cbn [negb Z.eqb SOFTBUS_OK]. apply wp_bind.
    assert (ans = askMedia (g_discCoapInterface w1) (g_discBleInterface w1) r (startFunc k) (medium w1)) as Eans.
    { unfold rest in R1. by injection R1 as _ _ -> -> _ -> _. }
    eapply wp_DiscInterfaceByMedium; [apply funcOk_start|exact Hk|exact I1|]. rewrite <- Eans. intros w2 [C2 R2].
    assert (rest w2 = rest (setMedium ans.2 w)) as R2'.
    { rewrite R2. unfold rest in *. cbn in *. by injection R1 as -> -> -> -> -> _ ->. }
    pose proof (rep_core w1 w2 v1 C2 Hr1) as Hr2. unfold core in C2. injection C2 as _ _ _ _ _ I2 _.
    destruct (Z.eqb_spec ans.1 SOFTBUS_OK) as [Ex|Ex]; cbn [negb].
    + apply wp_ret, wp_ret. by eapply QO.
    + apply wp_bind. eapply wp_rollback; [exact Hr2|exact Hu|exact Ht|by rewrite I2|exact HA|].
      intros w3 v3 Hr3 R3 I3 HR Hu3. apply wp_ret. rewrite (proj2 (Z.eqb_neq _ _) Ex). cbn [negb]. apply wp_bind.
      eapply (wp_Release k a r (Some o)); [exact Hr3|exact Hu3|exact Ht|exact Hk|by rewrite I3, I2|].
      intros w4 Hr4 R4 _. apply wp_ret. eapply QR; [exact Hr4|congruence|exact HA|exact HR|exact Ex].
Qed.

Lemma wp_stopService k pkg i type v w (Q : Z -> World S -> Prop)
  (ans := fun r => askMedia (g_discCoapInterface w) (g_discBleInterface w) r (stopFunc k) (medium w)) :
  rep w v -> typeOk k type ->
  (forall w' v', rep w' v' -> rest w' = rest w ->
    (Pruned v k (chars pkg) v' /\ ~ registered (v k) (chars pkg) i) \/ (v' = v /\ exists n, sysOk n = false) -> Q SOFTBUS_DISCOVER_MANAGER_INFO_NOT_DELETE w') ->
  (forall w' v' a r, rep w' v' -> rest w' = rest (setMedium (ans r).2 w) -> Removed v k (chars pkg) a r v' -> rid r = i -> Q (ans r).1 w') ->
  wp (stopService k (stopFunc k) pkg i type) w Q.
Proof.
  intros Hr Ht QN QS. apply wp_bind. eapply wp_DeleteInfoFromList; [exact Hr|exact Ht|..].
  { intros w1 v1 Hr1 R1 HP. apply wp_ret. by eapply QN. }
  intros w1 v1 a r o Hr1 R1 HR Hid Hk Hu Ha. apply wp_bind.
  assert (ans r = askMedia (g_discCoapInterface w1) (g_discBleInterface w1) r (stopFunc k) (medium w1)) as Eans.
  { unfold rest in R1. unfold ans. by injection R1 as _ _ -> -> _ -> _. }
  eapply wp_DiscInterfaceByMedium; [apply funcOk_stop|exact Hk|exact Ha|]. rewrite <- Eans. intros w2 [C2 R2].
  assert (rest w2 = rest (setMedium (ans r).2 w)) as R2'.
  { rewrite R2. unfold rest in *. cbn in *. by injection R1 as -> -> -> -> -> _ ->. }
  pose proof (rep_core w1 w2 v1 C2 Hr1) as Hr2. unfold core in C2. injection C2 as _ _ _ _ _ I2 _.
  destruct (Z.eqb_spec (ans r).1 SOFTBUS_OK) as [Ex|Ex]; cbn [negb].
  - apply wp_bind. eapply (wp_Release k a r (Some o)); [exact Hr2|exact Hu|exact Ht|exact Hk|by rewrite I2|].
    intros w3 Hr3 R3 _. apply wp_ret. rewrite <- Ex. eapply QS; [exact Hr3|congruence|exact HR|exact Hid].
  - apply wp_ret. by eapply QS.
Qed.

(** ** The abstract state *)

Record Abs := MkAbs {
  pubs : gmap (string * Z) Registration;
  subs : gmap (string * Z) Registration;
  cbs : gmap string InnerCallback;
}.

Definition entries (l : list PkgView) : list ((string * Z) * Registration) :=
  p ← l; (fun x => ((vname p, rid x.2), x.2)) <$> vinfos p.

Definition table (l : list PkgView) : gmap (string * Z) Registration := list_to_map (entries l).

Definition callbacks (l : list PkgView) : gmap string InnerCallback := list_to_map ((fun p => (vname p, vcb p)) <$> l).

(** Publications and subscriptions by package and id, and the callback of
    every package that has an item in the list of subscriptions. *)
Definition abs (v : View) : Abs := MkAbs (table (v PubList)) (table (v DiscList)) (callbacks (v DiscList)).

Definition inView (l : list PkgView) (n : string) (i : Z) (r : Registration) : Prop :=
  exists p a, p ∈ l /\ vname p = n /\ (a, r) ∈ vinfos p /\ rid r = i.

Lemma entries_mem l n i r : ((n, i), r) ∈ entries l <-> inView l n i r.
Proof.
  unfold entries, inView. rewrite list_elem_of_bind. split.
  - intros (p & Hx & Hp). apply list_elem_of_fmap in Hx as ([a r'] & E & Hx). cbn in E. simplify_eq. eauto 10.
  - intros (p & a & Hp & <- & Ha & <-). exists p. split; [|done]. apply list_elem_of_fmap. by exists (a, r).
Qed.

Lemma entries_nodup l : NoDup (vname <$> l) -> (forall p, p ∈ l -> NoDup (rid ∘ snd <$> vinfos p)) -> NoDup (entries l).*1.
Proof.
  induction l as [|p l IH]; intros Hn Hi; [constructor|]. cbn [fmap list_fmap] in Hn. apply NoDup_cons in Hn as [Hn1 Hn2].
  cbn. rewrite fmap_app. apply NoDup_app. split_and!.
  - rewrite <- list_fmap_compose. change (fst ∘ _) with (fun x : nat * Registration => (vname p, rid x.2)).
    change (NoDup ((fun x : nat * Registration => (pair (vname p) ∘ (rid ∘ snd)) x) <$> vinfos p)).
    rewrite (list_fmap_compose (rid ∘ snd) (pair (vname p))). apply NoDup_fmap; [intros ? ? [=]; done|]. apply Hi. by left.
  - intros [n i] H1 H2. apply list_elem_of_fmap in H1 as ([[n1 i1] r1] & E1 & H1). cbn in E1. simplify_eq.
    apply list_elem_of_fmap in H1 as ([a1 r2] & E1 & _). cbn in E1. simplify_eq.
    apply list_elem_of_fmap in H2 as ([[n2 i2] r3] & E2 & H2). cbn in E2. simplify_eq.
    apply entries_mem in H2 as (q & a & Hq & En & _). apply Hn1. rewrite <- En. by apply list_elem_of_fmap_2.
  - apply IH; [done|]. intros q Hq. apply Hi. by right.
Qed.

Lemma table_lookup w v k n i r : rep w v -> table (v k) !! (n, i) = Some r <-> inView (v k) n i r.
Proof.
  intros Hr. unfold table. rewrite <- entries_mem, elem_of_list_to_map; [done|].
  apply entries_nodup; [apply Hr|]. intros p Hp. by eapply rep_ids.
Qed.

Lemma table_absent w v k n i : rep w v -> table (v k) !! (n, i) = None <-> ~ registered (v k) n i.
Proof.
  intros Hr. rewrite eq_None_not_Some. apply not_iff_compat. split.
  - intros [r (p & a & Hp & En & Ha & Hi)%(table_lookup w v k n i r Hr)]. exists p. split_and!; [done..|].
    apply list_elem_of_fmap. exists (a, r). done.
  - intros (p & Hp & En & Hi). apply list_elem_of_fmap in Hi as ([a r] & -> & Ha). exists r.
    apply (table_lookup w v k n _ r Hr). exists p, a. done.
Qed.

(** Two tables are the same when they have the same entries. *)
Lemma table_eq w v k T : rep w v -> (forall n i r, T !! (n, i) = Some r <-> inView (v k) n i r) -> table (v k) = T.
Proof.
  intros Hr H. apply map_eq. intros [n i]. apply option_eq. intros r. by rewrite H, (table_lookup w v k n i r Hr).
Qed.

Lemma callbacks_lookup w v k n c : rep w v -> callbacks (v k) !! n = Some c <-> exists p, p ∈ v k /\ vname p = n /\ vcb p = c.
Proof.
  intros Hr. unfold callbacks. rewrite <- elem_of_list_to_map.
  - rewrite list_elem_of_fmap. split; [intros (p & [= -> ->] & Hp); eauto|]. intros (p & Hp & <- & <-). eauto.
  - rewrite <- list_fmap_compose. change (fst ∘ _) with vname. apply Hr.
Qed.

Lemma callbacks_eq w v k T : rep w v -> (forall n c, T !! n = Some c <-> exists p, p ∈ v k /\ vname p = n /\ vcb p = c) ->
  callbacks (v k) = T.
Proof. intros Hr H. apply map_eq. intros n. apply option_eq. intros c. by rewrite H, (callbacks_lookup w v k n c Hr). Qed.

(** ** How the abstract state changes *)

Definition regsOf (k : Which) (A : Abs) : gmap (string * Z) Registration :=
  match k with PubList => pubs A | DiscList => subs A end.

Definition setRegs (k : Which) (T : gmap (string * Z) Registration) (A : Abs) : Abs :=
  match k with PubList => MkAbs T (subs A) (cbs A) | DiscList => MkAbs (pubs A) T (cbs A) end.

Definition cbAt (C : gmap string InnerCallback) (n : string) : InnerCallback := match C !! n with Some c => c | None => None end.

(** The callback of a package that subscribes. *)
Definition touchCb (k : Which) (type : ServiceType) (n : string) (c : InnerCallback) (A : Abs) : Abs :=
  match k with
  | PubList => A
  | DiscList => MkAbs (pubs A) (subs A) (<[n := newCb type (cbAt (cbs A) n) c]> (cbs A))
  end.

(** A package without subscriptions loses its callback. *)
Definition dropIdle (k : Which) (n : string) (A : Abs) : Abs :=
  match k with
  | PubList => A
  | DiscList =>
      if decide (filter (fun x => x.1.1 = n) (subs A) = ∅) then MkAbs (pubs A) (subs A) (delete n (cbs A)) else A
  end.

Lemma inView_mid l1 p l2 n i r : inView (l1 ++ p :: l2) n i r <-> inView [p] n i r \/ inView (l1 ++ l2) n i r.
Proof.
  unfold inView. split.
  - intros (q & a & Hq & H). assert (q ∈ [p] \/ q ∈ l1 ++ l2) as [H1|H1] by set_solver; eauto 10.
  - intros [(q & a & Hq & H)|(q & a & Hq & H)]; exists q, a; (split; [set_solver|done]).
Qed.

Lemma inView_one p n i r : inView [p] n i r <-> vname p = n /\ exists a, (a, r) ∈ vinfos p /\ rid r = i.
Proof.
  unfold inView. split; [intros (q & a & ->%list_elem_of_singleton & H); naive_solver|].
  intros (H1 & a & H2). exists p, a. set_solver.
Qed.

Lemma inView_put inner p l n i r : inView (putPkg inner p l) n i r <-> inView [p] n i r \/ inView l n i r.
Proof.
  change (p :: l) with ([] ++ p :: l). assert (forall l', l' ≡ₚ [] ++ p :: l -> inView l' n i r <-> inView [p] n i r \/ inView l n i r) as H.
  { intros l' Hl. rewrite <- (inView_mid [] p l). unfold inView. by setoid_rewrite Hl. }
  apply H, putPkg_perm.
Qed.

Lemma abs_regs k v : regsOf k (abs v) = table (v k).
Proof. by destruct k. Qed.

(** Only one list changed. *)
Lemma abs_upd k v l : (forall k', k <> k' -> upd v k l k' = v k') ->
  abs (upd v k l) = match k with
    | PubList => setRegs k (table l) (abs v)
    | DiscList => MkAbs (pubs (abs v)) (table l) (callbacks l)
    end.
Proof.
  intros H. unfold abs. destruct k; cbn; rewrite ?upd_same.
  - by rewrite !(H DiscList) by done.
  - by rewrite !(H PubList) by done.
Qed.

Lemma abs_change k v l A : table l = regsOf k A -> (k = DiscList -> callbacks l = cbs A) ->
  (match k with PubList => subs A = subs (abs v) /\ cbs A = cbs (abs v) | DiscList => pubs A = pubs (abs v) end) ->
  abs (upd v k l) = A.
Proof.
  intros HT HC HA. rewrite abs_upd by (intros; by apply upd_other). destruct A as [P T C]. destruct k; cbn in *.
  - destruct HA as [-> ->]. by rewrite HT.
  - by rewrite HA, HT, HC.
Qed.

Lemma added_absent v k type n c a r v' o w : rep w v -> Added v k type n c a r v' o -> table (v k) !! (n, rid r) = None.
Proof.
  intros Hr HA. apply (table_absent w v k n (rid r) Hr). intros (q & Hq & En & Hi). destruct HA as [l1 p l2 E Ep Hid|new Hn].
  - rewrite <- Ep in En. by rewrite (named_unique w v k l1 p l2 q Hr E Hq En) in Hi.
  - apply Hn. rewrite <- En. by apply list_elem_of_fmap_2.
Qed.

Lemma table_added v k type n c a r v' o w w' : rep w v -> rep w' v' -> Added v k type n c a r v' o ->
  table (v' k) = <[(n, rid r) := r]> (table (v k)).
Proof.
  intros Hr Hr' HA. pose proof (added_absent v k type n c a r v' o w Hr HA) as Hno. apply (table_eq w' v' k); [done|].
  intros n' i' r'. rewrite lookup_insert_Some, (table_lookup w v k n' i' r' Hr).
  assert (inView (v' k) n' i' r' <-> (n' = n /\ r' = r /\ i' = rid r) \/ inView (v k) n' i' r') as ->.
  { destruct HA as [l1 p l2 E Ep Hid|new Hn]; rewrite upd_same.
    - rewrite E, !inView_mid, !inView_one. cbn. setoid_rewrite elem_of_app. setoid_rewrite list_elem_of_singleton. naive_solver.
    - rewrite inView_put, inView_one. cbn. setoid_rewrite list_elem_of_singleton. naive_solver. }
  split; [intros [[[= -> ->] ->]|[H1 H2]]; auto|]. intros [(-> & -> & ->)|H]; [by left|].
  right. split; [|done]. intros [= <- <-]. apply (table_lookup w v k n (rid r) r' Hr) in H. congruence.
Qed.

Lemma table_refused v k type n c v' w w' : rep w v -> rep w' v' -> Refused v k type n c v' -> table (v' k) = table (v k).
Proof.
  intros Hr Hr' HR. apply (table_eq w' v' k); [done|]. intros n' i' r'. rewrite (table_lookup w v k n' i' r' Hr).
  destruct HR as [l1 p l2 E Ep|new Hn]; rewrite upd_same.
  - by rewrite E, !inView_mid, !inView_one.
  - rewrite inView_put, inView_one. cbn. split; [by right|]. intros [(_ & a & Ha & _)|H]; [set_solver|done].
Qed.

Lemma removed_present v k n a r v' w : rep w v -> Removed v k n a r v' -> table (v k) !! (n, rid r) = Some r.
Proof.
  intros Hr HR. apply (table_lookup w v k n (rid r) r Hr).
  destruct HR as [l1 p l2 E Ep Ha Hne|l1 p l2 E Ep Ha Hne]; exists p, a; rewrite E; set_solver.
Qed.

Lemma table_removed v k n a r v' w w' : rep w v -> rep w' v' -> Removed v k n a r v' ->
  table (v' k) = delete (n, rid r) (table (v k)).
Proof.
  intros Hr Hr' HR. pose proof (removed_present v k n a r v' w Hr HR) as Hin. apply (table_eq w' v' k); [done|].
  intros n' i' r'. rewrite lookup_delete_Some.
  assert (exists l1 p l2, v k = l1 ++ p :: l2 /\ vname p = n /\ (a, r) ∈ vinfos p /\
    forall n' i' r', inView (v' k) n' i' r' <-> inView [delReg p a] n' i' r' \/ inView (l1 ++ l2) n' i' r') as (l1 & p & l2 & E & Ep & Ha & ->).
  { destruct HR as [l1 p l2 E Ep Ha Hne|l1 p l2 E Ep Ha Hne]; exists l1, p, l2; split_and!; try done; intros n1 i1 r1; rewrite upd_same.
    - by rewrite inView_mid.
    - rewrite inView_one, Hne. split; [by right|]. intros [(_ & b & Hb & _)|H]; [set_solver|done]. }
  assert (p ∈ v k) as Hp by (rewrite E; set_solver). pose proof (rep_infos w v Hr k p Hp) as Hnd.
  rewrite (table_lookup w v k n' i' r' Hr), inView_one. setoid_rewrite delReg_mem. cbn [vname delReg]. split.
  - intros [Hne H]. rewrite E, inView_mid, inView_one in H. destruct H as [(<- & b & Hb & <-)|H]; [|by right].
    left. split; [done|]. exists b. split_and!; [done| |done]. intros ->. apply Hne.
    apply (list_elem_of_split) in Hb as (i1 & i2 & Eb). rewrite Eb in Ha, Hnd. rewrite fmap_app, fmap_cons in Hnd.
    apply NoDup_app in Hnd as (_ & H1 & H2). apply NoDup_cons in H2 as [H2 _]. cbn in H1, H2.
    apply elem_of_app in Ha as [Ha|Ha]; [exfalso; apply (H1 a); [by apply (list_elem_of_fmap_2 fst _ (a, r))|by left]|].
    apply elem_of_cons in Ha as [[= ->]|Ha]; [by rewrite Ep|]. exfalso. apply H2. by apply (list_elem_of_fmap_2 fst _ (a, r)).
  - intros [(<- & b & (Hb & Hne) & <-)|H].
    + split; [|by rewrite E, inView_mid, inView_one; eauto]. rewrite Ep. intros [= Ei]. apply Hne.
      pose proof (rep_ids w v Hr k p Hp) as Hids.
      apply list_elem_of_lookup in Hb as [x Hx], Ha as [y Hy].
      assert (x = y) as ->; [|congruence]. eapply (NoDup_lookup _ x y (rid r')); [exact Hids| |].
      * by rewrite list_lookup_fmap, Hx.
      * by rewrite list_lookup_fmap, Hy; cbn; rewrite Ei.
    + split; [|by rewrite E, inView_mid; right]. intros [= -> _]. destruct H as (q & b & Hq & En & _).
      assert (va q <> va p) as Hv.
      { eapply (upd_mem w v k l1 p l2 k q Hr E). by rewrite upd_same. }
      apply Hv. f_equal. eapply (named_unique w v k l1 p l2 q Hr E); [|congruence]. rewrite E. set_solver.
Qed.

Lemma table_pruned v k n v' w w' : rep w v -> rep w' v' -> Pruned v k n v' -> table (v' k) = table (v k).
Proof.
  intros Hr Hr' HP. destruct HP as [Hn|p Hp En Hne|l1 p l2 E En Ep]; [done..|]. apply (table_eq w' _ k); [done|].
  intros n' i' r'. rewrite (table_lookup w v k n' i' r' Hr), upd_same, E, inView_mid, inView_one, Ep.
  split; [|by right]. intros [(_ & a & Ha & _)|H]; [set_solver|done].
Qed.

Definition cbIn (l : list PkgView) (n : string) (c : InnerCallback) : Prop := exists p, p ∈ l /\ vname p = n /\ vcb p = c.

Lemma cbIn_mid l1 p l2 n c : cbIn (l1 ++ p :: l2) n c <-> (vname p = n /\ vcb p = c) \/ cbIn (l1 ++ l2) n c.
Proof.
  unfold cbIn. split.
  - intros (q & Hq & H). assert (q = p \/ q ∈ l1 ++ l2) as [->|Hq'] by set_solver; eauto.
  - intros [H|(q & Hq & H)]; [exists p|exists q]; set_solver.
Qed.

Lemma cbIn_put inner p l n c : cbIn (putPkg inner p l) n c <-> (vname p = n /\ vcb p = c) \/ cbIn l n c.
Proof.
  assert (cbIn (putPkg inner p l) n c <-> cbIn ([] ++ p :: l) n c) as ->; [|by rewrite cbIn_mid].
  unfold cbIn. by setoid_rewrite putPkg_perm.
Qed.

(** A name is in one item only. *)
Lemma cbIn_other w v k l1 p l2 n c : rep w v -> v k = l1 ++ p :: l2 -> cbIn (l1 ++ l2) n c -> n <> vname p.
Proof.
  intros Hr E (q & Hq & <- & _) En. assert (q ∈ upd v k (l1 ++ l2) k) as Hq' by by rewrite upd_same.
  destruct (upd_mem w v k l1 p l2 k q Hr E Hq') as [Hv Hne]. apply Hne. f_equal. by apply (named_unique w v k l1 p l2).
Qed.

Definition cbChanged (v : View) (k : Which) (type : ServiceType) (n : string) (c : InnerCallback) (l : list PkgView) : Prop :=
  (exists l1 p p' l2, v k = l1 ++ p :: l2 /\ l = l1 ++ p' :: l2 /\ vname p = n /\ vname p' = n /\ vcb p' = newCb type (vcb p) c) \/
  (n ∉ (vname <$> v k) /\ exists inner p', l = putPkg inner p' (v k) /\ vname p' = n /\ vcb p' = newCb type None c).

Lemma callbacks_changed v k type n c v' w w' : rep w v -> rep w' v' -> cbChanged v k type n c (v' k) ->
  callbacks (v' k) = <[n := newCb type (cbAt (callbacks (v k)) n) c]> (callbacks (v k)).
Proof.
  intros Hr Hr' H. apply (callbacks_eq w'); [done|]. intros n' c'. fold (cbIn (v' k) n' c').
  rewrite lookup_insert_Some, (callbacks_lookup w v k n' c' Hr). fold (cbIn (v k) n' c').
  unfold cbAt. destruct H as [(l1 & p & p' & l2 & E & E' & En & En' & Ec)|(Hn & inner & p' & E' & En' & Ec)]; rewrite E'.
  - assert (callbacks (v k) !! n = Some (vcb p)) as ->.
    { apply (callbacks_lookup w v k n _ Hr). exists p. rewrite E. set_solver. }
    rewrite E, !cbIn_mid, En, En', Ec. split; [intros [[-> ->]|[H1 [[? ?]|H2]]]; auto; congruence|].
    intros [[-> <-]|H]; [by left|]. right. split; [|by right]. intros ->. rewrite <- En in H.
    by apply (cbIn_other w v k l1 p l2 _ c' Hr E) in H.
  - assert (callbacks (v k) !! n = None) as ->.
    { rewrite eq_None_not_Some. intros [c0 (p & Hp & <- & _)%(callbacks_lookup w v k n c0 Hr)]. apply Hn. by apply list_elem_of_fmap_2. }
    rewrite cbIn_put, En', Ec. split; [intros [[-> ->]|[H1 H2]]; auto|].
    intros [[-> <-]|H]; [by left|]. right. split; [|done]. intros ->. destruct H as (p & Hp & <- & _). apply Hn. by apply list_elem_of_fmap_2.
Qed.

Lemma added_changed v k type n c a r v' o : Added v k type n c a r v' o -> cbChanged v k type n c (v' k).
Proof.
  intros [l1 p l2 E Ep Hid|new Hn]; rewrite upd_same; [left|right].
  - by exists l1, p, (addReg (setCb p (newCb type (vcb p) c)) a r), l2.
  - split; [done|]. by eexists _, _.
Qed.

Lemma refused_changed v k type n c v' : Refused v k type n c v' -> cbChanged v k type n c (v' k).
Proof.
  intros [l1 p l2 E Ep|new Hn]; rewrite upd_same; [left|right].
  - by exists l1, p, (setCb p (newCb type (vcb p) c)), l2.
  - split; [done|]. by eexists _, _.
Qed.

Lemma idle_spec (T : gmap (string * Z) Registration) n : filter (fun x => x.1.1 = n) T = ∅ <-> forall i, T !! (n, i) = None.
Proof.
  rewrite map_empty. split.
  - intros H i. specialize (H (n, i)). rewrite map_lookup_filter_None in H. destruct H as [H|H]; [done|].
    destruct (T !! (n, i)) as [r|]; [|done]. by destruct (H r eq_refl).
  - intros H [n' i]. rewrite map_lookup_filter_None. destruct (T !! (n', i)) as [r|] eqn:E; [|by left]. right.
    intros r' [= <-] En. cbn in En. subst. congruence.
Qed.

(** The callbacks when an item stays or goes. *)
Lemma callbacks_kept w w' v k l1 p p' l2 v' : rep w v -> rep w' v' -> v k = l1 ++ p :: l2 -> v' k = l1 ++ p' :: l2 ->
  vname p' = vname p -> vcb p' = vcb p -> callbacks (v' k) = callbacks (v k).
Proof.
  intros Hr Hr' E E' En Ec. apply (callbacks_eq w'); [done|]. intros n c. fold (cbIn (v' k) n c).
  rewrite (callbacks_lookup w v k n c Hr). fold (cbIn (v k) n c). by rewrite E, E', !cbIn_mid, En, Ec.
Qed.

Lemma callbacks_dropped w w' v k l1 p l2 v' : rep w v -> rep w' v' -> v k = l1 ++ p :: l2 -> v' k = l1 ++ l2 ->
  callbacks (v' k) = delete (vname p) (callbacks (v k)).
Proof.
  intros Hr Hr' E E'. apply (callbacks_eq w'); [done|]. intros n c. fold (cbIn (v' k) n c).
  rewrite lookup_delete_Some, (callbacks_lookup w v k n c Hr). fold (cbIn (v k) n c). rewrite E', E, cbIn_mid. split.
  - intros [Hn [[? ?]|H]]; [congruence|done].
  - intros H. split; [|by right]. intros En. by apply (cbIn_other w v k l1 p l2 n c Hr E) in H.
Qed.

(** Whether a package has registrations left is seen in its item. *)
Lemma idle_item w v k p : rep w v -> p ∈ v k -> (forall i, table (v k) !! (vname p, i) = None) <-> vinfos p = [].
Proof.
  intros Hr Hp. split.
  - intros H. destruct (vinfos p) as [|[a r] l] eqn:E; [done|]. specialize (H (rid r)).
    apply (table_absent w v k _ _ Hr) in H. exfalso. apply H. exists p. rewrite E. split_and!; [done|done|]. by left.
  - intros E i. apply (table_absent w v k _ _ Hr). intros (q & Hq & En & Hi). apply list_elem_of_split in Hp as (l1 & l2 & El).
    rewrite (named_unique w v k l1 p l2 q Hr El Hq En), E in Hi. set_solver.
Qed.

Lemma idle_absent w v k n : rep w v -> n ∉ (vname <$> v k) -> (forall i, table (v k) !! (n, i) = None) /\ callbacks (v k) !! n = None.
Proof.
  intros Hr Hn. split.
  - intros i. apply (table_absent w v k _ _ Hr). intros (q & Hq & <- & _). apply Hn. by apply list_elem_of_fmap_2.
  - rewrite eq_None_not_Some. intros [c0 (p & Hp & <- & _)%(callbacks_lookup w v k n c0 Hr)]. apply Hn. by apply list_elem_of_fmap_2.
Qed.

(** What [Added], [Refused], [Removed] and [Pruned] mean for the abstract
    state. *)
Lemma abs_added v k type n c a r v' o w w' : rep w v -> rep w' v' -> Added v k type n c a r v' o ->
  abs v' = touchCb k type n c (setRegs k (<[(n, rid r) := r]> (regsOf k (abs v))) (abs v)).
Proof.
  intros Hr Hr' HA. pose proof (table_added v k type n c a r v' o w w' Hr Hr' HA) as HT.
  pose proof (callbacks_changed v k type n c v' w w' Hr Hr' (added_changed _ _ _ _ _ _ _ _ _ HA)) as HC.
  rewrite abs_regs. destruct HA; rewrite upd_same in HT, HC; apply abs_change; destruct k; cbn; try done.
Qed.

Lemma abs_refused v k type n c v' w w' : rep w v -> rep w' v' -> Refused v k type n c v' -> abs v' = touchCb k type n c (abs v).
Proof.
  intros Hr Hr' HA. pose proof (table_refused v k type n c v' w w' Hr Hr' HA) as HT.
  pose proof (callbacks_changed v k type n c v' w w' Hr Hr' (refused_changed _ _ _ _ _ _ HA)) as HC.
  destruct HA; rewrite upd_same in HT, HC; apply abs_change; destruct k; cbn; try done.
Qed.

Lemma abs_removed v k n a r v' w w' : rep w v -> rep w' v' -> Removed v k n a r v' ->
  abs v' = dropIdle k n (setRegs k (delete (n, rid r) (regsOf k (abs v))) (abs v)).
Proof.
  intros Hr Hr' HA. pose proof (table_removed v k n a r v' w w' Hr Hr' HA) as HT. rewrite abs_regs, <- HT.
  assert (k = DiscList -> callbacks (v' k) = if decide (filter (fun x => x.1.1 = n) (table (v' k)) = ∅) then delete n (callbacks (v k)) else callbacks (v k)) as HC.
  { intros _. destruct HA as [l1 p l2 E Ep Ha Hne|l1 p l2 E Ep Ha Hne].
    - rewrite decide_False.
      + apply (callbacks_kept w w' v k l1 p (delReg p a) l2 _ Hr Hr' E); [apply upd_same|done|done].
      + rewrite idle_spec. subst n. intros Hi. apply Hne. apply (idle_item w' _ k (delReg p a) Hr'); [|done]. rewrite upd_same. set_solver.
    - rewrite decide_True.
      + subst n. apply (callbacks_dropped w w' v k l1 p l2 _ Hr Hr' E). apply upd_same.
      + apply idle_spec. apply (idle_absent w' _ k n Hr'). rewrite upd_same. intros Hin.
        apply list_elem_of_fmap in Hin as (q & Eq & Hq). subst n.
        assert (cbIn (l1 ++ l2) (vname p) (vcb q)) as Hcb by by exists q. by apply (cbIn_other w v k l1 p l2 _ _ Hr E) in Hcb. }
  destruct HA; rewrite upd_same in HC |- *; apply abs_change; destruct k; cbn in *; try done; try (rewrite HC by done); by case_decide.
Qed.

Lemma abs_pruned v k n v' w w' : rep w v -> rep w' v' -> Pruned v k n v' -> abs v' = dropIdle k n (abs v).
Proof.
  intros Hr Hr' HP. pose proof (table_pruned v k n v' w w' Hr Hr' HP) as HT. destruct HP as [Hn|p Hp En Hne|l1 p l2 E En Ep].
  - destruct k; [done|]. cbn. case_decide; [|done]. rewrite delete_id; [done|]. by apply (idle_absent w v DiscList).
  - destruct k; [done|]. cbn. rewrite decide_False; [done|]. rewrite idle_spec. subst n. intros Hi.
    apply Hne. by apply (idle_item w v DiscList p Hr Hp).
  - rewrite upd_same in HT. assert (k = DiscList -> callbacks (l1 ++ l2) = delete n (callbacks (v k))) as HC.
    { intros _. subst n. rewrite <- (callbacks_dropped w w' v k l1 p l2 _ Hr Hr' E); by rewrite upd_same. }
    apply abs_change; destruct k; cbn; try done; (rewrite decide_True; [by auto|]);
      apply idle_spec; subst n; apply (idle_item w v DiscList p Hr); [rewrite E; set_solver|done| rewrite E; set_solver|done|rewrite E; set_solver|done].
Qed.

(** ** The specification *)

(** What a call comes down to: an answer at once, or one of three requests. *)
Inductive Request :=
  | Immediate (x : Z)
  | Start (k : Which) (n : string) (r : Registration) (type : ServiceType) (c : InnerCallback)
  | Stop (k : Which) (n : string) (i : Z)
  | SetCallback (n : string) (c : InnerCallback).

(** What a request may answer when a lock or an allocation of its own call
    fails. *)
Definition systemCodes (rq : Request) : list Z :=
  match rq with
  | Immediate x =>
      if x =? SOFTBUS_DISCOVER_MANAGER_INFO_NOT_CREATE
      then [SOFTBUS_DISCOVER_MANAGER_INVALID_MODULE; SOFTBUS_DISCOVER_MANAGER_INVALID_PKGNAME; SOFTBUS_DISCOVER_MANAGER_INFO_NOT_CREATE]
      else []
  | Start _ _ _ _ _ =>
      [SOFTBUS_DISCOVER_MANAGER_INVALID_MODULE; SOFTBUS_DISCOVER_MANAGER_INVALID_PKGNAME; SOFTBUS_DISCOVER_MANAGER_INFO_NOT_CREATE;
       SOFTBUS_DISCOVER_MANAGER_ITEM_NOT_CREATE; SOFTBUS_LOCK_ERR]
  | Stop _ _ _ =>
      [SOFTBUS_DISCOVER_MANAGER_INVALID_MODULE; SOFTBUS_DISCOVER_MANAGER_INVALID_PKGNAME; SOFTBUS_DISCOVER_MANAGER_INFO_NOT_DELETE]
  | SetCallback _ _ => [SOFTBUS_DISCOVER_MANAGER_INVALID_MODULE; SOFTBUS_DISCOVER_MANAGER_ITEM_NOT_CREATE; SOFTBUS_LOCK_ERR]
  end.

(** [Spec coap ble A m rq x A' m']: in state [A], with the media in state [m],
    the request is answered with [x].  A failure of the system changes
    nothing. *)
Inductive Spec (coap ble : option (DiscoveryFuncInterface S)) (A : Abs) (m : S) : Request -> Z -> Abs -> S -> Prop :=
  | spec_immediate x : Spec coap ble A m (Immediate x) x A m
  | spec_system rq x : (exists n, sysOk n = false) -> x ∈ systemCodes rq -> Spec coap ble A m rq x A m
  | spec_duplicate k n r type c : is_Some (regsOf k A !! (n, rid r)) ->
      Spec coap ble A m (Start k n r type c) SOFTBUS_DISCOVER_MANAGER_DUPLICATE_PARAM A m
  | spec_start k n r type c m' : regsOf k A !! (n, rid r) = None ->
      askMedia coap ble r (startFunc k) m = (SOFTBUS_OK, m') ->
      Spec coap ble A m (Start k n r type c) SOFTBUS_OK (touchCb k type n c (setRegs k (<[(n, rid r) := r]> (regsOf k A)) A)) m'
  | spec_refused k n r type c x m' : regsOf k A !! (n, rid r) = None ->
      askMedia coap ble r (startFunc k) m = (x, m') -> x <> SOFTBUS_OK ->
      Spec coap ble A m (Start k n r type c) x (touchCb k type n c A) m'
  | spec_stop k n r i x m' : regsOf k A !! (n, i) = Some r -> askMedia coap ble r (stopFunc k) m = (x, m') ->
      Spec coap ble A m (Stop k n i) x (dropIdle k n (setRegs k (delete (n, i) (regsOf k A)) A)) m'
  | spec_absent k n i : regsOf k A !! (n, i) = None ->
      Spec coap ble A m (Stop k n i) SOFTBUS_DISCOVER_MANAGER_INFO_NOT_DELETE (dropIdle k n A) m
  | spec_callback n c : Spec coap ble A m (SetCallback n c) SOFTBUS_OK (MkAbs (pubs A) (subs A) (<[n := c]> (cbs A))) m.

(** The registrations two kinds of info ask for. *)
Definition pubReg (info : PublishInfo) : option Registration :=
  b ← capBit (pubCapability info);
  Some (MkReg (publishId info) (pubMode info) (pubMedium info)
    (publishOption (MkPublishOption (pubFreq info) (BitmapSet 0 (u32 b)) (padded (pubData info) (pubDataLen info))
      (pubDataLen info) (pubRanging info)))).

Definition subReg (info : SubscribeInfo) : option Registration :=
  b ← capBit (subCapability info);
  Some (MkReg (subscribeId info) (subMode info) (subMedium info)
    (subscribeOption (MkSubscribeOption (subFreq info) (subIsSameAccount info) (subIsWakeRemote info) (BitmapSet 0 (u32 b))
      (padded (subData info) (subDataLen info)) (subDataLen info)))).

Definition startRequest (k : Which) (n : string) (r : option Registration) (type : ServiceType) (c : InnerCallback) : Request :=
  match r with
  | None => Immediate SOFTBUS_DISCOVER_MANAGER_INFO_NOT_CREATE
  | Some r => Start k n r type c
  end.

Definition moduleName (m : Z) : string := default ""%string (g_discModuleMap !! Z.to_nat (m - 1)).

(** The calls of the manager. *)
Inductive Op :=
  | OpSetDiscoverCallback (m : Z) (cb : option InnerCallback)
  | OpPublish (m : Z) (info : option PublishInfo)
  | OpStartScan (m : Z) (info : option PublishInfo)
  | OpUnpublish (m id : Z)
  | OpStartAdvertise (m : Z) (info : option SubscribeInfo)
  | OpSubscribe (m : Z) (info : option SubscribeInfo)
  | OpStopAdvertise (m id : Z)
  | OpPublishService (pkg : option CString) (info : option PublishInfo)
  | OpUnPublishService (pkg : option CString) (id : Z)
  | OpStartDiscovery (pkg : option CString) (info : option SubscribeInfo) (cb : option InnerCallback)
  | OpStopDiscovery (pkg : option CString) (id : Z).

Definition exec (op : Op) : M Z :=
  match op with
  | OpSetDiscoverCallback m cb => DiscSetDiscoverCallback m cb
  | OpPublish m info => DiscPublish m info
  | OpStartScan m info => DiscStartScan m info
  | OpUnpublish m id => DiscUnpublish m id
  | OpStartAdvertise m info => DiscStartAdvertise m info
  | OpSubscribe m info => DiscSubscribe m info
  | OpStopAdvertise m id => DiscStopAdvertise m id
  | OpPublishService pkg info => DiscPublishService pkg info
  | OpUnPublishService pkg id => DiscUnPublishService pkg id
  | OpStartDiscovery pkg info cb => DiscStartDiscovery pkg info cb
  | OpStopDiscovery pkg id => DiscStopDiscovery pkg id
  end.

Definition checkOk (c : option Z) : bool := bool_decide (c = Some SOFTBUS_OK).

Definition modulePublishRequest (accepted m : Z) (info : option PublishInfo) : Request :=
  match info with
  | None => Immediate SOFTBUS_INVALID_PARAM
  | Some info =>
      if badModule m || negb (pubMode info =? accepted) || negb (checkOk (PublishInfoCheck info))
      then Immediate SOFTBUS_INVALID_PARAM
      else startRequest PubList (moduleName m) (pubReg info) PUBLISH_INNER_SERVICE None
  end.

Definition moduleSubscribeRequest (accepted m : Z) (info : option SubscribeInfo) : Request :=
  match info with
  | None => Immediate SOFTBUS_INVALID_PARAM
  | Some info =>
      if badModule m || negb (subMode info =? accepted) || negb (checkOk (SubscribeInfoCheck info))
      then Immediate SOFTBUS_INVALID_PARAM
      else startRequest DiscList (moduleName m) (subReg info) SUBSCRIBE_INNER_SERVICE None
  end.

Definition clientStart (k : Which) (pkg : CString) (check : option Z) (r : option Registration) (type : ServiceType)
  (c : InnerCallback) : Request :=
  if longName pkg then Immediate SOFTBUS_INVALID_PARAM
  else if checkOk check then startRequest k (chars pkg) r type c else Immediate (default SOFTBUS_ERR check).

Definition request (op : Op) : Request :=
  match op with
  | OpSetDiscoverCallback m (Some c) => if badModule m then Immediate SOFTBUS_INVALID_PARAM else SetCallback (moduleName m) c
  | OpSetDiscoverCallback m None => Immediate SOFTBUS_INVALID_PARAM
  | OpPublish m info => modulePublishRequest DISCOVER_MODE_ACTIVE m info
  | OpStartScan m info => modulePublishRequest DISCOVER_MODE_PASSIVE m info
  | OpUnpublish m id => if badModule m then Immediate SOFTBUS_INVALID_PARAM else Stop PubList (moduleName m) id
  | OpStartAdvertise m info => moduleSubscribeRequest DISCOVER_MODE_ACTIVE m info
  | OpSubscribe m info => moduleSubscribeRequest DISCOVER_MODE_PASSIVE m info
  | OpStopAdvertise m id => if badModule m then Immediate SOFTBUS_INVALID_PARAM else Stop DiscList (moduleName m) id
  | OpPublishService (Some pkg) (Some info) => clientStart PubList pkg (PublishInfoCheck info) (pubReg info) PUBLISH_SERVICE None
  | OpUnPublishService (Some pkg) id => if longName pkg then Immediate SOFTBUS_INVALID_PARAM else Stop PubList (chars pkg) id
  | OpStartDiscovery (Some pkg) (Some info) (Some c) => clientStart DiscList pkg (SubscribeInfoCheck info) (subReg info) SUBSCRIBE_SERVICE c
  | OpStopDiscovery (Some pkg) id => if longName pkg then Immediate SOFTBUS_INVALID_PARAM else Stop DiscList (chars pkg) id
  | _ => Immediate SOFTBUS_INVALID_PARAM
  end.

(** What the caller owes: names in buffers of [PKG_NAME_SIZE_MAX] bytes when
    something is registered, and capability data as [dataOk] says. *)
Definition opOk (op : Op) : Prop :=
  match op with
  | OpPublish _ (Some info) | OpStartScan _ (Some info) => dataOk (pubData info) (pubDataLen info)
  | OpStartAdvertise _ (Some info) | OpSubscribe _ (Some info) => dataOk (subData info) (subDataLen info)
  | OpPublishService (Some pkg) (Some info) => PKG_NAME_SIZE_MAX <= room pkg /\ dataOk (pubData info) (pubDataLen info)
  | OpStartDiscovery (Some pkg) (Some info) _ => PKG_NAME_SIZE_MAX <= room pkg /\ dataOk (subData info) (subDataLen info)
  | _ => True
  end.

(** No package has so many registrations that [infoNum] wraps. *)
Definition fits (v : View) : Prop := forall k p, p ∈ v k -> Z.of_nat (length (vinfos p)) + 1 < 2 ^ 32.

(** The state after a request. *)
Definition Post (rq : Request) (w : World S) (v : View) (x : Z) (w' : World S) : Prop :=
  exists v', rep w' v' /\ rest w' = rest (setMedium (medium w') w) /\
    Spec (g_discCoapInterface w) (g_discBleInterface w) (abs v) (medium w) rq x (abs v') (medium w').

Lemma rest_setMedium w w' : rest w' = rest w -> medium w' = medium w /\ rest w' = rest (setMedium (medium w') w).
Proof. unfold rest. cbn. intros E. injection E as -> -> -> -> -> -> ->. done. Qed.

Lemma Post_rest rq w w1 v x w' : rest w1 = rest w -> Post rq w1 v x w' -> Post rq w v x w'.
Proof.
  intros E (v' & Hr & R & HS). exists v'. unfold rest in E. injection E as E1 E2 E3 E4 E5 E6 E7. rewrite E3, E4, E6 in HS.
  split_and!; try done. rewrite R. unfold rest. cbn. congruence.
Qed.

Lemma Post_immediate x w v : rep w v -> Post (Immediate x) w v x w.
Proof. intros Hr. exists v. split_and!; [done|by apply rest_setMedium|constructor]. Qed.

Lemma Post_system rq x w v w' : rep w' v -> rest w' = rest w -> (exists n, sysOk n = false) ->
  x ∈ systemCodes rq -> Post rq w v x w'.
Proof.
  intros Hr R Hs Hx. destruct (rest_setMedium w w' R) as [Em R']. exists v. split_and!; [done..|]. rewrite Em. by constructor.
Qed.

Lemma registered_some w v k n i : rep w v -> registered (v k) n i -> is_Some (table (v k) !! (n, i)).
Proof.
  intros Hr H. destruct (table (v k) !! (n, i)) eqn:E; [done|]. by apply (table_absent w v k n i Hr) in E.
Qed.

Lemma register_post k cb c pkg a r type v w : rep w v -> infos w !! a = Some (MkInfo r None) -> (a < next w)%nat ->
  unlisted v a -> kindOk k r -> typeOk k type -> nameOk pkg -> (isSubscribe type = true -> cb = Some c) ->
  fits v -> wp (register k cb pkg a type) w (Post (Start k (chars pkg) r type c) w v).
Proof.
  intros Hr Ha Hlt Hu Hk Ht Hroom Hcb Hfit. eapply wp_register; try done; [apply Hfit|..].
  - intros x w' Hr' R' Hs Hx. apply Post_system; try done. destruct Hx as [-> | ->]; cbn; set_solver.
  - intros w' Hr' R' Hreg. destruct (rest_setMedium w w' R') as [Em R'']. exists v. split_and!; [done..|]. rewrite Em.
    apply spec_duplicate. rewrite abs_regs. by apply (registered_some w).
  - intros w' v' o Hr' R' HA Ex. assert (medium w' = (askMedia (g_discCoapInterface w) (g_discBleInterface w) r (startFunc k) (medium w)).2) as Em.
    { unfold rest in R'. cbn in R'. by injection R'. }
    exists v'. split_and!; [done|by rewrite Em|]. rewrite (abs_added _ _ _ _ _ _ _ _ _ w w' Hr Hr' HA), Em.
    apply spec_start; [rewrite abs_regs; by apply (added_absent _ _ _ _ _ _ _ _ _ w Hr HA)|]. by apply injective_projections.
  - intros w' v' v'' o Hr' R' HA HR Ex. assert (medium w' = (askMedia (g_discCoapInterface w) (g_discBleInterface w) r (startFunc k) (medium w)).2) as Em.
    { unfold rest in R'. cbn in R'. by injection R'. }
    exists v''. split_and!; [done|by rewrite Em|]. rewrite (abs_refused _ _ _ _ _ _ w w' Hr Hr' HR), Em.
    apply spec_refused; [rewrite abs_regs; by apply (added_absent _ _ _ _ _ _ _ _ _ w Hr HA)|by apply injective_projections|done].
Qed.

Lemma stop_post k pkg i type v w : rep w v -> typeOk k type ->
  wp (stopService k (stopFunc k) pkg i type) w (Post (Stop k (chars pkg) i) w v).
Proof.
  intros Hr Ht. eapply wp_stopService; [done..| |].
  - intros w' v' Hr' R' [[HP Hn]|[-> Hs]]; [|apply Post_system; [done..|cbn; set_solver]]. destruct (rest_setMedium w w' R') as [Em R''].
    exists v'. split_and!; [done..|]. rewrite Em, (abs_pruned _ _ _ _ w w' Hr Hr' HP). apply spec_absent. rewrite abs_regs.
    by apply (table_absent w v k _ _ Hr).
  - intros w' v' a r Hr' R' HR Hi. assert (medium w' = (askMedia (g_discCoapInterface w) (g_discBleInterface w) r (stopFunc k) (medium w)).2) as Em.
    { unfold rest in R'. cbn in R'. by injection R'. }
    exists v'. split_and!; [done|by rewrite Em|]. rewrite (abs_removed _ _ _ _ _ _ w w' Hr Hr' HR), Em, Hi.
    eapply spec_stop; [rewrite abs_regs, <- Hi; by apply (removed_present _ _ _ _ _ _ w Hr HR)|]. by apply injective_projections.
Qed.

(** [if (ret != SOFTBUS_OK) return ret; return SOFTBUS_OK;] *)
Lemma wp_same (m : M Z) w Q : wp m w Q -> wp (bind m (fun r => if negb (r =? SOFTBUS_OK) then ret r else ret SOFTBUS_OK)) w Q.
Proof.
  intros H. apply wp_bind. eapply wp_mono; [exact H|]. intros x w' HQ. destruct (Z.eqb_spec x SOFTBUS_OK) as [->|]; by apply wp_ret.
Qed.

Lemma wp_ModuleName m v w (Q : option CString -> World S -> Prop) : rep w v -> badModule m = false ->
  (forall w', rep w' v -> rest w' = rest w -> Q (Some (MkCString (moduleName m) PKG_NAME_SIZE_MAX)) w') ->
  (forall w', rep w' v -> rest w' = rest w -> (exists n, sysOk n = false) -> Q None w') ->
  wp (ModuleIdToPackageName m) w Q.
Proof.
  intros Hr Hm QS QN. apply wp_bind. eapply wp_calloc; [exact Hr| |].
  - intros w' Hr' R' _ _ _. unfold badModule, MODULE_MIN, MODULE_MAX, MODULE_CONN in Hm. assert (m = 1 \/ m = 2) as Hm' by lia.
    apply wp_bind. destruct Hm' as [-> | ->]; (eapply wp_lift; [reflexivity|]; apply wp_ret; by apply QS).
  - intros w' Hr' R' _ _ Hs. apply wp_ret, QN; eauto.
Qed.

(** A publication, from an info the checks accepted. *)
Lemma publish_post info pkg type v w : rep w v -> typeOk PubList type -> nameOk pkg -> fits v ->
  dataOk (pubData info) (pubDataLen info) -> PublishInfoCheck info = Some SOFTBUS_OK ->
  wp (bind (CreateNewPublishInfoNode info) (fun infoNode =>
    match infoNode with
    | None => ret SOFTBUS_DISCOVER_MANAGER_INFO_NOT_CREATE
    | Some a => register PubList None pkg a type
    end)) w (Post (startRequest PubList (chars pkg) (pubReg info) type None) w v).
Proof.
  intros Hr Ht Hroom Hfit Hd Hc. apply wp_bind. eapply wp_createInfoNode; [exact Hr|by eapply copyData_ok|..]; unfold pubReg.
  - intros w' a b Hr' R' Eb Hlt Hu Ha. rewrite Eb. cbn. eapply wp_mono; [|intros x w2 HP; eapply Post_rest; [exact R'|exact HP]].
    eapply register_post; try done; [by eexists|]. unfold typeOk in Ht. by rewrite Ht.
  - intros w' Hr' R' [Eb|Hs]; apply wp_ret; [|apply Post_system; [done..|]; destruct (capBit _); cbn; set_solver]. rewrite Eb. eapply Post_rest; [exact R'|]. by apply Post_immediate.
Qed.

Lemma subscribe_post info pkg cb type v w : rep w v -> typeOk DiscList type -> nameOk pkg -> fits v ->
  dataOk (subData info) (subDataLen info) -> SubscribeInfoCheck info = Some SOFTBUS_OK ->
  wp (bind (CreateNewSubscribeInfoNode info) (fun infoNode =>
    match infoNode with
    | None => ret SOFTBUS_DISCOVER_MANAGER_INFO_NOT_CREATE
    | Some a => register DiscList (Some cb) pkg a type
    end)) w (Post (startRequest DiscList (chars pkg) (subReg info) type cb) w v).
Proof.
  intros Hr Ht Hroom Hfit Hd Hc. apply wp_bind. eapply wp_createInfoNode; [exact Hr|by eapply copyData_ok|..]; unfold subReg.
  - intros w' a b Hr' R' Eb Hlt Hu Ha. rewrite Eb. cbn. eapply wp_mono; [|intros x w2 HP; eapply Post_rest; [exact R'|exact HP]].
    eapply register_post; try done. destruct (capBit_first _ _ Eb) as [Hb _]. exists b. exact Hb.
  - intros w' Hr' R' [Eb|Hs]; apply wp_ret; [|apply Post_system; [done..|]; destruct (capBit _); cbn; set_solver]. rewrite Eb. eapply Post_rest; [exact R'|]. by apply Post_immediate.
Qed.

Lemma setCallback_post pkg c v w : rep w v -> nameOk pkg ->
  wp (InnerSetDiscoverCallback pkg c) w (Post (SetCallback (chars pkg) c) w v).
Proof.
  intros Hr Hroom. apply wp_bind. eapply wp_lock; [exact Hr|..].
  { intros w1 Hr1 _ R1 Hs. cbn. apply wp_ret, Post_system; [done..|by eexists|cbn; set_solver]. }
  intros w1 Hr1 _ R1. cbn. apply wp_bind. eapply wp_readList; [apply (rep_list w1 v Hr1 DiscList)|]. cbn [Utils.list].
  apply wp_bind, wp_findItem; [intros p Hp; by apply (rep_item w1 v Hr1 DiscList)|].
  assert (forall w' l, rep w' (upd v DiscList l) -> rest w' = rest w -> table l = table (v DiscList) ->
    cbChanged v DiscList SUBSCRIBE_SERVICE (chars pkg) c l -> Post (SetCallback (chars pkg) c) w v SOFTBUS_OK w') as Hpost.
  { intros w' l Hr' R' HT HC. destruct (rest_setMedium w w' R') as [Em R'']. exists (upd v DiscList l). split_and!; [done..|].
    rewrite Em. assert (abs (upd v DiscList l) = MkAbs (pubs (abs v)) (subs (abs v)) (<[chars pkg := c]> (cbs (abs v)))) as ->; [|constructor].
    apply abs_change; cbn; try done. intros _.
    pose proof (callbacks_changed v DiscList SUBSCRIBE_SERVICE (chars pkg) c (upd v DiscList l) w w' Hr Hr') as H.
    rewrite upd_same in H. by apply H. }
  destruct (findPkg (chars pkg) (v DiscList)) as [p|] eqn:Ef; cbn [fmap option_fmap option_map].
  - apply findPkg_some in Ef as [En (l1 & l2 & E)]. assert (p ∈ v DiscList) as Hp by (rewrite E; set_solver).
    pose proof (rep_item w1 v Hr1 DiscList p Hp) as Hit. apply wp_bind. eapply wp_readItem; [exact Hit|]. apply wp_bind.
    eapply wp_writeItem; [exact Hit|]. pose proof (rep_setCb w1 (setHeap (<[va p := itemOf (setCb p c)]> (items w1)) (infos w1) (next w1) w1)
      v DiscList l1 p l2 c Hr1 E eq_refl eq_refl) as Hr2.
    eapply wp_unlock_ret; [exact R1|done|exact Hr2|]. intros w3 Hr3 R3 _. eapply Hpost; [exact Hr3|done| |].
    + pose proof (table_refused v DiscList SUBSCRIBE_SERVICE (chars pkg) c _ w w3 Hr Hr3) as H. rewrite upd_same in H. apply H. by constructor.
    + left. by exists l1, p, (setCb p c), l2.
  - apply findPkg_none in Ef. apply wp_bind. eapply (wp_CreateNewItem DiscList pkg (Some c) c); [exact Hr1|done|done|done|..].
    + intros w2 Hr2 R2 _ _. cbn [isInner newCb] in Hr2.
      set (p := MkPkg (next w1) (chars pkg) c []) in *.
      assert (match c with Some _ | _ => c end = c) as Ec by by destruct c.
      apply wp_bind. eapply wp_unlock; [exact Hr2|]. intros w3 Hr3 _ R3. apply wp_ret.
      eapply Hpost; [exact Hr3|exact (relock DiscList w w1 w2 w3 R1 R2 R3)| |].
      * pose proof (table_refused v DiscList SUBSCRIBE_INNER_SERVICE (chars pkg) c _ w w3 Hr Hr3) as H. rewrite upd_same in H. apply H. by constructor.
      * right. split; [done|]. by eexists _, _.
    + intros w2 Hr2 R2 _ _ Hs. apply wp_bind. eapply wp_unlock; [exact Hr2|]. intros w3 Hr3 _ R3. apply wp_ret, Post_system; try done.
      * exact (relock DiscList w w1 w2 w3 R1 R2 R3).
      * cbn. set_solver.
Qed.

Lemma moduleName_ok m : badModule m = false -> nameOk (MkCString (moduleName m) PKG_NAME_SIZE_MAX).
Proof.
  unfold badModule, MODULE_MIN, MODULE_MAX, MODULE_CONN. intros Hm. assert (m = 1 \/ m = 2) as [-> | ->] by lia; by split.
Qed.

(** After the checks of its arguments, an entry point of a module looks up
    its name. *)
Lemma module_post m rq x0 (body : CString -> M Z) v w : rep w v -> badModule m = false -> x0 ∈ systemCodes rq ->
  (forall w', rep w' v -> rest w' = rest w -> wp (body (MkCString (moduleName m) PKG_NAME_SIZE_MAX)) w' (Post rq w' v)) ->
  wp (bind get (fun w0 => if negb (g_isInited w0) then ret SOFTBUS_DISCOVER_MANAGER_NOT_INIT
    else bind (ModuleIdToPackageName m) (fun pkg => match pkg with None => ret x0 | Some pkg => body pkg end))) w (Post rq w v).
Proof.
  intros Hr Hm Hx Hbody. apply wp_bind, wp_get. rewrite (rep_inited w v Hr). cbn [negb]. apply wp_bind.
  eapply wp_ModuleName; [exact Hr|exact Hm|..].
  - intros w' Hr' R'. eapply wp_mono; [by apply Hbody|]. intros x w2 HP. by eapply Post_rest.
  - intros w' Hr' R' Hs. by apply wp_ret, Post_system.
Qed.

Lemma startRequest_codes x0 k n r type c :
  x0 ∈ [SOFTBUS_DISCOVER_MANAGER_INVALID_MODULE; SOFTBUS_DISCOVER_MANAGER_INVALID_PKGNAME] -> x0 ∈ systemCodes (startRequest k n r type c).
Proof. rewrite elem_of_cons, list_elem_of_singleton. intros [-> | ->]; destruct r; cbn; set_solver. Qed.

Lemma checkOk_true c : checkOk c = true <-> c = Some SOFTBUS_OK.
Proof. unfold checkOk. by rewrite bool_decide_eq_true. Qed.

Lemma modulePublish_post accepted m info v w : rep w v -> fits v ->
  (forall i, info = Some i -> dataOk (pubData i) (pubDataLen i)) ->
  wp (modulePublish accepted m info) w (Post (modulePublishRequest accepted m info) w v).
Proof.
  intros Hr Hfit Hd. destruct info as [info|]; [|by apply wp_ret, Post_immediate]. specialize (Hd info eq_refl).
  unfold modulePublish, modulePublishRequest. destruct (badModule m) eqn:Em; [by apply wp_ret, Post_immediate|]. cbn [orb].
  destruct (pubMode info =? accepted); cbn [orb negb]; [|by apply wp_ret, Post_immediate].
  destruct (infoCheck_total (pubMode info) (pubMedium info) (pubFreq info) _ _ Hd) as [x Ex]. fold (PublishInfoCheck info) in Ex.
  apply wp_bind. eapply wp_lift; [exact Ex|]. unfold checkOk. rewrite Ex. destruct (Z.eqb_spec x SOFTBUS_OK) as [->|Hx]; cbn [negb].
  - rewrite bool_decide_true by done. cbn [negb]. apply module_post; [done..|apply startRequest_codes; by left|]. intros w' Hr' R'. apply publish_post; try done. by apply moduleName_ok.
  - rewrite bool_decide_false by congruence. by apply wp_ret, Post_immediate.
Qed.

Lemma moduleSubscribe_post accepted x0 m info v w : rep w v -> fits v ->
  x0 ∈ [SOFTBUS_DISCOVER_MANAGER_INVALID_MODULE; SOFTBUS_DISCOVER_MANAGER_INVALID_PKGNAME] ->
  (forall i, info = Some i -> dataOk (subData i) (subDataLen i)) ->
  wp (moduleSubscribe accepted x0 m info) w (Post (moduleSubscribeRequest accepted m info) w v).
Proof.
  intros Hr Hfit Hx0 Hd. destruct info as [info|]; [|by apply wp_ret, Post_immediate]. specialize (Hd info eq_refl).
  unfold moduleSubscribe, moduleSubscribeRequest. destruct (badModule m) eqn:Em; [by apply wp_ret, Post_immediate|]. cbn [orb].
  destruct (subMode info =? accepted); cbn [orb negb]; [|by apply wp_ret, Post_immediate].
  destruct (infoCheck_total (subMode info) (subMedium info) (subFreq info) _ _ Hd) as [x Ex]. fold (SubscribeInfoCheck info) in Ex.
  apply wp_bind. eapply wp_lift; [exact Ex|]. unfold checkOk. rewrite Ex. destruct (Z.eqb_spec x SOFTBUS_OK) as [->|Hx]; cbn [negb].
  - rewrite bool_decide_true by done. cbn [negb]. apply module_post; [done..|by apply startRequest_codes|]. intros w' Hr' R'.
    exact (subscribe_post info (MkCString (moduleName m) PKG_NAME_SIZE_MAX) None SUBSCRIBE_INNER_SERVICE v w' Hr' eq_refl (moduleName_ok m Em) Hfit Hd Ex).
  - rewrite bool_decide_false by congruence. by apply wp_ret, Post_immediate.
Qed.

(** An entry point of the clients: the checks, then what they lead to. *)
Lemma client_post rq x (body : M Z) v w : rep w v ->
  (x = SOFTBUS_OK -> wp body w (Post rq w v)) -> (x <> SOFTBUS_OK -> rq = Immediate x) ->
  wp (if negb (x =? SOFTBUS_OK) then ret x
      else bind get (fun w0 => if negb (g_isInited w0) then ret SOFTBUS_DISCOVER_MANAGER_NOT_INIT else body)) w (Post rq w v).
Proof.
  intros Hr Hok Hno. destruct (Z.eqb_spec x SOFTBUS_OK) as [E|E]; cbn [negb].
  - apply wp_bind, wp_get. rewrite (rep_inited w v Hr). cbn [negb]. by apply Hok.
  - rewrite (Hno E). by apply wp_ret, Post_immediate.
Qed.

Lemma exec_post op v w : rep w v -> opOk op -> fits v -> wp (exec op) w (Post (request op) w v).
Proof.
  intros Hr Hok Hfit. destruct op as [m [c|]|m info|m info|m id|m info|m info|m id|[pkg|] [info|]|[pkg|] id|[pkg|] [info|] [c|]|[pkg|] id];
    cbn [exec request]; try (by apply wp_ret, Post_immediate).
  - cbn [DiscSetDiscoverCallback]. destruct (badModule m) eqn:Em; [by apply wp_ret, Post_immediate|].
    apply module_post; [done..|cbn; set_solver|]. intros w' Hr' R'. apply wp_same, setCallback_post; [done|by apply moduleName_ok].
  - apply modulePublish_post; [done..|]. by intros i ->.
  - apply modulePublish_post; [done..|]. by intros i ->.
  - unfold DiscUnpublish. destruct (badModule m) eqn:Em; [by apply wp_ret, Post_immediate|].
    apply module_post; [done..|cbn; set_solver|]. intros w' Hr' R'. by apply wp_same, (stop_post PubList).
  - apply moduleSubscribe_post; [done..|set_solver|]. by intros i ->.
  - apply moduleSubscribe_post; [done..|set_solver|]. by intros i ->.
  - unfold DiscStopAdvertise. destruct (badModule m) eqn:Em; [by apply wp_ret, Post_immediate|].
    apply module_post; [done..|cbn; set_solver|]. intros w' Hr' R'. by apply wp_same, (stop_post DiscList).
  - destruct Hok as [Hroom Hd]. cbn [DiscPublishService]. unfold clientStart. destruct (longName pkg) eqn:El; [by apply wp_ret, Post_immediate|].
    pose proof (conj Hroom (proj1 (Z.leb_gt _ _) El)) as Hname. fold (nameOk pkg) in Hname.
    destruct (infoCheck_total (pubMode info) (pubMedium info) (pubFreq info) _ _ Hd) as [x Ex]. fold (PublishInfoCheck info) in Ex.
    apply wp_bind. eapply wp_lift; [exact Ex|]. apply client_post; [done|..]; unfold checkOk; rewrite Ex.
    + intros ->. rewrite bool_decide_true by done. by apply publish_post.
    + intros Hx. by rewrite bool_decide_false by congruence.
  - cbn [DiscUnPublishService]. destruct (longName pkg); [by apply wp_ret, Post_immediate|].
    apply (client_post _ SOFTBUS_OK _ v w); [done|intros _|done]. by apply wp_same, (stop_post PubList).
  - destruct Hok as [Hroom Hd]. cbn [DiscStartDiscovery]. unfold clientStart. destruct (longName pkg) eqn:El; [by apply wp_ret, Post_immediate|].
    pose proof (conj Hroom (proj1 (Z.leb_gt _ _) El)) as Hname. fold (nameOk pkg) in Hname.
    destruct (infoCheck_total (subMode info) (subMedium info) (subFreq info) _ _ Hd) as [x Ex]. fold (SubscribeInfoCheck info) in Ex.
    apply wp_bind. eapply wp_lift; [exact Ex|]. apply client_post; [done|..]; unfold checkOk; rewrite Ex.
    + intros ->. rewrite bool_decide_true by done. exact (subscribe_post info pkg c SUBSCRIBE_SERVICE v w Hr eq_refl Hname Hfit Hd Ex).
    + intros Hx. by rewrite bool_decide_false by congruence.
  - cbn [DiscStopDiscovery]. destruct (longName pkg); [by apply wp_ret, Post_immediate|].
    apply (client_post _ SOFTBUS_OK _ v w); [done|intros _|done]. by apply wp_same, (stop_post DiscList).
Qed.

(** ** The number of registrations *)

(** A package has no more registrations than its table. *)
Lemma infos_size w v k p : rep w v -> p ∈ v k -> (length (vinfos p) <= size (table (v k)))%nat.
Proof.
  intros Hr Hp. set (keys := (fun x : nat * Registration => (vname p, rid x.2)) <$> vinfos p).
  assert (NoDup keys) as Hn.
  { unfold keys. change (fun x : nat * Registration => (vname p, rid x.2)) with (pair (vname p) ∘ (rid ∘ snd) : nat * Registration -> _).
    rewrite list_fmap_compose. apply NoDup_fmap; [intros ? ? [=]; done|]. by eapply rep_ids. }
  rewrite <- (length_fmap (fun x : nat * Registration => (vname p, rid x.2)) (vinfos p)). fold keys.
  rewrite <- (size_list_to_set (C := gset (string * Z)) keys Hn), <- (size_dom (D := gset (string * Z)) (table (v k))). apply subseteq_size.
  intros x Hx. apply elem_of_list_to_set, list_elem_of_fmap in Hx as ([a r] & -> & Ha). apply elem_of_dom. exists r.
  apply (table_lookup w v k _ _ _ Hr). by exists p, a.
Qed.

Definition regCount (A : Abs) : Z := Z.of_nat (size (pubs A)) + Z.of_nat (size (subs A)).

Lemma regCount_fits w v : rep w v -> regCount (abs v) + 1 < 2 ^ 32 -> fits v.
Proof.
  intros Hr H k p Hp. pose proof (infos_size w v k p Hr Hp). unfold regCount in H. cbn in H. destruct k; lia.
Qed.

Lemma regCount_spec coap ble A m rq x A' m' : Spec coap ble A m rq x A' m' -> regCount A' <= regCount A + 1.
Proof.
  intros H. assert (forall (T : gmap (string * Z) Registration) i r, (size (<[i := r]> T) <= size T + 1)%nat) as Hi.
  { intros T i r. rewrite map_size_insert. destruct (T !! i); cbn; lia. }
  assert (forall (T : gmap (string * Z) Registration) i, (size (delete i T) <= size T)%nat) as Hd.
  { intros T i. rewrite map_size_delete. destruct (T !! i); cbn; lia. }
  unfold regCount. destruct H; try destruct k; cbn in *; repeat case_decide; cbn in *; try lia;
    try (specialize (Hi (pubs A) (n, rid r) r); lia); try (specialize (Hi (subs A) (n, rid r) r); lia);
    try (specialize (Hd (pubs A) (n, i)); lia); try (specialize (Hd (subs A) (n, i)); lia).
Qed.

(** ** The start *)

Definition noView : View := fun _ => [].

Lemma wp_inv {A} (m : M A) w Q x w' : wp m w Q -> m w = Some (x, w') -> Q x w'.
Proof. intros (y & w2 & E & HQ) E'. rewrite E in E'. by simplify_eq. Qed.

Lemma wp_CreateSoftBusList w (Q : option (Utils.SoftBusList nat) -> World S -> Prop) :
  (forall y w', core w' = core w -> rest w' = rest w -> y = None \/ y = Some (Utils.MkSoftBusList 0 []) -> Q y w') ->
  wp CreateSoftBusList w Q.
Proof.
  intros HQ. apply wp_bind, wp_sys. destruct (sysOk (ticks w)); cbn [negb].
  - apply wp_bind, wp_sys, wp_ret, HQ; try done. unfold Utils.CreateSoftBusList. destruct (sysOk _); cbn; auto.
  - apply wp_ret, HQ; try done. by left.
Qed.

(** A world that was just initialised holds nothing. *)
Lemma rep_noView w : g_isInited w = true -> (forall k, theList k w = Some (Utils.MkSoftBusList 0 [])) ->
  g_capabilityList w = replicate 8 [] -> rep w noView.
Proof.
  intros Hi Hl Hc. split; try done; try (intros k p Hp; by apply not_elem_of_nil in Hp); try (intros k; constructor).
  - intros k k' p p' Hp. by apply not_elem_of_nil in Hp.
  - rewrite Hc. split; [done|]. intros b nodes Hb. apply lookup_replicate in Hb as [-> _]. split; [constructor|].
    intros a. split; [set_solver|]. intros (p & r & Hp & _). by apply not_elem_of_nil in Hp.
Qed.

Lemma init_rep w : g_isInited w = false -> wp DiscMgrInit w (fun x w' => x = SOFTBUS_OK ->
  rep w' noView /\ publishLock w' = 0%nat /\ discoveryLock w' = 0%nat /\ g_isCallLnn w' = g_isCallLnn w /\ notes w' = notes w).
Proof.
  intros Hi. apply wp_bind, wp_get. rewrite Hi. destruct (DiscCoapInit media (medium w)) as [coap m1], (DiscBleInit media m1) as [ble m2].
  apply wp_bind, wp_modify, wp_bind, wp_modify.
  assert (forall w0, rest w0 = rest (setInterfaces coap ble (setMedium m2 w)) -> wp (bind CreateSoftBusList (fun p => bind CreateSoftBusList (fun d =>
    bind (modify (setLists p d)) (fun _ => bind (modify (setLocks 0 0)) (fun _ =>
    match p, d with
    | Some _, Some _ => bind (modify (setCaps (replicate (Z.to_nat CAPABILITY_MAX_BITNUM) []))) (fun _ =>
        bind (modify (setInited true)) (fun _ => ret SOFTBUS_OK))
    | _, _ => ret SOFTBUS_ERR
    end))))) w0 (fun x w' => x = SOFTBUS_OK -> rep w' noView /\ publishLock w' = 0%nat /\ discoveryLock w' = 0%nat /\
      g_isCallLnn w' = g_isCallLnn w /\ notes w' = notes w)) as Hmain.
  { intros w0 R0. apply wp_bind, wp_CreateSoftBusList. intros p w1 C1 R1 Hp. apply wp_bind, wp_CreateSoftBusList. intros d w2 C2 R2 Hd.
    apply wp_bind, wp_modify, wp_bind, wp_modify. destruct Hp as [-> | ->]; [by apply wp_ret|]. destruct Hd as [-> | ->]; [by apply wp_ret|].
    apply wp_bind, wp_modify, wp_bind, wp_modify, wp_ret. intros _. rewrite R1, R0 in R2. unfold rest in R2. injection R2 as R21 R22 R23 R24 R25 R26 R27.
    split_and!; try done. apply rep_noView; [done|by intros []|done]. }
  destruct coap as [coap|], ble as [ble|]; try (by apply Hmain). by apply wp_ret.
Qed.

(** ** A device was found *)

(** The calls a subscription of package [n] leads to. *)
Definition notify (C : gmap string InnerCallback) (lnn : bool) (d : DeviceInfo) (n : string) : list Note :=
  match cbAt C n with
  | None => []
  | Some fn => if isModule n then if lnn then [InnerDeviceFoundCall fn d] else [] else [ServerDeviceFound fn n d]
  end.

(** Clients have a callback. *)
Definition clientsReachable (A : Abs) : Prop :=
  forall n i, is_Some (subs A !! (n, i)) -> isModule n = false -> is_Some (cbAt (cbs A) n).

Definition addNotes (ns : list Note) (w : World S) : World S :=
  MkWorld (g_isInited w) (g_publishInfoList w) (g_discoveryInfoList w) (publishLock w) (discoveryLock w)
    (g_discCoapInterface w) (g_discBleInterface w) (g_capabilityList w) (items w) (infos w) (next w)
    (g_isCallLnn w) (ticks w) (medium w) (notes w ++ ns).

Lemma addNotes_nil w : addNotes [] w = w.
Proof. destruct w. unfold addNotes. cbn. by rewrite app_nil_r. Qed.

Lemma addNotes_app ns ms w : addNotes ms (addNotes ns w) = addNotes (ns ++ ms) w.
Proof. unfold addNotes. cbn. by rewrite app_assoc. Qed.

Lemma cbAt_item w v k p : rep w v -> p ∈ v k -> cbAt (callbacks (v k)) (vname p) = vcb p.
Proof.
  intros Hr Hp. unfold cbAt. assert (callbacks (v k) !! vname p = Some (vcb p)) as ->; [|done].
  apply (callbacks_lookup w v k _ _ Hr). by exists p.
Qed.

Lemma wp_InnerDeviceFound a r p d v w (Q : unit -> World S -> Prop) : rep w v -> p ∈ v DiscList -> (a, r) ∈ vinfos p ->
  clientsReachable (abs v) -> Q tt (addNotes (notify (cbs (abs v)) (g_isCallLnn w) d (vname p)) w) ->
  wp (InnerDeviceFound a d) w Q.
Proof.
  intros Hr Hp Ha Hc HQ. apply wp_bind. eapply wp_readInfo; [by apply (rep_info w v Hr DiscList p Hp)|]. apply wp_bind.
  eapply wp_lift; [done|]. apply wp_bind. eapply wp_readItem; [by apply (rep_item w v Hr DiscList)|]. cbn [packageName itemOf callback].
  unfold notify in HQ. cbn [cbs abs] in HQ. rewrite (cbAt_item w v DiscList p Hr Hp) in HQ. destruct (isModule (vname p)) eqn:Em; cbn [negb].
  - destruct (vcb p) as [fn|]; [|by rewrite addNotes_nil in HQ; apply wp_ret]. apply wp_bind. unfold GetCallLnnStatus.
    apply wp_bind, wp_get, wp_ret. destruct (g_isCallLnn w); [by apply wp_modify|]. rewrite addNotes_nil in HQ. by apply wp_ret.
  - assert (is_Some (vcb p)) as [fn Ef].
    { rewrite <- (cbAt_item w v DiscList p Hr Hp). apply (Hc (vname p) (rid r)); [|done]. exists r.
      apply (table_lookup w v DiscList _ _ _ Hr). by exists p, a. }
    rewrite Ef in HQ |- *. apply wp_bind. eapply wp_lift; [done|]. by apply wp_modify.
Qed.

(** The subscriptions with their addresses. *)
Definition nodesOf (l : list PkgView) : list (nat * ((string * Z) * Registration)) :=
  p ← l; (fun x => (x.1, ((vname p, rid x.2), x.2))) <$> vinfos p.

Lemma nodesOf_mem l a n i r : (a, ((n, i), r)) ∈ nodesOf l <-> exists p, p ∈ l /\ vname p = n /\ (a, r) ∈ vinfos p /\ rid r = i.
Proof.
  unfold nodesOf. rewrite list_elem_of_bind. split.
  - intros (p & Hx & Hp). apply list_elem_of_fmap in Hx as ([a' r'] & E & Hx). cbn in E. simplify_eq. eauto.
  - intros (p & Hp & <- & Ha & <-). exists p. split; [|done]. apply list_elem_of_fmap. by exists (a, r).
Qed.

Lemma nodesOf_snd l : (nodesOf l).*2 = entries l.
Proof.
  unfold nodesOf, entries. induction l as [|p l IH]; [done|]. cbn. rewrite fmap_app. f_equal; [|exact IH].
  by rewrite <- list_fmap_compose.
Qed.

Lemma nodesOf_nodup w v k : rep w v -> NoDup (nodesOf (v k)).*1.
Proof.
  intros Hr. pose proof (rep_nodup w v Hr k) as Hn. pose proof (rep_infos w v Hr k) as Hi. pose proof (rep_info w v Hr k) as Hinf.
  revert Hn Hi Hinf. generalize (v k). intros l. induction l as [|p l IH]; intros Hn Hi Hinf; [constructor|].
  cbn [fmap list_fmap] in Hn. apply NoDup_cons in Hn as [Hn1 Hn2]. cbn. rewrite fmap_app. apply NoDup_app. split_and!.
  - rewrite <- list_fmap_compose. apply Hi. by left.
  - intros a H1 H2. rewrite <- list_fmap_compose in H1. apply list_elem_of_fmap in H1 as ([a1 r1] & -> & H1).
    apply list_elem_of_fmap in H2 as ([a2 [[n i] r2]] & E & H2). cbn in E. subst a2. apply nodesOf_mem in H2 as (q & Hq & _ & Ha & _).
    pose proof (Hinf p ltac:(by left) a1 r1 H1) as E1. pose proof (Hinf q ltac:(by right) a1 r2 Ha) as E2. rewrite E1 in E2.
    injection E2 as _ Ev. apply Hn1. rewrite Ev. by apply list_elem_of_fmap_2.
  - apply IH; [done|intros q Hq; apply Hi; by right|intros q Hq; apply Hinf; by right].
Qed.

(** The list of a capability, as subscriptions. *)
Lemma caps_nodes w v b nodes : rep w v -> g_capabilityList w !! b = Some nodes ->
  exists L, L.*1 = nodes /\ L ≡ₚ filter (fun x => capOf x.2.2 = Some (Z.of_nat b)) (nodesOf (v DiscList)).
Proof.
  intros Hr Hb. destruct (rep_caps w v Hr) as [_ Hc]. destruct (Hc b nodes Hb) as [Hd Hin].
  assert ((filter (fun x => capOf x.2.2 = Some (Z.of_nat b)) (nodesOf (v DiscList))).*1 ≡ₚ nodes) as Hp.
  { apply NoDup_Permutation; [|done|].
    - apply (sublist_NoDup _ (nodesOf (v DiscList)).*1); [by apply (nodesOf_nodup w)|]. apply fmap_sublist, sublist_filter.
    - intros a. rewrite Hin, list_elem_of_fmap. split.
      + intros ([a' [[n i] r]] & -> & H). apply list_elem_of_filter in H as [Hcap H]. apply nodesOf_mem in H as (p & Hp & _ & Ha & _). eauto.
      + intros (p & r & Hp & Ha & Hcap). exists (a, ((vname p, rid r), r)). split; [done|]. apply list_elem_of_filter. split; [done|].
        apply nodesOf_mem. eauto. }
  symmetry in Hp. apply Permutation_map_inv in Hp as (L & EL & HL). exists L. by rewrite HL.
Qed.

Lemma forEach_found L : forall v w d (Q : unit -> World S -> Prop), rep w v -> clientsReachable (abs v) ->
  (forall x, x ∈ L -> x ∈ nodesOf (v DiscList)) ->
  Q tt (addNotes (L ≫= fun x => notify (cbs (abs v)) (g_isCallLnn w) d x.2.1.1) w) ->
  wp (forEach (fun a => InnerDeviceFound a d) L.*1) w Q.
Proof.
  induction L as [|[a [[n i] r]] L IH]; intros v w d Q Hr Hc HL HQ; [rewrite addNotes_nil in HQ; by apply wp_ret|].
  cbn [forEach fmap list_fmap fst]. apply wp_bind. assert ((a, ((n, i), r)) ∈ nodesOf (v DiscList)) as Hx by (apply HL; by left).
  apply nodesOf_mem in Hx as (p & Hp & <- & Ha & _). eapply wp_InnerDeviceFound; [exact Hr|exact Hp|exact Ha|exact Hc|].
  eapply IH; [by apply (rep_core w)|exact Hc|intros x Hx; apply HL; by right|]. by rewrite addNotes_app.
Qed.

(** The subscriptions to a capability of [bits] the device has. *)
Definition wantedIn (bits : list Z) (d : DeviceInfo) (r : Registration) : bool :=
  match capOf r with
  | None => false
  | Some b => bool_decide (b ∈ bits) && IsBitmapSet (devBitmap d) b
  end.

Lemma filter_fmap {A B} (f : A -> B) (P : B -> Prop) `{forall x, Decision (P x)} (l : list A) :
  filter P (f <$> l) = f <$> filter (fun x => P (f x)) l.
Proof. induction l as [|x l IH]; [done|]. cbn [fmap list_fmap]. rewrite !filter_cons. case_decide; cbn; by rewrite IH. Qed.

Lemma filter_around {A} (P Q R : A -> Prop) `{forall x, Decision (P x), forall x, Decision (Q x), forall x, Decision (R x)} (l : list A) :
  (forall x, P x <-> Q x \/ R x) -> (forall x, Q x -> R x -> False) -> filter P l ≡ₚ filter Q l ++ filter R l.
Proof.
  intros HP HD. induction l as [|x l IH]; [done|]. rewrite !filter_cons. specialize (HP x). specialize (HD x).
  destruct (decide (P x)), (decide (Q x)), (decide (R x)); try (exfalso; tauto); rewrite IH; [done|..|done].
  by rewrite Permutation_middle.
Qed.

Lemma foundLoop_spec bits : forall v w d (Q : unit -> World S -> Prop), rep w v -> clientsReachable (abs v) ->
  (forall n, sysOk n = true) -> Forall (fun b => 0 <= b < 8) bits -> NoDup bits ->
  (forall L w', L ≡ₚ filter (fun x => wantedIn bits d x.2.2) (nodesOf (v DiscList)) -> core w' = core w ->
    rest w' = rest (addNotes (L ≫= fun x => notify (cbs (abs v)) (g_isCallLnn w) d x.2.1.1) w) -> Q tt w') ->
  wp (foundLoop d bits) w Q.
Proof.
  induction bits as [|b bits IH]; intros v w d Q Hr Hc Hs Hb Hn HQ.
  { apply wp_ret. apply (HQ [] w); [|done|by rewrite addNotes_nil]. rewrite list_filter_none; [done|].
    apply Forall_forall. intros x _. unfold wantedIn. destruct (capOf _); [|tauto].
    rewrite bool_decide_false by apply not_elem_of_nil. tauto. }
  apply Forall_cons in Hb as [Hb Hbs]. apply NoDup_cons in Hn as [Hn Hns]. cbn [foundLoop].
  destruct (IsBitmapSet (devBitmap d) b) eqn:Eb; cbn [negb].
  2: { eapply IH; try done. intros L w' HL C' R'. eapply HQ; [|done|exact R']. rewrite HL.
    erewrite (list_filter_iff (fun x => wantedIn bits d x.2.2)); [done|]. intros x. unfold wantedIn. destruct (capOf _) as [c|]; [|done].
    destruct (decide (c = b)) as [->|Hne]; [rewrite Eb, !andb_false_r; done|].
    rewrite (bool_decide_ext (c ∈ b :: bits) (c ∈ bits)); [done|]. set_solver. }
  apply wp_bind. eapply wp_lock; [exact Hr|..]; [intros w1 _ _ _ Es; by rewrite Hs in Es|].
  intros w1 Hr1 C1 R1. cbn [Z.eqb negb]. apply wp_bind, wp_get, wp_bind. destruct (rep_caps w1 v Hr1) as [Hlen _].
  destruct (lookup_lt_is_Some_2 (g_capabilityList w1) (Z.to_nat b)) as [nodes En]; [lia|].
  eapply wp_lift; [exact En|]. destruct (caps_nodes w1 v (Z.to_nat b) nodes Hr1 En) as (L1 & E1 & HL1). rewrite Z2Nat.id in HL1 by lia.
  apply wp_bind. rewrite <- E1. eapply forEach_found; [exact Hr1|exact Hc| |].
  { intros x Hx. rewrite HL1 in Hx. by apply list_elem_of_filter in Hx as [_ Hx]. }
  set (ns := L1 ≫= _). assert (rep (addNotes ns w1) v) as Hr2 by by apply (rep_core w1).
  apply wp_bind. eapply wp_unlock; [exact Hr2|]. intros w3 Hr3 C3 R3.
  assert (core w3 = core w /\ rest w3 = rest (addNotes ns w) /\ g_isCallLnn w3 = g_isCallLnn w) as (C3' & R3' & Hlnn).
  { unfold core, rest in *. cbn in *. split; [congruence|]. injection R1 as E2 E3 E4 E5 E6 E7 E8. rewrite R3. rewrite E2, E3, E4, E5, E6, E7, E8.
    injection R3 as _ _ _ _ -> _ _. done. }
  eapply (IH v w3); try done. intros L w' HL C' R'. eapply (HQ (L1 ++ L)); [|congruence|].
  - rewrite HL, HL1. symmetry. apply filter_around.
    + intros x. unfold wantedIn. destruct (capOf _) as [c|]; [|naive_solver]. rewrite !Is_true_true, !andb_true_iff, !bool_decide_eq_true, elem_of_cons.
      split; [intros [[->|H] H']; auto|]. intros [[= ->]|[H H']]; auto.
    + intros x Ex. unfold wantedIn. rewrite Ex. rewrite Is_true_true, andb_true_iff, bool_decide_eq_true. naive_solver.
  - rewrite R'. unfold rest in *. cbn in *. injection R3' as -> -> -> -> -> -> ->. unfold ns.
    rewrite bind_app, app_assoc. unfold rest in R1. cbn in R1. by injection R1 as _ _ _ _ -> _ _.
Qed.

(** ** Cleaning up *)

(** [DiscUnPublishService] or [DiscStopDiscovery]. *)
Definition stopClient (k : Which) (pkg : CString) (i : Z) : M Z :=
  match k with PubList => DiscUnPublishService (Some pkg) i | DiscList => DiscStopDiscovery (Some pkg) i end.

Lemma stopClient_post k pkg i v w : rep w v -> longName pkg = false -> wp (stopClient k pkg i) w (Post (Stop k (chars pkg) i) w v).
Proof.
  intros Hr Hl. destruct k; cbn [stopClient DiscUnPublishService DiscStopDiscovery]; rewrite Hl;
    (apply (client_post _ SOFTBUS_OK _ v w); [done|intros _|done]).
  - by apply wp_same, (stop_post PubList).
  - by apply wp_same, (stop_post DiscList).
Qed.

(** The other list. *)
Definition other (k : Which) : Which := match k with PubList => DiscList | DiscList => PubList end.

(** What stopping the keys of a list does, whatever the media answer. *)
Definition Stopped (k : Which) (keys : list (string * Z)) (A A' : Abs) : Prop :=
  regsOf k A' = filter (fun x => x.1 ∉ keys) (regsOf k A) /\ regsOf (other k) A' = regsOf (other k) A /\
  (forall n, (k = PubList \/ n ∉ keys.*1) -> cbs A' !! n = cbs A !! n).

Lemma filter_delete (T : gmap (string * Z) Registration) key keys :
  filter (fun x => x.1 ∉ keys) (delete key T) = filter (fun x => x.1 ∉ key :: keys) T.
Proof.
  apply map_eq. intros j. apply option_eq. intros r. rewrite !map_lookup_filter_Some, lookup_delete_Some, not_elem_of_cons. cbn. naive_solver.
Qed.

Lemma filter_absent (T : gmap (string * Z) Registration) key keys : T !! key = None ->
  filter (fun x => x.1 ∉ keys) T = filter (fun x => x.1 ∉ key :: keys) T.
Proof. intros H. by rewrite <- filter_delete, delete_id. Qed.

Lemma dropIdle_regs k n A k' : regsOf k' (dropIdle k n A) = regsOf k' A.
Proof. destruct k; cbn; [done|]. case_decide; [by destruct k'|done]. Qed.

Lemma dropIdle_cbs k n A n' : k = PubList \/ n' <> n -> cbs (dropIdle k n A) !! n' = cbs A !! n'.
Proof. intros H. destruct k; cbn; [done|]. case_decide; [|done]. cbn. rewrite lookup_delete_ne; [done|]. naive_solver. Qed.

Lemma Stopped_step k n i keys coap ble A m x A1 m1 A2 : (forall j, sysOk j = true) ->
  Spec coap ble A m (Stop k n i) x A1 m1 -> Stopped k keys A1 A2 -> Stopped k ((n, i) :: keys) A A2.
Proof.
  intros Hs HS (H1 & H2 & H3). inversion HS as [|? ? [j Hj]| | | |? ? r ? ? ? Hin Hask| ? ? ? Hno|]; subst; [by rewrite Hs in Hj|..].
  - rewrite dropIdle_regs in H1, H2. split_and!.
    + rewrite H1, <- filter_delete. by destruct k.
    + rewrite H2. by destruct k.
    + intros n' Hn. rewrite H3, dropIdle_cbs by (destruct Hn as [|Hn]; [auto|right; set_solver]). by destruct k.
  - rewrite dropIdle_regs in H1, H2. split_and!; [by rewrite H1; apply filter_absent|done|].
    intros n' Hn. rewrite H3, dropIdle_cbs; [done|..]; (destruct Hn as [|Hn]; [auto|right; set_solver]).
Qed.

Definition short (n : string) : Prop := Z.of_nat (String.length n) < PKG_NAME_SIZE_MAX.

Lemma cleanup_post k ids : forall v w, (forall j, sysOk j = true) -> rep w v -> Forall (fun x => short x.2) ids ->
  wp (CleanupPublishDiscovery ids (match k with PubList => PUBLISH_SERVICE | DiscList => SUBSCRIBE_SERVICE end)) w
    (fun _ w' => exists v', rep w' v' /\ rest w' = rest (setMedium (medium w') w) /\
      Stopped k ((fun x => (x.2, x.1)) <$> ids) (abs v) (abs v')).
Proof.
  induction ids as [|[i n] ids IH]; intros v w Hs Hr Hshort.
  { apply wp_ret. exists v. split_and!; [done|by apply rest_setMedium|]. split_and!; try done. cbn. rewrite map_filter_id; [done|].
    intros j r _. apply not_elem_of_nil. }
  apply Forall_cons in Hshort as [Hn Hshort]. cbn [snd] in Hn. unfold CleanupPublishDiscovery. cbn [forEach]. apply wp_bind.
  set (pkg := MkCString n (Z.of_nat (String.length n) + 1)).
  assert (longName pkg = false) as Hl by (apply Z.leb_gt; exact Hn).
  assert (forall Q, wp (bind (stopClient k pkg i) (fun _ => ret tt)) w Q -> wp (match match k with PubList => PUBLISH_SERVICE | DiscList => SUBSCRIBE_SERVICE end with
    | PUBLISH_SERVICE => bind (DiscUnPublishService (Some pkg) i) (fun _ => ret tt)
    | SUBSCRIBE_SERVICE => bind (DiscStopDiscovery (Some pkg) i) (fun _ => ret tt)
    | _ => ret tt end) w Q) as Hk by by destruct k.
  apply Hk. apply wp_bind. eapply wp_mono; [by apply (stopClient_post k pkg i v w)|]. intros x w1 (v1 & Hr1 & R1 & HS). apply wp_ret.
  eapply wp_mono; [by apply (IH v1 w1)|]. intros [] w2 (v2 & Hr2 & R2 & H2). exists v2. split_and!; [done| |].
  - rewrite R2. unfold rest in *. cbn in *. injection R1 as -> -> -> -> -> ->. done.
  - by eapply Stopped_step.
Qed.

Lemma collectInfos_spec name o l : forall ids w (Q : option (list (Z * string)) -> World S -> Prop), (forall j, sysOk j = true) ->
  (forall a r, (a, r) ∈ l -> infos w !! a = Some (MkInfo r o)) ->
  (forall w', core w' = core w -> rest w' = rest w -> Q (Some (ids ++ ((fun x => (rid x.2, name)) <$> l))) w') ->
  wp (collectInfos name l.*1 ids) w Q.
Proof.
  induction l as [|[a r] l IH]; intros ids w Q Hs Hl HQ; [apply wp_ret; rewrite app_nil_r in HQ; by apply HQ|].
  cbn [collectInfos fmap list_fmap fst]. apply wp_bind. eapply wp_readInfo; [apply Hl; by left|]. apply wp_bind. unfold CreateIdContainer.
  apply wp_bind, wp_sys. rewrite Hs. cbn [negb]. apply wp_bind, wp_sys. rewrite Hs. cbn [negb]. apply wp_ret. cbn [reg].
  apply IH; [done|intros b rb Hb; apply Hl; by right|]. intros w' C' R'. rewrite <- app_assoc. cbn. by apply HQ.
Qed.

(** The ids [DiscMgrInfoListDeinit] collects. *)
Definition chosen (pkgName : option string) (p : PkgView) : bool :=
  match pkgName with None => true | Some n => bool_decide (vname p = n) end.

Definition idsOf (pkgName : option string) (l : list PkgView) : list (Z * string) :=
  p ← l; if chosen pkgName p then (fun x => (rid x.2, vname p)) <$> vinfos p else [].

Lemma collectItems_spec pkgName l : forall ids w (Q : option (list (Z * string)) -> World S -> Prop), (forall j, sysOk j = true) ->
  (forall p, p ∈ l -> items w !! va p = Some (itemOf p)) ->
  (forall p a r, p ∈ l -> (a, r) ∈ vinfos p -> infos w !! a = Some (MkInfo r (Some (va p)))) ->
  (forall w', core w' = core w -> rest w' = rest w -> Q (Some (ids ++ idsOf pkgName l)) w') ->
  wp (collectItems pkgName (va <$> l) ids) w Q.
Proof.
  induction l as [|p l IH]; intros ids w Q Hs Hi Hinf HQ; [apply wp_ret; rewrite app_nil_r in HQ; by apply HQ|].
  cbn [collectItems fmap list_fmap]. apply wp_bind. eapply wp_readItem; [apply Hi; by left|]. cbn [packageName itemOf InfoList].
  assert ((match pkgName with None => false | Some p0 => bool_decide (vname p <> p0) end) = negb (chosen pkgName p)) as ->.
  { destruct pkgName as [n|]; [|done]. cbn. by rewrite <- bool_decide_not. }
  unfold idsOf in HQ. cbn in HQ. destruct (chosen pkgName p); cbn [negb].
  - apply wp_bind. eapply collectInfos_spec; [done|intros a r Ha; apply (Hinf p); [by left|done]|]. intros w1 C1 R1.
    unfold core in C1. injection C1 as C11 C12 C13 C14 C15 C16 C17.
    apply IH; [done|intros q Hq; rewrite C15; apply Hi; by right|intros q a r Hq Ha; rewrite C16; apply (Hinf q); [by right|done]|].
    intros w2 C2 R2. rewrite <- app_assoc. apply HQ; [|congruence]. rewrite C2. unfold core. congruence.
  - apply IH; [done|intros q Hq; apply Hi; by right|intros q a r Hq Ha; apply (Hinf q); [by right|done]|done].
Qed.

Definition cleanType (k : Which) : ServiceType := match k with PubList => PUBLISH_SERVICE | DiscList => SUBSCRIBE_SERVICE end.

Definition keysOf (pkgName : option string) (l : list PkgView) : list (string * Z) := (fun x => (x.2, x.1)) <$> idsOf pkgName l.

Lemma keysOf_mem pkgName l n i : (n, i) ∈ keysOf pkgName l <-> (pkgName = None \/ pkgName = Some n) /\ registered l n i.
Proof.
  unfold keysOf, registered. rewrite list_elem_of_fmap. split.
  - intros ([i' n'] & E & H). cbn in E. simplify_eq. unfold idsOf in H. apply list_elem_of_bind in H as (p & H & Hp).
    destruct (chosen pkgName p) eqn:Ec; [|by apply not_elem_of_nil in H]. apply list_elem_of_fmap in H as ([a r] & E & H). cbn in E. simplify_eq. split.
    + unfold chosen in Ec. destruct pkgName as [n|]; [|by left]. right. rewrite bool_decide_eq_true in Ec. by f_equal.
    + exists p. split_and!; [done|done|]. apply list_elem_of_fmap. by exists (a, r).
  - intros [Hp (p & Hin & <- & Hi)]. apply list_elem_of_fmap in Hi as ([a r] & -> & Ha). exists (rid r, vname p). split; [done|].
    unfold idsOf. apply list_elem_of_bind. exists p. split; [|done].
    assert (chosen pkgName p = true) as ->. { destruct Hp as [-> | ->]; cbn; [done|]. by rewrite bool_decide_true. }
    apply list_elem_of_fmap. by exists (a, r).
Qed.

(** The registrations that stay. *)
Definition stays (pkgName : option string) (n : string) : Prop := match pkgName with None => False | Some p => n <> p end.
#[local] Instance stays_dec pkgName n : Decision (stays pkgName n).
Proof. destruct pkgName; cbn; apply _. Defined.

Lemma keysOf_filter w v k pkgName : rep w v ->
  filter (fun x => x.1 ∉ keysOf pkgName (v k)) (table (v k)) = filter (fun x => stays pkgName x.1.1) (table (v k)).
Proof.
  intros Hr. apply map_filter_ext. intros [n i] r Hin. cbn. rewrite keysOf_mem.
  assert (registered (v k) n i) as Hreg.
  { apply (table_lookup w v k n i r Hr) in Hin as (p & a & Hp & En & Ha & Hi). exists p. split_and!; [done..|]. apply list_elem_of_fmap. by exists (a, r). }
  destruct pkgName as [p|]; cbn; [|naive_solver]. split; [intros H ->; apply H; auto|]. intros Hne [[H|[= ->]] _]; done.
Qed.

(** A registration of a list is stopped exactly when its package is meant. *)
Definition Cleaned (k : Which) (pkgName : option string) (A A' : Abs) : Prop :=
  regsOf k A' = filter (fun x => stays pkgName x.1.1) (regsOf k A) /\ regsOf (other k) A' = regsOf (other k) A /\
  (forall n, k = PubList \/ stays pkgName n -> cbs A' !! n = cbs A !! n).

Lemma listDeinit_post k pkgName v w : (forall j, sysOk j = true) -> rep w v ->
  wp (DiscMgrInfoListDeinit k (cleanType k) pkgName) w
    (fun _ w' => exists v', rep w' v' /\ rest w' = rest (setMedium (medium w') w) /\ Cleaned k pkgName (abs v) (abs v')).
Proof.
  intros Hs Hr. apply wp_bind. eapply wp_lock; [exact Hr|..]; [intros w1 _ _ _ Es; by rewrite Hs in Es|].
  intros w1 Hr1 C1 R1. cbn [Z.eqb negb]. apply wp_bind. unfold CreateIdContainer at 1. apply wp_bind, wp_sys. rewrite Hs. cbn [negb]. apply wp_ret.
  assert (rep (tick w1) v) as Hr1' by by apply (rep_core w1). apply wp_bind. eapply wp_readList; [apply (rep_list _ v Hr1' k)|]. cbn [Utils.list].
  apply wp_bind. eapply collectItems_spec; [done|intros p Hp; by apply (rep_item _ v Hr1' k)|intros p a r Hp Ha; by apply (rep_info _ v Hr1' k)|].
  intros w2 C2 R2. cbn [app]. assert (rep w2 v) as Hr2 by (apply (rep_core (tick w1)); [exact C2|exact Hr1']). apply wp_bind.
  eapply wp_mono; [apply (cleanup_post k (idsOf pkgName (v k)) v w2 Hs Hr2)|].
  { apply Forall_forall. intros [i n] Hin. unfold idsOf in Hin. apply list_elem_of_bind in Hin as (p & Hin & Hp).
    destruct (chosen pkgName p); [|by apply not_elem_of_nil in Hin]. apply list_elem_of_fmap in Hin as (x & [= -> ->] & _). by eapply rep_short. }
  intros [] w3 (v3 & Hr3 & R3 & (H1 & H2 & H3)). eapply wp_unlock; [exact Hr3|]. intros w4 Hr4 C4 R4. exists v3. split_and!; [done| |].
  - unfold rest in *. destruct k; cbn in *; injection R1 as A1 A2 A3 A4 A5 A6 A7; injection R2 as B1 B2 B3 B4 B5 B6 B7;
      injection R3 as D1 D2 D3 D4 D5 D6; injection R4 as F1 F2 F3 F4 F5 F6 F7;
      by rewrite F1, F2, F3, F4, F5, F7, D1, D2, D3, D4, D5, D6, B1, B2, B3, B4, B5, B7, A1, A2, A3, A4, A5, A7.
  - split_and!.
    + rewrite H1, !abs_regs. by apply (keysOf_filter w).
    + exact H2.
    + intros n Hn. apply H3. destruct Hn as [|Hn]; [by left|]. right. intros Hin. apply list_elem_of_fmap in Hin as ([n' i] & -> & Hin).
      fold (keysOf pkgName (v k)) in Hin. apply keysOf_mem in Hin as [Hp _]. destruct pkgName; cbn in Hn; [|done]. destruct Hp; congruence.
Qed.

(** Both lists. *)
Lemma bothDeinit_post pkgName v w : (forall j, sysOk j = true) -> rep w v ->
  wp (bind (DiscMgrInfoListDeinit PubList PUBLISH_SERVICE pkgName) (fun _ => DiscMgrInfoListDeinit DiscList SUBSCRIBE_SERVICE pkgName)) w
    (fun _ w' => exists v', rep w' v' /\ rest w' = rest (setMedium (medium w') w) /\
      pubs (abs v') = filter (fun x => stays pkgName x.1.1) (pubs (abs v)) /\
      subs (abs v') = filter (fun x => stays pkgName x.1.1) (subs (abs v)) /\
      (forall n, stays pkgName n -> cbs (abs v') !! n = cbs (abs v) !! n)).
Proof.
  intros Hs Hr. apply wp_bind. eapply wp_mono; [by apply (listDeinit_post PubList)|]. intros [] w1 (v1 & Hr1 & R1 & (H1 & H2 & H3)).
  eapply wp_mono; [by apply (listDeinit_post DiscList)|]. intros [] w2 (v2 & Hr2 & R2 & (G1 & G2 & G3)). exists v2.
  cbn [regsOf other] in *. split_and!; [done| |congruence|congruence|].
  - rewrite R2. unfold rest in *. cbn in *. by injection R1 as -> -> -> -> -> ->.
  - intros n Hn. rewrite G3, H3 by auto. done.
Qed.

(** Nothing is in a list of capabilities when nothing is subscribed. *)
Lemma caps_idle w v : rep w v -> subs (abs v) = ∅ -> Forall (fun nodes => nodes = []) (g_capabilityList w).
Proof.
  intros Hr He. destruct (rep_caps w v Hr) as [_ Hc]. apply Forall_lookup. intros b nodes Hb. destruct (Hc b nodes Hb) as [_ Hin].
  destruct nodes as [|a nodes]; [done|]. exfalso. destruct (proj1 (Hin a) ltac:(by left)) as (p & r & Hp & Ha & _).
  assert (table (v DiscList) !! (vname p, rid r) = Some r) as H by (apply (table_lookup w v DiscList _ _ _ Hr); by exists p, a).
  cbn in He. by rewrite He in H.
Qed.

(** ** The theorems *)

Definition wanted (d : DeviceInfo) (r : Registration) : bool :=
  match capOf r with None => false | Some b => IsBitmapSet (devBitmap d) b end.

(** C19: let the locks succeed and every subscribed client have a callback.
    A device found is reported for exactly the subscriptions whose capability
    it has, each once, through the callback of its package as [notify] says:
    to a client always; to a module only while [g_isCallLnn] is set and only
    when the module has a callback (a module loses it with its last
    subscription, [module_callback_lost]).  Nothing else changes. *)
Theorem disc_found_exact (d : DeviceInfo) (w : World S) (v : View) : rep w v -> clientsReachable (abs v) ->
  (forall n, sysOk n = true) ->
  exists w' L, DiscOnDeviceFound d w = Some (tt, w') /\ rep w' v /\
    L ≡ₚ filter (fun x => wanted d x.2) (map_to_list (subs (abs v))) /\
    rest w' = rest (addNotes (L ≫= fun x => notify (cbs (abs v)) (g_isCallLnn w) d x.1.1) w).
Proof.
  intros Hr Hc Hs. assert (wp (DiscOnDeviceFound d) w (fun _ w' => exists L, rep w' v /\
    L ≡ₚ filter (fun x => wanted d x.2) (map_to_list (subs (abs v))) /\
    rest w' = rest (addNotes (L ≫= fun x => notify (cbs (abs v)) (g_isCallLnn w) d x.1.1) w))) as ([] & w' & E & L & H).
  2: { by exists w', L. }
  eapply (foundLoop_spec _ v); [done..| |apply NoDup_seqZ|].
  { apply Forall_forall. intros b Hb. apply elem_of_seqZ in Hb. unfold CAPABILITY_MAX_BITNUM in Hb. lia. }
  intros L w' HL C' R'. exists L.*2. split_and!; [by apply (rep_core w)| |].
  - assert (map_to_list (subs (abs v)) ≡ₚ entries (v DiscList)) as ->.
    { cbn. apply map_to_list_to_map, entries_nodup; [apply Hr|]. intros p Hp. by eapply rep_ids. }
    rewrite HL, <- nodesOf_snd, filter_fmap. cbn. apply Permutation_refl'. f_equal. apply list_filter_iff. intros x. cbn.
    unfold wantedIn, wanted. destruct (capOf _) as [b|] eqn:Eb; [|done]. rewrite bool_decide_true; [done|].
    apply elem_of_seqZ. unfold capOf in Eb. destruct (asSubscribe _) as [o|]; [|done]. apply firstBit_range in Eb.
    unfold CAPABILITY_MAX_BITNUM. lia.
  - rewrite R'. do 2 f_equal. clear. induction L as [|x L IH]; [done|]. cbn. f_equal. exact IH.
Qed.

(** C31: when a client dies, all its publications and subscriptions are
    removed, whatever the media answer, and the registrations and callbacks
    of the other packages stay. *)
Theorem disc_death_cleanup (n : string) (w : World S) (v : View) : rep w v -> (forall j, sysOk j = true) ->
  exists w' v', DiscMgrDeathCallback (Some n) w = Some (tt, w') /\ rep w' v' /\ rest w' = rest (setMedium (medium w') w) /\
    pubs (abs v') = filter (fun x => x.1.1 <> n) (pubs (abs v)) /\
    subs (abs v') = filter (fun x => x.1.1 <> n) (subs (abs v)) /\
    (forall n', n' <> n -> cbs (abs v') !! n' = cbs (abs v) !! n').
Proof.
  intros Hr Hs. destruct (bothDeinit_post (Some n) v w Hs Hr) as ([] & w' & E & v' & Hr' & R' & H1 & H2 & H3).
  exists w', v'. split_and!; try done. cbn [DiscMgrDeathCallback]. unfold bind at 1, get. cbn. rewrite (rep_inited w v Hr). exact E.
Qed.

(** The end of the manager: everything is stopped, and no list of
    capabilities keeps a node. *)
Theorem disc_deinit_spec (w : World S) (v : View) : rep w v -> (forall j, sysOk j = true) ->
  exists w', DiscMgrDeinit w = Some (tt, w') /\ g_isInited w' = false /\ (forall k, theList k w' = None) /\
    g_discCoapInterface w' = None /\ g_discBleInterface w' = None /\ Forall (fun nodes => nodes = []) (g_capabilityList w').
Proof.
  intros Hr Hs.
  assert (wp DiscMgrDeinit w (fun _ w' => g_isInited w' = false /\ (forall k, theList k w' = None) /\
    g_discCoapInterface w' = None /\ g_discBleInterface w' = None /\ Forall (fun nodes => nodes = []) (g_capabilityList w'))) as ([] & w' & H).
  2: by exists w'.
  apply wp_bind, wp_get. rewrite (rep_inited w v Hr). cbn [negb]. destruct (bothDeinit_post None v w Hs Hr) as ([] & w1 & E & v1 & Hr1 & _ & _ & H2 & _).
  assert (subs (abs v1) = ∅) as He. { rewrite H2. apply map_empty. intros j. apply map_lookup_filter_None. right. intros r _ []. }
  apply wp_bind. unfold bind in E. destruct (DiscMgrInfoListDeinit PubList PUBLISH_SERVICE None w) as [[[] w2]|] eqn:E1; [|done].
  exists tt, w2. split; [exact E1|]. apply wp_bind. exists tt, w1. split; [exact E|].
  apply wp_bind, wp_modify, wp_bind, wp_modify, wp_bind, wp_get, wp_bind, wp_modify, wp_modify.
  split_and!; try done; [by intros []|]. by apply (caps_idle w1 v1).
Qed.

End Operations.

(** ** Sequences of calls *)

Section Calls.
Context {S : Type} (media : Media S).

(** Calls of the entry points, each with the answers the system gives to the
    locks and allocations of that call. *)
Fixpoint execCalls (calls : list ((nat -> bool) * Op)) (w : World S) : option (list Z * World S) :=
  match calls with
  | [] => Some ([], w)
  | (sysOk, op) :: calls' => '(x, w1) ← exec sysOk op w; '(xs, w2) ← execCalls calls' w1; Some (x :: xs, w2)
  end.

Definition execs (sysOk : nat -> bool) (ops : list Op) : World S -> option (list Z * World S) := execCalls (pair sysOk <$> ops).

(** Each call is answered as [Spec] says: with an error of the system only
    when a lock or an allocation of this very call fails. *)
Inductive SpecCalls (coap ble : option (DiscoveryFuncInterface S)) : Abs -> S -> list ((nat -> bool) * Op) -> list Z -> Abs -> S -> Prop :=
  | calls_nil A m : SpecCalls coap ble A m [] [] A m
  | calls_cons A m sysOk op x A1 m1 calls xs A2 m2 : Spec sysOk coap ble A m (request op) x A1 m1 ->
      SpecCalls coap ble A1 m1 calls xs A2 m2 -> SpecCalls coap ble A m ((sysOk, op) :: calls) (x :: xs) A2 m2.

Lemma execCalls_post calls : forall (w : World S) v, rep w v -> Forall (opOk ∘ snd) calls ->
  regCount (abs v) + Z.of_nat (length calls) < 2 ^ 32 ->
  exists xs w' v', execCalls calls w = Some (xs, w') /\ rep w' v' /\ rest w' = rest (setMedium (medium w') w) /\
    SpecCalls (g_discCoapInterface w) (g_discBleInterface w) (abs v) (medium w) calls xs (abs v') (medium w').
Proof.
  induction calls as [|[sysOk op] calls IH]; intros w v Hr Hok Hn.
  { exists [], w, v. split_and!; [done..|by apply rest_setMedium|constructor]. }
  apply Forall_cons in Hok as [Hop Hok]. cbn [length] in Hn.
  destruct (exec_post sysOk op v w Hr Hop) as (x & w1 & E1 & v1 & Hr1 & R1 & HS); [eapply regCount_fits; [exact Hr|lia]|].
  pose proof (regCount_spec _ _ _ _ _ _ _ _ _ HS).
  destruct (IH w1 v1 Hr1 Hok) as (xs & w2 & v2 & E2 & Hr2 & R2 & HR); [lia|]. exists (x :: xs), w2, v2. cbn [execCalls]. rewrite E1. cbn. rewrite E2.
  unfold rest in R1, R2 |- *. cbn in *. injection R1 as F1 F2 F3 F4 F5 F6. rewrite F3, F4 in HR.
  split_and!; [done..| |by econstructor]. rewrite R2. congruence.
Qed.

(** C6: the discovery manager refines its specification.  From a successful
    [DiscMgrInit], take fewer than 2^32 calls of its entry points, with
    whatever locks and allocations failing in each, whose arguments are as
    [opOk] says: a name to be registered lies in at least [PKG_NAME_SIZE_MAX]
    readable bytes and capability data are terminated (without that the code
    reads beyond the buffer, [short_buffer_overread] and
    [unterminated_data_overread]).  They all end: none touches freed memory, a
    null pointer or bytes beyond a buffer.  The locks are given back, and the
    answers, the registrations by package and id, the callbacks and the calls
    the media see are those of [Spec]; a call answers with an error of the
    system, one its kind of request has, only when a lock or an allocation
    of that call fails, and then changes nothing. *)
Theorem disc_manager_refines (sysOk : nat -> bool) (calls : list ((nat -> bool) * Op)) (w0 w : World S) : g_isInited w0 = false ->
  DiscMgrInit media sysOk w0 = Some (SOFTBUS_OK, w) -> Forall (opOk ∘ snd) calls -> Z.of_nat (length calls) < 2 ^ 32 ->
  exists xs w' v', execCalls calls w = Some (xs, w') /\ rep w' v' /\ rest w' = rest (setMedium (medium w') w) /\
    SpecCalls (g_discCoapInterface w) (g_discBleInterface w) (MkAbs ∅ ∅ ∅) (medium w) calls xs (abs v') (medium w').
Proof.
  intros Hi Hinit Hok Hn. destruct (wp_inv _ _ _ _ _ (init_rep media sysOk w0 Hi) Hinit eq_refl) as [Hr _].
  exact (execCalls_post calls w noView Hr Hok Hn).
Qed.

End Calls.

(** ** A medium that keeps a log *)

(** Its state is the list of the operations called, by number; it answers
    [answer]. *)
Definition logItf (answer : Z) : DiscoveryFuncInterface (list Z) := {|
  Publish _ m := (answer, m ++ [1]);
  StartScan _ m := (answer, m ++ [2]);
  Unpublish _ m := (answer, m ++ [3]);
  StopScan _ m := (answer, m ++ [4]);
  StartAdvertise _ m := (answer, m ++ [5]);
  Subscribe _ m := (answer, m ++ [6]);
  Unsubscribe _ m := (answer, m ++ [7]);
  StopAdvertise _ m := (answer, m ++ [8]);
  LinkStatusChanged _ m := m ++ [9];
  UpdateLocalDeviceInfo := None;
|}.

Definition logMedia (answer : Z) : Media (list Z) := {|
  DiscCoapInit m := (Some (logItf answer), m);
  DiscBleInit m := (None, m);
  DiscCoapDeinit m := m;
  DiscBleDeinit m := m;
|}.

Definition works : nat -> bool := fun _ => true.

Definition blank : World (list Z) := MkWorld false None None 0 0 None None [] ∅ ∅ 0 true 0 [] [].

Definition started (answer : Z) : World (list Z) :=
  match DiscMgrInit (logMedia answer) works blank with Some (_, w) => w | None => blank end.

Definition aSubscription : SubscribeInfo := MkSubscribeInfo 5 DISCOVER_MODE_PASSIVE COAP LOW false false "hicall" None 0.
Definition aPublication : PublishInfo := MkPublishInfo 6 DISCOVER_MODE_ACTIVE AUTO LOW "dvKit" (Some [104; 105; 0]) 2 false.
Definition aClient : CString := MkCString "com.example" 65.

Definition someOps : list Op :=
  [OpSetDiscoverCallback MODULE_LNN (Some (Some 7)); OpSubscribe MODULE_LNN (Some aSubscription);
   OpPublishService (Some aClient) (Some aPublication); OpStartDiscovery (Some aClient) (Some aSubscription) (Some (Some 1));
   OpStartDiscovery (Some aClient) (Some aSubscription) (Some (Some 1)); OpUnPublishService (Some aClient) 6; OpStopDiscovery (Some aClient) 9].

(** What the calls answer and what the medium saw. *)
Example someOps_run : (fun '(xs, w) => (xs, medium w)) <$> execs works someOps (started 0) =
  Some ([0; 0; 0; 0; SOFTBUS_DISCOVER_MANAGER_DUPLICATE_PARAM; 0; SOFTBUS_DISCOVER_MANAGER_INFO_NOT_DELETE], [6; 1; 6; 3]).
Proof. vm_compute. reflexivity. Qed.

Lemma aSubscription_ok : dataOk (subData aSubscription) (subDataLen aSubscription).
Proof. split; [vm_compute; congruence|exact I]. Defined.

Lemma aPublication_ok : dataOk (pubData aPublication) (pubDataLen aPublication).
Proof. split; [vm_compute; congruence|]. split; [by exists 2|vm_compute; congruence]. Defined.

(** The calls above, the second publication of which finds no memory. *)
Definition someCalls : list ((nat -> bool) * Op) :=
  (pair works <$> someOps) ++ [(fun _ => false, OpPublishService (Some aClient) (Some aPublication))].

Example someCalls_run : (fun '(xs, w) => (xs, medium w)) <$> execCalls someCalls (started 0) =
  Some ([0; 0; 0; 0; SOFTBUS_DISCOVER_MANAGER_DUPLICATE_PARAM; 0; SOFTBUS_DISCOVER_MANAGER_INFO_NOT_DELETE;
         SOFTBUS_DISCOVER_MANAGER_INFO_NOT_CREATE], [6; 1; 6; 3]).
Proof. vm_compute. reflexivity. Qed.

Lemma disc_manager_refines_witness : exists xs w' v', execCalls someCalls (started 0) = Some (xs, w') /\ rep w' v' /\
  rest w' = rest (setMedium (medium w') (started 0)) /\
  SpecCalls (g_discCoapInterface (started 0)) (g_discBleInterface (started 0)) (MkAbs ∅ ∅ ∅) (medium (started 0))
    someCalls xs (abs v') (medium w').
Proof.
  apply (disc_manager_refines (logMedia 0) works someCalls blank (started 0)).
  - reflexivity.
  - reflexivity.
  - repeat (apply Forall_cons; split); try apply Forall_nil; try exact I; try exact aSubscription_ok;
      (split; [vm_compute; congruence|first [exact aSubscription_ok|exact aPublication_ok]]).
  - vm_compute. reflexivity.
Defined.

(** A client with a subscription and a publication. *)
Definition busy (answer : Z) : World (list Z) :=
  match execs works [OpStartDiscovery (Some aClient) (Some aSubscription) (Some (Some 1));
                     OpPublishService (Some aClient) (Some aPublication)] (started answer)
  with Some (_, w) => w | None => blank end.

Definition busySub : Registration := MkReg 5 DISCOVER_MODE_PASSIVE COAP
  (subscribeOption (MkSubscribeOption LOW false false 1 (padded None 0) 0)).
Definition busyPub : Registration := MkReg 6 DISCOVER_MODE_ACTIVE AUTO
  (publishOption (MkPublishOption LOW 32 (padded (Some [104; 105; 0]) 2) 2 false)).

Definition busyView : View := fun k =>
  match k with
  | PubList => [MkPkg 5 "com.example" None [(3%nat, busyPub)]]
  | DiscList => [MkPkg 2 "com.example" (Some 1) [(0%nat, busySub)]]
  end.

Lemma busyView_mem k p : p ∈ busyView k -> p = match k with
  | PubList => MkPkg 5 "com.example" None [(3%nat, busyPub)] | DiscList => MkPkg 2 "com.example" (Some 1) [(0%nat, busySub)] end.
Proof. destruct k; intros H; by apply list_elem_of_singleton in H. Qed.

Lemma busy_rep : rep (busy 0) busyView.
Proof.
  split; try (intros k p Hp; apply busyView_mem in Hp; subst p).
  - vm_compute. reflexivity.
  - intros []; vm_compute; reflexivity.
  - destruct k; vm_compute; reflexivity.
  - destruct k; intros a r Hr; apply list_elem_of_singleton in Hr; injection Hr as -> ->; vm_compute; reflexivity.
  - intros []; apply NoDup_singleton.
  - intros k k' p p' Hp Hp'. apply busyView_mem in Hp, Hp'. subst. by destruct k, k'.
  - intros []; apply NoDup_singleton.
  - destruct k; apply NoDup_singleton.
  - destruct k; apply NoDup_singleton.
  - destruct k; done.
  - destruct k; intros a r Hr; apply list_elem_of_singleton in Hr; injection Hr as -> ->; by eexists.
  - assert (g_capabilityList (busy 0) = [0%nat] :: replicate 7 []) as -> by (vm_compute; reflexivity). split; [done|].
    intros [|b] nodes Hb; cbn in Hb.
    + injection Hb as <-. split; [apply NoDup_singleton|]. intros a. rewrite list_elem_of_singleton. split.
      * intros ->. exists (MkPkg 2 "com.example" (Some 1) [(0%nat, busySub)]), busySub. split_and!; [by left|by left|by vm_compute].
      * intros (p & r & Hp & Ha & _). apply busyView_mem in Hp. subst p. apply list_elem_of_singleton in Ha. by injection Ha.
    + change (replicate 7 ([] : list nat) !! b = Some nodes) in Hb. apply lookup_replicate in Hb as [-> _]. split; [constructor|]. intros a. split; [set_solver|].
      intros (p & r & Hp & Ha & Hc). apply busyView_mem in Hp. subst p. apply list_elem_of_singleton in Ha. injection Ha as -> ->.
      vm_compute in Hc. discriminate.
  - destruct k; vm_compute; reflexivity.
  - assert (next (busy 0) = 6%nat) as -> by (vm_compute; reflexivity). destruct k; (split; [cbn [va]; lia|]); (constructor; [cbn; lia|constructor]).
Qed.

Definition aDevice : DeviceInfo := MkDeviceInfo 42 33.

Lemma disc_found_exact_witness : exists w' L, DiscOnDeviceFound works aDevice (busy 0) = Some (tt, w') /\ rep w' busyView /\
  L ≡ₚ filter (fun x => wanted aDevice x.2) (map_to_list (subs (abs busyView))) /\
  rest w' = rest (addNotes (L ≫= fun x => notify (cbs (abs busyView)) (g_isCallLnn (busy 0)) aDevice x.1.1) (busy 0)).
Proof.
  apply (disc_found_exact works aDevice (busy 0) busyView busy_rep).
  - intros n i [r Hr] _. apply (table_lookup (busy 0) busyView DiscList n i r busy_rep) in Hr as (p & a & Hp & <- & _).
    apply busyView_mem in Hp. subst p. exists 1. vm_compute. reflexivity.
  - reflexivity.
Defined.

(** One call, to the client. *)
Example busy_found : (fun '(_, w) => notes w) <$> DiscOnDeviceFound works aDevice (busy 0) =
  Some [ServerDeviceFound 1 "com.example" aDevice].
Proof. vm_compute. reflexivity. Qed.

Lemma disc_death_cleanup_witness : exists w' v', DiscMgrDeathCallback works (Some "com.example"%string) (busy 0) = Some (tt, w') /\
  rep w' v' /\ rest w' = rest (setMedium (medium w') (busy 0)) /\
  pubs (abs v') = filter (fun x => x.1.1 <> "com.example"%string) (pubs (abs busyView)) /\
  subs (abs v') = filter (fun x => x.1.1 <> "com.example"%string) (subs (abs busyView)) /\
  (forall n', n' <> "com.example"%string -> cbs (abs v') !! n' = cbs (abs busyView) !! n').
Proof. apply (disc_death_cleanup works "com.example" (busy 0) busyView busy_rep). reflexivity. Defined.

(** ** Where the code goes wrong *)

(** The callback a module has set goes with its last subscription: the next
    subscription of the module is never told of a device. *)
Lemma module_callback_lost :
  let ops := [OpSetDiscoverCallback MODULE_LNN (Some (Some 7)); OpSubscribe MODULE_LNN (Some aSubscription);
              OpStopAdvertise MODULE_LNN 5; OpSubscribe MODULE_LNN (Some aSubscription)] in
  (fun '(xs, w) => xs) <$> execs works ops (started 0) = Some [0; 0; 0; 0] /\
  ('(_, w) ← execs works ops (started 0); (fun '(_, w) => notes w) <$> DiscOnDeviceFound works aDevice w) = Some [] /\
  ('(_, w) ← execs works (take 2 ops) (started 0); (fun '(_, w) => notes w) <$> DiscOnDeviceFound works aDevice w) =
    Some [InnerDeviceFoundCall 7 aDevice].
Proof. split_and!; vm_compute; reflexivity. Qed.

(** A client that calls itself as a module does takes over the callback of
    the module; the client's callback is then called as one of a module, with
    other arguments. *)
Lemma client_named_as_module :
  ('(_, w) ← execs works [OpSetDiscoverCallback MODULE_LNN (Some (Some 7)); OpSubscribe MODULE_LNN (Some aSubscription);
      OpStartDiscovery (Some (MkCString "MODULE_LNN" 65))
        (Some (MkSubscribeInfo 9 DISCOVER_MODE_PASSIVE COAP LOW false false "profile" None 0)) (Some g_discInnerCb)] (started 0);
   (fun '(_, w) => notes w) <$> DiscOnDeviceFound works aDevice w) = Some [InnerDeviceFoundCall 1 aDevice].
Proof. vm_compute. reflexivity. Qed.

(** A name in a buffer of its own length is read beyond its end when its
    package is registered first, though it is short enough. *)
Lemma short_buffer_overread :
  DiscPublishService works (Some (MkCString "com.example" 12)) (Some aPublication) (started 0) = None /\
  longName (MkCString "com.example" 12) = false.
Proof. split; vm_compute; reflexivity. Qed.

(** So is capability data without a terminator, though its length is given. *)
Lemma unterminated_data_overread :
  DiscPublishService works (Some aClient) (Some (MkPublishInfo 6 DISCOVER_MODE_ACTIVE AUTO LOW "dvKit" (Some [104; 105]) 2 false)) (started 0) = None.
Proof. vm_compute. reflexivity. Qed.

(** Between adding a registration and the answer of the medium the lock is
    free.  When another thread withdraws the registration there and the
    medium refuses, the rollback uses memory that was freed. *)
Lemma publish_unpublish_race :
  ('(a, w) ← CreateNewPublishInfoNode works aPublication (started 0);
   a ← a;
   '(r, w) ← AddInfoToList works PubList aClient None a PUBLISH_SERVICE w;
   '(r', w) ← DiscUnPublishService works (Some aClient) 6 w;
   Some (r, r', rollback a PUBLISH_SERVICE w)) = Some (SOFTBUS_OK, SOFTBUS_OK, None).
Proof. vm_compute. reflexivity. Qed.

(** Without memory for the list of ids, the cleanup returns with the lock. *)
Lemma cleanup_keeps_lock :
  (fun '(_, w) => publishLock w) <$> DiscMgrInfoListDeinit (fun n => (n <? 1)%nat) PubList PUBLISH_SERVICE None (setLocks 0 0 (
    MkWorld true (Some (Utils.MkSoftBusList 0 [])) (Some (Utils.MkSoftBusList 0 [])) 0 0 None None [] ∅ ∅ 0 true 0 [] [] : World (list Z))) = Some 1%nat.
Proof. vm_compute. reflexivity. Qed.

(** A publication whose withdrawal the medium refuses is gone from the table
    but its info is never freed. *)
Lemma refused_unpublish_leaks :
  ('(x, w) ← DiscUnPublishService works (Some aClient) 6
      (setInterfaces (Some (logItf 1)) None (busy 0));
   Some (x, infos w !! 3%nat, Utils.list <$> g_publishInfoList w)) =
  Some (SOFTBUS_DISCOVER_MANAGER_INNERFUNCTION_FAIL, Some (MkInfo busyPub (Some 5%nat)), Some []).
Proof. vm_compute. reflexivity. Qed.

End DiscManager.
