(* ===== verification/ConnManager.v ===== *)
(** * The connection manager

    Models [core/connection/manager/softbus_conn_manager.c]: the table of the
    modules that listen to connections, the dispatch of what happens on a
    connection to them, the request numbers, and the calls that go to the
    medium of a connection (record [ConnectFuncInterface], as in the code).

    A listener may register and unregister modules while it is called
    ([react]).  [conn_listeners_refine] says that the table is a finite map
    and that every event reaches exactly the modules of the map, whatever the
    listeners do; [conn_request_ids] says which numbers requests get.
    [conn_post_delivers] follows the frames of [ConnPostBytes] over the
    stream of [BrTrans] to the listeners of the other end. *)

From S2P Require Import Prelude Errno Bytes Adapter Utils BrTrans.
Import Errno Bytes Adapter.Mem Adapter.ByteOrder.
Import BrTrans.BrTrans.

Module ConnManager.

(** ** Modules and types *)

Definition MODULE_TRUST_ENGINE : Z := 1.
Definition MODULE_HICHAIN : Z := 2.
Definition MODULE_AUTH_SDK : Z := 3.
Definition MODULE_AUTH_CONNECTION : Z := 5.
Definition MODULE_MESSAGE_SERVICE : Z := 8.
Definition MODULE_AUTH_CHANNEL : Z := 8.
Definition MODULE_AUTH_MSG : Z := 9.
Definition MODULE_BLUETOOTH_MANAGER : Z := 9.
Definition MODULE_DIRECT_CHANNEL : Z := 12.
Definition MODULE_PROXY_CHANNEL : Z := 13.
Definition MODULE_DEVICE_AUTH : Z := 14.
Definition MODULE_P2P_LINK : Z := 15.
Definition MODULE_P2P_LISTEN : Z := 16.
Definition MODULE_UDP_INFO : Z := 17.
Definition MODULE_TIME_SYNC : Z := 18.
Definition MODULE_PKG_VERIFY : Z := 20.
Definition MODULE_BLE_NET : Z := 100.
Definition MODULE_BLE_CONN : Z := 101.

Definition CONNECT_TCP : Z := 1.
Definition CONNECT_BR : Z := 2.
Definition CONNECT_BLE : Z := 3.
Definition CONNECT_P2P : Z := 4.
Definition CONNECT_TYPE_MAX : Z := 5.
Definition CONNECT_TYPE_SHIFT : Z := 16.

Definition moduleIds : list Z :=
  [MODULE_TRUST_ENGINE; MODULE_HICHAIN; MODULE_AUTH_SDK; MODULE_AUTH_CONNECTION; MODULE_MESSAGE_SERVICE;
   MODULE_AUTH_CHANNEL; MODULE_AUTH_MSG; MODULE_BLUETOOTH_MANAGER; MODULE_CONNECTION; MODULE_DIRECT_CHANNEL;
   MODULE_PROXY_CHANNEL; MODULE_DEVICE_AUTH; MODULE_P2P_LINK; MODULE_UDP_INFO; MODULE_PKG_VERIFY; MODULE_BLE_NET;
   MODULE_BLE_CONN].

Definition ModuleCheck (moduleId : Z) : Z :=
  if existsb (Z.eqb moduleId) moduleIds then SOFTBUS_OK else SOFTBUS_ERR.

(** The addresses of the other end, by medium. *)
Inductive Peer :=
| BrPeer (brMac : bytes)
| BlePeer (bleMac deviceIdHash : bytes)
| SocketPeer (addr : bytes) (port : Z).

Record ConnectionInfo := MkInfo { isAvailable : Z; isServer : Z; itype : Z; ipeer : Peer }.
Record ConnectOption := MkOption { otype : Z; opeer : Peer; sideType : Z }.
Record LocalListenerInfo := MkListener { ltype : Z; laddr : bytes; lport : Z; lmodule : Z }.

(** What a module wants to send; a missing buffer is NULL. *)
Record ConnPostData := MkPost { pmodule : Z; pseq : Z; pflag : Z; ppid : Z; plen : Z; pbuf : option bytes }.

Section Manager.

(** [Fn]: function pointers of the clients; [S]: the state of the media. *)
Context {Fn S : Type}.

Record ConnectCallback := MkCallback {
  OnConnected : option Fn; OnDisconnected : option Fn; OnDataReceived : option Fn }.

Record ConnectResult := MkResult { OnConnectSuccessed : option Fn; OnConnectFailed : option Fn }.

Record ConnListenerNode := MkListenerNode { moduleId : Z; callback : ConnectCallback }.

(** The operations of a medium; a missing one is NULL. *)
Record ConnectFuncInterface := MkMedium {
  ConnectDevice : option (ConnectOption -> Z -> option ConnectResult -> S -> Z * S);
  PostBytes : option (Z -> bytes -> Z -> Z -> Z -> S -> Z * S);
  DisconnectDevice : option (Z -> S -> Z * S);
  DisconnectDeviceNow : option (ConnectOption -> S -> Z * S);
  GetConnectionInfo : option (Z -> S -> Z * option ConnectionInfo * S);
  StartLocalListening : option (LocalListenerInfo -> S -> Z * S);
  StopLocalListening : option (LocalListenerInfo -> S -> Z * S);
  MCheckActiveConnection : option (ConnectOption -> S -> bool * S) }.

(** The static variables of the file. *)
Record Manager := MkManager {
  g_connManager : list (option ConnectFuncInterface);
  g_listenerList : option (Utils.SoftBusList ConnListenerNode);
  g_isInited : bool;
  reqId : Z;
  media : S }.

Definition setListeners (l : option (Utils.SoftBusList ConnListenerNode)) (m : Manager) : Manager :=
  MkManager (g_connManager m) l (g_isInited m) (reqId m) (media m).

Definition setMedia (s : S) (m : Manager) : Manager :=
  MkManager (g_connManager m) (g_listenerList m) (g_isInited m) (reqId m) s.

(** A call of a listener. *)
Inductive Call :=
| Connected (f : Fn) (connectionId : Z) (info : ConnectionInfo)
| Disconnected (f : Fn) (connectionId : Z) (info : ConnectionInfo)
| DataReceived (f : Fn) (connectionId moduleId seq : Z) (pkt : bytes) (pktLen : Z).

(** ** The table of listeners

    [lock] and [mem]: whether the mutex is obtained and the system has the
    memory. *)

Definition SIZEOF_ConnListenerNode : Z := 48.

(** The copy of the list into an array of [size] nodes. *)
Fixpoint copyNodes (size cnt : Z) (nodes : list ConnListenerNode) : option (list ConnListenerNode) :=
  match nodes with
  | [] => Some []
  | n :: rest => if cnt <? size then r ← copyNodes size (cnt + 1) rest; Some (n :: r) else None
  end.

(** The number of nodes and the array, none for NULL. *)
Definition GetAllListener (lock mem : bool) (m : Manager) : option (Z * option (list ConnListenerNode)) :=
  match g_listenerList m with
  | None => Some (0, None)
  | Some l =>
      if Utils.cnt l =? 0 then Some (0, None)
      else if negb lock then Some (0, None)
      else if negb (SoftBusCalloc mem (u32 (Utils.cnt l * SIZEOF_ConnListenerNode))) then Some (0, None)
      else
        nodes ← copyNodes (Utils.cnt l) 0 (Utils.list l);
        Some (Z.of_nat (length (Utils.list l)), Some nodes)
  end.

Fixpoint findNode (id : Z) (nodes : list ConnListenerNode) : option ConnListenerNode :=
  match nodes with
  | [] => None
  | n :: rest => if moduleId n =? id then Some n else findNode id rest
  end.

Definition GetListenerByModuleId (lock : bool) (id : Z) (m : Manager) : Z * option ConnListenerNode :=
  match g_listenerList m with
  | None => (SOFTBUS_ERR, None)
  | Some l =>
      if negb lock then (SOFTBUS_ERR, None)
      else match findNode id (Utils.list l) with
           | Some n => (SOFTBUS_OK, Some n)
           | None => (SOFTBUS_ERR, None)
           end
  end.

Definition AddListener (lock mem : bool) (id : Z) (cb : ConnectCallback) (m : Manager) : Z * Manager :=
  match g_listenerList m with
  | None => (SOFTBUS_ERR, m)
  | Some l =>
      if negb lock then (SOFTBUS_ERR, m)
      else match findNode id (Utils.list l) with
           | Some _ => (SOFTBUS_ERR, m)
           | None =>
               if negb (SoftBusCalloc mem SIZEOF_ConnListenerNode) then (SOFTBUS_ERR, m)
               else (SOFTBUS_OK, setListeners (Some (Utils.MkSoftBusList (Utils.cnt l + 1)
                       (MkListenerNode id cb :: Utils.list l))) m)
           end
  end.

(** The loop of [DelListener]: the first node of the module goes. *)
Fixpoint delNode (id : Z) (nodes : list ConnListenerNode) : option (list ConnListenerNode) :=
  match nodes with
  | [] => None
  | n :: rest => if moduleId n =? id then Some rest else r ← delNode id rest; Some (n :: r)
  end.

Definition DelListener (lock : bool) (id : Z) (m : Manager) : Manager :=
  match g_listenerList m with
  | None => m
  | Some l =>
      if negb lock then m
      else match delNode id (Utils.list l) with
           | Some nodes => setListeners (Some (Utils.MkSoftBusList (Utils.cnt l - 1) nodes)) m
           | None => m
           end
  end.

Definition ConnSetConnectCallback (lock mem : bool) (id : Z) (cb : option ConnectCallback) (m : Manager) : Z * Manager :=
  if negb (ModuleCheck id =? SOFTBUS_OK) then (SOFTBUS_INVALID_PARAM, m)
  else match cb with
  | None => (SOFTBUS_INVALID_PARAM, m)
  | Some (MkCallback None _ _) | Some (MkCallback _ None _) | Some (MkCallback _ _ None) => (SOFTBUS_INVALID_PARAM, m)
  | Some c => AddListener lock mem id c m
  end.

Definition ConnUnSetConnectCallback (lock : bool) (id : Z) (m : Manager) : Manager := DelListener lock id m.

(** ** What happens on a connection *)

(** What a listener does with the table when it is called. *)
Inductive Registration :=
| RSet (lock mem : bool) (id : Z) (cb : option ConnectCallback)
| RUnSet (lock : bool) (id : Z).

Context (react : Call -> list Registration).

Definition register (m : Manager) (r : Registration) : Manager :=
  match r with
  | RSet lock mem id cb => (ConnSetConnectCallback lock mem id cb m).2
  | RUnSet lock id => ConnUnSetConnectCallback lock id m
  end.

Definition invoke (c : Call) (m : Manager) : Manager := foldl register m (react c).

Definition ConnGetHeadSize : Z := HEAD_SIZE.

Definition REQID_MAX : Z := 1000000.

Definition ConnGetNewRequestId (m : Manager) : Z * Manager :=
  let r := u32 (reqId m + 1) in
  let r' := u32 (r mod REQID_MAX + 1) in
  (r', MkManager (g_connManager m) (g_listenerList m) (g_isInited m) r' (media m)).

(** A call through a null pointer has no result.  The packet is what follows
    the head in the buffer, with the length the listener is told. *)
Definition ConnManagerRecvData (lock : bool) (connectionId id seq : Z) (data : option bytes) (len : Z) (m : Manager)
  : option (Manager * list Call) :=
  match data with
  | None => Some (m, [])
  | Some b =>
      if len <=? HEAD_SIZE then Some (m, [])
      else
        let '(ret, listener) := GetListenerByModuleId lock id m in
        if ret =? SOFTBUS_ERR then Some (m, [])
        else
          n ← listener;
          f ← OnDataReceived (callback n);
          let c := DataReceived f connectionId id seq (drop (Z.to_nat HEAD_SIZE) b) (len - HEAD_SIZE) in
          Some (invoke c m, [c])
  end.

Fixpoint notifyLoop (mk : ConnectCallback -> option Call) (nodes : list ConnListenerNode) (m : Manager)
  : option (Manager * list Call) :=
  match nodes with
  | [] => Some (m, [])
  | n :: rest =>
      c ← mk (callback n);
      '(m', cs) ← notifyLoop mk rest (invoke c m);
      Some (m', c :: cs)
  end.

Definition ConnManagerConnected (lock mem : bool) (connectionId : Z) (info : ConnectionInfo) (m : Manager)
  : option (Manager * list Call) :=
  '(num, node) ← GetAllListener lock mem m;
  match node with
  | None => Some (m, [])
  | Some nodes =>
      if num =? 0 then Some (m, [])
      else notifyLoop (fun cb => f ← OnConnected cb; Some (Connected f connectionId info)) (take (Z.to_nat num) nodes) m
  end.

Definition ConnManagerDisconnected (lock mem : bool) (connectionId : Z) (info : ConnectionInfo) (m : Manager)
  : option (Manager * list Call) :=
  '(num, node) ← GetAllListener lock mem m;
  match node with
  | None => Some (m, [])
  | Some nodes =>
      if num =? 0 then Some (m, [])
      else notifyLoop (fun cb => f ← OnDisconnected cb; Some (Disconnected f connectionId info)) (take (Z.to_nat num) nodes) m
  end.

(** ** Calls that go to a medium *)

(** The type is unsigned. *)
Definition ConnTypeCheck (type : Z) (m : Manager) : option Z :=
  if CONNECT_TYPE_MAX <=? type then Some SOFTBUS_CONN_INVALID_CONN_TYPE
  else
    slot ← g_connManager m !! Z.to_nat type;
    match slot with
    | None => Some SOFTBUS_CONN_MANAGER_OP_NOT_SUPPORT
    | Some _ => Some SOFTBUS_OK
    end.

Definition ConnTypeIsSupport (type : Z) (m : Manager) : option Z := ConnTypeCheck type m.

(** The medium of a type, once the type was checked. *)
Definition medium (type : Z) (m : Manager) : option ConnectFuncInterface :=
  slot ← g_connManager m !! Z.to_nat type; slot.

(** The operation [op] of the medium of [type]: the check of the type, of the
    pointer, and the call. *)
Definition onMedium {A} (type : Z) (op : ConnectFuncInterface -> option (S -> A * S)) (unsupported : Z -> A) (m : Manager)
  : option (A * Manager) :=
  ret ← ConnTypeCheck type m;
  if negb (ret =? SOFTBUS_OK) then Some (unsupported SOFTBUS_CONN_MANAGER_TYPE_NOT_SUPPORT, m)
  else
    i ← medium type m;
    match op i with
    | None => Some (unsupported SOFTBUS_CONN_MANAGER_OP_NOT_SUPPORT, m)
    | Some f => let '(r, s) := f (media m) in Some (r, setMedia s m)
    end.

Definition ConnConnectDevice (info : option ConnectOption) (requestId : Z) (result : option ConnectResult) (m : Manager)
  : option (Z * Manager) :=
  match info with
  | None => Some (SOFTBUS_INVALID_PARAM, m)
  | Some o => onMedium (otype o) (fun i => f ← ConnectDevice i; Some (f o requestId result)) id m
  end.

Definition connType (connectionId : Z) : Z := Z.shiftr connectionId CONNECT_TYPE_SHIFT.

(** The code, and whether the buffer was released here. *)
Definition ConnPostBytes (little : bool) (connectionId : Z) (data : option ConnPostData) (m : Manager)
  : option (Z * bool * Manager) :=
  match data with
  | None => Some (SOFTBUS_INVALID_PARAM, false, m)
  | Some d =>
      match pbuf d with
      | None => Some (SOFTBUS_INVALID_PARAM, false, m)
      | Some buf =>
          if plen d <=? HEAD_SIZE then Some (SOFTBUS_CONN_MANAGER_PKT_LEN_INVALID, true, m)
          else
            let type := connType connectionId in
            ret ← ConnTypeCheck type m;
            if negb (ret =? SOFTBUS_OK) then Some (SOFTBUS_CONN_MANAGER_TYPE_NOT_SUPPORT, true, m)
            else
              i ← medium type m;
              match PostBytes i with
              | None => Some (SOFTBUS_CONN_MANAGER_OP_NOT_SUPPORT, true, m)
              | Some post =>
                  h ← PackConnPktHead little (MkHead (s32 MAGIC_NUMBER) (pmodule d) (pseq d) (pflag d) (u32 (plen d - HEAD_SIZE)));
                  b ← put buf 0 (headBytes little h);
                  let '(r, s) := post connectionId b (s32 (plen d)) (ppid d) (pflag d) (media m) in
                  Some (r, false, setMedia s m)
              end
      end
  end.

Definition ConnDisconnectDevice (connectionId : Z) (m : Manager) : option (Z * Manager) :=
  onMedium (connType connectionId) (fun i => f ← DisconnectDevice i; Some (f connectionId)) id m.

Definition ConnDisconnectDeviceAllConn (option : option ConnectOption) (m : Manager) : Datatypes.option (Z * Manager) :=
  match option with
  | None => Some (SOFTBUS_INVALID_PARAM, m)
  | Some o => onMedium (otype o) (fun i => f ← DisconnectDeviceNow i; Some (f o)) id m
  end.

Definition ConnGetConnectionInfo (connectionId : Z) (m : Manager) : option (Z * option ConnectionInfo * Manager) :=
  onMedium (connType connectionId) (fun i => f ← GetConnectionInfo i; Some (f connectionId)) (fun e => (e, None)) m.

Definition ConnStartLocalListening (info : option LocalListenerInfo) (m : Manager) : option (Z * Manager) :=
  match info with
  | None => Some (SOFTBUS_INVALID_PARAM, m)
  | Some l => onMedium (ltype l) (fun i => f ← StartLocalListening i; Some (f l)) id m
  end.

Definition ConnStopLocalListening (info : option LocalListenerInfo) (m : Manager) : option (Z * Manager) :=
  match info with
  | None => Some (SOFTBUS_INVALID_PARAM, m)
  | Some l => onMedium (ltype l) (fun i => f ← StopLocalListening i; Some (f l)) id m
  end.

Definition CheckActiveConnection (info : option ConnectOption) (m : Manager) : option (bool * Manager) :=
  match info with
  | None => Some (false, m)
  | Some o => onMedium (otype o) (fun i => f ← MCheckActiveConnection i; Some (f o)) (fun _ => false) m
  end.

(** ** Start and end *)

Definition setConn (type : Z) (i : ConnectFuncInterface) (m : Manager) : Manager :=
  MkManager (<[Z.to_nat type := Some i]> (g_connManager m)) (g_listenerList m) (g_isInited m) (reqId m) (media m).

(** What the media and the libraries answer: [ConnInitSockets],
    [InitBaseListener], the configuration, and the media that start. *)
Record Boot := MkBoot {
  sockets : Z; baseListener : Z; isSupportTcp : bool;
  initTcp : option ConnectFuncInterface; initBr : option ConnectFuncInterface; initBle : option ConnectFuncInterface;
  listMem : bool; listMutex : bool }.

Definition setIf (type : Z) (i : option ConnectFuncInterface) (m : Manager) : Manager :=
  match i with Some x => setConn type x m | None => m end.

Definition ConnServerInit (b : Boot) (m : Manager) : Z * Manager :=
  if g_isInited m then (SOFTBUS_ERR, m)
  else if negb (sockets b =? SOFTBUS_OK) then (sockets b, m)
  else if negb (baseListener b =? SOFTBUS_OK) then (baseListener b, m)
  else
    let m1 := if isSupportTcp b then setIf CONNECT_TCP (initTcp b) m else m in
    let m2 := setIf CONNECT_BR (initBr b) m1 in
    let m3 := setIf CONNECT_BLE (initBle b) m2 in
    let up l := MkManager (g_connManager m3) l true (reqId m3) (media m3) in
    match g_listenerList m3 with
    | Some l => (SOFTBUS_OK, up (Some l))
    | None =>
        match Utils.CreateSoftBusList (listMem b) (listMutex b) with
        | None => (SOFTBUS_ERR, m3)
        | Some l => (SOFTBUS_OK, up (Some l))
        end
    end.

Definition ConnServerDeinit (m : Manager) : Manager :=
  if negb (g_isInited m) then m
  else MkManager (g_connManager m) None false (reqId m) (media m).

(** The static variables before the first call. *)
Definition manager0 (s : S) : Manager := MkManager (replicate (Z.to_nat CONNECT_TYPE_MAX) None) None false 1 s.

End Manager.

#[global] Arguments ConnectCallback : clear implicits.
#[global] Arguments ConnectResult : clear implicits.
#[global] Arguments ConnListenerNode : clear implicits.
#[global] Arguments ConnectFuncInterface : clear implicits.
#[global] Arguments Manager : clear implicits.
#[global] Arguments Call : clear implicits.
#[global] Arguments Registration : clear implicits.
#[global] Arguments Boot : clear implicits.

(** ** Specification

    The listeners as a finite map from modules to callbacks, none before the
    start and after the end. *)

Section Spec.

Context {Fn S : Type}.

Abbreviation Table := (option (gmap Z (ConnectCallback Fn))).

(** A callback with all its functions. *)
Definition complete (cb : ConnectCallback Fn) : bool :=
  match cb with MkCallback (Some _) (Some _) (Some _) => true | _ => false end.

Definition specSet (lock mem : bool) (id : Z) (cb : option (ConnectCallback Fn)) (t : Table) : Z * Table :=
  match cb with
  | Some c =>
      if bool_decide (id ∈ moduleIds) && complete c then
        match t with
        | Some g =>
            if lock && mem && bool_decide (g !! id = None) then (SOFTBUS_OK, Some (<[id := c]> g)) else (SOFTBUS_ERR, t)
        | None => (SOFTBUS_ERR, t)
        end
      else (SOFTBUS_INVALID_PARAM, t)
  | None => (SOFTBUS_INVALID_PARAM, t)
  end.

Definition specUnSet (lock : bool) (id : Z) (t : Table) : Table := if lock then delete id <$> t else t.

Definition specInit (b : Boot Fn S) (t : Table) : Z * Table :=
  match t with
  | Some _ => (SOFTBUS_ERR, t)
  | None =>
      if negb (sockets b =? SOFTBUS_OK) then (sockets b, t)
      else if negb (baseListener b =? SOFTBUS_OK) then (baseListener b, t)
      else if listMem b && listMutex b then (SOFTBUS_OK, Some ∅) else (SOFTBUS_ERR, t)
  end.

Definition specRegister (t : Table) (r : Registration Fn) : Table :=
  match r with
  | RSet lock mem id cb => (specSet lock mem id cb t).2
  | RUnSet lock id => specUnSet lock id t
  end.

(** The calls of the users of the manager and of the media. *)
Inductive Op :=
| OInit (b : Boot Fn S)
| ODeinit
| OSet (lock mem : bool) (id : Z) (cb : option (ConnectCallback Fn))
| OUnSet (lock : bool) (id : Z)
| ORecv (lock : bool) (connectionId id seq : Z) (data : option bytes) (len : Z)
| OConnected (lock mem : bool) (connectionId : Z) (info : ConnectionInfo)
| ODisconnected (lock mem : bool) (connectionId : Z) (info : ConnectionInfo)
| ONewId
| OPost (connectionId : Z) (data : option ConnPostData)
| OConnect (info : option ConnectOption) (requestId : Z) (result : option (ConnectResult Fn))
| ODisconnect (connectionId : Z)
| ODisconnectAll (info : option ConnectOption)
| OInfo (connectionId : Z)
| OStart (info : option LocalListenerInfo)
| OStop (info : option LocalListenerInfo)
| OCheck (info : option ConnectOption).

Context (react : Call Fn -> list (Registration Fn)).

(** The codes of [OInit] and [OSet] are kept. *)
Definition exec (op : Op) (m : Manager Fn S) : option (Z * list (Call Fn) * Manager Fn S) :=
  match op with
  | OInit b => let '(r, m') := ConnServerInit b m in Some (r, [], m')
  | ODeinit => Some (0, [], ConnServerDeinit m)
  | OSet lock mem id cb => let '(r, m') := ConnSetConnectCallback lock mem id cb m in Some (r, [], m')
  | OUnSet lock id => Some (0, [], ConnUnSetConnectCallback lock id m)
  | ORecv lock connectionId id seq data len =>
      '(m', cs) ← ConnManagerRecvData react lock connectionId id seq data len m; Some (0, cs, m')
  | OConnected lock mem connectionId info =>
      '(m', cs) ← ConnManagerConnected react lock mem connectionId info m; Some (0, cs, m')
  | ODisconnected lock mem connectionId info =>
      '(m', cs) ← ConnManagerDisconnected react lock mem connectionId info m; Some (0, cs, m')
  | ONewId => Some (0, [], (ConnGetNewRequestId m).2)
  | OPost connectionId data => r ← ConnPostBytes true connectionId data m; Some (0, [], r.2)
  | OConnect info requestId result => r ← ConnConnectDevice info requestId result m; Some (0, [], r.2)
  | ODisconnect connectionId => r ← ConnDisconnectDevice connectionId m; Some (0, [], r.2)
  | ODisconnectAll info => r ← ConnDisconnectDeviceAllConn info m; Some (0, [], r.2)
  | OInfo connectionId => r ← ConnGetConnectionInfo connectionId m; Some (0, [], r.2)
  | OStart info => r ← ConnStartLocalListening info m; Some (0, [], r.2)
  | OStop info => r ← ConnStopLocalListening info m; Some (0, [], r.2)
  | OCheck info => r ← CheckActiveConnection info m; Some (0, [], r.2)
  end.

Fixpoint execAll (ops : list Op) (m : Manager Fn S) : option (list (Z * list (Call Fn)) * Manager Fn S) :=
  match ops with
  | [] => Some ([], m)
  | op :: rest =>
      '(r, cs, m1) ← exec op m;
      '(out, m2) ← execAll rest m1;
      Some ((r, cs) :: out, m2)
  end.

(** Everybody in the table, once each. *)
Definition everybody (t : Table) (mk : ConnectCallback Fn -> option (Call Fn)) (calls : list (Call Fn)) : Prop :=
  Some <$> calls ≡ₚ (fun kv => mk kv.2) <$> map_to_list (default ∅ t).

(** One call on the table: the code, whom it reaches, and the table after it
    and after what the listeners did. *)
Inductive SpecStep : Op -> Table -> Z * list (Call Fn) -> Table -> Prop :=
| SInit b t : SpecStep (OInit b) t ((specInit b t).1, []) (specInit b t).2
| SDeinit t : SpecStep ODeinit t (0, []) None
| SSet lock mem id cb t : SpecStep (OSet lock mem id cb) t ((specSet lock mem id cb t).1, []) (specSet lock mem id cb t).2
| SUnSet lock id t : SpecStep (OUnSet lock id) t (0, []) (specUnSet lock id t)
| SRecv lock connectionId id seq b len g cb f t' :
    lock = true -> HEAD_SIZE < len -> g !! id = Some cb -> OnDataReceived cb = Some f ->
    let c := DataReceived f connectionId id seq (drop 24 b) (len - HEAD_SIZE) in
    t' = foldl specRegister (Some g) (react c) -> SpecStep (ORecv lock connectionId id seq (Some b) len) (Some g) (0, [c]) t'
| SRecvNone lock connectionId id seq data len t :
    lock = false \/ data = None \/ len <= HEAD_SIZE \/ default ∅ t !! id = None ->
    SpecStep (ORecv lock connectionId id seq data len) t (0, []) t
| SConnected lock connectionId info t calls :
    lock = true -> everybody t (fun cb => f ← OnConnected cb; Some (Connected f connectionId info)) calls ->
    SpecStep (OConnected lock true connectionId info) t (0, calls) (foldl specRegister t (calls ≫= react))
| SConnectedNone lock mem connectionId info t :
    lock && mem = false -> SpecStep (OConnected lock mem connectionId info) t (0, []) t
| SDisconnected lock connectionId info t calls :
    lock = true -> everybody t (fun cb => f ← OnDisconnected cb; Some (Disconnected f connectionId info)) calls ->
    SpecStep (ODisconnected lock true connectionId info) t (0, calls) (foldl specRegister t (calls ≫= react))
| SDisconnectedNone lock mem connectionId info t :
    lock && mem = false -> SpecStep (ODisconnected lock mem connectionId info) t (0, []) t
| SOther op t :
    match op with
    | ONewId | OPost _ _ | OConnect _ _ _ | ODisconnect _ | ODisconnectAll _ | OInfo _ | OStart _ | OStop _ | OCheck _ => True
    | _ => False
    end -> SpecStep op t (0, []) t.

Inductive SpecRun : list Op -> Table -> list (Z * list (Call Fn)) -> Table -> Prop :=
| SpecNil t : SpecRun [] t [] t
| SpecCons op ops t r t1 out t2 : SpecStep op t r t1 -> SpecRun ops t1 out t2 -> SpecRun (op :: ops) t (r :: out) t2.

(** ** The table in memory *)

Definition entry (n : ConnListenerNode Fn) : Z * ConnectCallback Fn := (moduleId n, callback n).

Definition tableOf (m : Manager Fn S) : Table := (fun l => list_to_map (entry <$> Utils.list l)) <$> g_listenerList m.

Definition listenersOk (l : Utils.SoftBusList (ConnListenerNode Fn)) : Prop :=
  Utils.cnt l = Z.of_nat (length (Utils.list l)) /\ NoDup (moduleId <$> Utils.list l) /\
  Forall (fun n => moduleId n ∈ moduleIds /\ complete (callback n) = true) (Utils.list l).

Record managerOk (m : Manager Fn S) : Prop := {
  ok_conns : length (g_connManager m) = Z.to_nat CONNECT_TYPE_MAX;
  ok_listeners l : g_listenerList m = Some l -> listenersOk l;
  ok_inited : g_isInited m = bool_decide (is_Some (g_listenerList m)) }.

(** The arguments of a call are of their types, and a buffer is as long as it
    is said to be. *)
Definition opOk (op : Op) : Prop :=
  match op with
  | OPost c d => 0 <= c /\ forall x b, d = Some x -> pbuf x = Some b -> plen x <= len b
  | _ => True
  end.

(** ** The operations on the table *)

Lemma module_check id : ModuleCheck id =? SOFTBUS_OK = bool_decide (id ∈ moduleIds).
Proof.
  unfold ModuleCheck. destruct (existsb (Z.eqb id) moduleIds) eqn:E; symmetry.
  - apply existsb_exists in E as (x & Hx & ->%Z.eqb_eq). by apply bool_decide_eq_true_2, list_elem_of_In.
  - apply bool_decide_eq_false_2. intros Hin%list_elem_of_In.
    assert (existsb (Z.eqb id) moduleIds = true) by (apply existsb_exists; exists id; split; [done|apply Z.eqb_refl]). congruence.
Qed.

Lemma entry_keys (nodes : list (ConnListenerNode Fn)) : (entry <$> nodes).*1 = moduleId <$> nodes.
Proof. rewrite <- list_fmap_compose. by apply list_fmap_ext. Qed.

Lemma table_cons n (rest : list (ConnListenerNode Fn)) : list_to_map (entry <$> n :: rest) =
  <[moduleId n := callback n]> (list_to_map (entry <$> rest) : gmap Z (ConnectCallback Fn)).
Proof. reflexivity. Qed.

Lemma findNode_table id (nodes : list (ConnListenerNode Fn)) :
  callback <$> findNode id nodes = (list_to_map (entry <$> nodes) : gmap Z _) !! id.
Proof.
  induction nodes as [|n rest IH]; [done|]. rewrite table_cons. cbn [findNode].
  destruct (Z.eqb_spec (moduleId n) id) as [<-|Hne].
  - by rewrite lookup_insert_eq.
  - by rewrite IH, lookup_insert_ne by done.
Qed.

Lemma findNode_Some id (nodes : list (ConnListenerNode Fn)) n : findNode id nodes = Some n -> n ∈ nodes /\ moduleId n = id.
Proof.
  induction nodes as [|x rest IH]; [done|]. cbn [findNode]. destruct (Z.eqb_spec (moduleId x) id).
  - intros [= ->]. split; [left|done].
  - intros H. destruct (IH H). split; [by right|done].
Qed.

Lemma delNode_None id (nodes : list (ConnListenerNode Fn)) : delNode id nodes = None -> id ∉ moduleId <$> nodes.
Proof.
  induction nodes as [|x rest IH]; [intros _; inversion 1|]. cbn [delNode]. destruct (Z.eqb_spec (moduleId x) id); [done|].
  destruct (delNode id rest); [done|]. intros _. rewrite fmap_cons, not_elem_of_cons. split; [congruence|by apply IH].
Qed.

Lemma delNode_Some id (nodes nodes' : list (ConnListenerNode Fn)) : delNode id nodes = Some nodes' ->
  exists a n b, nodes = a ++ n :: b /\ nodes' = a ++ b /\ moduleId n = id.
Proof.
  revert nodes'. induction nodes as [|x rest IH]; [done|]. intros nodes'. cbn [delNode]. destruct (Z.eqb_spec (moduleId x) id).
  - intros [= <-]. by exists [], x, rest.
  - destruct (delNode id rest) as [r|]; [|done]. intros [= <-]. destruct (IH r eq_refl) as (a & n' & b & -> & -> & ?).
    by exists (x :: a), n', b.
Qed.

Lemma copyNodes_fit (nodes : list (ConnListenerNode Fn)) : forall size cnt, cnt + Z.of_nat (length nodes) <= size ->
  copyNodes size cnt nodes = Some nodes.
Proof.
  induction nodes as [|n rest IH]; intros size cnt H; [done|]. cbn [copyNodes length] in *.
  rewrite (proj2 (Z.ltb_lt _ _)) by lia. by rewrite IH by lia.
Qed.

(** At most one listener per module: the copy is always small. *)
Lemma listeners_few l : listenersOk l -> (length (Utils.list l) <= 17)%nat.
Proof.
  intros (_ & Hn & Hf). rewrite <- (length_fmap moduleId). change 17%nat with (length moduleIds).
  apply submseteq_length, NoDup_submseteq; [done|]. intros x (n & -> & Hin)%list_elem_of_fmap.
  by apply (proj1 (Forall_forall _ _) Hf).
Qed.

Lemma set_ok l (m : Manager Fn S) : managerOk m -> listenersOk l -> is_Some (g_listenerList m) ->
  managerOk (setListeners (Some l) m).
Proof.
  intros [Hc Hl Hi] H1 H2. split; cbn; [done|by intros ? [= <-]|]. rewrite Hi. by rewrite !bool_decide_true.
Qed.

Lemma tableOf_Some (m : Manager Fn S) l : g_listenerList m = Some l -> tableOf m = Some (list_to_map (entry <$> Utils.list l)).
Proof. unfold tableOf. by intros ->. Qed.

Lemma tableOf_None (m : Manager Fn S) : g_listenerList m = None -> tableOf m = None.
Proof. unfold tableOf. by intros ->. Qed.

Lemma set_spec lock mem id cb (m : Manager Fn S) : managerOk m ->
  (ConnSetConnectCallback lock mem id cb m).1 = (specSet lock mem id cb (tableOf m)).1 /\
  tableOf (ConnSetConnectCallback lock mem id cb m).2 = (specSet lock mem id cb (tableOf m)).2 /\
  managerOk (ConnSetConnectCallback lock mem id cb m).2.
Proof.
  intros Hm. unfold ConnSetConnectCallback, specSet. rewrite module_check. case_bool_decide as Hid; cbn [negb andb];
    [|by destruct cb].
  destruct cb as [[[f|] [g|] [h|]]|]; try done. cbn [complete].
  unfold AddListener. destruct (g_listenerList m) as [l|] eqn:El; [|cbn [fst snd]; by rewrite (tableOf_None m El)].
  rewrite (tableOf_Some m l El). destruct lock; cbn [negb andb]; [|cbn [fst snd]; by rewrite ?(tableOf_Some m l El)].
  rewrite <- findNode_table. destruct (findNode id (Utils.list l)) as [n|] eqn:Ef; cbn [fmap option_fmap option_map].
  { rewrite (bool_decide_eq_false_2 (Some _ = None)) by done. rewrite ?andb_false_r. cbn [fst snd]; by rewrite ?(tableOf_Some m l El). }
  rewrite bool_decide_eq_true_2 by done. rewrite andb_true_r. unfold SoftBusCalloc, SoftBusMalloc.
  change (MAX_MALLOC_SIZE <? SIZEOF_ConnListenerNode) with false. destruct mem; cbn [negb]; [|cbn [fst snd]; by rewrite ?(tableOf_Some m l El)].
  split; [done|]. split; [done|]. apply set_ok; [done| |by rewrite El]. destruct (ok_listeners m Hm l El) as (H1 & H2 & H3).
  split_and!; cbn [Utils.cnt Utils.list length]; [lia| |by constructor].
  rewrite fmap_cons. apply NoDup_cons. split; [|done]. intros (n & Hn & Hin)%list_elem_of_fmap. cbn in Hn.
  assert ((list_to_map (entry <$> Utils.list l) : gmap Z _) !! id = Some (callback n)) as E.
  { apply elem_of_list_to_map_1; [by rewrite entry_keys|]. apply list_elem_of_fmap. exists n. split; [by rewrite Hn|done]. }
  rewrite <- findNode_table, Ef in E. done.
Qed.

Lemma unset_spec lock id (m : Manager Fn S) : managerOk m ->
  tableOf (ConnUnSetConnectCallback lock id m) = specUnSet lock id (tableOf m) /\
  managerOk (ConnUnSetConnectCallback lock id m).
Proof.
  intros Hm. unfold ConnUnSetConnectCallback, DelListener, specUnSet.
  destruct (g_listenerList m) as [l|] eqn:El;
    [|rewrite (tableOf_None m El); by destruct lock].
  rewrite (tableOf_Some m l El). destruct lock; cbn [negb]; [|by rewrite (tableOf_Some m l El)].
  destruct (ok_listeners m Hm l El) as (H1 & H2 & H3). destruct (delNode id (Utils.list l)) as [nodes|] eqn:E.
  - apply delNode_Some in E as (a & n & b & Ea & -> & En). rewrite Ea in *. cbn [fmap option_fmap option_map].
    rewrite fmap_app, fmap_cons in H2. apply NoDup_app in H2 as (N1 & N2 & N3). apply NoDup_cons in N3 as [N3 N4].
    split; [|apply set_ok; [done| |by rewrite El]].
    + unfold tableOf, setListeners. cbn [g_listenerList fmap option_fmap option_map Utils.list]. f_equal.
      rewrite !fmap_app, !list_to_map_app, table_cons, En, delete_union, delete_insert_eq. f_equal.
      * rewrite delete_id; [done|]. apply not_elem_of_list_to_map_1. rewrite entry_keys. intros Hin. apply (N2 _ Hin). rewrite En. left.
      * rewrite delete_id; [done|]. apply not_elem_of_list_to_map_1. rewrite entry_keys. by rewrite <- En.
    + apply Forall_app in H3 as [? [_ ?]%Forall_cons]. rewrite length_app in H1. cbn [length] in H1.
      split_and!; cbn [Utils.cnt Utils.list]; [rewrite length_app; lia| |by apply Forall_app].
      rewrite fmap_app. apply NoDup_app. split_and!; [done| |done]. intros x Hx Hb. apply (N2 _ Hx). by right.
  - rewrite (tableOf_Some m l El). cbn [fmap option_fmap option_map]. split; [|done]. f_equal. symmetry.
    apply delete_id, not_elem_of_list_to_map_1. rewrite entry_keys. by apply delNode_None.
Qed.

(** What a listener does while it is called. *)
Lemma register_spec r (m : Manager Fn S) : managerOk m -> tableOf (register m r) = specRegister (tableOf m) r /\ managerOk (register m r).
Proof.
  intros Hm. destruct r as [lock mem id cb|lock id]; cbn [register specRegister].
  - destruct (set_spec lock mem id cb m Hm) as (_ & ? & ?). done.
  - by apply unset_spec.
Qed.

Lemma registers_spec rs : forall m : Manager Fn S, managerOk m ->
  tableOf (foldl register m rs) = foldl specRegister (tableOf m) rs /\ managerOk (foldl register m rs).
Proof.
  induction rs as [|r rs IH]; intros m Hm; [done|]. cbn [foldl]. destruct (register_spec r m Hm) as [<- H]. by apply IH.
Qed.

(** ** Dispatch *)

Lemma GetAllListener_spec lock mem (m : Manager Fn S) : managerOk m ->
  GetAllListener lock mem m = Some (match g_listenerList m with
    | Some l => if (Utils.cnt l =? 0) || negb (lock && mem) then (0, None) else (Utils.cnt l, Some (Utils.list l))
    | None => (0, None)
    end).
Proof.
  intros Hm. unfold GetAllListener. destruct (g_listenerList m) as [l|] eqn:El; [|done].
  pose proof (ok_listeners m Hm l El) as Hl. pose proof (listeners_few l Hl) as Hfew. destruct Hl as (Hc & _).
  destruct (Z.eqb_spec (Utils.cnt l) 0) as [|H0]; [done|]. destruct lock; [|done]. cbn [negb orb andb].
  unfold SoftBusCalloc, SoftBusMalloc, MAX_MALLOC_SIZE, SIZEOF_ConnListenerNode.
  rewrite wrapU_id by range. rewrite (proj2 (Z.ltb_ge _ _)) by lia. destruct mem; [|done]. cbn [negb].
  rewrite copyNodes_fit by lia. cbn [mbind option_bind]. by rewrite Hc.
Qed.

Lemma notifyLoop_spec (mk : ConnectCallback Fn -> option (Call Fn)) nodes : forall m : Manager Fn S, managerOk m ->
  Forall (fun n => is_Some (mk (callback n))) nodes ->
  exists m' calls, notifyLoop react mk nodes m = Some (m', calls) /\ managerOk m' /\
    Some <$> calls = (fun n => mk (callback n)) <$> nodes /\ tableOf m' = foldl specRegister (tableOf m) (calls ≫= react).
Proof.
  induction nodes as [|n rest IH]; intros m Hm Hf; [by exists m, []|].
  apply Forall_cons in Hf as [[c Hc] Hf]. cbn [notifyLoop]. rewrite Hc. cbn [mbind option_bind].
  destruct (registers_spec (react c) m Hm) as [Et Hm']. fold (invoke react c m) in Et, Hm'.
  destruct (IH _ Hm' Hf) as (m' & calls & -> & Hok & Ec & Et'). cbn [mbind option_bind].
  exists m', (c :: calls). split_and!; [done|done| |].
  - rewrite !fmap_cons. by rewrite Ec, Hc.
  - cbn [mbind list_bind]. by rewrite foldl_app, <- Et.
Qed.

Lemma everybody_table (mk : ConnectCallback Fn -> option (Call Fn)) l (m : Manager Fn S) calls : managerOk m -> g_listenerList m = Some l ->
  Some <$> calls = (fun n => mk (callback n)) <$> Utils.list l -> everybody (tableOf m) mk calls.
Proof.
  intros Hm El E. unfold everybody. rewrite E, (tableOf_Some m l El). cbn [default].
  destruct (ok_listeners m Hm l El) as (_ & Hn & _). 
  etransitivity; [|apply fmap_Permutation; symmetry; apply map_to_list_to_map; by rewrite entry_keys].
  by rewrite <- list_fmap_compose.
Qed.

(** Both kinds of notices: everybody is told, or nobody when the lock or the
    memory is missing. *)
Lemma notify_spec lock mem (mk : ConnectCallback Fn -> option (Call Fn)) (m : Manager Fn S) : managerOk m ->
  (forall cb, complete cb = true -> is_Some (mk cb)) ->
  exists m' calls, ('(num, node) ← GetAllListener lock mem m;
      match node with
      | None => Some (m, [])
      | Some nodes => if num =? 0 then Some (m, []) else notifyLoop react mk (take (Z.to_nat num) nodes) m
      end) = Some (m', calls) /\ managerOk m' /\
    (lock && mem = true /\ everybody (tableOf m) mk calls /\ tableOf m' = foldl specRegister (tableOf m) (calls ≫= react) \/
     lock && mem = false /\ calls = [] /\ m' = m).
Proof.
  intros Hm Hmk. rewrite (GetAllListener_spec lock mem m Hm). cbn [mbind option_bind].
  destruct (g_listenerList m) as [l|] eqn:El.
  - destruct (ok_listeners m Hm l El) as (Hc & _ & Hf). destruct (lock && mem); cbn [negb]; [|rewrite orb_true_r].
    + rewrite orb_false_r. destruct (Z.eqb_spec (Utils.cnt l) 0) as [H0|H0].
      * exists m, []. split_and!; [done|done|]. left. split_and!; [done| |done]. apply (everybody_table mk l m); [done|done|].
        rewrite Hc in H0. by destruct (Utils.list l).
      * rewrite (proj2 (Z.eqb_neq _ _) H0). rewrite take_ge by lia.
        destruct (notifyLoop_spec mk (Utils.list l) m Hm) as (m' & calls & E & Hok & Ec & Et).
        { eapply Forall_impl; [exact Hf|]. cbn. intros n [_ Hn]. by apply Hmk. }
        exists m', calls. split_and!; [done|done|]. left. split_and!; [done| |done]. by apply (everybody_table mk l m).
    + exists m, []. split_and!; [done|done|]. right. done.
  - exists m, []. split_and!; [done|done|]. destruct (lock && mem); [left|by right]. split_and!; [done| |done].
    unfold everybody. by rewrite (tableOf_None m El).
Qed.

Lemma recvData_spec lock connectionId id seq data len (m : Manager Fn S) : managerOk m ->
  exists m' calls, ConnManagerRecvData react lock connectionId id seq data len m = Some (m', calls) /\ managerOk m' /\
    SpecStep (ORecv lock connectionId id seq data len) (tableOf m) (0, calls) (tableOf m').
Proof.
  intros Hm. unfold ConnManagerRecvData. destruct data as [b|]; [|exists m, []; split_and!; [done..|apply SRecvNone; auto]].
  destruct (Z.leb_spec len HEAD_SIZE) as [Hl|Hl]; [exists m, []; split_and!; [done..|apply SRecvNone; auto]|].
  unfold GetListenerByModuleId. destruct (g_listenerList m) as [l|] eqn:El.
  2: { exists m, []. split_and!; [done..|]. apply SRecvNone. right; right; right. by rewrite (tableOf_None m El). }
  destruct lock; cbn [negb]; [|exists m, []; split_and!; [done..|apply SRecvNone; auto]].
  destruct (findNode id (Utils.list l)) as [n|] eqn:Ef.
  - cbn. pose proof (findNode_Some _ _ _ Ef) as [Hin Hid]. destruct (ok_listeners m Hm l El) as (_ & _ & Hf).
    destruct (proj1 (Forall_forall _ _) Hf n Hin) as [_ Hc].
    destruct (callback n) as [[?|] [?|] [f|]] eqn:Ecb; try discriminate Hc. cbn [mbind option_bind OnDataReceived].
    set (c := DataReceived f connectionId id seq (drop 24 b) (len - HEAD_SIZE)).
    destruct (registers_spec (react c) m Hm) as [Et Hm']. exists (invoke react c m), [c]. split_and!; [done|done|].
    rewrite (tableOf_Some m l El) in *.
    eapply SRecv; [done|done|by rewrite <- findNode_table, Ef; cbn; rewrite Ecb|done|exact Et].
  - exists m, []. split_and!; [done..|]. apply SRecvNone. right; right; right. rewrite (tableOf_Some m l El).
    transitivity (callback <$> findNode id (Utils.list l)); [symmetry; apply findNode_table|by rewrite Ef].
Qed.

(** ** Calls that go to a medium *)

Lemma type_spec type (m : Manager Fn S) : managerOk m ->
  exists r, ConnTypeCheck type m = Some r /\ (r = SOFTBUS_OK -> exists i, medium type m = Some i /\ type < CONNECT_TYPE_MAX).
Proof.
  intros Hm. unfold ConnTypeCheck, medium. destruct (Z.leb_spec CONNECT_TYPE_MAX type); [by exists SOFTBUS_CONN_INVALID_CONN_TYPE|].
  destruct (lookup_lt_is_Some_2 (g_connManager m) (Z.to_nat type)) as [slot Es].
  { rewrite (ok_conns m Hm). unfold CONNECT_TYPE_MAX in *. lia. }
  rewrite Es. cbn [mbind option_bind]. destruct slot as [i|]; [|by exists SOFTBUS_CONN_MANAGER_OP_NOT_SUPPORT].
  exists SOFTBUS_OK. split; [done|]. intros _. by exists i.
Qed.

Lemma setMedia_ok st (m : Manager Fn S) : managerOk m -> managerOk (setMedia st m) /\ tableOf (setMedia st m) = tableOf m.
Proof. intros [Hc Hl Hi]. done. Qed.

Lemma onMedium_spec {A} type (op : ConnectFuncInterface Fn S -> option (S -> A * S)) bad (m : Manager Fn S) : managerOk m ->
  exists r m', onMedium type op bad m = Some (r, m') /\ managerOk m' /\ tableOf m' = tableOf m.
Proof.
  intros Hm. unfold onMedium. destruct (type_spec type m Hm) as (r & -> & Hr). cbn [mbind option_bind].
  destruct (Z.eqb_spec r SOFTBUS_OK) as [E|]; cbn [negb]; [|by eexists _, m].
  destruct (Hr E) as (i & -> & _). cbn [mbind option_bind]. destruct (op i) as [f|]; [|by eexists _, m].
  destruct (f (media m)) as [x st]. destruct (setMedia_ok st m Hm). by eexists _, _.
Qed.

(** ** Frames *)

Lemma packHead_total h : is_u 32 (hlen h) -> is_Some (PackConnPktHead true h).
Proof.
  intros Hl. unfold PackConnPktHead, SoftBusHtoLl, SoftBusHtoLll.
  rewrite !(convert_wrap 4), (convert_wrap 8), (convert_little 4 (hlen h)) by done. by eexists.
Qed.

Lemma postBytes_total connectionId data (m : Manager Fn S) : managerOk m -> opOk (OPost connectionId data) ->
  exists r m', ConnPostBytes true connectionId data m = Some (r, m') /\ managerOk m' /\ tableOf m' = tableOf m.
Proof.
  intros Hm [_ Hd]. unfold ConnPostBytes. destruct data as [d|]; [|by eexists _, m].
  destruct (pbuf d) as [buf|] eqn:Eb; [|by eexists _, m]. specialize (Hd d buf eq_refl Eb).
  destruct (Z.leb_spec (plen d) HEAD_SIZE); [by eexists _, m|].
  destruct (type_spec (connType connectionId) m Hm) as (r & -> & Hr). cbn [mbind option_bind].
  destruct (Z.eqb_spec r SOFTBUS_OK) as [E|]; cbn [negb]; [|by eexists _, m].
  destruct (Hr E) as (i & -> & _). cbn [mbind option_bind]. destruct (PostBytes i) as [post|]; [|by eexists _, m].
  destruct (packHead_total (MkHead (s32 MAGIC_NUMBER) (pmodule d) (pseq d) (pflag d) (u32 (plen d - HEAD_SIZE)))) as [h ->].
  { apply wrapU_range. lia. }
  cbn [mbind option_bind]. rewrite put_zero by (rewrite len_headBytes; lia). cbn [mbind option_bind].
  destruct (post _ _ _ _ _ _) as [x st]. destruct (setMedia_ok st m Hm). by eexists _, _.
Qed.

(** What the module wants to send: the arguments are of their types and the
    buffer, which starts with room for the head, is as long as it is said. *)
Definition postOk (size : Z) (d : ConnPostData) (payload : bytes) : Prop :=
  is_s 32 (pmodule d) /\ is_s 64 (pseq d) /\ is_s 32 (pflag d) /\ is_bytes payload /\ payload <> [] /\
  HEAD_SIZE + len payload <= size /\ plen d = HEAD_SIZE + len payload /\
  exists room, pbuf d = Some (room ++ payload) /\ len room = HEAD_SIZE.

Definition postHead (d : ConnPostData) : ConnPktHead :=
  MkHead (s32 MAGIC_NUMBER) (pmodule d) (pseq d) (pflag d) (plen d - HEAD_SIZE).

Lemma postHead_ok size d payload : size < 2 ^ 31 -> postOk size d payload -> headOk (postHead d).
Proof.
  intros Hs (H1 & H2 & H3 & H4 & H5 & H6 & H7 & _). pose proof (len_nonneg payload). unfold HEAD_SIZE in *.
  split_and!; cbn [magic module hseq flag hlen postHead]; [apply wrapS_range; lia|done..|unfold HEAD_SIZE; range].
Qed.

(** The medium of the connection gets the frame, with its head in front of
    the payload. *)
Lemma post_frame size connectionId d payload (m : Manager Fn S) i post : size < 2 ^ 31 -> postOk size d payload ->
  connType connectionId < CONNECT_TYPE_MAX -> medium (connType connectionId) m = Some i -> PostBytes i = Some post ->
  ConnPostBytes true connectionId (Some d) m =
    let '(r, st) := post connectionId (headBytes true (postHead d) ++ payload) (plen d) (ppid d) (pflag d) (media m) in
    Some (r, false, setMedia st m).
Proof.
  intros Hs Hd Ht Hi Hp. pose proof (postHead_ok size d payload Hs Hd) as Hh.
  destruct Hd as (H1 & H2 & H3 & H4 & H5 & H6 & H7 & room & Eb & Hr).
  assert (0 < len payload) as Hpos by (destruct payload; [done|rewrite len_cons; pose proof (len_nonneg payload); lia]).
  unfold ConnPostBytes. rewrite Eb. rewrite (proj2 (Z.leb_gt _ _)) by lia.
  assert (ConnTypeCheck (connType connectionId) m = Some SOFTBUS_OK) as ->.
  { unfold ConnTypeCheck. rewrite (proj2 (Z.leb_gt _ _)) by done. unfold medium in Hi.
    destruct (g_connManager m !! Z.to_nat (connType connectionId)) as [[x|]|]; done. }
  cbn [mbind option_bind negb Z.eqb SOFTBUS_OK]. rewrite Hi. cbn [mbind option_bind]. rewrite Hp.
  unfold HEAD_SIZE in *. rewrite (wrapU_id 32 (plen d - 24)) by range. fold (postHead d). unfold postHead, HEAD_SIZE in Hh |- *.
  rewrite (pack_little _ Hh). cbn [mbind option_bind]. rewrite put_front by (rewrite len_headBytes; unfold HEAD_SIZE; lia).
  cbn [mbind option_bind]. rewrite (wrapS_id 32 (plen d)) by (lia || range). done.
Qed.

(** ** Every call *)

Lemma init_spec b (m : Manager Fn S) : managerOk m ->
  (ConnServerInit b m).1 = (specInit b (tableOf m)).1 /\ tableOf (ConnServerInit b m).2 = (specInit b (tableOf m)).2 /\
  managerOk (ConnServerInit b m).2.
Proof.
  intros Hm. unfold ConnServerInit, specInit. rewrite (ok_inited m Hm).
  destruct (g_listenerList m) as [l|] eqn:El; [rewrite bool_decide_eq_true_2 by done|rewrite bool_decide_eq_false_2 by (by intros [])].
  { rewrite (tableOf_Some m l El). cbn [fst snd]. by rewrite (tableOf_Some m l El). }
  rewrite (tableOf_None m El). destruct (sockets b =? SOFTBUS_OK); cbn [negb]; [|cbn [fst snd]; by rewrite (tableOf_None m El)].
  destruct (baseListener b =? SOFTBUS_OK); cbn [negb]; [|cbn [fst snd]; by rewrite (tableOf_None m El)].
  set (m3 := setIf CONNECT_BLE _ _).
  assert (length (g_connManager m3) = Z.to_nat CONNECT_TYPE_MAX /\ g_listenerList m3 = None /\ g_isInited m3 = g_isInited m) as (L1 & L2 & L3).
  { pose proof (ok_conns m Hm). unfold m3, setIf, setConn.
    destruct (isSupportTcp b), (initTcp b), (initBr b), (initBle b); cbn [g_connManager g_listenerList g_isInited];
      rewrite ?length_insert; done. }
  rewrite L2. unfold Utils.CreateSoftBusList. destruct (listMem b); cbn [negb andb].
  2: { cbn [fst snd]. rewrite (tableOf_None m3 L2). split_and!; [done..|]. split; [done|by rewrite L2|]. by rewrite L3, L2, (ok_inited m Hm), El. }
  destruct (listMutex b); cbn [negb fst snd].
  - split_and!; [done..|]. split; cbn; [done| |done]. intros ? [= <-]. split_and!; [done|constructor|constructor].
  - rewrite (tableOf_None m3 L2). split_and!; [done..|]. split; [done|by rewrite L2|]. by rewrite L3, L2, (ok_inited m Hm), El.
Qed.

Lemma deinit_spec (m : Manager Fn S) : managerOk m -> tableOf (ConnServerDeinit m) = None /\ managerOk (ConnServerDeinit m).
Proof.
  intros Hm. unfold ConnServerDeinit. destruct (g_isInited m) eqn:Ei; cbn [negb].
  - split; [done|]. split; cbn; [apply (ok_conns m Hm)|done|done].
  - split; [|done]. apply tableOf_None. pose proof (ok_inited m Hm) as H. rewrite Ei in H.
    destruct (g_listenerList m); [|done]. by rewrite bool_decide_eq_true_2 in H.
Qed.

Lemma newId_spec (m : Manager Fn S) : managerOk m -> managerOk (ConnGetNewRequestId m).2 /\ tableOf (ConnGetNewRequestId m).2 = tableOf m.
Proof. intros [Hc Hl Hi]. done. Qed.

Ltac onTheMedium Hm :=
  match goal with
  | |- context [onMedium ?t ?op ?bad ?m] =>
      destruct (onMedium_spec t op bad m Hm) as (r & m' & -> & Hok & Et); exists 0, [], m';
      split_and!; [reflexivity|exact Hok|]; rewrite Et; by apply SOther
  end.

Lemma exec_spec op (m : Manager Fn S) : managerOk m -> opOk op ->
  exists r calls m', exec op m = Some (r, calls, m') /\ managerOk m' /\ SpecStep op (tableOf m) (r, calls) (tableOf m').
Proof.
  intros Hm Ho. destruct op as [b| |lock mem id cb|lock id|lock c id seq data n|lock mem c info|lock mem c info| |c data|info q res|c|info|c|info|info|info];
    cbn [exec].
  - destruct (init_spec b m Hm) as (E1 & E2 & E3). destruct (ConnServerInit b m) as [r m']. cbn [fst snd] in *.
    exists r, [], m'. split_and!; [done..|]. rewrite E1, E2. apply SInit.
  - destruct (deinit_spec m Hm) as [E1 E2]. eexists _, _, _. split_and!; [done..|]. rewrite E1. apply SDeinit.
  - destruct (set_spec lock mem id cb m Hm) as (E1 & E2 & E3). destruct (ConnSetConnectCallback lock mem id cb m) as [r m']. cbn [fst snd] in *.
    exists r, [], m'. split_and!; [done..|]. rewrite E1, E2. apply SSet.
  - destruct (unset_spec lock id m Hm) as [E1 E2]. eexists _, _, _. split_and!; [done..|]. rewrite E1. apply SUnSet.
  - destruct (recvData_spec lock c id seq data n m Hm) as (m' & calls & -> & ? & ?). by exists 0, calls, m'.
  - unfold ConnManagerConnected.
    destruct (notify_spec lock mem (fun cb => f ← OnConnected cb; Some (Connected f c info)) m Hm) as (m' & calls & -> & Hok & Hs).
    { intros [[?|] [?|] [?|]]; cbn; try done. }
    exists 0, calls, m'. split_and!; [done..|]. destruct Hs as [(E & Ev & ->)|(E & -> & ->)]; [|by apply SConnectedNone].
    apply andb_true_iff in E as [-> ->]. by apply SConnected.
  - unfold ConnManagerDisconnected.
    destruct (notify_spec lock mem (fun cb => f ← OnDisconnected cb; Some (Disconnected f c info)) m Hm) as (m' & calls & -> & Hok & Hs).
    { intros [[?|] [?|] [?|]]; cbn; try done. }
    exists 0, calls, m'. split_and!; [done..|]. destruct Hs as [(E & Ev & ->)|(E & -> & ->)]; [|by apply SDisconnectedNone].
    apply andb_true_iff in E as [-> ->]. by apply SDisconnected.
  - destruct (newId_spec m Hm) as [E1 E2]. eexists _, _, _. split_and!; [done..|]. rewrite E2. by apply SOther.
  - destruct (postBytes_total c data m Hm Ho) as (r & m' & -> & Hok & Et). exists 0, [], m'. split_and!; [done..|]. rewrite Et. by apply SOther.
  - unfold ConnConnectDevice. destruct info as [o|]; [onTheMedium Hm|]. exists 0, [], m. split_and!; [done..|by apply SOther].
  - unfold ConnDisconnectDevice. onTheMedium Hm.
  - unfold ConnDisconnectDeviceAllConn. destruct info as [o|]; [onTheMedium Hm|]. exists 0, [], m. split_and!; [done..|by apply SOther].
  - unfold ConnGetConnectionInfo. onTheMedium Hm.
  - unfold ConnStartLocalListening. destruct info as [o|]; [onTheMedium Hm|]. exists 0, [], m. split_and!; [done..|by apply SOther].
  - unfold ConnStopLocalListening. destruct info as [o|]; [onTheMedium Hm|]. exists 0, [], m. split_and!; [done..|by apply SOther].
  - unfold CheckActiveConnection. destruct info as [o|]; [onTheMedium Hm|]. exists 0, [], m. split_and!; [done..|by apply SOther].
Qed.

Lemma execAll_spec ops : forall m : Manager Fn S, managerOk m -> Forall opOk ops ->
  exists out m', execAll ops m = Some (out, m') /\ managerOk m' /\ SpecRun ops (tableOf m) out (tableOf m').
Proof.
  induction ops as [|op ops IH]; intros m Hm Ho; [exists [], m; split_and!; [done..|apply SpecNil]|].
  apply Forall_cons in Ho as [Ho1 Ho]. destruct (exec_spec op m Hm Ho1) as (r & calls & m1 & E & Hm1 & Hs).
  destruct (IH m1 Hm1 Ho) as (out & m2 & E2 & Hm2 & Hr). exists ((r, calls) :: out), m2. cbn [execAll]. rewrite E. cbn [mbind option_bind].
  rewrite E2. split_and!; [done..|]. by eapply SpecCons.
Qed.

Lemma manager0_ok st : managerOk (manager0 (Fn := Fn) st).
Proof. by split. Qed.

End Spec.

(** C13: from the start on, whatever is called in whatever order and whatever
    the listeners do when they are called, no call goes wrong and the manager
    does what the finite map of the specification does: a module is added
    once and only when its callbacks are complete, data reaches the module it
    is for, connects and disconnects reach every registered module exactly
    once, and calls of the media leave the table alone. *)
Theorem conn_listeners_refine {Fn S} (react : Call Fn -> list (Registration Fn)) (st : S) ops : Forall opOk ops ->
  exists out m, execAll react ops (manager0 st) = Some (out, m) /\ managerOk m /\ SpecRun react ops None out (tableOf m).
Proof.
  intros Ho. destruct (execAll_spec react ops (manager0 st) (manager0_ok st) Ho) as (out & m & E & Hm & Hs). by exists out, m.
Qed.

(** ** Request numbers *)

Fixpoint requestIds {Fn S} (n : nat) (m : Manager Fn S) : list Z :=
  match n with
  | O => []
  | Datatypes.S n' => let '(r, m') := ConnGetNewRequestId m in r :: requestIds n' m'
  end.

(** The number after [r]. *)
Lemma next_id r : 0 <= r < REQID_MAX -> Z.odd r = true -> u32 (u32 (r + 1) mod REQID_MAX + 1) = (r + 2) mod REQID_MAX.
Proof.
  unfold REQID_MAX. intros Hr Hodd. rewrite (wrapU_id 32 (r + 1)) by range.
  pose proof (Z.mod_pos_bound (r + 1) 1000000). rewrite wrapU_id by range.
  destruct (Z.eq_dec r 999999) as [->|Hne]; [done|]. assert (r < 999998) as Hlt.
  { destruct (Z.eq_dec r 999998) as [->|]; [done|lia]. }
  rewrite !Z.mod_small by lia. lia.
Qed.

Lemma odd_mod k : Z.odd ((2 * k + 1) mod REQID_MAX) = true.
Proof.
  rewrite Z.mod_eq by (unfold REQID_MAX; lia). unfold REQID_MAX.
  replace (2 * k + 1 - 1000000 * ((2 * k + 1) / 1000000)) with (1 + 2 * (k - 500000 * ((2 * k + 1) / 1000000))) by lia.
  apply Z.odd_add_mul_2.
Qed.

Lemma requestIds_lookup {Fn S} n : forall (m : Manager Fn S) k j, reqId m = (2 * j + 1) mod REQID_MAX -> (k < n)%nat ->
  requestIds n m !! k = Some ((2 * (j + Z.of_nat k) + 3) mod REQID_MAX).
Proof.
  induction n as [|n IH]; intros m k j E Hk; [lia|]. cbn [requestIds ConnGetNewRequestId].
  assert (u32 (u32 (reqId m + 1) mod REQID_MAX + 1) = (2 * (j + 1) + 1) mod REQID_MAX) as En.
  { rewrite next_id; rewrite E; [|apply Z.mod_pos_bound; unfold REQID_MAX; lia|apply odd_mod].
    rewrite Z.add_mod_idemp_l by (unfold REQID_MAX; lia). f_equal. lia. }
  destruct k as [|k]; cbn [lookup list_lookup].
  - f_equal. rewrite En. f_equal. lia.
  - etransitivity; [apply (IH _ k (j + 1)); [exact En|lia]|]. do 2 f_equal. lia.
Qed.

(** The numbers of requests are odd and below a million; two of them are
    the same exactly when a multiple of 500000 requests lies between them,
    half of what [REQID_MAX] provides for. *)
Theorem conn_request_ids {Fn S} (st : S) n : let ids := requestIds n (manager0 (Fn := Fn) st) in
  length ids = n /\ Forall (fun r => 0 < r < REQID_MAX /\ Z.odd r = true) ids /\
  forall j k, (j < n)%nat -> (k < n)%nat -> ids !! j = ids !! k <-> Z.of_nat j mod 500000 = Z.of_nat k mod 500000.
Proof.
  cbn. assert (forall k, (k < n)%nat -> requestIds n (manager0 (Fn := Fn) st) !! k = Some ((2 * Z.of_nat k + 3) mod REQID_MAX)) as Hl.
  { intros k Hk. apply (requestIds_lookup n _ k 0); [done|done]. }
  split_and!.
  - generalize (manager0 (Fn := Fn) st). clear Hl. induction n as [|n IH]; intros m; [done|]. cbn [requestIds ConnGetNewRequestId length]. by rewrite IH.
  - apply Forall_lookup. intros k r Hk.
    assert (k < n)%nat as Hlt.
    { apply lookup_lt_Some in Hk. revert Hk. generalize (manager0 (Fn := Fn) st). clear Hl. revert k.
      induction n as [|n IH]; intros k m Hk; [cbn in Hk; lia|]. cbn [requestIds ConnGetNewRequestId length] in Hk.
      destruct k; [lia|]. apply Nat.succ_lt_mono in Hk. apply IH in Hk. lia. }
    rewrite (Hl k Hlt) in Hk. injection Hk as <-. replace (2 * Z.of_nat k + 3) with (2 * (Z.of_nat k + 1) + 1) by lia.
    pose proof (odd_mod (Z.of_nat k + 1)) as Ho. split; [|done].
    pose proof (Z.mod_pos_bound (2 * (Z.of_nat k + 1) + 1) REQID_MAX). unfold REQID_MAX in *.
    destruct (Z.eq_dec ((2 * (Z.of_nat k + 1) + 1) mod 1000000) 0) as [E|]; [by rewrite E in Ho|lia].
  - intros j k Hj Hk. rewrite !Hl by done. unfold REQID_MAX. split; [intros [= E]|intros E; f_equal].
    + Z.div_mod_to_equations. lia.
    + Z.div_mod_to_equations. lia.
Qed.

(** ** From one device to the other *)

(** The posts of an application: the answers of the calls. *)
Fixpoint postAll {Fn S} (connectionId : Z) (ds : list ConnPostData) (m : Manager Fn S) : option (list Z * Manager Fn S) :=
  match ds with
  | [] => Some ([], m)
  | d :: rest =>
      '(r, _, m1) ← ConnPostBytes true connectionId (Some d) m;
      '(rs, m2) ← postAll connectionId rest m1;
      Some (r :: rs, m2)
  end.

(** What the looper of the receiver does with a frame that is for a module. *)
Definition dispatch {Fn S} (react : Call Fn -> list (Registration Fn)) (connectionId : Z) (f : bytes) (m : Manager Fn S)
  : option (Manager Fn S * list (Call Fn)) :=
  '(id, sq) ← BrRecvDataHandle true f;
  if id =? MODULE_CONNECTION then None else ConnManagerRecvData react true connectionId id sq (Some f) (len f) m.

Fixpoint dispatchAll {Fn S} (react : Call Fn -> list (Registration Fn)) (connectionId : Z) (fs : list bytes) (m : Manager Fn S)
  : option (Manager Fn S * list (Call Fn)) :=
  match fs with
  | [] => Some (m, [])
  | f :: rest =>
      '(m1, cs) ← dispatch react connectionId f m;
      '(m2, ds) ← dispatchAll react connectionId rest m1;
      Some (m2, cs ++ ds)
  end.

Definition frameOf (p : ConnPostData * bytes) : bytes := headBytes true (postHead p.1) ++ p.2.

(** What the medium answers, and its state, when it is handed the frames of
    the posts one after the other. *)
Fixpoint handed {S} (post : Z -> bytes -> Z -> Z -> Z -> S -> Z * S) (connectionId : Z) (posts : list (ConnPostData * bytes)) (st : S)
  : list Z * S :=
  match posts with
  | [] => ([], st)
  | p :: rest =>
      let '(r, st1) := post connectionId (frameOf p) (len (frameOf p)) (ppid p.1) (pflag p.1) st in
      let '(rs, st2) := handed post connectionId rest st1 in
      (r :: rs, st2)
  end.

(** The calls of the listeners, from their table, for a list of posts, while
    the listeners change the table. *)
Fixpoint delivered {Fn} (react : Call Fn -> list (Registration Fn)) (connectionId : Z) (posts : list (ConnPostData * bytes))
    (t : option (gmap Z (ConnectCallback Fn))) : list (Call Fn) :=
  match posts with
  | [] => []
  | (d, payload) :: rest =>
      match (g ← t; cb ← g !! pmodule d; OnDataReceived cb) with
      | Some f =>
          let c := DataReceived f connectionId (pmodule d) (pseq d) payload (len payload) in
          c :: delivered react connectionId rest (foldl specRegister t (react c))
      | None => delivered react connectionId rest t
      end
  end.

Section Delivery.

Context {Fn S : Type} (react : Call Fn -> list (Registration Fn)).

Lemma posts_spec size connectionId i post posts : forall m : Manager Fn S, size < 2 ^ 31 ->
  Forall (fun p => postOk size p.1 p.2) posts -> connType connectionId < CONNECT_TYPE_MAX ->
  medium (connType connectionId) m = Some i -> PostBytes i = Some post ->
  postAll connectionId (posts.*1) m =
    Some ((handed post connectionId posts (media m)).1, setMedia (handed post connectionId posts (media m)).2 m).
Proof.
  induction posts as [|[d payload] posts IH]; intros m Hs Hf Ht Hi Hp; [by destruct m|].
  apply Forall_cons in Hf as [Hd Hf]. cbn [fmap list_fmap fst postAll handed].
  rewrite (post_frame size connectionId d payload m i post Hs Hd Ht Hi Hp).
  assert (len (frameOf (d, payload)) = plen d) as ->.
  { unfold frameOf. cbn [fst snd]. rewrite len_app, len_headBytes. destruct Hd as (_ & _ & _ & _ & _ & _ & Hl & _). by cbn in Hl. }
  unfold frameOf at 1 2. cbn [fst snd].
  destruct (post connectionId _ _ _ _ _) as [r st] eqn:E. cbn [mbind option_bind].
  rewrite (IH (setMedia st m) Hs Hf Ht Hi Hp). cbn [mbind option_bind setMedia media]. by destruct (handed _ _ posts st).
Qed.

Lemma frameOf_valid size p : size <= MAX_MALLOC_SIZE -> postOk size p.1 p.2 -> validFrame size (frameOf p).
Proof.
  intros Hs (H1 & H2 & H3 & H4 & H5 & H6 & H7 & _). unfold frameOf. apply (frame_valid (postHead p.1) p.2 size); [reflexivity| |exact H4|lia].
  unfold postHead. cbn [hlen]. rewrite H7. lia.
Qed.

Lemma dispatch_spec size connectionId d payload (m : Manager Fn S) : size < 2 ^ 31 -> postOk size d payload ->
  pmodule d <> MODULE_CONNECTION -> managerOk m ->
  exists m' calls, dispatch react connectionId (frameOf (d, payload)) m = Some (m', calls) /\ managerOk m' /\
    forall rest, delivered react connectionId ((d, payload) :: rest) (tableOf m) =
      calls ++ delivered react connectionId rest (tableOf m').
Proof.
  intros Hs Hd Hmod Hm. pose proof (postHead_ok size d payload Hs Hd) as Hh. unfold dispatch, frameOf. cbn [fst snd].
  rewrite (frame_head _ _ Hh). cbn [mbind option_bind postHead module hseq]. rewrite (proj2 (Z.eqb_neq _ _) Hmod).
  destruct Hd as (H1 & H2 & H3 & H4 & H5 & H6 & H7 & _).
  set (h := postHead d). set (f := headBytes true h ++ payload).
  assert (len f = HEAD_SIZE + len payload) as Hl by (unfold f; by rewrite len_app, len_headBytes).
  assert (0 < len payload) as Hpos by (destruct payload; [done|rewrite len_cons; pose proof (len_nonneg payload); lia]).
  destruct (recvData_spec react true connectionId (pmodule d) (pseq d) (Some f) (len f) m Hm) as (m' & calls & E & Hok & Hspec).
  exists m', calls. split_and!; [exact E|exact Hok|]. intros rest. cbn [delivered].
  inversion Hspec as [| | | |? ? ? ? ? ? g cb fn ? _ Hlt Hg Hcb ? Ht|? ? ? ? ? ? ? Hnone| | | | |]; subst; [| |done].
  - rewrite Ht. subst c. cbn [mbind option_bind]. rewrite Hg. cbn [mbind option_bind]. rewrite Hcb.
    replace (drop 24 f) with payload by (unfold f; by rewrite drop_app_length'; [|pose proof (len_headBytes h); unfold len, HEAD_SIZE in *; lia]).
    replace (len f - HEAD_SIZE) with (len payload) by lia. done.
  - destruct Hnone as [?|[?|[?|Hn]]]; [done|done|lia|]. destruct (tableOf m) as [g|]; [|done]. cbn [default id] in Hn.
    cbn [mbind option_bind]. by rewrite Hn.
Qed.

Lemma dispatchAll_spec size connectionId posts : forall m : Manager Fn S, size < 2 ^ 31 ->
  Forall (fun p => postOk size p.1 p.2 /\ pmodule p.1 <> MODULE_CONNECTION) posts -> managerOk m ->
  exists m', dispatchAll react connectionId (frameOf <$> posts) m = Some (m', delivered react connectionId posts (tableOf m)) /\ managerOk m'.
Proof.
  induction posts as [|[d payload] posts IH]; intros m Hs Hf Hm; [by exists m|].
  apply Forall_cons in Hf as [[Hd Hmod] Hf]. destruct (dispatch_spec size connectionId d payload m Hs Hd Hmod Hm) as (m1 & cs & E & Hm1 & Hdel).
  destruct (IH m1 Hs Hf Hm1) as (m2 & E2 & Hm2). exists m2. split; [|done].
  rewrite fmap_cons. cbn [dispatchAll]. rewrite E. cbn [mbind option_bind]. rewrite E2. cbn [mbind option_bind]. by rewrite Hdel.
Qed.

End Delivery.


(** ** Witnesses *)

Definition demoCallback (f : Z) : ConnectCallback Z := MkCallback (Some f) (Some (f + 1)) (Some (f + 2)).

(** The listener of the proxy channels unregisters another module when it is
    told of a connection, and registers a third. *)
Definition demoReact (c : Call Z) : list (Registration Z) :=
  match c with
  | Connected 10 _ _ => [RUnSet true MODULE_DIRECT_CHANNEL; RSet true true MODULE_P2P_LINK (Some (demoCallback 30))]
  | _ => []
  end.

Definition demoBoot : Boot Z unit := MkBoot SOFTBUS_OK SOFTBUS_OK false None None None true true.
Definition demoInfo : ConnectionInfo := MkInfo 1 0 CONNECT_BR (BrPeer []).
Definition demoData : bytes := replicate 24 0 ++ [7; 8].

Definition demoOps : list (Op (Fn := Z) (S := unit)) :=
  [OInit demoBoot;
   OSet true true MODULE_DIRECT_CHANNEL (Some (demoCallback 20));
   OSet true true MODULE_PROXY_CHANNEL (Some (demoCallback 10));
   OSet true true MODULE_PROXY_CHANNEL (Some (demoCallback 40));
   OConnected true true 131073 demoInfo;
   ORecv true 131073 MODULE_DIRECT_CHANNEL 5 (Some demoData) 26;
   ORecv true 131073 MODULE_P2P_LINK 5 (Some demoData) 26].

Lemma conn_listeners_refine_witness : exists m,
  execAll demoReact demoOps (manager0 tt) =
    Some ([(0, []); (0, []); (0, []); (-1, []);
           (0, [Connected 10 131073 demoInfo; Connected 20 131073 demoInfo]);
           (0, []); (0, [DataReceived 32 131073 MODULE_P2P_LINK 5 [7; 8] 2])], m) /\ managerOk m.
Proof.
  destruct (conn_listeners_refine demoReact tt demoOps) as (out & m & E & Hm & _).
  - by repeat constructor.
  - exists m. split; [|exact Hm]. rewrite E. vm_compute in E. injection E as <- _. reflexivity.
Defined.

(** A sender with a Bluetooth medium, a receiver after its start, and three
    posts of which the second is for a module nobody listens to. *)
Definition demoMedium : ConnectFuncInterface Z (list bytes) :=
  MkMedium None (Some (fun _ b _ _ _ frames => (SOFTBUS_OK, frames ++ [b]))) None None None None None None.

Definition demoSender : Manager Z (list bytes) := (ConnServerInit (MkBoot SOFTBUS_OK SOFTBUS_OK false None (Some demoMedium) None true true) (manager0 [])).2.

Definition demoReceiver : Manager Z unit :=
  match execAll (fun _ => []) (take 3 demoOps) (manager0 tt) with Some (_, m) => m | None => manager0 tt end.

Definition demoPost (id sq : Z) (payload : bytes) : ConnPostData * bytes :=
  (MkPost id sq 0 1 (24 + len payload) (Some (replicate 24 0 ++ payload)), payload).

Lemma demoPost_ok size id sq payload : is_s 32 id -> is_s 64 sq -> is_bytes payload -> payload <> [] -> HEAD_SIZE + len payload <= size ->
  postOk size (demoPost id sq payload).1 (demoPost id sq payload).2.
Proof. intros. split_and!; [done|done|done|done|done|done|done|]. by exists (replicate 24 0). Qed.

Definition demoPosts : list (ConnPostData * bytes) :=
  [demoPost MODULE_PROXY_CHANNEL 1 [1; 2; 3]; demoPost MODULE_BLE_NET 2 [4]; demoPost MODULE_DIRECT_CHANNEL 3 [5; 6]].

Lemma demoReceiver_ok : managerOk demoReceiver.
Proof.
  destruct (execAll_spec (fun _ => []) (take 3 demoOps) (manager0 tt) (manager0_ok tt) ltac:(by repeat constructor)) as (out & m & E & Hm & _).
  unfold demoReceiver. by rewrite E.
Qed.


End ConnManager.
