(* ===== verification/BrConnection.v ===== *)
(** * Connections over classic Bluetooth

    Models [core/connection/br/src/br_connection_manager.c] (the table of
    connections), [br_connection.c] (connecting, disconnecting, sending and
    receiving) and [br_pending_packet.c] (acknowledgements of the send
    window), as threads over one memory.

    A function is a program ([Prog]): a sequence of actions, each of which is
    one critical section, one access to a connection outside a critical
    section, or one call of the driver.  The threads are those of the code:
    the callers, the looper, a reader per connection, the sender and the
    accepting thread; a schedule decides whose action is next and what the
    system answers.  Connections are objects of a heap; an access to one that
    was released is [Wrong], with the place in the code.

    The socket, the send queue and cJSON are parameters: [BrTrans] and
    [SendQueue] have the models of the framing and of the queue. *)

From S2P Require Import Prelude Errno Bytes Adapter Utils BrTrans ConnManager.
Import Errno Bytes Adapter.Mem Adapter.ByteOrder.

Module BrConnection.

Abbreviation ConnectionInfo := ConnManager.ConnectionInfo.
Abbreviation ConnectOption := ConnManager.ConnectOption.

Definition BT_RFCOM_CONGEST_ON : Z := 0.
Definition BT_RFCOM_CONGEST_OFF : Z := 1.
Definition BR_CLIENT_TYPE : Z := 0.
Definition BR_SERVICE_TYPE : Z := 1.
Definition METHOD_NOTIFY_REQUEST : Z := 1.
Definition METHOD_NOTIFY_RESPONSE : Z := 2.
Definition METHOD_NOTIFY_ACK : Z := 4.
Definition METHOD_ACK_RESPONSE : Z := 5.
Definition MIN_WINDOWS : Z := 10.
Definition MAX_WINDOWS : Z := 80.
Definition DEFAULT_WINDOWS : Z := 20.
Definition ADD_CONN_BR_INVALID : Z := 0.
Definition ADD_CONN_BR_CLIENT_CONNECTED_MSG : Z := 1.
Definition ADD_CONN_BR_CLIENT_DISCONNECTED_MSG : Z := 2.
Definition ADD_CONN_BR_SERVICE_CONNECTED_MSG : Z := 3.
Definition ADD_CONN_BR_SERVICE_DISCONNECTED_MSG : Z := 4.
Definition ADD_CONN_BR_CONGEST_MSG : Z := 5.
Definition ADD_CONN_BR_RECV_MSG : Z := 6.
Definition ADD_CONN_BR_CLOSING_TIMEOUT_MSG : Z := 7.
Definition ADD_CONN_BR_MAX : Z := 8.
Definition BR_CONNECTION_STATE_CONNECTING : Z := 0.
Definition BR_CONNECTION_STATE_CONNECTED : Z := 1.
Definition BR_CONNECTION_STATE_CLOSING : Z := 2.
Definition BR_CONNECTION_STATE_CLOSED : Z := 3.
Definition CONN_SIDE_ANY : Z := 0.
Definition CONN_SIDE_CLIENT : Z := 1.
Definition CONN_SIDE_SERVER : Z := 2.
Definition CONN_HIGH : Z := 3.
Definition INVALID_SOCKET : Z := -1.
Definition INVALID_LENGTH : Z := -1.
Definition WINDOWS_ACK_FAILED_TIMES : Z := 3.
Definition CONNECT_REF_INCRESE : Z := 1.
Definition CONNECT_REF_DECRESE : Z := -1.
Definition TRY_OPEN_SERVER_COUNT : Z := 5.
Definition MAX_BR_SIZE : Z := 40 * 1000.
Definition MAX_BR_PEER_SIZE : Z := 3 * 1024.
Definition BT_MAC_LEN : Z := 18.

(** A request: its number, and the functions to call, by name. *)
Record RequestInfo := MkReq { requestId : Z; result : ConnManager.ConnectResult Z }.

(** The receive buffer of a connection is in [BrTrans]. *)
Record BrConnectionInfo := MkConn {
  connectionId : Z; socketFd : Z; sideType : Z; mac : bytes; state : Z; refCount : Z; infoObjRefCount : Z;
  conGestState : Z; requestList : list RequestInfo; pendingRequestList : list RequestInfo;
  seq : Z; waitSeq : Z; windows : Z; ackTimeoutCount : Z }.

Record SendBrQueueNode := MkNode {
  nconnectionId : Z; npid : Z; nflag : Z; nisInner : bool; nmodule : Z; nlen : Z; ndata : bytes; nlistener : bool }.

Record SoftBusMessage := MkMsg { what : Z; arg1 : Z; arg2 : Z; obj : option bytes }.

Record PendingPacket := MkPending { pid : Z; pseq : Z; finded : bool }.

(** What can be seen of a run: requests made and answered, notices to the
    connection manager, calls of the driver; and what happens to references:
    [EDrop] is the release of the reference a connection starts with, [ELeak]
    a release that did not get the lock. *)
Inductive Event :=
| EIssue (r : RequestInfo)
| EAnswer (r : RequestInfo) (ok : bool) (value : Z) (info : option ConnectionInfo)
| EConnected (id : Z) (info : ConnectionInfo)
| EDisconnected (id : Z) (info : option ConnectionInfo)
| EData (id module seq : Z) (data : bytes) (len : Z)
| EWrite (fd : Z) (data : bytes)
| EDisConnect (fd : Z)
| EDrop (a : nat)
| ELeak (a : nat).

(** Where an access can go wrong: a member of the list, an object the thread
    has a reference to, an object it has not published yet, an address that is
    no string, a missing callback, the state of a connection after the lock was
    released, a connection just published, a pending packet, a window of 0, a
    frame shorter than its head. *)
Inductive Site := SList | SHeld | SOwn | SString | SNull | SStateRead | SPublished | SPending | SWindow | SFrame.

(** What the threads start: the loops of the code and the calls from outside. *)
Inductive Task :=
| TLooper
| TSender
| TRead (connId fd : Z)
| TReadLoop (connId fd : Z)
| TAccept (tryCount num : Z)
| TConnect (o : ConnectOption) (r : RequestInfo)
| TDisconnect (connId : Z)
| TDisconnectNow (o : ConnectOption)
| TPost (connId : Z) (data : bytes) (len pid flag : Z)
| TInfo (connId : Z)
| TCheck (o : ConnectOption)
| TStart (type : Z)
| TStop (type : Z)
| TCongest (fd value : Z)
| TState (on : bool).

(** What the system answers to an action: a lock that is obtained, memory for
    objects and for messages, another initialisation, a choice, a number from
    the driver, bytes from the driver. *)
Record Env := MkEnv { lockOk : bool; mem : bool; msgMem : bool; initOk : bool; choice : bool; ans : Z; raw : bytes }.

Section Connections.

Context {Q : Type}.

Record World := MkWorld {
  infos : gmap nat BrConnectionInfo;
  g_connection_list : list nat;
  next : nat;
  g_nextConnectionId : Z;
  stuck : bool;                     (* [g_connectionLock] was left locked *)
  g_brConnLock : bool;
  g_pendingList : list PendingPacket;
  pendStuck : bool;                 (* [g_pendingLock] was left locked *)
  queue : Q;
  msgs : list SoftBusMessage;
  timers : list SoftBusMessage;
  g_startListenFlag : bool;
  g_brEnable : bool;
  spawned : list Task;
  log : list Event }.

Inductive Res (B : Type) := Done (b : B) (w : World) | Blocked | Wrong (s : Site).
#[global] Arguments Done {B}.
#[global] Arguments Blocked {B}.
#[global] Arguments Wrong {B}.

Inductive Prog (A : Type) : Type :=
| Ret (a : A)
| Act {B : Type} (f : Env -> World -> Res B) (k : B -> Prog A).
#[global] Arguments Ret {A}.
#[global] Arguments Act {A B}.

Fixpoint bind {A B} (p : Prog A) (k : A -> Prog B) : Prog B :=
  match p with
  | Ret a => k a
  | Act f j => Act f (fun b => bind (j b) k)
  end.

#[local] Notation "x <- p ;; k" := (bind p (fun x => k)) (at level 100, p at next level, right associativity).
#[local] Notation "p ;; k" := (bind p (fun _ => k)) (at level 100, right associativity).

Definition act {B} (f : Env -> World -> Res B) : Prog B := Act f Ret.

(** ** The memory *)

Definition setInfos (m : gmap nat BrConnectionInfo) (l : list nat) (w : World) : World :=
  MkWorld m l (next w) (g_nextConnectionId w) (stuck w) (g_brConnLock w) (g_pendingList w) (pendStuck w) (queue w)
    (msgs w) (timers w) (g_startListenFlag w) (g_brEnable w) (spawned w) (log w).

Definition putInfo (a : nat) (i : BrConnectionInfo) (w : World) : World := setInfos (<[a := i]> (infos w)) (g_connection_list w) w.

Definition freeInfo (a : nat) (w : World) : World :=
  setInfos (delete a (infos w)) (filter (fun b => b <> a) (g_connection_list w)) w.

Definition newInfo (i : BrConnectionInfo) (w : World) : World :=
  MkWorld (<[next w := i]> (infos w)) (g_connection_list w) (S (next w)) (g_nextConnectionId w) (stuck w) (g_brConnLock w)
    (g_pendingList w) (pendStuck w) (queue w) (msgs w) (timers w) (g_startListenFlag w) (g_brEnable w) (spawned w) (log w).

Definition setNextId (n : Z) (w : World) : World :=
  MkWorld (infos w) (g_connection_list w) (next w) n (stuck w) (g_brConnLock w) (g_pendingList w) (pendStuck w) (queue w)
    (msgs w) (timers w) (g_startListenFlag w) (g_brEnable w) (spawned w) (log w).

Definition setStuck (w : World) : World :=
  MkWorld (infos w) (g_connection_list w) (next w) (g_nextConnectionId w) true (g_brConnLock w) (g_pendingList w) (pendStuck w)
    (queue w) (msgs w) (timers w) (g_startListenFlag w) (g_brEnable w) (spawned w) (log w).

Definition setBrConnLock (b : bool) (w : World) : World :=
  MkWorld (infos w) (g_connection_list w) (next w) (g_nextConnectionId w) (stuck w) b (g_pendingList w) (pendStuck w) (queue w)
    (msgs w) (timers w) (g_startListenFlag w) (g_brEnable w) (spawned w) (log w).

Definition setPending (l : list PendingPacket) (s : bool) (w : World) : World :=
  MkWorld (infos w) (g_connection_list w) (next w) (g_nextConnectionId w) (stuck w) (g_brConnLock w) l s (queue w)
    (msgs w) (timers w) (g_startListenFlag w) (g_brEnable w) (spawned w) (log w).

Definition setQueue (q : Q) (w : World) : World :=
  MkWorld (infos w) (g_connection_list w) (next w) (g_nextConnectionId w) (stuck w) (g_brConnLock w) (g_pendingList w) (pendStuck w)
    q (msgs w) (timers w) (g_startListenFlag w) (g_brEnable w) (spawned w) (log w).

Definition setMsgs (m t : list SoftBusMessage) (w : World) : World :=
  MkWorld (infos w) (g_connection_list w) (next w) (g_nextConnectionId w) (stuck w) (g_brConnLock w) (g_pendingList w) (pendStuck w)
    (queue w) m t (g_startListenFlag w) (g_brEnable w) (spawned w) (log w).

Definition setListen (f e : bool) (w : World) : World :=
  MkWorld (infos w) (g_connection_list w) (next w) (g_nextConnectionId w) (stuck w) (g_brConnLock w) (g_pendingList w) (pendStuck w)
    (queue w) (msgs w) (timers w) f e (spawned w) (log w).

Definition spawn (t : Task) (w : World) : World :=
  MkWorld (infos w) (g_connection_list w) (next w) (g_nextConnectionId w) (stuck w) (g_brConnLock w) (g_pendingList w) (pendStuck w)
    (queue w) (msgs w) (timers w) (g_startListenFlag w) (g_brEnable w) (spawned w ++ [t]) (log w).

Definition emit (e : Event) (w : World) : World :=
  MkWorld (infos w) (g_connection_list w) (next w) (g_nextConnectionId w) (stuck w) (g_brConnLock w) (g_pendingList w) (pendStuck w)
    (queue w) (msgs w) (timers w) (g_startListenFlag w) (g_brEnable w) (spawned w) (log w ++ [e]).

(** Something that only an observer sees. *)
Definition note (e : Event) : Prog unit := act (fun _ w => Done tt (emit e w)).

(** A value from the system. *)
Definition ask {B} (f : Env -> B) : Prog B := act (fun e w => Done (f e) w).

(** An access through a pointer, outside a critical section. *)
Definition load {B} (s : Site) (a : nat) (f : BrConnectionInfo -> B) : Prog B :=
  act (fun _ w => match infos w !! a with Some i => Done (f i) w | None => Wrong s end).

Definition store (s : Site) (a : nat) (f : BrConnectionInfo -> BrConnectionInfo) : Prog unit :=
  act (fun _ w => match infos w !! a with Some i => Done tt (putInfo a (f i) w) | None => Wrong s end).

(** A critical section of [g_connectionLock], with what is returned when the
    lock is not obtained. *)
Definition locked {B} (fail : B) (f : World -> Res B) : Prog B :=
  act (fun e w => if negb (lockOk e) then Done fail w else if stuck w then Blocked else f w).

(** The same where the code does not look at the result of the lock. *)
Definition lockedAnyway {B} (f : World -> Res B) : Prog B :=
  act (fun e w => if lockOk e && stuck w then Blocked else f w).

(** [LIST_FOR_EACH] over the connections until one satisfies [p]; none from
    [p] is a string without an end. *)
Fixpoint walk (heap : gmap nat BrConnectionInfo) (p : BrConnectionInfo -> option bool) (l : list nat)
  : Site + option (nat * BrConnectionInfo) :=
  match l with
  | [] => inr None
  | a :: rest =>
      match heap !! a with
      | None => inl SList
      | Some i =>
          match p i with
          | None => inl SString
          | Some true => inr (Some (a, i))
          | Some false => walk heap p rest
          end
      end
  end.

Definition found {B} (p : BrConnectionInfo -> option bool) (miss : World -> Res B)
    (hit : nat -> BrConnectionInfo -> World -> Res B) (w : World) : Res B :=
  match walk (infos w) p (g_connection_list w) with
  | inl s => Wrong s
  | inr None => miss w
  | inr (Some (a, i)) => hit a i w
  end.

Definition byId (connId : Z) (i : BrConnectionInfo) : option bool := Some (connectionId i =? connId).
Definition byFd (fd : Z) (i : BrConnectionInfo) : option bool := Some (socketFd i =? fd).

Definition macOf (o : ConnectOption) : bytes :=
  match ConnManager.opeer o with ConnManager.BrPeer m => m | _ => [] end.

(** [Strnicmp(itemNode->mac, mac, BT_MAC_LEN) == 0] *)
Definition sameMac (i : BrConnectionInfo) (m : bytes) : option bool :=
  r ← Utils.Strnicmp (Some (mac i)) (Some m) BT_MAC_LEN; Some (r =? 0).

(** [strcpy_s] into an empty address: none when it does not fit. *)
Definition copyMac (m : bytes) : option bytes :=
  s ← cstr m; if len s + 1 <=? BT_MAC_LEN then Some (s ++ replicate (18 - length s) 0) else None.

(** ** Updates of a connection *)

Definition setRefs (n : Z) (i : BrConnectionInfo) : BrConnectionInfo :=
  MkConn (connectionId i) (socketFd i) (sideType i) (mac i) (state i) (refCount i) n (conGestState i) (requestList i)
    (pendingRequestList i) (seq i) (waitSeq i) (windows i) (ackTimeoutCount i).

Definition setState (s : Z) (i : BrConnectionInfo) : BrConnectionInfo :=
  MkConn (connectionId i) (socketFd i) (sideType i) (mac i) s (refCount i) (infoObjRefCount i) (conGestState i) (requestList i)
    (pendingRequestList i) (seq i) (waitSeq i) (windows i) (ackTimeoutCount i).

Definition setRefCount (n : Z) (i : BrConnectionInfo) : BrConnectionInfo :=
  MkConn (connectionId i) (socketFd i) (sideType i) (mac i) (state i) n (infoObjRefCount i) (conGestState i) (requestList i)
    (pendingRequestList i) (seq i) (waitSeq i) (windows i) (ackTimeoutCount i).

Definition setCongest (n : Z) (i : BrConnectionInfo) : BrConnectionInfo :=
  MkConn (connectionId i) (socketFd i) (sideType i) (mac i) (state i) (refCount i) (infoObjRefCount i) n (requestList i)
    (pendingRequestList i) (seq i) (waitSeq i) (windows i) (ackTimeoutCount i).

Definition setRequests (l p : list RequestInfo) (i : BrConnectionInfo) : BrConnectionInfo :=
  MkConn (connectionId i) (socketFd i) (sideType i) (mac i) (state i) (refCount i) (infoObjRefCount i) (conGestState i) l
    p (seq i) (waitSeq i) (windows i) (ackTimeoutCount i).

Definition setSocket (fd : Z) (i : BrConnectionInfo) : BrConnectionInfo :=
  MkConn (connectionId i) fd (sideType i) (mac i) (state i) (refCount i) (infoObjRefCount i) (conGestState i) (requestList i)
    (pendingRequestList i) (seq i) (waitSeq i) (windows i) (ackTimeoutCount i).

Definition setMac (m : bytes) (i : BrConnectionInfo) : BrConnectionInfo :=
  MkConn (connectionId i) (socketFd i) (sideType i) m (state i) (refCount i) (infoObjRefCount i) (conGestState i) (requestList i)
    (pendingRequestList i) (seq i) (waitSeq i) (windows i) (ackTimeoutCount i).

Definition setId (id : Z) (i : BrConnectionInfo) : BrConnectionInfo :=
  MkConn id (socketFd i) (sideType i) (mac i) (state i) (refCount i) (infoObjRefCount i) (conGestState i) (requestList i)
    (pendingRequestList i) (seq i) (waitSeq i) (windows i) (ackTimeoutCount i).

Definition setAck (s ws wn t : Z) (i : BrConnectionInfo) : BrConnectionInfo :=
  MkConn (connectionId i) (socketFd i) (sideType i) (mac i) (state i) (refCount i) (infoObjRefCount i) (conGestState i) (requestList i)
    (pendingRequestList i) s ws wn t.

(** ** The table: [br_connection_manager.c] *)

Definition GetLocalWindowsByConnId (connId : Z) : Prog Z :=
  locked 0 (found (byId connId) (Done 0) (fun a i w => Done (windows i) w)).

Definition GetBrConnectionCount : Prog Z := locked SOFTBUS_ERR (fun w => Done (Z.of_nat (length (g_connection_list w))) w).

Definition IsExitConnectionById (connId : Z) : Prog bool :=
  lockedAnyway (found (byId connId) (Done false) (fun a i w => Done true w)).

Definition IsExitBrConnectByFd (fd : Z) : Prog bool :=
  lockedAnyway (found (byFd fd) (Done false) (fun a i w => Done true w)).

Definition GetConnectionRef (connId : Z) : Prog (option nat) :=
  locked None (found (byId connId) (Done None) (fun a i w => Done (Some a) (putInfo a (setRefs (infoObjRefCount i + 1) i) w))).

(** [ReleaseBrconnectionNode] of a node that is not in the list. *)
Definition ReleaseBrconnectionNode (a : nat) : Prog unit :=
  act (fun _ w => match infos w !! a with Some _ => Done tt (freeInfo a w) | None => Wrong SOwn end).

(** The count goes down; at 0 the node leaves the list and is released. *)
Definition unref (a : nat) (i : BrConnectionInfo) (w : World) : World :=
  let n := infoObjRefCount i - 1 in
  if n <=? 0 then freeInfo a w else putInfo a (setRefs n i) w.

Definition ReleaseConnectionRef (a : nat) : Prog unit :=
  act (fun e w => if negb (lockOk e) then Done tt (emit (ELeak a) w)
    else if stuck w then Blocked
    else match infos w !! a with Some i => Done tt (unref a i w) | None => Wrong SHeld end).

(** The same call on a node just put into the list: the reference it starts
    with goes. *)
Definition ReleasePublished (a : nat) : Prog unit :=
  locked tt (fun w => match infos w !! a with Some i => Done tt (emit (EDrop a) (unref a i w)) | None => Wrong SPublished end).

Definition ReleaseConnectionRefByConnId (connId : Z) : Prog unit :=
  locked tt (found (byId connId) (Done tt) (fun a i w => Done tt (emit (EDrop a) (unref a i w)))).

(** The loop of [AllocNewConnectionIdLocked]: the counter is read and written
    outside the lock.  Fuel for every value of the counter and one more. *)
Fixpoint allocLoop (fuel : nat) : Prog Z :=
  match fuel with
  | O => act (fun _ _ => Blocked)
  | S fuel' =>
      old <- act (fun _ w => Done (g_nextConnectionId w) w);;
      act (fun _ w => Done tt (setNextId (u16 (old + 1)) w));;
      cur <- act (fun _ w => Done (g_nextConnectionId w) w);;
      let tempId := Z.shiftl ConnManager.CONNECT_BR ConnManager.CONNECT_TYPE_SHIFT + cur in
      used <- IsExitConnectionById tempId;;
      if (used : bool) then allocLoop fuel' else Ret tempId
  end.

Definition idFuel : nat := Z.to_nat 65537.

Definition AllocNewConnectionIdLocked : Prog Z := allocLoop idFuel.

Definition blank : BrConnectionInfo := MkConn 0 0 0 (replicate 18 0) 0 0 0 0 [] [] 0 0 0 0.

(** The node with everything but its number. *)
Definition freshNode (clientFlag : bool) : BrConnectionInfo :=
  MkConn 0 0 (if clientFlag then BR_CLIENT_TYPE else BR_SERVICE_TYPE) (mac blank) BR_CONNECTION_STATE_CONNECTING 1 1
    BT_RFCOM_CONGEST_OFF [] [] 0 0 DEFAULT_WINDOWS 0.

Definition CreateBrconnectionNode (clientFlag : bool) : Prog (option nat) :=
  n <- act (fun e w => if mem e && initOk e then Done (Some (next w)) (newInfo (freshNode clientFlag) w) else Done None w);;
  match n with
  | None => Ret None
  | Some a =>
      id <- AllocNewConnectionIdLocked;;
      store SOwn a (setId id);;
      Ret (Some a)
  end.

Definition GetConnectionInfo (connId : Z) : Prog (Z * option ConnectionInfo) :=
  locked (SOFTBUS_ERR, None) (found (byId connId) (Done (SOFTBUS_ERR, None)) (fun a i w =>
    match copyMac (mac i) with
    | None => Done (SOFTBUS_BRCONNECTION_GETCONNINFO_ERROR, None) w
    | Some m => Done (SOFTBUS_OK, Some (ConnManager.MkInfo 1 (sideType i) ConnManager.CONNECT_BR (ConnManager.BrPeer m))) w
    end)).

(** The state, and the count when the connection was found. *)
Definition SetRefCountByConnId (delta connId : Z) : Prog (Z * option Z) :=
  locked (BR_CONNECTION_STATE_CLOSED, None) (found (byId connId) (Done (BR_CONNECTION_STATE_CLOSED, None)) (fun a i w =>
    let n := s32 (refCount i + delta) in
    let i1 := setRefCount n i in
    let i2 := if (state i =? BR_CONNECTION_STATE_CONNECTED) && (n <=? 0) then setState BR_CONNECTION_STATE_CLOSING i1 else i1 in
    Done (state i2, Some n) (putInfo a i2 w))).

Definition FreeCongestEvent (i : BrConnectionInfo) : BrConnectionInfo := setCongest BT_RFCOM_CONGEST_OFF i.

Definition changeState (s : Z) (i : BrConnectionInfo) : BrConnectionInfo :=
  if s =? BR_CONNECTION_STATE_CLOSED then FreeCongestEvent (setState s i) else setState s i.

Definition SetBrConnStateByConnId (connId s : Z) : Prog unit :=
  locked tt (found (byId connId) (Done tt) (fun a i w => Done tt (putInfo a (changeState s i) w))).

(** The number of the connection, 0 for none, and the state before. *)
Definition SetBrConnStateBySocket (fd s : Z) : Prog (Z * option Z) :=
  locked (0, None) (found (byFd fd) (Done (0, None)) (fun a i w =>
    Done (connectionId i, Some (state i)) (putInfo a (changeState s i) w))).

Definition AddRequestByConnId (connId : Z) (r : RequestInfo) : Prog Z :=
  locked SOFTBUS_ERR (found (byId connId) (Done SOFTBUS_OK) (fun a i w =>
    Done SOFTBUS_OK (putInfo a (setRequests (r :: requestList i) (pendingRequestList i) i) w))).

Definition AddPendingRequestByConnId (connId : Z) (r : RequestInfo) : Prog Z :=
  locked SOFTBUS_ERR (found (byId connId) (Done SOFTBUS_ERR) (fun a i w =>
    Done SOFTBUS_OK (putInfo a (setRequests (requestList i) (r :: pendingRequestList i) i) w))).

Definition AddConnectionList (a : nat) : Prog Z :=
  locked SOFTBUS_ERR (fun w => Done SOFTBUS_OK (setInfos (infos w) (a :: g_connection_list w) w)).

Definition RfcomCongestEvent (fd value : Z) : Prog unit :=
  locked tt (found (byFd fd) (Done tt) (fun a i w => Done tt (putInfo a (setCongest value i) w))).

(** An address that does not fit leaves the information without one. *)
Definition InitConnectionInfo (i : BrConnectionInfo) : option ConnectionInfo :=
  m ← copyMac (mac i); Some (ConnManager.MkInfo 0 (sideType i) ConnManager.CONNECT_BR (ConnManager.BrPeer m)).

(** The requests, in the order in which they are answered, and the
    information; both empty when the connection is not found.  Moving a list
    to another one with [ListAdd] reverses it. *)
Definition GetBrRequestListByConnId (connId : Z) : Prog (list RequestInfo * option ConnectionInfo) :=
  locked ([], None) (found (byId connId) (Done ([], None)) (fun a i w =>
    Done (rev (requestList i), InitConnectionInfo i) (putInfo a (setRequests [] (pendingRequestList i) i) w))).

(** Without the connection the lock stays locked. *)
Definition GetAndRemovePendingRequestByConnId (connId : Z) : Prog (list RequestInfo) :=
  locked [] (found (byId connId) (fun w => Done [] (setStuck w)) (fun a i w =>
    Done (rev (pendingRequestList i)) (putInfo a (setRequests (requestList i) [] i) w))).

Definition ResumeConnection (connId : Z) : Prog (Z * list RequestInfo) :=
  locked (SOFTBUS_ERR, []) (found (byId connId) (Done (SOFTBUS_ERR, [])) (fun a i w =>
    Done (SOFTBUS_OK, rev (pendingRequestList i))
      (putInfo a (setRequests (requestList i) [] (setState BR_CONNECTION_STATE_CONNECTED i)) w))).

Definition HasDiffMacDeviceExit (o : ConnectOption) : Prog bool :=
  locked true (found (fun i => if sideType i =? BR_CLIENT_TYPE then negb <$> sameMac i (macOf o) else Some false)
    (Done false) (fun a i w => Done true w)).

Definition IsTargetSideType (targetType connType : Z) : bool :=
  if targetType =? CONN_SIDE_CLIENT then connType =? BR_CLIENT_TYPE
  else if targetType =? CONN_SIDE_SERVER then connType =? BR_SERVICE_TYPE
  else true.

(** The state is read after the lock was released.  The code also reads the
    number of the first request, which only goes to the log: when there is no
    request, [LIST_ENTRY] takes the head of the list for one, and what is read
    are bytes of the connection itself, those of its mutex. *)
Definition GetBrConnStateByConnOption (o : ConnectOption) : Prog (Z * Z) :=
  n <- locked None (found
         (fun i => if IsTargetSideType (ConnManager.sideType o) (sideType i) then sameMac i (macOf o) else Some false)
         (Done None) (fun a i w => Done (Some (a, connectionId i)) w));;
  match n with
  | None => Ret (BR_CONNECTION_STATE_CLOSED, 0)
  | Some (a, id) => s <- load SStateRead a state;; Ret (s, id)
  end.

Definition IsBrDeviceReady (connId : Z) : Prog bool :=
  lockedAnyway (found (byId connId) (Done false) (fun a i w => Done (state i =? BR_CONNECTION_STATE_CONNECTED) w)).

Definition BrClosingByConnOption (o : ConnectOption) : Prog (Z * Z * Z) :=
  locked (SOFTBUS_ERR, INVALID_SOCKET, 0) (found (fun i => sameMac i (macOf o)) (Done (SOFTBUS_NOT_FIND, INVALID_SOCKET, 0))
    (fun a i w => Done (SOFTBUS_OK, socketFd i, sideType i) (putInfo a (setState BR_CONNECTION_STATE_CLOSING i) w))).

Definition BrCheckActiveConnection (o : ConnectOption) : Prog bool :=
  if negb (ConnManager.otype o =? ConnManager.CONNECT_BR) then Ret false
  else locked false (found (fun i => b ← sameMac i (macOf o); Some (b && (state i =? BR_CONNECTION_STATE_CONNECTED)))
    (Done false) (fun a i w => Done true w)).

(** ** Pending packets: [br_pending_packet.c] *)

Definition pendLocked {B} (fail : B) (f : Env -> World -> Res B) : Prog B :=
  act (fun e w => if negb (lockOk e) then Done fail w else if pendStuck w then Blocked else f e w).

Definition isPacket (id sq : Z) (p : PendingPacket) : bool := (pid p =? id) && (pseq p =? sq).

(** When an initialisation fails the lock stays locked. *)
Definition CreateBrPendingPacket (id sq : Z) : Prog Z :=
  pendLocked SOFTBUS_LOCK_ERR (fun e w =>
    if existsb (isPacket id sq) (g_pendingList w) then Done SOFTBUS_ALREADY_EXISTED w
    else if negb (mem e) then Done SOFTBUS_MALLOC_ERR w
    else if negb (initOk e) then
      Done (if choice e then SOFTBUS_LOCK_ERR else SOFTBUS_ERR) (setPending (g_pendingList w) true w)
    else Done SOFTBUS_OK (setPending (g_pendingList w ++ [MkPending id sq false]) (pendStuck w) w)).

Fixpoint dropPacket (id sq : Z) (l : list PendingPacket) : list PendingPacket :=
  match l with
  | [] => []
  | p :: rest => if isPacket id sq p then rest else p :: dropPacket id sq rest
  end.

Definition DelBrPendingPacket (id sq : Z) : Prog unit :=
  pendLocked tt (fun _ w => Done tt (setPending (dropPacket id sq (g_pendingList w)) (pendStuck w) w)).

Definition packet (id sq : Z) (w : World) : option PendingPacket := List.find (isPacket id sq) (g_pendingList w).

(** The packet is looked up under the lock and used after it. *)
Definition GetBrPendingPacket (id sq : Z) : Prog Z :=
  there <- pendLocked None (fun _ w => Done (Some (bool_decide (is_Some (packet id sq w)))) w);;
  match there with
  | None => Ret SOFTBUS_ERR
  | Some false => Ret SOFTBUS_NOT_FIND
  | Some true =>
      now <- act (fun e w =>
        match packet id sq w with
        | None => Wrong SPending
        | Some p => Done (if negb (lockOk e) then Some SOFTBUS_LOCK_ERR else if finded p then Some SOFTBUS_ALREADY_TRIGGERED else None) w
        end);;
      ret <- match now with
             | Some r => Ret r
             | None =>
                 act (fun e w =>
                   match packet id sq w with
                   | None => Wrong SPending
                   | Some p => if finded p then Done SOFTBUS_OK w else if choice e then Done SOFTBUS_TIMOUT w else Blocked
                   end)
             end;;
      act (fun e w =>
        if lockOk e && pendStuck w then Blocked
        else match packet id sq w with
             | None => Wrong SPending
             | Some _ => Done tt (setPending (dropPacket id sq (g_pendingList w)) (pendStuck w) w)
             end);;
      Ret ret
  end.

Fixpoint markPacket (id sq : Z) (l : list PendingPacket) : option (list PendingPacket) :=
  match l with
  | [] => None
  | p :: rest =>
      if isPacket id sq p then Some (MkPending (pid p) (pseq p) true :: rest)
      else r ← markPacket id sq rest; Some (p :: r)
  end.

Definition SetBrPendingPacket (id sq : Z) : Prog Z :=
  pendLocked SOFTBUS_LOCK_ERR (fun _ w =>
    match markPacket id sq (g_pendingList w) with
    | Some l => Done SOFTBUS_OK (setPending l (pendStuck w) w)
    | None => Done SOFTBUS_ERR w
    end).

(** ** [br_connection.c] *)

(** The names of the numbers in a message between the two ends. *)
Inductive Key := KEY_METHOD | KEY_DELTA | KEY_REFERENCE_NUM | KEY_WINDOWS | KEY_ACK_SEQ_NUM.

Definition key_eqb (a b : Key) : bool :=
  match a, b with
  | KEY_METHOD, KEY_METHOD | KEY_DELTA, KEY_DELTA | KEY_REFERENCE_NUM, KEY_REFERENCE_NUM
  | KEY_WINDOWS, KEY_WINDOWS | KEY_ACK_SEQ_NUM, KEY_ACK_SEQ_NUM => true
  | _, _ => false
  end.

(** The send queue, cJSON and the configuration. *)
Context (enqueue : Env -> SendBrQueueNode -> Q -> Z * Q) (dequeue : Q -> option SendBrQueueNode * Q).
Context (printJson : list (Key * Z) -> option bytes) (parseJson : bytes -> option (list (Key * Z))).
Context (g_brSendPeerLen g_brMaxConnCount : Z).

(** The numbers cJSON hands out, converted to [int]. *)
Definition GetJsonObjectSignedNumberItem (j : list (Key * Z)) (k : Key) : option Z :=
  snd <$> List.find (fun kv => key_eqb k kv.1) j.

Definition GetJsonObjectNumberItem (j : list (Key * Z)) (k : Key) : option Z :=
  v ← GetJsonObjectSignedNumberItem j k; if v <? 0 then None else Some v.

Definition BrAddNumToJson (method delta count : Z) : option bytes :=
  if method =? METHOD_NOTIFY_REQUEST then
    printJson [(KEY_METHOD, METHOD_NOTIFY_REQUEST); (KEY_DELTA, delta); (KEY_REFERENCE_NUM, s32 count)]
  else if method =? METHOD_NOTIFY_ACK then
    printJson [(KEY_METHOD, METHOD_NOTIFY_ACK); (KEY_WINDOWS, delta); (KEY_ACK_SEQ_NUM, s64 count)]
  else if method =? METHOD_ACK_RESPONSE then
    printJson [(KEY_METHOD, METHOD_ACK_RESPONSE); (KEY_WINDOWS, delta); (KEY_ACK_SEQ_NUM, s64 count)]
  else printJson [(KEY_METHOD, METHOD_NOTIFY_RESPONSE); (KEY_REFERENCE_NUM, s32 count)].

Definition BrPackRequestOrResponse (method delta count : Z) : Prog (option (bytes * Z)) :=
  act (fun e w =>
    match BrTrans.BrPackRequestOrResponse true (mem e) (BrAddNumToJson method delta (u64 count)) with
    | Some r => Done r w
    | None => Wrong SFrame
    end).

Fixpoint forEach {A} (l : list A) (f : A -> Prog unit) : Prog unit :=
  match l with
  | [] => Ret tt
  | x :: rest => f x;; forEach rest f
  end.

(** A call of a function of a request; nothing for NULL. *)
Definition answer (r : RequestInfo) (ok : bool) (value : Z) (info : option ConnectionInfo) : Prog unit :=
  match (if ok then ConnManager.OnConnectSuccessed (result r) else ConnManager.OnConnectFailed (result r)) with
  | Some _ => note (EAnswer r ok value info)
  | None => Ret tt
  end.

Definition BrEnqueueNonBlock (n : SendBrQueueNode) : Prog Z :=
  act (fun e w => let '(r, q) := enqueue e n (queue w) in Done r (setQueue q w)).

Definition PostBytesInner (connId module : Z) (data : bytes) (n : Z) : Prog Z :=
  ready <- IsBrDeviceReady connId;;
  if negb ready then Ret SOFTBUS_BRCONNECTION_POSTBYTES_ERROR
  else
    m <- ask mem;;
    if negb m then Ret SOFTBUS_MALLOC_ERR
    else BrEnqueueNonBlock (MkNode connId 0 CONN_HIGH true module n data true).

Definition postMessage (m : SoftBusMessage) : Prog bool :=
  act (fun e w => if msgMem e then Done true (setMsgs (msgs w ++ [m]) (timers w) w) else Done false w).

Definition PostClosingTimeoutEvent (connId : Z) : Prog Z :=
  act (fun e w =>
    if msgMem e then Done SOFTBUS_OK (setMsgs (msgs w) (timers w ++ [MkMsg ADD_CONN_BR_CLOSING_TIMEOUT_MSG connId 0 None]) w)
    else Done SOFTBUS_ERR w).

Definition PackRequest (delta connId : Z) : Prog unit :=
  x <- SetRefCountByConnId delta connId;;
  let '(st, rc) := x in
  let count := default (-1) rc in
  if negb (st =? BR_CONNECTION_STATE_CONNECTED) && negb (st =? BR_CONNECTION_STATE_CLOSING) then Ret tt
  else
    (if st =? BR_CONNECTION_STATE_CLOSING then PostClosingTimeoutEvent connId else Ret SOFTBUS_OK);;
    buf <- BrPackRequestOrResponse METHOD_NOTIFY_REQUEST delta count;;
    match buf with
    | Some (b, n) => PostBytesInner connId METHOD_NOTIFY_REQUEST b n;; Ret tt
    | None => Ret tt
    end.

Fixpoint packLoop (n : nat) (connId : Z) : Prog unit :=
  match n with
  | O => Ret tt
  | S n' => PackRequest CONNECT_REF_INCRESE connId;; packLoop n' connId
  end.

Definition DeviceConnectPackRequest (value connId : Z) : Prog unit := packLoop (Z.to_nat (value - 1)) connId.

(** The code, and the socket. *)
Definition ClientOnBrConnectDevice (connId : Z) : Prog (Z * Z) :=
  ref <- GetConnectionRef connId;;
  match ref with
  | None => Ret (SOFTBUS_BRCONNECTION_GETCONNINFO_ERROR, INVALID_SOCKET)
  | Some a =>
      side <- load SHeld a sideType;;
      if negb (side =? BR_CLIENT_TYPE) then ReleaseConnectionRef a;; Ret (SOFTBUS_INVALID_PARAM, INVALID_SOCKET)
      else
        m <- load SHeld a mac;;
        c <- act (fun e w =>
               match Utils.ConvertBtMacToBinary (mem e) (Some m) BT_MAC_LEN (Some (replicate 6 0)) 6 with
               | Some (r, _) => Done r w
               | None => Wrong SString
               end);;
        if negb (c =? SOFTBUS_OK) then ReleaseConnectionRef a;; Ret (SOFTBUS_ERR, INVALID_SOCKET)
        else
          fd <- ask ans;;
          if fd =? SOFTBUS_ERR then
            ReleaseConnectionRef a;; Ret (SOFTBUS_BRCONNECTION_CONNECTDEVICE_GETSOCKETIDFAIL, INVALID_SOCKET)
          else
            store SHeld a (setSocket fd);;
            st <- load SHeld a state;;
            if (st =? BR_CONNECTION_STATE_CLOSED) || (st =? BR_CONNECTION_STATE_CLOSING) then
              note (EDisConnect fd);; ReleaseConnectionRef a;; Ret (SOFTBUS_ERR, INVALID_SOCKET)
            else
              store SHeld a (setState BR_CONNECTION_STATE_CONNECTED);;
              ReleaseConnectionRef a;;
              Ret (SOFTBUS_OK, fd)
  end.

Definition available (info : option ConnectionInfo) : option ConnectionInfo :=
  i ← info; Some (ConnManager.MkInfo 1 (ConnManager.isServer i) (ConnManager.itype i) (ConnManager.ipeer i)).

Definition ClientNoticeResultBrConnect (connId : Z) (ok : bool) (value : Z) : Prog unit :=
  (if ok then Ret tt else SetBrConnStateByConnId connId BR_CONNECTION_STATE_CLOSING);;
  x <- GetBrRequestListByConnId connId;;
  let '(notifyList, info) := x in
  match notifyList with
  | [] => Ret tt
  | _ =>
      (if ok then DeviceConnectPackRequest (Z.of_nat (length notifyList)) connId else Ret tt);;
      forEach notifyList (fun r => answer r ok (if ok then connId else value) (if ok then available info else None))
  end.

Definition ClientOnBrConnect (connId : Z) : Prog Z :=
  x <- ClientOnBrConnectDevice connId;;
  let '(ret, fd) := x in
  let isSuccess := ret =? SOFTBUS_OK in
  ClientNoticeResultBrConnect connId isSuccess fd;;
  (if isSuccess then Ret tt else ReleaseConnectionRefByConnId connId);;
  Ret fd.

Definition NotifyDisconnect (notifyList : list RequestInfo) (connId : Z) (info : option ConnectionInfo) (value : Z) : Prog unit :=
  forEach notifyList (fun r => answer r false value None);;
  note (EDisconnected connId info).

Definition NotifyServerConn (connId : Z) (m : bytes) : Prog Z :=
  match copyMac m with
  | None => Ret SOFTBUS_ERR
  | Some m' =>
      note (EConnected connId (ConnManager.MkInfo 1 BR_SERVICE_TYPE ConnManager.CONNECT_BR (ConnManager.BrPeer m')));;
      Ret SOFTBUS_OK
  end.

Definition ConnBrOnEvent (type fd value : Z) : Prog Z :=
  if (ADD_CONN_BR_MAX <=? type) || (type <=? ADD_CONN_BR_INVALID) then Ret SOFTBUS_ERR
  else if type =? ADD_CONN_BR_CONGEST_MSG then RfcomCongestEvent fd value;; Ret SOFTBUS_ERR
  else
    ok <- postMessage (MkMsg type fd value None);;
    Ret (if (ok : bool) then SOFTBUS_OK else SOFTBUS_ERR).

Definition ConnectDeviceExist (connId : Z) (r : RequestInfo) : Prog unit :=
  ref <- GetConnectionRef connId;;
  match ref with
  | None => Ret tt
  | Some a =>
      side <- load SHeld a sideType;;
      m <- load SHeld a mac;;
      ReleaseConnectionRef a;;
      match copyMac m with
      | None => Ret tt
      | Some m' =>
          answer r true connId (Some (ConnManager.MkInfo 1 side ConnManager.CONNECT_BR (ConnManager.BrPeer m')));;
          PackRequest CONNECT_REF_INCRESE connId
      end
  end.

Definition ConnectDeviceStateConnecting (connId : Z) (r : RequestInfo) : Prog Z :=
  m <- ask mem;;
  if negb m then Ret SOFTBUS_ERR
  else
    ret <- AddRequestByConnId connId r;;
    Ret (if ret =? SOFTBUS_OK then SOFTBUS_OK else SOFTBUS_ERR).

Definition ConnectDeviceStateClosing (connId : Z) (r : RequestInfo) : Prog Z :=
  m <- ask mem;;
  if negb m then Ret SOFTBUS_ERR
  else
    ret <- AddPendingRequestByConnId connId r;;
    Ret (if ret =? SOFTBUS_OK then SOFTBUS_OK else SOFTBUS_ERR).

Definition ConnectDeviceFirstTime (o : ConnectOption) (r : RequestInfo) : Prog Z :=
  node <- CreateBrconnectionNode true;;
  match node with
  | None => Ret SOFTBUS_ERR
  | Some a =>
      m <- ask mem;;
      if negb m then ReleaseBrconnectionNode a;; Ret SOFTBUS_ERR
      else
        store SOwn a (fun i => setRequests (r :: requestList i) (pendingRequestList i) i);;
        match copyMac (macOf o) with
        | None => ReleaseBrconnectionNode a;; Ret SOFTBUS_ERR
        | Some m' =>
            store SOwn a (setMac m');;
            connId <- load SOwn a connectionId;;
            added <- AddConnectionList a;;
            if negb (added =? SOFTBUS_OK) then ReleaseBrconnectionNode a;; Ret SOFTBUS_ERR
            else
              ret <- ConnBrOnEvent ADD_CONN_BR_CLIENT_CONNECTED_MSG connId connId;;
              if negb (ret =? SOFTBUS_OK) then ReleasePublished a;; Ret SOFTBUS_ERR
              else Ret SOFTBUS_OK
        end
  end.

Definition lockBrConn : Prog bool :=
  act (fun e w => if negb (lockOk e) then Done false w else if g_brConnLock w then Blocked else Done true (setBrConnLock true w)).

Definition unlockBrConn : Prog unit := act (fun _ w => Done tt (setBrConnLock false w)).

Definition tooMany (connCount : Z) : bool := (connCount =? SOFTBUS_ERR) || (g_brMaxConnCount <? connCount).

Definition ConnectDevice (o : ConnectOption) (r : RequestInfo) : Prog Z :=
  HasDiffMacDeviceExit o;;
  l <- lockBrConn;;
  if negb l then Ret SOFTBUS_ERR
  else
    x <- GetBrConnStateByConnOption o;;
    let '(connState, connId) := x in
    ret <- (if connState =? BR_CONNECTION_STATE_CONNECTED then ConnectDeviceExist connId r;; Ret SOFTBUS_OK
            else if connState =? BR_CONNECTION_STATE_CONNECTING then ConnectDeviceStateConnecting connId r
            else if connState =? BR_CONNECTION_STATE_CLOSING then ConnectDeviceStateClosing connId r
            else if connState =? BR_CONNECTION_STATE_CLOSED then
              connCount <- GetBrConnectionCount;;
              if tooMany connCount then
                match ConnManager.OnConnectFailed (result r) with
                | None => act (fun _ _ => Wrong SNull)
                | Some _ => note (EAnswer r false 0 None);; Ret SOFTBUS_ERR
                end
              else ConnectDeviceFirstTime o r
            else Ret SOFTBUS_OK);;
    unlockBrConn;;
    Ret ret.

Definition DisConnect (fd : Z) : Prog unit := note (EDisConnect fd).

(** Without the connection the information is what the stack holds. *)
Definition BrDisconnect (fd value : Z) : Prog unit :=
  x <- SetBrConnStateBySocket fd BR_CONNECTION_STATE_CLOSED;;
  let '(connId, per) := x in
  let perState := default BR_CONNECTION_STATE_CLOSED per in
  if connId =? 0 then Ret tt
  else
    y <- GetBrRequestListByConnId connId;;
    let '(notifyList, info) := y in
    pendings <- GetAndRemovePendingRequestByConnId connId;;
    (if negb (perState =? BR_CONNECTION_STATE_CLOSED) then
       NotifyDisconnect notifyList connId info value;; ReleaseConnectionRefByConnId connId
     else Ret tt);;
    junk <- ask raw;;
    let m := match info with
             | Some i => match ConnManager.ipeer i with ConnManager.BrPeer b => b | _ => junk end
             | None => junk
             end in
    match copyMac m with
    | None => Ret tt
    | Some m' =>
        forEach pendings (fun r =>
          ConnectDevice (ConnManager.MkOption ConnManager.CONNECT_BR (ConnManager.BrPeer m') CONN_SIDE_CLIENT) r;; Ret tt)
    end.

Definition emptyRequest : RequestInfo := MkReq 0 (ConnManager.MkResult None None).

(** A socket that is known already gives [SOFTBUS_ERR], as a number. *)
Definition ServerOnBrConnect (fd : Z) : Prog Z :=
  known <- IsExitBrConnectByFd fd;;
  if (known : bool) then Ret (u32 SOFTBUS_ERR)
  else
    node <- CreateBrconnectionNode false;;
    match node with
    | None => DisConnect fd;; Ret 0
    | Some a =>
        m <- ask mem;;
        if negb m then ReleaseBrconnectionNode a;; DisConnect fd;; Ret 0
        else
          note (EIssue emptyRequest);;
          store SOwn a (fun i => setRequests (emptyRequest :: requestList i) (pendingRequestList i) i);;
          dev <- ask (fun e => (choice e, take 6 (raw e ++ replicate 6 0)));;
          if negb dev.1 then ReleaseBrconnectionNode a;; DisConnect fd;; Ret 0
          else
            match Utils.ConvertBtMacToStr (Some (replicate 18 0)) BT_MAC_LEN (Some dev.2) 6 with
            | None => act (fun _ _ => Wrong SString)
            | Some (r, str) =>
                if negb (r =? SOFTBUS_OK) then ReleaseBrconnectionNode a;; DisConnect fd;; Ret 0
                else
                  let text := default [] str in
                  store SOwn a (fun i => setState BR_CONNECTION_STATE_CONNECTED (setSocket fd (setMac text i)));;
                  connId <- load SOwn a connectionId;;
                  added <- AddConnectionList a;;
                  if negb (added =? SOFTBUS_OK) then ReleaseBrconnectionNode a;; DisConnect fd;; Ret connId
                  else
                    ret <- NotifyServerConn connId text;;
                    if negb (ret =? SOFTBUS_OK) then DisConnect fd;; ReleaseConnectionRefByConnId connId;; Ret 0
                    else Ret connId
            end
    end.

Definition PostBytes (connId : Z) (data : bytes) (n p f : Z) : Prog Z :=
  ready <- IsBrDeviceReady connId;;
  if negb ready then Ret SOFTBUS_BRCONNECTION_POSTBYTES_ERROR
  else
    m <- ask mem;;
    if negb m then Ret SOFTBUS_MALLOC_ERR
    else BrEnqueueNonBlock (MkNode connId p f (p =? 0) 0 (u32 n) data false).

Definition DisconnectDevice (connId : Z) : Prog Z :=
  there <- IsExitConnectionById connId;;
  if negb there then Ret SOFTBUS_BRCONNECTION_DISCONNECT_NOTFIND
  else PackRequest CONNECT_REF_DECRESE connId;; Ret SOFTBUS_OK.

(** [if (!IsBrQueueEmpty()) SoftBusSleepMs(DISCONN_DELAY_TIME)]: the queues are
    read without their lock; whatever is read, time passes. *)
Definition waitQueue : Prog unit := act (fun _ w => Done tt w).

Definition DisconnectDeviceNow (o : ConnectOption) : Prog Z :=
  if negb (ConnManager.otype o =? ConnManager.CONNECT_BR) then Ret SOFTBUS_ERR
  else
    x <- BrClosingByConnOption o;;
    let '(ret, fd, side) := x in
    if negb (ret =? SOFTBUS_OK) then Ret SOFTBUS_ERR
    else
      waitQueue;;
      if side =? BR_SERVICE_TYPE then ConnBrOnEvent ADD_CONN_BR_SERVICE_DISCONNECTED_MSG fd fd
      else ConnBrOnEvent ADD_CONN_BR_CLIENT_DISCONNECTED_MSG fd fd.

(** ** Sending *)

(** Waiting while the link is congested, once; the choice is a wake-up. *)
Definition waitCongest (a : nat) : Prog unit :=
  act (fun e w =>
    match infos w !! a with
    | None => Wrong SHeld
    | Some i =>
        if (conGestState i =? BT_RFCOM_CONGEST_ON) && (state i =? BR_CONNECTION_STATE_CONNECTED) && negb (choice e)
        then Blocked else Done tt w
    end).

(** The loop of [BrTransSend] as a program; [BrTrans.sendLoop] has its
    bounds. *)
Fixpoint sendLoop (fuel : nat) (a : nat) (fd : Z) (data : bytes) (tempLen : Z) : Prog Z :=
  if negb (0 <? tempLen) then Ret SOFTBUS_OK
  else match fuel with
  | O => act (fun _ _ => Blocked)
  | S fuel' =>
      waitCongest a;;
      let sendLength := if g_brSendPeerLen <? tempLen then g_brSendPeerLen else tempLen in
      r <- act (fun e w => Done (ans e) (emit (EWrite fd (take (Z.to_nat sendLength) data)) w));;
      if r =? -1 then Ret SOFTBUS_ERR
      else sendLoop fuel' a fd (drop (Z.to_nat sendLength) data) (tempLen - sendLength)
  end.

Definition BrTransSend (a : nat) (data : bytes) (n : Z) : Prog Z :=
  fd <- load SHeld a socketFd;;
  if fd =? -1 then Ret SOFTBUS_ERR
  else sendLoop (length data) a fd data (s32 n).

Definition SendAck (a : nat) (win sq : Z) : Prog Z :=
  buf <- BrPackRequestOrResponse METHOD_NOTIFY_ACK (s32 win) sq;;
  match buf with
  | None => Ret SOFTBUS_ERR
  | Some (b, n) =>
      id <- load SHeld a connectionId;;
      ret <- CreateBrPendingPacket id sq;;
      if negb (ret =? SOFTBUS_OK) then Ret ret
      else
        ret <- BrTransSend a b n;;
        (if negb (ret =? SOFTBUS_OK) then DelBrPendingPacket id sq else Ret tt);;
        Ret ret
  end.

Definition onTimeout (i : BrConnectionInfo) : BrConnectionInfo :=
  let t := u32 (ackTimeoutCount i + 1) in
  let w1 := if (MIN_WINDOWS <? windows i) && (Z.land t 1 =? 0) then windows i - 1 else windows i in
  let w2 := if (WINDOWS_ACK_FAILED_TIMES <? t) && (w1 <? DEFAULT_WINDOWS) then DEFAULT_WINDOWS else w1 in
  setAck (seq i) (waitSeq i) w2 t i.

Definition onTriggered (i : BrConnectionInfo) : BrConnectionInfo :=
  setAck (seq i) (waitSeq i) (if windows i <? MAX_WINDOWS then windows i + 1 else windows i) 0 i.

Definition WaitAck (a : nat) (sq : Z) : Prog unit :=
  id <- load SHeld a connectionId;;
  ret <- GetBrPendingPacket id sq;;
  if ret =? SOFTBUS_ALREADY_TRIGGERED then store SHeld a onTriggered
  else if ret =? SOFTBUS_TIMOUT then store SHeld a onTimeout
  else store SHeld a (fun i => setAck (seq i) (waitSeq i) (windows i) 0 i).

Definition nextSeq (s : Z) : Z := let s' := u64 (s + 1) in if s' =? 0 then 1 else s'.

Definition UpdataSeq (a : nat) : Prog Z :=
  store SHeld a (fun i => setAck (nextSeq (seq i)) (waitSeq i) (windows i) (ackTimeoutCount i) i);;
  load SHeld a seq.

Definition setWaitSeq (sq : Z) (i : BrConnectionInfo) : BrConnectionInfo := setAck (seq i) sq (windows i) (ackTimeoutCount i) i.

(** One round of [SendHandlerLoop]. *)
Definition SendHandlerRound : Prog unit :=
  n <- act (fun e w =>
         if choice e then let '(r, q) := dequeue (queue w) in Done r (setQueue q w) else Done None w);;
  match n with
  | None => Ret tt
  | Some node =>
      ref <- GetConnectionRef (nconnectionId node);;
      match ref with
      | None => Ret tt
      | Some a =>
          fd <- load SHeld a socketFd;;
          if fd =? INVALID_SOCKET then ReleaseConnectionRef a
          else
            sq <- UpdataSeq a;;
            win <- load SHeld a windows;;
            if win =? 0 then act (fun _ _ => Wrong SWindow)
            else
              (if sq mod win =? 0 then
                 ret <- SendAck a win sq;;
                 if ret =? SOFTBUS_OK then store SHeld a (setWaitSeq sq) else Ret tt
               else Ret tt);;
              ws <- load SHeld a waitSeq;;
              (if negb (ws =? 0) && (1 <? win) && (sq mod win =? win - 1) then
                 WaitAck a ws;; store SHeld a (setWaitSeq 0)
               else Ret tt);;
              BrTransSend a (ndata node) (nlen node);;
              ReleaseConnectionRef a
      end
  end.

(** ** Listening *)

Definition ConnBrAccept (tryCount num : Z) : Prog (option Task) :=
  if negb (tryCount <? TRY_OPEN_SERVER_COUNT) then Ret None
  else
    go <- act (fun _ w => Done (g_startListenFlag w && g_brEnable w) w);;
    if negb go then Ret None
    else
      connCount <- GetBrConnectionCount;;
      if tooMany connCount then Ret (Some (TAccept tryCount num))
      else
        serverId <- ask ans;;
        if serverId =? SOFTBUS_ERR then Ret (Some (TAccept (tryCount + 1) num))
        else
          clientId <- ask ans;;
          on <- act (fun _ w => Done (g_brEnable w) w);;
          (if negb (clientId =? SOFTBUS_ERR) && on then
             ConnBrOnEvent ADD_CONN_BR_SERVICE_CONNECTED_MSG clientId clientId;; Ret tt
           else Ret tt);;
          Ret (Some (TAccept 0 (s32 (num + 1)))).

Definition StartLocalListening (type : Z) : Prog Z :=
  if negb (type =? ConnManager.CONNECT_BR) then Ret SOFTBUS_ERR
  else
    f <- act (fun _ w => Done (g_startListenFlag w) w);;
    if (f : bool) then Ret SOFTBUS_OK
    else
      ok <- act (fun e w => if initOk e then Done true (spawn (TAccept 0 0) w) else Done false w);;
      if negb ok then Ret SOFTBUS_ERR
      else act (fun _ w => Done tt (setListen true (g_brEnable w) w));; Ret SOFTBUS_OK.

Definition StopLocalListening (type : Z) : Prog Z :=
  if negb (type =? ConnManager.CONNECT_BR) then Ret SOFTBUS_ERR
  else act (fun _ w => Done tt (setListen false (g_brEnable w) w));; Ret SOFTBUS_OK.

Definition StateChangedCallback (on : bool) : Prog unit :=
  act (fun _ w => Done tt (setListen (g_startListenFlag w) on w));;
  (if on then StartLocalListening ConnManager.CONNECT_BR else StopLocalListening ConnManager.CONNECT_BR);;
  Ret tt.

(** ** Receiving *)

(** [BrTransReadOneFrame]: a frame, or a code; [BrTrans.readLoop] says which. *)
Definition BrTransReadOneFrame (connId : Z) : Prog (Z + bytes) :=
  ref <- GetConnectionRef connId;;
  match ref with
  | None => Ret (inl BrTrans.BR_READ_FAILED)
  | Some a =>
      r <- act (fun e w =>
             match infos w !! a with
             | None => Wrong SHeld
             | Some _ => Done (if choice e then inr (raw e) else inl BrTrans.BR_READ_SOCKET_CLOSED) w
             end);;
      ReleaseConnectionRef a;;
      Ret r
  end.

(** The start of a reader, which connects first when it is a client's. *)
Definition ConnBrRead (connId fd : Z) : Prog (option Task) :=
  if fd =? INVALID_SOCKET then
    fd' <- ClientOnBrConnect connId;;
    if fd' =? INVALID_SOCKET then Ret None else Ret (Some (TReadLoop connId fd'))
  else Ret (Some (TReadLoop connId fd)).

(** One round of its loop. *)
Definition ConnBrReadRound (connId fd : Z) : Prog (option Task) :=
  r <- BrTransReadOneFrame connId;;
  match r with
  | inl _ => DisConnect fd;; BrDisconnect fd fd;; Ret None
  | inr frame =>
      postMessage (MkMsg ADD_CONN_BR_RECV_MSG connId (len frame) (Some frame));;
      Ret (Some (TReadLoop connId fd))
  end.

Definition BrConnectedEventHandle (isClient : bool) (value : Z) : Prog unit :=
  id <- (if isClient then Ret value else ServerOnBrConnect value);;
  let fd := if isClient then INVALID_SOCKET else value in
  if id =? 0 then Ret tt
  else
    ok <- act (fun e w => if mem e && initOk e then Done true (spawn (TRead id fd) w) else Done false w);;
    if (ok : bool) then Ret tt
    else if isClient then ClientNoticeResultBrConnect id false fd;; ReleaseConnectionRefByConnId id
    else ConnBrOnEvent ADD_CONN_BR_SERVICE_DISCONNECTED_MSG fd fd;; Ret tt.

Definition Resume (connId : Z) : Prog unit :=
  x <- ResumeConnection connId;;
  let '(ret, pendings) := x in
  if negb (ret =? SOFTBUS_OK) then Ret tt
  else forEach pendings (fun r => ConnectDeviceExist connId r).

Definition OnPackResponse (delta peerRef connId : Z) : Prog unit :=
  ref <- GetConnectionRef connId;;
  match ref with
  | None => Ret tt
  | Some a =>
      old <- load SHeld a refCount;;
      store SHeld a (setRefCount (s32 (old + delta)));;
      myRefCount <- load SHeld a refCount;;
      fd <- load SHeld a socketFd;;
      side <- load SHeld a sideType;;
      ReleaseConnectionRef a;;
      if 0 <? peerRef then Resume connId
      else if myRefCount <=? 0 then
        SetBrConnStateByConnId connId BR_CONNECTION_STATE_CLOSING;;
        ConnBrOnEvent (if side =? BR_SERVICE_TYPE then ADD_CONN_BR_SERVICE_DISCONNECTED_MSG
                       else ADD_CONN_BR_CLIENT_DISCONNECTED_MSG) fd fd;;
        Ret tt
      else
        buf <- BrPackRequestOrResponse METHOD_NOTIFY_RESPONSE delta myRefCount;;
        match buf with
        | None => Ret tt
        | Some (b, n) => PostBytesInner connId METHOD_NOTIFY_RESPONSE b n;; Ret tt
        end
  end.

Definition OnAck (connId localWindows remoteSeq : Z) : Prog Z :=
  buf <- BrPackRequestOrResponse METHOD_ACK_RESPONSE (s32 localWindows) remoteSeq;;
  match buf with
  | Some (b, n) => PostBytesInner connId METHOD_ACK_RESPONSE b n
  | None => Ret SOFTBUS_ERR
  end.

Definition BrConnectedComdHandl (connId : Z) (data : list (Key * Z)) : Prog unit :=
  match GetJsonObjectNumberItem data KEY_METHOD with
  | None => Ret tt
  | Some keyMethod =>
      if keyMethod =? METHOD_NOTIFY_REQUEST then
        match GetJsonObjectSignedNumberItem data KEY_DELTA, GetJsonObjectSignedNumberItem data KEY_REFERENCE_NUM with
        | Some keyDelta, Some keyReferenceNum => OnPackResponse keyDelta keyReferenceNum connId
        | _, _ => Ret tt
        end
      else if keyMethod =? METHOD_NOTIFY_RESPONSE then
        match GetJsonObjectSignedNumberItem data KEY_REFERENCE_NUM with
        | Some _ => SetBrConnStateByConnId connId BR_CONNECTION_STATE_CONNECTED
        | None => Ret tt
        end
      else if keyMethod =? METHOD_NOTIFY_ACK then
        match GetJsonObjectSignedNumberItem data KEY_WINDOWS, GetJsonObjectNumberItem data KEY_ACK_SEQ_NUM with
        | Some _, Some remoteSeq =>
            local <- GetLocalWindowsByConnId connId;;
            OnAck connId local remoteSeq;; Ret tt
        | _, _ => Ret tt
        end
      else if keyMethod =? METHOD_ACK_RESPONSE then
        match GetJsonObjectSignedNumberItem data KEY_WINDOWS, GetJsonObjectNumberItem data KEY_ACK_SEQ_NUM with
        | Some _, Some remoteSeq => SetBrPendingPacket connId (u64 remoteSeq);; Ret tt
        | _, _ => Ret tt
        end
      else Ret tt
  end.

Definition BrRecvDataHandle (connId : Z) (buf : bytes) (n : Z) : Prog unit :=
  match BrTrans.BrRecvDataHandle true buf with
  | None => act (fun _ _ => Wrong SFrame)
  | Some (module, sq) =>
      if module =? BrTrans.MODULE_CONNECTION then
        match parseJson (drop 24 buf) with
        | None => Ret tt
        | Some data => BrConnectedComdHandl connId data
        end
      else note (EData connId module sq buf n)
  end.

Definition BrConnMsgHandler (m : SoftBusMessage) : Prog unit :=
  if what m =? ADD_CONN_BR_CLIENT_CONNECTED_MSG then BrConnectedEventHandle true (arg1 m)
  else if what m =? ADD_CONN_BR_SERVICE_CONNECTED_MSG then BrConnectedEventHandle false (arg1 m)
  else if (what m =? ADD_CONN_BR_CLIENT_DISCONNECTED_MSG) || (what m =? ADD_CONN_BR_SERVICE_DISCONNECTED_MSG) then
    DisConnect (arg1 m);; BrDisconnect (arg1 m) (arg2 m)
  else if what m =? ADD_CONN_BR_RECV_MSG then
    match obj m with
    | None => act (fun _ _ => Wrong SFrame)
    | Some b => BrRecvDataHandle (arg1 m) b (arg2 m)
    end
  else if what m =? ADD_CONN_BR_CLOSING_TIMEOUT_MSG then Resume (arg1 m)
  else Ret tt.

(** One round of the looper: the next message, or the next timer when its
    time has come. *)
Definition takeMessage : Prog SoftBusMessage :=
  act (fun e w =>
    match (if choice e then timers w else []), msgs w with
    | t :: ts, ms => Done t (setMsgs ms ts w)
    | [], m :: ms => Done m (setMsgs ms (timers w) w)
    | [], [] => Blocked
    end).

Definition body (t : Task) : Prog (option Task) :=
  match t with
  | TLooper => m <- takeMessage;; BrConnMsgHandler m;; Ret (Some TLooper)
  | TSender => SendHandlerRound;; Ret (Some TSender)
  | TRead connId fd => ConnBrRead connId fd
  | TReadLoop connId fd => ConnBrReadRound connId fd
  | TAccept tryCount num => ConnBrAccept tryCount num
  | TConnect o r => ConnectDevice o r;; Ret None
  | TDisconnect connId => DisconnectDevice connId;; Ret None
  | TDisconnectNow o => DisconnectDeviceNow o;; Ret None
  | TPost connId data n p f => PostBytes connId data n p f;; Ret None
  | TInfo connId => GetConnectionInfo connId;; Ret None
  | TCheck o => BrCheckActiveConnection o;; Ret None
  | TStart type => StartLocalListening type;; Ret None
  | TStop type => StopLocalListening type;; Ret None
  | TCongest fd value => ConnBrOnEvent ADD_CONN_BR_CONGEST_MSG fd value;; Ret None
  | TState on => StateChangedCallback on;; Ret None
  end.

(** ** Threads *)

(** A thread between two rounds, in a round, or at its end. *)
Inductive Thread := Idle (t : Task) | Running (p : Prog (option Task)) | Ended.

Record System := MkSystem { world : World; threads : list Thread }.

(** A call from outside, or an action of a thread. *)
Inductive Choice := Call (t : Task) | Step (i : nat) (e : Env).

Definition isCall (t : Task) : bool :=
  match t with TLooper | TSender | TRead _ _ | TReadLoop _ _ | TAccept _ _ => false | _ => true end.

(** The threads that were started join the others. *)
Definition adopt (w : World) (ts : list Thread) : System :=
  MkSystem (MkWorld (infos w) (g_connection_list w) (next w) (g_nextConnectionId w) (stuck w) (g_brConnLock w) (g_pendingList w)
    (pendStuck w) (queue w) (msgs w) (timers w) (g_startListenFlag w) (g_brEnable w) [] (log w)) (ts ++ (Idle <$> spawned w)).

Definition settle (p : Prog (option Task)) : Thread :=
  match p with
  | Ret (Some t) => Idle t
  | Ret None => Ended
  | Act _ _ => Running p
  end.

(** What a choice leads to: a system, or the site where it goes wrong.  A
    choice that is not possible changes nothing. *)
Definition step (c : Choice) (s : System) : System + Site :=
  match c with
  | Call t =>
      if isCall t then
        let w := match t with TConnect _ r => emit (EIssue r) (world s) | _ => world s end in
        inl (MkSystem w (threads s ++ [Idle t]))
      else inl s
  | Step i e =>
      match threads s !! i with
      | Some (Idle t) => inl (MkSystem (world s) (<[i := settle (body t)]> (threads s)))
      | Some (Running (Act f k)) =>
          match f e (world s) with
          | Done b w => inl (adopt w (<[i := settle (k b)]> (threads s)))
          | Blocked => inl s
          | Wrong site => inr site
          end
      | _ => inl s
      end
  end.

Fixpoint run (cs : list Choice) (s : System) : System + Site :=
  match cs with
  | [] => inl s
  | c :: rest => match step c s with inl s' => run rest s' | inr site => inr site end
  end.

(** ** Start *)

Definition world0 (q : Q) : World := MkWorld ∅ [] 0 0 false false [] false q [] [] false false [] [].

(** The configuration read so far. *)
Record Property := MkProperty { brBuffSize : Z; brSendPeerLen : Z; brSendQueueMaxLen : Z; brMaxConnCount : Z }.

(** [SoftbusGetConfig] gives a value or fails and leaves the old one; the
    length of the queue is not reset before. *)
Definition InitProperty (buffSize peerLen queueLen connCount : option Z) (old : Property) : Z * Property :=
  let p := MkProperty (default INVALID_LENGTH buffSize) (default INVALID_LENGTH peerLen)
             (default (brSendQueueMaxLen old) queueLen) (default INVALID_LENGTH connCount) in
  if (brBuffSize p =? INVALID_LENGTH) || (MAX_BR_SIZE <? brBuffSize p) then (SOFTBUS_ERR, p)
  else if (brSendPeerLen p =? INVALID_LENGTH) || (MAX_BR_PEER_SIZE <? brSendPeerLen p) then (SOFTBUS_ERR, p)
  else if (brSendQueueMaxLen p =? SOFTBUS_ERR) || (MAX_BR_PEER_SIZE <? brSendQueueMaxLen p) then (SOFTBUS_ERR, p)
  else if brMaxConnCount p =? INVALID_LENGTH then (SOFTBUS_ERR, p)
  else (SOFTBUS_OK, p).

(** The results of the parts in the order in which they start: the properties,
    the driver, the pending packets, the queue, the sending thread, the looper,
    the listener.  Whether the medium is there, and the threads that run. *)
Definition ConnInitBr (property driver pendingOk queueOk senderOk looperOk listenerOk : bool) : bool * list Thread :=
  if negb property then (false, [])
  else if negb driver then (false, [])
  else if negb pendingOk then (false, [])
  else if negb queueOk then (false, [])
  else if negb senderOk then (false, [])
  else if negb looperOk then (false, [Idle TSender])
  else if negb listenerOk then (false, [Idle TSender; Idle TLooper])
  else (true, [Idle TSender; Idle TLooper]).

Definition system0 (q : Q) : System := MkSystem (world0 q) (ConnInitBr true true true true true true true).2.

End Connections.

End BrConnection.
