(* ===== verification/BrSafety.v ===== *)
(** * The life of a Bluetooth connection

    The invariant of the threads of [BrConnection], thread by thread: what a
    thread owns ([Own]) is a reference to a connection, a connection it has not
    published, requests it has to answer, and the right to take pending
    packets away.  [wp p o Q]: a thread that owns [o] can run [p] among any
    other threads, and ends owning what [Q] says.

    What the system answers is free, except that a frame has its whole head
    ([envOk]); [BrTrans] says for which bytes it has, and [br_short_frame]
    when it has not.  The runs at the end reach the places the theorems leave
    open. *)

From S2P Require Import Prelude Errno Bytes Adapter Utils BrTrans ConnManager BrConnection.
Import Errno Bytes Adapter.Mem Adapter.ByteOrder.
Import BrConnection.BrConnection.

Module BrSafety.

(** ** Histories *)

Definition dropsOf (l : list Event) : list nat := omap (fun e => match e with EDrop a => Some a | _ => None end) l.
Definition leaksOf (l : list Event) : list nat := omap (fun e => match e with ELeak a => Some a | _ => None end) l.
Definition issuedOf (l : list Event) : list RequestInfo := omap (fun e => match e with EIssue r => Some r | _ => None end) l.
Definition answeredOf (l : list Event) : list RequestInfo :=
  omap (fun e => match e with EAnswer r _ _ _ => Some r | _ => None end) l.

(** How often [a] occurs. *)
Definition count (a : nat) (l : list nat) : Z := Z.of_nat (length (filter (fun b => b = a) l)).

Lemma count_app a l l' : count a (l ++ l') = count a l + count a l'.
Proof. unfold count. rewrite filter_app, length_app. lia. Qed.

Lemma count_one a b : count a [b] = if decide (b = a) then 1 else 0.
Proof. unfold count. rewrite filter_cons. by destruct (decide (b = a)). Qed.

Lemma count_nonneg a l : 0 <= count a l.
Proof. unfold count. lia. Qed.

Lemma count_pos a l : 0 < count a l <-> a ∈ l.
Proof.
  unfold count. split.
  - intros H. destruct (filter (fun b => b = a) l) as [|b r] eqn:E; [cbn in H; lia|].
    assert (b ∈ filter (fun b => b = a) l) as Hb by (rewrite E; left). by apply list_elem_of_filter in Hb as [-> ?].
  - intros H. assert (a ∈ filter (fun b => b = a) l) as Hf by (by apply list_elem_of_filter).
    destruct (filter (fun b => b = a) l); [by apply elem_of_nil in Hf|cbn; lia].
Qed.

(** ** What a thread owns *)

Record Own := MkOwn {
  oref : option nat; opriv : option nat; opub : option nat; oreqs : list RequestInfo; otok : option (option (Z * Z)) }.

(** What the other threads own together. *)
Record Rest := MkRest {
  rref : list nat; rpriv : list nat; rpub : list nat; rreqs : list RequestInfo; rtok : list (option (Z * Z)) }.

Definition add (o : Own) (r : Rest) : Rest :=
  MkRest (option_list (oref o) ++ rref r) (option_list (opriv o) ++ rpriv r) (option_list (opub o) ++ rpub r)
    (oreqs o ++ rreqs r) (option_list (otok o) ++ rtok r).

(** The requests kept in the connections. *)
Definition kept (i : BrConnectionInfo) : list RequestInfo := requestList i ++ pendingRequestList i.
Definition stored (m : gmap nat BrConnectionInfo) : list RequestInfo := (map_to_list m) ≫= (fun ai => kept ai.2).

Definition standing (drops : list nat) (a : nat) : Z := if decide (a ∈ drops) then 0 else 1.

(** The references, as long as no connection lost the one it started with
    twice. *)
Record refsOk (m : gmap nat BrConnectionInfo) (conns : list nat) (nxt : nat) (drops leaks : list nat) (t : Rest) : Prop := {
  r_nodup : NoDup conns;
  r_conn a : a ∈ conns -> exists i, m !! a = Some i /\
    infoObjRefCount i = standing drops a + count a (rref t) + count a leaks /\ 0 < infoObjRefCount i;
  r_ref a : a ∈ rref t \/ a ∈ leaks -> a ∈ conns;
  r_priv : NoDup (rpriv t);
  r_own a : a ∈ rpriv t -> a ∉ conns /\ a ∉ drops /\ exists i, m !! a = Some i /\ infoObjRefCount i = 1;
  r_dom a : is_Some (m !! a) -> a ∈ conns \/ a ∈ rpriv t;
  r_fresh a : is_Some (m !! a) \/ a ∈ drops \/ a ∈ rpub t -> (a < nxt)%nat;
  r_pub a : a ∈ rpub t -> a ∉ rpriv t }.

Definition msgOk (x : SoftBusMessage) : Prop :=
  what x = ADD_CONN_BR_RECV_MSG -> exists b, obj x = Some b /\ BrTrans.HEAD_SIZE <= len b.

Definition plain (t : Task) : Prop := match t with TRead _ _ | TAccept _ _ => True | _ => False end.

Section Safety.

Context {Q : Type}.

Record inv (w : World (Q := Q)) (t : Rest) : Prop := {
  i_refs : NoDup (dropsOf (log w)) ->
    refsOk (infos w) (g_connection_list w) (next w) (dropsOf (log w)) (leaksOf (log w)) t;
  i_reqs : answeredOf (log w) ++ stored (infos w) ++ rreqs t ⊆+ issuedOf (log w);
  i_windows a i : infos w !! a = Some i -> MIN_WINDOWS <= windows i <= MAX_WINDOWS;
  i_tok : (length (rtok t) <= 1)%nat;
  i_pend k : Some k ∈ rtok t -> is_Some (packet k.1 k.2 w);
  i_msgs : Forall msgOk (msgs w) /\ Forall msgOk (timers w);
  i_spawned : Forall plain (spawned w) }.

(** Sites at which the code trusts its caller, or is wrong. *)
Definition tolerated (s : Site) : bool :=
  match s with SString | SNull | SStateRead | SPublished => true | _ => false end.

Definition envOk (e : Env) : Prop := BrTrans.HEAD_SIZE <= len (raw e).

(** Fewer requests to answer, and no interest in a published connection. *)
Definition weaker (o' o : Own) : Prop :=
  oref o' = oref o /\ opriv o' = opriv o /\ (opub o' = opub o \/ opub o' = None) /\ oreqs o' ⊆+ oreqs o /\ otok o' = otok o.

Fixpoint wp {A} (p : Prog (Q := Q) A) (o : Own) (Post : A -> Own -> Prop) : Prop :=
  match p with
  | Ret a => exists o', weaker o' o /\ Post a o'
  | Act f k => forall e w r, envOk e -> inv w (add o r) ->
      match f e w with
      | Done b w' => exists o', inv w' (add o' r) /\ wp (k b) o' Post
      | Blocked => True
      | Wrong s => tolerated s = true \/ ~ NoDup (dropsOf (log w))
      end
  end.

(** ** The rules *)

Lemma weaker_refl o : weaker o o.
Proof. unfold weaker. cbn. auto 10. Qed.

Lemma weaker_trans o1 o2 o3 : weaker o1 o2 -> weaker o2 o3 -> weaker o1 o3.
Proof.
  intros (A1 & A2 & A3 & A4 & A5) (B1 & B2 & B3 & B4 & B5). split_and!; try congruence.
  - destruct A3 as [->|]; [done|by right].
  - by etransitivity.
Qed.

Lemma weaker_reqs ref priv pub l l' tok : l' ⊆+ l -> weaker (MkOwn ref priv pub l' tok) (MkOwn ref priv pub l tok).
Proof. unfold weaker. cbn. auto 10. Qed.

Lemma inv_weaker w o o' r : weaker o' o -> inv w (add o r) -> inv w (add o' r).
Proof.
  intros (A1 & A2 & A3 & A4 & A5) [H1 H2 H3 H4 H5 H6 H7]. split; try done.
  - intros Hd. destruct (H1 Hd). unfold add in *. cbn in *. rewrite A1, A2.
    assert (forall a, a ∈ option_list (opub o') ++ rpub r -> a ∈ option_list (opub o) ++ rpub r) as Hp.
    { intros a Ha. destruct A3 as [E|E]; rewrite E in Ha; [done|]. apply elem_of_app. by right. }
    split; cbn; try done; [|by intros a Ha; apply r_pub0, Hp].
    intros a [Ha|[Ha|Ha]]; apply r_fresh0; auto.
  - cbn in *. etransitivity; [|exact H2]. by apply submseteq_app, submseteq_app, submseteq_app.
  - cbn in *. by rewrite A5.
  - cbn in *. by rewrite A5.
Qed.

Lemma wp_weaken {A} (p : Prog A) o o' Post : weaker o' o -> wp p o' Post -> wp p o Post.
Proof.
  destruct p as [a|B f k]; cbn [wp].
  - intros H (o2 & H2 & HP). exists o2. split; [by eapply weaker_trans|done].
  - intros H Hp e w r He Hi. apply (Hp e w r He). by eapply inv_weaker.
Qed.

Lemma wp_conseq {A} (p : Prog A) o (P P' : A -> Own -> Prop) : wp p o P -> (forall a o', P a o' -> P' a o') -> wp p o P'.
Proof.
  revert o. induction p as [a|B f k IH]; intros o Hp HP; cbn [wp] in *.
  - destruct Hp as (o' & Hw & H). exists o'. auto.
  - intros e w r He Hi. specialize (Hp e w r He Hi). destruct (f e w) as [b w'| |s]; [|done|done].
    destruct Hp as (o' & Hi' & Hk). exists o'. split; [done|]. by apply IH.
Qed.

Lemma wp_seq {A B} (p : Prog A) (k : A -> Prog B) o Post : wp p o (fun a o' => wp (k a) o' Post) -> wp (bind p k) o Post.
Proof.
  revert o. induction p as [a|C f j IH]; intros o Hp; cbn [wp bind] in *.
  - destruct Hp as (o' & Hw & H). by eapply wp_weaken.
  - intros e w r He Hi. specialize (Hp e w r He Hi). destruct (f e w) as [b w'| |s]; [|done|done].
    destruct Hp as (o' & Hi' & Hk). exists o'. split; [done|]. by apply IH.
Qed.

Lemma wp_done {A} (a : A) o Post : Post a o -> wp (Ret a) o Post.
Proof. intros H. exists o. split; [apply weaker_refl|done]. Qed.

Lemma wp_ret_reqs {A} (a : A) ref priv pub l l' tok Post : l' ⊆+ l -> Post a (MkOwn ref priv pub l' tok) ->
  wp (Ret a) (MkOwn ref priv pub l tok) Post.
Proof. intros Hl H. eexists. split; [by apply weaker_reqs|done]. Qed.

Lemma wp_act {B} (f : Env -> World -> Res B) o (Post : B -> Own -> Prop) :
  (forall e w r, envOk e -> inv w (add o r) ->
    match f e w with
    | Done b w' => exists o', inv w' (add o' r) /\ Post b o'
    | Blocked => True
    | Wrong s => tolerated s = true \/ ~ NoDup (dropsOf (log w))
    end) -> wp (act f) o Post.
Proof.
  intros H. cbn [act wp]. intros e w r He Hi. specialize (H e w r He Hi). destruct (f e w) as [b w'| |s]; [|done|done].
  destruct H as (o' & Hi' & HP). exists o'. split; [done|]. by apply wp_done.
Qed.

(** A value of the system. *)
Lemma wp_ask {B} (f : Env -> B) o (Post : B -> Own -> Prop) : (forall e, envOk e -> Post (f e) o) -> wp (ask f) o Post.
Proof. intros H. apply wp_act. intros e w r He Hi. exists o. auto. Qed.

(** Reading the memory. *)
Lemma wp_look {B} (f : World -> B) o (Post : B -> Own -> Prop) : (forall b, Post b o) -> wp (act (fun _ w => Done (f w) w)) o Post.
Proof. intros H. apply wp_act. intros e w r He Hi. exists o. auto. Qed.

(** ** What leaves the invariant alone *)

Lemma refs_same m conns nxt drops leaks t t' : rref t' = rref t -> rpriv t' = rpriv t -> rpub t' = rpub t ->
  refsOk m conns nxt drops leaks t -> refsOk m conns nxt drops leaks t'.
Proof. intros E1 E2 E3 []. by split; rewrite ?E1, ?E2, ?E3. Qed.

(** A world with the same connections, history, packets, messages and
    threads. *)
Lemma inv_same (w w' : World) t : infos w' = infos w -> g_connection_list w' = g_connection_list w -> next w' = next w ->
  log w' = log w -> g_pendingList w' = g_pendingList w -> msgs w' = msgs w -> timers w' = timers w -> spawned w' = spawned w ->
  inv w t -> inv w' t.
Proof.
  intros E1 E2 E3 E4 E5 E6 E7 E8 [H1 H2 H3 H4 H5 H6 H7]. split; rewrite ?E1, ?E2, ?E3, ?E4, ?E6, ?E7, ?E8; try done.
  intros k Hk. unfold packet. rewrite E5. by apply H5.
Qed.

Lemma omap_snoc {A B} (f : A -> option B) l x : omap f (l ++ [x]) = omap f l ++ option_list (f x).
Proof. rewrite omap_app. cbn. by destruct (f x). Qed.

(** An event that is neither about requests nor about references. *)
Definition quiet (e : Event) : bool :=
  match e with EIssue _ | EAnswer _ _ _ _ | EDrop _ | ELeak _ => false | _ => true end.

Lemma inv_emit w e t : quiet e = true -> inv w t -> inv (emit e w) t.
Proof.
  intros He [H1 H2 H3 H4 H5 H6 H7].
  assert (dropsOf (log w ++ [e]) = dropsOf (log w)) as E1 by (unfold dropsOf; rewrite omap_snoc; destruct e; try done; apply app_nil_r).
  assert (leaksOf (log w ++ [e]) = leaksOf (log w)) as E2 by (unfold leaksOf; rewrite omap_snoc; destruct e; try done; apply app_nil_r).
  assert (issuedOf (log w ++ [e]) = issuedOf (log w)) as E3 by (unfold issuedOf; rewrite omap_snoc; destruct e; try done; apply app_nil_r).
  assert (answeredOf (log w ++ [e]) = answeredOf (log w)) as E4 by (unfold answeredOf; rewrite omap_snoc; destruct e; try done; apply app_nil_r).
  split; cbn [log emit infos g_connection_list next]; rewrite ?E1, ?E2, ?E3, ?E4; done.
Qed.

Lemma wp_note e o (Post : unit -> Own -> Prop) : quiet e = true -> Post tt o -> wp (note e) o Post.
Proof. intros He H. apply wp_act. intros e' w r _ Hi. exists o. split; [by apply inv_emit|done]. Qed.

(** ** Connections *)

Lemma stored_insert m a i : m !! a = None -> stored (<[a := i]> m) ≡ₚ kept i ++ stored m.
Proof.
  intros H. unfold stored. rewrite (bind_Permutation _ _ _ (map_to_list_insert m a i H)). done.
Qed.

Lemma stored_delete m a i : m !! a = Some i -> stored m ≡ₚ kept i ++ stored (delete a m).
Proof. intros H. rewrite <- (insert_delete_id m a i H) at 1. apply stored_insert, lookup_delete_eq. Qed.

Lemma stored_update m a i i' : m !! a = Some i -> stored (<[a := i']> m) ≡ₚ kept i' ++ stored (delete a m).
Proof. intros H. rewrite <- insert_delete_eq. apply stored_insert, lookup_delete_eq. Qed.

(** Changing a connection but not its references: the requests may move
    between it and the thread. *)
Lemma inv_put w a i i' o o' r : infos w !! a = Some i -> infoObjRefCount i' = infoObjRefCount i ->
  MIN_WINDOWS <= windows i' <= MAX_WINDOWS -> kept i' ++ oreqs o' ⊆+ kept i ++ oreqs o ->
  oref o' = oref o -> opriv o' = opriv o -> opub o' = opub o -> otok o' = otok o ->
  inv w (add o r) -> inv (putInfo a i' w) (add o' r).
Proof.
  intros Ha Hc Hw Hk E1 E2 E3 E4 [H1 H2 H3 H4 H5 H6 H7]. split; cbn [putInfo setInfos infos g_connection_list log next msgs timers spawned]; try done.
  - intros Hd. destruct (H1 Hd). split; cbn in *; rewrite ?E1, ?E2, ?E3; try done.
    + intros b Hb. destruct (r_conn0 b Hb) as (j & Hj & Hn & Hp). destruct (decide (a = b)) as [->|Hne].
      * assert (i = j) as -> by congruence. exists i'. rewrite lookup_insert_eq. split_and!; [done|congruence|congruence].
      * exists j. by rewrite lookup_insert_ne.
    + intros b Hb. destruct (r_own0 b Hb) as (Hb1 & Hb2 & j & Hj & Hn). split_and!; [done..|].
      destruct (decide (a = b)) as [->|Hne].
      * assert (i = j) as -> by congruence. exists i'. rewrite lookup_insert_eq. split; [done|congruence].
      * exists j. by rewrite lookup_insert_ne.
    + intros b [x Hb]. apply r_dom0. destruct (decide (a = b)) as [->|Hne]; [by exists i|]. rewrite lookup_insert_ne in Hb by done. by exists x.
    + intros b [[x Hb]|Hb]; apply r_fresh0; [left|by right]. destruct (decide (a = b)) as [->|Hne]; [by exists i|].
      rewrite lookup_insert_ne in Hb by done. by exists x.
  - cbn in *. etransitivity; [|exact H2]. apply submseteq_app; [done|].
    rewrite (stored_update _ a i i' Ha), (stored_delete _ a i Ha).
    rewrite <- !app_assoc, (Permutation_app_comm (stored _) (oreqs o' ++ _)), (Permutation_app_comm (stored _) (oreqs o ++ _)).
    rewrite <- !app_assoc, !(app_assoc (kept _)). by apply submseteq_app.
  - intros b j Hb. destruct (decide (a = b)) as [->|Hne]; [rewrite lookup_insert_eq in Hb; by injection Hb as <-|].
    rewrite lookup_insert_ne in Hb by done. by apply (H3 b).
  - cbn in *. by rewrite E4.
  - cbn in *. rewrite E4. intros k Hk'. by apply H5.
Qed.

(** The walk stays inside the list, as long as the references are sound. *)
Lemma walk_ok (m : gmap nat BrConnectionInfo) p l st : (forall a, a ∈ l -> is_Some (m !! a)) -> walk m p l = inl st -> st = SString.
Proof.
  induction l as [|a l IH]; intros H; cbn [walk]; [done|].
  destruct (H a ltac:(left)) as [i ->]. destruct (p i) as [[]|]; [done|apply IH; intros; apply H; by right|by intros [= <-]].
Qed.

Lemma walk_found (m : gmap nat BrConnectionInfo) p l a i : walk m p l = inr (Some (a, i)) -> a ∈ l /\ m !! a = Some i.
Proof.
  induction l as [|b l IH]; cbn [walk]; [done|]. destruct (m !! b) as [j|] eqn:Eb; [|done].
  destruct (p j) as [[]|]; [|intros H; destruct (IH H); split; [by right|done]|done]. intros [= -> ->]. split; [left|done].
Qed.

Lemma conns_alive w t : inv w t -> NoDup (dropsOf (log w)) -> forall a, a ∈ g_connection_list w -> is_Some (infos w !! a).
Proof. intros Hi Hd a Ha. destruct (r_conn _ _ _ _ _ _ (i_refs w t Hi Hd) a Ha) as (i & Hi' & _). by exists i. Qed.

(** A critical section that looks for a connection. *)
Lemma found_spec {B} p (miss : World -> Res B) hit w o r (Post : B -> Own -> Prop) : inv w (add o r) ->
  (match miss w with
   | Done b w' => exists o', inv w' (add o' r) /\ Post b o'
   | Blocked => True
   | Wrong s => tolerated s = true \/ ~ NoDup (dropsOf (log w))
   end) ->
  (forall a i, a ∈ g_connection_list w -> infos w !! a = Some i ->
   match hit a i w with
   | Done b w' => exists o', inv w' (add o' r) /\ Post b o'
   | Blocked => True
   | Wrong s => tolerated s = true \/ ~ NoDup (dropsOf (log w))
   end) ->
  match found p miss hit w with
  | Done b w' => exists o', inv w' (add o' r) /\ Post b o'
  | Blocked => True
  | Wrong s => tolerated s = true \/ ~ NoDup (dropsOf (log w))
  end.
Proof.
  intros Hi Hm Hh. unfold found. destruct (walk (infos w) p (g_connection_list w)) as [s|[[a i]|]] eqn:E.
  - destruct (decide (NoDup (dropsOf (log w)))) as [Hd|Hd]; [|by right]. left.
    by rewrite (walk_ok (infos w) p (g_connection_list w) s (conns_alive w _ Hi Hd) E).
  - apply walk_found in E as [Ha Hl]. by apply Hh.
  - done.
Qed.

Lemma wp_locked {B} (fail : B) p miss hit o (Post : B -> Own -> Prop) : Post fail o ->
  (forall w r, inv w (add o r) ->
   match miss w with
   | Done b w' => exists o', inv w' (add o' r) /\ Post b o'
   | Blocked => True
   | Wrong s => tolerated s = true \/ ~ NoDup (dropsOf (log w))
   end) ->
  (forall w r a i, inv w (add o r) -> a ∈ g_connection_list w -> infos w !! a = Some i ->
   match hit a i w with
   | Done b w' => exists o', inv w' (add o' r) /\ Post b o'
   | Blocked => True
   | Wrong s => tolerated s = true \/ ~ NoDup (dropsOf (log w))
   end) ->
  wp (locked fail (found p miss hit)) o Post.
Proof.
  intros Hf Hm Hh. apply wp_act. intros e w r _ Hi. destruct (lockOk e); cbn [negb]; [|by exists o].
  destruct (stuck w); [done|]. apply (found_spec p miss hit w o r Post); [done|by apply Hm|]. intros a i Ha Hl. by apply Hh.
Qed.

(** A critical section that only looks. *)
Lemma wp_find {B} (fail miss : B) p (hit : nat -> BrConnectionInfo -> B) o (Post : B -> Own -> Prop) : (forall b, Post b o) ->
  wp (locked fail (found p (Done miss) (fun a i w => Done (hit a i) w))) o Post.
Proof. intros H. apply wp_locked; [done|intros w r Hi; by exists o|intros w r a i Hi _ _; by exists o]. Qed.

Lemma wp_findAnyway {B} (miss : B) p (hit : nat -> BrConnectionInfo -> B) o (Post : B -> Own -> Prop) : (forall b, Post b o) ->
  wp (lockedAnyway (found p (Done miss) (fun a i w => Done (hit a i) w))) o Post.
Proof.
  intros H. apply wp_act. intros e w r _ Hi. destruct (lockOk e && stuck w); [done|].
  apply (found_spec p _ _ w o r Post); [done|by exists o|intros; by exists o].
Qed.

(** ** References *)

(** Only the count of [a] is different. *)
Definition agreeBut (a : nat) (drops leaks : list nat) (t : Rest) (drops' leaks' : list nat) (t' : Rest) : Prop :=
  (forall b, b <> a -> standing drops' b = standing drops b /\ count b (rref t') = count b (rref t) /\ count b leaks' = count b leaks) /\
  rpriv t' = rpriv t /\ rpub t' = rpub t /\ (forall b, b ∈ drops' -> b ∈ drops \/ b = a).

Lemma refs_put m conns nxt drops leaks t drops' leaks' t' a i i' : refsOk m conns nxt drops leaks t -> a ∈ conns -> m !! a = Some i ->
  agreeBut a drops leaks t drops' leaks' t' ->
  infoObjRefCount i' = standing drops' a + count a (rref t') + count a leaks' -> 0 < infoObjRefCount i' ->
  refsOk (<[a := i']> m) conns nxt drops' leaks' t'.
Proof.
  intros [R1 R2 R3 R4 R5 R6 R7 R8] Ha Hl (A1 & A2 & A3 & A4) Hc Hp.
  split; rewrite ?A2, ?A3; try done.
  - intros b Hb. destruct (decide (b = a)) as [->|Hne]; [exists i'; by rewrite lookup_insert_eq|].
    destruct (A1 b Hne) as (-> & -> & ->). rewrite lookup_insert_ne by done. by apply R2.
  - intros b Hb. destruct (decide (b = a)) as [->|Hne]; [done|]. destruct (A1 b Hne) as (_ & E1 & E2). apply R3.
    destruct Hb as [Hb|Hb]; [left|right]; apply count_pos; apply count_pos in Hb; lia.
  - intros b Hb. destruct (R5 b Hb) as (B1 & B2 & B3). assert (b <> a) by congruence. rewrite lookup_insert_ne by done.
    split_and!; [done| |done]. intros HA. destruct (A4 b HA); done.
  - intros b [x Hb]. destruct (decide (b = a)) as [->|Hne]; [by left|]. rewrite lookup_insert_ne in Hb by done. apply R6. by exists x.
  - intros b [[x Hb]|[Hb|Hb]].
    + destruct (decide (b = a)) as [->|Hne]; [apply R7; left; by exists i|]. rewrite lookup_insert_ne in Hb by done. apply R7. left. by exists x.
    + apply R7. destruct (A4 b Hb) as [| ->]; [by right; left|left; by exists i].
    + apply R7. auto.
Qed.

Lemma refs_free m conns nxt drops leaks t drops' leaks' t' a i : refsOk m conns nxt drops leaks t -> a ∈ conns -> m !! a = Some i ->
  agreeBut a drops leaks t drops' leaks' t' ->
  standing drops' a + count a (rref t') + count a leaks' <= 0 ->
  refsOk (delete a m) (filter (fun b => b <> a) conns) nxt drops' leaks' t'.
Proof.
  intros [R1 R2 R3 R4 R5 R6 R7 R8] Ha Hl (A1 & A2 & A3 & A4) Hc.
  pose proof (count_nonneg a (rref t')) as N1. pose proof (count_nonneg a leaks') as N2.
  assert (0 <= standing drops' a) as N3 by (unfold standing; case_decide; lia).
  assert (forall b, b ∈ filter (fun b => b <> a) conns <-> b <> a /\ b ∈ conns) as Hf by (intros b; by rewrite list_elem_of_filter).
  split; rewrite ?A2, ?A3; try done.
  - by apply NoDup_filter.
  - intros b [Hne Hb]%Hf. destruct (A1 b Hne) as (-> & -> & ->). rewrite lookup_delete_ne by done. by apply R2.
  - intros b Hb. assert (b <> a) as Hne.
    { intros ->. destruct Hb as [Hb|Hb]; apply count_pos in Hb; lia. }
    apply Hf. split; [done|]. destruct (A1 b Hne) as (_ & E1 & E2). apply R3.
    destruct Hb as [Hb|Hb]; [left|right]; apply count_pos; apply count_pos in Hb; lia.
  - intros b Hb. destruct (R5 b Hb) as (B1 & B2 & B3). assert (b <> a) by congruence. rewrite lookup_delete_ne by done.
    split_and!; [by intros [_ ?]%Hf| |done]. intros HA. destruct (A4 b HA); done.
  - intros b [x Hb]. assert (b <> a) as Hne by (intros ->; by rewrite lookup_delete_eq in Hb). rewrite lookup_delete_ne in Hb by done.
    destruct (R6 b ltac:(by exists x)); [left; by apply Hf|by right].
  - intros b [[x Hb]|[Hb|Hb]].
    + assert (b <> a) as Hne by (intros ->; by rewrite lookup_delete_eq in Hb). rewrite lookup_delete_ne in Hb by done. apply R7. left. by exists x.
    + apply R7. destruct (A4 b Hb) as [| ->]; [by right; left|left; by exists i].
    + apply R7. auto.
Qed.

Definition unrefHeap (a : nat) (i : BrConnectionInfo) (m : gmap nat BrConnectionInfo) : gmap nat BrConnectionInfo :=
  if infoObjRefCount i - 1 <=? 0 then delete a m else <[a := setRefs (infoObjRefCount i - 1) i]> m.

Definition unrefList (a : nat) (i : BrConnectionInfo) (l : list nat) : list nat :=
  if infoObjRefCount i - 1 <=? 0 then filter (fun b => b <> a) l else l.

Lemma unref_eq a i (w : World (Q := Q)) : unref a i w = setInfos (unrefHeap a i (infos w)) (unrefList a i (g_connection_list w)) w.
Proof. unfold unref, unrefHeap, unrefList. by destruct (infoObjRefCount i - 1 <=? 0). Qed.

Lemma refs_unref m conns nxt drops leaks t drops' leaks' t' a i : refsOk m conns nxt drops leaks t -> a ∈ conns -> m !! a = Some i ->
  agreeBut a drops leaks t drops' leaks' t' ->
  standing drops' a + count a (rref t') + count a leaks' = infoObjRefCount i - 1 ->
  refsOk (unrefHeap a i m) (unrefList a i conns) nxt drops' leaks' t'.
Proof.
  intros Hr Ha Hl Hag Hc. unfold unrefHeap, unrefList. destruct (Z.leb_spec (infoObjRefCount i - 1) 0) as [Hz|Hz].
  - eapply refs_free; try done. lia.
  - eapply refs_put; try done; cbn; lia.
Qed.

Lemma unref_kept a i m : m !! a = Some i -> stored (unrefHeap a i m) ⊆+ stored m.
Proof.
  intros Hl. unfold unrefHeap. destruct (infoObjRefCount i - 1 <=? 0).
  - rewrite (stored_delete m a i Hl). apply submseteq_inserts_l. done.
  - rewrite (stored_update m a i _ Hl), (stored_delete m a i Hl). done.
Qed.

Lemma unref_windows a i m b j : m !! a = Some i -> unrefHeap a i m !! b = Some j -> exists j', m !! b = Some j' /\ windows j' = windows j.
Proof.
  intros Hl. unfold unrefHeap. destruct (infoObjRefCount i - 1 <=? 0).
  - intros [_ H]%lookup_delete_Some. by exists j.
  - intros [[-> <-]|[_ H]]%lookup_insert_Some; [by exists i|by exists j].
Qed.

(** A reference goes, or the one the connection started with. *)
Lemma inv_unref w t t' a i ev : inv w t -> infos w !! a = Some i ->
  issuedOf ev = [] -> answeredOf ev = [] -> rreqs t' = rreqs t -> rtok t' = rtok t ->
  (NoDup (dropsOf (log w) ++ dropsOf ev) -> a ∈ g_connection_list w /\
    agreeBut a (dropsOf (log w)) (leaksOf (log w)) t (dropsOf (log w) ++ dropsOf ev) (leaksOf (log w) ++ leaksOf ev) t' /\
    standing (dropsOf (log w) ++ dropsOf ev) a + count a (rref t') + count a (leaksOf (log w) ++ leaksOf ev) = infoObjRefCount i - 1) ->
  inv (foldl (fun w e => emit e w) (unref a i w) ev) t'.
Proof.
  intros [H1 H2 H3 H4 H5 H6 H7] Hl E1 E2 E3 E4 Hag.
  assert (foldl (fun w e => emit e w) (unref a i w) ev =
    MkWorld (unrefHeap a i (infos w)) (unrefList a i (g_connection_list w)) (next w) (g_nextConnectionId w) (stuck w) (g_brConnLock w)
      (g_pendingList w) (pendStuck w) (queue w) (msgs w) (timers w) (g_startListenFlag w) (g_brEnable w) (spawned w) (log w ++ ev)) as ->.
  { rewrite unref_eq. unfold setInfos. generalize (unrefHeap a i (infos w)) (unrefList a i (g_connection_list w)). clear.
    assert (forall ev m l lg, foldl (fun (w : World) e => emit e w) (MkWorld m l (next w) (g_nextConnectionId w) (stuck w) (g_brConnLock w)
      (g_pendingList w) (pendStuck w) (queue w) (msgs w) (timers w) (g_startListenFlag w) (g_brEnable w) (spawned w) lg) ev =
      MkWorld m l (next w) (g_nextConnectionId w) (stuck w) (g_brConnLock w)
      (g_pendingList w) (pendStuck w) (queue w) (msgs w) (timers w) (g_startListenFlag w) (g_brEnable w) (spawned w) (lg ++ ev)) as H.
    { clear ev. induction ev as [|x ev IH]; intros m l lg; cbn [foldl]; [by rewrite app_nil_r|]. unfold emit at 2. cbn. rewrite IH.
      by rewrite <- app_assoc. }
    intros m l. apply H. }
  split; cbn [log infos g_connection_list next msgs timers spawned]; try done.
  - unfold dropsOf, leaksOf. rewrite !omap_app. fold (dropsOf (log w)) (dropsOf ev) (leaksOf (log w)) (leaksOf ev). intros Hd.
    destruct (Hag Hd) as (Ha & Hb & Hc). eapply refs_unref; try done. apply H1. by apply NoDup_app in Hd as (? & _ & _).
  - unfold issuedOf, answeredOf in *. rewrite !omap_app, E1, E2, !app_nil_r, E3. etransitivity; [|exact H2].
    apply submseteq_app; [done|]. apply submseteq_app; [|done]. by apply unref_kept.
  - intros b j Hj. destruct (unref_windows _ _ _ _ _ Hl Hj) as (j' & Hj' & <-). by apply (H3 b).
  - by rewrite E4.
  - rewrite E4. intros k Hk. by apply H5.
Qed.

Lemma standing_snoc_ne drops a b : b <> a -> standing (drops ++ [a]) b = standing drops b.
Proof.
  intros H. unfold standing. destruct (decide (b ∈ drops ++ [a])) as [Hi|Hi], (decide (b ∈ drops)) as [Hj|Hj]; try done.
  - apply elem_of_app in Hi as [?|Hi%list_elem_of_singleton]; done.
  - destruct Hi. apply elem_of_app. by left.
Qed.

Lemma count_head_ne a b l : b <> a -> count b (a :: l) = count b l.
Proof. intros H. rewrite (count_app b [a] l : count b (a :: l) = _), count_one. rewrite decide_False by done. lia. Qed.

Lemma count_head a l : count a (a :: l) = 1 + count a l.
Proof. rewrite (count_app a [a] l : count a (a :: l) = _), count_one. by rewrite decide_True. Qed.

Lemma wp_GetConnectionRef id p u l t Post : Post None (MkOwn None p u l t) -> (forall a, Post (Some a) (MkOwn (Some a) p u l t)) ->
  wp (GetConnectionRef id) (MkOwn None p u l t) Post.
Proof.
  intros H0 H1. apply wp_locked; [done|intros w r Hi; by exists (MkOwn None p u l t)|]. intros w r a i Hi Ha Hl.
  exists (MkOwn (Some a) p u l t). split; [|done]. pose proof (i_windows w _ Hi a i Hl) as Hw.
  destruct Hi as [J1 J2 J3 J4 J5 J6 J7]. split; cbn [putInfo setInfos infos g_connection_list log next msgs timers spawned]; try done.
  - intros Hd. specialize (J1 Hd). destruct (r_conn _ _ _ _ _ _ J1 a Ha) as (j & Hj & Hn & Hp).
    assert (i = j) as -> by congruence. eapply refs_put; [exact J1|done|done| | |cbn; lia].
    + split_and!; [|done|done|by left]. intros b Hb. split_and!; [done| |done]. cbn [add rref oref option_list option_rect app]. by apply count_head_ne.
    + cbn [setRefs infoObjRefCount]. rewrite Hn. cbn [add rref oref option_list option_rect app]. rewrite count_head. lia.
  - cbn in *. etransitivity; [|exact J2]. apply submseteq_app; [done|]. apply submseteq_app; [|done].
    rewrite (stored_update _ a i _ Hl), (stored_delete _ a i Hl). done.
  - intros b j [[<- <-]|[_ Hb]]%lookup_insert_Some; [done|by apply (J3 b)].
Qed.

Lemma emitted_one (w : World (Q := Q)) e : foldl (fun w e => emit e w) w [e] = emit e w.
Proof. done. Qed.

Lemma wp_ReleaseConnectionRef a p u l t Post : Post tt (MkOwn None p u l t) ->
  wp (ReleaseConnectionRef a) (MkOwn (Some a) p u l t) Post.
Proof.
  intros HP. apply wp_act. intros e w r _ Hi. destruct (lockOk e); cbn [negb].
  - destruct (stuck w); [done|]. destruct (infos w !! a) as [i|] eqn:Hl.
    + exists (MkOwn None p u l t). split; [|done].
      apply (inv_unref w (add (MkOwn (Some a) p u l t) r) (add (MkOwn None p u l t) r) a i []); try done.
      cbn [dropsOf leaksOf omap list_omap]. rewrite !app_nil_r. intros Hd. pose proof (i_refs w _ Hi Hd) as J1.
      assert (a ∈ g_connection_list w) as Ha by (apply (r_ref _ _ _ _ _ _ J1 a); left; cbn; left).
      destruct (r_conn _ _ _ _ _ _ J1 a Ha) as (j & Hj & Hn & Hp). assert (i = j) as -> by congruence.
      cbn [add rref oref option_list option_rect app] in Hn |- *. rewrite count_head in Hn. split_and!; [done| |lia].
      split_and!; [|done|done|by left]. intros b Hb. split_and!; [done| |done]. cbn [add rref oref option_list option_rect app]. by rewrite count_head_ne.
    + destruct (decide (NoDup (dropsOf (log w)))) as [Hd|Hd]; [|by right].
      pose proof (i_refs w _ Hi Hd) as J1. assert (a ∈ g_connection_list w) as Ha by (apply (r_ref _ _ _ _ _ _ J1 a); left; cbn; left).
      destruct (r_conn _ _ _ _ _ _ J1 a Ha) as (j & Hj & _). congruence.
  - exists (MkOwn None p u l t). split; [|done]. destruct Hi as [J1 J2 J3 J4 J5 J6 J7].
    split; cbn [emit infos g_connection_list log next msgs timers spawned]; try done.
    + unfold dropsOf, leaksOf. rewrite !omap_snoc. cbn [option_list]. rewrite app_nil_r. fold (dropsOf (log w)) (leaksOf (log w)).
      intros Hd. specialize (J1 Hd). assert (a ∈ g_connection_list w) as Ha by (apply (r_ref _ _ _ _ _ _ J1 a); left; cbn; left).
      destruct (r_conn _ _ _ _ _ _ J1 a Ha) as (j & Hj & Hn & Hp). rewrite <- (insert_id _ _ _ Hj).
      cbn [add rref oref option_list option_rect app] in Hn. rewrite count_head in Hn.
      eapply refs_put; [exact J1|done|done| |cbn [add rref oref option_list option_rect app]; rewrite count_app, count_one, decide_True by done; lia|done].
      split_and!; [|done|done|by left]. intros b Hb. cbn [add rref oref option_list option_rect app]. rewrite count_head_ne by done.
      split_and!; [done|done|]. rewrite count_app, count_one, decide_False by done. lia.
    + unfold issuedOf, answeredOf. rewrite !omap_snoc. cbn [option_list]. by rewrite !app_nil_r.
Qed.

(** The reference a connection starts with. *)
Lemma inv_drop w o r a i : inv w (add o r) -> infos w !! a = Some i ->
  (NoDup (dropsOf (log w)) -> a ∈ g_connection_list w) -> inv (emit (EDrop a) (unref a i w)) (add o r).
Proof.
  intros Hi Hl Ha. rewrite <- emitted_one. apply (inv_unref w (add o r) (add o r) a i [EDrop a]); try done.
  cbn [dropsOf leaksOf omap list_omap]. rewrite app_nil_r. intros (Hd & Hn1 & _)%NoDup_app. specialize (Ha Hd). pose proof (i_refs w _ Hi Hd) as J1.
  destruct (r_conn _ _ _ _ _ _ J1 a Ha) as (j & Hj & Hn & Hp). assert (i = j) as -> by congruence.
  assert (a ∉ dropsOf (log w)) as Hna by (intros H; apply (Hn1 a H); left).
  split_and!; [done| |].
  - split_and!; [|done|done|]. { intros b Hb. split_and!; [by apply standing_snoc_ne|done|done]. }
    intros b [?|Hb%list_elem_of_singleton]%elem_of_app; auto.
  - unfold standing in *. rewrite decide_True by (apply elem_of_app; right; left). rewrite decide_False in Hn by done. lia.
Qed.

Lemma wp_drop id o Post : Post tt o -> wp (ReleaseConnectionRefByConnId id) o Post.
Proof.
  intros HP. apply wp_locked; [done|intros w r Hi; by exists o|]. intros w r a i Hi Ha Hl. exists o. split; [|done]. by apply inv_drop.
Qed.

Lemma wp_ReleasePublished a p l t ref Post : Post tt (MkOwn ref p (Some a) l t) ->
  wp (ReleasePublished a) (MkOwn ref p (Some a) l t) Post.
Proof.
  intros HP. apply wp_act. intros e w r _ Hi. destruct (lockOk e); cbn [negb]; [|by eexists].
  destruct (stuck w); [done|]. destruct (infos w !! a) as [i|] eqn:Hl; [|by left]. eexists. split; [|done]. apply inv_drop; [done|done|].
  intros Hd. pose proof (i_refs w _ Hi Hd) as J1. destruct (r_dom _ _ _ _ _ _ J1 a ltac:(by exists i)) as [|Hp]; [done|].
  destruct (r_pub _ _ _ _ _ _ J1 a); [cbn; left|done].
Qed.

(** ** Connections a thread holds *)

Lemma held_alive w a p u l t r : inv w (add (MkOwn (Some a) p u l t) r) -> NoDup (dropsOf (log w)) -> is_Some (infos w !! a).
Proof.
  intros Hi Hd. pose proof (i_refs w _ Hi Hd) as J1.
  assert (a ∈ g_connection_list w) as Ha by (apply (r_ref _ _ _ _ _ _ J1 a); left; cbn; left).
  destruct (r_conn _ _ _ _ _ _ J1 a Ha) as (j & Hj & _). by exists j.
Qed.

Lemma wp_load {B} a (f : BrConnectionInfo -> B) p u l t Post : (forall b, Post b (MkOwn (Some a) p u l t)) ->
  wp (load SHeld a f) (MkOwn (Some a) p u l t) Post.
Proof.
  intros HP. apply wp_act. intros e w r _ Hi. destruct (infos w !! a) as [i|] eqn:Hl; [by eexists|].
  right. intros Hd. destruct (held_alive _ _ _ _ _ _ _ Hi Hd). congruence.
Qed.

(** What a thread may write: not the references, nor the requests. *)
Definition harmless (f : BrConnectionInfo -> BrConnectionInfo) : Prop :=
  forall i, infoObjRefCount (f i) = infoObjRefCount i /\ kept (f i) = kept i /\
    (MIN_WINDOWS <= windows i <= MAX_WINDOWS -> MIN_WINDOWS <= windows (f i) <= MAX_WINDOWS).

Lemma inv_harmless w a i f o r : harmless f -> infos w !! a = Some i -> inv w (add o r) -> inv (putInfo a (f i) w) (add o r).
Proof.
  intros Hf Hl Hi. destruct (Hf i) as (F1 & F2 & F3). apply (inv_put w a i (f i) o o r); try done; [|by rewrite F2].
  apply F3. by apply (i_windows w _ Hi a).
Qed.

Lemma wp_store a f p u l t Post : harmless f -> Post tt (MkOwn (Some a) p u l t) -> wp (store SHeld a f) (MkOwn (Some a) p u l t) Post.
Proof.
  intros Hf HP. apply wp_act. intros e w r _ Hi. destruct (infos w !! a) as [i|] eqn:Hl.
  - eexists. split; [|exact HP]. by apply inv_harmless.
  - right. intros Hd. destruct (held_alive _ _ _ _ _ _ _ Hi Hd). congruence.
Qed.

(** A critical section with a harmless change. *)
Lemma wp_change {B} (fail miss : B) p (hit : BrConnectionInfo -> B) f o (Post : B -> Own -> Prop) : harmless f -> (forall b, Post b o) ->
  wp (locked fail (found p (Done miss) (fun a i w => Done (hit i) (putInfo a (f i) w)))) o Post.
Proof.
  intros Hf HP. apply wp_locked; [done|intros w r Hi; by exists o|]. intros w r a i Hi Ha Hl. exists o. split; [|done]. by apply inv_harmless.
Qed.

(** ** Connections a thread has not published *)

Lemma priv_alive w a ref u l t r : inv w (add (MkOwn ref (Some a) u l t) r) -> NoDup (dropsOf (log w)) -> is_Some (infos w !! a).
Proof.
  intros Hi Hd. destruct (r_own _ _ _ _ _ _ (i_refs w _ Hi Hd) a) as (_ & _ & i & Hl & _); [cbn; left|]. by exists i.
Qed.

Lemma wp_loadOwn {B} a (f : BrConnectionInfo -> B) ref u l t Post : (forall b, Post b (MkOwn ref (Some a) u l t)) ->
  wp (load SOwn a f) (MkOwn ref (Some a) u l t) Post.
Proof.
  intros HP. apply wp_act. intros e w r _ Hi. destruct (infos w !! a) as [i|] eqn:Hl; [by eexists|].
  right. intros Hd. destruct (priv_alive _ _ _ _ _ _ _ Hi Hd). congruence.
Qed.

Lemma wp_storeOwn a f ref u l t Post : harmless f -> Post tt (MkOwn ref (Some a) u l t) ->
  wp (store SOwn a f) (MkOwn ref (Some a) u l t) Post.
Proof.
  intros Hf HP. apply wp_act. intros e w r _ Hi. destruct (infos w !! a) as [i|] eqn:Hl.
  - eexists. split; [|exact HP]. by apply inv_harmless.
  - right. intros Hd. destruct (priv_alive _ _ _ _ _ _ _ Hi Hd). congruence.
Qed.

(** A request moves into a connection. *)
Definition pushRequest (x : RequestInfo) (i : BrConnectionInfo) : BrConnectionInfo :=
  setRequests (x :: requestList i) (pendingRequestList i) i.

Definition pushPending (x : RequestInfo) (i : BrConnectionInfo) : BrConnectionInfo :=
  setRequests (requestList i) (x :: pendingRequestList i) i.

Lemma inv_push w a i x (pend : bool) ref p u l t r : infos w !! a = Some i -> inv w (add (MkOwn ref p u (x :: l) t) r) ->
  inv (putInfo a (if pend then pushPending x i else pushRequest x i) w) (add (MkOwn ref p u l t) r).
Proof.
  intros Hl Hi. apply (inv_put w a i _ (MkOwn ref p u (x :: l) t)); try done.
  - by destruct pend.
  - pose proof (i_windows w _ Hi a i Hl). by destruct pend.
  - destruct pend; unfold kept, pushPending, pushRequest; cbn [setRequests requestList pendingRequestList oreqs app].
    + rewrite <- !Permutation_middle. done.
    + rewrite <- Permutation_middle. done.
Qed.

Lemma wp_pushOwn a x ref u l t Post : Post tt (MkOwn ref (Some a) u l t) ->
  wp (store SOwn a (pushRequest x)) (MkOwn ref (Some a) u (x :: l) t) Post.
Proof.
  intros HP. apply wp_act. intros e w r _ Hi. destruct (infos w !! a) as [i|] eqn:Hl.
  - eexists. split; [|exact HP]. by apply (inv_push w a i x false).
  - right. intros Hd. destruct (priv_alive _ _ _ _ _ _ _ Hi Hd). congruence.
Qed.

Lemma wp_ReleaseBrconnectionNode a ref u l t Post : Post tt (MkOwn ref None u l t) ->
  wp (ReleaseBrconnectionNode a) (MkOwn ref (Some a) u l t) Post.
Proof.
  intros HP. apply wp_act. intros e w r _ Hi. destruct (infos w !! a) as [i|] eqn:Hl.
  2: { right. intros Hd. destruct (priv_alive _ _ _ _ _ _ _ Hi Hd). congruence. }
  eexists. split; [|exact HP]. destruct Hi as [J1 J2 J3 J4 J5 J6 J7].
  split; cbn [freeInfo setInfos infos g_connection_list log next msgs timers spawned]; try done.
  - intros Hd. destruct (J1 Hd) as [R1 R2 R3 R4 R5 R6 R7 R8]. cbn in *.
    apply NoDup_cons in R4 as [N1 N2]. destruct (R5 a ltac:(left)) as (Na & _).
    assert (filter (fun b => b <> a) (g_connection_list w) = g_connection_list w) as ->.
    { apply list_filter_all. apply Forall_forall. intros b Hb ->. done. }
    split; cbn; try done.
    + intros b Hb. destruct (R2 b Hb) as (j & Hj & ?). exists j. rewrite lookup_delete_ne by congruence. done.
    + intros b Hb. destruct (R5 b ltac:(by right)) as (B1 & B2 & B3). rewrite lookup_delete_ne by congruence. done.
    + intros b [x Hb]. apply lookup_delete_Some in Hb as [Hne Hb]. destruct (R6 b ltac:(by exists x)) as [|Hp]; [by left|].
      apply elem_of_cons in Hp as [->|]; [done|by right].
    + intros b [[x Hb]|Hb]; apply R7; [left|by right]. apply lookup_delete_Some in Hb as [_ Hb]. by exists x.
    + intros b Hb Hp. apply (R8 b Hb). by right.
  - cbn in *. etransitivity; [|exact J2]. apply submseteq_app; [done|]. apply submseteq_app; [|done].
    rewrite (stored_delete _ a i Hl). by apply submseteq_inserts_l.
  - intros b j [_ Hb]%lookup_delete_Some. by apply (J3 b).
Qed.

Lemma fresh_next w t : inv w t -> NoDup (dropsOf (log w)) -> infos w !! next w = None.
Proof.
  intros Hi Hd. apply eq_None_not_Some. intros H. pose proof (r_fresh _ _ _ _ _ _ (i_refs w t Hi Hd) (next w) (or_introl H)). lia.
Qed.

Lemma inv_new w c ref u l t r : inv w (add (MkOwn ref None u l t) r) ->
  inv (newInfo (freshNode c) w) (add (MkOwn ref (Some (next w)) u l t) r).
Proof.
  intros Hi. pose proof (fresh_next w _ Hi) as Hf.
  destruct Hi as [J1 J2 J3 J4 J5 J6 J7]. split; cbn [newInfo infos g_connection_list log next msgs timers spawned]; try done.
  - intros Hd. specialize (Hf Hd). destruct (J1 Hd) as [R1 R2 R3 R4 R5 R6 R7 R8]. cbn in *.
    assert (forall b, b ∈ g_connection_list w -> b <> next w) as Hc.
    { intros b Hb ->. destruct (R2 _ Hb) as (j & Hj & _). congruence. }
    assert (forall b, b ∈ rpriv r -> b <> next w) as Hp.
    { intros b Hb ->. destruct (R5 _ Hb) as (_ & _ & j & Hj & _). congruence. }
    split; cbn; try done.
    + intros b Hb. destruct (R2 b Hb) as (j & Hj & ?). exists j. by rewrite lookup_insert_ne by (symmetry; auto).
    + apply NoDup_cons. split; [|done]. intros Hin. by apply (Hp (next w)).
    + intros b [->|Hb]%elem_of_cons.
      * split_and!; [intros Hin; by apply (Hc (next w))| |exists (freshNode c); by rewrite lookup_insert_eq].
        intros Hin. pose proof (R7 (next w) ltac:(auto)). lia.
      * destruct (R5 b Hb) as (B1 & B2 & j & Hj & Hn). split_and!; [done..|]. exists j. by rewrite lookup_insert_ne by (symmetry; auto).
    + intros b [x [[<- _]|[_ Hb]]%lookup_insert_Some]; [right; left|]. destruct (R6 b ltac:(by exists x)); [by left|right; by right].
    + intros b [[x [[<- _]|[_ Hb]]%lookup_insert_Some]|Hb]; [lia| |pose proof (R7 b ltac:(auto)); lia].
      pose proof (R7 b ltac:(left; by exists x)). lia.
    + intros b Hb [->|Hp']%elem_of_cons; [pose proof (R7 (next w) ltac:(auto)); lia|by apply (R8 b)].
  - cbn in *. etransitivity; [|exact J2]. apply submseteq_app; [done|]. apply submseteq_app; [|done].
    destruct (infos w !! next w) as [j|] eqn:Ej.
    + rewrite (stored_update _ _ j _ Ej), (stored_delete _ _ j Ej). by apply submseteq_inserts_l.
    + by rewrite stored_insert by done.
  - intros b j [[_ <-]|[_ Hb]]%lookup_insert_Some; [cbn; unfold MIN_WINDOWS, DEFAULT_WINDOWS, MAX_WINDOWS; lia|by apply (J3 b)].
Qed.

Lemma wp_AddConnectionList a ref l t Post : Post SOFTBUS_ERR (MkOwn ref (Some a) None l t) -> Post SOFTBUS_OK (MkOwn ref None (Some a) l t) ->
  wp (AddConnectionList a) (MkOwn ref (Some a) None l t) Post.
Proof.
  intros H0 H1. apply wp_act. intros e w r _ Hi. destruct (lockOk e); cbn [negb]; [|by eexists].
  destruct (stuck w); [done|]. eexists. split; [|exact H1]. destruct Hi as [J1 J2 J3 J4 J5 J6 J7].
  split; cbn [setInfos infos g_connection_list log next msgs timers spawned]; try done.
  intros Hd. destruct (J1 Hd) as [R1 R2 R3 R4 R5 R6 R7 R8]. cbn in *.
  apply NoDup_cons in R4 as [N1 N2]. destruct (R5 a ltac:(left)) as (Na & Nd & i & Hl & Hn).
  assert (count a (option_list ref ++ rref r) = 0) as C1.
  { destruct (Z.eq_dec (count a (option_list ref ++ rref r)) 0); [done|]. destruct Na. apply R3. left. apply count_pos.
    pose proof (count_nonneg a (option_list ref ++ rref r)). lia. }
  assert (count a (leaksOf (log w)) = 0) as C2.
  { destruct (Z.eq_dec (count a (leaksOf (log w))) 0); [done|]. destruct Na. apply R3. right. apply count_pos.
    pose proof (count_nonneg a (leaksOf (log w))). lia. }
  split; cbn; try done.
  - by apply NoDup_cons.
  - intros b [->|Hb]%elem_of_cons; [|by apply R2]. exists i. rewrite C1, C2. unfold standing. rewrite decide_False by done.
    split_and!; [done|lia|lia].
  - intros b Hb. right. by apply R3.
  - intros b Hb. destruct (R5 b ltac:(by right)) as (B1 & B2 & B3). split_and!; [|done|done]. rewrite not_elem_of_cons. split; [congruence|done].
  - intros b Hb. destruct (R6 b Hb) as [|[->|]%elem_of_cons]; [left; by right|left; left|by right].
  - intros b [Hb|[Hb|[->|Hb]%elem_of_cons]]; apply R7; eauto.
  - intros b [->|Hb]%elem_of_cons; [done|]. intros Hp. apply (R8 b Hb). by right.
Qed.

(** ** Requests *)

Lemma wp_post_weaker {A} (p : Prog A) o Post : wp p o (fun a o1 => exists o2, weaker o2 o1 /\ Post a o2) -> wp p o Post.
Proof.
  revert o. induction p as [a|B f k IH]; intros o Hp; cbn [wp] in *.
  - destruct Hp as (o1 & W1 & o2 & W2 & HP). exists o2. split; [by eapply weaker_trans|done].
  - intros e w r He Hi. specialize (Hp e w r He Hi). destruct (f e w) as [b w'| |s]; [|done|done].
    destruct Hp as (o' & Hi' & Hk). exists o'. split; [done|]. by apply IH.
Qed.

Lemma sub_cons {A} (x : A) l : l ⊆+ x :: l.
Proof. by apply submseteq_cons. Qed.

Lemma sub_app {A} (k l : list A) : l ⊆+ k ++ l.
Proof. by apply submseteq_inserts_l. Qed.

Lemma wp_push {B} (fail miss ok : B) q x (pend : bool) ref p u l t Post : (forall b, Post b (MkOwn ref p u l t)) ->
  wp (locked fail (found q (Done miss) (fun a i w =>
    Done ok (putInfo a (if pend then pushPending x i else pushRequest x i) w)))) (MkOwn ref p u (x :: l) t) Post.
Proof.
  intros HP. apply wp_post_weaker, wp_locked.
  - eexists. split; [apply weaker_reqs, sub_cons|done].
  - intros w r Hi. eexists. split; [exact Hi|]. eexists. split; [apply weaker_reqs, sub_cons|done].
  - intros w r a i Hi Ha Hl. eexists. split; [by apply inv_push|]. eexists. split; [apply weaker_refl|done].
Qed.

Lemma wp_AddRequest id x ref p u l t Post : (forall b, Post b (MkOwn ref p u l t)) ->
  wp (AddRequestByConnId id x) (MkOwn ref p u (x :: l) t) Post.
Proof. intros HP. by apply (wp_push _ _ _ _ x false). Qed.

Lemma wp_AddPendingRequest id x ref p u l t Post : (forall b, Post b (MkOwn ref p u l t)) ->
  wp (AddPendingRequestByConnId id x) (MkOwn ref p u (x :: l) t) Post.
Proof. intros HP. by apply (wp_push _ _ _ _ x true). Qed.

(** Requests move out of a connection. *)
Lemma inv_take w a i f ls ref p u l t r : infos w !! a = Some i -> infoObjRefCount (f i) = infoObjRefCount i -> windows (f i) = windows i ->
  kept (f i) ++ ls ≡ₚ kept i -> inv w (add (MkOwn ref p u l t) r) -> inv (putInfo a (f i) w) (add (MkOwn ref p u (ls ++ l) t) r).
Proof.
  intros Hl Hc Hw Hk Hi. apply (inv_put w a i _ (MkOwn ref p u l t)); try done.
  - rewrite Hw. by apply (i_windows w _ Hi a).
  - cbn [oreqs]. by rewrite app_assoc, Hk.
Qed.

Lemma wp_GetBrRequestList id ref p u l t Post : (forall ls info, Post (ls, info) (MkOwn ref p u (ls ++ l) t)) ->
  wp (GetBrRequestListByConnId id) (MkOwn ref p u l t) Post.
Proof.
  intros HP. apply wp_locked; [apply (HP [])|intros w r Hi; eexists; split; [exact Hi|apply (HP [])]|].
  intros w r a i Hi Ha Hl. eexists. split; [|apply HP]. apply (inv_take w a i (fun i => setRequests [] (pendingRequestList i) i)); try done.
  unfold kept. cbn [setRequests requestList pendingRequestList app].
  by rewrite Permutation_app_comm, <- Permutation_rev.
Qed.

Lemma wp_GetAndRemovePending id ref p u l t Post : (forall ls, Post ls (MkOwn ref p u (ls ++ l) t)) ->
  wp (GetAndRemovePendingRequestByConnId id) (MkOwn ref p u l t) Post.
Proof.
  intros HP. apply wp_locked; [apply (HP [])|intros w r Hi; eexists; split; [by eapply inv_same; [..|exact Hi]|apply (HP [])]|].
  intros w r a i Hi Ha Hl. eexists. split; [|apply HP]. apply (inv_take w a i (fun i => setRequests (requestList i) [] i)); try done.
  unfold kept. cbn [setRequests requestList pendingRequestList]. by rewrite app_nil_r, <- Permutation_rev.
Qed.

Lemma wp_ResumeConnection id ref p u l t Post : (forall ret ls, Post (ret, ls) (MkOwn ref p u (ls ++ l) t)) ->
  wp (ResumeConnection id) (MkOwn ref p u l t) Post.
Proof.
  intros HP. apply wp_locked; [apply (HP _ [])|intros w r Hi; eexists; split; [exact Hi|apply (HP _ [])]|].
  intros w r a i Hi Ha Hl. eexists. split; [|apply HP].
  apply (inv_take w a i (fun i => setRequests (requestList i) [] (setState BR_CONNECTION_STATE_CONNECTED i))); try done.
  unfold kept. cbn [setRequests setState requestList pendingRequestList]. by rewrite app_nil_r, <- Permutation_rev.
Qed.

(** Making a request and answering it. *)
Lemma inv_history w e t t' : dropsOf [e] = [] -> leaksOf [e] = [] -> rref t' = rref t -> rpriv t' = rpriv t -> rpub t' = rpub t -> rtok t' = rtok t ->
  answeredOf (log w ++ [e]) ++ stored (infos w) ++ rreqs t' ⊆+ issuedOf (log w ++ [e]) -> inv w t -> inv (emit e w) t'.
Proof.
  intros D1 D2 E1 E2 E3 E4 Hr [J1 J2 J3 J4 J5 J6 J7]. split; cbn [emit infos g_connection_list log next msgs timers spawned]; try done.
  - unfold dropsOf, leaksOf in *. rewrite !omap_app, D1, D2, !app_nil_r. intros Hd. by apply (refs_same _ _ _ _ _ t), J1.
  - by rewrite E4.
  - rewrite E4. intros k Hk. by apply J5.
Qed.

Lemma wp_noteAnswer x ok v info ref p u l t Post : Post tt (MkOwn ref p u l t) ->
  wp (note (EAnswer x ok v info)) (MkOwn ref p u (x :: l) t) Post.
Proof.
  intros HP. apply wp_act. intros e w r _ Hi. eexists. split; [|exact HP]. eapply inv_history; [..|exact Hi]; try done.
  pose proof (i_reqs w _ Hi) as H. unfold answeredOf, issuedOf. rewrite !omap_snoc. cbn [option_list option_rect]. rewrite app_nil_r.
  etransitivity; [|exact H]. cbn [add rreqs oreqs]. rewrite <- app_assoc. apply submseteq_app; [done|]. cbn [app].
  by rewrite Permutation_middle.
Qed.

Lemma wp_issue x ref p u l t Post : Post tt (MkOwn ref p u (x :: l) t) -> wp (note (EIssue x)) (MkOwn ref p u l t) Post.
Proof.
  intros HP. apply wp_act. intros e w r _ Hi. eexists. split; [|exact HP]. eapply inv_history; [..|exact Hi]; try done.
  pose proof (i_reqs w _ Hi) as H. unfold answeredOf, issuedOf. rewrite !omap_snoc. cbn [option_list option_rect]. rewrite app_nil_r.
  cbn [add rreqs oreqs app]. rewrite <- Permutation_middle, <- Permutation_middle, <- Permutation_cons_append. by apply submseteq_skip.
Qed.

Lemma wp_answer x ok v info ref p u l t Post : Post tt (MkOwn ref p u l t) -> wp (answer x ok v info) (MkOwn ref p u (x :: l) t) Post.
Proof.
  intros HP. unfold answer. destruct (if ok then _ else _); [by apply wp_noteAnswer|]. eapply wp_ret_reqs; [apply sub_cons|done].
Qed.

(** A loop that uses up one request per round. *)
Lemma wp_forEach (f : RequestInfo -> Prog unit) ref p u t :
  (forall x l (Post : unit -> Own -> Prop), Post tt (MkOwn ref p u l t) -> wp (f x) (MkOwn ref p u (x :: l) t) Post) ->
  forall ls l (Post : unit -> Own -> Prop), Post tt (MkOwn ref p u l t) -> wp (forEach ls f) (MkOwn ref p u (ls ++ l) t) Post.
Proof.
  intros Hf. induction ls as [|x ls IH]; intros l Post HP; cbn [forEach app]; [by apply wp_done|].
  apply wp_seq, Hf. by apply IH.
Qed.

(** ** Pending packets *)

Lemma packet_app id sq l l' : is_Some (List.find (isPacket id sq) l) -> is_Some (List.find (isPacket id sq) (l ++ l')).
Proof. induction l as [|p l IH]; cbn; [by intros []|]. destruct (isPacket id sq p); [by eexists|done]. Qed.

Lemma packet_mark id sq id' sq' l l' : markPacket id' sq' l = Some l' -> is_Some (List.find (isPacket id sq) l) ->
  is_Some (List.find (isPacket id sq) l').
Proof.
  revert l'. induction l as [|p l IH]; intros l'; cbn [markPacket List.find]; [done|].
  destruct (isPacket id' sq' p) eqn:E'.
  - intros [= <-]. cbn [List.find]. unfold isPacket at 1 3. cbn [pid pseq]. fold (isPacket id sq p). by destruct (isPacket id sq p); [eexists|].
  - destruct (markPacket id' sq' l) as [k|]; [|done]. intros [= <-]. cbn [List.find]. destruct (isPacket id sq p); [by eexists|]. by apply IH.
Qed.

Lemma inv_pending w t t' l b : (forall k, Some k ∈ rtok t' -> is_Some (List.find (isPacket k.1 k.2) l)) -> (length (rtok t') <= 1)%nat ->
  rref t' = rref t -> rpriv t' = rpriv t -> rpub t' = rpub t -> rreqs t' = rreqs t -> inv w t -> inv (setPending l b w) t'.
Proof.
  intros Hk Hl E1 E2 E3 E4 [J1 J2 J3 J4 J5 J6 J7]. split; cbn [setPending infos g_connection_list log next msgs timers spawned]; try done.
  - intros Hd. by apply (refs_same _ _ _ _ _ t), J1.
  - by rewrite E4.
Qed.

(** The thread with the right to take packets away is the only one. *)
Lemma alone w ref p u l k r : inv w (add (MkOwn ref p u l (Some k)) r) -> rtok r = [].
Proof. intros Hi. pose proof (i_tok w _ Hi) as H. cbn in H. destruct (rtok r); [done|cbn in H; lia]. Qed.

Lemma inv_token w ref p u l k k' r : inv w (add (MkOwn ref p u l (Some k)) r) ->
  (forall x, k' = Some x -> is_Some (packet x.1 x.2 w)) -> inv w (add (MkOwn ref p u l (Some k')) r).
Proof.
  intros Hi Hk. pose proof (alone _ _ _ _ _ _ _ Hi) as Ha. destruct Hi as [J1 J2 J3 J4 J5 J6 J7]. split; try done.
  { intros Hd. by eapply refs_same; [..|apply (J1 Hd)]. }
  intros x. cbn. rewrite Ha. cbn. intros [E|E]%elem_of_cons; [by apply Hk|by apply elem_of_nil in E].
Qed.

Lemma wp_CreatePending id sq o Post : (forall b, Post b o) -> wp (CreateBrPendingPacket id sq) o Post.
Proof.
  intros HP. apply wp_act. intros e w r _ Hi. destruct (lockOk e); cbn [negb]; [|by exists o]. destruct (pendStuck w); [done|].
  destruct (existsb _ _); [by exists o|]. destruct (mem e); cbn [negb]; [|by exists o].
  destruct (initOk e); cbn [negb]; exists o; (split; [|done]); eapply inv_pending; [| | | | | |exact Hi| | | | | | |exact Hi]; try done;
    try apply (i_tok w _ Hi); intros k Hk; pose proof (i_pend w _ Hi k Hk) as Hp; [by apply packet_app|done].
Qed.

Lemma wp_DelPending id sq ref p u l Post : Post tt (MkOwn ref p u l (Some None)) ->
  wp (DelBrPendingPacket id sq) (MkOwn ref p u l (Some None)) Post.
Proof.
  intros HP. apply wp_act. intros e w r _ Hi. destruct (lockOk e); cbn [negb]; [|by eexists]. destruct (pendStuck w); [done|].
  eexists. split; [|exact HP]. eapply inv_pending; [| | | | | |exact Hi]; try done; [|apply (i_tok w _ Hi)].
  intros k. cbn. rewrite (alone _ _ _ _ _ _ _ Hi). cbn. intros [E|E]%elem_of_cons; [done|by apply elem_of_nil in E].
Qed.

Lemma wp_SetPending id sq o Post : (forall b, Post b o) -> wp (SetBrPendingPacket id sq) o Post.
Proof.
  intros HP. apply wp_act. intros e w r _ Hi. destruct (lockOk e); cbn [negb]; [|by exists o]. destruct (pendStuck w); [done|].
  destruct (markPacket id sq (g_pendingList w)) as [l|] eqn:E; [|by exists o]. exists o. split; [|done].
  eapply inv_pending; [| | | | | |exact Hi]; try done; [|apply (i_tok w _ Hi)]. intros k Hk. eapply packet_mark; [exact E|].
  by apply (i_pend w _ Hi).
Qed.

(** The packet found stays until this thread takes it away. *)
Lemma wp_GetPending id sq ref p u l Post : (forall b, Post b (MkOwn ref p u l (Some None))) ->
  wp (GetBrPendingPacket id sq) (MkOwn ref p u l (Some None)) Post.
Proof.
  intros HP. set (o := MkOwn ref p u l (Some None)). set (o1 := MkOwn ref p u l (Some (Some (id, sq)))).
  assert (forall w r, inv w (add o1 r) -> is_Some (packet id sq w)) as Hp.
  { intros w r Hi. apply (i_pend w _ Hi (id, sq)). cbn. left. }
  unfold GetBrPendingPacket. apply wp_seq. apply wp_conseq with (fun b o' => match b with Some true => o' = o1 | _ => o' = o end).
  { apply wp_act. intros e w r _ Hi. destruct (lockOk e); cbn [negb]; [|by exists o]. destruct (pendStuck w); [done|].
    case_bool_decide as Hb; [exists o1|exists o]; (split; [|done]); [|done]. apply (inv_token _ _ _ _ _ None); [done|]. by intros x [= <-]. }
  intros [[]|] o' ->; [|by apply wp_done, HP|by apply wp_done, HP]. apply wp_seq, wp_act. intros e w r _ Hi.
  destruct (Hp w r Hi) as [x ->]. exists o1. split; [done|]. apply wp_seq.
  assert (forall ret, wp (bind (act (fun (e : Env) (w : World (Q := Q)) => if lockOk e && pendStuck w then Blocked
     else match packet id sq w with None => Wrong SPending
          | Some _ => Done tt (setPending (dropPacket id sq (g_pendingList w)) (pendStuck w) w) end)) (fun _ => Ret ret)) o1 Post) as Hend.
  { intros ret. apply wp_seq, wp_act. intros e' w' r' _ Hi'. destruct (lockOk e' && pendStuck w'); [done|].
    destruct (Hp w' r' Hi') as [y ->]. exists o. split; [|by apply wp_done, HP]. eapply inv_pending; [| | | | | |exact Hi']; try done.
    - intros k. cbn. rewrite (alone _ _ _ _ _ _ _ Hi'). cbn. intros [E|E]%elem_of_cons; [done|by apply elem_of_nil in E].
    - apply (i_tok w' _ Hi'). }
  destruct (if negb (lockOk e) then _ else _) as [ret|]; [by apply wp_done|]. apply wp_act. intros e' w' r' _ Hi'.
  destruct (Hp w' r' Hi') as [y ->]. destruct (finded y); [by exists o1|]. destruct (choice e'); [by exists o1|done].
Qed.

(** ** The rest of the world *)

(** An action that only touches what the invariant does not speak of. *)
Lemma wp_other {B} (f : Env -> World -> Res B) o (Post : B -> Own -> Prop) :
  (forall e w, match f e w with
    | Done b w' => infos w' = infos w /\ g_connection_list w' = g_connection_list w /\ next w' = next w /\ log w' = log w /\
        g_pendingList w' = g_pendingList w /\ msgs w' = msgs w /\ timers w' = timers w /\ spawned w' = spawned w
    | Blocked => True
    | Wrong s => tolerated s = true
    end) -> (forall b, Post b o) -> wp (act f) o Post.
Proof.
  intros Hf HP. apply wp_act. intros e w r _ Hi. specialize (Hf e w). destruct (f e w) as [b w'| |s]; [|done|by left].
  exists o. split; [|done]. destruct Hf as (E1 & E2 & E3 & E4 & E5 & E6 & E7 & E8). by apply (inv_same w).
Qed.

Lemma inv_msgs w t m k : Forall msgOk m -> Forall msgOk k -> inv w t -> inv (setMsgs m k w) t.
Proof. intros Hm Hk [J1 J2 J3 J4 J5 J6 J7]. by split. Qed.

Lemma wp_postMessage x o Post : msgOk x -> (forall b, Post b o) -> wp (postMessage x) o Post.
Proof.
  intros Hx HP. apply wp_act. intros e w r _ Hi. destruct (msgMem e); exists o; (split; [|done]); [|done].
  destruct (i_msgs w _ Hi) as [H1 H2]. apply inv_msgs; [|done|done]. apply Forall_app. split; [done|by constructor].
Qed.

Lemma wp_PostClosingTimeout id o Post : (forall b, Post b o) -> wp (PostClosingTimeoutEvent id) o Post.
Proof.
  intros HP. apply wp_act. intros e w r _ Hi. destruct (msgMem e); exists o; (split; [|done]); [|done].
  destruct (i_msgs w _ Hi) as [H1 H2]. apply inv_msgs; [done| |done]. apply Forall_app. split; [done|]. by repeat constructor.
Qed.

Lemma wp_takeMessage o Post : (forall x, msgOk x -> Post x o) -> wp takeMessage o Post.
Proof.
  intros HP. apply wp_act. intros e w r _ Hi. destruct (i_msgs w _ Hi) as [H1 H2].
  destruct (choice e), (timers w) as [|k ks] eqn:Et, (msgs w) as [|x xs] eqn:Em; try done;
    exists o; (split; [apply inv_msgs; try done|apply HP]);
    try (by apply Forall_cons in H1 as [? ?]); try (by apply Forall_cons in H2 as [? ?]).
Qed.

Lemma inv_spawn w k t : plain k -> inv w t -> inv (spawn k w) t.
Proof.
  intros Hk [J1 J2 J3 J4 J5 J6 J7]. split; try done. cbn. apply Forall_app. split; [done|by constructor].
Qed.

Lemma wp_spawn (c : Env -> bool) k o Post : plain k -> (forall b, Post b o) ->
  wp (act (fun e w => if c e then Done true (spawn k w) else Done false w)) o Post.
Proof.
  intros Hk HP. apply wp_act. intros e w r _ Hi. destruct (c e); exists o; (split; [|done]); [by apply inv_spawn|done].
Qed.

(** ** The programs *)

Context (enqueue : Env -> SendBrQueueNode -> Q -> Z * Q) (dequeue : Q -> option SendBrQueueNode * Q).
Context (printJson : list (Key * Z) -> option bytes) (parseJson : bytes -> option (list (Key * Z))).
Context (g_brSendPeerLen g_brMaxConnCount : Z).

(** A message of three numbers is a short text: cJSON prints a number in at
    most 25 characters. *)
Context (Hprint : forall fields text, (length fields <= 3)%nat -> printJson fields = Some text -> is_bytes text /\ len text <= 1000).

Ltac next :=
  lazymatch goal with
  | |- wp (bind _ _) _ _ => apply wp_seq
  | |- wp (Ret _) _ _ => apply wp_done
  | |- wp (note (EAnswer _ _ _ _)) _ _ => apply wp_noteAnswer
  | |- wp (note _) _ _ => apply wp_note; [reflexivity|]
  | |- wp (DisConnect _) _ _ => apply wp_note; [reflexivity|]
  | |- wp (ask _) _ _ => apply wp_ask; intros ?env ?Henv
  | |- wp (GetConnectionRef _) _ _ => apply wp_GetConnectionRef; [|intros ?a]
  | |- wp (ReleaseConnectionRef _) _ _ => apply wp_ReleaseConnectionRef
  | |- wp (ReleaseConnectionRefByConnId _) _ _ => apply wp_drop
  | |- wp (load SHeld _ _) _ _ => apply wp_load; intros ?v
  | |- wp (load SOwn _ _) _ _ => apply wp_loadOwn; intros ?v
  | |- wp (store SHeld _ _) _ _ => apply wp_store; [by intros ?i; split_and!|]
  | |- wp (answer _ _ _ _) _ _ => apply wp_answer
  | |- wp (GetBrRequestListByConnId _) _ _ => apply wp_GetBrRequestList; intros ?ls ?info
  | |- wp (GetAndRemovePendingRequestByConnId _) _ _ => apply wp_GetAndRemovePending; intros ?pd
  | |- wp (ResumeConnection _) _ _ => apply wp_ResumeConnection; intros ?ret ?pd
  | |- wp (if ?c then _ else _) _ _ => destruct c
  | |- wp (match ?c with Some _ => _ | None => _ end) _ _ => destruct c
  | |- wp (let '(_, _) := ?x in _) _ _ => destruct x
  end; cbn beta iota.

Lemma wp_windows id o Post : (forall b, Post b o) -> wp (GetLocalWindowsByConnId id) o Post.
Proof. intros H. by apply wp_find. Qed.

Lemma wp_count o Post : (forall b, Post b o) -> wp GetBrConnectionCount o Post.
Proof. intros H. apply wp_act. intros e w r _ Hi. destruct (lockOk e); cbn [negb]; [destruct (stuck w); [done|]|]; by exists o. Qed.

Lemma wp_isId id o Post : (forall b, Post b o) -> wp (IsExitConnectionById id) o Post.
Proof. intros H. by apply wp_findAnyway. Qed.

Lemma wp_isFd fd o Post : (forall b, Post b o) -> wp (IsExitBrConnectByFd fd) o Post.
Proof. intros H. by apply wp_findAnyway. Qed.

Lemma wp_ready id o Post : (forall b, Post b o) -> wp (IsBrDeviceReady id) o Post.
Proof. intros H. by apply wp_findAnyway. Qed.

Lemma wp_info id o Post : (forall b, Post b o) -> wp (GetConnectionInfo id) o Post.
Proof.
  intros H. apply wp_locked; [done|intros w r Hi; by exists o|]. intros w r a i Hi _ _. destruct (copyMac (mac i)); by exists o.
Qed.

Lemma harmless_state s : harmless (changeState s).
Proof. intros i. unfold changeState. by destruct (s =? BR_CONNECTION_STATE_CLOSED). Qed.

Lemma wp_setState id s o Post : Post tt o -> wp (SetBrConnStateByConnId id s) o Post.
Proof. intros H. apply (wp_change tt tt _ (fun _ => tt)); [apply harmless_state|by intros []]. Qed.

Lemma wp_setStateBySocket fd s o Post : (forall b, Post b o) -> wp (SetBrConnStateBySocket fd s) o Post.
Proof. intros H. apply (wp_change _ _ _ (fun i => (connectionId i, Some (state i)))); [apply harmless_state|done]. Qed.

Lemma wp_setRefCount d id o Post : (forall b, Post b o) -> wp (SetRefCountByConnId d id) o Post.
Proof.
  intros H. apply wp_locked; [done|intros w r Hi; by exists o|]. intros w r a i Hi _ Hl. exists o. split; [|done].
  apply (inv_harmless w a i (fun i => if (state i =? BR_CONNECTION_STATE_CONNECTED) && (s32 (refCount i + d) <=? 0)
    then setState BR_CONNECTION_STATE_CLOSING (setRefCount (s32 (refCount i + d)) i) else setRefCount (s32 (refCount i + d)) i)); [|done|done].
  intros j. by destruct ((state j =? _) && _).
Qed.

Lemma wp_congest fd v o Post : Post tt o -> wp (RfcomCongestEvent fd v) o Post.
Proof. intros H. apply (wp_change tt tt _ (fun _ => tt) (setCongest v)); [by intros ?i; split_and!|by intros []]. Qed.

Lemma wp_closing op o Post : (forall b, Post b o) -> wp (BrClosingByConnOption op) o Post.
Proof.
  intros H. apply (wp_change _ _ _ (fun i => (SOFTBUS_OK, socketFd i, sideType i)) (setState BR_CONNECTION_STATE_CLOSING)); [by intros ?i; split_and!|done].
Qed.

Lemma wp_active op o Post : (forall b, Post b o) -> wp (BrCheckActiveConnection op) o Post.
Proof. intros H. unfold BrCheckActiveConnection. next; [by apply wp_done|by apply wp_find]. Qed.

Lemma wp_diffMac op o Post : (forall b, Post b o) -> wp (HasDiffMacDeviceExit op) o Post.
Proof. intros H. by apply wp_find. Qed.

Lemma wp_stateByOption op o Post : (forall b, Post b o) -> wp (GetBrConnStateByConnOption op) o Post.
Proof.
  intros H. unfold GetBrConnStateByConnOption. apply wp_seq, wp_find. intros [[a id]|]; [|by apply wp_done].
  apply wp_seq, wp_act. intros e w r _ Hi. destruct (infos w !! a); [|by left]. exists o. split; [done|]. by apply wp_done.
Qed.

Lemma wp_event type fd v o Post : type <> ADD_CONN_BR_RECV_MSG -> (forall b, Post b o) -> wp (ConnBrOnEvent type fd v) o Post.
Proof.
  intros Ht H. unfold ConnBrOnEvent. next; [by apply wp_done|]. next; [apply wp_seq, wp_congest; by apply wp_done|].
  apply wp_seq, wp_postMessage; [by intros ?|]. intros b. by apply wp_done.
Qed.

Lemma wp_allocLoop fuel o Post : (forall b, Post b o) -> wp (allocLoop fuel) o Post.
Proof.
  intros H. induction fuel as [|fuel IH]; cbn [allocLoop]; [by apply wp_act|].
  apply wp_seq, wp_look. intros old. apply wp_seq, wp_other; [done|]. intros _. apply wp_seq, wp_look. intros cur.
  apply wp_seq, wp_isId. intros [|]; [done|by apply wp_done].
Qed.

Lemma wp_CreateNode c ref u l t Post : Post None (MkOwn ref None u l t) -> (forall a, Post (Some a) (MkOwn ref (Some a) u l t)) ->
  wp (CreateBrconnectionNode c) (MkOwn ref None u l t) Post.
Proof.
  intros H0 H1. unfold CreateBrconnectionNode. apply wp_seq, wp_act. intros e w r _ Hi. destruct (mem e && initOk e).
  - eexists. split; [by apply inv_new|]. apply wp_seq, wp_allocLoop. intros id. apply wp_seq, wp_storeOwn; [by intros ?i; split_and!|]. by apply wp_done.
  - eexists. split; [exact Hi|]. by apply wp_done.
Qed.

Lemma pack_some mm method d c : is_Some (BrTrans.BrPackRequestOrResponse true mm (BrAddNumToJson printJson method d c)).
Proof.
  assert (forall f, (length f <= 3)%nat -> is_Some (BrTrans.BrPackRequestOrResponse true mm (printJson f))) as H.
  { intros f Hf. destruct (printJson f) as [text|] eqn:E; [|by eexists]. destruct (Hprint f text Hf E) as [Hb Hl]. destruct mm.
    - destruct (BrTrans.pack_frame text 2000 Hb) as (b & -> & _); [unfold BrTrans.HEAD_SIZE, MAX_MALLOC_SIZE; lia|]. by eexists.
    - unfold BrTrans.BrPackRequestOrResponse, SoftBusCalloc, SoftBusMalloc. destruct (MAX_MALLOC_SIZE <? _); by eexists. }
  unfold BrAddNumToJson. destruct (_ =? _); [|destruct (_ =? _); [|destruct (_ =? _)]]; apply H; cbn; lia.
Qed.

Lemma wp_pack method d c o Post : (forall b, Post b o) -> wp (BrPackRequestOrResponse printJson method d c) o Post.
Proof.
  intros H. apply wp_act. intros e w r _ Hi. destruct (pack_some (mem e) method d (u64 c)) as [x ->]. by exists o.
Qed.

Lemma wp_enqueue n o Post : (forall b, Post b o) -> wp (BrEnqueueNonBlock enqueue n) o Post.
Proof. intros H. apply wp_other; [|done]. intros e w. by destruct (enqueue e n (queue w)). Qed.

Lemma wp_postInner id m d n o Post : (forall b, Post b o) -> wp (PostBytesInner enqueue id m d n) o Post.
Proof.
  intros H. unfold PostBytesInner. apply wp_seq, wp_ready. intros [|]; cbn [negb]; [|by apply wp_done].
  do 2 next. next; [by apply wp_done|by apply wp_enqueue].
Qed.

Lemma wp_postBytes id d n p f o Post : (forall b, Post b o) -> wp (PostBytes enqueue id d n p f) o Post.
Proof.
  intros H. unfold PostBytes. apply wp_seq, wp_ready. intros [|]; cbn [negb]; [|by apply wp_done].
  do 2 next. next; [by apply wp_done|by apply wp_enqueue].
Qed.

Lemma wp_packRequest d id o Post : Post tt o -> wp (PackRequest enqueue printJson d id) o Post.
Proof.
  intros H. unfold PackRequest. apply wp_seq, wp_setRefCount. intros [st rc]. next; [by apply wp_done|].
  assert (wp (bind (BrPackRequestOrResponse printJson METHOD_NOTIFY_REQUEST d (default (-1) rc)) (fun buf =>
    match buf with Some (b, n) => bind (PostBytesInner enqueue id METHOD_NOTIFY_REQUEST b n) (fun _ => Ret tt) | None => Ret tt end)) o Post) as Hrest.
  { apply wp_seq, wp_pack. intros [[b n]|]; [|by apply wp_done]. apply wp_seq, wp_postInner. intros _. by apply wp_done. }
  apply wp_seq. next; [by apply wp_PostClosingTimeout|by apply wp_done].
Qed.

Lemma wp_packLoop n id o Post : Post tt o -> wp (packLoop enqueue printJson n id) o Post.
Proof. intros H. induction n as [|n IH]; cbn [packLoop]; [by apply wp_done|]. by apply wp_seq, wp_packRequest. Qed.

Definition idle (l : list RequestInfo) (t : option (option (Z * Z))) : Own := MkOwn None None None l t.

Lemma wp_clientDevice id l t Post : (forall b, Post b (idle l t)) -> wp (ClientOnBrConnectDevice id) (idle l t) Post.
Proof.
  intros H. unfold ClientOnBrConnectDevice, idle. do 2 next; [by apply wp_done|]. do 2 next. next; [do 3 next; apply H|].
  do 2 next. apply wp_seq, wp_act. intros e w r _ Hi. destruct (Utils.ConvertBtMacToBinary _ _ _ _ _) as [[c x]|]; [|by left].
  eexists. split; [exact Hi|]. next; [do 3 next; apply H|]. do 2 next. next; [do 3 next; apply H|].
  do 2 next. do 2 next. next; [do 5 next; apply H|]. do 2 next. do 3 next. apply H.
Qed.

Lemma wp_answers ok v info ls l t (Post : unit -> Own -> Prop) : Post tt (idle l t) ->
  wp (forEach ls (fun r => answer r ok v info)) (idle (ls ++ l) t) Post.
Proof. apply wp_forEach. intros x l' P HP. by apply wp_answer. Qed.

Lemma wp_notice id ok v l t Post : Post tt (idle l t) -> wp (ClientNoticeResultBrConnect enqueue printJson id ok v) (idle l t) Post.
Proof.
  intros H. unfold ClientNoticeResultBrConnect. apply wp_seq.
  assert (wp (bind (GetBrRequestListByConnId id) (fun x => let '(notifyList, info) := x in
    match notifyList with
    | [] => Ret tt
    | _ => bind (if ok then DeviceConnectPackRequest enqueue printJson (Z.of_nat (length notifyList)) id else Ret tt) (fun _ =>
        forEach notifyList (fun r => answer r ok (if ok then id else v) (if ok then available info else None)))
    end)) (idle l t) Post) as Hrest.
  { unfold idle. do 2 next. destruct ls as [|x ls]; [by apply wp_done|]. apply wp_seq.
    next; [apply wp_packLoop|next]; by apply wp_answers. }
  next; [by apply wp_done|by apply wp_setState].
Qed.

Lemma wp_clientConnect id l t Post : (forall b, Post b (idle l t)) -> wp (ClientOnBrConnect enqueue printJson id) (idle l t) Post.
Proof.
  intros H. unfold ClientOnBrConnect. apply wp_seq, wp_clientDevice. intros [ret fd]. apply wp_seq, wp_notice. apply wp_seq.
  next; [do 2 next|do 2 next]; apply H.
Qed.

Lemma wp_notifyDisconnect ls id info v l t Post : Post tt (idle l t) -> wp (NotifyDisconnect ls id info v) (idle (ls ++ l) t) Post.
Proof. intros H. unfold NotifyDisconnect. apply wp_seq, wp_answers. by next. Qed.

Lemma wp_exist id x l t Post : Post tt (idle l t) -> wp (ConnectDeviceExist enqueue printJson id x) (idle (x :: l) t) Post.
Proof.
  intros H. unfold ConnectDeviceExist, idle. do 2 next; [by eapply wp_ret_reqs; [apply sub_cons|]|].
  do 6 next. next; [|by eapply wp_ret_reqs; [apply sub_cons|]]. do 2 next. by apply wp_packRequest.
Qed.

Lemma wp_connecting id x l t Post : (forall b, Post b (idle l t)) -> wp (ConnectDeviceStateConnecting id x) (idle (x :: l) t) Post.
Proof.
  intros H. unfold ConnectDeviceStateConnecting, idle. do 2 next. next; [by eapply wp_ret_reqs; [apply sub_cons|apply H]|].
  apply wp_seq, wp_AddRequest. intros b. next. apply H.
Qed.

Lemma wp_closingState id x l t Post : (forall b, Post b (idle l t)) -> wp (ConnectDeviceStateClosing id x) (idle (x :: l) t) Post.
Proof.
  intros H. unfold ConnectDeviceStateClosing, idle. do 2 next. next; [by eapply wp_ret_reqs; [apply sub_cons|apply H]|].
  apply wp_seq, wp_AddPendingRequest. intros b. next. apply H.
Qed.

Lemma wp_ret_pub {A} (v : A) ref priv a l t Post : Post v (MkOwn ref priv None l t) -> wp (Ret v) (MkOwn ref priv (Some a) l t) Post.
Proof. intros H. exists (MkOwn ref priv None l t). split; [|done]. unfold weaker. cbn. auto 10. Qed.

Lemma wp_firstTime op x l t Post : (forall b, Post b (idle l t)) -> wp (ConnectDeviceFirstTime op x) (idle (x :: l) t) Post.
Proof.
  intros H. unfold ConnectDeviceFirstTime, idle. apply wp_seq, wp_CreateNode; [by eapply wp_ret_reqs; [apply sub_cons|apply H]|]. intros a.
  do 2 next. next; [apply wp_seq, wp_ReleaseBrconnectionNode; by eapply wp_ret_reqs; [apply sub_cons|apply H]|].
  apply wp_seq. apply (wp_pushOwn a x). next; [|apply wp_seq, wp_ReleaseBrconnectionNode; next; apply H].
  apply wp_seq, wp_storeOwn; [by intros ?i; split_and!|]. do 2 next.
  apply wp_seq, wp_AddConnectionList; cbn [Z.eqb negb]; [apply wp_seq, wp_ReleaseBrconnectionNode; next; apply H|].
  apply wp_seq, wp_event; [done|]. intros b. next; [apply wp_seq, wp_ReleasePublished|]; apply wp_ret_pub, H.
Qed.

Lemma wp_lockBrConn o Post : (forall b, Post b o) -> wp lockBrConn o Post.
Proof. intros H. apply wp_other; [|done]. intros e w. destruct (lockOk e); cbn [negb]; [|done]. by destruct (g_brConnLock w). Qed.

Lemma wp_connectDevice op x l t Post : (forall b, Post b (idle l t)) ->
  wp (ConnectDevice enqueue printJson g_brMaxConnCount op x) (idle (x :: l) t) Post.
Proof.
  intros H. unfold ConnectDevice. apply wp_seq, wp_diffMac. intros _. apply wp_seq, wp_lockBrConn.
  intros [|]; cbn [negb]; [|eapply wp_ret_reqs; [apply sub_cons|apply H]].
  apply wp_seq, wp_stateByOption. intros [st id]. apply wp_seq.
  assert (forall ret, wp (bind unlockBrConn (fun _ => Ret ret)) (idle l t) Post) as Hend.
  { intros ret. apply wp_seq, wp_other; [done|]. intros _. apply wp_done, H. }
  next; [apply wp_seq, wp_exist; next; apply Hend|]. next; [by apply wp_connecting|]. next; [by apply wp_closingState|].
  next; [|eapply wp_ret_reqs; [apply sub_cons|apply Hend]]. apply wp_seq, wp_count. intros n. next; [|by apply wp_firstTime].
  next; [do 3 next; apply Hend|]. apply wp_act. intros. by left.
Qed.

Lemma wp_disconnect fd v l t Post : Post tt (idle l t) -> wp (BrDisconnect enqueue printJson g_brMaxConnCount fd v) (idle l t) Post.
Proof.
  intros H. unfold BrDisconnect. apply wp_seq, wp_setStateBySocket. intros [id per]. next; [by apply wp_done|].
  unfold idle. do 4 next.
  assert (forall ls', wp (bind (ask raw) (fun junk =>
      match copyMac (match info with
             | Some i => match ConnManager.ipeer i with ConnManager.BrPeer b => b | _ => junk end
             | None => junk
             end) with
      | None => Ret tt
      | Some m' => forEach pd (fun r => bind (ConnectDevice enqueue printJson g_brMaxConnCount
          (ConnManager.MkOption ConnManager.CONNECT_BR (ConnManager.BrPeer m') CONN_SIDE_CLIENT) r) (fun _ => Ret tt))
      end)) (idle (pd ++ ls' ++ l) t) Post) as Hrest.
  { intros ls'. apply wp_post_weaker. do 2 next.
    assert (exists o2, weaker o2 (idle (ls' ++ l) t) /\ Post tt o2) as HP.
    { exists (idle l t). split; [apply weaker_reqs, sub_app|done]. }
    next; [|eapply wp_ret_reqs; [apply sub_app|exact HP]].
    apply wp_forEach; [|exact HP]. intros x l' P HP'. apply wp_seq, wp_connectDevice. intros _. by next. }
  apply wp_seq. next; [|next; apply Hrest].
  apply (wp_weaken _ _ (idle (ls ++ pd ++ l) t)).
  { apply weaker_reqs. by rewrite !app_assoc, (Permutation_app_comm ls pd). }
  apply wp_seq, wp_notifyDisconnect. next. apply (Hrest []).
Qed.

Lemma wp_serverConnect fd l t Post : (forall b, Post b (idle l t)) -> wp (ServerOnBrConnect fd) (idle l t) Post.
Proof.
  intros H. unfold ServerOnBrConnect. apply wp_seq, wp_isFd. intros [|]; [apply wp_done, H|].
  unfold idle. apply wp_seq, wp_CreateNode; [do 3 next; apply H|]. intros a.
  assert (forall ret, wp (bind (ReleaseBrconnectionNode a) (fun _ => bind (DisConnect fd) (fun _ => Ret ret))) (MkOwn None (Some a) None l t) Post) as Hdrop.
  { intros ret. apply wp_seq, wp_ReleaseBrconnectionNode. do 3 next. apply H. }
  do 2 next. next; [apply Hdrop|]. apply wp_seq, wp_issue. apply wp_seq. apply (wp_pushOwn a emptyRequest).
  do 2 next. next; [apply Hdrop|]. next; [|by apply wp_act; left]. destruct p as [ret str]. next; [apply Hdrop|].
  apply wp_seq, wp_storeOwn; [by intros ?i; split_and!|]. do 2 next.
  apply wp_seq, wp_AddConnectionList; cbn [Z.eqb negb]; [apply Hdrop|]. apply wp_seq. unfold NotifyServerConn.
  apply wp_conseq with (fun _ o' => o' = MkOwn None None (Some a) l t); [destruct (copyMac _); [by do 3 next|by next]|].
  intros ret' o' ->. next; [do 4 next|]; apply wp_ret_pub, H.
Qed.

Lemma wp_disconnectDevice id o Post : (forall b, Post b o) -> wp (DisconnectDevice enqueue printJson id) o Post.
Proof.
  intros H. unfold DisconnectDevice. apply wp_seq, wp_isId. intros [|]; cbn [negb]; [|by apply wp_done].
  apply wp_seq, wp_packRequest. by apply wp_done.
Qed.

Lemma wp_disconnectNow op o Post : (forall b, Post b o) -> wp (DisconnectDeviceNow op) o Post.
Proof.
  intros H. unfold DisconnectDeviceNow. next; [by apply wp_done|]. apply wp_seq, wp_closing. intros [[ret fd] side].
  next; [by apply wp_done|]. apply wp_seq, wp_act. intros e w r _ Hinv. exists o. split; [done|].
  case_match; by apply wp_event.
Qed.

(** ** The sender *)

Lemma wp_waitCongest a p u l t Post : Post tt (MkOwn (Some a) p u l t) -> wp (waitCongest a) (MkOwn (Some a) p u l t) Post.
Proof.
  intros H. apply wp_act. intros e w r _ Hi. destruct (infos w !! a) as [i|] eqn:Hl.
  - destruct (_ && _); [done|]. by eexists.
  - right. intros Hd. destruct (held_alive _ _ _ _ _ _ _ Hi Hd). congruence.
Qed.

Lemma wp_sendLoop a fd p u l t Post : (forall b, Post b (MkOwn (Some a) p u l t)) -> forall fuel data n,
  wp (sendLoop g_brSendPeerLen fuel a fd data n) (MkOwn (Some a) p u l t) Post.
Proof.
  intros H. induction fuel as [|fuel IH]; intros data n; cbn [sendLoop]; (next; [by apply wp_done|]); [by apply wp_act|].
  apply wp_seq, wp_waitCongest. apply wp_seq, wp_act. intros e w r _ Hi. eexists. split; [by apply inv_emit|].
  next; [by apply wp_done|apply IH].
Qed.

Lemma wp_send a d n p u l t Post : (forall b, Post b (MkOwn (Some a) p u l t)) ->
  wp (BrTransSend g_brSendPeerLen a d n) (MkOwn (Some a) p u l t) Post.
Proof. intros H. unfold BrTransSend. do 2 next. next; [by apply wp_done|by apply wp_sendLoop]. Qed.

Lemma wp_sendAck a win sq p u l Post : (forall b, Post b (MkOwn (Some a) p u l (Some None))) ->
  wp (SendAck printJson g_brSendPeerLen a win sq) (MkOwn (Some a) p u l (Some None)) Post.
Proof.
  intros H. unfold SendAck. apply wp_seq, wp_pack. intros [[b n]|]; [|by apply wp_done]. do 2 next.
  apply wp_seq, wp_CreatePending. intros ret. next; [by apply wp_done|]. apply wp_seq, wp_send. intros ret'. apply wp_seq.
  next; [apply wp_DelPending|next]; by apply wp_done.
Qed.

(** The window stays between its bounds. *)
Lemma timeout_harmless : harmless onTimeout.
Proof.
  intros i. split_and!; [done|done|]. unfold onTimeout. cbn [setAck windows]. unfold MIN_WINDOWS, MAX_WINDOWS, DEFAULT_WINDOWS.
  intros Hw. destruct (Z.ltb_spec 10 (windows i)); cbn [andb]; [destruct (Z.land _ _ =? 0)|]; destruct (_ && _); lia.
Qed.

Lemma triggered_harmless : harmless onTriggered.
Proof.
  intros i. split_and!; [done|done|]. unfold onTriggered. cbn [setAck windows]. unfold MIN_WINDOWS, MAX_WINDOWS.
  intros Hw. destruct (Z.ltb_spec (windows i) 80); lia.
Qed.

Lemma wp_waitAck a sq p u l Post : Post tt (MkOwn (Some a) p u l (Some None)) -> wp (WaitAck a sq) (MkOwn (Some a) p u l (Some None)) Post.
Proof.
  intros H. unfold WaitAck. do 2 next. apply wp_seq, wp_GetPending. intros ret.
  next; [apply wp_store; [apply triggered_harmless|done]|]. next; [apply wp_store; [apply timeout_harmless|done]|].
  apply wp_store; [by intros i|done].
Qed.

Lemma wp_loadWindow a p u l t (Post : Z -> Own -> Prop) : (forall v, MIN_WINDOWS <= v -> Post v (MkOwn (Some a) p u l t)) ->
  wp (load SHeld a windows) (MkOwn (Some a) p u l t) Post.
Proof.
  intros HP. apply wp_act. intros e w r _ Hi. destruct (infos w !! a) as [i|] eqn:Hl.
  - eexists. split; [exact Hi|]. apply HP. apply (i_windows w _ Hi a i Hl).
  - right. intros Hd. destruct (held_alive _ _ _ _ _ _ _ Hi Hd). congruence.
Qed.

Lemma wp_sendRound Post : Post tt (idle [] (Some None)) ->
  wp (SendHandlerRound dequeue printJson g_brSendPeerLen) (idle [] (Some None)) Post.
Proof.
  intros H. unfold SendHandlerRound. apply wp_seq, wp_other.
  { intros e w. destruct (choice e); [|done]. by destruct (dequeue (queue w)). }
  intros [node|]; [|by apply wp_done]. unfold idle. do 2 next; [by apply wp_done|]. do 2 next. next; [by next|].
  apply wp_seq. unfold UpdataSeq. do 3 next. apply wp_seq, wp_loadWindow. intros win Hwin.
  rewrite (proj2 (Z.eqb_neq win 0)) by (unfold MIN_WINDOWS in Hwin; lia).
  apply wp_seq. apply wp_conseq with (fun _ o' => o' = MkOwn (Some a) None None [] (Some None)).
  { next; [|by apply wp_done]. apply wp_seq, wp_sendAck. intros ret. next; [by next|by apply wp_done]. }
  intros _ o' ->. do 2 next. apply wp_seq. apply wp_conseq with (fun _ o' => o' = MkOwn (Some a) None None [] (Some None)).
  { next; [|by apply wp_done]. apply wp_seq, wp_waitAck. by next. }
  intros _ o' ->. apply wp_seq, wp_send. intros _. by next.
Qed.

(** ** Listening and reading *)

Lemma wp_start type o Post : (forall b, Post b o) -> wp (StartLocalListening type) o Post.
Proof.
  intros H. unfold StartLocalListening. next; [by apply wp_done|]. apply wp_seq, wp_look. intros [|]; [by apply wp_done|].
  apply wp_seq. apply (wp_spawn initOk); [done|]. intros [|]; cbn [negb]; [|by apply wp_done]. apply wp_seq, wp_other; [done|]. intros _. by apply wp_done.
Qed.

Lemma wp_stop type o Post : (forall b, Post b o) -> wp (StopLocalListening type) o Post.
Proof.
  intros H. unfold StopLocalListening. next; [by apply wp_done|]. apply wp_seq, wp_other; [done|]. intros _. by apply wp_done.
Qed.

Lemma wp_stateChanged on o Post : Post tt o -> wp (StateChangedCallback on) o Post.
Proof.
  intros H. unfold StateChangedCallback. apply wp_seq, wp_other; [done|]. intros _. apply wp_seq. next; [apply wp_start|apply wp_stop]; intros _; by apply wp_done.
Qed.

Lemma wp_accept n m o (Post : option Task -> Own -> Prop) : (forall x, Post (Some (TAccept x.1 x.2)) o) -> Post None o ->
  wp (ConnBrAccept g_brMaxConnCount n m) o Post.
Proof.
  intros H H0. unfold ConnBrAccept. next; [by apply wp_done|]. apply wp_seq, wp_look. intros [|]; cbn [negb]; [|by apply wp_done].
  apply wp_seq, wp_count. intros c. next; [apply wp_done, (H (_, _))|]. do 2 next. next; [apply wp_done, (H (_, _))|].
  do 2 next. apply wp_seq, wp_look. intros on. apply wp_seq.
  next; [apply wp_seq, wp_event; [done|]; intros _; next|next]; apply wp_done, (H (_, _)).
Qed.

Lemma wp_readFrame id l t (Post : Z + bytes -> Own -> Prop) : (forall c, Post (inl c) (idle l t)) ->
  (forall b, BrTrans.HEAD_SIZE <= len b -> Post (inr b) (idle l t)) -> wp (BrTransReadOneFrame id) (idle l t) Post.
Proof.
  intros H0 H1. unfold BrTransReadOneFrame, idle. do 2 next; [by apply wp_done|]. apply wp_seq, wp_act. intros e w r He Hi.
  destruct (infos w !! a) as [i|] eqn:Hl.
  - eexists. split; [exact Hi|]. do 3 next. destruct (choice e); [by apply H1|apply H0].
  - right. intros Hd. destruct (held_alive _ _ _ _ _ _ _ Hi Hd). congruence.
Qed.

Lemma wp_resume id l t Post : Post tt (idle l t) -> wp (Resume enqueue printJson id) (idle l t) Post.
Proof.
  intros H. unfold Resume, idle. do 2 next. next; [eapply wp_ret_reqs; [apply sub_app|done]|].
  apply wp_forEach; [|done]. intros x l' P HP. by apply wp_exist.
Qed.

Lemma wp_packResponse d pr id l t Post : Post tt (idle l t) -> wp (OnPackResponse enqueue printJson d pr id) (idle l t) Post.
Proof.
  intros H. unfold OnPackResponse, idle. do 2 next; [by apply wp_done|]. do 12 next. next; [by apply wp_resume|].
  next; [apply wp_seq, wp_setState; apply wp_seq, wp_event; [by destruct (_ =? _)|]; intros _; by apply wp_done|].
  apply wp_seq, wp_pack. intros [[b n]|]; [|by apply wp_done]. apply wp_seq, wp_postInner. intros _. by apply wp_done.
Qed.

Lemma wp_onAck id w sq o Post : (forall b, Post b o) -> wp (OnAck enqueue printJson id w sq) o Post.
Proof. intros H. unfold OnAck. apply wp_seq, wp_pack. intros [[b n]|]; [by apply wp_postInner|by apply wp_done]. Qed.

Lemma wp_command id data l t Post : Post tt (idle l t) -> wp (BrConnectedComdHandl enqueue printJson id data) (idle l t) Post.
Proof.
  intros H. unfold BrConnectedComdHandl. next; [|by apply wp_done]. next; [next; [next; [by apply wp_packResponse|by apply wp_done]|by apply wp_done]|].
  next; [next; [by apply wp_setState|by apply wp_done]|].
  next; [next; [next; [apply wp_seq, wp_windows; intros lw; apply wp_seq, wp_onAck; intros _; by apply wp_done|by apply wp_done]|by apply wp_done]|].
  next; [|by apply wp_done]. next; [next; [apply wp_seq, wp_SetPending; intros _; by apply wp_done|by apply wp_done]|by apply wp_done].
Qed.

Lemma wp_recv id b n l t Post : BrTrans.HEAD_SIZE <= len b -> Post tt (idle l t) ->
  wp (BrRecvDataHandle enqueue printJson parseJson id b n) (idle l t) Post.
Proof.
  intros Hb H. unfold BrRecvDataHandle. assert (is_Some (BrTrans.BrRecvDataHandle true b)) as [[m sq] ->].
  { unfold BrTrans.BrRecvDataHandle, BrTrans.loadN. unfold BrTrans.HEAD_SIZE in Hb.
    destruct (get_inside b 4 (Z.of_nat 4)) as (x & -> & _); [lia..|]. destruct (get_inside b 8 (Z.of_nat 8)) as (y & -> & _); [lia..|]. by eexists. }
  next; [|by next]. next; [by apply wp_command|by apply wp_done].
Qed.

Lemma wp_connected c v l t Post : Post tt (idle l t) -> wp (BrConnectedEventHandle enqueue printJson c v) (idle l t) Post.
Proof.
  intros H. unfold BrConnectedEventHandle. apply wp_seq. apply wp_conseq with (fun _ o' => o' = idle l t).
  { next; [by apply wp_done|by apply wp_serverConnect]. }
  intros id o' ->. next; [by apply wp_done|]. apply wp_seq. apply (wp_spawn (fun e => mem e && initOk e)); [done|].
  intros [|]; [by apply wp_done|]. next; [apply wp_seq, wp_notice; by next|]. apply wp_seq, wp_event; [done|]. intros _. by apply wp_done.
Qed.

Lemma wp_handler x l t Post : msgOk x -> Post tt (idle l t) ->
  wp (BrConnMsgHandler enqueue printJson parseJson g_brMaxConnCount x) (idle l t) Post.
Proof.
  intros Hx H. unfold BrConnMsgHandler. next; [by apply wp_connected|]. next; [by apply wp_connected|].
  next; [do 2 next; by apply wp_disconnect|]. destruct (Z.eqb_spec (what x) ADD_CONN_BR_RECV_MSG) as [E|].
  - destruct (Hx E) as (b & -> & Hb). by apply wp_recv.
  - next; [by apply wp_resume|by apply wp_done].
Qed.

(** ** Threads *)

(** What a thread owns between two rounds. *)
Definition taskOwn (t : Task) : Own :=
  match t with
  | TConnect _ r => idle [r] None
  | TSender => idle [] (Some None)
  | _ => idle [] None
  end.

Definition endOwn (n : option Task) : Own := match n with Some t => taskOwn t | None => idle [] None end.


Abbreviation theBody := (body enqueue dequeue printJson parseJson g_brSendPeerLen g_brMaxConnCount).

Lemma wp_body t : wp (theBody t) (taskOwn t) (fun n o => o = endOwn n).
Proof.
  destruct t; cbn [body taskOwn].
  - apply wp_seq, wp_takeMessage. intros x Hx. apply wp_seq, wp_handler; [done|]. by apply wp_done.
  - apply wp_seq, wp_sendRound. by apply wp_done.
  - unfold ConnBrRead. next; [|by apply wp_done]. apply wp_seq, wp_clientConnect. intros fd'. next; by apply wp_done.
  - unfold ConnBrReadRound. apply wp_seq, wp_readFrame.
    + intros _. do 2 next. apply wp_seq, wp_disconnect. by apply wp_done.
    + intros b Hb. apply wp_seq, wp_postMessage; [|intros _; by apply wp_done]. intros _. by exists b.
  - by apply wp_accept.
  - apply wp_seq, wp_connectDevice. intros _. by apply wp_done.
  - apply wp_seq, wp_disconnectDevice. intros _. by apply wp_done.
  - apply wp_seq, wp_disconnectNow. intros _. by apply wp_done.
  - apply wp_seq, wp_postBytes. intros _. by apply wp_done.
  - apply wp_seq, wp_info. intros _. by apply wp_done.
  - apply wp_seq, wp_active. intros _. by apply wp_done.
  - apply wp_seq, wp_start. intros _. by apply wp_done.
  - apply wp_seq, wp_stop. intros _. by apply wp_done.
  - apply wp_seq, wp_event; [done|]. intros _. by apply wp_done.
  - apply wp_seq, wp_stateChanged. by apply wp_done.
Qed.

Definition nothing : Rest := MkRest [] [] [] [] [].
Definition total (os : list Own) : Rest := foldr add nothing os.

Definition threadOk (th : Thread (Q := Q)) (o : Own) : Prop :=
  match th with
  | Idle t => o = taskOwn t
  | Running p => wp p o (fun n o' => o' = endOwn n)
  | Ended => o = idle [] None
  end.

Definition restPerm (t t' : Rest) : Prop :=
  rref t ≡ₚ rref t' /\ rpriv t ≡ₚ rpriv t' /\ rpub t ≡ₚ rpub t' /\ rreqs t ≡ₚ rreqs t' /\ rtok t ≡ₚ rtok t'.

Lemma count_perm a l l' : l ≡ₚ l' -> count a l = count a l'.
Proof. intros H. unfold count. by rewrite H. Qed.

Lemma inv_perm (w : World (Q := Q)) t t' : restPerm t t' -> inv w t -> inv w t'.
Proof.
  intros (P1 & P2 & P3 & P4 & P5) [J1 J2 J3 J4 J5 J6 J7]. split; try done.
  - intros Hd. destruct (J1 Hd) as [R1 R2 R3 R4 R5 R6 R7 R8]. split; try done.
    + intros a Ha. rewrite <- (count_perm a _ _ P1). by apply R2.
    + intros a. rewrite <- P1. apply R3.
    + by rewrite <- P2.
    + intros a. rewrite <- P2. apply R5.
    + intros a. rewrite <- P2. apply R6.
    + intros a. rewrite <- P3. apply R7.
    + intros a. rewrite <- P2, <- P3. apply R8.
  - by rewrite <- P4.
  - by rewrite <- P5.
  - intros k. rewrite <- P5. apply J5.
Qed.

Lemma total_middle l1 o l2 : restPerm (total (l1 ++ o :: l2)) (add o (total (l1 ++ l2))).
Proof.
  induction l1 as [|x l1 IH]; [by split_and!|]. destruct IH as (P1 & P2 & P3 & P4 & P5). cbn [total foldr app] in *.
  fold (total (l1 ++ o :: l2)) (total (l1 ++ l2)) in *.
  split_and!; cbn [add rref rpriv rpub rreqs rtok] in *; rewrite ?P1, ?P2, ?P3, ?P4, ?P5; apply Permutation_app_swap_app.
Qed.

Lemma add_nothing r : add (idle [] None) r = r.
Proof. by destruct r. Qed.

Lemma total_idle os n : total (os ++ replicate n (idle [] None)) = total os.
Proof.
  unfold total. rewrite foldr_app. f_equal. induction n as [|n IH]; [done|]. cbn [replicate foldr]. by rewrite IH, add_nothing.
Qed.

Definition sysInv (s : System (Q := Q)) : Prop :=
  exists os, Forall2 threadOk (threads s) os /\ inv (world s) (total os) /\ spawned (world s) = [].

Abbreviation theStep := (step enqueue dequeue printJson parseJson g_brSendPeerLen g_brMaxConnCount).
Abbreviation theRun := (run enqueue dequeue printJson parseJson g_brSendPeerLen g_brMaxConnCount).

(** A thread's state fits what is left to run. *)
Lemma settle_ok p o : wp p o (fun n o' => o' = endOwn n) ->
  exists o', threadOk (settle p) o' /\ weaker o' o.
Proof.
  destruct p as [[t|]|B f k]; cbn [settle threadOk]; [intros (o' & Hw & ->)..|intros H]; [by eexists|by eexists|].
  exists o. split; [done|apply weaker_refl].
Qed.

(** The other threads' part of the invariant. *)
Lemma split_thread ts os i th : Forall2 threadOk ts os -> ts !! i = Some th ->
  exists o l1 l2, os = l1 ++ o :: l2 /\ length l1 = i /\ threadOk th o.
Proof.
  intros H2 Hi. destruct (Forall2_lookup_l _ _ _ _ _ H2 Hi) as (o & Ho & Hth).
  exists o, (take i os), (drop (S i) os). split_and!; [by rewrite take_drop_middle| |done].
  apply length_take_le. apply lookup_lt_Some in Ho. lia.
Qed.

Lemma replace_thread ts l1 o o' l2 th' w i : Forall2 threadOk ts (l1 ++ o :: l2) -> length l1 = i -> threadOk th' o' ->
  inv w (add o' (total (l1 ++ l2))) ->
  Forall2 threadOk (<[i := th']> ts) (l1 ++ o' :: l2) /\ inv w (total (l1 ++ o' :: l2)).
Proof.
  intros H2 <- Hth Hi. split.
  - replace (l1 ++ o' :: l2) with (<[length l1 := o']> (l1 ++ o :: l2)) by (by rewrite list_insert_middle || by rewrite insert_app_r_alt, Nat.sub_diag).
    by apply Forall2_insert.
  - eapply inv_perm; [|exact Hi]. destruct (total_middle l1 o' l2) as (P1 & P2 & P3 & P4 & P5). by split_and!.
Qed.

Lemma adopted w ts os : Forall2 threadOk ts os -> inv w (total os) -> sysInv (adopt w ts).
Proof.
  intros H2 Hi. exists (os ++ replicate (length (spawned w)) (idle [] None)). unfold adopt. cbn [threads world spawned]. split_and!; [| |done].
  - apply Forall2_app; [done|]. pose proof (i_spawned w _ Hi) as Hp. revert Hp. generalize (spawned w). clear.
    induction l as [|t l IH]; intros Hp; [constructor|]. apply Forall_cons in Hp as [Ht Hl]. cbn. constructor; [by destruct t|by apply IH].
  - rewrite total_idle. destruct Hi as [J1 J2 J3 J4 J5 J6 J7]. by split.
Qed.

Definition choiceOk (c : Choice) : Prop := match c with Call _ => True | Step _ e => envOk e end.

Lemma choice_inv c s : choiceOk c -> sysInv s ->
  match theStep c s with
  | inl s' => sysInv s'
  | inr site => tolerated site = true \/ ~ NoDup (dropsOf (log (world s)))
  end.
Proof.
  intros Hc (os & H2 & Hi & Hs). destruct c as [t|i e]; cbn [step].
  - destruct (isCall t) eqn:Et; [|by exists os]. exists (os ++ [taskOwn t]). cbn [threads world].
    split_and!; [by apply Forall2_app; [|constructor]| |by destruct t].
    assert (inv (match t with TConnect _ r => emit (EIssue r) (world s) | _ => world s end) (add (taskOwn t) (total os))) as H.
    { destruct t; try discriminate Et; cbn [taskOwn]; try (by rewrite add_nothing).
      eapply inv_history; [..|exact Hi]; try done. pose proof (i_reqs _ _ Hi) as Hr. unfold answeredOf, issuedOf. rewrite !omap_snoc.
      cbn [option_list option_rect]. rewrite app_nil_r. cbn [add idle rreqs oreqs app].
      rewrite <- Permutation_middle, <- Permutation_middle, <- Permutation_cons_append. by apply submseteq_skip. }
    eapply inv_perm; [|exact H]. pose proof (total_middle os (taskOwn t) []) as (P1 & P2 & P3 & P4 & P5). rewrite app_nil_r in *.
    by split_and!.
  - destruct (threads s !! i) as [th|] eqn:Eth; [|by exists os].
    destruct (split_thread _ _ _ _ H2 Eth) as (o & l1 & l2 & -> & Hl & Hth).
    assert (inv (world s) (add o (total (l1 ++ l2)))) as Hi' by (eapply inv_perm; [apply total_middle|exact Hi]).
    destruct th as [t|p|]; cbn [threadOk] in Hth; [| |by eexists].
    + subst o. destruct (settle_ok _ _ (wp_body t)) as (o' & Ho' & Hw).
      destruct (replace_thread (threads s) l1 (taskOwn t) o' l2 (settle (theBody t)) (world s) i) as [F1 F2]; try done; [by eapply inv_weaker|].
      exists (l1 ++ o' :: l2). by split_and!.
    + destruct p as [n|B f k]; [by eexists|]. specialize (Hth e (world s) (total (l1 ++ l2)) Hc Hi').
      destruct (f e (world s)) as [b w'| |site]; [|by eexists|done]. destruct Hth as (o1 & Hi1 & Hk).
      destruct (settle_ok _ _ Hk) as (o' & Ho' & Hw).
      destruct (replace_thread (threads s) l1 o o' l2 (settle (k b)) w' i) as [F1 F2]; try done; [by eapply inv_weaker|].
      by eapply adopted.
Qed.

Lemma schedule_inv cs : forall s s', Forall choiceOk cs -> sysInv s -> theRun cs s = inl s' -> sysInv s'.
Proof.
  induction cs as [|c cs IH]; intros s s' Hc Hs; cbn [run]; [by intros [= <-]|]. apply Forall_cons in Hc as [Hc1 Hc].
  pose proof (choice_inv c s Hc1 Hs) as H. destruct (theStep c s) as [s1|]; [|done]. by apply IH.
Qed.

Lemma init_inv q : sysInv (system0 q).
Proof.
  exists [idle [] (Some None); idle [] None]. split_and!; [by repeat constructor| |done].
  split; cbn; try done.
  - intros _. split; cbn.
    + constructor.
    + intros a Ha. by apply elem_of_nil in Ha.
    + intros a [Ha|Ha]; by apply elem_of_nil in Ha.
    + constructor.
    + intros a Ha. by apply elem_of_nil in Ha.
    + intros a [x Ha]. by rewrite lookup_empty in Ha.
    + intros a [[x Ha]|[Ha|Ha]]; [by rewrite lookup_empty in Ha|by apply elem_of_nil in Ha..].
    + intros a Ha. by apply elem_of_nil in Ha.
  - intros k [E|E]%elem_of_cons; [done|by apply elem_of_nil in E].
Qed.

(** A thread that holds nothing: between two rounds, or at its end. *)
Definition resting (th : Thread (Q := Q)) : bool := match th with Idle _ | Ended => true | Running _ => false end.

Lemma resting_total ts os : Forall2 threadOk ts os -> forallb resting ts = true -> rref (total os) = [] /\ rpriv (total os) = [].
Proof.
  induction 1 as [|th o ts os Hth H2 IH]; [done|]. cbn [forallb]. intros [Hr Hrs]%andb_true_iff. destruct (IH Hrs) as [E1 E2].
  cbn [total foldr add rref rpriv]. fold (total os). rewrite E1, E2.
  destruct th as [t| |]; [|discriminate Hr|]; cbn [threadOk] in Hth; subst o; [by destruct t|done].
Qed.

Lemma sys_quiet s : sysInv s -> NoDup (dropsOf (log (world s))) -> leaksOf (log (world s)) = [] -> forallb resting (threads s) = true ->
  forall a i, infos (world s) !! a = Some i -> a ∈ g_connection_list (world s) /\ a ∉ dropsOf (log (world s)) /\ infoObjRefCount i = 1.
Proof.
  intros (os & H2 & Hi & _) Hd Hk Hr a i Hl. destruct (resting_total _ _ H2 Hr) as [E1 E2]. destruct (i_refs _ _ Hi Hd) as [R1 R2 R3 R4 R5 R6 R7 R8].
  destruct (R6 a ltac:(by exists i)) as [Ha|Ha]; [|rewrite E2 in Ha; by apply elem_of_nil in Ha].
  destruct (R2 a Ha) as (j & Hj & Hn & Hp). assert (i = j) as -> by congruence. rewrite E1, Hk in Hn. unfold standing in Hn.
  change (count a []) with 0 in Hn. destruct (decide (a ∈ dropsOf (log (world s)))); [lia|]. split_and!; [done|done|lia].
Qed.

Lemma sys_answers s : sysInv s -> answeredOf (log (world s)) ⊆+ issuedOf (log (world s)).
Proof.
  intros (os & _ & Hi & _). pose proof (i_reqs _ _ Hi) as H. etransitivity; [|exact H]. by apply submseteq_inserts_r.
Qed.

(** C3: however the threads interleave and whatever the system, the peers and
    the queue do, an access to a connection that was released happens only
    after one connection lost the reference it started with twice, or at one
    of two places: the state [GetBrConnStateByConnOption] reads after
    unlocking, and the connection [ConnectDeviceFirstTime] gives up after
    publishing it (the other two sites are addresses that are no strings and
    missing callbacks, given by the caller; frames have their whole head).  Until then every connection in
    the list is alive and listed once, and when the threads rest nothing else
    is: each connection has exactly the reference it started with. *)
Theorem br_no_use_after_free q cs s : Forall choiceOk cs -> theRun cs (system0 q) = inl s ->
  (forall c site, choiceOk c -> theStep c s = inr site -> NoDup (dropsOf (log (world s))) ->
    site = SStateRead \/ site = SPublished \/ site = SString \/ site = SNull) /\
  (NoDup (dropsOf (log (world s))) -> NoDup (g_connection_list (world s)) /\
    forall a, a ∈ g_connection_list (world s) -> exists i, infos (world s) !! a = Some i /\ 0 < infoObjRefCount i) /\
  (NoDup (dropsOf (log (world s))) -> leaksOf (log (world s)) = [] -> forallb resting (threads s) = true ->
    forall a i, infos (world s) !! a = Some i ->
      a ∈ g_connection_list (world s) /\ a ∉ dropsOf (log (world s)) /\ infoObjRefCount i = 1).
Proof.
  intros Hc Hr. pose proof (schedule_inv cs _ _ Hc (init_inv q) Hr) as Hs. split_and!.
  - intros c site Hc1 E Hd. pose proof (choice_inv c s Hc1 Hs) as H. rewrite E in H.
    destruct H as [H|H]; [|done]. destruct site; try discriminate H; auto.
  - intros Hd. destruct Hs as (os & _ & Hi & _). destruct (i_refs _ _ Hi Hd) as [R1 R2 _ _ _ _ _ _]. split; [done|].
    intros a Ha. destruct (R2 a Ha) as (i & Hl & _ & Hp). by exists i.
  - by apply sys_quiet.
Qed.

(** C18: a request to connect is answered at most once: among the answers no
    request occurs more often than it was made, whatever becomes of its
    connection, including the requests that wait for one connection to close
    and are then made again. *)
Theorem br_answers_once q cs s : Forall choiceOk cs -> theRun cs (system0 q) = inl s ->
  answeredOf (log (world s)) ⊆+ issuedOf (log (world s)).
Proof. intros Hc Hr. apply sys_answers. by eapply schedule_inv; [|apply init_inv|]. Qed.

(** C32: the send window of every connection stays between its bounds, so that
    the sender never divides by zero. *)
Theorem br_windows q cs s : Forall choiceOk cs -> theRun cs (system0 q) = inl s ->
  forall a i, infos (world s) !! a = Some i -> MIN_WINDOWS <= windows i <= MAX_WINDOWS.
Proof.
  intros Hc Hr a i Hl. destruct (schedule_inv cs _ _ Hc (init_inv q) Hr) as (os & _ & Hi & _). by apply (i_windows _ _ Hi a).
Qed.

End Safety.

(** ** Runs *)

#[export] Instance choiceOk_dec c : Decision (choiceOk c).
Proof. destruct c as [t|i e]; unfold choiceOk, envOk; apply _. Defined.

(** A queue that is a list, and messages of two bytes per number. *)
Definition demoEnqueue (e : Env) (n : SendBrQueueNode) (q : list SendBrQueueNode) : Z * list SendBrQueueNode := (0, q ++ [n]).

Definition demoDequeue (q : list SendBrQueueNode) : option SendBrQueueNode * list SendBrQueueNode :=
  match q with [] => (None, []) | n :: r => (Some n, r) end.

Definition demoKey (k : Key) : Z :=
  match k with KEY_METHOD => 1 | KEY_DELTA => 2 | KEY_REFERENCE_NUM => 3 | KEY_WINDOWS => 4 | KEY_ACK_SEQ_NUM => 5 end.

Definition demoPrint (l : list (Key * Z)) : option bytes := Some (l ≫= fun kv => [demoKey kv.1; kv.2 mod 256]).

Fixpoint demoParse (b : bytes) : list (Key * Z) :=
  match b with
  | n :: v :: r =>
      match List.find (fun k => demoKey k =? n) [KEY_METHOD; KEY_DELTA; KEY_REFERENCE_NUM; KEY_WINDOWS; KEY_ACK_SEQ_NUM] with
      | Some k => (k, v) :: demoParse r
      | None => []
      end
  | _ => []
  end.

Lemma demoPrint_ok fields text : (length fields <= 3)%nat -> demoPrint fields = Some text -> is_bytes text /\ len text <= 1000.
Proof.
  intros Hl [= <-]. split.
  - apply Forall_bind, Forall_forall. intros [k v] _. repeat constructor; cbn; try (destruct k; cbn; lia); apply Z.mod_pos_bound; lia.
  - unfold len. destruct fields as [|? [|? [|? [|? ?]]]]; cbn in *; lia.
Qed.

Definition demoRun (cs : list Choice) : System + Site :=
  run demoEnqueue demoDequeue demoPrint (fun b => Some (demoParse b)) 100 10 cs (system0 []).

(** The system once a schedule has run. *)
Definition demoAfter (cs : list Choice) : System (Q := list SendBrQueueNode) :=
  match demoRun cs with inl s => s | inr _ => system0 [] end.

Definition demoRuns (cs : list Choice) : bool := match demoRun cs with inl _ => true | inr _ => false end.

Lemma demoRuns_after cs : demoRuns cs = true ->
  run demoEnqueue demoDequeue demoPrint (fun b => Some (demoParse b)) 100 10 cs (system0 []) = inl (demoAfter cs).
Proof. unfold demoRuns, demoAfter, demoRun. by destruct (run _ _ _ _ _ _ _ _). Qed.

Definition demoMac : bytes := [49; 49; 58; 50; 50; 58; 51; 51; 58; 52; 52; 58; 53; 53; 58; 54; 54; 0].
Definition demoOption : ConnectOption := ConnManager.MkOption 2 (ConnManager.BrPeer demoMac) 0.
Definition demoRequest (n : Z) : RequestInfo := MkReq n (ConnManager.MkResult (Some n) (Some n)).
Definition demoEnv (message more : bool) (r : bytes) : Env := MkEnv true true message true more 5 r.
Definition demoGo (i n : nat) : list Choice := replicate n (Step i (demoEnv true true (replicate 24 0))).

(** A response of the peer that counts one reference. *)
Definition demoFrame : bytes :=
  BrTrans.headBytes true (BrTrans.MkHead (wrapS 32 BrTrans.MAGIC_NUMBER) 11 1 0 4) ++ [1; METHOD_NOTIFY_RESPONSE; 3; 1].

(** The first connection, made and told of by the looper (thread 1) and its
    reader (thread 3); threads 0 and 2 are the sender and the caller. *)
Definition demoConnecting : list Choice := Call (TConnect demoOption (demoRequest 7)) :: demoGo 2 40 ++ demoGo 1 3.
Definition demoEstablished : list Choice := demoConnecting ++ demoGo 3 12.

(** Another caller asks for the same peer; the first connection goes away
    while it is between finding the connection and reading its state. *)
Definition demoStateRead : list Choice :=
  demoEstablished ++ Call (TConnect demoOption (demoRequest 8)) :: demoGo 4 4 ++ Call (TDisconnectNow demoOption) :: demoGo 5 10 ++ demoGo 1 40.

(** The connection that is just listed goes away before its maker, for which
    there is no memory for the message, gives it up. *)
Definition demoPublished : list Choice :=
  Call (TConnect demoOption (demoRequest 7)) :: demoGo 2 16 ++ Call (TDisconnectNow demoOption) :: demoGo 3 10 ++ demoGo 1 40
  ++ [Step 2 (demoEnv false true demoFrame); Step 2 (demoEnv false true demoFrame)].

(** The sender holds the connection, which is closed; a response that was on
    its way brings it back to life, and it is closed again when its reader
    ends. *)
Definition demoTwice : list Choice :=
  demoEstablished ++ Call (TPost 131073 [1; 2; 3] 3 9 0) :: demoGo 4 10 ++ demoGo 0 3 ++ Call (TDisconnectNow demoOption) :: demoGo 5 10
  ++ replicate 7 (Step 3 (demoEnv true true demoFrame)) ++ demoGo 1 40 ++ replicate 30 (Step 3 (demoEnv true false demoFrame)).

(** The user of the connection gives it up. *)
Definition demoLast : list Choice := demoEstablished ++ Call (TDisconnect 131073) :: demoGo 4 20.

(** The access of [GetBrConnStateByConnOption] does go wrong. *)
Lemma state_read_use_after_free : demoRun (demoStateRead ++ demoGo 4 1) = inr SStateRead /\
  dropsOf (log (world (demoAfter demoStateRead))) = [0%nat].
Proof. split; vm_compute; reflexivity. Qed.

(** So does the release of [ConnectDeviceFirstTime]. *)
Lemma published_use_after_free : demoRun demoPublished = inr SPublished.
Proof. vm_compute. reflexivity. Qed.

(** A connection that is closed and heard of again loses its first reference
    twice, and the sender then uses it after its release. *)
Lemma double_drop_use_after_free : dropsOf (log (world (demoAfter demoTwice))) = [0; 0]%nat /\
  demoRun (demoTwice ++ demoGo 0 1) = inr SHeld.
Proof. split; vm_compute; reflexivity. Qed.

(** When the last user disconnects, nothing is sent: the state is already
    closing and the request is refused by [PostBytesInner].  After the
    timeout the connection is connected again, without users. *)
Lemma last_disconnect_unsent :
  (fun i => (state i, refCount i)) <$> infos (world (demoAfter demoLast)) !! 0%nat = Some (BR_CONNECTION_STATE_CLOSING, 0) /\
  queue (world (demoAfter demoLast)) = [] /\
  (fun i => (state i, refCount i)) <$> infos (world (demoAfter (demoLast ++ demoGo 1 20))) !! 0%nat = Some (BR_CONNECTION_STATE_CONNECTED, 0) /\
  log (world (demoAfter (demoLast ++ demoGo 1 20))) = log (world (demoAfter demoEstablished)).
Proof. split_and!; vm_compute; reflexivity. Qed.

Lemma br_no_use_after_free_witness :
  (exists a i, infos (world (demoAfter demoEstablished)) !! a = Some i /\ a ∈ g_connection_list (world (demoAfter demoEstablished)) /\
    infoObjRefCount i = 1) /\
  (forall site, step demoEnqueue demoDequeue demoPrint (fun b => Some (demoParse b)) 100 10
      (Step 4 (demoEnv true true (replicate 24 0))) (demoAfter demoStateRead) = inr site ->
    site = SStateRead \/ site = SPublished \/ site = SString \/ site = SNull).
Proof.
  assert (Forall choiceOk demoEstablished) as H1 by (apply (bool_decide_unpack _); vm_compute; exact I).
  assert (Forall choiceOk demoStateRead) as H2 by (apply (bool_decide_unpack _); vm_compute; exact I).
  assert (demoRuns demoEstablished = true) as R1 by (vm_compute; reflexivity).
  assert (demoRuns demoStateRead = true) as R2 by (vm_compute; reflexivity).
  pose proof (br_no_use_after_free demoEnqueue demoDequeue demoPrint (fun b => Some (demoParse b)) 100 10 demoPrint_ok [] demoEstablished
    _ H1 (demoRuns_after _ R1)) as (_ & _ & H).
  pose proof (br_no_use_after_free demoEnqueue demoDequeue demoPrint (fun b => Some (demoParse b)) 100 10 demoPrint_ok [] demoStateRead
    _ H2 (demoRuns_after _ R2)) as (K & _ & _).
  split.
  - exists 0%nat. eexists. split; [vm_compute; reflexivity|].
    refine ((fun x => conj (proj1 x) (proj2 (proj2 x))) (H _ _ _ 0%nat _ _)).
    + apply (bool_decide_unpack _). vm_compute. exact I.
    + vm_compute. reflexivity.
    + vm_compute. reflexivity.
    + vm_compute. reflexivity.
  - intros site E. refine (K _ site _ E _); apply (bool_decide_unpack _); vm_compute; exact I.
Defined.

Lemma br_answers_once_witness : answeredOf (log (world (demoAfter demoEstablished))) ⊆+ issuedOf (log (world (demoAfter demoEstablished))) /\
  answeredOf (log (world (demoAfter demoEstablished))) = [demoRequest 7].
Proof.
  split; [|vm_compute; reflexivity].
  apply (br_answers_once demoEnqueue demoDequeue demoPrint (fun b => Some (demoParse b)) 100 10
      demoPrint_ok [] demoEstablished).
  - apply (bool_decide_unpack _). vm_compute. exact I.
  - vm_compute. reflexivity.
Defined.

Lemma br_windows_witness : exists i, infos (world (demoAfter demoEstablished)) !! 0%nat = Some i /\ MIN_WINDOWS <= windows i <= MAX_WINDOWS.
Proof.
  eexists. split; [vm_compute; reflexivity|].
  refine (br_windows demoEnqueue demoDequeue demoPrint (fun b => Some (demoParse b)) 100 10
      demoPrint_ok [] demoEstablished (demoAfter demoEstablished) _ _ 0%nat _ _).
  - apply (bool_decide_unpack _). vm_compute. exact I.
  - vm_compute. reflexivity.
  - vm_compute. reflexivity.
Defined.

End BrSafety.
