(* ===== verification/NodeInfo.v ===== *)
(** * What is known of a node

    Models [lnn_node_info.c], [lnn_device_info.c] and [lnn_net_capability.c]
    of [core/bus_center/lnn/net_ledger/common/src]: the fields of a
    [NodeInfo], the kinds of discovery, the names of device types and the
    capabilities of the network.

    A [char] array that holds a string is the text in front of its
    terminator; two strings are equal for [strcmp] when their texts are.  A
    copy with [strncpy_s] or [strcpy_s] that does not fit leaves the empty
    text.  A missing pointer is [None].

    [device_type_roundtrip] says that the name of a type gives the type back;
    the lemmas at the end when it does not. *)

From S2P Require Import Prelude Errno Bytes.
Import Errno Bytes.

Module NodeInfo.

Abbreviation text := (list Z).

Definition DEVICE_NAME_BUF_LEN : Z := 128.
Definition UDID_BUF_LEN : Z := 65.
Definition UUID_BUF_LEN : Z := 65.
Definition NETWORK_ID_BUF_LEN : Z := 65.
Definition MAC_LEN : Z := 18.
Definition NET_IF_NAME_LEN : Z := 20.
Definition MAX_ADDR_LEN : Z := 46.
Definition SHORT_ADDRESS_MAX_LEN : Z := 8.
Definition CONNECTION_ADDR_MAX : Z := 4.
Definition LNN_RELATION_MASK : Z := 3.
Definition STATUS_OFFLINE : Z := 0.
Definition STATUS_ONLINE : Z := 1.
Definition DISCOVERY_TYPE_WIFI : Z := 1.
Definition DISCOVERY_TYPE_BLE : Z := 2.
Definition DISCOVERY_TYPE_BR : Z := 3.
Definition DISCOVERY_TYPE_COUNT : Z := 5.
Definition DEFAULT_IP : text := [].
Definition DEFAULT_MAC : text := [].

Record DeviceBasicInfo := MkDevice { deviceName : text; deviceUdid : text; deviceTypeId : Z }.

Record ConnectInfo := MkConnect {
  netIfName : text; deviceIp : text; macAddr : text; authPort : Z; proxyPort : Z; sessionPort : Z }.

Record P2pInfo := MkP2p { p2pRole : Z; p2pMac : text; goMac : text }.

Record BssTransInfo := MkBss { ssid : text; targetBssid : bytes }.

Record NodeInfo := MkNodeInfo {
  softBusVersion : text; versionType : text; uuid : text; networkId : text; publicId : text; parentId : text;
  masterUdid : text; nodeAddress : text; relation : list Z; masterWeight : Z; role : Z; status : Z;
  netCapacity : Z; discoveryType : Z; heartbeatTimeStamp : Z; deviceInfo : DeviceBasicInfo; connectInfo : ConnectInfo;
  authSeqNum : Z; authChannelId : list Z; bssTransInfo : BssTransInfo; isBleP2p : bool; p2pInfo : P2pInfo;
  supportedProtocols : Z; accountHash : bytes }.

(** [sizeof(NodeInfo)] on a 64-bit target. *)
Definition SIZEOF_NodeInfo : Z := 856.

(** ** Writing fields *)

Definition setNet (r a : list Z) (st d : Z) (n : NodeInfo) : NodeInfo :=
  MkNodeInfo (softBusVersion n) (versionType n) (uuid n) (networkId n) (publicId n) (parentId n) (masterUdid n) (nodeAddress n)
    r (masterWeight n) (role n) st (netCapacity n) d (heartbeatTimeStamp n) (deviceInfo n) (connectInfo n) (authSeqNum n) a
    (bssTransInfo n) (isBleP2p n) (p2pInfo n) (supportedProtocols n) (accountHash n).

Definition setParts (d : DeviceBasicInfo) (c : ConnectInfo) (p : P2pInfo) (n : NodeInfo) : NodeInfo :=
  MkNodeInfo (softBusVersion n) (versionType n) (uuid n) (networkId n) (publicId n) (parentId n) (masterUdid n) (nodeAddress n)
    (relation n) (masterWeight n) (role n) (status n) (netCapacity n) (discoveryType n) (heartbeatTimeStamp n) d c (authSeqNum n)
    (authChannelId n) (bssTransInfo n) (isBleP2p n) p (supportedProtocols n) (accountHash n).

Definition setMisc (master addr : text) (cap hb protocols : Z) (n : NodeInfo) : NodeInfo :=
  MkNodeInfo (softBusVersion n) (versionType n) (uuid n) (networkId n) (publicId n) (parentId n) master addr
    (relation n) (masterWeight n) (role n) (status n) cap (discoveryType n) hb (deviceInfo n) (connectInfo n) (authSeqNum n)
    (authChannelId n) (bssTransInfo n) (isBleP2p n) (p2pInfo n) protocols (accountHash n).

Definition setDiscovery (d : Z) (n : NodeInfo) : NodeInfo := setNet (relation n) (authChannelId n) (status n) d n.
Definition setStatus (st : Z) (n : NodeInfo) : NodeInfo := setNet (relation n) (authChannelId n) st (discoveryType n) n.
Definition setDevice (d : DeviceBasicInfo) (n : NodeInfo) : NodeInfo := setParts d (connectInfo n) (p2pInfo n) n.
Definition setConnect (c : ConnectInfo) (n : NodeInfo) : NodeInfo := setParts (deviceInfo n) c (p2pInfo n) n.
Definition setP2p (p : P2pInfo) (n : NodeInfo) : NodeInfo := setParts (deviceInfo n) (connectInfo n) p n.

(** [strncpy_s(dest, destMax, src, strlen(src))] and [strcpy_s(dest, destMax,
    src)] into an array of [destMax] characters: whether the text fits, and
    the text of the array. *)
Definition copyText (destMax : Z) (src : text) : bool * text :=
  if len src <? destMax then (true, src) else (false, []).

(** ** [lnn_node_info.c] *)

Definition LnnHasDiscoveryType (info : option NodeInfo) (type : Z) : bool :=
  match info with
  | None => false
  | Some n => if DISCOVERY_TYPE_COUNT <=? type then false
              else negb (Z.land (discoveryType n) (Z.shiftl 1 type) =? 0)
  end.

Definition LnnGetDeviceUdid (info : option NodeInfo) : option text := (fun n => deviceUdid (deviceInfo n)) <$> info.

Definition LnnSetDeviceUdid (info : option NodeInfo) (udid : option text) : Z * option NodeInfo :=
  match info, udid with
  | Some n, Some u =>
      let '(ok, t) := copyText UDID_BUF_LEN u in
      (if ok then SOFTBUS_OK else SOFTBUS_MEM_ERR,
       Some (setDevice (MkDevice (deviceName (deviceInfo n)) t (deviceTypeId (deviceInfo n))) n))
  | _, _ => (SOFTBUS_INVALID_PARAM, info)
  end.

Definition LnnSetDiscoveryType (info : option NodeInfo) (type : Z) : Z * option NodeInfo :=
  match info with
  | None => (SOFTBUS_INVALID_PARAM, info)
  | Some n => if DISCOVERY_TYPE_COUNT <=? type then (SOFTBUS_INVALID_PARAM, info)
              else (SOFTBUS_OK, Some (setDiscovery (Z.lor (discoveryType n) (Z.shiftl 1 type)) n))
  end.

Definition LnnClearDiscoveryType (info : option NodeInfo) (type : Z) : Z * option NodeInfo :=
  match info with
  | None => (SOFTBUS_INVALID_PARAM, info)
  | Some n => if DISCOVERY_TYPE_COUNT <=? type then (SOFTBUS_INVALID_PARAM, info)
              else (SOFTBUS_OK, Some (setDiscovery (Z.land (discoveryType n) (u32 (Z.lnot (Z.shiftl 1 type)))) n))
  end.

Definition LnnIsNodeOnline (info : option NodeInfo) : bool :=
  match info with None => false | Some n => status n =? STATUS_ONLINE end.

Definition LnnSetNodeConnStatus (info : option NodeInfo) (st : Z) : option NodeInfo := setStatus st <$> info.

Definition LnnGetBtMac (info : option NodeInfo) : text :=
  match info with None => DEFAULT_MAC | Some n => macAddr (connectInfo n) end.

Definition LnnSetBtMac (info : option NodeInfo) (mac : option text) : option NodeInfo :=
  match info, mac with
  | Some n, Some m =>
      let c := connectInfo n in
      Some (setConnect (MkConnect (netIfName c) (deviceIp c) (copyText MAC_LEN m).2 (authPort c) (proxyPort c) (sessionPort c)) n)
  | _, _ => info
  end.

Definition LnnGetNetIfName (info : option NodeInfo) : text :=
  match info with None => DEFAULT_MAC | Some n => netIfName (connectInfo n) end.

Definition LnnSetNetIfName (info : option NodeInfo) (name : option text) : option NodeInfo :=
  match info, name with
  | Some n, Some m =>
      let c := connectInfo n in
      Some (setConnect (MkConnect (copyText NET_IF_NAME_LEN m).2 (deviceIp c) (macAddr c) (authPort c) (proxyPort c) (sessionPort c)) n)
  | _, _ => info
  end.

Definition LnnGetWiFiIp (info : option NodeInfo) : text :=
  match info with None => DEFAULT_IP | Some n => deviceIp (connectInfo n) end.

Definition LnnSetWiFiIp (info : option NodeInfo) (ip : option text) : option NodeInfo :=
  match info, ip with
  | Some n, Some m =>
      let c := connectInfo n in
      Some (setConnect (MkConnect (netIfName c) (copyText MAX_ADDR_LEN m).2 (macAddr c) (authPort c) (proxyPort c) (sessionPort c)) n)
  | _, _ => info
  end.

Definition LnnGetMasterUdid (info : option NodeInfo) : option text := masterUdid <$> info.

Definition LnnSetMasterUdid (info : option NodeInfo) (udid : option text) : Z * option NodeInfo :=
  match info, udid with
  | Some n, Some u =>
      let '(ok, t) := copyText UDID_BUF_LEN u in
      (if ok then SOFTBUS_OK else SOFTBUS_ERR,
       Some (setMisc t (nodeAddress n) (netCapacity n) (heartbeatTimeStamp n) (supportedProtocols n) n))
  | _, _ => (SOFTBUS_INVALID_PARAM, info)
  end.

Definition LnnGetAuthPort (info : option NodeInfo) : Z :=
  match info with None => SOFTBUS_INVALID_PARAM | Some n => authPort (connectInfo n) end.

Definition LnnGetSessionPort (info : option NodeInfo) : Z :=
  match info with None => SOFTBUS_INVALID_PARAM | Some n => sessionPort (connectInfo n) end.

Definition LnnGetProxyPort (info : option NodeInfo) : Z :=
  match info with None => SOFTBUS_INVALID_PARAM | Some n => proxyPort (connectInfo n) end.

Definition setPorts (a p s : Z) (n : NodeInfo) : NodeInfo :=
  let c := connectInfo n in setConnect (MkConnect (netIfName c) (deviceIp c) (macAddr c) a p s) n.

Definition LnnSetAuthPort (info : option NodeInfo) (port : Z) : Z * option NodeInfo :=
  match info with
  | None => (SOFTBUS_INVALID_PARAM, info)
  | Some n => (SOFTBUS_OK, Some (setPorts port (proxyPort (connectInfo n)) (sessionPort (connectInfo n)) n))
  end.

Definition LnnSetSessionPort (info : option NodeInfo) (port : Z) : Z * option NodeInfo :=
  match info with
  | None => (SOFTBUS_INVALID_PARAM, info)
  | Some n => (SOFTBUS_OK, Some (setPorts (authPort (connectInfo n)) (proxyPort (connectInfo n)) port n))
  end.

(** A missing node is no error here. *)
Definition LnnSetProxyPort (info : option NodeInfo) (port : Z) : Z * option NodeInfo :=
  match info with
  | None => (SOFTBUS_OK, info)
  | Some n => (SOFTBUS_OK, Some (setPorts (authPort (connectInfo n)) port (sessionPort (connectInfo n)) n))
  end.

Definition LnnSetP2pRole (info : option NodeInfo) (r : Z) : Z * option NodeInfo :=
  match info with
  | None => (SOFTBUS_INVALID_PARAM, info)
  | Some n => (SOFTBUS_OK, Some (setP2p (MkP2p r (p2pMac (p2pInfo n)) (goMac (p2pInfo n))) n))
  end.

Definition LnnGetP2pRole (info : option NodeInfo) : Z :=
  match info with None => 0 | Some n => p2pRole (p2pInfo n) end.

Definition LnnSetP2pMac (info : option NodeInfo) (mac : option text) : Z * option NodeInfo :=
  match info, mac with
  | Some n, Some m =>
      let '(ok, t) := copyText MAC_LEN m in
      (if ok then SOFTBUS_OK else SOFTBUS_MEM_ERR, Some (setP2p (MkP2p (p2pRole (p2pInfo n)) t (goMac (p2pInfo n))) n))
  | _, _ => (SOFTBUS_INVALID_PARAM, info)
  end.

Definition LnnGetP2pMac (info : option NodeInfo) : option text := (fun n => p2pMac (p2pInfo n)) <$> info.

Definition LnnSetP2pGoMac (info : option NodeInfo) (mac : option text) : Z * option NodeInfo :=
  match info, mac with
  | Some n, Some m =>
      let '(ok, t) := copyText MAC_LEN m in
      (if ok then SOFTBUS_OK else SOFTBUS_MEM_ERR, Some (setP2p (MkP2p (p2pRole (p2pInfo n)) (p2pMac (p2pInfo n)) t) n))
  | _, _ => (SOFTBUS_INVALID_PARAM, info)
  end.

Definition LnnGetP2pGoMac (info : option NodeInfo) : option text := (fun n => goMac (p2pInfo n)) <$> info.

Definition LnnGetSupportedProtocols (info : option NodeInfo) : Z :=
  match info with None => 0 | Some n => supportedProtocols n end.

(** A missing node is no error here either. *)
Definition LnnSetSupportedProtocols (info : option NodeInfo) (protocols : Z) : Z * option NodeInfo :=
  match info with
  | None => (SOFTBUS_OK, info)
  | Some n => (SOFTBUS_OK, Some (setMisc (masterUdid n) (nodeAddress n) (netCapacity n) (heartbeatTimeStamp n) protocols n))
  end.

(** ** [lnn_device_info.c] *)

Definition TYPE_UNKNOW_ID : Z := 0.
Definition DEVICE_TYPE_MAX_LENGTH : Z := 3.
Definition HEX_OF_BINARY_BITS : Z := 4.
Definition LAST_FOUR_BINARY_DIGITS : Z := 16.
Definition DIVIDE_NUMBER_AND_LETTERS : Z := 10.
Definition ONE_BIT_MAX_HEX : Z := 15.
Definition LEFT_SHIFT_DEVICE_TYPE_LENGTH : Z := DEVICE_TYPE_MAX_LENGTH * 4.

(** UNKNOWN, PHONE, PAD, TV, CAR, WATCH and WiFiCamara. *)
Definition g_typeToIdMap : list (text * Z) :=
  [([85; 78; 75; 78; 79; 87; 78], 0); ([80; 72; 79; 78; 69], 14); ([80; 65; 68], 17); ([84; 86], 156); ([67; 65; 82], 131);
   ([87; 65; 84; 67; 72], 109); ([87; 105; 70; 105; 67; 97; 109; 97; 114; 97], 8)].

Definition LnnGetDeviceName (info : option DeviceBasicInfo) : option text := deviceName <$> info.

Definition LnnSetDeviceName (info : option DeviceBasicInfo) (name : option text) : Z * option DeviceBasicInfo :=
  match info, name with
  | Some d, Some t =>
      if DEVICE_NAME_BUF_LEN - 1 <? len t then (SOFTBUS_INVALID_PARAM, info)
      else
        let '(ok, t') := copyText DEVICE_NAME_BUF_LEN t in
        (if ok then SOFTBUS_OK else SOFTBUS_MEM_ERR, Some (MkDevice t' (deviceUdid d) (deviceTypeId d)))
  | _, _ => (SOFTBUS_INVALID_PARAM, info)
  end.

Definition LnnGetDeviceTypeId (info : option DeviceBasicInfo) : Z * option Z :=
  match info with
  | None => (SOFTBUS_INVALID_PARAM, None)
  | Some d => (SOFTBUS_OK, Some (deviceTypeId d))
  end.

(** The value of a hexadecimal digit. *)
Definition digit (c : Z) : option Z :=
  if (c <=? 57) && (48 <=? c) then Some (c - 48)
  else if (c <=? 70) && (65 <=? c) then Some (c - 65 + DIVIDE_NUMBER_AND_LETTERS)
  else if (c <=? 102) && (97 <=? c) then Some (c - 97 + DIVIDE_NUMBER_AND_LETTERS)
  else None.

(** The loop and the shift behind it; a character that is no digit ends it. *)
Fixpoint convertLoop (s : text) (typeId : Z) : Z :=
  match s with
  | [] => Z.shiftr typeId HEX_OF_BINARY_BITS
  | c :: rest =>
      match digit c with
      | Some d => convertLoop rest (wrapU 16 (Z.shiftl (Z.lor typeId d) HEX_OF_BINARY_BITS))
      | None => TYPE_UNKNOW_ID
      end
  end.

Definition ConvertStringToInt (deviceType : text) : Z := convertLoop deviceType 0.

Definition InterceptTypeId (typeId i : Z) : Z := Z.shiftr typeId (HEX_OF_BINARY_BITS * i) mod LAST_FOUR_BINARY_DIGITS.

(** The loop over the digits [i], the most significant first, from position
    [j] of [g_stringTypeId]. *)
Fixpoint hexLoop (digits : list Z) (typeId j : Z) (buf : bytes) : option (Z * bytes) :=
  match digits with
  | [] => Some (j, buf)
  | i :: rest =>
      let d := InterceptTypeId typeId i in
      if (j =? 0) && (d =? 0) then hexLoop rest typeId j buf
      else if d <? DIVIDE_NUMBER_AND_LETTERS then buf' ← put buf j [d + 48]; hexLoop rest typeId (j + 1) buf'
      else buf' ← put buf j [d - DIVIDE_NUMBER_AND_LETTERS + 65]; hexLoop rest typeId (j + 1) buf'
  end.

(** The static buffer after the call; the result points to it. *)
Definition ConvertIntToHexString (typeId : Z) (g_stringTypeId : bytes) : option bytes :=
  '(j, buf) ← hexLoop [2; 1; 0] typeId 0 g_stringTypeId;
  put buf j [0].

(** A pointer to a string: the static buffer, or memory of its own. *)
Inductive TypePtr := Static | Own (t : text).

Definition textAt (p : TypePtr) (buf : bytes) : option text :=
  match p with Static => cstr buf | Own t => Some t end.

Definition LnnConvertDeviceTypeToId (deviceType : option TypePtr) (g_stringTypeId : bytes) : option (Z * Z * bytes) :=
  match deviceType with
  | None => Some (SOFTBUS_INVALID_PARAM, TYPE_UNKNOW_ID, g_stringTypeId)
  | Some p =>
      t ← textAt p g_stringTypeId;
      match List.find (fun e => bool_decide (e.1 = t)) g_typeToIdMap with
      | Some e => Some (SOFTBUS_OK, e.2, g_stringTypeId)
      | None =>
          if len t <=? DEVICE_TYPE_MAX_LENGTH then
            buf ← put g_stringTypeId 0 (replicate (Z.to_nat DEVICE_TYPE_MAX_LENGTH) 0);
            t' ← textAt p buf;
            let typeId := ConvertStringToInt t' in
            if negb (typeId =? TYPE_UNKNOW_ID) then Some (SOFTBUS_OK, typeId, buf) else Some (SOFTBUS_ERR, TYPE_UNKNOW_ID, buf)
          else Some (SOFTBUS_ERR, TYPE_UNKNOW_ID, g_stringTypeId)
      end
  end.

(** A pointer or NULL, and the static buffer. *)
Definition LnnConvertIdToDeviceType (typeId : Z) (g_stringTypeId : bytes) : option (option TypePtr * bytes) :=
  match List.find (fun e => e.2 =? typeId) g_typeToIdMap with
  | Some e => Some (Some (Own e.1), g_stringTypeId)
  | None =>
      if (typeId <=? Z.shiftl ONE_BIT_MAX_HEX LEFT_SHIFT_DEVICE_TYPE_LENGTH) && (0 <? typeId) then
        buf ← ConvertIntToHexString typeId g_stringTypeId; Some (Some Static, buf)
      else Some (None, g_stringTypeId)
  end.

(** ** [lnn_net_capability.c] *)

Definition BIT_COUNT : Z := 7.
Definition DEFAUTL_LNN_CAPBILITY : Z := 22.

Definition LnnSetNetCapability (capability : option Z) (type : Z) : Z * option Z :=
  match capability with
  | None => (SOFTBUS_INVALID_PARAM, None)
  | Some c => if BIT_COUNT <=? type then (SOFTBUS_INVALID_PARAM, Some c) else (SOFTBUS_OK, Some (Z.lor c (Z.shiftl 1 type)))
  end.

(** [config] is what [SoftbusGetConfig] reads; the bits BIT_BLE, BIT_BR,
    BIT_WIFI, BIT_WIFI_P2P, BIT_WIFI_24G, BIT_WIFI_5G and BIT_ETH one by one. *)
Definition LnnGetNetCapabilty (config : option Z) : Z :=
  let configValue := default DEFAUTL_LNN_CAPBILITY config in
  foldl (fun c bit => if negb (Z.land configValue (Z.shiftl 1 bit) =? 0) then default c (LnnSetNetCapability (Some c) bit).2 else c)
    0 [0; 1; 2; 3; 4; 5; 6].

(** ** Kinds of discovery *)

Lemma shiftl_1_testbit t i : 0 <= t -> Z.testbit (Z.shiftl 1 t) i = bool_decide (i = t).
Proof.
  intros Ht. rewrite Z.shiftl_1_l. case_bool_decide as E; [subst; by apply Z.pow2_bits_true|]. by apply Z.pow2_bits_false.
Qed.

Lemma has_testbit n t : 0 <= t < DISCOVERY_TYPE_COUNT -> LnnHasDiscoveryType (Some n) t = Z.testbit (discoveryType n) t.
Proof.
  intros Ht. unfold LnnHasDiscoveryType. rewrite (proj2 (Z.leb_gt _ _)) by lia.
  destruct (Z.testbit (discoveryType n) t) eqn:E.
  - apply negb_true_iff, Z.eqb_neq. intros H0. assert (Z.testbit (Z.land (discoveryType n) (Z.shiftl 1 t)) t = true) as H.
    { rewrite Z.land_spec, E, shiftl_1_testbit by lia. by rewrite bool_decide_eq_true_2. }
    by rewrite H0, Z.testbit_0_l in H.
  - apply negb_false_iff, Z.eqb_eq. apply Z.bits_inj'. intros i Hi. rewrite Z.land_spec, shiftl_1_testbit, Z.testbit_0_l by lia.
    case_bool_decide as Ei; [subst; by rewrite E|by rewrite andb_false_r].
Qed.

Lemma testbit_clear d t i : 0 <= t < 32 -> 0 <= i < 32 ->
  Z.testbit (Z.land d (u32 (Z.lnot (Z.shiftl 1 t)))) i = Z.testbit d i && negb (bool_decide (i = t)).
Proof.
  intros Ht Hi. rewrite Z.land_spec, testbit_wrapU by lia. rewrite (proj2 (Z.ltb_lt _ _)) by lia.
  by rewrite Z.lnot_spec, shiftl_1_testbit by lia.
Qed.

(** ** Names of device types *)

Definition roundtrips (id : Z) (buf : bytes) : bool :=
  match LnnConvertIdToDeviceType id buf with
  | Some (Some p, buf') =>
      match textAt p buf' with
      | Some t =>
          match LnnConvertDeviceTypeToId (Some (Own t)) buf' with
          | Some (r, x, buf'') => (r =? SOFTBUS_OK) && (x =? id) && (len buf'' =? 4)
          | None => false
          end
      | None => false
      end
  | _ => false
  end.

Lemma all_roundtrip a b c d : forallb (fun id => roundtrips id [a; b; c; d]) (seqZ 0 4096) = true.
Proof. vm_compute. reflexivity. Qed.

(** The name of a type below 0x1000 gives the type back, whatever was in
    the static buffer, when the name is kept in memory of its own. *)
Theorem device_type_roundtrip id buf : 0 <= id < 4096 -> len buf = 4 ->
  exists p buf' t, LnnConvertIdToDeviceType id buf = Some (Some p, buf') /\ textAt p buf' = Some t /\
    exists buf'', LnnConvertDeviceTypeToId (Some (Own t)) buf' = Some (SOFTBUS_OK, id, buf'') /\ len buf'' = 4.
Proof.
  intros Hid Hl. destruct buf as [|a [|b [|c [|d [|? ?]]]]]; try (unfold len in Hl; cbn in Hl; lia).
  assert (roundtrips id [a; b; c; d] = true) as H.
  { apply (proj1 (forallb_forall _ _) (all_roundtrip a b c d)), list_elem_of_In, elem_of_seqZ. lia. }
  unfold roundtrips in H. destruct (LnnConvertIdToDeviceType id [a; b; c; d]) as [[[p|] buf']|]; [|discriminate H..].
  destruct (textAt p buf') as [t|] eqn:Et; [|discriminate H].
  destruct (LnnConvertDeviceTypeToId (Some (Own t)) buf') as [[[r x] buf'']|] eqn:Ei; [|discriminate H].
  apply andb_true_iff in H as [[->%Z.eqb_eq ->%Z.eqb_eq]%andb_true_iff H%Z.eqb_eq].
  exists p, buf', t. split; [done|]. split; [done|]. by exists buf''.
Qed.

(** 0xA0 is A0. *)
Lemma device_type_roundtrip_witness : exists buf'',
  LnnConvertDeviceTypeToId (Some (Own [65; 48])) [65; 48; 0; 0] = Some (SOFTBUS_OK, 160, buf'').
Proof.
  destruct (device_type_roundtrip 160 [0; 0; 0; 0]) as (p & buf' & t & E & Et & buf'' & E2 & _).
  - lia.
  - reflexivity.
  - vm_compute in E. injection E as <- <-. vm_compute in Et. injection Et as <-. by exists buf''.
Defined.

(** The name is converted back to no type when it is still in the static
    buffer, which [LnnConvertDeviceTypeToId] clears before it reads it. *)
Lemma device_type_alias : LnnConvertIdToDeviceType 160 [0; 0; 0; 0] = Some (Some Static, [65; 48; 0; 0]) /\
  LnnConvertDeviceTypeToId (Some Static) [65; 48; 0; 0] = Some (SOFTBUS_ERR, TYPE_UNKNOW_ID, [0; 0; 0; 0]).
Proof. split; vm_compute; reflexivity. Qed.

(** Types from 0x1000 to 0xF000 are accepted, and lose their first digit. *)
Lemma device_type_truncated : LnnConvertIdToDeviceType 4660 [0; 0; 0; 0] = Some (Some Static, [50; 51; 52; 0]) /\
  LnnConvertDeviceTypeToId (Some (Own [50; 51; 52])) [0; 0; 0; 0] = Some (SOFTBUS_OK, 564, [0; 0; 0; 0]) /\
  LnnConvertIdToDeviceType 4096 [0; 0; 0; 0] = Some (Some Static, [0; 0; 0; 0]).
Proof. split_and!; vm_compute; reflexivity. Qed.

End NodeInfo.
