(* ===== verification/Ledger.v ===== *)
(** * The ledger of the nodes of the network

    Models [core/bus_center/lnn/net_ledger/distributed_ledger/src/lnn_distributed_net_ledger.c]
    over the hash maps of [LnnMap] and the nodes of [NodeInfo], and
    [LnnConvAddrTypeToDiscType] of [lnn_connection_addr_utils.c].

    A pointer to a node is the map and the key it was found under; writing
    through it writes the value in that map.  [None] as an outer result is an
    access the C code must not make.  Every function takes what the system
    answers ([Env]): whether the lock is obtained and where memory is found.
    The texts of [sprintf_s] and the copies into the buffers of the callers
    follow the C library.

    [SpecStep] specifies every call on finite maps of nodes and codes;
    [ledgerOk] is the invariant of the ledger in memory.  [ledger_refines]
    relates them; [ledger_reports], [ledger_convert] and
    [ledger_online_nodes] are what the clients rely on.  The runs at the end
    show where the code fails them. *)

From S2P Require Import Prelude Errno Bytes LnnMap Adapter NodeInfo.
Import Errno Bytes.
Import LnnMap.LnnMap NodeInfo.NodeInfo.

Module Ledger.

Abbreviation bytes := (list Z).

Definition ID_MAX_LEN : Z := 72.
Definition INT_TO_STR_SIZE : Z := 12.
Definition INVALID_CONNECTION_CODE_VALUE : Z := -1.
Definition NUM_BUF_SIZE : Z := 4.
Definition LNN_LINK_TYPE_BUTT : Z := 8.
Definition SECUREC_STRING_MAX_LEN : Z := 2147483647.
Definition SIZEOF_short : Z := 2.
Definition SIZEOF_NodeBasicInfo : Z := 196.

Definition CATEGORY_UDID : Z := 0.
Definition CATEGORY_UUID : Z := 1.
Definition CATEGORY_NETWORK_ID : Z := 2.
Definition REPORT_NONE : Z := 0.
Definition REPORT_CHANGE : Z := 1.
Definition REPORT_ONLINE : Z := 2.
Definition REPORT_OFFLINE : Z := 3.
Definition DL_INIT_UNKNOWN : Z := 0.
Definition DL_INIT_FAIL : Z := 1.
Definition DL_INIT_SUCCESS : Z := 2.
Definition CONNECTION_ADDR_WLAN : Z := 0.
Definition CONNECTION_ADDR_BR : Z := 1.
Definition CONNECTION_ADDR_BLE : Z := 2.
Definition CONNECTION_ADDR_ETH : Z := 3.

(** The lock; memory for the text of a key, for the buckets and the node of
    both maps, for the two iterators and for an array. *)
Record Env := MkEnv {
  lock : bool; keyMem : bool; codeBuckets : bool; codeNode : bool; nodeBuckets : bool; nodeNode : bool;
  iterMem : bool; iterMem2 : bool; arrayMem : bool }.

(** [g_distributedNetLedger], and [g_stringTypeId] of [lnn_device_info.c]. *)
Record DistributedNetLedger := MkLedger {
  udidMap : Map NodeInfo; ipMap : Map NodeInfo; macMap : Map NodeInfo; connectionCode : Map Z;
  laneCount : list Z; dlStatus : Z; typeBuf : bytes }.

Definition setUdidMap (m : Map NodeInfo) (l : DistributedNetLedger) : DistributedNetLedger :=
  MkLedger m (ipMap l) (macMap l) (connectionCode l) (laneCount l) (dlStatus l) (typeBuf l).

Definition setCodes (m : Map Z) (l : DistributedNetLedger) : DistributedNetLedger :=
  MkLedger (udidMap l) (ipMap l) (macMap l) m (laneCount l) (dlStatus l) (typeBuf l).

Definition setLanes (c : list Z) (l : DistributedNetLedger) : DistributedNetLedger :=
  MkLedger (udidMap l) (ipMap l) (macMap l) (connectionCode l) c (dlStatus l) (typeBuf l).

Definition setTypeBuf (b : bytes) (l : DistributedNetLedger) : DistributedNetLedger :=
  MkLedger (udidMap l) (ipMap l) (macMap l) (connectionCode l) (laneCount l) (dlStatus l) b.

(** ** Pointers to nodes *)

Inductive Where := InUdid | InMac | InIp.

Record Ptr := MkPtr { place : Where; pkey : text }.

(** [*p = v], for a pointer that was just found. *)
Definition writeNode (p : Ptr) (v : NodeInfo) (l : DistributedNetLedger) : option DistributedNetLedger :=
  match place p with
  | InUdid => m ← writeValue (udidMap l) (pkey p) v; Some (setUdidMap m l)
  | InMac => m ← writeValue (macMap l) (pkey p) v;
      Some (MkLedger (udidMap l) (ipMap l) m (connectionCode l) (laneCount l) (dlStatus l) (typeBuf l))
  | InIp => m ← writeValue (ipMap l) (pkey p) v;
      Some (MkLedger (udidMap l) m (macMap l) (connectionCode l) (laneCount l) (dlStatus l) (typeBuf l))
  end.

Definition GetNodeInfoFromMap (l : DistributedNetLedger) (id : option text) : option (option (Ptr * NodeInfo)) :=
  match id with
  | None => Some None
  | Some k =>
      u ← LnnMapGet (Some (udidMap l)) (Some k);
      match u with
      | Some n => Some (Some (MkPtr InUdid k, n))
      | None =>
          m ← LnnMapGet (Some (macMap l)) (Some k);
          match m with
          | Some n => Some (Some (MkPtr InMac k, n))
          | None =>
              i ← LnnMapGet (Some (ipMap l)) (Some k);
              match i with
              | Some n => Some (Some (MkPtr InIp k, n))
              | None => Some None
              end
          end
      end
  end.

(** The fields compared by the loop of [LnnGetNodeInfoById]. *)
Definition idOf (type : Z) (n : NodeInfo) : option text :=
  if type =? CATEGORY_NETWORK_ID then Some (networkId n)
  else if type =? CATEGORY_UUID then Some (uuid n)
  else None.

Definition isFound {A} (x : option A) : bool := match x with Some _ => true | None => false end.

(** A client's loop over the nodes. *)
Definition loopNodes {A} (stop : A -> bool) (f : A -> MapNode NodeInfo -> A) (l : DistributedNetLedger) (acc : A) : option A :=
  mapLoop (Z.to_nat (nodeSize (udidMap l))) stop f (udidMap l) (MkIter [] 0 0) acc.

Definition LnnGetNodeInfoById (e : Env) (l : DistributedNetLedger) (id : option text) (type : Z) : option (option (Ptr * NodeInfo)) :=
  match id with
  | None => Some None
  | Some t =>
      if type =? CATEGORY_UDID then GetNodeInfoFromMap l id
      else
        match LnnMapInitIterator (iterMem e) (Some (udidMap l)) with
        | None => Some None
        | Some _ =>
            loopNodes isFound (fun _ n => if bool_decide (idOf type (value n) = Some t) then Some (MkPtr InUdid (key n), value n) else None)
              l None
        end
  end.

Definition LnnConvAddrTypeToDiscType (type : Z) : Z :=
  if (type =? CONNECTION_ADDR_WLAN) || (type =? CONNECTION_ADDR_ETH) then DISCOVERY_TYPE_WIFI
  else if type =? CONNECTION_ADDR_BR then DISCOVERY_TYPE_BR
  else if type =? CONNECTION_ADDR_BLE then DISCOVERY_TYPE_BLE
  else DISCOVERY_TYPE_COUNT.

(** ** Connection codes *)

(** The digits of [%d] for a number that is not negative. *)
Fixpoint digitsOf (fuel : nat) (n : Z) : text :=
  match fuel with
  | O => []
  | S f => if n <? 10 then [48 + n] else digitsOf f (n / 10) ++ [48 + n mod 10]
  end.

(** [%d] of an [int], which has at most ten digits. *)
Definition printInt (n : Z) : text := if n <? 0 then 45 :: digitsOf 10 (- n) else digitsOf 10 n.

Definition CreateCnnCodeKey (e : Env) (uuid : option text) (type : Z) : option text :=
  match uuid with
  | None => None
  | Some u =>
      if UUID_BUF_LEN <=? len u then None
      else if negb (keyMem e) then None
      else
        let t := printInt type ++ u in
        if len t <? INT_TO_STR_SIZE + UUID_BUF_LEN then Some t else None
  end.

Definition AddCnnCode (e : Env) (cnnCode : Map Z) (uuid : option text) (type authSeqNum : Z) : option (Z * Map Z) :=
  match CreateCnnCodeKey e uuid type with
  | None => Some (SOFTBUS_ERR, cnnCode)
  | Some k =>
      '(r, m) ← LnnMapSet (codeBuckets e) (codeNode e) (Some cnnCode) (Some k) (Some (wrapS 16 authSeqNum)) SIZEOF_short;
      Some (if r =? SOFTBUS_OK then SOFTBUS_OK else SOFTBUS_ERR, default cnnCode m)
  end.

Definition RemoveCnnCode (e : Env) (cnnCode : Map Z) (uuid : option text) (type : Z) : option (Map Z) :=
  match CreateCnnCodeKey e uuid type with
  | None => Some cnnCode
  | Some k => '(_, m) ← LnnMapErase (Some cnnCode) (Some k); Some (default cnnCode m)
  end.

Definition LnnGetCnnCode (e : Env) (l : DistributedNetLedger) (uuid : option text) (type : Z) : option Z :=
  match CreateCnnCodeKey e uuid type with
  | None => Some INVALID_CONNECTION_CODE_VALUE
  | Some k => v ← LnnMapGet (Some (connectionCode l)) (Some k); Some (default INVALID_CONNECTION_CODE_VALUE v)
  end.

(** ** Nodes that come and go *)

Definition NewWifiDiscovered (oldInfo newInfo : NodeInfo) : NodeInfo :=
  let n := setDiscovery (Z.lor (discoveryType newInfo) (discoveryType oldInfo)) newInfo in
  if bool_decide (LnnGetBtMac (Some n) = DEFAULT_MAC) then default n (LnnSetBtMac (Some n) (Some (LnnGetBtMac (Some oldInfo)))) else n.

Definition NewBrBleDiscovered (oldInfo newInfo : NodeInfo) : NodeInfo :=
  let n := setDiscovery (Z.lor (discoveryType newInfo) (discoveryType oldInfo)) newInfo in
  let n := if bool_decide (LnnGetWiFiIp (Some n) = DEFAULT_IP) then default n (LnnSetWiFiIp (Some n) (Some (LnnGetWiFiIp (Some oldInfo)))) else n in
  setPorts (authPort (connectInfo oldInfo)) (proxyPort (connectInfo oldInfo)) (sessionPort (connectInfo oldInfo)) n.

Definition IsNetworkIdChanged (newInfo oldInfo : NodeInfo) : bool := negb (bool_decide (networkId newInfo = networkId oldInfo)).

(** The loop over the types of addresses; the arrays have one cell for each. *)
Definition MergeLnnInfo (oldInfo info : NodeInfo) : NodeInfo :=
  setNet (zip_with (fun r o => Z.land (wrapU 8 (r + o)) LNN_RELATION_MASK) (relation info) (relation oldInfo))
    (authChannelId oldInfo) (status info) (discoveryType info) info.

(** What becomes of the new info when the node is online. *)
Definition mergeOnline (oldInfo info : NodeInfo) : NodeInfo :=
  let newWifiFlag := LnnHasDiscoveryType (Some info) DISCOVERY_TYPE_WIFI in
  let newBleBrFlag := LnnHasDiscoveryType (Some info) DISCOVERY_TYPE_BLE || LnnHasDiscoveryType (Some info) DISCOVERY_TYPE_BR in
  let oldWifiFlag := LnnHasDiscoveryType (Some oldInfo) DISCOVERY_TYPE_WIFI in
  let oldBleFlag := LnnHasDiscoveryType (Some oldInfo) DISCOVERY_TYPE_BLE in
  let oldBrFlag := LnnHasDiscoveryType (Some oldInfo) DISCOVERY_TYPE_BR in
  let n :=
    if (oldBleFlag || oldBrFlag) && newWifiFlag then NewWifiDiscovered oldInfo info
    else if oldWifiFlag && newBleBrFlag then NewBrBleDiscovered oldInfo info
    else info in
  MergeLnnInfo oldInfo (setDiscovery (Z.lor (discoveryType n) (discoveryType oldInfo)) n).

(** The report, and the info as the function leaves it. *)
Definition LnnAddOnlineNode (e : Env) (info : NodeInfo) (l : DistributedNetLedger) : option (Z * NodeInfo * DistributedNetLedger) :=
  l1 ← (if LnnHasDiscoveryType (Some info) DISCOVERY_TYPE_BR then
          '(_, m) ← AddCnnCode e (connectionCode l) (Some (uuid info)) DISCOVERY_TYPE_BR (authSeqNum info); Some (setCodes m l)
        else Some l);
  let udid := deviceUdid (deviceInfo info) in
  if negb (lock e) then Some (REPORT_NONE, info, l1)
  else
    oldInfo ← LnnMapGet (Some (udidMap l1)) (Some udid);
    let '(isOffline, isChanged, info1) :=
      match oldInfo with
      | Some old => if LnnIsNodeOnline (Some old) then (false, IsNetworkIdChanged info old, mergeOnline old info) else (true, false, info)
      | None => (true, false, info)
      end in
    let info2 := setStatus STATUS_ONLINE info1 in
    '(_, m) ← LnnMapSet (nodeBuckets e) (nodeNode e) (Some (udidMap l1)) (Some udid) (Some info2) SIZEOF_NodeInfo;
    let l2 := setUdidMap (default (udidMap l1) m) l1 in
    Some (if isOffline then REPORT_ONLINE else if isChanged then REPORT_CHANGE else REPORT_NONE, info2, l2).

Definition LnnSetNodeOffline (e : Env) (udid : option text) (type authId : Z) (l : DistributedNetLedger) : option (Z * DistributedNetLedger) :=
  if negb (lock e) then Some (REPORT_NONE, l)
  else
    found ← LnnMapGet (Some (udidMap l)) udid;
    match found, udid with
    | Some info, Some k =>
        let p := MkPtr InUdid k in
        info1 ← (if type =? CONNECTION_ADDR_MAX then Some info
                 else
                   r ← relation info !! Z.to_nat type;
                   if 0 <? r then
                     Some (setNet (<[Z.to_nat type := r - 1]> (relation info)) (authChannelId info) (status info) (discoveryType info) info)
                   else Some info);
        l1 ← (if LnnHasDiscoveryType (Some info1) DISCOVERY_TYPE_BR && (LnnConvAddrTypeToDiscType type =? DISCOVERY_TYPE_BR) then
                m ← RemoveCnnCode e (connectionCode l) (Some (uuid info1)) DISCOVERY_TYPE_BR; Some (setCodes m l)
              else Some l);
        early ← (if LnnHasDiscoveryType (Some info1) DISCOVERY_TYPE_WIFI && (LnnConvAddrTypeToDiscType type =? DISCOVERY_TYPE_WIFI) then
                   a ← authChannelId info1 !! Z.to_nat type; Some (negb (a =? authId))
                 else Some false);
        if early : bool then l2 ← writeNode p info1 l1; Some (REPORT_NONE, l2)
        else
          let info2 := default info1 (LnnClearDiscoveryType (Some info1) (LnnConvAddrTypeToDiscType type)).2 in
          if negb (discoveryType info2 =? 0) then l2 ← writeNode p info2 l1; Some (REPORT_NONE, l2)
          else l2 ← writeNode p (setStatus STATUS_OFFLINE info2) l1; Some (REPORT_OFFLINE, l2)
    | _, _ => Some (REPORT_NONE, l)
    end.

Definition LnnRemoveNode (e : Env) (udid : option text) (l : DistributedNetLedger) : option DistributedNetLedger :=
  match udid with
  | None => Some l
  | Some k =>
      if negb (lock e) then Some l
      else '(_, m) ← LnnMapErase (Some (udidMap l)) (Some k); Some (setUdidMap (default (udidMap l) m) l)
  end.

(** ** Questions about nodes *)

Record NodeBasicInfo := MkBasic { bnetworkId : text; bdeviceName : text; bdeviceTypeId : Z }.

(** The code, and [basic], of which a failed copy leaves the rest. *)
Definition ConvertNodeInfoToBasicInfo (info : option NodeInfo) (basic : NodeBasicInfo) : Z * NodeBasicInfo :=
  match info with
  | None => (SOFTBUS_INVALID_PARAM, basic)
  | Some n =>
      let '(ok, name) := copyText DEVICE_NAME_BUF_LEN (deviceName (deviceInfo n)) in
      if negb ok then (SOFTBUS_MEM_ERR, MkBasic (bnetworkId basic) name (bdeviceTypeId basic))
      else
        let '(ok, id) := copyText NETWORK_ID_BUF_LEN (networkId n) in
        if negb ok then (SOFTBUS_MEM_ERR, MkBasic id name (bdeviceTypeId basic))
        else (SOFTBUS_OK, MkBasic id name (deviceTypeId (deviceInfo n)))
  end.

(** The code, and the number. *)
Definition GetDLOnlineNodeNumLocked (e : Env) (l : DistributedNetLedger) : option (Z * option Z) :=
  match LnnMapInitIterator (iterMem e) (Some (udidMap l)) with
  | None => Some (SOFTBUS_ERR, None)
  | Some _ =>
      c ← loopNodes (fun _ => false) (fun c n => if LnnIsNodeOnline (Some (value n)) then c + 1 else c) l 0;
      Some (SOFTBUS_OK, Some c)
  end.

(** The cells of the array that were written, in order; [garbage] is what the
    memory held. *)
Definition FillDLOnlineNodeInfoLocked (e : Env) (garbage : NodeBasicInfo) (infoNum : Z) (l : DistributedNetLedger)
  : option (Z * list NodeBasicInfo) :=
  match LnnMapInitIterator (iterMem2 e) (Some (udidMap l)) with
  | None => Some (SOFTBUS_ERR, [])
  | Some _ =>
      cells ← loopNodes (fun cells => infoNum <=? Z.of_nat (length cells))
        (fun cells n => if LnnIsNodeOnline (Some (value n)) then cells ++ [(ConvertNodeInfoToBasicInfo (Some (value n)) garbage).2] else cells)
        l [];
      Some (SOFTBUS_OK, cells)
  end.

(** The code, the number, and the array, which is released and no longer
    there when the code is an error. *)
Definition LnnGetAllOnlineNodeInfo (e : Env) (garbage : NodeBasicInfo) (l : DistributedNetLedger)
  : option (Z * option Z * option (list NodeBasicInfo)) :=
  if negb (lock e) then Some (SOFTBUS_ERR, None, None)
  else
    '(r, num) ← GetDLOnlineNodeNumLocked e l;
    if negb (r =? SOFTBUS_OK) then Some (SOFTBUS_ERR, num, None)
    else
      let infoNum := default 0 num in
      if infoNum =? 0 then Some (SOFTBUS_OK, num, None)
      else if negb (Adapter.Mem.SoftBusMalloc (arrayMem e) (u32 (infoNum * SIZEOF_NodeBasicInfo))) then Some (SOFTBUS_ERR, num, None)
      else
        '(r, cells) ← FillDLOnlineNodeInfoLocked e garbage infoNum l;
        if negb (r =? SOFTBUS_OK) then Some (SOFTBUS_ERR, num, None) else Some (SOFTBUS_OK, num, Some cells).

(** The nodes the callback is called with; one structure is used for all. *)
Definition PostOnlineNodesToCb (e : Env) (onNodeOnline : bool) (l : DistributedNetLedger) : option (list NodeBasicInfo) :=
  if negb onNodeOnline then Some []
  else
    match LnnMapInitIterator (iterMem e) (Some (udidMap l)) with
    | None => Some []
    | Some _ =>
        x ← loopNodes (fun _ => false)
          (fun acc n =>
             if LnnIsNodeOnline (Some (value n)) then
               let basic := (ConvertNodeInfoToBasicInfo (Some (value n)) acc.1).2 in (basic, acc.2 ++ [basic])
             else acc)
          l (MkBasic [] [] 0, []);
        Some x.2
    end.

(** [IsValidString] of a text. *)
Definition validId (id : option text) : bool := match id with None => false | Some t => len t <? ID_MAX_LEN end.

Definition LnnGetOnlineStateById (e : Env) (id : option text) (type : Z) (l : DistributedNetLedger) : option bool :=
  if negb (validId id) then Some false
  else if negb (lock e) then Some false
  else
    found ← LnnGetNodeInfoById e l id type;
    match found with
    | None => Some false
    | Some (_, n) => Some (status n =? STATUS_ONLINE)
    end.

Definition LnnGetBasicInfoByUdid (e : Env) (udid : option text) (basic : option NodeBasicInfo) (l : DistributedNetLedger)
  : option (Z * option NodeBasicInfo) :=
  match udid, basic with
  | Some k, Some b =>
      if negb (lock e) then Some (SOFTBUS_ERR, basic)
      else
        info ← LnnMapGet (Some (udidMap l)) (Some k);
        let '(r, b') := ConvertNodeInfoToBasicInfo info b in
        Some (r, Some b')
  | _, _ => Some (SOFTBUS_INVALID_PARAM, basic)
  end.

Definition LnnConvertDLidToUdid (e : Env) (id : option text) (type : Z) (l : DistributedNetLedger) : option (option text) :=
  match id with
  | None => Some None
  | Some _ =>
      found ← LnnGetNodeInfoById e l id type;
      match found with
      | None => Some None
      | Some (_, n) => Some (LnnGetDeviceUdid (Some n))
      end
  end.

(** A copy into a buffer of [n] characters of a caller: whether it was made,
    and the text of the buffer, [None] when it is not touched. *)
Definition copyOut (n : Z) (src : text) : bool * option text :=
  if (n <=? 0) || (SECUREC_STRING_MAX_LEN <? n) then (false, None)
  else let '(ok, t) := copyText n src in (ok, Some t).

Definition LnnConvertDlId (e : Env) (srcId : option text) (srcIdType dstIdType : Z) (dstIdBuf : bool) (dstIdBufLen : Z) (l : DistributedNetLedger)
  : option (Z * option text) :=
  match srcId with
  | None => Some (SOFTBUS_INVALID_PARAM, None)
  | Some _ =>
      if negb dstIdBuf then Some (SOFTBUS_INVALID_PARAM, None)
      else if negb (lock e) then Some (SOFTBUS_LOCK_ERR, None)
      else
        found ← LnnGetNodeInfoById e l srcId srcIdType;
        match found with
        | None => Some (SOFTBUS_NOT_FIND, None)
        | Some (_, n) =>
            let dst := if dstIdType =? CATEGORY_UDID then Some (deviceUdid (deviceInfo n)) else idOf dstIdType n in
            match dst with
            | None => Some (SOFTBUS_INVALID_PARAM, None)
            | Some id => let '(ok, t) := copyOut dstIdBufLen id in Some (if ok then SOFTBUS_OK else SOFTBUS_MEM_ERR, t)
            end
        end
  end.

(** [relation] has [n] cells. *)
Definition LnnGetLnnRelation (e : Env) (id : option text) (type : Z) (rel : option bytes) (n : Z) (l : DistributedNetLedger)
  : option (Z * option bytes) :=
  match id, rel with
  | Some _, Some r =>
      if negb (lock e) then Some (SOFTBUS_LOCK_ERR, rel)
      else
        found ← LnnGetNodeInfoById e l id type;
        match found with
        | None => Some (SOFTBUS_NOT_FIND, rel)
        | Some (_, info) =>
            if negb (LnnIsNodeOnline (Some info)) then Some (SOFTBUS_NOT_FIND, rel)
            else
              '(ok, r') ← memcpy_s r 0 n (relation info) CONNECTION_ADDR_MAX;
              Some (if ok : bool then SOFTBUS_OK else SOFTBUS_MEM_ERR, Some r')
        end
  | _, _ => Some (SOFTBUS_INVALID_PARAM, rel)
  end.

Definition LnnGetNetworkIdByUuid (e : Env) (uuid : option text) (n : Z) (l : DistributedNetLedger) : option (Z * option text) :=
  if negb (validId uuid) then Some (SOFTBUS_INVALID_PARAM, None)
  else if negb (lock e) then Some (SOFTBUS_ERR, None)
  else
    found ← LnnGetNodeInfoById e l uuid CATEGORY_UUID;
    match found with
    | None => Some (SOFTBUS_ERR, None)
    | Some (_, info) => let '(ok, t) := copyOut n (networkId info) in Some (if ok then SOFTBUS_OK else SOFTBUS_MEM_ERR, t)
    end.

Definition LnnGetDLHeartbeatTimestamp (e : Env) (id : option text) (l : DistributedNetLedger) : option (Z * option Z) :=
  if negb (lock e) then Some (SOFTBUS_ERR, None)
  else
    found ← LnnGetNodeInfoById e l id CATEGORY_NETWORK_ID;
    match found with
    | None => Some (SOFTBUS_ERR, None)
    | Some (_, n) => Some (SOFTBUS_OK, Some (heartbeatTimeStamp n))
    end.

(** ** Writing nodes *)

Definition LnnSetDLDeviceInfoName (e : Env) (udid name : option text) (l : DistributedNetLedger) : option (bool * DistributedNetLedger) :=
  match udid, name with
  | Some _, Some t =>
      if negb (lock e) then Some (false, l)
      else
        found ← GetNodeInfoFromMap l udid;
        match found with
        | None => Some (false, l)
        | Some (p, n) =>
            if bool_decide (deviceName (deviceInfo n) = t) then Some (true, l)
            else
              let '(r, d) := LnnSetDeviceName (Some (deviceInfo n)) name in
              l1 ← writeNode p (setDevice (default (deviceInfo n) d) n) l;
              Some (r =? SOFTBUS_OK, l1)
        end
  | _, _ => Some (false, l)
  end.

Definition LnnSetDLP2pInfo (e : Env) (id : option text) (info : option P2pInfo) (l : DistributedNetLedger) : option (bool * DistributedNetLedger) :=
  match id, info with
  | Some _, Some i =>
      if negb (lock e) then Some (false, l)
      else
        found ← LnnGetNodeInfoById e l id CATEGORY_NETWORK_ID;
        match found with
        | None => Some (false, l)
        | Some (p, n) =>
            let '(r1, n1) := LnnSetP2pRole (Some n) (p2pRole i) in
            if negb (r1 =? SOFTBUS_OK) then l1 ← writeNode p (default n n1) l; Some (false, l1)
            else
              let '(r2, n2) := LnnSetP2pMac n1 (Some (p2pMac i)) in
              if negb (r2 =? SOFTBUS_OK) then l1 ← writeNode p (default n n2) l; Some (false, l1)
              else
                let '(r3, n3) := LnnSetP2pGoMac n2 (Some (goMac i)) in
                l1 ← writeNode p (default n n3) l; Some (r3 =? SOFTBUS_OK, l1)
        end
  | _, _ => Some (false, l)
  end.

(** Three functions write a field through the pointer they found. *)
Definition setById (e : Env) (id : option text) (type : Z) (f : NodeInfo -> NodeInfo * Z) (l : DistributedNetLedger)
  : option (Z * DistributedNetLedger) :=
  if negb (lock e) then Some (SOFTBUS_ERR, l)
  else
    found ← LnnGetNodeInfoById e l id type;
    match found with
    | None => Some (SOFTBUS_ERR, l)
    | Some (p, n) => let '(n', r) := f n in l1 ← writeNode p n' l; Some (r, l1)
    end.

Definition LnnSetDLHeartbeatTimestamp (e : Env) (id : option text) (timestamp : Z) (l : DistributedNetLedger) : option (Z * DistributedNetLedger) :=
  setById e id CATEGORY_NETWORK_ID
    (fun n => (setMisc (masterUdid n) (nodeAddress n) (netCapacity n) timestamp (supportedProtocols n) n, SOFTBUS_OK)) l.

Definition LnnSetDLConnCapability (e : Env) (id : option text) (connCapability : Z) (l : DistributedNetLedger) : option (Z * DistributedNetLedger) :=
  setById e id CATEGORY_NETWORK_ID
    (fun n => (setMisc (masterUdid n) (nodeAddress n) (u32 connCapability) (heartbeatTimeStamp n) (supportedProtocols n) n, SOFTBUS_OK)) l.

Definition LnnSetDLNodeAddr (e : Env) (id : option text) (type : Z) (addr : text) (l : DistributedNetLedger) : option (Z * DistributedNetLedger) :=
  setById e id type
    (fun n => let '(ok, t) := copyText SHORT_ADDRESS_MAX_LEN addr in
       (setMisc (masterUdid n) t (netCapacity n) (heartbeatTimeStamp n) (supportedProtocols n) n, if ok then SOFTBUS_OK else SOFTBUS_ERR)) l.

(** ** Lanes *)

Definition LnnGetLaneCount (laneId : Z) (l : DistributedNetLedger) : option Z :=
  if (laneId <? 0) || (LNN_LINK_TYPE_BUTT <=? laneId) then Some SOFTBUS_ERR else laneCount l !! Z.to_nat laneId.

(** An overflow of the sum has no result. *)
Definition LnnSetLaneCount (e : Env) (laneId num : Z) (l : DistributedNetLedger) : option (Z * DistributedNetLedger) :=
  if (laneId <? 0) || (LNN_LINK_TYPE_BUTT <=? laneId) then Some (SOFTBUS_ERR, l)
  else if negb (lock e) then Some (SOFTBUS_ERR, l)
  else
    c ← laneCount l !! Z.to_nat laneId;
    if ((c + num <? - 2 ^ 31) || (2 ^ 31 <=? c + num)) then None
    else Some (SOFTBUS_OK, setLanes (<[Z.to_nat laneId := if c + num <? 0 then 0 else c + num]> (laneCount l)) l).

(** ** Fields by key *)

Inductive Out := OText (t : text) | ONum (n : Z).

(** The arguments of a getter: a network id or NULL, a buffer or NULL, and
    the length of the buffer. *)
Definition Getter : Type := Env -> option text -> bool -> Z -> DistributedNetLedger -> option (Z * option Out * DistributedNetLedger).

(** [RETURN_IF_GET_NODE_VALID] and what follows it. *)
Definition withNode (e : Env) (id : option text) (buf : bool) (l : DistributedNetLedger)
    (k : NodeInfo -> option (Z * option Out * DistributedNetLedger)) : option (Z * option Out * DistributedNetLedger) :=
  match id with
  | None => Some (SOFTBUS_INVALID_PARAM, None, l)
  | Some _ =>
      if negb buf then Some (SOFTBUS_INVALID_PARAM, None, l)
      else
        found ← LnnGetNodeInfoById e l id CATEGORY_NETWORK_ID;
        match found with
        | None => Some (SOFTBUS_ERR, None, l)
        | Some (_, n) => k n
        end
  end.

Definition copyField (n : Z) (t : text) (l : DistributedNetLedger) : option (Z * option Out * DistributedNetLedger) :=
  let '(ok, out) := copyOut n t in Some (if ok then SOFTBUS_OK else SOFTBUS_MEM_ERR, OText <$> out, l).

Definition textField (field : NodeInfo -> text) : Getter := fun e id buf n l => withNode e id buf l (fun info => copyField n (field info) l).

(** The fields that are read of nodes online only. *)
Definition onlineField (field : NodeInfo -> text) : Getter := fun e id buf n l =>
  withNode e id buf l (fun info => if negb (LnnIsNodeOnline (Some info)) then Some (SOFTBUS_ERR, None, l) else copyField n (field info) l).

Definition numField (onlineOnly : bool) (field : NodeInfo -> Z) : Getter := fun e id buf n l =>
  if negb (n =? NUM_BUF_SIZE) then Some (SOFTBUS_INVALID_PARAM, None, l)
  else withNode e id buf l (fun info =>
    if onlineOnly && negb (LnnIsNodeOnline (Some info)) then Some (SOFTBUS_ERR, None, l)
    else Some (SOFTBUS_OK, Some (ONum (s32 (field info))), l)).

Definition DlGetNodeSoftBusVersion : Getter := textField softBusVersion.
Definition DlGetDeviceUdid : Getter := textField (fun n => deviceUdid (deviceInfo n)).
Definition DlGetDeviceUuid : Getter := textField uuid.
Definition DlGetDeviceName : Getter := textField (fun n => deviceName (deviceInfo n)).
Definition DlGetBtMac : Getter := textField (fun n => LnnGetBtMac (Some n)).
Definition DlGetWlanIp : Getter := textField (fun n => LnnGetWiFiIp (Some n)).
Definition DlGetMasterUdid : Getter := onlineField masterUdid.
Definition DlGetP2pMac : Getter := onlineField (fun n => p2pMac (p2pInfo n)).
Definition DlGetP2pGoMac : Getter := onlineField (fun n => goMac (p2pInfo n)).
Definition DlGetNodeAddr : Getter := onlineField nodeAddress.
Definition DlGetSessionPort : Getter := numField false (fun n => LnnGetSessionPort (Some n)).
Definition DlGetAuthPort : Getter := numField false (fun n => LnnGetAuthPort (Some n)).
Definition DlGetProxyPort : Getter := numField false (fun n => LnnGetProxyPort (Some n)).
Definition DlGetNetCap : Getter := numField false netCapacity.
Definition DlGetNetType : Getter := numField false discoveryType.
Definition DlGetMasterWeight : Getter := numField false masterWeight.
Definition DlGetP2pRole : Getter := numField true (fun n => LnnGetP2pRole (Some n)).

(** The name may be put into the static buffer. *)
Definition DlGetDeviceType : Getter := fun e id buf n l =>
  withNode e id buf l (fun info =>
    '(p, b) ← LnnConvertIdToDeviceType (deviceTypeId (deviceInfo info)) (typeBuf l);
    match p with
    | None => Some (SOFTBUS_ERR, None, setTypeBuf b l)
    | Some q => t ← textAt q b; copyField n t (setTypeBuf b l)
    end).

Definition STRING_KEY_END : Z := 13.
Definition NUM_KEY_BEGIN : Z := 100.
Definition NUM_KEY_END : Z := 109.

Definition g_dlKeyTable : list (Z * Getter) :=
  [(0, DlGetNodeSoftBusVersion); (1, DlGetDeviceUdid); (3, DlGetDeviceUuid); (4, DlGetDeviceType); (5, DlGetDeviceName);
   (6, DlGetBtMac); (7, DlGetWlanIp); (9, DlGetMasterUdid); (10, DlGetP2pMac); (11, DlGetP2pGoMac); (12, DlGetNodeAddr);
   (100, DlGetSessionPort); (101, DlGetAuthPort); (102, DlGetProxyPort); (103, DlGetNetCap); (107, DlGetNetType);
   (105, DlGetMasterWeight); (106, DlGetP2pRole)].

(** The loop over the table. *)
Definition getByKey (e : Env) (key : Z) (id : option text) (n : Z) (l : DistributedNetLedger)
  : option (Z * option Out * DistributedNetLedger) :=
  match List.find (fun x => x.1 =? key) g_dlKeyTable with
  | Some x => x.2 e id true n l
  | None => Some (SOFTBUS_ERR, None, l)
  end.

Definition LnnGetRemoteStrInfo (e : Env) (id : option text) (key : Z) (info : bool) (n : Z) (l : DistributedNetLedger)
  : option (Z * option Out * DistributedNetLedger) :=
  if negb (validId id) then Some (SOFTBUS_INVALID_PARAM, None, l)
  else if negb info then Some (SOFTBUS_INVALID_PARAM, None, l)
  else if STRING_KEY_END <=? key then Some (SOFTBUS_INVALID_PARAM, None, l)
  else if negb (lock e) then Some (SOFTBUS_ERR, None, l)
  else getByKey e key id n l.

Definition LnnGetRemoteNumInfo (e : Env) (id : option text) (key : Z) (info : bool) (l : DistributedNetLedger)
  : option (Z * option Out * DistributedNetLedger) :=
  if negb (validId id) then Some (SOFTBUS_INVALID_PARAM, None, l)
  else if negb info then Some (SOFTBUS_INVALID_PARAM, None, l)
  else if (key <? NUM_KEY_BEGIN) || (NUM_KEY_END <=? key) then Some (SOFTBUS_INVALID_PARAM, None, l)
  else if negb (lock e) then Some (SOFTBUS_ERR, None, l)
  else getByKey e key id NUM_BUF_SIZE l.

(** ** Start and end *)

Definition ledger0 : DistributedNetLedger :=
  MkLedger (MkMap None 0 0) (MkMap None 0 0) (MkMap None 0 0) (MkMap None 0 0) (replicate (Z.to_nat LNN_LINK_TYPE_BUTT) 0) DL_INIT_UNKNOWN [0; 0; 0; 0].

Definition initMap {V} (m : Map V) : Map V := default m (LnnMapInit (Some m)).
Definition deleteMap {V} (m : Map V) : Map V := default m (LnnMapDelete (Some m)).

Definition InitDistributedInfo (l : DistributedNetLedger) : DistributedNetLedger :=
  MkLedger (initMap (udidMap l)) (initMap (ipMap l)) (initMap (macMap l)) (connectionCode l) (laneCount l) (dlStatus l) (typeBuf l).

Definition InitConnectionCode (l : DistributedNetLedger) : DistributedNetLedger := setCodes (initMap (connectionCode l)) l.

Definition setDlStatus (st : Z) (l : DistributedNetLedger) : DistributedNetLedger :=
  MkLedger (udidMap l) (ipMap l) (macMap l) (connectionCode l) (laneCount l) st (typeBuf l).

Definition InitLaneStatus (l : DistributedNetLedger) : DistributedNetLedger := setLanes (replicate (Z.to_nat LNN_LINK_TYPE_BUTT) 0) l.

(** Whether the mutex can be made and the dump registered. *)
Definition LnnInitDistributedLedger (mutexOk dumpOk : bool) (l : DistributedNetLedger) : Z * DistributedNetLedger :=
  if dlStatus l =? DL_INIT_SUCCESS then (SOFTBUS_OK, l)
  else
    let l1 := InitConnectionCode (InitDistributedInfo l) in
    if negb mutexOk then (SOFTBUS_ERR, setDlStatus DL_INIT_FAIL l1)
    else if negb dumpOk then (SOFTBUS_ERR, l1)
    else (SOFTBUS_OK, setDlStatus DL_INIT_SUCCESS (InitLaneStatus l1)).

Definition LnnDeinitDistributedLedger (e : Env) (l : DistributedNetLedger) : DistributedNetLedger :=
  if negb (lock e) then l
  else MkLedger (deleteMap (udidMap l)) (deleteMap (ipMap l)) (deleteMap (macMap l)) (deleteMap (connectionCode l)) (laneCount l)
         DL_INIT_UNKNOWN (typeBuf l).

(** ** Every call *)

Inductive Op :=
| OInit (mutexOk dumpOk : bool)
| ODeinit (e : Env)
| OAdd (e : Env) (info : NodeInfo)
| OOffline (e : Env) (udid : option text) (type authId : Z)
| ORemove (e : Env) (udid : option text)
| OName (e : Env) (udid name : option text)
| OP2p (e : Env) (id : option text) (info : option P2pInfo)
| OHeartbeat (e : Env) (id : option text) (timestamp : Z)
| OCapability (e : Env) (id : option text) (capability : Z)
| OAddr (e : Env) (id : option text) (type : Z) (addr : text)
| OLane (e : Env) (laneId num : Z)
| OStr (e : Env) (id : option text) (which : Z) (info : bool) (n : Z)
| ONumber (e : Env) (id : option text) (which : Z) (info : bool).

(** The calls that change the ledger, or the static buffer: the report, for
    those that report, and the ledger. *)
Definition exec (op : Op) (l : DistributedNetLedger) : option (Z * DistributedNetLedger) :=
  match op with
  | OInit mutexOk dumpOk => Some (REPORT_NONE, (LnnInitDistributedLedger mutexOk dumpOk l).2)
  | ODeinit e => Some (REPORT_NONE, LnnDeinitDistributedLedger e l)
  | OAdd e info => '(r, _, l') ← LnnAddOnlineNode e info l; Some (r, l')
  | OOffline e udid type authId => LnnSetNodeOffline e udid type authId l
  | ORemove e udid => l' ← LnnRemoveNode e udid l; Some (REPORT_NONE, l')
  | OName e udid name => '(_, l') ← LnnSetDLDeviceInfoName e udid name l; Some (REPORT_NONE, l')
  | OP2p e id info => '(_, l') ← LnnSetDLP2pInfo e id info l; Some (REPORT_NONE, l')
  | OHeartbeat e id ts => '(_, l') ← LnnSetDLHeartbeatTimestamp e id ts l; Some (REPORT_NONE, l')
  | OCapability e id c => '(_, l') ← LnnSetDLConnCapability e id c l; Some (REPORT_NONE, l')
  | OAddr e id type a => '(_, l') ← LnnSetDLNodeAddr e id type a l; Some (REPORT_NONE, l')
  | OLane e i n => '(_, l') ← LnnSetLaneCount e i n l; Some (REPORT_NONE, l')
  | OStr e id k b n => '(_, l') ← LnnGetRemoteStrInfo e id k b n l; Some (REPORT_NONE, l')
  | ONumber e id k b => '(_, l') ← LnnGetRemoteNumInfo e id k b l; Some (REPORT_NONE, l')
  end.

Fixpoint execAll (ops : list Op) (l : DistributedNetLedger) : option (list Z * DistributedNetLedger) :=
  match ops with
  | [] => Some ([], l)
  | op :: rest =>
      '(r, l1) ← exec op l;
      '(rs, l2) ← execAll rest l1;
      Some (r :: rs, l2)
  end.

(** ** Specification

    The nodes and the codes as finite maps. *)

Abbreviation Nodes := (gmap text NodeInfo).
Abbreviation Codes := (gmap text Z).

(** The text a code is kept under. *)
Definition codeKey (u : text) : text := printInt DISCOVERY_TYPE_BR ++ u.

Definition keyMade (e : Env) (u : text) : bool := (len u <? UUID_BUF_LEN) && keyMem e.

(** An insertion, which needs memory for a new key. *)
Definition specInsert {A} (mem : bool) (k : text) (v : A) (g : gmap text A) : gmap text A :=
  if mem || isFound (g !! k) then <[k := v]> g else g.

Definition specCodes (e : Env) (info : NodeInfo) (c : Codes) : Codes :=
  if Z.testbit (discoveryType info) DISCOVERY_TYPE_BR && keyMade e (uuid info)
  then specInsert (codeNode e) (codeKey (uuid info)) (wrapS 16 (authSeqNum info)) c else c.

(** What is kept of a text copied to an array of [n] characters. *)
Definition kept (n : Z) (t : text) : text := if len t <? n then t else [].

Definition found (d : Z) (n : NodeInfo) : bool := Z.testbit (discoveryType n) d.

(** A node [o] that is online comes again as [n]: it has been discovered in
    the ways of both, its users are those of both, modulo four, and it keeps
    the channels of [o].  When [n] comes over WLAN and [o] did over Bluetooth,
    a missing Bluetooth address is that of [o]; when [n] comes over Bluetooth
    and [o] did over WLAN, a missing IP address and the ports are those of
    [o].  Everything else is new. *)
Definition merged (o n : NodeInfo) : NodeInfo :=
  let toWifi := (found DISCOVERY_TYPE_BLE o || found DISCOVERY_TYPE_BR o) && found DISCOVERY_TYPE_WIFI n in
  let toBt := negb toWifi && found DISCOVERY_TYPE_WIFI o && (found DISCOVERY_TYPE_BLE n || found DISCOVERY_TYPE_BR n) in
  let c := connectInfo n in
  let c0 := connectInfo o in
  let ports := if toBt then c0 else c in
  MkNodeInfo (softBusVersion n) (versionType n) (uuid n) (networkId n) (publicId n) (parentId n) (masterUdid n) (nodeAddress n)
    (zip_with (fun r q => (r + q) mod 4) (relation n) (relation o)) (masterWeight n) (role n) STATUS_ONLINE (netCapacity n)
    (Z.lor (discoveryType o) (discoveryType n)) (heartbeatTimeStamp n) (deviceInfo n)
    (MkConnect (netIfName c)
       (if toBt && bool_decide (deviceIp c = []) then kept MAX_ADDR_LEN (deviceIp c0) else deviceIp c)
       (if toWifi && bool_decide (macAddr c = []) then kept MAC_LEN (macAddr c0) else macAddr c)
       (authPort ports) (proxyPort ports) (sessionPort ports))
    (authSeqNum n) (authChannelId o) (bssTransInfo n) (isBleP2p n) (p2pInfo n) (supportedProtocols n) (accountHash n).

(** The node that an added info makes of the old one, and the report. *)
Definition specMerge (old : option NodeInfo) (info : NodeInfo) : Z * NodeInfo :=
  match old with
  | Some o =>
      if status o =? STATUS_ONLINE then
        (if bool_decide (networkId info = networkId o) then REPORT_NONE else REPORT_CHANGE, merged o info)
      else (REPORT_ONLINE, setStatus STATUS_ONLINE info)
  | None => (REPORT_ONLINE, setStatus STATUS_ONLINE info)
  end.

(** One user of the medium [type] less. *)
Definition leave (type : Z) (n : NodeInfo) : NodeInfo :=
  if type =? CONNECTION_ADDR_MAX then n
  else setNet (alter (fun r => if 0 <? r then r - 1 else r) (Z.to_nat type) (relation n)) (authChannelId n) (status n) (discoveryType n) n.

(** What a node is when it leaves over [type], and the report. *)
Definition specLeave (type authId : Z) (n : NodeInfo) : Z * NodeInfo :=
  let d := LnnConvAddrTypeToDiscType type in
  let n1 := leave type n in
  if Z.testbit (discoveryType n) DISCOVERY_TYPE_WIFI && (d =? DISCOVERY_TYPE_WIFI) && negb (bool_decide (authChannelId n !! Z.to_nat type = Some authId))
  then (REPORT_NONE, n1)
  else
    let left := if d <? DISCOVERY_TYPE_COUNT then Z.clearbit (discoveryType n) d else discoveryType n in
    if left =? 0 then (REPORT_OFFLINE, setStatus STATUS_OFFLINE (setDiscovery left n1)) else (REPORT_NONE, setDiscovery left n1).

Definition specUncode (e : Env) (type : Z) (n : NodeInfo) (c : Codes) : Codes :=
  if Z.testbit (discoveryType n) DISCOVERY_TYPE_BR && (LnnConvAddrTypeToDiscType type =? DISCOVERY_TYPE_BR) && keyMade e (uuid n)
  then delete (codeKey (uuid n)) c else c.

(** The node [n] at [k] has the id. *)
Definition hasId (type : Z) (t k : text) (n : NodeInfo) : Prop :=
  if type =? CATEGORY_UDID then k = t else idOf type n = Some t.

(** A write to the node with an id: a node that has it is written; nothing
    is written exactly when no node has it, the lock is refused or, for an id
    the nodes are searched for, there is no memory to search. *)
Definition written (e : Env) (id : option text) (type : Z) (f : NodeInfo -> NodeInfo) (g g' : Nodes) : Prop :=
  (exists k n t, lock e = true /\ id = Some t /\ g !! k = Some n /\ hasId type t k n /\ g' = <[k := f n]> g) \/
  (g' = g /\ (lock e = false \/ type <> CATEGORY_UDID /\ iterMem e = false \/
     forall t, id = Some t -> map_Forall (fun k n => ~ hasId type t k n) g)).

(** The P2P part a node is given, of which a part that is too long is left
    empty and ends the copy. *)
Definition p2pGiven (i old : P2pInfo) : P2pInfo :=
  if len (p2pMac i) <? MAC_LEN then MkP2p (p2pRole i) (p2pMac i) (kept MAC_LEN (goMac i)) else MkP2p (p2pRole i) [] (goMac old).

Definition named (name : text) (n : NodeInfo) : NodeInfo :=
  setDevice (MkDevice name (deviceUdid (deviceInfo n)) (deviceTypeId (deviceInfo n))) n.

(** The nodes, the codes, and whether the ledger is started. *)
Record State := MkState { sNodes : Nodes; sCodes : Codes; sUp : bool }.

Inductive SpecStep : Op -> State -> Z -> State -> Prop :=
| SInit m d s : SpecStep (OInit m d) s REPORT_NONE (if sUp s then s else MkState ∅ ∅ (m && d))
| SDeinit e s : SpecStep (ODeinit e) s REPORT_NONE (if lock e then MkState ∅ ∅ false else s)
| SAdd e info g c u : lock e = true -> let x := specMerge (g !! deviceUdid (deviceInfo info)) info in
    SpecStep (OAdd e info) (MkState g c u) x.1
      (MkState (specInsert (nodeNode e) (deviceUdid (deviceInfo info)) x.2 g) (specCodes e info c) u)
| SAddUnlocked e info g c u : lock e = false -> SpecStep (OAdd e info) (MkState g c u) REPORT_NONE (MkState g (specCodes e info c) u)
| SOffline e udid type authId g c u n : lock e = true -> g !! udid = Some n -> let x := specLeave type authId n in
    SpecStep (OOffline e (Some udid) type authId) (MkState g c u) x.1 (MkState (<[udid := x.2]> g) (specUncode e type n c) u)
| SOfflineNone e udid type authId s : lock e = false \/ udid ≫= (fun k => sNodes s !! k) = None ->
    SpecStep (OOffline e udid type authId) s REPORT_NONE s
| SRemove e udid g c u : lock e = true -> SpecStep (ORemove e (Some udid)) (MkState g c u) REPORT_NONE (MkState (delete udid g) c u)
| SRemoveNone e udid s : lock e = false \/ udid = None -> SpecStep (ORemove e udid) s REPORT_NONE s
| SName e udid name g c u g' :
    match name with
    | Some t => if len t <? DEVICE_NAME_BUF_LEN then written e udid CATEGORY_UDID (named t) g g' else g' = g
    | None => g' = g
    end -> SpecStep (OName e udid name) (MkState g c u) REPORT_NONE (MkState g' c u)
| SP2p e id info g c u g' :
    match info with
    | Some i => written e id CATEGORY_NETWORK_ID (fun n => setP2p (p2pGiven i (p2pInfo n)) n) g g'
    | None => g' = g
    end -> SpecStep (OP2p e id info) (MkState g c u) REPORT_NONE (MkState g' c u)
| SHeartbeat e id ts g c u g' :
    written e id CATEGORY_NETWORK_ID (fun n => setMisc (masterUdid n) (nodeAddress n) (netCapacity n) ts (supportedProtocols n) n) g g' ->
    SpecStep (OHeartbeat e id ts) (MkState g c u) REPORT_NONE (MkState g' c u)
| SCapability e id cap g c u g' :
    written e id CATEGORY_NETWORK_ID (fun n => setMisc (masterUdid n) (nodeAddress n) (u32 cap) (heartbeatTimeStamp n) (supportedProtocols n) n) g g' ->
    SpecStep (OCapability e id cap) (MkState g c u) REPORT_NONE (MkState g' c u)
| SAddr e id type a g c u g' :
    written e id type (fun n => setMisc (masterUdid n) (kept SHORT_ADDRESS_MAX_LEN a) (netCapacity n) (heartbeatTimeStamp n) (supportedProtocols n) n) g g' ->
    SpecStep (OAddr e id type a) (MkState g c u) REPORT_NONE (MkState g' c u)
| SOther op s : match op with OLane _ _ _ | OStr _ _ _ _ _ | ONumber _ _ _ _ => True | _ => False end -> SpecStep op s REPORT_NONE s.

Inductive SpecRun : list Op -> State -> list Z -> State -> Prop :=
| SpecNil s : SpecRun [] s [] s
| SpecCons op ops s r s1 rs s2 : SpecStep op s r s1 -> SpecRun ops s1 rs s2 -> SpecRun (op :: ops) s (r :: rs) s2.

(** ** The ledger in memory *)

Definition nodeBytes (_ : NodeInfo) : Z := SIZEOF_NodeInfo.
Definition codeBytes (_ : Z) : Z := SIZEOF_short.

(** A node under its UDID: its texts fit their arrays, and it is online
    exactly when it was discovered in some way. *)
Record nodeOk (k : text) (n : NodeInfo) : Prop := {
  n_udid : deviceUdid (deviceInfo n) = k;
  n_key : len k < UDID_BUF_LEN;
  n_network : len (networkId n) < NETWORK_ID_BUF_LEN;
  n_name : len (deviceName (deviceInfo n)) < DEVICE_NAME_BUF_LEN;
  n_relation : length (relation n) = Z.to_nat CONNECTION_ADDR_MAX;
  n_auth : length (authChannelId n) = Z.to_nat CONNECTION_ADDR_MAX;
  n_discovery : is_u 32 (discoveryType n);
  n_status : status n = STATUS_ONLINE /\ discoveryType n <> 0 \/ status n = STATUS_OFFLINE /\ discoveryType n = 0 }.

(** What a caller adds: the same, with the status to be set. *)
Definition infoOk (n : NodeInfo) : Prop :=
  nodeOk (deviceUdid (deviceInfo n)) (setStatus STATUS_ONLINE n).

(** [b] calls were made. *)
Record ledgerOk (b : Z) (l : DistributedNetLedger) : Prop := {
  l_nodes : wf nodeBytes (udidMap l);
  l_codes : wf codeBytes (connectionCode l);
  l_ip : wf nodeBytes (ipMap l) /\ view (ipMap l) = ∅;
  l_mac : wf nodeBytes (macMap l) /\ view (macMap l) = ∅;
  l_nodeOk : map_Forall nodeOk (view (udidMap l));
  l_lanes : length (laneCount l) = Z.to_nat LNN_LINK_TYPE_BUTT /\ Forall (fun c => 0 <= c <= b) (laneCount l);
  l_buf : len (typeBuf l) = 4;
  l_sizes : nodeSize (udidMap l) <= b /\ nodeSize (connectionCode l) <= b }.

Definition stateOf (l : DistributedNetLedger) : State :=
  MkState (view (udidMap l)) (view (connectionCode l)) (dlStatus l =? DL_INIT_SUCCESS).

(** The arguments of a call are of their types; there is memory for the
    buckets (see [LnnMapSet_first_insert_oom]); lanes are counted one by one,
    as the callers do. *)
Definition opOk (op : Op) : Prop :=
  match op with
  | OAdd e info => infoOk info /\ codeBuckets e = true /\ nodeBuckets e = true
  | OOffline _ _ type _ => 0 <= type <= CONNECTION_ADDR_MAX
  | OLane _ _ num => -1 <= num <= 1
  | _ => True
  end.

(** ** Looking up and writing *)

Lemma ledgerOk_mono b b' l : ledgerOk b l -> b <= b' -> ledgerOk b' l.
Proof.
  intros [] Hb. destruct l_lanes0 as [? Hl]. constructor; try done; [|lia].
  split; [done|]. eapply Forall_impl; [apply Hl|]. cbn. lia.
Qed.

(** The records of a node are rewritten field by field. *)
Ltac node_ok := intros []; constructor; cbn in *; try done; try lia.

Lemma nodeOk_status k st n : nodeOk k n -> st = status n -> nodeOk k (setStatus st n).
Proof. intros H ->. revert H. node_ok. Qed.

Lemma nodeOk_misc k n m a c h p : nodeOk k n -> nodeOk k (setMisc m a c h p n).
Proof. node_ok. Qed.

Lemma nodeOk_p2p k n p : nodeOk k n -> nodeOk k (setP2p p n).
Proof. node_ok. Qed.

Lemma nodeOk_named k n t : nodeOk k n -> len t < DEVICE_NAME_BUF_LEN -> nodeOk k (named t n).
Proof. intros H Ht. revert H. node_ok. Qed.

#[local] Hint Resolve nodeOk_misc nodeOk_p2p nodeOk_named : core.

Lemma get_node b l k : ledgerOk b l -> LnnMapGet (Some (udidMap l)) (Some k) = Some (view (udidMap l) !! k).
Proof. intros []. by apply (mapGetErase_spec nodeBytes). Qed.

Lemma fromMap_spec b l k : ledgerOk b l ->
  GetNodeInfoFromMap l (Some k) = Some ((fun n => (MkPtr InUdid k, n)) <$> view (udidMap l) !! k).
Proof.
  intros Hok. unfold GetNodeInfoFromMap. rewrite (get_node b) by done. cbn [mbind option_bind].
  destruct (view (udidMap l) !! k) as [n|]; [done|]. destruct Hok as [_ _ [Hi Hi0] [Hm Hm0] _ _ _ _].
  rewrite (proj1 (mapGetErase_spec nodeBytes _ k Hm)), Hm0, lookup_empty. cbn [mbind option_bind].
  by rewrite (proj1 (mapGetErase_spec nodeBytes _ k Hi)), Hi0, lookup_empty.
Qed.

(** A search that stops at the first match. *)
Lemma listLoop_found {A} (f : MapNode NodeInfo -> option A) xs acc :
  isFound acc = true -> listLoop isFound (fun _ n => f n) xs acc = acc.
Proof. intros H. destruct xs as [|x xs]; [done|]. cbn [listLoop]. by rewrite H. Qed.

Lemma listLoop_search {A} (f : MapNode NodeInfo -> option A) xs :
  match listLoop isFound (fun _ n => f n) xs None with
  | Some y => exists x, x ∈ xs /\ f x = Some y
  | None => Forall (fun x => f x = None) xs
  end.
Proof.
  induction xs as [|x xs IH]; [constructor|]. cbn [listLoop isFound]. destruct (f x) as [y|] eqn:E.
  - rewrite listLoop_found by done. exists x. split; [left|done].
  - destruct (listLoop _ _ xs None) as [y|]; [|by constructor].
    destruct IH as (x' & Hx & Hf). exists x'. split; [by right|done].
Qed.

Lemma view_node b l x : ledgerOk b l -> x ∈ allNodes (udidMap l) -> view (udidMap l) !! key x = Some (value x).
Proof.
  intros [] Hx. apply elem_of_map_to_list. rewrite (view_entries nodeBytes) by done.
  apply list_elem_of_fmap. by exists x.
Qed.

Lemma node_of_view b l k n : ledgerOk b l -> view (udidMap l) !! k = Some n ->
  exists x, x ∈ allNodes (udidMap l) /\ key x = k /\ value x = n.
Proof.
  intros [] Hv%elem_of_map_to_list. rewrite (view_entries nodeBytes) in Hv by done.
  apply list_elem_of_fmap in Hv as (x & E & Hx). unfold entry in E. simplify_eq. by exists x.
Qed.

(** What [LnnGetNodeInfoById] finds has the id, and it finds a node when one
    has the id and there is memory for the iterator. *)
Lemma byId_spec e b l t type : ledgerOk b l ->
  exists r, LnnGetNodeInfoById e l (Some t) type = Some r /\
    match r with
    | Some (p, n) => exists k, p = MkPtr InUdid k /\ view (udidMap l) !! k = Some n /\ hasId type t k n
    | None => type = CATEGORY_UDID \/ iterMem e = true -> map_Forall (fun k n => ~ hasId type t k n) (view (udidMap l))
    end.
Proof.
  intros Hok. unfold LnnGetNodeInfoById, hasId. destruct (Z.eqb_spec type CATEGORY_UDID) as [_|Hne].
  { rewrite (fromMap_spec b) by done. eexists. split; [done|].
    destruct (view (udidMap l) !! t) as [n|] eqn:E; cbn; [by exists t|]. intros _ k n Hk ->. congruence. }
  change (LnnMapInitIterator (iterMem e) (Some (udidMap l)))
    with (if iterMem e then Some (MkIter (V := NodeInfo) [] 0 0) else None).
  destruct (iterMem e); [|by exists None; split; [done|intros [|]]].
  unfold loopNodes. rewrite (mapLoop_spec nodeBytes) by (by destruct Hok).
  eexists. split; [done|].
  set (f := fun n => if bool_decide (idOf type (value n) = Some t) then Some (MkPtr InUdid (key n), value n) else None).
  pose proof (listLoop_search f (allNodes (udidMap l))) as Hs. unfold f in Hs at 1.
  destruct (listLoop _ _ (allNodes (udidMap l)) None) as [[p n]|].
  - destruct Hs as (x & Hx & Hf). unfold f in Hf. case_bool_decide; simplify_eq. exists (key x).
    split_and!; [done|by apply (view_node b)|done].
  - intros _ k n Hk Hid. destruct (node_of_view b l k n Hok Hk) as (x & Hx & <- & <-).
    rewrite Forall_forall in Hs. specialize (Hs x Hx). unfold f in Hs. by rewrite bool_decide_true in Hs.
Qed.

Lemma writeNode_spec b l k n v : ledgerOk b l -> view (udidMap l) !! k = Some n -> nodeOk k v ->
  exists l', writeNode (MkPtr InUdid k) v l = Some l' /\ ledgerOk b l' /\
    stateOf l' = MkState (<[k := v]> (view (udidMap l))) (view (connectionCode l)) (dlStatus l =? DL_INIT_SUCCESS).
Proof.
  intros [] Hk Hv. unfold writeNode. cbn [place pkey].
  destruct (writeValue_spec nodeBytes (udidMap l) k v n) as (m & -> & Hwf & Hview & Hsz); [done..|].
  cbn [mbind option_bind]. eexists. split; [done|]. split.
  - constructor; cbn; try done; [|lia]. rewrite Hview. by apply map_Forall_insert_2.
  - unfold stateOf. cbn. by rewrite Hview.
Qed.

(** ** Codes *)

Lemma createKey_spec e u : CreateCnnCodeKey e (Some u) DISCOVERY_TYPE_BR = if keyMade e u then Some (codeKey u) else None.
Proof.
  unfold CreateCnnCodeKey, keyMade. destruct (Z.leb_spec UUID_BUF_LEN (len u)) as [H|H].
  { by rewrite (proj2 (Z.ltb_ge _ _)). }
  rewrite (proj2 (Z.ltb_lt (len u) UUID_BUF_LEN)) by lia. destruct (keyMem e); [|done]. cbn [negb andb].
  rewrite (proj2 (Z.ltb_lt _ _)); [done|]. change (printInt DISCOVERY_TYPE_BR) with [51].
  unfold len, UUID_BUF_LEN, INT_TO_STR_SIZE in *. rewrite length_app. cbn [length]. lia.
Qed.

Lemma keyMade_len e u : keyMade e u = true -> Z.of_nat (length (codeKey u)) <= 1000.
Proof.
  intros [H%Z.ltb_lt _]%andb_true_iff. unfold codeKey, len, UUID_BUF_LEN in *. rewrite length_app.
  change (printInt DISCOVERY_TYPE_BR) with [51]. cbn [length]. lia.
Qed.

(** [LnnMapSet] of a value of the size the map is for. *)
Lemma mapSet_insert {A} (sizeOf : A -> Z) sz an m k v :
  (forall x, sizeOf x = sz) -> 0 < sz <= 1000 -> wf sizeOf m -> nodeSize m < 2 ^ 32 - 1 -> Z.of_nat (length k) <= 1000 ->
  exists r m', LnnMapSet true an (Some m) (Some k) (Some v) sz = Some (r, Some m') /\ wf sizeOf m' /\
    view m' = specInsert an k v (view m) /\ nodeSize m' <= nodeSize m + 1.
Proof.
  intros Hsz H0 Hwf Hn Hk. destruct (mapSet_spec sizeOf true an m k v) as (r & m' & E & Hwf' & Hv); [done|by left|by rewrite Hsz|done..|].
  rewrite Hsz in E. exists r, m'. split; [done|]. split; [done|].
  assert (view m' = specInsert an k v (view m)) as Hview.
  { unfold specInsert. destruct (view m !! k) as [old|] eqn:Eo; cbn [isFound].
    - rewrite orb_true_r. rewrite bool_decide_true in Hv by (by rewrite !Hsz). by destruct Hv.
    - rewrite orb_false_r. destruct an; tauto. }
  split; [done|]. rewrite !(nodeSize_view sizeOf) by done. rewrite Hview. unfold specInsert.
  destruct (an || _); [|lia]. rewrite map_size_insert. destruct (view m !! k); cbn; lia.
Qed.

Lemma addCode_spec e b l u a : ledgerOk b l -> b < 2 ^ 31 -> codeBuckets e = true ->
  exists r m, AddCnnCode e (connectionCode l) (Some u) DISCOVERY_TYPE_BR a = Some (r, m) /\ ledgerOk (b + 1) (setCodes m l) /\
    view m = if keyMade e u then specInsert (codeNode e) (codeKey u) (wrapS 16 a) (view (connectionCode l)) else view (connectionCode l).
Proof.
  intros Hok Hb He. unfold AddCnnCode. rewrite createKey_spec.
  destruct (keyMade e u) eqn:Ek.
  2:{ eexists _, _. split; [done|]. split; [|done]. apply (ledgerOk_mono b); [|lia]. by destruct Hok. }
  rewrite He. pose proof Hok as [].
  destruct (mapSet_insert codeBytes SIZEOF_short (codeNode e) (connectionCode l) (codeKey u) (wrapS 16 a))
    as (r & m' & -> & Hwf & Hv & Hs); [done|done|done|range|by apply (keyMade_len e)|].
  cbn [mbind option_bind default]. eexists _, m'. split; [done|]. split; [|done].
  apply (ledgerOk_mono b (b + 1)) in Hok; [|lia]. destruct Hok. constructor; cbn; try done. lia.
Qed.

Lemma removeCode_spec e b l u : ledgerOk b l ->
  exists m, RemoveCnnCode e (connectionCode l) (Some u) DISCOVERY_TYPE_BR = Some m /\ ledgerOk b (setCodes m l) /\
    view m = if keyMade e u then delete (codeKey u) (view (connectionCode l)) else view (connectionCode l).
Proof.
  intros []. unfold RemoveCnnCode. rewrite createKey_spec. destruct (keyMade e u); [|by eexists].
  destruct (mapGetErase_spec codeBytes (connectionCode l) (codeKey u)) as (_ & r & m' & -> & Hwf & Hv & Hs); [done|].
  cbn [mbind option_bind default]. exists m'. split; [done|]. split; [|done].
  constructor; cbn; try done. split; [lia|]. destruct (view (connectionCode l) !! codeKey u); destruct Hs as [? Hs]; subst; lia.
Qed.

(** ** Nodes that come *)

Lemma lor_u32 a b : is_u 32 a -> is_u 32 b -> is_u 32 (Z.lor a b).
Proof.
  intros Ha Hb. assert (forall x i, is_u 32 x -> 32 <= i -> Z.testbit x i = false) as H.
  { intros x i Hx Hi. rewrite <- (wrapU_id 32 x Hx), testbit_wrapU by lia. by rewrite (proj2 (Z.ltb_ge _ _)). }
  apply is_u_bits; [lia|]. intros i Hi. by rewrite Z.lor_spec, !H.
Qed.

Lemma lor_nonzero a b : a <> 0 -> Z.lor a b <> 0.
Proof. intros Ha [-> _]%Z.lor_eq_0_iff. done. Qed.

Lemma lor_again a b : Z.lor (Z.lor a b) b = Z.lor a b.
Proof. by rewrite <- Z.lor_assoc, Z.lor_diag. Qed.

Lemma relation_mod r q : Z.land (wrapU 8 (r + q)) LNN_RELATION_MASK = (r + q) mod 4.
Proof.
  change LNN_RELATION_MASK with (Z.ones 2). rewrite Z.land_ones by lia. unfold wrapU. change (2 ^ 8) with (4 * 64). change (2 ^ 2) with 4.
  rewrite Z.rem_mul_r by lia. rewrite (Z.mul_comm 4), Z_mod_plus_full. apply Z.mod_mod. lia.
Qed.

(** The merge of the code, with its flags and its copies in place. *)
Lemma merge_code o n : setStatus STATUS_ONLINE (mergeOnline o n) = merged o n.
Proof.
  unfold mergeOnline, merged, found. rewrite !has_testbit by done.
  assert (forall r q, zip_with (fun a b => Z.land (wrapU 8 (a + b)) LNN_RELATION_MASK) r q = zip_with (fun a b => (a + b) mod 4) r q) as Hrel.
  { intros r q. apply zip_with_ext; [apply relation_mod|done..]. }
  rewrite (Z.lor_comm (discoveryType o)). destruct ((_ || _) && _).
  - unfold NewWifiDiscovered, MergeLnnInfo, LnnSetBtMac, copyText, kept, DEFAULT_MAC. cbn [negb andb].
    case_bool_decide as E; cbn in E |- *; rewrite lor_again, Hrel;
      [|rewrite bool_decide_false by done; by destruct n as [????????????????[] ???????]].
    rewrite bool_decide_true by done. by destruct (len _ <? _).
  - cbn [negb andb]. destruct (_ && _).
    + unfold NewBrBleDiscovered, MergeLnnInfo, LnnSetWiFiIp, copyText, kept, DEFAULT_IP. cbn [negb andb].
      case_bool_decide as E; cbn in E |- *; rewrite lor_again, Hrel.
      * rewrite bool_decide_true by done. by destruct (len _ <? _).
      * by rewrite bool_decide_false.
    + unfold MergeLnnInfo. cbn. rewrite Hrel. by destruct n as [????????????????[] ???????].
Qed.

Lemma nodeOk_merge k o n : nodeOk k o -> nodeOk k (setStatus STATUS_ONLINE n) -> nodeOk k (merged o n).
Proof.
  intros Ho Hn. assert (Z.lor (discoveryType n) (discoveryType o) <> 0) as H0.
  { apply lor_nonzero. destruct (n_status _ _ Hn) as [[_ ?]|[? _]]; done. }
  rewrite Z.lor_comm in H0. destruct Ho, Hn. cbn in *. constructor; cbn; try done.
  - rewrite length_zip_with. lia.
  - by apply lor_u32.
  - by left.
Qed.

Lemma nodeOk_spec (g : Nodes) info : map_Forall nodeOk g -> infoOk info ->
  nodeOk (deviceUdid (deviceInfo info)) (specMerge (g !! deviceUdid (deviceInfo info)) info).2.
Proof.
  intros Hg Hi. unfold specMerge. destruct (g !! _) as [o|] eqn:E; [|done].
  destruct (status o =? STATUS_ONLINE); [|done]. cbn [snd]. apply nodeOk_merge; [by apply Hg|done].
Qed.

Lemma insert_nodes (mem : bool) (k : text) (v : NodeInfo) (g : Nodes) : map_Forall nodeOk g -> nodeOk k v -> map_Forall nodeOk (specInsert mem k v g).
Proof. intros Hg Hv. unfold specInsert. destruct (mem || _); [by apply map_Forall_insert_2|done]. Qed.

(** The part under the lock. *)
Lemma setNode_spec e b l k v : ledgerOk b l -> b < 2 ^ 31 -> nodeBuckets e = true -> nodeOk k v ->
  exists r m, LnnMapSet (nodeBuckets e) (nodeNode e) (Some (udidMap l)) (Some k) (Some v) SIZEOF_NodeInfo = Some (r, Some m) /\
    ledgerOk (b + 1) (setUdidMap m l) /\ view m = specInsert (nodeNode e) k v (view (udidMap l)).
Proof.
  intros Hok Hb He Hv. rewrite He. pose proof Hok as [].
  destruct (mapSet_insert nodeBytes SIZEOF_NodeInfo (nodeNode e) (udidMap l) k v) as (r & m' & -> & Hwf & Hview & Hs);
    [done|done|done|range|destruct Hv; unfold len, UDID_BUF_LEN in *; lia|].
  exists r, m'. split; [done|]. split; [|done]. apply (ledgerOk_mono b (b + 1)) in Hok; [|lia].
  destruct Hok. constructor; cbn; try done; [|lia]. rewrite Hview. by apply insert_nodes.
Qed.

(** The info as [LnnAddOnlineNode] leaves it, and its report. *)
Lemma specMerge_code old info :
  (let '(isOffline, isChanged, info1) :=
      match old with
      | Some old => if LnnIsNodeOnline (Some old) then (false, IsNetworkIdChanged info old, mergeOnline old info) else (true, false, info)
      | None => (true, false, info)
      end in
   (if isOffline : bool then REPORT_ONLINE else if isChanged : bool then REPORT_CHANGE else REPORT_NONE, setStatus STATUS_ONLINE info1)) =
  specMerge old info.
Proof.
  unfold specMerge. destruct old as [o|]; [|done]. cbn [LnnIsNodeOnline]. destruct (status o =? STATUS_ONLINE); [|done].
  rewrite merge_code. unfold IsNetworkIdChanged. by case_bool_decide.
Qed.

Lemma add_ok e info b l : ledgerOk b l -> b < 2 ^ 31 - 1 -> opOk (OAdd e info) ->
  exists r l', exec (OAdd e info) l = Some (r, l') /\ ledgerOk (b + 2) l' /\ SpecStep (OAdd e info) (stateOf l) r (stateOf l').
Proof.
  intros Hok Hb (Hi & Hc & Hn). unfold exec, LnnAddOnlineNode.
  assert (exists l1, (if LnnHasDiscoveryType (Some info) DISCOVERY_TYPE_BR then
      '(_, m) ← AddCnnCode e (connectionCode l) (Some (uuid info)) DISCOVERY_TYPE_BR (authSeqNum info); Some (setCodes m l)
    else Some l) = Some l1 /\ ledgerOk (b + 1) l1 /\ udidMap l1 = udidMap l /\ dlStatus l1 = dlStatus l /\
      view (connectionCode l1) = specCodes e info (view (connectionCode l))) as (l1 & -> & Hok1 & Hu & Hd & Hv).
  { unfold specCodes. rewrite has_testbit by done. destruct (Z.testbit (discoveryType info) DISCOVERY_TYPE_BR); cbn [andb].
    - destruct (addCode_spec e b l (uuid info) (authSeqNum info)) as (r & m & -> & Hm & Hv); [done|lia|done|].
      cbn [mbind option_bind]. eexists. by split_and!.
    - exists l. split_and!; try done. apply (ledgerOk_mono b); [done|lia]. }
  cbn [mbind option_bind]. unfold stateOf. destruct (lock e) eqn:El; cbn [negb].
  2:{ cbn [mbind option_bind]. eexists _, l1. split; [done|]. split; [apply (ledgerOk_mono (b + 1)); [done|lia]|].
      rewrite Hu, Hd, Hv. by apply SAddUnlocked. }
  rewrite (get_node (b + 1)), Hu by done. cbn [mbind option_bind].
  pose proof (specMerge_code (view (udidMap l) !! deviceUdid (deviceInfo info)) info) as Hspec.
  assert (nodeOk (deviceUdid (deviceInfo info)) (specMerge (view (udidMap l) !! deviceUdid (deviceInfo info)) info).2) as Hnew.
  { apply nodeOk_spec; [|done]. by destruct Hok. }
  match goal with |- context [let '(_, _) := ?x in _] => destruct x as [[isOffline isChanged] info1] end.
  rewrite <- Hspec in Hnew. cbn [snd] in Hnew.
  destruct (setNode_spec e (b + 1) l1 (deviceUdid (deviceInfo info)) (setStatus STATUS_ONLINE info1)) as (r & m & Hset & Hokm & Hview);
    [done|lia|done|done|].
  rewrite Hu in Hset, Hview. rewrite Hset. cbn [mbind option_bind default].
  eexists _, _. split; [done|]. split; [replace (b + 2) with (b + 1 + 1) by lia; done|].
  cbn [setUdidMap udidMap connectionCode dlStatus]. change (id m) with m. rewrite Hview, Hv, Hd.
  pose proof (SAdd e info (view (udidMap l)) (view (connectionCode l)) (dlStatus l =? DL_INIT_SUCCESS) El) as Hstep.
  rewrite <- Hspec in Hstep. apply Hstep.
Qed.

(** ** Nodes that go *)

Lemma alter_lookup (f : Z -> Z) (l : list Z) (i : nat) x : l !! i = Some x -> alter f i l = <[i := f x]> l.
Proof. revert i. induction l as [|y l IH]; intros [|i] H; simplify_eq/=; [done|]. f_equal. by apply IH. Qed.

Lemma setNet_id n : setNet (relation n) (authChannelId n) (status n) (discoveryType n) n = n.
Proof. by destruct n. Qed.

Lemma leave_code k n type : nodeOk k n -> 0 <= type <= CONNECTION_ADDR_MAX ->
  (if type =? CONNECTION_ADDR_MAX then Some n
   else
     r ← relation n !! Z.to_nat type;
     if 0 <? r then Some (setNet (<[Z.to_nat type := r - 1]> (relation n)) (authChannelId n) (status n) (discoveryType n) n)
     else Some n) = Some (leave type n).
Proof.
  intros [] Ht. unfold leave. destruct (Z.eqb_spec type CONNECTION_ADDR_MAX) as [|Hne]; [done|].
  destruct (lookup_lt_is_Some_2 (relation n) (Z.to_nat type)) as [r Hr]; [lia|].
  rewrite (alter_lookup _ _ _ r Hr), Hr. cbn [mbind option_bind]. destruct (Z.ltb_spec 0 r); [done|].
  by rewrite list_insert_id, setNet_id.
Qed.

Lemma clear_u32 d t : is_u 32 d -> 0 <= t < 32 -> Z.land d (u32 (Z.lnot (Z.shiftl 1 t))) = Z.clearbit d t.
Proof.
  intros Hd Ht. apply Z.bits_inj'. intros i Hi. rewrite Z.clearbit_eqb by lia.
  rewrite <- (wrapU_id 32 d Hd), Z.land_spec, !testbit_wrapU, Z.lnot_spec, shiftl_1_testbit by lia.
  destruct (i <? 32); [cbn [andb]|done]. case_bool_decide as E.
  - subst. by rewrite Z.eqb_refl, !andb_false_r.
  - by rewrite (proj2 (Z.eqb_neq _ _)) by done.
Qed.

Lemma clearbit_u32 d t : is_u 32 d -> 0 <= t -> is_u 32 (Z.clearbit d t).
Proof.
  intros Hd Ht. apply is_u_bits; [lia|]. intros i Hi. rewrite Z.clearbit_eqb by lia.
  by rewrite <- (wrapU_id 32 d Hd), testbit_wrapU, (proj2 (Z.ltb_ge _ _)) by lia.
Qed.

Lemma discType_range type : 1 <= LnnConvAddrTypeToDiscType type <= DISCOVERY_TYPE_COUNT.
Proof. unfold LnnConvAddrTypeToDiscType. by repeat case_match. Qed.

(** What is left of the ways a node was discovered. *)
Definition remaining (type : Z) (n : NodeInfo) : Z :=
  let d := LnnConvAddrTypeToDiscType type in
  if d <? DISCOVERY_TYPE_COUNT then Z.clearbit (discoveryType n) d else discoveryType n.

Lemma remaining_code type k n : nodeOk k n ->
  default (leave type n) (LnnClearDiscoveryType (Some (leave type n)) (LnnConvAddrTypeToDiscType type)).2 =
  setDiscovery (remaining type n) (leave type n).
Proof.
  intros []. unfold LnnClearDiscoveryType, remaining. pose proof (discType_range type) as Hd.
  assert (discoveryType (leave type n) = discoveryType n) as Hl by (unfold leave; by case_match).
  destruct (Z.leb_spec DISCOVERY_TYPE_COUNT (LnnConvAddrTypeToDiscType type)).
  - rewrite (proj2 (Z.ltb_ge _ _)) by lia. cbn [snd default id]. rewrite <- Hl. unfold setDiscovery. by rewrite setNet_id.
  - rewrite (proj2 (Z.ltb_lt _ _)) by lia. cbn [snd default id]. rewrite Hl, clear_u32; [done|done|].
    unfold DISCOVERY_TYPE_COUNT in *. lia.
Qed.

Lemma nodeOk_leave k type n : nodeOk k n -> nodeOk k (leave type n).
Proof. unfold leave. destruct (type =? CONNECTION_ADDR_MAX); [done|]. node_ok. by rewrite length_alter. Qed.

Lemma remaining_u32 type k n : nodeOk k n -> is_u 32 (remaining type n).
Proof.
  intros []. unfold remaining. pose proof (discType_range type). destruct (_ <? _); [|done]. apply clearbit_u32; [done|lia].
Qed.

Lemma remaining_zero type n : discoveryType n = 0 -> remaining type n = 0.
Proof. intros H. unfold remaining. rewrite H. destruct (_ <? _); [|done]. by rewrite Z.clearbit_spec', Z.ldiff_0_l. Qed.

Lemma nodeOk_specLeave k type a n : nodeOk k n -> nodeOk k (specLeave type a n).2.
Proof.
  intros Hok. pose proof (nodeOk_leave k type n Hok) as Hl. pose proof (remaining_u32 type k n Hok) as Hu.
  pose proof (remaining_zero type n) as Hz. assert (status (leave type n) = status n) as Hst by (unfold leave; by case_match).
  unfold specLeave. fold (remaining type n). destruct (_ && _); [done|].
  destruct (Z.eqb_spec (remaining type n) 0) as [E|E]; cbn [snd]; revert Hl; node_ok.
  left. split; [|done]. destruct Hok. destruct n_status1 as [[]|[]]; [congruence|]. by rewrite Hz in E.
Qed.

Lemma offline_ok e udid type a b l : ledgerOk b l -> opOk (OOffline e udid type a) ->
  exists r l', exec (OOffline e udid type a) l = Some (r, l') /\ ledgerOk b l' /\
    SpecStep (OOffline e udid type a) (stateOf l) r (stateOf l').
Proof.
  intros Hok Ht. unfold exec, LnnSetNodeOffline.
  destruct (lock e) eqn:El; cbn [negb]; [|eexists _, l; split_and!; [done|done|constructor; by left]].
  assert (udid ≫= (fun k => view (udidMap l) !! k) = None ->
    exists r l', Some (REPORT_NONE, l) = Some (r, l') /\ ledgerOk b l' /\ SpecStep (OOffline e udid type a) (stateOf l) r (stateOf l')) as Hnone.
  { intros H. eexists _, l. split_and!; [done|done|constructor; by right]. }
  destruct udid as [k|]; [|by apply Hnone]. rewrite (get_node b) by done. cbn [mbind option_bind].
  destruct (view (udidMap l) !! k) as [n|] eqn:Ek; [|by apply Hnone]. clear Hnone.
  assert (nodeOk k n) as Hn by (destruct Hok; auto). rewrite (leave_code k) by done. cbn [mbind option_bind].
  assert (discoveryType (leave type n) = discoveryType n /\ uuid (leave type n) = uuid n /\ authChannelId (leave type n) = authChannelId n)
    as (Hd & Huu & Ha) by (unfold leave; by case_match).
  rewrite !has_testbit, Hd, Huu, Ha by done.
  assert (exists l1, (if Z.testbit (discoveryType n) DISCOVERY_TYPE_BR && (LnnConvAddrTypeToDiscType type =? DISCOVERY_TYPE_BR) then
      m ← RemoveCnnCode e (connectionCode l) (Some (uuid n)) DISCOVERY_TYPE_BR; Some (setCodes m l)
    else Some l) = Some l1 /\ ledgerOk b l1 /\ udidMap l1 = udidMap l /\ dlStatus l1 = dlStatus l /\
      view (connectionCode l1) = specUncode e type n (view (connectionCode l))) as (l1 & -> & Hok1 & Hu & Hdl & Hv).
  { unfold specUncode. destruct (_ && _); cbn [andb]; [|by exists l].
    destruct (removeCode_spec e b l (uuid n)) as (m & -> & Hm & Hv); [done|]. cbn [mbind option_bind]. eexists. by split_and!. }
  cbn [mbind option_bind].
  pose proof (nodeOk_specLeave k type a n Hn) as Hnew.
  pose proof (SOffline e k type a (view (udidMap l)) (view (connectionCode l)) (dlStatus l =? DL_INIT_SUCCESS) n El Ek) as Hstep.
  assert (forall v r, specLeave type a n = (r, v) -> exists r' l',
    (l2 ← writeNode (MkPtr InUdid k) v l1; Some (r, l2)) = Some (r', l') /\ ledgerOk b l' /\
    SpecStep (OOffline e (Some k) type a) (stateOf l) r' (stateOf l')) as Hwrite.
  { intros v r E. rewrite E in Hnew, Hstep. cbn [fst snd] in Hnew, Hstep.
    destruct (writeNode_spec b l1 k n v) as (l' & -> & Hl' & Hst); [done|by rewrite Hu|done|].
    cbn [mbind option_bind]. eexists _, l'. split_and!; [done|done|]. rewrite Hst, Hu, Hdl, Hv. apply Hstep. }
  clear Hstep Hnew. unfold specLeave in Hwrite. fold (remaining type n) in Hwrite.
  assert (exists early, (if Z.testbit (discoveryType n) DISCOVERY_TYPE_WIFI && (LnnConvAddrTypeToDiscType type =? DISCOVERY_TYPE_WIFI) then
      x ← authChannelId n !! Z.to_nat type; Some (negb (x =? a)) else Some false) = Some early /\
    early = Z.testbit (discoveryType n) DISCOVERY_TYPE_WIFI && (LnnConvAddrTypeToDiscType type =? DISCOVERY_TYPE_WIFI) &&
      negb (bool_decide (authChannelId n !! Z.to_nat type = Some a))) as (early & -> & Hearly).
  { destruct (Z.testbit _ _ && (_ =? _)) eqn:Ew; [|by exists false]. apply andb_true_iff in Ew as [_ Ew%Z.eqb_eq].
    destruct (lookup_lt_is_Some_2 (authChannelId n) (Z.to_nat type)) as [x Hx].
    { destruct Hn. destruct (decide (type = CONNECTION_ADDR_MAX)) as [->|]; [by vm_compute in Ew|]. cbn in Ht. lia. }
    rewrite Hx. cbn [mbind option_bind]. eexists. split; [done|]. cbn [andb]. f_equal.
    destruct (Z.eqb_spec x a) as [-> | Hxa]; [by rewrite bool_decide_true|]. rewrite bool_decide_false; [done|congruence]. }
  cbn [mbind option_bind]. rewrite <- Hearly in Hwrite. destruct early; [by apply Hwrite|].
  rewrite (remaining_code type k) by done. cbn [discoveryType setDiscovery setNet].
  destruct (remaining type n =? 0); cbn [negb]; by apply Hwrite.
Qed.

(** ** Other writes *)

(** What nothing written means. *)
Lemma written_none e b l t type f (f' : NodeInfo -> NodeInfo) : ledgerOk b l -> lock e = true ->
  (type = CATEGORY_UDID \/ iterMem e = true -> map_Forall (fun k n => ~ hasId type t k n) (view (udidMap l))) ->
  f = Some t -> written e f type f' (view (udidMap l)) (view (udidMap l)).
Proof.
  intros Hok He Hr ->. right. split; [done|]. right. destruct (decide (type = CATEGORY_UDID)) as [Ht|Ht].
  - right. intros ? [= <-]. apply Hr. by left.
  - destruct (iterMem e) eqn:Ei; [|by left]. right. intros ? [= <-]. apply Hr. by right.
Qed.

(** A write of a field through a pointer that was found. *)
Lemma setById_ok e id type f b l : ledgerOk b l -> (forall k n, nodeOk k n -> nodeOk k (f n).1) ->
  exists r l', setById e id type f l = Some (r, l') /\ ledgerOk b l' /\ exists g',
    stateOf l' = MkState g' (view (connectionCode l)) (dlStatus l =? DL_INIT_SUCCESS) /\
    written e id type (fun n => (f n).1) (view (udidMap l)) g'.
Proof.
  intros Hok Hf. assert (forall r : Z, written e id type (fun n => (f n).1) (view (udidMap l)) (view (udidMap l)) ->
    exists r' l', Some (r, l) = Some (r', l') /\ ledgerOk b l' /\ exists g',
    stateOf l' = MkState g' (view (connectionCode l)) (dlStatus l =? DL_INIT_SUCCESS) /\
    written e id type (fun n => (f n).1) (view (udidMap l)) g') as Hsame.
  { intros r Hw. exists r, l. split_and!; [done|done|]. by eexists. }
  unfold setById. destruct (lock e) eqn:El; [|apply Hsame; right; auto]. destruct id as [t|]; [|apply Hsame; right; naive_solver]. cbn [negb].
  destruct (byId_spec e b l t type Hok) as (r & -> & Hr). cbn [mbind option_bind].
  destruct r as [[p n]|]; [|apply Hsame; by eapply written_none]. destruct Hr as (k & -> & Hk & Hid). clear Hsame.
  assert (nodeOk k (f n).1) as Hn by (apply Hf; destruct Hok; auto). destruct (f n) as [n' r] eqn:Efn. cbn [fst] in Hn.
  destruct (writeNode_spec b l k n n') as (l' & -> & Hl' & Hst); [done..|]. cbn [mbind option_bind].
  eexists _, l'. split_and!; [done|done|]. eexists. split; [done|]. left. exists k, n, t.
  split_and!; [done|done|done|done|by rewrite Efn].
Qed.

Lemma name_ok e udid name b l : ledgerOk b l ->
  exists r l', exec (OName e udid name) l = Some (r, l') /\ ledgerOk b l' /\ SpecStep (OName e udid name) (stateOf l) r (stateOf l').
Proof.
  intros Hok. assert (forall x : bool, (forall t, name = Some t -> len t < DEVICE_NAME_BUF_LEN ->
      written e udid CATEGORY_UDID (named t) (view (udidMap l)) (view (udidMap l))) ->
    exists r l', ('(_, l') ← Some (x, l); Some (REPORT_NONE, l')) = Some (r, l') /\ ledgerOk b l' /\
    SpecStep (OName e udid name) (stateOf l) r (stateOf l')) as Hsame.
  { intros x Hw. eexists _, l. split_and!; [done|done|]. constructor. destruct name as [t|]; [|done]. destruct (Z.ltb_spec (len t) DEVICE_NAME_BUF_LEN); auto. }
  unfold exec, LnnSetDLDeviceInfoName. destruct udid as [k|]; [|apply Hsame; right; naive_solver]. destruct name as [t|]; [|by apply Hsame].
  destruct (lock e) eqn:El; [|apply Hsame; right; auto]. cbn [negb]. rewrite (fromMap_spec b) by done. cbn [mbind option_bind].
  destruct (view (udidMap l) !! k) as [n|] eqn:Ek.
  2:{ apply Hsame. intros t' [= <-] _. right. split; [done|]. do 2 right. intros t' [= <-] k' n' Hk' ->. congruence. }
  cbn [fmap option_fmap option_map]. assert (nodeOk k n) as Hn by (destruct Hok; auto).
  assert (forall v, v = named t n -> written e (Some k) CATEGORY_UDID (named t) (view (udidMap l)) (<[k := v]> (view (udidMap l)))) as Hw.
  { intros v ->. left. by exists k, n, k. }
  case_bool_decide as En.
  { apply Hsame. intros ? [= <-] _. rewrite <- (insert_id _ k n Ek) at 2. apply Hw. unfold named. rewrite <- En. by destruct n as [???????????????[] ????????]. }
  clear Hsame. unfold LnnSetDeviceName, copyText. destruct (Z.ltb_spec (DEVICE_NAME_BUF_LEN - 1) (len t)).
  - destruct (writeNode_spec b l k n n) as (l' & E & Hl' & Hst); [done..|].
    replace (setDevice (default (deviceInfo n) (Some (deviceInfo n))) n) with n by (by destruct n).
    rewrite E. cbn [mbind option_bind]. eexists _, l'. split_and!; [done|done|]. rewrite Hst. constructor.
    rewrite (proj2 (Z.ltb_ge _ _)) by lia. by apply insert_id.
  - rewrite (proj2 (Z.ltb_lt _ _)) by lia. cbn [default].
    destruct (writeNode_spec b l k n (named t n)) as (l' & E & Hl' & Hst); [done|done|apply nodeOk_named; [done|lia]|].
    change (setDevice (id (MkDevice t (deviceUdid (deviceInfo n)) (deviceTypeId (deviceInfo n)))) n) with (named t n).
    rewrite E. cbn [mbind option_bind]. eexists _, l'. split_and!; [done|done|]. rewrite Hst. constructor.
    rewrite (proj2 (Z.ltb_lt _ _)) by lia. by apply Hw.
Qed.

Lemma p2p_ok e id info b l : ledgerOk b l ->
  exists r l', exec (OP2p e id info) l = Some (r, l') /\ ledgerOk b l' /\ SpecStep (OP2p e id info) (stateOf l) r (stateOf l').
Proof.
  intros Hok. assert (forall x : bool, (forall i, info = Some i ->
      written e id CATEGORY_NETWORK_ID (fun n => setP2p (p2pGiven i (p2pInfo n)) n) (view (udidMap l)) (view (udidMap l))) ->
    exists r l', ('(_, l') ← Some (x, l); Some (REPORT_NONE, l')) = Some (r, l') /\ ledgerOk b l' /\
    SpecStep (OP2p e id info) (stateOf l) r (stateOf l')) as Hsame.
  { intros x Hw. eexists _, l. split_and!; [done|done|]. constructor. destruct info; auto. }
  unfold exec, LnnSetDLP2pInfo. destruct id as [t|]; [|apply Hsame; right; naive_solver]. destruct info as [i|]; [|by apply Hsame].
  destruct (lock e) eqn:El; [|apply Hsame; right; auto]. cbn [negb].
  destruct (byId_spec e b l t CATEGORY_NETWORK_ID Hok) as (r & -> & Hr). cbn [mbind option_bind].
  destruct r as [[p n]|]; [|apply Hsame; intros ? _; by eapply written_none]. destruct Hr as (k & -> & Hk & Hid). clear Hsame.
  assert (forall q (x : bool), q = p2pGiven i (p2pInfo n) ->
    exists r l', ('(_, l') ← (l1 ← writeNode (MkPtr InUdid k) (setP2p q n) l; Some (x, l1)); Some (REPORT_NONE, l')) = Some (r, l') /\
      ledgerOk b l' /\ SpecStep (OP2p e (Some t) (Some i)) (stateOf l) r (stateOf l')) as Hwrite.
  { intros q x ->. destruct (writeNode_spec b l k n (setP2p (p2pGiven i (p2pInfo n)) n)) as (l' & -> & Hl' & Hst); [done|done| |].
    { apply nodeOk_p2p. destruct Hok; auto. }
    cbn [mbind option_bind]. eexists _, l'. split_and!; [done|done|]. rewrite Hst.
    constructor. left. by exists k, n, t. }
  unfold p2pGiven, kept in Hwrite. unfold LnnSetP2pRole, LnnSetP2pMac, LnnSetP2pGoMac, copyText.
  destruct (len (p2pMac i) <? MAC_LEN); cbn [negb Z.eqb default].
  - destruct (len (goMac i) <? MAC_LEN).
    + by apply (Hwrite (MkP2p (p2pRole i) (p2pMac i) (goMac i)) true).
    + by apply (Hwrite (MkP2p (p2pRole i) (p2pMac i) []) false).
  - by apply (Hwrite (MkP2p (p2pRole i) [] (goMac (p2pInfo n))) false).
Qed.

Lemma lane_ok e i num b l : ledgerOk b l -> b < 2 ^ 31 - 1 -> -1 <= num <= 1 ->
  exists r l', exec (OLane e i num) l = Some (r, l') /\ ledgerOk (b + 1) l' /\ SpecStep (OLane e i num) (stateOf l) r (stateOf l').
Proof.
  intros Hok Hb Hn. assert (ledgerOk (b + 1) l) as Hok1 by (apply (ledgerOk_mono b); [done|lia]).
  assert (forall x : Z, exists r l', ('(_, l') ← Some (x, l); Some (REPORT_NONE, l')) = Some (r, l') /\ ledgerOk (b + 1) l' /\
    SpecStep (OLane e i num) (stateOf l) r (stateOf l')) as Hsame.
  { intros x. eexists _, l. split_and!; [done|done|]. by constructor. }
  unfold exec, LnnSetLaneCount. destruct (Z.ltb_spec i 0); [apply Hsame|].
  destruct (Z.leb_spec LNN_LINK_TYPE_BUTT i); [apply Hsame|]. destruct (lock e); [|apply Hsame]. cbn [negb orb].
  destruct Hok as [_ _ _ _ _ [Hl Hlanes] _ _]. destruct (lookup_lt_is_Some_2 (laneCount l) (Z.to_nat i)) as [c Hc]; [lia|].
  rewrite Hc. cbn [mbind option_bind]. assert (0 <= c <= b) as Hcb by (rewrite Forall_lookup in Hlanes; eauto).
  rewrite (proj2 (Z.ltb_ge _ _)), (proj2 (Z.leb_gt _ _)) by range. cbn [orb mbind option_bind].
  eexists _, _. split_and!; [done| |by constructor]. destruct Hok1. constructor; cbn; try done.
  rewrite length_insert. split; [done|]. apply Forall_insert; [tauto|]. destruct (Z.ltb_spec (c + num) 0); lia.
Qed.

(** ** Reading by key *)

Lemma put_one b j x : 0 <= j < len b -> exists b', put b j [x] = Some b' /\ len b' = len b /\ b' !! Z.to_nat j = Some x.
Proof.
  intros Hj. destruct (lookup_lt_is_Some_2 b (Z.to_nat j)) as [y Hy]; [unfold len in *; lia|].
  pose proof (take_drop_middle b (Z.to_nat j) y Hy) as Hb. set (p := take (Z.to_nat j) b) in *.
  assert (length p = Z.to_nat j) as Hp by (unfold p; rewrite length_take; unfold len in *; lia).
  exists (p ++ [x] ++ drop (S (Z.to_nat j)) b). split_and!.
  - rewrite <- Hb at 1. apply (put_at p [y]); unfold len; [lia|done].
  - rewrite <- Hb at 2. unfold len. rewrite !length_app. cbn [length]. done.
  - rewrite <- Hp. by rewrite lookup_app_r, Nat.sub_diag by lia.
Qed.

Lemma hexLoop_ok ds : forall id j buf, 0 <= j -> j + Z.of_nat (length ds) < len buf ->
  exists j' buf', hexLoop ds id j buf = Some (j', buf') /\ 0 <= j' < len buf /\ len buf' = len buf.
Proof.
  induction ds as [|i ds IH]; intros id j buf Hj Hl; cbn [hexLoop length] in *; [exists j, buf; split_and!; try done; lia|].
  destruct (_ && _); [apply IH; lia|].
  assert (forall x, exists j' buf', (b' ← put buf j [x]; hexLoop ds id (j + 1) b') = Some (j', buf') /\ 0 <= j' < len buf /\ len buf' = len buf) as H.
  { intros x. destruct (put_one buf j x) as (b1 & -> & Hb1 & _); [lia|]. cbn [mbind option_bind]. rewrite <- Hb1. apply IH; lia. }
  destruct (_ <? _); apply H.
Qed.

Lemma typeName_ok id buf : len buf = 4 -> exists p buf', LnnConvertIdToDeviceType id buf = Some (p, buf') /\ len buf' = 4 /\
  forall q, p = Some q -> exists t, textAt q buf' = Some t.
Proof.
  intros Hl. unfold LnnConvertIdToDeviceType. destruct (List.find _ _) as [x|].
  { eexists _, buf. split_and!; [done|done|]. intros q [= <-]. by eexists. }
  destruct (_ && _); [|by exists None, buf].
  destruct (hexLoop_ok [2; 1; 0] id 0 buf) as (j & b1 & E & Hj & Hb1); [lia|rewrite Hl; cbn; lia|].
  destruct (put_one b1 j 0) as (b2 & E2 & Hb2 & H0); [lia|]. unfold ConvertIntToHexString.
  rewrite E. cbn [mbind option_bind]. rewrite E2. cbn [mbind option_bind]. eexists _, b2. split_and!; [done|congruence|].
  intros q [= <-]. apply cstr_total. eauto.
Qed.

(** A getter always returns, and changes the static buffer at most. *)
Definition getterOk (g : Getter) : Prop := forall e id n b l, ledgerOk b l ->
  exists r o buf, g e id true n l = Some (r, o, setTypeBuf buf l) /\ len buf = 4.

Lemma same_buf l : setTypeBuf (typeBuf l) l = l.
Proof. by destruct l. Qed.

Lemma withNode_ok e id b l k : ledgerOk b l ->
  (forall t n, nodeOk t n -> exists r o buf, k n = Some (r, o, setTypeBuf buf l) /\ len buf = 4) ->
  exists r o buf, withNode e id true l k = Some (r, o, setTypeBuf buf l) /\ len buf = 4.
Proof.
  intros Hok Hk. assert (forall r : Z, exists r' o buf, Some (r, @None Out, l) = Some (r', o, setTypeBuf buf l) /\ len buf = 4) as Hsame.
  { intros r. exists r, None, (typeBuf l). rewrite same_buf. by destruct Hok. }
  unfold withNode. destruct id as [t|]; [|apply Hsame]. cbn [negb].
  destruct (byId_spec e b l t CATEGORY_NETWORK_ID Hok) as (r & -> & Hr). cbn [mbind option_bind].
  destruct r as [[p n]|]; [|apply Hsame]. destruct Hr as (u & _ & Hu & _). apply (Hk u). destruct Hok; auto.
Qed.

Lemma copyField_buf n t l buf : len buf = 4 ->
  exists r o buf', copyField n t (setTypeBuf buf l) = Some (r, o, setTypeBuf buf' l) /\ len buf' = 4.
Proof. intros Hb. unfold copyField. destruct (copyOut n t) as [ok out]. by eexists _, _, buf. Qed.

Lemma copyField_ok b n t l : ledgerOk b l -> exists r o buf, copyField n t l = Some (r, o, setTypeBuf buf l) /\ len buf = 4.
Proof. intros []. pose proof (copyField_buf n t l (typeBuf l)) as H. rewrite same_buf in H. auto. Qed.

Lemma same_ok b l (r : Z) (o : option Out) : ledgerOk b l -> exists r' o' buf, Some (r, o, l) = Some (r', o', setTypeBuf buf l) /\ len buf = 4.
Proof. intros []. exists r, o, (typeBuf l). by rewrite same_buf. Qed.

Lemma textField_ok field : getterOk (textField field).
Proof.
  intros e id n b l Hok. apply (withNode_ok e id b); [done|]. intros t info _. apply (copyField_ok b n _ l Hok).
Qed.

Lemma onlineField_ok field : getterOk (onlineField field).
Proof.
  intros e id n b l Hok. apply (withNode_ok e id b); [done|]. intros t info _.
  destruct (negb _); [by apply (same_ok b)|]. apply (copyField_ok b n _ l Hok).
Qed.

Lemma numField_ok o field : getterOk (numField o field).
Proof.
  intros e id n b l Hok. unfold numField. destruct (negb (n =? _)); [by apply (same_ok b)|].
  apply (withNode_ok e id b); [done|]. intros t info _. destruct (_ && _); by apply (same_ok b).
Qed.

Lemma deviceType_ok : getterOk DlGetDeviceType.
Proof.
  intros e id n b l Hok. apply (withNode_ok e id b); [done|]. intros t info Hn.
  destruct (typeName_ok (deviceTypeId (deviceInfo info)) (typeBuf l)) as (p & buf & -> & Hb & Hp); [by destruct Hok|].
  cbn [mbind option_bind]. destruct p as [q|]; [|by eexists _, _, buf].
  destruct (Hp q eq_refl) as [t' ->]. cbn [mbind option_bind]. by apply copyField_buf.
Qed.

#[local] Hint Resolve textField_ok onlineField_ok numField_ok deviceType_ok : getters.

Lemma table_ok : Forall (fun x => getterOk x.2) g_dlKeyTable.
Proof. repeat constructor; cbn [snd]; unfold DlGetNodeSoftBusVersion; auto with getters nocore; first [apply textField_ok|apply onlineField_ok|apply numField_ok]. Qed.

Lemma getByKey_ok e key id n b l : ledgerOk b l ->
  exists r o buf, getByKey e key id n l = Some (r, o, setTypeBuf buf l) /\ len buf = 4.
Proof.
  intros Hok. unfold getByKey. destruct (List.find _ g_dlKeyTable) as [x|] eqn:E; [|by apply (same_ok b)].
  apply find_some in E as [Hx%list_elem_of_In _]. pose proof table_ok as H. rewrite Forall_forall in H. by apply (H x Hx e id n b).
Qed.

Lemma setTypeBuf_ok b l buf : ledgerOk b l -> len buf = 4 -> ledgerOk b (setTypeBuf buf l).
Proof. intros [] Hb. by constructor. Qed.

Lemma read_ok e id k i n b l : ledgerOk b l ->
  (exists r o buf, LnnGetRemoteStrInfo e id k i n l = Some (r, o, setTypeBuf buf l) /\ len buf = 4) /\
  (exists r o buf, LnnGetRemoteNumInfo e id k i l = Some (r, o, setTypeBuf buf l) /\ len buf = 4).
Proof.
  intros Hok. unfold LnnGetRemoteStrInfo, LnnGetRemoteNumInfo.
  split; repeat (case_match; [by apply (same_ok b)|]); by apply (getByKey_ok _ _ _ _ b).
Qed.

(** ** Refinement *)

Lemma init_ok m d b l : ledgerOk b l -> 0 <= b ->
  ledgerOk b (LnnInitDistributedLedger m d l).2 /\
  stateOf (LnnInitDistributedLedger m d l).2 = if sUp (stateOf l) then stateOf l else MkState ∅ ∅ (m && d).
Proof.
  intros Hok Hb. unfold LnnInitDistributedLedger, stateOf at 2. cbn [sUp].
  destruct (dlStatus l =? DL_INIT_SUCCESS) eqn:E; [done|]. pose proof Hok as [].
  assert (forall V (s : V -> Z), wf s (MkMap None 0 0)) as Hwf by (intros; apply wf_init).
  split; (destruct m; [destruct d|]); cbn; try (by unfold stateOf; cbn; rewrite ?E);
    constructor; cbn; try done; try lia; try (split; [done|]; by repeat constructor); by repeat (constructor; try lia).
Qed.

Lemma deleteMap_empty {V} (s : V -> Z) m : wf s m -> wf s (deleteMap m) /\ view (deleteMap m) = ∅ /\ nodeSize (deleteMap m) = 0.
Proof.
  intros Hwf. unfold deleteMap, LnnMapDelete. destruct (nodes m) as [bs|] eqn:E; cbn [default id].
  - split_and!; [apply wf_init|done|done].
  - assert (view m = ∅) as Hv by (unfold view, allNodes; by rewrite E).
    split_and!; [done|done|]. rewrite (nodeSize_view s) by done. by rewrite Hv.
Qed.

Lemma deinit_ok e b l : ledgerOk b l -> 0 <= b ->
  ledgerOk b (LnnDeinitDistributedLedger e l) /\
  stateOf (LnnDeinitDistributedLedger e l) = if lock e then MkState ∅ ∅ false else stateOf l.
Proof.
  intros Hok Hb. unfold LnnDeinitDistributedLedger. destruct (lock e); [|done]. destruct Hok. cbn [negb].
  destruct (deleteMap_empty nodeBytes (udidMap l)) as (? & Hu & Hus); [done|].
  destruct (deleteMap_empty codeBytes (connectionCode l)) as (? & Hc & Hcs); [done|].
  destruct (deleteMap_empty nodeBytes (ipMap l)) as (? & ? & ?); [tauto|].
  destruct (deleteMap_empty nodeBytes (macMap l)) as (? & ? & ?); [tauto|].
  split; [|unfold stateOf; cbn [udidMap connectionCode dlStatus]; by rewrite Hu, Hc].
  constructor; cbn [udidMap ipMap macMap connectionCode laneCount dlStatus typeBuf]; try done; [by rewrite Hu|lia].
Qed.

Lemma remove_ok e udid b l : ledgerOk b l ->
  exists r l', exec (ORemove e udid) l = Some (r, l') /\ ledgerOk b l' /\ SpecStep (ORemove e udid) (stateOf l) r (stateOf l').
Proof.
  intros Hok. unfold exec, LnnRemoveNode. destruct udid as [k|]; [|eexists _, l; split_and!; [done|done|constructor; by right]].
  destruct (lock e) eqn:El; [|eexists _, l; split_and!; [done|done|constructor; by left]]. destruct Hok. cbn [negb].
  destruct (mapGetErase_spec nodeBytes (udidMap l) k) as (_ & r & m & -> & Hwf & Hv & Hs); [done|].
  cbn [mbind option_bind default]. change (id m) with m. eexists _, _. split_and!; [done| |].
  - constructor; cbn; try done; [rewrite Hv; by apply map_Forall_delete|]. split; [|lia].
    destruct (view (udidMap l) !! k); destruct Hs as [_ Hs]; subst; lia.
  - unfold stateOf. cbn. rewrite Hv. by apply SRemove.
Qed.

(** Every call returns, keeps the ledger in order and does what the
    specification allows. *)
Lemma exec_ok op b l : ledgerOk b l -> opOk op -> 0 <= b < 2 ^ 31 - 1 ->
  exists r l', exec op l = Some (r, l') /\ ledgerOk (b + 2) l' /\ SpecStep op (stateOf l) r (stateOf l').
Proof.
  intros Hok Hop Hb.
  assert (forall b', b <= b' <= b + 2 -> (exists r l', exec op l = Some (r, l') /\ ledgerOk b' l' /\ SpecStep op (stateOf l) r (stateOf l')) ->
    exists r l', exec op l = Some (r, l') /\ ledgerOk (b + 2) l' /\ SpecStep op (stateOf l) r (stateOf l')) as Hmono.
  { intros b' Hb' (r & l' & ? & Hl' & ?). exists r, l'. split_and!; [done|apply (ledgerOk_mono b'); [done|lia]|done]. }
  assert (forall e id type f, (forall k n, nodeOk k n -> nodeOk k (f n).1) ->
    (forall g', written e id type (fun n => (f n).1) (view (udidMap l)) g' -> SpecStep op (stateOf l) REPORT_NONE
       (MkState g' (view (connectionCode l)) (dlStatus l =? DL_INIT_SUCCESS))) ->
    exec op l = ('(_, l') ← setById e id type f l; Some (REPORT_NONE, l')) ->
    exists r l', exec op l = Some (r, l') /\ ledgerOk b l' /\ SpecStep op (stateOf l) r (stateOf l')) as Hset.
  { intros e id type f Hf Hstep ->. destruct (setById_ok e id type f b l Hok Hf) as (r & l' & -> & Hl' & g' & Hst & Hw).
    cbn [mbind option_bind]. eexists _, l'. split_and!; [done|done|]. rewrite Hst. by apply Hstep. }
  destruct op; cbn [opOk] in Hop.
  - apply (Hmono b); [lia|]. destruct (init_ok mutexOk dumpOk b l) as [? Hst]; [done|lia|].
    eexists _, _. split_and!; [done|done|]. rewrite Hst. constructor.
  - apply (Hmono b); [lia|]. destruct (deinit_ok e b l) as [? Hst]; [done|lia|].
    eexists _, _. split_and!; [done|done|]. rewrite Hst. constructor.
  - apply add_ok; [done|lia|done].
  - by apply (Hmono b); [lia|]; apply offline_ok.
  - by apply (Hmono b); [lia|]; apply remove_ok.
  - by apply (Hmono b); [lia|]; apply name_ok.
  - by apply (Hmono b); [lia|]; apply p2p_ok.
  - apply (Hmono b); [lia|]. eapply Hset; [| |reflexivity]; [by intros; apply nodeOk_misc|]. intros g' Hw. by constructor.
  - apply (Hmono b); [lia|]. eapply Hset; [| |reflexivity]; [by intros; apply nodeOk_misc|]. intros g' Hw. by constructor.
  - apply (Hmono b); [lia|]. unfold exec, LnnSetDLNodeAddr in *. eapply Hset; [| |reflexivity].
    + intros k n Hn. destruct (copyText _ _). by apply nodeOk_misc.
    + intros g' Hw. constructor. unfold copyText in Hw. unfold kept. by destruct (len addr <? SHORT_ADDRESS_MAX_LEN).
  - apply (Hmono (b + 1)); [lia|]. apply lane_ok; [done|lia|done].
  - apply (Hmono b); [lia|]. destruct (read_ok e id which info n b l Hok) as [(r & o & buf & E & Hbuf) _].
    cbn [exec]. rewrite E. cbn [mbind option_bind]. eexists _, _. split_and!; [done|by apply setTypeBuf_ok|]. by constructor.
  - apply (Hmono b); [lia|]. destruct (read_ok e id which info 0 b l Hok) as [_ (r & o & buf & E & Hbuf)].
    cbn [exec]. rewrite E. cbn [mbind option_bind]. eexists _, _. split_and!; [done|by apply setTypeBuf_ok|]. by constructor.
Qed.

Lemma execAll_ok ops : forall b l, ledgerOk b l -> Forall opOk ops -> 0 <= b -> b + 2 * Z.of_nat (length ops) < 2 ^ 31 - 1 ->
  exists rs l', execAll ops l = Some (rs, l') /\ ledgerOk (b + 2 * Z.of_nat (length ops)) l' /\ SpecRun ops (stateOf l) rs (stateOf l').
Proof.
  induction ops as [|op ops IH]; intros b l Hok Hops Hb Hlen; cbn [execAll length] in *.
  - eexists [], l. split_and!; [done|by replace (b + _) with b by lia|constructor].
  - inversion_clear Hops as [|? ? Hop Hrest]. destruct (exec_ok op b l) as (r & l1 & -> & Hok1 & Hstep); [done|done|lia|].
    cbn [mbind option_bind]. destruct (IH (b + 2) l1) as (rs & l2 & -> & Hok2 & Hrun); [done|done|lia|lia|].
    cbn [mbind option_bind]. eexists (r :: rs), l2. split_and!; [done|by replace (b + _) with (b + 2 + 2 * Z.of_nat (length ops)) by lia|].
    by econstructor.
Qed.

Lemma ledger0_ok : ledgerOk 0 ledger0.
Proof.
  assert (forall V (s : V -> Z), wf s (MkMap None 0 0)) as Hwf by (intros; apply wf_init).
  constructor; cbn; try done. split; [done|]. repeat constructor; lia.
Qed.

Lemma ledger_run ops : Forall opOk ops -> Z.of_nat (length ops) < 2 ^ 30 - 1 ->
  exists rs l, execAll ops ledger0 = Some (rs, l) /\ ledgerOk (2 * Z.of_nat (length ops)) l /\ SpecRun ops (MkState ∅ ∅ false) rs (stateOf l).
Proof. intros Hops Hlen. apply (execAll_ok ops 0 ledger0 ledger0_ok Hops); [lia|range]. Qed.

(** C9: take any sequence of calls whose arguments are as [opOk] says: the
    texts of an added node fit their arrays and it was discovered in some
    way, address types are in range, lanes are counted one by one, and the
    first insertion into an empty map finds memory for its buckets (without
    it [LnnMapSet] writes through NULL, [LnnMapSet_first_insert_oom]).  With
    the lock and the memory for keys, nodes and iterators refused at any
    point, every call returns; the ledger stays well formed, every node is
    kept under its own UDID with texts that fit and is online exactly when
    some way it was discovered is left; and the nodes, the connection codes
    and the reports are those of the specification on finite maps.  A setter
    writes its field to a node that has the id, unless no node has it, the
    lock is refused or there is no memory to search. *)
Theorem ledger_refines ops : Forall opOk ops -> Z.of_nat (length ops) < 2 ^ 30 - 1 ->
  exists rs l, execAll ops ledger0 = Some (rs, l) /\
    ledgerOk (2 * Z.of_nat (length ops)) l /\
    SpecRun ops (MkState ∅ ∅ false) rs (stateOf l).
Proof. apply ledger_run. Qed.

(** ** Reports *)

(** What one who hears the reports knows: whether the ledger is started, and
    whether the node is online. *)
Definition hear (udid : text) (s : bool * bool) (x : Op * Z) : bool * bool :=
  match x.1 with
  | OInit m d => if s.1 then s else (m && d, false)
  | ODeinit e => if lock e then (false, false) else s
  | OAdd _ info => (s.1, if bool_decide (deviceUdid (deviceInfo info) = udid) && (x.2 =? REPORT_ONLINE) then true else s.2)
  | OOffline _ u _ _ => (s.1, if bool_decide (u = Some udid) && (x.2 =? REPORT_OFFLINE) then false else s.2)
  | ORemove e u => (s.1, if bool_decide (u = Some udid) && lock e then false else s.2)
  | _ => s
  end.

Definition heardOnline (udid : text) (ops : list Op) (rs : list Z) : bool := (foldl (hear udid) (false, false) (zip ops rs)).2.

(** There is memory for new nodes. *)
Definition memOk (op : Op) : Prop := match op with OAdd e _ => nodeNode e = true | _ => True end.

Definition onlineIn (g : Nodes) (k : text) : bool := match g !! k with Some n => status n =? STATUS_ONLINE | None => false end.

Lemma online_insert g k n udid : onlineIn (<[k := n]> g) udid = if bool_decide (k = udid) then status n =? STATUS_ONLINE else onlineIn g udid.
Proof. unfold onlineIn. case_bool_decide; [subst; by rewrite lookup_insert_eq|by rewrite lookup_insert_ne]. Qed.

Lemma online_written e id type f g g' udid : (forall n, status (f n) = status n) -> written e id type f g g' -> onlineIn g' udid = onlineIn g udid.
Proof.
  intros Hf [(k & n & t & _ & _ & Hk & _ & ->) | [-> _]]; [|done]. rewrite online_insert, Hf. case_bool_decide; [|done].
  subst. unfold onlineIn. by rewrite Hk.
Qed.

Lemma specLeave_status type a n : (specLeave type a n = (REPORT_OFFLINE, (specLeave type a n).2) /\ status (specLeave type a n).2 = STATUS_OFFLINE) \/
  ((specLeave type a n).1 = REPORT_NONE /\ status (specLeave type a n).2 = status n).
Proof.
  assert (status (leave type n) = status n) as Hst by (unfold leave; by case_match).
  unfold specLeave. destruct (_ && _); [by right|]. destruct (_ =? 0); [by left|by right].
Qed.

Lemma specMerge_status g k info : (specMerge (g !! k) info).1 =? REPORT_ONLINE = negb (onlineIn g k) /\
  status (specMerge (g !! k) info).2 = STATUS_ONLINE.
Proof.
  unfold specMerge, onlineIn. destruct (g !! k) as [o|]; [|done]. destruct (status o =? STATUS_ONLINE); [|done].
  by case_bool_decide.
Qed.

Lemma hear_step udid op s r s' : SpecStep op s r s' -> memOk op ->
  (sUp s', onlineIn (sNodes s') udid) = hear udid (sUp s, onlineIn (sNodes s) udid) (op, r).
Proof.
  intros Hstep Hm. destruct Hstep; unfold hear; cbn [fst snd sUp sNodes memOk] in *.
  - by destruct s as [g c []].
  - by destruct (lock e).
  - destruct (specMerge_status g (deviceUdid (deviceInfo info)) info) as [Hr Hs]. subst x.
    unfold specInsert. rewrite Hm. cbn [orb]. rewrite online_insert, Hs, Hr. f_equal. case_bool_decide as E; [|done]. cbn [andb].
    rewrite E. by destruct (onlineIn g udid).
  - by rewrite andb_false_r.
  - subst x. rewrite online_insert. f_equal.
    destruct (specLeave_status type authId n) as [[-> ->]|[-> ->]]; cbn [fst snd]; case_bool_decide as E.
    + subst. by rewrite bool_decide_true.
    + rewrite bool_decide_false; [done|congruence].
    + subst. rewrite andb_false_r. unfold onlineIn. by rewrite H0.
    + by rewrite andb_false_r.
  - by rewrite andb_false_r.
  - rewrite H, andb_true_r. f_equal. unfold onlineIn. case_bool_decide as E; simplify_eq; [by rewrite lookup_delete_eq|].
    rewrite lookup_delete_ne; [done|congruence].
  - destruct H as [-> | ->]; [by rewrite andb_false_r|done].
  - f_equal. destruct name as [t|]; [|by subst]. destruct (_ <? _); [|by subst]. eapply online_written; [|eassumption]. done.
  - f_equal. destruct info as [i|]; [|by subst]. eapply online_written; [|eassumption]. done.
  - f_equal. eapply online_written; [|eassumption]. done.
  - f_equal. eapply online_written; [|eassumption]. done.
  - f_equal. eapply online_written; [|eassumption]. done.
  - by destruct op.
Qed.

Lemma hear_run udid ops s rs s' : SpecRun ops s rs s' -> Forall memOk ops ->
  (sUp s', onlineIn (sNodes s') udid) = foldl (hear udid) (sUp s, onlineIn (sNodes s) udid) (zip ops rs).
Proof.
  induction 1 as [|op ops s r s1 rs s2 Hstep Hrun IH]; intros Hm; [done|]. inversion_clear Hm as [|? ? Hop Hrest].
  cbn [zip foldl]. rewrite <- (hear_step udid op s r s1) by done. by apply IH.
Qed.

(** C11: one who hears the reports of [LnnAddOnlineNode] and
    [LnnSetNodeOffline], and of removals and the end of the ledger, knows
    which nodes are online: after any sequence of calls in which memory for
    new nodes is found, [LnnGetOnlineStateById] answers what the last report
    on the node said. *)
Theorem ledger_reports ops rs l e udid :
  Forall opOk ops -> Forall memOk ops -> Z.of_nat (length ops) < 2 ^ 30 - 1 -> execAll ops ledger0 = Some (rs, l) ->
  lock e = true -> len udid < ID_MAX_LEN ->
  LnnGetOnlineStateById e (Some udid) CATEGORY_UDID l = Some (heardOnline udid ops rs).
Proof.
  intros Hops Hm Hlen Hrun He Hid. destruct (ledger_run ops Hops Hlen) as (rs' & l' & E & Hok & Hspec). simplify_eq.
  pose proof (hear_run udid ops _ _ _ Hspec Hm) as Hh. unfold heardOnline. cbn [sUp sNodes] in Hh.
  change (onlineIn ∅ udid) with false in Hh. rewrite <- Hh. cbn [snd].
  unfold LnnGetOnlineStateById, validId. rewrite (proj2 (Z.ltb_lt _ _)), He by done. cbn [negb].
  unfold LnnGetNodeInfoById. rewrite Z.eqb_refl, (fromMap_spec _ _ _ Hok). cbn [mbind option_bind].
  unfold onlineIn, stateOf. cbn [sNodes]. by destruct (view (udidMap l) !! udid).
Qed.

(** ** Ids *)

Lemma copyOut_fits n t : len t < n -> n <= SECUREC_STRING_MAX_LEN -> copyOut n t = (true, Some t).
Proof.
  intros Ht Hn. unfold copyOut, copyText. assert (0 <= len t) by (unfold len; lia).
  rewrite (proj2 (Z.leb_gt _ _)), (proj2 (Z.ltb_ge _ _)), (proj2 (Z.ltb_lt _ _)) by lia. done.
Qed.

(** After any sequence of calls, the UDID of a node the ledger has is
    converted to its network id, and, when no other node has the same network
    id, that id back to the UDID. *)
Theorem ledger_convert ops rs l e k n :
  Forall opOk ops -> Z.of_nat (length ops) < 2 ^ 30 - 1 -> execAll ops ledger0 = Some (rs, l) ->
  lock e = true -> iterMem e = true -> view (udidMap l) !! k = Some n ->
  (forall k' n', view (udidMap l) !! k' = Some n' -> networkId n' = networkId n -> k' = k) ->
  LnnConvertDlId e (Some k) CATEGORY_UDID CATEGORY_NETWORK_ID true NETWORK_ID_BUF_LEN l = Some (SOFTBUS_OK, Some (networkId n)) /\
  LnnConvertDlId e (Some (networkId n)) CATEGORY_NETWORK_ID CATEGORY_UDID true UDID_BUF_LEN l = Some (SOFTBUS_OK, Some k).
Proof.
  intros Hops Hlen Hrun He Hit Hk Hu. destruct (ledger_run ops Hops Hlen) as (rs' & l' & E & Hok & _). simplify_eq.
  assert (nodeOk k n) as Hn by (destruct Hok; auto). unfold LnnConvertDlId. rewrite He. cbn [negb]. split.
  - unfold LnnGetNodeInfoById. rewrite Z.eqb_refl, (fromMap_spec _ _ _ Hok), Hk. cbn [mbind option_bind fmap option_fmap option_map].
    change (CATEGORY_NETWORK_ID =? CATEGORY_UDID) with false. unfold idOf. rewrite Z.eqb_refl. cbn iota.
    rewrite copyOut_fits; [done| |done]. by destruct Hn.
  - destruct (byId_spec e _ l (networkId n) CATEGORY_NETWORK_ID Hok) as (r & -> & Hr). cbn [mbind option_bind].
    destruct r as [[p n']|].
    + destruct Hr as (k' & _ & Hk' & Hid). unfold hasId, idOf in Hid. cbn in Hid. injection Hid as Hid.
      assert (k' = k) as -> by eauto. assert (n' = n) as -> by congruence. rewrite Z.eqb_refl.
      destruct Hn. rewrite n_udid0, copyOut_fits; done.
    + exfalso. by apply (Hr (or_intror Hit) k n Hk).
Qed.

(** ** The nodes that are online *)

Definition basicOf (n : NodeInfo) : NodeBasicInfo := MkBasic (networkId n) (deviceName (deviceInfo n)) (deviceTypeId (deviceInfo n)).

Abbreviation online := (fun n : NodeInfo => status n = STATUS_ONLINE).

Lemma convert_basic k n g : nodeOk k n -> ConvertNodeInfoToBasicInfo (Some n) g = (SOFTBUS_OK, basicOf n).
Proof. intros []. unfold ConvertNodeInfoToBasicInfo, copyText. rewrite !(proj2 (Z.ltb_lt _ _)) by done. done. Qed.

Lemma count_loop xs : forall c, listLoop (fun _ => false) (fun c (x : MapNode NodeInfo) => if LnnIsNodeOnline (Some (value x)) then c + 1 else c) xs c =
  c + Z.of_nat (length (filter online (value <$> xs))).
Proof.
  induction xs as [|x xs IH]; intros c; cbn [listLoop fmap list_fmap]; [cbn; lia|]. rewrite IH, filter_cons. cbn [LnnIsNodeOnline].
  destruct (Z.eqb_spec (status (value x)) STATUS_ONLINE); case_decide; try done; cbn [length]; lia.
Qed.

Lemma fill_loop g num xs : (forall x, x ∈ xs -> exists k, nodeOk k (value x)) -> forall cells : list NodeBasicInfo,
  Z.of_nat (length cells) + Z.of_nat (length (filter online (value <$> xs))) = num ->
  listLoop (fun cells => num <=? Z.of_nat (length cells))
    (fun cells x => if LnnIsNodeOnline (Some (value x)) then cells ++ [(ConvertNodeInfoToBasicInfo (Some (value x)) g).2] else cells)
    xs cells = cells ++ (basicOf <$> filter online (value <$> xs)).
Proof.
  intros Hxs. induction xs as [|x xs IH]; intros cells Hnum; cbn [listLoop fmap list_fmap]; [by rewrite app_nil_r|].
  destruct (Z.leb_spec num (Z.of_nat (length cells))).
  { assert (length (filter online (value <$> x :: xs)) = 0)%nat as H0%nil_length_inv by lia.
    cbn [fmap list_fmap] in H0. rewrite H0. by rewrite app_nil_r. }
  destruct (Hxs x ltac:(by left)) as [k Hk]. rewrite (convert_basic k) by done. cbn [snd LnnIsNodeOnline].
  cbn [fmap list_fmap] in Hnum. rewrite filter_cons in Hnum |- *.
  assert (forall y, y ∈ xs -> exists k, nodeOk k (value y)) as Hxs' by (intros; apply Hxs; by right).
  destruct (Z.eqb_spec (status (value x)) STATUS_ONLINE); case_decide; try done.
  - rewrite IH; [|done|rewrite length_app; cbn [length] in *; lia]. cbn [fmap list_fmap]. by rewrite <- app_assoc.
  - by apply IH.
Qed.

(** C33: after any sequence of calls, [LnnGetAllOnlineNodeInfo] returns the
    nodes that are online, each once, with their network ids, names and
    types, and their number; there is no array when there is none. *)
Theorem ledger_online_nodes ops rs l e garbage :
  Forall opOk ops -> Z.of_nat (length ops) <= 2 ^ 20 -> execAll ops ledger0 = Some (rs, l) ->
  lock e = true -> iterMem e = true -> iterMem2 e = true -> arrayMem e = true ->
  exists cells, cells ≡ₚ basicOf <$> filter online (map_to_list (view (udidMap l))).*2 /\
    LnnGetAllOnlineNodeInfo e garbage l =
      Some (SOFTBUS_OK, Some (Z.of_nat (length cells)), if bool_decide (cells = []) then None else Some cells).
Proof.
  intros Hops Hlen Hrun He H1 H2 H3. destruct (ledger_run ops Hops ltac:(range)) as (rs' & l' & E & Hok & _). simplify_eq.
  set (xs := allNodes (udidMap l)). set (cells := basicOf <$> filter online (value <$> xs)). exists cells.
  assert (wf nodeBytes (udidMap l)) as Hwf by (by destruct Hok).
  split.
  { unfold cells. rewrite (view_entries nodeBytes) by done. by rewrite <- list_fmap_compose. }
  unfold LnnGetAllOnlineNodeInfo, GetDLOnlineNodeNumLocked, FillDLOnlineNodeInfoLocked, loopNodes. rewrite He, H1, H2, H3. cbn [negb].
  change (LnnMapInitIterator true (Some (udidMap l))) with (Some (MkIter (V := NodeInfo) [] 0 0)). cbn iota.
  rewrite !(mapLoop_spec nodeBytes) by done. fold xs. cbn [mbind option_bind]. rewrite count_loop.
  assert (length (filter online (value <$> xs)) = length cells) as Hc by (unfold cells; by rewrite length_fmap). rewrite Hc.
  cbn [negb Z.eqb default id]. rewrite Z.add_0_l. destruct (Z.eqb_spec (Z.of_nat (length cells)) 0) as [H0|H0].
  { rewrite bool_decide_true; [done|]. apply nil_length_inv. lia. }
  rewrite bool_decide_false by (intros H; rewrite H in H0; done).
  assert (Z.of_nat (length cells) <= 2 ^ 21) as Hsz.
  { rewrite <- Hc. pose proof (length_filter online (value <$> xs)) as Hf. rewrite length_fmap in Hf.
    destruct Hok as [_ _ _ _ _ _ _ [Hs _]]. destruct Hwf as (_ & Hsize & _). fold xs in Hsize. lia. }
  unfold Adapter.Mem.SoftBusMalloc, SIZEOF_NodeBasicInfo. rewrite (proj2 (Z.ltb_ge _ _)) by (unfold Adapter.Mem.MAX_MALLOC_SIZE; cint).
  rewrite Z.eqb_refl. cbn [negb]. rewrite (mapLoop_spec nodeBytes) by done. fold xs. cbn [mbind option_bind]. rewrite Z.eqb_refl. cbn [negb].
  rewrite fill_loop; [done| |cbn [length]; lia].
  intros x Hx. exists (key x). destruct Hok as [Hw]. apply l_nodeOk0. apply (view_node (2 * Z.of_nat (length ops))); [by constructor|done].
Qed.

(** ** Runs *)

Definition envFull : Env := MkEnv true true true true true true true true true.

(** A node with a UDID, a network id, ways it was discovered, users of the
    media and channels of authentication. *)
Definition sampleNode (udid net : text) (d : Z) (rel auth : list Z) : NodeInfo :=
  MkNodeInfo [] [] [117] net [] [] [] [] rel 0 0 STATUS_OFFLINE 0 d 0 (MkDevice [78] udid 14) (MkConnect [] [] [] 1 2 3) 70000 auth
    (MkBss [] []) false (MkP2p 0 [] []) 0 [].

Definition nodeWlan : NodeInfo := sampleNode [65] [49] 2 [1; 0; 0; 0] [7; 0; 0; 0].
Definition nodeBr : NodeInfo := sampleNode [65] [49] 8 [0; 1; 0; 0] [0; 0; 0; 0].
Definition nodeOther : NodeInfo := sampleNode [66] [50] 4 [0; 0; 1; 0] [0; 0; 0; 0].

Definition sampleOps : list Op :=
  [OInit true true; OAdd envFull nodeBr; OAdd envFull nodeOther; OOffline envFull (Some [66]) CONNECTION_ADDR_BLE 0; OLane envFull 2 1;
   OStr envFull (Some [49]) 4 true 20].

Definition sampleLedger : DistributedNetLedger := default ledger0 (snd <$> execAll sampleOps ledger0).

Lemma sampleNode_ok udid net d rel auth : len udid < 65 -> len net < 65 -> length rel = 4%nat -> length auth = 4%nat ->
  is_u 32 d -> d <> 0 -> infoOk (sampleNode udid net d rel auth).
Proof. intros. constructor; cbn; try done. by left. Qed.

Lemma sampleOps_ok : Forall opOk sampleOps.
Proof.
  repeat constructor; try (cbn; done); apply (sampleNode_ok); cbn; try done; range.
Qed.

Lemma sample_run : execAll sampleOps ledger0 = Some ([0; 2; 2; 3; 0; 0], sampleLedger).
Proof. vm_compute. reflexivity. Qed.

(** Two nodes come and one goes again. *)
Lemma ledger_refines_witness : exists rs l, execAll sampleOps ledger0 = Some (rs, l) /\ ledgerOk 12 l /\
  SpecRun sampleOps (MkState ∅ ∅ false) rs (stateOf l).
Proof. apply (ledger_refines sampleOps); [apply sampleOps_ok|reflexivity]. Defined.

Lemma ledger_reports_witness :
  LnnGetOnlineStateById envFull (Some [65]) CATEGORY_UDID sampleLedger = Some true /\
  LnnGetOnlineStateById envFull (Some [66]) CATEGORY_UDID sampleLedger = Some false.
Proof.
  split.
  - apply (ledger_reports sampleOps [0; 2; 2; 3; 0; 0] sampleLedger envFull [65]);
      [apply sampleOps_ok|repeat constructor|reflexivity|apply sample_run|reflexivity|reflexivity].
  - apply (ledger_reports sampleOps [0; 2; 2; 3; 0; 0] sampleLedger envFull [66]);
      [apply sampleOps_ok|repeat constructor|reflexivity|apply sample_run|reflexivity|reflexivity].
Defined.

Lemma sample_unique : map_Forall (fun k' n' => networkId n' = [49] -> k' = [65]) (view (udidMap sampleLedger)).
Proof. apply (bool_decide_unpack _). vm_compute. exact I. Qed.

Lemma ledger_convert_witness :
  LnnConvertDlId envFull (Some [65]) CATEGORY_UDID CATEGORY_NETWORK_ID true NETWORK_ID_BUF_LEN sampleLedger = Some (SOFTBUS_OK, Some [49]) /\
  LnnConvertDlId envFull (Some [49]) CATEGORY_NETWORK_ID CATEGORY_UDID true UDID_BUF_LEN sampleLedger = Some (SOFTBUS_OK, Some [65]).
Proof.
  apply (ledger_convert sampleOps [0; 2; 2; 3; 0; 0] sampleLedger envFull [65] (setStatus STATUS_ONLINE nodeBr)).
  - apply sampleOps_ok.
  - reflexivity.
  - apply sample_run.
  - reflexivity.
  - reflexivity.
  - vm_compute. reflexivity.
  - apply sample_unique.
Defined.

Lemma ledger_online_nodes_witness : exists cells,
  cells ≡ₚ basicOf <$> filter online (map_to_list (view (udidMap sampleLedger))).*2 /\
  LnnGetAllOnlineNodeInfo envFull (MkBasic [] [] 0) sampleLedger = Some (SOFTBUS_OK, Some (Z.of_nat (length cells)), if bool_decide (cells = []) then None else Some cells).
Proof.
  apply (ledger_online_nodes sampleOps [0; 2; 2; 3; 0; 0] sampleLedger envFull (MkBasic [] [] 0)).
  - apply sampleOps_ok.
  - vm_compute. discriminate.
  - apply sample_run.
  - reflexivity.
  - reflexivity.
  - reflexivity.
  - reflexivity.
Defined.

(** The reports of a run, and the answer to a question after it. *)
Definition after {A} (ops : list Op) (q : DistributedNetLedger -> option A) : option (list Z * A) :=
  '(rs, l) ← execAll ops ledger0; x ← q l; Some (rs, x).

Abbreviation isOnline := (LnnGetOnlineStateById envFull (Some [65]) CATEGORY_UDID).

(** A node that is online over classic Bluetooth when it comes over WLAN
    keeps the old channels of authentication: the channel of the WLAN
    connection is lost, and when that connection ends, after the other one,
    the node is not reported offline. *)
Lemma wlan_never_offline :
  after [OInit true true; OAdd envFull nodeBr; OAdd envFull nodeWlan; OOffline envFull (Some [65]) CONNECTION_ADDR_BR 0;
    OOffline envFull (Some [65]) CONNECTION_ADDR_WLAN 7] isOnline =
  Some ([REPORT_NONE; REPORT_ONLINE; REPORT_NONE; REPORT_NONE; REPORT_NONE], true).
Proof. vm_compute. reflexivity. Qed.

(** In the other order it is. *)
Lemma wlan_first_offline :
  after [OInit true true; OAdd envFull nodeWlan; OAdd envFull nodeBr; OOffline envFull (Some [65]) CONNECTION_ADDR_BR 0;
    OOffline envFull (Some [65]) CONNECTION_ADDR_WLAN 7] isOnline =
  Some ([REPORT_NONE; REPORT_ONLINE; REPORT_NONE; REPORT_NONE; REPORT_OFFLINE], false).
Proof. vm_compute. reflexivity. Qed.

(** The users of a medium are counted in two bits: the fourth makes none. *)
Lemma relation_wraps :
  after [OInit true true; OAdd envFull nodeBr; OAdd envFull nodeBr; OAdd envFull nodeBr; OAdd envFull nodeBr]
    (LnnGetLnnRelation envFull (Some [65]) CATEGORY_UDID (Some [9; 9; 9; 9]) 4) =
  Some ([REPORT_NONE; REPORT_ONLINE; REPORT_NONE; REPORT_NONE; REPORT_NONE], (SOFTBUS_OK, Some [0; 0; 0; 0])).
Proof. vm_compute. reflexivity. Qed.

(** A node for which there is no memory is reported online and not there. *)
Lemma online_without_memory :
  after [OInit true true; OAdd (MkEnv true true true true true false true true true) nodeBr] isOnline =
  Some ([REPORT_NONE; REPORT_ONLINE], false).
Proof. vm_compute. reflexivity. Qed.

(** A node that is offline is reported offline again. *)
Lemma offline_twice :
  after [OInit true true; OAdd envFull nodeBr; OOffline envFull (Some [65]) CONNECTION_ADDR_BR 0;
    OOffline envFull (Some [65]) CONNECTION_ADDR_BR 0] isOnline =
  Some ([REPORT_NONE; REPORT_ONLINE; REPORT_OFFLINE; REPORT_OFFLINE], false).
Proof. vm_compute. reflexivity. Qed.

End Ledger.
