(* ===== verification/ProxyCommon.v ===== *)
(** * Helpers of the file transfer over proxy channels

    Models [client_trans_proxy_file_common.c] of
    [sdk/transmission/trans_channel/proxy]: the checks of paths, the types of
    frames, the checksum of a frame, the list of files, and file locks.

    A C string is the text in front of its terminator; a missing pointer is
    [None].  An outer [None] is an access outside memory.  What [realpath] and
    [fcntl] answer is an argument.

    [rtu_crc_reference] compares the tables with the polynomial they stand
    for; [rtu_crc_detects] says which damage the checksum finds;
    [file_list_roundtrip] that the receiver finds the first name and the
    number of files. *)

From S2P Require Import Prelude Errno Bytes Adapter.
Import Errno Bytes.

Module ProxyCommon.

Abbreviation text := (list Z).

Definition MAX_FILE_PATH_NAME_LEN : Z := 512.
Definition INVALID_FD : Z := -1.
Definition PATH_SEPARATOR : Z := 47.
Definition BIT_BYTE_NUM : Z := 8.
Definition FRAME_NUM_0 : Z := 0.
Definition FRAME_NUM_1 : Z := 1.
Definition FRAME_NUM_2 : Z := 2.
Definition FILE_LIST_ITEM_SIZE : Z := 8.

Definition TRANS_SESSION_FILE_FIRST_FRAME : Z := 3.
Definition TRANS_SESSION_FILE_ONGOINE_FRAME : Z := 4.
Definition TRANS_SESSION_FILE_LAST_FRAME : Z := 5.
Definition TRANS_SESSION_FILE_ONLYONE_FRAME : Z := 6.
Definition TRANS_SESSION_FILE_ALLFILE_SENT : Z := 7.
Definition TRANS_SESSION_FILE_CRC_CHECK_FRAME : Z := 8.
Definition TRANS_SESSION_FILE_RESULT_FRAME : Z := 9.
Definition TRANS_SESSION_FILE_ACK_REQUEST_SENT : Z := 10.
Definition TRANS_SESSION_FILE_ACK_RESPONSE_SENT : Z := 11.

(** ** Paths *)

(** The last character. *)
Definition endsWithSep (p : text) : bool := bool_decide (last p = Some PATH_SEPARATOR).

Definition IsPathValid (filePath : option text) : bool :=
  match filePath with
  | None => false
  | Some p =>
      if (len p =? 0) || (MAX_FILE_PATH_NAME_LEN - 1 <? len p) then false
      else if endsWithSep p then false
      else true
  end.

(** The code, and what [absPath] holds when [realpath] had an answer. *)
Definition GetAndCheckRealPath (realpath : text -> option text) (filePath : option text) : Z * option text :=
  match filePath with
  | None => (SOFTBUS_ERR, None)
  | Some p =>
      match realpath p with
      | None => (SOFTBUS_ERR, None)
      | Some a => (if MAX_FILE_PATH_NAME_LEN - 1 <? len a then SOFTBUS_ERR else SOFTBUS_OK, Some a)
      end
  end.

(** [strstr(p, "..") != NULL] *)
Fixpoint hasDots (p : text) : bool :=
  match p with
  | a :: rest => ((a =? 46) && bool_decide (head rest = Some 46)) || hasDots rest
  | [] => false
  end.

Definition CheckDestFilePathValid (destFile : option text) : bool :=
  match destFile with
  | None => false
  | Some p =>
      if (len p =? 0) || (MAX_FILE_PATH_NAME_LEN <? len p) || bool_decide (head p = Some PATH_SEPARATOR) then false
      else if hasDots p then false
      else true
  end.

(** The loop from position [i] down to the last separator, or the start. *)
Fixpoint sepLoop (path : text) (i : nat) : nat :=
  if bool_decide (path !! i = Some PATH_SEPARATOR) then S i
  else match i with O => O | S i' => sepLoop path i' end.

Definition TransGetFileName (path : option text) : option text :=
  match path with
  | None => None
  | Some p =>
      if len p =? 0 then None
      else if endsWithSep p then None
      else Some (drop (sepLoop p (length p - 1)) p)
  end.

(** ** Frames *)

Definition FrameIndexToType (index frameNumber : Z) : Z :=
  if index =? FRAME_NUM_0 then TRANS_SESSION_FILE_FIRST_FRAME
  else if (index =? FRAME_NUM_1) && (frameNumber =? FRAME_NUM_2) then TRANS_SESSION_FILE_ONLYONE_FRAME
  else if index =? u64 (frameNumber - 1) then TRANS_SESSION_FILE_LAST_FRAME
  else TRANS_SESSION_FILE_ONGOINE_FRAME.

Definition g_auchCRCHi : list Z :=
  [0; 193; 129; 64; 1; 192; 128; 65; 1; 192; 128; 65; 0; 193; 129; 64; 1; 192; 128; 65; 0; 193; 129; 64; 0; 193; 129;
   64; 1; 192; 128; 65; 1; 192; 128; 65; 0; 193; 129; 64; 0; 193; 129; 64; 1; 192; 128; 65; 0; 193; 129; 64; 1; 192;
   128; 65; 1; 192; 128; 65; 0; 193; 129; 64; 1; 192; 128; 65; 0; 193; 129; 64; 0; 193; 129; 64; 1; 192; 128; 65; 0;
   193; 129; 64; 1; 192; 128; 65; 1; 192; 128; 65; 0; 193; 129; 64; 0; 193; 129; 64; 1; 192; 128; 65; 1; 192; 128;
   65; 0; 193; 129; 64; 1; 192; 128; 65; 0; 193; 129; 64; 0; 193; 129; 64; 1; 192; 128; 65; 1; 192; 128; 65; 0; 193;
   129; 64; 0; 193; 129; 64; 1; 192; 128; 65; 0; 193; 129; 64; 1; 192; 128; 65; 1; 192; 128; 65; 0; 193; 129; 64; 0;
   193; 129; 64; 1; 192; 128; 65; 1; 192; 128; 65; 0; 193; 129; 64; 1; 192; 128; 65; 0; 193; 129; 64; 0; 193; 129;
   64; 1; 192; 128; 65; 0; 193; 129; 64; 1; 192; 128; 65; 1; 192; 128; 65; 0; 193; 129; 64; 1; 192; 128; 65; 0; 193;
   129; 64; 0; 193; 129; 64; 1; 192; 128; 65; 1; 192; 128; 65; 0; 193; 129; 64; 0; 193; 129; 64; 1; 192; 128; 65; 0;
   193; 129; 64; 1; 192; 128; 65; 1; 192; 128; 65; 0; 193; 129; 64].

Definition g_auchCRCLo : list Z :=
  [0; 192; 193; 1; 195; 3; 2; 194; 198; 6; 7; 199; 5; 197; 196; 4; 204; 12; 13; 205; 15; 207; 206; 14; 10; 202; 203;
   11; 201; 9; 8; 200; 216; 24; 25; 217; 27; 219; 218; 26; 30; 222; 223; 31; 221; 29; 28; 220; 20; 212; 213; 21; 215;
   23; 22; 214; 210; 18; 19; 211; 17; 209; 208; 16; 240; 48; 49; 241; 51; 243; 242; 50; 54; 246; 247; 55; 245; 53;
   52; 244; 60; 252; 253; 61; 255; 63; 62; 254; 250; 58; 59; 251; 57; 249; 248; 56; 40; 232; 233; 41; 235; 43; 42;
   234; 238; 46; 47; 239; 45; 237; 236; 44; 228; 36; 37; 229; 39; 231; 230; 38; 34; 226; 227; 35; 225; 33; 32; 224;
   160; 96; 97; 161; 99; 163; 162; 98; 102; 166; 167; 103; 165; 101; 100; 164; 108; 172; 173; 109; 175; 111; 110;
   174; 170; 106; 107; 171; 105; 169; 168; 104; 120; 184; 185; 121; 187; 123; 122; 186; 190; 126; 127; 191; 125; 189;
   188; 124; 180; 116; 117; 181; 119; 183; 182; 118; 114; 178; 179; 115; 177; 113; 112; 176; 80; 144; 145; 81; 147;
   83; 82; 146; 150; 86; 87; 151; 85; 149; 148; 84; 156; 92; 93; 157; 95; 159; 158; 94; 90; 154; 155; 91; 153; 89;
   88; 152; 136; 72; 73; 137; 75; 139; 138; 74; 78; 142; 143; 79; 141; 77; 76; 140; 68; 132; 133; 69; 135; 71; 70;
   134; 130; 66; 67; 131; 65; 129; 128; 64].

(** The loop over the data, with [uchCRCHi] and [uchCRCLo]. *)
Fixpoint crcLoop (data : bytes) (hi lo : Z) : option (Z * Z) :=
  match data with
  | [] => Some (hi, lo)
  | b :: rest =>
      let uIndex := Z.lxor lo b in
      h ← g_auchCRCHi !! Z.to_nat uIndex;
      l ← g_auchCRCLo !! Z.to_nat uIndex;
      crcLoop rest l (Z.lxor hi h)
  end.

(** The length is converted to 16 bits. *)
Definition RTU_CRC (puchMsg : bytes) (usDataLen : Z) : option Z :=
  data ← get puchMsg 0 (u16 usDataLen);
  '(hi, lo) ← crcLoop data 255 255;
  Some (Z.lor (Z.shiftl hi BIT_BYTE_NUM) lo).

(** ** The list of files *)

(** The first loop: the sum of the lengths, or an error. *)
Fixpoint listLengths (names : list text) (total : Z) : option Z :=
  match names with
  | [] => Some total
  | n :: rest => if (len n =? 0) || (MAX_FILE_PATH_NAME_LEN <? len n) then None else listLengths rest (u32 (total + len n))
  end.

(** The second loop, from [index] and [offset]. *)
Fixpoint listItems (names : list text) (bufferSize index offset : Z) (buffer : bytes) : option (bool * Z * bytes) :=
  match names with
  | [] => Some (true, offset, buffer)
  | n :: rest =>
      b1 ← put32 buffer offset index;
      b2 ← put32 b1 (offset + 4) (len n);
      let offset := u32 (offset + FILE_LIST_ITEM_SIZE) in
      '(ok, b3) ← memcpy_s b2 offset (bufferSize - offset) n (len n);
      if ok : bool then listItems rest bufferSize (index + 1) (u32 (offset + len n)) b3 else Some (false, offset, b3)
  end.

(** The code, and the buffer with its size. *)
Definition FileListToBuffer (mem : bool) (destFile : option (list text)) : option (Z * option (bytes * Z)) :=
  match destFile with
  | None => Some (SOFTBUS_ERR, None)
  | Some names =>
      if bool_decide (names = []) then Some (SOFTBUS_ERR, None)
      else
        match listLengths names 0 with
        | None => Some (SOFTBUS_INVALID_PARAM, None)
        | Some totalLength =>
            let bufferSize := totalLength + FILE_LIST_ITEM_SIZE * Z.of_nat (length names) in
            if negb (Adapter.Mem.SoftBusCalloc mem (u32 bufferSize)) then Some (SOFTBUS_MALLOC_ERR, None)
            else
              '(ok, offset, buffer) ← listItems names bufferSize 0 0 (replicate (Z.to_nat bufferSize) 0);
              if ok : bool then Some (SOFTBUS_OK, Some (buffer, offset)) else Some (SOFTBUS_ERR, None)
        end
  end.

(** The loop over the items; [n] bounds the rounds.  [Some None] is a list
    that is refused. *)
Fixpoint listScan (n : nat) (buffer : bytes) (bufferSize offset count : Z) (firstFile : bytes) : option (option (Z * bytes)) :=
  match n with
  | O => None
  | S n' =>
      if offset <? bufferSize - FILE_LIST_ITEM_SIZE then
        fileNameLength ← get32 buffer (offset + 4);
        let offset := u32 (offset + FILE_LIST_ITEM_SIZE) in
        if (bufferSize - offset <? fileNameLength) || (MAX_FILE_PATH_NAME_LEN <? fileNameLength) then Some None
        else
          if count =? 0 then
            fileName ← get buffer offset fileNameLength;
            '(ok, first) ← memcpy_s firstFile 0 MAX_FILE_PATH_NAME_LEN fileName fileNameLength;
            if ok : bool then listScan n' buffer bufferSize (u32 (offset + fileNameLength)) (count + 1) first else Some None
          else listScan n' buffer bufferSize (u32 (offset + fileNameLength)) (count + 1) firstFile
      else Some (Some (count, firstFile))
  end.

(** The array [firstFile] and the number of files, or NULL. *)
Definition BufferToFileList (mem : bool) (buffer : option bytes) (bufferSize : Z) : option (option (bytes * Z)) :=
  match buffer with
  | None => Some None
  | Some b =>
      if bufferSize <? FILE_LIST_ITEM_SIZE then Some None
      else if negb (Adapter.Mem.SoftBusCalloc mem (MAX_FILE_PATH_NAME_LEN + 1)) then Some None
      else
        r ← listScan (S (Z.to_nat bufferSize)) b bufferSize 0 0 (replicate (Z.to_nat (MAX_FILE_PATH_NAME_LEN + 1)) 0);
        match r with
        | Some (count, firstFile) => Some (Some (firstFile, count))
        | None => Some None
        end
  end.

(** ** Locks of files *)

(** [fcntl] is whether the call has the answer 0. *)
Definition FileLock (fcntl : bool) (fd : Z) (isBlock : bool) : Z :=
  if fd <? 0 then SOFTBUS_ERR
  else if negb fcntl && negb isBlock then SOFTBUS_FILE_BUSY
  else SOFTBUS_OK.

(** One answer for each attempt; there are [retryTimes] of them. *)
Fixpoint TryFileLock (fd : Z) (answers : list bool) : Z :=
  match answers with
  | [] => SOFTBUS_FILE_BUSY
  | a :: rest =>
      let errCode := FileLock a fd false in
      if errCode =? SOFTBUS_OK then SOFTBUS_OK
      else if errCode =? SOFTBUS_FILE_BUSY then TryFileLock fd rest
      else SOFTBUS_ERR
  end.

Definition FileUnLock (fcntl : bool) (fd : Z) : Z :=
  if fd <? 0 then SOFTBUS_OK else if fcntl then SOFTBUS_OK else SOFTBUS_ERR.

(** ** The checksum *)

(** The polynomial 0xA001, bit by bit. *)
Definition crcBit (c : Z) : Z := if Z.testbit c 0 then Z.lxor (Z.shiftr c 1) 40961 else Z.shiftr c 1.

Definition crcByte (c b : Z) : Z := Nat.iter 8 crcBit (Z.lxor c b).

(** CRC-16 of some data. *)
Definition crc16 (data : bytes) : Z := foldl crcByte 65535 data.

Definition word (hi lo : Z) : Z := Z.lor (Z.shiftl hi 8) lo.

(** One step of the tables is eight steps of the polynomial. *)
Definition stepOk (hi lo : Z) : bool :=
  match g_auchCRCHi !! Z.to_nat lo, g_auchCRCLo !! Z.to_nat lo with
  | Some h, Some l =>
      (Nat.iter 8 crcBit (word hi lo) =? word l (Z.lxor hi h)) && bool_decide (is_u 8 l) && bool_decide (is_u 8 h)
  | _, _ => false
  end.

Lemma stepOk_all : forallb (fun hi => forallb (stepOk hi) (seqZ 0 256)) (seqZ 0 256) = true.
Proof. vm_compute. reflexivity. Qed.

Lemma byte_bits x i : is_u 8 x -> 8 <= i -> Z.testbit x i = false.
Proof. intros Hx Hi. rewrite <- (wrapU_id 8 x Hx), testbit_wrapU by lia. by rewrite (proj2 (Z.ltb_ge _ _)). Qed.

Lemma byte_xor a b : is_u 8 a -> is_u 8 b -> is_u 8 (Z.lxor a b).
Proof. intros Ha Hb. apply is_u_bits; [lia|]. intros i Hi. by rewrite Z.lxor_spec, !byte_bits. Qed.

Lemma word_xor hi lo b : is_u 8 lo -> is_u 8 b -> Z.lxor (word hi lo) b = word hi (Z.lxor lo b).
Proof.
  intros Hl Hb. apply Z.bits_inj'. intros i Hi. unfold word. rewrite !Z.lxor_spec, !Z.lor_spec, Z.lxor_spec, Z.shiftl_spec by lia.
  destruct (Z.ltb_spec i 8).
  - rewrite Z.testbit_neg_r by lia. done.
  - rewrite !(byte_bits _ i) by (done || lia). rewrite !orb_false_r. by rewrite xorb_false_r.
Qed.

(** One step of the loop, by the polynomial. *)
Lemma crc_step hi lo b : is_u 8 hi -> is_u 8 lo -> is_u 8 b ->
  exists h l, g_auchCRCHi !! Z.to_nat (Z.lxor lo b) = Some h /\ g_auchCRCLo !! Z.to_nat (Z.lxor lo b) = Some l /\
    is_u 8 l /\ is_u 8 (Z.lxor hi h) /\ crcByte (word hi lo) b = word l (Z.lxor hi h).
Proof.
  intros Hh Hl Hb. pose proof (byte_xor lo b Hl Hb) as Hx.
  pose proof (all_bytes _ (all_bytes _ stepOk_all hi Hh) (Z.lxor lo b) Hx) as H. unfold stepOk in H.
  destruct (g_auchCRCHi !! _) as [h|]; [|done]. destruct (g_auchCRCLo !! _) as [l|]; [|done].
  apply andb_true_iff in H as [[H%Z.eqb_eq H1%bool_decide_eq_true]%andb_true_iff H2%bool_decide_eq_true].
  exists h, l. split_and!; [done..|by apply byte_xor|]. unfold crcByte. by rewrite word_xor.
Qed.

#[local] Opaque crcByte.

Lemma crcLoop_spec data : is_bytes data -> forall hi lo, is_u 8 hi -> is_u 8 lo ->
  exists hi' lo', crcLoop data hi lo = Some (hi', lo') /\ is_u 8 hi' /\ is_u 8 lo' /\
    word hi' lo' = foldl crcByte (word hi lo) data.
Proof.
  induction 1 as [|b data Hb _ IH]; intros hi lo Hh Hl; cbn [crcLoop foldl]; [by eexists _, _|].
  destruct (crc_step hi lo b Hh Hl Hb) as (h & l & -> & -> & Hl' & Hx & ->). cbn [mbind option_bind]. by apply IH.
Qed.

Lemma rtu_crc data n : is_bytes data -> n = len data -> is_u 16 n -> RTU_CRC data n = Some (crc16 data).
Proof.
  intros Hd -> Hn. unfold RTU_CRC. rewrite wrapU_id, get_all by done. cbn [mbind option_bind].
  destruct (crcLoop_spec data Hd 255 255) as (hi & lo & -> & _ & _ & Hw); [range..|]. cbn [mbind option_bind].
  unfold BIT_BYTE_NUM. fold (word hi lo). by rewrite Hw.
Qed.

(** C34: the table-driven checksum of the frames is CRC-16 with the polynomial
    0xA001 (Modbus), computed bit by bit, for data of every length below
    65536. *)
Theorem rtu_crc_reference data : is_bytes data -> len data < 65536 -> RTU_CRC data (len data) = Some (crc16 data).
Proof. intros Hd Hn. apply rtu_crc; [done|done|]. pose proof (len_nonneg data). range. Qed.

Lemma rtu_crc_reference_witness : RTU_CRC [1; 2; 3] 3 = Some (crc16 [1; 2; 3]) /\ crc16 [1; 2; 3] = 24929.
Proof.
  split; [|vm_compute; reflexivity].
  apply (rtu_crc_reference [1; 2; 3]); [repeat constructor; vm_compute; try discriminate; reflexivity|reflexivity].
Defined.

(** *** What it detects *)

Lemma lo_NoDup : NoDup g_auchCRCLo.
Proof. apply (bool_decide_unpack _). vm_compute. exact I. Qed.

Lemma word_inj hi lo hi' lo' : is_u 8 lo -> is_u 8 lo' -> word hi lo = word hi' lo' -> hi = hi' /\ lo = lo'.
Proof.
  intros Hl Hl' E. assert (forall i, Z.testbit (word hi lo) i = Z.testbit (word hi' lo') i) as H by (intros; by rewrite E).
  unfold word in H. split; apply Z.bits_inj'; intros i Hi.
  - specialize (H (i + 8)). rewrite !Z.lor_spec, !Z.shiftl_spec in H by lia. rewrite !(byte_bits _ (i + 8)), !orb_false_r in H by (done || lia).
    by replace (i + 8 - 8) with i in H by lia.
  - destruct (Z.ltb_spec i 8); [|by rewrite !byte_bits]. specialize (H i). rewrite !Z.lor_spec, !Z.shiftl_spec in H by lia.
    by rewrite !(Z.testbit_neg_r _ (i - 8)) in H by lia.
Qed.

Lemma xor_cancel a b c : Z.lxor a b = Z.lxor a c -> b = c.
Proof. intros H. rewrite <- (Z.lxor_0_l b), <- (Z.lxor_0_l c), <- (Z.lxor_nilpotent a), !Z.lxor_assoc. by rewrite H. Qed.

(** Equal sums after a byte: the same position of the tables was used. *)
Lemma crc_step_inj hi lo b hi' lo' b' : is_u 8 hi -> is_u 8 lo -> is_u 8 b -> is_u 8 hi' -> is_u 8 lo' -> is_u 8 b' ->
  crcByte (word hi lo) b = crcByte (word hi' lo') b' -> hi = hi' /\ Z.lxor lo b = Z.lxor lo' b'.
Proof.
  intros Hh Hl Hb Hh' Hl' Hb' E. destruct (crc_step hi lo b) as (h & l & E1 & E2 & R1 & R2 & Es); [done..|].
  destruct (crc_step hi' lo' b') as (h' & l' & E1' & E2' & R1' & R2' & Es'); [done..|].
  rewrite Es, Es' in E. apply word_inj in E as [-> E]; [|done..].
  pose proof (NoDup_lookup _ _ _ _ lo_NoDup E2 E2') as Hi.
  pose proof (byte_xor lo b Hl Hb) as Hx. pose proof (byte_xor lo' b' Hl' Hb') as Hx'.
  assert (Z.lxor lo b = Z.lxor lo' b') as Hi' by range. rewrite Hi in E1. simplify_eq. split; [|done].
  rewrite (Z.lxor_comm hi), (Z.lxor_comm hi') in E. by apply xor_cancel in E.
Qed.

(** The state after some data, in bytes. *)
Lemma crc_state data c : is_bytes data -> (exists hi lo, c = word hi lo /\ is_u 8 hi /\ is_u 8 lo) ->
  exists hi lo, foldl crcByte c data = word hi lo /\ is_u 8 hi /\ is_u 8 lo.
Proof.
  intros Hd (hi & lo & -> & Hh & Hl). destruct (crcLoop_spec data Hd hi lo Hh Hl) as (hi' & lo' & _ & ? & ? & E). by exists hi', lo'.
Qed.

Lemma crc_start data : is_bytes data -> exists hi lo, crc16 data = word hi lo /\ is_u 8 hi /\ is_u 8 lo.
Proof. intros Hd. apply (crc_state data 65535 Hd). exists 255, 255. split; [done|]. range. Qed.

(** Different states stay different. *)
Lemma crc_suffix s : is_bytes s -> forall hi lo hi' lo', is_u 8 hi -> is_u 8 lo -> is_u 8 hi' -> is_u 8 lo' ->
  foldl crcByte (word hi lo) s = foldl crcByte (word hi' lo') s -> word hi lo = word hi' lo'.
Proof.
  induction 1 as [|b s Hb _ IH]; intros hi lo hi' lo' Hh Hl Hh' Hl' E; [done|]. cbn [foldl] in E.
  destruct (crc_step hi lo b) as (h & l & _ & _ & R1 & R2 & Es); [done..|].
  destruct (crc_step hi' lo' b) as (h' & l' & _ & _ & R1' & R2' & Es'); [done..|].
  assert (crcByte (word hi lo) b = crcByte (word hi' lo') b) as E2 by (rewrite Es, Es' in E |- *; by apply IH in E).
  apply crc_step_inj in E2 as [-> E2]; [|done..]. rewrite (Z.lxor_comm lo), (Z.lxor_comm lo') in E2.
  by apply xor_cancel in E2 as ->.
Qed.

Lemma crc_two hi lo a1 a2 b1 b2 : is_u 8 hi -> is_u 8 lo -> is_bytes [a1; a2; b1; b2] ->
  crcByte (crcByte (word hi lo) a1) a2 = crcByte (crcByte (word hi lo) b1) b2 -> [a1; a2] = [b1; b2].
Proof.
  intros Hh Hl Hd E. assert (is_u 8 a1 /\ is_u 8 a2 /\ is_u 8 b1 /\ is_u 8 b2) as (Ha1 & Ha2 & Hb1 & Hb2).
  { unfold is_bytes in Hd. rewrite !Forall_cons in Hd. tauto. }
  clear Hd.
  destruct (crc_step hi lo a1) as (h & l & E1 & E2 & R1 & R2 & Es); [done..|].
  destruct (crc_step hi lo b1) as (h' & l' & E1' & E2' & R1' & R2' & Es'); [done..|].
  rewrite Es, Es' in E. apply crc_step_inj in E as [-> E]; [|done..].
  pose proof (NoDup_lookup _ _ _ _ lo_NoDup E2 E2') as Hi.
  pose proof (byte_xor lo a1 Hl Ha1) as Hx. pose proof (byte_xor lo b1 Hl Hb1) as Hx'.
  assert (Z.lxor lo a1 = Z.lxor lo b1) as ->%xor_cancel by range. rewrite E1 in E1'. simplify_eq.
  by apply xor_cancel in E as ->.
Qed.

Lemma crc16_app a b : crc16 (a ++ b) = foldl crcByte (crc16 a) b.
Proof. apply foldl_app. Qed.

Lemma crc_burst p x y s : is_bytes (p ++ x ++ s) -> is_bytes y -> length x = length y -> (length x <= 2)%nat ->
  crc16 (p ++ x ++ s) = crc16 (p ++ y ++ s) -> x = y.
Proof.
  intros Hd Hy Hlen H2 E. apply Forall_app in Hd as [Hp [Hx Hs]%Forall_app].
  rewrite !crc16_app, !foldl_app in E. destruct (crc_start p Hp) as (hi & lo & Hw & Hh & Hl).
  rewrite Hw in E. destruct (crc_state x (word hi lo) Hx) as (hx & lx & Ex & ? & ?); [by exists hi, lo|].
  destruct (crc_state y (word hi lo) Hy) as (hy & ly & Ey & ? & ?); [by exists hi, lo|].
  rewrite Ex, Ey in E. apply crc_suffix in E; [|done..]. rewrite <- Ex, <- Ey in E.
  destruct x as [|a1 [|a2 [|? ?]]], y as [|b1 [|b2 [|? ?]]]; try done; try (cbn in H2; lia); cbn [foldl] in E.
  - apply Forall_cons in Hx as [Ha _]. apply Forall_cons in Hy as [Hb _]. apply crc_step_inj in E as [_ E]; [|done..].
    by apply xor_cancel in E as ->.
  - apply (crc_two hi lo); [done..| |done]. by apply (Forall_app_2 _ [a1; a2] [b1; b2]).
Qed.

(** C40: The checksum of a frame finds every change of one byte or of two
    bytes next to each other. *)
Theorem rtu_crc_detects p x y s : is_bytes (p ++ x ++ s) -> is_bytes y -> length x = length y -> (length x <= 2)%nat -> x <> y ->
  len (p ++ x ++ s) < 65536 -> RTU_CRC (p ++ x ++ s) (len (p ++ x ++ s)) <> RTU_CRC (p ++ y ++ s) (len (p ++ y ++ s)).
Proof.
  intros Hd Hy Hlen H2 Hne Hn. assert (len (p ++ y ++ s) = len (p ++ x ++ s)) as Hl by (unfold len; rewrite !length_app; lia).
  pose proof (len_nonneg (p ++ x ++ s)). assert (is_bytes (p ++ y ++ s)) as Hdy.
  { apply Forall_app in Hd as [Hp [_ Hs]%Forall_app]. by repeat apply Forall_app_2. }
  rewrite !rtu_crc by (done || rewrite ?Hl; range). intros [= E]. by apply crc_burst in E.
Qed.

Lemma rtu_crc_detects_witness : RTU_CRC ([7] ++ [1; 2] ++ [9]) (len ([7] ++ [1; 2] ++ [9])) <> RTU_CRC ([7] ++ [3; 2] ++ [9]) (len ([7] ++ [3; 2] ++ [9])).
Proof.
  apply (rtu_crc_detects [7] [1; 2] [3; 2] [9]); [apply (bool_decide_unpack _); vm_compute; exact I..|reflexivity|cbn; lia|discriminate|reflexivity].
Defined.

(** ** The list of files, there and back *)

(** The bytes of the list. *)
Fixpoint itemBytes (index : Z) (names : list text) : bytes :=
  match names with
  | [] => []
  | n :: rest => be_bytes 4 index ++ be_bytes 4 (len n) ++ n ++ itemBytes (index + 1) rest
  end.

Definition nameOk (n : text) : Prop := 0 < len n <= MAX_FILE_PATH_NAME_LEN.

Lemma len_itemBytes names : forall index, Forall nameOk names -> Z.of_nat (length names) <= 1000000 ->
  len (itemBytes index names) <= 520 * Z.of_nat (length names).
Proof.
  induction names as [|n rest IH]; intros index Hn Hl; [done|]. inversion_clear Hn. cbn [itemBytes length] in *.
  specialize (IH (index + 1) ltac:(done) ltac:(lia)). unfold nameOk, MAX_FILE_PATH_NAME_LEN in *.
  rewrite !len_app, !len_be_bytes. lia.
Qed.

(** Every item has at least nine bytes. *)
Lemma items_long names : forall index, Forall nameOk names -> Z.of_nat (length names) <= len (itemBytes index names).
Proof.
  induction names as [|n rest IH]; intros index Hn; [done|]. inversion_clear Hn as [|? ? [H1 _] Hr]. cbn [itemBytes length].
  rewrite !len_app, !len_be_bytes. specialize (IH (index + 1) Hr). lia.
Qed.

Lemma listLengths_spec names : Forall nameOk names -> forall total, 0 <= total -> total + 520 * Z.of_nat (length names) < 2 ^ 32 ->
  listLengths names total = Some (total + len (itemBytes 0 names) - FILE_LIST_ITEM_SIZE * Z.of_nat (length names)).
Proof.
  assert (forall rest i j, len (itemBytes i rest) = len (itemBytes j rest)) as Hij.
  { induction rest as [|n rest IH]; intros i j; [done|]. cbn [itemBytes]. rewrite !len_app, !len_be_bytes. by rewrite (IH (i + 1) (j + 1)). }
  induction 1 as [|n rest Hn _ IH]; intros total H0 Hl; cbn [listLengths itemBytes length] in *; [f_equal; rewrite len_nil; lia|].
  destruct Hn as [H1 H2]. unfold MAX_FILE_PATH_NAME_LEN in *. rewrite (proj2 (Z.eqb_neq _ _)), (proj2 (Z.ltb_ge _ _)) by lia. cbn [orb].
  rewrite wrapU_id by range. rewrite IH by lia. f_equal. unfold FILE_LIST_ITEM_SIZE. rewrite !len_app, !len_be_bytes, (Hij rest (0 + 1) 0). lia.
Qed.

Lemma split_item z n m : 0 <= n -> 0 <= m -> len z = 8 + n + m ->
  exists z1 z2 z3 y, z = z1 ++ z2 ++ z3 ++ y /\ len z1 = 4 /\ len z2 = 4 /\ len z3 = n /\ len y = m.
Proof.
  intros Hn Hm Hz. destruct (split_len z 4) as (z1 & y1 & -> & Hz1); [lia|]. rewrite len_app in Hz.
  destruct (split_len y1 4) as (z2 & y2 & -> & Hz2); [lia|]. rewrite len_app in Hz.
  destruct (split_len y2 n) as (z3 & y3 & -> & Hz3); [lia|]. rewrite len_app in Hz.
  exists z1, z2, z3, y3. split_and!; try done; lia.
Qed.

Lemma listItems_spec names : Forall nameOk names -> forall index pre z,
  len z = len (itemBytes index names) -> len pre + len z < 2 ^ 32 ->
  listItems names (len pre + len z) index (len pre) (pre ++ z) = Some (true, len pre + len z, pre ++ itemBytes index names).
Proof.
  induction 1 as [|n rest Hn _ IH]; intros index pre z Hz Hl; cbn [listItems itemBytes] in *.
  - assert (z = []) as -> by (apply nil_length_inv; unfold len in Hz; cbn in Hz; lia). by rewrite Z.add_0_r.
  - rewrite !len_app, !len_be_bytes in Hz. pose proof (len_nonneg pre). destruct Hn as [H1 H2]. unfold MAX_FILE_PATH_NAME_LEN in H2.
    pose proof (len_nonneg (itemBytes (index + 1) rest)).
    destruct (split_item z (len n) (len (itemBytes (index + 1) rest))) as (z1 & z2 & z3 & y3 & Ez & Hz1 & Hz2 & Hz3 & Hy3); [lia..|].
    assert (len z = 8 + len n + len y3) as Hlz by lia. rewrite Hlz in Hl |- *. rewrite Ez. clear Ez Hz Hlz.
    unfold put32. rewrite (put_at pre z1) by (done || by rewrite len_be_bytes). cbn [mbind option_bind].
    rewrite (app_assoc pre), (put_at (pre ++ be_bytes 4 index) z2) by (rewrite ?len_app, ?len_be_bytes; lia). cbn [mbind option_bind].
    unfold FILE_LIST_ITEM_SIZE. rewrite (wrapU_id 32 (len pre + 8)) by range.
    rewrite (app_assoc (pre ++ _)). rewrite (memcpy_s_fits _ _ _ n (len n) (((pre ++ be_bytes 4 index) ++ be_bytes 4 (len n)) ++ n ++ y3)).
    2:lia. 2:done. 2:{ apply put_at; [rewrite !len_app, !len_be_bytes; lia|lia]. }
    cbn [mbind option_bind]. rewrite (wrapU_id 32 (len pre + 8 + len n)) by range. rewrite app_assoc.
    set (pre' := ((pre ++ be_bytes 4 index) ++ be_bytes 4 (len n)) ++ n).
    assert (len pre' = len pre + 8 + len n) as Hp by (unfold pre'; rewrite !len_app, !len_be_bytes; lia).
    replace (len pre + 8 + len n) with (len pre') by lia.
    replace (len pre + (8 + len n + len y3)) with (len pre' + len y3) by lia.
    rewrite IH by lia. unfold pre'. by rewrite <- !app_assoc.
Qed.

Lemma toBuffer_spec names : names <> [] -> Forall nameOk names -> Z.of_nat (length names) <= 1000000 ->
  FileListToBuffer true (Some names) = Some (SOFTBUS_OK, Some (itemBytes 0 names, len (itemBytes 0 names))).
Proof.
  intros Hne Hn Hl. unfold FileListToBuffer. rewrite bool_decide_false by done. rewrite listLengths_spec by (done || lia).
  pose proof (len_itemBytes names 0 Hn Hl). pose proof (len_nonneg (itemBytes 0 names)).
  set (total := len (itemBytes 0 names)) in *.
  replace (0 + total - _ + _) with total by lia.
  unfold Adapter.Mem.SoftBusCalloc, Adapter.Mem.SoftBusMalloc. rewrite wrapU_id by range.
  rewrite (proj2 (Z.ltb_ge _ _)) by (unfold Adapter.Mem.MAX_MALLOC_SIZE; lia). cbn [negb].
  assert (len (replicate (Z.to_nat total) 0) = total) as Hr by (rewrite len_replicate; lia).
  pose proof (listItems_spec names Hn 0 [] (replicate (Z.to_nat total) 0)) as Hi. rewrite Hr in Hi. cbn [app] in Hi.
  change (len [] + total) with total in Hi. change (len []) with 0 in Hi. rewrite Hi; [done|done|range].
Qed.

Lemma listScan_spec names : Forall nameOk names -> forall fuel index pre count first,
  (length names < fuel)%nat -> len pre + len (itemBytes index names) < 2 ^ 32 -> 0 < count ->
  listScan fuel (pre ++ itemBytes index names) (len pre + len (itemBytes index names)) (len pre) count first =
    Some (Some (count + Z.of_nat (length names), first)).
Proof.
  induction 1 as [|n rest Hn _ IH]; intros fuel index pre count first Hf Hl Hc; (destruct fuel as [|fuel]; [cbn in Hf; lia|]);
    cbn [listScan itemBytes length] in *; unfold FILE_LIST_ITEM_SIZE.
  - rewrite len_nil, (proj2 (Z.ltb_ge _ _)) by lia. by replace (count + Z.of_nat 0) with count by lia.
  - rewrite !len_app, !len_be_bytes in Hl |- *. pose proof (len_nonneg pre). pose proof (len_nonneg (itemBytes (index + 1) rest)).
    destruct Hn as [H1 H2]. unfold MAX_FILE_PATH_NAME_LEN in *. rewrite (proj2 (Z.ltb_lt _ _)) by lia.
    unfold get32. rewrite (app_assoc pre), (get_app (pre ++ be_bytes 4 index) (be_bytes 4 (len n))) by (rewrite ?len_app, ?len_be_bytes; lia).
    cbn [fmap option_fmap option_map mbind option_bind]. rewrite be_val_bytes_id by range.
    rewrite (wrapU_id 32 (len pre + 8)), (proj2 (Z.ltb_ge _ _)), (proj2 (Z.ltb_ge _ _)) by range. cbn [orb].
    rewrite (proj2 (Z.eqb_neq _ _)) by lia. rewrite (wrapU_id 32 (len pre + 8 + len n)) by range.
    set (pre' := ((pre ++ be_bytes 4 index) ++ be_bytes 4 (len n)) ++ n).
    assert (len pre' = len pre + 8 + len n) as Hp by (unfold pre'; rewrite !len_app, !len_be_bytes; lia).
    replace ((pre ++ be_bytes 4 index) ++ be_bytes 4 (len n) ++ n ++ itemBytes (index + 1) rest) with (pre' ++ itemBytes (index + 1) rest)
      by (unfold pre'; by rewrite <- !app_assoc).
    replace (len pre + 8 + len n) with (len pre') by lia.
    replace (len pre + _) with (len pre' + len (itemBytes (index + 1) rest)) by lia.
    rewrite IH by lia. f_equal. f_equal. f_equal. lia.
Qed.

Lemma fromBuffer_spec n rest : Forall nameOk (n :: rest) -> Z.of_nat (length (n :: rest)) <= 1000000 ->
  BufferToFileList true (Some (itemBytes 0 (n :: rest))) (len (itemBytes 0 (n :: rest))) =
    Some (Some (n ++ replicate (Z.to_nat (MAX_FILE_PATH_NAME_LEN + 1 - len n)) 0, Z.of_nat (length (n :: rest)))).
Proof.
  intros Hns Hl. pose proof (len_itemBytes _ 0 Hns Hl) as Hb. pose proof Hns as [Hn Hrest]%Forall_cons. destruct Hn as [H1 H2].
  unfold BufferToFileList. cbn [itemBytes] in Hb |- *. rewrite !len_app, !len_be_bytes in Hb |- *.
  change (0 + 1) with 1 in *. pose proof (len_nonneg (itemBytes 1 rest)). unfold FILE_LIST_ITEM_SIZE, MAX_FILE_PATH_NAME_LEN in *.
  rewrite (proj2 (Z.ltb_ge _ 8)) by lia. change (Adapter.Mem.SoftBusCalloc true (512 + 1)) with true. cbn [negb].
  set (size := Z.of_nat 4 + (Z.of_nat 4 + (len n + len (itemBytes 1 rest)))). cbn [listScan].
  unfold FILE_LIST_ITEM_SIZE, MAX_FILE_PATH_NAME_LEN.
  rewrite (proj2 (Z.ltb_lt _ _)) by lia. unfold get32.
  rewrite (get_app (be_bytes 4 0) (be_bytes 4 (len n))) by (rewrite ?len_be_bytes; lia).
  cbn [fmap option_fmap option_map mbind option_bind]. rewrite be_val_bytes_id by range.
  change (u32 (0 + 8)) with 8. rewrite (proj2 (Z.ltb_ge _ _)), (proj2 (Z.ltb_ge _ _)) by lia. cbn [orb].
  change (0 =? 0) with true. cbn iota. rewrite (app_assoc (be_bytes 4 0)), (get_app (be_bytes 4 0 ++ be_bytes 4 (len n)) n)
    by (rewrite ?len_app, ?len_be_bytes; lia).
  cbn [mbind option_bind]. rewrite (memcpy_s_fits _ 0 512 n (len n) (n ++ replicate (Z.to_nat (512 + 1 - len n)) 0)); [|lia|done|].
  2:{ rewrite put_zero by (rewrite len_replicate; lia). f_equal. f_equal. rewrite drop_replicate. f_equal. unfold len. lia. }
  cbn [mbind option_bind]. rewrite wrapU_id by range.
  set (pre := (be_bytes 4 0 ++ be_bytes 4 (len n)) ++ n).
  assert (len pre = 8 + len n) as Hp by (unfold pre; rewrite !len_app, !len_be_bytes; lia).
  rewrite (app_assoc (be_bytes 4 0 ++ be_bytes 4 (len n))). fold pre.
  pose proof (listScan_spec rest Hrest (Z.to_nat size) 1 pre (0 + 1) (n ++ replicate (Z.to_nat (512 + 1 - len n)) 0)) as Hs.
  rewrite Hp in Hs.
  replace (8 + len n + len (itemBytes 1 rest)) with size in Hs by (unfold size; lia).
  rewrite Hs; [|cbn [length] in *; unfold size; pose proof (items_long rest 1 Hrest); unfold size in *; lia|unfold size; range|lia].
  cbn [mbind option_bind]. f_equal. f_equal. f_equal. cbn [length]. lia.
Qed.

(** Whatever arrives, the list is read inside its buffer, and what is found
    ends within its array. *)
Lemma listScan_total b : is_bytes b -> len b < 2 ^ 32 -> forall fuel offset count first,
  0 <= offset <= len b -> len b - offset < Z.of_nat fuel -> len first = 513 -> first !! 512%nat = Some 0 ->
  exists r, listScan fuel b (len b) offset count first = Some r /\ forall c f, r = Some (c, f) -> len f = 513 /\ f !! 512%nat = Some 0.
Proof.
  intros Hb Hlen. induction fuel as [|fuel IH]; intros offset count first Ho Hf Hl H0; [lia|]. cbn [listScan].
  unfold FILE_LIST_ITEM_SIZE, MAX_FILE_PATH_NAME_LEN.
  destruct (Z.ltb_spec offset (len b - 8)); [|eexists; split; [done|]; by intros ? ? [= <- <-]].
  destruct (get32_inside b (offset + 4)) as (x & -> & Hx); [done|lia|lia|]. cbn [mbind option_bind].
  rewrite (wrapU_id 32 (offset + 8)) by range.
  destruct (Z.ltb_spec (len b - (offset + 8)) x); [by eexists|]. destruct (Z.ltb_spec 512 x); [by eexists|]. cbn [orb].
  rewrite (wrapU_id 32 (offset + 8 + x)) by range. destruct (count =? 0).
  - destruct (get_inside b (offset + 8) x) as (bs & -> & Hbs & _); [lia|range|lia|]. cbn [mbind option_bind].
    assert (put first 0 bs = Some (bs ++ drop (length bs) first)) as Hput by (apply put_zero; lia).
    rewrite (memcpy_s_fits _ _ _ bs _ (bs ++ drop (length bs) first)); [|lia|done|done]. cbn [mbind option_bind].
    unfold len in *. apply IH; [range|range|rewrite length_app, length_drop; lia|].
    rewrite lookup_app_r, lookup_drop by lia. by replace (length bs + (512 - length bs))%nat with 512%nat by lia.
  - apply IH; [range|range|done|done].
Qed.

Lemma fromBuffer_total mem b : is_bytes b -> len b < 2 ^ 32 ->
  exists r, BufferToFileList mem (Some b) (len b) = Some r /\ forall f c, r = Some (f, c) -> exists t, cstr f = Some t.
Proof.
  intros Hb Hl. unfold BufferToFileList. destruct (_ <? _); [by eexists|]. destruct (negb _); [by eexists|].
  destruct (listScan_total b Hb Hl (S (Z.to_nat (len b))) 0 0 (replicate (Z.to_nat (MAX_FILE_PATH_NAME_LEN + 1)) 0)) as (r & -> & Hr);
    [pose proof (len_nonneg b); lia|pose proof (len_nonneg b); lia|by rewrite len_replicate|done|].
  cbn [mbind option_bind]. destruct r as [[c f]|]; eexists; (split; [done|]); [|done].
  intros ? ? [= <- <-]. destruct (Hr c f eq_refl) as [_ H0]. apply cstr_total. eauto.
Qed.

(** C35: the receiver of a list of files finds in the bytes the sender makes of
    it the first name, terminated, and the number of files. *)
Theorem file_list_roundtrip n rest : Forall nameOk (n :: rest) -> Z.of_nat (length (n :: rest)) <= 1000000 -> Forall (fun c => c <> 0) n ->
  exists buffer size first, FileListToBuffer true (Some (n :: rest)) = Some (SOFTBUS_OK, Some (buffer, size)) /\
    BufferToFileList true (Some buffer) size = Some (Some (first, Z.of_nat (length (n :: rest)))) /\ cstr first = Some n.
Proof.
  intros Hn Hl H0. eexists _, _, _. split; [by apply toBuffer_spec|]. split; [by apply fromBuffer_spec|].
  apply Forall_cons in Hn as [[H1 H2] _]. replace (Z.to_nat (MAX_FILE_PATH_NAME_LEN + 1 - len n)) with (S (Z.to_nat (MAX_FILE_PATH_NAME_LEN - len n))) by lia.
  cbn [replicate]. by apply cstr_terminated.
Qed.

Lemma file_list_roundtrip_witness : exists buffer size first,
  FileListToBuffer true (Some [[97; 98]; [99]]) = Some (SOFTBUS_OK, Some (buffer, size)) /\
  BufferToFileList true (Some buffer) size = Some (Some (first, 2)) /\ cstr first = Some [97; 98].
Proof.
  apply (file_list_roundtrip [97; 98] [[99]]).
  - repeat constructor; vm_compute; discriminate || reflexivity.
  - vm_compute. discriminate.
  - repeat constructor; discriminate.
Defined.

(** ** Paths *)

(** The name behind the last separator has none. *)
Lemma sepLoop_spec p i : (i < length p)%nat -> (sepLoop p i <= S i)%nat /\
  (forall j, (sepLoop p i <= j <= i)%nat -> p !! j <> Some PATH_SEPARATOR) /\
  (sepLoop p i = 0%nat \/ p !! pred (sepLoop p i) = Some PATH_SEPARATOR).
Proof.
  induction i as [|i IH]; intros Hi; cbn [sepLoop]; case_bool_decide as E.
  - split_and!; [lia|intros j Hj; lia|by right].
  - split_and!; [lia| |by left]. intros j Hj. by replace j with 0%nat by lia.
  - split_and!; [lia|intros j Hj; lia|by right].
  - destruct IH as (H1 & H2 & H3); [lia|]. split_and!; [lia| |done]. intros j Hj.
    destruct (decide (j = S i)) as [-> |]; [done|]. apply H2. lia.
Qed.

End ProxyCommon.
