(* ===== verification/ProxyFile.v ===== *)
(** * File transfer over proxy channels

    Models [client_trans_proxy_file_manager.c] and [client_trans_pending.c] of
    [sdk/transmission/trans_channel/proxy]: a file is sent in frames with
    sequence numbers and checksums, the receiver writes them to a file and
    acknowledges windows of 32 frames, lost frames are sent again, and a sum
    of the checksums is compared at the end.  This file has the memory, the
    system calls, the receiver and what wakes a sender; [ProxySend] has the
    sender.

    [World] is the memory of a process: the recipients as objects of a heap
    (an access to a released one has no result), the transfers being sent,
    the packets being waited for, the files with their descriptors, what was
    sent and which callbacks were called.  What the system answers is a list
    of numbers, one for each question: 0 is success, for [pread] and [pwrite]
    a positive number is a short count, anything else is failure; an empty
    list stands for success.  A handler of a frame is one step, and so is a
    tick of the timer.  While the sender sends or waits, the frames of
    [inbox] arrive.

    A call that never returns has no result either.

    Numbers in frames have the order of the host, which is little-endian.  The
    shift [0x01 << 31] has the result the compilers give it.  [realpath] and
    the session service are arguments. *)

From S2P Require Import Prelude Errno Bytes Adapter ProxyCommon.
Import Errno Bytes.
Import ProxyCommon.ProxyCommon.

Module ProxyFile.

Definition MAX_SEND_FILE_NUM : Z := 10.
Definition MAX_FILE_SIZE : Z := 5242880.
Definition FILE_MAGIC_NUMBER : Z := 3133078222.
Definition PROXY_MAX_PACKET_SIZE : Z := 976.
Definition FRAME_MAGIC_OFFSET : Z := 4.
Definition FRAME_HEAD_LEN : Z := 12.
Definition FRAME_DATA_SEQ_OFFSET : Z := 4.
Definition FRAME_CRC_LEN : Z := 2.
Definition IS_SEND_RESULT : Z := 1.
Definition IS_RECV_RESULT : Z := 0.
Definition FILE_SEND_ACK_RESULT_SUCCESS : Z := 4294967295.
Definition FILE_SEND_ACK_INTERVAL : Z := 32.
Definition WAIT_FRAME_ACK_TIMEOUT_COUNT : Z := 24.
Definition FILE_TRANS_TIMEOUT : Z := 10.
Definition APP_INFO_FILE_FEATURES_SUPPORT : Z := 1.
Definition PATH_MAX : Z := 4096.

Definition TRANS_FILE_RECV_IDLE_STATE : Z := 0.
Definition TRANS_FILE_RECV_START_STATE : Z := 1.
Definition TRANS_FILE_RECV_PROCESS_STATE : Z := 2.
Definition TRANS_FILE_RECV_ERR_STATE : Z := 3.
Definition NODE_IDLE : Z := 0.
Definition NODE_BUSY : Z := 1.
Definition NODE_ERR : Z := 2.

(** ** Numbers in the order of the host *)

Definition leBytes (n : nat) (x : Z) : bytes := rev (be_bytes n x).
Definition le32 (b : bytes) (off : Z) : option Z := (fun s => be_val (rev s)) <$> get b off 4.
Definition le64 (b : bytes) (off : Z) : option Z := (fun s => be_val (rev s)) <$> get b off 8.
Definition le16 (b : bytes) (off : Z) : option Z := (fun s => be_val (rev s)) <$> get b off 2.

(** ** Data *)

Record SingleFileInfo := MkFile {
  seq : Z; fileFd : Z; fileStatus : Z; fileOffset : Z; oneFrameLen : Z; startSeq : Z; seqResult : Z; preStartSeq : Z;
  preSeqResult : Z; fileSize : Z; timeOut : Z; checkSumCRC : Z; filePath : bytes }.

(** Which callbacks the application registered. *)
Record FileListener := MkListener {
  rootDir : text; onReceiveFileStarted : bool; onReceiveFileProcess : bool; onReceiveFileFinished : bool; onRecvError : bool;
  onSendFileProcess : bool; onSendFileFinished : bool; onSendError : bool }.

Record FileRecipientInfo := MkRecipient {
  sessionId : Z; channelId : Z; crc : Z; result : Z; fileListener : FileListener; objRefCount : Z; recvState : Z;
  recvFileInfo : SingleFileInfo }.

Record SendListenerInfo := MkSend {
  sChannelId : Z; sSessionId : Z; sFd : Z; sFileSize : Z; sFrameNum : Z; sCrc : Z; sSeq : Z; waitSeq : Z; waitTimeoutCount : Z;
  sResult : Z; sCheckSum : Z; sListener : FileListener }.

(** A packet that is waited for; the data is an [AckResponseData]. *)
Record PendingPacket := MkPending { pId : Z; pSeq : Z; finded : bool; pData : option (Z * Z) }.

Record FileFrame := MkFrame { frameType : Z; frameLength : Z; frameSeq : Z; frameData : option bytes }.

Inductive Event :=
| Started (sessionId : Z) (path : text)
| Progress (sessionId : Z) (path : text) (offset size : Z)
| Finished (sessionId : Z) (path : text) (count : Z)
| Failed (sessionId : Z)
| SendProgress (channelId offset size : Z)
| SendDone (sessionId : Z) (file : text).

(** A message: channel, type and bytes. *)
Record Message := MkMessage { mChannel : Z; mType : Z; mBytes : bytes }.

Record World := MkWorld {
  recs : gmap Z FileRecipientInfo; recvList : list Z; nextRec : Z;
  sends : gmap Z SendListenerInfo; pending : list PendingPacket; fileLocks : gmap Z Z; pendingHeld : bool;
  disk : gmap text bytes; fds : gmap Z text; nextFd : Z;
  out : list Message; events : list Event; answers : list Z; inbox : list (list (Z * Z * FileFrame)) }.

Definition setRecs (r : gmap Z FileRecipientInfo) (l : list Z) (w : World) : World :=
  MkWorld r l (nextRec w) (sends w) (pending w) (fileLocks w) (pendingHeld w) (disk w) (fds w) (nextFd w) (out w) (events w) (answers w) (inbox w).
Definition setSends (s : gmap Z SendListenerInfo) (w : World) : World :=
  MkWorld (recs w) (recvList w) (nextRec w) s (pending w) (fileLocks w) (pendingHeld w) (disk w) (fds w) (nextFd w) (out w) (events w) (answers w) (inbox w).
Definition setPending (p : list PendingPacket) (w : World) : World :=
  MkWorld (recs w) (recvList w) (nextRec w) (sends w) p (fileLocks w) (pendingHeld w) (disk w) (fds w) (nextFd w) (out w) (events w) (answers w) (inbox w).
Definition setLocks (l : gmap Z Z) (w : World) : World :=
  MkWorld (recs w) (recvList w) (nextRec w) (sends w) (pending w) l (pendingHeld w) (disk w) (fds w) (nextFd w) (out w) (events w) (answers w) (inbox w).
Definition holdPending (w : World) : World :=
  MkWorld (recs w) (recvList w) (nextRec w) (sends w) (pending w) (fileLocks w) true (disk w) (fds w) (nextFd w) (out w) (events w) (answers w) (inbox w).
Definition setDisk (d : gmap text bytes) (w : World) : World :=
  MkWorld (recs w) (recvList w) (nextRec w) (sends w) (pending w) (fileLocks w) (pendingHeld w) d (fds w) (nextFd w) (out w) (events w) (answers w) (inbox w).
Definition setFds (f : gmap Z text) (n : Z) (w : World) : World :=
  MkWorld (recs w) (recvList w) (nextRec w) (sends w) (pending w) (fileLocks w) (pendingHeld w) (disk w) f n (out w) (events w) (answers w) (inbox w).
Definition setAnswers (a : list Z) (w : World) : World :=
  MkWorld (recs w) (recvList w) (nextRec w) (sends w) (pending w) (fileLocks w) (pendingHeld w) (disk w) (fds w) (nextFd w) (out w) (events w) a (inbox w).
Definition setInbox (i : list (list (Z * Z * FileFrame))) (w : World) : World :=
  MkWorld (recs w) (recvList w) (nextRec w) (sends w) (pending w) (fileLocks w) (pendingHeld w) (disk w) (fds w) (nextFd w) (out w) (events w) (answers w) i.
Definition put_message (m : Message) (w : World) : World :=
  MkWorld (recs w) (recvList w) (nextRec w) (sends w) (pending w) (fileLocks w) (pendingHeld w) (disk w) (fds w) (nextFd w) (out w ++ [m]) (events w) (answers w) (inbox w).
Definition note (e : Event) (w : World) : World :=
  MkWorld (recs w) (recvList w) (nextRec w) (sends w) (pending w) (fileLocks w) (pendingHeld w) (disk w) (fds w) (nextFd w) (out w) (events w ++ [e]) (answers w) (inbox w).

Abbreviation P := (M World).

(** ** The system *)

Definition ask : P Z := fun w => match answers w with [] => Some (0, w) | a :: rest => Some (a, setAnswers rest w) end.

(** Whether something succeeds: a lock, memory for a structure. *)
Definition ok : P bool := a ← ask; mret (a =? 0).

Definition alloc (size : Z) : P bool := a ← ok; mret (Adapter.Mem.SoftBusCalloc a (u32 size)).

Definition when (b : bool) (m : P unit) : P unit := if b then m else mret tt.

(** A callback that is there. *)
Definition call (present : bool) (e : Event) : P unit := when present (modify (note e)).

(** [writeAt c off bs]: the content after a write. *)
Definition writeAt (c : bytes) (off : Z) (bs : bytes) : bytes :=
  take (Z.to_nat off) (c ++ replicate (Z.to_nat (off - len c)) 0) ++ bs ++ drop (Z.to_nat off + length bs) c.

(** How many of [n] bytes a call moves that was answered [a]. *)
Definition moved (a n : Z) : Z := if a =? 0 then n else if 0 <? a then Z.min a n else -1.

Definition SoftBusPwriteFile (fd : Z) (buf : bytes) (offset : Z) : P Z :=
  a ← ask;
  f ← gets (fun w => fds w !! fd);
  match f with
  | None => mret (-1)
  | Some path =>
      let n := if 2 ^ 63 <=? offset then -1 else moved a (len buf) in
      if n <? 0 then mret (-1)
      else
        d ← gets disk;
        let c := default [] (d !! path) in
        modify (setDisk (<[path := if n =? 0 then c else writeAt c offset (take (Z.to_nat n) buf)]> d));; mret n
  end.

(** The bytes that are read, with their number, or [-1]. *)
Definition SoftBusPreadFile (fd readBytes offset : Z) : P (Z * bytes) :=
  a ← ask;
  f ← gets (fun w => fds w !! fd);
  match f with
  | None => mret (-1, [])
  | Some path =>
      c ← gets (fun w => default [] (disk w !! path));
      let there := take (Z.to_nat readBytes) (drop (Z.to_nat offset) c) in
      let n := moved a (len there) in
      if n <? 0 then mret (-1, []) else mret (n, take (Z.to_nat n) there)
  end.

(** A descriptor for a path, or [-1]; [create] makes a file that is not there. *)
Definition openFile (create : bool) (path : text) : P Z :=
  b ← ok;
  d ← gets disk;
  if negb b || (negb create && negb (bool_decide (is_Some (d !! path)))) then mret (-1)
  else
    f ← gets fds; n ← gets nextFd;
    modify (setDisk (<[path := default [] (d !! path)]> d));; modify (setFds (<[n := path]> f) (n + 1));; mret n.

Definition SoftBusOpenFile (path : text) : P Z := openFile false path.
Definition SoftBusOpenFileWithPerms (path : text) : P Z := openFile true path.

Definition SoftBusCloseFile (fd : Z) : P unit :=
  if fd <=? -1 then mret tt else f ← gets fds; n ← gets nextFd; modify (setFds (delete fd f) n).

Definition SoftBusRemoveFile (path : text) : P unit := b ← ok; when b (d ← gets disk; modify (setDisk (delete path d))).

(** [(void)ftruncate(fd, 0)]: a failure leaves the file as it is and goes
    unnoticed. *)
Definition ftruncate (fd : Z) : P unit :=
  b ← ok;
  f ← gets (fun w => fds w !! fd);
  match f with
  | None => mret tt
  | Some path => when b (d ← gets disk; modify (setDisk (<[path := []]> d)))
  end.

(** Two attempts to lock a file. *)
Definition tryLock (fd : Z) : P Z := a ← ok; b ← ok; mret (TryFileLock fd [a; b]).

Definition unlockFile (fd : Z) : P unit := a ← ok; let _ := FileUnLock a fd in mret tt.

Definition SoftBusGetFileSize (path : text) : P (option Z) :=
  b ← ok; c ← gets (fun w => disk w !! path); mret (if b : bool then len <$> c else None).

(** ** Sending *)

Definition ProxyChannelSendFileStream (ch : Z) (data : bytes) (type : Z) : P Z :=
  b ← ok;
  if b : bool then modify (put_message (MkMessage ch type data));; mret SOFTBUS_OK else mret SOFTBUS_ERR.

Definition resultBytes (sq side res : Z) : bytes :=
  leBytes 4 FILE_MAGIC_NUMBER ++ leBytes 8 (FRAME_DATA_SEQ_OFFSET + 8) ++ leBytes 4 sq ++ leBytes 4 side ++ leBytes 4 res.

Definition SendFileTransResult (ch sq res side : Z) : P Z :=
  m ← alloc (FRAME_HEAD_LEN + FRAME_DATA_SEQ_OFFSET + 8);
  if negb m then mret SOFTBUS_MALLOC_ERR
  else ProxyChannelSendFileStream ch (resultBytes sq side res) TRANS_SESSION_FILE_RESULT_FRAME.

(** The code, and sequence number, result and side. *)
Definition UnpackFileTransResultFrame (data : option bytes) (length : Z) : option (Z * (Z * Z * Z)) :=
  match data with
  | None => Some (SOFTBUS_TRANS_INVALID_DATA_LENGTH, (0, 0, 0))
  | Some d =>
      if length <? FRAME_HEAD_LEN + FRAME_DATA_SEQ_OFFSET + FRAME_DATA_SEQ_OFFSET then Some (SOFTBUS_TRANS_INVALID_DATA_LENGTH, (0, 0, 0))
      else
        magic ← le32 d 0;
        dataLen ← le64 d FRAME_MAGIC_OFFSET;
        if negb (magic =? FILE_MAGIC_NUMBER) || negb (dataLen =? FRAME_DATA_SEQ_OFFSET + 8) then Some (SOFTBUS_INVALID_DATA_HEAD, (0, 0, 0))
        else
          sq ← le32 d FRAME_HEAD_LEN;
          side ← le32 d (FRAME_HEAD_LEN + FRAME_DATA_SEQ_OFFSET);
          res ← le32 d (FRAME_HEAD_LEN + FRAME_DATA_SEQ_OFFSET + 4);
          Some (SOFTBUS_OK, (sq, s32 res, side))
  end.

Definition ackBytes (start value : Z) : bytes :=
  leBytes 4 FILE_MAGIC_NUMBER ++ leBytes 8 (FRAME_DATA_SEQ_OFFSET + FRAME_DATA_SEQ_OFFSET) ++ leBytes 4 start ++ leBytes 4 value.

Definition SendFileAckReqAndResData (ch start value type : Z) : P Z :=
  m ← alloc (FRAME_HEAD_LEN + FRAME_DATA_SEQ_OFFSET + FRAME_DATA_SEQ_OFFSET);
  if negb m then mret SOFTBUS_MALLOC_ERR else ProxyChannelSendFileStream ch (ackBytes start value) type.

Definition UnpackAckReqAndResData (frame : FileFrame) : option (Z * (Z * Z)) :=
  match frameData frame with
  | None => Some (SOFTBUS_INVALID_PARAM, (0, 0))
  | Some d =>
      if frameLength frame <? FRAME_HEAD_LEN + FRAME_DATA_SEQ_OFFSET + FRAME_DATA_SEQ_OFFSET then Some (SOFTBUS_TRANS_INVALID_DATA_LENGTH, (0, 0))
      else
        magic ← le32 d 0;
        dataLen ← le64 d FRAME_MAGIC_OFFSET;
        if negb (magic =? FILE_MAGIC_NUMBER) || (dataLen <? FRAME_DATA_SEQ_OFFSET + FRAME_DATA_SEQ_OFFSET) then Some (SOFTBUS_INVALID_DATA_HEAD, (0, 0))
        else
          start ← le32 d FRAME_HEAD_LEN;
          value ← le32 d (FRAME_HEAD_LEN + FRAME_DATA_SEQ_OFFSET);
          Some (SOFTBUS_OK, (start, value))
  end.

(** ** Recipients *)

Definition getRec (a : Z) : P FileRecipientInfo := o ← gets (fun w => recs w !! a); lift o.

Definition putRec (a : Z) (r : FileRecipientInfo) : P unit := modify (fun w => setRecs (<[a := r]> (recs w)) (recvList w) w).

(** Taking out of the list, and release. *)
Definition unlinkRec (a : Z) : P unit := modify (fun w => setRecs (recs w) (filter (fun x => x <> a) (recvList w)) w).
Definition freeRec (a : Z) : P unit := modify (fun w => setRecs (delete a (recs w)) (recvList w) w).

Definition setFile (f : SingleFileInfo) (r : FileRecipientInfo) : FileRecipientInfo :=
  MkRecipient (sessionId r) (channelId r) (crc r) (result r) (fileListener r) (objRefCount r) (recvState r) f.
Definition setState (s : Z) (r : FileRecipientInfo) : FileRecipientInfo :=
  MkRecipient (sessionId r) (channelId r) (crc r) (result r) (fileListener r) (objRefCount r) s (recvFileInfo r).
Definition setRefs (n : Z) (r : FileRecipientInfo) : FileRecipientInfo :=
  MkRecipient (sessionId r) (channelId r) (crc r) (result r) (fileListener r) n (recvState r) (recvFileInfo r).
Definition setResult (x : Z) (r : FileRecipientInfo) : FileRecipientInfo :=
  MkRecipient (sessionId r) (channelId r) (crc r) x (fileListener r) (objRefCount r) (recvState r) (recvFileInfo r).

Definition setFd (fd : Z) (f : SingleFileInfo) : SingleFileInfo :=
  MkFile (seq f) fd (fileStatus f) (fileOffset f) (oneFrameLen f) (startSeq f) (seqResult f) (preStartSeq f) (preSeqResult f) (fileSize f)
    (timeOut f) (checkSumCRC f) (filePath f).
Definition setFileStatus (st : Z) (f : SingleFileInfo) : SingleFileInfo :=
  MkFile (seq f) (fileFd f) st (fileOffset f) (oneFrameLen f) (startSeq f) (seqResult f) (preStartSeq f) (preSeqResult f) (fileSize f)
    (timeOut f) (checkSumCRC f) (filePath f).
Definition setTimeOut (t : Z) (f : SingleFileInfo) : SingleFileInfo :=
  MkFile (seq f) (fileFd f) (fileStatus f) (fileOffset f) (oneFrameLen f) (startSeq f) (seqResult f) (preStartSeq f) (preSeqResult f)
    (fileSize f) t (checkSumCRC f) (filePath f).
Definition setOffset (o : Z) (f : SingleFileInfo) : SingleFileInfo :=
  MkFile (seq f) (fileFd f) (fileStatus f) o (oneFrameLen f) (startSeq f) (seqResult f) (preStartSeq f) (preSeqResult f) (fileSize f)
    (timeOut f) (checkSumCRC f) (filePath f).
Definition setSeq (s : Z) (f : SingleFileInfo) : SingleFileInfo :=
  MkFile s (fileFd f) (fileStatus f) (fileOffset f) (oneFrameLen f) (startSeq f) (seqResult f) (preStartSeq f) (preSeqResult f) (fileSize f)
    (timeOut f) (checkSumCRC f) (filePath f).
Definition setWindow (s sr ps psr : Z) (f : SingleFileInfo) : SingleFileInfo :=
  MkFile (seq f) (fileFd f) (fileStatus f) (fileOffset f) (oneFrameLen f) s sr ps psr (fileSize f) (timeOut f) (checkSumCRC f) (filePath f).
Definition setSum (c : Z) (f : SingleFileInfo) : SingleFileInfo :=
  MkFile (seq f) (fileFd f) (fileStatus f) (fileOffset f) (oneFrameLen f) (startSeq f) (seqResult f) (preStartSeq f) (preSeqResult f)
    (fileSize f) (timeOut f) c (filePath f).

(** The text of a path in its array; without terminator there is no result. *)
Definition pathOf (f : SingleFileInfo) : P text := lift (cstr (filePath f)).

Definition ClearRecipientResources (a : Z) : P unit :=
  r ← getRec a;
  let fd := fileFd (recvFileInfo r) in
  (if negb (fd =? INVALID_FD) then unlockFile fd;; SoftBusCloseFile fd;; putRec a (setFile (setFd INVALID_FD (recvFileInfo r)) r) else mret tt);;
  if recvState r =? TRANS_FILE_RECV_ERR_STATE then
    path ← pathOf (recvFileInfo r);
    SoftBusRemoveFile path;;
    (if crc r =? APP_INFO_FILE_FEATURES_SUPPORT then
       SendFileTransResult (channelId r) (seq (recvFileInfo r)) SOFTBUS_ERR IS_RECV_RESULT;; mret tt
     else mret tt);;
    call (onRecvError (fileListener r)) (Failed (sessionId r))
  else mret tt.

Definition SetRecipientRecvState (a state : Z) : P unit :=
  l ← ok;
  if negb l then mret tt
  else
    r ← getRec a;
    if negb (recvState r =? TRANS_FILE_RECV_ERR_STATE) then
      putRec a (setState state
        (if state =? TRANS_FILE_RECV_IDLE_STATE then setFile (setFileStatus NODE_IDLE (recvFileInfo r)) r else r))
    else mret tt.

(** One reference less; the last one releases. *)
Definition dropRef (a : Z) : P unit :=
  r ← getRec a;
  putRec a (setRefs (objRefCount r - 1) r);;
  if objRefCount r - 1 =? 0 then unlinkRec a;; ClearRecipientResources a;; freeRec a else mret tt.

Definition ReleaseRecipientRef (a : Z) : P unit := l ← ok; if negb l then mret tt else dropRef a.

(** The first recipient of a session. *)
Definition findRec (w : World) (sid : Z) : option Z :=
  List.find (fun a => bool_decide (sessionId <$> recs w !! a = Some sid)) (recvList w).

Definition GetRecipientNoLock (sid : Z) : P (option Z) := gets (fun w => findRec w sid).

Definition DelRecipient (sid : Z) : P unit :=
  l ← ok;
  if negb l then mret tt
  else a ← GetRecipientNoLock sid; match a with None => mret tt | Some a => dropRef a end.

(** The timer, for one recipient of the list. *)
Definition timerOne (a : Z) : P unit :=
  r ← getRec a;
  if recvState r =? TRANS_FILE_RECV_IDLE_STATE then mret tt
  else if FILE_TRANS_TIMEOUT <=? timeOut (recvFileInfo r) then
    putRec a (setRefs (objRefCount r - 1) (setState TRANS_FILE_RECV_ERR_STATE (setFile (setTimeOut 0 (setFileStatus NODE_ERR (recvFileInfo r))) r)));;
    unlinkRec a;;
    if objRefCount r - 1 =? 0 then ClearRecipientResources a;; freeRec a else mret tt
  else putRec a (setFile (setTimeOut (timeOut (recvFileInfo r) + 1) (recvFileInfo r)) r).

Fixpoint timerLoop (l : list Z) : P unit :=
  match l with [] => mret tt | a :: rest => timerOne a;; timerLoop rest end.

Definition ProxyFileTransTimerProc : P unit := l ← ok; if negb l then mret tt else rs ← gets recvList; timerLoop rs.

(** ** Paths of the receiver *)

Section Transfer.

(** The session service of the client: the session of a channel, the name and
    the features of a session, the listener of a name. *)
Record Client := MkClient {
  sessionOf : Z -> option Z; nameOf : Z -> option text; configOf : Z -> option Z; listenerOf : text -> option FileListener }.

Context (realpath : text -> option text) (cl : Client).

Definition GetFullRecvPath (path root : option text) : P (option text) :=
  match path, root with
  | Some p, Some d =>
      let isNeedAddSep := negb (bool_decide (head p = Some PATH_SEPARATOR) || endsWithSep d) in
      let length := if isNeedAddSep then len d + 4 + len p else len d + len p in
      m ← alloc (length + 1);
      mret (if negb m then None else Some (if isNeedAddSep then d ++ [PATH_SEPARATOR] ++ p else d ++ p))
  | _, _ => mret None
  end.

(** The code, and the directory. *)
Definition GetDirPath (fullPath : option text) (dirPathLen : Z) : Z * text :=
  match fullPath with
  | None => (SOFTBUS_INVALID_PARAM, [])
  | Some p =>
      if (len p <? 1) || endsWithSep p then (SOFTBUS_INVALID_PARAM, [])
      else
        let dirLen := sepLoop p (length p - 1) in
        if dirPathLen <=? Z.of_nat dirLen then (SOFTBUS_INVALID_PARAM, []) else (SOFTBUS_OK, take dirLen p)
  end.

Definition GetAbsFullPath (fullPath : option text) (pathSize : Z) : P (Z * text) :=
  m ← alloc MAX_FILE_PATH_NAME_LEN;
  if negb m then mret (SOFTBUS_MALLOC_ERR, [])
  else
    let '(r, dirPath) := GetDirPath fullPath MAX_FILE_PATH_NAME_LEN in
    if negb (r =? SOFTBUS_OK) then mret (SOFTBUS_INVALID_PARAM, [])
    else
      m ← alloc (PATH_MAX + 1);
      if negb m then mret (SOFTBUS_MALLOC_ERR, [])
      else
        match TransGetFileName fullPath with
        | None => mret (SOFTBUS_ERR, [])
        | Some fileName =>
            let '(r, absFullDir) := GetAndCheckRealPath realpath (Some dirPath) in
            if negb (r =? SOFTBUS_OK) then mret (SOFTBUS_ERR, [])
            else
              let d := default [] absFullDir in
              if pathSize <? len fileName + len d + 1 then mret (SOFTBUS_ERR, [])
              else if pathSize <? len fileName + len d + 2 then mret (SOFTBUS_ERR, [])
              else mret (SOFTBUS_OK, d ++ [PATH_SEPARATOR] ++ fileName)
        end.

(** The loop over the characters that makes the directories. *)
Fixpoint makeDirs (rest : text) : P Z :=
  match rest with
  | [] => mret SOFTBUS_OK
  | c :: rest' =>
      if negb (c =? PATH_SEPARATOR) then makeDirs rest'
      else
        there ← ok;
        if there : bool then makeDirs rest'
        else made ← ok; if made : bool then makeDirs rest' else mret SOFTBUS_ERR
  end.

Definition CreateDirAndGetAbsPath (path : option text) (pathSize : Z) : P (Z * text) :=
  match path with
  | None => mret (SOFTBUS_INVALID_PARAM, [])
  | Some p =>
      m ← alloc (len p + 1);
      if negb m then mret (SOFTBUS_MALLOC_ERR, [])
      else r ← makeDirs p; if negb (r =? SOFTBUS_OK) then mret (SOFTBUS_ERR, []) else GetAbsFullPath path pathSize
  end.

(** ** The first frame *)

Definition emptyFile (fd : Z) : SingleFileInfo := MkFile 0 fd NODE_IDLE 0 0 0 0 0 0 0 0 0 (replicate (Z.to_nat MAX_FILE_PATH_NAME_LEN) 0).

Definition setStart (frameLen size : Z) (f : SingleFileInfo) : SingleFileInfo :=
  MkFile (seq f) (fileFd f) (fileStatus f) (fileOffset f) frameLen 1 0 1 0 size (timeOut f) (checkSumCRC f) (filePath f).

Definition setPath (p : bytes) (f : SingleFileInfo) : SingleFileInfo :=
  MkFile (seq f) (fileFd f) (fileStatus f) (fileOffset f) (oneFrameLen f) (startSeq f) (seqResult f) (preStartSeq f) (preSeqResult f)
    (fileSize f) (timeOut f) (checkSumCRC f) p.

(** The name of [n] bytes at [off] of the frame. *)
Definition unpackName (d : bytes) (off n : Z) (file : SingleFileInfo) : option (Z * SingleFileInfo) :=
  if MAX_FILE_PATH_NAME_LEN <? n then Some (SOFTBUS_INVALID_PARAM, file)
  else if 0 <? n then
    name ← get d off n;
    '(r, p) ← memcpy_s (filePath file) 0 MAX_FILE_PATH_NAME_LEN name n;
    Some (if r : bool then SOFTBUS_OK else SOFTBUS_MEM_ERR, setPath p file)
  else Some (SOFTBUS_OK, file).

Definition UnpackFileTransStartInfo (frame : FileFrame) (crcFlag : Z) (file : SingleFileInfo) : option (Z * SingleFileInfo) :=
  if crcFlag =? APP_INFO_FILE_FEATURES_SUPPORT then
    if frameLength frame <? FRAME_HEAD_LEN + FRAME_DATA_SEQ_OFFSET then Some (SOFTBUS_INVALID_PARAM, file)
    else
      d ← frameData frame;
      magic ← le32 d 0;
      dataLen ← le64 d FRAME_MAGIC_OFFSET;
      if negb (magic =? FILE_MAGIC_NUMBER) || (dataLen <? FRAME_DATA_SEQ_OFFSET + 8) then Some (SOFTBUS_ERR, file)
      else
        one ← le32 d FRAME_HEAD_LEN;
        size ← le64 d (FRAME_HEAD_LEN + FRAME_DATA_SEQ_OFFSET);
        unpackName d (FRAME_HEAD_LEN + FRAME_DATA_SEQ_OFFSET + 8) (dataLen - FRAME_DATA_SEQ_OFFSET - 8) (setStart one size file)
  else
    if frameLength frame <? FRAME_DATA_SEQ_OFFSET then Some (SOFTBUS_ERR, file)
    else
      d ← frameData frame;
      sq ← le32 d 0;
      unpackName d (FRAME_DATA_SEQ_OFFSET + 8) (frameLength frame - FRAME_DATA_SEQ_OFFSET) (setSeq sq file).

Definition arrayOf (t : text) : bytes := t ++ replicate (Z.to_nat (MAX_FILE_PATH_NAME_LEN - len t)) 0.

(** [file] is the zeroed structure of the caller. *)
Definition GetFileInfoByStartFrame (frame : FileFrame) (a : Z) (file : SingleFileInfo) : P (Z * SingleFileInfo) :=
  r ← getRec a;
  let root := rootDir (fileListener r) in
  if hasDots root then mret (SOFTBUS_ERR, file)
  else
    '(e, file1) ← lift (UnpackFileTransStartInfo frame (crc r) file);
    if negb (e =? SOFTBUS_OK) then mret (SOFTBUS_ERR, file1)
    else
      name ← pathOf file1;
      if negb (CheckDestFilePathValid (Some name)) then mret (SOFTBUS_ERR, file1)
      else
        full ← GetFullRecvPath (Some name) (Some root);
        if negb (IsPathValid full) then mret (SOFTBUS_ERR, file1)
        else
          '(e, path) ← CreateDirAndGetAbsPath full MAX_FILE_PATH_NAME_LEN;
          if negb (e =? SOFTBUS_OK) then mret (SOFTBUS_ERR, setPath (arrayOf []) file1)
          else mret (SOFTBUS_OK, setPath (arrayOf path) file1).

(** Whether a file is being received into the same path. *)
Definition isBusy (w : World) (path : text) (a : Z) : bool :=
  match recs w !! a with
  | None => false
  | Some r =>
      if (recvState r =? TRANS_FILE_RECV_IDLE_STATE) || negb (fileStatus (recvFileInfo r) =? NODE_BUSY) then false
      else bool_decide (cstr (filePath (recvFileInfo r)) = Some path)
  end.

Definition CheckRecvFileExist (path : text) : P bool :=
  l ← ok; if negb l then mret false else gets (fun w => existsb (isBusy w path) (recvList w)).

Definition PutToRecvFileList (a : Z) (file : SingleFileInfo) : P Z :=
  r ← getRec a;
  if negb (fileStatus (recvFileInfo r) =? NODE_IDLE) then mret SOFTBUS_ERR
  else
    path ← pathOf file;
    busy ← CheckRecvFileExist path;
    if busy : bool then mret SOFTBUS_FILE_ERR
    else
      putRec a (setFile file r);;
      fd ← SoftBusOpenFileWithPerms path;
      if fd <? 0 then mret SOFTBUS_FILE_ERR
      else
        e ← tryLock fd;
        if negb (e =? SOFTBUS_OK) then SoftBusCloseFile fd;; mret SOFTBUS_FILE_ERR
        else
          ftruncate fd;;
          putRec a (setFile (setFd fd (setTimeOut 0 (setOffset 0 (setFileStatus NODE_BUSY file)))) r);;
          mret SOFTBUS_OK.

Definition CreateNewRecipient (sid ch : Z) : P (option Z) :=
  old ← GetRecipientNoLock sid;
  match old with
  | Some _ => mret None
  | None =>
      m ← ok;
      if negb m then mret None
      else
        match nameOf cl sid, configOf cl sid with
        | Some name, Some c =>
            match listenerOf cl name with
            | None => mret None
            | Some fl =>
                a ← gets nextRec;
                modify (fun w => MkWorld
                  (<[a := MkRecipient sid ch c 0 fl 1 TRANS_FILE_RECV_IDLE_STATE (emptyFile INVALID_FD)]> (recs w)) (recvList w ++ [a]) (a + 1)
                  (sends w) (pending w) (fileLocks w) (pendingHeld w) (disk w) (fds w) (nextFd w) (out w) (events w) (answers w) (inbox w));;
                mret (Some a)
            end
        | _, _ => mret None
        end
  end.

Definition GetRecipientInCreateFileRef (sid ch : Z) : P (option Z) :=
  l ← ok;
  if negb l then mret None
  else
    old ← GetRecipientNoLock sid;
    found ← match old with Some a => mret (Some a) | None => CreateNewRecipient sid ch end;
    match found with
    | None => mret None
    | Some a =>
        r ← getRec a;
        if negb (recvState r =? TRANS_FILE_RECV_IDLE_STATE) then mret None
        else putRec a (setRefs (objRefCount r + 1) (setState TRANS_FILE_RECV_START_STATE r));; mret (Some a)
    end.

Definition GetRecipientInProcessRef (sid : Z) : P (option Z) :=
  l ← ok;
  if negb l then mret None
  else
    found ← GetRecipientNoLock sid;
    match found with
    | None => mret None
    | Some a =>
        r ← getRec a;
        if recvState r =? TRANS_FILE_RECV_IDLE_STATE then mret None
        else
          putRec a (setRefs (objRefCount r + 1)
            (if recvState r =? TRANS_FILE_RECV_START_STATE then setState TRANS_FILE_RECV_PROCESS_STATE r else r));;
          mret (Some a)
    end.

(** Reporting to the sender, with checksums only. *)
Definition report (r : FileRecipientInfo) (ch sq res : Z) : P unit :=
  if crc r =? APP_INFO_FILE_FEATURES_SUPPORT then SendFileTransResult ch sq res IS_RECV_RESULT;; mret tt else mret tt.

(** The exit with an error. *)
Definition createFailed (a sid ch : Z) : P Z :=
  r ← getRec a;
  report r ch 0 SOFTBUS_ERR;;
  call (onRecvError (fileListener r)) (Failed sid);;
  ReleaseRecipientRef a;;
  DelRecipient sid;;
  mret SOFTBUS_ERR.

Definition CreateFileFromFrame (sid ch : Z) (frame : FileFrame) : P Z :=
  got ← GetRecipientInCreateFileRef sid ch;
  match got with
  | None => mret SOFTBUS_ERR
  | Some a =>
      m ← ok;
      if negb m then createFailed a sid ch
      else
        '(e, file) ← GetFileInfoByStartFrame frame a (emptyFile 0);
        if negb (e =? SOFTBUS_OK) then createFailed a sid ch
        else
          e ← PutToRecvFileList a file;
          if negb (e =? SOFTBUS_OK) then createFailed a sid ch
          else
            r ← getRec a;
            path ← pathOf file;
            call (onReceiveFileStarted (fileListener r)) (Started sid path);;
            ReleaseRecipientRef a;;
            r ← getRec a;
            report r ch 0 SOFTBUS_OK;;
            mret SOFTBUS_OK
  end.

(** ** Data frames *)

(** What a data frame holds: sequence number, checksum, length and bytes. *)
Record FrameInfo := MkInfo { iSeq : Z; iCrc : Z; iLen : Z; iData : bytes }.

Definition noInfo : FrameInfo := MkInfo 0 0 0 [].

Definition UnpackFileDataFrame (crcFlag : Z) (frame : FileFrame) : option (Z * FrameInfo) :=
  if crcFlag =? APP_INFO_FILE_FEATURES_SUPPORT then
    if frameLength frame <=? FRAME_HEAD_LEN + FRAME_DATA_SEQ_OFFSET + FRAME_CRC_LEN then Some (SOFTBUS_TRANS_INVALID_DATA_LENGTH, noInfo)
    else
      d ← frameData frame;
      magic ← le32 d 0;
      dataLen ← le64 d FRAME_MAGIC_OFFSET;
      if negb (magic =? FILE_MAGIC_NUMBER) || negb (u64 (dataLen + FRAME_HEAD_LEN + FRAME_CRC_LEN) =? frameLength frame) then
        Some (SOFTBUS_INVALID_DATA_HEAD, noInfo)
      else
        sq ← le32 d FRAME_HEAD_LEN;
        recvCRC ← le16 d (FRAME_HEAD_LEN + dataLen);
        crcVal ← RTU_CRC (drop (Z.to_nat (FRAME_HEAD_LEN + FRAME_DATA_SEQ_OFFSET)) d) (dataLen - FRAME_DATA_SEQ_OFFSET);
        if negb (crcVal =? recvCRC) then Some (SOFTBUS_ERR, noInfo)
        else
          data ← get d (FRAME_HEAD_LEN + FRAME_DATA_SEQ_OFFSET) (u32 (u32 dataLen - FRAME_DATA_SEQ_OFFSET));
          Some (SOFTBUS_OK, MkInfo sq crcVal (u32 dataLen) data)
  else
    d ← frameData frame;
    sq ← le32 d 0;
    if frameLength frame <=? FRAME_DATA_SEQ_OFFSET then Some (SOFTBUS_TRANS_INVALID_DATA_LENGTH, noInfo)
    else
      data ← get d FRAME_DATA_SEQ_OFFSET (frameLength frame - FRAME_DATA_SEQ_OFFSET);
      Some (SOFTBUS_OK, MkInfo sq 0 (frameLength frame) data).

(** The loop of [WriteEmptyFrame]. *)
Fixpoint emptyLoop (n : nat) (f : SingleFileInfo) : P (Z * SingleFileInfo) :=
  match n with
  | O => mret (SOFTBUS_OK, f)
  | S n' =>
      emptyLen ← SoftBusPwriteFile (fileFd f) (replicate (Z.to_nat (oneFrameLen f)) 0) (fileOffset f);
      if (emptyLen <? 0) || negb (emptyLen =? oneFrameLen f) then mret (SOFTBUS_ERR, f)
      else emptyLoop n' (setOffset (u64 (fileOffset f + emptyLen)) f)
  end.

Definition WriteEmptyFrame (f : SingleFileInfo) (count : Z) : P (Z * SingleFileInfo) :=
  if 0 <? count then
    m ← alloc (oneFrameLen f);
    if negb m then mret (SOFTBUS_MALLOC_ERR, f) else emptyLoop (Z.to_nat count) f
  else mret (SOFTBUS_OK, f).

(** The bit of a frame in its window, and [0x01 << bit]. *)
Definition frameBit (sq : Z) : Z :=
  let bit := sq mod FILE_SEND_ACK_INTERVAL in if bit =? 0 then FILE_SEND_ACK_INTERVAL - 1 else bit - 1.

Definition oneShl (bit : Z) : Z := s32 (Z.shiftl 1 bit).

(** The write of the data and the sum, with which the function ends. *)
Definition writeData (info : FrameInfo) (offset : Z) (f : SingleFileInfo) : P (Z * SingleFileInfo) :=
  writeLength ← SoftBusPwriteFile (fileFd f) (iData info) offset;
  if (writeLength <? 0) || negb (writeLength =? u32 (iLen info - FRAME_DATA_SEQ_OFFSET)) then mret (SOFTBUS_ERR, f)
  else if startSeq f <=? iSeq info then
    let f1 := setOffset (u64 (fileOffset f + writeLength)) f in
    if MAX_FILE_SIZE <? fileOffset f1 then mret (SOFTBUS_ERR, f1)
    else mret (SOFTBUS_OK, setSum (u64 (checkSumCRC f1 + iCrc info)) f1)
  else mret (SOFTBUS_OK, f).

(** Whether a frame comes so late that the window before must be complete. *)
Definition mustBeComplete (type sq : Z) (f : SingleFileInfo) : bool :=
  (u32 (preStartSeq f + FILE_SEND_ACK_INTERVAL + WAIT_FRAME_ACK_TIMEOUT_COUNT - 1) <=? sq) ||
  ((type =? TRANS_SESSION_FILE_LAST_FRAME) && (FILE_SEND_ACK_INTERVAL <? sq)).

Definition ProcessOneFrameCRC (type : Z) (info : FrameInfo) (f : SingleFileInfo) : P (Z * SingleFileInfo) :=
  let sq := iSeq info in
  if u32 (startSeq f + FILE_SEND_ACK_INTERVAL) <=? sq then mret (SOFTBUS_ERR, f)
  else
    let bit := frameBit sq in
    if startSeq f <=? sq then
      let seqDiff := s32 (sq - seq f - 1) in
      '(e, f1) ← WriteEmptyFrame f seqDiff;
      if negb (e =? SOFTBUS_OK) then mret (SOFTBUS_ERR, f1)
      else if mustBeComplete type sq f1 && negb (Z.land (preSeqResult f1) FILE_SEND_ACK_RESULT_SUCCESS =? FILE_SEND_ACK_RESULT_SUCCESS) then
        mret (SOFTBUS_ERR, f1)
      else
        writeData info (fileOffset f1)
          (setSeq sq (setWindow (startSeq f1) (u64 (Z.lor (seqResult f1) (oneShl bit))) (preStartSeq f1) (preSeqResult f1) f1))
    else
      writeData info (u64 (u32 (sq - 1) * oneFrameLen f))
        (setWindow (startSeq f) (seqResult f) (preStartSeq f) (u32 (Z.lor (preSeqResult f) (oneShl bit))) f).

Definition ProcessOneFrame (type crcFlag : Z) (info : FrameInfo) (f : SingleFileInfo) : P (Z * SingleFileInfo) :=
  if fileStatus f =? NODE_ERR then mret (SOFTBUS_ERR, f)
  else if crcFlag =? APP_INFO_FILE_FEATURES_SUPPORT then ProcessOneFrameCRC type info f
  else
    let frameDataLength := u32 (iLen info - FRAME_DATA_SEQ_OFFSET) in
    let f1 := setSeq (iSeq info) f in
    writeLength ← SoftBusPwriteFile (fileFd f1) (iData info) (fileOffset f1);
    if negb (writeLength =? frameDataLength) then mret (SOFTBUS_ERR, f1)
    else
      let f2 := setOffset (u64 (fileOffset f1 + writeLength)) f1 in
      mret (if MAX_FILE_SIZE <? fileOffset f2 then SOFTBUS_ERR else SOFTBUS_OK, f2).

(** Storing into the structure that is processed. *)
Definition putFile (a : Z) (f : SingleFileInfo) : P unit := r ← getRec a; putRec a (setFile f r).

(** The exit of [WriteFrameToFile] with an error. *)
Definition writeFailed (a sid : Z) : P Z :=
  r ← getRec a;
  report r (channelId r) 0 SOFTBUS_ERR;;
  SetRecipientRecvState a TRANS_FILE_RECV_ERR_STATE;;
  call (onRecvError (fileListener r)) (Failed sid);;
  ReleaseRecipientRef a;;
  DelRecipient sid;;
  mret SOFTBUS_ERR.

(** The last frame of a transfer without checksums. *)
Definition closeRecvFile (a : Z) : P unit :=
  SetRecipientRecvState a TRANS_FILE_RECV_IDLE_STATE;;
  ok;;
  r ← getRec a;
  unlockFile (fileFd (recvFileInfo r));;
  SoftBusCloseFile (fileFd (recvFileInfo r));;
  putFile a (setFd INVALID_FD (recvFileInfo r)).

Definition isLast (type : Z) : bool := (type =? TRANS_SESSION_FILE_LAST_FRAME) || (type =? TRANS_SESSION_FILE_ONLYONE_FRAME).

Definition WriteFrameToFile (sid : Z) (frame : FileFrame) : P Z :=
  got ← GetRecipientInProcessRef sid;
  match got with
  | None => mret SOFTBUS_NOT_FIND
  | Some a =>
      r ← getRec a;
      '(e, info) ← lift (UnpackFileDataFrame (crc r) frame);
      if negb (e =? SOFTBUS_OK) then writeFailed a sid
      else
        '(e, f) ← ProcessOneFrame (frameType frame) (crc r) info (recvFileInfo r);
        putFile a f;;
        if negb (e =? SOFTBUS_OK) then writeFailed a sid
        else
          let f1 := setTimeOut 0 f in
          putFile a f1;;
          path ← pathOf f1;
          call (onReceiveFileProcess (fileListener r)) (Progress sid path (fileOffset f1) (fileSize f1));;
          (if negb (crc r =? APP_INFO_FILE_FEATURES_SUPPORT) && isLast (frameType frame) then closeRecvFile a else mret tt);;
          ReleaseRecipientRef a;;
          mret SOFTBUS_OK
  end.

(** ** The other frames of the receiver *)

Definition listExit (a sid ret : Z) : P Z :=
  (if negb (ret =? SOFTBUS_OK) then
     r ← getRec a;
     call (onRecvError (fileListener r)) (Failed sid);;
     SetRecipientRecvState a TRANS_FILE_RECV_ERR_STATE
   else mret tt);;
  ReleaseRecipientRef a;;
  DelRecipient sid;;
  mret ret.

Definition ProcessFileListData (sid : Z) (frame : FileFrame) : P Z :=
  got ← GetRecipientInProcessRef sid;
  match got with
  | None => mret SOFTBUS_NOT_FIND
  | Some a =>
      r ← getRec a;
      m ← ok;
      l ← lift (BufferToFileList m (frameData frame) (frameLength frame));
      match l with
      | None => listExit a sid SOFTBUS_ERR
      | Some (firstFile, fileCount) =>
          first ← lift (cstr firstFile);
          full ← GetFullRecvPath (Some first) (Some (rootDir (fileListener r)));
          if negb (IsPathValid full) then listExit a sid SOFTBUS_ERR
          else
            m ← alloc (PATH_MAX + 1);
            if negb m then listExit a sid SOFTBUS_ERR
            else
              let '(e, abs) := GetAndCheckRealPath realpath full in
              if negb (e =? SOFTBUS_OK) then listExit a sid SOFTBUS_ERR
              else
                SetRecipientRecvState a TRANS_FILE_RECV_IDLE_STATE;;
                call (onReceiveFileFinished (fileListener r)) (Finished sid (default [] abs) fileCount);;
                listExit a sid SOFTBUS_OK
      end
  end.

(** The code, and the sequence number of the frame. *)
Definition UnpackFileCrcCheckSum (crcFlag sum : Z) (frame : FileFrame) : option (Z * Z) :=
  if crcFlag =? APP_INFO_FILE_FEATURES_SUPPORT then
    if negb (frameLength frame =? FRAME_HEAD_LEN + FRAME_DATA_SEQ_OFFSET + 8) then Some (SOFTBUS_TRANS_INVALID_DATA_LENGTH, frameSeq frame)
    else
      d ← frameData frame;
      magic ← le32 d 0;
      dataLen ← le64 d FRAME_MAGIC_OFFSET;
      if negb (magic =? FILE_MAGIC_NUMBER) || negb (dataLen =? FRAME_DATA_SEQ_OFFSET + 8) then Some (SOFTBUS_INVALID_DATA_HEAD, frameSeq frame)
      else
        sq ← le32 d FRAME_HEAD_LEN;
        recvCheckSumCRC ← le64 d (FRAME_HEAD_LEN + FRAME_DATA_SEQ_OFFSET);
        Some (if recvCheckSumCRC =? sum then SOFTBUS_OK else SOFTBUS_ERR, sq)
  else Some (SOFTBUS_OK, frameSeq frame).

Definition ProcessCrcCheckSumData (sid : Z) (frame : FileFrame) : P Z :=
  got ← GetRecipientInProcessRef sid;
  match got with
  | None => mret SOFTBUS_NOT_FIND
  | Some a =>
      r ← getRec a;
      '(res, sq) ← lift (UnpackFileCrcCheckSum (crc r) (checkSumCRC (recvFileInfo r)) frame);
      ret ← SendFileTransResult (channelId r) sq res IS_RECV_RESULT;
      ReleaseRecipientRef a;;
      if negb (res =? SOFTBUS_OK) || negb (ret =? SOFTBUS_OK) then
        SetRecipientRecvState a TRANS_FILE_RECV_ERR_STATE;;
        DelRecipient sid;;
        mret SOFTBUS_ERR
      else
        SetRecipientRecvState a TRANS_FILE_RECV_IDLE_STATE;;
        mret SOFTBUS_OK
  end.

Definition ProcessFileAckRequest (sid : Z) (frame : FileFrame) : P Z :=
  got ← GetRecipientInProcessRef sid;
  match got with
  | None => mret SOFTBUS_NOT_FIND
  | Some a =>
      r ← getRec a;
      '(e, (start, _)) ← lift (UnpackAckReqAndResData frame);
      let file := recvFileInfo r in
      if negb (e =? SOFTBUS_OK) then ReleaseRecipientRef a;; mret SOFTBUS_ERR
      else if negb (start =? startSeq file) then ReleaseRecipientRef a;; mret SOFTBUS_ERR
      else
        let value := u32 (Z.land (seqResult file) FILE_SEND_ACK_RESULT_SUCCESS) in
        putFile a (setTimeOut 0
          (setWindow (u32 (start + FILE_SEND_ACK_INTERVAL)) (Z.shiftr (seqResult file) FILE_SEND_ACK_INTERVAL) start value file));;
        ret ← SendFileAckReqAndResData (channelId r) start value TRANS_SESSION_FILE_ACK_RESPONSE_SENT;
        ReleaseRecipientRef a;;
        mret ret
  end.

(** ** Packets that are waited for *)

Definition isPending (id sq : Z) (p : PendingPacket) : bool := (pId p =? id) && (pSeq p =? sq).

(** The first packet with [id] and [sq] changed by [h], or taken out. *)
Fixpoint updateFirst (id sq : Z) (h : PendingPacket -> option PendingPacket) (l : list PendingPacket) : list PendingPacket :=
  match l with
  | [] => []
  | p :: rest => if isPending id sq p then match h p with Some q => q :: rest | None => rest end else p :: updateFirst id sq h rest
  end.

(** The lock of the list; one that was left held never opens again. *)
Definition lockPending : P bool := h ← gets pendingHeld; if h : bool then ub else ok.

Definition SetPendingPacketData (id sq : Z) (data : option (Z * Z)) : P Z :=
  l ← lockPending;
  if negb l then mret SOFTBUS_LOCK_ERR
  else
    ps ← gets pending;
    if existsb (isPending id sq) ps then
      ok;;
      modify (setPending (updateFirst id sq
        (fun p => Some (MkPending (pId p) (pSeq p) true (match data with Some _ => data | None => pData p end))) ps));;
      mret SOFTBUS_OK
    else mret SOFTBUS_ERR.

(** ** Answers to the sender *)

Definition setSResult (res : Z) (s : SendListenerInfo) : SendListenerInfo :=
  MkSend (sChannelId s) (sSessionId s) (sFd s) (sFileSize s) (sFrameNum s) (sCrc s) (sSeq s) (waitSeq s) (waitTimeoutCount s) res
    (sCheckSum s) (sListener s).

Definition ProcessFileRecvResult (sid sq res : Z) : P Z :=
  l ← ok;
  if negb l then mret SOFTBUS_LOCK_ERR
  else
    ss ← gets sends;
    match ss !! sid with
    | None => mret SOFTBUS_NOT_FIND
    | Some s =>
        modify (setSends (<[sid := setSResult res s]> ss));;
        SetPendingPacketData (u32 sid) sq None;;
        mret SOFTBUS_OK
    end.

Definition ProcessFileSendResult (sid sq res : Z) : P Z :=
  l ← ok;
  if negb l then mret SOFTBUS_LOCK_ERR
  else
    a ← GetRecipientNoLock sid;
    match a with
    | None => mret SOFTBUS_NOT_FIND
    | Some a => r ← getRec a; putRec a (setResult res r);; mret SOFTBUS_OK
    end.

Definition ProcessFileTransResult (sid : Z) (frame : FileFrame) : P Z :=
  '(e, (sq, res, side)) ← lift (UnpackFileTransResultFrame (frameData frame) (frameLength frame));
  if negb (e =? SOFTBUS_OK) then mret SOFTBUS_ERR
  else if side =? IS_RECV_RESULT then ProcessFileRecvResult sid sq res
  else if side =? IS_SEND_RESULT then ProcessFileSendResult sid sq res
  else mret SOFTBUS_OK.

Definition ProcessFileAckResponse (sid : Z) (frame : FileFrame) : P Z :=
  match frameData frame with
  | None => mret SOFTBUS_INVALID_PARAM
  | Some _ =>
      if frameLength frame =? 0 then mret SOFTBUS_INVALID_PARAM
      else
        m ← ok;
        if negb m then mret SOFTBUS_MALLOC_ERR
        else
          '(e, data) ← lift (UnpackAckReqAndResData frame);
          if negb (e =? SOFTBUS_OK) then mret SOFTBUS_ERR
          else
            l ← ok;
            if negb l then mret SOFTBUS_LOCK_ERR
            else
              ss ← gets sends;
              match ss !! sid with
              | None => mret SOFTBUS_NOT_FIND
              | Some s =>
                  e ← SetPendingPacketData (u32 sid) (u64 (waitSeq s)) (Some data);
                  mret (if e =? SOFTBUS_OK then SOFTBUS_OK else SOFTBUS_ERR)
              end
  end.

(** ** Frames that arrive *)

Definition ProcessRecvFileFrameData (sid ch : Z) (oneFrame : FileFrame) : P Z :=
  if PROXY_MAX_PACKET_SIZE <? frameLength oneFrame then mret SOFTBUS_ERR
  else
    let t := frameType oneFrame in
    if t =? TRANS_SESSION_FILE_FIRST_FRAME then CreateFileFromFrame sid ch oneFrame
    else if (t =? TRANS_SESSION_FILE_ONGOINE_FRAME) || (t =? TRANS_SESSION_FILE_ONLYONE_FRAME) || (t =? TRANS_SESSION_FILE_LAST_FRAME) then
      WriteFrameToFile sid oneFrame
    else if t =? TRANS_SESSION_FILE_ACK_REQUEST_SENT then ProcessFileAckRequest sid oneFrame
    else if t =? TRANS_SESSION_FILE_ACK_RESPONSE_SENT then ProcessFileAckResponse sid oneFrame
    else if t =? TRANS_SESSION_FILE_CRC_CHECK_FRAME then ProcessCrcCheckSumData sid oneFrame
    else if t =? TRANS_SESSION_FILE_RESULT_FRAME then ProcessFileTransResult sid oneFrame
    else if t =? TRANS_SESSION_FILE_ALLFILE_SENT then ProcessFileListData sid oneFrame
    else mret SOFTBUS_ERR.

(** [garbage] is what the field [seq] of the structure holds, which is not set. *)
Definition ProcessFileFrameData (garbage sid ch : Z) (data : bytes) (len type : Z) : P Z :=
  ProcessRecvFileFrameData sid ch (MkFrame type len garbage (Some data)).

End Transfer.

End ProxyFile.
