(* ===== verification/ProxySend.v ===== *)
(** * Sending files over proxy channels

    Models the sending half of [client_trans_proxy_file_manager.c] and the
    rest of [client_trans_pending.c]: the frames are read from the file and
    sent, after 32 of them the receiver is asked which arrived, those it
    misses are sent again, and the sum of the checksums goes last.

    The receiving thread runs while the sender sends or waits: [arrive] takes
    the next batch of [inbox] and handles its frames.  A wait ends when its
    packet was found after the batch, and with a timeout otherwise. *)

From S2P Require Import Prelude Errno Bytes Adapter ProxyCommon ProxyFile.
Import Errno Bytes.
Import ProxyCommon.ProxyCommon.
Import ProxyFile.ProxyFile.

Module ProxySend.

Section Sender.

Context (realpath : text -> option text) (cl : Client).

(** ** The receiving thread *)

Fixpoint handleAll (l : list (Z * Z * FileFrame)) : P unit :=
  match l with
  | [] => mret tt
  | (sid, ch, frame) :: rest => ProcessRecvFileFrameData realpath cl sid ch frame;; handleAll rest
  end.

Definition arrive : P unit :=
  i ← gets inbox;
  match i with
  | [] => mret tt
  | batch :: rest => modify (setInbox rest);; handleAll batch
  end.

Definition sendStream (ch : Z) (data : bytes) (type : Z) : P Z :=
  r ← ProxyChannelSendFileStream ch data type; arrive;; mret r.

Definition sendRequest (ch start value : Z) : P Z :=
  r ← SendFileAckReqAndResData ch start value TRANS_SESSION_FILE_ACK_REQUEST_SENT; arrive;; mret r.

(** ** Packets that are waited for *)

Definition CreatePendingPacket (id sq : Z) : P Z :=
  l ← lockPending;
  if negb l then mret SOFTBUS_LOCK_ERR
  else
    ps ← gets pending;
    if existsb (isPending id sq) ps then mret SOFTBUS_ALREADY_EXISTED
    else
      m ← ok;
      if negb m then mret SOFTBUS_MALLOC_ERR
      else
        i ← ok;
        if negb i then modify holdPending;; mret SOFTBUS_LOCK_ERR
        else
          i ← ok;
          if negb i then modify holdPending;; mret SOFTBUS_ERR
          else modify (setPending (ps ++ [MkPending id sq false None]));; mret SOFTBUS_OK.

Definition removePending (id sq : Z) : P unit := ps ← gets pending; modify (setPending (updateFirst id sq (fun _ => None) ps)).

Definition DeletePendingPacket (id sq : Z) : P unit := l ← lockPending; if negb l then mret tt else removePending id sq.

Definition ClearPendingPacketById (id : Z) : P unit :=
  l ← lockPending;
  if negb l then mret tt else ps ← gets pending; modify (setPending (filter (fun p => pId p <> id) ps)).

Definition findPending (id sq : Z) : P (option PendingPacket) := gets (fun w => List.find (isPending id sq) (pending w)).

(** The code, and the data.  The packet is used without the lock of the list:
    one that is gone has no result. *)
Definition TransPendWaitTime (p : PendingPacket) : P (Z * option (Z * Z)) :=
  if finded p then mret (SOFTBUS_ALREADY_TRIGGERED, pData p)
  else
    arrive;;
    q ← findPending (pId p) (pSeq p);
    q ← lift q;
    mret (if finded q then (SOFTBUS_OK, pData q) else (SOFTBUS_TIMOUT, None)).

(** There is one packet at most with [id] and [sq]. *)
Definition GetPendingPacketData (id sq : Z) (isDelete : bool) : P (Z * option (Z * Z)) :=
  l ← lockPending;
  if negb l then mret (SOFTBUS_ERR, None)
  else
    p ← findPending id sq;
    match p with
    | None => mret (SOFTBUS_NOT_FIND, None)
    | Some p =>
        l ← ok;
        '(ret, data) ← (if l : bool then TransPendWaitTime p else mret (SOFTBUS_LOCK_ERR, None));
        lockPending;;
        when (isDelete || negb (ret =? SOFTBUS_TIMOUT)) (removePending id sq);;
        mret (ret, data)
    end.

(** ** The transfer *)

Definition getSend (sid : Z) : P SendListenerInfo := o ← gets (fun w => sends w !! sid); lift o.

Definition putSend (sid : Z) (s : SendListenerInfo) : P unit := modify (fun w => setSends (<[sid := s]> (sends w)) w).

Definition setWait (ws count : Z) (s : SendListenerInfo) : SendListenerInfo :=
  MkSend (sChannelId s) (sSessionId s) (sFd s) (sFileSize s) (sFrameNum s) (sCrc s) (sSeq s) ws count (sResult s) (sCheckSum s) (sListener s).
Definition setSent (sq sum : Z) (s : SendListenerInfo) : SendListenerInfo :=
  MkSend (sChannelId s) (sSessionId s) (sFd s) (sFileSize s) (sFrameNum s) (sCrc s) sq (waitSeq s) (waitTimeoutCount s) (sResult s) sum (sListener s).
Definition setSource (fd size num : Z) (s : SendListenerInfo) : SendListenerInfo :=
  MkSend (sChannelId s) (sSessionId s) fd size num (sCrc s) (sSeq s) (waitSeq s) (waitTimeoutCount s) (sResult s) (sCheckSum s) (sListener s).

(** A data frame: magic number, length, sequence number, data, checksum. *)
Definition dataFrame (sq : Z) (data : bytes) (crcVal : Z) : bytes :=
  leBytes 4 FILE_MAGIC_NUMBER ++ leBytes 8 (len data + FRAME_DATA_SEQ_OFFSET) ++ leBytes 4 sq ++ data ++ leBytes 2 crcVal.

(** What is read at [base] of the buffer of a frame; more than fits has no
    result. *)
Definition readInto (fd base readLength offset : Z) : P (Z * bytes) :=
  if PROXY_MAX_PACKET_SIZE <? base + readLength then ub else SoftBusPreadFile fd readLength offset.

(** The number of bytes that were read, and the frame. *)
Definition PackReadFileData (sid readLength offset : Z) : P (Z * bytes) :=
  s ← getSend sid;
  let base := (if sCrc s =? APP_INFO_FILE_FEATURES_SUPPORT then FRAME_HEAD_LEN else 0) + FRAME_DATA_SEQ_OFFSET in
  '(n, data) ← readInto (sFd s) base readLength offset;
  if n <=? 0 then mret (n, [])
  else if sCrc s =? APP_INFO_FILE_FEATURES_SUPPORT then
    let dataLen := n + FRAME_DATA_SEQ_OFFSET in
    if PROXY_MAX_PACKET_SIZE <? u32 (FRAME_HEAD_LEN + dataLen + FRAME_CRC_LEN) then mret (SOFTBUS_ERR, [])
    else
      crcVal ← lift (RTU_CRC data n);
      putSend sid (setSent (u32 (sSeq s + 1)) (u64 (sCheckSum s + crcVal)) s);;
      mret (n, dataFrame (u32 (sSeq s + 1)) data crcVal)
  else if PROXY_MAX_PACKET_SIZE <? u32 (FRAME_DATA_SEQ_OFFSET + n) then mret (SOFTBUS_ERR, [])
  else mret (n, leBytes 4 (sChannelId s) ++ data).

Definition PackReadFileRetransData (sid sq readLength offset : Z) : P Z :=
  s ← getSend sid;
  '(n, data) ← readInto (sFd s) (FRAME_HEAD_LEN + FRAME_DATA_SEQ_OFFSET) readLength offset;
  if n <=? 0 then mret n
  else if PROXY_MAX_PACKET_SIZE <? u32 (FRAME_HEAD_LEN + (n + FRAME_DATA_SEQ_OFFSET) + FRAME_CRC_LEN) then mret SOFTBUS_ERR
  else
    crcVal ← lift (RTU_CRC data n);
    ret ← sendStream (sChannelId s) (dataFrame sq data crcVal) (FrameIndexToType sq (sFrameNum s));
    mret (if negb (ret =? SOFTBUS_OK) then ret else n).

Definition CRC_DATA_SIZE : Z := PROXY_MAX_PACKET_SIZE - FRAME_HEAD_LEN - FRAME_DATA_SEQ_OFFSET - FRAME_CRC_LEN.

Definition RetransFileFrameBySeq (sid sq : Z) : P Z :=
  s ← getSend sid;
  if negb (sCrc s =? APP_INFO_FILE_FEATURES_SUPPORT) then mret SOFTBUS_OK
  else if sq <=? 0 then mret SOFTBUS_INVALID_PARAM
  else
    m ← alloc PROXY_MAX_PACKET_SIZE;
    if negb m then mret SOFTBUS_MALLOC_ERR
    else
      let offset := u64 (CRC_DATA_SIZE * u32 (sq - 1)) in
      if sFileSize s <=? offset then mret SOFTBUS_INVALID_PARAM
      else
        n ← PackReadFileRetransData sid sq (Z.min (sFileSize s - offset) CRC_DATA_SIZE) offset;
        mret (if n <=? 0 then SOFTBUS_ERR else SOFTBUS_OK).

(** The loop over the bits of an answer, from bit [i]. *)
Fixpoint ackLoop (n : nat) (sid start res i : Z) : P Z :=
  match n with
  | O => mret SOFTBUS_OK
  | S n' =>
      if Z.testbit res i then ackLoop n' sid start res (i + 1)
      else
        e ← RetransFileFrameBySeq sid (s32 (start + i));
        if negb (e =? SOFTBUS_OK) then mret SOFTBUS_ERR else ackLoop n' sid start res (i + 1)
  end.

Definition AckResponseDataHandle (sid : Z) (data : option (Z * Z)) : P Z :=
  match data with
  | None => mret SOFTBUS_OK
  | Some (start, res) =>
      if res =? FILE_SEND_ACK_RESULT_SUCCESS then mret SOFTBUS_OK else ackLoop (Z.to_nat FILE_SEND_ACK_INTERVAL) sid start res 0
  end.

(** The code, and the frame. *)
Definition PackFileTransStartInfo (destFile : text) (size : Z) (s : SendListenerInfo) : Z * bytes :=
  let n := len destFile in
  if sCrc s =? APP_INFO_FILE_FEATURES_SUPPORT then
    let dataLen := n + FRAME_DATA_SEQ_OFFSET + 8 in
    if PROXY_MAX_PACKET_SIZE <? u32 (FRAME_HEAD_LEN + dataLen + 8) then (SOFTBUS_ERR, [])
    else if n =? 0 then (SOFTBUS_MEM_ERR, [])
    else
      (SOFTBUS_OK, leBytes 4 FILE_MAGIC_NUMBER ++ leBytes 8 dataLen ++ leBytes 4 CRC_DATA_SIZE ++ leBytes 8 size ++ destFile ++ replicate 8 0)
  else if PROXY_MAX_PACKET_SIZE <? u32 (FRAME_DATA_SEQ_OFFSET + n) then (SOFTBUS_ERR, [])
  else if n =? 0 then (SOFTBUS_MEM_ERR, [])
  else (SOFTBUS_OK, leBytes 4 (sChannelId s) ++ destFile).

(** The code, the size and the number of frames. *)
Definition GetAndCheckFileSize (sourceFile : text) (crcFlag : Z) : P (Z * (Z * Z)) :=
  size ← SoftBusGetFileSize sourceFile;
  mret match size with
  | None => (SOFTBUS_FILE_ERR, (0, 0))
  | Some n =>
      if MAX_FILE_SIZE <? n then (SOFTBUS_FILE_ERR, (n, 0))
      else
        let oneFrameSize := PROXY_MAX_PACKET_SIZE - FRAME_DATA_SEQ_OFFSET -
                            (if crcFlag =? APP_INFO_FILE_FEATURES_SUPPORT then FRAME_HEAD_LEN + FRAME_CRC_LEN else 0) in
        let frameNumTemp := n `div` oneFrameSize + (if n mod oneFrameSize =? 0 then 0 else 1) in
        (SOFTBUS_OK, (n, frameNumTemp + 1))
  end.

Definition SendOneFrameFront (sid type : Z) : P Z :=
  s ← getSend sid;
  if negb (sCrc s =? APP_INFO_FILE_FEATURES_SUPPORT) then mret SOFTBUS_OK
  else if type =? TRANS_SESSION_FILE_FIRST_FRAME then
    e ← CreatePendingPacket (u32 (sSessionId s)) 0;
    if negb (e =? SOFTBUS_OK) then mret SOFTBUS_ERR else s ← getSend sid; putSend sid (setWait 0 0 s);; mret SOFTBUS_OK
  else mret SOFTBUS_OK.

Definition SendOneFrameMiddle (sid type : Z) : P Z :=
  s ← getSend sid;
  if negb (sCrc s =? APP_INFO_FILE_FEATURES_SUPPORT) then mret SOFTBUS_OK
  else if type =? TRANS_SESSION_FILE_ONGOINE_FRAME then
    if negb (sSeq s mod FILE_SEND_ACK_INTERVAL =? 0) then mret SOFTBUS_OK
    else
      e ← CreatePendingPacket (u32 (sSessionId s)) (sSeq s);
      if negb (e =? SOFTBUS_OK) then mret SOFTBUS_ERR
      else
        s ← getSend sid;
        putSend sid (setWait (s32 (sSeq s)) 0 s);;
        e ← sendRequest (sChannelId s) (u32 (sSeq s - FILE_SEND_ACK_INTERVAL + 1)) (sSeq s);
        if negb (e =? SOFTBUS_OK) then
          DeletePendingPacket (u32 (sSessionId s)) (sSeq s);;
          s ← getSend sid; putSend sid (setWait 0 (waitTimeoutCount s) s);; mret SOFTBUS_ERR
        else mret SOFTBUS_OK
  else mret SOFTBUS_OK.

(** The exit with nothing to wait for. *)
Definition waitOver (sid ret : Z) : P Z := s ← getSend sid; putSend sid (setWait 0 0 s);; mret ret.

Definition SendOneFrameRear (sid type : Z) : P Z :=
  s ← getSend sid;
  if negb (sCrc s =? APP_INFO_FILE_FEATURES_SUPPORT) then mret SOFTBUS_OK
  else if type =? TRANS_SESSION_FILE_ONLYONE_FRAME then mret SOFTBUS_OK
  else if type =? TRANS_SESSION_FILE_FIRST_FRAME then
    '(ret, _) ← GetPendingPacketData (u32 (sSessionId s)) 0 true;
    mret (if (ret =? SOFTBUS_ALREADY_TRIGGERED) || (ret =? SOFTBUS_OK) then SOFTBUS_OK else SOFTBUS_ERR)
  else if u32 (waitSeq s) =? 0 then mret SOFTBUS_OK
  else
    '(ret, data) ← GetPendingPacketData (u32 (sSessionId s)) (u64 (waitSeq s)) false;
    if (ret =? SOFTBUS_ALREADY_TRIGGERED) || (ret =? SOFTBUS_OK) then e ← AckResponseDataHandle sid data; waitOver sid e
    else if ret =? SOFTBUS_TIMOUT then
      s ← getSend sid;
      let count := waitTimeoutCount s + 1 in
      putSend sid (setWait (waitSeq s) count s);;
      if negb (type =? TRANS_SESSION_FILE_LAST_FRAME) && (count <=? WAIT_FRAME_ACK_TIMEOUT_COUNT) then mret SOFTBUS_OK
      else DeletePendingPacket (u32 (sSessionId s)) (u64 (waitSeq s));; waitOver sid SOFTBUS_ERR
    else waitOver sid SOFTBUS_ERR.

Definition SendOneFrame (sid type : Z) (frame : bytes) : P Z :=
  e ← SendOneFrameFront sid type;
  if negb (e =? SOFTBUS_OK) then mret SOFTBUS_ERR
  else
    s ← getSend sid;
    ret ← sendStream (sChannelId s) frame type;
    if negb (ret =? SOFTBUS_OK) then mret ret
    else
      e ← SendOneFrameMiddle sid type;
      if negb (e =? SOFTBUS_OK) then mret SOFTBUS_ERR
      else
        e ← SendOneFrameRear sid type;
        if negb (e =? SOFTBUS_OK) then mret SOFTBUS_ERR
        else s ← getSend sid; mret (if negb (sResult s =? SOFTBUS_OK) then SOFTBUS_ERR else SOFTBUS_OK).

Definition sumFrame (sq sum : Z) : bytes :=
  leBytes 4 FILE_MAGIC_NUMBER ++ leBytes 8 (FRAME_DATA_SEQ_OFFSET + 8) ++ leBytes 4 sq ++ leBytes 8 sum.

Definition SendFileCrcCheckSum (sid : Z) : P Z :=
  s ← getSend sid;
  if negb (sCrc s =? APP_INFO_FILE_FEATURES_SUPPORT) then mret SOFTBUS_OK
  else
    m ← alloc (FRAME_HEAD_LEN + FRAME_DATA_SEQ_OFFSET + 8);
    if negb m then mret SOFTBUS_MALLOC_ERR
    else
      let sq := u32 (sSeq s + 1) in
      e ← CreatePendingPacket (u32 (sSessionId s)) sq;
      if negb (e =? SOFTBUS_OK) then mret SOFTBUS_ERR
      else
        ret ← sendStream (sChannelId s) (sumFrame sq (sCheckSum s)) TRANS_SESSION_FILE_CRC_CHECK_FRAME;
        if negb (ret =? SOFTBUS_OK) then DeletePendingPacket (u32 (sSessionId s)) sq;; mret ret
        else
          '(ret, _) ← GetPendingPacketData (u32 (sSessionId s)) sq true;
          mret (if (ret =? SOFTBUS_ALREADY_TRIGGERED) || (ret =? SOFTBUS_OK) then SOFTBUS_OK else ret).

(** The loop over the frames; [n] of [frameNum] are left. *)
Fixpoint frameLoop (n : nat) (sid frameNum index offset remained size : Z) (destFile : text) : P Z :=
  match n with
  | O => mret SOFTBUS_OK
  | S n' =>
      let type := FrameIndexToType index frameNum in
      s ← getSend sid;
      let frameDataSize := PROXY_MAX_PACKET_SIZE - FRAME_DATA_SEQ_OFFSET -
                           (if sCrc s =? APP_INFO_FILE_FEATURES_SUPPORT then FRAME_HEAD_LEN + FRAME_CRC_LEN else 0) in
      '(got, frame) ← (if index =? 0 then
                         let '(e, frame) := PackFileTransStartInfo destFile size s in
                         mret (if e =? SOFTBUS_OK then Some 0 else None, frame)
                       else
                         '(n, frame) ← PackReadFileData sid (Z.min remained frameDataSize) offset;
                         mret (if n <=? 0 then None else Some n, frame));
      match got with
      | None => mret SOFTBUS_ERR
      | Some n =>
          e ← SendOneFrame sid type frame;
          if negb (e =? SOFTBUS_OK) then mret SOFTBUS_ERR
          else
            call (onSendFileProcess (sListener s)) (SendProgress (sChannelId s) (offset + n) size);;
            frameLoop n' sid frameNum (index + 1) (offset + n) (remained - n) size destFile
      end
  end.

Definition FileToFrame (sid frameNum : Z) (destFile : text) (size : Z) : P Z :=
  m ← alloc PROXY_MAX_PACKET_SIZE;
  if negb m then mret SOFTBUS_ERR
  else
    e ← frameLoop (Z.to_nat frameNum) sid frameNum 0 0 size size destFile;
    if negb (e =? SOFTBUS_OK) then mret SOFTBUS_ERR
    else e ← SendFileCrcCheckSum sid; mret (if negb (e =? SOFTBUS_OK) then SOFTBUS_ERR else SOFTBUS_OK).

Definition FileToFrameAndSendFile (sid : Z) (sourceFile destFile : text) : P Z :=
  if negb (CheckDestFilePathValid (Some destFile)) then mret SOFTBUS_ERR
  else
    m ← alloc (PATH_MAX + 1);
    if negb m then mret SOFTBUS_ERR
    else
      let '(e, abs) := GetAndCheckRealPath realpath (Some sourceFile) in
      if negb (e =? SOFTBUS_OK) then mret SOFTBUS_ERR
      else
        let absSrcPath := default [] abs in
        s ← getSend sid;
        '(e, (size, frameNum)) ← GetAndCheckFileSize absSrcPath (sCrc s);
        if negb (e =? SOFTBUS_OK) then mret SOFTBUS_ERR
        else
          fd ← SoftBusOpenFile absSrcPath;
          if fd <? 0 then mret SOFTBUS_ERR
          else
            e ← tryLock fd;
            if negb (e =? SOFTBUS_OK) then SoftBusCloseFile fd;; mret SOFTBUS_FILE_ERR
            else
              s ← getSend sid;
              putSend sid (setSource fd size frameNum s);;
              FileToFrame sid frameNum destFile size.

Definition ClearSendInfo (sid : Z) : P unit :=
  s ← getSend sid;
  (if negb (sFd s =? INVALID_FD) then unlockFile (sFd s);; SoftBusCloseFile (sFd s) else mret tt);;
  putSend sid (MkSend (sChannelId s) (sSessionId s) INVALID_FD 0 0 (sCrc s) 0 0 0 SOFTBUS_OK 0 (sListener s)).

Definition SendSingleFile (sid : Z) (sourceFile destFile : option text) : P Z :=
  match sourceFile, destFile with
  | Some src, Some dst => ret ← FileToFrameAndSendFile sid src dst; ClearSendInfo sid;; mret ret
  | _, _ => mret SOFTBUS_ERR
  end.

Definition SendFileList (ch : Z) (destFile : list text) : P Z :=
  m ← ok;
  '(e, b) ← lift (FileListToBuffer m (Some destFile));
  match b with
  | Some (buffer, size) =>
      if negb (e =? SOFTBUS_OK) then mret SOFTBUS_ERR
      else data ← lift (get buffer 0 size); sendStream ch data TRANS_SESSION_FILE_ALLFILE_SENT
  | None => mret SOFTBUS_ERR
  end.

(** The entries of an array of strings; one may be NULL. *)
Definition IsValidFileString (str : list (option text)) (maxLen : Z) : bool :=
  negb (bool_decide (str = [])) &&
  forallb (fun s => match s with None => false | Some t => negb ((len t =? 0) || (maxLen <=? len t)) end) str.

Fixpoint sendLoop (sid : Z) (pairs : list (option text * option text)) : P Z :=
  match pairs with
  | [] => mret SOFTBUS_OK
  | (src, dst) :: rest =>
      ret ← SendSingleFile sid src dst;
      if negb (ret =? SOFTBUS_OK) then mret SOFTBUS_ERR else sendLoop sid rest
  end.

Definition ProxyStartSendFile (sid : Z) (sFileList dFileList : list (option text)) : P Z :=
  ret ← sendLoop sid (zip sFileList dFileList);
  if negb (ret =? SOFTBUS_OK) then mret SOFTBUS_ERR
  else
    s ← getSend sid;
    names ← lift (mapM id dFileList);
    ret ← SendFileList (sChannelId s) names;
    if negb (ret =? SOFTBUS_OK) then mret SOFTBUS_ERR
    else
      s ← getSend sid;
      if negb (sResult s =? SOFTBUS_OK) then mret SOFTBUS_ERR
      else call (onSendFileFinished (sListener s)) (SendDone (sSessionId s) (default [] (head names)));; mret SOFTBUS_OK.

(** ** Starting *)

Definition GetSendListenerInfoByChannelId (ch : Z) : option SendListenerInfo :=
  sid ← sessionOf cl ch;
  name ← nameOf cl sid;
  c ← configOf cl sid;
  fl ← listenerOf cl name;
  Some (MkSend ch sid 0 0 0 c 0 0 0 0 0 fl).

Definition AddSendListenerInfo (s : SendListenerInfo) : P Z :=
  l ← ok;
  if negb l then mret SOFTBUS_LOCK_ERR
  else
    ss ← gets sends;
    if bool_decide (is_Some (ss !! sSessionId s)) then mret SOFTBUS_ALREADY_EXISTED
    else putSend (sSessionId s) s;; mret SOFTBUS_OK.

(** The code, and the session that identifies the structure. *)
Definition CreateSendListenerInfo (ch : Z) : P (Z * option Z) :=
  m ← ok;
  if negb m then mret (SOFTBUS_MALLOC_ERR, None)
  else
    match GetSendListenerInfoByChannelId ch with
    | None => mret (SOFTBUS_ERR, None)
    | Some s =>
        ret ← AddSendListenerInfo s;
        mret (ret, if ret =? SOFTBUS_OK then Some (sSessionId s) else None)
    end.

Definition DelSendListenerInfo (sid : Z) : P unit := ok;; modify (fun w => setSends (delete sid (sends w)) w).

Definition ReleaseSendListenerInfo (sid : Z) : P unit := DelSendListenerInfo sid.

Definition GetSessionFileLock (ch : Z) : P bool :=
  l ← ok;
  if negb l then mret false
  else
    ls ← gets fileLocks;
    match ls !! ch with
    | Some count => modify (setLocks (<[ch := u32 (count + 1)]> ls));; mret true
    | None =>
        m ← ok;
        if negb m then mret false
        else i ← ok; if negb i then mret false else modify (setLocks (<[ch := 1]> ls));; mret true
    end.

Definition DelSessionFileLock (ch : Z) : P unit :=
  l ← ok;
  if negb l then mret tt
  else
    ls ← gets fileLocks;
    count ← lift (ls !! ch);
    modify (setLocks (if u32 (count - 1) =? 0 then delete ch ls else <[ch := u32 (count - 1)]> ls)).

(** What is done with the locks held. *)
Definition sendLocked (ch : Z) (sFileList dFileList : list (option text)) : P Z :=
  '(ret, info) ← CreateSendListenerInfo ch;
  match info with
  | None => mret ret
  | Some sid =>
      ret ← ProxyStartSendFile sid sFileList dFileList;
      (if negb (ret =? SOFTBUS_OK) then
         s ← getSend sid;
         DeletePendingPacket (u32 (sSessionId s)) (u64 (waitSeq s));;
         call (onSendError (sListener s)) (Failed (sSessionId s))
       else mret tt);;
      ReleaseSendListenerInfo sid;;
      mret (if negb (ret =? SOFTBUS_OK) then SOFTBUS_TRANS_PROXY_SENDMSG_ERR else SOFTBUS_OK)
  end.

Definition ProxyChannelSendFile (ch : Z) (sFileList dFileList : option (list (option text))) (fileCnt : Z) : P Z :=
  if (fileCnt =? 0) || (MAX_SEND_FILE_NUM <? fileCnt) then mret SOFTBUS_ERR
  else
    match sFileList, dFileList with
    | Some ss, Some ds =>
        let ss := take (Z.to_nat fileCnt) ss in
        let ds := take (Z.to_nat fileCnt) ds in
        if negb (IsValidFileString ss MAX_FILE_PATH_NAME_LEN) || negb (IsValidFileString ds MAX_FILE_PATH_NAME_LEN) then mret SOFTBUS_ERR
        else
          g ← GetSessionFileLock ch;
          if negb g then mret SOFTBUS_LOCK_ERR
          else
            l ← ok;
            if negb l then DelSessionFileLock ch;; mret SOFTBUS_LOCK_ERR
            else ret ← sendLocked ch ss ds; DelSessionFileLock ch;; mret ret
    | _, _ => mret SOFTBUS_ERR
    end.

(** The destinations when the application names none: the names of the files. *)
Definition GenerateRemoteFiles (sFileList : list (option text)) : P (option (list (option text))) :=
  m ← alloc (8 * Z.of_nat (length sFileList));
  mret (if negb m then None else (fun l => Some <$> l) <$> mapM TransGetFileName sFileList).

Definition TransProxyChannelSendFile (ch : Z) (sFileList dFileList : option (list (option text))) (fileCnt : Z) : P Z :=
  match sFileList with
  | None => mret SOFTBUS_INVALID_PARAM
  | Some ss =>
      if (fileCnt =? 0) || (MAX_SEND_FILE_NUM <? fileCnt) then mret SOFTBUS_INVALID_PARAM
      else
        match dFileList with
        | Some _ => ProxyChannelSendFile ch sFileList dFileList fileCnt
        | None =>
            remoteFiles ← GenerateRemoteFiles (take (Z.to_nat fileCnt) ss);
            match remoteFiles with
            | None => mret SOFTBUS_ERR
            | Some _ => ProxyChannelSendFile ch sFileList remoteFiles fileCnt
            end
        end
  end.

End Sender.

(** ** Starting and stopping the service *)

(** Which locks are initialised, and whether the timer is registered. *)
Record Manager := MkManager { sendLockInit : bool; recvLockInit : bool; timerRegistered : bool }.

(** [g_Init] is never set. *)
Definition InitPendingPacket (g_Init mutex : bool) : Z := if negb g_Init && negb mutex then SOFTBUS_LOCK_ERR else SOFTBUS_OK.

(** [m1] to [m3] are whether a mutex can be made.  The timer has a number of its
    own, so that it can be registered. *)
Definition ClinetTransProxyFileManagerInit (m1 m2 m3 : bool) (s : Manager) : Z * Manager :=
  if negb (sendLockInit s) && negb m1 then (SOFTBUS_ERR, s)
  else
    let s := MkManager true (recvLockInit s) (timerRegistered s) in
    if negb (recvLockInit s) && negb m2 then (SOFTBUS_ERR, s)
    else
      let s := MkManager true true (timerRegistered s) in
      if negb (InitPendingPacket false m3 =? SOFTBUS_OK) then (SOFTBUS_ERR, s)
      else (SOFTBUS_OK, MkManager true true true).

(** [RegisterTimeoutCallback] refuses NULL: the timer stays registered. *)
Definition ClinetTransProxyFileManagerDeinit (s : Manager) : Manager := MkManager false false (timerRegistered s).

End ProxySend.
