(* ===== verification/ProxyTransfer.v ===== *)
(** * Correctness of file transfer over proxy channels

    What the frames of [ProxySend] do to the receiver of [ProxyFile].

    - Repetition: the frames the sender sends again are of the window that was
      answered.
    - Soundness: whatever is lost of the frames, which arrive in order, sent
      again after the answer, refused by the system or timed out, a receiver
      that accepts the final sum has the file that was sent, provided no frame
      of it has the checksum 0.
    - Delivery is shown in [ProxyDeliver]. *)

From S2P Require Import Prelude Errno Bytes Adapter ProxyCommon ProxyFile ProxySend.
Import Errno Bytes.
Import ProxyCommon.ProxyCommon.
Import ProxyFile.ProxyFile.
Import ProxySend.ProxySend.

Module ProxyTransfer.

(** ** Numbers in frames *)

Lemma len_leBytes n x : len (leBytes n x) = Z.of_nat n.
Proof. unfold leBytes, len. rewrite length_rev. apply len_be_bytes. Qed.

#[local] Hint Rewrite len_leBytes : lens.

Lemma le_app n p x s off k : off = len p -> k = Z.of_nat n -> is_u (8 * k) x ->
  (fun t => be_val (rev t)) <$> get (p ++ leBytes n x ++ s) off k = Some x.
Proof.
  intros -> -> Hx. rewrite (get_app p (leBytes n x) s) by (done || by rewrite len_leBytes).
  cbn [fmap option_fmap option_map]. unfold leBytes. by rewrite rev_involutive, be_val_bytes_id.
Qed.

Lemma le32_app p x s off : off = len p -> is_u 32 x -> le32 (p ++ leBytes 4 x ++ s) off = Some x.
Proof. intros. by apply (le_app 4). Qed.

Lemma le64_app p x s off : off = len p -> is_u 64 x -> le64 (p ++ leBytes 8 x ++ s) off = Some x.
Proof. intros. by apply (le_app 8). Qed.

Lemma le16_app p x s off : off = len p -> is_u 16 x -> le16 (p ++ leBytes 2 x ++ s) off = Some x.
Proof. intros. by apply (le_app 2). Qed.

(** ** The frames of a file *)

(** The [j]-th piece of a file, from 0; its frame has the number [j + 1]. *)
Definition chunk (c : bytes) (j : nat) : bytes := take (Z.to_nat CRC_DATA_SIZE) (drop (Z.to_nat CRC_DATA_SIZE * j) c).

Definition frames (c : bytes) : nat := Z.to_nat ((len c + CRC_DATA_SIZE - 1) `div` CRC_DATA_SIZE).

Definition fileFrame (type garbage : Z) (c : bytes) (j : nat) : FileFrame :=
  let d := dataFrame (Z.of_nat j + 1) (chunk c j) (crc16 (chunk c j)) in MkFrame type (len d) garbage (Some d).

Fixpoint sumCrc (c : bytes) (k : nat) : Z := match k with O => 0 | S k' => sumCrc c k' + crc16 (chunk c k') end.

Lemma crc16_range data : is_bytes data -> is_u 16 (crc16 data).
Proof.
  intros (hi & lo & -> & Hh & Hl)%crc_start. unfold word. rewrite Z.shiftl_mul_pow2 by lia.
  assert (Z.land (hi * 2 ^ 8) lo = 0) as E.
  { apply Z.bits_inj'. intros i Hi. rewrite Z.land_spec, Z.bits_0, <- Z.shiftl_mul_pow2, Z.shiftl_spec by lia.
    destruct (Z.ltb_spec i 8); [by rewrite Z.testbit_neg_r by lia|].
    by rewrite (byte_bits lo) by done; rewrite andb_false_r. }
  pose proof (Z.add_lor_land (hi * 2 ^ 8) lo) as Ha. rewrite E in Ha.
  unfold is_u in *. change (2 ^ 16) with 65536. change (2 ^ 8) with 256 in *. lia.
Qed.

Lemma chunk_bytes c j : is_bytes c -> is_bytes (chunk c j).
Proof. intros. by apply Forall_take, Forall_drop. Qed.

Lemma len_chunk c j : len (chunk c j) = Z.min 958 (Z.max 0 (len c - 958 * Z.of_nat j)).
Proof. unfold chunk, len, CRC_DATA_SIZE. rewrite length_take, length_drop. change (Z.to_nat _) with 958%nat. lia. Qed.

Lemma frames_spec c j : (j < frames c)%nat <-> 958 * Z.of_nat j < len c.
Proof.
  unfold frames. change CRC_DATA_SIZE with 958. pose proof (len_nonneg c).
  pose proof (Z.div_mod (len c + 958 - 1) 958). pose proof (Z.mod_pos_bound (len c + 958 - 1) 958).
  assert (0 <= (len c + 958 - 1) `div` 958) by (apply Z.div_pos; lia). lia.
Qed.

Lemma sumCrc_range c k : is_bytes c -> 0 <= sumCrc c k <= 65535 * Z.of_nat k.
Proof.
  intros Hc. induction k as [|k IH]; cbn [sumCrc]; [lia|].
  pose proof (crc16_range (chunk c k) (chunk_bytes c k Hc)) as H. unfold is_u in H. change (2 ^ 16) with 65536 in H. lia.
Qed.

Lemma sumCrc_mono c k k' : is_bytes c -> (k <= k')%nat -> sumCrc c k <= sumCrc c k'.
Proof.
  intros Hc H. induction H as [|m H IH]; [lia|]. cbn [sumCrc].
  pose proof (crc16_range (chunk c m) (chunk_bytes c m Hc)) as Hr. unfold is_u in Hr. lia.
Qed.

Lemma dataFrame_len sq data x : len (dataFrame sq data x) = 18 + len data.
Proof. unfold dataFrame. lens. Qed.

(** The receiver reads what the sender wrote. *)
Lemma unpack_dataFrame type garbage sq data : is_u 32 sq -> is_bytes data -> 0 < len data <= 958 ->
  UnpackFileDataFrame 1 (MkFrame type (18 + len data) garbage (Some (dataFrame sq data (crc16 data)))) =
    Some (SOFTBUS_OK, MkInfo sq (crc16 data) (len data + 4) data).
Proof.
  intros Hs Hb Hl. unfold UnpackFileDataFrame, dataFrame.
  change (1 =? APP_INFO_FILE_FEATURES_SUPPORT) with true.
  change (FRAME_HEAD_LEN + FRAME_DATA_SEQ_OFFSET + FRAME_CRC_LEN) with 18.
  change FRAME_HEAD_LEN with 12. change FRAME_DATA_SEQ_OFFSET with 4. change FRAME_MAGIC_OFFSET with 4. change FRAME_CRC_LEN with 2.
  cbn [frameLength frameData mbind option_bind]. destruct (Z.leb_spec (18 + len data) 18); [lia|].
  set (m := leBytes 4 FILE_MAGIC_NUMBER). set (l := leBytes 8 (len data + 4)). set (q := leBytes 4 sq). set (x := leBytes 2 (crc16 data)).
  assert (len m = 4) as Lm by apply len_leBytes. assert (len l = 8) as Ll by apply len_leBytes.
  assert (len q = 4) as Lq by apply len_leBytes. assert (len x = 2) as Lx by apply len_leBytes.
  assert (le32 (m ++ l ++ q ++ data ++ x) 0 = Some FILE_MAGIC_NUMBER) as -> by (by apply (le32_app [])). cbn [mbind option_bind].
  assert (le64 (m ++ l ++ q ++ data ++ x) 4 = Some (len data + 4)) as -> by (apply le64_app; [by rewrite Lm | range]). cbn [mbind option_bind].
  change (FILE_MAGIC_NUMBER =? FILE_MAGIC_NUMBER) with true. rewrite (wrapU_id 64) by range.
  replace (len data + 4 + 12 + 2) with (18 + len data) by lia. rewrite Z.eqb_refl. cbn [negb orb].
  rewrite app_assoc. assert (le32 ((m ++ l) ++ q ++ data ++ x) 12 = Some sq) as -> by (apply le32_app; [lens | done]). cbn [mbind option_bind].
  replace ((m ++ l) ++ q ++ data ++ x) with ((m ++ l ++ q ++ data) ++ x ++ []) by (by rewrite app_nil_r, <- !app_assoc).
  assert (le16 ((m ++ l ++ q ++ data) ++ x ++ []) (12 + (len data + 4)) = Some (crc16 data)) as -> by (apply le16_app; [lens | by apply crc16_range]). cbn [mbind option_bind].
  replace ((m ++ l ++ q ++ data) ++ x ++ []) with ((m ++ l ++ q) ++ data ++ x) by (by rewrite app_nil_r, <- !app_assoc).
  change (Z.to_nat (12 + 4)) with 16%nat. rewrite (drop_app_length' (m ++ l ++ q)) by (unfold len in *; rewrite !length_app; lia).
  assert (RTU_CRC (data ++ x) (len data + 4 - 4) = Some (crc16 data)) as ->.
  { rewrite <- (rtu_crc data (len data)) by (done || range). unfold RTU_CRC. replace (len data + 4 - 4) with (len data) by lia.
    rewrite (wrapU_id 16) by range. by rewrite get_prefix, get_all. }
  cbn [mbind option_bind]. rewrite Z.eqb_refl. cbn [negb]. rewrite (wrapU_id 32 (len data + 4)) by range.
  rewrite (wrapU_id 32) by range. by rewrite (get_app (m ++ l ++ q)) by lens.
Qed.

(** ** What an operation leaves alone *)

Definition keeps {A B} (g : World -> B) (m : P A) : Prop := forall w a w', m w = Some (a, w') -> g w' = g w.

(** What a transfer depends on. *)
Definition view (w : World) : gmap Z FileRecipientInfo * list Z * gmap text bytes * gmap Z text := (recs w, recvList w, disk w, fds w).

Section Keeps.

Context {B : Type} (g : World -> B).

Lemma keeps_ret A (x : A) : keeps g (mret x).
Proof. by intros w a w' [= <- <-]. Qed.

Lemma keeps_bind A C (m : P A) (k : A -> P C) : keeps g m -> (forall x, keeps g (k x)) -> keeps g (m ≫= k).
Proof. intros Hm Hk w c w' (x & w1 & E & E')%bind_Some. by rewrite (Hk x _ _ _ E'), (Hm _ _ _ E). Qed.

Lemma keeps_gets A (h : World -> A) : keeps g (gets h).
Proof. by intros w a w' [= <- <-]. Qed.

Lemma keeps_lift A (o : option A) : keeps g (lift o).
Proof. intros w a w'. unfold lift. by destruct o as [x|]; [intros [= <- <-]|]. Qed.

Lemma keeps_modify (h : World -> World) : (forall w, g (h w) = g w) -> keeps g (modify h).
Proof. intros H w a w' [= <- <-]. apply H. Qed.

End Keeps.

#[local] Hint Resolve keeps_ret keeps_gets keeps_lift : keeps.
#[local] Hint Extern 0 (_ = _) => reflexivity : keeps.

(** An operation that is built from such operations. *)
Ltac keeping := repeat first [ solve [auto with keeps nocore] | apply keeps_bind; [|intros]
  | match goal with |- keeps _ (if ?b then _ else _) => destruct b | |- keeps _ (match ?x with _ => _ end) => destruct x end ].

Section System.

Context {B : Type} (g : World -> B).
Context (g_answers : forall l w, g (setAnswers l w) = g w) (g_out : forall m w, g (put_message m w) = g w)
  (g_note : forall e w, g (note e w) = g w).

Lemma keeps_ask : keeps g ask.
Proof. intros w a w'. unfold ask. destruct (answers w); intros [= <- <-]; [done|]. apply g_answers. Qed.

#[local] Hint Resolve keeps_ask : keeps.

Lemma keeps_ok : keeps g ok.
Proof. unfold ok. keeping. Qed.

#[local] Hint Resolve keeps_ok : keeps.

Lemma keeps_alloc n : keeps g (alloc n).
Proof. unfold alloc. keeping. Qed.

Lemma keeps_call b e : keeps g (call b e).
Proof. unfold call, when. destruct b; [apply keeps_modify; apply g_note | keeping]. Qed.

Lemma keeps_unlock fd : keeps g (unlockFile fd).
Proof. unfold unlockFile. keeping. Qed.

Lemma keeps_stream ch d t : keeps g (ProxyChannelSendFileStream ch d t).
Proof. unfold ProxyChannelSendFileStream. keeping. apply keeps_modify, g_out. Qed.

#[local] Hint Resolve keeps_alloc keeps_stream : keeps.

Lemma keeps_result ch sq res side : keeps g (SendFileTransResult ch sq res side).
Proof. unfold SendFileTransResult. keeping. Qed.

#[local] Hint Resolve keeps_result : keeps.

Lemma keeps_ackData ch st v t : keeps g (SendFileAckReqAndResData ch st v t).
Proof. unfold SendFileAckReqAndResData. keeping. Qed.

Lemma keeps_report r ch sq res : keeps g (report r ch sq res).
Proof. unfold report. keeping. Qed.

Lemma keeps_tryLock fd : keeps g (tryLock fd).
Proof. unfold tryLock. keeping. Qed.

End System.

#[local] Hint Resolve keeps_ask keeps_ok keeps_alloc keeps_call keeps_unlock keeps_stream keeps_result keeps_ackData keeps_report
  keeps_tryLock : keeps.

(** Releasing a recipient does not touch the list. *)
Lemma keeps_clear b : keeps recvList (ClearRecipientResources b).
Proof.
  unfold ClearRecipientResources, getRec, SoftBusCloseFile, putRec, pathOf, SoftBusRemoveFile, when.
  keeping; by apply keeps_modify.
Qed.

Lemma keeps_free b : keeps recvList (freeRec b).
Proof. by apply keeps_modify. Qed.

(** ** One recipient *)

Section Recipient.

Context (sid a : Z) (pl : Z * bytes) (path : text).

(** The descriptor and the path of a file. *)
Definition place (f : SingleFileInfo) : Z * bytes := (fileFd f, filePath f).

(** What is known of the file being received does not depend on its status and
    timeout, nor on the results of the windows. *)
Definition core (f : SingleFileInfo) : Z * Z * Z * Z * Z := (seq f, fileOffset f, oneFrameLen f, checkSumCRC f, startSeq f).

Implicit Types Psi : Z * Z * Z * Z * Z -> option bytes -> Prop.

(** The only recipient is that of the session, with [n] references at least. *)
Definition Live Psi (n : Z) (w : World) : Prop :=
  recvList w = [a] /\ fds w !! pl.1 = Some path /\
  exists r, recs w !! a = Some r /\ sessionId r = sid /\ crc r = 1 /\ n <= objRefCount r /\ place (recvFileInfo r) = pl /\
            Psi (core (recvFileInfo r)) (disk w !! path).

Definition Gone (w : World) : Prop := recvList w = [].

Lemma live_keeps Psi n A (m : P A) w x w' : m w = Some (x, w') -> keeps view m -> Live Psi n w -> Live Psi n w'.
Proof. intros E K. specialize (K _ _ _ E). unfold view in K. injection K as E1 E2 E3 E4. unfold Live. by rewrite E1, E2, E3, E4. Qed.

Lemma live_mono Psi n n' w : n' <= n -> Live Psi n w -> Live Psi n' w.
Proof. intros Hn (H1 & H2 & r & ? & ? & ? & ? & ? & H). split_and!; [done..|]. exists r. split_and!; try done; lia. Qed.

(** A change of the recipient. *)
Lemma live_put Psi n n' w w' r r' x : Live Psi n w -> putRec a r' w = Some (x, w') -> recs w !! a = Some r ->
  sessionId r' = sessionId r -> crc r' = crc r -> place (recvFileInfo r') = place (recvFileInfo r) ->
  core (recvFileInfo r') = core (recvFileInfo r) -> n' <= objRefCount r' -> Live Psi n' w'.
Proof.
  intros (H1 & H2 & r0 & Hr & ? & ? & ? & ? & H) [= <- <-] Hr' Es Ec Ef Eo Hn. replace r0 with r in * by congruence.
  split_and!; [done..|]. exists r'. cbn [recs setRecs disk]. rewrite lookup_insert_eq, Es, Ec, Ef, Eo. done.
Qed.

Lemma getRec_run b w r w' : getRec b w = Some (r, w') -> w' = w /\ recs w !! b = Some r.
Proof. unfold getRec. intros (o & w1 & [= <- <-] & E)%bind_Some. unfold lift in E. apply fmap_Some in E as (? & ? & [= <- <-]). done. Qed.

Lemma live_find Psi n w : Live Psi n w -> findRec w sid = Some a.
Proof. intros (H1 & _ & r & Hr & Hs & _). unfold findRec. rewrite H1. cbn. rewrite Hr. cbn. rewrite Hs. by rewrite bool_decide_eq_true_2. Qed.

Lemma gone_find w : Gone w -> findRec w sid = None.
Proof. unfold Gone, findRec. by intros ->. Qed.

(** One reference less. *)
Lemma live_drop Psi n w x w' : Live Psi n w -> dropRef a w = Some (x, w') ->
  (2 <= n -> Live Psi (n - 1) w') /\ (1 <= n -> Live Psi 1 w' \/ Gone w').
Proof.
  intros HL (r & w1 & [-> Hr]%getRec_run & E)%bind_Some. apply bind_Some in E as (y & w1 & E1 & E).
  assert (n <= objRefCount r) as Hn.
  { destruct HL as (_ & _ & r0 & Hr0 & _ & _ & ? & _). by replace r0 with r in * by congruence. }
  pose proof (live_put Psi n (objRefCount r - 1) w w1 r _ y HL E1 Hr eq_refl eq_refl eq_refl eq_refl (Z.le_refl _)) as HL1.
  destruct (Z.eqb_spec (objRefCount r - 1) 0).
  - split; [lia|]. intros _. right. apply bind_Some in E as (z & w2 & [= <- <-] & E).
    apply bind_Some in E as (z' & w3 & E3 & E4). unfold Gone. rewrite (keeps_free a _ _ _ E4), (keeps_clear a _ _ _ E3).
    destruct HL1 as (-> & _). cbn. by rewrite decide_False by auto.
  - injection E as <- <-. split; intros; [|left]; eapply live_mono; [|done| |done]; lia.
Qed.

Lemma live_release Psi w x w' : Live Psi 2 w -> ReleaseRecipientRef a w = Some (x, w') -> Live Psi 1 w'.
Proof.
  intros HL (l & w1 & E1 & E)%bind_Some. apply (live_keeps _ _ _ _ _ _ _ E1) in HL; [|keeping].
  destruct l; cbn [negb] in E.
  - by apply (live_drop _ _ _ _ _ HL E).
  - injection E as <- <-. eapply live_mono; [|done]; lia.
Qed.

Lemma live_del Psi w x w' : Live Psi 1 w \/ Gone w -> DelRecipient sid w = Some (x, w') -> Live Psi 1 w' \/ Gone w'.
Proof.
  intros HL (l & w1 & E1 & E)%bind_Some.
  assert (Live Psi 1 w1 \/ Gone w1) as HL1.
  { destruct HL as [HL|HG]; [left; by apply (live_keeps _ _ _ _ _ _ _ E1) in HL; [|keeping]|right].
    unfold Gone. rewrite <- HG. assert (keeps recvList ok) as K by keeping. apply (K _ _ _ E1). }
  clear HL E1. destruct l; cbn [negb] in E; [|by injection E as <- <-].
  apply bind_Some in E as (o & w2 & [= <- <-] & E). destruct HL1 as [HL|HG].
  - rewrite (live_find _ _ _ HL) in E. by apply (live_drop _ _ _ _ _ HL E).
  - rewrite (gone_find _ HG) in E. injection E as <- <-. by right.
Qed.

Lemma live_state Psi n st w x w' : Live Psi n w -> SetRecipientRecvState a st w = Some (x, w') -> Live Psi n w'.
Proof.
  intros HL (l & w1 & E1 & E)%bind_Some. apply (live_keeps _ _ _ _ _ _ _ E1) in HL; [|keeping].
  destruct l; cbn [negb] in E; [|by injection E as <- <-].
  apply bind_Some in E as (r & w2 & [-> Hr]%getRec_run & E). destruct (negb (recvState r =? _)); [|by injection E as <- <-].
  assert (n <= objRefCount r) by (destruct HL as (_ & _ & r0 & Hr0 & _ & _ & ? & _); by replace r0 with r in * by congruence).
  eapply (live_put _ _ _ _ _ _ _ _ HL E Hr); by destruct (st =? _).
Qed.

(** The recipient is found in a state other than idle, and referenced. *)
Lemma live_process Psi w o w' : Live Psi 1 w -> GetRecipientInProcessRef sid w = Some (o, w') ->
  (o = None /\ Live Psi 1 w') \/ (o = Some a /\ Live Psi 2 w').
Proof.
  intros HL (l & w1 & E1 & E)%bind_Some. apply (live_keeps _ _ _ _ _ _ _ E1) in HL; [|keeping].
  destruct l; cbn [negb] in E; [|injection E as <- <-; by left].
  apply bind_Some in E as (o2 & w2 & [= <- <-] & E). rewrite (live_find _ _ _ HL) in E.
  apply bind_Some in E as (r & w2 & [-> Hr]%getRec_run & E). destruct (recvState r =? _); [injection E as <- <-; by left|].
  assert (1 <= objRefCount r) by (destruct HL as (_ & _ & r0 & Hr0 & _ & _ & ? & _); by replace r0 with r in * by congruence).
  apply bind_Some in E as (y & w2 & E & [= <- <-]). right. split; [done|].
  eapply (live_put _ _ _ _ _ _ _ _ HL E Hr); destruct (recvState r =? _); cbn; try done; lia.
Qed.

Lemma gone_process w o w' : Gone w -> GetRecipientInProcessRef sid w = Some (o, w') -> o = None /\ Gone w'.
Proof.
  intros HG (l & w1 & E1 & E)%bind_Some. assert (Gone w1) as HG1.
  { unfold Gone. rewrite <- HG. assert (keeps recvList ok) as K by keeping. apply (K _ _ _ E1). }
  destruct l; cbn [negb] in E; [|by injection E as <- <-].
  apply bind_Some in E as (o2 & w2 & [= <- <-] & E). rewrite (gone_find _ HG1) in E. by injection E as <- <-.
Qed.

End Recipient.

(** ** The content of the file *)

Lemma writeAt_lookup x (o : nat) bs i : writeAt x (Z.of_nat o) bs !! i =
  if decide (i < o)%nat then (x ++ replicate (o - length x) 0) !! i
  else if decide (i < o + length bs)%nat then bs !! (i - o)%nat else x !! i.
Proof.
  unfold writeAt, len. replace (Z.to_nat (Z.of_nat o - Z.of_nat (length x))) with (o - length x)%nat by lia. rewrite Nat2Z.id.
  assert (length (take o (x ++ replicate (o - length x) 0)) = o) as Hl by (rewrite length_take, length_app, length_replicate; lia).
  destruct (decide (i < o)%nat).
  - rewrite lookup_app_l by lia. by apply lookup_take_lt.
  - rewrite lookup_app_r, Hl by lia. destruct (decide (i < o + length bs)%nat).
    + by rewrite lookup_app_l by lia.
    + rewrite lookup_app_r by lia. rewrite lookup_drop. f_equal. lia.
Qed.

Lemma length_writeAt x (o : nat) bs : length (writeAt x (Z.of_nat o) bs) = Nat.max (length x) (o + length bs).
Proof.
  unfold writeAt, len. rewrite !length_app, length_drop, length_take, length_app, length_replicate. lia.
Qed.

Lemma chunk_lookup c j m i : (i < length (take m (chunk c j)))%nat -> take m (chunk c j) !! i = c !! (958 * j + i)%nat.
Proof.
  rewrite length_take. intros Hi. rewrite lookup_take_lt by lia. revert Hi. unfold chunk. rewrite length_take.
  change (Z.to_nat CRC_DATA_SIZE) with 958%nat. intros Hi. by rewrite lookup_take_lt, lookup_drop by lia.
Qed.

Lemma length_chunk c j : length (chunk c j) = Nat.min 958 (length c - 958 * j).
Proof. unfold chunk. rewrite length_take, length_drop. done. Qed.

(** [x] has the first [k] pieces of [c], and beyond the end of [c] what [old]
    has. *)
Definition agreeOver (old c x : bytes) (k : nat) : Prop :=
  (forall i, (i < 958 * k)%nat -> (i < length c)%nat -> x !! i = c !! i) /\ (forall i, (length c <= i)%nat -> x !! i = old !! i).

(** The same in a file that was empty. *)
Abbreviation agree := (agreeOver []).

Lemma write_agrees old c x k j m : agreeOver old c x k -> (958 * j <= length c)%nat ->
  agreeOver old c (writeAt x (Z.of_nat (958 * j)) (take m (chunk c j))) k.
Proof.
  intros [Ha Hl] Hj. split.
  - intros i Hi Hc. rewrite writeAt_lookup. destruct (decide (i < 958 * j)%nat).
    + rewrite lookup_app_l; [by apply Ha|]. apply lookup_lt_is_Some. rewrite (Ha i Hi Hc). by apply lookup_lt_is_Some.
    + destruct (decide _); [|by apply Ha]. rewrite chunk_lookup by lia. f_equal. lia.
  - intros i Hi. rewrite writeAt_lookup, decide_False by lia. rewrite decide_False; [by apply Hl|].
    rewrite length_take, length_chunk. lia.
Qed.

Lemma write_extends old c x k m : agreeOver old c x k -> (958 * k <= length c)%nat -> (length (chunk c k) <= m)%nat ->
  agreeOver old c (writeAt x (Z.of_nat (958 * k)) (take m (chunk c k))) (S k).
Proof.
  intros H Hk Hm. destruct (write_agrees old c x k k m H Hk) as [Ha Hl]. split; [|done]. intros i Hi Hc.
  destruct (decide (i < 958 * k)%nat); [by apply Ha|]. rewrite writeAt_lookup, decide_False by lia.
  rewrite (take_ge (chunk c k) m) by done. rewrite decide_True by (rewrite length_chunk; lia).
  rewrite <- (take_ge (chunk c k) (length (chunk c k))) by done.
  rewrite chunk_lookup by (rewrite take_ge by done; rewrite length_chunk; lia). f_equal. lia.
Qed.

Lemma agreeOver_all old c x k : agreeOver old c x k -> (frames c <= k)%nat -> x = c ++ drop (length c) old.
Proof.
  intros [Ha Hl] Hk. apply list_eq. intros i.
  assert (~ (958 * Z.of_nat k < len c)) as Hn by (intros ?%frames_spec; lia). unfold len in Hn.
  destruct (decide (i < length c)%nat).
  - rewrite lookup_app_l by done. apply Ha; lia.
  - rewrite lookup_app_r, lookup_drop by lia. rewrite Hl by lia. f_equal. lia.
Qed.

Lemma agree_all c x k : agree c x k -> (frames c <= k)%nat -> x = c.
Proof. intros H Hk. rewrite (agreeOver_all [] c x k H Hk), drop_nil. apply app_nil_r. Qed.

(** ** Writing *)

Definition table (w : World) : gmap Z FileRecipientInfo * list Z * gmap Z text := (recs w, recvList w, fds w).

Lemma keeps_pwrite fd buf off : keeps table (SoftBusPwriteFile fd buf off).
Proof. unfold SoftBusPwriteFile. keeping. by apply keeps_modify. Qed.

#[local] Hint Resolve keeps_pwrite : keeps.

Lemma keeps_emptyLoop n : forall f, keeps table (emptyLoop n f).
Proof. induction n as [|n IH]; intros f; cbn [emptyLoop]; keeping. Qed.

#[local] Hint Resolve keeps_emptyLoop : keeps.

Lemma keeps_process type crcFlag info f : keeps table (ProcessOneFrame type crcFlag info f).
Proof. unfold ProcessOneFrame, ProcessOneFrameCRC, WriteEmptyFrame, writeData. keeping. Qed.

(** The file after a write of all or some of the bytes, or of none. *)
Lemma pwrite_run fd buf off path w n w' : SoftBusPwriteFile fd buf off w = Some (n, w') -> fds w !! fd = Some path ->
  (n = -1 /\ disk w' !! path = disk w !! path) \/
  (0 <= n <= len buf /\ disk w' !! path =
     Some (if n =? 0 then default [] (disk w !! path) else writeAt (default [] (disk w !! path)) off (take (Z.to_nat n) buf))).
Proof.
  intros (v & w1 & E1 & E)%bind_Some Hf. assert (keeps view ask) as K by keeping. specialize (K _ _ _ E1).
  unfold view in K. injection K as _ _ Ed Ef. rewrite <- Ed, <- Ef in *.
  apply bind_Some in E as (o & w2 & [= <- <-] & E). rewrite Hf in E. pose proof (len_nonneg buf).
  cbv zeta in E. destruct (_ <? 0) eqn:En in E; [injection E as <- <-; by left|]. apply Z.ltb_ge in En.
  apply bind_Some in E as (d & w2 & [= <- <-] & E). apply bind_Some in E as (u & w2 & [= <- <-] & [= <- <-]). right.
  split; [|cbn [disk setDisk]; by rewrite lookup_insert_eq].
  revert En. unfold moved. destruct (2 ^ 63 <=? off); [lia|]. split_cmp; lia.
Qed.

Lemma emptyLoop_run n : forall f w e f' w', emptyLoop n f w = Some ((e, f'), w') -> exists off, f' = setOffset off f.
Proof.
  induction n as [|n IH]; intros f w e f' w' E; cbn [emptyLoop] in E.
  - injection E as <- <- <-. exists (fileOffset f). by destruct f.
  - apply bind_Some in E as (v & w1 & _ & E). destruct (_ || _); [injection E as <- <- <-; exists (fileOffset f); by destruct f|].
    apply IH in E as [off ->]. by exists off.
Qed.

(** Nothing is written when no frame is missing. *)
Lemma writeEmpty_run f n w e f' w' : WriteEmptyFrame f n w = Some ((e, f'), w') ->
  (exists off, f' = setOffset off f) /\ (n <= 0 -> e = SOFTBUS_OK /\ f' = f /\ w' = w).
Proof.
  unfold WriteEmptyFrame. destruct (Z.ltb_spec 0 n).
  - intros E. split; [|lia]. apply bind_Some in E as (m & w1 & _ & E). destruct m; cbn [negb] in E.
    + by apply emptyLoop_run in E.
    + injection E as <- <- <-. exists (fileOffset f). by destruct f.
  - intros [= <- <- <-]. split; [exists (fileOffset f); by destruct f|done].
Qed.

(** The sum changes when a frame of the current window was written. *)
Lemma writeData_run info off f path w e f' w' : writeData info off f w = Some ((e, f'), w') -> fds w !! fileFd f = Some path ->
  (exists o, f' = setOffset o f /\ (iSeq info < startSeq f -> o = fileOffset f)) \/
  (startSeq f <= iSeq info /\ f' = setSum (u64 (checkSumCRC f + iCrc info)) (setOffset (u64 (fileOffset f + u32 (iLen info - 4))) f) /\
   u32 (iLen info - 4) <= len (iData info) /\
   disk w' !! path = Some (if u32 (iLen info - 4) =? 0 then default [] (disk w !! path)
                           else writeAt (default [] (disk w !! path)) off (take (Z.to_nat (u32 (iLen info - 4))) (iData info)))).
Proof.
  intros (n & w1 & E1 & E)%bind_Some Hf. destruct (pwrite_run _ _ _ _ _ _ _ E1 Hf) as [[-> _]|[Hn Hd]].
  - injection E as <- <- <-. left. exists (fileOffset f). by destruct f.
  - change FRAME_DATA_SEQ_OFFSET with 4 in E. destruct (Z.ltb_spec n 0); [lia|]. destruct (Z.eqb_spec n (u32 (iLen info - 4))) as [Hx|_]; cbn [negb orb] in E.
    2: { injection E as <- <- <-. left. exists (fileOffset f). by destruct f. }
    rewrite <- Hx. destruct (Z.leb_spec (startSeq f) (iSeq info)).
    + cbv zeta in E. cbn [fileOffset setOffset checkSumCRC] in E. destruct (MAX_FILE_SIZE <? _); injection E as <- <- <-; [left; eexists; split; [done|lia]|].
      right. split_and!; try done; lia.
    + injection E as <- <- <-. left. exists (fileOffset f). split; [by destruct f|done].
Qed.

Lemma writeData_disk info off f path w e f' w' : writeData info off f w = Some ((e, f'), w') -> fds w !! fileFd f = Some path ->
  disk w' !! path = disk w !! path \/
  exists n, disk w' !! path = Some (writeAt (default [] (disk w !! path)) off (take n (iData info))) \/ disk w' !! path = Some (default [] (disk w !! path)).
Proof.
  intros (n & w1 & E1 & E)%bind_Some Hf.
  assert (disk w' = disk w1) as -> by (cbv zeta in E; destruct (_ || _); [|destruct (_ <=? _) in E; [destruct (_ <? _) in E|]]; by injection E as _ _ <-).
  destruct (pwrite_run _ _ _ _ _ _ _ E1 Hf) as [[_ ->]|[_ ->]]; [by left|]. right. exists (Z.to_nat n).
  destruct (n =? 0); [by right|by left].
Qed.

Section File.

Context (old c : bytes) (c_bytes : is_bytes c) (c_size : len c <= MAX_FILE_SIZE).
Context (c_sums : forall j, (j < frames c)%nat -> crc16 (chunk c j) <> 0).

(** What the receiver has after frames up to number [k] could arrive: the first
    [k] pieces, or a sum that is too small for ever. *)
Definition Received (k : nat) (f : Z * Z * Z * Z * Z) (d : option bytes) : Prop :=
  let '(sq, off, one, sum, _) := f in
  one = 958 /\
  ((sq = Z.of_nat k /\ off = Z.min (958 * Z.of_nat k) (len c) /\ sum = sumCrc c k /\ exists x, d = Some x /\ agreeOver old c x k) \/
   0 <= sum < sumCrc c k).

Lemma sum_pos j : (j < frames c)%nat -> 0 < crc16 (chunk c j) < 65536.
Proof.
  intros Hj. pose proof (c_sums j Hj). pose proof (crc16_range (chunk c j) (chunk_bytes c j c_bytes)) as H0. unfold is_u in H0.
  change (2 ^ 16) with 65536 in H0. lia.
Qed.

Lemma sum_lt k k' : (k < k' <= frames c)%nat -> sumCrc c k < sumCrc c k'.
Proof.
  intros H. destruct k' as [|k']; [lia|]. cbn [sumCrc]. pose proof (sum_pos k' ltac:(lia)).
  pose proof (sumCrc_mono c k k' c_bytes ltac:(lia)). lia.
Qed.

Lemma sum_small k : (k <= frames c)%nat -> 0 <= sumCrc c k < 2 ^ 40.
Proof.
  intros Hk. pose proof (sumCrc_range c k c_bytes). assert (Z.of_nat k <= 5474); [|lia].
  destruct k as [|k]; [lia|]. assert (958 * Z.of_nat k < len c) by (apply frames_spec; lia). unfold MAX_FILE_SIZE in *. lia.
Qed.

(** A frame that was missed leaves the sum too small. *)
Lemma received_missed k k' sq off sum st d sq' off' st' d' : Received k (sq, off, 958, sum, st) d -> (k < k' <= frames c)%nat ->
  Received k' (sq', off', 958, sum, st') d'.
Proof.
  intros [_ H] Hk. split; [done|]. right. pose proof (sum_lt k k' Hk). pose proof (sum_small k ltac:(lia)).
  destruct H as [(_ & _ & -> & _)|?]; lia.
Qed.

Definition infoOf (j : nat) : FrameInfo := MkInfo (Z.of_nat j + 1) (crc16 (chunk c j)) (len (chunk c j) + 4) (chunk c j).

Lemma received_one k f d : Received k (core f) d -> oneFrameLen f = 958.
Proof. by intros [H _]. Qed.

(** A frame of the current window that is new. *)
Lemma received_new k j f w e f' w' path : (k <= j < frames c)%nat -> fds w !! fileFd f = Some path -> Received k (core f) (disk w !! path) ->
  forall type, ProcessOneFrame type 1 (infoOf j) f w = Some ((e, f'), w') -> place f' = place f /\ Received (S j) (core f') (disk w' !! path).
Proof.
  intros Hk Hf HR type E. pose proof (received_one _ _ _ HR) as H1.
  assert (forall off sq st d, Received (S j) (sq, off, oneFrameLen f, checkSumCRC f, st) d) as Hmiss.
  { intros off sq st d. unfold core in HR. rewrite H1 in *. apply (received_missed k (S j) _ _ _ _ _ _ _ _ _ HR). lia. }
  unfold ProcessOneFrame in E. destruct (fileStatus f =? NODE_ERR); [injection E as <- <- <-; split; [done|apply Hmiss]|].
  unfold ProcessOneFrameCRC in E. change (1 =? APP_INFO_FILE_FEATURES_SUPPORT) with true in E. cbv zeta in E. cbn [iSeq infoOf] in E.
  destruct (_ <=? _) in E; [injection E as <- <- <-; split; [done|apply Hmiss]|]. destruct (Z.leb_spec (startSeq f) (Z.of_nat j + 1)) as [Hs|Hs] in E.
  - apply bind_Some in E as ([e1 f1] & w1 & E1 & E). pose proof (writeEmpty_run _ _ _ _ _ _ E1) as [[o ->] H0].
    destruct (negb (e1 =? SOFTBUS_OK)); [injection E as <- <- <-; split; [done|apply Hmiss]|].
    destruct (_ && _) in E; [injection E as <- <- <-; split; [done|apply Hmiss]|].
    assert (fds w1 = fds w) as Ew.
    { assert (keeps table (WriteEmptyFrame f (s32 (Z.of_nat j + 1 - seq f - 1)))) as K by (unfold WriteEmptyFrame; keeping).
      specialize (K _ _ _ E1). unfold table in K. congruence. }
    rewrite <- Ew in Hf. destruct (writeData_run _ _ _ path _ _ _ _ E Hf) as [(o' & -> & _)|(_ & -> & Hl & Hd)]; [split; [done|apply Hmiss]|].
    split; [done|]. cbn [infoOf iLen iCrc iData checkSumCRC setWindow setSeq setOffset setSum core seq fileOffset oneFrameLen] in *.
    pose proof (len_chunk c j) as Lc. pose proof (proj1 (frames_spec c j) ltac:(lia)) as Hj.
    rewrite (wrapU_id 32 (len (chunk c j) + 4 - 4)) in * by range. replace (len (chunk c j) + 4 - 4) with (len (chunk c j)) in * by lia.
    pose proof (sum_pos j ltac:(lia)) as Hp. pose proof (sum_small (S j) ltac:(lia)) as Hsm. cbn [sumCrc] in Hsm.
    pose proof (sumCrc_mono c k j c_bytes ltac:(lia)) as Hm. unfold core in HR. rewrite H1 in *. destruct HR as [_ HR].
    assert (0 <= checkSumCRC f <= sumCrc c k) as Hsum by (pose proof (sumCrc_range c k c_bytes); destruct HR as [(_ & _ & -> & _)|?]; lia).
    rewrite (wrapU_id 64 (checkSumCRC f + _)) by range. split; [done|]. cbn [checkSumCRC setSum setOffset setSeq setWindow seq fileOffset oneFrameLen].
    destruct (decide (k = j)) as [->|Hkj].
    2: { right. cbn [sumCrc]. pose proof (sum_lt k j ltac:(lia)). lia. }
    destruct HR as [(Hsq & Ho & Hsu & x & Hx & Ha)|HR]; [left | right; cbn [sumCrc]; lia].
    destruct H0 as (_ & Hf1 & ->); [rewrite Hsq; unfold wrapS; cint|]. assert (o = fileOffset f) as -> by (rewrite <- (f_equal fileOffset Hf1); done).
    rewrite Ho in *. rewrite Z.min_l in * by lia. rewrite (wrapU_id 64) by (unfold MAX_FILE_SIZE in *; range). split_and!.
    + lia.
    + lia.
    + cbn [sumCrc]. lia.
    + destruct (Z.eqb_spec (len (chunk c j)) 0); [lia|]. rewrite Hx in Hd. cbn in Hd. eexists. split; [exact Hd|].
      replace (958 * Z.of_nat j) with (Z.of_nat (958 * j)) by lia. apply write_extends; [done|unfold len in *; lia|unfold len; lia].
  - destruct (writeData_run _ _ _ path _ _ _ _ E Hf) as [(o' & -> & _)|(Hs' & _)]; [split; [done|apply Hmiss]|]. cbn in Hs'. lia.
Qed.

(** A frame that is sent again. *)
Lemma received_old k j f w e f' w' path : (j < frames c)%nat -> Z.of_nat j + 1 < startSeq f ->
  fds w !! fileFd f = Some path -> Received k (core f) (disk w !! path) ->
  forall type, ProcessOneFrame type 1 (infoOf j) f w = Some ((e, f'), w') -> place f' = place f /\ Received k (core f') (disk w' !! path).
Proof.
  intros Hj Hs Hf HR type E. pose proof (received_one _ _ _ HR) as H1. pose proof (proj1 (frames_spec c j) Hj) as Hl.
  unfold ProcessOneFrame in E. destruct (fileStatus f =? NODE_ERR); [by injection E as <- <- <-|].
  unfold ProcessOneFrameCRC in E. change (1 =? APP_INFO_FILE_FEATURES_SUPPORT) with true in E. cbv zeta in E. cbn [iSeq infoOf] in E.
  destruct (_ <=? _) in E; [by injection E as <- <- <-|]. destruct (Z.leb_spec (startSeq f) (Z.of_nat j + 1)); [lia|].
  destruct (writeData_run _ _ _ path _ _ _ _ E Hf) as [(o & -> & Ho)|(Hs' & _)]; [|cbn in Hs'; lia].
  cbn in Ho. specialize (Ho Hs). subst o. split; [done|]. destruct HR as [_ HR]. split; [done|].
  destruct HR as [(Hsq & Hoff & Hsum & x & Hx & Ha)|HR]; [left|by right]. split_and!; [done..|].
  destruct (writeData_disk _ _ _ path _ _ _ _ E Hf) as [->|[n [->| ->]]]; rewrite Hx; [by exists x| |by exists x].
  eexists. split; [done|]. cbn [default iData infoOf]. rewrite H1, (wrapU_id 32), (wrapU_id 64) by (unfold MAX_FILE_SIZE in *; range).
  replace ((Z.of_nat j + 1 - 1) * 958) with (Z.of_nat (958 * j)) by lia. apply write_agrees; [done|]. unfold len in *. lia.
Qed.

End File.

(** ** The handlers *)

Section Handlers.

Context (realpath : text -> option text) (cl : Client) (sid a : Z) (pl : Z * bytes) (path : text).

Implicit Types Psi : Z * Z * Z * Z * Z -> option bytes -> Prop.

Notation Live := (Live sid a pl path).

Definition anything : Z * Z * Z * Z * Z -> option bytes -> Prop := fun _ _ => True.

Lemma live_table Psi n A (m : P A) w x w' : m w = Some (x, w') -> keeps table m -> Live Psi n w -> Live anything n w'.
Proof.
  intros E K (H1 & H2 & r & Hr & Hs & Hc & Hn & Hf & _). specialize (K _ _ _ E). unfold table in K. injection K as E1 E2 E3.
  unfold ProxyTransfer.Live. rewrite E1, E2, E3. split_and!; [done..|]. by exists r.
Qed.

Lemma live_putFile Psi n f w x w' : Live anything n w -> Psi (core f) (disk w !! path) -> place f = pl ->
  putFile a f w = Some (x, w') -> Live Psi n w'.
Proof.
  intros (H1 & H2 & r & Hr & Hs & Hc & Hn & Hf & _) HP Hfd (r0 & w1 & [-> Hr0]%getRec_run & [= <- <-])%bind_Some.
  replace r0 with r by congruence. split_and!; [done..|]. eexists. split; [cbn [recs setRecs]; apply lookup_insert_eq|]. done.
Qed.

Lemma live_failed Psi w code w' : Live Psi 2 w -> writeFailed a sid w = Some (code, w') -> Live Psi 1 w' \/ Gone w'.
Proof.
  intros HL (r & w1 & [-> Hr]%getRec_run & E)%bind_Some.
  apply bind_Some in E as (? & w1 & E1 & E). apply (live_keeps _ _ _ _ _ _ _ _ _ _ _ E1) in HL; [|keeping].
  apply bind_Some in E as (? & w2 & E2 & E). apply (live_state _ _ _ _ _ _ _ _ _ _ HL) in E2 as HL2.
  apply bind_Some in E as (? & w3 & E3 & E). apply (live_keeps _ _ _ _ _ _ _ _ _ _ _ E3) in HL2; [|keeping].
  apply bind_Some in E as (? & w4 & E4 & E). apply (live_release _ _ _ _ _ _ _ _ HL2) in E4 as HL4.
  apply bind_Some in E as (? & w5 & E5 & [= <- <-]). apply (live_del _ _ _ _ _ _ _ _ (or_introl HL4) E5).
Qed.

(** A data frame, processed with [Psi] before and [Psi'] after. *)
Lemma live_write Psi Psi' frame info w code w' : Live Psi 1 w \/ Gone w -> UnpackFileDataFrame 1 frame = Some (SOFTBUS_OK, info) ->
  (forall f d, Psi f d -> Psi' f d) ->
  (forall f w e f' w', place f = pl -> fds w !! pl.1 = Some path -> Psi (core f) (disk w !! path) ->
     ProcessOneFrame (frameType frame) 1 info f w = Some ((e, f'), w') -> place f' = pl /\ Psi' (core f') (disk w' !! path)) ->
  WriteFrameToFile sid frame w = Some (code, w') -> Live Psi' 1 w' \/ Gone w'.
Proof.
  intros HL HU Hi HP (o & w1 & E1 & E)%bind_Some. destruct HL as [HL|HG].
  2: { destruct (gone_process _ _ _ _ HG E1) as [-> HG1]. injection E as <- <-. by right. }
  destruct (live_process _ _ _ _ _ _ _ _ HL E1) as [[-> HL1]|[-> HL1]].
  { injection E as <- <-. left. destruct HL1 as (? & ? & r & ? & ? & ? & ? & ? & ?). split_and!; [done..|]. exists r. split_and!; try done. by apply Hi. }
  apply bind_Some in E as (r & w2 & [-> Hr]%getRec_run & E).
  pose proof HL1 as (L1 & L2 & r0 & Hr0 & Hs & Hc & Hn & Hf & Hpsi). assert (r0 = r) as -> by congruence.
  rewrite Hc, HU in E. apply bind_Some in E as (? & w2 & [= <- <-] & E). cbn [negb] in E. change (SOFTBUS_OK =? SOFTBUS_OK) with true in E. cbn [negb] in E.
  apply bind_Some in E as ([e f] & w2 & E2 & E). apply bind_Some in E as (? & w3 & E3 & E).
  destruct (HP _ _ _ _ _ Hf L2 Hpsi E2) as [Hf' HP'].
  pose proof (live_table _ _ _ _ _ _ _ E2 (keeps_process _ _ _ _) HL1) as HT.
  pose proof (live_putFile Psi' _ _ _ _ _ HT HP' Hf' E3) as HL3. destruct (negb (e =? SOFTBUS_OK)).
  { by apply (live_failed _ _ _ _ HL3 E). }
  apply bind_Some in E as (? & w4 & E4 & E).
  assert (Live Psi' 2 w4) as HL4.
  { apply bind_Some in E4 as (r4 & w5 & [-> Hr4]%getRec_run & E4). pose proof HL3 as (M1 & M2 & r3 & Hr3 & M3 & M4 & M5 & M6 & M7).
    assert (recvFileInfo r3 = f) as Hr3f.
    { apply bind_Some in E3 as (r5 & w5 & [-> Hr5]%getRec_run & [= _ <-]). cbn [recs setRecs] in Hr3. rewrite lookup_insert_eq in Hr3. by injection Hr3 as <-. }
    assert (r4 = r3) as -> by congruence. eapply (live_put _ _ _ _ _ _ 2 _ _ r3); [exact HL3|exact E4|done|done|done|..]; cbn; by rewrite ?Hr3f. }
  apply bind_Some in E as (? & w5 & E5 & E). apply (live_keeps _ _ _ _ _ _ _ _ _ _ _ E5) in HL4; [|unfold pathOf; keeping].
  apply bind_Some in E as (? & w6 & E6 & E). apply (live_keeps _ _ _ _ _ _ _ _ _ _ _ E6) in HL4; [|keeping].
  change (negb (1 =? APP_INFO_FILE_FEATURES_SUPPORT)) with false in E. cbn [andb] in E.
  apply bind_Some in E as (? & w7 & [= <- <-] & E). apply bind_Some in E as (? & w8 & E8 & [= <- <-]).
  left. apply (live_release _ _ _ _ _ _ _ _ HL4 E8).
Qed.

(** An answered request only moves the window. *)
Lemma live_ack Psi frame w code w' : (forall sq off one sum st st' d, Psi (sq, off, one, sum, st) d -> Psi (sq, off, one, sum, st') d) ->
  Live Psi 1 w \/ Gone w -> ProcessFileAckRequest sid frame w = Some (code, w') -> Live Psi 1 w' \/ Gone w'.
Proof.
  intros HW HL (o & w1 & E1 & E)%bind_Some. destruct HL as [HL|HG].
  2: { destruct (gone_process _ _ _ _ HG E1) as [-> HG1]. injection E as <- <-. by right. }
  destruct (live_process _ _ _ _ _ _ _ _ HL E1) as [[-> HL1]|[-> HL1]]; [injection E as <- <-; by left|]. left.
  apply bind_Some in E as (r & w2 & [-> Hr]%getRec_run & E).
  apply bind_Some in E as ([e [st v]] & w2 & E2 & E). apply (live_keeps _ _ _ _ _ _ _ _ _ _ _ E2) in HL1 as HL2; [|keeping].
  assert (recs w2 !! a = Some r) as Hr2.
  { assert (keeps view (lift (S:=World) (UnpackAckReqAndResData frame))) as K by keeping. specialize (K _ _ _ E2). unfold view in K. congruence. }
  cbv zeta in E. destruct (negb (e =? SOFTBUS_OK)); [|destruct (negb (st =? _))].
  1-2: apply bind_Some in E as (? & w3 & E3 & [= <- <-]); apply (live_release _ _ _ _ _ _ _ _ HL2 E3).
  apply bind_Some in E as (? & w3 & E3 & E). pose proof HL2 as (M1 & M2 & r0 & Hr0 & M3 & M4 & M5 & M6 & M7).
  assert (r0 = r) as -> by congruence.
  assert (Live anything 2 w2) as HA by (split_and!; [done..|]; by exists r).
  eapply (live_putFile Psi) in E3; [|done|cbn; by eapply HW|done].
  apply bind_Some in E as (? & w4 & E4 & E). apply (live_keeps _ _ _ _ _ _ _ _ _ _ _ E4) in E3; [|keeping].
  apply bind_Some in E as (? & w5 & E5 & [= <- <-]). apply (live_release _ _ _ _ _ _ _ _ E3 E5).
Qed.

(** A tick of the timer. *)
Lemma live_tick Psi w x w' : Live Psi 1 w \/ Gone w -> ProxyFileTransTimerProc w = Some (x, w') -> Live Psi 1 w' \/ Gone w'.
Proof.
  intros HL (l & w1 & E1 & E)%bind_Some. assert (keeps view ok) as K by keeping.
  assert (Live Psi 1 w1 \/ Gone w1) as HL1.
  { destruct HL as [HL|HG]; [left; by apply (live_keeps _ _ _ _ _ _ _ _ _ _ _ E1 K HL)|right].
    specialize (K _ _ _ E1). unfold view, Gone in *. congruence. }
  destruct l; cbn [negb] in E; [|by injection E as <- <-]. apply bind_Some in E as (rs & w2 & [= <- <-] & E).
  destruct HL1 as [HL1|HG]; [|rewrite HG in E; injection E as <- <-; by right].
  pose proof HL1 as (M1 & M2 & r & Hr & M3 & M4 & M5 & M6 & M7). rewrite M1 in E.
  apply bind_Some in E as (? & w2 & E2 & [= <- <-]). apply bind_Some in E2 as (r0 & w3 & [-> Hr0]%getRec_run & E2).
  assert (r0 = r) as -> by congruence. destruct (recvState r =? _); [injection E2 as <- <-; by left|].
  destruct (FILE_TRANS_TIMEOUT <=? _).
  - apply bind_Some in E2 as (? & w3 & [= <- <-] & E2). apply bind_Some in E2 as (? & w3 & [= <- <-] & E2). right.
    assert (recvList w2 = filter (fun y => y <> a) (recvList w1)) as HF.
    { destruct (_ =? 0); [|by injection E2 as <- <-]. apply bind_Some in E2 as (? & w3 & E3 & E4).
      by rewrite (keeps_free _ _ _ _ E4), (keeps_clear _ _ _ _ E3). }
    unfold Gone. rewrite HF, M1. cbn. by rewrite decide_False by auto.
  - left. by eapply (live_put _ _ _ _ _ _ 1 _ _ r); [exact HL1|exact E2|..].
Qed.

(** A sum that is accepted. *)
Lemma live_check Psi frame w w' : Live Psi 1 w \/ Gone w -> ProcessCrcCheckSumData sid frame w = Some (SOFTBUS_OK, w') ->
  Live (fun f d => Psi f d /\ exists n, UnpackFileCrcCheckSum 1 (let '(_, _, _, sum, _) := f in sum) frame = Some (SOFTBUS_OK, n)) 1 w'.
Proof.
  intros HL (o & w1 & E1 & E)%bind_Some. destruct HL as [HL|HG].
  2: { destruct (gone_process _ _ _ _ HG E1) as [-> HG1]. by injection E. }
  destruct (live_process _ _ _ _ _ _ _ _ HL E1) as [[-> HL1]|[-> HL1]]; [by injection E|].
  apply bind_Some in E as (r & w2 & [-> Hr]%getRec_run & E). apply bind_Some in E as ([res n] & w2 & E2 & E).
  pose proof HL1 as (M1 & M2 & r0 & Hr0 & M3 & M4 & M5 & M6 & M7). assert (r0 = r) as -> by congruence. rewrite M4 in E2.
  unfold lift in E2. apply fmap_Some in E2 as ([res' n'] & HU & [= -> -> ->]).
  apply bind_Some in E as (ret & w3 & E3 & E). apply bind_Some in E as (? & w4 & E4 & E).
  destruct (negb (res' =? SOFTBUS_OK)) eqn:Er; [|destruct (negb (ret =? SOFTBUS_OK))]; cbn [orb] in E.
  1-2: apply bind_Some in E as (? & w5 & _ & E); apply bind_Some in E as (? & w6 & _ & E); by injection E.
  apply negb_false_iff, Z.eqb_eq in Er. subst res'. apply bind_Some in E as (? & w5 & E5 & [= <-]).
  eapply live_state; [|exact E5]. eapply live_release; [|exact E4]. eapply live_keeps; [exact E3|keeping|].
  split_and!; [done..|]. exists r. split_and!; try done. by exists n'.
Qed.

(** ** The first frame *)

Definition Listed (n : Z) (w : World) : Prop :=
  recvList w = [a] /\ exists r, recs w !! a = Some r /\ sessionId r = sid /\ crc r = 1 /\ n <= objRefCount r.

Lemma listed_keeps n A (m : P A) w x w' : m w = Some (x, w') -> keeps view m -> Listed n w -> Listed n w'.
Proof. intros E K. specialize (K _ _ _ E). unfold view in K. injection K as E1 E2 _ _. unfold Listed. by rewrite E1, E2. Qed.

End Handlers.

Section Start.

Context (realpath : text -> option text) (cl : Client) (sid ch : Z).

Lemma start_listed w o w' : recvList w = [] -> configOf cl sid = Some 1 -> GetRecipientInCreateFileRef cl sid ch w = Some (o, w') ->
  match o with Some a => Listed sid a 2 w' | None => True end.
Proof.
  intros HG Hc (l & w1 & E1 & E)%bind_Some. assert (recvList w1 = []) as HG1.
  { assert (keeps recvList ok) as K by keeping. by rewrite (K _ _ _ E1). }
  destruct l; cbn [negb] in E; [|by injection E as <- <-].
  apply bind_Some in E as (o2 & w2 & [= <- <-] & E). unfold findRec in E. rewrite HG1 in E. cbn [List.find] in E.
  apply bind_Some in E as (o3 & w2 & E2 & E).
  destruct o3 as [a|]; [|by injection E as <- <-]. unfold CreateNewRecipient in E2. apply bind_Some in E2 as (o4 & w3 & [= <- <-] & E2).
  unfold findRec in E2. rewrite HG1 in E2. cbn [List.find] in E2. apply bind_Some in E2 as (m & w3 & E3 & E2).
  assert (recvList w3 = []) as HG3 by (assert (keeps recvList ok) as K by keeping; by rewrite (K _ _ _ E3)).
  destruct m; cbn [negb] in E2; [|by injection E2]. destruct (nameOf cl sid); [|by injection E2]. rewrite Hc in E2.
  destruct (listenerOf cl _); [|by injection E2]. apply bind_Some in E2 as (a' & w4 & [= <- <-] & E2).
  apply bind_Some in E2 as (? & w4 & [= <- <-] & [= <- <-]). apply bind_Some in E as (r & w4 & [-> Hr]%getRec_run & E).
  cbn [recs] in Hr. rewrite lookup_insert_eq in Hr. injection Hr as <-. change (negb (_ =? _)) with false in E. cbv iota in E.
  apply bind_Some in E as (? & w5 & [= <- <-] & [= <- <-]). split; [cbn; by rewrite HG3|].
  eexists. split; [apply lookup_insert_eq|]. done.
Qed.

Lemma create_disk w o w' : GetRecipientInCreateFileRef cl sid ch w = Some (o, w') -> disk w' = disk w.
Proof.
  assert (keeps disk (GetRecipientInCreateFileRef cl sid ch)) as K; [|by intros E; apply (K _ _ _ E)].
  unfold GetRecipientInCreateFileRef, CreateNewRecipient, GetRecipientNoLock, getRec, putRec. keeping; by apply keeps_modify.
Qed.

Lemma keeps_info frame a f : keeps view (GetFileInfoByStartFrame realpath frame a f).
Proof.
  assert (forall p, keeps view (makeDirs p)) as Hd by (induction p as [|x p IH]; cbn [makeDirs]; keeping).
  unfold GetFileInfoByStartFrame, getRec, pathOf, GetFullRecvPath, CreateDirAndGetAbsPath, GetAbsFullPath. keeping; try apply Hd.
Qed.

(** The length of the pieces comes from the frame. *)
Lemma unpackName_core d off n f e f' : unpackName d off n f = Some (e, f') -> core f' = core f.
Proof.
  unfold unpackName. destruct (_ <? n); [by intros [= <- <-]|]. destruct (0 <? n); [|by intros [= <- <-]].
  intros (name & _ & E)%option.bind_Some. apply option.bind_Some in E as ([r p] & _ & [= <- <-]). done.
Qed.

Lemma unpackStart_core type n garbage d one f f' : le32 d 12 = Some one ->
  UnpackFileTransStartInfo (MkFrame type n garbage (Some d)) 1 f = Some (SOFTBUS_OK, f') ->
  core f' = (seq f, fileOffset f, one, checkSumCRC f, 1).
Proof.
  intros Ho. unfold UnpackFileTransStartInfo. change (1 =? APP_INFO_FILE_FEATURES_SUPPORT) with true. cbn [frameLength frameData mbind option_bind].
  destruct (n <? _); [done|]. intros (magic & _ & E)%option.bind_Some. apply option.bind_Some in E as (dl & _ & E).
  destruct (_ || _); [done|]. change FRAME_HEAD_LEN with 12 in E. rewrite Ho in E. cbn [mbind option_bind] in E.
  apply option.bind_Some in E as (size & _ & E). by rewrite (unpackName_core _ _ _ _ _ _ E).
Qed.

Lemma info_core type n garbage d one a w f w' r : le32 d 12 = Some one -> recs w !! a = Some r -> crc r = 1 ->
  GetFileInfoByStartFrame realpath (MkFrame type n garbage (Some d)) a (emptyFile 0) w = Some ((SOFTBUS_OK, f), w') ->
  core f = (0, 0, one, 0, 1).
Proof.
  intros Ho Hr Hc (r0 & w1 & [-> Hr0]%getRec_run & E)%bind_Some. assert (r0 = r) as -> by congruence. rewrite Hc in E.
  cbv zeta in E. destruct (hasDots _); [by injection E|]. apply bind_Some in E as ([e f1] & w1 & E1 & E).
  unfold lift in E1. apply fmap_Some in E1 as ([e' f1'] & HU & [= -> -> ->]).
  destruct (Z.eqb_spec e' SOFTBUS_OK) as [->|]; cbn [negb] in E; [|by injection E].
  pose proof (unpackStart_core _ _ _ _ _ _ _ Ho HU) as HC. apply bind_Some in E as (name & w2 & _ & E).
  destruct (negb _) in E; [by injection E|]. apply bind_Some in E as (full & w3 & _ & E). destruct (negb _) in E; [by injection E|].
  apply bind_Some in E as ([e2 path] & w4 & _ & E). destruct (negb _) in E; [by injection E|]. by injection E as <- _.
Qed.

(** What a file that is opened and truncated has: nothing, or, when the system
    refuses to truncate it, what it had. *)
Definition leftOver (d0 d : option bytes) : Prop := d = Some [] \/ d = d0 /\ is_Some d0.

(** The file is opened and truncated. *)
Lemma put_opens a f w w' : Listed sid a 2 w -> PutToRecvFileList a f w = Some (SOFTBUS_OK, w') -> fileOffset f = 0 ->
  exists pl path, Live sid a pl path (fun f' d => f' = core f /\ leftOver (disk w !! path) d) 2 w' /\ cstr pl.2 = Some path.
Proof.
  intros HL (r & w1 & [-> Hr]%getRec_run & E)%bind_Some Ho. destruct (negb _) in E; [by injection E|].
  apply bind_Some in E as (path & w1 & E1 & E). unfold pathOf, lift in E1. apply fmap_Some in E1 as (path' & Hp & [= -> ->]).
  apply bind_Some in E as (busy & w2 & E2 & E). apply (listed_keeps _ _ _ _ _ _ _ _ E2) in HL as HL2; [|unfold CheckRecvFileExist; keeping].
  assert (disk w2 = disk w) as D2.
  { assert (keeps view (CheckRecvFileExist path')) as K by (unfold CheckRecvFileExist; keeping). specialize (K _ _ _ E2). unfold view in K. congruence. }
  destruct busy; [by injection E|]. apply bind_Some in E as (? & w3 & [= <- <-] & E). apply bind_Some in E as (fd & w4 & E4 & E).
  destruct (Z.ltb_spec fd 0) as [|Hfd]; [by injection E|]. apply bind_Some in E as (e & w5 & E5 & E).
  destruct (negb (e =? SOFTBUS_OK)); [apply bind_Some in E as (? & ? & _ & E); by injection E|].
  assert (recvList w4 = [a] /\ fds w4 !! fd = Some path' /\ disk w4 !! path' = Some (default [] (disk w !! path'))) as (L4 & F4 & D4).
  { apply bind_Some in E4 as (b & w6 & E6 & E4). assert (keeps view ok) as K by keeping. specialize (K _ _ _ E6). unfold view in K. injection K as _ K2 K3 _.
    apply bind_Some in E4 as (d & w7 & [= <- <-] & E4). destruct (_ || _); [injection E4 as <- _; lia|].
    apply bind_Some in E4 as (fs & w7 & [= <- <-] & E4). apply bind_Some in E4 as (n & w7 & [= <- <-] & E4).
    apply bind_Some in E4 as (? & w7 & [= <- <-] & E4). apply bind_Some in E4 as (? & w8 & [= <- <-] & [= <- <-]).
    split_and!; [cbn; rewrite K2; by apply HL2|cbn; apply lookup_insert_eq|]. cbn. rewrite lookup_insert_eq, K3. cbn. by rewrite D2. }
  assert (keeps view (tryLock fd)) as K by keeping. specialize (K _ _ _ E5). unfold view in K. injection K as _ K2 K3 K4.
  apply bind_Some in E as (? & w6 & E6 & E). unfold ftruncate in E6. apply bind_Some in E6 as (b & w7 & E7 & E6).
  assert (keeps view ok) as Kb by keeping. specialize (Kb _ _ _ E7). unfold view in Kb. injection Kb as Kr Kl Kd Kf.
  apply bind_Some in E6 as (o & w8 & [= <- <-] & E6). rewrite Kf, K4, F4 in E6.
  assert (recvList w6 = [a] /\ fds w6 !! fd = Some path' /\ leftOver (disk w !! path') (disk w6 !! path')) as (L6 & F6 & D6).
  { destruct b; cbn [when] in E6.
    - apply bind_Some in E6 as (d & w8 & [= <- <-] & [= <- <-]). cbn. split_and!; [congruence..|]. left. apply lookup_insert_eq.
    - injection E6 as <- <-. split_and!; [congruence..|]. rewrite Kd, K3, D4. destruct (disk w !! path'); [right|by left]. by split. }
  apply bind_Some in E as (? & w8 & [= <- <-] & [= <-]).
  destruct HL as (_ & r0 & Hr0 & Hs & Hc & Hn). assert (r0 = r) as -> by congruence.
  exists (fd, filePath f), path'. split; [|done]. split_and!; [done..|].
  eexists. split; [cbn; apply lookup_insert_eq|]. cbn. split_and!; try done. unfold core. cbn. by rewrite Ho.
Qed.

Lemma failed_code a w code w' : createFailed a sid ch w = Some (code, w') -> code = SOFTBUS_ERR.
Proof. intros E. repeat (apply bind_Some in E as (? & ? & _ & E)). by injection E as <- _. Qed.

Lemma start_live type n garbage d one w w' : recvList w = [] -> configOf cl sid = Some 1 -> le32 d 12 = Some one ->
  CreateFileFromFrame realpath cl sid ch (MkFrame type n garbage (Some d)) w = Some (SOFTBUS_OK, w') ->
  exists a pl path, Live sid a pl path (fun f d => f = (0, 0, one, 0, 1) /\ leftOver (disk w !! path) d) 1 w' /\ cstr pl.2 = Some path.
Proof.
  intros HG Hc Ho (o & w1 & E1 & E)%bind_Some. pose proof (start_listed _ _ _ HG Hc E1) as HL. destruct o as [a|]; [|by injection E].
  apply create_disk in E1 as D1.
  apply bind_Some in E as (m & w2 & E2 & E). apply (listed_keeps _ _ _ _ _ _ _ _ E2) in HL; [|keeping].
  assert (disk w2 = disk w) as D2 by (assert (keeps disk ok) as K by keeping; rewrite (K _ _ _ E2); done).
  destruct m; cbn [negb] in E; [|by apply failed_code in E]. apply bind_Some in E as ([e f] & w3 & E3 & E).
  destruct (Z.eqb_spec e SOFTBUS_OK) as [->|]; cbn [negb] in E; [|by apply failed_code in E].
  assert (core f = (0, 0, one, 0, 1)) as HC by (destruct HL as (_ & r & Hr & _ & Hr1 & _); apply (info_core _ _ _ _ _ _ _ _ _ _ Ho Hr Hr1 E3)).
  apply (listed_keeps _ _ _ _ _ _ _ _ E3) in HL; [|apply keeps_info].
  assert (disk w3 = disk w) as D3 by (pose proof (keeps_info _ _ _ _ _ _ E3) as K; unfold view in K; congruence). rewrite <- D3.
  apply bind_Some in E as (e & w4 & E4 & E). destruct (Z.eqb_spec e SOFTBUS_OK) as [->|]; cbn [negb] in E; [|by apply failed_code in E].
  destruct (put_opens _ _ _ _ HL E4) as (pl & path & HL4 & Hp); [unfold core in HC; congruence|]. rewrite HC in HL4.
  apply bind_Some in E as (r & w5 & [-> Hr]%getRec_run & E). apply bind_Some in E as (? & w5 & E5 & E).
  apply (live_keeps _ _ _ _ _ _ _ _ _ _ _ E5) in HL4; [|unfold pathOf; keeping].
  apply bind_Some in E as (? & w6 & E6 & E). apply (live_keeps _ _ _ _ _ _ _ _ _ _ _ E6) in HL4; [|keeping].
  apply bind_Some in E as (? & w7 & E7 & E). apply (live_release _ _ _ _ _ _ _ _ HL4) in E7 as HL7.
  apply bind_Some in E as (r7 & w8 & [-> _]%getRec_run & E). apply bind_Some in E as (? & w9 & E9 & [= <-]).
  apply (live_keeps _ _ _ _ _ _ _ _ _ _ _ E9) in HL7; [|keeping]. by exists a, pl, path.
Qed.

End Start.


(** ** What is sent again *)

Section Repeats.

Context (realpath : text -> option text) (cl : Client) (sid : Z).

Definition traffic (w : World) : list (list (Z * Z * FileFrame)) * list Message := (inbox w, out w).

Lemma retrans_sends sq w e w' : inbox w = [] -> RetransFileFrameBySeq realpath cl sid sq w = Some (e, w') ->
  inbox w' = [] /\ exists l, out w' = out w ++ l /\ Forall (fun m => exists data v, mBytes m = dataFrame sq data v) l.
Proof.
  intros Hi E. assert (forall w1, traffic w1 = traffic w -> inbox w1 = [] /\ exists l, out w1 = out w ++ l /\
    Forall (fun m => exists data v, mBytes m = dataFrame sq data v) l) as Hsame.
  { intros w1 Ht. unfold traffic in Ht. injection Ht as -> ->. split; [done|]. exists []. by rewrite app_nil_r. }
  assert (keeps traffic (getSend sid)) as Kg by (unfold getSend; keeping). assert (keeps traffic ok) as Ko by keeping.
  apply bind_Some in E as (s & w1 & E1 & E). apply Kg in E1 as T1.
  destruct (negb _) in E; [injection E as <- <-; auto|]. destruct (sq <=? 0); [injection E as <- <-; auto|].
  apply bind_Some in E as (m & w2 & E2 & E). assert (keeps traffic (alloc PROXY_MAX_PACKET_SIZE)) as K by keeping. apply K in E2. rewrite T1 in E2. clear K.
  destruct m; cbn [negb] in E; [|injection E as <- <-; auto]. cbv zeta in E. destruct (_ <=? _) in E; [injection E as <- <-; auto|].
  apply bind_Some in E as (n & w3 & E3 & [= _ <-]). apply bind_Some in E3 as (s' & w4 & E4 & E3). apply Kg in E4. rewrite E2 in E4.
  apply bind_Some in E3 as ([k data] & w5 & E5 & E3).
  assert (traffic w5 = traffic w) as T5.
  { rewrite <- E4. unfold readInto in E5. destruct (_ <? _) in E5; [done|].
    assert (forall a b c, keeps traffic (SoftBusPreadFile a b c)) as K by (intros; unfold SoftBusPreadFile; keeping). by apply K in E5. }
  destruct (k <=? 0); [injection E3 as <- <-; auto|]. destruct (_ <? _) in E3; [injection E3 as <- <-; auto|].
  apply bind_Some in E3 as (v & w6 & E6 & E3). assert (keeps traffic (lift (S:=World) (RTU_CRC data k))) as K by keeping. apply K in E6. rewrite T5 in E6. clear K.
  apply bind_Some in E3 as (r & w7 & E7 & [= _ <-]). apply bind_Some in E7 as (r' & w8 & E8 & E7).
  apply bind_Some in E8 as (b & w9 & E9 & E8). apply Ko in E9. rewrite E6 in E9. unfold traffic in E9. injection E9 as I9 O9.
  assert (inbox w8 = [] /\ exists l, out w8 = out w ++ l /\ Forall (fun m => exists data v, mBytes m = dataFrame sq data v) l) as [I8 H8].
  { destruct b; [|injection E8 as _ <-; apply Hsame; unfold traffic; congruence].
    apply bind_Some in E8 as (? & w10 & [= _ <-] & [= _ <-]). cbn. split; [congruence|]. eexists [_]. rewrite O9. split; [done|].
    constructor; [|constructor]. by exists data, v. }
  apply bind_Some in E7 as (? & w10 & E10 & [= _ <-]). apply bind_Some in E10 as (i & w11 & [= <- <-] & E10). rewrite I8 in E10. injection E10 as _ <-. done.
Qed.

(** The frames an answer makes the sender send again are of the window that
    was answered: those whose bit is not set. *)
Lemma repeats_answered start res w e w' : inbox w = [] -> AckResponseDataHandle realpath cl sid (Some (start, res)) w = Some (e, w') ->
  exists l, out w' = out w ++ l /\ Forall (fun m => exists i data v, 0 <= i < FILE_SEND_ACK_INTERVAL /\ Z.testbit res i = false /\
    mBytes m = dataFrame (s32 (start + i)) data v) l.
Proof.
  intros Hi. unfold AckResponseDataHandle. destruct (_ =? _); [intros [= _ <-]; exists []; by rewrite app_nil_r|].
  assert (forall n i w e w', inbox w = [] -> 0 <= i -> i + Z.of_nat n <= FILE_SEND_ACK_INTERVAL -> ackLoop realpath cl n sid start res i w = Some (e, w') ->
    exists l, out w' = out w ++ l /\ Forall (fun m => exists i data v, 0 <= i < FILE_SEND_ACK_INTERVAL /\ Z.testbit res i = false /\
      mBytes m = dataFrame (s32 (start + i)) data v) l) as H; [|intros E; by eapply (H _ 0); [..|exact E]].
  clear. induction n as [|n IH]; intros i w e w' Hi H0 Hn E; cbn [ackLoop] in E; [injection E as _ <-; exists []; by rewrite app_nil_r|].
  destruct (Z.testbit res i) eqn:Eb; [eapply IH; [..|exact E]; [done|lia|lia]|].
  apply bind_Some in E as (e1 & w1 & E1 & E). apply retrans_sends in E1 as [I1 (l1 & O1 & F1)]; [|done].
  assert (Forall (fun m => exists i data v, 0 <= i < FILE_SEND_ACK_INTERVAL /\ Z.testbit res i = false /\ mBytes m = dataFrame (s32 (start + i)) data v) l1) as F1'.
  { eapply Forall_impl; [exact F1|]. intros m (data & v & Hm). exists i, data, v. split_and!; try done; lia. }
  destruct (negb _) in E; [injection E as _ <-; by exists l1|].
  apply IH in E as (l2 & O2 & F2); [|done|lia|lia]. exists (l1 ++ l2). rewrite O2, O1, app_assoc. split; [done|]. by apply Forall_app.
Qed.

End Repeats.

(** ** A transfer *)

Section Transfer.

Context (realpath : text -> option text) (cl : Client) (sid ch : Z) (c : bytes).

Notation process := (ProcessRecvFileFrameData realpath cl sid ch).

(** The frame the sender begins with, and the one it ends with. *)
Definition startFrame (garbage : Z) (name : text) (info : SendListenerInfo) : FileFrame :=
  let d := snd (PackFileTransStartInfo name (len c) info) in MkFrame TRANS_SESSION_FILE_FIRST_FRAME (len d) garbage (Some d).

Definition checkFrame (garbage : Z) : FileFrame :=
  let d := sumFrame (Z.of_nat (frames c) + 1) (sumCrc c (frames c)) in MkFrame TRANS_SESSION_FILE_CRC_CHECK_FRAME (len d) garbage (Some d).

Definition dataType (type : Z) : Prop :=
  type = TRANS_SESSION_FILE_ONGOINE_FRAME \/ type = TRANS_SESSION_FILE_ONLYONE_FRAME \/ type = TRANS_SESSION_FILE_LAST_FRAME.

(** What can happen after data frames up to number [k] were sent: a later one
    arrives, those between being lost; one of a window that was answered
    arrives again; a request, or the time passes.  The system answers what it
    likes. *)
Inductive Arrives : nat -> World -> nat -> World -> Prop :=
| arrives_nothing k w : Arrives k w k w
| arrives_new k j type garbage w code w1 k' w' : (k <= j < frames c)%nat -> dataType type ->
    process (fileFrame type garbage c j) w = Some (code, w1) -> Arrives (S j) w1 k' w' -> Arrives k w k' w'
| arrives_again k j type garbage w code w1 k' w' : (j < frames c)%nat -> dataType type ->
    (forall a r, a ∈ recvList w -> recs w !! a = Some r -> Z.of_nat j + 1 < startSeq (recvFileInfo r)) ->
    process (fileFrame type garbage c j) w = Some (code, w1) -> Arrives k w1 k' w' -> Arrives k w k' w'
| arrives_request k frame w code w1 k' w' : frameType frame = TRANS_SESSION_FILE_ACK_REQUEST_SENT ->
    process frame w = Some (code, w1) -> Arrives k w1 k' w' -> Arrives k w k' w'
| arrives_tick k w x w1 k' w' : ProxyFileTransTimerProc w = Some (x, w1) -> Arrives k w1 k' w' -> Arrives k w k' w'.

Hypothesis c_bytes : is_bytes c.
Hypothesis c_size : len c <= MAX_FILE_SIZE.

Lemma fileFrame_process type garbage j w : dataType type -> (j < frames c)%nat ->
  process (fileFrame type garbage c j) w = WriteFrameToFile sid (fileFrame type garbage c j) w /\
  UnpackFileDataFrame 1 (fileFrame type garbage c j) = Some (SOFTBUS_OK, infoOf c j).
Proof.
  intros Ht Hj. unfold fileFrame, ProcessRecvFileFrameData. cbn [frameLength frameType]. rewrite dataFrame_len.
  pose proof (len_chunk c j). pose proof (proj1 (frames_spec c j) Hj). unfold PROXY_MAX_PACKET_SIZE, MAX_FILE_SIZE in *. split.
  - destruct (Z.ltb_spec 976 (18 + len (chunk c j))); [lia|]. by destruct Ht as [->|[->| ->]].
  - apply unpack_dataFrame; [range|by apply chunk_bytes|lia].
Qed.

Hypothesis c_sums : forall j, (j < frames c)%nat -> crc16 (chunk c j) <> 0.

Lemma request_process frame w : frameType frame = TRANS_SESSION_FILE_ACK_REQUEST_SENT -> PROXY_MAX_PACKET_SIZE <? frameLength frame = false ->
  process frame w = ProcessFileAckRequest sid frame w.
Proof. intros Ht Hl. unfold ProcessRecvFileFrameData. by rewrite Hl, Ht. Qed.

(** Whatever arrives, the receiver has the pieces or a sum that is too small. *)
Lemma arrives_received old a pl path k w k' w' : Arrives k w k' w' -> (k <= frames c)%nat ->
  Live sid a pl path (Received old c k) 1 w \/ Gone w -> (k' <= frames c)%nat /\ (Live sid a pl path (Received old c k') 1 w' \/ Gone w').
Proof.
  induction 1 as [k w|k j type g w code w1 k' w' Hj Ht E _ IH|k j type g w code w1 k' w' Hj Ht Hs E _ IH|k frame w code w1 k' w' Ht E _ IH
                 |k w x w1 k' w' E _ IH]; intros Hk HL; [done|..].
  - destruct (fileFrame_process type g j w Ht ltac:(lia)) as [Ep Hu]. rewrite Ep in E. apply IH; [lia|].
    eapply (live_write _ _ _ _ (Received old c k)); [done|exact Hu| | |exact E].
    + intros [[[[sq off] one] sum] st] d HR. pose proof HR as [-> _]. apply (received_missed old c c_bytes c_size c_sums _ _ _ _ _ _ _ _ _ _ _ HR). lia.
    + intros f w2 e f' w3 Hp Hf HR E2. rewrite <- Hp in *. by eapply (received_new old c c_bytes c_size c_sums k j); [lia|..].
  - destruct (fileFrame_process type g j w Ht Hj) as [Ep Hu]. rewrite Ep in E. apply IH; [done|].
    assert (Live sid a pl path (fun f d => Received old c k f d /\ let '(_, _, _, _, st) := f in Z.of_nat j + 1 < st) 1 w \/ Gone w) as HL'.
    { destruct HL as [(L1 & L2 & r & Hr & ? & ? & ? & ? & ?)|]; [left|by right]. split_and!; [done..|]. exists r. split_and!; try done.
      apply (Hs a r); [rewrite L1; apply list_elem_of_here|done]. }
    eapply (live_write _ _ _ _ _ _ _ _ _ _ _ HL'); [exact Hu|by intros ? ? []| |exact E].
    intros f w2 e f' w3 Hp Hf [HR Hst] E2. rewrite <- Hp in *. by eapply (received_old old c c_size k j).
  - apply IH; [done|]. destruct (PROXY_MAX_PACKET_SIZE <? frameLength frame) eqn:El.
    { unfold ProcessRecvFileFrameData in E. rewrite El in E. by injection E as <- <-. }
    rewrite (request_process _ _ Ht El) in E. eapply live_ack; [|exact HL|exact E]. by intros ? ? ? ? ? ? ? HR.
  - apply IH; [done|]. by eapply live_tick.
Qed.

(** The receiver reads the sum the sender wrote. *)
Lemma unpack_check garbage sum n : UnpackFileCrcCheckSum 1 sum (checkFrame garbage) = Some (SOFTBUS_OK, n) -> sum = sumCrc c (frames c).
Proof.
  pose proof (sum_small c c_bytes c_size (frames c) ltac:(lia)).
  unfold UnpackFileCrcCheckSum, checkFrame, sumFrame. change (1 =? APP_INFO_FILE_FEATURES_SUPPORT) with true. cbn [frameLength frameData].
  change FRAME_HEAD_LEN with 12. change FRAME_DATA_SEQ_OFFSET with 4. change FRAME_MAGIC_OFFSET with 4.
  rewrite (proj2 (Z.eqb_eq _ _)) by lens. cbn [negb mbind option_bind].
  assert (Z.of_nat (frames c) <= 5474).
  { destruct (frames c) as [|m] eqn:Em; [lia|]. pose proof (proj1 (frames_spec c m) ltac:(lia)). unfold MAX_FILE_SIZE in *. lia. }
  set (t := leBytes 4 (Z.of_nat (frames c) + 1)). set (u := leBytes 8 (sumCrc c (frames c))).
  set (m := leBytes 4 FILE_MAGIC_NUMBER). set (l := leBytes 8 (4 + 8)).
  assert (le32 (m ++ l ++ t ++ u) 0 = Some FILE_MAGIC_NUMBER) as -> by (by apply (le32_app [])). cbn [mbind option_bind].
  assert (le64 (m ++ l ++ t ++ u) 4 = Some (4 + 8)) as -> by (apply le64_app; [by unfold m; rewrite len_leBytes|done]).
  cbn [mbind option_bind]. rewrite !Z.eqb_refl. cbn [negb orb]. rewrite app_assoc.
  assert (le32 ((m ++ l) ++ t ++ u) 12 = Some (Z.of_nat (frames c) + 1)) as -> by (apply le32_app; [unfold m, l; lens|range]).
  cbn [mbind option_bind]. replace ((m ++ l) ++ t ++ u) with ((m ++ l ++ t) ++ u ++ []) by (by rewrite app_nil_r, <- !app_assoc).
  assert (le64 ((m ++ l ++ t) ++ u ++ []) (12 + 4) = Some (sumCrc c (frames c))) as ->
    by (apply le64_app; [unfold m, l, t; lens|range]).
  cbn [mbind option_bind]. destruct (Z.eqb_spec (sumCrc c (frames c)) sum); [done|]. by intros [= ].
Qed.

Lemma startFrame_one garbage name info : sCrc info = 1 -> fst (PackFileTransStartInfo name (len c) info) = SOFTBUS_OK ->
  exists d, startFrame garbage name info = MkFrame TRANS_SESSION_FILE_FIRST_FRAME (len d) garbage (Some d) /\ le32 d 12 = Some 958.
Proof.
  intros Hi Hn. eexists. split; [done|]. revert Hn. unfold PackFileTransStartInfo. rewrite Hi.
  change (1 =? APP_INFO_FILE_FEATURES_SUPPORT) with true. cbv iota zeta.
  destruct (_ <? _); [done|]. destruct (_ =? 0); [done|]. intros _. cbn [snd]. rewrite app_assoc. apply le32_app; [lens|done].
Qed.

(** The first frame leaves an empty file, or what was there. *)
Lemma received_start a pl path d0 w : Live sid a pl path (fun f d => f = (0, 0, 958, 0, 1) /\ leftOver d0 d) 1 w ->
  exists old, (old = [] \/ d0 = Some old) /\ Live sid a pl path (Received old c 0) 1 w.
Proof.
  intros (? & ? & r & ? & ? & ? & ? & ? & Hcore & Hd). exists (default [] (disk w !! path)). split.
  - destruct Hd as [-> | [-> [x ->]]]; [by left|by right].
  - split_and!; [done..|]. exists r. split_and!; try done. rewrite Hcore. split; [done|]. left. pose proof (len_nonneg c). split_and!; [done|lia|done|].
    destruct Hd as [-> | [-> [x ->]]]; cbn; (eexists; split; [done|]; split; [intros; lia|done]).
Qed.


End Transfer.

(** ** A concrete transfer *)

Definition exListener : FileListener := MkListener [47; 114] true true true true true true true.
Definition exClient : Client := MkClient (fun _ => Some 7) (fun _ => Some [110]) (fun _ => Some 1) (fun _ => Some exListener).
Definition exReal (p : text) : option text := Some p.
Definition exWorld (d : gmap text bytes) : World := MkWorld ∅ [] 0 ∅ [] ∅ false d ∅ 3 [] [] [] [].

(** The world after a call, and the code it returned. *)
Definition after {A} (m : P A) (w : World) : World := match m w with Some (_, w') => w' | None => w end.

Definition exFile : bytes := replicate (Z.to_nat 1000) 7.
Definition exInfo : SendListenerInfo := MkSend 9 7 3 1000 3 1 0 0 0 0 0 exListener.
Definition exProcess : FileFrame -> P Z := ProcessRecvFileFrameData exReal exClient 7 4.
Definition exRequest : FileFrame := MkFrame TRANS_SESSION_FILE_ACK_REQUEST_SENT 20 0 (Some (ackBytes 1 32)).

Definition ex1 : World := after (exProcess (startFrame exFile 0 [102] exInfo)) (exWorld ∅).
Definition ex2 : World := after (exProcess (fileFrame TRANS_SESSION_FILE_ONGOINE_FRAME 0 exFile 0)) ex1.
Definition ex3 : World := after (exProcess (fileFrame TRANS_SESSION_FILE_LAST_FRAME 0 exFile 1)) ex2.
Definition ex4 : World := after (exProcess exRequest) ex3.
Definition ex5 : World := after (exProcess (fileFrame TRANS_SESSION_FILE_ONGOINE_FRAME 0 exFile 0)) ex4.
Definition ex6 : World := after ProxyFileTransTimerProc ex5.
Definition ex7 : World := after (exProcess (checkFrame exFile 0)) ex6.

Lemma ex_arrives : Arrives exReal exClient 7 4 exFile 0 ex1 2 ex6.
Proof.
  apply (arrives_new _ _ _ _ _ 0 0 TRANS_SESSION_FILE_ONGOINE_FRAME 0 ex1 0 ex2); [vm_compute; lia|by left|by vm_compute|].
  apply (arrives_new _ _ _ _ _ 1 1 TRANS_SESSION_FILE_LAST_FRAME 0 ex2 0 ex3); [vm_compute; lia|by right; right|by vm_compute|].
  apply (arrives_request _ _ _ _ _ 2 exRequest ex3 0 ex4); [done|by vm_compute|].
  apply (arrives_again _ _ _ _ _ 2 0 TRANS_SESSION_FILE_ONGOINE_FRAME 0 ex4 0 ex5); [vm_compute; lia|by left| |by vm_compute|].
  - intros a r Ha Hr. assert (recvList ex4 = [0]) as El by (by vm_compute). rewrite El in Ha. apply list_elem_of_singleton in Ha as ->.
    assert ((fun r => startSeq (recvFileInfo r)) <$> recs ex4 !! 0 = Some 33) as Es by (by vm_compute). rewrite Hr in Es. injection Es as ->. done.
  - apply (arrives_tick _ _ _ _ _ 2 ex5 tt ex6); [by vm_compute|]. apply arrives_nothing.
Qed.


End ProxyTransfer.
