(* ===== verification/ProxyDeliver.v ===== *)
(** * Delivery of files over proxy channels

    When every frame of the sender arrives and every call of the system
    succeeds, the receiver of [ProxyFile] has the file and gives the answers
    the sender of [ProxySend] waits for, and with these answers the sender
    sends these frames and succeeds.  Both sides use checksums. *)

From S2P Require Import Prelude Errno Bytes Adapter ProxyCommon ProxyFile ProxySend ProxyTransfer.
Import Errno Bytes.
Import ProxyCommon.ProxyCommon.
Import ProxyFile.ProxyFile.
Import ProxySend.ProxySend.
Import ProxyTransfer.ProxyTransfer.

Module ProxyDeliver.

(** ** A system that succeeds *)

Lemma ok_quiet w : answers w = [] -> ok w = Some (true, w).
Proof. intros H. unfold ok, mbind, M_bind, ask. by rewrite H. Qed.

Lemma alloc_quiet n w : answers w = [] -> 0 <= n <= 536870912 -> alloc n w = Some (true, w).
Proof.
  intros H Hn. unfold alloc. rewrite (bind_eq _ _ _ _ _ (ok_quiet w H)). unfold mret, M_ret. rewrite (wrapU_id 32) by range.
  by rewrite Adapter.Mem.calloc_true by (unfold Adapter.Mem.MAX_MALLOC_SIZE; lia).
Qed.

Lemma stream_quiet ch d t w : answers w = [] -> ProxyChannelSendFileStream ch d t w = Some (SOFTBUS_OK, put_message (MkMessage ch t d) w).
Proof. intros H. unfold ProxyChannelSendFileStream. by rewrite (bind_eq _ _ _ _ _ (ok_quiet w H)). Qed.

Lemma result_quiet ch sq res side w : answers w = [] ->
  SendFileTransResult ch sq res side w = Some (SOFTBUS_OK, put_message (MkMessage ch TRANS_SESSION_FILE_RESULT_FRAME (resultBytes sq side res)) w).
Proof.
  intros H. unfold SendFileTransResult. rewrite (bind_eq _ _ _ _ _ (alloc_quiet _ w H ltac:(done))). cbn [negb]. by apply stream_quiet.
Qed.

Lemma ackData_quiet ch st v t w : answers w = [] ->
  SendFileAckReqAndResData ch st v t w = Some (SOFTBUS_OK, put_message (MkMessage ch t (ackBytes st v)) w).
Proof.
  intros H. unfold SendFileAckReqAndResData. rewrite (bind_eq _ _ _ _ _ (alloc_quiet _ w H ltac:(done))). cbn [negb]. by apply stream_quiet.
Qed.

Lemma pwrite_quiet fd buf off path w : answers w = [] -> fds w !! fd = Some path -> 0 < len buf -> off < 2 ^ 63 ->
  SoftBusPwriteFile fd buf off w = Some (len buf, setDisk (<[path := writeAt (default [] (disk w !! path)) off buf]> (disk w)) w).
Proof.
  intros H Hf Hl Ho. unfold SoftBusPwriteFile, mbind, M_bind, ask. rewrite H. cbn [gets]. rewrite Hf.
  destruct (Z.leb_spec (2 ^ 63) off); [lia|]. unfold moved. change (0 =? 0) with true. cbv iota zeta.
  destruct (Z.ltb_spec (len buf) 0); [lia|]. cbn [gets modify]. destruct (Z.eqb_spec (len buf) 0); [lia|].
  unfold len at 2. by rewrite Nat2Z.id, firstn_all.
Qed.

(** ** The receiver *)

Section Receiver.

Context (realpath : text -> option text) (cl : Client) (sid ch a : Z) (pl : Z * bytes) (path : text).

(** The only recipient is [r], its file has the content [d], and [o] was sent. *)
Definition Only (r : FileRecipientInfo) (d : bytes) (o : list Message) (w : World) : Prop :=
  answers w = [] /\ recvList w = [a] /\ fds w !! pl.1 = Some path /\ recs w !! a = Some r /\ disk w !! path = Some d /\ out w = o.

Lemma only_put r r' d o w : Only r d o w -> exists w', putRec a r' w = Some (tt, w') /\ Only r' d o w'.
Proof. intros (?&?&?&?&?&?). eexists. split; [done|]. split_and!; try done. cbn. apply lookup_insert_eq. Qed.

Lemma only_get r d o w : Only r d o w -> getRec a w = Some (r, w).
Proof. intros (?&?&?&H&?&?). unfold getRec, mbind, M_bind. cbn [gets]. by rewrite H. Qed.

Lemma only_ok r d o w : Only r d o w -> ok w = Some (true, w).
Proof. intros (H&_). by apply ok_quiet. Qed.

Lemma only_call r d o w b e : Only r d o w -> exists w', call b e w = Some (tt, w') /\ Only r d o w'.
Proof. intros H. destruct b; (eexists; split; [done|]); done. Qed.

Lemma only_find r d o w : Only r d o w -> sessionId r = sid -> findRec w sid = Some a.
Proof. intros (_ & H1 & _ & Hr & _) Hs. unfold findRec. rewrite H1. cbn. rewrite Hr. cbn. rewrite Hs. by rewrite bool_decide_eq_true_2. Qed.

(** The recipient once it is processed. *)
Definition processing (r : FileRecipientInfo) : FileRecipientInfo :=
  if recvState r =? TRANS_FILE_RECV_START_STATE then setState TRANS_FILE_RECV_PROCESS_STATE r else r.

Lemma only_process r d o w : Only r d o w -> sessionId r = sid -> recvState r <> TRANS_FILE_RECV_IDLE_STATE ->
  exists w', GetRecipientInProcessRef sid w = Some (Some a, w') /\ Only (setRefs (objRefCount r + 1) (processing r)) d o w'.
Proof.
  intros H Hs Hi. unfold GetRecipientInProcessRef, GetRecipientNoLock. rewrite (bind_eq _ _ _ _ _ (only_ok _ _ _ _ H)). cbn [negb].
  unfold mbind at 1, M_bind at 1. cbn [gets]. rewrite (only_find _ _ _ _ H Hs), (bind_eq _ _ _ _ _ (only_get _ _ _ _ H)).
  rewrite (proj2 (Z.eqb_neq _ _) Hi).
  destruct (only_put r (setRefs (objRefCount r + 1) (processing r)) d o w H) as (w' & E & H'). exists w'. split; [|done].
  by rewrite (bind_eq _ _ _ _ _ E).
Qed.

Lemma only_release r d o w : Only r d o w -> 2 <= objRefCount r ->
  exists w', ReleaseRecipientRef a w = Some (tt, w') /\ Only (setRefs (objRefCount r - 1) r) d o w'.
Proof.
  intros H Hn. unfold ReleaseRecipientRef, dropRef. rewrite (bind_eq _ _ _ _ _ (only_ok _ _ _ _ H)). cbn [negb].
  rewrite (bind_eq _ _ _ _ _ (only_get _ _ _ _ H)).
  destruct (only_put r (setRefs (objRefCount r - 1) r) d o w H) as (w' & E & H'). exists w'. split; [|done].
  rewrite (bind_eq _ _ _ _ _ E). rewrite (proj2 (Z.eqb_neq _ 0)) by lia. done.
Qed.

Lemma only_putFile r f d o w : Only r d o w -> exists w', putFile a f w = Some (tt, w') /\ Only (setFile f r) d o w'.
Proof. intros H. unfold putFile. rewrite (bind_eq _ _ _ _ _ (only_get _ _ _ _ H)). by apply (only_put r). Qed.

Lemma only_state r st d o w : Only r d o w -> recvState r <> TRANS_FILE_RECV_ERR_STATE ->
  exists w', SetRecipientRecvState a st w = Some (tt, w') /\
    Only (setState st (if st =? TRANS_FILE_RECV_IDLE_STATE then setFile (setFileStatus NODE_IDLE (recvFileInfo r)) r else r)) d o w'.
Proof.
  intros H He. unfold SetRecipientRecvState. rewrite (bind_eq _ _ _ _ _ (only_ok _ _ _ _ H)). cbn [negb].
  rewrite (bind_eq _ _ _ _ _ (only_get _ _ _ _ H)), (proj2 (Z.eqb_neq _ _) He). cbn [negb]. by apply (only_put r).
Qed.

(** ** Frames that arrive in order *)

Context (c : bytes) (c_bytes : is_bytes c) (c_size : len c <= MAX_FILE_SIZE).

(** [k] frames arrived and [m] windows were answered. *)
Record InOrder (k m : nat) (f : SingleFileInfo) : Prop := {
  io_seq : seq f = Z.of_nat k;
  io_window : (32 * m <= k <= 32 * m + 32)%nat;
  io_offset : fileOffset f = Z.min (958 * Z.of_nat k) (len c);
  io_one : oneFrameLen f = 958;
  io_sum : checkSumCRC f = sumCrc c k;
  io_status : fileStatus f = NODE_BUSY;
  io_start : startSeq f = 32 * Z.of_nat m + 1;
  io_pre : preStartSeq f = Z.max 1 (32 * Z.of_nat m - 31);
  io_preResult : (0 < m)%nat -> preSeqResult f = FILE_SEND_ACK_RESULT_SUCCESS;
  io_result : forall i, 0 <= i < Z.of_nat k - 32 * Z.of_nat m -> Z.testbit (seqResult f) i = true;
  io_place : place f = pl }.

Lemma frames_small k : (k <= frames c)%nat -> Z.of_nat k <= 5474.
Proof.
  intros Hk. destruct k as [|k]; [lia|]. pose proof (proj1 (frames_spec c k) ltac:(lia)). unfold MAX_FILE_SIZE in *. lia.
Qed.

Lemma crc_sum_bound k : (k <= frames c)%nat -> 0 <= sumCrc c k < 2 ^ 40.
Proof. intros Hk. pose proof (sumCrc_range c k c_bytes). pose proof (frames_small k Hk). lia. Qed.

Lemma oneShl_bit b : 0 <= b < 32 -> Z.testbit (oneShl b) b = true.
Proof.
  intros Hb. assert (forallb (fun b => Z.testbit (oneShl b) b) (seqZ 0 32) = true) as H by (by vm_compute).
  rewrite forallb_forall in H. apply H, list_elem_of_In, elem_of_seqZ. lia.
Qed.

Lemma frameBit_spec k m : (32 * m <= k < 32 * m + 32)%nat -> frameBit (Z.of_nat k + 1) = Z.of_nat k - 32 * Z.of_nat m.
Proof.
  intros H. unfold frameBit, FILE_SEND_ACK_INTERVAL. destruct (Z.eqb_spec ((Z.of_nat k + 1) mod 32) 0) as [E|E]; revert E;
    Z.to_euclidean_division_equations; lia.
Qed.

(** The file after the next frame. *)
Definition nextFile (k : nat) (f : SingleFileInfo) : SingleFileInfo :=
  setSum (u64 (checkSumCRC f + crc16 (chunk c k))) (setOffset (u64 (fileOffset f + len (chunk c k)))
    (setSeq (Z.of_nat k + 1) (setWindow (startSeq f) (u64 (Z.lor (seqResult f) (oneShl (frameBit (Z.of_nat k + 1))))) (preStartSeq f) (preSeqResult f) f))).

Lemma next_inOrder k m f : InOrder k m f -> (k < frames c)%nat -> (k < 32 * m + 32)%nat -> InOrder (S k) m (nextFile k f).
Proof.
  intros [H1 H2 H3 H4 H5 H6 H7 H8 H9 H10 H11] Hk Hm. pose proof (proj1 (frames_spec c k) Hk) as Hl. pose proof (len_chunk c k) as Lc.
  pose proof (crc_sum_bound (S k) ltac:(lia)) as Hs. cbn [sumCrc] in Hs.
  constructor; cbn [nextFile seq setSum setOffset setSeq setWindow fileOffset oneFrameLen checkSumCRC fileStatus startSeq preStartSeq preSeqResult seqResult];
    try done; try lia.
  - rewrite H3. rewrite (wrapU_id 64) by (unfold MAX_FILE_SIZE in *; range). lia.
  - rewrite H5. cbn [sumCrc]. rewrite (wrapU_id 64) by range. done.
  - intros i Hi. rewrite testbit_wrapU, Z.lor_spec by lia. rewrite (proj2 (Z.ltb_lt i 64)) by lia. cbn [andb].
    rewrite (frameBit_spec k m) by lia. destruct (decide (i = Z.of_nat k - 32 * Z.of_nat m)) as [->|].
    + rewrite oneShl_bit by lia. apply orb_true_r.
    + rewrite H10 by lia. done.
Qed.

(** The write of the next frame. *)
Lemma process_next k m f r d o w type : InOrder k m f -> (k < frames c)%nat -> (k < 32 * m + 32)%nat -> Only r d o w -> agree c d k ->
  exists d' w', ProcessOneFrame type 1 (infoOf c k) f w = Some ((SOFTBUS_OK, nextFile k f), w') /\ Only r d' o w' /\ agree c d' (S k).
Proof.
  intros HI Hk Hm (W1 & W2 & W3 & W4 & W5 & W6) Ha. pose proof HI as [H1 H2 H3 H4 H5 H6 H7 H8 H9 H10 H11].
  pose proof (proj1 (frames_spec c k) Hk) as Hl. pose proof (len_chunk c k) as Lc. pose proof (frames_small k ltac:(lia)).
  exists (writeAt d (958 * Z.of_nat k) (chunk c k)). eexists. split.
  - unfold ProcessOneFrame, ProcessOneFrameCRC. rewrite H6. change (NODE_BUSY =? NODE_ERR) with false.
    change (1 =? APP_INFO_FILE_FEATURES_SUPPORT) with true. cbn [infoOf iSeq]. cbv iota zeta. rewrite H7. unfold FILE_SEND_ACK_INTERVAL.
    rewrite (wrapU_id 32) by range. destruct (Z.leb_spec (32 * Z.of_nat m + 1 + 32) (Z.of_nat k + 1)); [lia|].
    destruct (Z.leb_spec (32 * Z.of_nat m + 1) (Z.of_nat k + 1)); [|lia].
    replace (s32 (Z.of_nat k + 1 - seq f - 1)) with 0 by (rewrite H1; replace (Z.of_nat k + 1 - Z.of_nat k - 1) with 0 by lia; done).
    unfold WriteEmptyFrame. change (0 <? 0) with false. unfold mbind at 1, M_bind at 1, mret at 1, M_ret at 1.
    change (SOFTBUS_OK =? SOFTBUS_OK) with true. cbn [negb].
    assert (mustBeComplete type (Z.of_nat k + 1) f && negb (Z.land (preSeqResult f) FILE_SEND_ACK_RESULT_SUCCESS =? FILE_SEND_ACK_RESULT_SUCCESS) = false) as ->.
    { destruct m as [|m].
      - unfold mustBeComplete. rewrite H8. rewrite (proj2 (Z.leb_gt _ _)), (proj2 (Z.ltb_ge _ _)); [by rewrite andb_false_r|..].
        + unfold FILE_SEND_ACK_INTERVAL. lia.
        + change (Z.max 1 (32 * Z.of_nat 0 - 31) + FILE_SEND_ACK_INTERVAL + WAIT_FRAME_ACK_TIMEOUT_COUNT - 1) with 56. rewrite (wrapU_id 32) by range. lia.
      - rewrite H9 by lia. by rewrite andb_false_r. }
    unfold writeData. cbn [infoOf iData iLen iSeq iCrc fileFd setSeq setWindow].
    erewrite bind_eq; [|apply pwrite_quiet; [done|rewrite <- H11 in W3; exact W3|lia|unfold MAX_FILE_SIZE in *; lia]].
    cbv beta. change FRAME_DATA_SEQ_OFFSET with 4. rewrite (wrapU_id 32) by range. replace (len (chunk c k) + 4 - 4) with (len (chunk c k)) by lia.
    rewrite Z.eqb_refl. destruct (Z.ltb_spec (len (chunk c k)) 0); [lia|]. cbn [negb orb startSeq setSeq setWindow]. rewrite H7.
    destruct (Z.leb_spec (32 * Z.of_nat m + 1) (Z.of_nat k + 1)); [|lia]. cbv zeta. cbn [fileOffset setOffset setSeq setWindow].
    rewrite (wrapU_id 64 (fileOffset f + _)) by (unfold MAX_FILE_SIZE in *; range).
    destruct (Z.ltb_spec MAX_FILE_SIZE (fileOffset f + len (chunk c k))); [lia|]. unfold nextFile. rewrite H7.
    rewrite (wrapU_id 64 (fileOffset f + _)) by (unfold MAX_FILE_SIZE in *; range). reflexivity.
  - split; [split_and!; try done; cbn [disk setDisk]; rewrite lookup_insert_eq, W5, H3, Z.min_l by lia; done|].
    rewrite <- (take_ge (chunk c k) (length (chunk c k))) by done. replace (958 * Z.of_nat k) with (Z.of_nat (958 * k)) by lia.
    apply write_extends; [done|unfold len in *; lia|done].
Qed.

(** The recipient between two frames. *)
Record Ready (k m : nat) (r : FileRecipientInfo) : Prop := {
  rd_session : sessionId r = sid;
  rd_channel : channelId r = ch;
  rd_crc : crc r = 1;
  rd_refs : objRefCount r = 1;
  rd_state : recvState r = TRANS_FILE_RECV_START_STATE \/ recvState r = TRANS_FILE_RECV_PROCESS_STATE;
  rd_file : InOrder k m (recvFileInfo r) }.

Notation process := (ProcessRecvFileFrameData realpath cl sid ch).

Hypothesis pl_path : cstr pl.2 = Some path.

Lemma ready_process k m r d o w : Ready k m r -> Only r d o w ->
  exists r1 w1, GetRecipientInProcessRef sid w = Some (Some a, w1) /\ Only r1 d o w1 /\ sessionId r1 = sid /\ channelId r1 = ch /\ crc r1 = 1 /\
    objRefCount r1 = 2 /\ recvState r1 = TRANS_FILE_RECV_PROCESS_STATE /\ recvFileInfo r1 = recvFileInfo r.
Proof.
  intros [R1 R2 R3 R4 R5 R6] H. destruct (only_process r d o w H R1) as (w1 & E & H1); [by destruct R5 as [->| ->]|].
  eexists _, w1. split; [done|]. split; [done|]. unfold processing. by destruct R5 as [E5|E5]; rewrite E5; cbn; rewrite R4.
Qed.

Lemma deliver_data k m r d o w type garbage : dataType type -> Ready k m r -> Only r d o w -> agree c d k -> (k < frames c)%nat -> (k < 32 * m + 32)%nat ->
  exists r' d' w', process (fileFrame type garbage c k) w = Some (SOFTBUS_OK, w') /\ Only r' d' o w' /\ Ready (S k) m r' /\ agree c d' (S k).
Proof.
  intros Ht HR HO Ha Hk Hm. destruct (fileFrame_process realpath cl sid ch c c_bytes c_size type garbage k w Ht Hk) as [-> HU].
  destruct (ready_process _ _ _ _ _ _ HR HO) as (r1 & w1 & E1 & O1 & S1 & S2 & S3 & S4 & S5 & S6).
  pose proof (rd_file _ _ _ HR) as HI. rewrite <- S6 in HI.
  destruct (process_next k m (recvFileInfo r1) r1 d o w1 (frameType (fileFrame type garbage c k)) HI Hk Hm O1 Ha) as (d' & w2 & E2 & O2 & A2).
  destruct (only_putFile _ (nextFile k (recvFileInfo r1)) _ _ _ O2) as (w3 & E3 & O3).
  destruct (only_putFile _ (setTimeOut 0 (nextFile k (recvFileInfo r1))) _ _ _ O3) as (w4 & E4 & O4).
  pose proof (next_inOrder _ _ _ HI Hk Hm) as HN.
  destruct (only_call _ _ _ _ (onReceiveFileProcess (fileListener r1)) (Progress sid path (fileOffset (nextFile k (recvFileInfo r1))) (fileSize (nextFile k (recvFileInfo r1)))) O4)
    as (w5 & E5 & O5).
  destruct (only_release _ _ _ _ O5) as (w6 & E6 & O6); [cbn; lia|].
  eexists _, d', w6. split.
  - unfold WriteFrameToFile. rewrite (bind_eq _ _ _ _ _ E1), (bind_eq _ _ _ _ _ (only_get _ _ _ _ O1)). rewrite S3, HU.
    unfold lift, mbind at 1, M_bind at 1. cbn [fmap option_fmap option_map]. change (SOFTBUS_OK =? SOFTBUS_OK) with true. cbn [negb].
    rewrite (bind_eq _ _ _ _ _ E2). cbv beta iota. rewrite (bind_eq _ _ _ _ _ E3).
    change (SOFTBUS_OK =? SOFTBUS_OK) with true. cbn [negb]. cbv zeta. rewrite (bind_eq _ _ _ _ _ E4).
    erewrite bind_eq; [|unfold pathOf, lift; cbn [setTimeOut filePath]; rewrite (f_equal snd (io_place _ _ _ HN) : filePath _ = _), pl_path; done].
    rewrite (bind_eq _ _ _ _ _ E5). change (negb (1 =? APP_INFO_FILE_FEATURES_SUPPORT)) with false. cbn [andb].
    unfold mbind at 1, M_bind at 1, mret at 1, M_ret at 1. by rewrite (bind_eq _ _ _ _ _ E6).
  - split; [done|]. split; [|done]. constructor; cbn; try done; [lia|by right|]. by destruct HN.
Qed.

(** ** Requests and the final sum *)

Lemma unpack_ack type garbage start value : is_u 32 start -> is_u 32 value ->
  UnpackAckReqAndResData (MkFrame type 20 garbage (Some (ackBytes start value))) = Some (SOFTBUS_OK, (start, value)).
Proof.
  intros Hs Hv. unfold UnpackAckReqAndResData, ackBytes. cbn [frameData frameLength].
  change FRAME_HEAD_LEN with 12. change FRAME_DATA_SEQ_OFFSET with 4. change FRAME_MAGIC_OFFSET with 4. change (20 <? 12 + 4 + 4) with false.
  set (m := leBytes 4 FILE_MAGIC_NUMBER). set (l := leBytes 8 (4 + 4)). set (q := leBytes 4 start). set (v := leBytes 4 value).
  assert (len m = 4) as Lm by apply len_leBytes. assert (len l = 8) as Ll by apply len_leBytes. assert (len q = 4) as Lq by apply len_leBytes.
  assert (le32 (m ++ l ++ q ++ v) 0 = Some FILE_MAGIC_NUMBER) as -> by (by apply (le32_app [])). cbn [mbind option_bind].
  assert (le64 (m ++ l ++ q ++ v) 4 = Some (4 + 4)) as -> by (by apply le64_app). cbn [mbind option_bind].
  rewrite Z.eqb_refl. change (4 + 4 <? 4 + 4) with false. cbn [negb orb]. rewrite app_assoc.
  assert (le32 ((m ++ l) ++ q ++ v) 12 = Some start) as -> by (apply le32_app; [lens | done]). cbn [mbind option_bind].
  replace ((m ++ l) ++ q ++ v) with ((m ++ l ++ q) ++ v ++ []) by (by rewrite app_nil_r, <- !app_assoc).
  assert (le32 ((m ++ l ++ q) ++ v ++ []) (12 + 4) = Some value) as -> by (apply le32_app; [lens | done]). done.
Qed.

Lemma land_ones_all x : (forall i, 0 <= i < 32 -> Z.testbit x i = true) -> Z.land x FILE_SEND_ACK_RESULT_SUCCESS = FILE_SEND_ACK_RESULT_SUCCESS.
Proof.
  intros H. change FILE_SEND_ACK_RESULT_SUCCESS with (Z.ones 32). apply Z.bits_inj'. intros i Hi. rewrite Z.land_spec.
  destruct (Z.ltb_spec i 32); [by rewrite H by lia|]. by rewrite Z.ones_spec_high, andb_false_r by lia.
Qed.

(** A full window is answered with all ones. *)
Lemma deliver_ack k m r d o w garbage value : Ready k m r -> Only r d o w -> k = (32 * m + 32)%nat -> (k <= frames c)%nat -> is_u 32 value ->
  exists r' w', process (MkFrame TRANS_SESSION_FILE_ACK_REQUEST_SENT 20 garbage (Some (ackBytes (32 * Z.of_nat m + 1) value))) w = Some (SOFTBUS_OK, w') /\
    Only r' d (o ++ [MkMessage ch TRANS_SESSION_FILE_ACK_RESPONSE_SENT (ackBytes (32 * Z.of_nat m + 1) FILE_SEND_ACK_RESULT_SUCCESS)]) w' /\ Ready k (S m) r'.
Proof.
  intros HR HO Hk Hf Hv. pose proof (frames_small k Hf) as Hs. destruct (ready_process _ _ _ _ _ _ HR HO) as (r1 & w1 & E1 & O1 & S1 & S2 & S3 & S4 & S5 & S6).
  pose proof (rd_file _ _ _ HR) as HI. rewrite <- S6 in HI. pose proof HI as [H1 H2 H3 H4 H5 H6 H7 H8 H9 H10 H11].
  assert (Z.land (seqResult (recvFileInfo r1)) FILE_SEND_ACK_RESULT_SUCCESS = FILE_SEND_ACK_RESULT_SUCCESS) as HB by (apply land_ones_all; intros; apply H10; lia).
  set (f' := setTimeOut 0 (setWindow (32 * Z.of_nat (S m) + 1) (Z.shiftr (seqResult (recvFileInfo r1)) FILE_SEND_ACK_INTERVAL) (32 * Z.of_nat m + 1)
              FILE_SEND_ACK_RESULT_SUCCESS (recvFileInfo r1))).
  destruct (only_putFile _ f' _ _ _ O1) as (w2 & E2 & O2).
  set (msg := MkMessage ch TRANS_SESSION_FILE_ACK_RESPONSE_SENT (ackBytes (32 * Z.of_nat m + 1) FILE_SEND_ACK_RESULT_SUCCESS)).
  assert (Only (setFile f' r1) d (o ++ [msg]) (put_message msg w2)) as O3 by (destruct O2 as (?&?&?&?&?&<-); done).
  destruct (only_release _ _ _ _ O3) as (w4 & E4 & O4); [cbn; lia|]. eexists _, w4. split.
  - change (ProcessFileAckRequest sid (MkFrame TRANS_SESSION_FILE_ACK_REQUEST_SENT 20 garbage (Some (ackBytes (32 * Z.of_nat m + 1) value))) w = Some (SOFTBUS_OK, w4)).
    unfold ProcessFileAckRequest. rewrite (bind_eq _ _ _ _ _ E1), (bind_eq _ _ _ _ _ (only_get _ _ _ _ O1)), unpack_ack by (done || range).
    unfold lift, mbind at 1, M_bind at 1. cbn [fmap option_fmap option_map]. cbv iota zeta. change (SOFTBUS_OK =? SOFTBUS_OK) with true. cbn [negb].
    rewrite H7, Z.eqb_refl. cbn [negb]. rewrite HB. change (u32 FILE_SEND_ACK_RESULT_SUCCESS) with FILE_SEND_ACK_RESULT_SUCCESS.
    unfold FILE_SEND_ACK_INTERVAL at 1. rewrite (wrapU_id 32) by range. replace (32 * Z.of_nat m + 1 + 32) with (32 * Z.of_nat (S m) + 1) by lia.
    rewrite (bind_eq _ _ _ _ _ E2), S2. assert (answers w2 = []) as Hw2 by apply O2. rewrite (bind_eq _ _ _ _ _ (ackData_quiet _ _ _ _ _ Hw2)). by rewrite (bind_eq _ _ _ _ _ E4).
  - split; [done|]. constructor; cbn; try done; [lia|by right|]. constructor; cbn; try done; try lia.
Qed.

Lemma unpack_sum garbage : Z.of_nat (frames c) <= 5474 ->
  UnpackFileCrcCheckSum 1 (sumCrc c (frames c)) (checkFrame c garbage) = Some (SOFTBUS_OK, Z.of_nat (frames c) + 1).
Proof.
  intros Hn. pose proof (crc_sum_bound (frames c) ltac:(lia)). unfold UnpackFileCrcCheckSum, checkFrame, sumFrame.
  change (1 =? APP_INFO_FILE_FEATURES_SUPPORT) with true. cbn [frameLength frameData frameSeq].
  change FRAME_HEAD_LEN with 12. change FRAME_DATA_SEQ_OFFSET with 4. change FRAME_MAGIC_OFFSET with 4.
  rewrite (proj2 (Z.eqb_eq _ _)) by (autorewrite with lens; rewrite ?len_leBytes; lia). cbn [negb mbind option_bind].
  set (t := leBytes 4 (Z.of_nat (frames c) + 1)). set (u := leBytes 8 (sumCrc c (frames c))).
  set (m := leBytes 4 FILE_MAGIC_NUMBER). set (l := leBytes 8 (4 + 8)).
  assert (len m = 4) as Lm by apply len_leBytes. assert (len l = 8) as Ll by apply len_leBytes. assert (len t = 4) as Lt by apply len_leBytes.
  assert (le32 (m ++ l ++ t ++ u) 0 = Some FILE_MAGIC_NUMBER) as -> by (by apply (le32_app [])). cbn [mbind option_bind].
  assert (le64 (m ++ l ++ t ++ u) 4 = Some (4 + 8)) as -> by (by apply le64_app). cbn [mbind option_bind].
  rewrite !Z.eqb_refl. cbn [negb orb]. rewrite app_assoc.
  assert (le32 ((m ++ l) ++ t ++ u) 12 = Some (Z.of_nat (frames c) + 1)) as -> by (apply le32_app; [lens | range]). cbn [mbind option_bind].
  replace ((m ++ l) ++ t ++ u) with ((m ++ l ++ t) ++ u ++ []) by (by rewrite app_nil_r, <- !app_assoc).
  assert (le64 ((m ++ l ++ t) ++ u ++ []) (12 + 4) = Some (sumCrc c (frames c))) as -> by (apply le64_app; [lens | range]).
  cbn [mbind option_bind]. by rewrite Z.eqb_refl.
Qed.

(** The sum is accepted, and the recipient is idle again. *)
Lemma deliver_check m r d o w garbage : Ready (frames c) m r -> Only r d o w ->
  exists r' w', process (checkFrame c garbage) w = Some (SOFTBUS_OK, w') /\
    Only r' d (o ++ [MkMessage ch TRANS_SESSION_FILE_RESULT_FRAME (resultBytes (Z.of_nat (frames c) + 1) IS_RECV_RESULT SOFTBUS_OK)]) w' /\
    recvState r' = TRANS_FILE_RECV_IDLE_STATE /\ place (recvFileInfo r') = pl.
Proof.
  intros HR HO. pose proof (frames_small (frames c) ltac:(lia)). destruct (ready_process _ _ _ _ _ _ HR HO) as (r1 & w1 & E1 & O1 & S1 & S2 & S3 & S4 & S5 & S6).
  pose proof (rd_file _ _ _ HR) as HI. rewrite <- S6 in HI.
  set (msg := MkMessage ch TRANS_SESSION_FILE_RESULT_FRAME (resultBytes (Z.of_nat (frames c) + 1) IS_RECV_RESULT SOFTBUS_OK)).
  assert (Only r1 d (o ++ [msg]) (put_message msg w1)) as O3 by (destruct O1 as (?&?&?&?&?&<-); done).
  destruct (only_release _ _ _ _ O3) as (w4 & E4 & O4); [cbn; lia|].
  destruct (only_state _ TRANS_FILE_RECV_IDLE_STATE _ _ _ O4) as (w5 & E5 & O5); [cbn; by rewrite S5|]. eexists _, w5. split.
  - change (ProcessCrcCheckSumData sid (checkFrame c garbage) w = Some (SOFTBUS_OK, w5)).
    unfold ProcessCrcCheckSumData. rewrite (bind_eq _ _ _ _ _ E1), (bind_eq _ _ _ _ _ (only_get _ _ _ _ O1)), S3, (io_sum _ _ _ HI), unpack_sum by lia.
    unfold lift, mbind at 1, M_bind at 1. cbn [fmap option_fmap option_map]. cbv iota zeta. rewrite S2. assert (answers w1 = []) as Hw1 by apply O1.
    rewrite (bind_eq _ _ _ _ _ (result_quiet _ _ _ _ _ Hw1)). rewrite (bind_eq _ _ _ _ _ E4). change (SOFTBUS_OK =? SOFTBUS_OK) with true. cbn [negb orb].
    by rewrite (bind_eq _ _ _ _ _ E5).
  - split; [exact O5|]. split; [done|]. cbn. apply HI.
Qed.

(** The list of files that comes afterwards finds no transfer. *)
Lemma deliver_list r d o w garbage list : Only r d o w -> recvState r = TRANS_FILE_RECV_IDLE_STATE -> len list <= PROXY_MAX_PACKET_SIZE ->
  process (MkFrame TRANS_SESSION_FILE_ALLFILE_SENT (len list) garbage (Some list)) w = Some (SOFTBUS_NOT_FIND, w).
Proof.
  intros (Ha & Hl & _ & Hr & _) Hs Hlen. unfold ProcessRecvFileFrameData. cbn [frameLength frameType]. rewrite (proj2 (Z.ltb_ge _ _)) by done.
  change (ProcessFileListData realpath sid (MkFrame TRANS_SESSION_FILE_ALLFILE_SENT (len list) garbage (Some list)) w = Some (SOFTBUS_NOT_FIND, w)).
  unfold ProcessFileListData. rewrite (bind_eq (GetRecipientInProcessRef sid) _ w None w); [done|].
  unfold GetRecipientInProcessRef. rewrite (bind_eq _ _ _ _ _ (ok_quiet w Ha)). cbn [negb].
  unfold GetRecipientNoLock, mbind at 1, M_bind at 1. cbn [gets]. unfold findRec. rewrite Hl. cbn [List.find]. destruct (_ : bool); [|done].
  assert (getRec a w = Some (r, w)) as E by (unfold getRec, mbind, M_bind; cbn [gets]; by rewrite Hr).
  rewrite (bind_eq _ _ _ _ _ E), Hs. done.
Qed.

(** ** The frames of a file, one after the other *)

Definition dataMessage (k : nat) : Z * bytes :=
  (FrameIndexToType (Z.of_nat k + 1) (Z.of_nat (frames c) + 1), dataFrame (Z.of_nat k + 1) (chunk c k) (crc16 (chunk c k))).

(** Whether the receiver is asked after the frame with number [n]. *)
Definition asks (n : nat) : bool := bool_decide (n mod 32 = 0)%nat && bool_decide (n < frames c)%nat.

Definition request (n : nat) : list (Z * bytes) :=
  if asks n then [(TRANS_SESSION_FILE_ACK_REQUEST_SENT, ackBytes (Z.of_nat n - 31) (Z.of_nat n))] else [].

Definition answer (n : nat) : list Message :=
  if asks n then [MkMessage ch TRANS_SESSION_FILE_ACK_RESPONSE_SENT (ackBytes (Z.of_nat n - 31) FILE_SEND_ACK_RESULT_SUCCESS)] else [].

Fixpoint dataStream (n : nat) : list (Z * bytes) :=
  match n with O => [] | S k => dataStream k ++ dataMessage k :: request (S k) end.

Fixpoint dataAnswers (n : nat) : list Message := match n with O => [] | S k => dataAnswers k ++ answer (S k) end.

(** Messages that are handled, with the codes. *)
Fixpoint deliver (garbage : Z) (l : list (Z * bytes)) : P (list Z) :=
  match l with
  | [] => mret []
  | (type, d) :: rest =>
      code ← ProcessFileFrameData realpath cl garbage sid ch d (len d) type; codes ← deliver garbage rest; mret (code :: codes)
  end.

Definition allOk (codes : list Z) : Prop := Forall (fun e => e = SOFTBUS_OK) codes.

Lemma deliver_streams g l1 l2 w codes1 w1 codes2 w2 : deliver g l1 w = Some (codes1, w1) -> deliver g l2 w1 = Some (codes2, w2) ->
  deliver g (l1 ++ l2) w = Some (codes1 ++ codes2, w2).
Proof.
  revert w codes1. induction l1 as [|[t d] l1 IH]; intros w codes1; cbn [deliver app].
  - by intros [= <- <-] ->.
  - intros (code & w3 & E3 & E)%bind_Some E2. apply bind_Some in E as (codes & w4 & E4 & [= <- <-]).
    rewrite (bind_eq _ _ _ _ _ E3), (bind_eq _ _ _ _ _ (IH _ _ E4 E2)). done.
Qed.

Lemma deliver_frame g t d w code w' : ProcessFileFrameData realpath cl g sid ch d (len d) t w = Some (code, w') -> deliver g [(t, d)] w = Some ([code], w').
Proof. intros E. cbn [deliver]. rewrite (bind_eq _ _ _ _ _ E). done. Qed.

Lemma dataMessage_type k : (k < frames c)%nat -> dataType (FrameIndexToType (Z.of_nat k + 1) (Z.of_nat (frames c) + 1)).
Proof.
  intros Hk. unfold FrameIndexToType, dataType. rewrite (proj2 (Z.eqb_neq _ FRAME_NUM_0)) by (unfold FRAME_NUM_0; lia).
  destruct (_ && _); [tauto|]. destruct (_ =? _); tauto.
Qed.

Definition answered (n : nat) : nat := (Nat.min n (frames c - 1) / 32)%nat.

(** The first [n] frames are accepted. *)
Lemma deliver_stream garbage n r o w : (n <= frames c)%nat -> Ready 0 0 r -> Only r [] o w ->
  exists codes r' d w', deliver garbage (dataStream n) w = Some (codes, w') /\ allOk codes /\ Only r' d (o ++ dataAnswers n) w' /\
    Ready n (answered n) r' /\ agree c d n.
Proof.
  intros Hn HR HO. induction n as [|k IH].
  - exists [], r, [], w. rewrite app_nil_r. split_and!; try done; [constructor|]. split; [intros; lia|done].
  - destruct IH as (codes & r1 & d1 & w1 & E1 & C1 & O1 & R1 & A1); [lia|].
    assert (answered k = k / 32)%nat as Em by (unfold answered; f_equal; lia). rewrite Em in R1.
    pose proof (Nat.div_mod_eq k 32). pose proof (Nat.mod_upper_bound k 32 ltac:(lia)).
    destruct (deliver_data k _ r1 d1 _ w1 _ garbage (dataMessage_type k ltac:(lia)) R1 O1 A1) as (r2 & d2 & w2 & E2 & O2 & R2 & A2); [lia..|].
    pose proof (deliver_streams _ _ _ _ _ _ _ _ E1 (deliver_frame garbage _ _ _ _ _ E2)) as E12. cbn [dataStream dataAnswers].
    change (dataMessage k :: request (S k)) with ([dataMessage k] ++ request (S k)). rewrite app_assoc.
    assert (allOk (codes ++ [SOFTBUS_OK])) as C2 by (apply Forall_app; split; [done|by constructor]).
    pose proof (Nat.div_mod_eq (S k) 32). pose proof (Nat.mod_upper_bound (S k) 32 ltac:(lia)).
    unfold request, answer, asks. destruct (decide (S k mod 32 = 0 /\ S k < frames c)%nat) as [[Hm Hl]|Hn'].
    + rewrite !bool_decide_eq_true_2 by done. cbn [andb]. assert (S k = 32 * (k / 32) + 32)%nat as Ek by lia.
      destruct (deliver_ack (S k) _ _ _ _ _ garbage (Z.of_nat (S k)) R2 O2) as (r3 & w3 & E3 & O3 & R3); [lia..|pose proof (frames_small (S k) ltac:(lia)); range|].
      replace (32 * Z.of_nat (k / 32) + 1) with (Z.of_nat (S k) - 31) in * by lia.
      exists ((codes ++ [SOFTBUS_OK]) ++ [SOFTBUS_OK]), r3, d2, w3. rewrite app_assoc. split_and!; [|apply Forall_app; split; [done|by constructor]|done| |done].
      * eapply deliver_streams; [exact E12|]. apply deliver_frame. unfold ProcessFileFrameData.
        replace (len (ackBytes (Z.of_nat (S k) - 31) (Z.of_nat (S k)))) with 20 by (unfold ackBytes; autorewrite with lens; rewrite !len_leBytes; done). exact E3.
      * replace (answered (S k)) with (S (k / 32))%nat by (unfold answered; rewrite Nat.min_l by lia; lia). done.
    + assert (bool_decide (S k mod 32 = 0)%nat && bool_decide (S k < frames c)%nat = false) as ->.
      { destruct (bool_decide_reflect (S k mod 32 = 0)%nat), (bool_decide_reflect (S k < frames c)%nat); tauto. }
      rewrite !app_nil_r. exists (codes ++ [SOFTBUS_OK]), r2, d2, w2. split_and!; try done.
      replace (answered (S k)) with (k / 32)%nat; [done|]. unfold answered. destruct (decide (S k < frames c)%nat).
      * rewrite Nat.min_l by lia. assert (S k mod 32 <> 0)%nat by tauto. lia.
      * rewrite Nat.min_r by lia. f_equal. lia.
Qed.

End Receiver.

(** ** The first frame *)

Section Start.

Context (realpath : text -> option text) (cl : Client) (sid ch : Z) (c : bytes).

(** Where the receiver puts a file. *)
Definition fullPath (root name : text) : text := if endsWithSep root then root ++ name else root ++ [PATH_SEPARATOR] ++ name.
Definition dirPath (root name : text) : text := take (sepLoop (fullPath root name) (length (fullPath root name) - 1)) (fullPath root name).
Definition baseName (root name : text) : text := drop (sepLoop (fullPath root name) (length (fullPath root name) - 1)) (fullPath root name).
Definition recvPath (abs root name : text) : text := abs ++ [PATH_SEPARATOR] ++ baseName root name.

(** A name the receiver accepts, with the directory the system resolves. *)
Record Acceptable (root name abs : text) : Prop := {
  ac_root : hasDots root = false;
  ac_name : CheckDestFilePathValid (Some name) = true;
  ac_length : len name < MAX_FILE_PATH_NAME_LEN;
  ac_chars : Forall (fun x => x <> 0) name;
  ac_full : IsPathValid (Some (fullPath root name)) = true;
  ac_real : realpath (dirPath root name) = Some abs;
  ac_fits : len (recvPath abs root name) < MAX_FILE_PATH_NAME_LEN;
  ac_path : Forall (fun x => x <> 0) (recvPath abs root name) }.

Definition started (path : text) : SingleFileInfo := setPath (arrayOf path) (setStart 958 (len c) (emptyFile 0)).

Lemma unpack_start garbage name info : sCrc info = 1 -> 0 < len name < MAX_FILE_PATH_NAME_LEN -> len c <= MAX_FILE_SIZE ->
  UnpackFileTransStartInfo (startFrame c garbage name info) 1 (emptyFile 0) = Some (SOFTBUS_OK, setPath (arrayOf name) (setStart 958 (len c) (emptyFile 0))) /\
  frameLength (startFrame c garbage name info) <= PROXY_MAX_PACKET_SIZE.
Proof.
  intros Hi Hl Hc. pose proof (len_nonneg c). unfold startFrame, PackFileTransStartInfo. rewrite Hi. change (1 =? APP_INFO_FILE_FEATURES_SUPPORT) with true.
  change FRAME_HEAD_LEN with 12. change FRAME_DATA_SEQ_OFFSET with 4. unfold MAX_FILE_PATH_NAME_LEN, PROXY_MAX_PACKET_SIZE, MAX_FILE_SIZE in *.
  cbv iota zeta. rewrite (wrapU_id 32) by range. destruct (Z.ltb_spec 976 (12 + (len name + 4 + 8) + 8)); [lia|].
  destruct (Z.eqb_spec (len name) 0); [lia|]. cbn [snd]. set (z := replicate 8 0).
  set (m := leBytes 4 FILE_MAGIC_NUMBER). set (l := leBytes 8 (len name + 4 + 8)). set (o := leBytes 4 CRC_DATA_SIZE). set (q := leBytes 8 (len c)).
  assert (len m = 4) as Lm by apply len_leBytes. assert (len l = 8) as Ll by apply len_leBytes. assert (len o = 4) as Lo by apply len_leBytes.
  assert (len q = 8) as Lq by apply len_leBytes. assert (len z = 8) as Lz by done.
  unfold UnpackFileTransStartInfo. cbn [frameLength frameData mbind option_bind]. change (1 =? APP_INFO_FILE_FEATURES_SUPPORT) with true.
  change FRAME_HEAD_LEN with 12. change FRAME_DATA_SEQ_OFFSET with 4. change FRAME_MAGIC_OFFSET with 4. rewrite (proj2 (Z.ltb_ge _ _)) by lens.
  split; [|lens].
  assert (le32 (m ++ l ++ o ++ q ++ name ++ z) 0 = Some FILE_MAGIC_NUMBER) as -> by (by apply (le32_app [])). cbn [mbind option_bind].
  assert (le64 (m ++ l ++ o ++ q ++ name ++ z) 4 = Some (len name + 4 + 8)) as -> by (apply le64_app; [by rewrite Lm|range]). cbn [mbind option_bind].
  rewrite Z.eqb_refl. rewrite (proj2 (Z.ltb_ge _ _)) by lia. cbn [negb orb]. rewrite app_assoc.
  assert (le32 ((m ++ l) ++ o ++ q ++ name ++ z) 12 = Some CRC_DATA_SIZE) as -> by (apply le32_app; [lens|done]). cbn [mbind option_bind].
  replace ((m ++ l) ++ o ++ q ++ name ++ z) with ((m ++ l ++ o) ++ q ++ name ++ z) by (by rewrite <- !app_assoc).
  assert (le64 ((m ++ l ++ o) ++ q ++ name ++ z) (12 + 4) = Some (len c)) as -> by (apply le64_app; [lens|range]). cbn [mbind option_bind].
  replace ((m ++ l ++ o) ++ q ++ name ++ z) with ((m ++ l ++ o ++ q) ++ name ++ z) by (by rewrite <- !app_assoc).
  unfold unpackName. replace (len name + 4 + 8 - 4 - 8) with (len name) by lia. unfold MAX_FILE_PATH_NAME_LEN.
  rewrite (proj2 (Z.ltb_ge 512 _)), (proj2 (Z.ltb_lt 0 _)) by lia. rewrite (get_app (m ++ l ++ o ++ q)) by lens. cbn [mbind option_bind].
  erewrite memcpy_s_fits; [cbn [mbind option_bind]|lia|done|apply put_zero; cbn [filePath setStart emptyFile]].
  2: { unfold MAX_FILE_PATH_NAME_LEN. unfold len in *. rewrite length_replicate. lia. }
  f_equal. f_equal. unfold setPath. cbn [filePath setStart emptyFile]. do 2 f_equal. unfold arrayOf. f_equal.
  rewrite drop_replicate. f_equal. unfold MAX_FILE_PATH_NAME_LEN, len in *. lia.
Qed.

Lemma cstr_array t : Forall (fun x => x <> 0) t -> len t < MAX_FILE_PATH_NAME_LEN -> cstr (arrayOf t) = Some t.
Proof.
  intros Ht Hl. unfold arrayOf. destruct (Z.to_nat (MAX_FILE_PATH_NAME_LEN - len t)) as [|n] eqn:E; [lia|]. cbn [replicate]. by apply cstr_terminated.
Qed.

Lemma makeDirs_quiet p w : answers w = [] -> makeDirs p w = Some (SOFTBUS_OK, w).
Proof. intros H. induction p as [|x p IH]; [done|]. cbn [makeDirs]. destruct (negb _); [done|]. by rewrite (bind_eq _ _ _ _ _ (ok_quiet w H)). Qed.

Lemma paths_quiet root name abs w : answers w = [] -> Acceptable root name abs ->
  CreateDirAndGetAbsPath realpath (Some (fullPath root name)) MAX_FILE_PATH_NAME_LEN w = Some ((SOFTBUS_OK, recvPath abs root name), w).
Proof.
  intros H [A1 A2 A3 A4 A5 A6 A7 A8]. unfold IsPathValid in A5. unfold MAX_FILE_PATH_NAME_LEN in *.
  assert (0 < len (fullPath root name) <= 511 /\ endsWithSep (fullPath root name) = false) as [Hl He].
  { pose proof (len_nonneg (fullPath root name)). revert A5. destruct (Z.eqb_spec (len (fullPath root name)) 0), (Z.ltb_spec (512 - 1) (len (fullPath root name))); cbn [orb]; try done.
    destruct (endsWithSep _); [done|]. split; [lia|done]. }
  unfold CreateDirAndGetAbsPath. rewrite (bind_eq _ _ _ _ _ (alloc_quiet (len (fullPath root name) + 1) w H ltac:(lia))). cbn [negb].
  rewrite (bind_eq _ _ _ _ _ (makeDirs_quiet _ w H)). change (negb (SOFTBUS_OK =? SOFTBUS_OK)) with false. cbv iota.
  unfold GetAbsFullPath, MAX_FILE_PATH_NAME_LEN. rewrite (bind_eq _ _ _ _ _ (alloc_quiet _ w H ltac:(done))). cbn [negb].
  pose proof (sepLoop_spec (fullPath root name) (length (fullPath root name) - 1)) as [Hs _]; [unfold len in *; lia|].
  unfold GetDirPath. rewrite He, (proj2 (Z.ltb_ge _ 1)) by lia. cbn [orb]. rewrite (proj2 (Z.leb_gt 512 _)) by (unfold len in *; lia).
  change (negb (SOFTBUS_OK =? SOFTBUS_OK)) with false. cbv iota. rewrite (bind_eq _ _ _ _ _ (alloc_quiet _ w H ltac:(done))). cbn [negb].
  unfold TransGetFileName. rewrite He, (proj2 (Z.eqb_neq _ 0)) by lia. unfold GetAndCheckRealPath, MAX_FILE_PATH_NAME_LEN. fold (dirPath root name). rewrite A6.
  fold (baseName root name). unfold recvPath in *. revert A7. rewrite !len_app. change (len [PATH_SEPARATOR]) with 1. intros A7. pose proof (len_nonneg (baseName root name)).
  rewrite (proj2 (Z.ltb_ge _ (len abs))) by lia. change (negb (SOFTBUS_OK =? SOFTBUS_OK)) with false. cbv iota zeta. cbn [default].
  change (id abs) with abs. by rewrite !(proj2 (Z.ltb_ge 512 _)) by lia.
Qed.

Lemma info_quiet garbage name info abs a r w : answers w = [] -> recs w !! a = Some r -> crc r = 1 -> sCrc info = 1 -> len c <= MAX_FILE_SIZE ->
  Acceptable (rootDir (fileListener r)) name abs ->
  GetFileInfoByStartFrame realpath (startFrame c garbage name info) a (emptyFile 0) w =
    Some ((SOFTBUS_OK, started (recvPath abs (rootDir (fileListener r)) name)), w).
Proof.
  intros H Hr Hc Hi Hs HA. pose proof HA as [A1 A2 A3 A4 A5 A6 A7 A8]. set (root := rootDir (fileListener r)) in *.
  assert (0 < len name /\ head name <> Some PATH_SEPARATOR) as [Hn Hh].
  { revert A2. unfold CheckDestFilePathValid. pose proof (len_nonneg name). destruct (Z.eqb_spec (len name) 0); [done|]. destruct (_ <? _); [done|].
    destruct (bool_decide_reflect (head name = Some PATH_SEPARATOR)); [done|]. split; [lia|done]. }
  unfold GetFileInfoByStartFrame. erewrite bind_eq; [|unfold getRec, mbind, M_bind; cbn [gets]; rewrite Hr; done]. cbv zeta. fold root.
  rewrite A1, Hc. destruct (unpack_start garbage name info Hi (conj Hn A3) Hs) as [-> _]. unfold lift at 1, mbind at 1, M_bind at 1. cbn [fmap option_fmap option_map].
  change (negb (SOFTBUS_OK =? SOFTBUS_OK)) with false. cbv iota.
  erewrite bind_eq; [|unfold pathOf, lift; cbn [filePath setPath]; rewrite cstr_array by done; done]. rewrite A2. cbn [negb].
  assert (exists w', GetFullRecvPath (Some name) (Some root) w = Some (Some (fullPath root name), w') /\ w' = w) as (? & E & ->).
  { eexists. split; [|done]. unfold GetFullRecvPath, fullPath. rewrite (bool_decide_eq_false_2 _ Hh). cbn [orb].
    assert (len root + len name <= 511) as Hb.
    { revert A5. unfold IsPathValid, fullPath, MAX_FILE_PATH_NAME_LEN. destruct (_ || _) eqn:Eo; [done|]. apply orb_false_iff in Eo as [_ Eo%Z.ltb_ge]. intros _.
      revert Eo. destruct (endsWithSep root); rewrite !len_app; [lia|]. pose proof (len_nonneg [PATH_SEPARATOR]). lia. }
    pose proof (len_nonneg root). destruct (endsWithSep root); cbn [negb].
    - by rewrite (bind_eq _ _ _ _ _ (alloc_quiet (len root + len name + 1) w H ltac:(lia))).
    - by rewrite (bind_eq _ _ _ _ _ (alloc_quiet (len root + 4 + len name + 1) w H ltac:(lia))). }
  rewrite (bind_eq _ _ _ _ _ E), A5. cbn [negb]. rewrite (bind_eq _ _ _ _ _ (paths_quiet root name abs w H HA)). done.
Qed.

(** A recipient that is made. *)
Definition newRecipient (fl : FileListener) : FileRecipientInfo := MkRecipient sid ch 1 0 fl 1 TRANS_FILE_RECV_IDLE_STATE (emptyFile INVALID_FD).

Lemma create_quiet nm fl w : answers w = [] -> recvList w = [] -> nameOf cl sid = Some nm -> configOf cl sid = Some 1 -> listenerOf cl nm = Some fl ->
  exists w', GetRecipientInCreateFileRef cl sid ch w = Some (Some (nextRec w), w') /\ answers w' = [] /\ recvList w' = [nextRec w] /\
    recs w' !! nextRec w = Some (setRefs 2 (setState TRANS_FILE_RECV_START_STATE (newRecipient fl))) /\
    disk w' = disk w /\ fds w' = fds w /\ nextFd w' = nextFd w /\ out w' = out w.
Proof.
  intros H HL Hn Hc Hf. eexists. split.
  - unfold GetRecipientInCreateFileRef, GetRecipientNoLock, CreateNewRecipient, GetRecipientNoLock. rewrite (bind_eq _ _ _ _ _ (ok_quiet w H)). cbn [negb].
    assert (findRec w sid = None) as Hfind by (unfold findRec; by rewrite HL).
    unfold mbind at 1, M_bind at 1. cbn [gets]. rewrite Hfind.
    erewrite bind_eq; [|unfold mbind at 1, M_bind at 1; cbn [gets]; rewrite Hfind, (bind_eq _ _ _ _ _ (ok_quiet w H)); cbn [negb];
      rewrite Hn, Hc, Hf; unfold mbind, M_bind; cbn [gets modify]; reflexivity].
    cbv beta iota. erewrite bind_eq; [|unfold getRec, mbind, M_bind; cbn [gets recs]; rewrite lookup_insert_eq; reflexivity].
    change (negb (recvState _ =? _)) with false. cbv iota. reflexivity.
  - cbn. rewrite HL. split_and!; try done. rewrite lookup_insert_eq. done.
Qed.

Lemma put_quiet a r path f w : answers w = [] -> recvList w = [a] -> recs w !! a = Some r -> fileStatus (recvFileInfo r) = NODE_IDLE -> 0 <= nextFd w ->
  cstr (filePath f) = Some path ->
  exists w', PutToRecvFileList a f w = Some (SOFTBUS_OK, w') /\
    Only a (nextFd w, filePath f) path (setFile (setFd (nextFd w) (setTimeOut 0 (setOffset 0 (setFileStatus NODE_BUSY f)))) r) [] (out w) w'.
Proof.
  intros H HL Hr Hs Hf Hp. eexists. split.
  - unfold PutToRecvFileList. erewrite bind_eq; [|unfold getRec, mbind, M_bind; cbn [gets]; rewrite Hr; done]. rewrite Hs. change (negb (NODE_IDLE =? NODE_IDLE)) with false. cbv iota.
    erewrite bind_eq; [|unfold pathOf, lift; rewrite Hp; done].
    assert (CheckRecvFileExist path w = Some (false, w)) as EC.
    { unfold CheckRecvFileExist. rewrite (bind_eq _ _ _ _ _ (ok_quiet w H)). cbn [negb]. unfold gets. rewrite HL. cbn [existsb]. unfold isBusy. rewrite Hr, Hs.
      change (negb (NODE_IDLE =? NODE_BUSY)) with true. by rewrite orb_true_r. }
    rewrite (bind_eq _ _ _ _ _ EC). set (w1 := setRecs (<[a := setFile f r]> (recs w)) (recvList w) w).
    rewrite (bind_eq (putRec a (setFile f r)) _ w tt w1) by done. assert (answers w1 = []) as H1 by done.
    assert (SoftBusOpenFileWithPerms path w1 = Some (nextFd w, setFds (<[nextFd w := path]> (fds w)) (nextFd w + 1) (setDisk (<[path := default [] (disk w !! path)]> (disk w)) w1))) as EO.
    { unfold SoftBusOpenFileWithPerms, openFile. rewrite (bind_eq _ _ _ _ _ (ok_quiet w1 H1)). cbn [negb andb orb]. done. }
    rewrite (bind_eq _ _ _ _ _ EO). rewrite (proj2 (Z.ltb_ge _ 0) Hf).
    set (w2 := setFds (<[nextFd w := path]> (fds w)) (nextFd w + 1) (setDisk (<[path := default [] (disk w !! path)]> (disk w)) w1)). assert (answers w2 = []) as H2 by done.
    assert (tryLock (nextFd w) w2 = Some (SOFTBUS_OK, w2)) as ET.
    { unfold tryLock. rewrite !(bind_eq _ _ _ _ _ (ok_quiet w2 H2)). cbn [TryFileLock]. unfold FileLock. by rewrite (proj2 (Z.ltb_ge _ 0) Hf). }
    rewrite (bind_eq _ _ _ _ _ ET). change (negb (SOFTBUS_OK =? SOFTBUS_OK)) with false. cbv iota.
    assert (ftruncate (nextFd w) w2 = Some (tt, setDisk (<[path := []]> (disk w2)) w2)) as EF.
    { unfold ftruncate. rewrite (bind_eq _ _ _ _ _ (ok_quiet w2 H2)). unfold mbind at 1, M_bind at 1. cbn [gets]. change (fds w2) with (<[nextFd w := path]> (fds w)). rewrite lookup_insert_eq. done. }
    rewrite (bind_eq _ _ _ _ _ EF). reflexivity.
  - split_and!; cbn; try done; apply lookup_insert_eq.
Qed.

(** The first frame is accepted. *)
Lemma deliver_start garbage name info abs nm fl w : answers w = [] -> recvList w = [] -> 0 <= nextFd w -> nameOf cl sid = Some nm -> configOf cl sid = Some 1 ->
  listenerOf cl nm = Some fl -> sCrc info = 1 -> len c <= MAX_FILE_SIZE -> Acceptable (rootDir fl) name abs ->
  let path := recvPath abs (rootDir fl) name in
  exists r w', ProcessRecvFileFrameData realpath cl sid ch (startFrame c garbage name info) w = Some (SOFTBUS_OK, w') /\
    Only (nextRec w) (nextFd w, arrayOf path) path r [] (out w ++ [MkMessage ch TRANS_SESSION_FILE_RESULT_FRAME (resultBytes 0 IS_RECV_RESULT SOFTBUS_OK)]) w' /\
    Ready sid ch (nextFd w, arrayOf path) c 0 0 r.
Proof.
  intros H HL Hfd Hn Hc Hf Hi Hs HA path. set (a := nextRec w).
  destruct (create_quiet nm fl w H HL Hn Hc Hf) as (w1 & E1 & A1 & L1 & R1 & D1 & F1 & N1 & O1). fold a in E1, L1, R1.
  pose proof (info_quiet garbage name info abs a _ w1 A1 R1 eq_refl Hi Hs HA) as E2. cbn [fileListener setRefs setState newRecipient] in E2. fold path in E2.
  assert (cstr (filePath (started path)) = Some path) as Hp by (apply cstr_array; [apply HA | apply HA]).
  destruct (put_quiet a _ path (started path) w1 A1 L1 R1 eq_refl ltac:(by rewrite N1) Hp) as (w2 & E3 & O2). rewrite N1, O1 in O2.
  change (filePath (started path)) with (arrayOf path) in O2.
  destruct (only_call _ _ _ _ _ _ _ (onReceiveFileStarted fl) (Started sid path) O2) as (w3 & E4 & O3).
  destruct (only_release _ _ _ _ _ _ _ O3) as (w4 & E5 & O4); [done|].
  set (msg := MkMessage ch TRANS_SESSION_FILE_RESULT_FRAME (resultBytes 0 IS_RECV_RESULT SOFTBUS_OK)).
  eexists _, (put_message msg w4). split; [|split; [destruct O4 as (?&?&?&?&?&<-); done|]].
  - unfold ProcessRecvFileFrameData.
    assert (0 < len name < MAX_FILE_PATH_NAME_LEN) as Hl.
    { destruct HA as [_ HA HA' _ _ _ _ _]. split; [|done]. revert HA. unfold CheckDestFilePathValid. pose proof (len_nonneg name). destruct (Z.eqb_spec (len name) 0); [done|lia]. }
    rewrite (proj2 (Z.ltb_ge _ _) (proj2 (unpack_start garbage name info Hi Hl Hs))).
    change (CreateFileFromFrame realpath cl sid ch (startFrame c garbage name info) w = Some (SOFTBUS_OK, put_message msg w4)).
    unfold CreateFileFromFrame. rewrite (bind_eq _ _ _ _ _ E1), (bind_eq _ _ _ _ _ (ok_quiet w1 A1)). cbn [negb]. rewrite (bind_eq _ _ _ _ _ E2).
    change (negb (SOFTBUS_OK =? SOFTBUS_OK)) with false. cbv iota. rewrite (bind_eq _ _ _ _ _ E3). change (negb (SOFTBUS_OK =? SOFTBUS_OK)) with false. cbv iota.
    rewrite (bind_eq _ _ _ _ _ (only_get _ _ _ _ _ _ _ O2)). erewrite bind_eq; [|unfold pathOf, lift; rewrite Hp; done].
    cbn [fileListener setFile setRefs setState newRecipient]. rewrite (bind_eq _ _ _ _ _ E4), (bind_eq _ _ _ _ _ E5), (bind_eq _ _ _ _ _ (only_get _ _ _ _ _ _ _ O4)).
    unfold report. change (crc _ =? APP_INFO_FILE_FEATURES_SUPPORT) with true. cbv iota. assert (answers w4 = []) as A4 by apply O4.
    erewrite bind_eq; [|rewrite (bind_eq _ _ _ _ _ (result_quiet ch 0 SOFTBUS_OK IS_RECV_RESULT w4 A4)); done]. done.
  - constructor; try done; [by left|]. pose proof (len_nonneg c). constructor; cbn; try done; try lia.
Qed.

End Start.

(** ** The sender *)

Section Sender.

Context (realpath : text -> option text) (cl : Client) (sid ch fd num : Z) (fl : FileListener) (src : text) (locks : gmap Z Z).
Context (c : bytes) (c_bytes : is_bytes c) (c_size : len c <= MAX_FILE_SIZE).

(** The transfer after [k] data frames. *)
Definition sentInfo (k : nat) : SendListenerInfo := MkSend ch sid fd (len c) num 1 (Z.of_nat k) 0 0 SOFTBUS_OK (sumCrc c k) fl.

(** The transfer is [s], [ps] is waited for, [i] will arrive and [o] was sent. *)
Definition Sends (s : SendListenerInfo) (ps : list PendingPacket) (i : list (list (Z * Z * FileFrame))) (o : list Message) (w : World) : Prop :=
  answers w = [] /\ (pendingHeld w, fileLocks w) = (false, locks) /\ sends w !! sid = Some s /\ pending w = ps /\ inbox w = i /\ out w = o /\
  fds w !! fd = Some src /\ disk w !! src = Some c.

Lemma sends_get s ps i o w : Sends s ps i o w -> getSend sid w = Some (s, w).
Proof. intros (_&_&H&_). unfold getSend, mbind, M_bind. cbn [gets]. by rewrite H. Qed.

Lemma sends_put s s' ps i o w : Sends s ps i o w -> exists w', putSend sid s' w = Some (tt, w') /\ Sends s' ps i o w'.
Proof. intros (?&?&?&?&?&?&?&?). eexists. split; [done|]. split_and!; try done. cbn. apply lookup_insert_eq. Qed.

Lemma sends_ok s ps i o w : Sends s ps i o w -> ok w = Some (true, w).
Proof. intros (H&_). by apply ok_quiet. Qed.

Lemma sends_lock s ps i o w : Sends s ps i o w -> lockPending w = Some (true, w).
Proof. intros (H&[= Hh _]&_). unfold lockPending, mbind, M_bind. cbn [gets]. rewrite Hh. by apply ok_quiet. Qed.

Lemma sends_create s id sq i o w : Sends s [] i o w -> exists w', CreatePendingPacket id sq w = Some (SOFTBUS_OK, w') /\ Sends s [MkPending id sq false None] i o w'.
Proof.
  intros H. pose proof H as (?&?&?&Hp&?&?&?&?). exists (setPending [MkPending id sq false None] w). split; [|done].
  unfold CreatePendingPacket. rewrite (bind_eq _ _ _ _ _ (sends_lock _ _ _ _ _ H)). cbn [negb]. unfold mbind at 1, M_bind at 1. cbn [gets]. rewrite Hp. cbn [existsb].
  do 3 (rewrite (bind_eq _ _ _ _ _ (sends_ok _ _ _ _ _ H)); cbn [negb]). done.
Qed.

(** A packet that was found is taken out. *)
Lemma sends_take s id sq data i o w del : Sends s [MkPending id sq true data] i o w ->
  exists w', GetPendingPacketData realpath cl id sq del w = Some ((SOFTBUS_ALREADY_TRIGGERED, data), w') /\ Sends s [] i o w'.
Proof.
  intros H. pose proof H as (?&?&?&Hp&?&?&?&?). exists (setPending [] w). split; [|done].
  assert (isPending id sq (MkPending id sq true data) = true) as Hi by (unfold isPending; cbn; by rewrite !Z.eqb_refl).
  unfold GetPendingPacketData, findPending. rewrite (bind_eq _ _ _ _ _ (sends_lock _ _ _ _ _ H)). cbn [negb]. unfold mbind at 1, M_bind at 1. cbn [gets]. rewrite Hp.
  cbn [List.find]. rewrite Hi. rewrite (bind_eq _ _ _ _ _ (sends_ok _ _ _ _ _ H)). cbv iota. unfold TransPendWaitTime. cbn [finded pData].
  unfold mbind at 1, M_bind at 1, mret at 1, M_ret at 1. rewrite (bind_eq _ _ _ _ _ (sends_lock _ _ _ _ _ H)). change (SOFTBUS_ALREADY_TRIGGERED =? SOFTBUS_TIMOUT) with false.
  cbn [negb]. rewrite orb_true_r. unfold when, removePending. unfold mbind at 1, M_bind at 1. unfold mbind at 1, M_bind at 1. cbn [gets]. rewrite Hp. cbn [updateFirst]. rewrite Hi. done.
Qed.

(** A packet is found. *)
Lemma sends_set s id sq data i o w : Sends s [MkPending id sq false None] i o w ->
  exists w', SetPendingPacketData id sq data w = Some (SOFTBUS_OK, w') /\ Sends s [MkPending id sq true data] i o w'.
Proof.
  intros H. pose proof H as (?&?&?&Hp&?&?&?&?). exists (setPending [MkPending id sq true data] w). split; [|done].
  assert (isPending id sq (MkPending id sq false None) = true) as Hi by (unfold isPending; cbn; by rewrite !Z.eqb_refl).
  unfold SetPendingPacketData. rewrite (bind_eq _ _ _ _ _ (sends_lock _ _ _ _ _ H)). cbn [negb]. unfold mbind at 1, M_bind at 1. cbn [gets]. rewrite Hp.
  cbn [existsb]. rewrite Hi. cbn [orb]. rewrite (bind_eq _ _ _ _ _ (sends_ok _ _ _ _ _ H)). cbn [updateFirst]. rewrite Hi. by destruct data.
Qed.

(** ** Answers that arrive *)

Definition resultFrame (garbage sq : Z) : Z * Z * FileFrame :=
  (sid, ch, MkFrame TRANS_SESSION_FILE_RESULT_FRAME 24 garbage (Some (resultBytes sq IS_RECV_RESULT SOFTBUS_OK))).

Definition ackFrame (garbage start : Z) : Z * Z * FileFrame :=
  (sid, ch, MkFrame TRANS_SESSION_FILE_ACK_RESPONSE_SENT 20 garbage (Some (ackBytes start FILE_SEND_ACK_RESULT_SUCCESS))).

Lemma unpack_result sq : is_u 32 sq -> UnpackFileTransResultFrame (Some (resultBytes sq IS_RECV_RESULT SOFTBUS_OK)) 24 = Some (SOFTBUS_OK, (sq, SOFTBUS_OK, IS_RECV_RESULT)).
Proof.
  intros Hs. unfold UnpackFileTransResultFrame, resultBytes.
  change FRAME_HEAD_LEN with 12. change FRAME_DATA_SEQ_OFFSET with 4. change FRAME_MAGIC_OFFSET with 4. change (24 <? 12 + 4 + 4) with false.
  set (m := leBytes 4 FILE_MAGIC_NUMBER). set (l := leBytes 8 (4 + 8)). set (q := leBytes 4 sq). set (v := leBytes 4 IS_RECV_RESULT). set (x := leBytes 4 SOFTBUS_OK).
  assert (len m = 4) as Lm by apply len_leBytes. assert (len l = 8) as Ll by apply len_leBytes. assert (len q = 4) as Lq by apply len_leBytes. assert (len v = 4) as Lv by apply len_leBytes.
  assert (le32 (m ++ l ++ q ++ v ++ x) 0 = Some FILE_MAGIC_NUMBER) as -> by (by apply (le32_app [])). cbn [mbind option_bind].
  assert (le64 (m ++ l ++ q ++ v ++ x) 4 = Some (4 + 8)) as -> by (by apply le64_app). cbn [mbind option_bind].
  rewrite !Z.eqb_refl. cbn [negb orb]. rewrite app_assoc.
  assert (le32 ((m ++ l) ++ q ++ v ++ x) 12 = Some sq) as -> by (apply le32_app; [lens | done]). cbn [mbind option_bind].
  replace ((m ++ l) ++ q ++ v ++ x) with ((m ++ l ++ q) ++ v ++ x) by (by rewrite <- !app_assoc).
  assert (le32 ((m ++ l ++ q) ++ v ++ x) (12 + 4) = Some IS_RECV_RESULT) as -> by (apply le32_app; [lens | done]). cbn [mbind option_bind].
  replace ((m ++ l ++ q) ++ v ++ x) with ((m ++ l ++ q ++ v) ++ x ++ []) by (by rewrite app_nil_r, <- !app_assoc).
  assert (le32 ((m ++ l ++ q ++ v) ++ x ++ []) (12 + 4 + 4) = Some SOFTBUS_OK) as -> by (apply le32_app; [lens | done]). done.
Qed.

Lemma arrive_nothing s ps i o w : Sends s ps ([] :: i) o w -> exists w', arrive realpath cl w = Some (tt, w') /\ Sends s ps i o w'.
Proof. intros (?&?&?&?&Hi&?&?&?). exists (setInbox i w). split; [|done]. unfold arrive, mbind, M_bind. cbn [gets]. rewrite Hi. done. Qed.

Lemma arrive_result g s sq i o w : is_u 32 sq -> sResult s = SOFTBUS_OK -> Sends s [MkPending (u32 sid) sq false None] ([resultFrame g sq] :: i) o w ->
  exists w', arrive realpath cl w = Some (tt, w') /\ Sends s [MkPending (u32 sid) sq true None] i o w'.
Proof.
  intros Hs Hr H. pose proof H as (?&?&Hse&?&Hi&?&?&?).
  assert (Sends s [MkPending (u32 sid) sq false None] i o (setInbox i w)) as HS1 by done.
  destruct (sends_put _ (setSResult SOFTBUS_OK s) _ _ _ _ HS1) as (w2 & E2 & HS2).
  replace (setSResult SOFTBUS_OK s) with s in HS2 by (destruct s; cbn in Hr; by subst).
  destruct (sends_set _ _ _ None _ _ _ HS2) as (w3 & E3 & HS3). exists w3. split; [|done].
  assert (ProcessFileTransResult sid (MkFrame TRANS_SESSION_FILE_RESULT_FRAME 24 g (Some (resultBytes sq IS_RECV_RESULT SOFTBUS_OK))) (setInbox i w) = Some (SOFTBUS_OK, w3)) as E.
  { unfold ProcessFileTransResult. cbn [frameData frameLength]. erewrite bind_eq; [|unfold lift; rewrite (unpack_result _ Hs); done]. cbv beta iota.
    change (negb (SOFTBUS_OK =? SOFTBUS_OK)) with false. change (IS_RECV_RESULT =? IS_RECV_RESULT) with true. cbv iota. unfold ProcessFileRecvResult.
    rewrite (bind_eq _ _ _ _ _ (sends_ok _ _ _ _ _ HS1)). cbn [negb]. unfold mbind at 1, M_bind at 1. cbn [gets]. change (sends (setInbox i w)) with (sends w). rewrite Hse.
    erewrite (bind_eq (modify _)); [|exact E2]. by rewrite (bind_eq _ _ _ _ _ E3). }
  unfold arrive, mbind at 1, M_bind at 1. cbn [gets]. rewrite Hi. rewrite (bind_eq _ _ w tt (setInbox i w)) by done. unfold resultFrame. cbn [handleAll].
  erewrite bind_eq; [|exact E]. done.
Qed.

Lemma arrive_ack g s start i o w : is_u 32 start -> Sends s [MkPending (u32 sid) (u64 (waitSeq s)) false None] ([ackFrame g start] :: i) o w ->
  exists w', arrive realpath cl w = Some (tt, w') /\ Sends s [MkPending (u32 sid) (u64 (waitSeq s)) true (Some (start, FILE_SEND_ACK_RESULT_SUCCESS))] i o w'.
Proof.
  intros Hs H. pose proof H as (?&?&Hse&?&Hi&?&?&?).
  assert (Sends s [MkPending (u32 sid) (u64 (waitSeq s)) false None] i o (setInbox i w)) as HS1 by done.
  destruct (sends_set _ _ _ (Some (start, FILE_SEND_ACK_RESULT_SUCCESS)) _ _ _ HS1) as (w3 & E3 & HS3). exists w3. split; [|done].
  assert (ProcessFileAckResponse sid (MkFrame TRANS_SESSION_FILE_ACK_RESPONSE_SENT 20 g (Some (ackBytes start FILE_SEND_ACK_RESULT_SUCCESS))) (setInbox i w) = Some (SOFTBUS_OK, w3)) as E.
  { unfold ProcessFileAckResponse. cbn [frameData frameLength]. change (20 =? 0) with false. cbv iota. rewrite (bind_eq _ _ _ _ _ (sends_ok _ _ _ _ _ HS1)). cbn [negb].
    erewrite bind_eq; [|unfold lift; rewrite unpack_ack by done; done]. cbv beta iota.
    change (negb (SOFTBUS_OK =? SOFTBUS_OK)) with false. cbv iota. rewrite (bind_eq _ _ _ _ _ (sends_ok _ _ _ _ _ HS1)). cbn [negb].
    unfold mbind at 1, M_bind at 1. cbn [gets]. change (sends (setInbox i w)) with (sends w). rewrite Hse. by rewrite (bind_eq _ _ _ _ _ E3). }
  unfold arrive, mbind at 1, M_bind at 1. cbn [gets]. rewrite Hi. rewrite (bind_eq _ _ w tt (setInbox i w)) by done. unfold ackFrame. cbn [handleAll].
  erewrite bind_eq; [|exact E]. done.
Qed.

(** ** One frame *)

Lemma sends_stream s ps i o w d t : Sends s ps i o w -> exists w', ProxyChannelSendFileStream ch d t w = Some (SOFTBUS_OK, w') /\ Sends s ps i (o ++ [MkMessage ch t d]) w'.
Proof. intros (H&?&?&?&?&<-&?&?). eexists. split; [by apply stream_quiet|]. done. Qed.

Lemma getPending_code A (m : P (Z * A)) w data w' : m w = Some ((SOFTBUS_ALREADY_TRIGGERED, data), w') ->
  ('(ret, _) ← m; mret (if (ret =? SOFTBUS_ALREADY_TRIGGERED) || (ret =? SOFTBUS_OK) then SOFTBUS_OK else SOFTBUS_ERR) : P Z) w = Some (SOFTBUS_OK, w').
Proof. intros E. by rewrite (bind_eq _ _ _ _ _ E). Qed.

(** The first frame, which is answered while it is sent. *)
Lemma send_first g frame i o w : Sends (sentInfo 0) [] ([resultFrame g 0] :: i) o w ->
  exists w', SendOneFrame realpath cl sid TRANS_SESSION_FILE_FIRST_FRAME frame w = Some (SOFTBUS_OK, w') /\
    Sends (sentInfo 0) [] i (o ++ [MkMessage ch TRANS_SESSION_FILE_FIRST_FRAME frame]) w'.
Proof.
  intros H. destruct (sends_create _ (u32 sid) 0 _ _ _ H) as (w1 & E1 & H1). destruct (sends_put _ (sentInfo 0) _ _ _ _ H1) as (w2 & E2 & H2).
  destruct (sends_stream _ _ _ _ _ frame TRANS_SESSION_FILE_FIRST_FRAME H2) as (w3 & E3 & H3).
  destruct (arrive_result g (sentInfo 0) 0 _ _ _ ltac:(done) eq_refl H3) as (w4 & E4 & H4). destruct (sends_take _ _ _ _ _ _ _ true H4) as (w5 & E5 & H5).
  exists w5. split; [|done]. unfold SendOneFrame.
  assert (SendOneFrameFront sid TRANS_SESSION_FILE_FIRST_FRAME w = Some (SOFTBUS_OK, w2)) as EF.
  { unfold SendOneFrameFront. rewrite (bind_eq _ _ _ _ _ (sends_get _ _ _ _ _ H)). cbn [sCrc sentInfo sSessionId]. change (negb (1 =? APP_INFO_FILE_FEATURES_SUPPORT)) with false.
    change (TRANS_SESSION_FILE_FIRST_FRAME =? TRANS_SESSION_FILE_FIRST_FRAME) with true. cbv iota. rewrite (bind_eq _ _ _ _ _ E1).
    change (negb (SOFTBUS_OK =? SOFTBUS_OK)) with false. cbv iota. rewrite (bind_eq _ _ _ _ _ (sends_get _ _ _ _ _ H1)).
    change (setWait 0 0 (sentInfo 0)) with (sentInfo 0). by rewrite (bind_eq _ _ _ _ _ E2). }
  rewrite (bind_eq _ _ _ _ _ EF). change (negb (SOFTBUS_OK =? SOFTBUS_OK)) with false. cbv iota. rewrite (bind_eq _ _ _ _ _ (sends_get _ _ _ _ _ H2)). cbn [sChannelId sentInfo].
  erewrite bind_eq; [|unfold sendStream; rewrite (bind_eq _ _ _ _ _ E3), (bind_eq _ _ _ _ _ E4); done]. change (negb (SOFTBUS_OK =? SOFTBUS_OK)) with false. cbv iota.
  erewrite bind_eq; [|unfold SendOneFrameMiddle; rewrite (bind_eq _ _ _ _ _ (sends_get _ _ _ _ _ H4)); done]. change (negb (SOFTBUS_OK =? SOFTBUS_OK)) with false. cbv iota.
  erewrite bind_eq; [|unfold SendOneFrameRear; rewrite (bind_eq _ _ _ _ _ (sends_get _ _ _ _ _ H4)); exact (getPending_code _ _ _ _ _ E5)].
  change (negb (SOFTBUS_OK =? SOFTBUS_OK)) with false. cbv iota. by rewrite (bind_eq _ _ _ _ _ (sends_get _ _ _ _ _ H5)).
Qed.

Hypothesis num_frames : num = Z.of_nat (frames c) + 1.

Lemma frame_type k : (k < frames c)%nat ->
  FrameIndexToType (Z.of_nat k + 1) num <> TRANS_SESSION_FILE_FIRST_FRAME /\
  (FrameIndexToType (Z.of_nat k + 1) num = TRANS_SESSION_FILE_ONGOINE_FRAME <-> (S k < frames c)%nat).
Proof.
  intros Hk. pose proof (frames_small c c_size (frames c) ltac:(lia)). rewrite num_frames. unfold FrameIndexToType, FRAME_NUM_0, FRAME_NUM_1, FRAME_NUM_2.
  rewrite (wrapU_id 64) by range. destruct (Z.eqb_spec (Z.of_nat k + 1) 0); [lia|].
  destruct (Z.eqb_spec (Z.of_nat k + 1) 1), (Z.eqb_spec (Z.of_nat (frames c) + 1) 2); cbn [andb];
    try (split; [done|split; [done|lia]]); destruct (Z.eqb_spec (Z.of_nat k + 1) (Z.of_nat (frames c) + 1 - 1)); (split; [done|split; [done||lia|done||lia]]).
Qed.

(** What arrives while the frame with number [n] is sent. *)
Definition replies (g : Z) (n : nat) : list (list (Z * Z * FileFrame)) := [] :: (if asks c n then [[ackFrame g (Z.of_nat n - 31)]] else []).

(** The wait after a frame of the middle. *)
Lemma send_middle g k type i o w : (k < frames c)%nat -> (type = TRANS_SESSION_FILE_ONGOINE_FRAME <-> (S k < frames c)%nat) ->
  Sends (sentInfo (S k)) [] ((if asks c (S k) then [[ackFrame g (Z.of_nat (S k) - 31)]] else []) ++ i) o w ->
  exists s ps w', SendOneFrameMiddle realpath cl sid type w = Some (SOFTBUS_OK, w') /\
    Sends s ps i (o ++ map (fun m => MkMessage ch (fst m) (snd m)) (request c (S k))) w' /\
    (if asks c (S k) then s = setWait (Z.of_nat (S k)) 0 (sentInfo (S k)) /\ ps = [MkPending (u32 sid) (Z.of_nat (S k)) true (Some (Z.of_nat (S k) - 31, FILE_SEND_ACK_RESULT_SUCCESS))]
     else s = sentInfo (S k) /\ ps = []).
Proof.
  intros Hk Ht H. pose proof (frames_small c c_size (S k) ltac:(lia)) as Hsm. unfold request. destruct (asks c (S k)) eqn:Ea.
  - apply andb_true_iff in Ea as [Ea1%bool_decide_eq_true Ea2%bool_decide_eq_true].
    destruct (sends_create _ (u32 sid) (Z.of_nat (S k)) _ _ _ H) as (w1 & E1 & H1).
    destruct (sends_put _ (setWait (Z.of_nat (S k)) 0 (sentInfo (S k))) _ _ _ _ H1) as (w2 & E2 & H2).
    set (msg := MkMessage ch TRANS_SESSION_FILE_ACK_REQUEST_SENT (ackBytes (Z.of_nat (S k) - 31) (Z.of_nat (S k)))).
    assert (Sends (setWait (Z.of_nat (S k)) 0 (sentInfo (S k))) [MkPending (u32 sid) (Z.of_nat (S k)) false None] ([ackFrame g (Z.of_nat (S k) - 31)] :: i) (o ++ [msg]) (put_message msg w2)) as H3
      by (clear -H2; destruct H2 as (?&?&?&?&?&<-&?&?); done).
    pose proof (arrive_ack g (setWait (Z.of_nat (S k)) 0 (sentInfo (S k))) (Z.of_nat (S k) - 31) i (o ++ [msg]) (put_message msg w2)) as HA.
    cbn [waitSeq setWait] in HA. rewrite (wrapU_id 64) in HA by range. assert (32 <= S k)%nat as H32 by (pose proof (Nat.div_mod_eq (S k) 32); lia).
    destruct HA as (w4 & E4 & H4); [range|exact H3|]. eexists _, _, w4. split; [|by split].
    unfold SendOneFrameMiddle. rewrite (bind_eq _ _ _ _ _ (sends_get _ _ _ _ _ H)). cbn [sCrc sentInfo sSeq sSessionId]. change (negb (1 =? APP_INFO_FILE_FEATURES_SUPPORT)) with false.
    rewrite (proj2 Ht Ea2). change (TRANS_SESSION_FILE_ONGOINE_FRAME =? TRANS_SESSION_FILE_ONGOINE_FRAME) with true. cbv iota.
    assert (Z.of_nat (S k) mod FILE_SEND_ACK_INTERVAL = 0) as -> by (change FILE_SEND_ACK_INTERVAL with (Z.of_nat 32); rewrite <- Nat2Z.inj_mod; lia).
    change (negb (0 =? 0)) with false. cbv iota. rewrite (bind_eq _ _ _ _ _ E1). change (negb (SOFTBUS_OK =? SOFTBUS_OK)) with false. cbv iota.
    rewrite (bind_eq _ _ _ _ _ (sends_get _ _ _ _ _ H1)). cbn [sSeq sentInfo sChannelId]. rewrite (wrapS_id 32 (Z.of_nat (S k))) by (lia || range). rewrite (bind_eq _ _ _ _ _ E2).
    unfold sendRequest. unfold FILE_SEND_ACK_INTERVAL. rewrite (wrapU_id 32 (Z.of_nat (S k) - 32 + 1)) by range. replace (Z.of_nat (S k) - 32 + 1) with (Z.of_nat (S k) - 31) by lia.
    assert (answers w2 = []) as A2 by apply H2.
    erewrite bind_eq; [|rewrite (bind_eq _ _ _ _ _ (ackData_quiet ch _ _ _ w2 A2)); erewrite bind_eq; [|exact E4]; reflexivity]. done.
  - eexists _, _, w. rewrite app_nil_r. split; [|split; [exact H|done]]. unfold SendOneFrameMiddle. rewrite (bind_eq _ _ _ _ _ (sends_get _ _ _ _ _ H)).
    cbn [sCrc sentInfo sSeq]. change (negb (1 =? APP_INFO_FILE_FEATURES_SUPPORT)) with false. cbv iota. destruct (Z.eqb_spec type TRANS_SESSION_FILE_ONGOINE_FRAME) as [E|]; [|done].
    apply Ht in E. unfold asks in Ea. rewrite (bool_decide_eq_true_2 (S k < frames c)%nat), andb_true_r in Ea by done. apply bool_decide_eq_false in Ea.
    rewrite (proj2 (Z.eqb_neq _ 0)); [done|]. change FILE_SEND_ACK_INTERVAL with (Z.of_nat 32). rewrite <- Nat2Z.inj_mod. lia.
Qed.

(** A data frame, with what follows it. *)
Lemma send_data g k frame i o w : (k < frames c)%nat -> Sends (sentInfo (S k)) [] (replies g (S k) ++ i) o w ->
  exists w', SendOneFrame realpath cl sid (FrameIndexToType (Z.of_nat k + 1) num) frame w = Some (SOFTBUS_OK, w') /\
    Sends (sentInfo (S k)) [] i (o ++ MkMessage ch (FrameIndexToType (Z.of_nat k + 1) num) frame :: map (fun m => MkMessage ch (fst m) (snd m)) (request c (S k))) w'.
Proof.
  intros Hk H. destruct (frame_type k Hk) as [Hf Ht]. set (type := FrameIndexToType (Z.of_nat k + 1) num) in *. pose proof (frames_small c c_size (S k) ltac:(lia)) as Hsm.
  destruct (sends_stream _ _ _ _ _ frame type H) as (w1 & E1 & H1). destruct (arrive_nothing _ _ _ _ _ H1) as (w2 & E2 & H2).
  destruct (send_middle g k type _ _ _ Hk Ht H2) as (s3 & ps & w3 & E3 & H3 & Hs). rewrite <- app_assoc in H3. cbn [app] in H3.
  assert (exists w', SendOneFrameRear realpath cl sid type w3 = Some (SOFTBUS_OK, w') /\
    Sends (sentInfo (S k)) [] i (o ++ MkMessage ch type frame :: map (fun m => MkMessage ch (fst m) (snd m)) (request c (S k))) w') as (w4 & E4 & H4).
  { unfold SendOneFrameRear. rewrite (bind_eq _ _ _ _ _ (sends_get _ _ _ _ _ H3)). destruct (asks c (S k)) eqn:Ea; destruct Hs as [-> ->].
    - destruct (sends_take _ _ _ _ _ _ _ false H3) as (w4 & E4 & H4). destruct (sends_put _ (sentInfo (S k)) _ _ _ _ H4) as (w5 & E5 & H5). exists w5. split; [|done].
      cbn [sCrc setWait sentInfo sSessionId waitSeq]. change (negb (1 =? APP_INFO_FILE_FEATURES_SUPPORT)) with false. cbv iota.
      apply andb_true_iff in Ea as [_ Ea2%bool_decide_eq_true]. rewrite (proj2 Ht Ea2). change (TRANS_SESSION_FILE_ONGOINE_FRAME =? TRANS_SESSION_FILE_ONLYONE_FRAME) with false.
      change (TRANS_SESSION_FILE_ONGOINE_FRAME =? TRANS_SESSION_FILE_FIRST_FRAME) with false. cbv iota. rewrite (wrapU_id 32) by range. rewrite (proj2 (Z.eqb_neq _ 0)) by lia.
      rewrite (wrapU_id 64) by range. rewrite (bind_eq _ _ _ _ _ E4). change (SOFTBUS_ALREADY_TRIGGERED =? SOFTBUS_ALREADY_TRIGGERED) with true. cbn [orb].
      rewrite (bind_eq (AckResponseDataHandle _ _ _ _) _ w4 SOFTBUS_OK w4) by done. unfold waitOver. rewrite (bind_eq _ _ _ _ _ (sends_get _ _ _ _ _ H4)).
      change (setWait 0 0 (setWait (Z.of_nat (S k)) 0 (sentInfo (S k)))) with (sentInfo (S k)). by rewrite (bind_eq _ _ _ _ _ E5).
    - exists w3. split; [|done]. cbn [sCrc sentInfo waitSeq]. change (negb (1 =? APP_INFO_FILE_FEATURES_SUPPORT)) with false. cbv iota.
      destruct (type =? TRANS_SESSION_FILE_ONLYONE_FRAME); [done|]. by rewrite (proj2 (Z.eqb_neq _ _) Hf). }
  exists w4. split; [|done]. unfold SendOneFrame.
  erewrite bind_eq; [|unfold SendOneFrameFront; rewrite (bind_eq _ _ _ _ _ (sends_get _ _ _ _ _ H)); rewrite (proj2 (Z.eqb_neq _ _) Hf); done].
  change (negb (SOFTBUS_OK =? SOFTBUS_OK)) with false. cbv iota. rewrite (bind_eq _ _ _ _ _ (sends_get _ _ _ _ _ H)). cbn [sChannelId sentInfo].
  erewrite bind_eq; [|unfold sendStream; rewrite (bind_eq _ _ _ _ _ E1), (bind_eq _ _ _ _ _ E2); done]. change (negb (SOFTBUS_OK =? SOFTBUS_OK)) with false. cbv iota.
  rewrite (bind_eq _ _ _ _ _ E3). change (negb (SOFTBUS_OK =? SOFTBUS_OK)) with false. cbv iota. rewrite (bind_eq _ _ _ _ _ E4).
  change (negb (SOFTBUS_OK =? SOFTBUS_OK)) with false. cbv iota. by rewrite (bind_eq _ _ _ _ _ (sends_get _ _ _ _ _ H4)).
Qed.

(** ** A whole file *)

(** A piece is read, with its frame. *)
Lemma pack_data k i o w : (k < frames c)%nat -> Sends (sentInfo k) [] i o w ->
  exists w', PackReadFileData sid (Z.min (len c - 958 * Z.of_nat k) 958) (958 * Z.of_nat k) w =
    Some ((len (chunk c k), dataFrame (Z.of_nat k + 1) (chunk c k) (crc16 (chunk c k))), w') /\ Sends (sentInfo (S k)) [] i o w'.
Proof.
  intros Hk H. pose proof (proj1 (frames_spec c k) Hk) as Hl. pose proof (len_chunk c k) as Lc. pose proof (frames_small c c_size (S k) ltac:(lia)) as Hsm.
  pose proof (crc_sum_bound c c_bytes c_size (S k) ltac:(lia)) as Hsum. cbn [sumCrc] in Hsum.
  destruct (sends_put _ (sentInfo (S k)) _ _ _ _ H) as (w1 & E1 & H1). exists w1. split; [|done].
  unfold PackReadFileData. rewrite (bind_eq _ _ _ _ _ (sends_get _ _ _ _ _ H)). cbn [sCrc sentInfo sFd sSeq sCheckSum]. change (1 =? APP_INFO_FILE_FEATURES_SUPPORT) with true. cbv iota zeta.
  assert (SoftBusPreadFile fd (Z.min (len c - 958 * Z.of_nat k) 958) (958 * Z.of_nat k) w = Some ((len (chunk c k), chunk c k), w)) as ER.
  { destruct H as (Ha&_&_&_&_&_&Hfd&Hd). unfold SoftBusPreadFile, mbind, M_bind, ask. rewrite Ha. cbn [gets]. rewrite Hfd, Hd. cbn [default]. change (id c) with c.
    replace (take (Z.to_nat (Z.min (len c - 958 * Z.of_nat k) 958)) (drop (Z.to_nat (958 * Z.of_nat k)) c)) with (chunk c k).
    - unfold moved. change (0 =? 0) with true. cbv iota zeta. rewrite (proj2 (Z.ltb_ge _ 0)) by lia. unfold len. by rewrite Nat2Z.id, firstn_all.
    - unfold chunk. replace (Z.to_nat (958 * Z.of_nat k)) with (Z.to_nat CRC_DATA_SIZE * k)%nat by (change (Z.to_nat CRC_DATA_SIZE) with 958%nat; lia).
      destruct (Z.min_spec (len c - 958 * Z.of_nat k) 958) as [[? ->]|[? ->]]; [|done].
      rewrite !take_ge; [done|..]; rewrite length_drop; change (Z.to_nat CRC_DATA_SIZE) with 958%nat; unfold len in *; lia. }
  unfold readInto. change FRAME_HEAD_LEN with 12. change FRAME_DATA_SEQ_OFFSET with 4. rewrite (proj2 (Z.ltb_ge PROXY_MAX_PACKET_SIZE _)) by (unfold PROXY_MAX_PACKET_SIZE; lia).
  rewrite (bind_eq _ _ _ _ _ ER). cbv beta iota. rewrite (proj2 (Z.leb_gt _ 0)) by lia. change FRAME_CRC_LEN with 2. rewrite (wrapU_id 32) by range.
  rewrite (proj2 (Z.ltb_ge PROXY_MAX_PACKET_SIZE _)) by (unfold PROXY_MAX_PACKET_SIZE; lia).
  erewrite bind_eq; [|unfold lift; rewrite rtu_crc by (by apply chunk_bytes || done || range); done].
  rewrite (wrapU_id 32), (wrapU_id 64) by range.
  replace (setSent (Z.of_nat k + 1) (sumCrc c k + crc16 (chunk c k)) (sentInfo k)) with (sentInfo (S k)) by (unfold sentInfo, setSent; cbn [sumCrc]; f_equal; lia).
  by rewrite (bind_eq _ _ _ _ _ E1).
Qed.

Fixpoint streamFrom (k n : nat) : list (Z * bytes) := match n with O => [] | S n' => dataMessage c k :: request c (S k) ++ streamFrom (S k) n' end.
Fixpoint repliesFrom (g : Z) (k n : nat) : list (list (Z * Z * FileFrame)) := match n with O => [] | S n' => replies g (S k) ++ repliesFrom g (S k) n' end.

Definition onChannel (m : Z * bytes) : Message := MkMessage ch (fst m) (snd m).

Lemma send_loop g n : forall k name i o w, (k + n = frames c)%nat -> Sends (sentInfo k) [] (repliesFrom g k n ++ i) o w ->
  exists w', frameLoop realpath cl n sid num (Z.of_nat k + 1) (Z.min (958 * Z.of_nat k) (len c)) (len c - Z.min (958 * Z.of_nat k) (len c)) (len c) name w = Some (SOFTBUS_OK, w') /\
    Sends (sentInfo (frames c)) [] i (o ++ map onChannel (streamFrom k n)) w'.
Proof.
  induction n as [|n IH]; intros k name i o w Hn H.
  - replace (frames c) with k by lia. exists w. rewrite app_nil_r. done.
  - cbn [repliesFrom] in H. rewrite <- app_assoc in H. assert (k < frames c)%nat as Hk by lia. pose proof (proj1 (frames_spec c k) Hk) as Hl. pose proof (len_chunk c k) as Lc.
    destruct (pack_data k _ _ _ Hk H) as (w1 & E1 & H1). destruct (send_data g k (dataFrame (Z.of_nat k + 1) (chunk c k) (crc16 (chunk c k))) _ _ _ Hk H1) as (w2 & E2 & H2).
    assert (forall b e, exists w', call b e w2 = Some (tt, w') /\ Sends (sentInfo (S k)) [] (repliesFrom g (S k) n ++ i)
              ((o ++ [onChannel (dataMessage c k)]) ++ map onChannel (request c (S k))) w') as HC.
    { intros b e. rewrite <- app_assoc. unfold onChannel at 1, dataMessage. cbn [fst snd]. rewrite <- num_frames. destruct b; (eexists; split; [done|exact H2]). }
    cbn [frameLoop]. rewrite (bind_eq _ _ _ _ _ (sends_get _ _ _ _ _ H)). cbn [sCrc sentInfo sListener sChannelId]. rewrite (proj2 (Z.eqb_neq _ 0)) by lia.
    change (1 =? APP_INFO_FILE_FEATURES_SUPPORT) with true. cbv iota zeta. rewrite Z.min_l by lia.
    change (PROXY_MAX_PACKET_SIZE - FRAME_DATA_SEQ_OFFSET - (FRAME_HEAD_LEN + FRAME_CRC_LEN)) with 958.
    erewrite bind_eq; [|rewrite (bind_eq _ _ _ _ _ E1); cbv beta iota; rewrite (proj2 (Z.leb_gt _ 0)) by lia; done]. cbv beta iota.
    rewrite (bind_eq _ _ _ _ _ E2). change (negb (SOFTBUS_OK =? SOFTBUS_OK)) with false. cbv iota.
    destruct (HC (onSendFileProcess fl) (SendProgress ch (958 * Z.of_nat k + len (chunk c k)) (len c))) as (w3 & E3 & H3). rewrite (bind_eq _ _ _ _ _ E3).
    destruct (IH (S k) name i _ w3 ltac:(lia) H3) as (w4 & E4 & H4). exists w4. split.
    + rewrite <- E4. f_equal; lia.
    + cbn [streamFrom map]. rewrite map_app. by rewrite <- !app_assoc in H4.
Qed.

Lemma send_sum g i o w : Sends (sentInfo (frames c)) [] ([resultFrame g (Z.of_nat (frames c) + 1)] :: i) o w ->
  exists w', SendFileCrcCheckSum realpath cl sid w = Some (SOFTBUS_OK, w') /\
    Sends (sentInfo (frames c)) [] i (o ++ [MkMessage ch TRANS_SESSION_FILE_CRC_CHECK_FRAME (sumFrame (Z.of_nat (frames c) + 1) (sumCrc c (frames c)))]) w'.
Proof.
  intros H. pose proof (frames_small c c_size (frames c) ltac:(lia)) as Hsm. set (sq := Z.of_nat (frames c) + 1) in *.
  destruct (sends_create _ (u32 sid) sq _ _ _ H) as (w1 & E1 & H1).
  destruct (sends_stream _ _ _ _ _ (sumFrame sq (sumCrc c (frames c))) TRANS_SESSION_FILE_CRC_CHECK_FRAME H1) as (w2 & E2 & H2).
  destruct (arrive_result g (sentInfo (frames c)) sq _ _ _ ltac:(unfold sq; range) eq_refl H2) as (w3 & E3 & H3).
  destruct (sends_take _ _ _ _ _ _ _ true H3) as (w4 & E4 & H4). exists w4. split; [|done].
  unfold SendFileCrcCheckSum. rewrite (bind_eq _ _ _ _ _ (sends_get _ _ _ _ _ H)). cbn [sCrc sentInfo sSeq sSessionId sChannelId sCheckSum].
  change (negb (1 =? APP_INFO_FILE_FEATURES_SUPPORT)) with false. cbv iota. assert (answers w = []) as HA by apply H.
  rewrite (bind_eq _ _ _ _ _ (alloc_quiet _ w HA ltac:(done))). cbn [negb]. cbv zeta. rewrite (wrapU_id 32 (Z.of_nat (frames c) + 1)) by range. fold sq.
  rewrite (bind_eq _ _ _ _ _ E1). change (negb (SOFTBUS_OK =? SOFTBUS_OK)) with false. cbv iota.
  erewrite bind_eq; [|unfold sendStream; rewrite (bind_eq _ _ _ _ _ E2), (bind_eq _ _ _ _ _ E3); done]. change (negb (SOFTBUS_OK =? SOFTBUS_OK)) with false. cbv iota.
  by rewrite (bind_eq _ _ _ _ _ E4).
Qed.

(** Everything that is sent for a file, and everything that arrives. *)
Definition fileStream (name : text) : list (Z * bytes) :=
  (TRANS_SESSION_FILE_FIRST_FRAME, snd (PackFileTransStartInfo name (len c) (sentInfo 0))) :: streamFrom 0 (frames c) ++
  [(TRANS_SESSION_FILE_CRC_CHECK_FRAME, sumFrame (Z.of_nat (frames c) + 1) (sumCrc c (frames c)))].

Definition fileReplies (g : Z) : list (list (Z * Z * FileFrame)) :=
  [resultFrame g 0] :: repliesFrom g 0 (frames c) ++ [[resultFrame g (Z.of_nat (frames c) + 1)]].

Lemma pack_start name : 0 < len name < MAX_FILE_PATH_NAME_LEN -> fst (PackFileTransStartInfo name (len c) (sentInfo 0)) = SOFTBUS_OK.
Proof.
  intros Hl. unfold PackFileTransStartInfo, MAX_FILE_PATH_NAME_LEN, PROXY_MAX_PACKET_SIZE in *. cbn [sCrc sentInfo]. change (1 =? APP_INFO_FILE_FEATURES_SUPPORT) with true.
  change FRAME_HEAD_LEN with 12. change FRAME_DATA_SEQ_OFFSET with 4. cbv iota zeta. rewrite (wrapU_id 32) by range.
  by rewrite (proj2 (Z.ltb_ge 976 _)), (proj2 (Z.eqb_neq _ 0)) by lia.
Qed.

Lemma send_file g name i o w : 0 < len name < MAX_FILE_PATH_NAME_LEN -> Sends (sentInfo 0) [] (fileReplies g ++ i) o w ->
  exists w', FileToFrame realpath cl sid num name (len c) w = Some (SOFTBUS_OK, w') /\ Sends (sentInfo (frames c)) [] i (o ++ map onChannel (fileStream name)) w'.
Proof.
  intros Hl H. unfold fileReplies in H. cbn [app] in H. rewrite <- app_assoc in H. pose proof (pack_start name Hl) as Hp. unfold fileStream.
  destruct (PackFileTransStartInfo name (len c) (sentInfo 0)) as [e frame] eqn:EP. cbn [fst snd] in *. subst e.
  destruct (send_first g frame _ _ _ H) as (w1 & E1 & H1).
  assert (exists w', call (onSendFileProcess fl) (SendProgress ch (0 + 0) (len c)) w1 = Some (tt, w') /\ Sends (sentInfo 0) [] (repliesFrom g 0 (frames c) ++ [[resultFrame g (Z.of_nat (frames c) + 1)]] ++ i)
              (o ++ [MkMessage ch TRANS_SESSION_FILE_FIRST_FRAME frame]) w') as (w2 & E2 & H2) by (destruct (onSendFileProcess fl); (eexists; split; [done|exact H1])).
  destruct (send_loop g (frames c) 0 name _ _ _ eq_refl H2) as (w3 & E3 & H3). destruct (send_sum g _ _ _ H3) as (w4 & E4 & H4). exists w4. split.
  - unfold FileToFrame. assert (answers w = []) as HA by apply H. rewrite (bind_eq _ _ _ _ _ (alloc_quiet _ w HA ltac:(done))). cbn [negb].
    erewrite bind_eq; [|replace (Z.to_nat num) with (S (frames c)) by lia; cbn [frameLoop]; rewrite (bind_eq _ _ _ _ _ (sends_get _ _ _ _ _ H)); change (0 =? 0) with true; cbv iota zeta;
      rewrite EP; unfold mbind at 1, M_bind at 1, mret at 1, M_ret at 1; change (SOFTBUS_OK =? SOFTBUS_OK) with true; cbv iota;
      change (FrameIndexToType 0 num) with TRANS_SESSION_FILE_FIRST_FRAME; rewrite (bind_eq _ _ _ _ _ E1); change (negb (SOFTBUS_OK =? SOFTBUS_OK)) with false; cbv iota;
      cbn [sListener sentInfo sChannelId]; rewrite (bind_eq _ _ _ _ _ E2); pose proof (len_nonneg c);
      replace (Z.min (958 * Z.of_nat 0) (len c)) with (0 + 0) in E3 by lia; replace (len c - (0 + 0)) with (len c - 0) in E3 by lia; exact E3].
    change (negb (SOFTBUS_OK =? SOFTBUS_OK)) with false. cbv iota. by rewrite (bind_eq _ _ _ _ _ E4).
  - cbn [map]. rewrite map_app. by rewrite <- !app_assoc in H4.
Qed.

End Sender.


(** ** A call of the application *)

Section Channel.

Context (realpath : text -> option text) (cl : Client) (sid ch : Z) (fl : FileListener) (src source name : text) (c : bytes) (locks : gmap Z Z).
Context (c_bytes : is_bytes c) (c_size : len c <= MAX_FILE_SIZE).
Context (src_real : realpath source = Some src) (src_len : len src < MAX_FILE_PATH_NAME_LEN) (source_len : 0 < len source < MAX_FILE_PATH_NAME_LEN).
Context (name_ok : CheckDestFilePathValid (Some name) = true) (name_len : len name < MAX_FILE_PATH_NAME_LEN).

Definition idleInfo (fd : Z) : SendListenerInfo := MkSend ch sid fd 0 0 1 0 0 0 SOFTBUS_OK 0 fl.

(** Between files: [i] will arrive and [o] was sent. *)
Definition Calm (s : SendListenerInfo) (i : list (list (Z * Z * FileFrame))) (o : list Message) (w : World) : Prop :=
  answers w = [] /\ (pendingHeld w, fileLocks w) = (false, locks) /\ sends w !! sid = Some s /\ pending w = [] /\ inbox w = i /\ out w = o.

Lemma calm_get s i o w : Calm s i o w -> getSend sid w = Some (s, w).
Proof. intros (_&_&H&_). unfold getSend, mbind, M_bind. cbn [gets]. by rewrite H. Qed.

Lemma name_long : 0 < len name.
Proof. revert name_ok. unfold CheckDestFilePathValid. pose proof (len_nonneg name). destruct (Z.eqb_spec (len name) 0); [done|lia]. Qed.

Lemma size_frames : len c `div` 958 + (if len c mod 958 =? 0 then 0 else 1) + 1 = Z.of_nat (frames c) + 1.
Proof.
  unfold frames. change CRC_DATA_SIZE with 958. pose proof (len_nonneg c). rewrite Z2Nat.id by (apply Z.div_pos; lia).
  destruct (Z.eqb_spec (len c mod 958) 0); Z.to_euclidean_division_equations; lia.
Qed.

Notation stream := (fileStream sid ch 0 0 fl c name).

Lemma stream_eq fd num : fileStream sid ch fd num fl c name = stream.
Proof. done. Qed.

(** The descriptor is closed, and the transfer is as at the start. *)
Lemma clear_quiet fd s w : answers w = [] -> sends w !! sid = Some s -> sFd s = fd -> 0 <= fd ->
  ClearSendInfo sid w = Some (tt, setSends (<[sid := MkSend (sChannelId s) (sSessionId s) INVALID_FD 0 0 (sCrc s) 0 0 0 SOFTBUS_OK 0 (sListener s)]> (sends w))
                                   (setFds (delete fd (fds w)) (nextFd w) w)).
Proof.
  intros HA Hs Hf H0. unfold ClearSendInfo. erewrite bind_eq; [|unfold getSend, mbind, M_bind; cbn [gets]; rewrite Hs; reflexivity]. rewrite Hf.
  rewrite (proj2 (Z.eqb_neq fd INVALID_FD)) by (unfold INVALID_FD; lia). cbn [negb]. erewrite bind_eq; last first.
  { erewrite bind_eq; [|unfold unlockFile; rewrite (bind_eq _ _ _ _ _ (ok_quiet w HA)); reflexivity]. unfold SoftBusCloseFile. rewrite (proj2 (Z.leb_gt fd (-1))) by lia. reflexivity. }
  reflexivity.
Qed.

Lemma send_single g i o w : Calm (idleInfo 0) (fileReplies sid ch c g ++ i) o w -> disk w !! src = Some c -> 0 <= nextFd w ->
  exists w', SendSingleFile realpath cl sid (Some source) (Some name) w = Some (SOFTBUS_OK, w') /\ Calm (idleInfo INVALID_FD) i (o ++ map (onChannel ch) stream) w'.
Proof.
  intros (H1&H2&H3&H4&H5&H6) Hd Hfd. unfold MAX_FILE_PATH_NAME_LEN, MAX_FILE_SIZE in *. pose proof name_long as Hn. set (num := Z.of_nat (frames c) + 1). set (fd := nextFd w).
  set (w1 := setFds (<[fd := src]> (fds w)) (fd + 1) (setDisk (<[src := default [] (disk w !! src)]> (disk w)) w)).
  set (w2 := setSends (<[sid := sentInfo sid ch fd num fl c 0]> (sends w1)) w1).
  assert (Sends sid fd src locks c (sentInfo sid ch fd num fl c 0) [] (fileReplies sid ch c g ++ i) o w2) as HS.
  { split_and!; try done; cbn; try apply lookup_insert_eq. rewrite Hd. apply lookup_insert_eq. }
  destruct (send_file realpath cl sid ch fd num fl src locks c c_bytes c_size eq_refl g name i o w2 (conj Hn name_len) HS) as (w3 & E3 & HS3). rewrite stream_eq in HS3.
  pose proof HS3 as (A3&P3&S3&Q3&I3&O3&F3&D3).
  exists (setSends (<[sid := idleInfo INVALID_FD]> (sends w3)) (setFds (delete fd (fds w3)) (nextFd w3) w3)). split.
  - unfold SendSingleFile. erewrite bind_eq.
    + erewrite bind_eq; [|exact (clear_quiet fd _ w3 A3 S3 eq_refl Hfd)]. reflexivity.
    + unfold FileToFrameAndSendFile. rewrite name_ok. cbn [negb]. rewrite (bind_eq _ _ _ _ _ (alloc_quiet (PATH_MAX + 1) w H1 ltac:(done))). cbn [negb]. unfold GetAndCheckRealPath. rewrite src_real.
      unfold MAX_FILE_PATH_NAME_LEN. rewrite (proj2 (Z.ltb_ge _ (len src))) by lia. change (negb (SOFTBUS_OK =? SOFTBUS_OK)) with false. cbv iota zeta. cbn [default]. change (id src) with src.
      assert (getSend sid w = Some (idleInfo 0, w)) as EG by (unfold getSend, mbind, M_bind; cbn [gets]; by rewrite H3). rewrite (bind_eq _ _ _ _ _ EG). cbn [sCrc idleInfo].
      assert (GetAndCheckFileSize src 1 w = Some ((SOFTBUS_OK, (len c, num)), w)) as ES.
      { unfold GetAndCheckFileSize, SoftBusGetFileSize. unfold mbind at 1, M_bind at 1. rewrite (bind_eq _ _ _ _ _ (ok_quiet w H1)). unfold mbind at 1, M_bind at 1. cbn [gets]. rewrite Hd.
        cbn [fmap option_fmap option_map]. unfold mret, M_ret, MAX_FILE_SIZE. rewrite (proj2 (Z.ltb_ge 5242880 _)) by lia. change (1 =? APP_INFO_FILE_FEATURES_SUPPORT) with true. cbv iota zeta.
        change (PROXY_MAX_PACKET_SIZE - FRAME_DATA_SEQ_OFFSET - (FRAME_HEAD_LEN + FRAME_CRC_LEN)) with 958. by rewrite size_frames. }
      rewrite (bind_eq _ _ _ _ _ ES). cbv beta iota. change (negb (SOFTBUS_OK =? SOFTBUS_OK)) with false. cbv iota.
      assert (SoftBusOpenFile src w = Some (fd, w1)) as EO.
      { unfold SoftBusOpenFile, openFile. rewrite (bind_eq _ _ _ _ _ (ok_quiet w H1)). unfold mbind at 1, M_bind at 1. cbn [gets]. rewrite (bool_decide_eq_true_2 (is_Some (disk w !! src))) by (rewrite Hd; by eexists).
        cbn [negb andb orb]. done. }
      rewrite (bind_eq _ _ _ _ _ EO). rewrite (proj2 (Z.ltb_ge _ 0)) by done. assert (answers w1 = []) as A1 by done.
      assert (tryLock fd w1 = Some (SOFTBUS_OK, w1)) as ET.
      { unfold tryLock. rewrite !(bind_eq _ _ _ _ _ (ok_quiet w1 A1)). cbn [TryFileLock]. unfold FileLock. by rewrite (proj2 (Z.ltb_ge fd 0)) by done. }
      rewrite (bind_eq _ _ _ _ _ ET). change (negb (SOFTBUS_OK =? SOFTBUS_OK)) with false. cbv iota.
      assert (getSend sid w1 = Some (idleInfo 0, w1)) as EG1 by (unfold getSend, mbind, M_bind; cbn [gets]; change (sends w1) with (sends w); by rewrite H3). rewrite (bind_eq _ _ _ _ _ EG1).
      rewrite (bind_eq _ _ w1 tt w2) by done. exact E3.
  - split_and!; try done. cbn. apply lookup_insert_eq.
Qed.

(** The list of files that is sent last. *)
Definition listMessage : Z * bytes := (TRANS_SESSION_FILE_ALLFILE_SENT, itemBytes 0 [name]).

Lemma send_start g o w : Calm (idleInfo 0) (fileReplies sid ch c g) o w -> disk w !! src = Some c -> 0 <= nextFd w ->
  exists w' s, ProxyStartSendFile realpath cl sid [Some source] [Some name] w = Some (SOFTBUS_OK, w') /\ Calm s [] (o ++ map (onChannel ch) (stream ++ [listMessage])) w'.
Proof.
  intros HC Hd Hfd. rewrite <- (app_nil_r (fileReplies sid ch c g)) in HC. destruct (send_single g [] o w HC Hd Hfd) as (w1 & E1 & H1). pose proof name_long as Hn.
  unfold MAX_FILE_PATH_NAME_LEN in *. set (msg := onChannel ch listMessage).
  assert (SendFileList realpath cl ch [name] w1 = Some (SOFTBUS_OK, put_message msg w1)) as EL.
  { pose proof H1 as (A1&_&_&_&I1&_). unfold SendFileList. rewrite (bind_eq _ _ _ _ _ (ok_quiet w1 A1)).
    erewrite bind_eq; [|unfold lift; rewrite toBuffer_spec; [reflexivity|done|constructor; [unfold nameOk, MAX_FILE_PATH_NAME_LEN; lia|constructor]|done]]. cbv beta iota.
    change (negb (SOFTBUS_OK =? SOFTBUS_OK)) with false. cbv iota. erewrite bind_eq; [|unfold lift; rewrite get_all; reflexivity].
    unfold sendStream. rewrite (bind_eq _ _ _ _ _ (stream_quiet ch _ _ w1 A1)). fold msg.
    change (MkMessage ch TRANS_SESSION_FILE_ALLFILE_SENT (itemBytes 0 [name])) with msg.
    erewrite (bind_eq (arrive _ _)); [|unfold arrive, mbind, M_bind; cbn [gets]; change (inbox (put_message msg w1)) with (inbox w1); rewrite I1; reflexivity]. done. }
  assert (Calm (idleInfo INVALID_FD) [] ((o ++ map (onChannel ch) stream) ++ [msg]) (put_message msg w1)) as H2 by (destruct H1 as (?&?&?&?&?&<-); done).
  assert (forall b e, exists w', call b e (put_message msg w1) = Some (tt, w') /\ Calm (idleInfo INVALID_FD) [] ((o ++ map (onChannel ch) stream) ++ [msg]) w') as HE
    by (intros b e; destruct b; (eexists; split; [done|exact H2])).
  destruct (HE (onSendFileFinished fl) (SendDone sid name)) as (w3 & E3 & H3). exists w3, (idleInfo INVALID_FD). split.
  - unfold ProxyStartSendFile. cbn [zip zip_with sendLoop]. erewrite bind_eq; [|rewrite (bind_eq _ _ _ _ _ E1); reflexivity]. change (negb (SOFTBUS_OK =? SOFTBUS_OK)) with false. cbv iota.
    rewrite (bind_eq _ _ _ _ _ (calm_get _ _ _ _ H1)). erewrite bind_eq; [|reflexivity]. cbn [sChannelId idleInfo]. rewrite (bind_eq _ _ _ _ _ EL).
    change (negb (SOFTBUS_OK =? SOFTBUS_OK)) with false. cbv iota. rewrite (bind_eq _ _ _ _ _ (calm_get _ _ _ _ H2)). cbn [sResult idleInfo sListener sSessionId].
    change (negb (SOFTBUS_OK =? SOFTBUS_OK)) with false. cbv iota. cbn [head default]. rewrite (bind_eq _ _ _ _ _ E3). done.
  - rewrite map_app. rewrite app_assoc. exact H3.
Qed.

(** The whole call. *)
Lemma send_call g nm w : answers w = [] -> pendingHeld w = false -> pending w = [] -> sends w !! sid = None -> inbox w = fileReplies sid ch c g -> disk w !! src = Some c ->
  0 <= nextFd w -> sessionOf cl ch = Some sid -> nameOf cl sid = Some nm -> configOf cl sid = Some 1 -> listenerOf cl nm = Some fl -> fileLocks w !! ch = None ->
  locks = <[ch := 1]> (fileLocks w) ->
  exists w', ProxyChannelSendFile realpath cl ch (Some [Some source]) (Some [Some name]) 1 w = Some (SOFTBUS_OK, w') /\
    out w' = out w ++ map (onChannel ch) (stream ++ [listMessage]).
Proof.
  intros H1 H2 H3 H4 H5 H6 H7 H8 H9 H10 H11 H12 H13. pose proof name_long as Hn. unfold MAX_FILE_PATH_NAME_LEN in *.
  set (w1 := setLocks (<[ch := 1]> (fileLocks w)) w). set (w2 := setSends (<[sid := idleInfo 0]> (sends w1)) w1).
  assert (Calm (idleInfo 0) (fileReplies sid ch c g) (out w) w2) as HC by (split_and!; try done; cbn; [by rewrite H2, H13 | apply lookup_insert_eq]).
  destruct (send_start g (out w) w2 HC H6 H7) as (w3 & s3 & E3 & HC3). pose proof HC3 as (A3&[= _ L3]&_&_&_&O3).
  set (w4 := setSends (delete sid (sends w3)) w3).
  assert (sendLocked realpath cl ch [Some source] [Some name] w1 = Some (SOFTBUS_OK, w4)) as ES.
  { unfold sendLocked. erewrite bind_eq; last first.
    { unfold CreateSendListenerInfo. assert (answers w1 = []) as A1 by done. rewrite (bind_eq _ _ _ _ _ (ok_quiet w1 A1)). cbn [negb]. unfold GetSendListenerInfoByChannelId.
      rewrite H8. cbn [mbind option_bind]. rewrite H9. cbn [mbind option_bind]. rewrite H10. cbn [mbind option_bind]. rewrite H11. cbn [mbind option_bind].
      erewrite bind_eq; [reflexivity|]. unfold AddSendListenerInfo. rewrite (bind_eq _ _ _ _ _ (ok_quiet w1 A1)). cbn [negb]. unfold mbind at 1, M_bind at 1. cbn [gets sSessionId].
      change (sends w1) with (sends w). rewrite bool_decide_eq_false_2 by (rewrite H4; by intros [? [=]]). rewrite (bind_eq _ _ w1 tt w2) by done. reflexivity. }
    cbv beta iota. change (SOFTBUS_OK =? SOFTBUS_OK) with true. cbv iota. cbn [sSessionId]. rewrite (bind_eq _ _ _ _ _ E3). change (negb (SOFTBUS_OK =? SOFTBUS_OK)) with false. cbv iota.
    rewrite (bind_eq (mret tt) _ w3 tt w3) by done. unfold ReleaseSendListenerInfo, DelSendListenerInfo.
    erewrite bind_eq; [|rewrite (bind_eq _ _ _ _ _ (ok_quiet w3 A3)); reflexivity]. reflexivity. }
  exists (setLocks (delete ch (fileLocks w4)) w4). split; [|exact O3].
  unfold ProxyChannelSendFile. change ((1 =? 0) || (MAX_SEND_FILE_NUM <? 1)) with false. change (Z.to_nat 1) with 1%nat. cbv iota zeta. cbn [take].
  assert (forall t : text, 0 < len t < 512 -> IsValidFileString [Some t] MAX_FILE_PATH_NAME_LEN = true) as HV.
  { intros t Ht. unfold IsValidFileString, MAX_FILE_PATH_NAME_LEN. rewrite bool_decide_eq_false_2 by done. cbn [forallb negb andb].
    by rewrite (proj2 (Z.eqb_neq _ 0)), (proj2 (Z.leb_gt 512 _)) by lia. }
  rewrite !HV by lia. cbn [negb orb].
  assert (GetSessionFileLock ch w = Some (true, w1)) as EG.
  { unfold GetSessionFileLock. rewrite (bind_eq _ _ _ _ _ (ok_quiet w H1)). cbn [negb]. unfold mbind at 1, M_bind at 1. cbn [gets]. rewrite H12.
    do 2 (rewrite (bind_eq _ _ _ _ _ (ok_quiet w H1)); cbn [negb]). done. }
  rewrite (bind_eq _ _ _ _ _ EG). cbn [negb]. assert (answers w1 = []) as A1 by done. rewrite (bind_eq _ _ _ _ _ (ok_quiet w1 A1)). cbn [negb]. rewrite (bind_eq _ _ _ _ _ ES).
  assert (answers w4 = []) as A4 by done. erewrite bind_eq; [reflexivity|]. unfold DelSessionFileLock. rewrite (bind_eq _ _ _ _ _ (ok_quiet w4 A4)). cbn [negb].
  unfold mbind at 1, M_bind at 1. cbn [gets]. erewrite bind_eq; [|unfold lift; change (fileLocks w4) with (fileLocks w3); rewrite L3, H13, lookup_insert_eq; reflexivity]. reflexivity.
Qed.

End Channel.

(** ** Both sides *)

Lemma len_ackBytes st v : len (ackBytes st v) = 20.
Proof. unfold ackBytes. autorewrite with lens. by rewrite !len_leBytes. Qed.

Lemma len_resultBytes sq side res : len (resultBytes sq side res) = 24.
Proof. unfold resultBytes. autorewrite with lens. by rewrite !len_leBytes. Qed.

(** A message of the other side as it arrives. *)
Definition arriving (sid ch garbage : Z) (m : Message) : Z * Z * FileFrame := (sid, ch, MkFrame (mType m) (len (mBytes m)) garbage (Some (mBytes m))).

Section Both.

Context (c : bytes) (c_bytes : is_bytes c) (c_size : len c <= MAX_FILE_SIZE).

Lemma streamFrom_data n : forall k, dataStream c k ++ streamFrom c k n = dataStream c (k + n).
Proof.
  induction n as [|n IH]; intros k; [by rewrite app_nil_r, Nat.add_0_r|]. cbn [streamFrom]. replace (k + S n)%nat with (S k + n)%nat by lia.
  rewrite <- IH. cbn [dataStream]. by rewrite <- app_assoc.
Qed.

Lemma replies_arrive sid ch ch' g n : forall k,
  map (arriving sid ch g) (dataAnswers ch' c k) ++ concat (repliesFrom sid ch c g k n) = map (arriving sid ch g) (dataAnswers ch' c (k + n)).
Proof.
  induction n as [|n IH]; intros k; [by rewrite app_nil_r, Nat.add_0_r|]. replace (k + S n)%nat with (S k + n)%nat by lia. rewrite <- IH. cbn [repliesFrom dataAnswers].
  rewrite map_app, concat_app, <- app_assoc. f_equal. f_equal. unfold replies, answer. destruct (asks c (S k)); [|done]. cbn [concat app map]. unfold arriving, ackFrame. cbn [mType mBytes].
  by rewrite len_ackBytes.
Qed.

Definition fileAnswers (ch : Z) : list Message :=
  MkMessage ch TRANS_SESSION_FILE_RESULT_FRAME (resultBytes 0 IS_RECV_RESULT SOFTBUS_OK) :: dataAnswers ch c (frames c) ++
  [MkMessage ch TRANS_SESSION_FILE_RESULT_FRAME (resultBytes (Z.of_nat (frames c) + 1) IS_RECV_RESULT SOFTBUS_OK)].

Lemma fileReplies_arrive sid ch ch' g : concat (fileReplies sid ch c g) = map (arriving sid ch g) (fileAnswers ch').
Proof.
  unfold fileReplies, fileAnswers. cbn [concat map]. rewrite map_app, concat_app. pose proof (replies_arrive sid ch ch' g (frames c) 0) as ER. cbn [dataAnswers map app Nat.add] in ER. rewrite ER. cbn [concat app map].
  assert (forall sq, arriving sid ch g (MkMessage ch' TRANS_SESSION_FILE_RESULT_FRAME (resultBytes sq IS_RECV_RESULT SOFTBUS_OK)) = resultFrame sid ch g sq) as E.
  { intros sq. unfold arriving, resultFrame. cbn [mType mBytes]. by rewrite len_resultBytes. }
  by rewrite !E.
Qed.

(** What the receiver needs: the application registered a directory, the name
    is acceptable, no transfer is running, and the system succeeds. *)
Record ReceiverReady (realpath : text -> option text) (cl : Client) (sid : Z) (root name abs : text) (w : World) : Prop := {
  rr_answers : answers w = [];
  rr_none : recvList w = [];
  rr_fd : 0 <= nextFd w;
  rr_crc : configOf cl sid = Some 1;
  rr_listener : exists nm fl, nameOf cl sid = Some nm /\ listenerOf cl nm = Some fl /\ rootDir fl = root;
  rr_path : Acceptable realpath root name abs }.

Lemma deliver_file realpath cl sid ch root name abs info g w : ReceiverReady realpath cl sid root name abs w -> sCrc info = 1 ->
  exists codes w', deliver realpath cl sid ch g ((TRANS_SESSION_FILE_FIRST_FRAME, snd (PackFileTransStartInfo name (len c) info)) :: streamFrom c 0 (frames c) ++
      [(TRANS_SESSION_FILE_CRC_CHECK_FRAME, sumFrame (Z.of_nat (frames c) + 1) (sumCrc c (frames c)))]) w = Some (codes, w') /\
    deliver realpath cl sid ch g [listMessage name] w' = Some ([SOFTBUS_NOT_FIND], w') /\
    allOk codes /\ out w' = out w ++ fileAnswers ch /\ disk w' !! recvPath abs root name = Some c.
Proof.
  intros [R1 R2 R3 R4 (nm & fl & R5 & R6 & <-) R8] Hi.
  destruct (deliver_start realpath cl sid ch c g name info abs nm fl w R1 R2 R3 R5 R4 R6 Hi c_size R8) as (r0 & w0 & E0 & O0 & HR0).
  set (path := recvPath abs (rootDir fl) name) in *.
  assert (cstr (nextFd w, arrayOf path).2 = Some path) as Hp by (apply cstr_array; apply R8).
  destruct (deliver_stream realpath cl sid ch (nextRec w) (nextFd w, arrayOf path) path c c_bytes c_size Hp g (frames c) r0 _ w0 ltac:(lia) HR0 O0)
    as (codes & r1 & d & w1 & E1 & C1 & O1 & HR1 & A1).
  destruct (deliver_check realpath cl sid ch (nextRec w) (nextFd w, arrayOf path) path c c_bytes c_size _ _ _ _ _ g HR1 O1) as (r2 & w2 & E2 & O2 & St & _).
  exists (SOFTBUS_OK :: codes ++ [SOFTBUS_OK]), w2. split; [|split].
  - cbn [deliver]. rewrite (bind_eq _ _ _ _ _ (E0 : ProcessFileFrameData _ _ _ _ _ _ _ _ _ = _)).
    pose proof (streamFrom_data (frames c) 0) as ES. cbn [dataStream app Nat.add] in ES. rewrite ES.
    rewrite (bind_eq _ _ _ _ _ (deliver_streams _ _ _ _ _ _ _ _ _ _ _ _ E1 (deliver_frame _ _ _ _ _ _ _ _ _ _ E2))). done.
  - apply deliver_frame. apply (deliver_list realpath cl sid ch (nextRec w) (nextFd w, arrayOf path) path r2 d _ w2 g _ O2 St).
    pose proof (ac_length _ _ _ _ R8) as Hn. unfold itemBytes. autorewrite with lens.
    unfold MAX_FILE_PATH_NAME_LEN, PROXY_MAX_PACKET_SIZE in *. lia.
  - split; [constructor; [done|apply Forall_app; split; [done|by constructor]]|]. destruct O2 as (_&_&_&_&Hd&Ho). split.
    + rewrite Ho. unfold fileAnswers. by rewrite <- !app_assoc.
    + rewrite Hd. f_equal. by apply (agree_all c d (frames c)).
Qed.

(** What the sender needs: the file is there, the application registered for
    transfers with checksums, no transfer of the session is running, and the
    system succeeds. *)
Record SenderReady (realpath : text -> option text) (cl : Client) (sid ch : Z) (source src name : text) (w : World) : Prop := {
  sr_answers : answers w = [];
  sr_open : pendingHeld w = false;
  sr_pending : pending w = [];
  sr_none : sends w !! sid = None;
  sr_lock : fileLocks w !! ch = None;
  sr_fd : 0 <= nextFd w;
  sr_session : sessionOf cl ch = Some sid;
  sr_crc : configOf cl sid = Some 1;
  sr_listener : exists nm fl, nameOf cl sid = Some nm /\ listenerOf cl nm = Some fl;
  sr_real : realpath source = Some src;
  sr_srclen : len src < MAX_FILE_PATH_NAME_LEN;
  sr_source : 0 < len source < MAX_FILE_PATH_NAME_LEN;
  sr_name : CheckDestFilePathValid (Some name) = true;
  sr_namelen : len name < MAX_FILE_PATH_NAME_LEN;
  sr_file : disk w !! src = Some c }.

(** C4: A file of any size up to 5 MB is delivered when both sides use
    checksums.  The application of the sender calls [ProxyChannelSendFile] with
    one file of content [c], the receiver has no transfer running, and the
    system succeeds on both sides.  Then there is an order of arrival of the
    answers ([batches]: what arrives during each call that sends) in which the
    call returns SOFTBUS_OK.  Handing all it sent to the receiver one message
    after the other, every handler returns SOFTBUS_OK but that of the last
    message, the list of files, which the receiver refuses with
    SOFTBUS_NOT_FIND and which changes nothing (the application is not told,
    [list_not_found]); the answers of the receiver are exactly the messages
    that arrived at the sender; and the file of the receiver, below the
    directory of its application, has the content [c].  The number of windows
    that are asked for and answered grows with the file; there is no bound but
    that on the size.  Without checksums the first frame already fails
    ([plain_start_read]). *)
Theorem proxy_transfer_delivers realS clS sidS chS source src ws realR clR sidR chR root abs wr name g :
  SenderReady realS clS sidS chS source src name ws -> ReceiverReady realR clR sidR root name abs wr ->
  exists batches sent list ws' answered codes wr',
    ProxyChannelSendFile realS clS chS (Some [Some source]) (Some [Some name]) 1 (setInbox batches ws) = Some (SOFTBUS_OK, ws') /\
    out ws' = out ws ++ sent ++ [list] /\
    deliver realR clR sidR chR g (map (fun m => (mType m, mBytes m)) (sent ++ [list])) wr = Some (codes ++ [SOFTBUS_NOT_FIND], wr') /\ allOk codes /\
    out wr' = out wr ++ answered /\ concat batches = map (arriving sidS chS g) answered /\
    disk wr' !! recvPath abs root name = Some c.
Proof.
  intros [S1 S2 S3 S4 S5 S6 S7 S8 (nm & fl & S9 & S10) S11 S12 S13 S14 S15 S16] HR. set (batches := fileReplies sidS chS c g).
  destruct (send_call realS clS sidS chS fl src source name c (<[chS := 1]> (fileLocks ws)) c_bytes c_size S11 S12 S13 S14 S15 g nm (setInbox batches ws)) as (ws' & E & Ho); try done.
  destruct (deliver_file realR clR sidR chR root name abs (sentInfo sidS chS 0 0 fl c 0) g wr HR eq_refl) as (codes & wr' & E' & EL & C & Ho' & Hd).
  exists batches, (map (onChannel chS) (fileStream sidS chS 0 0 fl c name)), (onChannel chS (listMessage name)), ws', (fileAnswers chR), codes, wr'. split_and!; try done.
  - by rewrite Ho, map_app.
  - rewrite map_app. eapply deliver_streams; [|exact EL].
    rewrite map_map. unfold onChannel. cbn [mType mBytes]. rewrite (map_ext _ id), map_id by (by intros []). exact E'.
  - apply fileReplies_arrive.
Qed.

End Both.

(** ** A concrete transfer *)

Lemma proxy_transfer_delivers_witness : exists batches sent list ws' answered codes wr',
  ProxyChannelSendFile exReal exClient 9 (Some [Some [47; 115]]) (Some [Some [102]]) 1 (setInbox batches (exWorld {[ [47; 115] := replicate 1000 7 ]})) = Some (SOFTBUS_OK, ws') /\
  out ws' = sent ++ [list] /\
  deliver exReal exClient 7 4 0 (map (fun m => (mType m, mBytes m)) (sent ++ [list])) (exWorld ∅) = Some (codes ++ [SOFTBUS_NOT_FIND], wr') /\
  allOk codes /\
  out wr' = answered /\ concat batches = map (arriving 7 9 0) answered /\ disk wr' !! [47; 114; 47; 47; 102] = Some (replicate 1000 7).
Proof.
  apply (proxy_transfer_delivers (replicate 1000 7) ltac:(by apply Forall_replicate) ltac:(done) exReal exClient 7 9 [47; 115] [47; 115] (exWorld {[ [47; 115] := replicate 1000 7 ]})
    exReal exClient 7 4 [47; 114] [47; 114; 47] (exWorld ∅) [102] 0).
  - constructor; first [done | by eexists _, _ | apply lookup_singleton_eq].
  - constructor; first [done | by eexists _, _ | constructor; first [done | vm_compute; repeat constructor; lia]].
Defined.

End ProxyDeliver.
