(* ===== verification/ProxyDefects.v ===== *)
(** * What goes wrong in file transfer over proxy channels

    Runs of [ProxyFile] and [ProxySend] on concrete inputs, each for a place
    where the code does not do what it means to. *)

From S2P Require Import Prelude Errno Bytes Adapter ProxyCommon ProxyFile ProxySend ProxyTransfer.
Import Errno Bytes.
Import ProxyCommon.ProxyCommon.
Import ProxyFile.ProxyFile.
Import ProxySend.ProxySend.
Import ProxyTransfer.ProxyTransfer.

Module ProxyDefects.

(** Frames handled one after the other, with the codes. *)
Fixpoint handle (l : list FileFrame) : P (list Z) :=
  match l with [] => mret [] | f :: rest => code ← exProcess f; codes ← handle rest; mret (code :: codes) end.

Definition startOf (c : bytes) : FileFrame := startFrame c 0 [102] exInfo.
Definition dataOf (c : bytes) (type : Z) (j : nat) : FileFrame := fileFrame type 0 c j.
Definition requestOf (start : Z) : FileFrame := MkFrame TRANS_SESSION_FILE_ACK_REQUEST_SENT 20 0 (Some (ackBytes start (start + 31))).
Definition exPath : text := [47; 114; 47; 47; 102].

(** A file of three frames; the second one ends with its own checksum, so its
    checksum is 0. *)
Definition zeroPiece : bytes := let p := replicate 956 7 in p ++ leBytes 2 (crc16 p).
Definition zeroFile : bytes := replicate 958 1 ++ zeroPiece ++ [2].

(** The frame with checksum 0 is lost, and the receiver accepts the sum with
    zeros in place of the frame. *)
Lemma lost_frame_accepted :
  crc16 (chunk zeroFile 1) = 0 /\
  (let r := handle [startOf zeroFile; dataOf zeroFile TRANS_SESSION_FILE_ONGOINE_FRAME 0; dataOf zeroFile TRANS_SESSION_FILE_LAST_FRAME 2; checkFrame zeroFile 0] in
   fst <$> r (exWorld ∅) = Some [SOFTBUS_OK; SOFTBUS_OK; SOFTBUS_OK; SOFTBUS_OK] /\
   disk (after r (exWorld ∅)) !! exPath = Some (replicate 958 1 ++ replicate 958 0 ++ [2])).
Proof. split; [by vm_compute|]. split; by vm_compute. Qed.

(** A transfer in pieces of one byte, 3 each; the receiver takes the length of
    the pieces from the first frame. *)
Definition tinyStart : FileFrame :=
  let d := leBytes 4 FILE_MAGIC_NUMBER ++ leBytes 8 13 ++ leBytes 4 1 ++ leBytes 8 34 ++ [102] ++ replicate 8 0 in
  MkFrame TRANS_SESSION_FILE_FIRST_FRAME (len d) 0 (Some d).
Definition tinyData (type : Z) (j : nat) : FileFrame :=
  let d := dataFrame (Z.of_nat j + 1) [3] (crc16 [3]) in MkFrame type (len d) 0 (Some d).
Definition tinySome (js : list nat) : list FileFrame := map (tinyData TRANS_SESSION_FILE_ONGOINE_FRAME) js.
Definition tinySum (n : Z) : FileFrame := let d := sumFrame (n + 1) (n * crc16 [3]) in MkFrame TRANS_SESSION_FILE_CRC_CHECK_FRAME (len d) 0 (Some d).

(** The tenth frame of the first window is lost, the receiver reports it and
    writes it when it comes again; the file is complete, but the sum lacks the
    checksum of that frame, and the transfer is refused. *)
Lemma repeated_frame_refused :
  let before := [tinyStart] ++ tinySome (List.seq 0 9 ++ List.seq 10 22) ++ [requestOf 1] in
  let l := before ++ tinySome [9%nat; 32%nat] ++ [tinyData TRANS_SESSION_FILE_LAST_FRAME 33] in
  last (out (after (handle before) (exWorld ∅))) =
    Some (MkMessage 4 TRANS_SESSION_FILE_ACK_RESPONSE_SENT (ackBytes 1 (FILE_SEND_ACK_RESULT_SUCCESS - 512))) /\
  disk (after (handle l) (exWorld ∅)) !! exPath = Some (replicate 34 3) /\
  fst <$> exProcess (tinySum 34) (after (handle l) (exWorld ∅)) = Some SOFTBUS_ERR.
Proof. split; [|split]; by vm_compute. Qed.

(** A file of two pieces of three bytes with the same checksum, which is not
    0. *)
Definition twinPiece (x : Z) : bytes := x :: leBytes 2 (Z.lxor (crc16 [x]) 5).
Definition twinStart : FileFrame :=
  let d := leBytes 4 FILE_MAGIC_NUMBER ++ leBytes 8 13 ++ leBytes 4 3 ++ leBytes 8 6 ++ [102] ++ replicate 8 0 in
  MkFrame TRANS_SESSION_FILE_FIRST_FRAME (len d) 0 (Some d).
Definition twinData (sq x : Z) : FileFrame :=
  let d := dataFrame sq (twinPiece x) (crc16 (twinPiece x)) in MkFrame TRANS_SESSION_FILE_ONGOINE_FRAME (len d) 0 (Some d).

(** The first frame comes twice in its window, the second is lost: the
    receiver appends and counts the first again, and accepts the sum. *)
Lemma open_repeat_accepted :
  let sum := crc16 (twinPiece 1) + crc16 (twinPiece 2) in
  let check := let d := sumFrame 3 sum in MkFrame TRANS_SESSION_FILE_CRC_CHECK_FRAME (len d) 0 (Some d) in
  let r := handle [twinStart; twinData 1 1; twinData 1 1; check] in
  crc16 (twinPiece 1) = crc16 (twinPiece 2) /\ crc16 (twinPiece 1) <> 0 /\
  fst <$> r (exWorld ∅) = Some [SOFTBUS_OK; SOFTBUS_OK; SOFTBUS_OK; SOFTBUS_OK] /\
  disk (after r (exWorld ∅)) !! exPath = Some (twinPiece 1 ++ twinPiece 1).
Proof. split_and!; by vm_compute. Qed.

(** A longer file is there before and cannot be truncated: the file that was
    accepted ends with the rest of the old one. *)
Lemma old_tail_kept :
  let w := setAnswers (replicate 13 0 ++ [1]) (exWorld {[ exPath := replicate 1003 9 ]}) in
  let r := handle [startOf exFile; dataOf exFile TRANS_SESSION_FILE_ONGOINE_FRAME 0; dataOf exFile TRANS_SESSION_FILE_LAST_FRAME 1; checkFrame exFile 0] in
  fst <$> r w = Some [SOFTBUS_OK; SOFTBUS_OK; SOFTBUS_OK; SOFTBUS_OK] /\
  disk (after r w) !! exPath = Some (exFile ++ [9; 9; 9]).
Proof. split; by vm_compute. Qed.

(** A frame of the second window is lost, and the receiver answers that all of
    that window arrived: [0x01 << 31] filled the upper half of the results. *)
Lemma later_loss_acknowledged :
  let l := [tinyStart] ++ tinySome (List.seq 0 32) ++ [requestOf 1] ++ tinySome (List.seq 32 7 ++ List.seq 40 24) ++ [requestOf 33] in
  last (out (after (handle l) (exWorld ∅))) = Some (MkMessage 4 TRANS_SESSION_FILE_ACK_RESPONSE_SENT (ackBytes 33 FILE_SEND_ACK_RESULT_SUCCESS)).
Proof. by vm_compute. Qed.

(** After a transfer that was accepted, the list of files finds no recipient:
    the application is not told that the file is there, and the recipient is
    kept with its descriptor. *)
Lemma list_not_found :
  let w := ex7 in
  let list := MkFrame TRANS_SESSION_FILE_ALLFILE_SENT 9 0 (Some (itemBytes 0 [[102]])) in
  fst <$> exProcess list w = Some SOFTBUS_NOT_FIND /\
  existsb (fun e => match e with Finished _ _ _ => true | _ => false end) (events (after (exProcess list) w)) = false /\
  recvList (after (exProcess list) w) = [0] /\ fds (after (exProcess list) w) !! 3 = Some exPath.
Proof. split_and!; by vm_compute. Qed.

(** A call that fails before the file is opened closes descriptor 0. *)
Lemma failed_send_closes_zero :
  let w := setFds {[ 0 := [1] ]} 3 (exWorld ∅) in
  let m := ProxyChannelSendFile exReal exClient 9 (Some [Some [47; 115]]) (Some [Some [46; 46]]) 1 in
  fst <$> m w = Some SOFTBUS_TRANS_PROXY_SENDMSG_ERR /\ fds (after m w) !! 0 = None.
Proof. split; by vm_compute. Qed.

(** So does a recipient whose file could not be opened. *)
Lemma failed_receive_closes_zero :
  let w := setAnswers (replicate 10 0 ++ [1]) (setFds {[ 0 := [1] ]} 3 (exWorld ∅)) in
  fst <$> exProcess (startOf exFile) w = Some SOFTBUS_ERR /\ fds (after (exProcess (startOf exFile)) w) !! 0 = None.
Proof. split; by vm_compute. Qed.

(** [CreatePendingPacket] that cannot make its mutex leaves the lock of the
    list held: the next call does not return. *)
Lemma pending_lock_held :
  let w := setAnswers [0; 0; 1] (exWorld ∅) in
  fst <$> CreatePendingPacket 7 0 w = Some SOFTBUS_LOCK_ERR /\ CreatePendingPacket 8 0 (after (CreatePendingPacket 7 0) w) = None.
Proof. split; by vm_compute. Qed.

(** A first frame of 16 bytes passes the check of the length, and the size is
    read behind its end. *)
Lemma short_start_read :
  let d := leBytes 4 FILE_MAGIC_NUMBER ++ leBytes 8 12 ++ leBytes 4 958 in
  exProcess (MkFrame TRANS_SESSION_FILE_FIRST_FRAME (len d) 0 (Some d)) (exWorld ∅) = None.
Proof. by vm_compute. Qed.

(** A result of 20 bytes passes the check of the length, and the code is read
    behind its end. *)
Lemma short_result_read :
  let d := leBytes 4 FILE_MAGIC_NUMBER ++ leBytes 8 12 ++ leBytes 4 0 ++ leBytes 4 0 in
  exProcess (MkFrame TRANS_SESSION_FILE_RESULT_FRAME (len d) 0 (Some d)) (exWorld ∅) = None.
Proof. by vm_compute. Qed.

(** Without checksums the name is looked for 8 bytes too far, and read behind
    the end of the frame. *)
Lemma plain_start_read :
  let cl := MkClient (fun _ => Some 7) (fun _ => Some [110]) (fun _ => Some 0) (fun _ => Some exListener) in
  let info := MkSend 9 7 3 1000 3 0 0 0 0 0 0 exListener in
  let d := snd (PackFileTransStartInfo [102] 1000 info) in
  ProcessRecvFileFrameData exReal cl 7 4 (MkFrame TRANS_SESSION_FILE_FIRST_FRAME (len d) 0 (Some d)) (exWorld ∅) = None.
Proof. by vm_compute. Qed.

(** After the service was stopped the timer still runs, with a lock that was
    destroyed. *)
Lemma timer_after_stop s m1 m2 m3 s' : ClinetTransProxyFileManagerInit m1 m2 m3 s = (SOFTBUS_OK, s') ->
  ClinetTransProxyFileManagerDeinit s' = MkManager false false true.
Proof.
  unfold ClinetTransProxyFileManagerInit. destruct (_ && _); [done|]. cbv zeta. destruct (_ && _); [done|]. destruct (negb _); [done|]. by intros [= <-].
Qed.

End ProxyDefects.
